(* ===== verification/_CoqProject ===== *)
-Q . S2P
Prelude.v
Bwry.v
GoLib.v
FaasProto.v
JsonText.v
Crypto.v
Db.v
Auth.v
C2.v
C2Notify.v
Rollout.v
OtaTicket.v
LogIngest.v
LogQuery.v
RenderDb.v
FaasStore.v
PlaylistStore.v
PlRender.v
Bindings.v
Wake.v
Supervisor.v
Worker.v
PlaylistFrame.v
Frame.v
FrameSafety.v
SingleFlight.v
FrameArm.v
TestRender.v
Credentials.v
CredentialLaws.v
RateLimit.v
AdminGate.v
AdminAuth.v
AdminHttp.v
TemplateStore.v
TemplateSubst.v
Fleet.v
DeviceStore.v
DeviceHttp.v
TemplateHttp.v
TemplateApply.v
TemplatePreview.v
DbLogic.v
Images.v
ImageLaws.v
Thumbnail.v
ImageHttp.v
PlaylistHttp.v
PlaylistLaws.v
FaasHttp.v
Net.v
Egress.v
Secrets.v
Events.v
Telemetry.v
LogHttp.v
OtaHttp.v
GoText.v
Flash.v
FlashLaws.v
OpsLogs.v
OpsOta.v
OpsOtaPane.v
OpsOtaLaws.v
OpsKeys.v
OpsShell.v
OpsChromeLaws.v
OpsShellLaws.v
OpsHosts.v
OpsConfig.v
OpsConfigLaws.v
OpsConsole.v
OpsConsoleLaws.v
OpsBuild.v
OpsTele.v
OpsLogPane.v
OpsFlashPane.v
Backend.v
OpsOtaView.v
OpsMain.v
