(* ===== verification/Prelude.v ===== *)
(** * open-picpak: verification library (root file)

    A server (Go, [backend/]) renders images and functions for battery-powered
    e-paper panels, keeps what each panel shows, takes in their telemetry and
    logs, sends them commands and firmware, and serves the operators' web
    panel. A terminal console ([tools/picpak-ops]) builds and flashes the
    firmware over SSH. This library models the Go code of both and proves what
    makes it correct. Paths below are under [src/].

    ** How the parts interact

    A panel polls [GET /frame], pushes to [/pp], long-polls and acknowledges
    commands on the C2 routes, and downloads firmware with a ticket that the
    push handed it. The ingest process answers these and reaches the supervisor
    ([faascore]) for frames, which keeps a durable last good frame per device,
    renders through one-shot workers ([faasproto]) and serves playlists through
    a rotation cursor and a variant cache. The operators' process gates every
    route (sessions, Basic, machine tokens, operator keys), writes the same
    tables, and streams their changes to the panel. Workers reach the network
    through the egress proxy only, and secrets through the sealed store.

    The console is a program of its own on an operator's bench: a shell of tiles
    holds panes (hosts, build, console, flash, telemetry, logs, OTA), which share
    one registry of hosts reached over SSH and one pool of database connections,
    mostly read-only. It builds the firmware in a container, verifies the
    artifacts, writes them to devices over USB and watches the fleet.

    ** Files

    A component's state is a record of its tables or fields, its operations
    are functions in the order of the code with the guards of its conditions,
    and a handler returns the reply that is written. A file [X] holds the
    definitions in a module of its name; the theorems are in a module [XLaws],
    in the same file or in one of that name.

    Foundations:
    - [Prelude]: results, widths, strings, tactics and the hint database.
    - [GoLib], [GoText]: the parts of Go's standard library that the code
      calls (numbers, [strings], base64, hex, paths), defined and tested on
      examples. [JsonText]: [json.Valid] and the quoting of strings. [Crypto]:
      SHA-1, SHA-256, HMAC, executable. [Net]: addresses as text and bytes
      (and [NetLaws]).
    - [Db]: statements over tables under a schedule of faults ([M]), rollback
      and commit ([Tx], [with_tx]). [DbLogic]: a program logic for them.
    - [RenderDb]: the tables of the frame side; [Fleet]: all tables as one
      record, each component on its view, and the handlers' monad [MF].

    Devices ([backend/internal]):
    - [Auth] ([auth]), [C2] ([ingestcore] c2, c2auth, c2rekey; [commandstore]),
      [C2Notify] (c2notify, the long poll).
    - [LogIngest] (server, logingest, ota), [OtaTicket] ([otaticket]),
      [Rollout] ([rollout], [rolloutadmin]), [LogQuery] ([logquery]).
    - [FrameArm] (ingestcore/faas.go: [GET /frame], the webhook, dispatch).

    Frames:
    - [Bwry] ([bwry]), [FaasProto] ([faasproto]), [Worker] (faascore/render.go),
      [Supervisor], [Wake], [PlaylistFrame], [Frame], [FrameSafety],
      [SingleFlight], [TestRender] ([faascore]).
    - [FaasStore], [PlaylistStore], [PlRender] (the stores), [Bindings] (what
      their tables satisfy; with the images: [ImageLaws.tables_invariant]).

    Operators:
    - [Credentials], [CredentialLaws] ([apitoken], [adminuser],
      [adminsession], [operator], [adminaudit], [argon2id]); [RateLimit],
      [AdminGate], [AdminAuth], [AdminHttp] ([adminhttp] and the login, logout
      and token routes of [cmd/backend]).
    - [DeviceStore] (with [DeviceLaws]), [DeviceHttp] ([devicestore], devices.go,
      commands.go); [TemplateStore] (with [TemplateLaws]), [TemplateSubst],
      [TemplateHttp], [TemplateApply], [TemplatePreview] ([templatestore] and
      its routes); [Images], [ImageLaws], [Thumbnail], [ImageHttp] ([imgstore],
      image_http.go); [PlaylistHttp], [PlaylistLaws] (playlist_http.go,
      panel_http.go); [FaasHttp] (with [FunctionLaws]; faas_http.go,
      faas_ui_http.go); [Telemetry] (with [TelemetryLaws]; [telemetry],
      telemetry_http.go); [LogHttp] (logs_http.go); [OtaHttp] (with [OtaLaws];
      ota_http.go); [Events] (with [EventLaws]; events.go).
    - [Secrets] (with [SecretLaws]; [sealbox], [secrets], secrets_api.go,
      secretdecrypt.go), [Egress] (with [EgressLaws]; cmd/faas-egress).
    - [Backend]: the process as a whole. Module [Mux] is the request multiplexer
      of [net/http], [Web] the embedded panel ([web/web.go]), [Warm] the playlist
      warmer (faascore/warm.go), [Backend] the route table with the gate of each
      route, the catch-all, the listeners and the start (backend.go, onboardfw.go,
      onboarddefaults.go); [BackendLaws] and [WarmLaws] their theorems. The
      handlers behind the routes are arguments there: they are the components
      above.

    The operator console ([tools/picpak-ops/internal]):
    - [OpsKeys] ([keys], config/keymap.go), [OpsShell] ([pane], [layout], [app];
      laws in [OpsChromeLaws] and [OpsShellLaws]), [OpsConfig] and
      [OpsConfigLaws] ([config]).
    - [OpsHosts] ([sshhost]): command lines, streamed runs, discovery, the
      identity gate, poll workers, the registry and the inventory pane.
    - [OpsConsole] and [OpsConsoleLaws] ([console]), [OpsBuild] (with
      [OpsBuildPane] and [OpsBuildLaws]; [build], [buildpane]).
    - [Flash] and [FlashLaws] ([flash]), [OpsFlashPane] ([flashpane] and the life
      of the flash controller).
    - [OpsLogs] (the tail store) and [OpsLogPane] ([logs]; [OpsLogTail] is the
      store's goroutine step by step), [OpsTele] ([fleet], [telemetry]), [OpsOta], [OpsOtaPane], [OpsOtaLaws] and
      [OpsOtaView] ([ota]).
    - [OpsMain] ([db], [cmd/picpak-ops]): the pool and the start.

    ** What the theorems show

    - End to end: [OtaLaws.upload_reaches_device] (an uploaded firmware is what
      the pinned device downloads), [OpsOtaLaws.predicted_is_served] (what the
      console predicts is what the server serves), [ImageHttp.upload_served],
      [LogQuery.Reconstruct_stream] (a device's log stream is rebuilt), and
      [SecretLaws.put_recovered].
    - The server as a whole: [BackendLaws.server_gated] (every request is
      answered at a gate or runs the one handler its route names, with a
      principal the tables justify and the privilege the route asks for),
      [BackendLaws.device_paths] (a device's path reaches the devices' side),
      [BackendLaws.panel_serves_dist] (the panel serves its own files only).
    - Command channel: [C2.handleC2_refines_spec] (the handlers implement an
      abstract queue), no replay, a queue that drains, an authentic re-key,
      no wake-up lost between the poll and the hub.
    - Frames: [FrameSafety.Render_always_serves] (a device always gets a frame
      of the right size: fresh, its last good one or an error card),
      containment of the worker's output, one advance of the rotation per wake,
      one render per variant under concurrent requests, and its termination;
      [WarmLaws.warm_then_wake] (variants are warm before their devices wake).
    - Tables: the invariants of bindings, credentials, images and rollouts under
      every operation and every fault; what a registration and a deletion leave.
    - Access: who the admin gate admits ([AdminAuth.Auth_admits]), what each
      credential may do, which routes refuse what; rate limits that isolate keys
      while there are no more than the cap;
      substitution into a template that cannot escape its string.
    - Contained effects: the egress proxy connects only to addresses that the
      policy allows, under rebinding; secrets leave only for their function; the
      sweep re-seals under the new key.
    - Streams: each subscriber of the event hub is offered every frame once and
      in order under every interleaving, its bytes parse back, its roster is the
      one polled; the live tails of telemetry and of the console's logs show every
      row once, under the provisos of their statements.
    - Flashing: no esptool run of the write set touches the factory NVS region,
      whatever the host answers; a verdict is true and the pane's matrix tells
      it; a batch ends. A green build is one whose artifacts were verified.
    - Console: the shell keeps one focus, closes each pane once and does not quit
      past working panes unconfirmed; in a loaded configuration no
      artifact starts in a protected region; a device is
      confirmed only against what its host reports; a console attaches only when
      asked; what a screen shows is the state behind it.

    Where the code does not do what it or its documents say, the theorem states
    what it does, and its comment says that it was found as written.

    ** Faults, concurrency and time

    Every statement consumes one entry of a fault schedule ([list bool]; past
    its end nothing fails), so that a theorem for all schedules covers a
    connection lost at any point, also an encoding the database refuses. A
    transaction is atomic; concurrency is a sequence of transactions, or, where
    the code shares memory (the long poll, the single flight, the event hub, a
    flash batch, the tail store of the logs pane), a step relation over every interleaving. A flight's put and
    close are one step, a panic inside a flight is not modelled, and the preview
    slot orders its users. A request reads the clock once; timestamps keep the
    unit that the code compares in (seconds where it truncates).

    ** Fuel and bounds

    Recursion is structural or over a list wherever the code's is bounded by
    its data. Fuel is used for number formatting (the number of bits of the
    number, always enough), for rotation walks (the length of the playlist plus
    one), for scrollback (a page per row at most) and in the single flight (a
    measure that each step decreases); the theorems about them state that the
    fuel suffices. Integers have the width of the code; wrap-around is written
    out ([u8], [u32], [u64], [i64]), also where it cannot occur.

    ** What is an argument

    Code outside the repository is an argument of the definitions that use it,
    with what is relied on as hypotheses: AEAD sealing, argon2 and ECDSA
    verification, curve membership, JSON codecs, URL parsing, the text of
    floating-point numbers, image decoders and PNG encoding, content sniffing,
    durations as text, [strings.EqualFold], the collation of the database, the
    comparison of two JSONB values, DNS, dials and hijacked connections, the
    upstream of the proxy, the remote shell and esptool, the TOML decoder, compiled
    patterns as what they match, and the widget library of the console.

    ** Not modelled

    - Timing: equalised comparisons and dummy verifications return the same
      values and are not distinguished. Deadlines appear as outcomes.
    - created_at and updated_at columns that nothing reads; duplicate keys that
      JSONB drops; NULL and the empty string are one value in the audit trail; a
      last_seen_at of 0 is NULL. The label column, and the operator and creation
      of an image, are kept in maps of their own. The blob volume holds files
      only, and the name of a temporary file is not chosen.
    - Notifications of a playlist change are a list of signals. Deadlines and
      flushes of event streams and their shutdown are not modelled; the order of
      a Go map's iteration is any of its orders. The sweep of secrets is modelled
      with other requests between its steps. The redaction of secret values is
      the identity on the path without a worker. HTTP wrappers that only tests
      use are left out.
    - Of the console: the widget library (text inputs, viewports, styles and text
      widths are arguments with the laws the code relies on), processes and pipes
      ([os/exec]), the program loop, and a panic in a pane.
    - The firmware (C), the web panel (TypeScript, Svelte), the TypeScript
      worker, flag parsing and the command line tools, reading the environment,
      endless tickers around modelled operations, and SQL as text: they are I/O
      and wiring or code in other languages; the component list of the manifest
      names them. *)

From stdpp Require Export base gmap strings list fin_maps sorting.
From Stdlib Require Export ZArith Lia.

#[global] Open Scope Z_scope.
#[global] Set Default Goal Selector "!".

(** ** Results

    A Go function returning [(T, error)] is a [result E T]: the error value is
    a constructor of the component's error type. *)

Inductive result (E A : Type) : Type :=
| Ok (a : A)
| Err (e : E).
Arguments Ok {E A} a.
Arguments Err {E A} e.

#[export] Instance result_ret E : MRet (result E) := λ A, Ok.
#[export] Instance result_bind E : MBind (result E) := λ A B f m,
  match m with Ok a => f a | Err e => Err e end.
#[export] Instance result_fmap E : FMap (result E) := λ A B f m,
  match m with Ok a => Ok (f a) | Err e => Err e end.
#[export] Instance result_eq_dec E A `{EqDecision E} `{EqDecision A} :
  EqDecision (result E A).
Proof. solve_decision. Defined.

(** Injectivity stated as a lemma: it leaves the components as they are. *)
Lemma Ok_pair_inv {E A S} (a b : A) (s s' : S) :
  (Ok (E:=E) a, s) = (Ok b, s') → a = b ∧ s = s'.
Proof. by intros [= -> ->]. Qed.

Definition is_ok {E A} (r : result E A) : bool :=
  match r with Ok _ => true | Err _ => false end.

(** ** Bytes and machine integers

    A byte is a [Z] in [0, 256); a w-bit integer is a [Z] with its wrap-around
    written out at the operations that can wrap. *)

Abbreviation bytes := (list Z).

Definition byte_ok (b : Z) : Prop := 0 ≤ b < 256.
Abbreviation bytes_ok := (Forall byte_ok).

Definition u8 (z : Z) : Z := z mod 2 ^ 8.
Definition u32 (z : Z) : Z := z mod 2 ^ 32.
Definition u64 (z : Z) : Z := z mod 2 ^ 64.
Definition i32 (z : Z) : Z := (z + 2 ^ 31) mod 2 ^ 32 - 2 ^ 31.
Definition i64 (z : Z) : Z := (z + 2 ^ 63) mod 2 ^ 64 - 2 ^ 63.

Definition max_i64 : Z := 2 ^ 63 - 1.
Definition min_i64 : Z := - 2 ^ 63.
Definition in_i64 (z : Z) : Prop := min_i64 ≤ z ≤ max_i64.
Definition in_u64 (z : Z) : Prop := 0 ≤ z < 2 ^ 64.

Definition zlen {A} (l : list A) : Z := Z.of_nat (length l).

(** Go's [string] as the byte sequence it is. *)
Definition bytes_of_string (s : string) : bytes :=
  map (λ a, Z.of_N (Ascii.N_of_ascii a)) (String.list_ascii_of_string s).
Definition string_of_bytes (b : bytes) : string :=
  String.string_of_list_ascii (map (λ z, Ascii.ascii_of_N (Z.to_N z)) b).

(** ** Tactics *)

(** Case analysis on every boolean comparison and [if] of the goal. *)
Ltac zcase :=
  repeat match goal with
  | |- context [?a <=? ?b] => destruct (Z.leb_spec a b)
  | |- context [?a <? ?b] => destruct (Z.ltb_spec a b)
  | |- context [?a =? ?b] => destruct (Z.eqb_spec a b)
  end; simpl.

(** The same on a hypothesis. *)
Ltac zcase_in H :=
  repeat match type of H with
  | context [?a <=? ?b] => destruct (Z.leb_spec a b)
  | context [?a <? ?b] => destruct (Z.ltb_spec a b)
  | context [?a =? ?b] => destruct (Z.eqb_spec a b)
  end; simpl in H.

(** Closes the arithmetic left by [zcase]. *)
Ltac zsolve := zcase; first [done | exfalso; lia | lia | congruence].

(** Linear arithmetic with division and modulo by constants. *)
Ltac dlia := Z.to_euclidean_division_equations; lia.

(** Runs through the matches of a handler, discarding the impossible branches. *)
Ltac crush_match :=
  repeat (simplify_eq/=; first [case_match | case_decide]); simplify_eq/=.

Create HintDb picpak.

(** ** Machine integers: lemmas *)

Lemma u8_small z : 0 ≤ z < 256 → u8 z = z.
Proof. intros; unfold u8; apply Z.mod_small; lia. Qed.
Lemma u32_small z : 0 ≤ z < 2 ^ 32 → u32 z = z.
Proof. intros; unfold u32; apply Z.mod_small; lia. Qed.
Lemma u64_small z : 0 ≤ z < 2 ^ 64 → u64 z = z.
Proof. intros; unfold u64; apply Z.mod_small; lia. Qed.
Lemma i32_small z : - 2 ^ 31 ≤ z < 2 ^ 31 → i32 z = z.
Proof. intros; unfold i32; rewrite Z.mod_small; lia. Qed.
Lemma i64_small z : in_i64 z → i64 z = z.
Proof. unfold in_i64, min_i64, max_i64, i64; intros; rewrite Z.mod_small; lia. Qed.
Lemma u8_byte z : byte_ok (u8 z).
Proof. unfold byte_ok, u8. apply (Z.mod_pos_bound z (2^8)). lia. Qed.
Lemma u32_bound z : 0 ≤ u32 z < 2 ^ 32.
Proof. apply Z.mod_pos_bound; lia. Qed.
Lemma u64_bound z : 0 ≤ u64 z < 2 ^ 64.
Proof. apply Z.mod_pos_bound; lia. Qed.
#[export] Hint Resolve u8_byte u32_bound u64_bound : picpak.

(** ** Lists: lemmas shared by the components *)

Lemma zlen_nonneg {A} (l : list A) : 0 ≤ zlen l.
Proof. unfold zlen; lia. Qed.
Lemma zlen_app {A} (l k : list A) : zlen (l ++ k) = zlen l + zlen k.
Proof. unfold zlen; rewrite length_app; lia. Qed.
Lemma zlen_nil_inv {A} (l : list A) : zlen l = 0 → l = [].
Proof. unfold zlen; destruct l; simpl; [done|lia]. Qed.
Lemma zlen_cons {A} (x : A) l : zlen (x :: l) = 1 + zlen l.
Proof. unfold zlen; simpl length; lia. Qed.

Lemma take_app_len {A} (l k : list A) n : n = length l → take n (l ++ k) = l.
Proof. intros ->. apply take_app_length. Qed.
Lemma drop_app_len {A} (l k : list A) n : n = length l → drop n (l ++ k) = k.
Proof. intros ->. apply drop_app_length. Qed.

(** The head of a list that satisfies a boolean test, as Go's
    [for _, x := range l { if p(x) { return x } }]. *)
Fixpoint find_first {A} (p : A → bool) (l : list A) : option A :=
  match l with
  | [] => None
  | x :: l' => if p x then Some x else find_first p l'
  end.

Lemma find_first_Some {A} (p : A → bool) l x :
  find_first p l = Some x → x ∈ l ∧ p x = true.
Proof.
  induction l as [|y l IH]; simpl; [done|].
  destruct (p y) eqn:Hy; intros; simplify_eq.
  - split; [left|done].
  - destruct IH; [done|]; split; [by right|done].
Qed.

Lemma find_first_None {A} (p : A → bool) l :
  find_first p l = None ↔ ∀ x, x ∈ l → p x = false.
Proof.
  induction l as [|y l IH]; simpl.
  - split; [|done]. intros _ x Hx. by apply not_elem_of_nil in Hx.
  - destruct (p y) eqn:Hy; split; intros H; try done.
    + specialize (H y (list_elem_of_here _ _)). congruence.
    + intros x Hx. apply elem_of_cons in Hx as [->|Hx]; [done|]. by apply IH.
    + apply IH. intros x Hx. apply H. by right.
Qed.

(** Lookup in the concatenation of [h] rows of the same length [w]. *)
Lemma lookup_rows {A} (f : Z → list A) (w : nat) (h s : Z) (y x : nat) :
  (∀ i, s ≤ i < s + h → length (f i) = w) → (x < w)%nat → Z.of_nat y < h →
  (seqZ s h ≫= f) !! (y * w + x)%nat = f (s + Z.of_nat y) !! x.
Proof.
  intros Hf Hx. revert s h Hf. induction y as [|y IH]; intros s h Hf Hy.
  - rewrite (seqZ_cons s h) by lia. rewrite bind_cons.
    rewrite lookup_app_l by (rewrite Hf; lia). f_equal. f_equal. lia.
  - rewrite (seqZ_cons s h) by lia. rewrite bind_cons.
    rewrite lookup_app_r by (rewrite Hf; lia). rewrite Hf by lia.
    replace (S y * w + x - w)%nat with (y * w + x)%nat by lia.
    rewrite IH; [f_equal; f_equal; lia|intros; apply Hf; lia|lia].
Qed.

Lemma length_rows {A} (f : Z → list A) (w : nat) (h s : Z) :
  (∀ i, s ≤ i < s + h → length (f i) = w) →
  length (seqZ s h ≫= f) = (Z.to_nat h * w)%nat.
Proof.
  intros Hf. destruct (Z.le_gt_cases 0 h) as [Hh|Hh].
  2: { rewrite seqZ_nil by lia. replace (Z.to_nat h) with 0%nat by lia. done. }
  rewrite <-(Z2Nat.id h) in Hf |- * by done. rewrite Nat2Z.id. revert s Hf.
  induction (Z.to_nat h) as [|n IH]; intros s Hf; [done|].
  rewrite seqZ_cons, bind_cons, length_app, Hf by lia.
  replace (Z.pred (Z.of_nat (S n))) with (Z.of_nat n) by lia.
  rewrite IH by (intros; apply Hf; lia). lia.
Qed.

Lemma nth_byte l n : bytes_ok l → byte_ok (nth n l 0).
Proof.
  intros Hl. rewrite nth_lookup. destruct (l !! n) eqn:Hn; simpl.
  - by eapply Forall_lookup_1 in Hl.
  - unfold byte_ok. lia.
Qed.

Lemma nth_lookup_in {A} (l : list A) n d : (n < length l)%nat → l !! n = Some (nth n l d).
Proof.
  intros Hn. rewrite nth_lookup. destruct (l !! n) eqn:Heq; [done|].
  apply lookup_ge_None in Heq. lia.
Qed.

(** Induction four elements at a time, as a loop with stride 4 runs. *)
Lemma list_ind4 {A} (P : list A → Prop) :
  P [] → (∀ a, P [a]) → (∀ a b, P [a; b]) → (∀ a b c, P [a; b; c]) →
  (∀ a b c d l, P l → P (a :: b :: c :: d :: l)) → ∀ l, P l.
Proof.
  intros H0 H1 H2 H3 H4. fix go 1.
  intros [|a [|b [|c [|d l]]]]; [done|apply H1|apply H2|apply H3|apply H4, go].
Qed.

Lemma lor_byte a b : byte_ok a → byte_ok b → byte_ok (Z.lor a b).
Proof.
  unfold byte_ok. intros Ha Hb. assert (0 ≤ Z.lor a b) by (apply Z.lor_nonneg; lia).
  split; [done|]. destruct (decide (Z.lor a b = 0)) as [->|Hne]; [lia|].
  apply (Z.log2_lt_pow2 _ 8); [lia|]. rewrite Z.log2_lor by lia.
  apply Z.max_lub_lt.
  - destruct (decide (a = 0)) as [->|]; [done|]. apply Z.log2_lt_pow2; lia.
  - destruct (decide (b = 0)) as [->|]; [done|]. apply Z.log2_lt_pow2; lia.
Qed.

Lemma sorted_snoc (l : list Z) x :
  StronglySorted Z.lt l → Forall (λ y, y < x) l → StronglySorted Z.lt (l ++ [x]).
Proof.
  induction l as [|y l IH]; intros Hs Hx; simpl.
  - repeat constructor.
  - apply StronglySorted_inv in Hs as [Hs Hy]. apply Forall_cons_1 in Hx as [Hyx Hx].
    constructor; [by apply IH|]. apply Forall_app. by repeat constructor.
Qed.
