(* ===== verification/Bwry.v ===== *)
(** * The BWRY panel pipeline ([internal/bwry])

    Quantisation of a raw RGB frame to the four panel colours, the Y-mirror,
    the 2-bit packing, and the Atkinson dither with its float32 work buffers
    and float64 arithmetic (IEEE 754, through the executable [SpecFloat]).
    Width and height are section variables: the code fixes them at 400 and 300
    ([panel_width], [panel_height]), small ones make the definitions run. *)

From S2P Require Import Prelude.
From Stdlib Require Import SpecFloat.

Module Bwry.

(** ** Images

    [image.Image] as its bounds and [At(x, y).RGBA()], which returns 16-bit
    alpha-premultiplied channels. *)

Record image := Image {
  min_x : Z; min_y : Z; max_x : Z; max_y : Z;
  rgba_at : Z → Z → Z * Z * Z }.

Definition dx (img : image) : Z := max_x img - min_x img.
Definition dy (img : image) : Z := max_y img - min_y img.

(** [color.NRGBA.RGBA] for one channel: [r |= r<<8; r *= a; r /= 0xff]. *)
Definition nrgba_channel (c a : Z) : Z :=
  Z.lor c (Z.shiftl c 8) * a / 255.

(** The 8-bit channel the pipeline reads back: [uint8(c16 >> 8)]. *)
Definition hi8 (c16 : Z) : Z := u8 (Z.shiftr c16 8).

Definition pixel (img : image) (x y : Z) : Z * Z * Z :=
  let '(r16, g16, b16) := rgba_at img (min_x img + x) (min_y img + y) in
  (hi8 r16, hi8 g16, hi8 b16).

(** ** Nearest colour (quantize.go) *)

Definition palette : list (Z * Z * Z) :=
  [(0, 0, 0); (255, 255, 255); (255, 255, 0); (255, 0, 0)].

Definition sq_dist (p : Z * Z * Z) (r g b : Z) : Z :=
  let '(pr, pg, pb) := p in
  let dr := i32 (r - pr) in
  let dg := i32 (g - pg) in
  let db := i32 (b - pb) in
  i32 (i32 (i32 (dr * dr) + i32 (dg * dg)) + i32 (db * db)).

(** The strict-less argmin loop: [(c, best, bestD)] is the loop state. *)
Fixpoint argmin_loop {D} (lt : D → D → bool) (dist : Z * Z * Z → D)
    (pal : list (Z * Z * Z)) (c best : Z) (bestD : D) : Z :=
  match pal with
  | [] => best
  | p :: pal' =>
      if lt (dist p) bestD
      then argmin_loop lt dist pal' (c + 1) c (dist p)
      else argmin_loop lt dist pal' (c + 1) best bestD
  end.

Definition nearest_code (r g b : Z) : Z :=
  argmin_loop Z.ltb (λ p, sq_dist p r g b) palette 0 0 (2 ^ 30).

(** ** 2-bit packing (pack.go) *)

(** The byte of up to four codes, MSB first; [i] is the position in the byte. *)
Fixpoint pack_byte (i : Z) (v : Z) (codes : list Z) : Z :=
  match codes with
  | [] => v
  | c :: cs => pack_byte (i + 1) (Z.lor v (u8 (Z.shiftl (Z.land c 3) (6 - 2 * i)))) cs
  end.

Fixpoint pack2bpp (codes : list Z) : bytes :=
  match codes with
  | [] => []
  | a :: b :: c :: d :: rest => pack_byte 0 0 [a; b; c; d] :: pack2bpp rest
  | short => [pack_byte 0 0 short]
  end.

(** ** Atkinson dither (dither.go) *)

(** float64 and float32 as IEEE 754 binary formats. *)
Definition f64_add := SFadd 53 1024.
Definition f64_sub := SFsub 53 1024.
Definition f64_mul := SFmul 53 1024.
Definition f64_div := SFdiv 53 1024.
Definition f64_of_Z (z : Z) : spec_float := binary_normalize 53 1024 z 0 false.
(** [float32(x)] of a float64: round to the 24-bit format; the conversion back
    to float64 is exact, so the buffers hold the float32 value itself. *)
Definition f32 (x : spec_float) : spec_float :=
  match x with
  | S754_finite s m e => binary_normalize 24 128 (cond_Zopp s (Zpos m)) e s
  | _ => x
  end.
(** [float64(x)] of a float32: the same value in the 53-bit format. *)
Definition f64_of_f32 (x : spec_float) : spec_float :=
  match x with
  | S754_finite s m e => binary_normalize 53 1024 (cond_Zopp s (Zpos m)) e s
  | _ => x
  end.

(** [float32(uint8(c))]: an integer constant rounded to the 24-bit format. *)
Definition f32_of_byte (c : Z) : spec_float := binary_normalize 24 128 c 0 false.

(** A decimal constant [n / d] of the source, correctly rounded. *)
Definition f64_const (n d : Z) : spec_float := f64_div (f64_of_Z n) (f64_of_Z d).

(** [int(x)] of a float64; amd64 gives the minimum out of range. *)
Definition trunc_f64 (x : spec_float) : Z :=
  match x with
  | S754_zero _ => 0
  | S754_finite sgn m e =>
      let mag := if 0 <=? e then Z.shiftl (Z.pos m) e else Z.shiftr (Z.pos m) (- e) in
      let v := if sgn then - mag else mag in
      if (min_i64 <=? v) && (v <=? max_i64) then v else min_i64
  | _ => min_i64
  end.

Definition lumaW : spec_float * spec_float * spec_float :=
  (f64_const 299 1000, f64_const 587 1000, f64_const 114 1000).

Definition luma_dist (r g b : spec_float) (p : Z * Z * Z) : spec_float :=
  let '(pr, pg, pb) := p in
  let '(wr, wg, wb) := lumaW in
  let dr := f64_sub r (f64_of_Z pr) in
  let dg := f64_sub g (f64_of_Z pg) in
  let db := f64_sub b (f64_of_Z pb) in
  f64_add (f64_add (f64_mul (f64_mul wr dr) dr) (f64_mul (f64_mul wg dg) dg))
          (f64_mul (f64_mul wb db) db).

Definition nearest_code_bt601 (r g b : spec_float) : Z :=
  argmin_loop SFltb (luma_dist r g b) palette 0 0 (S754_infinity false).

Inductive dither := DitherNone | DitherAtkinson | DitherOther (n : Z).

Definition parse_dither (s : string) : option dither :=
  if decide (s = "none"%string) then Some DitherNone
  else if decide (s = "atkinson"%string) then Some DitherAtkinson
  else None.

(** Atkinson kernel: 6 neighbours, 1/8 each. *)
Definition kernel : list (Z * Z) := [(1, 0); (2, 0); (-1, 1); (0, 1); (1, 1); (0, 2)].

(** The three work planes and the code plane. *)
Record planes := Planes {
  pl_r : list spec_float; pl_g : list spec_float; pl_b : list spec_float;
  pl_code : list Z }.

(** [r[j] = float32(float64(r[j]) + e)]; [j] is in range by the caller's test. *)
Definition store_add (l : list spec_float) (j : Z) (e : spec_float) : list spec_float :=
  match l !! Z.to_nat j with
  | Some v => <[Z.to_nat j := f32 (f64_add (f64_of_f32 v) e)]> l
  | None => l
  end.

Definition palette_at (c : Z) : Z * Z * Z := nth (Z.to_nat c) palette (0, 0, 0).

Definition quant_err (v : spec_float) (p : Z) : spec_float :=
  f64_div (f64_sub v (f64_of_Z p)) (f64_of_Z 8).

Section Panel.
Context (width height : Z).

Definition diffuse (x y : Z) (eR eG eB : spec_float) (p : planes) (k : Z * Z) : planes :=
  let nx := x + k.1 in
  let ny := y + k.2 in
  if (0 <=? nx) && (nx <? width) && (0 <=? ny) && (ny <? height) then
    let j := ny * width + nx in
    Planes (store_add (pl_r p) j eR) (store_add (pl_g p) j eG)
           (store_add (pl_b p) j eB) (pl_code p)
  else p.

Definition plane_get (l : list spec_float) (i : Z) : spec_float :=
  f64_of_f32 (default (S754_zero false) (l !! Z.to_nat i)).

Definition dither_pixel (p : planes) (xy : Z * Z) : planes :=
  let '(x, y) := xy in
  let i := y * width + x in
  let R := plane_get (pl_r p) i in
  let G := plane_get (pl_g p) i in
  let B := plane_get (pl_b p) i in
  let best := nearest_code_bt601 R G B in
  let '(pr, pg, pb) := palette_at best in
  let p := Planes (pl_r p) (pl_g p) (pl_b p) (<[Z.to_nat i := best]> (pl_code p)) in
  foldl (diffuse x y (quant_err R pr) (quant_err G pg) (quant_err B pb)) p kernel.

(** The pixels in the order of the nested loops: rows, then columns. *)
Definition row (y : Z) : list (Z * Z) := (λ x, (x, y)) <$> seqZ 0 width.
Definition scan : list (Z * Z) := seqZ 0 height ≫= row.

Definition initial_planes (img : image) : planes :=
  Planes ((λ xy, f32_of_byte (pixel img xy.1 xy.2).1.1) <$> scan)
         ((λ xy, f32_of_byte (pixel img xy.1 xy.2).1.2) <$> scan)
         ((λ xy, f32_of_byte (pixel img xy.1 xy.2).2) <$> scan)
         (replicate (Z.to_nat (width * height)) 0).

Definition quantize_dither_upright (img : image) : list Z :=
  pl_code (foldl dither_pixel (initial_planes img) scan).

(** ** The Y-mirror *)

Definition slice (l : list Z) (from upto : Z) : list Z :=
  take (Z.to_nat (upto - from)) (drop (Z.to_nat from) l).

Definition flip_codes (upright : list Z) : list Z :=
  seqZ 0 height ≫= λ y,
    let src := (height - 1 - y) * width in slice upright src (src + width).

Definition quantize_flipped (img : image) : list Z :=
  (λ xy, let '(x, y) := xy in
         let '(r, g, b) := pixel img x (height - 1 - y) in nearest_code r g b) <$> scan.

(** ** The whole pipeline *)

Inductive error := ErrSize (w h : Z) | ErrMode (n : Z) | ErrPacked (n : Z) | ErrRawLen (n : Z).

Definition packed_size : Z := width * height / 4.
Definition raw_rgb_len : Z := width * height * 3.

Definition pack_with_dither (img : image) (d : dither) : result error bytes :=
  if negb ((dx img =? width) && (dy img =? height)) then Err (ErrSize (dx img) (dy img))
  else
    codes ← match d with
            | DitherNone => Ok (quantize_flipped img)
            | DitherAtkinson => Ok (flip_codes (quantize_dither_upright img))
            | DitherOther n => Err (ErrMode n)
            end;
    let out := pack2bpp codes in
    if negb (zlen out =? packed_size) then Err (ErrPacked (zlen out)) else Ok out.

Definition pack (img : image) : result error bytes := pack_with_dither img DitherNone.

(** [rgbImage.At]: an opaque NRGBA pixel of the raw row-major slice. *)
Definition rgb_at (pix : bytes) (x y : Z) : Z * Z * Z :=
  let o := Z.to_nat ((y * width + x) * 3) in
  let ch k := nrgba_channel (nth (o + k)%nat pix 0) 255 in
  (ch 0%nat, ch 1%nat, ch 2%nat).

Definition from_rgb (pix : bytes) : result error image :=
  if negb (zlen pix =? raw_rgb_len) then Err (ErrRawLen (zlen pix))
  else Ok (Image 0 0 width height (rgb_at pix)).

End Panel.

Definition panel_width : Z := 400.
Definition panel_height : Z := 300.

#[global] Arguments nearest_code_bt601 : simpl never.
#[global] Arguments nearest_code : simpl never.
#[global] Arguments quant_err : simpl never.
#[global] Arguments f32 : simpl never.
#[global] Arguments f64_add : simpl never.

(** ** Specification vocabulary *)

(** Squared distance without machine arithmetic. *)
Definition spec_dist (p : Z * Z * Z) (r g b : Z) : Z :=
  let '(pr, pg, pb) := p in
  (r - pr) * (r - pr) + (g - pg) * (g - pg) + (b - pb) * (b - pb).

(** What the panel reads: pixel [n] of the packed buffer, MSB first. *)
Definition panel_code (buf : bytes) (n : nat) : Z :=
  Z.land (Z.shiftr (nth (n / 4) buf 0) (6 - 2 * Z.of_nat (n mod 4))) 3.

Definition low2 (c : Z) : Z := Z.land c 3.

(** ** Lemmas *)

Lemma sq_bound a p : byte_ok a → byte_ok p → 0 ≤ (a - p) * (a - p) ≤ 65025.
Proof.
  unfold byte_ok. intros. assert (- 255 ≤ a - p ≤ 255) as [Hl Hu] by lia.
  generalize dependent (a - p). intros d ? ?. split; [nia|].
  assert (0 ≤ (255 - d) * (255 + d)) by (apply Z.mul_nonneg_nonneg; lia). lia.
Qed.

(** The 32-bit arithmetic of the distance never wraps on 8-bit inputs. *)
Lemma sq_dist_no_wrap pr pg pb r g b :
  byte_ok pr → byte_ok pg → byte_ok pb → byte_ok r → byte_ok g → byte_ok b →
  sq_dist (pr, pg, pb) r g b = spec_dist (pr, pg, pb) r g b ∧
  0 ≤ spec_dist (pr, pg, pb) r g b ≤ 195075.
Proof.
  intros Hpr Hpg Hpb Hr Hg Hb. unfold sq_dist, spec_dist.
  assert (∀ a p, byte_ok a → byte_ok p → i32 (a - p) = a - p) as Hs.
  { unfold byte_ok. intros. rewrite i32_small; lia. }
  rewrite !Hs by done.
  pose proof (sq_bound r pr Hr Hpr). pose proof (sq_bound g pg Hg Hpg).
  pose proof (sq_bound b pb Hb Hpb).
  rewrite !(i32_small (_ * _)) by lia.
  rewrite (i32_small ((r - pr) * (r - pr) + (g - pg) * (g - pg))), i32_small by lia. lia.
Qed.

(** The loop returns the first minimum of the distances it scans. *)
Lemma argmin_loop_spec (dist : Z * Z * Z → Z) pal c best bestD :
  let k := argmin_loop Z.ltb dist pal c best bestD in
  (k = best ∧ ∀ p, p ∈ pal → bestD ≤ dist p) ∨
  (∃ i p, pal !! i = Some p ∧ k = c + Z.of_nat i ∧ dist p < bestD ∧
     ∀ j q, pal !! j = Some q → dist p ≤ dist q ∧ ((j < i)%nat → dist p < dist q)).
Proof.
  revert c best bestD. induction pal as [|p pal IH]; intros c best bestD; simpl.
  { left. split; [done|]. intros q Hq. by apply not_elem_of_nil in Hq. }
  destruct (Z.ltb_spec (dist p) bestD) as [Hlt|Hge].
  - right. destruct (IH (c + 1) c (dist p)) as [[-> Hmin]|(i & q & Hi & -> & Hq & Hmin)].
    + exists 0%nat, p. split_and!; [done|lia|lia|]. intros [|j] r Hr; simplify_eq/=; [lia|].
      apply list_elem_of_lookup_2, Hmin in Hr. lia.
    + exists (S i), q. split_and!; [done|lia|lia|]. intros [|j] r Hr; simplify_eq/=; [lia|].
      destruct (Hmin j r Hr). split; [done|]. intros. auto with lia.
  - destruct (IH (c + 1) best bestD) as [[-> Hmin]|(i & q & Hi & -> & Hq & Hmin)].
    + left. split; [done|]. intros q Hq. apply elem_of_cons in Hq as [->|Hq]; [lia|auto].
    + right. exists (S i), q. split_and!; [done|lia|lia|].
      intros [|j] r Hr; simplify_eq/=; [lia|].
      destruct (Hmin j r Hr). split; [done|]. intros. auto with lia.
Qed.

Lemma palette_bytes p : p ∈ palette → byte_ok p.1.1 ∧ byte_ok p.1.2 ∧ byte_ok p.2.
Proof.
  unfold palette, byte_ok. intros H.
  repeat (apply elem_of_cons in H as [->|H]; [simpl; lia|]). by apply not_elem_of_nil in H.
Qed.

Lemma palette_dist p r g b :
  p ∈ palette → byte_ok r → byte_ok g → byte_ok b →
  sq_dist p r g b = spec_dist p r g b ∧ 0 ≤ spec_dist p r g b ≤ 195075.
Proof.
  intros (? & ? & ?)%palette_bytes. destruct p as [[pr pg] pb]. simpl in *.
  by apply sq_dist_no_wrap.
Qed.

Lemma nearest_code_spec r g b :
  byte_ok r → byte_ok g → byte_ok b →
  ∃ i p, nearest_code r g b = Z.of_nat i ∧ palette !! i = Some p ∧
    ∀ j q, palette !! j = Some q →
      spec_dist p r g b ≤ spec_dist q r g b ∧
      ((j < i)%nat → spec_dist p r g b < spec_dist q r g b).
Proof.
  intros Hr Hg Hb. unfold nearest_code.
  destruct (argmin_loop_spec (λ p, sq_dist p r g b) palette 0 0 (2 ^ 30))
    as [[_ Hmin]|(i & p & Hi & -> & Hp & Hmin)].
  - exfalso. specialize (Hmin (0, 0, 0) (list_elem_of_here _ _)).
    destruct (palette_dist (0, 0, 0) r g b) as [Heq ?]; [left|done..|].
    cbv beta in Hmin. rewrite Heq in Hmin. lia.
  - exists i, p. split_and!; [lia|done|]. intros j q Hq. specialize (Hmin j q Hq).
    rewrite !(λ p H, proj1 (palette_dist p r g b H Hr Hg Hb)) in Hmin
      by eauto using list_elem_of_lookup_2. done.
Qed.

Lemma argmin_loop_range {D} (lt : D → D → bool) dist pal c best bestD n :
  0 ≤ best < n → 0 ≤ c → c + zlen pal ≤ n →
  0 ≤ argmin_loop lt dist pal c best bestD < n.
Proof.
  revert c best bestD. induction pal as [|p pal IH]; intros c best bestD; simpl; [done|].
  rewrite zlen_cons. intros. pose proof (zlen_nonneg pal).
  case_match; apply IH; lia.
Qed.

Lemma nearest_code_range r g b : 0 ≤ nearest_code r g b < 4.
Proof. unfold nearest_code. apply argmin_loop_range; [lia|lia|done]. Qed.
Lemma nearest_code_bt601_range r g b : 0 ≤ nearest_code_bt601 r g b < 4.
Proof. unfold nearest_code_bt601. apply argmin_loop_range; [lia|lia|done]. Qed.
#[export] Hint Resolve nearest_code_range nearest_code_bt601_range : picpak.

(** *** Packing *)

Lemma land3_range c : 0 ≤ Z.land c 3 < 4.
Proof. change 3 with (Z.ones 2). rewrite Z.land_ones by lia. apply Z.mod_pos_bound. lia. Qed.

Lemma pack_byte4 a b c d :
  pack_byte 0 0 [a; b; c; d] =
    64 * low2 a + 16 * low2 b + 4 * low2 c + low2 d.
Proof.
  simpl. fold (low2 a) (low2 b) (low2 c) (low2 d).
  pose proof (land3_range a) as Ha; pose proof (land3_range b) as Hb;
  pose proof (land3_range c) as Hc; pose proof (land3_range d) as Hd.
  fold (low2 a) in Ha; fold (low2 b) in Hb; fold (low2 c) in Hc; fold (low2 d) in Hd.
  generalize dependent (low2 a); generalize dependent (low2 b);
  generalize dependent (low2 c); generalize dependent (low2 d).
  intros d' Hd c' Hc b' Hb a' Ha.
  assert (∀ x, 0 ≤ x < 4 → x = 0 ∨ x = 1 ∨ x = 2 ∨ x = 3) as Hx by lia.
  destruct (Hx _ Ha) as [->|[->|[->| ->]]], (Hx _ Hb) as [->|[->|[->| ->]]],
    (Hx _ Hc) as [->|[->|[->| ->]]], (Hx _ Hd) as [->|[->|[->| ->]]]; reflexivity.
Qed.

Lemma pack_byte_short a b c :
  pack_byte 0 0 [a] = pack_byte 0 0 [a; 0; 0; 0] ∧
  pack_byte 0 0 [a; b] = pack_byte 0 0 [a; b; 0; 0] ∧
  pack_byte 0 0 [a; b; c] = pack_byte 0 0 [a; b; c; 0].
Proof. split_and!; simpl; by rewrite ?Z.lor_0_r. Qed.

Lemma low2_cases c : low2 c = 0 ∨ low2 c = 1 ∨ low2 c = 2 ∨ low2 c = 3.
Proof. pose proof (land3_range c). unfold low2. lia. Qed.

Lemma panel_code_head a b c d buf k :
  (k < 4)%nat →
  panel_code (pack_byte 0 0 [a; b; c; d] :: buf) k = low2 (nth k [a; b; c; d] 0).
Proof.
  rewrite pack_byte4. intros Hk. unfold panel_code.
  rewrite Nat.div_small, Nat.mod_small by lia.
  destruct (low2_cases a) as [Ha|[Ha|[Ha|Ha]]], (low2_cases b) as [Hb|[Hb|[Hb|Hb]]],
    (low2_cases c) as [Hc|[Hc|[Hc|Hc]]], (low2_cases d) as [Hd|[Hd|[Hd|Hd]]];
  rewrite ?Ha, ?Hb, ?Hc, ?Hd; (destruct k as [|[|[|[|k]]]]; [by simpl nth; rewrite ?Ha, ?Hb, ?Hc, ?Hd..|lia]).
Qed.

Lemma panel_code_tail v buf n : panel_code (v :: buf) (4 + n) = panel_code buf n.
Proof.
  unfold panel_code.
  assert ((4 + n) / 4 = S (n / 4))%nat as ->.
  { rewrite (Nat.add_comm 4 n), <-(Nat.mul_1_l 4) at 1. rewrite Nat.div_add by lia. lia. }
  assert ((4 + n) mod 4 = n mod 4)%nat as ->; [|done].
  rewrite (Nat.add_comm 4 n), <-(Nat.mul_1_l 4) at 1. by rewrite Nat.Div0.mod_add.
Qed.

Lemma panel_code_pack codes n :
  (n < length codes)%nat → panel_code (pack2bpp codes) n = low2 (nth n codes 0).
Proof.
  revert n. induction codes as [|a|a b|a b c|a b c d l IH] using list_ind4;
    intros n Hn; simpl length in Hn; [lia|cbn [pack2bpp]..].
  - rewrite (proj1 (pack_byte_short a 0 0)), panel_code_head by lia.
    by destruct n as [|n]; [|lia].
  - rewrite (proj1 (proj2 (pack_byte_short a b 0))), panel_code_head by lia.
    by destruct n as [|[|n]]; [| |lia].
  - rewrite (proj2 (proj2 (pack_byte_short a b c))), panel_code_head by lia.
    by destruct n as [|[|[|n]]]; [| | |lia].
  - destruct (decide (n < 4)%nat) as [Hs|Hs].
    + rewrite panel_code_head by lia. by destruct n as [|[|[|[|n]]]]; [| | | |lia].
    + replace n with (4 + (n - 4))%nat by lia. rewrite panel_code_tail, IH by lia. done.
Qed.

Lemma length_pack2bpp codes : length (pack2bpp codes) = ((length codes + 3) / 4)%nat.
Proof.
  induction codes as [|a|a b|a b c|a b c d l IH] using list_ind4; [done..|].
  cbn [pack2bpp length]. rewrite IH.
  replace (S (S (S (S (length l)))) + 3)%nat with (1 * 4 + (length l + 3))%nat by lia.
  rewrite Nat.div_add_l by lia. lia.
Qed.

Lemma pack_byte_bytes codes i v :
  byte_ok v → byte_ok (pack_byte i v codes).
Proof.
  revert i v. induction codes as [|c codes IH]; intros i v Hv; [done|].
  cbn [pack_byte]. apply IH. by apply lor_byte, u8_byte.
Qed.

Lemma pack2bpp_bytes codes : bytes_ok (pack2bpp codes).
Proof.
  assert (byte_ok 0) by (unfold byte_ok; lia).
  induction codes as [|a|a b|a b c|a b c d l IH] using list_ind4; cbn [pack2bpp];
    try apply Forall_nil_2; apply Forall_cons; (split; [by apply pack_byte_bytes|]);
    [apply Forall_nil_2..|done].
Qed.

(** *** The scan order and the mirror *)

Section Geometry.
Context (width height : Z).
Hypothesis width_pos : 0 < width.
Hypothesis height_pos : 0 < height.

Lemma length_row y : length (row width y) = Z.to_nat width.
Proof. unfold row. by rewrite length_fmap, length_seqZ. Qed.

Lemma length_scan : length (scan width height) = Z.to_nat (width * height).
Proof.
  unfold scan. rewrite (length_rows _ (Z.to_nat width)) by (intros; apply length_row).
  rewrite <-Z2Nat.inj_mul by lia. f_equal. lia.
Qed.

Lemma index_nat x y :
  0 ≤ x < width → 0 ≤ y < height →
  Z.to_nat (y * width + x) = (Z.to_nat y * Z.to_nat width + Z.to_nat x)%nat.
Proof. intros. rewrite <-Z2Nat.inj_mul, <-Z2Nat.inj_add by lia. done. Qed.

Lemma scan_lookup x y :
  0 ≤ x < width → 0 ≤ y < height →
  scan width height !! Z.to_nat (y * width + x) = Some (x, y).
Proof.
  intros Hx Hy. rewrite index_nat by done. unfold scan.
  rewrite lookup_rows by (intros; first [apply length_row|lia]).
  unfold row. rewrite list_lookup_fmap, lookup_seqZ_lt by lia. simpl. do 2 f_equal; lia.
Qed.

Lemma scan_in x y : (x, y) ∈ scan width height → 0 ≤ x < width ∧ 0 ≤ y < height.
Proof.
  unfold scan. intros (y' & Hrow & Hy)%list_elem_of_bind.
  apply list_elem_of_fmap in Hrow as (x' & [= -> ->] & Hx).
  apply elem_of_seqZ in Hx, Hy. lia.
Qed.

Lemma length_slice l from upto :
  0 ≤ from ≤ upto → upto ≤ zlen l → length (slice l from upto) = Z.to_nat (upto - from).
Proof. unfold zlen, slice. intros. rewrite length_take, length_drop. lia. Qed.

Lemma mirror_row i :
  0 ≤ i < 0 + height →
  0 ≤ (height - 1 - i) * width ∧
  (height - 1 - i) * width + width ≤ width * height.
Proof.
  intros. assert (0 ≤ height - 1 - i ≤ height - 1) as Hk by lia.
  generalize dependent (height - 1 - i). intros k Hk. split; [nia|].
  assert ((k + 1) * width ≤ height * width) by (apply Z.mul_le_mono_nonneg_r; lia). lia.
Qed.

Lemma flip_lookup codes x y :
  zlen codes = width * height → 0 ≤ x < width → 0 ≤ y < height →
  flip_codes width height codes !! Z.to_nat (y * width + x) =
  codes !! Z.to_nat ((height - 1 - y) * width + x).
Proof.
  intros Hlen Hx Hy. rewrite index_nat by done. unfold flip_codes.
  rewrite lookup_rows;
    [|intros i Hi; pose proof (mirror_row i Hi); rewrite length_slice by lia; f_equal; lia
     |lia..].
  pose proof (mirror_row y ltac:(lia)).
  unfold slice. rewrite lookup_take, lookup_drop. rewrite Z.add_0_l, Z2Nat.id by lia.
  rewrite decide_True by lia. f_equal. rewrite <-Z2Nat.inj_add by lia. f_equal.

Qed.

Lemma length_flip codes :
  zlen codes = width * height → length (flip_codes width height codes) = length codes.
Proof.
  intros Hlen. unfold flip_codes.
  rewrite (length_rows _ (Z.to_nat width)).
  - rewrite <-Z2Nat.inj_mul by lia. unfold zlen in Hlen. lia.
  - intros i Hi. pose proof (mirror_row i Hi). rewrite length_slice by lia. f_equal. lia.
Qed.

(** [quantizeFlipped] fuses the mirror into the quantisation: row [y] of the
    code plane is the nearest code of source row [height-1-y]. *)
Lemma quantize_flipped_lookup img x y :
  0 ≤ x < width → 0 ≤ y < height →
  quantize_flipped width height img !! Z.to_nat (y * width + x) =
  Some (let '(r, g, b) := pixel img x (height - 1 - y) in nearest_code r g b).
Proof.
  intros. unfold quantize_flipped. by rewrite list_lookup_fmap, scan_lookup.
Qed.

(** *** The dither pass *)

Lemma length_store_add l j e : length (store_add l j e) = length l.
Proof. unfold store_add. case_match; [apply length_insert|done]. Qed.

Lemma diffuse_code x y eR eG eB p k :
  pl_code (diffuse width height x y eR eG eB p k) = pl_code p.
Proof. unfold diffuse. by case_match. Qed.

Lemma foldl_diffuse_code x y eR eG eB ks p :
  pl_code (foldl (diffuse width height x y eR eG eB) p ks) = pl_code p.
Proof.
  revert p. induction ks as [|k ks IH]; intros p; simpl; [done|].
  by rewrite IH, diffuse_code.
Qed.

Lemma dither_pixel_code p x y :
  ∃ c, 0 ≤ c < 4 ∧
    pl_code (dither_pixel width height p (x, y)) =
    <[Z.to_nat (y * width + x) := c]> (pl_code p).
Proof.
  unfold dither_pixel. destruct (palette_at _) as [[pr pg] pb].
  rewrite foldl_diffuse_code. cbn [pl_code]. eauto using nearest_code_bt601_range.
Qed.

Lemma dither_codes_range l p :
  Forall (λ c, 0 ≤ c < 4) (pl_code p) →
  Forall (λ c, 0 ≤ c < 4) (pl_code (foldl (dither_pixel width height) p l)) ∧
  length (pl_code (foldl (dither_pixel width height) p l)) = length (pl_code p).
Proof.
  revert p. induction l as [|[x y] l IH]; intros p Hp; cbn [foldl]; [done|].
  destruct (dither_pixel_code p x y) as (c & Hc & Heq).
  destruct (IH (dither_pixel width height p (x, y))) as [H1 H2].
  { rewrite Heq. by apply Forall_insert. }
  split; [done|]. by rewrite H2, Heq, length_insert.
Qed.

Lemma quantize_dither_range img :
  Forall (λ c, 0 ≤ c < 4) (quantize_dither_upright width height img) ∧
  length (quantize_dither_upright width height img) = Z.to_nat (width * height).
Proof.
  destruct (dither_codes_range (scan width height) (initial_planes width height img)) as [H1 H2].
  { apply Forall_replicate. lia. }
  split; [exact H1|]. unfold quantize_dither_upright. rewrite H2. apply length_replicate.
Qed.
End Geometry.

Lemma low2_small c : 0 ≤ c < 4 → low2 c = c.
Proof. unfold low2. intros. change 3 with (Z.ones 2). by rewrite Z.land_ones, Z.mod_small by lia. Qed.

(** An opaque 8-bit channel survives the 16-bit round trip. *)
Lemma channel_roundtrip c : byte_ok c → hi8 (nrgba_channel c 255) = c.
Proof.
  intros Hc. assert (forallb (λ c, hi8 (nrgba_channel c 255) =? c) (seqZ 0 256) = true) as H
    by (vm_compute; reflexivity).
  rewrite forallb_forall in H. apply Z.eqb_eq, H.
  apply list_elem_of_In, elem_of_seqZ. unfold byte_ok in Hc. lia.
Qed.

Lemma index_split width height i :
  0 < width → 0 < height → (i < Z.to_nat (width * height))%nat →
  ∃ x y, 0 ≤ x < width ∧ 0 ≤ y < height ∧ i = Z.to_nat (y * width + x).
Proof.
  intros Hw Hh Hi. exists (Z.of_nat i mod width), (Z.of_nat i / width).
  pose proof (Z.mod_pos_bound (Z.of_nat i) width Hw).
  split_and!; [lia|lia|apply Z.div_pos; lia|apply Z.div_lt_upper_bound; lia|].
  pose proof (Z.div_mod (Z.of_nat i) width). lia.
Qed.

(** *** Dithering an image that is already in the palette *)

Definition exact_val (v : spec_float) : Prop := v = f32_of_byte 0 ∨ v = f32_of_byte 255.

Lemma palette_exact_step pr pg pb :
  (pr, pg, pb) ∈ palette →
  let R := f64_of_f32 (f32_of_byte pr) in
  let G := f64_of_f32 (f32_of_byte pg) in
  let B := f64_of_f32 (f32_of_byte pb) in
  nearest_code_bt601 R G B = nearest_code pr pg pb ∧
  palette_at (nearest_code pr pg pb) = (pr, pg, pb) ∧
  quant_err R pr = S754_zero false ∧ quant_err G pg = S754_zero false ∧
  quant_err B pb = S754_zero false ∧
  exact_val (f32_of_byte pr) ∧ exact_val (f32_of_byte pg) ∧ exact_val (f32_of_byte pb).
Proof.
  unfold palette, exact_val. intros H.
  repeat (apply elem_of_cons in H as [H|H];
    [simplify_eq; split_and!; vm_compute; first [reflexivity|by left|by right]|]).
  by apply not_elem_of_nil in H.
Qed.

Lemma store_add_zero l j :
  Forall exact_val l → store_add l j (S754_zero false) = l.
Proof.
  intros Hl. unfold store_add. destruct (l !! Z.to_nat j) as [v|] eqn:Hv; [|done].
  apply list_insert_id. rewrite Hv. f_equal.
  destruct (Forall_lookup_1 _ _ _ _ Hl Hv) as [->| ->]; vm_compute; reflexivity.
Qed.

Lemma length_quantize_flipped width height :
  0 < width → 0 < height → ∀ img,
  length (quantize_flipped width height img) = Z.to_nat (width * height).
Proof. intros. unfold quantize_flipped. by rewrite length_fmap, length_scan. Qed.

Section Exact.
Context (width height : Z).
Hypothesis width_pos : 0 < width.
Hypothesis height_pos : 0 < height.

Definition palette_exact (img : image) : Prop :=
  ∀ x y, 0 ≤ x < width → 0 ≤ y < height → pixel img x y ∈ palette.

Definition planes_exact (p : planes) : Prop :=
  Forall exact_val (pl_r p) ∧ Forall exact_val (pl_g p) ∧ Forall exact_val (pl_b p).

Lemma foldl_diffuse_zero x y ks p :
  planes_exact p →
  foldl (diffuse width height x y (S754_zero false) (S754_zero false) (S754_zero false)) p ks = p.
Proof.
  intros Hp. induction ks as [|k ks IH]; cbn [foldl]; [done|].
  assert (diffuse width height x y (S754_zero false) (S754_zero false) (S754_zero false) p k = p)
    as ->; [|done].
  unfold diffuse. case_match; [|done]. destruct Hp as (Hr & Hg & Hb).
  rewrite !store_add_zero by done. by destruct p.
Qed.

Definition exact_code (img : image) (xy : Z * Z) : Z :=
  let '(r, g, b) := pixel img xy.1 xy.2 in nearest_code r g b.

(** The three planes hold the image's own pixels. *)
Definition planes_of (img : image) (p : planes) : Prop :=
  pl_r p = pl_r (initial_planes width height img) ∧
  pl_g p = pl_g (initial_planes width height img) ∧
  pl_b p = pl_b (initial_planes width height img).

Lemma planes_of_exact img p : palette_exact img → planes_of img p → planes_exact p.
Proof.
  intros Himg (Hr & Hg & Hb). unfold planes_exact. rewrite Hr, Hg, Hb. unfold initial_planes.
  split_and!; apply Forall_fmap, Forall_forall; intros [x y] [Hx Hy]%scan_in;
    specialize (Himg x y Hx Hy); simpl; destruct (pixel img x y) as [[pr pg] pb];
    by apply palette_exact_step in Himg as (_ & _ & _ & _ & _ & ? & ? & ?).
Qed.

Lemma dither_pixel_exact img p x y :
  palette_exact img → planes_of img p → 0 ≤ x < width → 0 ≤ y < height →
  dither_pixel width height p (x, y) =
    Planes (pl_r p) (pl_g p) (pl_b p)
      (<[Z.to_nat (y * width + x) := exact_code img (x, y)]> (pl_code p)).
Proof.
  intros Himg Hp Hx Hy. pose proof (planes_of_exact img p Himg Hp) as Hex.
  destruct Hp as (Hr & Hg & Hb). unfold dither_pixel, exact_code. cbn [fst snd].
  assert (∀ ch : Z * Z → spec_float, plane_get (ch <$> scan width height)
    (y * width + x) = f64_of_f32 (ch (x, y))) as Hget.
  { intros ch. unfold plane_get. by rewrite list_lookup_fmap, scan_lookup. }
  rewrite Hr, Hg, Hb. unfold initial_planes. cbn [pl_r pl_g pl_b]. rewrite !Hget.
  cbn [fst snd]. pose proof (Himg x y Hx Hy) as Hpix.
  destruct (pixel img x y) as [[pr pg] pb]. cbn [fst snd].
  destruct (palette_exact_step pr pg pb Hpix) as (H1 & H2 & H3 & H4 & H5 & _).
  rewrite H1, H2, H3, H4, H5. apply foldl_diffuse_zero.
  unfold planes_exact in *. cbn [pl_r pl_g pl_b]. by rewrite Hr, Hg, Hb in Hex.
Qed.

Lemma index_inj x y x' y' :
  0 ≤ x < width → 0 ≤ x' < width → 0 ≤ y → 0 ≤ y' →
  Z.to_nat (y * width + x) = Z.to_nat (y' * width + x') → (x, y) = (x', y').
Proof.
  intros Hx Hx' Hy Hy' Heq%Z2Nat.inj; [|nia..].
  destruct (Z.div_mod_unique width y y' x x') as [-> ->]; [lia..|done].
Qed.

Lemma dither_exact_lookup img l p x y :
  palette_exact img → planes_of img p →
  (∀ xy, xy ∈ l → 0 ≤ xy.1 < width ∧ 0 ≤ xy.2 < height) →
  0 ≤ x < width → 0 ≤ y < height →
  (Z.to_nat (y * width + x) < length (pl_code p))%nat →
  (x, y) ∈ l ∨ pl_code p !! Z.to_nat (y * width + x) = Some (exact_code img (x, y)) →
  pl_code (foldl (dither_pixel width height) p l) !! Z.to_nat (y * width + x) =
    Some (exact_code img (x, y)).
Proof.
  intros Himg. revert p. induction l as [|[x' y'] l IH]; intros p Hp Hl Hx Hy Hlen Hor;
    cbn [foldl].
  { destruct Hor as [Hin|]; [by apply not_elem_of_nil in Hin|done]. }
  destruct (Hl (x', y')) as [Hx' Hy']; [left|]. cbn [fst snd] in *.
  rewrite (dither_pixel_exact img) by done.
  apply IH; [done| |done|done| |].
  - intros xy Hxy. apply Hl. by right.
  - cbn [pl_code]. by rewrite length_insert.
  - cbn [pl_code]. destruct (decide ((x, y) = (x', y'))) as [[= <- <-]|Hne].
    + right. by apply list_lookup_insert_eq.
    + destruct Hor as [[?|?]%elem_of_cons|Hor]; [done|by left|right].
      rewrite list_lookup_insert_ne; [done|]. intros Heq. apply Hne.
      symmetry. apply index_inj; (done || lia).
Qed.

Lemma scan_elem x y : 0 ≤ x < width → 0 ≤ y < height → (x, y) ∈ scan width height.
Proof. intros. eapply list_elem_of_lookup_2. by apply scan_lookup. Qed.

Lemma quantize_dither_exact img x y :
  palette_exact img → 0 ≤ x < width → 0 ≤ y < height →
  quantize_dither_upright width height img !! Z.to_nat (y * width + x) =
    Some (exact_code img (x, y)).
Proof.
  intros Himg Hx Hy. unfold quantize_dither_upright.
  apply dither_exact_lookup; [done|done| |done|done| |left; by apply scan_elem].
  - intros [x' y'] Hin. by apply scan_in in Hin.
  - cbn [pl_code initial_planes]. rewrite length_replicate. nia.
Qed.

(** On a palette-exact image both quantisers give the same mirrored plane. *)
Lemma dither_exact_plane img :
  palette_exact img →
  flip_codes width height (quantize_dither_upright width height img) =
  quantize_flipped width height img.
Proof.
  intros Himg.
  pose proof (proj2 (quantize_dither_range width height img)) as Hlen.
  assert (zlen (quantize_dither_upright width height img) = width * height) as Hz
    by (unfold zlen; rewrite Hlen; nia).
  apply list_eq_same_length with (n := Z.to_nat (width * height)).
  - by apply length_quantize_flipped.
  - by rewrite length_flip.
  - intros i a b Hi Ha Hb. destruct (index_split width height i) as (x & y & Hx & Hy & ->);
      [done..|].
    rewrite flip_lookup, quantize_dither_exact in Ha by (done || lia).
    rewrite quantize_flipped_lookup in Hb by done. unfold exact_code in Ha. simpl in Ha.
    congruence.
Qed.
End Exact.

(** ** Properties *)

Lemma pack_codes_ok width height codes :
  0 < width → 0 < height → (4 | width * height) →
  length codes = Z.to_nat (width * height) →
  zlen (pack2bpp codes) = packed_size width height.
Proof.
  intros Hw Hh [k Hk] Hlen. unfold packed_size, zlen. rewrite length_pack2bpp, Hlen, Hk.
  rewrite Z.div_mul by lia. rewrite Z2Nat.inj_mul by lia.
  change (Z.to_nat 4) with 4%nat. rewrite Nat.div_add_l by lia.
  change (3 / 4)%nat with 0%nat. lia.
Qed.

(** [nearestCode] returns the palette index of least squared RGB distance,
    the lowest such index on a tie; its 32-bit arithmetic never wraps. *)
Theorem nearest_code_argmin r g b :
  byte_ok r → byte_ok g → byte_ok b →
  ∃ i p, nearest_code r g b = Z.of_nat i ∧ palette !! i = Some p ∧
    ∀ j q, palette !! j = Some q →
      spec_dist p r g b ≤ spec_dist q r g b ∧
      ((j < i)%nat → spec_dist p r g b < spec_dist q r g b).
Proof. apply nearest_code_spec. Qed.

(** [PackWithDither] is total on images of the panel's size and every
    implemented mode: it returns a buffer of exactly [packed_size] bytes. Every
    other input is the named error. *)
Theorem pack_with_dither_total width height img d :
  0 < width → 0 < height → (4 | width * height) →
  match pack_with_dither width height img d with
  | Ok out => dx img = width ∧ dy img = height ∧ (d = DitherNone ∨ d = DitherAtkinson) ∧
              zlen out = packed_size width height ∧ bytes_ok out
  | Err (ErrSize w h) => w = dx img ∧ h = dy img ∧ (w ≠ width ∨ h ≠ height)
  | Err (ErrMode n) => dx img = width ∧ dy img = height ∧ d = DitherOther n
  | Err _ => False
  end.
Proof.
  intros Hw Hh Hdiv. unfold pack_with_dither.
  destruct (Z.eqb_spec (dx img) width) as [Hdx|]; simpl; [|by auto].
  destruct (Z.eqb_spec (dy img) height) as [Hdy|]; simpl; [|by auto].
  pose proof (quantize_dither_range width height img) as [_ Hq].
  assert (zlen (quantize_dither_upright width height img) = width * height)
    by (unfold zlen; rewrite Hq; nia).
  pose proof (length_quantize_flipped width height Hw Hh img) as Hn.
  destruct d as [| |n]; simpl; [| |done];
    rewrite (pack_codes_ok width height) by (rewrite ?length_flip; done);
    rewrite Z.eqb_refl; simpl; split_and!; auto using pack2bpp_bytes;
    apply pack_codes_ok; rewrite ?length_flip; done.
Qed.

(** The undithered panel buffer holds, at panel position (x, y), the
    nearest palette code of image pixel (x, height-1-y): the quantise, the
    mirror and the MSB-first packing composed. *)
Theorem pack_pixel width height img x y :
  0 < width → 0 < height → (4 | width * height) →
  dx img = width → dy img = height → 0 ≤ x < width → 0 ≤ y < height →
  ∃ out, pack width height img = Ok out ∧
    panel_code out (Z.to_nat (y * width + x)) =
      let '(r, g, b) := pixel img x (height - 1 - y) in nearest_code r g b.
Proof.
  intros Hw Hh Hdiv Hdx Hdy Hx Hy. exists (pack2bpp (quantize_flipped width height img)).
  pose proof (length_quantize_flipped width height Hw Hh img) as Hlen.
  split.
  - unfold pack, pack_with_dither. rewrite Hdx, Hdy, !Z.eqb_refl. simpl.
    by rewrite (pack_codes_ok width height), Z.eqb_refl.
  - rewrite panel_code_pack by (rewrite Hlen; nia).
    erewrite nth_lookup_Some by (by apply quantize_flipped_lookup).
    destruct (pixel img x (height - 1 - y)) as [[r g] b].
    apply low2_small. apply nearest_code_range.
Qed.

(** Dithering an image whose pixels are already palette colours changes
    nothing: both modes pack it to the same bytes. *)
Theorem dither_exact_is_pack width height img :
  0 < width → 0 < height → palette_exact width height img →
  pack_with_dither width height img DitherAtkinson = pack width height img.
Proof.
  intros Hw Hh Himg. unfold pack, pack_with_dither. case_match; [done|].
  simpl. by rewrite dither_exact_plane.
Qed.

(** [FromRGB] followed by the pipeline's pixel read is the identity on the
    raw bytes, and a slice of any other length is refused. *)
Theorem from_rgb_pixel width height pix x y :
  0 < width → 0 < height → bytes_ok pix → 0 ≤ x < width → 0 ≤ y < height →
  match from_rgb width height pix with
  | Ok img =>
      zlen pix = width * height * 3 ∧ dx img = width ∧ dy img = height ∧
      let o := Z.to_nat ((y * width + x) * 3) in
      Some (pixel img x y).1.1 = pix !! o ∧ Some (pixel img x y).1.2 = pix !! S o ∧
      Some (pixel img x y).2 = pix !! S (S o)
  | Err e => e = ErrRawLen (zlen pix) ∧ zlen pix ≠ width * height * 3
  end.
Proof.
  intros Hw Hh Hpix Hx Hy. unfold from_rgb, raw_rgb_len.
  destruct (Z.eqb_spec (zlen pix) (width * height * 3)) as [Hlen|]; simpl; [|done].
  unfold dx, dy, pixel, rgb_at. cbn [max_x min_x max_y min_y rgba_at].
  split_and!; [done|lia|lia|..].
  all: rewrite channel_roundtrip by (by apply nth_byte).
  all: rewrite ?Nat.add_0_r, ?Nat.add_1_r, <-?plus_n_Sm, ?Nat.add_0_r.
  all: symmetry; apply nth_lookup_in; unfold zlen in Hlen; nia.
Qed.

(** ** Witnesses *)

(** A 4x2 image of one orange, off the palette. *)
Definition sample_image : image :=
  Image 0 0 4 2 (rgb_at 4 (concat (replicate 8 [200; 100; 30]))).
(** A 4x2 image of the four palette colours. *)
Definition sample_palette_image : image :=
  Image 0 0 4 2 (rgb_at 4 (concat (replicate 2 [0; 0; 0; 255; 255; 255; 255; 255; 0; 255; 0; 0]))).

Lemma nearest_code_argmin_witness :
  ∃ i p, nearest_code 200 100 30 = Z.of_nat i ∧ palette !! i = Some p ∧
    ∀ j q, palette !! j = Some q →
      spec_dist p 200 100 30 ≤ spec_dist q 200 100 30 ∧
      ((j < i)%nat → spec_dist p 200 100 30 < spec_dist q 200 100 30).
Proof. apply nearest_code_argmin; unfold byte_ok; lia. Defined.

Lemma pack_with_dither_total_witness :
  match pack_with_dither 4 2 sample_image DitherAtkinson with
  | Ok out => dx sample_image = 4 ∧ dy sample_image = 2 ∧
              (DitherAtkinson = DitherNone ∨ DitherAtkinson = DitherAtkinson) ∧
              zlen out = packed_size 4 2 ∧ bytes_ok out
  | Err (ErrSize w h) => w = dx sample_image ∧ h = dy sample_image ∧ (w ≠ 4 ∨ h ≠ 2)
  | Err (ErrMode n) => dx sample_image = 4 ∧ dy sample_image = 2 ∧ DitherAtkinson = DitherOther n
  | Err _ => False
  end.
Proof.
  apply (pack_with_dither_total 4 2 sample_image DitherAtkinson); [lia|lia|by exists 2].
Defined.

Lemma pack_pixel_witness :
  ∃ out, pack 4 2 sample_palette_image = Ok out ∧
    panel_code out (Z.to_nat (1 * 4 + 2)) =
      let '(r, g, b) := pixel sample_palette_image 2 (2 - 1 - 1) in nearest_code r g b.
Proof.
  apply (pack_pixel 4 2 sample_palette_image 2 1); [lia|lia|by exists 2|done|done|lia|lia].
Defined.

Lemma sample_palette_exact : palette_exact 4 2 sample_palette_image.
Proof.
  intros x y Hx Hy.
  assert (x = 0 ∨ x = 1 ∨ x = 2 ∨ x = 3) as [->|[->|[->| ->]]] by lia;
  assert (y = 0 ∨ y = 1) as [->| ->] by lia; vm_compute;
  repeat first [by apply list_elem_of_here|apply list_elem_of_further].
Qed.

Lemma dither_exact_is_pack_witness :
  palette_exact 4 2 sample_palette_image ∧
  pack_with_dither 4 2 sample_palette_image DitherAtkinson = pack 4 2 sample_palette_image.
Proof.
  split; [apply sample_palette_exact|].
  apply dither_exact_is_pack; [lia|lia|apply sample_palette_exact].
Defined.

Lemma from_rgb_pixel_witness :
  let pix := [9; 8; 7; 6; 5; 4] in
  match from_rgb 2 1 pix with
  | Ok img =>
      zlen pix = 2 * 1 * 3 ∧ dx img = 2 ∧ dy img = 1 ∧
      let o := Z.to_nat ((0 * 2 + 1) * 3) in
      Some (pixel img 1 0).1.1 = pix !! o ∧ Some (pixel img 1 0).1.2 = pix !! S o ∧
      Some (pixel img 1 0).2 = pix !! S (S o)
  | Err e => e = ErrRawLen (zlen pix) ∧ zlen pix ≠ 2 * 1 * 3
  end.
Proof.
  apply (from_rgb_pixel 2 1 [9; 8; 7; 6; 5; 4] 1 0); [lia|lia| |lia|lia].
  repeat (apply Forall_cons; split; [unfold byte_ok; lia|]). apply Forall_nil_2.
Defined.

(** The panel's own geometry packs to 30000 bytes. *)
Example panel_packed_size : packed_size panel_width panel_height = 30000.
Proof. reflexivity. Qed.
Example atkinson_sample :
  pack_with_dither 4 2 sample_image DitherAtkinson = Ok [239; 254].
Proof. vm_compute. reflexivity. Qed.

End Bwry.
