(* ===== verification/GoLib.v ===== *)
(** * The Go standard library the backend calls

    [strconv] integer parsing and printing (with the value Go returns beside
    a range error), [strings.Split]/[Join], [encoding/base64] raw-URL,
    [encoding/hex] and [encoding/binary] big-endian integers, with the round
    trips the components rest on. *)

From S2P Require Import Prelude.

Module GoLib.

(** ** strconv *)

Inductive num_error := ErrSyntax | ErrRange.
#[export] Instance num_error_eq_dec : EqDecision num_error.
Proof. solve_decision. Defined.

Definition is_digit (c : Z) : bool := (48 <=? c) && (c <=? 57).

(** [ParseUint(s, 10, bits)]: the value is returned beside the error, as in Go:
    0 on a syntax error, the maximum on a range error, which stops the scan. *)
Fixpoint parse_uint_go (max_val n : Z) (s : bytes) : Z * option num_error :=
  match s with
  | [] => (n, None)
  | c :: s' =>
      if negb (is_digit c) then (0, Some ErrSyntax)
      else let n1 := n * 10 + (c - 48) in
           if max_val <? n1 then (max_val, Some ErrRange)
           else parse_uint_go max_val n1 s'
  end.

Definition parse_uint_b (s : bytes) (bits : Z) : Z * option num_error :=
  match s with
  | [] => (0, Some ErrSyntax)
  | _ => parse_uint_go (2 ^ bits - 1) 0 s
  end.

(** [ParseInt(s, 10, bits)]. *)
Definition parse_int_b (s : bytes) (bits : Z) : Z * option num_error :=
  let go (neg : bool) (s : bytes) :=
    let cutoff := 2 ^ (bits - 1) in
    match parse_uint_b s bits with
    | (_, Some ErrSyntax) => (0, Some ErrSyntax)
    | (un, _) =>
        if negb neg && (cutoff <=? un) then (cutoff - 1, Some ErrRange)
        else if neg && (cutoff <? un) then (- cutoff, Some ErrRange)
        else (if neg then - un else un, None)
    end in
  match s with
  | [] => (0, Some ErrSyntax)
  | c :: s' => if c =? 43 then go false s' else if c =? 45 then go true s' else go false s
  end.

Definition parse_uint (s : string) := parse_uint_b (bytes_of_string s).
Definition parse_int (s : string) := parse_int_b (bytes_of_string s).
(** [Atoi] is [ParseInt] at the 64-bit width of [int]. *)
Definition atoi (s : string) := parse_int s 64.

(** [FormatInt(n, 10)]. *)
Fixpoint digits (fuel : nat) (n : Z) : bytes :=
  match fuel with
  | O => []
  | S fuel => if n <? 10 then [48 + n] else digits fuel (n / 10) ++ [48 + n mod 10]
  end.
Definition format_uint_b (n : Z) : bytes := digits (S (Z.to_nat (Z.log2 n))) n.
Definition format_int_b (n : Z) : bytes :=
  if n <? 0 then 45 :: format_uint_b (- n) else format_uint_b n.
Definition format_int (n : Z) : string := string_of_bytes (format_int_b n).

(** ** strings *)

Fixpoint has_prefix (p s : bytes) : bool :=
  match p, s with
  | [], _ => true
  | a :: p', b :: s' => (a =? b) && has_prefix p' s'
  | _ :: _, [] => false
  end.

(** [strings.Split] for a non-empty separator: leftmost matches, no overlap;
    [skip] counts the separator bytes still to drop. *)
Fixpoint split_go (sep : bytes) (skip : nat) (cur s : bytes) : list bytes :=
  match s with
  | [] => [reverse cur]
  | c :: s' =>
      match skip with
      | S k => split_go sep k cur s'
      | O => if has_prefix sep s then reverse cur :: split_go sep (length sep - 1) [] s'
             else split_go sep 0 (c :: cur) s'
      end
  end.
Definition split (s sep : bytes) : list bytes := split_go sep 0 [] s.

(** [unicode.IsSpace] at the head of a UTF-8 text: the width of the space, or
    0. No encoding of a space starts inside another code point. *)
Definition space_width (s : bytes) : nat :=
  match s with
  | c :: s' =>
      if ((9 <=? c) && (c <=? 13)) || (c =? 32) then 1%nat
      else match c, s' with
      | 194, d :: _ => if (d =? 133) || (d =? 160) then 2%nat else 0%nat
      | 225, 154 :: 128 :: _ => 3%nat
      | 226, 128 :: e :: _ =>
          if ((128 <=? e) && (e <=? 138)) || (e =? 168) || (e =? 169) || (e =? 175) then 3%nat else 0%nat
      | 226, 129 :: 159 :: _ => 3%nat
      | 227, 128 :: 128 :: _ => 3%nat
      | _, _ => 0%nat
      end
  | [] => 0%nat
  end.

(** [strings.Fields]. *)
Fixpoint fields_go (skip : nat) (cur s : bytes) : list bytes :=
  let flush := match cur with [] => [] | _ => [reverse cur] end in
  match s with
  | [] => flush
  | c :: s' =>
      match skip with
      | S k => fields_go k cur s'
      | O => match space_width s with
             | O => fields_go 0 (c :: cur) s'
             | S k => flush ++ fields_go k [] s'
             end
      end
  end.
Definition fields (s : bytes) : list bytes := fields_go 0 [] s.

(** [strings.Cut(s, "=")]-like cut at one byte. *)
Fixpoint cut (s : bytes) (c : Z) : option (bytes * bytes) :=
  match s with
  | [] => None
  | x :: s' => if x =? c then Some ([], s')
               else match cut s' c with Some (a, b) => Some (x :: a, b) | None => None end
  end.

(** [strings.Trim(s, c)] for a one-byte cutset. *)
Fixpoint trim_left (s : bytes) (c : Z) : bytes :=
  match s with x :: s' => if x =? c then trim_left s' c else s | [] => [] end.
Definition trim_right (s : bytes) (c : Z) : bytes := reverse (trim_left (reverse s) c).
Definition trim (s : bytes) (c : Z) : bytes := trim_right (trim_left s c) c.

(** [filepath.Base] on Unix. *)
Definition path_base (s : bytes) : bytes :=
  match s with
  | [] => [46]
  | _ => match trim_right s 47 with
         | [] => [47]
         | t => List.last (split t [47]) []
         end
  end.

Fixpoint join (l : list bytes) (sep : bytes) : bytes :=
  match l with
  | [] => []
  | [x] => x
  | x :: l' => x ++ sep ++ join l' sep
  end.

(** ** encoding/binary, big endian *)

Fixpoint be_bytes (n : nat) (v : Z) : bytes :=
  match n with
  | O => []
  | S n => u8 (Z.shiftr v (8 * Z.of_nat n)) :: be_bytes n v
  end.
Definition be_combine (l : bytes) : Z := foldl (λ a b, a * 256 + b) 0 l.
Definition put_u32be (v : Z) : bytes := be_bytes 4 v.
Definition put_u64be (v : Z) : bytes := be_bytes 8 v.

#[global] Arguments put_u32be : simpl never.
#[global] Arguments put_u64be : simpl never.

(** ** encoding/base64, RawURLEncoding *)

Definition b64_char (v : Z) : Z :=
  if v <? 26 then 65 + v
  else if v <? 52 then 97 + (v - 26)
  else if v <? 62 then 48 + (v - 52)
  else if v =? 62 then 45 else 95.

Definition b64_value (c : Z) : option Z :=
  if (65 <=? c) && (c <=? 90) then Some (c - 65)
  else if (97 <=? c) && (c <=? 122) then Some (c - 97 + 26)
  else if (48 <=? c) && (c <=? 57) then Some (c - 48 + 52)
  else if c =? 45 then Some 62
  else if c =? 95 then Some 63
  else None.

Fixpoint b64_encode (b : bytes) : bytes :=
  match b with
  | [] => []
  | [x] => [b64_char (x / 4); b64_char ((x mod 4) * 16)]
  | [x; y] => [b64_char (x / 4); b64_char ((x mod 4) * 16 + y / 16); b64_char ((y mod 16) * 4)]
  | x :: y :: z :: b' =>
      b64_char (x / 4) :: b64_char ((x mod 4) * 16 + y / 16)
      :: b64_char ((y mod 16) * 4 + z / 64) :: b64_char (z mod 64) :: b64_encode b'
  end.

(** Non-strict decoding of the 6-bit values: trailing bits are dropped, a lone
    character is corrupt. *)
Fixpoint b64_quanta (v : list Z) : option bytes :=
  match v with
  | [] => Some []
  | [_] => None
  | [a; b] => Some [a * 4 + b / 16]
  | [a; b; c] => Some [a * 4 + b / 16; (b mod 16) * 16 + c / 4]
  | a :: b :: c :: d :: v' =>
      rest ← b64_quanta v';
      Some (a * 4 + b / 16 :: (b mod 16) * 16 + c / 4 :: (c mod 4) * 64 + d :: rest)
  end.

(** [DecodeString]: carriage returns and line feeds are skipped. *)
Definition not_newline (c : Z) : bool := negb ((c =? 10) || (c =? 13)).
Definition b64_decode (s : bytes) : option bytes :=
  v ← mapM b64_value (List.filter not_newline s);
  b64_quanta v.

(** ** encoding/hex *)

Definition hex_digit (v : Z) : Z := if v <? 10 then 48 + v else 97 + (v - 10).
Definition hex_value (c : Z) : option Z :=
  if (48 <=? c) && (c <=? 57) then Some (c - 48)
  else if (97 <=? c) && (c <=? 102) then Some (c - 97 + 10)
  else if (65 <=? c) && (c <=? 70) then Some (c - 65 + 10)
  else None.
Fixpoint hex_encode (b : bytes) : bytes :=
  match b with
  | [] => []
  | x :: b' => hex_digit (x / 16) :: hex_digit (x mod 16) :: hex_encode b'
  end.
Fixpoint hex_decode (s : bytes) : option bytes :=
  match s with
  | [] => Some []
  | [_] => None
  | a :: b :: s' =>
      h ← hex_value a; l ← hex_value b; rest ← hex_decode s'; Some (h * 16 + l :: rest)
  end.

(** ** Lemmas: strings as bytes *)

Lemma bytes_of_string_of_bytes b : bytes_ok b → bytes_of_string (string_of_bytes b) = b.
Proof.
  intros Hb. unfold bytes_of_string, string_of_bytes.
  rewrite String.list_ascii_of_string_of_list_ascii, map_map.
  induction Hb as [|x b Hx Hb IH]; simpl; [done|]. f_equal; [|done].
  unfold byte_ok in Hx. rewrite Ascii.N_ascii_embedding by lia. lia.
Qed.

Lemma string_of_bytes_of_string s : string_of_bytes (bytes_of_string s) = s.
Proof.
  unfold bytes_of_string, string_of_bytes. rewrite map_map.
  rewrite <-(String.string_of_list_ascii_of_string s) at 2. f_equal.
  rewrite <-(map_id (String.list_ascii_of_string s)) at 2. apply map_ext. intros a.
  rewrite N2Z.id. apply Ascii.ascii_N_embedding.
Qed.

Lemma bytes_of_string_ok s : bytes_ok (bytes_of_string s).
Proof.
  unfold bytes_of_string. apply Forall_fmap, Forall_true. intros a. unfold byte_ok. simpl.
  pose proof (Ascii.N_ascii_bounded a). lia.
Qed.

Lemma bytes_of_string_inj s t : bytes_of_string s = bytes_of_string t → s = t.
Proof. intros H. by rewrite <-(string_of_bytes_of_string s), H, string_of_bytes_of_string. Qed.

Lemma string_of_bytes_app a b :
  string_of_bytes (a ++ b) = (string_of_bytes a ++ string_of_bytes b)%string.
Proof. unfold string_of_bytes. induction a as [|x a IH]; simpl; [done|by rewrite IH]. Qed.

(** A name without a slash is its own base. *)
Lemma trim_left_id s c : c ∉ s → trim_left s c = s.
Proof.
  destruct s as [|x s]; simpl; [done|]. intros [Hx _]%not_elem_of_cons.
  by destruct (Z.eqb_spec x c).
Qed.

(** ** Lemmas: decimal round trip *)

Lemma parse_uint_go_app max_val n a b :
  parse_uint_go max_val n (a ++ b) =
  match parse_uint_go max_val n a with
  | (m, None) => parse_uint_go max_val m b
  | bad => bad
  end.
Proof.
  revert n. induction a as [|c a IH]; intros n; simpl; [done|].
  destruct (negb (is_digit c)); [done|]. destruct (max_val <? _); [done|apply IH].
Qed.

Lemma digits_spec fuel n max_val :
  0 ≤ n < 10 ^ Z.of_nat fuel → n ≤ max_val → fuel ≠ 0%nat →
  parse_uint_go max_val 0 (digits fuel n) = (n, None) ∧ digits fuel n ≠ [] ∧
  Forall (λ c, is_digit c = true) (digits fuel n).
Proof.
  revert n. induction fuel as [|fuel IH]; intros n Hn Hmax Hfuel; [done|].
  cbn [digits]. destruct (Z.ltb_spec n 10) as [Hlt|Hge].
  - assert (is_digit (48 + n) = true) as Hd by (unfold is_digit; zsolve).
    cbn [parse_uint_go]. rewrite Hd. cbn [negb]. replace (0 * 10 + (48 + n - 48)) with n by lia.
    destruct (Z.ltb_spec max_val n); [lia|]. split_and!; [done|done|by apply Forall_singleton].
  - assert (n / 10 < 10 ^ Z.of_nat fuel).
    { apply Z.div_lt_upper_bound; [lia|]. rewrite <-Z.pow_succ_r, <-Nat2Z.inj_succ by lia.
      apply Hn. }
    assert (0 < n / 10) by (apply Z.div_str_pos; lia).
    destruct (IH (n / 10)) as (H1 & H2 & H3); [lia|dlia| |].
    { intros ->. simpl in *. lia. }
    pose proof (Z.mod_pos_bound n 10). pose proof (Z.div_mod n 10).
    assert (is_digit (48 + n mod 10) = true) as Hd by (unfold is_digit; zsolve).
    rewrite parse_uint_go_app, H1. cbn [parse_uint_go]. rewrite Hd. cbn [negb].
    replace (n / 10 * 10 + (48 + n mod 10 - 48)) with n by lia.
    destruct (Z.ltb_spec max_val n); [lia|]. split_and!; [done| |].
    + intros [? ?]%app_eq_nil. done.
    + apply Forall_app. auto.
Qed.

Lemma format_uint_spec n max_val :
  0 ≤ n → n ≤ max_val →
  parse_uint_go max_val 0 (format_uint_b n) = (n, None) ∧ format_uint_b n ≠ [] ∧
  Forall (λ c, is_digit c = true) (format_uint_b n).
Proof.
  intros Hn Hmax. apply digits_spec; [|done|done]. split; [done|].
  rewrite Nat2Z.inj_succ, Z2Nat.id by apply Z.log2_nonneg.
  destruct (decide (n = 0)) as [->|]; [done|].
  eapply Z.lt_le_trans; [apply Z.log2_spec; lia|].
  apply Z.pow_le_mono_l. pose proof (Z.log2_nonneg n). lia.
Qed.

Lemma parse_format_uint n bits :
  0 ≤ n < 2 ^ bits → parse_uint_b (format_uint_b n) bits = (n, None).
Proof.
  intros Hn. destruct (format_uint_spec n (2 ^ bits - 1)) as (H1 & H2 & _); [lia..|].
  unfold parse_uint_b. by destruct (format_uint_b n).
Qed.

Lemma format_uint_head n :
  0 ≤ n → ∃ c s, format_uint_b n = c :: s ∧ is_digit c = true.
Proof.
  intros Hn. destruct (format_uint_spec n n) as (_ & H2 & H3); [lia..|].
  destruct (format_uint_b n) as [|c s]; [done|]. apply Forall_cons_1 in H3 as [? _]. eauto.
Qed.

(** Printing then parsing a 64-bit integer gives it back without error. *)
Lemma parse_format_int n : in_i64 n → parse_int_b (format_int_b n) 64 = (n, None).
Proof.
  unfold in_i64, min_i64, max_i64. intros Hn. unfold format_int_b.
  destruct (Z.ltb_spec n 0) as [Hneg|Hpos].
  - unfold parse_int_b. cbn [Z.eqb Pos.eqb]. rewrite parse_format_uint by lia.
    rewrite andb_true_l. destruct (Z.ltb_spec (2 ^ (64 - 1)) (- n)); [lia|].
    simpl. f_equal. lia.
  - destruct (format_uint_head n Hpos) as (c & s & Heq & Hc).
    pose proof (parse_format_uint n 64 ltac:(lia)) as Hp. rewrite Heq in *.
    unfold parse_int_b.
    assert ((c =? 43) = false ∧ (c =? 45) = false) as [-> ->] by (unfold is_digit in Hc; zcase_in Hc; lia).
    rewrite Hp. simpl negb. rewrite andb_true_l, andb_false_l.
    destruct (Z.leb_spec (2 ^ (64 - 1)) n); [lia|done].
Qed.

Lemma format_int_no_dot n : in_i64 n → 46 ∉ format_int_b n.
Proof.
  intros _ Hin. unfold format_int_b in Hin.
  assert (∀ m, 0 ≤ m → 46 ∉ format_uint_b m) as Hu.
  { intros m Hm Hin'. destruct (format_uint_spec m m) as (_ & _ & H3); [lia..|].
    rewrite Forall_forall in H3. by apply H3 in Hin'. }
  destruct (Z.ltb_spec n 0); [apply elem_of_cons in Hin as [?|Hin]; [done|]|];
    (eapply Hu; [|exact Hin]; lia).
Qed.

Lemma format_int_bytes n : bytes_ok (format_int_b n).
Proof.
  assert (∀ m, 0 ≤ m → bytes_ok (format_uint_b m)) as Hu.
  { intros m Hm. destruct (format_uint_spec m m) as (_ & _ & H3); [lia..|].
    eapply Forall_impl; [exact H3|]. unfold is_digit, byte_ok. intros c Hc.
    apply andb_prop in Hc as [?%Z.leb_le ?%Z.leb_le]. lia. }
  unfold format_int_b. destruct (Z.ltb_spec n 0); [|by apply Hu].
  constructor; [unfold byte_ok; lia|]. apply Hu. lia.
Qed.

(** The same on strings, and what it says of equal prints. *)
Lemma parse_int_format_int n : in_i64 n → parse_int (format_int n) 64 = (n, None).
Proof.
  intros Hn. unfold parse_int, format_int.
  rewrite bytes_of_string_of_bytes by apply format_int_bytes. by apply parse_format_int.
Qed.

Lemma format_int_inj n m : in_i64 n → in_i64 m → format_int n = format_int m → n = m.
Proof.
  intros Hn%parse_int_format_int Hm%parse_int_format_int Hf. rewrite Hf in Hn. congruence.
Qed.

Lemma parse_uint_go_digits m n s v :
  parse_uint_go m n s = (v, None) → Forall (λ c, is_digit c = true) s.
Proof.
  revert n. induction s as [|c s IH]; intros n; cbn [parse_uint_go]; [done|].
  destruct (is_digit c) eqn:Hc; cbn [negb]; [|done].
  destruct (m <? _); [done|]. intros H. constructor; [done|by eapply IH].
Qed.

Lemma parse_uint_go_range m n s v : parse_uint_go m n s = (v, Some ErrRange) → v = m.
Proof.
  revert n. induction s as [|c s IH]; intros n; cbn [parse_uint_go]; [done|].
  destruct (negb (is_digit c)); [done|]. destruct (m <? _); [by intros [= <-]|apply IH].
Qed.

Lemma parse_int_no_dot s v : parse_int_b s 64 = (v, None) → 46 ∉ s.
Proof.
  assert (∀ t neg, match parse_uint_b t 64 with
    | (_, Some ErrSyntax) => (0, Some ErrSyntax)
    | (un, _) =>
        if negb neg && (2 ^ 63 <=? un) then (2 ^ 63 - 1, Some ErrRange)
        else if neg && (2 ^ 63 <? un) then (- 2 ^ 63, Some ErrRange)
        else (if neg then - un else un, None)
    end = (v, None) → 46 ∉ t) as Hgo.
  { intros t neg. unfold parse_uint_b. destruct t as [|c t]; [done|].
    destruct (parse_uint_go _ _ _) as [w [[]|]] eqn:Hw; [done| |].
    - apply parse_uint_go_range in Hw as ->. by destruct neg.
    - intros _ Hin. apply parse_uint_go_digits in Hw. rewrite Forall_forall in Hw.
      by apply Hw in Hin. }
  unfold parse_int_b. change (2 ^ (64 - 1)) with (2 ^ 63). destruct s as [|c s]; [done|].
  destruct (Z.eqb_spec c 43); [|destruct (Z.eqb_spec c 45)].
  - intros H%(Hgo s false). apply not_elem_of_cons. split; [lia|done].
  - intros H%(Hgo s true). apply not_elem_of_cons. split; [lia|done].
  - apply (Hgo _ false).
Qed.

(** ** Lemmas: split and join *)

Lemma split_go_nosep c cur s rest :
  c ∉ s → split_go [c] 0 cur (s ++ c :: rest) = (reverse cur ++ s) :: split_go [c] 0 [] rest.
Proof.
  revert cur. induction s as [|d s IH]; intros cur Hn; simpl.
  - rewrite Z.eqb_refl. simpl. by rewrite app_nil_r.
  - apply not_elem_of_cons in Hn as [Hne Hn].
    destruct (Z.eqb_spec c d); [done|]. simpl. rewrite IH by done.
    f_equal. rewrite reverse_cons. by rewrite <-app_assoc.
Qed.

Lemma split_go_last c cur s : c ∉ s → split_go [c] 0 cur s = [reverse cur ++ s].
Proof.
  revert cur. induction s as [|d s IH]; intros cur Hn; simpl.
  - by rewrite app_nil_r.
  - apply not_elem_of_cons in Hn as [Hne Hn].
    destruct (Z.eqb_spec c d); [done|]. simpl. rewrite IH by done.
    f_equal. rewrite reverse_cons. by rewrite <-app_assoc.
Qed.

(** Splitting a join of fields without the separator gives the fields back. *)
Lemma split_join c l :
  l ≠ [] → Forall (λ f, c ∉ f) l → split (join l [c]) [c] = l.
Proof.
  intros Hl Hf. unfold split. induction Hf as [|f l Hf1 Hf IH]; [done|].
  destruct l as [|g l].
  - simpl. by rewrite split_go_last.
  - change (join (f :: g :: l) [c]) with (f ++ [c] ++ join (g :: l) [c]).
    etrans; [exact (split_go_nosep c [] f (join (g :: l) [c]) Hf1)|]. by rewrite IH.
Qed.

Lemma has_prefix_app p s : has_prefix p s = true → ∃ r, s = p ++ r.
Proof.
  revert s. induction p as [|a p IH]; intros s; simpl; [by exists s|].
  destruct s as [|b s]; [done|]. intros [->%Z.eqb_eq H]%andb_true_iff.
  destruct (IH s H) as [r ->]. by exists r.
Qed.

Lemma split_go_skip sep n cur s :
  (n ≤ length s)%nat → split_go sep n cur s = split_go sep 0 cur (drop n s).
Proof.
  revert n. induction s as [|c s IH]; intros [|n] Hn; simpl in *; [done|lia|done|].
  apply IH. lia.
Qed.

Lemma split_go_nonempty sep n cur s : split_go sep n cur s ≠ [].
Proof.
  revert n cur. induction s as [|c s IH]; intros n cur; simpl; [done|].
  destruct n; [|apply IH]. case_match; [done|apply IH].
Qed.

(** Joining the fields of a split gives the string back: no byte is lost. *)
Lemma join_split_go sep cur s :
  sep ≠ [] → join (split_go sep 0 cur s) sep = reverse cur ++ s.
Proof.
  intros Hsep. remember (length s) as n eqn:Hn.
  revert s cur Hn. induction n as [n IH] using lt_wf_ind. intros s cur ->.
  destruct s as [|c s]; simpl; [by rewrite app_nil_r|].
  destruct (has_prefix sep (c :: s)) eqn:Hp.
  - apply has_prefix_app in Hp as [r Hr].
    destruct sep as [|b sep]; [done|]. simpl in Hr. injection Hr as <- ->.
    rewrite split_go_skip by (simpl; rewrite length_app; lia).
    rewrite (drop_app_len sep r) by (simpl; lia).
    pose proof (split_go_nonempty (c :: sep) 0 [] r) as Hne.
    pose proof (IH (length r) ltac:(simpl; rewrite length_app; lia) r [] eq_refl) as Hj.
    simpl in Hj. destruct (split_go (c :: sep) 0 [] r) as [|f l] eqn:Hs; [done|].
    change (join (reverse cur :: f :: l) (c :: sep)) with
      (reverse cur ++ (c :: sep) ++ join (f :: l) (c :: sep)).
    by rewrite Hj.
  - rewrite (IH (length s)) by (simpl; lia || done).
    by rewrite reverse_cons, <-app_assoc.
Qed.

Lemma join_split s sep : sep ≠ [] → join (split s sep) sep = s.
Proof. intros. unfold split. by rewrite join_split_go. Qed.

Lemma path_base_id s : s ≠ [] → 47 ∉ s → path_base s = s.
Proof.
  intros Hne Hs. unfold path_base, trim_right.
  rewrite trim_left_id by by rewrite elem_of_reverse.
  rewrite reverse_involutive. destruct s as [|x s]; [done|].
  unfold split. by rewrite split_go_last.
Qed.

(** ** Lemmas: big-endian integers *)

Lemma length_be_bytes n v : length (be_bytes n v) = n.
Proof. induction n; cbn [be_bytes length]; auto. Qed.

Lemma be_bytes_ok n v : bytes_ok (be_bytes n v).
Proof. induction n; cbn [be_bytes]; constructor; auto with picpak. Qed.

Lemma be_combine_app a b :
  be_combine (a ++ b) = be_combine a * 256 ^ zlen b + be_combine b.
Proof.
  unfold be_combine. rewrite foldl_app. generalize (foldl (λ a b, a * 256 + b) 0 a) as z.
  induction b as [|x b IH] using rev_ind; intros z; [simpl; unfold zlen; simpl; lia|].
  rewrite !foldl_app. simpl. rewrite IH, zlen_app.
  replace (zlen [x]) with 1 by done. rewrite Z.pow_add_r by (pose proof (zlen_nonneg b); lia).
  lia.
Qed.

Lemma be_combine_bytes n v : be_combine (be_bytes n v) = v mod 256 ^ Z.of_nat n.
Proof.
  induction n as [|n IH]; [by rewrite Z.mod_1_r|].
  change (be_bytes (S n) v) with ([u8 (Z.shiftr v (8 * Z.of_nat n))] ++ be_bytes n v).
  rewrite be_combine_app, IH. unfold zlen. rewrite length_be_bytes.
  replace (be_combine [u8 (Z.shiftr v (8 * Z.of_nat n))]) with
    (u8 (Z.shiftr v (8 * Z.of_nat n))) by (unfold be_combine; simpl; lia).
  unfold u8. rewrite Z.shiftr_div_pow2 by lia. rewrite Z.pow_mul_r by lia.
  change (2 ^ 8) with 256. rewrite Nat2Z.inj_succ, Z.pow_succ_r by lia.
  rewrite (Z.mul_comm 256), Z.rem_mul_r by (try apply Z.pow_pos_nonneg; lia). lia.
Qed.

Lemma be_combine_bound l : bytes_ok l → 0 ≤ be_combine l < 256 ^ zlen l.
Proof.
  induction l as [|x l IH] using rev_ind; intros Hl; [done|].
  apply Forall_app in Hl as [Hl Hx]. apply Forall_cons_1 in Hx as [Hx _].
  rewrite be_combine_app, zlen_app. change (zlen [x]) with 1.
  rewrite Z.pow_add_r by (pose proof (zlen_nonneg l); lia).
  specialize (IH Hl). unfold byte_ok in Hx.
  replace (be_combine [x]) with x by (unfold be_combine; simpl; lia). lia.
Qed.

Lemma be_u32_roundtrip v : 0 ≤ v < 2 ^ 32 → be_combine (put_u32be v) = v.
Proof. intros. unfold put_u32be. rewrite be_combine_bytes. apply Z.mod_small. simpl. lia. Qed.

(** ** Lemmas: base64 and hex *)

Definition b64_alphabet (c : Z) : Prop :=
  65 ≤ c ≤ 90 ∨ 97 ≤ c ≤ 122 ∨ 48 ≤ c ≤ 57 ∨ c = 45 ∨ c = 95.

Lemma b64_char_value v : 0 ≤ v < 64 → b64_value (b64_char v) = Some v ∧ b64_alphabet (b64_char v).
Proof.
  intros Hv. assert (forallb (λ v, bool_decide (b64_value (b64_char v) = Some v))
    (seqZ 0 64) = true) as H by (vm_compute; reflexivity).
  rewrite forallb_forall in H. split.
  - specialize (H v). apply bool_decide_eq_true in H; [done|].
    apply list_elem_of_In, elem_of_seqZ. lia.
  - unfold b64_alphabet, b64_char. zcase; lia.
Qed.

Lemma list_ind3 {A} (P : list A → Prop) :
  P [] → (∀ a, P [a]) → (∀ a b, P [a; b]) →
  (∀ a b c l, P l → P (a :: b :: c :: l)) → ∀ l, P l.
Proof.
  intros H0 H1 H2 H3. fix go 1.
  intros [|a [|b [|c l]]]; [done|apply H1|apply H2|apply H3, go].
Qed.

(** The 6-bit groups of a byte string. *)
Fixpoint sextets (b : bytes) : list Z :=
  match b with
  | [] => []
  | [x] => [x / 4; (x mod 4) * 16]
  | [x; y] => [x / 4; (x mod 4) * 16 + y / 16; (y mod 16) * 4]
  | x :: y :: z :: b' =>
      x / 4 :: (x mod 4) * 16 + y / 16 :: (y mod 16) * 4 + z / 64 :: z mod 64 :: sextets b'
  end.

Lemma b64_encode_sextets b : b64_encode b = b64_char <$> sextets b.
Proof.
  induction b as [|x|x y|x y z b IH] using list_ind3; [done..|].
  cbn [b64_encode sextets]. by rewrite IH.
Qed.

Lemma sextets_range b : bytes_ok b → Forall (λ v, 0 ≤ v < 64) (sextets b).
Proof.
  unfold byte_ok. induction b as [|x|x y|x y z b IH] using list_ind3; intros Hb;
    cbn [sextets]; decompose_Forall_hyps; repeat (apply Forall_cons; split); try dlia;
    try apply Forall_nil_2; auto.
Qed.

Lemma b64_quanta_sextets b : bytes_ok b → b64_quanta (sextets b) = Some b.
Proof.
  unfold byte_ok. induction b as [|x|x y|x y z b IH] using list_ind3; intros Hb;
    cbn [sextets b64_quanta]; decompose_Forall_hyps; [done|f_equal..].
  - f_equal. dlia.
  - f_equal; [|f_equal]; dlia.
  - rewrite IH by done. simpl. f_equal. f_equal; [|f_equal; [|f_equal]]; dlia.
Qed.

Lemma b64_encode_alphabet b : bytes_ok b → Forall b64_alphabet (b64_encode b).
Proof.
  intros Hb. rewrite b64_encode_sextets. apply Forall_fmap.
  eapply Forall_impl; [by apply sextets_range|]. intros v Hv. by apply b64_char_value.
Qed.

Lemma b64_decode_encode b : bytes_ok b → b64_decode (b64_encode b) = Some b.
Proof.
  intros Hb. unfold b64_decode.
  assert (List.filter not_newline (b64_encode b) = b64_encode b) as ->.
  { pose proof (b64_encode_alphabet b Hb) as Ha. induction Ha as [|c l Hc Hl IH]; [done|].
    simpl. rewrite IH. assert (not_newline c = true) as ->; [|done].
    unfold not_newline, b64_alphabet in *. zsolve. }
  assert (mapM b64_value (b64_encode b) = Some (sextets b)) as ->.
  { rewrite b64_encode_sextets. pose proof (sextets_range b Hb) as Hs.
    apply mapM_Some_2. induction Hs; simpl; constructor; [|done]. by apply b64_char_value. }
  simpl. by apply b64_quanta_sextets.
Qed.

Lemma b64_no_dot b : bytes_ok b → 46 ∉ b64_encode b.
Proof.
  intros Hb Hin. pose proof (b64_encode_alphabet b Hb) as Ha.
  rewrite Forall_forall in Ha. apply Ha in Hin. unfold b64_alphabet in Hin. lia.
Qed.

Lemma b64_encode_bytes b : bytes_ok b → bytes_ok (b64_encode b).
Proof.
  intros Hb%b64_encode_alphabet. eapply Forall_impl; [exact Hb|].
  unfold b64_alphabet, byte_ok. lia.
Qed.

Lemma b64_decode_no_dot s b : b64_decode s = Some b → 46 ∉ s.
Proof.
  unfold b64_decode. destruct (mapM _ _) as [v|] eqn:Hm; [|done]. intros _ Hin.
  apply mapM_Some in Hm.
  assert (46 ∈ List.filter not_newline s) as Hf
    by (rewrite list_elem_of_In, filter_In, <-list_elem_of_In; done).
  apply list_elem_of_lookup in Hf as [i Hi].
  by destruct (Forall2_lookup_l _ _ _ _ _ Hm Hi) as (x & _ & Hx).
Qed.

Lemma b64_encode_inj a b : bytes_ok a → bytes_ok b → b64_encode a = b64_encode b → a = b.
Proof.
  intros Ha Hb H. apply (f_equal b64_decode) in H.
  rewrite !b64_decode_encode in H by done. congruence.
Qed.

Lemma hex_digit_value v : 0 ≤ v < 16 → hex_value (hex_digit v) = Some v.
Proof. intros. unfold hex_value, hex_digit. zcase; try lia; f_equal; lia. Qed.

(** The digits are [0-9a-f]. *)
Lemma hex_encode_digits b :
  bytes_ok b → Forall (λ c, 48 ≤ c ≤ 102 ∧ c ≠ 47) (hex_encode b).
Proof.
  unfold byte_ok. induction b as [|x b IH]; intros Hb; simpl; [done|]. decompose_Forall_hyps.
  assert (∀ v, 0 ≤ v < 16 → 48 ≤ hex_digit v ≤ 102 ∧ hex_digit v ≠ 47) as Hd
    by (intros v Hv; unfold hex_digit; zcase; lia).
  constructor; [apply Hd; dlia|]. constructor; [apply Hd; dlia|by apply IH].
Qed.
Lemma hex_encode_bytes b : bytes_ok b → bytes_ok (hex_encode b).
Proof.
  intros Hb%hex_encode_digits. eapply Forall_impl; [exact Hb|]. unfold byte_ok. simpl. lia.
Qed.
Lemma hex_no_slash b : bytes_ok b → 47 ∉ hex_encode b.
Proof. intros Hb%hex_encode_digits Hin. rewrite Forall_forall in Hb. apply Hb in Hin as [? []]. done. Qed.

Lemma hex_decode_encode b : bytes_ok b → hex_decode (hex_encode b) = Some b.
Proof.
  unfold byte_ok. induction b as [|x b IH]; intros Hb; [done|]. decompose_Forall_hyps.
  rewrite !hex_digit_value by dlia. simpl. rewrite IH by done. simpl. f_equal. f_equal. dlia.
Qed.
End GoLib.
