(* ===== verification/FaasProto.v ===== *)
(** * The supervisor/worker wire protocol ([internal/faasproto])

    Length-prefixed frames with direction-specific ceilings, and the
    fixed-size response codec. The JSON form of the response metadata is the
    codec [marshal]/[unmarshal], a parameter. *)

From S2P Require Import Prelude GoLib.

Import GoLib.

Module FaasProto.

(** ** Constants (frame.go) *)

Definition KindRenderRequest : Z := 1.
Definition KindRenderResponse : Z := 2.
Definition KindCancel : Z := 3.
Definition KindReady : Z := 4.
Definition RawFrameSize : Z := 400 * 300 * 3.
Definition MetaMax : Z := Z.shiftl 16 10.
Definition MaxFrame : Z := 1 + 4 + MetaMax + RawFrameSize.
Definition MaxRequestImageBytes : Z := Z.shiftl 12 20.
Definition MaxRequestFrame : Z := 1 + MetaMax + (MaxRequestImageBytes / 3 + 1) * 4.

(** ** Response metadata (msg.go) *)

Record LogLine := MkLogLine { Lvl : string; Msg : string }.
Record RenderErr := MkRenderErr { Kind : string; ErrMsg : string }.
Record ResponseMeta := MkResponseMeta {
  V : Z; ID : string; OK : bool; W : Z; H : Z; Dither : string;
  NextWakeHint : option Z; Log : list LogLine; MetaErr : option RenderErr }.

Inductive error :=
| ErrFrameTooLong (n : Z) | ErrFrameShort (n : Z) | ErrEOF | ErrUnexpectedEOF
| ErrOkImage (n : Z) | ErrErrImage (n : Z) | ErrMarshal | ErrMetaMax (n : Z)
| ErrPayloadShort (n : Z) | ErrMetaLen (n : Z) | ErrMetaJSON.

(** ** Frames *)

(** [io.ReadFull] on a reader holding [r]: [n] bytes or the EOF it reports. *)
Definition read_full (n : Z) (r : bytes) : result error (bytes * bytes) :=
  if n <=? zlen r then Ok (take (Z.to_nat n) r, drop (Z.to_nat n) r)
  else if zlen r =? 0 then Err ErrEOF else Err ErrUnexpectedEOF.

(** [WriteFrame]: the bytes written, or the ceiling error. *)
Definition write_frame (kind : Z) (payload : bytes) : result error bytes :=
  let total := 1 + zlen payload in
  if MaxRequestFrame <? total then Err (ErrFrameTooLong total)
  else Ok (put_u32be (u32 total) ++ kind :: payload).

(** [ReadFrame]: besides the result, the sizes of the buffers it allocated on
    the declared length, which is what the ceiling protects. *)
Definition read_frame (r : bytes) : list Z * result error (Z * bytes * bytes) :=
  match read_full 4 r with
  | Err e => ([], Err e)
  | Ok (lenb, r) =>
      let total := be_combine lenb in
      if total <? 1 then ([], Err (ErrFrameShort total))
      else if MaxFrame <? total then ([], Err (ErrFrameTooLong total))
      else ([total],
        '(buf, r) ← read_full total r;
        match buf with
        | kind :: payload => Ok (kind, payload, r)
        | [] => Err (ErrFrameShort 0)
        end)
  end.

(** The supervisor's read loop on one connection: frames until the first error. *)
Fixpoint read_frames (fuel : nat) (r : bytes) : list (Z * bytes) * option error :=
  match fuel with
  | O => ([], None)
  | S fuel =>
      match (read_frame r).2 with
      | Ok (k, p, r') => let '(fs, e) := read_frames fuel r' in ((k, p) :: fs, e)
      | Err e => ([], Some e)
      end
  end.

(** ** Responses *)

Section Codec.
Context (marshal : ResponseMeta → option bytes) (unmarshal : bytes → option ResponseMeta).

Definition encode_response (meta : ResponseMeta) (raw : bytes) : result error bytes :=
  if bool_decide (MetaErr meta = None) && negb (zlen raw =? RawFrameSize)
  then Err (ErrOkImage (zlen raw))
  else if negb (bool_decide (MetaErr meta = None)) && negb (zlen raw =? 0)
  then Err (ErrErrImage (zlen raw))
  else match marshal meta with
       | None => Err ErrMarshal
       | Some mj =>
           if MetaMax <? zlen mj then Err (ErrMetaMax (zlen mj))
           else Ok (put_u32be (u32 (zlen mj)) ++ mj ++ raw)
       end.

Definition decode_response (payload : bytes) : result error (ResponseMeta * bytes) :=
  if zlen payload <? 4 then Err (ErrPayloadShort (zlen payload))
  else
    let metaLen := be_combine (take 4 payload) in
    if (MetaMax <? metaLen) || (zlen payload <? 4 + metaLen) then Err (ErrMetaLen metaLen)
    else match unmarshal (take (Z.to_nat metaLen) (drop 4 payload)) with
         | None => Err ErrMetaJSON
         | Some meta =>
             let raw := drop (Z.to_nat (4 + metaLen)) payload in
             if bool_decide (MetaErr meta = None) then
               if negb (zlen raw =? RawFrameSize) then Err (ErrOkImage (zlen raw))
               else Ok (meta, raw)
             else if negb (zlen raw =? 0) then Err (ErrErrImage (zlen raw))
             else Ok (meta, raw)
         end.
End Codec.

#[export] Instance LogLine_eq_dec : EqDecision LogLine.
Proof. solve_decision. Defined.
#[export] Instance RenderErr_eq_dec : EqDecision RenderErr.
Proof. solve_decision. Defined.
#[export] Instance ResponseMeta_eq_dec : EqDecision ResponseMeta.
Proof. solve_decision. Defined.

(** ** Lemmas *)

Lemma MaxFrame_value : MaxFrame = 376389.
Proof. reflexivity. Qed.
Lemma MaxRequestFrame_value : MaxRequestFrame = 16793605.
Proof. reflexivity. Qed.

Lemma read_full_app n a r : zlen a = n → read_full n (a ++ r) = Ok (a, r).
Proof.
  intros Hn. unfold read_full. rewrite zlen_app. pose proof (zlen_nonneg r).
  destruct (Z.leb_spec n (zlen a + zlen r)); [|lia].
  by rewrite take_app_len, drop_app_len by (unfold zlen in Hn; lia).
Qed.

Lemma read_full_Ok n r a r' :
  read_full n r = Ok (a, r') → 0 ≤ n → r = a ++ r' ∧ zlen a = n.
Proof.
  unfold read_full. destruct (Z.leb_spec n (zlen r)); [|by case_match].
  intros [= <- <-] Hn. split; [by rewrite take_drop|].
  unfold zlen in *. rewrite length_take. lia.
Qed.

Lemma write_frame_Ok kind payload :
  1 + zlen payload ≤ MaxRequestFrame →
  write_frame kind payload = Ok (put_u32be (1 + zlen payload) ++ kind :: payload).
Proof.
  intros Hlen. unfold write_frame. destruct (Z.ltb_spec MaxRequestFrame (1 + zlen payload)); [lia|].
  rewrite MaxRequestFrame_value in Hlen. pose proof (zlen_nonneg payload).
  rewrite u32_small by lia. done.
Qed.

Lemma read_frame_written kind payload r :
  1 + zlen payload ≤ MaxFrame →
  read_frame (put_u32be (1 + zlen payload) ++ (kind :: payload) ++ r) =
    ([1 + zlen payload], Ok (kind, payload, r)).
Proof.
  intros Hlen. rewrite MaxFrame_value in Hlen. pose proof (zlen_nonneg payload).
  unfold read_frame. rewrite read_full_app by done.
  rewrite be_u32_roundtrip by lia.
  destruct (Z.ltb_spec (1 + zlen payload) 1); [lia|]. rewrite MaxFrame_value.
  destruct (Z.ltb_spec 376389 (1 + zlen payload)); [lia|].
  rewrite read_full_app by by rewrite zlen_cons. done.
Qed.

Lemma be_combine_4_bound b : bytes_ok b → zlen b = 4 → 0 ≤ be_combine b < 2 ^ 32.
Proof. intros Hb Hl. pose proof (be_combine_bound b Hb) as H. rewrite Hl in H. done. Qed.

Lemma read_frame_allocs r n : n ∈ (read_frame r).1 → 1 ≤ n ≤ MaxFrame.
Proof.
  unfold read_frame. destruct (read_full 4 r) as [[lenb r']|e].
  2: { intros Hn. by apply not_elem_of_nil in Hn. }
  destruct (Z.ltb_spec (be_combine lenb) 1); [by intros ?%not_elem_of_nil|].
  destruct (Z.ltb_spec MaxFrame (be_combine lenb)); [by intros ?%not_elem_of_nil|].
  intros ->%list_elem_of_singleton. lia.
Qed.

Lemma read_frame_Ok r k p r' :
  (read_frame r).2 = Ok (k, p, r') →
  ∃ lenb, r = lenb ++ k :: p ++ r' ∧ zlen lenb = 4 ∧ be_combine lenb = 1 + zlen p ∧
          1 + zlen p ≤ MaxFrame.
Proof.
  unfold read_frame. destruct (read_full 4 r) as [[lenb r1]|e] eqn:H4; [|done].
  apply read_full_Ok in H4 as [-> Hlen]; [|lia].
  destruct (Z.ltb_spec (be_combine lenb) 1); [done|].
  destruct (Z.ltb_spec MaxFrame (be_combine lenb)); [done|]. simpl.
  destruct (read_full (be_combine lenb) r1) as [[buf r2]|e] eqn:Hb; [|done]. simpl.
  apply read_full_Ok in Hb as [-> Hbl]; [|lia].
  destruct buf as [|k' p']; [done|]. intros [= -> -> ->].
  rewrite zlen_cons in Hbl. exists lenb. split_and!; [done|done|lia|lia].
Qed.

Definition frame_bytes (m : Z * bytes) : bytes :=
  put_u32be (1 + zlen m.2) ++ m.1 :: m.2.

Lemma read_frames_written ms fuel :
  (length ms < fuel)%nat → Forall (λ m, 1 + zlen m.2 ≤ MaxFrame) ms →
  read_frames fuel (ms ≫= frame_bytes) = (ms, Some ErrEOF).
Proof.
  revert fuel. induction ms as [|[k p] ms IH]; intros [|fuel] Hf Hms; simpl in Hf; try lia.
  - done.
  - apply Forall_cons_1 in Hms as [Hp Hms]. simpl in Hp.
    cbn [read_frames]. rewrite bind_cons. unfold frame_bytes at 1. cbn [fst snd].
    rewrite <-app_assoc. change ((k :: p) ++ ?x) with ((k :: p) ++ x).
    rewrite read_frame_written by done. cbn [snd]. rewrite IH by (done || lia). done.
Qed.

Section CodecLemmas.
Context (marshal : ResponseMeta → option bytes) (unmarshal : bytes → option ResponseMeta).

Lemma decode_written mj meta raw :
  zlen mj ≤ MetaMax → unmarshal mj = Some meta →
  zlen raw = (if bool_decide (MetaErr meta = None) then RawFrameSize else 0) →
  decode_response unmarshal (put_u32be (zlen mj) ++ mj ++ raw) = Ok (meta, raw).
Proof.
  intros Hmj Hun Hraw. unfold decode_response. pose proof (zlen_nonneg mj).
  assert (zlen (put_u32be (zlen mj)) = 4) as H4 by done.
  rewrite !zlen_app, H4. pose proof (zlen_nonneg raw).
  destruct (Z.ltb_spec (4 + (zlen mj + zlen raw)) 4); [lia|].
  cbv zeta. rewrite (take_app_len (put_u32be (zlen mj))) by done.
  rewrite (drop_app_len (put_u32be (zlen mj))) by done.
  change MetaMax with 16384 in Hmj. rewrite be_u32_roundtrip by lia.
  change MetaMax with 16384.
  destruct (Z.ltb_spec 16384 (zlen mj)); [lia|]. rewrite orb_false_l.
  destruct (Z.ltb_spec (4 + (zlen mj + zlen raw)) (4 + zlen mj)); [lia|].
  rewrite take_app_len by (unfold zlen; lia). rewrite Hun.
  replace (Z.to_nat (4 + zlen mj)) with (4 + length mj)%nat by (unfold zlen; lia).
  rewrite <-drop_drop, drop_app_len by done. rewrite drop_app_len by done.
  rewrite Hraw. by case_bool_decide.
Qed.

Lemma decode_response_Ok payload meta raw :
  decode_response unmarshal payload = Ok (meta, raw) → bytes_ok payload →
  zlen raw = (if bool_decide (MetaErr meta = None) then RawFrameSize else 0) ∧
  ∃ lenb mj, payload = lenb ++ mj ++ raw ∧ zlen lenb = 4 ∧ be_combine lenb = zlen mj ∧
             zlen mj ≤ MetaMax ∧ unmarshal mj = Some meta.
Proof.
  unfold decode_response. destruct (Z.ltb_spec (zlen payload) 4) as [|Hp4]; [done|].
  destruct (Z.ltb_spec MetaMax (be_combine (take 4 payload))) as [|Hmm]; [done|]. simpl.
  destruct (Z.ltb_spec (zlen payload) (4 + be_combine (take 4 payload))) as [|Hpl]; [done|].
  intros Hd Hok. set (n := be_combine (take 4 payload)) in *.
  assert (0 ≤ n) as Hn by (apply be_combine_bound; by apply Forall_take).
  destruct (unmarshal _) as [meta'|] eqn:Hun; [|done].
  assert (meta' = meta ∧ drop (Z.to_nat (4 + n)) payload = raw ∧
    zlen raw = (if bool_decide (MetaErr meta = None) then RawFrameSize else 0)) as (-> & <- & Hr).
  { case_bool_decide; [destruct (Z.eqb_spec (zlen (drop (Z.to_nat (4 + n)) payload)) RawFrameSize)
      |destruct (Z.eqb_spec (zlen (drop (Z.to_nat (4 + n)) payload)) 0)]; simplify_eq/=;
      (split_and!; [done|done|by case_bool_decide]). }
  split; [done|]. exists (take 4 payload), (take (Z.to_nat n) (drop 4 payload)).
  unfold zlen in *. rewrite !length_take, length_drop. split_and!; [|lia|lia|lia|done].
  rewrite <-(take_drop 4 payload) at 1. f_equal.
  rewrite <-(take_drop (Z.to_nat n) (drop 4 payload)) at 1. f_equal.
  rewrite drop_drop. f_equal. lia.
Qed.
End CodecLemmas.
(** ** Properties *)

(** A frame that fits the response ceiling survives the wire: whatever
    follows it on the connection, the reader returns its kind and payload and
    leaves the rest, after one allocation of the declared size. *)
Theorem frame_roundtrip kind payload rest :
  1 + zlen payload ≤ MaxFrame →
  ∃ w, write_frame kind payload = Ok w ∧
       read_frame (w ++ rest) = ([1 + zlen payload], Ok (kind, payload, rest)).
Proof.
  intros Hlen. eexists. split.
  - apply write_frame_Ok. rewrite MaxFrame_value in Hlen. rewrite MaxRequestFrame_value. lia.
  - rewrite <-app_assoc. by apply read_frame_written.
Qed.

(** The read loop recovers exactly the sequence of frames written on a
    connection and then reports the end of the stream. *)
Theorem frame_stream_roundtrip ms :
  Forall (λ m, 1 + zlen m.2 ≤ MaxFrame) ms →
  mapM (λ m, match write_frame m.1 m.2 with Ok w => Some w | Err _ => None end) ms =
    Some (frame_bytes <$> ms) ∧
  read_frames (S (length ms)) (ms ≫= frame_bytes) = (ms, Some ErrEOF).
Proof.
  intros Hms. split; [|apply read_frames_written; [lia|done]].
  apply mapM_Some_2. induction Hms as [|[k p] ms Hp Hms IH]; simpl; constructor; [|done].
  simpl in *. rewrite write_frame_Ok; [done|].
  rewrite MaxFrame_value in Hp. rewrite MaxRequestFrame_value. lia.
Qed.

(** Whatever bytes an untrusted worker sends, the supervisor never
    allocates more than [MaxFrame] bytes for a frame, and a frame it accepts is
    exactly the prefix the worker sent, its length prefix included. *)
Theorem read_frame_bounded r :
  Forall (λ n, 1 ≤ n ≤ MaxFrame) (read_frame r).1 ∧
  ∀ k p r', (read_frame r).2 = Ok (k, p, r') →
    1 + zlen p ≤ MaxFrame ∧
    ∃ lenb, r = lenb ++ k :: p ++ r' ∧ zlen lenb = 4 ∧ be_combine lenb = 1 + zlen p.
Proof.
  split.
  - apply Forall_forall. intros n Hn. by apply (read_frame_allocs r).
  - intros k p r' Hr. apply read_frame_Ok in Hr as (lenb & ? & ? & ? & ?). eauto 7.
Qed.

(** A response the worker's codec encodes is decoded to the same metadata
    and image, and always fits the frame ceiling; this uses of the JSON codec
    only that it reads back the metadata it wrote. *)
Theorem response_roundtrip marshal unmarshal meta raw payload :
  (∀ mj, marshal meta = Some mj → unmarshal mj = Some meta) →
  encode_response marshal meta raw = Ok payload →
  decode_response unmarshal payload = Ok (meta, raw) ∧ 1 + zlen payload ≤ MaxFrame.
Proof.
  intros Hjson He. unfold encode_response in He.
  assert (zlen raw = if bool_decide (MetaErr meta = None) then RawFrameSize else 0) as Hraw.
  { case_bool_decide; simpl in He;
      [destruct (Z.eqb_spec (zlen raw) RawFrameSize)|destruct (Z.eqb_spec (zlen raw) 0)];
      simpl in He; done. }
  rewrite Hraw in He. assert (marshal meta ≠ None) by (intros Hm; rewrite Hm in He; crush_match).
  destruct (marshal meta) as [mj|]; [|done].
  assert (zlen mj ≤ MetaMax ∧ payload = put_u32be (zlen mj) ++ mj ++ raw) as [Hmj ->].
  { case_bool_decide; simpl in He; (destruct (Z.ltb_spec MetaMax (zlen mj)); [done|]);
      simplify_eq/=; (split; [done|]); pose proof (zlen_nonneg mj); change MetaMax with 16384 in *;
      by rewrite u32_small by lia. }
  split; [by apply decode_written; auto|].
  rewrite !zlen_app, Hraw. change (zlen (put_u32be (zlen mj))) with 4.
  rewrite MaxFrame_value. change MetaMax with 16384 in Hmj. change RawFrameSize with 360000.
  case_bool_decide; lia.
Qed.

(** Decoding never hands the supervisor an image of any size but the fixed
    raw frame on success, or any image bytes beside an error, and accounts for
    every byte of the payload. *)
Theorem decode_response_fixed_size unmarshal payload meta raw :
  bytes_ok payload → decode_response unmarshal payload = Ok (meta, raw) →
  (MetaErr meta = None → zlen raw = RawFrameSize) ∧
  (MetaErr meta ≠ None → raw = []) ∧
  ∃ lenb mj, payload = lenb ++ mj ++ raw ∧ zlen lenb = 4 ∧ be_combine lenb = zlen mj ∧
             zlen mj ≤ MetaMax ∧ unmarshal mj = Some meta.
Proof.
  intros Hb Hd. apply decode_response_Ok in Hd as [Hraw Hex]; [|done].
  split_and!; [..|done]; intros HE; rewrite HE in Hraw || rewrite bool_decide_false in Hraw by done.
  - by rewrite bool_decide_true in Hraw.
  - by apply zlen_nil_inv.
Qed.

(** ** Witnesses *)

Lemma frame_roundtrip_witness :
  ∃ w, write_frame KindReady [123; 125] = Ok w ∧
       read_frame (w ++ [7; 7]) = ([1 + zlen [123; 125]], Ok (KindReady, [123; 125], [7; 7])).
Proof. apply frame_roundtrip. vm_compute. discriminate. Defined.

Definition sample_frames : list (Z * bytes) := [(4, [123; 125]); (2, []); (3, [1; 2; 3])].

Lemma frame_stream_roundtrip_witness :
  mapM (λ m, match write_frame m.1 m.2 with Ok w => Some w | Err _ => None end) sample_frames =
    Some (frame_bytes <$> sample_frames) ∧
  read_frames (S (length sample_frames)) (sample_frames ≫= frame_bytes) =
    (sample_frames, Some ErrEOF).
Proof.
  apply frame_stream_roundtrip.
  repeat (apply Forall_cons; split; [vm_compute; discriminate|]). apply Forall_nil_2.
Defined.

(** A codec for two metadata values, an error and a success. *)
Definition sample_err_meta : ResponseMeta :=
  MkResponseMeta 2 "r1" false 0 0 "" None [] (Some (MkRenderErr "timeout" "8s")).
Definition sample_marshal (m : ResponseMeta) : option bytes :=
  if decide (m = sample_err_meta) then Some [123; 125] else None.
Definition sample_unmarshal (b : bytes) : option ResponseMeta :=
  if decide (b = [123; 125]) then Some sample_err_meta else None.

Lemma response_roundtrip_witness :
  encode_response sample_marshal sample_err_meta [] = Ok [0; 0; 0; 2; 123; 125] ∧
  decode_response sample_unmarshal [0; 0; 0; 2; 123; 125] = Ok (sample_err_meta, []) ∧
  1 + zlen [0; 0; 0; 2; 123; 125] ≤ MaxFrame.
Proof.
  split; [reflexivity|].
  apply (response_roundtrip sample_marshal); [|reflexivity].
  intros mj Hmj. vm_compute in Hmj. injection Hmj as <-. reflexivity.
Defined.

Lemma decode_response_fixed_size_witness :
  (MetaErr sample_err_meta = None → zlen (@nil Z) = RawFrameSize) ∧
  (MetaErr sample_err_meta ≠ None → @nil Z = []) ∧
  ∃ lenb mj, [0; 0; 0; 2; 123; 125] = lenb ++ mj ++ [] ∧ zlen lenb = 4 ∧
    be_combine lenb = zlen mj ∧ zlen mj ≤ MetaMax ∧ sample_unmarshal mj = Some sample_err_meta.
Proof.
  apply (decode_response_fixed_size sample_unmarshal); [|reflexivity].
  repeat (apply Forall_cons; split; [unfold byte_ok; lia|]). apply Forall_nil_2.
Defined.

Example oversize_rejected_before_alloc :
  read_frame (put_u32be 376390 ++ [2]) = ([], Err (ErrFrameTooLong 376390)).
Proof. reflexivity. Qed.

End FaasProto.
