(* ===== verification/JsonText.v ===== *)
(** * JSON text as [encoding/json] reads and writes it

    The validity scanner, byte by byte as the library steps it, and the quoting
    of a string. *)

From S2P Require Import Prelude GoLib.
Import GoLib.

Module JsonText.

(** ** The scanner *)

Inductive scan :=
| SBeginValueOrEmpty | SBeginValue | SBeginStringOrEmpty | SBeginString
| SEndValue | SEndTop
| SInString | SInStringEsc | SInStringU (left : nat)
| SNeg | S1 | S0 | SDot | SDot0 | SE | SESign | SE0
| SLiteral (rest : bytes)
| SError.
#[global] Instance scan_eq_dec : EqDecision scan.
Proof. solve_decision. Defined.

Inductive nest := NKey | NObject | NArray.
#[global] Instance nest_eq_dec : EqDecision nest.
Proof. solve_decision. Defined.

Definition max_depth : Z := 10000.
Definition is_ws (c : Z) : bool := (c =? 32) || (c =? 9) || (c =? 13) || (c =? 10).
Definition is_hex (c : Z) : bool :=
  is_digit c || ((97 <=? c) && (c <=? 102)) || ((65 <=? c) && (c <=? 70)).

(** The state and the nesting; the innermost level first. *)
Definition st : Type := scan * list nest.

Definition push (n : nest) (next : scan) (k : list nest) : st :=
  if zlen k + 1 <=? max_depth then (next, n :: k) else (SError, n :: k).
Definition pop (k : list nest) : st :=
  match k with _ :: (_ :: _) as k' => (SEndValue, tail k) | _ => (SEndTop, []) end.

Definition begin_value (c : Z) (k : list nest) : st :=
  if is_ws c then (SBeginValue, k)
  else if c =? 123 then push NKey SBeginStringOrEmpty k
  else if c =? 91 then push NArray SBeginValueOrEmpty k
  else if c =? 34 then (SInString, k)
  else if c =? 45 then (SNeg, k)
  else if c =? 48 then (S0, k)
  else if c =? 116 then (SLiteral (bytes_of_string "rue"), k)
  else if c =? 102 then (SLiteral (bytes_of_string "alse"), k)
  else if c =? 110 then (SLiteral (bytes_of_string "ull"), k)
  else if (49 <=? c) && (c <=? 57) then (S1, k)
  else (SError, k).

Definition begin_string (c : Z) (k : list nest) : st :=
  if is_ws c then (SBeginString, k) else if c =? 34 then (SInString, k) else (SError, k).

Definition end_value (c : Z) (k : list nest) : st :=
  match k with
  | [] => if is_ws c then (SEndTop, []) else (SError, [])
  | n :: k' =>
      if is_ws c then (SEndValue, k)
      else match n with
      | NKey => if c =? 58 then (SBeginValue, NObject :: k') else (SError, k)
      | NObject => if c =? 44 then (SBeginString, NKey :: k')
                   else if c =? 125 then pop k else (SError, k)
      | NArray => if c =? 44 then (SBeginValue, k)
                  else if c =? 93 then pop k else (SError, k)
      end
  end.

Definition step (s : st) (c : Z) : st :=
  let '(s, k) := s in
  match s with
  | SBeginValueOrEmpty =>
      if is_ws c then (s, k) else if c =? 93 then end_value c k else begin_value c k
  | SBeginValue => begin_value c k
  | SBeginStringOrEmpty =>
      if is_ws c then (s, k)
      else if c =? 125 then end_value c (NObject :: tail k) else begin_string c k
  | SBeginString => begin_string c k
  | SEndValue => end_value c k
  | SEndTop => if is_ws c then (s, k) else (SError, k)
  | SInString =>
      if c =? 34 then (SEndValue, k) else if c =? 92 then (SInStringEsc, k)
      else if c <? 32 then (SError, k) else (s, k)
  | SInStringEsc =>
      if existsb (Z.eqb c) [98; 102; 110; 114; 116; 92; 47; 34] then (SInString, k)
      else if c =? 117 then (SInStringU 4, k) else (SError, k)
  | SInStringU n =>
      if is_hex c then (if (n <=? 1)%nat then SInString else SInStringU (n - 1), k)
      else (SError, k)
  | SNeg => if c =? 48 then (S0, k)
            else if (49 <=? c) && (c <=? 57) then (S1, k) else (SError, k)
  | S1 | S0 =>
      if (bool_decide (s = S1)) && is_digit c then (S1, k)
      else if c =? 46 then (SDot, k)
      else if (c =? 101) || (c =? 69) then (SE, k) else end_value c k
  | SDot => if is_digit c then (SDot0, k) else (SError, k)
  | SDot0 => if is_digit c then (SDot0, k)
             else if (c =? 101) || (c =? 69) then (SE, k) else end_value c k
  | SE => if (c =? 43) || (c =? 45) then (SESign, k)
          else if is_digit c then (SE0, k) else (SError, k)
  | SESign => if is_digit c then (SE0, k) else (SError, k)
  | SE0 => if is_digit c then (SE0, k) else end_value c k
  | SLiteral [] => (SError, k)
  | SLiteral [x] => if c =? x then (SEndValue, k) else (SError, k)
  | SLiteral (x :: r) => if c =? x then (SLiteral r, k) else (SError, k)
  | SError => (SError, k)
  end.

(** A value that ended at the top level still waits for the end of the input. *)
Definition Valid (b : bytes) : bool :=
  let s := foldl step (SBeginValue, []) b in
  bool_decide (s.1 = SEndTop) || bool_decide ((step s 32).1 = SEndTop).

(** ** Quoting *)

(** The width of the rune at the head, or [None] when it is not UTF-8. *)
Definition cont (c : Z) : bool := (128 <=? c) && (c <=? 191).
Definition rune_width (s : bytes) : option nat :=
  match s with
  | [] => None
  | a :: r =>
      if a <? 128 then Some 1%nat
      else match r with
      | b :: r2 =>
          if (194 <=? a) && (a <=? 223) then if cont b then Some 2%nat else None
          else match r2 with
          | c :: r3 =>
              if (224 <=? a) && (a <=? 239) then
                let lo := if a =? 224 then 160 else 128 in
                let hi := if a =? 237 then 159 else 191 in
                if (lo <=? b) && (b <=? hi) && cont c then Some 3%nat else None
              else match r3 with
              | d :: _ =>
                  if (240 <=? a) && (a <=? 244) then
                    let lo := if a =? 240 then 144 else 128 in
                    let hi := if a =? 244 then 143 else 191 in
                    if (lo <=? b) && (b <=? hi) && cont c && cont d then Some 4%nat else None
                  else None
              | [] => None
              end
          | [] => None
          end
      | [] => None
      end
  end.

(** A byte below 128, with the HTML escapes [Marshal] applies. *)
Definition quote_ascii (c : Z) : bytes :=
  if (c =? 92) || (c =? 34) then [92; c]
  else if c =? 8 then [92; 98] else if c =? 12 then [92; 102]
  else if c =? 10 then [92; 110] else if c =? 13 then [92; 114] else if c =? 9 then [92; 116]
  else if (c <? 32) || (c =? 60) || (c =? 62) || (c =? 38)
  then [92; 117; 48; 48; hex_digit (c / 16); hex_digit (c mod 16)]
  else [c].

Definition quote_rune (r : bytes) : bytes :=
  match r with
  | [c] => quote_ascii c
  | _ => if bool_decide (r = [226; 128; 168]) then bytes_of_string "\u2028"
         else if bool_decide (r = [226; 128; 169]) then bytes_of_string "\u2029"
         else r
  end.

Fixpoint quote_go (skip : nat) (s : bytes) : bytes :=
  match s with
  | [] => []
  | _ :: rest =>
      match skip with
      | S n => quote_go n rest
      | O => match rune_width s with
             | None => bytes_of_string "\ufffd" ++ quote_go 0 rest
             | Some w => quote_rune (take w s) ++ quote_go (w - 1) rest
             end
      end
  end.

(** [json.Marshal] of a string. *)
Definition quote (s : bytes) : bytes := 34 :: quote_go 0 s ++ [34].

(** ** A quoted string is JSON *)

Definition plain (c : Z) : Prop := c ≠ 34 ∧ c ≠ 92 ∧ 32 ≤ c.

Lemma plain_stays c k : plain c → step (SInString, k) c = (SInString, k).
Proof.
  unfold plain. intros (H1 & H2 & H3). unfold step.
  destruct (Z.eqb_spec c 34); [done|]. destruct (Z.eqb_spec c 92); [done|].
  by destruct (Z.ltb_spec c 32); [lia|].
Qed.

Lemma plains_stay l k : Forall plain l → foldl step (SInString, k) l = (SInString, k).
Proof. induction 1 as [|c l Hc _ IH]; [done|]. cbn [foldl]. by rewrite plain_stays. Qed.

Lemma hex_digit_is_hex v : 0 ≤ v < 16 → is_hex (hex_digit v) = true.
Proof.
  intros Hv. unfold is_hex, is_digit, hex_digit. destruct (Z.ltb_spec v 10); zcase; (done || lia).
Qed.

Lemma hex_stays n c k : is_hex c = true →
  step (SInStringU n, k) c = (if (n <=? 1)%nat then SInString else SInStringU (n - 1), k).
Proof. intros Hc. unfold step. by rewrite Hc. Qed.

Lemma escape_stays a b c d k :
  is_hex a = true → is_hex b = true → is_hex c = true → is_hex d = true →
  foldl step (SInString, k) [92; 117; a; b; c; d] = (SInString, k).
Proof.
  intros Ha Hb Hc Hd. cbn [foldl].
  replace (step (SInString, k) 92) with (SInStringEsc, k) by done.
  replace (step (SInStringEsc, k) 117) with (SInStringU 4, k) by done.
  do 4 (rewrite hex_stays by done; cbn [Nat.leb Nat.sub]). done.
Qed.

Lemma quote_ascii_stays c k : byte_ok c → foldl step (SInString, k) (quote_ascii c) = (SInString, k).
Proof.
  intros Hc. unfold byte_ok in Hc. unfold quote_ascii.
  destruct (Z.eqb_spec c 92) as [->|]; [done|]. destruct (Z.eqb_spec c 34) as [->|]; [done|].
  destruct (Z.eqb_spec c 8) as [->|]; [done|]. destruct (Z.eqb_spec c 12) as [->|]; [done|].
  destruct (Z.eqb_spec c 10) as [->|]; [done|]. destruct (Z.eqb_spec c 13) as [->|]; [done|].
  destruct (Z.eqb_spec c 9) as [->|]; [done|]. cbn [orb].
  destruct (_ || _) eqn:E.
  - apply escape_stays; [done..| |]; apply hex_digit_is_hex; dlia.
  - apply plains_stay. constructor; [|done]. rewrite !orb_false_iff, Z.ltb_ge in E.
    unfold plain. lia.
Qed.

Lemma width_plain s w c r : rune_width s = Some w → s = c :: r →
  bytes_ok s → w = 1%nat ∨ Forall plain (take w s).
Proof.
  intros Hw -> Hs. apply Forall_cons in Hs as [Ha Hr]. unfold rune_width in Hw.
  destruct (Z.ltb_spec c 128); [left; congruence|right].
  assert (Hp : ∀ x, 128 ≤ x → plain x) by (unfold plain; intros; lia).
  assert (Hcont : ∀ x, cont x = true → plain x).
  { unfold cont. intros x [Hx%Z.leb_le _]%andb_true_iff. by apply Hp. }
  repeat (case_match; simplify_eq/=); repeat match goal with
  | H : _ && _ = true |- _ => apply andb_true_iff in H as [? ?]
  | H : (_ <=? _) = true |- _ => apply Z.leb_le in H
  end; rewrite ?firstn_cons, take_0; repeat (apply Forall_cons; split); auto using Forall_nil;
    apply Hp; repeat case_match; lia.
Qed.

Lemma quote_rune_stays s w k : rune_width s = Some w → bytes_ok s →
  foldl step (SInString, k) (quote_rune (take w s)) = (SInString, k).
Proof.
  intros Hw Hs. destruct s as [|c s]; [done|].
  destruct (width_plain _ _ _ _ Hw eq_refl Hs) as [->|Hp].
  - apply quote_ascii_stays. by apply Forall_cons in Hs as [? _].
  - unfold quote_rune. destruct (take w (c :: s)) as [|a [|b r]] eqn:E; [done|..].
    + apply quote_ascii_stays. apply (Forall_take _ w) in Hs. rewrite E in Hs. by inversion Hs.
    + case_bool_decide; [done|]. case_bool_decide; [done|]. by apply plains_stay.
Qed.

Lemma quote_go_stays n s k : bytes_ok s → foldl step (SInString, k) (quote_go n s) = (SInString, k).
Proof.
  revert n. induction s as [|c s IH]; intros n Hs; [done|].
  pose proof Hs as [_ Hs']%Forall_cons. cbn [quote_go]. destruct n as [|n]; [|by apply IH].
  destruct (rune_width (c :: s)) as [w|] eqn:Hw; rewrite foldl_app; [|by apply IH].
  rewrite quote_rune_stays by done. by apply IH.
Qed.

Lemma quote_valid s : bytes_ok s → Valid (quote s) = true.
Proof.
  intros Hs. unfold Valid, quote. cbn [foldl]. rewrite foldl_app.
  replace (step (SBeginValue, []) 34) with (SInString, [] : list nest) by done.
  by rewrite quote_go_stays.
Qed.

Example valid_samples :
  (Valid ∘ bytes_of_string <$> [" {} "; "[1,-2.5e3,null,[]]"; "{'a':1}"; "[1,]"; "01"; ""; "tru"]%string)
  = [true; true; false; false; false; false; false].
Proof. reflexivity. Qed.

End JsonText.
