(* ===== verification/Crypto.v ===== *)
(** * SHA-1, SHA-256 and HMAC ([crypto/sha1], [crypto/sha256], [crypto/hmac])

    Executable FIPS 180-4 hashes and RFC 2104 HMAC, so that the
    authentication components run on concrete keys; checked on the published
    test vectors. *)

From S2P Require Import Prelude GoLib.
Import GoLib.

Module Crypto.

Definition rotl (n x : Z) : Z := Z.lor (u32 (Z.shiftl x n)) (Z.shiftr x (32 - n)).
Definition rotr (n x : Z) : Z := rotl (32 - n) x.
Definition not32 (x : Z) : Z := Z.lxor x (2 ^ 32 - 1).

(** Merkle-Damgard padding to a multiple of 64 bytes. *)
Definition md_pad (m : bytes) : bytes :=
  m ++ [128] ++ replicate (Z.to_nat ((55 - zlen m) mod 64)) 0 ++ put_u64be (u64 (8 * zlen m)).

Fixpoint words32 (b : bytes) : list Z :=
  match b with
  | a :: b :: c :: d :: rest => be_combine [a; b; c; d] :: words32 rest
  | _ => []
  end.

Fixpoint chunks (fuel n : nat) {A} (l : list A) : list (list A) :=
  match fuel, l with
  | S fuel, _ :: _ => take n l :: chunks fuel n (drop n l)
  | _, _ => []
  end.

Definition md_blocks (m : bytes) : list (list Z) :=
  let w := words32 (md_pad m) in chunks (length w) 16 w.

(** The message schedule, most recent word first. *)
Fixpoint extend (next : list Z → Z) (n : nat) (rw : list Z) : list Z :=
  match n with
  | O => rw
  | S n => extend next n (next rw :: rw)
  end.
Definition nz (l : list Z) (n : nat) : Z := nth n l 0.

(** ** SHA-1 *)

Definition sha1_next (rw : list Z) : Z :=
  rotl 1 (Z.lxor (Z.lxor (nz rw 2) (nz rw 7)) (Z.lxor (nz rw 13) (nz rw 15))).

Definition sha1_fk (t : Z) (b c d : Z) : Z * Z :=
  if t <? 20 then (Z.lor (Z.land b c) (Z.land (not32 b) d), 1518500249)
  else if t <? 40 then (Z.lxor (Z.lxor b c) d, 1859775393)
  else if t <? 60 then (Z.lor (Z.lor (Z.land b c) (Z.land b d)) (Z.land c d), 2400959708)
  else (Z.lxor (Z.lxor b c) d, 3395469782).

Definition sha1_state : Type := Z * Z * Z * Z * Z.

Definition sha1_round (s : sha1_state) (tw : Z * Z) : sha1_state :=
  let '(a, b, c, d, e) := s in
  let '(t, w) := tw in
  let '(f, k) := sha1_fk t b c d in
  (u32 (rotl 5 a + f + e + k + w), a, rotl 30 b, c, d).

Definition sha1_block (s : sha1_state) (block : list Z) : sha1_state :=
  let w := reverse (extend sha1_next 64 (reverse block)) in
  let '(a, b, c, d, e) := foldl sha1_round s (zip (seqZ 0 80) w) in
  let '(h0, h1, h2, h3, h4) := s in
  (u32 (h0 + a), u32 (h1 + b), u32 (h2 + c), u32 (h3 + d), u32 (h4 + e)).

Definition sha1 (m : bytes) : bytes :=
  let '(h0, h1, h2, h3, h4) := foldl sha1_block
    (1732584193, 4023233417, 2562383102, 271733878, 3285377520) (md_blocks m) in
  put_u32be h0 ++ put_u32be h1 ++ put_u32be h2 ++ put_u32be h3 ++ put_u32be h4.

(** ** SHA-256 *)

Definition sha256_k : list Z :=
  [1116352408; 1899447441; 3049323471; 3921009573; 961987163; 1508970993; 2453635748; 2870763221;
   3624381080; 310598401; 607225278; 1426881987; 1925078388; 2162078206; 2614888103; 3248222580;
   3835390401; 4022224774; 264347078; 604807628; 770255983; 1249150122; 1555081692; 1996064986;
   2554220882; 2821834349; 2952996808; 3210313671; 3336571891; 3584528711; 113926993; 338241895;
   666307205; 773529912; 1294757372; 1396182291; 1695183700; 1986661051; 2177026350; 2456956037;
   2730485921; 2820302411; 3259730800; 3345764771; 3516065817; 3600352804; 4094571909; 275423344;
   430227734; 506948616; 659060556; 883997877; 958139571; 1322822218; 1537002063; 1747873779;
   1955562222; 2024104815; 2227730452; 2361852424; 2428436474; 2756734187; 3204031479; 3329325298].

Definition sha256_next (rw : list Z) : Z :=
  let s0 := let x := nz rw 14 in Z.lxor (Z.lxor (rotr 7 x) (rotr 18 x)) (Z.shiftr x 3) in
  let s1 := let x := nz rw 1 in Z.lxor (Z.lxor (rotr 17 x) (rotr 19 x)) (Z.shiftr x 10) in
  u32 (nz rw 15 + s0 + nz rw 6 + s1).

Definition sha256_round (s : list Z) (kw : Z * Z) : list Z :=
  match s with
  | [a; b; c; d; e; f; g; h] =>
      let s1 := Z.lxor (Z.lxor (rotr 6 e) (rotr 11 e)) (rotr 25 e) in
      let ch := Z.lxor (Z.land e f) (Z.land (not32 e) g) in
      let t1 := h + s1 + ch + kw.1 + kw.2 in
      let s0 := Z.lxor (Z.lxor (rotr 2 a) (rotr 13 a)) (rotr 22 a) in
      let maj := Z.lxor (Z.lxor (Z.land a b) (Z.land a c)) (Z.land b c) in
      [u32 (t1 + s0 + maj); a; b; c; u32 (d + t1); e; f; g]
  | _ => s
  end.

Definition sha256_block (s : list Z) (block : list Z) : list Z :=
  let w := reverse (extend sha256_next 48 (reverse block)) in
  zip_with (λ a b, u32 (a + b)) s (foldl sha256_round s (zip sha256_k w)).

Definition sha256 (m : bytes) : bytes :=
  foldl sha256_block
    [1779033703; 3144134277; 1013904242; 2773480762; 1359893119; 2600822924; 528734635; 1541459225]
    (md_blocks m) ≫= put_u32be.

(** ** HMAC, for a hash with 64-byte blocks *)

Definition hmac (hash : bytes → bytes) (key msg : bytes) : bytes :=
  let k := if 64 <? zlen key then hash key else key in
  let k := k ++ replicate (64 - length k) 0 in
  hash (map (Z.lxor 92) k ++ hash (map (Z.lxor 54) k ++ msg)).

(** ** Lemmas *)

Lemma sha1_length m : length (sha1 m) = 20%nat.
Proof. unfold sha1. by destruct (foldl _ _ _) as [[[[? ?] ?] ?] ?]. Qed.

Lemma sha1_bytes m : bytes_ok (sha1 m).
Proof.
  unfold sha1. destruct (foldl _ _ _) as [[[[? ?] ?] ?] ?].
  rewrite !Forall_app. split_and!; apply be_bytes_ok.
Qed.

Lemma hmac_sha1_length k m : length (hmac sha1 k m) = 20%nat.
Proof. apply sha1_length. Qed.
Lemma hmac_sha1_bytes k m : bytes_ok (hmac sha1 k m).
Proof. apply sha1_bytes. Qed.

Lemma bind_u32be_bytes l : bytes_ok (l ≫= put_u32be).
Proof.
  induction l as [|x l IH]; [by apply Forall_nil_2|].
  rewrite bind_cons. apply Forall_app. split; [apply be_bytes_ok|done].
Qed.

Lemma sha256_bytes m : bytes_ok (sha256 m).
Proof. apply bind_u32be_bytes. Qed.
Lemma sha256_block_length s b : length s = 8%nat → length (sha256_block s b) = 8%nat.
Proof.
  intros Hs. unfold sha256_block. set (l := zip _ _). clearbody l.
  assert (Hl : length (foldl sha256_round s l) = 8%nat).
  { revert s Hs. induction l as [|x l IH]; intros s Hs; [done|]. apply IH.
    unfold sha256_round. by repeat case_match. }
  by rewrite length_zip_with, Hs, Hl.
Qed.
Lemma sha256_length m : length (sha256 m) = 32%nat.
Proof.
  unfold sha256. generalize (md_blocks m).
  assert (H : ∀ l s, length s = 8%nat → length (foldl sha256_block s l ≫= put_u32be) = 32%nat).
  { intros l. induction l as [|b l IH]; intros s Hs.
    - by do 9 (destruct s as [|? s]; try done).
    - apply IH. by apply sha256_block_length. }
  intros l. by apply H.
Qed.
Lemma hmac_sha256_bytes k m : bytes_ok (hmac sha256 k m).
Proof. apply sha256_bytes. Qed.

(** ** Published vectors *)

Example sha1_abc :
  hex_encode (sha1 (bytes_of_string "abc")) =
  bytes_of_string "a9993e364706816aba3e25717850c26c9cd0d89d".
Proof. vm_compute. reflexivity. Qed.
Example sha256_abc :
  hex_encode (sha256 (bytes_of_string "abc")) =
  bytes_of_string "ba7816bf8f01cfea414140de5dae2223b00361a396177a9cb410ff61f20015ad".
Proof. vm_compute. reflexivity. Qed.
Example hmac_sha256_rfc4231_2 :
  hex_encode (hmac sha256 (bytes_of_string "Jefe")
    (bytes_of_string "what do ya want for nothing?")) =
  bytes_of_string "5bdcc146bf60754e6a042426089575c75a003f089d2739839dec58b964ec3843".
Proof. vm_compute. reflexivity. Qed.
End Crypto.
