(* ===== verification/Db.v ===== *)
(** * Database access: statements that can fail, and transactions

    A handler's database effects are a state-and-error monad over the tables it
    touches. Every statement consumes one element of a fault schedule: [true]
    makes it fail and leaves the tables as they are; an exhausted schedule
    never fails. [pool.Begin] gives the body a working copy; the tables change
    only by a [commit] that succeeds, so a return without one is the deferred
    [tx.Rollback]. A row or advisory lock held by a transaction serialises it
    against the others on the same rows: concurrent transactions are a
    sequence of atomic ones. *)

From S2P Require Import Prelude.

Definition M (S E A : Type) : Type := S → list bool → result E A * S * list bool.

#[export] Instance M_ret S E : MRet (M S E) := λ A a s fs, (Ok a, s, fs).
#[export] Instance M_bind S E : MBind (M S E) := λ A B f m s fs,
  match m s fs with
  | (Ok a, s', fs') => f a s' fs'
  | (Err e, s', fs') => (Err e, s', fs')
  end.

Section Ops.
Context {S E : Type}.

Definition throw {A} (e : E) : M S E A := λ s fs, (Err e, s, fs).

(** Runs [m] and hands its error to the code that inspects it. *)
Definition attempt {A} (m : M S E A) : M S E (result E A) := λ s fs,
  let '(r, s', fs') := m s fs in (Ok r, s', fs').

(** One SQL statement [f]: its effect on the tables and its rows. *)
Definition stmt {A} (e : E) (f : S → result E A * S) : M S E A := λ s fs,
  match fs with
  | true :: fs' => (Err e, s, fs')
  | false :: fs' => let '(r, s') := f s in (r, s', fs')
  | [] => let '(r, s') := f s in (r, s', [])
  end.

Definition query {A} (e : E) (f : S → result E A) : M S E A := stmt e (λ s, (f s, s)).
Definition exec (e : E) (f : S → S) : M S E unit := stmt e (λ s, (Ok tt, f s)).
End Ops.

(** A transaction sees and changes its working copy. *)
Record Tx (S : Type) := MkTx { tx_committed : S; tx_work : S }.
Arguments MkTx {S} _ _.
Arguments tx_committed {S} _.
Arguments tx_work {S} _.

Section Transactions.
Context {S E : Type}.

Definition tx_stmt {A} (e : E) (f : S → result E A * S) : M (Tx S) E A :=
  stmt e (λ t, let '(r, w) := f (tx_work t) in (r, MkTx (tx_committed t) w)).
Definition tx_query {A} (e : E) (f : S → result E A) : M (Tx S) E A :=
  tx_stmt e (λ s, (f s, s)).
Definition tx_exec (e : E) (f : S → S) : M (Tx S) E unit := tx_stmt e (λ s, (Ok tt, f s)).
Definition commit (e : E) : M (Tx S) E unit :=
  stmt e (λ t, (Ok tt, MkTx (tx_work t) (tx_work t))).

(** [tx, err := pool.Begin(ctx); defer tx.Rollback(ctx); body]. *)
Definition with_tx {A} (e : E) (body : M (Tx S) E A) : M S E A := λ s fs,
  match fs with
  | true :: fs' => (Err e, s, fs')
  | _ => let '(r, t, fs') := body (MkTx s s) (tail fs) in (r, tx_committed t, fs')
  end.
End Transactions.

(** Runs an operation of one component on its part of a larger state. *)
Definition zoom {S T E A} (get : S → T) (put : T → S → S) (m : M T E A) : M S E A := λ s fs,
  let '(r, t, fs') := m (get s) fs in (r, put t s, fs').

(** ** Symbolic execution

    [db_step] runs a handler through one statement, splitting on whether the
    schedule makes it fail. *)
Ltac db_unfold :=
  unfold with_tx, tx_exec, tx_query, tx_stmt, commit, exec, query, stmt, attempt, throw,
    mbind, M_bind, mret, M_ret in *.
Ltac db_step :=
  match goal with
  | fs : list bool |- _ => destruct fs as [|[] fs]; simpl in *; simplify_eq/=
  end.

(** ** Lemmas *)

Section Lemmas.
Context {S E : Type}.

(** A body whose every run leaves the committed tables alone or satisfying
    [R] makes a transaction whose effect is nothing or [R]. *)
Lemma with_tx_effect {A} (e : E) (body : M (Tx S) E A) (s : S) fs (R : S → Prop) :
  R s →
  (∀ fs r t fs', body (MkTx s s) fs = (r, t, fs') → R (tx_committed t)) →
  R (with_tx e body s fs).1.2.
Proof.
  intros Hs Hbody. unfold with_tx. destruct fs as [|[] fs]; simpl; [|done|].
  - destruct (body (MkTx s s) []) as [[r t] fs'] eqn:Hb. simpl. eauto.
  - destruct (body (MkTx s s) fs) as [[r t] fs'] eqn:Hb. simpl. eauto.
Qed.

Lemma stmt_inv {A} (e : E) (f : S → result E A * S) s fs r s' fs' :
  stmt e f s fs = (r, s', fs') →
  (r = Err e ∧ s' = s) ∨ f s = (r, s').
Proof.
  unfold stmt. destruct fs as [|[] fs]; [destruct (f s)|..|destruct (f s)];
    intros; simplify_eq; auto.
Qed.

Lemma bind_inv {A B} (m : M S E A) (k : A → M S E B) s fs r s' fs' :
  (m ≫= k) s fs = (r, s', fs') →
  (∃ e, m s fs = (Err e, s', fs') ∧ r = Err e) ∨
  (∃ a s1 fs1, m s fs = (Ok a, s1, fs1) ∧ k a s1 fs1 = (r, s', fs')).
Proof.
  unfold mbind, M_bind. destruct (m s fs) as [[[a|e] s1] fs1] eqn:Hm; intros; simplify_eq; eauto.
  right. eauto.
Qed.
End Lemmas.

(** ** Atomic transactions

    [implements m w spec]: from the working copy [w], under every schedule, [m]
    leaves the committed tables alone and, when it succeeds, does what [spec]
    says; without faults it succeeds exactly when [spec] is defined.
    [commits m d w spec] says the same of a body that ends in a commit, of the
    committed tables. *)

Section Atomic.
Context {S E : Type}.

Definition implements {A} (m : M (Tx S) E A) (w : S) (spec : option (S * A)) : Prop :=
  ∀ c fs, ∃ r t' fs', m (MkTx c w) fs = (r, t', fs') ∧ tx_committed t' = c ∧
    match r with Ok a => spec = Some (tx_work t', a) | Err _ => True end ∧
    (fs = [] → fs' = [] ∧ is_ok r = bool_decide (is_Some spec)).

Definition commits {A} (m : M (Tx S) E A) (d w : S) (spec : option (S * A)) : Prop :=
  ∀ fs, ∃ r t' fs', m (MkTx d w) fs = (r, t', fs') ∧
    match r with
    | Ok a => spec = Some (tx_committed t', a)
    | Err _ => tx_committed t' = d
    end ∧
    (fs = [] → fs' = [] ∧ is_ok r = bool_decide (is_Some spec)).

Lemma implements_ret {A} (a : A) w : implements (mret a) w (Some (w, a)).
Proof. intros c fs. by eexists _, _, _. Qed.

Lemma implements_stmt {A} (e : E) (f : S → result E A * S) w :
  implements (tx_stmt e f) w
    (match f w with (Ok a, w') => Some (w', a) | (Err _, _) => None end).
Proof.
  intros c fs. unfold tx_stmt, stmt. simpl.
  destruct fs as [|[] fs]; [|by eexists _, _, _|]; destruct (f w) as [[a|e'] w'];
    by eexists _, _, _.
Qed.

Lemma implements_bind {A B} (m : M (Tx S) E A) (k : A → M (Tx S) E B) w sm sk :
  implements m w sm →
  (∀ w' a, sm = Some (w', a) → implements (k a) w' (sk w' a)) →
  implements (m ≫= k) w (match sm with Some (w', a) => sk w' a | None => None end).
Proof.
  intros Hm Hk c fs. unfold mbind, M_bind.
  destruct (Hm c fs) as (r & [c1 w1] & fs1 & -> & Hc & Hr & Hn). simpl in Hc. subst c1.
  destruct r as [a|e].
  - simpl in Hr. subst sm. destruct (Hk w1 a eq_refl c fs1) as (r2 & t2 & fs2 & -> & Hc2 & Hr2 & Hn2).
    eexists _, _, _. split_and!; [done|done|done|]. intros ->.
    destruct (Hn eq_refl) as [-> _]. by apply Hn2.
  - eexists _, _, _. split_and!; [done|done|done|]. intros ->. destruct (Hn eq_refl) as [-> Hok].
    split; [done|]. simpl in *. symmetry in Hok. apply bool_decide_eq_false in Hok.
    destruct sm as [[]|]; [by destruct Hok|done].
Qed.

Lemma commits_bind {A B} (m : M (Tx S) E A) (k : A → M (Tx S) E B) d w sm sk :
  implements m w sm →
  (∀ w' a, sm = Some (w', a) → commits (k a) d w' (sk w' a)) →
  commits (m ≫= k) d w (match sm with Some (w', a) => sk w' a | None => None end).
Proof.
  intros Hm Hk fs. unfold mbind, M_bind.
  destruct (Hm d fs) as (r & [c1 w1] & fs1 & -> & Hc & Hr & Hn). simpl in Hc. subst c1.
  destruct r as [a|e].
  - simpl in Hr. subst sm. destruct (Hk w1 a eq_refl fs1) as (r2 & t2 & fs2 & -> & Hr2 & Hn2).
    eexists _, _, _. split_and!; [done|done|]. intros ->.
    destruct (Hn eq_refl) as [-> _]. by apply Hn2.
  - eexists _, _, _. split_and!; [done|done|]. intros ->. destruct (Hn eq_refl) as [-> Hok].
    split; [done|]. simpl in *. symmetry in Hok. apply bool_decide_eq_false in Hok.
    destruct sm as [[]|]; [by destruct Hok|done].
Qed.

(** The two cases, once the first operation's outcome is known. *)
Lemma commits_bind_Some {A B} (m : M (Tx S) E A) (k : A → M (Tx S) E B) d w w' a spec :
  implements m w (Some (w', a)) → commits (k a) d w' spec → commits (m ≫= k) d w spec.
Proof.
  intros Hm Hk. apply (commits_bind m k d w (Some (w', a)) (λ _ _, spec)); [done|].
  by intros ? ? [= <- <-].
Qed.

Lemma commits_bind_None {A B} (m : M (Tx S) E A) (k : A → M (Tx S) E B) d w :
  implements m w None → commits (m ≫= k) d w None.
Proof. intros Hm. by apply (commits_bind m k d w None (λ _ _, None)). Qed.

Lemma commits_throw {A} (e : E) d w : commits (throw e : M (Tx S) E A) d w None.
Proof. intros fs. by eexists _, _, _. Qed.

Lemma implements_ok {A} (e : E) (f : S → result E A * S) w a w' :
  f w = (Ok a, w') → implements (tx_stmt e f) w (Some (w', a)).
Proof. intros H. pose proof (implements_stmt e f w) as Hi. by rewrite H in Hi. Qed.

Lemma implements_err {A} (e e' : E) (f : S → result E A * S) w w' :
  f w = (Err e', w') → implements (tx_stmt e f) w None.
Proof. intros H. pose proof (implements_stmt e f w) as Hi. by rewrite H in Hi. Qed.

(** The statements that cannot fail on their own. *)
Lemma implements_exec (e : E) (f : S → S) w :
  implements (tx_exec e f) w (Some (f w, ())).
Proof. apply (implements_stmt e (λ s, (Ok (), f s))). Qed.

Lemma implements_read {A} (e : E) (f : S → A) w :
  implements (tx_query e (λ s, Ok (f s))) w (Some (w, f w)).
Proof. apply (implements_stmt e (λ s, (Ok (f s), s))). Qed.

Lemma commits_end {A} (e : E) (a : A) d w : commits (_ ← commit e; mret a) d w (Some (w, a)).
Proof.
  intros fs. unfold mbind, M_bind, commit, stmt. destruct fs as [|[] fs]; simpl;
    by eexists _, _, _.
Qed.

(** A transaction whose body commits does all of its specification or nothing. *)
Lemma with_tx_commits {A} (e : E) (body : M (Tx S) E A) d spec fs :
  commits body d d spec →
  ∃ r d' fs', with_tx e body d fs = (r, d', fs') ∧
    match r with Ok a => spec = Some (d', a) | Err _ => d' = d end ∧
    (fs = [] → fs' = [] ∧ is_ok r = bool_decide (is_Some spec)).
Proof.
  intros H. unfold with_tx. destruct fs as [|[] fs]; simpl; [|by eexists _, _, _|].
  - destruct (H []) as (r & t & fs' & -> & Hr & Hn). by eexists _, _, _.
  - destruct (H fs) as (r & t & fs' & -> & Hr & _). by eexists _, _, _.
Qed.
End Atomic.

(** ** Invariants through a transaction

    [keeps Pre m Post]: from a working copy with [Pre], [m] leaves the committed
    tables alone and a success leaves a working copy with [Post].
    [lands Pre m Post]: the same of a body that ends in a commit, of what it
    commits. *)

Section Keeps.
Context {S E : Type}.

Definition keeps {A} (Pre : S → Prop) (m : M (Tx S) E A) (Post : A → S → Prop) : Prop :=
  ∀ c w fs, Pre w → ∃ r t fs', m (MkTx c w) fs = (r, t, fs') ∧ tx_committed t = c ∧
    match r with Ok a => Post a (tx_work t) | Err _ => True end.

Definition lands {A} (Pre : S → Prop) (m : M (Tx S) E A) (Post : A → S → Prop) : Prop :=
  ∀ c w fs, Pre w → ∃ r t fs', m (MkTx c w) fs = (r, t, fs') ∧
    match r with Ok a => Post a (tx_committed t) | Err _ => tx_committed t = c end.

Lemma keeps_stmt {A} (e : E) (f : S → result E A * S) (Pre : S → Prop) Post :
  (∀ w, Pre w → match f w with (Ok a, w') => Post a w' | _ => True end) →
  keeps Pre (tx_stmt e f) Post.
Proof.
  intros H c w fs Hw. specialize (H w Hw). unfold tx_stmt, stmt. simpl.
  destruct (f w) as [[a|e'] w']; destruct fs as [|[] fs]; by eexists _, _, _.
Qed.

Lemma keeps_exec (e : E) (f : S → S) (Pre Post : S → Prop) :
  (∀ w, Pre w → Post (f w)) → keeps Pre (tx_exec e f) (λ _, Post).
Proof. intros H. apply keeps_stmt. exact H. Qed.

Lemma keeps_query {A} (e : E) (f : S → result E A) (Pre : S → Prop) :
  keeps Pre (tx_query e f) (λ _, Pre).
Proof. apply keeps_stmt. intros w Hw. by destruct (f w). Qed.

Lemma keeps_ret {A} (a : A) (Pre : S → Prop) : keeps Pre (mret a) (λ _, Pre).
Proof. intros c w fs Hw. by eexists _, _, _. Qed.

Lemma lands_bind {A B} (m : M (Tx S) E A) (k : A → M (Tx S) E B) Pre Mid Post :
  keeps Pre m Mid → (∀ a, lands (Mid a) (k a) Post) → lands Pre (m ≫= k) Post.
Proof.
  intros Hm Hk c w fs Hw. unfold mbind, M_bind.
  destruct (Hm c w fs Hw) as (r & [c' w'] & fs' & -> & Hc & Hr). simpl in Hc. subst c'.
  destruct r as [a|e]; [by apply Hk|]. by eexists _, _, _.
Qed.

Lemma lands_seq {A B} (m : M (Tx S) E A) (k : M (Tx S) E B) Pre Mid Post :
  keeps Pre m (λ _, Mid) → lands Mid k Post → lands Pre (m ≫= λ _, k) Post.
Proof. intros Hm Hk. by eapply lands_bind; [exact Hm|]. Qed.

Lemma lands_commit {A} (e : E) (a : A) (Post : A → S → Prop) :
  lands (Post a) (_ ← commit e; mret a) Post.
Proof.
  intros c w fs Hw. unfold mbind, M_bind, commit, stmt. destruct fs as [|[] fs]; simpl;
    by eexists _, _, _.
Qed.

Lemma with_tx_lands {A} (e : E) (body : M (Tx S) E A) (Pre : S → Prop) Post d fs :
  lands Pre body Post → Pre d →
  ∃ r d' fs', with_tx e body d fs = (r, d', fs') ∧
    match r with Ok a => Post a d' | Err _ => d' = d end.
Proof.
  intros Hb Hd. unfold with_tx.
  destruct (Hb d d (tail fs) Hd) as (r & t & fs' & Hrun & H).
  destruct fs as [|[] fs]; simpl in *; rewrite ?Hrun; by eexists _, _, _.
Qed.

(** What holds before and of every commit holds after the transaction. *)
Lemma with_tx_keeps {A} (e : E) (body : M (Tx S) E A) (P : S → Prop) d fs :
  lands P body (λ _, P) → P d → P (with_tx e body d fs).1.2.
Proof.
  intros Hb Hd. destruct (with_tx_lands e body P _ d fs Hb Hd) as ([a|e'] & d' & fs' & -> & H);
    simpl; by subst.
Qed.

Lemma stmt_effect {A} (e : E) (f : S → result E A * S) (P : S → Prop) d fs :
  P d → P (f d).2 → P (stmt e f d fs).1.2.
Proof.
  intros Hd Hf. unfold stmt. destruct fs as [|[] fs]; [|done|]; by destruct (f d).
Qed.

Lemma bind_effect {A B} (m : M S E A) (k : A → M S E B) (P : S → Prop) d fs :
  P (m d fs).1.2 → (∀ a d' fs', P d' → P (k a d' fs').1.2) → P ((m ≫= k) d fs).1.2.
Proof.
  unfold mbind, M_bind. destruct (m d fs) as [[[a|e] d'] fs']; simpl; auto.
Qed.
End Keeps.

(** ** The errors a statement reports *)

Inductive db_err := EDb | ENoRows | EConstraint.
#[export] Instance db_err_eq_dec : EqDecision db_err.
Proof. solve_decision. Defined.

(** ** HTTP *)

Abbreviation query_params := (gmap string (list string)).

(** [q.Get(k)]: the first value, or the empty string. *)
Definition qget (q : query_params) (k : string) : string :=
  match q !! k with Some (v :: _) => v | _ => ""%string end.

Record response := Resp {
  status : Z; headers : list (string * string); body : bytes }.
Definition bare (code : Z) : response := Resp code [] [].
