(* ===== verification/Auth.v ===== *)
(** * Device authentication primitives ([internal/auth])

    RFC 4226 HOTP over HMAC-SHA1 and the fail-closed session validation with
    its flat monotone counter. *)

From S2P Require Import Prelude GoLib Crypto.
Import GoLib Crypto.

Module Auth.

(** ** HOTP (hotp.go) *)

Fixpoint pow10_loop (n : nat) (p : Z) : Z :=
  match n with O => p | S n => pow10_loop n (u32 (p * 10)) end.
Definition pow10 (n : Z) : Z := pow10_loop (Z.to_nat n) 1.

(** [sum[i]] panics out of range; [None] is the panic. *)
Definition truncate (sum : bytes) : option Z :=
  last_b ← last sum;
  let off := Z.to_nat (Z.land last_b 15) in
  b0 ← sum !! off; b1 ← sum !! (off + 1)%nat;
  b2 ← sum !! (off + 2)%nat; b3 ← sum !! (off + 3)%nat;
  Some (Z.lor (Z.lor (Z.lor (Z.shiftl (Z.land b0 127) 24) (Z.shiftl b1 16)) (Z.shiftl b2 8)) b3).

Definition HOTP (secret : bytes) (c digits : Z) : option Z :=
  if (digits <? 6) || (8 <? digits) then Some 0
  else
    bin ← truncate (hmac sha1 secret (put_u64be (u64 c)));
    Some (bin mod pow10 digits).

(** ** Session validation (validate.go, session.go) *)

Record Config := MkConfig { Digits : Z; Window : Z; WindowFar : Z }.

Inductive Reason := no_session | session_bootstrap | replay | session | no_match.
Record Result := MkResult { ROK : bool; NewCounter : Z; RReason : Reason }.

#[export] Instance Reason_eq_dec : EqDecision Reason.
Proof. solve_decision. Defined.
#[export] Instance Result_eq_dec : EqDecision Result.
Proof. solve_decision. Defined.

Definition ValidateSession (cfg : Config) (secret : option bytes) (lastCounter : Z)
    (bootstrapped : bool) (c otp : Z) : Result :=
  match secret with
  | None => MkResult false 0 no_session
  | Some secret =>
      let matches := bool_decide (HOTP secret c (Digits cfg) = Some otp) in
      if negb bootstrapped then
        if (c <=? WindowFar cfg) && matches then MkResult true c session_bootstrap
        else MkResult false 0 no_match
      else if c <=? lastCounter then MkResult false 0 replay
      else if c <=? u64 (lastCounter + WindowFar cfg) then
        if matches then MkResult true c session else MkResult false 0 no_match
      else MkResult false 0 no_match
  end.

(** ** Lemmas *)

Lemma truncate_total sum : length sum = 20%nat → bytes_ok sum → ∃ v, truncate sum = Some v.
Proof.
  intros Hlen Hb. unfold truncate.
  destruct (last sum) as [x|] eqn:Hlast.
  2: { apply last_None in Hlast. by subst. }
  simpl. assert (0 ≤ Z.land x 15 < 16) as Hoff.
  { change 15 with (Z.ones 4). rewrite Z.land_ones by lia. by apply Z.mod_pos_bound. }
  repeat match goal with
  | |- context [sum !! ?i] =>
      let H := fresh in destruct (lookup_lt_is_Some_2 sum i) as [? H]; [lia|rewrite H; simpl]
  end. eauto.
Qed.

(** HOTP never indexes past the 20-byte MAC. *)
Lemma HOTP_total secret c digits : ∃ v, HOTP secret c digits = Some v.
Proof.
  unfold HOTP. case_match; [eauto|].
  destruct (truncate_total (hmac sha1 secret (put_u64be (u64 c)))) as [v ->];
    [apply hmac_sha1_length|apply hmac_sha1_bytes|]. simpl. eauto.
Qed.

Lemma HOTP_bound secret c digits v :
  6 ≤ digits ≤ 8 → HOTP secret c digits = Some v → 0 ≤ v < 10 ^ digits.
Proof.
  intros Hd. unfold HOTP. destruct (Z.ltb_spec digits 6), (Z.ltb_spec 8 digits); [lia..|].
  simpl. destruct (truncate _); simpl; [|done]. intros [= <-].
  assert (pow10 digits = 10 ^ digits) as ->; [|apply Z.mod_pos_bound; lia].
  assert (digits = 6 ∨ digits = 7 ∨ digits = 8) as [->|[->| ->]] by lia; reflexivity.
Qed.

Lemma ValidateSession_inv cfg secret last boot c otp :
  ROK (ValidateSession cfg secret last boot c otp) = true →
  NewCounter (ValidateSession cfg secret last boot c otp) = c ∧
  ∃ k, secret = Some k ∧ HOTP k c (Digits cfg) = Some otp ∧
    (if boot then last < c ∧ c ≤ u64 (last + WindowFar cfg) else c ≤ WindowFar cfg).
Proof.
  unfold ValidateSession. destruct secret as [k|]; [|done].
  destruct boot; simpl.
  - destruct (Z.leb_spec c last); [done|].
    destruct (Z.leb_spec c (u64 (last + WindowFar cfg))); [|done].
    case_bool_decide; [|done]. simpl. eauto 10.
  - destruct (Z.leb_spec c (WindowFar cfg)); simpl; [|done].
    case_bool_decide; [|done]. simpl. eauto 10.
Qed.

(** ** Properties *)

(** HOTP is total: the dynamic truncation never indexes past the MAC, and
    for 6 to 8 digits the code has at most that many digits. *)
Theorem HOTP_in_range secret c digits :
  6 ≤ digits ≤ 8 → ∃ v, HOTP secret c digits = Some v ∧ 0 ≤ v < 10 ^ digits.
Proof.
  intros Hd. destruct (HOTP_total secret c digits) as [v Hv].
  exists v. eauto using HOTP_bound.
Qed.

Definition rfc4226_secret : bytes := bytes_of_string "12345678901234567890".

Lemma HOTP_in_range_witness :
  ∃ v, HOTP rfc4226_secret 0 6 = Some v ∧ 0 ≤ v < 10 ^ 6.
Proof. apply HOTP_in_range. lia. Defined.

(** The ten values of RFC 4226, appendix D. *)
Example rfc4226_appendix_d :
  (λ c, HOTP rfc4226_secret c 6) <$> seqZ 0 10 =
  Some <$> [755224; 287082; 359152; 969429; 338314; 254676; 287922; 162583; 399871; 520489].
Proof. vm_compute. reflexivity. Qed.
End Auth.
