(* ===== verification/C2.v ===== *)
(** * The C2 command channel ([internal/ingestcore] c2, c2auth, c2rekey;
      [internal/commandstore])

    The tables device_auth, c2_nonce, device_c2_cursor and command_queue, and
    every handler that reads or writes them. Timestamps are seconds. ECDSA
    P-256 verification is a parameter. *)

From S2P Require Import Prelude GoLib Crypto Db Auth.
Import GoLib Crypto Auth.

Module C2.

(** ** Tables *)

Record auth_row := AuthRow {
  ecdsa_pubkey : option bytes; session_secret : option bytes;
  session_epoch : Z; session_last_counter : Z; session_bootstrapped : bool;
  digits : Z; last_seen_at : Z }.

Record cursor := MkCursor { applied_seq : Z; last_poll_at : Z }.

Record command := MkCommand {
  seq : Z; target : string; script : string; note : option string;
  operator_key_id : option Z; idempotency_key : option string; applied : bool;
  created_at : Z }.

Record db := MkDb {
  devices : gset string;
  device_auth : gmap string auth_row;
  c2_nonce : gmap string (bytes * Z);
  cursors : gmap string cursor;
  command_queue : list command;
  next_seq : Z;
  playlist_binding : gmap string Z;
  (* the ids of operator_keys, which operator_key_id references *)
  operators : gset Z }.

Definition set_auth (f : gmap string auth_row → gmap string auth_row) (d : db) : db :=
  MkDb (devices d) (f (device_auth d)) (c2_nonce d) (cursors d) (command_queue d) (next_seq d)
    (playlist_binding d) (operators d).
Definition set_nonce (f : gmap string (bytes * Z) → gmap string (bytes * Z)) (d : db) : db :=
  MkDb (devices d) (device_auth d) (f (c2_nonce d)) (cursors d) (command_queue d) (next_seq d)
    (playlist_binding d) (operators d).
Definition set_cursors (f : gmap string cursor → gmap string cursor) (d : db) : db :=
  MkDb (devices d) (device_auth d) (c2_nonce d) (f (cursors d)) (command_queue d) (next_seq d)
    (playlist_binding d) (operators d).
Definition set_queue (q : list command) (n : Z) (d : db) : db :=
  MkDb (devices d) (device_auth d) (c2_nonce d) (cursors d) q n (playlist_binding d)
    (operators d).

(** ** Session authentication (c2auth.go) *)

Definition authWindow : Z := 8.
Definition authWindowFar : Z := 4096.

Definition digitsOr8 (d : Z) : Z := if (d <? 6) || (8 <? d) then 8 else d.

Definition authDevice (now : Z) (serial : string) (q : query_params) : M (Tx db) db_err bool :=
  let '(claimedC, errC) := parse_uint (qget q "c") 64 in
  let '(otp64, errO) := parse_uint (qget q "otp") 32 in
  match errC, errO with
  | None, None =>
      let otp := u32 otp64 in
      r ← attempt (tx_query EDb (λ d,
        match device_auth d !! serial with Some a => Ok a | None => Err ENoRows end));
      match r with
      | Err _ => mret false
      | Ok a =>
          match session_secret a with
          | None => mret false
          | Some _ =>
              let cfg := MkConfig (digitsOr8 (digits a)) authWindow authWindowFar in
              let res := ValidateSession cfg (session_secret a)
                (u64 (session_last_counter a)) (session_bootstrapped a) claimedC otp in
              if negb (ROK res) then mret false
              else
                u ← attempt (tx_exec EDb (set_auth (alter (λ a,
                  AuthRow (ecdsa_pubkey a) (session_secret a) (session_epoch a)
                    (i64 (NewCounter res)) true (digits a) now) serial)));
                mret (is_ok u)
          end
      end
  | _, _ => mret false
  end.

(** ** The queue (commandstore.go) *)

Definition ScriptMax : Z := 8191.

(** [UPDATE command_queue SET applied = true WHERE serial = $1 AND seq <= $2
    AND idempotency_key IS NOT NULL AND NOT applied]. *)
Definition mark_row (serial : string) (uptoSeq : Z) (c : command) : command :=
  if bool_decide (target c = serial) && (seq c <=? uptoSeq) &&
     bool_decide (is_Some (idempotency_key c)) && negb (applied c)
  then MkCommand (seq c) (target c) (script c) (note c) (operator_key_id c)
         (idempotency_key c) true (created_at c)
  else c.
Definition mark_applied (serial : string) (uptoSeq : Z) (d : db) : db :=
  set_queue (mark_row serial uptoSeq <$> command_queue d) (next_seq d) d.
Definition MarkApplied (serial : string) (uptoSeq : Z) : M (Tx db) db_err unit :=
  tx_exec EDb (mark_applied serial uptoSeq).

(** [WHERE serial IN ($1, '*') AND seq > $2 ORDER BY seq LIMIT 1]. *)
Definition eligible (serial : string) (after : Z) (c : command) : bool :=
  (bool_decide (target c = serial) || bool_decide (target c = "*"%string)) && (after <? seq c).
Definition min_by_seq (best : option command) (c : command) : option command :=
  match best with
  | None => Some c
  | Some b => if seq c <? seq b then Some c else Some b
  end.
Definition next_command (serial : string) (after : Z) (queue : list command) : option command :=
  foldl min_by_seq None (List.filter (eligible serial after) queue).

(** The partial unique index: a pending row with this key already exists. *)
Definition pending_key (serial key : string) (c : command) : bool :=
  bool_decide (target c = serial) && bool_decide (idempotency_key c = Some key) &&
  negb (applied c).

(** [INSERT ... ON CONFLICT ... DO NOTHING RETURNING seq]: the identity value
    is drawn either way, a conflict returns no row. *)
Definition insert_keyed (now : Z) (serial script : string) (note : option string)
    (op : option Z) (key : string) (d : db) : result db_err Z * db :=
  let n := next_seq d in
  if existsb (pending_key serial key) (command_queue d)
  then (Err ENoRows, set_queue (command_queue d) (n + 1) d)
  else (Ok n, set_queue (command_queue d ++
          [MkCommand n serial script note op (Some key) false now]) (n + 1) d).

Definition insert_plain (now : Z) (serial script : string) (note : option string)
    (op : option Z) (d : db) : result db_err Z * db :=
  let n := next_seq d in
  (Ok n, set_queue (command_queue d ++ [MkCommand n serial script note op None false now])
           (n + 1) d).

(** The foreign key of operator_key_id, checked at the end of the statement:
    a violation takes the row back, not the identity value. *)
Definition op_known (op : option Z) (d : db) : bool :=
  match op with Some k => bool_decide (k ∈ operators d) | None => true end.
Definition attributed (op : option Z) (f : db → result db_err Z * db) (d : db)
    : result db_err Z * db :=
  match f d with
  | (Ok n, d') => if op_known op d then (Ok n, d')
                  else (Err EConstraint, set_queue (command_queue d) (next_seq d') d)
  | (Err e, d') => (Err e, d')
  end.

Definition select_pending (serial key : string) (d : db) : result db_err Z :=
  match foldl min_by_seq None (List.filter (pending_key serial key) (command_queue d)) with
  | Some c => Ok (seq c)
  | None => Err ENoRows
  end.

Inductive enqueue_err := ErrScriptEmpty | ErrScriptTooLong | ErrUnknownSerial | ErrDb (e : db_err).

Definition lift_db {A} (m : M db db_err A) : M db enqueue_err A := λ s fs,
  let '(r, s', fs') := m s fs in
  (match r with Ok a => Ok a | Err e => Err (ErrDb e) end, s', fs').

Definition known_serial (serial : string) : M db enqueue_err bool :=
  if bool_decide (serial = "*"%string) then mret true
  else lift_db (query EDb (λ d, Ok (bool_decide (serial ∈ devices d)))).

Definition Enqueue (now : Z) (serial script : string) (note : option string)
    (operatorKeyID : Z) (idempotencyKey : option string) : M db enqueue_err Z :=
  if bool_decide (script = ""%string) then throw ErrScriptEmpty
  else if ScriptMax <? zlen (bytes_of_string script) then throw ErrScriptTooLong
  else
    known ← known_serial serial;
    if negb known then throw ErrUnknownSerial
    else
      match idempotencyKey with
      | Some key =>
          if bool_decide (key = ""%string)
          then lift_db (stmt EDb (attributed (Some operatorKeyID)
                 (insert_plain now serial script note (Some operatorKeyID))))
          else
            r ← attempt (lift_db (stmt EDb (attributed (Some operatorKeyID)
                  (insert_keyed now serial script note (Some operatorKeyID) key))));
            match r with
            | Ok seq => mret seq
            | Err (ErrDb ENoRows) => lift_db (query EDb (select_pending serial key))
            | Err e => throw e
            end
      | None => lift_db (stmt EDb (attributed (Some operatorKeyID)
                  (insert_plain now serial script note (Some operatorKeyID))))
      end.

(** ** The playlist refresh fan-out (commandstore/playlist.go) *)

Definition PlaylistRefreshScript : string := "refresh()".
Definition playlistRefreshKey : string := "playlist-refresh".

Definition refresh_one (now : Z) (op : option Z) (acc : Z * db) (serial : string) : Z * db :=
  match insert_keyed now serial PlaylistRefreshScript None op playlistRefreshKey acc.2 with
  | (Ok _, d') => (acc.1 + 1, d')
  | (Err _, d') => (acc.1, d')
  end.

Definition bound_registered (playlistID : Z) (d : db) : list string :=
  fst <$> List.filter (λ b, (b.2 =? playlistID) && bool_decide (b.1 ∈ devices d))
            (map_to_list (playlist_binding d)).

Definition EnqueuePlaylistRefresh (now playlistID : Z) (op : option Z) : M db db_err Z :=
  stmt EDb (λ d,
    let '(n, d') := foldl (refresh_one now op) (0, d) (bound_registered playlistID d) in
    if (0 <? n) && negb (op_known op d)
    then (Err EConstraint, set_queue (command_queue d) (next_seq d') d) else (Ok n, d')).

(** ** The poll (c2.go) *)

Definition c2MaxWaitS : Z := 25.

Inductive outcome :=
| Respond (r : response)
| Hold (serial : string) (applied budget : Z).

Definition serve (c : command) : response :=
  Resp 200 [("X-C2-Seq"%string, format_int (seq c));
            ("Content-Type"%string, "text/plain; charset=utf-8"%string)]
    (bytes_of_string (script c)).

(** [INSERT INTO device_c2_cursor ... ON CONFLICT DO UPDATE SET applied_seq =
    GREATEST(...) RETURNING applied_seq]; the foreign key refuses an unknown
    device. *)
Definition advance_cursor (now : Z) (serial : string) (ack : Z) (d : db)
    : result db_err Z * db :=
  if negb (bool_decide (serial ∈ devices d)) then (Err EConstraint, d)
  else
    let applied := match cursors d !! serial with
                   | Some c => Z.max (applied_seq c) ack
                   | None => ack
                   end in
    (Ok applied, set_cursors (insert serial (MkCursor applied now)) d).

Definition parse_ack (q : query_params) : Z := Z.max 0 (parse_int (qget q "ack") 64).1.

Definition c2_body (now : Z) (serial : string) (q : query_params) : M (Tx db) db_err outcome :=
  authed ← authDevice now serial q;
  if negb authed then mret (Respond (bare 401))
  else
    r ← attempt (tx_stmt EDb (advance_cursor now serial (parse_ack q)));
    match r with
    | Err _ => mret (Respond (bare 404))
    | Ok applied =>
        m ← attempt (MarkApplied serial applied);
        if negb (is_ok m) then mret (Respond (bare 500))
        else
          n ← attempt (tx_query EDb (λ d,
            match next_command serial applied (command_queue d) with
            | Some c => Ok c | None => Err ENoRows end));
          match n with
          | Err ENoRows =>
              c ← attempt (commit EDb);
              if negb (is_ok c) then mret (Respond (bare 500))
              else
                let waitS := (atoi (qget q "wait")).1 in
                if waitS <=? 0 then mret (Respond (bare 204))
                else mret (Hold serial applied (Z.min waitS c2MaxWaitS))
          | Err _ => mret (Respond (bare 500))
          | Ok cmd =>
              c ← attempt (commit EDb);
              if negb (is_ok c) then mret (Respond (bare 500))
              else mret (Respond (serve cmd))
          end
    end.

Definition handleC2 (now : Z) (q : query_params) : M db db_err outcome :=
  let serial := qget q "sn" in
  if bool_decide (serial = ""%string) then mret (Respond (bare 404))
  else
    r ← attempt (with_tx EDb (c2_body now serial q));
    match r with
    | Ok o => mret o
    | Err _ => mret (Respond (bare 500))
    end.

(** ** Re-key (c2rekey.go) *)

Definition nonceLen : Z := 16.
Definition nonceTTL : Z := 60.
Definition pubkeyLen : Z := 65.
Definition secretSize : Z := 20.

Definition rekeyMsg (sn : string) (nonceHex : string) (secret : bytes) : bytes :=
  bytes_of_string "c2rekey" ++ [10] ++ bytes_of_string sn ++ [10] ++
  bytes_of_string nonceHex ++ [10] ++ hex_encode (sha256 secret).

Section Ecdsa.
(** [elliptic.Unmarshal] accepts the point; [ecdsa.VerifyASN1]. *)
Context (on_curve : bytes → bool) (verify_asn1 : bytes → bytes → bytes → bool).

Definition verifyRekeySig (pub : bytes) (sn nonceHex : string) (secret sig : bytes) : bool :=
  if negb (zlen pub =? pubkeyLen) || negb (bool_decide (head pub = Some 4)) then false
  else if negb (on_curve pub) then false
  else verify_asn1 pub (sha256 (rekeyMsg sn nonceHex secret)) sig.

(** The random 16 bytes are an argument, [None] when the source fails. *)
Definition handleC2Challenge (now : Z) (sn : string) (random : option bytes)
    : M db db_err response :=
  if bool_decide (sn = ""%string) then mret (bare 404)
  else match random with
  | None => mret (bare 500)
  | Some nonce =>
      _ ← attempt (exec EDb (λ d,
            match device_auth d !! sn with
            | Some a => if bool_decide (is_Some (ecdsa_pubkey a))
                        then set_nonce (insert sn (nonce, now)) d else d
            | None => d
            end));
      mret (Resp 200 [("Content-Type"%string, "application/json"%string)]
              (bytes_of_string "{" ++ [34] ++ bytes_of_string "nonce" ++ [34; 58; 34] ++
               hex_encode nonce ++ [34] ++ bytes_of_string "}" ++ [10]))
  end.

(** The decoded JSON body. *)
Record rekey_req := RekeyReq { r_nonce : string; r_secret : string; r_sig : string }.

Definition rekey_ok (now : Z) (sn : string) (req : rekey_req)
    (row : option bytes * option bytes * Z) : option bytes :=
  let '(pk, storedNonce, issued) := row in
  match hex_decode (bytes_of_string (r_nonce req)),
        hex_decode (bytes_of_string (r_secret req)),
        hex_decode (bytes_of_string (r_sig req)), pk, storedNonce with
  | Some nonce, Some secret, Some sig, Some pk, Some stored =>
      if (zlen secret =? secretSize) && bool_decide (nonce = stored) &&
         (now - issued <? nonceTTL) && verifyRekeySig pk sn (r_nonce req) secret sig
      then Some secret else None
  | _, _, _, _, _ => None
  end.

Definition rekey_body (now : Z) (sn : string) (req : rekey_req) : M (Tx db) db_err response :=
  row ← attempt (tx_query EDb (λ d,
    match device_auth d !! sn with
    | Some a => Ok (ecdsa_pubkey a, fst <$> c2_nonce d !! sn,
                    default 0 (snd <$> c2_nonce d !! sn))
    | None => Err ENoRows
    end));
  match row with
  | Err _ => mret (bare 401)
  | Ok row =>
      match rekey_ok now sn req row with
      | None => mret (bare 401)
      | Some secret =>
          u ← attempt (tx_exec EDb (set_auth (alter (λ a,
                AuthRow (ecdsa_pubkey a) (Some secret) (session_epoch a + 1) 0 false
                  (digits a) now) sn)));
          if negb (is_ok u) then mret (bare 500)
          else
            d ← attempt (tx_exec EDb (set_nonce (delete sn)));
            if negb (is_ok d) then mret (bare 500)
            else
              c ← attempt (commit EDb);
              if negb (is_ok c) then mret (bare 500) else mret (bare 204)
      end
  end.

Definition handleC2Rekey (now : Z) (sn : string) (req : option rekey_req)
    : M db db_err response :=
  if bool_decide (sn = ""%string) then mret (bare 404)
  else match req with
  | None => mret (bare 401)
  | Some req =>
      r ← attempt (with_tx EDb (rekey_body now sn req));
      match r with
      | Ok resp => mret resp
      | Err _ => mret (bare 500)
      end
  end.
End Ecdsa.

(** ** Specification: one poll without faults *)

(** The row update of an authentic request, [None] when it is not authentic. *)
Definition auth_spec (now : Z) (serial : string) (q : query_params) (d : db) : option db :=
  match parse_uint (qget q "c") 64, parse_uint (qget q "otp") 32, device_auth d !! serial with
  | (c, None), (otp, None), Some a =>
      match session_secret a with
      | None => None
      | Some _ =>
          let res := ValidateSession
            (MkConfig (digitsOr8 (digits a)) authWindow authWindowFar) (session_secret a)
            (u64 (session_last_counter a)) (session_bootstrapped a) c (u32 otp) in
          if ROK res then
            Some (set_auth (alter (λ a,
              AuthRow (ecdsa_pubkey a) (session_secret a) (session_epoch a)
                (i64 (NewCounter res)) true (digits a) now) serial) d)
          else None
      end
  | _, _, _ => None
  end.

Definition idle_outcome (serial : string) (applied : Z) (q : query_params) : outcome :=
  let waitS := (atoi (qget q "wait")).1 in
  if waitS <=? 0 then Respond (bare 204) else Hold serial applied (Z.min waitS c2MaxWaitS).

Definition poll_spec (now : Z) (serial : string) (q : query_params) (d : db)
    : option (db * outcome) :=
  d1 ← auth_spec now serial q d;
  match advance_cursor now serial (parse_ack q) d1 with
  | (Err _, _) => None
  | (Ok applied, d2) =>
      Some (mark_applied serial applied d2,
            match next_command serial applied (command_queue (mark_applied serial applied d2)) with
            | Some c => Respond (serve c)
            | None => idle_outcome serial applied q
            end)
  end.

(** The status of a fault-free refusal: 401 unless the request is authentic. *)
Definition refusal_code (now : Z) (serial : string) (q : query_params) (d : db) : Z :=
  match auth_spec now serial q d with Some _ => 404 | None => 401 end.

Definition refused (o : outcome) : Prop :=
  o = Respond (bare 401) ∨ o = Respond (bare 404) ∨ o = Respond (bare 500).

(** ** Lemmas: the handler against the specification *)

Ltac refuse := eexists _, _, _; split; [reflexivity|split; [done|by intros; simplify_eq]].

Ltac fault_stop :=
  eexists _, _, _; split; [reflexivity|]; split;
  [by auto|first [by intros _|let H := fresh in intros H; first [by apply H|by match goal with
     Hfs : _ = [] → _ |- _ => apply Hfs in H end]]].

Lemma authDevice_run now serial q t fs :
  ∃ b t' fs', authDevice now serial q t fs = (Ok b, t', fs') ∧
    (if b then ∃ d1, auth_spec now serial q (tx_work t) = Some d1 ∧
                     t' = MkTx (tx_committed t) d1
     else t' = t) ∧
    (fs = [] → fs' = [] ∧ b = bool_decide (is_Some (auth_spec now serial q (tx_work t)))).
Proof.
  unfold authDevice, auth_spec.
  destruct (parse_uint (qget q "c") 64) as [c ec], (parse_uint (qget q "otp") 32) as [o eo].
  destruct ec as [ec|]; [refuse|]. destruct eo as [eo|]; [refuse|].
  db_unfold. destruct t as [com work]; simpl.
  destruct fs as [|[] fs]; simpl; [|refuse|];
    (destruct (device_auth work !! serial) as [a|]; simpl; [|refuse]);
    (destruct (session_secret a) as [k|]; simpl; [|refuse]);
    (destruct (ROK _) eqn:HR; simpl; [|refuse]).
  - eexists _, _, _. split; [reflexivity|]. by eauto.
  - destruct fs as [|[] fs]; simpl; [|refuse|];
      (eexists _, _, _; split; [reflexivity|]; simpl; split; [by eauto|by intros]).
Qed.

Lemma c2_body_run now serial q d fs :
  ∃ o t' fs', c2_body now serial q (MkTx d d) fs = (Ok o, t', fs') ∧
    (poll_spec now serial q d = Some (tx_committed t', o) ∨ (tx_committed t' = d ∧ refused o)) ∧
    (fs = [] → fs' = [] ∧ match poll_spec now serial q d with
                         | Some (d', o') => tx_committed t' = d' ∧ o = o'
                         | None => tx_committed t' = d ∧
                             o = Respond (bare (refusal_code now serial q d))
                         end).
Proof.
  unfold c2_body, poll_spec, refused, refusal_code.
  destruct (authDevice_run now serial q (MkTx d d) fs) as (b & t' & fs' & Hrun & Hb & Hnil).
  simpl in Hb, Hnil. unfold mbind at 1, M_bind at 1. rewrite Hrun.
  destruct b; simpl; [|].
  2: { subst t'. eexists _, _, _. split; [done|]. split; [by auto|].
       intros [-> Hs]%Hnil. split; [done|].
       destruct (auth_spec now serial q d); [|done].
       by rewrite bool_decide_true in Hs. }
  destruct Hb as (d1 & Hspec & ->). rewrite Hspec in *. clear Hrun.
  assert (fs = [] → fs' = []) as Hfs by (intros H; by apply Hnil in H as [-> _]). clear Hnil.
  unfold idle_outcome. db_unfold. simpl.
  destruct (advance_cursor now serial (parse_ack q) d1) as [[applied|e] d2] eqn:Hadv; simpl.
  2: { destruct fs' as [|[] fs']; simpl; rewrite ?Hadv; simpl; fault_stop. }
  destruct fs' as [|[] fs']; simpl; rewrite ?Hadv; simpl; [|fault_stop|].
  { destruct (next_command _ _ _); simpl; [|case_match]; fault_stop. }
  destruct fs' as [|[] fs']; simpl; [|fault_stop|].
  { destruct (next_command _ _ _); simpl; [|case_match]; fault_stop. }
  destruct fs' as [|[] fs']; simpl; [|fault_stop|].
  { destruct (next_command _ _ _); simpl; [|case_match]; fault_stop. }
  destruct (next_command _ _ _); simpl;
    (destruct fs' as [|[] fs']; simpl; [|fault_stop|]); try case_match; fault_stop.
Qed.

(** The poll is atomic: under every fault schedule it either performs exactly
    the specified transition or changes nothing and refuses. *)
Lemma handleC2_run now q d fs :
  ∃ o d' fs', handleC2 now q d fs = (Ok o, d', fs') ∧
    ((qget q "sn" ≠ ""%string ∧ poll_spec now (qget q "sn") q d = Some (d', o)) ∨
     (d' = d ∧ refused o)).
Proof.
  unfold handleC2. case_bool_decide as Hsn.
  { eexists _, _, _. split; [reflexivity|]. unfold refused. auto. }
  unfold mbind, M_bind, attempt, with_tx, mret, M_ret.
  destruct fs as [|[] fs]; simpl.
  - destruct (c2_body_run now (qget q "sn") q d []) as (o & t' & fs' & -> & Hor & _).
    eexists _, _, _. split; [reflexivity|]. destruct Hor as [Hor|[? ?]]; auto.
  - eexists _, _, _. split; [reflexivity|]. unfold refused. auto.
  - destruct (c2_body_run now (qget q "sn") q d fs) as (o & t' & fs' & -> & Hor & _).
    eexists _, _, _. split; [reflexivity|]. destruct Hor as [Hor|[? ?]]; auto.
Qed.

Lemma handleC2_no_faults now q d :
  qget q "sn" ≠ ""%string →
  handleC2 now q d [] =
    match poll_spec now (qget q "sn") q d with
    | Some (d', o) => (Ok o, d', [])
    | None => (Ok (Respond (bare (refusal_code now (qget q "sn") q d))), d, [])
    end.
Proof.
  intros Hsn. unfold handleC2. rewrite bool_decide_false by done.
  unfold mbind, M_bind, attempt, with_tx, mret, M_ret. simpl.
  destruct (c2_body_run now (qget q "sn") q d []) as (o & t' & fs' & -> & _ & Hnil).
  destruct (Hnil eq_refl) as [-> Hm]. destruct (poll_spec _ _ _ _) as [[d' o']|];
    by destruct Hm as [-> ->].
Qed.


(** ** Lemmas: the queue *)

Lemma min_by_seq_fold l best r :
  foldl min_by_seq best l = Some r →
  (best = Some r ∨ r ∈ l) ∧ (∀ c, best = Some c ∨ c ∈ l → seq r ≤ seq c).
Proof.
  revert best. induction l as [|x l IH]; intros best; cbn [foldl].
  { intros ->. split; [by left|]. intros c [Hc|Hc]; [by simplify_eq|by apply not_elem_of_nil in Hc]. }
  intros [Hin Hmin]%IH. split.
  - destruct Hin as [Hin|Hin]; [|right; by right].
    destruct best as [b|]; simpl in Hin; [|simplify_eq; right; left].
    destruct (seq x <? seq b); simplify_eq; [right; left|by left].
  - assert (∀ c, (best = Some c ∨ c = x) → seq r ≤ seq c) as Hbx.
    { intros c Hc. destruct best as [b|]; simpl in Hmin.
      - destruct (Z.ltb_spec (seq x) (seq b)); destruct Hc as [Hc| ->]; simplify_eq.
        + specialize (Hmin x (or_introl eq_refl)). lia.
        + apply Hmin. by left.
        + apply Hmin. by left.
        + specialize (Hmin b (or_introl eq_refl)). lia.
      - destruct Hc as [| ->]; [done|]. apply Hmin. by left. }
    intros c [Hc|[-> |Hc]%elem_of_cons]; [apply Hbx; by left|apply Hbx; by right|].
    apply Hmin. by right.
Qed.

Lemma min_by_seq_fold_None l best : foldl min_by_seq best l = None → best = None ∧ l = [].
Proof.
  revert best. induction l as [|x l IH]; intros best; cbn [foldl]; [done|].
  intros [H _]%IH. by destruct best as [b|]; simpl in H; [destruct (seq x <? seq b)|].
Qed.

Lemma elem_of_filter_bool {A} (p : A → bool) l x : x ∈ List.filter p l ↔ p x = true ∧ x ∈ l.
Proof. rewrite !list_elem_of_In, filter_In. tauto. Qed.

Lemma next_command_Some serial after queue c :
  next_command serial after queue = Some c →
  c ∈ queue ∧ eligible serial after c = true ∧
  ∀ c', c' ∈ queue → eligible serial after c' = true → seq c ≤ seq c'.
Proof.
  unfold next_command. intros [[?|Hin] Hmin]%min_by_seq_fold; [done|].
  apply elem_of_filter_bool in Hin as [He Hin]. split_and!; [done|done|].
  intros c' Hc' He'. apply Hmin. right. by apply elem_of_filter_bool.
Qed.

Lemma next_command_None serial after queue :
  next_command serial after queue = None ↔ ∀ c, c ∈ queue → eligible serial after c = false.
Proof.
  unfold next_command. split.
  - intros [_ H]%min_by_seq_fold_None c Hc.
    destruct (eligible serial after c) eqn:He; [|done].
    assert (c ∈ List.filter (eligible serial after) queue) as Hin by by apply elem_of_filter_bool.
    rewrite H in Hin. by apply not_elem_of_nil in Hin.
  - intros H. destruct (foldl min_by_seq None _) as [c|] eqn:Hf; [|done].
    apply min_by_seq_fold in Hf as [[?|Hin] _]; [done|].
    apply elem_of_filter_bool in Hin as [He Hin]. by rewrite H in He.
Qed.

Lemma mark_row_fields serial n c :
  seq (mark_row serial n c) = seq c ∧ target (mark_row serial n c) = target c ∧
  script (mark_row serial n c) = script c ∧
  idempotency_key (mark_row serial n c) = idempotency_key c ∧
  (applied c = true → applied (mark_row serial n c) = true).
Proof. unfold mark_row. by case_match. Qed.

Lemma eligible_mark serial n s a c : eligible s a (mark_row serial n c) = eligible s a c.
Proof.
  unfold eligible. by destruct (mark_row_fields serial n c) as (-> & -> & _).
Qed.

Lemma pending_mark serial n s k c :
  pending_key s k (mark_row serial n c) = true → pending_key s k c = true.
Proof.
  unfold pending_key. destruct (mark_row_fields serial n c) as (_ & -> & _ & -> & Ha).
  destruct (applied c); [rewrite Ha by done|]; rewrite !andb_true_iff; tauto.
Qed.

(** *** The queue invariant: increasing fresh sequence numbers, and at most one
    pending row per (target, key). *)

Definition pending_count (serial key : string) (l : list command) : nat :=
  length (List.filter (pending_key serial key) l).

Definition queue_wf (d : db) : Prop :=
  StronglySorted Z.lt (seq <$> command_queue d) ∧
  Forall (λ c, seq c < next_seq d) (command_queue d) ∧
  ∀ s k, (pending_count s k (command_queue d) ≤ 1)%nat.

Lemma pending_count_app s k l1 l2 :
  pending_count s k (l1 ++ l2) = (pending_count s k l1 + pending_count s k l2)%nat.
Proof. unfold pending_count. by rewrite List.filter_app, length_app. Qed.

Lemma pending_count_exists s k l :
  existsb (pending_key s k) l = false → pending_count s k l = 0%nat.
Proof.
  unfold pending_count. induction l as [|c l IH]; simpl; [done|].
  intros [-> H]%orb_false_iff. auto.
Qed.

Lemma queue_wf_append d c :
  queue_wf d → seq c = next_seq d →
  (∀ k, idempotency_key c = Some k → pending_count (target c) k (command_queue d) = 0%nat) →
  queue_wf (set_queue (command_queue d ++ [c]) (next_seq d + 1) d).
Proof.
  intros (Hs & Hf & Hp) Hc Hk. unfold queue_wf. cbn [command_queue next_seq set_queue].
  split_and!.
  - rewrite fmap_app. apply sorted_snoc; [done|]. by rewrite Hc; apply Forall_fmap.
  - apply Forall_app. split; [|by repeat constructor; lia].
    eapply Forall_impl; [exact Hf|]. simpl. lia.
  - intros s k. rewrite pending_count_app. specialize (Hp s k).
    destruct (pending_key s k c) eqn:Hpk.
    + unfold pending_key in Hpk. rewrite !andb_true_iff in Hpk.
      destruct Hpk as [[Ht%bool_decide_eq_true Hi%bool_decide_eq_true] _].
      subst s. rewrite (Hk k Hi). unfold pending_count. simpl. case_match; simpl; lia.
    + unfold pending_count at 2. simpl. rewrite Hpk. simpl. lia.
Qed.

Lemma queue_wf_skip d : queue_wf d → queue_wf (set_queue (command_queue d) (next_seq d + 1) d).
Proof.
  intros (Hs & Hf & Hp). split_and!; [done| |done]. cbn.
  eapply Forall_impl; [exact Hf|]. simpl. lia.
Qed.

Lemma queue_wf_insert_keyed now s sc n op key d :
  queue_wf d → queue_wf (insert_keyed now s sc n op key d).2.
Proof.
  intros Hwf. unfold insert_keyed. destruct (existsb _ _) eqn:He; simpl.
  - by apply queue_wf_skip.
  - apply queue_wf_append; [done|done|]. intros k [= <-]. by apply pending_count_exists.
Qed.

Lemma queue_wf_insert_plain now s sc n op d :
  queue_wf d → queue_wf (insert_plain now s sc n op d).2.
Proof. intros Hwf. by apply queue_wf_append. Qed.

Lemma queue_wf_rollback n d : next_seq d ≤ n → queue_wf d →
  queue_wf (set_queue (command_queue d) n d).
Proof.
  intros Hn (Hs & Hf & Hp). split_and!; [done| |done]. cbn.
  eapply Forall_impl; [exact Hf|]. simpl. lia.
Qed.

Lemma insert_keyed_seq now s sc n op key d : next_seq (insert_keyed now s sc n op key d).2 = next_seq d + 1.
Proof. unfold insert_keyed. by destruct (existsb _ _). Qed.

Lemma queue_wf_attributed op f d : queue_wf d → queue_wf (f d).2 → next_seq d ≤ next_seq (f d).2 →
  queue_wf (attributed op f d).2.
Proof.
  intros Hwf Hf Hn. unfold attributed. destruct (f d) as [[m|e] d']; simpl in *; [|done].
  destruct (op_known op d); [done|]. by apply queue_wf_rollback.
Qed.
Lemma queue_wf_keyed now s sc n op key d : queue_wf d →
  queue_wf (attributed op (insert_keyed now s sc n op key) d).2.
Proof.
  intros Hwf. apply queue_wf_attributed; [done|by apply queue_wf_insert_keyed|].
  rewrite insert_keyed_seq. lia.
Qed.
Lemma queue_wf_plain now s sc n op d : queue_wf d →
  queue_wf (attributed op (insert_plain now s sc n op) d).2.
Proof. intros Hwf. apply queue_wf_attributed; [done|by apply queue_wf_insert_plain|simpl; lia]. Qed.

Lemma queue_wf_mark serial n d : queue_wf d → queue_wf (mark_applied serial n d).
Proof.
  intros (Hs & Hf & Hp). unfold queue_wf, mark_applied. cbn [command_queue next_seq set_queue].
  split_and!.
  - rewrite <-list_fmap_compose. erewrite list_fmap_ext; [exact Hs|].
    intros i c _. apply mark_row_fields.
  - apply Forall_fmap. eapply Forall_impl; [exact Hf|]. intros c Hc. simpl.
    by rewrite (proj1 (mark_row_fields serial n c)).
  - intros s k. specialize (Hp s k). etrans; [|exact Hp]. clear.
    unfold pending_count. induction (command_queue d) as [|c l IH]; [done|].
    rewrite fmap_cons. cbn [List.filter].
    destruct (pending_key s k (mark_row serial n c)) eqn:H.
    + rewrite (pending_mark _ _ _ _ _ H). cbn [length]. lia.
    + case_match; cbn [length]; lia.
Qed.

(** The parts of the tables other than the queue do not matter to it. *)
Lemma queue_wf_ext d d' :
  command_queue d' = command_queue d → next_seq d' = next_seq d → queue_wf d → queue_wf d'.
Proof. unfold queue_wf. by intros -> ->. Qed.

Lemma queue_wf_advance now serial ack d r d' :
  advance_cursor now serial ack d = (r, d') → queue_wf d → queue_wf d'.
Proof. unfold advance_cursor. case_match; intros; simplify_eq; by eapply queue_wf_ext. Qed.

Lemma auth_spec_inv now serial q d d1 :
  auth_spec now serial q d = Some d1 →
  ∃ c otp a k, parse_uint (qget q "c") 64 = (c, None) ∧
    parse_uint (qget q "otp") 32 = (otp, None) ∧
    device_auth d !! serial = Some a ∧ session_secret a = Some k ∧
    HOTP k c (digitsOr8 (digits a)) = Some (u32 otp) ∧
    (if session_bootstrapped a
     then u64 (session_last_counter a) < c ∧
          c ≤ u64 (u64 (session_last_counter a) + authWindowFar)
     else c ≤ authWindowFar) ∧
    d1 = set_auth (alter (λ a, AuthRow (ecdsa_pubkey a) (session_secret a) (session_epoch a)
                                 (i64 c) true (digits a) now) serial) d.
Proof.
  unfold auth_spec.
  destruct (parse_uint (qget q "c") 64) as [c [|]], (parse_uint (qget q "otp") 32) as [o [|]];
    try done.
  destruct (device_auth d !! serial) as [a|]; [|done].
  destruct (session_secret a) as [k|] eqn:Hk; [|done]. cbv zeta.
  destruct (ROK _) eqn:HR; [|done]. intros Hd1%(inj Some). subst d1.
  apply ValidateSession_inv in HR as (-> & k' & [= <-] & HH & Hc). eauto 15.
Qed.

Lemma poll_spec_inv now serial q d d' o :
  poll_spec now serial q d = Some (d', o) →
  ∃ d1 applied d2, auth_spec now serial q d = Some d1 ∧ serial ∈ devices d ∧
    advance_cursor now serial (parse_ack q) d1 = (Ok applied, d2) ∧
    d' = mark_applied serial applied d2 ∧ parse_ack q ≤ applied ∧
    cursors d' !! serial = Some (MkCursor applied now) ∧
    (∀ c, cursors d !! serial = Some c → applied_seq c ≤ applied) ∧
    o = match next_command serial applied (command_queue d') with
        | Some c => Respond (serve c) | None => idle_outcome serial applied q end.
Proof.
  unfold poll_spec. destruct (auth_spec now serial q d) as [d1|] eqn:Ha; simpl; [|done].
  destruct (advance_cursor _ _ _ _) as [[applied|e] d2] eqn:Hadv; [|done].
  intros [Hd' Ho]%(inj Some)%(inj2 pair). subst o.
  apply auth_spec_inv in Ha as Hinv. destruct Hinv as (c & otp & a & k & _ & _ & _ & _ & _ & _ & Hd1).
  assert (devices d1 = devices d ∧ cursors d1 = cursors d) as [Hdev Hcur] by by subst d1.
  unfold advance_cursor in Hadv. case_bool_decide as Hin; simpl in Hadv; [|done].
  apply Ok_pair_inv in Hadv as [Happ <-]. exists d1, applied, (set_cursors (insert serial (MkCursor applied now)) d1).
  rewrite Hdev in Hin. split_and!; try done.
  - unfold advance_cursor. rewrite bool_decide_true by by rewrite Hdev. simpl. by rewrite Happ.
  - subst d'. by rewrite Happ.
  - subst applied. case_match; lia.
  - subst d'. rewrite <-Happ. apply lookup_insert_eq.
  - intros cu Hcu. rewrite Hcur, Hcu in Happ. lia.
  - subst d'. by rewrite Happ.
Qed.

(** ** Lemmas: queue operations *)

Lemma known_serial_run serial d fs :
  ∃ r fs', known_serial serial d fs = (r, d, fs').
Proof.
  unfold known_serial. case_bool_decide; [by eexists _, _|].
  unfold lift_db. db_unfold. destruct fs as [|[] fs]; simpl; by eexists _, _.
Qed.

Lemma known_serial_ok serial d :
  known_serial serial d [] =
    (Ok (bool_decide (serial = "*"%string ∨ serial ∈ devices d)), d, []).
Proof.
  unfold known_serial. case_bool_decide as Hs; [by rewrite bool_decide_true by by left|].
  unfold lift_db. db_unfold. do 3 f_equal. apply bool_decide_ext. tauto.
Qed.

Lemma Enqueue_wf now s sc n op key d fs r d' fs' :
  Enqueue now s sc n op key d fs = (r, d', fs') → queue_wf d → queue_wf d'.
Proof.
  intros H Hwf. unfold Enqueue in H.
  case_bool_decide; [by injection H as <- <- <-|].
  case_match; [by injection H as <- <- <-|].
  unfold mbind at 1, M_bind at 1 in H.
  destruct (known_serial_run s d fs) as (rb & fs1 & Hr). rewrite Hr in H. clear Hr fs.
  destruct rb as [b|]; [|by injection H as <- <- <-].
  destruct b; simpl in H; [|by injection H as <- <- <-].
  assert (∀ f, lift_db (stmt EDb f) d fs1 = (r, d', fs') → queue_wf (f d).2 → queue_wf d') as Hl.
  { intros f Hf Hw. unfold lift_db, stmt in Hf. destruct (f d) as [rf df] eqn:Hfd.
    destruct fs1 as [|[] fs1]; rewrite ?Hfd in Hf; destruct rf; by simplify_eq/=. }
  destruct key as [k|]; [|eapply Hl; [exact H|by apply queue_wf_plain]].
  case_bool_decide; [eapply Hl; [exact H|by apply queue_wf_plain]|]. clear Hl.
  pose proof (queue_wf_keyed now s sc n (Some op) k d Hwf) as Hik.
  unfold lift_db in H. db_unfold.
  destruct (attributed (Some op) (insert_keyed now s sc n (Some op) k) d) as [ri di] eqn:Hi. simpl in Hik.
  destruct fs1 as [|[] fs1]; rewrite ?Hi in H; simpl in H; [|by simplify_eq|];
    (destruct ri as [|[]]; simpl in H; [by simplify_eq|by simplify_eq| |by simplify_eq]);
    [|destruct fs1 as [|[] fs1]; simpl in H]; repeat case_match; by simplify_eq.
Qed.

Lemma refresh_fold_wf now op l acc : queue_wf acc.2 → queue_wf (foldl (refresh_one now op) acc l).2.
Proof.
  revert acc. induction l as [|s l IH]; intros acc Hwf; simpl; [done|]. apply IH.
  pose proof (queue_wf_insert_keyed now s PlaylistRefreshScript None op playlistRefreshKey
    acc.2 Hwf) as Hi. unfold refresh_one. by destruct (insert_keyed _ _ _ _ _ _ _) as [[] ?].
Qed.

Lemma refresh_fold_seq now op l acc : next_seq acc.2 ≤ next_seq (foldl (refresh_one now op) acc l).2.
Proof.
  revert acc. induction l as [|s l IH]; intros acc; simpl; [lia|]. etrans; [|apply IH].
  pose proof (insert_keyed_seq now s PlaylistRefreshScript None op playlistRefreshKey acc.2) as Hi.
  unfold refresh_one. destruct (insert_keyed _ _ _ _ _ _ _) as [[] ?]; simpl in *; lia.
Qed.

Lemma poll_spec_wf now serial q d d' o :
  poll_spec now serial q d = Some (d', o) → queue_wf d → queue_wf d'.
Proof.
  intros (d1 & applied & d2 & Ha & _ & Hadv & -> & _)%poll_spec_inv Hwf.
  apply auth_spec_inv in Ha as (? & ? & ? & ? & _ & _ & _ & _ & _ & _ & ->).
  apply queue_wf_mark. eapply queue_wf_advance; [exact Hadv|]. by eapply queue_wf_ext.
Qed.

Lemma pending_count_pos s k l c :
  c ∈ l → pending_key s k c = true → (1 ≤ pending_count s k l)%nat.
Proof.
  intros Hin Hp. unfold pending_count.
  assert (c ∈ List.filter (pending_key s k) l) as H by by apply elem_of_filter_bool.
  destruct (List.filter _ l); [by apply not_elem_of_nil in H|simpl; lia].
Qed.

(** The only row a key selects. *)
Lemma select_pending_unique serial key d c :
  queue_wf d → c ∈ command_queue d → pending_key serial key c = true →
  select_pending serial key d = Ok (seq c).
Proof.
  intros (_ & _ & Hp) Hin Hk. unfold select_pending. specialize (Hp serial key).
  unfold pending_count in Hp.
  assert (c ∈ List.filter (pending_key serial key) (command_queue d)) as H
    by by apply elem_of_filter_bool.
  destruct (List.filter _ _) as [|x [|y l]]; [by apply not_elem_of_nil in H| |simpl in Hp; lia].
  apply list_elem_of_singleton in H as <-. done.
Qed.

Lemma existsb_pending serial key l :
  existsb (pending_key serial key) l = true ↔ ∃ c, c ∈ l ∧ pending_key serial key c = true.
Proof.
  rewrite existsb_exists. split; intros (c & Hc & Hk); exists c;
    (split; [by apply list_elem_of_In|done]).
Qed.

(** A command [Enqueue] accepts, from an operator it can attribute it to. *)
Definition enqueueable (serial script : string) (op : Z) (d : db) : Prop :=
  script ≠ ""%string ∧ zlen (bytes_of_string script) ≤ ScriptMax ∧
  (serial = "*"%string ∨ serial ∈ devices d) ∧ op ∈ operators d.

Lemma Enqueue_keyed now serial script note op key d :
  enqueueable serial script op d → key ≠ ""%string →
  Enqueue now serial script note op (Some key) d [] =
  match insert_keyed now serial script note (Some op) key d with
  | (Ok n, d') => (Ok n, d', [])
  | (Err ENoRows, d') => (match select_pending serial key d' with
                          | Ok n => Ok n | Err e => Err (ErrDb e) end, d', [])
  | (Err e, d') => (Err (ErrDb e), d', [])
  end.
Proof.
  intros (Hs & Hl & Hd & Hop) Hk. unfold Enqueue. rewrite bool_decide_false by done.
  destruct (Z.ltb_spec ScriptMax (zlen (bytes_of_string script))); [lia|].
  unfold mbind at 1, M_bind at 1. rewrite known_serial_ok, bool_decide_true by done.
  unfold lift_db. db_unfold.
  simpl. rewrite bool_decide_false by done. unfold attributed, insert_keyed, op_known.
  rewrite (bool_decide_true (op ∈ operators d)) by done.
  destruct (existsb _ _); [|done]. simpl. done.
Qed.

(** ** Lemmas: draining the queue *)

Lemma foldl_min_sorted c l :
  Forall (λ x, seq c < seq x) l → foldl min_by_seq (Some c) l = Some c.
Proof.
  induction l as [|x l IH]; simpl; [done|]. intros [Hx Hl]%Forall_cons_1.
  destruct (Z.ltb_spec (seq x) (seq c)); [lia|auto].
Qed.

Lemma sorted_cons x l :
  StronglySorted Z.lt (seq <$> x :: l) →
  StronglySorted Z.lt (seq <$> l) ∧ Forall (λ y, seq x < seq y) l.
Proof. rewrite fmap_cons. intros [Hs Hx]%StronglySorted_inv. by rewrite Forall_fmap in Hx. Qed.

Lemma Forall_filter_bool {A} (P : A → Prop) p l : Forall P l → Forall P (List.filter p l).
Proof.
  rewrite !Forall_forall. intros H x [_ Hx]%elem_of_filter_bool. auto.
Qed.

Lemma next_command_sorted serial a l :
  StronglySorted Z.lt (seq <$> l) →
  next_command serial a l = head (List.filter (eligible serial a) l).
Proof.
  unfold next_command. induction l as [|x l IH]; [done|].
  intros [Hs Hx]%sorted_cons. cbn [List.filter].
  destruct (eligible serial a x); [|by apply IH].
  cbn [foldl min_by_seq head]. apply foldl_min_sorted, Forall_filter_bool, Hx.
Qed.

Lemma filter_eligible_step serial a c l :
  StronglySorted Z.lt (seq <$> l) → head (List.filter (eligible serial a) l) = Some c →
  List.filter (eligible serial a) l = c :: List.filter (eligible serial (seq c)) l.
Proof.
  assert (∀ x y : command, seq x ≤ seq y → eligible serial (seq y) x = false) as Hlow.
  { intros x y Hxy. unfold eligible. by rewrite (proj2 (Z.ltb_ge _ _)), andb_false_r by done. }
  induction l as [|x l IH]; [done|].
  intros [Hs Hx]%sorted_cons. cbn [List.filter].
  rewrite Forall_forall in Hx. destruct (eligible serial a x) eqn:Hex.
  - intros [= ->]. rewrite (Hlow c c) by lia.
    f_equal. apply filter_ext_in. intros y Hy%list_elem_of_In.
    specialize (Hx y Hy). simpl in Hx. unfold eligible in *.
    destruct (bool_decide _ || bool_decide _); simpl in *; [|done].
    apply Z.ltb_lt in Hex.
    by rewrite !(proj2 (Z.ltb_lt _ _)) by lia.
  - intros Hh. rewrite (IH Hs Hh). rewrite Hlow; [done|].
    assert (c ∈ l) as Hc.
    { destruct (List.filter _ _) as [|c' l'] eqn:Hf; [done|]. injection Hh as ->.
      apply (elem_of_filter_bool (eligible serial a)). rewrite Hf. left. }
    specialize (Hx c Hc). simpl in Hx. lia.
Qed.

Lemma filter_eligible_mark serial s n a l :
  List.filter (eligible serial a) (mark_row s n <$> l) =
  mark_row s n <$> List.filter (eligible serial a) l.
Proof.
  induction l as [|x l IH]; [done|]. rewrite fmap_cons. cbn [List.filter].
  rewrite eligible_mark. destruct (eligible serial a x); [by rewrite fmap_cons, IH|done].
Qed.

Lemma serve_mark s n c : serve (mark_row s n c) = serve c.
Proof. unfold serve. by destruct (mark_row_fields s n c) as (-> & _ & -> & _). Qed.

Lemma serve_inj c1 c2 : in_i64 (seq c1) → in_i64 (seq c2) → serve c1 = serve c2 →
  seq c1 = seq c2.
Proof.
  intros H1 H2 Hs. apply format_int_inj; [done|done|].
  exact (f_equal (λ r, match headers r with (_, v) :: _ => v | [] => ""%string end) Hs).
Qed.

Lemma not_refused_serve c : ¬ refused (Respond (serve c)).
Proof. unfold refused, serve, bare. intros [?|[?|?]]; simplify_eq. Qed.

(** One authentic poll: what a device at or past its cursor gets. *)
Lemma poll_step now serial q d d' o :
  queue_wf d → (∀ c, cursors d !! serial = Some c → applied_seq c ≤ parse_ack q) →
  poll_spec now serial q d = Some (d', o) →
  (∃ n, command_queue d' = mark_row serial n <$> command_queue d) ∧
  cursors d' !! serial = Some (MkCursor (parse_ack q) now) ∧
  o = match head (List.filter (eligible serial (parse_ack q)) (command_queue d)) with
      | Some c => Respond (serve c)
      | None => idle_outcome serial (parse_ack q) q
      end.
Proof.
  intros (Hs & _ & _) Hcur (d1 & ap & d2 & Ha & _ & Hadv & -> & Hge & Hc & _ & ->)%poll_spec_inv.
  apply auth_spec_inv in Ha as (? & ? & ? & ? & _ & _ & _ & _ & _ & _ & ->).
  unfold advance_cursor in Hadv. case_match; [done|]. apply Ok_pair_inv in Hadv as [Hap <-].
  assert (ap = parse_ack q) as ->.
  { simpl in Hap. destruct (cursors d !! serial) as [c0|] eqn:Hc0; [|done].
    specialize (Hcur _ eq_refl). lia. }
  split_and!; [by eexists|exact Hc|]. simpl.
  rewrite next_command_sorted.
  - rewrite filter_eligible_mark. by destruct (List.filter _ _); simpl; [|rewrite serve_mark].
  - rewrite <-list_fmap_compose. erewrite list_fmap_ext; [exact Hs|].
    intros i c _. apply mark_row_fields.
Qed.

(** The sequence number a device reads from the response and acknowledges. *)
Definition header_seq (r : response) : Z :=
  match headers r with (_, v) :: _ => (parse_int v 64).1 | [] => 0 end.

(** A device that acknowledges every command it is served and polls again
    until a poll has none: the responses it got. *)
Inductive drains (serial : string) : Z → db → list response → db → Prop :=
| drains_end d now q d' o :
    qget q "sn" = serial → handleC2 now q d [] = (Ok o, d', []) →
    (o = Respond (bare 204) ∨ ∃ budget, o = Hold serial (parse_ack q) budget) →
    drains serial (parse_ack q) d [] d'
| drains_next d now q d' r rs d'' :
    qget q "sn" = serial → handleC2 now q d [] = (Ok (Respond r), d', []) → status r = 200 →
    drains serial (header_seq r) d' rs d'' → drains serial (parse_ack q) d (r :: rs) d''.

(** ** Lemmas: re-key *)

#[local] Arguments rekey_ok : simpl never.

Section EcdsaLemmas.
Context (on_curve : bytes → bool) (verify_asn1 : bytes → bytes → bytes → bool).

Definition rekey_spec (now : Z) (sn : string) (req : rekey_req) (d : db) : option db :=
  a ← device_auth d !! sn;
  secret ← rekey_ok on_curve verify_asn1 now sn req
             (ecdsa_pubkey a, fst <$> c2_nonce d !! sn, default 0 (snd <$> c2_nonce d !! sn));
  Some (set_nonce (delete sn) (set_auth (alter (λ a,
    AuthRow (ecdsa_pubkey a) (Some secret) (session_epoch a + 1) 0 false (digits a) now) sn) d)).

Ltac stop := eexists _, _, _; (split; [reflexivity|]); first [by left|by right; auto].

Lemma rekey_body_run now sn req d fs :
  ∃ resp t' fs', rekey_body on_curve verify_asn1 now sn req (MkTx d d) fs = (Ok resp, t', fs') ∧
    ((resp = bare 204 ∧ rekey_spec now sn req d = Some (tx_committed t')) ∨
     (tx_committed t' = d ∧ (resp = bare 401 ∨ resp = bare 500))).
Proof.
  unfold rekey_body, rekey_spec. db_unfold.
  destruct fs as [|[] fs]; simpl; [|stop|];
    (destruct (device_auth d !! sn) as [a|]; simpl; [|stop]);
    (destruct (rekey_ok on_curve verify_asn1 now sn req _) as [secret|]; simpl; [|stop]); [stop|].
  destruct fs as [|[] fs]; simpl; [stop|stop|].
  destruct fs as [|[] fs]; simpl; [stop|stop|].
  destruct fs as [|[] fs]; simpl; stop.
Qed.

Lemma handleC2Rekey_run now sn req d fs :
  ∃ resp d' fs', handleC2Rekey on_curve verify_asn1 now sn req d fs = (Ok resp, d', fs') ∧
    ((resp = bare 204 ∧ ∃ rq, req = Some rq ∧ rekey_spec now sn rq d = Some d') ∨
     (d' = d ∧ (resp = bare 401 ∨ resp = bare 404 ∨ resp = bare 500))).
Proof.
  unfold handleC2Rekey. case_bool_decide as Hsn; [stop|]. destruct req as [req|]; [|stop].
  unfold mbind, M_bind, attempt, with_tx, mret, M_ret.
  destruct fs as [|[] fs]; simpl; [|stop|].
  - destruct (rekey_body_run now sn req d []) as (o & t' & fs' & -> & Hor).
    eexists _, _, _. split; [reflexivity|]. destruct Hor as [[-> ?]|[? [?|?]]]; [|by auto..]; left; eauto.
  - destruct (rekey_body_run now sn req d fs) as (o & t' & fs' & -> & Hor).
    eexists _, _, _. split; [reflexivity|]. destruct Hor as [[-> ?]|[? [?|?]]]; [|by auto..]; left; eauto.
Qed.

Lemma rekey_ok_inv now sn req pk stored issued secret :
  rekey_ok on_curve verify_asn1 now sn req (pk, stored, issued) = Some secret →
  ∃ p nonce sig, pk = Some p ∧ stored = Some nonce ∧
    hex_decode (bytes_of_string (r_nonce req)) = Some nonce ∧
    hex_decode (bytes_of_string (r_secret req)) = Some secret ∧
    hex_decode (bytes_of_string (r_sig req)) = Some sig ∧
    zlen secret = secretSize ∧ now - issued < nonceTTL ∧ zlen p = pubkeyLen ∧
    on_curve p = true ∧ verify_asn1 p (sha256 (rekeyMsg sn (r_nonce req) secret)) sig = true.
Proof.
  unfold rekey_ok. destruct (hex_decode (bytes_of_string (r_nonce req))) as [n|]; [|done].
  destruct (hex_decode (bytes_of_string (r_secret req))) as [s|]; [|done].
  destruct (hex_decode (bytes_of_string (r_sig req))) as [g|]; [|done].
  destruct pk as [p|]; [|done]. destruct stored as [st|]; [|done].
  destruct (_ && _) eqn:H; [|done]. intros Hs%(inj Some). subst s.
  rewrite !andb_true_iff in H.
  destruct H as [[[Hl%Z.eqb_eq ->%bool_decide_eq_true] Ht%Z.ltb_lt] Hv].
  unfold verifyRekeySig in Hv. destruct (Z.eqb_spec (zlen p) pubkeyLen); [|done].
  destruct (bool_decide _); [|done]. destruct (on_curve p) eqn:Hc; [|done]. simpl in Hv.
  eexists _, _, _. by split_and!.
Qed.
End EcdsaLemmas.

(** ** Every operation of the channel, as one transition *)

Inductive c2_step : db → db → Prop :=
| step_poll now q d fs r d' fs' : handleC2 now q d fs = (r, d', fs') → c2_step d d'
| step_challenge now sn random d fs r d' fs' :
    handleC2Challenge now sn random d fs = (r, d', fs') → c2_step d d'
| step_rekey on_curve verify_asn1 now sn req d fs r d' fs' :
    handleC2Rekey on_curve verify_asn1 now sn req d fs = (r, d', fs') → c2_step d d'
| step_enqueue now serial script note op key d fs r d' fs' :
    Enqueue now serial script note op key d fs = (r, d', fs') → c2_step d d'
| step_refresh now playlistID op d fs r d' fs' :
    EnqueuePlaylistRefresh now playlistID op d fs = (r, d', fs') → c2_step d d'.

Lemma rekey_spec_queue on_curve verify_asn1 now sn rq d d' :
  rekey_spec on_curve verify_asn1 now sn rq d = Some d' →
  command_queue d' = command_queue d ∧ next_seq d' = next_seq d.
Proof.
  unfold rekey_spec. destruct (device_auth d !! sn) as [a|]; [|done]. cbn [mbind option_bind].
  destruct (rekey_ok _ _ _ _ _ _); [|done]. intros H%(inj Some). by subst d'.
Qed.

Lemma challenge_run now sn random d fs :
  ∃ d' fs', handleC2Challenge now sn random d fs =
    (Ok (if bool_decide (sn = ""%string) then bare 404 else
         match random with
         | None => bare 500
         | Some nonce => Resp 200 [("Content-Type"%string, "application/json"%string)]
             (bytes_of_string "{" ++ [34] ++ bytes_of_string "nonce" ++ [34; 58; 34] ++
              hex_encode nonce ++ [34] ++ bytes_of_string "}" ++ [10])
         end), d', fs') ∧
    (d' = d ∨ ∃ nonce a pk, random = Some nonce ∧ device_auth d !! sn = Some a ∧
              ecdsa_pubkey a = Some pk ∧ d' = set_nonce (insert sn (nonce, now)) d).
Proof.
  unfold handleC2Challenge. case_bool_decide; [eexists _, _; split; [done|by left]|].
  destruct random as [nonce|]; [|eexists _, _; split; [done|by left]]. db_unfold.
  destruct fs as [|[] fs]; simpl; (eexists _, _; split; [reflexivity|]); [|by left|];
    (destruct (device_auth d !! sn) as [a|]; [|by left]);
    (case_bool_decide as Hp; [|by left]); destruct Hp as [pk Hp]; right; by exists nonce, a, pk.
Qed.

Lemma c2_step_wf d d' : c2_step d d' → queue_wf d → queue_wf d'.
Proof.
  intros Hstep Hwf. destruct Hstep as
    [now q d fs r d' fs' H|now sn rnd d fs r d' fs' H|oc va now sn rq d fs r d' fs' H
    |now s sc n op k d fs r d' fs' H|now p op d fs r d' fs' H].
  - destruct (handleC2_run now q d fs) as (o & d1 & f1 & Hr & [[_ Hp]|[-> _]]);
      rewrite H in Hr; injection Hr as -> -> ->; [by eapply poll_spec_wf|done].
  - destruct (challenge_run now sn rnd d fs) as (d1 & f1 & Hr & Hd).
    rewrite H in Hr. injection Hr as _ -> _.
    destruct Hd as [-> |(? & ? & ? & _ & _ & _ & ->)]; [done|by eapply queue_wf_ext].
  - destruct (handleC2Rekey_run oc va now sn rq d fs) as
      (o & d1 & f1 & Hr & [(_ & rq' & _ & Hp)|[-> _]]);
      rewrite H in Hr; injection Hr as -> -> ->; [|done].
    apply rekey_spec_queue in Hp as [? ?]. by eapply queue_wf_ext.
  - by eapply Enqueue_wf.
  - unfold EnqueuePlaylistRefresh in H. apply stmt_inv in H as [[_ ->]|H]; [done|].
    pose proof (refresh_fold_wf now op (bound_registered p d) (0, d) Hwf) as Hf.
    pose proof (refresh_fold_seq now op (bound_registered p d) (0, d)) as Hs.
    destruct (foldl _ _ _) as [n d2]. destruct (_ && _); injection H as _ <-; [|done].
    by apply queue_wf_rollback.
Qed.

(** ** Lemmas: accepted polls *)

Lemma handleC2_accepted now q d o d' fs' fs :
  handleC2 now q d fs = (Ok o, d', fs') → ¬ refused o →
  poll_spec now (qget q "sn") q d = Some (d', o).
Proof.
  intros H Hnr. destruct (handleC2_run now q d fs) as (o1 & d1 & fs1 & Hr & Hor).
  rewrite H in Hr. injection Hr as -> -> ->. by destruct Hor as [[_ ?]|[_ ?]].
Qed.

Lemma header_seq_serve c : in_i64 (seq c) → header_seq (serve c) = seq c.
Proof. intros Hc. unfold header_seq, serve. simpl. by rewrite parse_int_format_int. Qed.

(** ** Lemmas: keyed enqueue and the refresh fan-out *)

Lemma Enqueue_keyed_step now serial script note op key d :
  queue_wf d → enqueueable serial script op d → key ≠ ""%string →
  ∃ n d1, Enqueue now serial script note op (Some key) d [] = (Ok n, d1, []) ∧ queue_wf d1 ∧
    enqueueable serial script op d1 ∧
    (∃ c, c ∈ command_queue d1 ∧ pending_key serial key c = true ∧ seq c = n) ∧
    (existsb (pending_key serial key) (command_queue d) = true →
       command_queue d1 = command_queue d) ∧
    (existsb (pending_key serial key) (command_queue d) = false → n = next_seq d ∧
       command_queue d1 = command_queue d ++
         [MkCommand n serial script note (Some op) (Some key) false now]).
Proof.
  intros Hwf Hq Hk. rewrite Enqueue_keyed by done.
  pose proof (queue_wf_insert_keyed now serial script note (Some op) key d Hwf) as Hi.
  unfold insert_keyed in *. destruct (existsb _ _) eqn:He; simpl in Hi.
  - apply existsb_pending in He as (c & Hc & Hkc).
    rewrite (select_pending_unique serial key _ c) by done.
    eexists _, _. split_and!; [done|done|done|by exists c|done|done].
  - eexists _, _. split_and!; [done|done|done| |done|done].
    eexists. split; [apply elem_of_app; right; by left|]. split; [|done].
    unfold pending_key. simpl. by rewrite !bool_decide_true.
Qed.

Lemma insert_keyed_count now s sc n op k d :
  (insert_keyed now s sc n op k d).1 =
    (if existsb (pending_key s k) (command_queue d) then Err ENoRows else Ok (next_seq d)) ∧
  command_queue (insert_keyed now s sc n op k d).2 = command_queue d ++
    (if existsb (pending_key s k) (command_queue d) then []
     else [MkCommand (next_seq d) s sc n op (Some k) false now]).
Proof. unfold insert_keyed. destruct (existsb _ _); simpl; [by rewrite app_nil_r|done]. Qed.

Lemma insert_keyed_rest now s sc n op k d :
  devices (insert_keyed now s sc n op k d).2 = devices d ∧
  playlist_binding (insert_keyed now s sc n op k d).2 = playlist_binding d.
Proof. unfold insert_keyed. by destruct (existsb _ _). Qed.

Lemma pending_count_existsb s k l :
  existsb (pending_key s k) l = bool_decide (pending_count s k l ≠ 0%nat).
Proof.
  unfold pending_count. induction l as [|c l IH]; simpl; [done|].
  destruct (pending_key s k c); simpl; [done|apply IH].
Qed.

Lemma refresh_fold now op l n d :
  queue_wf d →
  ∃ n' d', foldl (refresh_one now op) (n, d) l = (n', d') ∧ queue_wf d' ∧
    zlen (command_queue d') = zlen (command_queue d) + (n' - n) ∧
    (∀ s, pending_count s playlistRefreshKey (command_queue d') =
       if bool_decide (s ∈ l) then 1%nat
       else pending_count s playlistRefreshKey (command_queue d)) ∧
    devices d' = devices d ∧ playlist_binding d' = playlist_binding d ∧ True.
Proof.
  revert n d. induction l as [|x l IH]; intros n d Hwf; cbn [foldl].
  { eexists _, _. split_and!; [done|done|lia|done..]. }
  pose proof (queue_wf_insert_keyed now x PlaylistRefreshScript None op playlistRefreshKey d Hwf)
    as Hwf1.
  destruct (insert_keyed_count now x PlaylistRefreshScript None op playlistRefreshKey d) as [Hr Hq].
  destruct (insert_keyed_rest now x PlaylistRefreshScript None op playlistRefreshKey d) as [Hd Hb].
  unfold refresh_one at 2. simpl.
  destruct (insert_keyed _ _ _ _ _ _ d) as [r d1]. simpl in *.
  set (n1 := match r with Ok _ => n + 1 | Err _ => n end).
  replace (match r with Ok _ => (n + 1, d1) | Err _ => (n, d1) end) with (n1, d1)
    by (unfold n1; by destruct r).
  destruct (IH n1 d1 Hwf1) as (n' & d' & Hf & Hwf' & Hlen & Hc & Hdev & Hbd & _).
  exists n', d'. split_and!; [done|done| | |congruence|congruence|done].
  - rewrite Hlen, Hq, zlen_app. unfold n1. rewrite Hr.
    destruct (existsb _ _); rewrite ?zlen_cons; change (zlen (@nil command)) with 0; lia.
  - intros s. rewrite Hc. case_bool_decide as Hs; [by rewrite bool_decide_true by by right|].
    rewrite Hq, pending_count_app, pending_count_existsb.
    pose proof (proj2 (proj2 Hwf) x playlistRefreshKey) as Hle.
    destruct (decide (s = x)) as [->|Hne].
    + rewrite (bool_decide_true (x ∈ x :: l)) by left.
      case_bool_decide as Hz; [unfold pending_count at 2; simpl; lia|].
      destruct (pending_count x _ _) as [|]; [|lia]. unfold pending_count; simpl.
      unfold pending_key. simpl. by rewrite !bool_decide_true.
    + rewrite (bool_decide_false (s ∈ x :: l))
        by (intros [?|?]%elem_of_cons; done).
      case_bool_decide as Hz; [unfold pending_count at 2; simpl; lia|].
      unfold pending_count at 2. simpl. unfold pending_key. simpl.
      rewrite (bool_decide_false (x = s)) by congruence. simpl. lia.
Qed.

Lemma refresh_fold_done now op l n d :
  (∀ s, s ∈ l → pending_count s playlistRefreshKey (command_queue d) = 1%nat) →
  ∃ d', foldl (refresh_one now op) (n, d) l = (n, d') ∧ command_queue d' = command_queue d.
Proof.
  revert d. induction l as [|x l IH]; intros d Hp; cbn [foldl]; [by eauto|].
  destruct (insert_keyed_count now x PlaylistRefreshScript None op playlistRefreshKey d) as [Hr Hq].
  rewrite pending_count_existsb, Hp, bool_decide_true in Hr, Hq by (done || left).
  unfold refresh_one at 2. simpl. destruct (insert_keyed _ _ _ _ _ _ d) as [r d1]. simpl in *.
  subst r. rewrite app_nil_r in Hq.
  destruct (IH d1) as (d' & Hf & Hq'); [intros s Hs; rewrite Hq; apply Hp; by right|].
  exists d'. split; [done|congruence].
Qed.

(** ** Properties *)

(** C1. Every poll, under every fault schedule of its database, either performs
    exactly the specified transition (advance the session, advance the cursor,
    mark applied rows, serve the lowest pending command) or changes nothing
    and answers 401, 404 or 500; without faults it is the specification. *)
Theorem handleC2_refines_spec now q d fs :
  ∃ o d' fs', handleC2 now q d fs = (Ok o, d', fs') ∧
    ((qget q "sn" ≠ ""%string ∧ poll_spec now (qget q "sn") q d = Some (d', o)) ∨
     (d' = d ∧ refused o)) ∧
    (qget q "sn" ≠ ""%string → fs = [] →
     (o, d') = match poll_spec now (qget q "sn") q d with
               | Some (d2, o2) => (o2, d2)
               | None => (Respond (bare (refusal_code now (qget q "sn") q d)), d)
               end).
Proof.
  destruct (handleC2_run now q d fs) as (o & d' & fs' & Hr & Hor).
  exists o, d', fs'. split_and!; [done|done|]. intros Hsn ->.
  rewrite handleC2_no_faults in Hr by done.
  destruct (poll_spec _ _ _ _) as [[d2 o2]|]; by simplify_eq.
Qed.

(** A poll that changes anything carried the one-time code of a counter
    inside the device's forward window; it touches only that device's session
    row and cursor, moves the cursor forward, and otherwise only marks rows of
    the queue applied. *)
Theorem handleC2_safety now q d fs r d' fs' :
  handleC2 now q d fs = (r, d', fs') → d' ≠ d →
  let serial := qget q "sn" in
  (∃ a k c otp, device_auth d !! serial = Some a ∧ session_secret a = Some k ∧
     parse_uint (qget q "c") 64 = (c, None) ∧ parse_uint (qget q "otp") 32 = (otp, None) ∧
     HOTP k c (digitsOr8 (digits a)) = Some (u32 otp) ∧
     (if session_bootstrapped a
      then u64 (session_last_counter a) < c ∧
           c ≤ u64 (u64 (session_last_counter a) + authWindowFar)
      else c ≤ authWindowFar)) ∧
  (∀ s, s ≠ serial → device_auth d' !! s = device_auth d !! s ∧ cursors d' !! s = cursors d !! s) ∧
  (∃ c', cursors d' !! serial = Some c' ∧ parse_ack q ≤ applied_seq c' ∧
     ∀ c, cursors d !! serial = Some c → applied_seq c ≤ applied_seq c') ∧
  c2_nonce d' = c2_nonce d ∧ devices d' = devices d ∧ next_seq d' = next_seq d ∧
  (∃ n, command_queue d' = mark_row serial n <$> command_queue d).
Proof.
  intros H Hne serial.
  destruct (handleC2_run now q d fs) as (o & d2 & fs2 & Hr & [[_ Hp]|[-> _]]);
    rewrite H in Hr; injection Hr as -> -> ->; [|done].
  apply poll_spec_inv in Hp as (d1 & ap & d3 & Ha & Hin & Hadv & -> & Hge & Hc & Hmono & _).
  apply auth_spec_inv in Ha as (c & otp & a & k & Hpc & Hpo & Hrow & Hk & HH & Hw & ->).
  unfold advance_cursor in Hadv. case_match; [done|]. apply Ok_pair_inv in Hadv as [Hap <-].
  split_and!; try done.
  - by exists a, k, c, otp.
  - intros s Hs. cbn. by rewrite lookup_alter_ne, lookup_insert_ne by done.
  - by eexists.
  - by exists ap.
Qed.

(** C8. A one-time code is accepted once: after a poll that was not refused,
    every later request of that device with the same or an older counter is
    refused and changes nothing. *)
Theorem handleC2_no_replay now q d fs o d' fs' a :
  handleC2 now q d fs = (Ok o, d', fs') → ¬ refused o →
  device_auth d !! qget q "sn" = Some a →
  0 ≤ session_last_counter a ≤ max_i64 - authWindowFar →
  ∀ now2 q2 fs2, qget q2 "sn" = qget q "sn" →
    0 ≤ (parse_uint (qget q2 "c") 64).1 ≤ (parse_uint (qget q "c") 64).1 →
    ∃ o2 fs2', handleC2 now2 q2 d' fs2 = (Ok o2, d', fs2') ∧ refused o2.
Proof.
  intros H Hnr Hrow Hlast now2 q2 fs2 Hsn Hc.
  destruct (handleC2_run now q d fs) as (o1 & d1 & fs1 & Hr & Hor).
  rewrite H in Hr. injection Hr as -> -> ->. destruct Hor as [[_ Hp]|[_ ?]]; [|done].
  apply poll_spec_inv in Hp as (d1' & ap & d3 & Ha & Hin & Hadv & -> & _).
  apply auth_spec_inv in Ha as (c & otp & a' & k & Hpc & _ & Hrow' & _ & _ & Hw & ->).
  rewrite Hrow in Hrow'. injection Hrow' as <-.
  unfold advance_cursor in Hadv. case_match; [done|]. apply Ok_pair_inv in Hadv as [_ <-].
  rewrite Hpc in Hc. simpl in Hc.
  assert (c ≤ max_i64) as Hcmax.
  { unfold max_i64, authWindowFar, u64 in *.
    destruct (session_bootstrapped a); [rewrite (Z.mod_small (session_last_counter a)) in Hw by lia|];
    rewrite ?Z.mod_small in Hw by lia; lia. }
  set (dm := mark_applied _ _ _).
  destruct (handleC2_run now2 q2 dm fs2) as (o2 & d2 & fs2' & Hr2 & [[_ Hp2]|[-> Href]]);
    [|by eauto].
  exfalso. rewrite Hsn in Hp2.
  apply poll_spec_inv in Hp2 as (d4 & ? & ? & Ha2 & _).
  apply auth_spec_inv in Ha2 as (c2 & otp2 & a2 & k2 & Hpc2 & _ & Hrow2 & _ & _ & Hw2 & _).
  rewrite Hpc2 in Hc. simpl in Hc. cbn in Hrow2. rewrite lookup_alter_eq, Hrow in Hrow2.
  injection Hrow2 as <-. simpl in Hw2.
  rewrite i64_small in Hw2 by (unfold in_i64, min_i64; lia).
  rewrite u64_small in Hw2 by (unfold max_i64 in Hcmax; lia). lia.
Qed.

(** C4. A device that acknowledges what it is served and polls until it is
    idle receives every command addressed to it or to all devices past its
    cursor, each once, in queue order. *)
Theorem drains_delivers serial ack d rs d' :
  drains serial ack d rs d' → queue_wf d → Forall (λ c, in_i64 (seq c)) (command_queue d) →
  (∀ c, cursors d !! serial = Some c → applied_seq c ≤ ack) →
  rs = serve <$> List.filter (eligible serial ack) (command_queue d).
Proof.
  intros H. induction H as [d now q d' o Hsn Hr Ho|d now q d' r rs d'' Hsn Hr Hst _ IH];
    intros Hwf Hrange Hcur.
  - assert (¬ refused o) as Hnr.
    { unfold refused, bare. destruct Ho as [-> |[? ->]]; intros [?|[?|?]]; simplify_eq. }
    apply handleC2_accepted in Hr; [|done]. rewrite Hsn in Hr.
    apply poll_step in Hr as (_ & _ & Hm); [|done|done].
    destruct (List.filter _ _) as [|c l]; [done|]. simpl in Hm. subst o.
    unfold serve, bare in Ho. by destruct Ho as [?|[? ?]]; simplify_eq.
  - assert (¬ refused (Respond r)) as Hnr.
    { unfold refused, bare. intros [?|[?|?]]; simplify_eq/=. }
    apply handleC2_accepted in Hr; [|done]. rewrite Hsn in Hr.
    pose proof (poll_spec_wf _ _ _ _ _ _ Hr Hwf) as Hwf'.
    apply poll_step in Hr as ((n & Hq) & Hc & Hm); [|done|done].
    destruct (head _) as [c|] eqn:Hhd in Hm.
    2: { unfold idle_outcome, bare in Hm. case_match; simplify_eq/=. }
    injection Hm as ->.
    assert (c ∈ command_queue d ∧ parse_ack q < seq c) as [Hin Hlt].
    { assert (c ∈ List.filter (eligible serial (parse_ack q)) (command_queue d)) as Hf
        by (destruct (List.filter _ _); simplify_eq/=; left).
      apply elem_of_filter_bool in Hf as [He Hf]. split; [done|].
      by apply andb_prop in He as [_ ?%Z.ltb_lt]. }
    rewrite header_seq_serve in IH by (by rewrite Forall_forall in Hrange; apply Hrange).
    rewrite (filter_eligible_step serial (parse_ack q) c); [|by destruct Hwf|done].
    rewrite fmap_cons. f_equal. rewrite IH; [|done| |].
    + rewrite Hq, filter_eligible_mark, <-list_fmap_compose.
      apply list_fmap_ext. intros i x _. apply serve_mark.
    + rewrite Hq. apply Forall_fmap. eapply Forall_impl; [exact Hrange|]. intros x Hx. simpl.
      by rewrite (proj1 (mark_row_fields serial n x)).
    + intros c' Hc'. rewrite Hc in Hc'. injection Hc' as <-. simpl. lia.
Qed.

(** Whatever the devices, the operators and the faults do, the queue keeps
    increasing sequence numbers and at most one pending command per target
    and idempotency key. *)
Theorem c2_queue_invariant d d' :
  rtc c2_step d d' → queue_wf d → queue_wf d'.
Proof. induction 1 as [|d d1 d' Hs _ IH]; eauto using c2_step_wf. Qed.

(** A keyed enqueue is idempotent while its command is pending: the retry
    returns the same sequence number and adds no row; once the device has
    acknowledged that number the key is free again and a new row is queued. *)
Theorem Enqueue_idempotent now now2 serial script note op key d :
  queue_wf d → enqueueable serial script op d → key ≠ ""%string →
  ∃ n d1 d2, Enqueue now serial script note op (Some key) d [] = (Ok n, d1, []) ∧
    Enqueue now2 serial script note op (Some key) d1 [] = (Ok n, d2, []) ∧
    command_queue d2 = command_queue d1 ∧ pending_count serial key (command_queue d1) = 1%nat ∧
    ∃ n' d3, Enqueue now2 serial script note op (Some key) (mark_applied serial n d2) []
        = (Ok n', d3, []) ∧ n < n' ∧
      command_queue d3 = (mark_row serial n <$> command_queue d1) ++
        [MkCommand n' serial script note (Some op) (Some key) false now2].
Proof.
  intros Hwf Hq Hk.
  destruct (Enqueue_keyed_step now serial script note op key d)
    as (n & d1 & H1 & Hwf1 & Hq1 & (c & Hc & Hkc & Hsc) & _); [done..|].
  destruct (Enqueue_keyed_step now2 serial script note op key d1)
    as (n2 & d2 & H2 & Hwf2 & Hq2 & (c2 & Hc2 & Hkc2 & Hsc2) & Hold & _); [done..|].
  assert (command_queue d2 = command_queue d1) as Hsame by (apply Hold, existsb_pending; eauto).
  assert (n2 = n) as ->.
  { rewrite Hsame in Hc2. pose proof (select_pending_unique _ _ _ _ Hwf1 Hc Hkc) as S1.
    pose proof (select_pending_unique _ _ _ _ Hwf1 Hc2 Hkc2) as S2. congruence. }
  exists n, d1, d2. split_and!; [done..| |].
  { pose proof (pending_count_pos _ _ _ _ Hc Hkc). destruct Hwf1 as (_ & _ & Hp).
    specialize (Hp serial key). lia. }
  destruct (Enqueue_keyed_step now2 serial script note op key (mark_applied serial n d2))
    as (n3 & d3 & H3 & _ & _ & _ & _ & Hnew); [by apply queue_wf_mark|done|done|].
  assert (existsb (pending_key serial key) (command_queue (mark_applied serial n d2)) = false)
    as Hfree.
  { apply not_true_iff_false. rewrite existsb_pending. intros (x & Hx & Hkx).
    simpl in Hx. apply list_elem_of_fmap in Hx as (y & -> & Hy).
    pose proof (pending_mark _ _ _ _ _ Hkx) as Hky.
    pose proof (select_pending_unique _ _ _ _ Hwf2 Hy Hky) as S1.
    rewrite <-Hsame in Hc. pose proof (select_pending_unique _ _ _ _ Hwf2 Hc Hkc) as S2.
    assert (seq y = n) as Hsy by congruence. revert Hkx Hky. clear -Hsy.
    unfold mark_row, pending_key. rewrite Hsy, Z.leb_refl. intros Hkx Hky.
    rewrite !andb_true_iff in Hky. destruct Hky as [[Ht Hi] Ha].
    apply bool_decide_eq_true in Hi as Hi'.
    rewrite Ht, Ha, Hi' in Hkx. simpl in Hkx. by rewrite andb_false_r in Hkx. }
  destruct (Hnew Hfree) as [Hn3 Hq3]. simpl in Hn3.
  exists n3, d3. split_and!; [done| |by rewrite Hq3; simpl; rewrite Hsame].
  destruct Hwf2 as (_ & Hlt & _). rewrite Forall_forall in Hlt.
  rewrite Hsame in Hlt. specialize (Hlt c Hc). lia.
Qed.

(** The playlist refresh leaves exactly one pending refresh on every
    registered device bound to the playlist and none on any other that had
    none, counts the rows it inserted, and a second call inserts nothing. *)
Theorem EnqueuePlaylistRefresh_once now now2 playlistID op op2 d :
  queue_wf d → op_known op d = true →
  ∃ n d1 d2, EnqueuePlaylistRefresh now playlistID op d [] = (Ok n, d1, []) ∧
    EnqueuePlaylistRefresh now2 playlistID op2 d1 [] = (Ok 0, d2, []) ∧
    command_queue d2 = command_queue d1 ∧
    zlen (command_queue d1) = zlen (command_queue d) + n ∧
    ∀ s, pending_count s playlistRefreshKey (command_queue d1) =
      if bool_decide (s ∈ bound_registered playlistID d) then 1%nat
      else pending_count s playlistRefreshKey (command_queue d).
Proof.
  intros Hwf Hop. unfold EnqueuePlaylistRefresh, stmt. rewrite Hop.
  destruct (refresh_fold now op (bound_registered playlistID d) 0 d Hwf)
    as (n & d1 & Hf & Hwf1 & Hlen & Hcount & Hrest).
  destruct (refresh_fold_done now2 op2 (bound_registered playlistID d1) 0 d1)
    as (d2 & Hf2 & Hq2).
  { intros s. rewrite Hcount. unfold bound_registered at 1. destruct Hrest as (-> & -> & _).
    intros Hin. by rewrite bool_decide_true. }
  exists n, d1, d2. rewrite Hf, Hf2, andb_false_r. split_and!; [done|done|done|lia|done].
Qed.


(** A re-key answers 204 only when the request's signature verifies under
    the device's key over the stored, unexpired nonce and the new secret; it
    then installs that secret with a fresh counter and burns the nonce, so no
    later request succeeds until another challenge. Otherwise nothing changes. *)
Theorem rekey_authentic on_curve verify_asn1 now sn req d fs :
  ∃ resp d' fs', handleC2Rekey on_curve verify_asn1 now sn req d fs = (Ok resp, d', fs') ∧
    (resp ≠ bare 204 → d' = d) ∧
    (resp = bare 204 →
       (∃ rq a pk nonce issued secret sig, req = Some rq ∧ device_auth d !! sn = Some a ∧
          ecdsa_pubkey a = Some pk ∧ c2_nonce d !! sn = Some (nonce, issued) ∧
          now - issued < nonceTTL ∧ hex_decode (bytes_of_string (r_nonce rq)) = Some nonce ∧
          hex_decode (bytes_of_string (r_secret rq)) = Some secret ∧ zlen secret = secretSize ∧
          hex_decode (bytes_of_string (r_sig rq)) = Some sig ∧
          verify_asn1 pk (sha256 (rekeyMsg sn (r_nonce rq) secret)) sig = true ∧
          device_auth d' = <[sn := AuthRow (ecdsa_pubkey a) (Some secret) (session_epoch a + 1)
                                     0 false (digits a) now]> (device_auth d) ∧
          c2_nonce d' = delete sn (c2_nonce d) ∧ cursors d' = cursors d ∧
          command_queue d' = command_queue d) ∧
       ∀ now2 req2 fs2, ∃ resp2 fs2',
         handleC2Rekey on_curve verify_asn1 now2 sn req2 d' fs2 = (Ok resp2, d', fs2') ∧
         resp2 ≠ bare 204).
Proof.
  destruct (handleC2Rekey_run on_curve verify_asn1 now sn req d fs)
    as (resp & d' & fs' & Hr & Hor). exists resp, d', fs'. split; [done|].
  destruct Hor as [(-> & rq & -> & Hs)|[-> Hno]].
  2: { split; [done|]. intros ->. destruct Hno as [?|[?|?]]; simplify_eq. }
  split; [done|]. intros _. unfold rekey_spec in Hs.
  destruct (device_auth d !! sn) as [a|] eqn:Ha; [|done]. cbn [mbind option_bind] in Hs.
  destruct (rekey_ok _ _ _ _ _ _) as [secret|] eqn:Hok; [|done].
  cbn [mbind option_bind] in Hs. apply (inj Some) in Hs as <-.
  apply rekey_ok_inv in Hok as
    (pk & nonce & sig & Hpk & Hn & Hhn & Hhs & Hsig & Hlen & Hnow & _ & _ & Hv).
  destruct (c2_nonce d !! sn) as [[nc issued]|] eqn:Hnc; [|done]. simpl in Hn, Hnow.
  injection Hn as ->. split.
  - exists rq, a, pk, nonce, issued, secret, sig. split_and!; try done.
    apply map_eq. intros s. destruct (decide (s = sn)) as [->|Hne]; simpl.
    + by rewrite lookup_alter_eq, lookup_insert_eq, Ha.
    + by rewrite lookup_alter_ne, lookup_insert_ne by done.
  - intros now2 req2 fs2. set (d2 := set_nonce _ _).
    destruct (handleC2Rekey_run on_curve verify_asn1 now2 sn req2 d2 fs2)
      as (resp2 & d3 & fs2' & Hr2 & [(_ & rq2 & _ & Hs2)|[-> Hno]]).
    + exfalso. unfold rekey_spec, d2 in Hs2. simpl in Hs2.
      rewrite lookup_alter_eq, lookup_delete_eq, Ha in Hs2. simpl in Hs2.
      destruct (rekey_ok _ _ _ _ _ _) eqn:Hok2; [|done].
      by apply rekey_ok_inv in Hok2 as (? & ? & ? & _ & ? & _).
    + exists resp2, fs2'. split; [done|]. intros ->. destruct Hno as [?|[?|?]]; simplify_eq.
Qed.

(** The challenge does not tell bonded devices from unknown ones: its
    answer is a function of the request and the random bytes alone, whatever
    the tables and the faults; a nonce is stored only for a device that has a
    public key. *)
Theorem challenge_uniform sn random :
  ∃ resp, ∀ now d fs, ∃ d' fs', handleC2Challenge now sn random d fs = (Ok resp, d', fs') ∧
    (d' = d ∨ ∃ nonce a pk, random = Some nonce ∧ device_auth d !! sn = Some a ∧
              ecdsa_pubkey a = Some pk ∧ d' = set_nonce (insert sn (nonce, now)) d).
Proof. eexists. intros now d fs. apply challenge_run. Qed.

(** ** Concrete instances *)

Definition ex_row : auth_row := AuthRow None (Some rfc4226_secret) 1 0 true 6 0.
Definition ex_cmds : list command :=
  [MkCommand 1 "p1" "led()" None (Some 7) (Some "k"%string) false 0;
   MkCommand 2 "p2" "led()" None (Some 7) None false 0;
   MkCommand 3 "*" "refresh()" None None None false 0].
Definition ex_db : db :=
  MkDb {["p1"%string; "p2"%string]} {["p1"%string := ex_row]} ∅ ∅ ex_cmds 4
    {["p1"%string := 5; "p2"%string := 5; "p3"%string := 5]} {[7]}.
Definition ex_query (c otp ack : string) : query_params :=
  list_to_map [("sn"%string, ["p1"%string]); ("c"%string, [c]); ("otp"%string, [otp]);
               ("ack"%string, [ack])].
Definition ex_poll (c otp ack : string) (d : db) : result db_err outcome * db * list bool :=
  handleC2 10 (ex_query c otp ack) d [].
Definition ex_d1 : db := (ex_poll "1" "287082" "0" ex_db).1.2.
Definition ex_d2 : db := (ex_poll "2" "359152" "1" ex_d1).1.2.
Definition ex_d3 : db := (ex_poll "3" "969429" "3" ex_d2).1.2.

Lemma ex_wf : queue_wf ex_db.
Proof.
  split_and!; [repeat constructor..|]. intros s k. unfold pending_count, pending_key. simpl.
  repeat case_bool_decide; simplify_eq; simpl; lia.
Qed.

Lemma handleC2_safety_witness :
  ex_poll "1" "287082" "0" ex_db = (Ok (Respond (serve (MkCommand 1 "p1" "led()" None (Some 7)
    (Some "k"%string) false 0))), ex_d1, []) ∧
  ∃ c', cursors ex_d1 !! "p1"%string = Some c' ∧ 0 ≤ applied_seq c'.
Proof.
  assert (ex_poll "1" "287082" "0" ex_db = (Ok (Respond (serve (MkCommand 1 "p1" "led()" None
    (Some 7) (Some "k"%string) false 0))), ex_d1, [])) as H by (vm_compute; reflexivity).
  split; [exact H|].
  destruct (handleC2_safety _ _ _ _ _ _ _ H) as (_ & _ & (c' & Hc & Hle & _) & _).
  - intros Hd. apply (f_equal (λ d, cursors d !! "p1"%string)) in Hd. vm_compute in Hd. done.
  - exists c'. split; [exact Hc|exact Hle].
Defined.

Lemma handleC2_no_replay_witness :
  ∃ o2 fs2', handleC2 20 (ex_query "1" "287082" "1") ex_d1 [] = (Ok o2, ex_d1, fs2') ∧ refused o2.
Proof.
  eapply (handleC2_no_replay 10 (ex_query "1" "287082" "0") ex_db [] _ ex_d1 [] ex_row).
  - vm_compute. reflexivity.
  - intros [?|[?|?]]; simplify_eq.
  - vm_compute. reflexivity.
  - vm_compute. by split.
  - vm_compute. reflexivity.
  - vm_compute. by split.
Defined.

Lemma drains_delivers_witness :
  drains "p1" 0 ex_db [serve (MkCommand 1 "p1" "led()" None None None false 0);
                       serve (MkCommand 3 "*" "refresh()" None None None false 0)] ex_d3 ∧
  [serve (MkCommand 1 "p1" "led()" None None None false 0);
   serve (MkCommand 3 "*" "refresh()" None None None false 0)] =
  serve <$> List.filter (eligible "p1" 0) (command_queue ex_db).
Proof.
  assert (drains "p1" 0 ex_db [serve (MkCommand 1 "p1" "led()" None None None false 0);
                       serve (MkCommand 3 "*" "refresh()" None None None false 0)] ex_d3) as H.
  { apply (drains_next "p1" ex_db 10 (ex_query "1" "287082" "0") ex_d1);
      [vm_compute; reflexivity..|].
    apply (drains_next "p1" ex_d1 10 (ex_query "2" "359152" "1") ex_d2);
      [vm_compute; reflexivity..|].
    apply (drains_end "p1" ex_d2 10 (ex_query "3" "969429" "3") ex_d3 (Respond (bare 204)));
      [vm_compute; reflexivity..|by left]. }
  split; [exact H|]. apply (drains_delivers _ _ _ _ _ H).
  - apply ex_wf.
  - repeat constructor; vm_compute; done.
  - intros c Hc. vm_compute in Hc. done.
Defined.

Lemma c2_queue_invariant_witness : queue_wf ex_d1.
Proof.
  apply (c2_queue_invariant ex_db); [|apply ex_wf].
  eapply rtc_l; [|apply rtc_refl].
  apply (step_poll 10 (ex_query "1" "287082" "0") ex_db [] (Ok (Respond (serve (MkCommand 1 "p1"
    "led()" None (Some 7) (Some "k"%string) false 0)))) ex_d1 []).
  vm_compute. reflexivity.
Defined.

Lemma Enqueue_idempotent_witness :
  ∃ n d1, Enqueue 5 "p1" "led()" None 7 (Some "fresh"%string) ex_db [] = (Ok n, d1, []) ∧
    pending_count "p1" "fresh" (command_queue d1) = 1%nat.
Proof.
  destruct (Enqueue_idempotent 5 6 "p1" "led()" None 7 "fresh" ex_db) as (n & d1 & _ & H & _ & _ & Hp & _).
  - apply ex_wf.
  - split; [done|]. split; [vm_compute; done|]. split; [right|]; by vm_compute.
  - done.
  - exists n, d1. split; [exact H|exact Hp].
Defined.

Lemma EnqueuePlaylistRefresh_once_witness :
  ∃ d1, EnqueuePlaylistRefresh 5 5 (Some 7) ex_db [] = (Ok 2, d1, []) ∧
    zlen (command_queue d1) = 5.
Proof.
  destruct (EnqueuePlaylistRefresh_once 5 6 5 (Some 7) None ex_db ex_wf eq_refl)
    as (n & d1 & _ & H & _ & _ & Hlen & _).
  assert ((EnqueuePlaylistRefresh 5 5 (Some 7) ex_db []).1.1 = Ok 2) as H2
    by (vm_compute; reflexivity).
  rewrite H in H2. injection H2 as ->. exists d1. split; [exact H|exact Hlen].
Defined.

End C2.
