(* ===== verification/C2Notify.v ===== *)
(** * The long poll and its wake-up hub ([internal/ingestcore] c2LongPoll,
      c2notify)

    One LISTEN connection turns queue inserts into broadcasts; a held poll
    grabs the current channel, queries the queue and sleeps until that channel
    is closed. Handlers, inserts and the listener interleave: a step relation.
    A channel is the number of the broadcast that closes it, so channel [g] is
    closed when [g < generation]. *)

From S2P Require Import Prelude GoLib Db C2.
Import GoLib C2.

Module C2Notify.

(** ** State *)

Inductive phase :=
| LoopTop                 (* about to call [notifier.wait()] *)
| Querying (wake : nat)   (* holds a channel, about to query *)
| Selecting (wake : nat)  (* query found nothing, blocked in [select] *)
| Done (r : option response). (* returned; [None] when the client left *)

Record handler := MkHandler { h_serial : string; h_applied : Z; h_phase : phase }.

Record hub := MkHub {
  queue : list command;
  generation : nat;       (* broadcasts so far: the current channel *)
  notifications : nat;    (* delivered to the LISTEN connection, not yet read *)
  listening : bool;
  dropped : bool;         (* ghost: the connection failed at least once *)
  handlers : gmap nat handler }.

Definition set_phase (i : nat) (p : phase) (s : hub) : hub :=
  MkHub (queue s) (generation s) (notifications s) (listening s) (dropped s)
    (alter (λ h, MkHandler (h_serial h) (h_applied h) p) i (handlers s)).

(** [broadcast]: close the channel, install a fresh one. *)
Definition broadcast (s : hub) : hub :=
  MkHub (queue s) (S (generation s)) (Nat.pred (notifications s)) (listening s) (dropped s)
    (handlers s).

(** An insert into command_queue; its trigger notifies a listening session. *)
Definition insert_command (c : command) (s : hub) : hub :=
  MkHub (queue s ++ [c]) (generation s)
    (if listening s then S (notifications s) else notifications s)
    (listening s) (dropped s || negb (listening s)) (handlers s).

Definition listen_fail (s : hub) : hub :=
  MkHub (queue s) (generation s) 0 false true (handlers s).
Definition listen_start (s : hub) : hub :=
  MkHub (queue s) (generation s) (notifications s) true (dropped s) (handlers s).

(** One poll handed to [c2LongPoll]. *)
Definition hold (i : nat) (serial : string) (applied : Z) (s : hub) : hub :=
  MkHub (queue s) (generation s) (notifications s) (listening s) (dropped s)
    (<[i := MkHandler serial applied LoopTop]> (handlers s)).

(** What the query of the loop does next. *)
Definition after_query (h : handler) (wake : nat) (q : list command) : phase :=
  match next_command (h_serial h) (h_applied h) q with
  | Some c => Done (Some (serve c))
  | None => Selecting wake
  end.

(** ** Steps *)

Inductive step : hub → hub → Prop :=
| step_insert c s : step s (insert_command c s)
| step_notify s : listening s = true → (0 < notifications s)%nat → step s (broadcast s)
| step_listen_fail s : listening s = true → step s (listen_fail s)
| step_listen_start s : listening s = false → step s (listen_start s)
| step_hold i serial applied s : handlers s !! i = None → step s (hold i serial applied s)
| step_wait i h s : handlers s !! i = Some h → h_phase h = LoopTop →
    step s (set_phase i (Querying (generation s)) s)
| step_query i h w s : handlers s !! i = Some h → h_phase h = Querying w →
    step s (set_phase i (after_query h w (queue s)) s)
| step_query_error i h w s : handlers s !! i = Some h → h_phase h = Querying w →
    step s (set_phase i (Done (Some (bare 500))) s)
| step_wake i h w s : handlers s !! i = Some h → h_phase h = Selecting w →
    (w < generation s)%nat → step s (set_phase i LoopTop s)
| step_deadline i h w s : handlers s !! i = Some h → h_phase h = Selecting w →
    step s (set_phase i (Done (Some (bare 204))) s)
| step_gone i h w s : handlers s !! i = Some h → h_phase h = Selecting w →
    step s (set_phase i (Done None) s).

(** The process just after [listenOnce] issued LISTEN. *)
Definition started (q : list command) : hub := MkHub q 0 0 true false ∅.

(** ** Invariant *)

(** A sleeping or querying handler that already has something to fetch will be
    woken: its channel is closed or a notification is on its way. *)
Definition awake (s : hub) (w : nat) : Prop :=
  (w < generation s)%nat ∨ (0 < notifications s)%nat.

Definition handler_ok (s : hub) (h : handler) : Prop :=
  match h_phase h with
  | Selecting w => (w ≤ generation s)%nat ∧
      (next_command (h_serial h) (h_applied h) (queue s) ≠ None → awake s w)
  | Querying w => (w ≤ generation s)%nat
  | _ => True
  end.

Definition hub_ok (s : hub) : Prop :=
  dropped s = false → listening s = true ∧ ∀ i h, handlers s !! i = Some h → handler_ok s h.

(** ** Lemmas *)

Lemma set_phase_lookup i p s j h :
  handlers (set_phase i p s) !! j = Some h →
  (j ≠ i ∧ handlers s !! j = Some h) ∨
  (j = i ∧ ∃ h0, handlers s !! i = Some h0 ∧ h = MkHandler (h_serial h0) (h_applied h0) p).
Proof.
  simpl. intros [(-> & h0 & Hi & Hh)|[? ?]]%lookup_alter_Some; [right|left]; eauto.
Qed.

(** A phase change keeps the invariant when the new phase has it. *)
Lemma set_phase_ok i p s h :
  hub_ok s → handlers s !! i = Some h →
  (dropped s = false → handler_ok s (MkHandler (h_serial h) (h_applied h) p)) →
  hub_ok (set_phase i p s).
Proof.
  intros Hok Hi Hp Hd. destruct (Hok Hd) as [Hl Hh]. split; [done|].
  intros j h' [[_ Hj]|(-> & h0 & Hj & ->)]%set_phase_lookup; [by apply Hh in Hj|].
  rewrite Hi in Hj. injection Hj as <-. by apply Hp.
Qed.

Lemma handler_ok_broadcast s h :
  handler_ok s h → handler_ok (broadcast s) h.
Proof.
  unfold handler_ok, awake. destruct (h_phase h); simpl; [done|lia| |done].
  intros [? _]. split; [lia|]. intros _. left. lia.
Qed.

Lemma handler_ok_insert c s h :
  listening s = true → handler_ok s h → handler_ok (insert_command c s) h.
Proof.
  intros Hl. unfold handler_ok, awake. destruct (h_phase h); simpl; [done|done| |done].
  intros [? _]. split; [done|]. rewrite Hl. intros _. right. lia.
Qed.

Lemma step_ok s s' : step s s' → hub_ok s → hub_ok s'.
Proof.
  intros Hs Hok. destruct Hs as [c s|s Hl Hn|s Hl|s Hl|i sr ap s Hi|i h s Hi Hp|i h w s Hi Hp
    |i h w s Hi Hp|i h w s Hi Hp Hw|i h w s Hi Hp|i h w s Hi Hp];
    try (eapply set_phase_ok; [done|done|by simpl; auto with lia]).
  - intros [Hd Hl%negb_false_iff]%orb_false_iff. destruct (Hok Hd) as [_ Hh]. split; [done|].
    intros i h Hi. apply handler_ok_insert; [done|by eapply Hh].
  - intros Hd. destruct (Hok Hd) as [_ Hh]. split; [done|].
    intros i h Hi. apply handler_ok_broadcast. by eapply Hh.
  - intros ?. done.
  - intros Hd. destruct (Hok Hd) as [? _]. congruence.
  - intros Hd. destruct (Hok Hd) as [? Hh]. split; [done|]. intros j h.
    simpl. rewrite lookup_insert_Some. intros [[_ <-]|[_ Hj]]; [done|by eapply Hh].
  - eapply set_phase_ok; [done|done|]. intros _. unfold handler_ok. simpl. lia.
  - eapply set_phase_ok; [done|done|]. intros Hd. destruct (Hok Hd) as [_ Hh].
    apply Hh in Hi. unfold handler_ok in Hi. rewrite Hp in Hi.
    unfold handler_ok, after_query. simpl. destruct (next_command _ _ _); [done|].
    by split.
Qed.

Lemma started_ok q : hub_ok (started q).
Proof. intros _. split; [done|]. intros i h. simpl. by rewrite lookup_empty. Qed.

Lemma reachable_ok s s' : rtc step s s' → hub_ok s → hub_ok s'.
Proof. induction 1; eauto using step_ok. Qed.

(** A woken handler fetches the command in three of its own steps. *)
Lemma fetch_path s i h w c :
  handlers s !! i = Some h → h_phase h = Selecting w → (w < generation s)%nat →
  next_command (h_serial h) (h_applied h) (queue s) = Some c →
  ∃ s', rtc step s s' ∧ handlers s' !! i =
    Some (MkHandler (h_serial h) (h_applied h) (Done (Some (serve c)))).
Proof.
  intros Hi Hp Hw Hc.
  pose (s1 := set_phase i LoopTop s). pose (h1 := MkHandler (h_serial h) (h_applied h) LoopTop).
  assert (handlers s1 !! i = Some h1) as H1 by (simpl; by rewrite lookup_alter_eq, Hi).
  pose (s2 := set_phase i (Querying (generation s1)) s1).
  pose (h2 := MkHandler (h_serial h) (h_applied h) (Querying (generation s1))).
  assert (handlers s2 !! i = Some h2) as H2 by (unfold s2; simpl in *; by rewrite lookup_alter_eq, H1).
  exists (set_phase i (after_query h2 (generation s1) (queue s2)) s2). split.
  - eapply rtc_l; [by eapply step_wake|]. eapply rtc_l; [by eapply (step_wait i h1 s1)|].
    eapply rtc_l; [by eapply (step_query i h2 _ s2)|]. apply rtc_refl.
  - simpl in *. rewrite lookup_alter_eq, H2. simpl. unfold after_query. simpl.
    by rewrite Hc.
Qed.

(** ** Properties *)

(** C39. No lost wake-up: as long as the LISTEN connection has not failed, a
    handler asleep in the long poll while the queue holds a command for it can
    always be woken and then serves the lowest such command; its channel is
    closed or the notification that closes it is pending. *)
Theorem no_lost_wakeup q s i h w c :
  rtc step (started q) s → dropped s = false →
  handlers s !! i = Some h → h_phase h = Selecting w →
  next_command (h_serial h) (h_applied h) (queue s) = Some c →
  awake s w ∧
  ∃ s', rtc step s s' ∧ handlers s' !! i =
    Some (MkHandler (h_serial h) (h_applied h) (Done (Some (serve c)))).
Proof.
  intros Hr Hd Hi Hp Hc.
  destruct (reachable_ok _ _ Hr (started_ok q) Hd) as [Hl Hh].
  pose proof (Hh i h Hi) as Hok. unfold handler_ok in Hok. rewrite Hp in Hok.
  destruct Hok as [Hwle Haw]. rewrite Hc in Haw. specialize (Haw ltac:(done)).
  split; [done|]. destruct Haw as [Hlt|Hn].
  - by eapply fetch_path.
  - destruct (fetch_path (broadcast s) i h w c) as (s' & Hs' & Hdone); [done|done|simpl; lia|done|].
    exists s'. split; [|done]. eapply rtc_l; [|done]. by apply step_notify.
Qed.

Definition ex_cmd : command := MkCommand 9 "p1" "led()" None None None false 0.
Definition ex_asleep : hub :=
  MkHub [ex_cmd] 0 1 true false {[7%nat := MkHandler "p1" 4 (Selecting 0)]}.

Lemma ex_asleep_reachable : rtc step (started []) ex_asleep.
Proof.
  eapply rtc_l; [apply (step_hold 7 "p1" 4); done|].
  eapply rtc_l; [apply (step_wait 7 (MkHandler "p1" 4 LoopTop)); vm_compute; reflexivity|].
  eapply rtc_l; [apply (step_query 7 (MkHandler "p1" 4 (Querying 0)) 0); vm_compute; reflexivity|].
  eapply rtc_l; [apply (step_insert ex_cmd)|]. apply rtc_refl.
Qed.

Lemma no_lost_wakeup_witness :
  awake ex_asleep 0 ∧ ∃ s', rtc step ex_asleep s' ∧ handlers s' !! 7%nat =
    Some (MkHandler "p1" 4 (Done (Some (serve ex_cmd)))).
Proof.
  apply (no_lost_wakeup [] ex_asleep 7 (MkHandler "p1" 4 (Selecting 0)) 0 ex_cmd);
    [apply ex_asleep_reachable|vm_compute; reflexivity..].
Defined.

(** A reconnect loses wake-ups: the handler sleeps on an open channel with a
    command in the queue and no notification pending, until its deadline. *)
Definition ex_lost : hub :=
  MkHub [ex_cmd] 0 0 true true {[7%nat := MkHandler "p1" 4 (Selecting 0)]}.

Lemma reconnect_loses_wakeup :
  rtc step (started []) ex_lost ∧ ¬ awake ex_lost 0 ∧
  next_command "p1" 4 (queue ex_lost) = Some ex_cmd.
Proof.
  split_and!; [|unfold awake; simpl; lia|done].
  eapply rtc_l; [apply (step_hold 7 "p1" 4); done|].
  eapply rtc_l; [apply (step_wait 7 (MkHandler "p1" 4 LoopTop)); vm_compute; reflexivity|].
  eapply rtc_l; [apply (step_query 7 (MkHandler "p1" 4 (Querying 0)) 0); vm_compute; reflexivity|].
  eapply rtc_l; [apply step_listen_fail; done|].
  eapply rtc_l; [apply (step_insert ex_cmd)|].
  eapply rtc_l; [apply step_listen_start; done|]. apply rtc_refl.
Qed.
End C2Notify.
