(* ===== verification/Rollout.v ===== *)
(** * OTA targets and firmware ([internal/rollout], [internal/rolloutadmin])

    The tables firmware_versions, channels, rollout_targets and devices and the
    blob directory; the shared resolver and every operator write. *)

From S2P Require Import Prelude GoLib Crypto Db.
Import GoLib Crypto.

Module Rollout.

(** ** The resolver (types.go, resolve.go) *)

Inductive Source := SourceSerial | SourceFleet | SourceChannelDefault | SourceNone.
Inductive Tier := TierSerial | TierFleet.
#[global] Instance Source_eq_dec : EqDecision Source.
Proof. solve_decision. Defined.

Definition DefaultPrecedence : list Tier := [TierSerial; TierFleet].

Record Target := MkTarget {
  t_id : Z; t_serial : string; t_channel : string; t_version : string; t_state : string;
  t_updated : Z }.
Record Resolved := MkResolved { Version : string; RSource : Source }.

(** The body of the inner loop for one tier. *)
Definition offers (ch : string) (tier : Tier) (t : Target) : option Resolved :=
  if negb (bool_decide (t_channel t = ch)) || negb (bool_decide (t_state t = "active"%string))
  then None
  else match tier with
  | TierSerial => if bool_decide (t_serial t = "*"%string) then None
                  else Some (MkResolved (t_version t) SourceSerial)
  | TierFleet => if bool_decide (t_serial t = "*"%string)
                 then Some (MkResolved (t_version t) SourceFleet) else None
  end.

Fixpoint first_some {A B} (f : A → option B) (l : list A) : option B :=
  match l with
  | [] => None
  | x :: l' => match f x with Some y => Some y | None => first_some f l' end
  end.

Definition Resolve (ch : string) (rs : list Target) (chDefault : string) (prec : list Tier)
    : Resolved :=
  match first_some (λ tier, first_some (offers ch tier) rs) prec with
  | Some r => r
  | None => if bool_decide (chDefault = ""%string) then MkResolved "" SourceNone
            else MkResolved chDefault SourceChannelDefault
  end.

(** ** Tables *)

Record fw_row := MkFw { sha256_ : string; blob_path : string; size_bytes : Z; created : Z }.
Record device := MkDevice { channel : string; mac : option string; last_seen : option Z }.

Record tables := MkTables {
  firmware_versions : gmap string fw_row;
  channels : gmap string (option string);
  rollout_targets : list Target;
  next_id : Z;
  devices : gmap string device;
  blobs : gmap string bytes }.

Definition set_firmware f (d : tables) : tables :=
  MkTables (f (firmware_versions d)) (channels d) (rollout_targets d) (next_id d) (devices d)
    (blobs d).
Definition set_channels f (d : tables) : tables :=
  MkTables (firmware_versions d) (f (channels d)) (rollout_targets d) (next_id d) (devices d)
    (blobs d).
Definition set_targets (ts : list Target) (n : Z) (d : tables) : tables :=
  MkTables (firmware_versions d) (channels d) ts n (devices d) (blobs d).
Definition set_devices f (d : tables) : tables :=
  MkTables (firmware_versions d) (channels d) (rollout_targets d) (next_id d) (f (devices d))
    (blobs d).
Definition set_blobs f (d : tables) : tables :=
  MkTables (firmware_versions d) (channels d) (rollout_targets d) (next_id d) (devices d)
    (f (blobs d)).

(** ** ResolveTarget (read.go) *)

(** [WHERE channel = $1 AND serial IN ($2, '*')]. *)
Definition scoped (ch serial : string) (t : Target) : bool :=
  bool_decide (t_channel t = ch) &&
  (bool_decide (t_serial t = serial) || bool_decide (t_serial t = "*"%string)).

Definition ResolveTarget (serial : string) : M tables db_err Resolved :=
  ch ← attempt (query EDb (λ d, match devices d !! serial with
                                | Some v => Ok (channel v) | None => Err ENoRows end));
  match ch with
  | Err ENoRows => mret (MkResolved "" SourceNone)
  | Err e => throw e
  | Ok ch =>
      ts ← query EDb (λ d, Ok (List.filter (scoped ch serial) (rollout_targets d)));
      def ← attempt (query EDb (λ d, match channels d !! ch with
                                     | Some v => Ok (default ""%string v)
                                     | None => Err ENoRows end));
      match def with
      | Ok def => mret (Resolve ch ts def DefaultPrecedence)
      | Err ENoRows => mret (Resolve ch ts "" DefaultPrecedence)
      | Err e => throw e
      end
  end.

(** ** Operator writes (rolloutadmin/write.go) *)

Inductive write_err := ErrShaMismatch | EWrite (e : db_err) | EBlob.

Definition lift_w {A} (m : M tables db_err A) : M tables write_err A := λ s fs,
  let '(r, s', fs') := m s fs in
  (match r with Ok a => Ok a | Err e => Err (EWrite e) end, s', fs').

Definition to_lower (b : Z) : Z := if (65 <=? b) && (b <=? 90) then b + 32 else b.
(** [strings.EqualFold] against a string of lower-case hex digits. *)
Definition equal_fold_hex (hex claimed : bytes) : bool :=
  bool_decide (hex = to_lower <$> claimed).

(** [char_length]: bytes that do not continue a code point. *)
Definition char_length (s : string) : Z :=
  zlen (List.filter (λ b, negb ((128 <=? b) && (b <? 192))) (bytes_of_string s)).

Definition insert_firmware (now : Z) (version : string) (r : fw_row) (d : tables)
    : result db_err unit * tables :=
  if bool_decide (is_Some (firmware_versions d !! version)) || (31 <? char_length version)
  then (Err EConstraint, d)
  else (Ok tt, set_firmware (insert version r) d).

(** The temporary file and the rename: the name holds the old bytes or the new. *)
Definition writeBlobAtomic (name : string) (data : bytes) : M tables write_err unit :=
  exec EBlob (set_blobs (insert name data)).

Definition RegisterFirmware (now : Z) (version claimedSha : string) (blob : bytes)
    : M tables write_err string :=
  let sha := hex_encode (sha256 blob) in
  if negb (equal_fold_hex sha (bytes_of_string claimedSha)) then throw ErrShaMismatch
  else
    let blobPath := (string_of_bytes sha ++ ".bin")%string in
    _ ← lift_w (stmt EDb (insert_firmware now version
                  (MkFw (string_of_bytes sha) blobPath (zlen blob) now)));
    _ ← writeBlobAtomic blobPath blob;
    mret (string_of_bytes sha).

Definition SetChannelDefault (ch version : string) : M tables db_err bool :=
  stmt EDb (λ d,
    match channels d !! ch with
    | None => (Ok false, d)
    | Some _ =>
        if bool_decide (is_Some (firmware_versions d !! version))
        then (Ok true, set_channels (insert ch (Some version)) d)
        else (Err EConstraint, d)
    end).

Definition SerialResolvable (serial : string) : M tables db_err bool :=
  if bool_decide (serial = "*"%string) then mret true
  else query EDb (λ d, Ok (bool_decide (is_Some (devices d !! serial)))).

Definition same_key (serial ch : string) (t : Target) : bool :=
  bool_decide (t_serial t = serial) && bool_decide (t_channel t = ch).

Definition upsert_target (now : Z) (serial ch version : string) (d : tables)
    : result db_err Z * tables :=
  if negb (bool_decide (is_Some (channels d !! ch))) ||
     negb (bool_decide (is_Some (firmware_versions d !! version)))
  then (Err EConstraint, d)
  else match find_first (same_key serial ch) (rollout_targets d) with
  | Some old =>
      (Ok (t_id old),
       set_targets ((λ t, if same_key serial ch t
                          then MkTarget (t_id t) serial ch version "active" now else t)
                      <$> rollout_targets d) (next_id d + 1) d)
  | None =>
      (Ok (next_id d),
       set_targets (rollout_targets d ++ [MkTarget (next_id d) serial ch version "active" now])
         (next_id d + 1) d)
  end.

Definition UpsertRollout (now : Z) (serial ch version : string) : M tables db_err Z :=
  stmt EDb (upsert_target now serial ch version).

Definition SetRolloutState (now id : Z) (state : string) : M tables db_err bool :=
  stmt EDb (λ d,
    (Ok (existsb (λ t, t_id t =? id) (rollout_targets d)),
     set_targets ((λ t, if t_id t =? id
                        then MkTarget id (t_serial t) (t_channel t) (t_version t) state now
                        else t) <$> rollout_targets d) (next_id d) d)).

Definition DeleteRollout (id : Z) : M tables db_err bool :=
  stmt EDb (λ d,
    (Ok (existsb (λ t, t_id t =? id) (rollout_targets d)),
     set_targets (List.filter (λ t, negb (t_id t =? id)) (rollout_targets d)) (next_id d) d)).

(** Every operator write, as one transition. *)
Inductive admin_step : tables → tables → Prop :=
| admin_register now v c b d fs r d' fs' :
    RegisterFirmware now v c b d fs = (r, d', fs') → admin_step d d'
| admin_default ch v d fs r d' fs' : SetChannelDefault ch v d fs = (r, d', fs') → admin_step d d'
| admin_upsert now s ch v d fs r d' fs' :
    UpsertRollout now s ch v d fs = (r, d', fs') → admin_step d d'
| admin_state now id st d fs r d' fs' :
    SetRolloutState now id st d fs = (r, d', fs') → admin_step d d'
| admin_delete id d fs r d' fs' : DeleteRollout id d fs = (r, d', fs') → admin_step d d'.

(** ** Invariants *)

(** [UNIQUE (serial, channel)] and the foreign keys. *)
Definition targets_wf (d : tables) : Prop :=
  NoDup ((λ t, (t_serial t, t_channel t)) <$> rollout_targets d) ∧
  Forall (λ t, is_Some (channels d !! t_channel t) ∧
               is_Some (firmware_versions d !! t_version t)) (rollout_targets d) ∧
  (∀ ch v, channels d !! ch = Some (Some v) → is_Some (firmware_versions d !! v)) ∧
  (∀ s v, devices d !! s = Some v → is_Some (channels d !! channel v)).

(** A blob's name is the hash of its content, and a firmware row's path is the
    name its hash gives. *)
Definition blob_name (b : bytes) : string :=
  (string_of_bytes (hex_encode (sha256 b)) ++ ".bin")%string.
Definition blob_ok (d : tables) : Prop :=
  (∀ v r, firmware_versions d !! v = Some r → ∃ b, sha256_ r =
     string_of_bytes (hex_encode (sha256 b)) ∧ blob_path r = (sha256_ r ++ ".bin")%string) ∧
  (∀ n b, blobs d !! n = Some b → n = blob_name b).

(** ** Lemmas *)

Lemma string_app_inj_r (s1 s2 t : string) : (s1 ++ t)%string = (s2 ++ t)%string → s1 = s2.
Proof.
  assert (∀ s : string, String.length (s ++ t) = (String.length s + String.length t)%nat) as Hl
    by (intros s; induction s as [|a s IH]; simpl; [done|by rewrite IH]).
  revert s2. induction s1 as [|a s1 IH]; intros [|b s2] H; [done|..].
  - apply (f_equal String.length) in H. rewrite !Hl in H. simpl in H. lia.
  - apply (f_equal String.length) in H. rewrite !Hl in H. simpl in H. lia.
  - injection H as -> H. f_equal. auto.
Qed.

Lemma blob_ok_served d v r b :
  blob_ok d → firmware_versions d !! v = Some r → blobs d !! blob_path r = Some b →
  sha256_ r = string_of_bytes (hex_encode (sha256 b)).
Proof.
  intros [Hr Hb] Hv Hbl. apply Hb in Hbl. destruct (Hr _ _ Hv) as (_ & _ & Hp). rewrite Hp in Hbl.
  by apply string_app_inj_r in Hbl.
Qed.

(** The download opens the blob under the row's own name. *)
Lemma blob_path_base d v r :
  blob_ok d → firmware_versions d !! v = Some r →
  string_of_bytes (path_base (bytes_of_string (blob_path r))) = blob_path r.
Proof.
  intros [Hr _] Hv. destruct (Hr _ _ Hv) as (b & Hs & Hp).
  assert (blob_path r = string_of_bytes (hex_encode (sha256 b) ++ [46; 98; 105; 110])) as Hb.
  { by rewrite Hp, Hs, string_of_bytes_app. }
  assert (bytes_ok (hex_encode (sha256 b) ++ [46; 98; 105; 110])) as Hok.
  { apply Forall_app. split; [apply hex_encode_bytes, sha256_bytes|].
    repeat constructor; unfold byte_ok; lia. }
  rewrite Hb, bytes_of_string_of_bytes by done. rewrite path_base_id; [done|by destruct (hex_encode _)|].
  intros [Hin|Hin]%elem_of_app; [by apply hex_no_slash in Hin; [|apply sha256_bytes]|].
  by repeat (apply elem_of_cons in Hin as [?|Hin]; [done|]); apply not_elem_of_nil in Hin.
Qed.

Lemma ResolveTarget_reads serial d fs :
  ∃ r fs', ResolveTarget serial d fs = (r, d, fs').
Proof.
  unfold ResolveTarget. db_unfold.
  destruct fs as [|[] fs]; simpl; [|by eexists _, _|];
    (destruct (devices d !! serial); simpl; [|by eexists _, _]).
  - destruct (channels d !! _); by eexists _, _.
  - destruct fs as [|[] fs]; simpl; [|by eexists _, _|].
    + destruct (channels d !! _); by eexists _, _.
    + destruct fs as [|[] fs]; simpl; [|by eexists _, _|]; destruct (channels d !! _);
        by eexists _, _.
Qed.

Lemma first_some_Some {A B} (f : A → option B) l y :
  first_some f l = Some y → ∃ x, x ∈ l ∧ f x = Some y.
Proof.
  induction l as [|x l IH]; simpl; [done|]. destruct (f x) eqn:Hx.
  - intros [= ->]. exists x. split; [left|done].
  - intros (x' & ? & ?)%IH. exists x'. split; [by right|done].
Qed.

Lemma first_some_None {A B} (f : A → option B) l :
  first_some f l = None ↔ ∀ x, x ∈ l → f x = None.
Proof.
  induction l as [|x l IH]; simpl.
  - split; [intros _ x Hx; by apply not_elem_of_nil in Hx|done].
  - destruct (f x) eqn:Hx.
    + split; [done|]. intros H. rewrite H in Hx; [done|left].
    + rewrite IH. split; intros H y; [intros [-> |Hy]%elem_of_cons; auto|].
      intros Hy. apply H. by right.
Qed.

(** An active row for [s] on [ch] offering [v]. *)
Definition active (d : tables) (s ch v : string) : Prop :=
  ∃ t, t ∈ rollout_targets d ∧ t_serial t = s ∧ t_channel t = ch ∧
       t_state t = "active"%string ∧ t_version t = v.

Lemma elem_scoped ch serial t d :
  t ∈ List.filter (scoped ch serial) (rollout_targets d) ↔
  t ∈ rollout_targets d ∧ t_channel t = ch ∧ (t_serial t = serial ∨ t_serial t = "*"%string).
Proof.
  rewrite !list_elem_of_In, filter_In. unfold scoped.
  rewrite andb_true_iff, orb_true_iff, !bool_decide_eq_true. tauto.
Qed.

Lemma offers_Some ch tier t r :
  offers ch tier t = Some r ↔
  t_channel t = ch ∧ t_state t = "active"%string ∧
  match tier with
  | TierSerial => t_serial t ≠ "*"%string ∧ r = MkResolved (t_version t) SourceSerial
  | TierFleet => t_serial t = "*"%string ∧ r = MkResolved (t_version t) SourceFleet
  end.
Proof.
  unfold offers. destruct (decide (t_channel t = ch)) as [Hc|Hc].
  2: { rewrite bool_decide_false by done. by split; [|intros [? _]]. }
  rewrite bool_decide_true by done. simpl.
  destruct (decide (t_state t = "active"%string)) as [Hs|Hs].
  2: { rewrite bool_decide_false by done. by split; [|intros (_ & ? & _)]. }
  rewrite bool_decide_true by done. simpl.
  destruct tier; case_bool_decide;
    (split; [intros H'; injection H' as <-; by split_and!|intros (_ & _ & Hn & ->); done])
    || (split; [done|intros (_ & _ & Hn & _); by destruct Hn]).
Qed.

(** The tier's answer over the scoped rows. *)
Lemma tier_serial d ch serial :
  serial ≠ "*"%string →
  match first_some (offers ch TierSerial) (List.filter (scoped ch serial) (rollout_targets d)) with
  | Some r => ∃ v, active d serial ch v ∧ r = MkResolved v SourceSerial
  | None => ∀ v, ¬ active d serial ch v
  end.
Proof.
  intros Hne. destruct (first_some _ _) as [r|] eqn:Hf.
  - apply first_some_Some in Hf as (t & Ht & Ho). apply elem_scoped in Ht as (Ht & _ & Hor).
    apply offers_Some in Ho as (Hc & Hs & Hst & ->). exists (t_version t). split; [|done].
    exists t. destruct Hor; by split_and!.
  - intros v (t & Ht & Hs & Hc & Hst & Hv). rewrite first_some_None in Hf.
    assert (offers ch TierSerial t = Some (MkResolved v SourceSerial)) as Ho
      by (apply offers_Some; split_and!; congruence).
    rewrite Hf in Ho; [done|]. apply elem_scoped. auto.
Qed.

Lemma tier_fleet d ch serial :
  match first_some (offers ch TierFleet) (List.filter (scoped ch serial) (rollout_targets d)) with
  | Some r => ∃ v, active d "*" ch v ∧ r = MkResolved v SourceFleet
  | None => ∀ v, ¬ active d "*" ch v
  end.
Proof.
  destruct (first_some _ _) as [r|] eqn:Hf.
  - apply first_some_Some in Hf as (t & Ht & Ho). apply elem_scoped in Ht as (Ht & _ & Hor).
    apply offers_Some in Ho as (Hc & Hs & Hst & ->). exists (t_version t). split; [|done].
    exists t. by split_and!.
  - intros v (t & Ht & Hs & Hc & Hst & Hv). rewrite first_some_None in Hf.
    assert (offers ch TierFleet t = Some (MkResolved v SourceFleet)) as Ho
      by (apply offers_Some; split_and!; congruence).
    rewrite Hf in Ho; [done|]. apply elem_scoped. auto.
Qed.

(** UNIQUE (serial, channel) makes the active row, hence the answer, unique. *)
Lemma active_unique d s ch v1 v2 :
  targets_wf d → active d s ch v1 → active d s ch v2 → v1 = v2.
Proof.
  intros (Hnd & _) (t1 & H1 & Hs1 & Hc1 & _ & <-) (t2 & H2 & Hs2 & Hc2 & _ & <-).
  apply list_elem_of_lookup in H1 as [i Hi]. apply list_elem_of_lookup in H2 as [j Hj].
  assert (i = j) as ->; [|congruence].
  eapply NoDup_lookup; [exact Hnd|..]; rewrite list_lookup_fmap.
  - by rewrite Hi.
  - rewrite Hj. simpl. congruence.
Qed.

(** ** Lemmas: operator writes *)

Lemma SetChannelDefault_run ch v d fs r d' fs' :
  SetChannelDefault ch v d fs = (r, d', fs') →
  d' = d ∨ (is_Some (channels d !! ch) ∧ is_Some (firmware_versions d !! v) ∧
            d' = set_channels (insert ch (Some v)) d).
Proof.
  intros [[_ ->]|H]%stmt_inv; [by left|].
  destruct (channels d !! ch) eqn:Hch; [|by simplify_eq; left].
  case_bool_decide; simplify_eq; [right; by eauto|by left].
Qed.

Lemma RegisterFirmware_run now v c b d fs :
  ∃ r d' fs', RegisterFirmware now v c b d fs = (r, d', fs') ∧
    let sha := string_of_bytes (hex_encode (sha256 b)) in
    let row := MkFw sha (blob_name b) (zlen b) now in
    (d' = d ∧ ¬ is_ok r = true ∨
     firmware_versions d !! v = None ∧ char_length v ≤ 31 ∧
       equal_fold_hex (hex_encode (sha256 b)) (bytes_of_string c) = true ∧
       ((d' = set_firmware (insert v row) d ∧ r = Err EBlob) ∨
        (d' = set_blobs (insert (blob_name b) b) (set_firmware (insert v row) d) ∧ r = Ok sha))).
Proof.
  unfold RegisterFirmware, writeBlobAtomic, lift_w, insert_firmware. db_unfold.
  destruct (equal_fold_hex _ _) eqn:Heq; simpl; [|by eexists _, _, _; eauto].
  destruct (_ || _) eqn:Hc.
  - destruct fs as [|[] fs]; simpl; eexists _, _, _; (split; [reflexivity|]); by left.
  - apply orb_false_iff in Hc as [Hnone%bool_decide_eq_false Hlen%Z.ltb_ge].
    assert (firmware_versions d !! v = None) as Hn by by apply eq_None_not_Some.
    destruct fs as [|[] fs]; simpl; [|by eexists _, _, _; eauto|].
    + eexists _, _, _. split; [reflexivity|]. right. split_and!; auto.
    + destruct fs as [|[] fs]; simpl; eexists _, _, _; (split; [reflexivity|]); right;
        split_and!; auto.
Qed.

Lemma find_same_key s ch (l : list Target) :
  find_first (same_key s ch) l = None → (s, ch) ∉ ((λ t, (t_serial t, t_channel t)) <$> l).
Proof.
  rewrite find_first_None. intros H (t & Heq & Ht)%list_elem_of_fmap.
  specialize (H t Ht). unfold same_key in H. injection Heq as -> ->.
  by rewrite !bool_decide_true in H.
Qed.

(** A rewrite of rows that keeps their keys, and versions that exist. *)
Lemma targets_wf_map f n d :
  targets_wf d →
  (∀ t, t ∈ rollout_targets d → t_serial (f t) = t_serial t ∧ t_channel (f t) = t_channel t ∧
     is_Some (firmware_versions d !! t_version (f t))) →
  targets_wf (set_targets (f <$> rollout_targets d) n d).
Proof.
  intros (Hnd & Hfk & Hdef & Hdev) Hf. split_and!; [| |done|done].
  - simpl. rewrite <-list_fmap_compose. erewrite list_fmap_ext; [exact Hnd|].
    intros i t Ht. apply list_elem_of_lookup_2 in Ht. simpl.
    by destruct (Hf t Ht) as (-> & -> & _).
  - simpl. rewrite Forall_fmap, Forall_forall. intros t Ht. simpl.
    destruct (Hf t Ht) as (_ & -> & ?). rewrite Forall_forall in Hfk.
    by destruct (Hfk t Ht).
Qed.

Lemma NoDup_fmap_filter {A B} (f : A → B) p (l : list A) :
  NoDup (f <$> l) → NoDup (f <$> List.filter p l).
Proof.
  induction l as [|x l IH]; [done|]. rewrite fmap_cons. intros [Hx Hl]%NoDup_cons.
  cbn [List.filter]. destruct (p x); [|by apply IH]. rewrite fmap_cons. apply NoDup_cons.
  split; [|by apply IH]. intros (y & Hxy & Hy)%list_elem_of_fmap. apply Hx, list_elem_of_fmap.
  exists y. split; [done|]. rewrite list_elem_of_In, filter_In, <-list_elem_of_In in Hy. tauto.
Qed.

Lemma targets_wf_upsert now s ch v d :
  targets_wf d → targets_wf (upsert_target now s ch v d).2.
Proof.
  intros Hwf. unfold upsert_target. destruct (_ || _) eqn:Hc; [done|].
  apply orb_false_iff in Hc as [Hch%negb_false_iff%bool_decide_eq_true
                                Hv%negb_false_iff%bool_decide_eq_true].
  destruct (find_first _ _) as [old|] eqn:Hf; simpl.
  - apply targets_wf_map; [done|]. intros t Ht. destruct (same_key s ch t) eqn:Hk.
    + unfold same_key in Hk. apply andb_prop in Hk as [->%bool_decide_eq_true ->%bool_decide_eq_true].
      done.
    + destruct Hwf as (_ & Hfk & _). rewrite Forall_forall in Hfk. by destruct (Hfk t Ht).
  - destruct Hwf as (Hnd & Hfk & Hdef & Hdev). split_and!; [| |done|done]; simpl.
    + rewrite fmap_app. apply NoDup_app. split_and!; [done| |by apply NoDup_singleton].
      intros x Hx Hin%list_elem_of_singleton. subst x. by apply find_same_key in Hf.
    + apply Forall_app. split; [done|]. by apply Forall_singleton.
Qed.

Lemma is_Some_insert {A} (m : gmap string A) k j x :
  is_Some (m !! j) → is_Some (<[k := x]> m !! j).
Proof. rewrite lookup_insert. case_decide; [by eexists|done]. Qed.

Lemma targets_wf_firmware v row d : targets_wf d → targets_wf (set_firmware (insert v row) d).
Proof.
  intros (Hnd & Hfk & Hdef & Hdev). split_and!; [done| | |done]; simpl.
  - eapply Forall_impl; [exact Hfk|]. intros t [? ?]. split; [done|by apply is_Some_insert].
  - intros ch w Hw. apply is_Some_insert. by eapply Hdef.
Qed.

Lemma admin_step_wf d d' : admin_step d d' → targets_wf d ∧ blob_ok d → targets_wf d' ∧ blob_ok d'.
Proof.
  intros Hs [Hwf Hb]. destruct Hs as
    [now v c b d fs r d' fs' H|ch v d fs r d' fs' H|now s ch v d fs r d' fs' H
    |now id st d fs r d' fs' H|id d fs r d' fs' H].
  - destruct (RegisterFirmware_run now v c b d fs) as (r1 & d1 & fs1 & Hr & Hor).
    rewrite H in Hr. injection Hr as -> -> ->.
    assert (blob_ok (set_firmware (insert v (MkFw (string_of_bytes (hex_encode (sha256 b)))
      (blob_name b) (zlen b) now)) d)) as Hb1.
    { destruct Hb as [Hr Hn]. split; [|done]. intros w row. simpl.
      rewrite lookup_insert_Some. intros [[_ <-]|[_ ?]]; [by exists b|eauto]. }
    destruct Hor as [[-> _]|(_ & _ & _ & [[-> _]|[-> _]])]; [done|..].
    + split; [by apply targets_wf_firmware|done].
    + split; [by apply (targets_wf_firmware v _ d)|]. destruct Hb1 as [Hr Hn]. split; [done|].
      intros n x. simpl. rewrite lookup_insert_Some. intros [[<- <-]|[_ ?]]; [done|].
      by eapply Hn.
  - apply SetChannelDefault_run in H as [->|(Hch & Hv & ->)]; [done|].
    destruct Hwf as (Hnd & Hfk & Hdef & Hdev). split; [|done]. split_and!; [done|..]; simpl.
    + eapply Forall_impl; [exact Hfk|]. intros t [? ?]. split; [by apply is_Some_insert|done].
    + intros ch' w. rewrite lookup_insert_Some. intros [[_ [= <-]]|[_ ?]]; eauto.
    + intros s dv Hdv. apply is_Some_insert. by eapply Hdev.
  - apply stmt_inv in H as [[_ ->]|H]; [done|].
    pose proof (targets_wf_upsert now s ch v d Hwf) as Hw. rewrite H in Hw. split; [done|].
    unfold upsert_target in H. repeat case_match; by simplify_eq.
  - apply stmt_inv in H as [[_ ->]|H]; [done|]. injection H as _ <-. split; [|done].
    apply targets_wf_map; [done|]. intros t Ht.
    destruct Hwf as (_ & Hfk & _). rewrite Forall_forall in Hfk. destruct (Hfk t Ht).
    by destruct (t_id t =? id); split_and!.
  - apply stmt_inv in H as [[_ ->]|H]; [done|]. injection H as _ <-. split; [|done].
    destruct Hwf as (Hnd & Hfk & Hdef & Hdev). split_and!; [| |done|done]; simpl.
    + by apply NoDup_fmap_filter.
    + rewrite Forall_forall in *. intros t Ht.
      rewrite list_elem_of_In, filter_In, <-list_elem_of_In in Ht. exact (Hfk t (proj1 Ht)).
Qed.

(** ** Properties *)

(** The resolver serves a known device its active per-serial target, else
    the active fleet target of its channel, else the channel default, else
    nothing; an unknown device gets nothing. The answer does not depend on the
    order the rows come in. *)
Theorem ResolveTarget_precedence serial d :
  targets_wf d → serial ≠ "*"%string →
  ∃ r, ResolveTarget serial d [] = (Ok r, d, []) ∧
    match devices d !! serial with
    | None => r = MkResolved "" SourceNone
    | Some dv =>
        let ch := channel dv in
        (∀ v, active d serial ch v → r = MkResolved v SourceSerial) ∧
        ((∀ v, ¬ active d serial ch v) →
           (∀ v, active d "*" ch v → r = MkResolved v SourceFleet) ∧
           ((∀ v, ¬ active d "*" ch v) →
              r = match channels d !! ch with
                  | Some (Some v) => if bool_decide (v = ""%string) then MkResolved "" SourceNone
                                     else MkResolved v SourceChannelDefault
                  | _ => MkResolved "" SourceNone
                  end))
    end.
Proof.
  intros Hwf Hne. unfold ResolveTarget. db_unfold. simpl.
  destruct (devices d !! serial) as [dv|] eqn:Hdv; simpl; [|by eexists].
  destruct (proj2 (proj2 (proj2 Hwf)) _ _ Hdv) as [def Hdef]. rewrite Hdef.
  eexists. split; [reflexivity|]. unfold Resolve, DefaultPrecedence. simpl.
  pose proof (tier_serial d (channel dv) serial Hne) as Hs.
  pose proof (tier_fleet d (channel dv) serial) as Hf.
  destruct (first_some (offers (channel dv) TierSerial) _) as [r|].
  { destruct Hs as (v & Hv & ->). split; [|by intros H; destruct (H v)].
    intros v' Hv'. by rewrite (active_unique d serial (channel dv) v v'). }
  split; [by intros v Hv; destruct (Hs v)|intros _].
  destruct (first_some (offers (channel dv) TierFleet) _) as [r|].
  { destruct Hf as (v & Hv & ->). split; [|by intros H; destruct (H v)].
    intros v' Hv'. by rewrite (active_unique d "*" (channel dv) v v'). }
  split; [by intros v Hv; destruct (Hf v)|intros _]. by destruct def.
Qed.

(** Whatever the operators do and whichever statement fails, targets stay
    unique per (serial, channel) and refer to existing channels and versions,
    and every blob on disk is the content its name and firmware row hash. *)
Theorem rollout_invariant d d' :
  rtc admin_step d d' → targets_wf d → blob_ok d → targets_wf d' ∧ blob_ok d'.
Proof.
  intros Hr Hwf Hb. assert (targets_wf d ∧ blob_ok d) as H by done. clear Hwf Hb.
  induction Hr; eauto using admin_step_wf.
Qed.

Definition ex_fw : fw_row := MkFw (string_of_bytes (hex_encode (sha256 [1; 2; 3])))
  (blob_name [1; 2; 3]) 3 0.
Definition ex_tables : tables :=
  MkTables {["1.0"%string := ex_fw; "1.1"%string := ex_fw]}
    {["stable"%string := Some "1.0"%string]}
    [MkTarget 1 "*" "stable" "1.0" "active" 0; MkTarget 2 "p1" "stable" "1.1" "active" 0] 3
    {["p1"%string := MkDevice "stable" None None]} {[blob_name [1; 2; 3] := [1; 2; 3]]}.

#[local] Opaque sha256.

Lemma ex_tables_wf : targets_wf ex_tables ∧ blob_ok ex_tables.
Proof.
  split; [split_and!|split].
  - unfold ex_tables. simpl. repeat (apply NoDup_cons; split; [by rewrite ?list_elem_of_singleton; try apply not_elem_of_nil|]). apply NoDup_nil_2.
  - repeat constructor; vm_compute; by eexists.
  - intros ch v. simpl. rewrite lookup_singleton_Some. intros [_ [= <-]]. vm_compute. by eexists.
  - intros s v. simpl. rewrite lookup_singleton_Some. intros [_ <-]. vm_compute. by eexists.
  - intros v r. simpl. rewrite lookup_insert_Some, lookup_singleton_Some.
    intros [[_ <-]|[_ [_ <-]]]; by exists [1; 2; 3].
  - intros n b. simpl. rewrite lookup_singleton_Some. by intros [<- <-].
Qed.

Lemma ResolveTarget_precedence_witness :
  ResolveTarget "p1" ex_tables [] = (Ok (MkResolved "1.1" SourceSerial), ex_tables, []).
Proof.
  destruct (ResolveTarget_precedence "p1" ex_tables) as (r & Hr & Hs).
  - exact (proj1 ex_tables_wf).
  - done.
  - rewrite Hr. assert (devices ex_tables !! "p1"%string = Some (MkDevice "stable" None None)) as Hd
      by (vm_compute; reflexivity). rewrite Hd in Hs. destruct Hs as [Hs _].
    rewrite (Hs "1.1"%string); [done|]. exists (MkTarget 2 "p1" "stable" "1.1" "active" 0).
    split_and!; [right; left|done..].
Defined.

Lemma rollout_invariant_witness :
  ∃ d', rtc admin_step ex_tables d' ∧ targets_wf d' ∧ blob_ok d'.
Proof.
  exists (DeleteRollout 2 ex_tables []).1.2.
  assert (rtc admin_step ex_tables (DeleteRollout 2 ex_tables []).1.2) as H.
  { eapply rtc_l; [|apply rtc_refl]. by apply (admin_delete 2 ex_tables [] (Ok true) _ []). }
  split; [exact H|]. apply (rollout_invariant _ _ H); apply ex_tables_wf.
Defined.
End Rollout.
