(* ===== verification/OtaTicket.v ===== *)
(** * The OTA download ticket ([internal/otaticket])

    Minting and verifying [b64url(sn) . b64url(version) . exp . b64url(mac)].
    Go strings are byte lists; the clock is nanoseconds since the epoch. *)

From S2P Require Import Prelude GoLib Crypto.
Import GoLib Crypto.

Module OtaTicket.

Definition MinKeyLen : Z := 32.
Definition KeyStrong (key : bytes) : bool := MinKeyLen <=? zlen key.

Inductive ticket_err := ErrMalformed | ErrBadMAC | ErrExpired.
#[global] Instance ticket_err_eq_dec : EqDecision ticket_err.
Proof. solve_decision. Defined.

Definition dot : bytes := [46].

Definition signingInput (snB64 verB64 : bytes) (exp : Z) : bytes :=
  snB64 ++ dot ++ verB64 ++ dot ++ format_int_b exp.

Definition mac (key input : bytes) : bytes := b64_encode (hmac sha256 key input).

(** [time.Unix()] of an instant. *)
Definition unix (ns : Z) : Z := ns / 10 ^ 9.

Definition Mint (now : Z) (key sn version : bytes) (ttl : Z) : bytes :=
  let exp := unix (now + ttl) in
  let snB64 := b64_encode sn in
  let verB64 := b64_encode version in
  let inp := signingInput snB64 verB64 exp in
  inp ++ dot ++ mac key inp.

Definition Verify (now : Z) (key token : bytes) : result ticket_err (bytes * bytes) :=
  match split token dot with
  | [snB64; verB64; expStr; macB64] =>
      let want := mac key (snB64 ++ dot ++ verB64 ++ dot ++ expStr) in
      if negb (bool_decide (want = macB64)) then Err ErrBadMAC
      else
        match parse_int_b expStr 64 with
        | (_, Some _) => Err ErrMalformed
        | (exp, None) =>
            if exp <=? unix now then Err ErrExpired
            else
              match b64_decode snB64 with
              | None => Err ErrMalformed
              | Some snB =>
                  match b64_decode verB64 with
                  | None => Err ErrMalformed
                  | Some verB => Ok (snB, verB)
                  end
              end
        end
  | _ => Err ErrMalformed
  end.

(** ** Lemmas *)

Lemma mac_no_dot key inp : 46 ∉ mac key inp.
Proof. apply b64_no_dot, hmac_sha256_bytes. Qed.

(** The wire form of a ticket splits into its four segments. *)
Lemma split_ticket s v e m :
  46 ∉ s → 46 ∉ v → 46 ∉ e → 46 ∉ m →
  split (s ++ dot ++ v ++ dot ++ e ++ dot ++ m) dot = [s; v; e; m].
Proof.
  intros Hs Hv He Hm. rewrite <-(split_join 46 [s; v; e; m]); [|done|by repeat constructor].
  simpl. unfold dot. by rewrite <-?app_assoc.
Qed.

Lemma join_ticket token s v e m :
  split token dot = [s; v; e; m] → token = s ++ dot ++ v ++ dot ++ e ++ dot ++ m.
Proof.
  intros H. rewrite <-(join_split token dot) by done. rewrite H. simpl. by rewrite <-?app_assoc.
Qed.

Lemma Verify_inv now key token sn ver :
  Verify now key token = Ok (sn, ver) →
  ∃ s v e exp, token = s ++ dot ++ v ++ dot ++ e ++ dot ++ mac key (s ++ dot ++ v ++ dot ++ e) ∧
    parse_int_b e 64 = (exp, None) ∧ unix now < exp ∧
    b64_decode s = Some sn ∧ b64_decode v = Some ver.
Proof.
  unfold Verify. destruct (split token dot) as [|s [|v [|e [|m [|]]]]] eqn:Hs; try done.
  cbv zeta. case_bool_decide as Hm; simpl; [|done].
  destruct (parse_int_b e 64) as [exp [|]] eqn:Hp; [done|].
  destruct (Z.leb_spec exp (unix now)); [done|].
  destruct (b64_decode s) as [sb|] eqn:Hsb; [|done].
  destruct (b64_decode v) as [vb|] eqn:Hvb; [|done]. intros [= <- <-].
  exists s, v, e, exp. split_and!; try done. subst m. by apply join_ticket.
Qed.

(** ** Properties *)

(** A minted ticket verifies, under its key and before its expiry second,
    to exactly the serial and version it was minted for; from that second on
    it is refused as expired. *)
Theorem mint_verify now now2 key sn version ttl :
  bytes_ok sn → bytes_ok version → in_i64 (unix (now + ttl)) →
  Verify now2 key (Mint now key sn version ttl) =
    if unix (now + ttl) <=? unix now2 then Err ErrExpired else Ok (sn, version).
Proof.
  intros Hs Hv He. unfold Verify, Mint, signingInput. cbv zeta. rewrite <-!app_assoc.
  rewrite split_ticket; [|by apply b64_no_dot|by apply b64_no_dot|by apply format_int_no_dot
                         |apply mac_no_dot].
  rewrite bool_decide_true by done. simpl. rewrite parse_format_int by done.
  destruct (unix (now + ttl) <=? unix now2); [done|]. by rewrite !b64_decode_encode.
Qed.

(** The signed text is injective: two tickets of the same key whose signed
    texts agree were minted for the same serial, version and expiry second. *)
Theorem signingInput_injective sn version exp sn' version' exp' :
  bytes_ok sn → bytes_ok version → bytes_ok sn' → bytes_ok version' →
  in_i64 exp → in_i64 exp' →
  signingInput (b64_encode sn) (b64_encode version) exp =
  signingInput (b64_encode sn') (b64_encode version') exp' →
  sn = sn' ∧ version = version' ∧ exp = exp'.
Proof.
  intros Hs Hv Hs' Hv' He He' H. apply (f_equal (λ x, split (x ++ dot ++ []) dot)) in H.
  unfold signingInput in H. rewrite <-!app_assoc in H.
  assert (∀ e, in_i64 e → 46 ∉ format_int_b e) as Hd by (intros; by apply format_int_no_dot).
  rewrite !split_ticket in H by (by apply b64_no_dot || by apply Hd || by apply not_elem_of_nil).
  injection H as Hss Hvv Hee. split_and!; [by apply b64_encode_inj..|].
  apply (f_equal (λ b, (parse_int_b b 64).1)) in Hee. by rewrite !parse_format_int in Hee.
Qed.

(** A token is accepted exactly when it is three segments followed by
    the key's MAC of those segments as received, the third an expiry in the
    future and the first two encodings of the serial and version returned: no
    segment can change without the MAC of the changed text. *)
Theorem Verify_iff now key token sn version :
  Verify now key token = Ok (sn, version) ↔
  ∃ s v e exp,
    token = s ++ dot ++ v ++ dot ++ e ++ dot ++ mac key (s ++ dot ++ v ++ dot ++ e) ∧
    parse_int_b e 64 = (exp, None) ∧ unix now < exp ∧
    b64_decode s = Some sn ∧ b64_decode v = Some version.
Proof.
  split; [apply Verify_inv|]. intros (s & v & e & exp & -> & Hp & He & Hs & Hv).
  unfold Verify. rewrite split_ticket;
    [|by eapply b64_decode_no_dot|by eapply b64_decode_no_dot|by eapply parse_int_no_dot
     |apply mac_no_dot].
  cbv zeta. rewrite bool_decide_true by done. simpl. rewrite Hp.
  destruct (Z.leb_spec exp (unix now)); [lia|]. by rewrite Hs, Hv.
Qed.

Definition ex_key : bytes := bytes_of_string "0123456789abcdef0123456789abcdef".

Lemma mint_verify_witness :
  Verify (60 * 10 ^ 9) ex_key (Mint 0 ex_key (bytes_of_string "p1") (bytes_of_string "1.2|x")
    (120 * 10 ^ 9)) = Ok (bytes_of_string "p1", bytes_of_string "1.2|x").
Proof.
  rewrite (mint_verify 0 (60 * 10 ^ 9) ex_key (bytes_of_string "p1") (bytes_of_string "1.2|x")
    (120 * 10 ^ 9)); [reflexivity|apply bytes_of_string_ok|apply bytes_of_string_ok|].
  vm_compute. by split.
Defined.

Lemma signingInput_injective_witness :
  bytes_of_string "p1" = bytes_of_string "p1" ∧ bytes_of_string "a.b" = bytes_of_string "a.b" ∧
  5 = 5.
Proof.
  apply signingInput_injective; [apply bytes_of_string_ok..|by split|by split|reflexivity].
Defined.
End OtaTicket.
