(* ===== verification/LogIngest.v ===== *)
(** * Telemetry and log ingest ([internal/ingestcore] server, logingest, ota)

    The telemetry push and its log ride-along: the parsers, the reassembly of
    one log frame inside the telemetry transaction, the post-commit headers and
    the firmware download. Timestamps are seconds. The INET syntax check of the
    database is a parameter. *)

From S2P Require Import Prelude GoLib Crypto Db Rollout OtaTicket.
Import GoLib Crypto.

Module LogIngest.

(** ** Parsers *)

(** [pInt64]: [None] when absent or unparsable. *)
Definition pInt64 (s : string) : option Z :=
  match parse_int s 64 with
  | (n, None) => Some n
  | (_, Some _) => None
  end.

(** [parseDiag]: later keys win. *)
Definition diag_add (m : gmap string string) (tok : bytes) : gmap string string :=
  match cut tok 61 with
  | Some (k, v) => <[string_of_bytes k := string_of_bytes v]> m
  | None => m
  end.
Definition parseDiag (s : string) : gmap string string :=
  foldl diag_add ∅ (fields (bytes_of_string s)).

Definition mget (m : gmap string string) (k : string) : string := default ""%string (m !! k).

(** [ni], [nbool], [ntext]: a value or SQL NULL. [ni] and [pInt64] agree. *)
Definition ni (s : string) : option Z := pInt64 s.
Definition nbool (s : string) : option bool :=
  if bool_decide (s = "1"%string) then Some true
  else if bool_decide (s = "0"%string) then Some false else None.
Definition ntext (s : string) : option string :=
  if bool_decide (s = ""%string) then None else Some s.

Record logFrame := MkFrame {
  epoch : Z; end_ : Z; base : option Z; gapClaim : Z; explicit : bool }.

Definition parseLogFrame (q : query_params) (frameHdr : string) : option logFrame :=
  let fallback :=
    match pInt64 (qget q "off") with
    | None => None
    | Some e => Some (MkFrame (default 0 (pInt64 (qget q "bc"))) e None 0 false)
    end in
  if bool_decide (frameHdr = ""%string) then fallback
  else
    let m := parseDiag frameHdr in
    match pInt64 (mget m "ep"), pInt64 (mget m "end") with
    | Some ep, Some e =>
        Some (MkFrame ep e (pInt64 (mget m "base")) (default 0 (pInt64 (mget m "gap"))) true)
    | _, _ => fallback
    end.

Definition logFrameMax_default : Z := 65536.
Definition logFrameMaxFromEnv (v : string) : Z :=
  match parse_int v 64 with
  | (n, None) => if 0 <? n then n else logFrameMax_default
  | _ => logFrameMax_default
  end.

(** ** Tables *)

Record log_cursor := MkLogCursor { c_epoch : Z; ack_off : Z; last_seq : Z }.

(** A device_log_fragment row under its key (serial, epoch, end_off). *)
Record fragment := MkFragment { start_off : option Z; f_payload : string; f_gap : bool }.

Record log_row := MkLog {
  l_time : Z; l_serial : string; l_boot : option Z; l_seq : option Z;
  offset_start : option Z; l_payload : string; source : string; l_gap : bool;
  suspect : bool; ctid : Z }.

Record telemetry_row := MkTelemetry {
  tm_time : Z; tm_serial : string; batt_mv : option Z; batt_pct : option Z;
  bad_boots : option Z; boot_count : option Z; reset_reason : option string;
  usb : option bool; uptime_ms : option Z; running_ver : option string;
  tm_channel : option string; diag_run : string; diag_runstate : option Z;
  diag_o0 : option Z; diag_o1 : option Z; diag_inv : option string; diag_boots : option Z;
  diag_rr : option Z; diag_ota_rr : option Z; diag_mv : option Z; diag_mv_err : option Z;
  diag_stage : option string; src_ip : option string }.

Record db := MkDb {
  ota : Rollout.tables;
  telemetry : list telemetry_row;
  log_cursors : gmap string log_cursor;
  fragments : gmap (string * Z * Z) fragment;
  logs : list log_row }.

Definition set_ota o (d : db) : db :=
  MkDb o (telemetry d) (log_cursors d) (fragments d) (logs d).
Definition add_telemetry r (d : db) : db :=
  MkDb (ota d) (telemetry d ++ [r]) (log_cursors d) (fragments d) (logs d).
Definition set_log_cursors f (d : db) : db :=
  MkDb (ota d) (telemetry d) (f (log_cursors d)) (fragments d) (logs d).
Definition set_fragments f (d : db) : db :=
  MkDb (ota d) (telemetry d) (log_cursors d) (f (fragments d)) (logs d).
Definition set_logs l (d : db) : db :=
  MkDb (ota d) (telemetry d) (log_cursors d) (fragments d) l.

Definition known (serial : string) (d : db) : bool :=
  bool_decide (is_Some (Rollout.devices (ota d) !! serial)).

(** ** Reassembly of one frame (logingest.go) *)

(** The checks made before the cursor is read. *)
Definition frame_plausible (lf : logFrame) (payload : string) (maxFrame : Z) : bool :=
  if bool_decide (payload = ""%string) || (end_ lf <? 0) then false
  else if explicit lf then
    match base lf with
    | Some b => if end_ lf <? b then false
                else if gapClaim lf <? 0 then false
                else negb (maxFrame <? i64 (end_ lf - b))
    | None => negb (gapClaim lf <? 0)
    end
  else true.

Definition create_cursor (serial : string) (d : db) : result db_err unit * db :=
  if negb (known serial d) then (Err EConstraint, d)
  else match log_cursors d !! serial with
  | Some _ => (Ok tt, d)
  | None => (Ok tt, set_log_cursors (insert serial (MkLogCursor 0 0 0)) d)
  end.

(** [ON CONFLICT DO NOTHING RETURNING true]. *)
Definition insert_fragment (key : string * Z * Z) (f : fragment) (d : db)
    : result db_err unit * db :=
  match fragments d !! key with
  | Some _ => (Err ENoRows, d)
  | None => (Ok tt, set_fragments (insert key f) d)
  end.

Definition append_log (r : Z → log_row) (d : db) : db :=
  set_logs (logs d ++ [r (zlen (logs d))]) d.

(** The cursor after a frame: a newer epoch resets it, the same epoch keeps the
    maximum, an older one leaves it. *)
Definition advance (lf : logFrame) (cur : log_cursor) : Z * Z :=
  if c_epoch cur <? epoch lf then (epoch lf, end_ lf)
  else if epoch lf =? c_epoch cur then
    (c_epoch cur, if ack_off cur <? end_ lf then end_ lf else ack_off cur)
  else (c_epoch cur, ack_off cur).

Definition in_sync (lf : logFrame) (cur : log_cursor) : bool :=
  (epoch lf =? c_epoch cur) && (ack_off cur <? end_ lf).
Definition is_gap (lf : logFrame) (cur : log_cursor) : bool := c_epoch cur <? epoch lf.
Definition is_suspect (lf : logFrame) (cur : log_cursor) : bool :=
  ((epoch lf =? c_epoch cur) && (end_ lf <? ack_off cur)) || (epoch lf <? c_epoch cur).

(** Returns the ack and whether the push was acknowledged. *)
Definition reassembleLog (now : Z) (serial : string) (lf : logFrame) (payload : string)
    (maxFrame : Z) : M (Tx db) db_err (Z * bool) :=
  if negb (frame_plausible lf payload maxFrame) then mret (0, false)
  else
    _ ← tx_stmt EDb (create_cursor serial);
    cur ← tx_query EDb (λ d, match log_cursors d !! serial with
                             | Some c => Ok c | None => Err ENoRows end);
    if negb (explicit lf) && in_sync lf cur && (maxFrame <? i64 (end_ lf - ack_off cur))
    then mret (0, false)
    else
      let startOff := if in_sync lf cur then Some (ack_off cur) else None in
      ins ← attempt (tx_stmt EDb (insert_fragment (serial, epoch lf, end_ lf)
                                    (MkFragment startOff payload (is_gap lf cur))));
      inserted ← (match ins with
                  | Ok _ => mret true
                  | Err ENoRows => mret false
                  | Err e => throw e
                  end : M (Tx db) db_err bool);
      newSeq ← (if inserted : bool then
                  _ ← tx_exec EDb (append_log (MkLog now serial (Some (epoch lf))
                        (Some (i64 (last_seq cur + 1))) startOff payload "telemetry"
                        (is_gap lf cur) (is_suspect lf cur)));
                  mret (i64 (last_seq cur + 1))
                else mret (last_seq cur) : M (Tx db) db_err Z);
      let '(newEpoch, newAck) := advance lf cur in
      _ ← tx_exec EDb (set_log_cursors (alter (λ _, MkLogCursor newEpoch newAck newSeq) serial));
      mret (newAck, true).

Definition insertSnapshot (now : Z) (serial : string) (bootCount : option Z) (payload : string)
    : M db db_err unit :=
  exec EDb (append_log (MkLog now serial bootCount None None payload "ota-snapshot" false false)).

(** ** The telemetry push (server.go) *)

Definition expectedKeys : list string := ["v"; "p"; "bad"; "bc"; "rr"; "usb"; "up"; "id"]%string.
Definition hasExpectedKey (q : query_params) : bool :=
  existsb (λ k, bool_decide (is_Some (q !! k))) expectedKeys.
Fixpoint first (vals : list string) : string :=
  match vals with
  | [] => ""
  | v :: vals => if bool_decide (v = ""%string) then first vals else v
  end.

Record request := MkRequest {
  r_query : query_params; r_diag : string; r_log : string; r_log_frame : string;
  r_ticket : string; r_ip : string }.

(** [ON CONFLICT (serial) DO UPDATE SET last_seen = now(), mac =
    COALESCE(devices.mac, EXCLUDED.mac)]; a new row has channel 'stable'. *)
Definition upsert_device (now : Z) (serial mac : string) (d : db) : result db_err unit * db :=
  let t := ota d in
  match Rollout.devices t !! serial with
  | Some dv =>
      (Ok tt, set_ota (Rollout.set_devices (insert serial
         (Rollout.MkDevice (Rollout.channel dv)
            (match Rollout.mac dv with Some m => Some m | None => ntext mac end) (Some now))) t) d)
  | None =>
      if negb (bool_decide (is_Some (Rollout.channels t !! "stable"%string))) then (Err EConstraint, d)
      else (Ok tt, set_ota (Rollout.set_devices (insert serial
              (Rollout.MkDevice "stable" (ntext mac) (Some now))) t) d)
  end.

(** The width of a SMALLINT or INTEGER column. *)
Definition fits (bits : Z) (v : option Z) : bool :=
  match v with
  | None => true
  | Some n => (- 2 ^ (bits - 1) <=? n) && (n <? 2 ^ (bits - 1))
  end.

Section Inet.
Context (inet_ok : string → bool).

Definition telemetry_fits (r : telemetry_row) : bool :=
  fits 32 (batt_mv r) && fits 16 (batt_pct r) && fits 32 (bad_boots r) &&
  fits 16 (diag_runstate r) && fits 16 (diag_o0 r) && fits 16 (diag_o1 r) &&
  fits 16 (diag_rr r) && fits 16 (diag_ota_rr r) && fits 16 (diag_mv_err r) &&
  match src_ip r with Some ip => inet_ok ip | None => true end.

Definition telemetry_of (now : Z) (serial : string) (r : request) : telemetry_row :=
  let get k := qget (r_query r) k in
  let d := mget (parseDiag (r_diag r)) in
  MkTelemetry now serial (ni (get "v")) (ni (get "p")) (ni (get "bad")) (ni (get "bc"))
    (ntext (get "rr")) (nbool (get "usb")) (ni (get "up")) (ntext (get "fw")) (ntext (get "ch"))
    (d "run") (ni (d "runstate")) (ni (d "o0")) (ni (d "o1")) (ntext (d "inv")) (ni (d "boots"))
    (ni (d "rr")) (ni (d "ota_rr")) (ni (d "mv")) (ni (d "mv_err")) (ntext (d "stage"))
    (ntext (r_ip r)).

Definition insert_telemetry (row : telemetry_row) (d : db) : result db_err unit * db :=
  if telemetry_fits row then (Ok tt, add_telemetry row d) else (Err EConstraint, d).

(** The X-Picpak-Log ride-along. *)
Definition ride_along (now maxFrame : Z) (r : request) (serial : string)
    : M (Tx db) db_err (Z * bool) :=
  if bool_decide (r_log r = ""%string) then mret (0, false)
  else match parseLogFrame (r_query r) (r_log_frame r) with
       | Some lf => reassembleLog now serial lf (r_log r) maxFrame
       | None => mret (0, false)
       end.

Definition ingest_body (now : Z) (maxFrame : Z) (r : request) (serial : string)
    : M (Tx db) db_err (Z * bool) :=
  _ ← tx_stmt EDb (upsert_device now serial (qget (r_query r) "id"));
  _ ← tx_stmt EDb (insert_telemetry (telemetry_of now serial r));
  ack ← ride_along now maxFrame r serial;
  _ ← commit EDb;
  mret ack.

Definition ingest (now maxFrame : Z) (r : request) (serial : string) : M db db_err (Z * bool) :=
  with_tx EDb (ingest_body now maxFrame r serial).

(** ** The OTA signal and the download (ota.go) *)

Record config := MkConfig {
  otaServeEnabled : bool; otaKey : bytes; otaTTL : Z; logFrameMax : Z }.

Definition otaArmed (cfg : config) : bool :=
  otaServeEnabled cfg && OtaTicket.KeyStrong (otaKey cfg).

(** The headers the signal adds; never an error. The clock is nanoseconds. *)
Definition injectOTASignal (cfg : config) (nowNs : Z) (serial : string)
    : M db db_err (list (string * string)) :=
  if negb (otaArmed cfg) then mret []
  else
    r ← attempt (zoom ota set_ota (Rollout.ResolveTarget serial));
    match r with
    | Err _ => mret []
    | Ok r =>
        if bool_decide (Rollout.RSource r = Rollout.SourceNone) ||
           bool_decide (Rollout.Version r = ""%string) then mret []
        else mret [("X-Firmware-Version"%string, Rollout.Version r);
                   ("X-Firmware-Ticket"%string,
                    string_of_bytes (OtaTicket.Mint nowNs (otaKey cfg) (bytes_of_string serial)
                      (bytes_of_string (Rollout.Version r)) (otaTTL cfg)))]
    end.

Definition ack_header (ack : Z * bool) : list (string * string) :=
  if ack.2 then [("X-Log-Ack-Offset"%string, format_int ack.1)] else [].

Definition handleIngest (cfg : config) (nowNs : Z) (r : request) : M db db_err response :=
  let serial := first [qget (r_query r) "sn"; qget (r_query r) "id"] in
  if negb (hasExpectedKey (r_query r)) then mret (bare 404)
  else if bool_decide (serial = ""%string) then mret (bare 404)
  else
    a ← attempt (ingest (OtaTicket.unix nowNs) (logFrameMax cfg) r serial);
    match a with
    | Err _ => mret (bare 500)
    | Ok ack =>
        sig ← injectOTASignal cfg nowNs serial;
        mret (Resp 200 (ack_header ack ++ sig) (bytes_of_string "ok"))
    end.

Definition handleFirmware (cfg : config) (nowNs : Z) (r : request) : M db db_err response :=
  if negb (otaServeEnabled cfg) then mret (bare 404)
  else if negb (OtaTicket.KeyStrong (otaKey cfg)) then mret (bare 503)
  else if bool_decide (r_ticket r = ""%string) then mret (bare 403)
  else
    match OtaTicket.Verify nowNs (otaKey cfg) (bytes_of_string (r_ticket r)) with
    | Err _ => mret (bare 403)
    | Ok (sn, version) =>
        row ← attempt (query EDb (λ d,
          match Rollout.firmware_versions (ota d) !! string_of_bytes version with
          | Some row => Ok row | None => Err ENoRows end));
        match row with
        | Err ENoRows => mret (bare 404)
        | Err _ => mret (bare 500)
        | Ok row =>
            f ← attempt (query EDb (λ d,
              match Rollout.blobs (ota d) !!
                    string_of_bytes (path_base (bytes_of_string (Rollout.blob_path row))) with
              | Some b => Ok b | None => Err ENoRows end));
            match f with
            | Err _ => mret (bare 500)
            | Ok b =>
                _ ← (if bool_decide (r_log r = ""%string) then mret (Ok tt)
                     else attempt (insertSnapshot (OtaTicket.unix nowNs) (string_of_bytes sn)
                                     (ni (qget (r_query r) "bc")) (r_log r))
                     : M db db_err (result db_err unit));
                mret (Resp 200 [("X-Firmware-SHA256"%string, Rollout.sha256_ row);
                                ("Content-Type"%string, "application/octet-stream"%string);
                                ("Content-Length"%string, format_int (Rollout.size_bytes row))] b)
            end
        end
    end.
End Inet.
(** ** Specification: one frame, one push *)

Definition cursor_of (serial : string) (d : db) : log_cursor :=
  default (MkLogCursor 0 0 0) (log_cursors d !! serial).

(** The tables and the answer after a frame that no statement failed on. *)
Definition log_spec (now : Z) (serial : string) (lf : logFrame) (payload : string) (maxFrame : Z)
    (d : db) : db * (Z * bool) :=
  if negb (frame_plausible lf payload maxFrame) then (d, (0, false))
  else
    let cur := cursor_of serial d in
    let d1 := set_log_cursors (insert serial cur) d in
    if negb (explicit lf) && in_sync lf cur && (maxFrame <? i64 (end_ lf - ack_off cur))
    then (d1, (0, false))
    else
      let start := if in_sync lf cur then Some (ack_off cur) else None in
      let key := (serial, epoch lf, end_ lf) in
      let '(e, a) := advance lf cur in
      match fragments d !! key with
      | Some _ => (set_log_cursors (insert serial (MkLogCursor e a (last_seq cur))) d, (a, true))
      | None =>
          (set_log_cursors (insert serial (MkLogCursor e a (i64 (last_seq cur + 1))))
             (append_log (MkLog now serial (Some (epoch lf)) (Some (i64 (last_seq cur + 1))) start
                            payload "telemetry" (is_gap lf cur) (is_suspect lf cur))
                (set_fragments (insert key (MkFragment start payload (is_gap lf cur))) d)),
           (a, true))
      end.

Definition ride_spec (now maxFrame : Z) (r : request) (serial : string) (d : db)
    : db * (Z * bool) :=
  if bool_decide (r_log r = ""%string) then (d, (0, false))
  else match parseLogFrame (r_query r) (r_log_frame r) with
       | Some lf => log_spec now serial lf (r_log r) maxFrame d
       | None => (d, (0, false))
       end.

Section Spec.
Context (inet_ok : string → bool).

Definition ingest_spec (now maxFrame : Z) (r : request) (serial : string) (d : db)
    : option (db * (Z * bool)) :=
  match upsert_device now serial (qget (r_query r) "id") d with
  | (Err _, _) => None
  | (Ok _, d1) =>
      match insert_telemetry inet_ok (telemetry_of now serial r) d1 with
      | (Err _, _) => None
      | (Ok _, d2) => Some (ride_spec now maxFrame r serial d2)
      end
  end.
End Spec.

(** ** Lemmas: the transaction against the specification *)

Lemma alter_const_insert {A} (m : gmap string A) k x y :
  alter (λ _, x) k (<[k := y]> m) = <[k := x]> m.
Proof. by rewrite alter_insert_eq. Qed.

Lemma cursor_insert serial d :
  set_log_cursors (insert serial (cursor_of serial d)) d =
  match log_cursors d !! serial with
  | Some _ => d
  | None => set_log_cursors (insert serial (MkLogCursor 0 0 0)) d
  end.
Proof.
  unfold cursor_of. destruct (log_cursors d !! serial) as [c|] eqn:Hc; simpl; [|done].
  unfold set_log_cursors. rewrite insert_id by done. by destruct d.
Qed.

Ltac log_stop := eexists _, _, _; split; [reflexivity|]; split; [reflexivity|];
  split; [first [done|exact I]|by intros].

Ltac log_fault := match goal with fs : list bool |- _ => destruct fs as [|[] fs]; simpl; [|log_stop|] end.

Ltac log_go Ha H1 H2 :=
  rewrite ?Ha; simpl; rewrite ?H1, ?H2; first [log_stop|log_fault; log_go Ha H1 H2].

Lemma reassembleLog_implements now serial lf payload mx (w : db) :
  known serial w = true →
  implements (reassembleLog now serial lf payload mx) w
    (Some (log_spec now serial lf payload mx w)).
Proof.
  intros Hk c fs. unfold reassembleLog, log_spec.
  destruct (frame_plausible _ _ _); cbn [negb]; [|log_stop].
  pose proof (cursor_insert serial w) as Hcre. cbv zeta. set (cur := cursor_of serial w) in *.
  assert (∃ d1, create_cursor serial w = (Ok tt, d1) ∧ log_cursors d1 !! serial = Some cur ∧
    fragments d1 = fragments w ∧ d1 = set_log_cursors (insert serial cur) w ∧
    (∀ x, set_log_cursors (alter (λ _, x) serial) d1 = set_log_cursors (insert serial x) w) ∧
    (∀ x g k f, set_log_cursors (alter (λ _, x) serial)
        (append_log g (set_fragments (insert k f) d1)) =
      set_log_cursors (insert serial x) (append_log g (set_fragments (insert k f) w))))
    as (d1 & Hc & Hl & Hfr & Hd1 & Halt & Hall).
  { exists (set_log_cursors (insert serial cur) w). split_and!; try done.
    - unfold create_cursor. rewrite Hk, Hcre. simpl. by destruct (log_cursors w !! serial).
    - simpl. by rewrite lookup_insert_eq.
    - intros x. unfold set_log_cursors. simpl. by rewrite alter_const_insert.
    - intros x g k f. unfold set_log_cursors, append_log, set_logs, set_fragments. simpl.
      by rewrite alter_const_insert. }
  rewrite <-Hd1. clear Hd1 Hcre. destruct (advance lf cur) as [e a] eqn:Hadv. clearbody cur.
  unfold insert_fragment. db_unfold.
  log_fault; rewrite Hc; simpl; [rewrite Hl; simpl|log_fault; rewrite Hl; simpl];
    (destruct (_ && _ && _); [log_stop|simpl]).
  - rewrite Hfr, Hadv. destruct (fragments w !! _); simpl; rewrite ?Halt, ?Hall; log_stop.
  - rewrite Hfr, Hadv. destruct (fragments w !! _); simpl; rewrite ?Halt, ?Hall; log_stop.
  - log_fault; rewrite Hfr; destruct (fragments w !! _); simpl; log_go Hadv Halt Hall.
Qed.


Lemma upsert_known now serial m d d1 :
  upsert_device now serial m d = (Ok tt, d1) → known serial d1 = true.
Proof.
  unfold upsert_device, known. destruct (Rollout.devices (ota d) !! serial) as [dv|].
  - intros [_ <-]%Ok_pair_inv. simpl. by rewrite lookup_insert_eq.
  - destruct (bool_decide _); [|done]. simpl. intros [_ <-]%Ok_pair_inv. simpl.
    by rewrite lookup_insert_eq.
Qed.

Lemma ride_along_implements now mx r serial w :
  known serial w = true →
  implements (ride_along now mx r serial) w (Some (ride_spec now mx r serial w)).
Proof.
  intros Hk. unfold ride_along, ride_spec. case_bool_decide; [apply implements_ret|].
  destruct (parseLogFrame _ _); [by apply reassembleLog_implements|apply implements_ret].
Qed.

Section Run.
Context (inet_ok : string → bool).

Lemma insert_telemetry_known row serial d d1 :
  insert_telemetry inet_ok row d = (Ok tt, d1) → known serial d1 = known serial d.
Proof.
  unfold insert_telemetry. destruct (telemetry_fits _ _); [|done]. by intros [_ <-]%Ok_pair_inv.
Qed.

Lemma ingest_body_commits now mx r serial d :
  commits (ingest_body inet_ok now mx r serial) d d (ingest_spec inet_ok now mx r serial d).
Proof.
  unfold ingest_body, ingest_spec.
  pose proof (implements_stmt EDb (upsert_device now serial (qget (r_query r) "id")) d) as Hu.
  destruct (upsert_device _ _ _ d) as [[[]|e] d1] eqn:Hup; [|by apply commits_bind_None].
  eapply commits_bind_Some; [exact Hu|]. apply upsert_known in Hup.
  pose proof (implements_stmt EDb (insert_telemetry inet_ok (telemetry_of now serial r)) d1) as Hi.
  destruct (insert_telemetry _ _ d1) as [[[]|e] d2] eqn:Hin; [|by apply commits_bind_None].
  eapply commits_bind_Some; [exact Hi|]. apply (insert_telemetry_known _ serial) in Hin.
  pose proof (ride_along_implements now mx r serial d2 ltac:(congruence)) as Hr.
  destruct (ride_spec _ _ _ _ d2) as [d3 ack].
  eapply commits_bind_Some; [exact Hr|apply commits_end].
Qed.

Lemma ingest_run now mx r serial d fs :
  ∃ x d' fs', ingest inet_ok now mx r serial d fs = (x, d', fs') ∧
    match x with
    | Ok ack => ingest_spec inet_ok now mx r serial d = Some (d', ack)
    | Err _ => d' = d
    end ∧
    (fs = [] → fs' = [] ∧ is_ok x = bool_decide (is_Some (ingest_spec inet_ok now mx r serial d))).
Proof. apply with_tx_commits, ingest_body_commits. Qed.
End Run.


(** ** Lemmas: the post-commit part *)

Lemma injectOTASignal_reads cfg ns serial d fs :
  ∃ hdrs fs', injectOTASignal cfg ns serial d fs = (Ok hdrs, d, fs') ∧
    Forall (λ h, h.1 ≠ "X-Log-Ack-Offset"%string) hdrs ∧
    (otaArmed cfg = false → hdrs = []).
Proof.
  unfold injectOTASignal. destruct (otaArmed cfg); simpl; [|by eexists _, _].
  unfold mbind, M_bind, attempt, zoom, mret, M_ret.
  destruct (Rollout.ResolveTarget_reads serial (ota d) fs) as (r & fs' & ->).
  assert (set_ota (ota d) d = d) as -> by by destruct d.
  destruct r as [r|e]; [|by eexists _, _].
  destruct (_ || _); eexists _, _; (split; [reflexivity|]); [done|].
  split; [by repeat constructor|done].
Qed.

Lemma log_spec_ack now serial lf payload mx d d' ack :
  log_spec now serial lf payload mx d = (d', ack) → ack.2 = true →
  ∃ c, log_cursors d' !! serial = Some c ∧ ack.1 = ack_off c.
Proof.
  unfold log_spec. intros H Ha. destruct (negb _); [by simplify_eq|]. cbv zeta in H.
  destruct (_ && _); [by simplify_eq|]. destruct (advance _ _) as [e a].
  destruct (fragments d !! _); simplify_eq/=; eexists; by rewrite lookup_insert_eq.
Qed.

(** What a frame leaves alone: everything but the log tables. *)
Lemma log_spec_rest now serial lf payload mx d :
  ota (log_spec now serial lf payload mx d).1 = ota d ∧
  telemetry (log_spec now serial lf payload mx d).1 = telemetry d.
Proof.
  unfold log_spec. destruct (negb _); [done|]. cbv zeta. destruct (_ && _); [done|].
  destruct (advance _ _). by destruct (fragments d !! _).
Qed.

Lemma ride_spec_cases now mx r serial d :
  ride_spec now mx r serial d = (d, (0, false)) ∨
  ∃ lf, parseLogFrame (r_query r) (r_log_frame r) = Some lf ∧
        ride_spec now mx r serial d = log_spec now serial lf (r_log r) mx d.
Proof.
  unfold ride_spec. case_bool_decide; [by left|].
  destruct (parseLogFrame _ _) as [lf|]; [right; by exists lf|by left].
Qed.

Lemma upsert_device_rest now serial m d d1 :
  upsert_device now serial m d = (Ok tt, d1) →
  telemetry d1 = telemetry d ∧ log_cursors d1 = log_cursors d ∧ fragments d1 = fragments d ∧
  logs d1 = logs d.
Proof.
  unfold upsert_device. destruct (Rollout.devices (ota d) !! serial).
  - by intros [_ <-]%Ok_pair_inv.
  - destruct (bool_decide _); [|done]. simpl. by intros [_ <-]%Ok_pair_inv.
Qed.

Section Handler.
Context (inet_ok : string → bool).

(** The tables a push starts its log step from. *)
Lemma ingest_spec_inv now mx r serial d d' ack :
  ingest_spec inet_ok now mx r serial d = Some (d', ack) →
  ∃ d2, ride_spec now mx r serial d2 = (d', ack) ∧ known serial d2 = true ∧
    telemetry d2 = telemetry d ++ [telemetry_of now serial r] ∧
    log_cursors d2 = log_cursors d ∧ fragments d2 = fragments d ∧ logs d2 = logs d.
Proof.
  unfold ingest_spec. destruct (upsert_device _ _ _ _) as [[[]|] d1] eqn:Hu; [|done].
  destruct (insert_telemetry _ _ _) as [[[]|] d2] eqn:Hi; [|done]. intros H%(inj Some).
  pose proof (insert_telemetry_known inet_ok _ serial _ _ Hi) as Hk.
  rewrite (upsert_known _ _ _ _ _ Hu) in Hk.
  apply upsert_device_rest in Hu as (Ht & Hc & Hf & Hl).
  unfold insert_telemetry in Hi. destruct (telemetry_fits _ _); [|done].
  apply Ok_pair_inv in Hi as [_ <-]. exists (add_telemetry (telemetry_of now serial r) d1).
  split_and!; try done. simpl. by rewrite Ht.
Qed.

Definition serial_of (r : request) : string :=
  first [qget (r_query r) "sn"; qget (r_query r) "id"].

Lemma handleIngest_run cfg ns r d fs :
  ∃ resp d' fs', handleIngest inet_ok cfg ns r d fs = (Ok resp, d', fs') ∧
    ((d' = d ∧ (resp = bare 404 ∨ resp = bare 500)) ∨
     (∃ ack hdrs, ingest_spec inet_ok (OtaTicket.unix ns) (logFrameMax cfg) r (serial_of r) d =
                    Some (d', ack) ∧
        resp = Resp 200 (ack_header ack ++ hdrs) (bytes_of_string "ok") ∧
        Forall (λ h, h.1 ≠ "X-Log-Ack-Offset"%string) hdrs)) ∧
    (fs = [] → hasExpectedKey (r_query r) = true → serial_of r ≠ ""%string →
     is_Some (ingest_spec inet_ok (OtaTicket.unix ns) (logFrameMax cfg) r (serial_of r) d) →
     status resp = 200).
Proof.
  unfold handleIngest. fold (serial_of r).
  destruct (hasExpectedKey _); simpl; [|eexists _, _, _; split; [done|]; split; [by auto|done]].
  case_bool_decide; [eexists _, _, _; split; [done|]; split; [by auto|done]|].
  unfold mbind at 1, M_bind at 1, attempt at 1.
  destruct (ingest_run inet_ok (OtaTicket.unix ns) (logFrameMax cfg) r (serial_of r) d fs)
    as (x & d' & fs' & -> & Hx & Hn). destruct x as [ack|e].
  - destruct (injectOTASignal_reads cfg ns (serial_of r) d' fs') as (hdrs & fs2 & Hs & Hh & _).
    unfold mbind, M_bind. rewrite Hs. eexists _, _, _. split; [reflexivity|].
    split; [right; by eexists _, _|done].
  - eexists _, _, _. split; [reflexivity|]. split; [by auto|].
    intros -> _ _ Hsome. destruct (Hn eq_refl) as [_ Hok]. simpl in Hok.
    by rewrite bool_decide_true in Hok.
Qed.

Ltac fw_stop :=
  eexists _, _, _; split; [reflexivity|];
  split; [first [by left|right; by eexists]|first [done|intros _; by eexists _, _, _, _]].

Lemma handleFirmware_run cfg ns r d fs :
  ∃ resp d' fs', handleFirmware cfg ns r d fs = (Ok resp, d', fs') ∧
    (d' = d ∨ ∃ row, d' = append_log row d ∧ ∀ c, source (row c) = "ota-snapshot"%string) ∧
    (status resp = 200 →
       ∃ sn version row b, OtaTicket.Verify ns (otaKey cfg) (bytes_of_string (r_ticket r)) =
           Ok (sn, version) ∧ otaArmed cfg = true ∧
         Rollout.firmware_versions (ota d) !! string_of_bytes version = Some row ∧
         Rollout.blobs (ota d) !!
           string_of_bytes (path_base (bytes_of_string (Rollout.blob_path row))) = Some b ∧
         resp = Resp 200 [("X-Firmware-SHA256"%string, Rollout.sha256_ row);
                          ("Content-Type"%string, "application/octet-stream"%string);
                          ("Content-Length"%string, format_int (Rollout.size_bytes row))] b).
Proof.
  unfold handleFirmware, otaArmed.
  destruct (otaServeEnabled cfg); simpl; [|fw_stop].
  destruct (OtaTicket.KeyStrong _); simpl; [|fw_stop]. case_bool_decide; [fw_stop|].
  destruct (OtaTicket.Verify _ _ _) as [[sn version]|e]; [|fw_stop].
  unfold insertSnapshot. db_unfold.
  destruct fs as [|[] fs]; simpl; [|fw_stop|];
    (destruct (Rollout.firmware_versions _ !! _) as [row|] eqn:Hrow; simpl; [|fw_stop]).
  - destruct (Rollout.blobs _ !! _) as [b|] eqn:Hb; simpl; [|fw_stop].
    case_bool_decide; simpl; fw_stop.
  - destruct fs as [|[] fs]; simpl; [|fw_stop|];
      (destruct (Rollout.blobs _ !! _) as [b|] eqn:Hb; simpl; [|fw_stop]);
      (case_bool_decide; simpl; [fw_stop|]); [fw_stop|].
    destruct fs as [|[] fs]; simpl; fw_stop.
Qed.
End Handler.


(** ** The log invariant *)

(** The sequence numbers of a device's reassembled rows, in insertion order. *)
Definition tele_rows (serial : string) (l : list log_row) : list log_row :=
  List.filter (λ r, bool_decide (l_serial r = serial) &&
                    bool_decide (source r = "telemetry"%string)) l.
Definition tele_seqs (serial : string) (l : list log_row) : list (option Z) :=
  l_seq <$> tele_rows serial l.

(** Dense sequence numbers, and no fragment past the cursor. *)
Definition log_wf (serial : string) (d : db) : Prop :=
  let cur := cursor_of serial d in
  0 ≤ last_seq cur ∧ tele_seqs serial (logs d) = Some <$> seqZ 1 (last_seq cur) ∧
  ∀ e n f, fragments d !! (serial, e, n) = Some f →
    is_Some (log_cursors d !! serial) ∧
    (e < c_epoch cur ∨ (e = c_epoch cur ∧ n ≤ ack_off cur)).

(** Cursors only move forward. *)
Definition cursor_le (c c' : log_cursor) : Prop :=
  (c_epoch c < c_epoch c' ∨ (c_epoch c = c_epoch c' ∧ ack_off c ≤ ack_off c')) ∧
  last_seq c ≤ last_seq c'.

Lemma cursor_le_refl c : cursor_le c c.
Proof. unfold cursor_le. lia. Qed.

Lemma cursor_of_insert serial c d :
  cursor_of serial (set_log_cursors (insert serial c) d) = c.
Proof. unfold cursor_of. simpl. by rewrite lookup_insert_eq. Qed.

Lemma tele_seqs_app serial l1 l2 :
  tele_seqs serial (l1 ++ l2) = tele_seqs serial l1 ++ tele_seqs serial l2.
Proof. unfold tele_seqs, tele_rows. by rewrite List.filter_app, fmap_app. Qed.

Lemma log_wf_bound serial d : log_wf serial d → last_seq (cursor_of serial d) ≤ zlen (logs d).
Proof.
  intros (Hpos & Hseq & _). apply (f_equal length) in Hseq.
  unfold tele_seqs, tele_rows in Hseq. rewrite !length_fmap, length_seqZ in Hseq.
  pose proof (filter_length_le (λ r, bool_decide (l_serial r = serial) &&
    bool_decide (source r = "telemetry"%string)) (logs d)). unfold zlen. lia.
Qed.

Lemma log_wf_ext serial d d' :
  log_cursors d' = log_cursors d → fragments d' = fragments d → logs d' = logs d →
  log_wf serial d → log_wf serial d'.
Proof. unfold log_wf, cursor_of. by intros -> -> ->. Qed.

Lemma seqZ_snoc n : 0 ≤ n → seqZ 1 (n + 1) = seqZ 1 n ++ [n + 1].
Proof.
  intros. rewrite seqZ_app by lia. by replace (1 + n) with (n + 1) by lia.
Qed.

(** A row of another device, or of another source, is not counted. *)
Lemma log_wf_foreign serial row d :
  (∀ c, l_serial (row c) ≠ serial ∨ source (row c) ≠ "telemetry"%string) →
  log_wf serial d → log_wf serial (append_log row d).
Proof.
  intros Hr (Hpos & Hseq & Hfr). split_and!; [done| |done]. simpl.
  rewrite tele_seqs_app. unfold tele_seqs at 2, tele_rows. simpl.
  destruct (Hr (zlen (logs d))) as [H|H].
  - rewrite bool_decide_false by done. simpl. by rewrite app_nil_r.
  - rewrite (bool_decide_false (source _ = _)) by done. rewrite andb_false_r. simpl.
    by rewrite app_nil_r.
Qed.

Lemma advance_forward lf cur :
  let '(e, a) := advance lf cur in
  (c_epoch cur < e ∨ (c_epoch cur = e ∧ ack_off cur ≤ a)) ∧
  (epoch lf < e ∨ (epoch lf = e ∧ end_ lf ≤ a)) ∧
  (epoch lf ≤ c_epoch cur → e = c_epoch cur).
Proof. unfold advance. zcase; lia. Qed.

(** The frame's own device. *)
Lemma log_spec_wf_own now serial lf payload mx d :
  log_wf serial d → zlen (logs (log_spec now serial lf payload mx d).1) ≤ max_i64 →
  log_wf serial (log_spec now serial lf payload mx d).1 ∧
  cursor_le (cursor_of serial d) (cursor_of serial (log_spec now serial lf payload mx d).1).
Proof.
  intros Hwf Hlen. pose proof (log_wf_bound _ _ Hwf) as Hb. unfold log_spec in *.
  destruct (negb _); [split; [done|apply cursor_le_refl]|]. cbv zeta in *.
  pose proof (cursor_insert serial d) as Hci. set (cur := cursor_of serial d) in *.
  destruct (_ && _).
  { cbn [fst]. rewrite Hci. split.
    - destruct (log_cursors d !! serial) as [c|] eqn:Hc; [done|].
      destruct Hwf as (Hpos & Hseq & Hfr).
      unfold log_wf, cur, cursor_of in *. simpl. rewrite lookup_insert_eq, Hc in *.
      split_and!; [done|done|]. intros e n f Hf. by destruct (Hfr e n f Hf).
    - destruct (log_cursors d !! serial) as [c|] eqn:Hc; [apply cursor_le_refl|].
      unfold cursor_le, cur, cursor_of. simpl. rewrite lookup_insert_eq, Hc. simpl. lia. }
  pose proof (advance_forward lf cur) as Hadv. destruct (advance lf cur) as [e a].
  destruct Hadv as (Hmono & Hcov & _). destruct Hwf as (Hpos & Hseq & Hfr). fold cur in Hpos, Hseq, Hfr.
  destruct (fragments d !! _) as [f|] eqn:Hf; simpl in *.
  - split.
    + unfold log_wf, cursor_of. simpl. rewrite lookup_insert_eq. simpl.
      split_and!; [done|done|]. intros e' n f' Hf'. split; [done|].
      destruct (Hfr _ _ _ Hf') as [_ H]. lia.
    + rewrite cursor_of_insert. unfold cursor_le. simpl. lia.
  - assert (last_seq cur + 1 ≤ max_i64) as Hs
      by (rewrite zlen_app in Hlen; unfold zlen at 2 in Hlen; simpl in Hlen; lia).
    rewrite i64_small by (unfold in_i64, min_i64; lia).
    split.
    + unfold log_wf, cursor_of. simpl. rewrite lookup_insert_eq. simpl. split_and!; [lia| |].
      * rewrite tele_seqs_app, Hseq, seqZ_snoc, fmap_app by done. f_equal.
        unfold tele_seqs, tele_rows. simpl. by rewrite !bool_decide_true.
      * intros e' n f'. rewrite lookup_insert_Some. intros [[[= <- <-] _]|[_ Hf']]; [split; [done|lia]|].
        split; [done|]. destruct (Hfr _ _ _ Hf') as [_ H]. lia.
    + rewrite cursor_of_insert. unfold cursor_le. simpl. lia.
Qed.

(** Any other device. *)
Lemma log_spec_wf_other now serial lf payload mx d s :
  s ≠ serial → log_wf s d →
  log_wf s (log_spec now serial lf payload mx d).1 ∧
  cursor_of s (log_spec now serial lf payload mx d).1 = cursor_of s d.
Proof.
  intros Hne Hwf.
  assert (∀ c d, cursor_of s (set_log_cursors (insert serial c) d) = cursor_of s d) as Hc
    by (intros; unfold cursor_of; simpl; by rewrite lookup_insert_ne).
  assert (∀ c d, log_wf s d → log_wf s (set_log_cursors (insert serial c) d)) as Hset.
  { intros c d0 (Hp & Hs & Hf). unfold log_wf. rewrite Hc. split_and!; [done|done|].
    intros e n f Hfr. simpl. rewrite lookup_insert_ne by done. by eapply Hf. }
  unfold log_spec. destruct (negb _); [done|]. cbv zeta.
  destruct (_ && _); [split; [by apply Hset|apply Hc]|]. destruct (advance _ _) as [e a].
  destruct (fragments d !! _); cbn [fst]; (split; [apply Hset|by rewrite Hc]); [done|].
  apply log_wf_foreign; [by left|]. destruct Hwf as (Hp & Hs & Hf). split_and!; [done|done|].
  intros e' n f. simpl. rewrite lookup_insert_ne by congruence. apply Hf.
Qed.

(** Every request to the push and the download routes, as one transition. *)
Inductive ingest_step : db → db → Prop :=
| step_ingest inet_ok cfg ns r d fs x d' fs' :
    handleIngest inet_ok cfg ns r d fs = (x, d', fs') → ingest_step d d'
| step_firmware cfg ns r d fs x d' fs' :
    handleFirmware cfg ns r d fs = (x, d', fs') → ingest_step d d'.

Lemma log_spec_logs now serial lf payload mx d :
  ∃ l, logs (log_spec now serial lf payload mx d).1 = logs d ++ l.
Proof.
  unfold log_spec. destruct (negb _); [exists []; by rewrite app_nil_r|]. cbv zeta.
  destruct (_ && _); [exists []; by rewrite app_nil_r|]. destruct (advance _ _) as [e a].
  destruct (fragments d !! _); [exists []; by rewrite app_nil_r|by eexists].
Qed.

Lemma ingest_step_wf serial d d' :
  ingest_step d d' → zlen (logs d') ≤ max_i64 → log_wf serial d →
  log_wf serial d' ∧ cursor_le (cursor_of serial d) (cursor_of serial d').
Proof.
  intros Hs Hlen Hwf.
  assert (log_wf serial d ∧ cursor_le (cursor_of serial d) (cursor_of serial d)) as Hrefl
    by (split; [done|apply cursor_le_refl]).
  destruct Hs as [iok cfg ns r d fs x d' fs' H|cfg ns r d fs x d' fs' H].
  - destruct (handleIngest_run iok cfg ns r d fs) as (resp & d1 & fs1 & Hr & Hor & _).
    rewrite H in Hr. injection Hr as -> -> ->.
    destruct Hor as [[-> _]|(ack & hdrs & Hsp & _)]; [done|].
    apply ingest_spec_inv in Hsp as (d2 & Hride & _ & _ & Hc & Hf & Hl).
    assert (log_wf serial d2) as Hwf2 by by eapply log_wf_ext.
    assert (cursor_of serial d2 = cursor_of serial d) as Hcur by (unfold cursor_of; by rewrite Hc).
    destruct (ride_spec_cases (OtaTicket.unix ns) (logFrameMax cfg) r (serial_of r) d2)
      as [Heq|(lf & _ & Heq)]; rewrite Hride in Heq.
    { injection Heq as -> _. rewrite Hcur. split; [done|apply cursor_le_refl]. }
    rewrite <-Hcur. apply (f_equal fst) in Heq. simpl in Heq. rewrite Heq in Hlen |- *.
    destruct (decide (serial = serial_of r)) as [->|Hne]; [by apply log_spec_wf_own|].
    destruct (log_spec_wf_other (OtaTicket.unix ns) (serial_of r) lf (r_log r) (logFrameMax cfg)
      d2 serial Hne Hwf2) as [Hw Hc2]. rewrite Hc2. split; [done|apply cursor_le_refl].
  - destruct (handleFirmware_run cfg ns r d fs) as (resp & d1 & fs1 & Hr & Hor & _).
    rewrite H in Hr. injection Hr as -> -> ->.
    destruct Hor as [-> |(row & -> & Hsrc)]; [done|]. split.
    + apply log_wf_foreign; [|done]. intros c. right. by rewrite Hsrc.
    + exact (proj2 Hrefl).
Qed.

Lemma ingest_step_logs d d' : ingest_step d d' → zlen (logs d) ≤ zlen (logs d').
Proof.
  intros [iok cfg ns r d0 fs x d0' fs' H|cfg ns r d0 fs x d0' fs' H].
  - destruct (handleIngest_run iok cfg ns r d0 fs) as (resp & d1 & fs1 & Hr & Hor & _).
    rewrite H in Hr. injection Hr as -> -> ->.
    destruct Hor as [[-> _]|(ack & hdrs & Hsp & _)]; [done|].
    apply ingest_spec_inv in Hsp as (d2 & Hride & _ & _ & _ & _ & <-).
    destruct (ride_spec_cases (OtaTicket.unix ns) (logFrameMax cfg) r (serial_of r) d2)
      as [Heq|(lf & _ & Heq)]; rewrite Hride in Heq; apply (f_equal fst) in Heq; simpl in Heq;
      rewrite Heq; [done|].
    destruct (log_spec_logs (OtaTicket.unix ns) (serial_of r) lf (r_log r) (logFrameMax cfg) d2)
      as [l ->]. rewrite zlen_app. pose proof (zlen_nonneg l). lia.
  - destruct (handleFirmware_run cfg ns r d0 fs) as (resp & d1 & fs1 & Hr & Hor & _).
    rewrite H in Hr. injection Hr as -> -> ->. destruct Hor as [-> |(row & -> & _)]; [done|].
    simpl. rewrite zlen_app. unfold zlen at 3. simpl. lia.
Qed.


(** A frame whose fragment is already stored changes nothing but is acknowledged. *)
Lemma log_spec_duplicate now serial lf payload mx d f :
  log_wf serial d → frame_plausible lf payload mx = true →
  fragments d !! (serial, epoch lf, end_ lf) = Some f →
  log_spec now serial lf payload mx d = (d, (ack_off (cursor_of serial d), true)).
Proof.
  intros (Hpos & Hseq & Hfr) Hp Hf. unfold log_spec. rewrite Hp. simpl.
  destruct (Hfr _ _ _ Hf) as [Hc Hle]. set (cur := cursor_of serial d) in *.
  assert (in_sync lf cur = false) as ->
    by (unfold in_sync; zcase; rewrite ?andb_false_r; try done; lia).
  rewrite andb_false_r. simpl. rewrite Hf.
  assert (advance lf cur = (c_epoch cur, ack_off cur)) as -> by (unfold advance; zcase; done || lia).
  f_equal. replace (MkLogCursor _ _ _) with cur by by destruct cur.
  unfold cur. rewrite cursor_insert. by destruct Hc as [c ->].
Qed.

(** ** Properties *)

(** C22. A push is atomic and acknowledged durably: under every fault schedule
    it either changes nothing and answers a bare 404 or 500, or its telemetry
    row, device and log effects are all committed and it answers 200; an
    X-Log-Ack-Offset it sends is the committed cursor's offset, and a failing
    OTA signal never withholds it. *)
Theorem handleIngest_durable_ack inet_ok cfg ns r d fs :
  ∃ resp d' fs', handleIngest inet_ok cfg ns r d fs = (Ok resp, d', fs') ∧
    ((d' = d ∧ (resp = bare 404 ∨ resp = bare 500)) ∨
     (status resp = 200 ∧ body resp = bytes_of_string "ok" ∧ known (serial_of r) d' = true ∧
      telemetry d' = telemetry d ++ [telemetry_of (OtaTicket.unix ns) (serial_of r) r] ∧
      ∃ ack, ingest_spec inet_ok (OtaTicket.unix ns) (logFrameMax cfg) r (serial_of r) d =
               Some (d', ack) ∧
        (ack.2 = true ↔ ∃ v, ("X-Log-Ack-Offset"%string, v) ∈ headers resp) ∧
        ∀ v, ("X-Log-Ack-Offset"%string, v) ∈ headers resp →
          ∃ c, log_cursors d' !! serial_of r = Some c ∧ v = format_int (ack_off c))).
Proof.
  destruct (handleIngest_run inet_ok cfg ns r d fs) as (resp & d' & fs' & Hr & Hor & _).
  exists resp, d', fs'. split; [done|]. destruct Hor as [?|(ack & hdrs & Hsp & -> & Hh)]; [by left|].
  right. pose proof (ingest_spec_inv _ _ _ _ _ _ _ _ Hsp) as (d2 & Hride & Hk & Ht & _).
  assert (ota d' = ota d2 ∧ telemetry d' = telemetry d2) as [Ho Htel].
  { destruct (ride_spec_cases (OtaTicket.unix ns) (logFrameMax cfg) r (serial_of r) d2)
      as [Heq|(lf & _ & Heq)]; rewrite Hride in Heq; apply (f_equal fst) in Heq; simpl in Heq;
      subst d'; [done|apply log_spec_rest]. }
  assert (∀ v, ("X-Log-Ack-Offset"%string, v) ∉ hdrs) as Hno
    by (intros v Hv; rewrite Forall_forall in Hh; by apply Hh in Hv).
  split_and!; [done|done| |congruence|].
  { unfold known in *. by rewrite Ho. }
  exists ack. split; [done|]. simpl. destruct ack as [a []]; simpl; split.
  - split; [intros _; eexists; by left|done].
  - intros v [[= ->]|Hv]%elem_of_cons; [|by apply Hno in Hv].
    destruct (ride_spec_cases (OtaTicket.unix ns) (logFrameMax cfg) r (serial_of r) d2)
      as [Heq|(lf & _ & Heq)]; rewrite Hride in Heq; [done|].
    destruct (log_spec_ack _ _ _ _ _ _ _ _ (eq_sym Heq) eq_refl) as (c & Hc & Ha).
    exists c. split; [done|]. simpl in Ha. by rewrite Ha.
  - split; [done|]. by intros [v ?%Hno].
  - by intros v ?%Hno.
Qed.

(** Whatever is pushed and downloaded and whichever statement fails, every
    device's reassembled rows carry the sequence numbers 1, 2, 3, ... without a
    hole, no stored fragment is past its cursor, and a cursor never moves back. *)
Theorem log_stream_invariant serial d d' :
  rtc ingest_step d d' → zlen (logs d') ≤ max_i64 → log_wf serial d →
  log_wf serial d' ∧ cursor_le (cursor_of serial d) (cursor_of serial d').
Proof.
  intros Hr Hlen Hwf.
  induction Hr as [d|d d1 d' Hs Hr IH]; [split; [done|apply cursor_le_refl]|].
  assert (zlen (logs d1) ≤ zlen (logs d')) as Hmono.
  { clear -Hr. induction Hr as [|d d1 d' Hs _ IH]; [done|].
    apply ingest_step_logs in Hs. lia. }
  destruct (ingest_step_wf serial _ _ Hs ltac:(lia) Hwf) as [Hwf1 Hle1].
  destruct (IH Hlen Hwf1) as [Hwf2 Hle2]. split; [done|]. unfold cursor_le in *. lia.
Qed.

(** A retransmitted log delta is idempotent: once its fragment is stored,
    pushing the same epoch and end again, whatever the payload, adds no
    fragment and no row and is acknowledged with the current offset. *)
Theorem reassembleLog_idempotent now serial lf payload mx d f fs :
  log_wf serial d → known serial d = true → frame_plausible lf payload mx = true →
  fragments d !! (serial, epoch lf, end_ lf) = Some f →
  ∃ r t' fs', reassembleLog now serial lf payload mx (MkTx d d) fs = (r, t', fs') ∧
    (∀ ack, r = Ok ack → tx_work t' = d ∧ ack = (ack_off (cursor_of serial d), true)) ∧
    (fs = [] → is_ok r = true).
Proof.
  intros Hwf Hk Hp Hf.
  destruct (reassembleLog_implements now serial lf payload mx d Hk d fs)
    as (r & t' & fs' & Hr & _ & Hx & Hn).
  exists r, t', fs'. split; [done|]. rewrite (log_spec_duplicate _ _ _ _ _ _ _ Hwf Hp Hf) in *.
  split; [|by intros [_ H]%Hn]. intros ack ->. by apply (inj Some) in Hx as [= <- <-].
Qed.

(** Every firmware byte served was authorised by a live ticket of the
    server's key and is what the response's digest header hashes, for every
    state the operators' writes reach and every fault schedule. *)
Theorem firmware_served_authentic cfg ns r d fs resp d' fs' :
  handleFirmware cfg ns r d fs = (Ok resp, d', fs') → Rollout.blob_ok (ota d) →
  status resp = 200 →
  otaArmed cfg = true ∧
  (∃ sn version row, OtaTicket.Verify ns (otaKey cfg) (bytes_of_string (r_ticket r)) =
      Ok (sn, version) ∧
    Rollout.firmware_versions (ota d) !! string_of_bytes version = Some row) ∧
  ("X-Firmware-SHA256"%string, string_of_bytes (hex_encode (sha256 (body resp)))) ∈ headers resp.
Proof.
  intros H Hb Hst. destruct (handleFirmware_run cfg ns r d fs) as (x & d1 & fs1 & Hr & _ & Hs).
  rewrite H in Hr. injection Hr as <- <- <-.
  destruct (Hs Hst) as (sn & v & row & b & Hv & Harm & Hrow & Hbl & ->).
  split_and!; [done|by exists sn, v, row|]. simpl.
  rewrite (Rollout.blob_path_base _ _ _ Hb Hrow) in Hbl.
  rewrite (Rollout.blob_ok_served _ _ _ _ Hb Hrow Hbl). left.
Qed.

(** ** Concrete instances *)

Definition ex_cfg : config := MkConfig true OtaTicket.ex_key (120 * 10 ^ 9) 65536.
Definition ex_db : db := MkDb Rollout.ex_tables [] ∅ ∅ [].
Definition ex_push (off log ticket : string) : request :=
  MkRequest (list_to_map [("sn"%string, ["p1"%string]); ("bc"%string, ["3"%string]);
                          ("off"%string, [off])]) "" log "" ticket "10.0.0.1".
Definition ex_d1 : db := (handleIngest (λ _, true) ex_cfg 0 (ex_push "10" "boot|up|ok|" "") ex_db []).1.2.
Definition ex_ticket : string := string_of_bytes
  (OtaTicket.Mint 0 OtaTicket.ex_key (bytes_of_string "p1") (bytes_of_string "1.1") (120 * 10 ^ 9)).

Lemma ex_db_wf serial : log_wf serial ex_db.
Proof. split_and!; [done|done|]. intros e n f. simpl. by rewrite lookup_empty. Qed.

Lemma log_stream_invariant_witness :
  log_wf "p1" ex_d1 ∧ cursor_le (cursor_of "p1" ex_db) (cursor_of "p1" ex_d1).
Proof.
  apply (log_stream_invariant "p1" ex_db ex_d1).
  - eapply rtc_l; [|apply rtc_refl].
    apply (step_ingest (λ _, true) ex_cfg 0 (ex_push "10" "boot|up|ok|" "") ex_db []
      (handleIngest (λ _, true) ex_cfg 0 (ex_push "10" "boot|up|ok|" "") ex_db []).1.1 ex_d1
      (handleIngest (λ _, true) ex_cfg 0 (ex_push "10" "boot|up|ok|" "") ex_db []).2).
    unfold ex_d1. by destruct (handleIngest _ _ _ _ _ _) as [[? ?] ?].
  - vm_compute. done.
  - apply ex_db_wf.
Defined.

Definition ex_frame : logFrame := MkFrame 3 10 None 0 false.
Definition ex_stored : db :=
  (log_spec 0 "p1" ex_frame "boot|up|ok|" 65536 ex_db).1.

Lemma ex_stored_wf : log_wf "p1" ex_stored.
Proof. apply log_spec_wf_own; [apply ex_db_wf|]. vm_compute. done. Qed.

Lemma reassembleLog_idempotent_witness :
  ∃ r t' fs', reassembleLog 9 "p1" ex_frame "up|ok|" 65536 (MkTx ex_stored ex_stored) [] =
      (r, t', fs') ∧
    (∀ ack, r = Ok ack → tx_work t' = ex_stored ∧ ack = (10, true)) ∧ (@nil bool = [] → is_ok r = true).
Proof.
  apply (reassembleLog_idempotent 9 "p1" ex_frame "up|ok|" 65536 ex_stored
    (MkFragment None "boot|up|ok|" true) []); [apply ex_stored_wf|vm_compute; reflexivity..].
Defined.

Definition ex_resp : response :=
  Resp 200 [("X-Firmware-SHA256"%string, string_of_bytes (hex_encode (sha256 [1; 2; 3])));
            ("Content-Type"%string, "application/octet-stream"%string);
            ("Content-Length"%string, "3"%string)] [1; 2; 3].

Lemma firmware_served_authentic_witness :
  handleFirmware ex_cfg 0 (ex_push "0" "" ex_ticket) ex_db [] = (Ok ex_resp, ex_db, []) ∧
  ("X-Firmware-SHA256"%string, string_of_bytes (hex_encode (sha256 (body ex_resp)))) ∈
  headers ex_resp.
Proof.
  assert (handleFirmware ex_cfg 0 (ex_push "0" "" ex_ticket) ex_db [] = (Ok ex_resp, ex_db, []))
    as H by (vm_compute; reflexivity).
  split; [exact H|].
  apply (firmware_served_authentic ex_cfg 0 (ex_push "0" "" ex_ticket) ex_db [] ex_resp ex_db []);
    [exact H|apply Rollout.ex_tables_wf|reflexivity].
Defined.

(** ** Boundary of the frame cap

    An explicit frame without a base is subject to no size bound: the fallback
    cap tests [explicit], not the missing base. *)
Example explicit_frame_uncapped :
  let lf := MkFrame 3 (2 ^ 62) None 0 true in
  (log_spec 0 "p1" lf "x" 65536 ex_stored).2 = (2 ^ 62, true) ∧
  (log_spec 0 "p1" (MkFrame 3 (2 ^ 62) None 0 false) "x" 65536 ex_stored).2 = (0, false).
Proof. vm_compute. done. Qed.

End LogIngest.
