(* ===== verification/LogQuery.v ===== *)
(** * Log queries ([internal/logquery])

    The operator's view of the log tables: payload splitting, keyset paging,
    the live tail and the rebuild of one stream from its fragments. The
    database's collation of serials and the JSON codec of the bookmark are
    parameters. *)

From S2P Require Import Prelude GoLib Db Rollout LogIngest.
Import GoLib LogIngest.

Module LogQuery.

(** ** Splitting *)

Definition SplitPayload (payload sep : string) : list string :=
  if bool_decide (payload = ""%string) then []
  else
    let parts := string_of_bytes <$> split (bytes_of_string payload) (bytes_of_string sep) in
    match last parts with
    | Some s => if bool_decide (s = ""%string) then removelast parts else parts
    | None => parts
    end.

Record Line := MkLine {
  ln_time : Z; ln_serial : string; ln_seq : option Z; ln_idx : Z; ln_boot : option Z;
  ln_source : string; ln_gap : bool; ln_suspect : bool; ln_text : string }.

(** The lines of one row: the divider flags are on the first only. *)
Definition row_lines (sep : string) (r : log_row) : list Line :=
  imap (λ i text, MkLine (l_time r) (l_serial r) (l_seq r) (Z.of_nat i) (l_boot r) (source r)
                    ((Z.of_nat i =? 0) && l_gap r) ((Z.of_nat i =? 0) && suspect r) text)
    (SplitPayload (l_payload r) sep).

Definition seqOrZero (r : log_row) : Z := default 0 (l_seq r).

(** ** Keyset order *)

Record Cursor := MkCursor { cu_time : Z; cu_serial : string; cu_seq : Z; cu_ctid : Z }.
#[global] Instance Cursor_eq_dec : EqDecision Cursor.
Proof. solve_decision. Defined.

Definition key (r : log_row) : Cursor := MkCursor (l_time r) (l_serial r) (seqOrZero r) (ctid r).

Section Collation.
Context (serial_ltb : string → string → bool).

(** [(time, serial, COALESCE(seq,0), ctid) < (...)]. *)
Definition key_ltb (a b : Cursor) : bool :=
  (cu_time a <? cu_time b) ||
  ((cu_time a =? cu_time b) &&
   (serial_ltb (cu_serial a) (cu_serial b) ||
    (bool_decide (cu_serial a = cu_serial b) &&
     ((cu_seq a <? cu_seq b) ||
      ((cu_seq a =? cu_seq b) && (cu_ctid a <? cu_ctid b)))))).

Definition newest_first (a b : log_row) : Prop := key_ltb (key a) (key b) = false.
Definition oldest_first (a b : log_row) : Prop := key_ltb (key b) (key a) = false.
#[global] Instance newest_first_dec a b : Decision (newest_first a b).
Proof. unfold newest_first. apply _. Defined.
#[global] Instance oldest_first_dec a b : Decision (oldest_first a b).
Proof. unfold oldest_first. apply _. Defined.

(** ** Query *)

Record Params := MkParams {
  p_serials : list string; p_sources : list string; p_boot : option Z; p_before : string;
  p_limit : Z; p_sep : string }.

Record Page := MkPage { pg_lines : list Line; NextCursor : string; ReachedEdge : bool }.

Definition sources_of (p : Params) : list string :=
  match p_sources p with [] => ["telemetry"; "ota-snapshot"]%string | l => l end.
Definition limit_of (p : Params) : Z := if p_limit p <=? 0 then 100 else p_limit p.
Definition sep_of (s : string) : string := if bool_decide (s = ""%string) then "|" else s.

Definition matches (p : Params) (r : log_row) : bool :=
  (match p_serials p with [] => true | l => bool_decide (l_serial r ∈ l) end) &&
  bool_decide (source r ∈ sources_of p) &&
  match p_boot p with None => true | Some b => bool_decide (l_boot r = Some b) end.

Definition before_ok (before : option Cursor) (r : log_row) : bool :=
  match before with None => true | Some c => key_ltb (key r) c end.

(** [SELECT ... ORDER BY ... DESC LIMIT n]. *)
Definition select_desc (p : Params) (before : option Cursor) (n : nat) (l : list log_row)
    : list log_row :=
  take n (merge_sort newest_first (List.filter (λ r, matches p r && before_ok before r) l)).

(** The rows of one page and the bookmark after it. *)
Definition page_rows (p : Params) (before : option Cursor) (l : list log_row)
    : list log_row * option Cursor :=
  let n := Z.to_nat (limit_of p) in
  let recs := select_desc p before (S n) l in
  if (n <? length recs)%nat
  then (take n recs, key <$> last (take n recs))
  else (recs, None).

Section Codec.
Context (marshal : Cursor → bytes) (unmarshal : bytes → option Cursor).

Definition EncodeCursor (c : Cursor) : string := string_of_bytes (b64_encode (marshal c)).
Definition DecodeCursor (s : string) : option Cursor :=
  raw ← b64_decode (bytes_of_string s); unmarshal raw.

Definition Query (p : Params) (l : list log_row) : option Page :=
  let page before :=
    let '(rows, next) := page_rows p before l in
    MkPage (rows ≫= row_lines (sep_of (p_sep p)))
      (match next with Some c => EncodeCursor c | None => "" end)
      (match next with Some _ => false | None => true end) in
  if bool_decide (p_before p = ""%string) then Some (page None)
  else c ← DecodeCursor (p_before p); Some (page (Some c)).

(** The client's scrollback: follow the bookmark until the edge. Page [i] is
    read from the table [tbl i]. *)
Fixpoint scrollback (fuel : nat) (p : Params) (before : string) (tbl : nat → list log_row) (i : nat)
    : option (list Line) :=
  match fuel with
  | O => None
  | S fuel =>
      pg ← Query (MkParams (p_serials p) (p_sources p) (p_boot p) before (p_limit p) (p_sep p)) (tbl i);
      if ReachedEdge pg then Some (pg_lines pg)
      else rest ← scrollback fuel p (NextCursor pg) tbl (S i); Some (pg_lines pg ++ rest)
  end.
End Codec.

(** ** The live tail *)

Record TailEvent := MkEvent { ev_row : log_row; ev_lines : list string }.

(** [HighWater], [None] before the prime. *)
Definition Tail (now : Z) (hw : option Cursor) (sep : string) (batch : Z) (l : list log_row)
    : list TailEvent * Cursor :=
  match hw with
  | None =>
      ([], match merge_sort newest_first l with
           | r :: _ => key r
           | [] => MkCursor now "" 0 0
           end)
  | Some hw =>
      let b := Z.to_nat (if batch <=? 0 then 200 else batch) in
      let rows := take b (merge_sort oldest_first
        (List.filter (λ r, (cu_time hw <=? l_time r) && key_ltb hw (key r)) l)) in
      ((λ r, MkEvent r (SplitPayload (l_payload r) (sep_of sep))) <$> rows,
       match last rows with Some r => key r | None => hw end)
  end.

(** The producer's ticks: [n] calls from [hw] on, the first on the table
    [tbl i]; their events and the final high-water. *)
Fixpoint tail_ticks (n : nat) (hw : Cursor) (sep : string) (batch : Z) (tbl : nat → list log_row)
    (i : nat) : list TailEvent * Cursor :=
  match n with
  | O => ([], hw)
  | S n =>
      let '(evs, hw1) := Tail 0 (Some hw) sep batch (tbl i) in
      let '(evs2, hw2) := tail_ticks n hw1 sep batch tbl (S i) in (evs ++ evs2, hw2)
  end.
End Collation.

(** ** Reconstruct *)

(** A fetched row: the fragment and its end. *)
Abbreviation frow := (Z * fragment)%type.

Definition sortKey (f : frow) : Z := default f.1 (start_off f.2).
Definition frag_le (a b : frow) : Prop :=
  sortKey a < sortKey b ∨ (sortKey a = sortKey b ∧ a.1 ≤ b.1).
#[global] Instance frag_le_dec a b : Decision (frag_le a b).
Proof. unfold frag_le. apply _. Defined.

Definition select_fragments (serial : string) (ep : Z) (m : gmap (string * Z * Z) fragment)
    : list frow :=
  (λ x : string * Z * Z * fragment, (x.1.2, x.2)) <$>
    List.filter (λ x : string * Z * Z * fragment, bool_decide (x.1.1 = (serial, ep))) (map_to_list m).

Record rstate := MkR { r_text : bytes; r_gaps : list Z; prevEnd : Z; started : bool }.

Definition emit (s : rstate) (f : frow) : rstate :=
  let pay := bytes_of_string (f_payload f.2) in
  if negb (started s) then MkR (r_text s ++ pay) (r_gaps s) f.1 true
  else if f_gap f.2 then MkR (r_text s ++ pay) (r_gaps s ++ [prevEnd s]) f.1 true
  else match start_off f.2 with
  | None => MkR (r_text s ++ pay) (r_gaps s ++ [prevEnd s]) f.1 true
  | Some so =>
      if prevEnd s <? so then MkR (r_text s ++ pay) (r_gaps s ++ [prevEnd s]) f.1 true
      else
        let skip := i64 (prevEnd s - so) in
        MkR (if skip <? zlen pay then r_text s ++ drop (Z.to_nat skip) pay else r_text s)
          (r_gaps s) (if prevEnd s <? f.1 then f.1 else prevEnd s) true
  end.

Definition Reconstruct (serial : string) (ep : Z) (d : db) : bytes * list Z :=
  let s := foldl emit (MkR [] [] 0 false)
             (merge_sort frag_le (select_fragments serial ep (fragments d))) in
  (r_text s, r_gaps s).

(** ** Lemmas: keyset paging over any strict total order *)

Class StrictTotal {K} (lt : K → K → bool) := {
  st_irrefl a : lt a a = false;
  st_trans a b c : lt a b = true → lt b c = true → lt a c = true;
  st_total a b : a ≠ b → lt a b = true ∨ lt b a = true }.

#[global] Instance StrictTotal_flip {K} (lt : K → K → bool) :
  StrictTotal lt → StrictTotal (λ a b, lt b a).
Proof.
  intros [Hi Ht Htot]. split; [done|eauto|]. intros a b Hab. destruct (Htot a b Hab); auto.
Qed.

Section Paging.
Context {A K : Type} `{!EqDecision K} (k : A → K) (lt : K → K → bool) `{!StrictTotal lt}.

Definition ord (x y : A) : Prop := lt (k y) (k x) = false.
#[global] Instance ord_dec x y : Decision (ord x y).
Proof. unfold ord. apply _. Defined.

#[local] Instance ord_total : Total ord.
Proof.
  intros x y. unfold ord. destruct (lt (k y) (k x)) eqn:H; [right|by left].
  destruct (lt (k x) (k y)) eqn:H'; [|done].
  pose proof (st_trans _ _ _ H H') as Hc. by rewrite st_irrefl in Hc.
Qed.

Lemma lt_asym a b : lt a b = true → lt b a = false.
Proof.
  intros H. destruct (lt b a) eqn:H'; [|done].
  pose proof (st_trans _ _ _ H H') as Hc. by rewrite st_irrefl in Hc.
Qed.

Lemma lt_both_false a b : lt a b = false → lt b a = false → a = b.
Proof.
  intros Hab Hba. destruct (decide (a = b)) as [?|Hne]; [done|].
  destruct (st_total a b Hne); congruence.
Qed.

#[local] Instance ord_trans : Transitive ord.
Proof.
  intros x y z. unfold ord. intros Hxy Hyz. destruct (lt (k z) (k x)) eqn:H; [|done].
  destruct (lt (k x) (k y)) eqn:Hxy'.
  { by rewrite (st_trans _ _ _ H Hxy') in Hyz. }
  assert (k x = k y) as Heq by by apply lt_both_false.
  by rewrite <-Heq, H in Hyz.
Qed.

(** Sorting distinct keys is strict, and commutes with filtering. *)
Lemma merge_sort_strict l :
  NoDup (k <$> l) → StronglySorted (λ x y, lt (k x) (k y) = true) (merge_sort ord l).
Proof.
  intros Hnd. assert (NoDup (k <$> merge_sort ord l)) as Hnd'
    by by rewrite merge_sort_Permutation.
  pose proof (StronglySorted_merge_sort ord l) as Hs.
  induction Hs as [|x l' Hs IH Hx]; constructor.
  - apply IH. by apply NoDup_cons in Hnd' as [_ ?].
  - rewrite fmap_cons in Hnd'. apply NoDup_cons in Hnd' as [Hni _].
    rewrite Forall_forall in *. intros y Hy. specialize (Hx y Hy). unfold ord in Hx.
    destruct (st_total (lt:=lt) (k x) (k y)) as [?|?]; [|done|congruence].
    intros Heq. apply Hni. rewrite Heq. by apply list_elem_of_fmap_2.
Qed.

Lemma StronglySorted_filter {B} (R : B → B → Prop) p l :
  StronglySorted R l → StronglySorted R (List.filter p l).
Proof.
  induction 1 as [|x l Hs IH Hx]; simpl; [constructor|]. destruct (p x); [|done].
  constructor; [done|]. rewrite Forall_forall in *. intros y Hy.
  rewrite list_elem_of_In, filter_In, <-list_elem_of_In in Hy. exact (Hx y (proj1 Hy)).
Qed.

Lemma key_injective l x y : NoDup (k <$> l) → x ∈ l → y ∈ l → k x = k y → x = y.
Proof.
  intros Hnd [i Hi]%list_elem_of_lookup [j Hj]%list_elem_of_lookup Hk.
  assert (i = j) as ->; [|congruence].
  eapply NoDup_lookup; [exact Hnd|..]; rewrite list_lookup_fmap; [by rewrite Hi|].
  by rewrite Hj; simpl; rewrite Hk.
Qed.

Lemma filter_Permutation {B} (p : B → bool) l l' :
  l ≡ₚ l' → List.filter p l ≡ₚ List.filter p l'.
Proof.
  induction 1 as [|x l l' _ IH|x y l|l1 l2 l3 _ IH1 _ IH2]; simpl; [done| | |by etrans].
  - by destruct (p x); rewrite IH.
  - destruct (p x), (p y); auto. apply Permutation_swap.
Qed.

Lemma merge_sort_filter p l :
  NoDup (k <$> l) → merge_sort ord (List.filter p l) = List.filter p (merge_sort ord l).
Proof.
  intros Hnd. apply (StronglySorted_unique_strong ord).
  - intros x y Hx Hy Hxy Hyx. rewrite merge_sort_Permutation in Hx.
    rewrite list_elem_of_In, filter_In, <-list_elem_of_In in Hx.
    rewrite list_elem_of_In, filter_In, <-list_elem_of_In in Hy.
    destruct Hx as [Hx _], Hy as [Hy _]. rewrite merge_sort_Permutation in Hy.
    apply (key_injective l); [done..|]. unfold ord in *.
    by apply lt_both_false.
  - apply StronglySorted_merge_sort; apply _.
  - apply StronglySorted_filter, StronglySorted_merge_sort; apply _.
  - rewrite merge_sort_Permutation. apply filter_Permutation. by rewrite merge_sort_Permutation.
Qed.

(** What follows a bookmark in a strictly sorted list. *)
Lemma filter_after l1 x l2 :
  StronglySorted (λ x y, lt (k x) (k y) = true) (l1 ++ x :: l2) →
  List.filter (λ y, lt (k x) (k y)) (l1 ++ x :: l2) = l2.
Proof.
  induction l1 as [|y l1 IH]; simpl; intros Hs; apply StronglySorted_inv in Hs as [Hs Hx].
  - rewrite st_irrefl. rewrite Forall_forall in Hx.
    rewrite <-(filter_true l2) at 2. apply filter_ext_in. intros z Hz%list_elem_of_In.
    by apply Hx.
  - rewrite (lt_asym (k y) (k x)); [by apply IH|]. rewrite Forall_forall in Hx.
    apply Hx. apply elem_of_app. right. left.
Qed.
End Paging.


(** ** Lemmas: pages and ticks *)

Section Pages.
Context (serial_ltb : string → string → bool) `{!StrictTotal serial_ltb}.
#[local] Abbreviation klt := (key_ltb serial_ltb).

Lemma key_ltb_iff a b :
  klt a b = true ↔
  cu_time a < cu_time b ∨ (cu_time a = cu_time b ∧
    (serial_ltb (cu_serial a) (cu_serial b) = true ∨ (cu_serial a = cu_serial b ∧
      (cu_seq a < cu_seq b ∨ (cu_seq a = cu_seq b ∧ cu_ctid a < cu_ctid b))))).
Proof.
  unfold key_ltb.
  rewrite !orb_true_iff, !andb_true_iff, !orb_true_iff, !andb_true_iff, !orb_true_iff,
    !andb_true_iff, !Z.ltb_lt, !Z.eqb_eq, bool_decide_eq_true. done.
Qed.

#[export] Instance key_ltb_total : StrictTotal klt.
Proof.
  split.
  - intros a. apply not_true_iff_false. rewrite key_ltb_iff, st_irrefl. intros H.
    destruct H as [?|[_ [?|[_ [?|[_ ?]]]]]]; [lia|done|lia|lia].
  - intros [t1 s1 q1 c1] [t2 s2 q2 c2] [t3 s3 q3 c3]. rewrite !key_ltb_iff. simpl.
    intros [?|[-> [H1|[-> H1]]]] [?|[-> [H2|[-> H2]]]]; try (left; lia).
    + right. split; [done|]. left. by eapply st_trans.
    + right. split; [done|]. by left.
    + right. split; [done|]. by left.
    + right. split; [done|]. right. split; [done|]. lia.
  - intros [t1 s1 q1 c1] [t2 s2 q2 c2] Hne. rewrite !key_ltb_iff. simpl.
    destruct (Z.lt_trichotomy t1 t2) as [?|[-> |?]]; [by left; left| |by right; left].
    destruct (decide (s1 = s2)) as [->|Hs].
    2: { destruct (st_total (lt:=serial_ltb) s1 s2 Hs); [left|right]; right; auto. }
    destruct (Z.lt_trichotomy q1 q2) as [?|[-> |?]]; [left; auto 10| |right; auto 10].
    destruct (Z.lt_trichotomy c1 c2) as [?|[-> |?]]; [left; auto 10|done|right; auto 10].
Qed.

(** The matching rows, newest first: what the whole scrollback shows. *)
Definition history (p : Params) (l : list log_row) : list log_row :=
  merge_sort (newest_first serial_ltb) (List.filter (matches p) l).

Lemma NoDup_keys_filter p (l : list log_row) : NoDup (key <$> l) → NoDup (key <$> List.filter p l).
Proof. apply Rollout.NoDup_fmap_filter. Qed.

Lemma history_sorted p l :
  NoDup (key <$> l) → StronglySorted (λ x y, klt (key y) (key x) = true) (history p l).
Proof.
  intros Hnd. apply (merge_sort_strict key (λ a b, klt b a)). by apply NoDup_keys_filter.
Qed.

Lemma filter_filter {A} (p q : A → bool) l :
  List.filter (λ x, p x && q x) l = List.filter q (List.filter p l).
Proof. induction l as [|x l IH]; simpl; [done|]. destruct (p x); simpl; by rewrite IH. Qed.

Lemma filter_nil {A} (p : A → bool) l : (∀ x, x ∈ l → p x = false) → List.filter p l = [].
Proof.
  induction l as [|x l IH]; simpl; intros H; [done|]. rewrite (H x) by left.
  apply IH. intros y Hy. apply H. by right.
Qed.

(** A page after the bookmark of the last row of [l1] shows the next rows. *)
Lemma select_after p l l1 x l2 n :
  NoDup (key <$> l) → history p l = l1 ++ x :: l2 →
  select_desc serial_ltb p (Some (key x)) n l = take n l2.
Proof.
  intros Hnd Hh. unfold select_desc. f_equal. rewrite filter_filter.
  pose proof (merge_sort_filter key (λ a b, klt b a) (before_ok serial_ltb (Some (key x)))
    (List.filter (matches p) l) (NoDup_keys_filter _ _ Hnd)) as Hms.
  change (merge_sort (newest_first serial_ltb)
    (List.filter (before_ok serial_ltb (Some (key x))) (List.filter (matches p) l)) =
    List.filter (before_ok serial_ltb (Some (key x))) (history p l)) in Hms.
  rewrite Hms, Hh. simpl. apply (filter_after key (λ a b, klt b a)).
  rewrite <-Hh. by apply history_sorted.
Qed.

Lemma select_first p l n : select_desc serial_ltb p None n l = take n (history p l).
Proof. unfold select_desc. rewrite filter_filter.
  change (before_ok serial_ltb None) with (λ _ : log_row, true). by rewrite (filter_true (List.filter (matches p) l)). Qed.

(** The rows of a page cut from the remaining history. *)
Definition cut (n : nat) (rest : list log_row) : list log_row * option Cursor :=
  if (n <? length rest)%nat then (take n rest, key <$> last (take n rest)) else (rest, None).

Lemma page_rows_cut p before l rest :
  select_desc serial_ltb p before (S (Z.to_nat (limit_of p))) l =
    take (S (Z.to_nat (limit_of p))) rest →
  page_rows serial_ltb p before l = cut (Z.to_nat (limit_of p)) rest.
Proof.
  intros Hsel. unfold page_rows, cut. rewrite Hsel. set (n := Z.to_nat _).
  rewrite length_take, take_take. replace (n `min` S n)%nat with n by lia.
  destruct (Nat.ltb_spec n (length rest)), (Nat.ltb_spec n (S n `min` length rest)); try lia; [done|].
  by rewrite take_ge by lia.
Qed.

Lemma cut_more n (rest : list log_row) :
  (0 < n)%nat → (n < length rest)%nat →
  ∃ l x, rest = l ++ x :: drop n rest ∧ take n rest = l ++ [x] ∧ cut n rest = (l ++ [x], Some (key x)).
Proof.
  intros Hn Hlt. unfold cut. destruct (Nat.ltb_spec n (length rest)); [|lia].
  destruct (last (take n rest)) as [x|] eqn:Hx.
  - apply last_Some in Hx as [l Hl]. exists l, x. split_and!; [|done|].
    + rewrite <-(take_drop n rest) at 1. by rewrite Hl, <-app_assoc.
    + by rewrite Hl.
  - apply last_None in Hx. apply (f_equal length) in Hx. rewrite length_take in Hx. simpl in Hx. lia.
Qed.

Section Scroll.
Context (marshal : Cursor → bytes) (unmarshal : bytes → option Cursor).
Context (codec : ∀ c, bytes_ok (marshal c) ∧ marshal c ≠ [] ∧ unmarshal (marshal c) = Some c).

Lemma DecodeCursor_Encode c : DecodeCursor unmarshal (EncodeCursor marshal c) = Some c.
Proof.
  destruct (codec c) as (Hb & _ & Hu). unfold DecodeCursor, EncodeCursor.
  rewrite bytes_of_string_of_bytes by by apply b64_encode_bytes.
  rewrite b64_decode_encode by done. done.
Qed.

Lemma EncodeCursor_nonempty c : EncodeCursor marshal c ≠ ""%string.
Proof.
  intros H. pose proof (DecodeCursor_Encode c) as Hd. rewrite H in Hd.
  destruct (codec c) as (Hb & Hne & Hu). unfold EncodeCursor in H.
  apply (f_equal bytes_of_string) in H.
  rewrite bytes_of_string_of_bytes in H by by apply b64_encode_bytes.
  destruct (marshal c) as [|a [|b [|d m]]]; done.
Qed.

Context (p : Params) (tbl : nat → list log_row).
Context (Hnd : NoDup (key <$> tbl 0)).
Context (Hgrow : ∀ i, ∃ new, tbl i = tbl 0 ++ new ∧
                   ∀ r r0, r ∈ new → r0 ∈ tbl 0 → klt (key r0) (key r) = true).

(** Newer rows do not show below a bookmark. *)
Lemma select_grown i x n :
  x ∈ tbl 0 →
  select_desc serial_ltb p (Some (key x)) n (tbl i) = select_desc serial_ltb p (Some (key x)) n (tbl 0).
Proof.
  intros Hx. destruct (Hgrow i) as (new & -> & Hnew). unfold select_desc.
  rewrite List.filter_app. rewrite (filter_nil _ new); [by rewrite app_nil_r|].
  intros r Hr. simpl. rewrite (lt_asym klt (key x) (key r)) by by apply Hnew. by rewrite andb_false_r.
Qed.

#[local] Abbreviation sep := (sep_of (p_sep p)).
#[local] Abbreviation with_before b :=
  (MkParams (p_serials p) (p_sources p) (p_boot p) b (p_limit p) (p_sep p)).

Lemma limit_pos : (0 < Z.to_nat (limit_of p))%nat.
Proof. unfold limit_of. destruct (Z.leb_spec (p_limit p) 0); lia. Qed.

(** One query, given what remains of the history at its bookmark. *)
Lemma Query_cut before c l rest :
  (if bool_decide (before = ""%string) then c = None else
     ∃ k, c = Some k ∧ DecodeCursor unmarshal before = Some k) →
  select_desc serial_ltb p c (S (Z.to_nat (limit_of p))) l =
    take (S (Z.to_nat (limit_of p))) rest →
  Query serial_ltb marshal unmarshal (with_before before) l =
    Some (MkPage ((cut (Z.to_nat (limit_of p)) rest).1 ≫= row_lines sep)
            (match (cut (Z.to_nat (limit_of p)) rest).2 with
             | Some k => EncodeCursor marshal k | None => "" end)
            (match (cut (Z.to_nat (limit_of p)) rest).2 with Some _ => false | None => true end)).
Proof.
  intros Hb Hsel. unfold Query. simpl.
  pose proof (page_rows_cut (with_before before) c l rest Hsel) as Hp.
  case_bool_decide.
  - subst c. rewrite Hp. change (limit_of (with_before before)) with (limit_of p).
    by destruct (cut _ rest).
  - destruct Hb as (k & -> & ->). simpl. rewrite Hp.
    change (limit_of (with_before before)) with (limit_of p). by destruct (cut _ rest).
Qed.

Lemma scroll_from fuel i before c rest l1 :
  (if bool_decide (before = ""%string) then c = None else
     ∃ k, c = Some k ∧ DecodeCursor unmarshal before = Some k) →
  select_desc serial_ltb p c (S (Z.to_nat (limit_of p))) (tbl i) =
    take (S (Z.to_nat (limit_of p))) rest →
  history p (tbl 0) = l1 ++ rest → (length rest < fuel)%nat →
  scrollback serial_ltb marshal unmarshal fuel p before tbl i = Some (rest ≫= row_lines sep).
Proof.
  revert i before c rest l1. induction fuel as [|fuel IH]; intros i before c rest l1 Hb Hsel Hh Hlen;
    [lia|].
  cbn [scrollback]. rewrite (Query_cut before c (tbl i) rest Hb Hsel). cbn [mbind option_bind].
  destruct (decide (Z.to_nat (limit_of p) < length rest)%nat) as [Hlt|Hge].
  - destruct (cut_more _ rest limit_pos Hlt) as (l & x & Hrest & _ & ->). simpl.
    rewrite (IH (S i) (EncodeCursor marshal (key x)) (Some (key x))
               (drop (Z.to_nat (limit_of p)) rest) (l1 ++ l ++ [x])).
    + simpl. rewrite Hrest at 2. rewrite <-bind_app, <-app_assoc. done.
    + rewrite bool_decide_false by apply EncodeCursor_nonempty.
      eexists. split; [done|apply DecodeCursor_Encode].
    + assert (history p (tbl 0) = (l1 ++ l) ++ x :: drop (Z.to_nat (limit_of p)) rest) as Hh'
        by (rewrite Hh, Hrest at 1; by rewrite <-app_assoc).
      rewrite select_grown.
      * by apply (select_after p (tbl 0) (l1 ++ l)).
      * assert (x ∈ history p (tbl 0)) as Hx by (rewrite Hh'; apply elem_of_app; right; left).
        unfold history in Hx. rewrite merge_sort_Permutation in Hx.
        rewrite list_elem_of_In, filter_In, <-list_elem_of_In in Hx. by destruct Hx.
    + rewrite Hh, Hrest at 1. by rewrite <-!app_assoc.
    + rewrite length_drop. pose proof limit_pos. lia.
  - unfold cut. destruct (Nat.ltb_spec (Z.to_nat (limit_of p)) (length rest)); [lia|]. done.
Qed.
End Scroll.
End Pages.


Section Ticks.
Context (serial_ltb : string → string → bool) `{!StrictTotal serial_ltb}.
#[local] Abbreviation klt := (key_ltb serial_ltb).

(** The rows above a high-water, oldest first: what the tail still owes. *)
Definition newer (hw : Cursor) (l : list log_row) : list log_row :=
  merge_sort (oldest_first serial_ltb) (List.filter (λ r, klt hw (key r)) l).

Lemma newer_sorted hw l :
  NoDup (key <$> l) → StronglySorted (λ x y, klt (key x) (key y) = true) (newer hw l).
Proof.
  intros Hnd. apply (merge_sort_strict key klt). by apply NoDup_keys_filter.
Qed.

Lemma elem_newer hw l r : r ∈ newer hw l ↔ r ∈ l ∧ klt hw (key r) = true.
Proof.
  unfold newer. rewrite merge_sort_Permutation, list_elem_of_In, filter_In, <-list_elem_of_In.
  done.
Qed.

(** A higher mark owes a part of what a lower one does. *)
Lemma newer_raise hw hw' l :
  NoDup (key <$> l) → klt hw hw' = true →
  newer hw' l = List.filter (λ r, klt hw' (key r)) (newer hw l).
Proof.
  intros Hnd Hlt. unfold newer at 2.
  pose proof (merge_sort_filter key klt (λ r, klt hw' (key r))
    (List.filter (λ r, klt hw (key r)) l) (NoDup_keys_filter _ _ Hnd)) as Hms.
  change (merge_sort (oldest_first serial_ltb) (List.filter (λ r, klt hw' (key r))
      (List.filter (λ r, klt hw (key r)) l)) =
    List.filter (λ r, klt hw' (key r))
      (merge_sort (oldest_first serial_ltb) (List.filter (λ r, klt hw (key r)) l))) in Hms.
  rewrite <-Hms. unfold newer. f_equal. rewrite <-filter_filter.
  apply filter_ext_in. intros r _. destruct (klt hw' (key r)) eqn:H; [|by rewrite andb_false_r].
  by rewrite (st_trans _ _ _ Hlt H).
Qed.

Lemma StronglySorted_app_lt {A} (R : A → A → Prop) l1 l2 :
  StronglySorted R l1 → StronglySorted R l2 → (∀ x y, x ∈ l1 → y ∈ l2 → R x y) →
  StronglySorted R (l1 ++ l2).
Proof.
  induction 1 as [|x l1 Hs IH Hx]; simpl; intros H2 H; [done|]. constructor.
  - apply IH; [done|]. intros a b Ha Hb. apply H; [by right|done].
  - apply Forall_app. split; [done|]. apply Forall_forall. intros y Hy. apply H; [left|done].
Qed.

(** Rows newer than the whole table come after all of it. *)
Lemma newer_app hw l new :
  NoDup (key <$> l ++ new) → (∀ r r0, r ∈ new → r0 ∈ l → klt (key r0) (key r) = true) →
  newer hw (l ++ new) = newer hw l ++ newer hw new.
Proof.
  intros Hnd Hnew. apply (StronglySorted_unique_strong (λ x y, klt (key x) (key y) = true)).
  - intros x y _ _ Hxy Hyx. by rewrite (lt_asym klt _ _ Hxy) in Hyx.
  - by apply newer_sorted.
  - rewrite fmap_app in Hnd. apply NoDup_app in Hnd as (H1 & _ & H2).
    apply StronglySorted_app_lt; [by apply newer_sorted..|].
    intros x y [Hx _]%elem_newer [Hy _]%elem_newer. by apply Hnew.
  - unfold newer. rewrite !merge_sort_Permutation. by rewrite List.filter_app.
Qed.

(** One tick. *)
Lemma Tail_rows hw sep batch l :
  ∃ b, (0 < b)%nat ∧
  ev_row <$> (Tail serial_ltb 0 (Some hw) sep batch l).1 = take b (newer hw l) ∧
  (Tail serial_ltb 0 (Some hw) sep batch l).2 =
    match last (take b (newer hw l)) with Some r => key r | None => hw end.
Proof.
  exists (Z.to_nat (if batch <=? 0 then 200 else batch)).
  assert (List.filter (λ r, (cu_time hw <=? l_time r) && klt hw (key r)) l =
          List.filter (λ r, klt hw (key r)) l) as Hf.
  { apply filter_ext. intros r. destruct (klt hw (key r)) eqn:H; [|by rewrite andb_false_r].
    apply (key_ltb_iff serial_ltb) in H. simpl in H. rewrite andb_true_r.
    destruct (Z.leb_spec (cu_time hw) (l_time r)); [done|lia]. }
  unfold Tail. rewrite Hf. fold (newer hw l). split_and!; [|by cbn [fst]; rewrite <-list_fmap_compose; apply list_fmap_id|done].
  destruct (Z.leb_spec batch 0); lia.
Qed.

Lemma tick_owes hw sep batch l new :
  NoDup (key <$> l ++ new) → (∀ r r0, r ∈ new → r0 ∈ l → klt (key r0) (key r) = true) →
  (ev_row <$> (Tail serial_ltb 0 (Some hw) sep batch l).1) ++
     newer (Tail serial_ltb 0 (Some hw) sep batch l).2 (l ++ new) = newer hw (l ++ new).
Proof.
  intros Hnd Hnew. destruct (Tail_rows hw sep batch l) as (b & Hb & -> & ->).
  destruct (last (take b (newer hw l))) as [x|] eqn:Hx.
  - apply last_Some in Hx as [l1 Hl1].
    assert (newer hw (l ++ new) = l1 ++ x :: (drop b (newer hw l) ++ newer hw new)) as Hn.
    { rewrite newer_app by done. rewrite <-(take_drop b (newer hw l)) at 1.
      rewrite Hl1, <-!app_assoc. done. }
    assert (klt hw (key x) = true) as Hlt.
    { assert (x ∈ newer hw (l ++ new)) as Hin by (rewrite Hn; apply elem_of_app; right; left).
      by apply elem_newer in Hin as [_ ?]. }
    rewrite (newer_raise hw (key x)) by done. rewrite Hl1, Hn.
    rewrite (filter_after key klt).
    + by rewrite <-app_assoc.
    + rewrite <-Hn. by apply newer_sorted.
  - apply last_None in Hx. by rewrite Hx.
Qed.

Lemma tail_ticks_owe n hw sep batch tbl i :
  (∀ i, NoDup (key <$> tbl i)) →
  (∀ i, ∃ new, tbl (S i) = tbl i ++ new ∧
         ∀ r r0, r ∈ new → r0 ∈ tbl i → klt (key r0) (key r) = true) →
  (ev_row <$> (tail_ticks serial_ltb n hw sep batch tbl i).1) ++
     newer (tail_ticks serial_ltb n hw sep batch tbl i).2 (tbl (i + n)%nat) =
  newer hw (tbl (i + n)%nat).
Proof.
  intros Hnd Hgrow.
  assert (∀ i m, ∃ new, tbl (i + m)%nat = tbl i ++ new ∧
     ∀ r r0, r ∈ new → r0 ∈ tbl i → klt (key r0) (key r) = true) as Hgrow'.
  { intros j m. induction m as [|m (new & Heq & Hn)].
    - exists []. rewrite Nat.add_0_r, app_nil_r. split; [done|]. intros ? ? H.
      by apply not_elem_of_nil in H.
    - destruct (Hgrow (j + m)%nat) as (new2 & Heq2 & Hn2). exists (new ++ new2).
      rewrite Nat.add_succ_r, Heq2, Heq, <-app_assoc. split; [done|].
      intros r r0 [Hr|Hr]%elem_of_app Hr0; [by apply Hn|].
      apply Hn2; [done|]. rewrite Heq. apply elem_of_app. by left. }
  revert hw i. induction n as [|n IH]; intros hw i; [done|]. cbn [tail_ticks].
  specialize (IH (Tail serial_ltb 0 (Some hw) sep batch (tbl i)).2 (S i)).
  pose proof (tick_owes hw sep batch (tbl i)) as Htick.
  destruct (Tail serial_ltb 0 (Some hw) sep batch (tbl i)) as [evs hw1]. simpl in IH, Htick.
  destruct (tail_ticks serial_ltb n hw1 sep batch tbl (S i)) as [evs2 hw2]. simpl in *.
  rewrite fmap_app, <-app_assoc, Nat.add_succ_r, IH.
  destruct (Hgrow' i (S n)) as (new & Heq & Hn). rewrite Nat.add_succ_r in Heq. rewrite Heq.
  apply Htick; [|done]. rewrite <-Heq. apply Hnd.
Qed.
End Ticks.


(** ** Lemmas: rebuilding a stream *)

(** The bytes [a, b) of a stream. *)
Definition slice (D : bytes) (a b : Z) : bytes := take (Z.to_nat (b - a)) (drop (Z.to_nat a) D).

Lemma slice_app D a b c : 0 ≤ a ≤ b → b ≤ c → slice D a b ++ slice D b c = slice D a c.
Proof.
  intros Hab Hbc. unfold slice.
  replace (Z.to_nat (c - a)) with (Z.to_nat (b - a) + Z.to_nat (c - b))%nat by lia.
  rewrite <-take_take_drop, drop_drop. do 3 f_equal. lia.
Qed.

(** The fragments an in-sync device leaves: the first from [b0], each next one
    from the end of the one before. *)
Fixpoint tiles (D : bytes) (a : Z) (ends : list Z) : list frow :=
  match ends with
  | [] => []
  | e :: ends => (e, MkFragment (Some a) (string_of_bytes (slice D a e)) false) :: tiles D e ends
  end.
Definition stream_rows (D : bytes) (b0 e1 : Z) (ends : list Z) : list frow :=
  (e1, MkFragment None (string_of_bytes (slice D b0 e1)) true) :: tiles D e1 ends.

Definition ascending (b0 e1 : Z) (ends : list Z) : Prop :=
  0 ≤ b0 < e1 ∧ StronglySorted Z.lt (e1 :: ends).

#[global] Instance frag_le_total : Total frag_le.
Proof. intros a b. unfold frag_le. lia. Qed.
#[global] Instance frag_le_trans : Transitive frag_le.
Proof. intros a b c. unfold frag_le. lia. Qed.

Lemma tiles_elem D a ends r :
  r ∈ tiles D a ends → StronglySorted Z.lt (a :: ends) → a ≤ sortKey r ∧ a < r.1.
Proof.
  revert a. induction ends as [|e ends IH]; intros a; simpl; [by intros ?%not_elem_of_nil|].
  intros [-> |Hr]%elem_of_cons Hs; apply StronglySorted_inv in Hs as [Hs Ha];
    apply Forall_cons in Ha as [Ha _].
  - unfold sortKey. simpl. lia.
  - destruct (IH e Hr Hs). lia.
Qed.

Lemma tiles_sorted D a ends : StronglySorted Z.lt (a :: ends) → StronglySorted frag_le (tiles D a ends).
Proof.
  revert a. induction ends as [|e ends IH]; intros a Hs; simpl; constructor.
  - apply StronglySorted_inv in Hs as [Hs _]. by apply IH.
  - apply Forall_forall. intros r Hr. apply StronglySorted_inv in Hs as [Hs Ha].
    apply Forall_cons in Ha as [Ha _]. destruct (tiles_elem D e ends r Hr Hs).
    unfold frag_le, sortKey at 1 3. simpl. lia.
Qed.

Lemma stream_rows_sorted D b0 e1 ends :
  ascending b0 e1 ends → StronglySorted frag_le (stream_rows D b0 e1 ends).
Proof.
  intros [_ Hs]. constructor; [by apply tiles_sorted|]. apply Forall_forall. intros r Hr.
  destruct (tiles_elem D e1 ends r Hr Hs). unfold frag_le, sortKey at 1 3. simpl. lia.
Qed.

(** Distinct ends make the sorted order unique. *)
Lemma sort_fragments l r :
  StronglySorted frag_le l → l ≡ₚ r → NoDup l.*1 → merge_sort frag_le r = l.
Proof.
  intros Hl Hp Hnd. apply (StronglySorted_unique_strong frag_le); [|apply StronglySorted_merge_sort; apply _|done|].
  - intros x y Hx Hy Hxy Hyx. rewrite merge_sort_Permutation, <-Hp in Hx.
    assert (x.1 = y.1) as He by (unfold frag_le in *; lia).
    apply (key_injective fst l); done.
  - by rewrite merge_sort_Permutation, Hp.
Qed.

Lemma emit_tiles D a ends txt :
  0 ≤ a → bytes_ok D → StronglySorted Z.lt (a :: ends) →
  foldl emit (MkR txt [] a true) (tiles D a ends) =
  MkR (txt ++ slice D a (default a (last ends))) [] (default a (last ends)) true.
Proof.
  intros Ha HD. revert a txt Ha. induction ends as [|e ends IH]; intros a txt Ha Hs; cbn [tiles foldl].
  - simpl. unfold slice. by rewrite Z.sub_diag, app_nil_r.
  - apply StronglySorted_inv in Hs as [Hs Hae]. apply Forall_cons in Hae as [Hae _].
    unfold emit at 2. simpl. rewrite Z.ltb_irrefl, Z.sub_diag.
    assert (bytes_of_string (string_of_bytes (slice D a e)) = slice D a e) as ->
      by (apply bytes_of_string_of_bytes, Forall_take, Forall_drop, HD).
    destruct (Z.ltb_spec a e); [|lia].
    change (i64 0) with 0. rewrite drop_0.
    assert ((if 0 <? zlen (slice D a e) then txt ++ slice D a e else txt) = txt ++ slice D a e) as ->.
    { destruct (Z.ltb_spec 0 (zlen (slice D a e))); [done|].
      rewrite (zlen_nil_inv (slice D a e)) by (pose proof (zlen_nonneg (slice D a e)); lia).
      by rewrite app_nil_r. }
    rewrite IH by (done || lia). rewrite last_cons. destruct (last ends) as [z|] eqn:Hl; simpl.
    + rewrite <-app_assoc, slice_app; [done|lia|].
      apply last_Some in Hl as [l' ->]. apply StronglySorted_inv in Hs as [_ Hf].
      rewrite Forall_forall in Hf. assert (e < z); [|lia]. apply Hf, elem_of_app. right. left.
    + by rewrite <-app_assoc, slice_app by lia.
Qed.

Lemma tiles_ends D a ends : (tiles D a ends).*1 = ends.
Proof. revert a. induction ends as [|e ends IH]; intros a; simpl; [done|by rewrite IH]. Qed.

Lemma sorted_NoDup (l : list Z) : StronglySorted Z.lt l → NoDup l.
Proof.
  induction 1 as [|x l Hs IH Hx]; constructor; [|done]. intros Hin.
  rewrite Forall_forall in Hx. specialize (Hx x Hin). lia.
Qed.

Lemma reconstruct_rows serial ep d D b0 e1 ends :
  bytes_ok D → ascending b0 e1 ends →
  select_fragments serial ep (fragments d) ≡ₚ stream_rows D b0 e1 ends →
  Reconstruct serial ep d = (slice D b0 (default e1 (last ends)), []).
Proof.
  intros HD Hasc Hp. unfold Reconstruct.
  rewrite (sort_fragments (stream_rows D b0 e1 ends)).
  - cbn [stream_rows foldl].
    assert (emit (MkR [] [] 0 false) (e1, MkFragment None (string_of_bytes (slice D b0 e1)) true) =
            MkR (slice D b0 e1) [] e1 true) as ->.
    { unfold emit. simpl.
      by rewrite bytes_of_string_of_bytes by apply Forall_take, Forall_drop, HD. }
    destruct Hasc as [Hb Hs]. rewrite emit_tiles by (done || lia). cbn [r_text r_gaps].
    rewrite slice_app; [done|lia|]. destruct (last ends) as [z|] eqn:Hl; simpl; [|lia].
    apply last_Some in Hl as [l' ->]. apply StronglySorted_inv in Hs as [_ Hf].
    rewrite Forall_forall in Hf. assert (e1 < z); [|lia]. apply Hf, elem_of_app. right. left.
  - by apply stream_rows_sorted.
  - done.
  - simpl. rewrite tiles_ends. apply sorted_NoDup, Hasc.
Qed.

(** The rows selected are the stored fragments of the stream. *)
Lemma elem_select serial ep m n f :
  (n, f) ∈ select_fragments serial ep m ↔ m !! (serial, ep, n) = Some f.
Proof.
  unfold select_fragments. rewrite list_elem_of_fmap. split.
  - intros ([[[s e] k] g] & [= -> ->] & H).
    rewrite list_elem_of_In, filter_In, <-list_elem_of_In, elem_of_map_to_list in H. simpl in H.
    destruct H as [H He%bool_decide_eq_true]. by injection He as -> ->.
  - intros H. exists (serial, ep, n, f). split; [done|].
    rewrite list_elem_of_In, filter_In, <-list_elem_of_In, elem_of_map_to_list. simpl.
    by rewrite bool_decide_true.
Qed.

Lemma NoDup_select serial ep m : NoDup (select_fragments serial ep m).
Proof.
  unfold select_fragments. apply NoDup_fmap_2_strong.
  - intros [[[s e] k] g] [[[s' e'] k'] g'] H H' Heq. simpl in *. injection Heq as -> ->.
    rewrite list_elem_of_In, filter_In in H, H'. simpl in *.
    destruct H as [_ H%bool_decide_eq_true], H' as [_ H'%bool_decide_eq_true]. congruence.
  - rewrite <-(list_fmap_id (List.filter _ _)). apply Rollout.NoDup_fmap_filter. rewrite list_fmap_id. apply NoDup_map_to_list.
Qed.


(** ** A device and its stream *)

(** One committed frame, under any fault schedule that let it succeed. *)
Definition pushes (now : Z) (serial : string) (lf : logFrame) (payload : string) (mx : Z)
    (d d' : db) : Prop :=
  ∃ fs ack t' fs', reassembleLog now serial lf payload mx (MkTx d d) fs = (Ok ack, t', fs') ∧
                   tx_work t' = d'.

(** What can happen to the log tables while [serial] pushes the stream [D] of
    boot [ep]: the next delta from its acknowledged offset, a retransmission of
    a delta already stored, and frames of other devices. *)
Inductive device_step (serial : string) (ep : Z) (D : bytes) (mx : Z) : db → db → Prop :=
| dev_delta now e d d' :
    ack_off (cursor_of serial d) < e ≤ zlen D → e - ack_off (cursor_of serial d) ≤ mx →
    pushes now serial (MkFrame ep e None 0 false)
      (string_of_bytes (slice D (ack_off (cursor_of serial d)) e)) mx d d' →
    device_step serial ep D mx d d'
| dev_again now e f payload d d' :
    fragments d !! (serial, ep, e) = Some f →
    pushes now serial (MkFrame ep e None 0 false) payload mx d d' → device_step serial ep D mx d d'
| dev_other now s lf payload mx' d d' :
    s ≠ serial → known s d = true → pushes now s lf payload mx' d d' →
    device_step serial ep D mx d d'.

Definition synced (serial : string) (ep : Z) (D : bytes) (b0 : Z) (d : db) : Prop :=
  known serial d = true ∧
  ∃ e1 ends, ascending b0 e1 ends ∧ c_epoch (cursor_of serial d) = ep ∧
    ack_off (cursor_of serial d) = default e1 (last ends) ∧ default e1 (last ends) ≤ zlen D ∧
    select_fragments serial ep (fragments d) ≡ₚ stream_rows D b0 e1 ends.

Lemma pushes_spec now serial lf payload mx d d' :
  known serial d = true → pushes now serial lf payload mx d d' →
  d' = (log_spec now serial lf payload mx d).1.
Proof.
  intros Hk (fs & ack & t' & fs' & Hr & <-).
  destruct (reassembleLog_implements now serial lf payload mx d Hk d fs)
    as (r & t2 & fs2 & Hr2 & _ & Hx & _).
  rewrite Hr in Hr2. injection Hr2 as <- <- <-. apply (inj Some) in Hx. by rewrite Hx.
Qed.

Lemma log_spec_known now s lf payload mx d serial :
  known serial (log_spec now s lf payload mx d).1 = known serial d.
Proof. unfold known. by rewrite (proj1 (log_spec_rest now s lf payload mx d)). Qed.

Lemma last_bound e1 ends x : StronglySorted Z.lt (e1 :: ends) → x ∈ e1 :: ends → x ≤ default e1 (last ends).
Proof.
  revert e1 x. induction ends as [|e ends IH]; intros e1 x Hs Hx.
  - apply list_elem_of_singleton in Hx as ->. done.
  - apply StronglySorted_inv in Hs as [Hs Hf]. rewrite last_cons.
    pose proof (λ x, IH e x Hs) as H. apply elem_of_cons in Hx as [-> |Hx].
    + apply Forall_cons in Hf as [Hf _]. specialize (H e ltac:(left)).
      destruct (last ends); simpl in *; lia.
    + specialize (H x Hx). by destruct (last ends).
Qed.

Lemma stream_row_end D b0 e1 ends r : r ∈ stream_rows D b0 e1 ends → r.1 ∈ e1 :: ends.
Proof.
  intros Hr. apply (list_elem_of_fmap_2 fst) in Hr. simpl in Hr. by rewrite tiles_ends in Hr.
Qed.

Lemma tiles_snoc D a ends e :
  tiles D a (ends ++ [e]) = tiles D a ends ++
    [(e, MkFragment (Some (default a (last ends)))
           (string_of_bytes (slice D (default a (last ends)) e)) false)].
Proof.
  revert a. induction ends as [|x ends IH]; intros a; [done|]. simpl tiles.
  rewrite IH, last_cons. by destruct (last ends).
Qed.

Lemma select_insert serial ep m n f :
  m !! (serial, ep, n) = None →
  select_fragments serial ep (<[(serial, ep, n) := f]> m) ≡ₚ (n, f) :: select_fragments serial ep m.
Proof.
  intros Hn. apply NoDup_Permutation.
  - apply NoDup_select.
  - apply NoDup_cons. split; [|apply NoDup_select]. by rewrite elem_select, Hn.
  - intros [k g]. rewrite elem_of_cons, !elem_select, lookup_insert_Some.
    split; [intros [[[= ->] ->]|[_ ?]]; auto|].
    intros [[= -> ->]|H]; [by left|]. right. split; [congruence|done].
Qed.

Lemma select_insert_other serial ep s e n f m :
  s ≠ serial →
  select_fragments serial ep (<[(s, e, n) := f]> m) ≡ₚ select_fragments serial ep m.
Proof.
  intros Hne. apply NoDup_Permutation; [apply NoDup_select..|].
  intros [k g]. rewrite !elem_select, lookup_insert_ne by congruence. done.
Qed.

Lemma slice_nonempty D a b : 0 ≤ a < b → b ≤ zlen D → slice D a b ≠ [].
Proof.
  intros Hab Hb H. apply (f_equal length) in H. unfold slice in H.
  rewrite length_take, length_drop in H. unfold zlen in Hb. simpl in H. lia.
Qed.

Lemma string_nonempty b : b ≠ [] → string_of_bytes b ≠ ""%string.
Proof. by destruct b. Qed.

(** The first frame of a boot. *)
Lemma synced_first now serial ep D b0 e1 mx d d' :
  known serial d = true → c_epoch (cursor_of serial d) < ep →
  (∀ n, fragments d !! (serial, ep, n) = None) → 0 ≤ b0 < e1 → e1 ≤ zlen D →
  pushes now serial (MkFrame ep e1 None 0 false) (string_of_bytes (slice D b0 e1)) mx d d' →
  synced serial ep D b0 d'.
Proof.
  intros Hk Hep Hno Hb He Hp. apply pushes_spec in Hp as ->; [|done]. split.
  { by rewrite log_spec_known. }
  exists e1, []. unfold log_spec, frame_plausible.
  rewrite bool_decide_false by (by apply string_nonempty, slice_nonempty).
  destruct (Z.ltb_spec (end_ (MkFrame ep e1 None 0 false)) 0); [simpl in *; lia|]. simpl.
  set (cur := cursor_of serial d) in *.
  unfold in_sync, is_gap, advance. simpl.
  destruct (Z.eqb_spec ep (c_epoch cur)); [lia|]. destruct (Z.ltb_spec (c_epoch cur) ep); [|lia].
  simpl. rewrite Hno. cbn [fst]. rewrite cursor_of_insert.
  refine (conj _ (conj _ (conj _ (conj _ _)))); [split; [done|by repeat constructor]|done|done|done|].
  simpl. rewrite select_insert by done. unfold stream_rows. simpl.
  assert (select_fragments serial ep (fragments d) = []) as ->; [|done].
  apply elem_of_nil_inv. intros [k f]. by rewrite elem_select, Hno.
Qed.

Lemma synced_delta now serial ep D b0 mx e d d' :
  zlen D ≤ max_i64 → synced serial ep D b0 d →
  ack_off (cursor_of serial d) < e ≤ zlen D → e - ack_off (cursor_of serial d) ≤ mx →
  pushes now serial (MkFrame ep e None 0 false)
      (string_of_bytes (slice D (ack_off (cursor_of serial d)) e)) mx d d' →
  synced serial ep D b0 d'.
Proof.
  intros Hlen (Hk & e1 & ends & Hasc & Hep & Hack & Hle & Hsel) He Hmx Hp.
  apply pushes_spec in Hp as ->; [|done]. split; [by rewrite log_spec_known|].
  assert (0 < default e1 (last ends)) as Hpos.
  { destruct Hasc as [Hb Hs]. pose proof (last_bound e1 ends e1 Hs ltac:(left)). lia. }
  exists e1, (ends ++ [e]). unfold log_spec, frame_plausible.
  set (cur := cursor_of serial d) in *.
  rewrite bool_decide_false by (apply string_nonempty, slice_nonempty; lia).
  destruct (Z.ltb_spec (end_ (MkFrame ep e None 0 false)) 0); [simpl in *; lia|]. simpl.
  unfold in_sync, is_gap, advance. simpl.
  destruct (Z.eqb_spec ep (c_epoch cur)); [|lia]. destruct (Z.ltb_spec (ack_off cur) e); [|lia].
  destruct (Z.ltb_spec (c_epoch cur) ep); [lia|]. simpl.
  rewrite i64_small by (unfold in_i64, min_i64, max_i64 in *; lia).
  destruct (Z.ltb_spec mx (e - ack_off cur)); [lia|].
  assert (fragments d !! (serial, ep, e) = None) as Hno.
  { apply eq_None_not_Some. intros [f Hf]. apply elem_select in Hf. rewrite Hsel in Hf.
    apply stream_row_end, last_bound in Hf; [|apply Hasc]. simpl in Hf. lia. }
  rewrite Hno. cbn [fst]. rewrite cursor_of_insert, last_snoc. simpl.
  destruct Hasc as [Hb Hs].
  refine (conj _ (conj _ (conj _ (conj _ _)))); [|done|done|lia|].
  - split; [done|]. apply (sorted_snoc (e1 :: ends) e Hs).
    apply Forall_forall. intros x Hx. pose proof (last_bound e1 ends x Hs Hx). lia.
  - rewrite select_insert by done. unfold stream_rows in *. rewrite tiles_snoc, Hack, Hsel.
    by rewrite app_comm_cons, <-Permutation_cons_append.
Qed.

Lemma synced_again now serial ep D b0 mx e f payload d d' :
  synced serial ep D b0 d → fragments d !! (serial, ep, e) = Some f →
  pushes now serial (MkFrame ep e None 0 false) payload mx d d' → synced serial ep D b0 d'.
Proof.
  intros Hsync Hf Hp. destruct Hsync as (Hk & e1 & ends & Hasc & Hep & Hack & Hle & Hsel).
  apply pushes_spec in Hp as ->; [|done]. split; [by rewrite log_spec_known|].
  exists e1, ends. unfold log_spec. destruct (negb _); [done|]. cbv zeta.
  set (cur := cursor_of serial d) in *.
  assert (e ≤ ack_off cur) as He.
  { apply elem_select in Hf. rewrite Hsel in Hf.
    apply stream_row_end, last_bound in Hf; [|apply Hasc]. simpl in Hf. lia. }
  unfold in_sync, advance. simpl. destruct (Z.ltb_spec (ack_off cur) e); [lia|].
  rewrite andb_false_r. simpl. destruct (Z.ltb_spec (c_epoch cur) ep); [lia|].
  rewrite Hep, Z.eqb_refl, Hf. cbn [fst]. rewrite cursor_of_insert. simpl. by split_and!.
Qed.

Lemma synced_other now serial ep D b0 s lf payload mx d d' :
  synced serial ep D b0 d → s ≠ serial → known s d = true →
  pushes now s lf payload mx d d' → synced serial ep D b0 d'.
Proof.
  intros (Hk & e1 & ends & Hasc & Hep & Hack & Hle & Hsel) Hne Hks Hp.
  apply pushes_spec in Hp as ->; [|done]. split; [by rewrite log_spec_known|].
  exists e1, ends.
  assert (∀ c d, cursor_of serial (set_log_cursors (insert s c) d) = cursor_of serial d) as Hc
    by (intros; unfold cursor_of; simpl; by rewrite lookup_insert_ne).
  unfold log_spec. destruct (negb _); [done|]. cbv zeta.
  destruct (_ && _); [cbn [fst]; by rewrite Hc|]. destruct (advance _ _).
  destruct (fragments d !! _); cbn [fst]; rewrite Hc; [done|].
  split_and!; try done. simpl. by rewrite select_insert_other.
Qed.

Lemma device_step_synced serial ep D b0 mx d d' :
  zlen D ≤ max_i64 → device_step serial ep D mx d d' → synced serial ep D b0 d →
  synced serial ep D b0 d'.
Proof.
  intros Hlen Hs Hsync. destruct Hs.
  - by eapply synced_delta.
  - by eapply synced_again.
  - by eapply synced_other.
Qed.


(** ** Properties *)

(** C34. The log a device streams is what the operator reads back: from the
    first frame of a boot on, after any number of in-order deltas,
    retransmissions and frames of other devices, the rebuild is exactly the
    device's bytes from that first frame to its acknowledged offset, in order,
    each once, with no divider. *)
Theorem Reconstruct_stream now serial ep D b0 e1 mx d d1 d' :
  bytes_ok D → zlen D ≤ max_i64 →
  known serial d = true → c_epoch (cursor_of serial d) < ep →
  (∀ n, fragments d !! (serial, ep, n) = None) → 0 ≤ b0 < e1 → e1 ≤ zlen D →
  pushes now serial (MkFrame ep e1 None 0 false) (string_of_bytes (slice D b0 e1)) mx d d1 →
  rtc (device_step serial ep D mx) d1 d' →
  Reconstruct serial ep d' = (slice D b0 (ack_off (cursor_of serial d')), []).
Proof.
  intros HD Hlen Hk Hep Hno Hb He Hp Hr.
  assert (synced serial ep D b0 d') as (_ & e & ends & Hasc & _ & Hack & _ & Hsel).
  { apply synced_first in Hp; [|done..]. clear -Hr Hp Hlen.
    induction Hr; eauto using device_step_synced. }
  rewrite (reconstruct_rows serial ep d' D b0 e ends) by done. by rewrite Hack.
Qed.

(** Scrolling back through the log shows every matching row of the table
    as it was at the first page, newest first, each exactly once, although
    newer rows keep arriving between the pages; it ends after at most one page
    more than there are rows. *)
Theorem scrollback_complete serial_ltb marshal unmarshal p tbl :
  StrictTotal serial_ltb →
  (∀ c, bytes_ok (marshal c) ∧ marshal c ≠ [] ∧ unmarshal (marshal c) = Some c) →
  NoDup (key <$> tbl 0%nat) →
  (∀ i, ∃ new, tbl i = tbl 0%nat ++ new ∧
     ∀ r r0, r ∈ new → r0 ∈ tbl 0%nat → key_ltb serial_ltb (key r0) (key r) = true) →
  scrollback serial_ltb marshal unmarshal (S (length (tbl 0%nat))) p "" tbl 0 =
    Some (history serial_ltb p (tbl 0%nat) ≫= row_lines (sep_of (p_sep p))).
Proof.
  intros Hst Hcodec Hnd Hgrow.
  eapply (scroll_from serial_ltb marshal unmarshal Hcodec p tbl Hnd Hgrow _ 0 "" None _ []).
  - by rewrite bool_decide_true.
  - by rewrite (select_first serial_ltb).
  - done.
  - unfold history. rewrite (merge_sort_Permutation _ (List.filter _ _)).
    pose proof (filter_length_le (matches p) (tbl 0%nat)). lia.
Qed.

(** The live tail loses and repeats nothing: after any number of ticks over
    a table that grows in key order, the events emitted so far followed by the
    rows above the final high-water are exactly the rows above the initial
    one, oldest first. *)
Theorem tail_no_loss serial_ltb n hw sep batch tbl :
  StrictTotal serial_ltb →
  (∀ i, NoDup (key <$> tbl i)) →
  (∀ i, ∃ new, tbl (S i) = tbl i ++ new ∧
     ∀ r r0, r ∈ new → r0 ∈ tbl i → key_ltb serial_ltb (key r0) (key r) = true) →
  (ev_row <$> (tail_ticks serial_ltb n hw sep batch tbl 0).1) ++
     newer serial_ltb (tail_ticks serial_ltb n hw sep batch tbl 0).2 (tbl n) =
  newer serial_ltb hw (tbl n).
Proof. intros Hst. apply (tail_ticks_owe serial_ltb n hw sep batch tbl 0). Qed.

(** ** Concrete instances *)

(** A collation: the order of an injective code of strings. *)
Definition ex_ltb (a b : string) : bool :=
  (Z.pos (encode a) <? Z.pos (encode b)).
Lemma ex_ltb_total : StrictTotal ex_ltb.
Proof.
  unfold ex_ltb. split.
  - intros a. apply Z.ltb_irrefl.
  - intros a b c ?%Z.ltb_lt ?%Z.ltb_lt. apply Z.ltb_lt. lia.
  - intros a b Hne. rewrite !Z.ltb_lt.
    assert (encode a ≠ encode b) by (intros H; by apply (inj encode) in H). lia.
Qed.

(** A bookmark codec: the bits of an injective code, after a marker byte. *)
Fixpoint pos_bytes (p : positive) : bytes :=
  match p with xH => [] | xO p => 0 :: pos_bytes p | xI p => 1 :: pos_bytes p end.
Fixpoint bytes_pos (b : bytes) : positive :=
  match b with [] => xH | x :: b => if x =? 0 then xO (bytes_pos b) else xI (bytes_pos b) end.
Lemma bytes_pos_bytes p : bytes_pos (pos_bytes p) = p ∧ bytes_ok (pos_bytes p).
Proof.
  induction p as [p [IH H]|p [IH H]|]; simpl; rewrite ?IH; (split; [done|]);
    repeat constructor; unfold byte_ok; try lia; done.
Qed.
Definition cursor_tuple (c : Cursor) : Z * string * Z * Z :=
  (cu_time c, cu_serial c, cu_seq c, cu_ctid c).
Definition ex_marshal (c : Cursor) : bytes := 123 :: pos_bytes (encode (cursor_tuple c)).
Definition ex_unmarshal (b : bytes) : option Cursor :=
  match b with
  | _ :: b => '(t, s, q, c) ← (decode (bytes_pos b) : option (Z * string * Z * Z));
              Some (MkCursor t s q c)
  | [] => None
  end.
Lemma ex_codec c :
  bytes_ok (ex_marshal c) ∧ ex_marshal c ≠ [] ∧ ex_unmarshal (ex_marshal c) = Some c.
Proof.
  unfold ex_marshal, ex_unmarshal.
  destruct (bytes_pos_bytes (encode (cursor_tuple c))) as [Hp Hb].
  rewrite Hp, decode_encode. destruct c. simpl. split_and!; [|done|done].
  constructor; [unfold byte_ok; lia|done].
Qed.

Definition ex_row (t : Z) (s txt : string) (c : Z) : log_row :=
  MkLog t s (Some 1) (Some (c + 1)) None txt "telemetry" false false c.
Definition ex_table (i : nat) : list log_row :=
  [ex_row 5 "p1" "a|b|" 0; ex_row 7 "p2" "c|" 1; ex_row 6 "p1" "d" 2] ++
  (match i with O => [] | _ => [ex_row 9 "p1" "new|" 3] end).
Definition ex_params : Params := MkParams [] [] None "" 1 "".

Lemma ex_table_nodup i : NoDup (key <$> ex_table i).
Proof.
  apply (bool_decide_unpack _). destruct i; vm_compute; exact I.
Qed.

Lemma scrollback_complete_witness :
  scrollback ex_ltb ex_marshal ex_unmarshal 4 ex_params "" ex_table 0 =
    Some (history ex_ltb ex_params (ex_table 0) ≫= row_lines "|").
Proof.
  apply (scrollback_complete ex_ltb ex_marshal ex_unmarshal ex_params ex_table).
  - apply ex_ltb_total.
  - apply ex_codec.
  - apply (ex_table_nodup 0).
  - intros i. exists (match i with O => [] | _ => [ex_row 9 "p1" "new|" 3] end).
    split; [done|]. intros r r0 Hr Hr0. destruct i; [by apply not_elem_of_nil in Hr|].
    apply list_elem_of_singleton in Hr as ->. simpl in Hr0.
    repeat (apply elem_of_cons in Hr0 as [-> |Hr0]; [vm_compute; reflexivity|]).
    by apply not_elem_of_nil in Hr0.
Defined.

Definition ex_tail_table (i : nat) : list log_row :=
  [ex_row 5 "p1" "a|b|" 0] ++
  (match i with O => [] | _ => [ex_row 9 "p1" "new|" 3] end).

Lemma tail_no_loss_witness :
  (ev_row <$> (tail_ticks ex_ltb 2 (MkCursor 0 "" 0 0) "" 1 ex_tail_table 0).1) ++
     newer ex_ltb (tail_ticks ex_ltb 2 (MkCursor 0 "" 0 0) "" 1 ex_tail_table 0).2 (ex_tail_table 2) =
  newer ex_ltb (MkCursor 0 "" 0 0) (ex_tail_table 2).
Proof.
  apply (tail_no_loss ex_ltb 2 (MkCursor 0 "" 0 0) "" 1 ex_tail_table).
  - apply ex_ltb_total.
  - intros i. apply (bool_decide_unpack _). destruct i; vm_compute; exact I.
  - intros i. destruct i as [|i].
    + exists [ex_row 9 "p1" "new|" 3]. split; [done|]. intros r r0 Hr Hr0.
      apply list_elem_of_singleton in Hr as ->. apply list_elem_of_singleton in Hr0 as ->.
      vm_compute. reflexivity.
    + exists []. split; [by rewrite app_nil_r|]. intros r r0 Hr. by apply not_elem_of_nil in Hr.
Defined.

Definition ex_stream : bytes := bytes_of_string "boot|up|ok|".
Definition ex_s1 : db :=
  (log_spec 0 "p1" (MkFrame 3 5 None 0 false) (string_of_bytes (slice ex_stream 0 5)) 65536
     LogIngest.ex_db).1.
Definition ex_s2 : db :=
  (log_spec 0 "p1" (MkFrame 3 11 None 0 false) (string_of_bytes (slice ex_stream 5 11)) 65536
     ex_s1).1.

Lemma pushes_intro now serial lf payload mx d :
  known serial d = true → pushes now serial lf payload mx d (log_spec now serial lf payload mx d).1.
Proof.
  intros Hk. destruct (reassembleLog_implements now serial lf payload mx d Hk d [])
    as (r & t' & fs' & Hr & _ & Hx & Hn).
  destruct (Hn eq_refl) as [-> Hok]. destruct r as [ack|]; [|done].
  exists [], ack, t', []. split; [done|]. apply (inj Some) in Hx. by rewrite Hx.
Qed.

Lemma Reconstruct_stream_witness :
  Reconstruct "p1" 3 ex_s2 = (slice ex_stream 0 (ack_off (cursor_of "p1" ex_s2)), []) ∧
  slice ex_stream 0 (ack_off (cursor_of "p1" ex_s2)) = ex_stream.
Proof.
  split; [|vm_compute; reflexivity].
  apply (Reconstruct_stream 0 "p1" 3 ex_stream 0 5 65536 LogIngest.ex_db ex_s1 ex_s2).
  - apply bytes_of_string_ok.
  - vm_compute. done.
  - vm_compute. reflexivity.
  - vm_compute. reflexivity.
  - intros n. simpl. apply lookup_empty.
  - lia.
  - vm_compute. done.
  - apply pushes_intro. vm_compute. reflexivity.
  - eapply rtc_l; [|apply rtc_refl]. apply (dev_delta _ _ _ _ 0 11).
    + vm_compute. done.
    + vm_compute. done.
    + apply pushes_intro. vm_compute. reflexivity.
Defined.

(** ** Boundaries

    A delta grown after a lost acknowledgement starts at the device's old
    offset; it is stored as starting at the server's, and the rebuild repeats
    the bytes between the two. *)
Example regrown_delta_repeats :
  let d := (log_spec 0 "p1" (MkFrame 3 11 None 0 false) (string_of_bytes (slice ex_stream 0 11)) 65536
     ex_s1).1 in
  Reconstruct "p1" 3 d = (bytes_of_string "boot|boot|up|ok|", []) ∧
  Reconstruct "p1" 3 d ≠ (ex_stream, []).
Proof. vm_compute. done. Qed.

(** A row whose transaction started before the high-water but committed after
    the tick is never emitted. *)
Example tail_skips_late_commit :
  let hw := MkCursor 7 "p2" 2 1 in
  (Tail ex_ltb 0 (Some hw) "" 200 [ex_row 7 "p2" "c|" 1; ex_row 6 "p1" "late|" 2]).1 = [].
Proof. vm_compute. done. Qed.

End LogQuery.
