(* ===== verification/RenderDb.v ===== *)
(** * Tables of the frame side (migrations 0008, 0009, 0011, 0012, 0013)

    Render functions, device bindings, durable frames, playlists and their
    items, rotation cursors, the shared variant cache, images and secrets, with
    the constraints the schema enforces on them. The timestamps no code reads
    back ([created_at], [updated_at], [bound_at]) are left out. JSONB values are
    trees: text in a JSONB column is always well formed. *)

From S2P Require Import Prelude GoLib Db.
Import GoLib.

Module RenderDb.

(** ** JSON values and the decoding of a Go struct *)

(** A number is its literal, as [json.Unmarshal] parses it per target type. *)
#[warnings="-register-all"]
Inductive json :=
| JNull | JBool (b : bool) | JNum (lit : string) | JStr (s : string)
| JArr (l : list json) | JObj (m : list (string * json)).

Definition fold_byte (c : Z) : Z := if (97 <=? c) && (c <=? 122) then c - 32 else c.
(** [foldName] as far as it can match an ASCII field name: letters fold to
    upper case, U+017F to S and U+212A to K. *)
Fixpoint fold_name (s : bytes) : bytes :=
  match s with
  | [] => []
  | c :: s1 =>
      match s1 with
      | [] => [fold_byte c]
      | c2 :: s2 =>
          if (c =? 197) && (c2 =? 191) then 83 :: fold_name s2
          else match s2 with
          | [] => fold_byte c :: fold_name s1
          | c3 :: s3 => if (c =? 226) && (c2 =? 132) && (c3 =? 170) then 75 :: fold_name s3
                        else fold_byte c :: fold_name s1
          end
      end
  end.

Definition name_is (key name : string) : bool := bool_decide (key = name).
Definition name_folds (key name : string) : bool :=
  bool_decide (fold_name (bytes_of_string key) = fold_name (bytes_of_string name)).

(** The struct field an object key addresses: the exact name first. *)
Definition field_of {F} (fields : list (string * F)) (key : string) : option F :=
  match find_first (λ f, name_is key f.1) fields with
  | Some f => Some f.2
  | None => match find_first (λ f, name_folds key f.1) fields with
            | Some f => Some f.2 | None => None end
  end.

(** ** Errors of the stores *)

Inductive err :=
| EDb | ENotFound | EUnique | EForeignKey | ECheck | ENoWebhookToken
| ENameInvalid | EPolicyInvalid | EReorderIncomplete | ENoItems | EOpen | EBlob | EPanic.
#[global] Instance err_eq_dec : EqDecision err.
Proof. solve_decision. Defined.

(** ** Rows *)

Record function_row := MkFunctionRow {
  fr_name : string; fr_source : string; fr_version : Z; fr_trigger : string;
  fr_config : json; fr_secrets : list string; fr_egress : list string;
  fr_token : option bytes; fr_enabled : bool; fr_template : option Z }.

Record lastgood_row := MkLastGood { lg_packed : bytes; lg_status : string; lg_at : Z }.

Record playlist_row := MkPlaylistRow {
  pr_operator : option Z; pr_name : string; pr_interval : Z; pr_order : string;
  pr_epoch : Z; pr_version : Z; pr_managed : option string }.

Record item_row := MkItemRow {
  ir_playlist : Z; ir_image : Z; ir_position : Z; ir_fit : string; ir_dither : string }.

Record cursor_row := MkCursorRow { cr_playlist : Z; cr_position : Z; cr_at : Z }.

Record image_row := MkImageRow {
  im_sha : string; im_mime : string; im_width : Z; im_height : Z; im_size : Z }.

Record secret_row := MkSecretRow { sr_ciphertext : bytes; sr_nonce : bytes }.

Record db := MkDb {
  functions : gmap Z function_row;
  function_seq : Z;
  render_binding : gmap string Z;
  lastgood : gmap (string * Z) lastgood_row;
  playlists : gmap Z playlist_row;
  playlist_seq : Z;
  items : gmap Z item_row;
  item_seq : Z;
  playlist_binding : gmap string Z;
  cursors : gmap string cursor_row;
  variants : gmap (string * string * string) bytes;
  images : gmap Z image_row;
  secrets : gmap string secret_row;
  channel_of : gmap string string }.

Definition upd_functions f (d : db) : db :=
  MkDb (f (functions d)) (function_seq d) (render_binding d) (lastgood d) (playlists d)
    (playlist_seq d) (items d) (item_seq d) (playlist_binding d) (cursors d) (variants d)
    (images d) (secrets d) (channel_of d).
Definition upd_render_binding f (d : db) : db :=
  MkDb (functions d) (function_seq d) (f (render_binding d)) (lastgood d) (playlists d)
    (playlist_seq d) (items d) (item_seq d) (playlist_binding d) (cursors d) (variants d)
    (images d) (secrets d) (channel_of d).
Definition upd_lastgood f (d : db) : db :=
  MkDb (functions d) (function_seq d) (render_binding d) (f (lastgood d)) (playlists d)
    (playlist_seq d) (items d) (item_seq d) (playlist_binding d) (cursors d) (variants d)
    (images d) (secrets d) (channel_of d).
Definition upd_playlists f (d : db) : db :=
  MkDb (functions d) (function_seq d) (render_binding d) (lastgood d) (f (playlists d))
    (playlist_seq d) (items d) (item_seq d) (playlist_binding d) (cursors d) (variants d)
    (images d) (secrets d) (channel_of d).
Definition upd_items f (d : db) : db :=
  MkDb (functions d) (function_seq d) (render_binding d) (lastgood d) (playlists d)
    (playlist_seq d) (f (items d)) (item_seq d) (playlist_binding d) (cursors d) (variants d)
    (images d) (secrets d) (channel_of d).
Definition upd_playlist_binding f (d : db) : db :=
  MkDb (functions d) (function_seq d) (render_binding d) (lastgood d) (playlists d)
    (playlist_seq d) (items d) (item_seq d) (f (playlist_binding d)) (cursors d) (variants d)
    (images d) (secrets d) (channel_of d).
Definition upd_cursors f (d : db) : db :=
  MkDb (functions d) (function_seq d) (render_binding d) (lastgood d) (playlists d)
    (playlist_seq d) (items d) (item_seq d) (playlist_binding d) (f (cursors d)) (variants d)
    (images d) (secrets d) (channel_of d).
Definition upd_variants f (d : db) : db :=
  MkDb (functions d) (function_seq d) (render_binding d) (lastgood d) (playlists d)
    (playlist_seq d) (items d) (item_seq d) (playlist_binding d) (cursors d) (f (variants d))
    (images d) (secrets d) (channel_of d).
Definition upd_images f (d : db) : db :=
  MkDb (functions d) (function_seq d) (render_binding d) (lastgood d) (playlists d)
    (playlist_seq d) (items d) (item_seq d) (playlist_binding d) (cursors d) (variants d)
    (f (images d)) (secrets d) (channel_of d).
(** [nextval] of an identity column. *)
Definition next_function (d : db) : db :=
  MkDb (functions d) (function_seq d + 1) (render_binding d) (lastgood d) (playlists d)
    (playlist_seq d) (items d) (item_seq d) (playlist_binding d) (cursors d) (variants d)
    (images d) (secrets d) (channel_of d).
Definition next_playlist (d : db) : db :=
  MkDb (functions d) (function_seq d) (render_binding d) (lastgood d) (playlists d)
    (playlist_seq d + 1) (items d) (item_seq d) (playlist_binding d) (cursors d) (variants d)
    (images d) (secrets d) (channel_of d).
Definition next_item (d : db) : db :=
  MkDb (functions d) (function_seq d) (render_binding d) (lastgood d) (playlists d)
    (playlist_seq d) (items d) (item_seq d + 1) (playlist_binding d) (cursors d) (variants d)
    (images d) (secrets d) (channel_of d).

Definition empty_db : db := MkDb ∅ 1 ∅ ∅ ∅ 1 ∅ 1 ∅ ∅ ∅ ∅ ∅ ∅.

(** ** Statements over several tables *)

(** [ON DELETE CASCADE] from faas_functions. *)
Definition delete_functions (p : Z * function_row → bool) (d : db) : db :=
  let gone id := match functions d !! id with Some r => p (id, r) | None => false end in
  upd_lastgood (filter (λ kv, gone kv.1.2 = false))
   (upd_render_binding (filter (λ kv, gone kv.2 = false))
    (upd_functions (filter (λ kv, gone kv.1 = false)) d)).

(** [ON DELETE CASCADE] from playlist: its items and the bindings to it. *)
Definition delete_playlists (p : Z * playlist_row → bool) (d : db) : db :=
  let gone id := match playlists d !! id with Some r => p (id, r) | None => false end in
  upd_playlist_binding (filter (λ kv, gone kv.2 = false))
   (upd_items (filter (λ kv, gone (ir_playlist kv.2) = false))
    (upd_playlists (filter (λ kv, gone kv.1 = false)) d)).

Definition name_start (c : Z) : bool := is_digit c || ((97 <=? c) && (c <=? 122)).
Definition name_char (c : Z) : bool :=
  name_start c || (c =? 46) || (c =? 95) || (c =? 45).
(** [^[a-z0-9][a-z0-9._-]{0,127}$] *)
Definition ValidName (name : string) : bool :=
  match bytes_of_string name with
  | [] => false
  | c :: rest => name_start c && forallb name_char rest && (zlen rest <=? 127)
  end.

Definition packed_len : Z := 30000.

End RenderDb.
