(* ===== verification/FaasStore.v ===== *)
(** * Render functions, bindings and durable frames ([internal/faasstore]) *)

From S2P Require Import Prelude GoLib Db RenderDb.
Import GoLib RenderDb.

Module FaasStore.

(** ** Types (types.go) *)

(** An empty [json.RawMessage] is [None]. *)
Record Function := MkFunction {
  ID : Z; Name : string; Source : string; FVersion : Z; TriggerType : string;
  TriggerConfig : option json; SecretBindings : list string; EgressAllow : list string;
  Enabled : bool }.
Record Summary := MkSummary {
  SumID : Z; SumName : string; SumTrigger : string; SumEnabled : bool; SumVersion : Z }.
Record CreateParams := MkCreateParams {
  cp_name : string; cp_source : string; cp_trigger : string; cp_config : option json;
  cp_secrets : list string; cp_egress : list string; cp_token : option bytes;
  cp_template : option Z }.
Record UpdateParams := MkUpdateParams {
  up_source : string; up_config : option json; up_secrets : list string;
  up_egress : list string }.

Definition TriggerRender : string := "render".
Definition TriggerSchedule : string := "schedule".
Definition TriggerWebhook : string := "webhook".

Definition triggerOrDefault (t : string) : string :=
  if bool_decide (t = ""%string) then TriggerRender else t.
Definition coalesceJSON (j : option json) : json := default (JObj []) j.

(** ** CHECK constraints of faas_functions *)

Definition trigger_check (t : string) : bool :=
  bool_decide (t = TriggerRender) || bool_decide (t = TriggerSchedule) ||
  bool_decide (t = TriggerWebhook).
Definition token_check (t : option bytes) : bool :=
  match t with Some sha => zlen sha =? 32 | None => true end.
Definition max_int : Z := 2 ^ 31 - 1.
Definition function_named (name : string) (d : db) : bool :=
  bool_decide (Exists (λ kv, fr_name kv.2 = name) (map_to_list (functions d))).

(** ** Writes (store.go) *)

Definition insert_function (r : function_row) (d : db) : result err Z * db :=
  if negb (trigger_check (fr_trigger r) && token_check (fr_token r)) then (Err ECheck, d)
  else if function_named (fr_name r) d then (Err EUnique, d)
  else (Ok (function_seq d), next_function (upd_functions (insert (function_seq d) r) d)).

Definition Create (p : CreateParams) : M db err Z :=
  stmt EDb (insert_function (MkFunctionRow (cp_name p) (cp_source p) 1
    (triggerOrDefault (cp_trigger p)) (coalesceJSON (cp_config p)) (cp_secrets p) (cp_egress p)
    (cp_token p) false (cp_template p))).

(** A statement on one function row; whether it matched. *)
Definition on_function (id : Z) (f : function_row → result err function_row) (d : db)
    : result err bool * db :=
  match functions d !! id with
  | None => (Ok false, d)
  | Some r => match f r with
              | Err e => (Err e, d)
              | Ok r' => (Ok true, upd_functions (insert id r') d)
              end
  end.

Definition Update (id : Z) (p : UpdateParams) : M db err bool :=
  stmt EDb (on_function id (λ r,
    if max_int <=? fr_version r then Err EDb
    else Ok (MkFunctionRow (fr_name r) (up_source p) (fr_version r + 1) (fr_trigger r)
               (coalesceJSON (up_config p)) (up_secrets p) (up_egress p) (fr_token r)
               (fr_enabled r) (fr_template r)))).

Definition SetEnabled (id : Z) (enabled : bool) : M db err bool :=
  stmt EDb (on_function id (λ r,
    Ok (MkFunctionRow (fr_name r) (fr_source r) (fr_version r) (fr_trigger r) (fr_config r)
          (fr_secrets r) (fr_egress r) (fr_token r) enabled (fr_template r)))).

Definition SetWebhookToken (id : Z) (sha : bytes) : M db err bool :=
  stmt EDb (on_function id (λ r,
    if negb (token_check (Some sha)) then Err ECheck
    else Ok (MkFunctionRow (fr_name r) (fr_source r) (fr_version r) (fr_trigger r)
          (fr_config r) (fr_secrets r) (fr_egress r) (Some sha) (fr_enabled r)
          (fr_template r)))).

Definition Delete (id : Z) : M db err bool :=
  stmt EDb (λ d, (Ok (bool_decide (is_Some (functions d !! id))),
                  delete_functions (λ kv, kv.1 =? id) d)).

(** ** Reads *)

Definition scanFunction (id : Z) (r : function_row) : Function :=
  MkFunction id (fr_name r) (fr_source r) (fr_version r) (fr_trigger r) (Some (fr_config r))
    (fr_secrets r) (fr_egress r) (fr_enabled r).

Definition LoadFunction (id : Z) : M db err Function :=
  query EDb (λ d, match functions d !! id with
                  | Some r => Ok (scanFunction id r) | None => Err ENotFound end).

Definition LoadFunctionByName (name : string) : M db err Function :=
  query EDb (λ d,
    match find_first (λ kv, bool_decide (fr_name kv.2 = name)) (map_to_list (functions d)) with
    | Some (id, r) => Ok (scanFunction id r)
    | None => Err ENotFound
    end).

Definition Version (id : Z) : M db err Z :=
  query EDb (λ d, match functions d !! id with
                  | Some r => Ok (fr_version r) | None => Err ENotFound end).

(** A NULL hash scans as an empty slice. *)
Definition WebhookTokenSHA (id : Z) : M db err bytes :=
  query EDb (λ d,
    match functions d !! id with
    | None => Err ENotFound
    | Some r => match fr_token r with
                | Some (b :: sha) => Ok (b :: sha)
                | _ => Err ENoWebhookToken
                end
    end).

Definition BoundFunctionID (serial : string) : M db err (Z * bool) :=
  query EDb (λ d, match render_binding d !! serial with
                  | Some id => Ok (id, true) | None => Ok (0, false) end).

Definition BoundFunction (serial : string) : M db err (Z * string * bool) :=
  query EDb (λ d,
    match (id ← render_binding d !! serial; r ← functions d !! id; Some (id, fr_name r)) with
    | Some (id, name) => Ok (id, name, true)
    | None => Ok (0, ""%string, false)
    end).

Definition LastGoodGet (serial : string) (fnID : Z) : M db err lastgood_row :=
  query EDb (λ d, match lastgood d !! (serial, fnID) with
                  | Some lg => Ok lg | None => Err ENotFound end).

(** ** Bindings and durable frames *)

(** [INSERT ... ON CONFLICT (serial) DO UPDATE] under the foreign key. *)
Definition upsert_render_binding (serial : string) (fnID : Z) (d : db) : result err unit * db :=
  if bool_decide (is_Some (functions d !! fnID))
  then (Ok tt, upd_render_binding (insert serial fnID) d)
  else (Err EForeignKey, d).

Definition managed_by (serial : string) (r : playlist_row) : bool :=
  bool_decide (pr_managed r = Some serial).

(** [SELECT pg_advisory_xact_lock(hashtext($1))]: the transactions of one
    serial are a sequence. *)
Definition advisory_lock : M (Tx db) err unit := tx_exec EDb (λ d, d).

Definition BindDevice (serial : string) (fnID : Z) : M db err unit :=
  with_tx EDb (
    _ ← advisory_lock;
    _ ← tx_exec EDb (upd_playlist_binding (delete serial));
    _ ← tx_exec EDb (upd_cursors (delete serial));
    _ ← tx_exec EDb (delete_playlists (λ kv, managed_by serial kv.2));
    _ ← tx_stmt EDb (upsert_render_binding serial fnID);
    _ ← commit EDb;
    mret tt).

Definition Unbind (serial : string) : M db err bool :=
  stmt EDb (λ d, (Ok (bool_decide (is_Some (render_binding d !! serial))),
                  upd_render_binding (delete serial) d)).

Definition DeleteDeviceBindings (serial : string) : M db err unit :=
  _ ← exec EDb (upd_render_binding (delete serial));
  exec EDb (upd_lastgood (filter (λ kv, kv.1.1 ≠ serial))).

(** The CHECK on the length and the foreign key to the function. *)
Definition upsert_lastgood (now : Z) (serial : string) (fnID : Z) (packed : bytes)
    (status : string) (d : db) : result err unit * db :=
  if negb (zlen packed =? packed_len) then (Err ECheck, d)
  else if bool_decide (is_Some (functions d !! fnID))
  then (Ok tt, upd_lastgood (insert (serial, fnID) (MkLastGood packed status now)) d)
  else (Err EForeignKey, d).

Definition LastGoodPut (now : Z) (serial : string) (fnID : Z) (packed : bytes)
    (status : string) : M db err unit :=
  stmt EDb (upsert_lastgood now serial fnID packed status).

(** ** Ordered reads: [text_le] is the collation of the database *)
Section Collation.
Context (text_le : string → string → bool).

Definition name_le (a b : Summary) : Prop := text_le (SumName a) (SumName b) = true.
Definition serial_le (a b : string) : Prop := text_le a b = true.
#[global] Instance name_le_dec a b : Decision (name_le a b).
Proof. unfold name_le. apply _. Defined.
#[global] Instance serial_le_dec a b : Decision (serial_le a b).
Proof. unfold serial_le. apply _. Defined.

Definition ListFunctions : M db err (list Summary) :=
  query EDb (λ d, Ok (merge_sort name_le
    ((λ kv : Z * function_row, MkSummary kv.1 (fr_name kv.2) (fr_trigger kv.2)
        (fr_enabled kv.2) (fr_version kv.2)) <$> map_to_list (functions d)))).

Definition BoundSerials (fnID : Z) : M db err (list string) :=
  query EDb (λ d, Ok (merge_sort serial_le
    ((filter (λ kv : string * Z, kv.2 = fnID) (map_to_list (render_binding d))).*1))).
End Collation.

End FaasStore.
