(* ===== verification/PlaylistStore.v ===== *)
(** * Playlists and their items ([internal/playliststore]) *)

From S2P Require Import Prelude GoLib Db RenderDb.
Import GoLib RenderDb.

Module PlaylistStore.

(** ** Types and validation (types.go) *)

Record Playlist := MkPlaylist {
  ID : Z; OperatorKeyID : option Z; Name : string; IntervalS : Z; OrderMode : string;
  ShuffleEpoch : Z; PVersion : Z; ManagedSerial : option string }.
Record PlaylistItem := MkItem {
  ItemID : Z; PlaylistID : Z; ImageID : Z; Position : Z; Fit : string; Dither : string }.
Record Summary := MkSummary {
  SumID : Z; SumName : string; SumInterval : Z; SumOrder : string; SumVersion : Z }.

Definition one_of (l : list string) (s : string) : bool := existsb (λ x, bool_decide (s = x)) l.
Definition ValidOrderMode (m : string) : bool := one_of ["sequential"; "shuffle"]%string m.
Definition fits : list string := ["cover"; "contain"; "fill"]%string.
Definition dithers : list string :=
  ["none"; "floyd-steinberg"; "atkinson"; "ordered"]%string.
Definition ValidFit (f : string) : bool := bool_decide (f = ""%string) || one_of fits f.
Definition ValidDither (d : string) : bool := bool_decide (d = ""%string) || one_of dithers d.

(** ** Rows and their constraints *)

Definition scanPlaylist (id : Z) (r : playlist_row) : Playlist :=
  MkPlaylist id (pr_operator r) (pr_name r) (pr_interval r) (pr_order r) (pr_epoch r)
    (pr_version r) (pr_managed r).
Definition scanItem (id : Z) (r : item_row) : PlaylistItem :=
  MkItem id (ir_playlist r) (ir_image r) (ir_position r) (ir_fit r) (ir_dither r).

Definition max_int : Z := 2 ^ 31 - 1.
Definition playlist_check (r : playlist_row) : bool :=
  (0 <? pr_interval r) && (pr_interval r <=? max_int) && ValidOrderMode (pr_order r).
Definition playlist_named (name : string) (except : Z) (d : db) : bool :=
  existsb (λ kv, bool_decide (pr_name kv.2 = name) && negb (kv.1 =? except))
    (map_to_list (playlists d)).
Definition playlist_managing (serial : string) (d : db) : option (Z * playlist_row) :=
  find_first (λ kv, bool_decide (pr_managed kv.2 = Some serial)) (map_to_list (playlists d)).

Definition insert_playlist (r : playlist_row) (d : db) : result err Z * db :=
  if negb (playlist_check r) then (Err ECheck, d)
  else if playlist_named (pr_name r) 0 d ||
          match pr_managed r with
          | Some s => bool_decide (is_Some (playlist_managing s d)) | None => false end
  then (Err EUnique, d)
  else (Ok (playlist_seq d), next_playlist (upd_playlists (insert (playlist_seq d) r) d)).

(** ** Playlist operations (store.go) *)

Record CreateParams := MkCreateParams {
  cp_operator : option Z; cp_name : string; cp_interval : Z; cp_order : string;
  cp_managed : option string }.

Definition CreatePlaylist (p : CreateParams) : M db err Playlist :=
  if negb (ValidName (cp_name p)) then throw ENameInvalid
  else
    let interval := if cp_interval p <=? 0 then 900 else cp_interval p in
    let mode := if bool_decide (cp_order p = ""%string) then "sequential"%string
                else cp_order p in
    if negb (ValidOrderMode mode) then throw EPolicyInvalid
    else
      let r := MkPlaylistRow (cp_operator p) (cp_name p) interval mode 1 1 (cp_managed p) in
      id ← stmt EDb (insert_playlist r);
      mret (scanPlaylist id r).

Definition GetPlaylist (id : Z) : M db err Playlist :=
  query EDb (λ d, match playlists d !! id with
                  | Some r => Ok (scanPlaylist id r) | None => Err ENotFound end).

(** A statement on one playlist row: the row it leaves, none when nothing
    matched. *)
Definition on_playlist (id : Z) (f : playlist_row → playlist_row) (d : db)
    : result err (option playlist_row) * db :=
  match playlists d !! id with
  | None => (Ok None, d)
  | Some r =>
      let r' := f r in
      if (max_int <? pr_version r') || (max_int <? pr_epoch r') then (Err EDb, d)
      else if negb (playlist_check r') then (Err ECheck, d)
      else if playlist_named (pr_name r') id d then (Err EUnique, d)
      else (Ok (Some r'), upd_playlists (insert id r') d)
  end.

Record UpdateParams := MkUpdateParams {
  up_name : option string; up_interval : option Z; up_order : option string }.

Definition patch (p : UpdateParams) (r : playlist_row) : playlist_row :=
  MkPlaylistRow (pr_operator r) (default (pr_name r) (up_name p))
    (default (pr_interval r) (up_interval p)) (default (pr_order r) (up_order p))
    (pr_epoch r) (pr_version r + 1) (pr_managed r).

Definition UpdatePlaylist (id : Z) (p : UpdateParams) : M db err Playlist :=
  if match up_name p with Some n => negb (ValidName n) | None => false end
  then throw ENameInvalid
  else if match up_interval p with Some i => i <=? 0 | None => false end
  then throw EPolicyInvalid
  else if match up_order p with Some m => negb (ValidOrderMode m) | None => false end
  then throw EPolicyInvalid
  else
    r ← stmt EDb (on_playlist id (patch p));
    match r with
    | Some r => mret (scanPlaylist id r)
    | None => throw ENotFound
    end.

(** [tag.RowsAffected() == 0]. *)
Definition affected (r : option playlist_row) : M db err unit :=
  match r with Some _ => mret tt | None => throw ENotFound end.

Definition DeletePlaylist (id : Z) : M db err unit :=
  found ← stmt EDb (λ d, (Ok (bool_decide (is_Some (playlists d !! id))),
                          delete_playlists (λ kv, kv.1 =? id) d));
  if found : bool then mret tt else throw ENotFound.

Record PolicyParams := MkPolicyParams { pp_interval : Z; pp_order : string }.

Definition set_policy (p : PolicyParams) (r : playlist_row) : playlist_row :=
  MkPlaylistRow (pr_operator r) (pr_name r) (pp_interval p) (pp_order p) (pr_epoch r)
    (pr_version r + 1) (pr_managed r).
Definition SetPolicy (id : Z) (p : PolicyParams) : M db err unit :=
  if (pp_interval p <=? 0) || negb (ValidOrderMode (pp_order p)) then throw EPolicyInvalid
  else r ← stmt EDb (on_playlist id (set_policy p)); affected r.

Definition reshuffled (r : playlist_row) : playlist_row :=
  MkPlaylistRow (pr_operator r) (pr_name r) (pr_interval r) (pr_order r) (pr_epoch r + 1)
    (pr_version r + 1) (pr_managed r).
Definition Reshuffle (id : Z) : M db err unit :=
  r ← stmt EDb (on_playlist id reshuffled); affected r.

(** Keyset page over the ids; managed rows only on request. *)
Definition id_le (a b : Z * playlist_row) : Prop := a.1 ≤ b.1.
#[global] Instance id_le_dec a b : Decision (id_le a b).
Proof. unfold id_le. apply _. Defined.

Definition ListPlaylists (limit cursor : Z) (includeManaged : bool) : M db err (list Summary) :=
  let limit := if limit <=? 0 then 50 else limit in
  query EDb (λ d, Ok (
    (λ kv : Z * playlist_row, MkSummary kv.1 (pr_name kv.2) (pr_interval kv.2)
                                (pr_order kv.2) (pr_version kv.2)) <$>
    take (Z.to_nat limit) (merge_sort id_le
      (List.filter (λ kv : Z * playlist_row, (cursor <? kv.1) &&
         (includeManaged || negb (bool_decide (is_Some (pr_managed kv.2)))))
        (map_to_list (playlists d)))))).

(** ** Items *)

Record AddItemParams := MkAddItem { ap_image : Z; ap_fit : string; ap_dither : string }.

Definition items_of (playlistID : Z) (d : db) : list (Z * item_row) :=
  filter (λ kv : Z * item_row, ir_playlist kv.2 = playlistID) (map_to_list (items d)).

(** [COALESCE((SELECT max(position) + 1 ...), 0)]. *)
Definition next_position (playlistID : Z) (d : db) : Z :=
  match items_of playlistID d with
  | [] => 0
  | kv :: l => 1 + foldr (λ kv m, Z.max (ir_position kv.2) m) (ir_position kv.2) l
  end.

Definition bump (id : Z) (d : db) : db :=
  upd_playlists (alter (λ r, MkPlaylistRow (pr_operator r) (pr_name r) (pr_interval r)
    (pr_order r) (pr_epoch r) (pr_version r + 1) (pr_managed r)) id) d.
Definition at_max_version (id : Z) (d : db) : bool :=
  match playlists d !! id with Some r => max_int <=? pr_version r | None => false end.

Definition item_check (r : item_row) : bool :=
  (- 2 ^ 31 <=? ir_position r) && (ir_position r <=? max_int) &&
  one_of fits (ir_fit r) && one_of dithers (ir_dither r).
Definition position_taken (r : item_row) (d : db) : bool :=
  existsb (λ kv, bool_decide (ir_position kv.2 = ir_position r)) (items_of (ir_playlist r) d).

(** One row of playlist_item, under its CHECKs, keys and foreign keys. *)
Definition insert_item (r : item_row) (d : db) : result err Z * db :=
  if negb (item_check r) then (Err ECheck, d)
  else if position_taken r d then (Err EUnique, d)
  else if negb (bool_decide (is_Some (playlists d !! ir_playlist r))) ||
          negb (bool_decide (is_Some (images d !! ir_image r)))
  then (Err EForeignKey, d)
  else (Ok (item_seq d), next_item (upd_items (insert (item_seq d) r) d)).

Definition add_item (playlistID : Z) (p : AddItemParams) (d : db)
    : result err (Z * item_row) * db :=
  let fit := if bool_decide (ap_fit p = ""%string) then "cover"%string else ap_fit p in
  let dither := if bool_decide (ap_dither p = ""%string) then "none"%string
                else ap_dither p in
  let r := MkItemRow playlistID (ap_image p) (next_position playlistID d) fit dither in
  if at_max_version playlistID d then (Err EDb, d)
  else match insert_item r d with
  | (Ok id, d') => (Ok (id, r), bump playlistID d')
  | (Err e, _) => (Err e, d)
  end.

Definition AddItem (playlistID : Z) (p : AddItemParams) : M db err PlaylistItem :=
  r ← stmt EDb (add_item playlistID p); mret (scanItem r.1 r.2).

Definition remove_item (itemID : Z) (d : db) : result err unit * db :=
  match items d !! itemID with
  | None => (Err ENotFound, d)
  | Some r => if at_max_version (ir_playlist r) d then (Err EDb, d)
              else (Ok tt, bump (ir_playlist r) (upd_items (delete itemID) d))
  end.
Definition RemoveItem (itemID : Z) : M db err unit := stmt EDb (remove_item itemID).

Definition position_le (a b : Z * item_row) : Prop := ir_position a.2 ≤ ir_position b.2.
#[global] Instance position_le_dec a b : Decision (position_le a b).
Proof. unfold position_le. apply _. Defined.

Definition scan_items (l : list (Z * item_row)) : list PlaylistItem :=
  (λ kv, scanItem kv.1 kv.2) <$> l.
Definition RotationItems (playlistID : Z) : M db err (list PlaylistItem) :=
  query EDb (λ d, Ok (scan_items (merge_sort position_le (items_of playlistID d)))).
Definition ListItems (playlistID limit cursor : Z) : M db err (list PlaylistItem) :=
  let limit := if limit <=? 0 then 50 else limit in
  query EDb (λ d, Ok (scan_items (take (Z.to_nat limit) (merge_sort position_le
    (List.filter (λ kv, cursor <? ir_position kv.2) (items_of playlistID d)))))).

(** ** Reorder *)

Definition at_position (p : Z) (r : item_row) : item_row :=
  MkItemRow (ir_playlist r) (ir_image r) p (ir_fit r) (ir_dither r).

(** Stage 1: [position = -1 - position]; the rows affected. The unique key is
    checked row by row: a staged position that another row still holds is a
    violation. *)
Definition staged_clash (playlistID : Z) (d : db) : bool :=
  existsb (λ a, existsb (λ b, negb (a.1 =? b.1) &&
                              (-1 - ir_position a.2 =? ir_position b.2))
                  (items_of playlistID d))
    (items_of playlistID d).
Definition stage_negative (playlistID : Z) (d : db) : result err Z * db :=
  if staged_clash playlistID d then (Err EUnique, d)
  else (Ok (zlen (items_of playlistID d)),
   upd_items (fmap (λ r, if bool_decide (ir_playlist r = playlistID)
                         then at_position (-1 - ir_position r) r else r)) d).

(** The position an id list assigns to an item. A row that several entries name
    is updated once, by one of them; the first stands for it, and the count
    rejects such a list. *)
Fixpoint index_from (i : Z) (ids : list Z) (id : Z) : option Z :=
  match ids with
  | [] => None
  | x :: ids => if x =? id then Some i else index_from (i + 1) ids id
  end.

(** Stage 2: the rows matched and the positions assigned. They are distinct and
    not negative, the rows it leaves are negative: no clash. *)
Definition renumber (playlistID : Z) (ids : list Z) (d : db) : gmap Z item_row :=
  map_imap (λ id r, Some (if bool_decide (ir_playlist r = playlistID)
                          then match index_from 0 ids id with
                               | Some p => at_position p r | None => r end
                          else r)) (items d).
Definition matched (playlistID : Z) (ids : list Z) (d : db) : Z :=
  zlen (List.filter (λ kv, bool_decide (is_Some (index_from 0 ids kv.1)))
         (items_of playlistID d)).
Definition assign_positions (playlistID : Z) (ids : list Z) (d : db) : result err Z * db :=
  (Ok (matched playlistID ids d), upd_items (λ _, renumber playlistID ids d) d).

Definition bump_version (playlistID : Z) (d : db) : result err unit * db :=
  if at_max_version playlistID d then (Err EDb, d) else (Ok tt, bump playlistID d).

Definition Reorder (playlistID : Z) (orderedItemIDs : list Z) : M db err unit :=
  with_tx EDb (
    n ← tx_stmt EDb (stage_negative playlistID);
    if negb (n =? zlen orderedItemIDs) then throw EReorderIncomplete
    else
      n ← tx_stmt EDb (assign_positions playlistID orderedItemIDs);
      if negb (n =? zlen orderedItemIDs) then throw EReorderIncomplete
      else
        _ ← tx_stmt EDb (bump_version playlistID);
        _ ← commit EDb;
        mret tt).

(** ** Lemmas: the items of a playlist *)

Definition ids_of (playlistID : Z) (d : db) : list Z := (items_of playlistID d).*1.

Lemma elem_of_items_of pl d id r :
  (id, r) ∈ items_of pl d ↔ items d !! id = Some r ∧ ir_playlist r = pl.
Proof.
  unfold items_of. rewrite list_elem_of_filter, elem_of_map_to_list. simpl. tauto.
Qed.

Lemma elem_of_ids_of pl d id :
  id ∈ ids_of pl d ↔ ∃ r, items d !! id = Some r ∧ ir_playlist r = pl.
Proof.
  unfold ids_of. rewrite list_elem_of_fmap. split.
  - intros ([id' r] & -> & H). exists r. by apply elem_of_items_of.
  - intros (r & H). exists (id, r). split; [done|]. by apply elem_of_items_of.
Qed.

Lemma NoDup_ids_of pl d : NoDup (ids_of pl d).
Proof.
  unfold ids_of, items_of. eapply sublist_NoDup; [apply (NoDup_fst_map_to_list (items d))|].
  apply fmap_sublist, sublist_filter.
Qed.

Lemma index_from_Some i ids id :
  is_Some (index_from i ids id) ↔ id ∈ ids.
Proof.
  revert i. induction ids as [|x ids IH]; intros i; simpl.
  { split; [by intros []|]. intros H. by apply not_elem_of_nil in H. }
  destruct (Z.eqb_spec x id) as [->|Hne].
  - split; [intros; left|eauto].
  - rewrite IH, elem_of_cons. split; [by right|intros [?|?]; [congruence|done]].
Qed.

Lemma index_from_lookup i ids k id :
  NoDup ids → ids !! k = Some id → index_from i ids id = Some (i + Z.of_nat k).
Proof.
  revert i k. induction ids as [|x ids IH]; intros i k Hnd Hk; [done|].
  apply NoDup_cons in Hnd as [Hx Hnd]. destruct k as [|k]; simpl in *.
  - simplify_eq. rewrite Z.eqb_refl. f_equal. lia.
  - destruct (Z.eqb_spec x id) as [->|].
    + destruct Hx. by eapply list_elem_of_lookup_2.
    + rewrite (IH _ k) by done. f_equal. lia.
Qed.

(** Staging moves positions only. *)
Lemma ids_of_staged pl d : ids_of pl (stage_negative pl d).2 ≡ₚ ids_of pl d.
Proof.
  apply NoDup_Permutation; [apply NoDup_ids_of..|]. intros id. rewrite !elem_of_ids_of.
  unfold stage_negative. destruct (staged_clash pl d); simpl; [done|].
  rewrite lookup_fmap. destruct (items d !! id) as [r|]; simpl.
  - case_bool_decide; split; intros (? & ? & ?); simplify_eq/=; eauto.
  - split; intros (? & ? & ?); done.
Qed.

Lemma no_staged_clash pl d :
  (∀ id r, items d !! id = Some r → 0 ≤ ir_position r) → staged_clash pl d = false.
Proof.
  intros Hpos. unfold staged_clash. apply not_true_is_false. intros H.
  apply existsb_exists in H as ([a ra] & Ha & H). apply existsb_exists in H as ([b rb] & Hb & H).
  apply list_elem_of_In, elem_of_items_of in Ha as [Ha _], Hb as [Hb _].
  apply Hpos in Ha, Hb. simpl in H. apply andb_true_iff in H as [_ H]. lia.
Qed.

Lemma matched_all pl ids d :
  length (ids_of pl d) = length ids →
  matched pl ids d = zlen ids ↔ ids ≡ₚ ids_of pl d.
Proof.
  intros Hlen. unfold matched.
  assert (Hl : ∀ l : list (Z * item_row),
    length (List.filter (λ kv, bool_decide (is_Some (index_from 0 ids kv.1))) l) = length l ↔
    Forall (λ id, id ∈ ids) l.*1).
  { induction l as [|[id r] l IH]; simpl; [split; auto; constructor|].
    rewrite Forall_cons, <-(index_from_Some 0). case_bool_decide as Hid; simpl.
    - rewrite <-IH. split; [intros; split; [done|lia]|intros [? ?]; lia].
    - split; [|by intros [? ?]]. intros Hbad. exfalso.
      pose proof (List.filter_length_le
        (λ kv : Z * item_row, bool_decide (is_Some (index_from 0 ids kv.1))) l). lia. }
  specialize (Hl (items_of pl d)). fold (ids_of pl d) in Hl.
  assert (Hlen' : length (items_of pl d) = length ids).
  { unfold ids_of in Hlen. by rewrite length_fmap in Hlen. }
  rewrite Hlen' in Hl. unfold zlen. split.
  - intros Hm. symmetry. apply submseteq_length_Permutation; [|lia].
    apply NoDup_submseteq; [apply NoDup_ids_of|]. apply Forall_forall. apply Hl. lia.
  - intros Hp. f_equal. apply Hl. apply Forall_forall. intros id. by rewrite Hp.
Qed.

Lemma renumber_lookup pl ids d id :
  renumber pl ids d !! id =
  (λ r, if bool_decide (ir_playlist r = pl)
        then match index_from 0 ids id with Some p => at_position p r | None => r end
        else r) <$> items d !! id.
Proof. unfold renumber. rewrite map_lookup_imap. by destruct (items d !! id). Qed.

(** On a full list, numbering the staged rows is numbering the rows. *)
Lemma renumber_staged pl ids d :
  staged_clash pl d = false → ids ≡ₚ ids_of pl d →
  renumber pl ids (stage_negative pl d).2 = renumber pl ids d.
Proof.
  intros Hc Hp. apply map_eq. intros id. rewrite !renumber_lookup.
  unfold stage_negative. rewrite Hc. simpl. rewrite lookup_fmap.
  destruct (items d !! id) as [r|] eqn:Hr; simpl; [|done]. f_equal.
  destruct (decide (ir_playlist r = pl)) as [Hpl|Hpl].
  2: { by rewrite !(bool_decide_false (ir_playlist r = pl)) by done. }
  rewrite !(bool_decide_true (ir_playlist r = pl)) by done. simpl.
  destruct (index_from 0 ids id) as [p|] eqn:Hi; [done|].
  assert (id ∈ ids) as Hin; [rewrite Hp; apply elem_of_ids_of; eauto|].
  apply (index_from_Some 0) in Hin as [p Hp']. congruence.
Qed.

Definition reordered (pl : Z) (ids : list Z) (d : db) : db :=
  bump pl (upd_items (λ _, renumber pl ids d) d).

Lemma Reorder_commits pl ids d :
  (∀ id r, items d !! id = Some r → 0 ≤ ir_position r) →
  ∀ fs, ∃ r d' fs', Reorder pl ids d fs = (r, d', fs') ∧
    match r with
    | Ok _ => ids ≡ₚ ids_of pl d ∧ d' = reordered pl ids d
    | Err _ => d' = d
    end ∧
    (fs = [] → is_ok r = bool_decide (ids ≡ₚ ids_of pl d) && negb (at_max_version pl d)).
Proof.
  intros Hpos fs.
  set (spec := if bool_decide (ids ≡ₚ ids_of pl d) && negb (at_max_version pl d)
               then Some (reordered pl ids d, ()) else None).
  unfold Reorder. match goal with |- context [with_tx EDb ?b d fs] =>
    destruct (with_tx_commits EDb b d spec fs) as (r & d' & fs' & -> & Hr & Hok) end.
  2: { exists r, d', fs'. split; [done|]. unfold spec in *.
       split.
       - clear Hok. destruct r; [|done]. case_bool_decide; [|done].
         destruct (at_max_version pl d); [done|]. simpl in Hr. by simplify_eq.
       - clear Hr. intros Hfs. destruct (Hok Hfs) as [_ ->]. by destruct (bool_decide _), (at_max_version pl d). }
  pose proof (no_staged_clash pl d Hpos) as Hc.
  eapply commits_bind_Some.
  { eapply implements_ok. unfold stage_negative. rewrite Hc. reflexivity. }
  assert (Hst : upd_items (fmap (λ r, if bool_decide (ir_playlist r = pl)
            then at_position (-1 - ir_position r) r else r)) d = (stage_negative pl d).2)
    by (unfold stage_negative; by rewrite Hc).
  rewrite Hst. pose proof (ids_of_staged pl d) as Hids.
  assert (Hlen : zlen (items_of pl d) = zlen (ids_of pl d))
    by (unfold zlen, ids_of; by rewrite length_fmap).
  destruct (Z.eqb_spec (zlen (items_of pl d)) (zlen ids)) as [Hn|Hn]; simpl.
  2: { unfold spec. rewrite bool_decide_false; [apply commits_throw|].
       intros Hp. apply Permutation_length in Hp. unfold zlen in *. lia. }
  eapply commits_bind_Some; [eapply implements_ok; reflexivity|].
  assert (Hm : matched pl ids (stage_negative pl d).2 = zlen ids ↔ ids ≡ₚ ids_of pl d).
  { rewrite matched_all; [by rewrite Hids|]. rewrite Hids. unfold zlen in *. lia. }
  destruct (Z.eqb_spec (matched pl ids (stage_negative pl d).2) (zlen ids)) as [Ht|Ht]; simpl.
  2: { unfold spec. rewrite bool_decide_false; [apply commits_throw|]. by rewrite <-Hm. }
  apply Hm in Ht. unfold spec. rewrite bool_decide_true by done. simpl.
  rewrite renumber_staged by done.
  assert (Hat : at_max_version pl (upd_items (λ _, renumber pl ids d) (stage_negative pl d).2) =
                at_max_version pl d) by (unfold stage_negative; by rewrite Hc).
  destruct (at_max_version pl d) eqn:Hv; simpl.
  - eapply commits_bind_None, implements_err. unfold bump_version. by rewrite Hat.
  - eapply commits_bind_Some.
    { eapply implements_ok. unfold bump_version. rewrite Hat. reflexivity. }
    replace (bump pl _) with (reordered pl ids d); [apply commits_end|].
    unfold reordered, stage_negative. by rewrite Hc.
Qed.

Lemma reordered_lookup pl ids d id :
  items (reordered pl ids d) !! id = renumber pl ids d !! id.
Proof. done. Qed.

#[global] Instance position_le_trans : Transitive position_le.
Proof. intros a b c. unfold position_le. lia. Qed.
#[global] Instance position_le_total : Total position_le.
Proof. intros a b. unfold position_le. lia. Qed.

(** After a reorder the rotation reads the items in the given order. *)
Lemma reordered_rotation pl ids d :
  ids ≡ₚ ids_of pl d →
  (merge_sort position_le (items_of pl (reordered pl ids d))).*1 = ids.
Proof.
  intros Hp. assert (Hnd : NoDup ids) by (rewrite Hp; apply NoDup_ids_of).
  set (row id := default (MkItemRow 0 0 0 "" "") (renumber pl ids d !! id)).
  assert (Hrow : ∀ k id, ids !! k = Some id →
            ∃ r, row id = r ∧ items (reordered pl ids d) !! id = Some r ∧
                 ir_playlist r = pl ∧ ir_position r = Z.of_nat k).
  { intros k id Hk. assert (id ∈ ids_of pl d) as Hin
      by (rewrite <-Hp; by eapply list_elem_of_lookup_2).
    apply elem_of_ids_of in Hin as (r & Hr & Hpl).
    unfold row. rewrite reordered_lookup, renumber_lookup, Hr. simpl.
    rewrite bool_decide_true by done. rewrite (index_from_lookup 0 ids k id) by done.
    eexists. split_and!; [done|done|done|simpl; lia]. }
  set (L := (λ id, (id, row id)) <$> ids).
  assert (HL : L.*1 = ids).
  { unfold L. rewrite <-list_fmap_compose. apply list_fmap_id. }
  replace (merge_sort position_le (items_of pl (reordered pl ids d))) with L; [done|].
  assert (Hperm : L ≡ₚ items_of pl (reordered pl ids d)).
  { apply NoDup_Permutation.
    - apply (NoDup_fmap_1 fst). by rewrite HL.
    - apply (NoDup_fmap_1 fst), NoDup_ids_of.
    - intros [id r]. unfold L. rewrite list_elem_of_fmap, elem_of_items_of. split.
      + intros (id' & [= -> ->] & Hin). apply list_elem_of_lookup in Hin as [k Hk].
        destruct (Hrow k id' Hk) as (r & <- & ? & ? & _). done.
      + intros [Hr Hpl]. rewrite reordered_lookup, renumber_lookup in Hr.
        destruct (items d !! id) as [r0|] eqn:H0; [|done]. simpl in Hr.
        assert (ir_playlist r0 = pl) as Hpl0.
        { case_bool_decide; [done|]. by simplify_eq. }
        assert (Hin : id ∈ ids) by (rewrite Hp; apply elem_of_ids_of; eauto).
        exists id. split; [|done]. f_equal. unfold row. rewrite renumber_lookup, H0. simpl.
        by simplify_eq. }
  assert (Hsorted : StronglySorted position_le L ∧
            ∀ a b, a ∈ L → b ∈ L → position_le a b → position_le b a → a = b).
  { split.
    - assert (H : ∀ k, StronglySorted position_le ((λ id, (id, row id)) <$> drop k ids)).
      { intros k. remember (length ids - k)%nat as m eqn:Hm. revert k Hm.
        induction m as [|m IH]; intros k Hm.
        - rewrite drop_ge by lia. constructor.
        - destruct (lookup_lt_is_Some_2 ids k) as [id Hid]; [lia|].
          rewrite (drop_S _ id) by done. csimpl. constructor; [apply IH; lia|].
          apply Forall_fmap, Forall_forall. intros id' Hin.
          apply list_elem_of_lookup in Hin as [j Hj]. rewrite lookup_drop in Hj.
          destruct (Hrow _ _ Hid) as (r & Hr1 & _ & _ & Hk1).
          destruct (Hrow _ _ Hj) as (r' & Hr2 & _ & _ & Hk2).
          unfold position_le. simpl. rewrite Hr1, Hr2. lia. }
      apply (H 0%nat).
    - intros a b Ha Hb. apply list_elem_of_fmap in Ha as (x & -> & Hx), Hb as (y & -> & Hy).
      apply list_elem_of_lookup in Hx as [i Hi], Hy as [j Hj].
      destruct (Hrow _ _ Hi) as (r & Hr1 & _ & _ & Hk1).
      destruct (Hrow _ _ Hj) as (r' & Hr2 & _ & _ & Hk2).
      unfold position_le. simpl. rewrite Hr1, Hr2. intros. assert (i = j) as <- by lia.
      congruence. }
  destruct Hsorted as [Hs Has].
  apply (StronglySorted_unique_strong position_le); [|done|apply StronglySorted_merge_sort; apply _|].
  - intros a b Ha Hb. apply Has; [done|]. rewrite Hperm. revert Hb.
    by rewrite (merge_sort_Permutation position_le).
  - rewrite Hperm. symmetry. apply merge_sort_Permutation.
Qed.

(** ** Theorems *)

(** Reordering a playlist takes a permutation of its items or nothing: on
    success the rotation reads the items back in exactly the given order,
    foreign items are untouched and the version is bumped; any other id list,
    and any failing statement, leaves the database as it was. *)
Theorem Reorder_exact playlistID ids d fs
    (Hpos : ∀ id r, items d !! id = Some r → 0 ≤ ir_position r) :
  ∃ r d' fs', Reorder playlistID ids d fs = (r, d', fs') ∧
    match r with
    | Err _ => d' = d
    | Ok _ =>
        ids ≡ₚ ids_of playlistID d ∧
        (∃ its, (RotationItems playlistID d' []).1.1 = Ok its ∧ ItemID <$> its = ids) ∧
        (∀ id r, items d !! id = Some r → ir_playlist r ≠ playlistID →
                 items d' !! id = Some r) ∧
        pr_version <$> playlists d' !! playlistID =
          (λ r, pr_version r + 1) <$> playlists d !! playlistID
    end ∧
    (fs = [] → is_ok r = bool_decide (ids ≡ₚ ids_of playlistID d) &&
                         negb (at_max_version playlistID d)).
Proof.
  destruct (Reorder_commits playlistID ids d Hpos fs) as (r & d' & fs' & -> & Hr & Hok).
  exists r, d', fs'. split; [done|]. split; [|exact Hok].
  destruct r as [[]|]; [|done]. destruct Hr as [Hp ->]. split; [done|]. split; [|split].
  - eexists. split; [reflexivity|]. unfold scan_items. rewrite <-list_fmap_compose.
    etrans; [|exact (reordered_rotation playlistID ids d Hp)]. by apply list_fmap_ext.
  - intros id r Hr Hne. rewrite reordered_lookup, renumber_lookup, Hr. simpl.
    by rewrite bool_decide_false.
  - unfold reordered, bump, upd_items. simpl. rewrite lookup_alter_eq.
    by destruct (playlists d !! playlistID).
Qed.

(** ** Witness *)

Definition sample_item (pl pos : Z) : item_row := MkItemRow pl 1 pos "cover" "none".
Definition sample_db : db :=
  upd_items (λ _, {[1 := sample_item 7 0; 2 := sample_item 7 1; 3 := sample_item 7 4;
                    4 := sample_item 8 0]})
    (upd_playlists (λ _, {[7 := MkPlaylistRow None "hall" 900 "sequential" 1 1 None]}) empty_db).

Lemma Reorder_exact_witness :
  (∀ id r, items sample_db !! id = Some r → 0 ≤ ir_position r) ∧
  ItemID <$> match RotationItems 7 (Reorder 7 [3; 1; 2] sample_db []).1.2 [] with
             | (Ok its, _, _) => its | _ => [] end = [3; 1; 2] ∧
  ∃ r d' fs', Reorder 7 [3; 1; 2] sample_db [] = (r, d', fs') ∧ is_ok r = true.
Proof.
  assert (Hpos : ∀ id r, items sample_db !! id = Some r → 0 ≤ ir_position r).
  { assert (map_Forall (λ _ r, 0 ≤ ir_position r) (items sample_db)) as H
      by (apply (bool_decide_unpack _); vm_compute; exact I).
    intros id r Hr. exact (H id r Hr). }
  split; [exact Hpos|]. split; [vm_compute; reflexivity|].
  destruct (Reorder_exact 7 [3; 1; 2] sample_db [] Hpos) as (r & d' & fs' & Hrun & _ & Hok).
  exists r, d', fs'. split; [exact Hrun|]. rewrite (Hok eq_refl). vm_compute. reflexivity.
Defined.

End PlaylistStore.
