(* ===== verification/PlRender.v ===== *)
(** * The playlist render anchor ([internal/plrender])

    The device binding, the rotation cursor, the rotation order and the shared
    cache of packed variants. Instants are nanoseconds. *)

From S2P Require Import Prelude GoLib Db RenderDb FaasStore PlaylistStore.
Import GoLib RenderDb.
Import FaasStore(advisory_lock, managed_by).
Import PlaylistStore(insert_playlist, insert_item, playlist_managing, at_max_version, bump).

Module PlRender.

(** ** Bindings *)

(** Zero is "none": identity columns start at 1. *)
Record Binding := MkBinding { PlaylistID : Z; FunctionID : Z }.

Definition ResolveBinding (serial : string) : M db err Binding :=
  query EDb (λ d, Ok (MkBinding (default 0 (playlist_binding d !! serial))
                                (default 0 (render_binding d !! serial)))).

Definition upsert_playlist_binding (serial : string) (playlistID : Z) (d : db)
    : result err unit * db :=
  if bool_decide (is_Some (playlists d !! playlistID))
  then (Ok tt, upd_playlist_binding (insert serial playlistID) d)
  else (Err EForeignKey, d).

Definition BindPlaylist (serial : string) (playlistID : Z) : M db err unit :=
  with_tx EDb (
    _ ← advisory_lock;
    _ ← tx_exec EDb (upd_render_binding (delete serial));
    _ ← tx_stmt EDb (upsert_playlist_binding serial playlistID);
    _ ← tx_exec EDb (upd_cursors (delete serial));
    _ ← tx_exec EDb (delete_playlists (λ kv, managed_by serial kv.2 &&
                                             negb (kv.1 =? playlistID)));
    _ ← commit EDb;
    mret tt).

(** FNV-1a, 64 bits ([hash/fnv]). *)
Definition fnv64a_step (h c : Z) : Z := u64 (Z.lxor h c * 1099511628211).
Definition fnv64a (b : bytes) : Z := foldl fnv64a_step 14695981039346656037 b.

Definition managedName (serial : string) : string :=
  string_of_bytes (bytes_of_string "managed." ++
                   hex_encode (put_u64be (fnv64a (bytes_of_string serial)))).

(** [INSERT ... ON CONFLICT (managed_serial) DO UPDATE SET version + 1]. *)
Definition upsert_managed (serial : string) (d : db) : result err Z * db :=
  match playlist_managing serial d with
  | Some (id, _) => if at_max_version id d then (Err EDb, d) else (Ok id, bump id d)
  | None => insert_playlist (MkPlaylistRow None (managedName serial) 900 "sequential" 1 1
                               (Some serial)) d
  end.

Definition SetManagedImage (serial : string) (imageID : Z) : M db err Z :=
  with_tx EDb (
    _ ← advisory_lock;
    _ ← tx_exec EDb (upd_render_binding (delete serial));
    plID ← tx_stmt EDb (upsert_managed serial);
    _ ← tx_exec EDb (upd_items (filter (λ kv, ir_playlist kv.2 ≠ plID)));
    _ ← tx_stmt EDb (insert_item (MkItemRow plID imageID 0 "cover" "none"));
    _ ← tx_stmt EDb (upsert_playlist_binding serial plID);
    _ ← tx_exec EDb (upd_cursors (delete serial));
    _ ← commit EDb;
    mret plID).

Definition CountBindings (playlistID : Z) : M db err Z :=
  query EDb (λ d, Ok (zlen (filter (λ kv : string * Z, kv.2 = playlistID)
                              (map_to_list (playlist_binding d))))).

Definition UnbindPlaylist (serial : string) : M db err bool :=
  found ← stmt EDb (λ d, (Ok (bool_decide (is_Some (playlist_binding d !! serial))),
                          upd_playlist_binding (delete serial) d));
  _ ← exec EDb (upd_cursors (delete serial));
  mret found.

(** ** The rotation cursor *)

Record Cursor := MkCursor { Index : Z; Advanced : bool; AdvancedAt : Z }.

(** [t.Sub(u)] saturates; a TIMESTAMPTZ holds whole microseconds. *)
Definition time_sub (t u : Z) : Z := Z.max min_i64 (Z.min max_i64 (t - u)).
Definition timestamptz (t : Z) : Z := t / 1000 * 1000.

(** A stale position of a shrunk item set, clamped into range. *)
Definition clamp_position (pos n : Z) : Z :=
  let p := Z.rem pos n in if p <? 0 then p + n else p.

Definition set_cursor (serial : string) (c : cursor_row) : M (Tx db) err unit :=
  tx_exec EDb (upd_cursors (insert serial c)).

Definition ResolveCursor (serial : string) (playlistID interval n now : Z) : M db err Cursor :=
  if n <=? 0 then throw ENoItems
  else with_tx EDb (
    _ ← advisory_lock;
    cur ← tx_query EDb (λ d, Ok (cursors d !! serial));
    match cur with
    | Some (MkCursorRow pl curPos curAt) =>
        if negb (pl =? playlistID) then
          _ ← set_cursor serial (MkCursorRow playlistID 0 (timestamptz now));
          _ ← commit EDb;
          mret (MkCursor 0 true now)
        else
          let pos := clamp_position curPos n in
          if interval <=? time_sub now curAt then
            let next := (pos + 1) mod n in
            _ ← set_cursor serial (MkCursorRow pl next (timestamptz now));
            _ ← commit EDb;
            mret (MkCursor next true now)
          else
            _ ← (if negb (pos =? curPos) then set_cursor serial (MkCursorRow pl pos curAt)
                 else mret tt);
            _ ← commit EDb;
            mret (MkCursor pos false curAt)
    | None =>
        _ ← set_cursor serial (MkCursorRow playlistID 0 (timestamptz now));
        _ ← commit EDb;
        mret (MkCursor 0 true now)
    end).

(** ** The variant cache *)

Definition VariantGet (sha fit dither : string) : M db err bytes :=
  query EDb (λ d, match variants d !! (sha, fit, dither) with
                  | Some p => Ok p | None => Err ENotFound end).

(** [ON CONFLICT DO NOTHING] under the length CHECK. *)
Definition put_variant (key : string * string * string) (packed : bytes) (d : db)
    : result err unit * db :=
  if negb (zlen packed =? packed_len) then (Err ECheck, d)
  else match variants d !! key with
  | Some _ => (Ok tt, d)
  | None => (Ok tt, upd_variants (insert key packed) d)
  end.
Definition VariantPut (sha fit dither : string) (packed : bytes) : M db err unit :=
  stmt EDb (put_variant (sha, fit, dither) packed).

(** [EXISTS (SELECT 1 FROM playlist_item pi JOIN image i ...)]. *)
Definition referenced (d : db) (key : string * string * string) : bool :=
  let '(sha, fit, dither) := key in
  existsb (λ kv : Z * item_row,
    match images d !! ir_image kv.2 with
    | Some i => bool_decide (im_sha i = sha)
    | None => false
    end && bool_decide (ir_fit kv.2 = fit) && bool_decide (ir_dither kv.2 = dither))
    (map_to_list (items d)).

Definition GCVariantCache : M db err Z :=
  stmt EDb (λ d,
    (Ok (zlen (filter (λ kv : (string * string * string) * bytes, referenced d kv.1 = false)
                 (map_to_list (variants d)))),
     upd_variants (filter (λ kv, referenced d kv.1 = true)) d)).

(** ** The rotation order *)

Definition shuffleKey (serial : string) (playlistID epoch id : Z) : Z :=
  fnv64a (bytes_of_string serial ++ put_u64be (u64 playlistID) ++
          put_u64be (u64 (i64 epoch)) ++ put_u64be (u64 id)).

(** [sort.SliceStable]: the stable sort by [less], which determines it. *)
Section Stable.
Context {A : Type} (less : A → A → bool).
Fixpoint stable_insert (x : A) (l : list A) : list A :=
  match l with
  | [] => [x]
  | y :: l' => if less x y then x :: y :: l' else y :: stable_insert x l'
  end.
Definition stable_sort (l : list A) : list A := foldl (λ s x, stable_insert x s) [] l.
End Stable.

Definition id_at (ids : list Z) (i : nat) : Z := nth i ids 0.
Definition rotation_less (serial : string) (playlistID epoch : Z) (ids : list Z) (a b : nat)
    : bool :=
  let ka := shuffleKey serial playlistID epoch (id_at ids a) in
  let kb := shuffleKey serial playlistID epoch (id_at ids b) in
  if negb (ka =? kb) then ka <? kb else id_at ids a <? id_at ids b.

Definition RotationOrder (mode : string) (epoch : Z) (serial : string) (playlistID : Z)
    (ids : list Z) : list nat :=
  let n := length ids in
  let order := seq 0 n in
  if negb (bool_decide (mode = "shuffle"%string)) || (n <? 2)%nat then order
  else stable_sort (rotation_less serial playlistID epoch ids) order.

(** ** Lemmas: the stable sort *)

Section StableLemmas.
Context {A : Type} (less : A → A → bool).

Lemma stable_insert_perm x l : stable_insert less x l ≡ₚ x :: l.
Proof.
  induction l as [|y l IH]; simpl; [done|]. destruct (less x y); [done|].
  rewrite IH. apply Permutation_swap.
Qed.

Lemma stable_sort_snoc l x :
  stable_sort less (l ++ [x]) = stable_insert less x (stable_sort less l).
Proof. unfold stable_sort. by rewrite foldl_app. Qed.

Lemma stable_sort_perm l : stable_sort less l ≡ₚ l.
Proof.
  induction l as [|x l IH] using rev_ind; [done|].
  rewrite stable_sort_snoc, stable_insert_perm, IH. by rewrite Permutation_app_comm.
Qed.

Lemma stable_insert_filter (p : A → bool) x l :
  p x = false → Forall (λ y, p y = true) l → List.filter p (stable_insert less x l) = l.
Proof.
  intros Hx. induction 1 as [|y l Hy Hl IH]; simpl; [by rewrite Hx|].
  destruct (less x y); simpl; rewrite Hy; [rewrite Hx|by rewrite IH].
  f_equal. clear IH. induction Hl as [|z l Hz Hl IH]; simpl; [done|]. by rewrite Hz, IH.
Qed.

Context (Htrans : ∀ x y z, less x y = true → less y z = true → less x z = true).

Lemma stable_insert_sorted x l :
  (∀ y, y ∈ l → less x y = true ∨ less y x = true) →
  StronglySorted (λ a b, less a b = true) l →
  StronglySorted (λ a b, less a b = true) (stable_insert less x l).
Proof.
  intros Htot. induction 1 as [|y l Hl IH Hy]; simpl; [repeat constructor|].
  destruct (less x y) eqn:Hxy.
  - constructor; [by constructor|]. constructor; [done|].
    eapply Forall_impl; [exact Hy|]. intros z Hz. simpl in Hz. by eapply Htrans.
  - constructor; [apply IH; intros z Hz; apply Htot; by right|].
    rewrite stable_insert_perm. constructor; [|done].
    destruct (Htot y) as [?|?]; [left|congruence|done].
Qed.
End StableLemmas.

Lemma stable_insert_ext {A} (f g : A → A → bool) x l :
  (∀ y, y ∈ l → f x y = g x y) → stable_insert f x l = stable_insert g x l.
Proof.
  induction l as [|y l IH]; intros H; simpl; [done|]. rewrite H by left.
  destruct (g x y); [done|]. f_equal. apply IH. intros z Hz. apply H. by right.
Qed.

Lemma stable_sort_ext {A} (f g : A → A → bool) l :
  (∀ x y, x ∈ l → y ∈ l → f x y = g x y) → stable_sort f l = stable_sort g l.
Proof.
  induction l as [|x l IH] using rev_ind; intros H; [done|].
  rewrite !stable_sort_snoc, IH.
  - apply stable_insert_ext. intros y Hy. rewrite (stable_sort_perm g l) in Hy.
    apply H; apply elem_of_app; [right|by left]. by apply list_elem_of_singleton.
  - intros y z Hy Hz. apply H; apply elem_of_app; by left.
Qed.

(** ** Lemmas: the rotation *)

(** The order the shuffle visits item ids in. *)
Definition visits_before (serial : string) (playlistID epoch : Z) (x y : Z) : Prop :=
  let kx := shuffleKey serial playlistID epoch x in
  let ky := shuffleKey serial playlistID epoch y in
  kx < ky ∨ (kx = ky ∧ x < y).

Lemma rotation_less_iff serial pl epoch ids a b :
  rotation_less serial pl epoch ids a b = true ↔
  visits_before serial pl epoch (id_at ids a) (id_at ids b).
Proof.
  unfold rotation_less, visits_before.
  generalize (shuffleKey serial pl epoch (id_at ids a)) as ka.
  generalize (shuffleKey serial pl epoch (id_at ids b)) as kb. intros kb ka. cbv zeta.
  destruct (Z.eqb_spec ka kb); simpl; rewrite Z.ltb_lt; lia.
Qed.

Lemma rotation_less_trans serial pl epoch ids a b c :
  rotation_less serial pl epoch ids a b = true →
  rotation_less serial pl epoch ids b c = true → rotation_less serial pl epoch ids a c = true.
Proof. rewrite !rotation_less_iff. unfold visits_before. cbv zeta. lia. Qed.

Lemma rotation_shuffle epoch serial pl ids :
  RotationOrder "shuffle" epoch serial pl ids =
  stable_sort (rotation_less serial pl epoch ids) (seq 0 (length ids)).
Proof. unfold RotationOrder. destruct ids as [|a [|b ids]]; [done..|]. reflexivity. Qed.

Lemma rotation_perm mode epoch serial pl ids :
  RotationOrder mode epoch serial pl ids ≡ₚ seq 0 (length ids).
Proof. unfold RotationOrder. destruct (_ || _); [done|apply stable_sort_perm]. Qed.

Lemma rotation_sequential mode epoch serial pl ids :
  mode ≠ "shuffle"%string → RotationOrder mode epoch serial pl ids = seq 0 (length ids).
Proof.
  intros Hm. unfold RotationOrder. rewrite (bool_decide_false (mode = _)) by exact Hm.
  reflexivity.
Qed.

Lemma filter_seq_below n : List.filter (λ i, (i <? n)%nat) (seq 0 (n + 1)) = seq 0 n.
Proof.
  rewrite seq_app, List.filter_app. simpl. rewrite Nat.ltb_irrefl, app_nil_r.
  rewrite List.forallb_filter_id; [done|]. apply List.forallb_forall.
  intros i Hi. apply in_seq in Hi. apply Nat.ltb_lt. lia.
Qed.

Lemma rotation_append mode epoch serial pl ids id :
  List.filter (λ i, (i <? length ids)%nat) (RotationOrder mode epoch serial pl (ids ++ [id])) =
  RotationOrder mode epoch serial pl ids.
Proof.
  destruct (decide (mode = "shuffle"%string)) as [->|Hm].
  - rewrite !rotation_shuffle, length_app, seq_app. simpl. rewrite stable_sort_snoc.
    rewrite stable_insert_filter.
    + apply stable_sort_ext. intros x y Hx Hy. apply elem_of_seq in Hx, Hy.
      unfold rotation_less, id_at. by rewrite !app_nth1 by lia.
    + apply Nat.ltb_irrefl.
    + rewrite stable_sort_perm. apply Forall_forall. intros x Hx. apply elem_of_seq in Hx.
      apply Nat.ltb_lt. lia.
  - rewrite !rotation_sequential, length_app by done. apply filter_seq_below.
Qed.

Lemma stable_sort_sorted {A} (less : A → A → bool) l :
  (∀ x y z, less x y = true → less y z = true → less x z = true) →
  (∀ x y, x ∈ l → y ∈ l → x ≠ y → less x y = true ∨ less y x = true) → NoDup l →
  StronglySorted (λ a b, less a b = true) (stable_sort less l).
Proof.
  intros Htr. induction l as [|x l IH] using rev_ind; intros Htot Hnd; [constructor|].
  rewrite stable_sort_snoc. apply NoDup_app in Hnd as (Hnd & Hx & _).
  apply stable_insert_sorted; [done| |].
  - intros y Hy. rewrite (stable_sort_perm less l) in Hy. apply Htot.
    + apply elem_of_app; right. by apply list_elem_of_singleton.
    + apply elem_of_app; by left.
    + intros ->. apply (Hx y Hy). by apply list_elem_of_singleton.
  - apply IH; [|done]. intros y z Hy Hz. apply Htot; apply elem_of_app; by left.
Qed.

Lemma StronglySorted_map {A B} (f : A → B) (R : relation A) (S : relation B) l :
  (∀ a b, R a b → S (f a) (f b)) → StronglySorted R l → StronglySorted S (f <$> l).
Proof.
  intros Hf. induction 1 as [|a l Hl IH Ha]; csimpl; [constructor|]. constructor; [exact IH|].
  apply Forall_fmap. eapply Forall_impl; [exact Ha|]. intros b. apply Hf.
Qed.

Lemma rotation_sorted epoch serial pl ids :
  NoDup ids →
  StronglySorted (visits_before serial pl epoch)
    (id_at ids <$> RotationOrder "shuffle" epoch serial pl ids).
Proof.
  intros Hnd. rewrite rotation_shuffle.
  assert (H : StronglySorted (λ a b, rotation_less serial pl epoch ids a b = true)
                (stable_sort (rotation_less serial pl epoch ids) (seq 0 (length ids)))).
  { apply stable_sort_sorted; [apply rotation_less_trans| |apply NoDup_seq].
    intros x y Hx Hy Hne. apply elem_of_seq in Hx, Hy. rewrite !rotation_less_iff.
    unfold visits_before. cbv zeta.
    assert (id_at ids x ≠ id_at ids y); [|lia].
    unfold id_at. intros Heq. apply Hne.
    eapply NoDup_lookup; [exact Hnd|apply nth_lookup_in; lia|].
    rewrite Heq. apply nth_lookup_in. lia. }
  eapply StronglySorted_map; [|exact H]. intros a b. apply rotation_less_iff.
Qed.

(** ** Lemmas: the cursor *)

Lemma clamp_range pos n : 0 < n → 0 ≤ clamp_position pos n < n.
Proof.
  intros Hn. unfold clamp_position.
  pose proof (Z.rem_bound_abs pos n) as Hb. pose proof (Z.rem_sign_mul pos n) as Hs.
  zcase; lia.
Qed.

Lemma clamp_id pos n : 0 ≤ pos < n → clamp_position pos n = pos.
Proof. intros. unfold clamp_position. rewrite Z.rem_small by lia. zsolve. Qed.

Lemma timestamptz_idem t : timestamptz (timestamptz t) = timestamptz t.
Proof. unfold timestamptz. dlia. Qed.

(** What a cursor transaction commits. *)
Definition resolve_spec (serial : string) (playlistID interval n now : Z) (d : db)
    : db * Cursor :=
  let fresh := (upd_cursors (insert serial (MkCursorRow playlistID 0 (timestamptz now))) d,
                MkCursor 0 true now) in
  match cursors d !! serial with
  | None => fresh
  | Some r =>
      if negb (cr_playlist r =? playlistID) then fresh
      else
        let pos := clamp_position (cr_position r) n in
        if interval <=? time_sub now (cr_at r) then
          let next := (pos + 1) mod n in
          (upd_cursors (insert serial (MkCursorRow playlistID next (timestamptz now))) d,
           MkCursor next true now)
        else (if pos =? cr_position r then d
              else upd_cursors (insert serial (MkCursorRow playlistID pos (cr_at r))) d,
              MkCursor pos false (cr_at r))
  end.

Lemma ResolveCursor_spec serial pl interval n now d fs :
  0 < n →
  ∃ r d' fs', ResolveCursor serial pl interval n now d fs = (r, d', fs') ∧
    match r with
    | Ok c => (d', c) = resolve_spec serial pl interval n now d
    | Err _ => d' = d
    end ∧ (fs = [] → is_ok r = true).
Proof.
  intros Hn. unfold ResolveCursor. destruct (Z.leb_spec n 0); [lia|].
  match goal with |- context [with_tx EDb ?b d fs] =>
    destruct (with_tx_commits EDb b d (Some (resolve_spec serial pl interval n now d)) fs)
      as (r & d' & fs' & -> & Hr & Hok) end.
  2: { exists r, d', fs'. split; [done|split].
       - destruct r; [by simplify_eq|done].
       - intros Hfs. destruct (Hok Hfs) as [_ ->]. by apply bool_decide_true. }
  eapply commits_bind_Some; [apply implements_exec|].
  eapply commits_bind_Some; [apply implements_read|]. unfold resolve_spec.
  destruct (cursors d !! serial) as [[pl' pos at_]|] eqn:Hc; simpl.
  2: { eapply commits_bind_Some; [apply implements_exec|]. apply commits_end. }
  destruct (Z.eqb_spec pl' pl) as [->|]; simpl.
  2: { eapply commits_bind_Some; [apply implements_exec|]. apply commits_end. }
  destruct (interval <=? _).
  { eapply commits_bind_Some; [apply implements_exec|]. apply commits_end. }
  destruct (_ =? pos); simpl.
  - eapply commits_bind_Some; [apply implements_ret|]. apply commits_end.
  - eapply commits_bind_Some; [apply implements_exec|]. apply commits_end.
Qed.

(** The frame requests of one device on one playlist, in the order their
    transactions hold the lock; the answers of those that did not fail. *)
Fixpoint cursor_calls (serial : string) (playlistID interval n : Z)
    (reqs : list (Z * list bool)) (d : db) : list (Z * Cursor) :=
  match reqs with
  | [] => []
  | (now, fs) :: reqs =>
      let '(r, d', _) := ResolveCursor serial playlistID interval n now d fs in
      let later := cursor_calls serial playlistID interval n reqs d' in
      match r with Ok c => (now, c) :: later | Err _ => later end
  end.

(** [b] answers the request after [a]: it holds the step while the interval has
    not elapsed since it started, and moves one step on when it has. *)
Definition rotates (interval n : Z) (a b : Z * Cursor) : Prop :=
  if Advanced b.2 then
    interval ≤ time_sub b.1 (timestamptz (AdvancedAt a.2)) ∧
    Index b.2 = (Index a.2 + 1) mod n ∧ AdvancedAt b.2 = b.1
  else
    time_sub b.1 (timestamptz (AdvancedAt a.2)) < interval ∧
    Index b.2 = Index a.2 ∧ AdvancedAt b.2 = timestamptz (AdvancedAt a.2).

Definition at_step (serial : string) (playlistID : Z) (c : Cursor) (d : db) : Prop :=
  cursors d !! serial = Some (MkCursorRow playlistID (Index c) (timestamptz (AdvancedAt c))).

Lemma resolve_at_step serial pl interval n now d d' c :
  0 < n → (∀ r, cursors d !! serial = Some r → timestamptz (cr_at r) = cr_at r) →
  (d', c) = resolve_spec serial pl interval n now d →
  at_step serial pl c d' ∧ 0 ≤ Index c < n.
Proof.
  intros Hn Hts. unfold resolve_spec, at_step.
  destruct (cursors d !! serial) as [[pl' pos at_]|] eqn:Hc; simpl.
  2: { intros [= -> ->]. simpl. rewrite lookup_insert_eq. split; [done|lia]. }
  destruct (Z.eqb_spec pl' pl) as [->|]; simpl.
  2: { intros [= -> ->]. simpl. rewrite lookup_insert_eq. split; [done|lia]. }
  specialize (Hts _ eq_refl). simpl in Hts. pose proof (clamp_range pos n Hn).
  destruct (interval <=? _); intros [= -> ->]; simpl.
  { rewrite lookup_insert_eq. split; [done|]. apply Z.mod_pos_bound. lia. }
  split; [|done]. rewrite Hts. destruct (Z.eqb_spec (clamp_position pos n) pos) as [->|]; simpl.
  - done.
  - by rewrite lookup_insert_eq.
Qed.

Lemma resolve_index serial pl interval n now d d' c :
  0 < n → (d', c) = resolve_spec serial pl interval n now d → 0 ≤ Index c < n.
Proof.
  intros Hn. unfold resolve_spec. destruct (cursors d !! serial) as [[pl' pos at_]|]; simpl.
  2: { intros [= -> ->]. simpl. lia. }
  destruct (negb _); [intros [= -> ->]; simpl; lia|].
  destruct (_ <=? _); intros [= -> ->]; simpl; [apply Z.mod_pos_bound; lia|by apply clamp_range].
Qed.

Lemma resolve_only_cursors serial pl interval n now d :
  (resolve_spec serial pl interval n now d).1 = d ∨
  ∃ f, (resolve_spec serial pl interval n now d).1 = upd_cursors f d.
Proof.
  unfold resolve_spec. repeat case_match; simpl; eauto.
Qed.

Lemma resolve_rotates serial pl interval n now d d' t a c :
  at_step serial pl a d → 0 ≤ Index a < n →
  (d', c) = resolve_spec serial pl interval n now d → rotates interval n (t, a) (now, c).
Proof.
  unfold at_step, resolve_spec, rotates. intros -> Ha. simpl. rewrite Z.eqb_refl. simpl.
  rewrite clamp_id by done.
  destruct (Z.leb_spec interval (time_sub now (timestamptz (AdvancedAt a))));
    intros [= -> ->]; simpl; done.
Qed.

Lemma at_step_ts serial pl c d r :
  at_step serial pl c d → cursors d !! serial = Some r → timestamptz (cr_at r) = cr_at r.
Proof. unfold at_step. intros -> [= <-]. apply timestamptz_idem. Qed.

Lemma cursor_calls_from serial pl interval n reqs d t a :
  0 < n → at_step serial pl a d → 0 ≤ Index a < n →
  Sorted (rotates interval n) ((t, a) :: cursor_calls serial pl interval n reqs d) ∧
  Forall (λ tc, 0 ≤ Index tc.2 < n) (cursor_calls serial pl interval n reqs d).
Proof.
  intros Hn. revert d t a. induction reqs as [|[now fs] reqs IH]; intros d t a Hd Ha; simpl.
  { split; repeat constructor. }
  destruct (ResolveCursor_spec serial pl interval n now d fs Hn) as (r & d' & fs' & -> & Hr & _).
  destruct r as [c|e]; [|subst d'; by apply IH].
  pose proof (resolve_at_step _ _ _ _ _ _ _ _ Hn
    (λ r H, at_step_ts _ _ _ _ r Hd H) Hr) as [Hc Hci].
  destruct (IH d' now c Hc Hci) as [Hs Hf]. split; [|by constructor].
  constructor; [done|]. constructor. by eapply resolve_rotates.
Qed.

(** ** Theorems *)

(** The rotation order visits every item exactly once; sequential mode is the
    stored order; the shuffle visits the items in the order of their per-device
    hash keys, whatever order they are stored in; and appending an item keeps
    the relative order of the others. *)
Theorem RotationOrder_stable mode epoch serial playlistID ids :
  let order := RotationOrder mode epoch serial playlistID in
  order ids ≡ₚ seq 0 (length ids) ∧
  (mode ≠ "shuffle"%string → order ids = seq 0 (length ids)) ∧
  (∀ id, List.filter (λ i, (i <? length ids)%nat) (order (ids ++ [id])) = order ids) ∧
  (mode = "shuffle"%string → NoDup ids →
   StronglySorted (visits_before serial playlistID epoch) (id_at ids <$> order ids)).
Proof.
  intros order. unfold order. refine (conj _ (conj _ (conj _ _))).
  - apply rotation_perm.
  - apply rotation_sequential.
  - intros id. apply rotation_append.
  - intros ->. apply rotation_sorted.
Qed.

(** C37. Requests for the frames of one device, whatever their number and their
    faults, see one rotation: each answered request either holds the step of
    the one before, while the interval has not elapsed since that step began,
    or moves exactly one step on and starts the interval again; every index is
    in range. *)
Theorem ResolveCursor_single_advance serial playlistID interval n reqs d
    (Hn : 0 < n)
    (Hts : ∀ r, cursors d !! serial = Some r → timestamptz (cr_at r) = cr_at r) :
  Sorted (rotates interval n) (cursor_calls serial playlistID interval n reqs d) ∧
  Forall (λ tc, 0 ≤ Index tc.2 < n) (cursor_calls serial playlistID interval n reqs d).
Proof.
  revert d Hts. induction reqs as [|[now fs] reqs IH]; intros d Hts; simpl;
    [split; constructor|].
  destruct (ResolveCursor_spec serial playlistID interval n now d fs Hn)
    as (r & d' & fs' & -> & Hr & _).
  destruct r as [c|e]; [|subst d'; by apply IH].
  destruct (resolve_at_step _ _ _ _ _ _ _ _ Hn Hts Hr) as [Hc Hci].
  destruct (cursor_calls_from serial playlistID interval n reqs d' now c Hn Hc Hci) as [Hs Hf].
  split; [exact Hs|by constructor].
Qed.

(** ** Witnesses *)

Lemma RotationOrder_stable_witness :
  RotationOrder "shuffle" 1 "AB12" 7 [11; 12; 13; 14] = [2%nat; 1%nat; 3%nat; 0%nat] ∧
  StronglySorted (visits_before "AB12" 7 1)
    (id_at [11; 12; 13; 14] <$> RotationOrder "shuffle" 1 "AB12" 7 [11; 12; 13; 14]).
Proof.
  split; [vm_compute; reflexivity|].
  apply (RotationOrder_stable "shuffle" 1 "AB12" 7 [11; 12; 13; 14]); [reflexivity|].
  apply (bool_decide_unpack _). vm_compute. exact I.
Defined.

(** Two requests race in one window, the third comes after it; one statement of
    a fourth fails. *)
Definition sample_requests : list (Z * list bool) :=
  [(5000, []); (6000, []); (900000005000, []); (900000006000, [false; false; true]);
   (1900000000000, [])].

Lemma ResolveCursor_single_advance_witness :
  (λ tc, (Index tc.2, Advanced tc.2)) <$>
    cursor_calls "AB12" 7 900000000000 3 sample_requests empty_db =
    [(0, true); (0, false); (1, true); (2, true)] ∧
  Sorted (rotates 900000000000 3) (cursor_calls "AB12" 7 900000000000 3 sample_requests empty_db).
Proof.
  split; [vm_compute; reflexivity|].
  apply (ResolveCursor_single_advance "AB12" 7 900000000000 3 sample_requests empty_db);
    [reflexivity|].
  intros r Hr. vm_compute in Hr. discriminate Hr.
Defined.

End PlRender.
