(* ===== verification/Bindings.v ===== *)
(** * The invariant of the frame-side tables

    Every operation of the three stores, under every fault, keeps a device on
    at most one of a function and a playlist, with bindings that point at
    existing rows and playlists whose items have distinct positions. *)

From S2P Require Import Prelude Db RenderDb FaasStore PlaylistStore PlRender.
Import RenderDb.

Module Bindings.

(** ** The operations, as an operator or a request issues them *)

Inductive op :=
| OCreate (p : FaasStore.CreateParams) | OUpdate (id : Z) (p : FaasStore.UpdateParams)
| OSetEnabled (id : Z) (b : bool) | OSetWebhookToken (id : Z) (sha : bytes)
| ODelete (id : Z) | OBindDevice (serial : string) (id : Z) | OUnbind (serial : string)
| ODeleteDeviceBindings (serial : string)
| OLastGoodPut (now : Z) (serial : string) (id : Z) (packed : bytes) (status : string)
| OCreatePlaylist (p : PlaylistStore.CreateParams)
| OUpdatePlaylist (id : Z) (p : PlaylistStore.UpdateParams) | ODeletePlaylist (id : Z)
| OAddItem (id : Z) (p : PlaylistStore.AddItemParams) | ORemoveItem (id : Z)
| OSetPolicy (id : Z) (p : PlaylistStore.PolicyParams) | OReshuffle (id : Z)
| OReorder (id : Z) (ids : list Z)
| OBindPlaylist (serial : string) (id : Z) | OSetManagedImage (serial : string) (image : Z)
| OUnbindPlaylist (serial : string)
| OResolveCursor (serial : string) (id interval n now : Z)
| OVariantPut (sha fit dither : string) (packed : bytes) | OGCVariantCache.

Definition exec_op (o : op) (d : db) (fs : list bool) : db :=
  match o with
  | OCreate p => (FaasStore.Create p d fs).1.2
  | OUpdate id p => (FaasStore.Update id p d fs).1.2
  | OSetEnabled id b => (FaasStore.SetEnabled id b d fs).1.2
  | OSetWebhookToken id sha => (FaasStore.SetWebhookToken id sha d fs).1.2
  | ODelete id => (FaasStore.Delete id d fs).1.2
  | OBindDevice s id => (FaasStore.BindDevice s id d fs).1.2
  | OUnbind s => (FaasStore.Unbind s d fs).1.2
  | ODeleteDeviceBindings s => (FaasStore.DeleteDeviceBindings s d fs).1.2
  | OLastGoodPut now s id p st => (FaasStore.LastGoodPut now s id p st d fs).1.2
  | OCreatePlaylist p => (PlaylistStore.CreatePlaylist p d fs).1.2
  | OUpdatePlaylist id p => (PlaylistStore.UpdatePlaylist id p d fs).1.2
  | ODeletePlaylist id => (PlaylistStore.DeletePlaylist id d fs).1.2
  | OAddItem id p => (PlaylistStore.AddItem id p d fs).1.2
  | ORemoveItem id => (PlaylistStore.RemoveItem id d fs).1.2
  | OSetPolicy id p => (PlaylistStore.SetPolicy id p d fs).1.2
  | OReshuffle id => (PlaylistStore.Reshuffle id d fs).1.2
  | OReorder id ids => (PlaylistStore.Reorder id ids d fs).1.2
  | OBindPlaylist s id => (PlRender.BindPlaylist s id d fs).1.2
  | OSetManagedImage s i => (PlRender.SetManagedImage s i d fs).1.2
  | OUnbindPlaylist s => (PlRender.UnbindPlaylist s d fs).1.2
  | OResolveCursor s id i n now => (PlRender.ResolveCursor s id i n now d fs).1.2
  | OVariantPut a b c p => (PlRender.VariantPut a b c p d fs).1.2
  | OGCVariantCache => (PlRender.GCVariantCache d fs).1.2
  end.

Definition exec_ops (os : list (op * list bool)) (d : db) : db :=
  foldl (λ d o, exec_op o.1 d o.2) d os.

(** ** The invariant *)

Record tables_ok (d : db) : Prop := {
  ok_exclusive : ∀ s f p, render_binding d !! s = Some f → playlist_binding d !! s = Some p →
    False;
  ok_function : ∀ s f, render_binding d !! s = Some f → is_Some (functions d !! f);
  ok_playlist : ∀ s p, playlist_binding d !! s = Some p → is_Some (playlists d !! p);
  ok_item : ∀ i r, items d !! i = Some r →
    is_Some (playlists d !! ir_playlist r) ∧ 0 ≤ ir_position r;
  ok_image : ∀ i r, items d !! i = Some r → is_Some (images d !! ir_image r);
  ok_position : ∀ i j r q, items d !! i = Some r → items d !! j = Some q →
    ir_playlist r = ir_playlist q → ir_position r = ir_position q → i = j;
  ok_managed : ∀ p q r t s, playlists d !! p = Some r → playlists d !! q = Some t →
    pr_managed r = Some s → pr_managed t = Some s → p = q;
  ok_fresh_function : 0 < function_seq d ∧
    ∀ f, is_Some (functions d !! f) → 0 < f < function_seq d;
  ok_fresh_playlist : 0 < playlist_seq d ∧
    ∀ p, is_Some (playlists d !! p) → 0 < p < playlist_seq d;
  ok_fresh_item : ∀ i, is_Some (items d !! i) → i < item_seq d;
  ok_lastgood : ∀ k r, lastgood d !! k = Some r → zlen (lg_packed r) = packed_len;
  ok_variant : ∀ k b, variants d !! k = Some b → zlen b = packed_len }.

Lemma tables_ok_empty : tables_ok empty_db.
Proof. constructor; try split; simpl; intros; try done; by destruct_and?; exfalso; destruct H. Qed.

(** Splits the invariant into its parts; those over untouched tables close. *)
Ltac split_ok H := destruct H; constructor; simpl; try assumption.

(** ** Statements keep the invariant *)

Lemma ok_insert_function r d : tables_ok d → tables_ok (FaasStore.insert_function r d).2.
Proof.
  intros H. unfold FaasStore.insert_function. destruct (negb _); [done|].
  destruct (FaasStore.function_named _ _); [done|]. simpl. split_ok H.
  - intros s f Hs. destruct (decide (f = function_seq d)) as [->|];
      [by rewrite lookup_insert_eq|rewrite lookup_insert_ne by done; eauto].
  - destruct ok_fresh_function0 as [? Hf]. split; [lia|]. intros f.
    destruct (decide (f = function_seq d)) as [->|]; [lia|].
    rewrite lookup_insert_ne by done. intros ?%Hf. lia.
Qed.

Lemma ok_on_function id f d : tables_ok d → tables_ok (FaasStore.on_function id f d).2.
Proof.
  intros H. unfold FaasStore.on_function. destruct (functions d !! id) as [r|] eqn:Hr; [|done].
  destruct (f r); [|done]. simpl. split_ok H.
  - intros s g Hs. apply lookup_insert_is_Some'. eauto.
  - destruct ok_fresh_function0 as [? Hf]. split; [done|]. intros g [<-|?]%lookup_insert_is_Some'.
    + apply Hf. eauto.
    + by apply Hf.
Qed.

Lemma ok_delete_functions p d : tables_ok d → tables_ok (delete_functions p d).
Proof.
  intros H. unfold delete_functions. split_ok H.
  - intros s f q [Hf _]%map_lookup_filter_Some. eauto.
  - intros s f [Hf Hg]%map_lookup_filter_Some. simpl in Hg.
    destruct (ok_function0 _ _ Hf) as [r Hr]. exists r. by apply map_lookup_filter_Some.
  - destruct ok_fresh_function0 as [? Hf]. split; [done|].
    intros f [r [Hr _]%map_lookup_filter_Some]. apply Hf. eauto.
  - intros k r [Hr _]%map_lookup_filter_Some. eauto.
Qed.

Lemma ok_unbind_function s d : tables_ok d → tables_ok (upd_render_binding (delete s) d).
Proof. intros H. split_ok H; intros ? ?; [intros ?|]; intros [_ ?]%lookup_delete_Some; eauto. Qed.

Lemma ok_unbind_playlist s d : tables_ok d → tables_ok (upd_playlist_binding (delete s) d).
Proof.
  intros H. split_ok H.
  - intros ? ? ? ? [_ ?]%lookup_delete_Some; eauto.
  - intros ? ? [_ ?]%lookup_delete_Some; eauto.
Qed.

Lemma ok_bind_function s f d :
  playlist_binding d !! s = None →
  tables_ok d → tables_ok (FaasStore.upsert_render_binding s f d).2.
Proof.
  intros Hs H. unfold FaasStore.upsert_render_binding. case_bool_decide as Hf; [|done].
  simpl. split_ok H.
  - intros s' f' p [[-> ->]|[_ ?]]%lookup_insert_Some ?; [congruence|eauto].
  - intros s' f' [[-> ->]|[_ ?]]%lookup_insert_Some; eauto.
Qed.

Lemma ok_bind_playlist s p d :
  render_binding d !! s = None →
  tables_ok d → tables_ok (PlRender.upsert_playlist_binding s p d).2.
Proof.
  intros Hs H. unfold PlRender.upsert_playlist_binding. case_bool_decide as Hf; [|done].
  simpl. split_ok H.
  - intros s' f p' ? [[-> ->]|[_ ?]]%lookup_insert_Some; [congruence|eauto].
  - intros s' p' [[-> ->]|[_ ?]]%lookup_insert_Some; eauto.
Qed.

Lemma ok_cursors f d : tables_ok d → tables_ok (upd_cursors f d).
Proof. intros H. split_ok H. Qed.

Lemma ok_filter_lastgood (P : (string * Z) * lastgood_row → Prop) `{!∀ x, Decision (P x)} d :
  tables_ok d → tables_ok (upd_lastgood (filter P) d).
Proof. intros Hok. split_ok Hok. intros k r [Hr _]%map_lookup_filter_Some. eauto. Qed.

Lemma ok_upsert_lastgood now s f p st d :
  tables_ok d → tables_ok (FaasStore.upsert_lastgood now s f p st d).2.
Proof.
  intros H. unfold FaasStore.upsert_lastgood.
  destruct (Z.eqb_spec (zlen p) packed_len) as [Hp|]; simpl; [|done].
  case_bool_decide; [|done]. simpl. split_ok H.
  intros k r [[<- <-]|[_ ?]]%lookup_insert_Some; eauto.
Qed.

Lemma ok_put_variant k p d : tables_ok d → tables_ok (PlRender.put_variant k p d).2.
Proof.
  intros H. unfold PlRender.put_variant.
  destruct (Z.eqb_spec (zlen p) packed_len) as [Hp|]; simpl; [|done].
  destruct (variants d !! k) eqn:Hk; [done|]. simpl. split_ok H.
  intros k' r [[<- <-]|[_ ?]]%lookup_insert_Some; eauto.
Qed.

Lemma ok_filter_variants (P : (string * string * string) * bytes → Prop)
    `{!∀ x, Decision (P x)} d : tables_ok d → tables_ok (upd_variants (filter P) d).
Proof. intros Hok. split_ok Hok. intros k r [Hr _]%map_lookup_filter_Some. eauto. Qed.

Lemma ok_delete_playlists p d : tables_ok d → tables_ok (delete_playlists p d).
Proof.
  intros H. unfold delete_playlists. split_ok H.
  - intros s f q ? [? _]%map_lookup_filter_Some. eauto.
  - intros s q [Hq Hg]%map_lookup_filter_Some. simpl in Hg.
    destruct (ok_playlist0 _ _ Hq) as [r Hr]. exists r. by apply map_lookup_filter_Some.
  - intros i r [Hr Hg]%map_lookup_filter_Some. simpl in Hg.
    destruct (ok_item0 _ _ Hr) as [[t Ht] ?]. split; [|done]. exists t.
    by apply map_lookup_filter_Some.
  - intros i r [? _]%map_lookup_filter_Some. eauto.
  - intros i j r q [? _]%map_lookup_filter_Some [? _]%map_lookup_filter_Some. eauto.
  - intros a b r t s [? _]%map_lookup_filter_Some [? _]%map_lookup_filter_Some. eauto.
  - destruct ok_fresh_playlist0 as [? Hf]. split; [done|].
    intros f [r [Hr _]%map_lookup_filter_Some]. apply Hf. eauto.
  - intros i [r [Hr _]%map_lookup_filter_Some]. apply ok_fresh_item0. eauto.
Qed.

Lemma playlist_managing_None s d :
  PlaylistStore.playlist_managing s d = None ↔
  ∀ p r, playlists d !! p = Some r → pr_managed r ≠ Some s.
Proof.
  unfold PlaylistStore.playlist_managing. rewrite find_first_None. split.
  - intros H p r Hr. specialize (H (p, r)). rewrite elem_of_map_to_list in H.
    specialize (H Hr). by apply bool_decide_eq_false in H.
  - intros H [p r] Hr. apply elem_of_map_to_list in Hr. apply bool_decide_eq_false. simpl. eauto.
Qed.

Lemma playlist_managing_Some s d p r :
  PlaylistStore.playlist_managing s d = Some (p, r) →
  playlists d !! p = Some r ∧ pr_managed r = Some s.
Proof.
  unfold PlaylistStore.playlist_managing. intros [H1 H2]%find_first_Some.
  apply elem_of_map_to_list in H1. by apply bool_decide_eq_true in H2.
Qed.

Lemma ok_insert_playlist r d : tables_ok d → tables_ok (PlaylistStore.insert_playlist r d).2.
Proof.
  intros H. unfold PlaylistStore.insert_playlist. destruct (negb _); [done|].
  destruct (_ || _) eqn:Hu; [done|]. simpl. apply orb_false_iff in Hu as [_ Hm].
  assert (Hnew : ∀ s p t, pr_managed r = Some s → playlists d !! p = Some t →
            pr_managed t ≠ Some s).
  { intros s p t Hs. rewrite Hs in Hm. apply bool_decide_eq_false, eq_None_not_Some in Hm.
    rewrite playlist_managing_None in Hm. eauto. }
  split_ok H.
  - intros s p Hp. apply lookup_insert_is_Some'. eauto.
  - intros i q Hq. destruct (ok_item0 _ _ Hq). split; [|done]. apply lookup_insert_is_Some'. eauto.
  - intros a b t u s [[<- <-]|[_ ?]]%lookup_insert_Some [[<- <-]|[_ ?]]%lookup_insert_Some ? ?;
      eauto; exfalso; eapply Hnew; eauto.
  - destruct ok_fresh_playlist0 as [? Hf]. split; [lia|]. intros p [<-|?%Hf]%lookup_insert_is_Some'; lia.
Qed.

(** Replacing playlist rows without touching who they are managed for. *)
Lemma ok_replace_playlist id r r' d :
  playlists d !! id = Some r → pr_managed r' = pr_managed r →
  tables_ok d → tables_ok (upd_playlists (insert id r') d).
Proof.
  intros Hr Hm H. split_ok H.
  - intros s p Hp. apply lookup_insert_is_Some'. eauto.
  - intros i q Hq. destruct (ok_item0 _ _ Hq). split; [|done]. apply lookup_insert_is_Some'. eauto.
  - intros a b t u s [[<- <-]|[_ ?]]%lookup_insert_Some [[<- <-]|[_ ?]]%lookup_insert_Some;
      rewrite ?Hm; eauto.
  - destruct ok_fresh_playlist0 as [? Hf]. split; [done|].
    intros p [<-|?]%lookup_insert_is_Some'; eauto.
Qed.

Lemma ok_on_playlist id f d :
  (∀ r, pr_managed (f r) = pr_managed r) →
  tables_ok d → tables_ok (PlaylistStore.on_playlist id f d).2.
Proof.
  intros Hf H. unfold PlaylistStore.on_playlist. destruct (playlists d !! id) as [r|] eqn:Hr; [|done].
  destruct (_ || _); [done|]. destruct (negb _); [done|].
  destruct (PlaylistStore.playlist_named _ _ _); [done|]. by eapply ok_replace_playlist.
Qed.

Lemma ok_bump id d : tables_ok d → tables_ok (PlaylistStore.bump id d).
Proof.
  intros H. unfold PlaylistStore.bump. destruct (playlists d !! id) as [r|] eqn:Hr.
  - replace (upd_playlists (alter _ id) d) with (upd_playlists (insert id
      (MkPlaylistRow (pr_operator r) (pr_name r) (pr_interval r) (pr_order r) (pr_epoch r)
         (pr_version r + 1) (pr_managed r))) d).
    + by eapply ok_replace_playlist.
    + unfold upd_playlists. f_equal. apply map_eq. intros p.
      destruct (decide (p = id)) as [->|];
        [by rewrite lookup_insert_eq, lookup_alter_eq, Hr
        |by rewrite lookup_insert_ne, lookup_alter_ne].
  - replace (upd_playlists (alter _ id) d) with d; [done|].
    unfold upd_playlists. destruct d. simpl in *. f_equal. apply map_eq. intros p.
    destruct (decide (p = id)) as [->|]; [by rewrite lookup_alter_eq, Hr|by rewrite lookup_alter_ne].
Qed.

Lemma ok_filter_items (P : Z * item_row → Prop) `{!∀ x, Decision (P x)} d :
  tables_ok d → tables_ok (upd_items (filter P) d).
Proof.
  intros Hok. split_ok Hok.
  - intros i r [Hr _]%map_lookup_filter_Some. eauto.
  - intros i r [Hr _]%map_lookup_filter_Some. eauto.
  - intros i j r q [? _]%map_lookup_filter_Some [? _]%map_lookup_filter_Some. eauto.
  - intros i [r [Hr _]%map_lookup_filter_Some]. apply ok_fresh_item0. eauto.
Qed.

Lemma ok_delete_item i d : tables_ok d → tables_ok (upd_items (delete i) d).
Proof.
  intros H. split_ok H.
  - intros j r [_ ?]%lookup_delete_Some. eauto.
  - intros j r [_ ?]%lookup_delete_Some. eauto.
  - intros a b r q [_ ?]%lookup_delete_Some [_ ?]%lookup_delete_Some. eauto.
  - intros a [r [_ Hr]%lookup_delete_Some]. apply ok_fresh_item0. eauto.
Qed.

Lemma ok_insert_item r d :
  0 ≤ ir_position r → tables_ok d → tables_ok (PlaylistStore.insert_item r d).2.
Proof.
  intros Hpos H. unfold PlaylistStore.insert_item. destruct (negb _); [done|].
  destruct (PlaylistStore.position_taken r d) eqn:Ht; [done|].
  case_bool_decide as Hp; [|done]. case_bool_decide as Him; [|done]. simpl.
  assert (Hfree : ∀ i q, items d !! i = Some q → ir_playlist q = ir_playlist r →
            ir_position q ≠ ir_position r).
  { intros i q Hq Hpl Heq. unfold PlaylistStore.position_taken in Ht.
    apply not_true_iff_false in Ht. apply Ht, existsb_exists. exists (i, q).
    split; [by apply list_elem_of_In, PlaylistStore.elem_of_items_of|]. by apply bool_decide_true. }
  split_ok H.
  - intros i q [[<- <-]|[_ ?]]%lookup_insert_Some; eauto.
  - intros i q [[<- <-]|[_ ?]]%lookup_insert_Some; eauto.
  - intros i j q s [[<- <-]|[_ Hi]]%lookup_insert_Some [[<- <-]|[_ Hj]]%lookup_insert_Some Hpl Hps;
      [done| | |eauto]; exfalso; eapply Hfree; eauto.
  - intros i [<-|?%ok_fresh_item0]%lookup_insert_is_Some'; lia.
Qed.

Lemma next_position_nonneg p d : tables_ok d → 0 ≤ PlaylistStore.next_position p d.
Proof.
  intros H. unfold PlaylistStore.next_position.
  assert (Hall : Forall (λ kv, 0 ≤ ir_position kv.2) (PlaylistStore.items_of p d)).
  { apply Forall_forall. intros [i r] [Hr _]%PlaylistStore.elem_of_items_of.
    by destruct (ok_item d H _ _ Hr). }
  destruct Hall as [|kv l Hkv Hl]; [lia|].
  assert (0 ≤ foldr (λ kv m, Z.max (ir_position kv.2) m) (ir_position kv.2) l); [|lia].
  clear -Hkv. induction l; simpl; lia.
Qed.

Lemma ok_add_item p a d : tables_ok d → tables_ok (PlaylistStore.add_item p a d).2.
Proof.
  intros H. unfold PlaylistStore.add_item. destruct (PlaylistStore.at_max_version p d); [done|].
  match goal with |- context [PlaylistStore.insert_item ?r d] =>
    pose proof (ok_insert_item r d (next_position_nonneg p d H) H) as Hi;
    destruct (PlaylistStore.insert_item r d) as [[i|e] d'] end; simpl in *; [by apply ok_bump|done].
Qed.

Lemma ok_remove_item i d : tables_ok d → tables_ok (PlaylistStore.remove_item i d).2.
Proof.
  intros H. unfold PlaylistStore.remove_item. destruct (items d !! i) as [r|]; [|done].
  destruct (PlaylistStore.at_max_version _ d); [done|]. simpl. by apply ok_bump, ok_delete_item.
Qed.

Lemma ok_upsert_managed s d : tables_ok d → tables_ok (PlRender.upsert_managed s d).2.
Proof.
  intros H. unfold PlRender.upsert_managed.
  destruct (PlaylistStore.playlist_managing s d) as [[id r]|].
  - destruct (PlaylistStore.at_max_version id d); [done|]. by apply ok_bump.
  - by apply ok_insert_playlist.
Qed.

Lemma ok_reordered pl ids d :
  ids ≡ₚ PlaylistStore.ids_of pl d → tables_ok d → tables_ok (PlaylistStore.reordered pl ids d).
Proof.
  intros Hp H. unfold PlaylistStore.reordered. apply ok_bump.
  assert (Hnd : NoDup ids) by (rewrite Hp; apply PlaylistStore.NoDup_ids_of).
  assert (Hrow : ∀ i q, PlaylistStore.renumber pl ids d !! i = Some q →
    ∃ r, items d !! i = Some r ∧ (ir_playlist q = ir_playlist r ∧ ir_image q = ir_image r) ∧
      (ir_playlist r ≠ pl ∧ q = r ∨
       ir_playlist r = pl ∧ ∃ k, ids !! k = Some i ∧ ir_position q = Z.of_nat k)).
  { intros i q. rewrite PlaylistStore.renumber_lookup.
    destruct (items d !! i) as [r|] eqn:Hr; [|done]. simpl. intros [= <-]. exists r.
    case_bool_decide as Hpl; [|by eauto 7].
    assert (Hin : i ∈ ids) by (rewrite Hp; apply PlaylistStore.elem_of_ids_of; eauto).
    apply list_elem_of_lookup in Hin as [k Hk].
    rewrite (PlaylistStore.index_from_lookup 0 ids k i) by done. simpl. eauto 12. }
  split_ok H.
  - intros i q Hq. destruct (Hrow i q Hq) as (r & Hr & [-> _] & Hcase).
    destruct (ok_item0 _ _ Hr) as [? ?]. split; [done|].
    destruct Hcase as [[_ ->]|(_ & k & _ & ->)]; [done|lia].
  - intros i q Hq. destruct (Hrow i q Hq) as (r & Hr & [_ ->] & _). eauto.
  - intros i j q q' Hq Hq'. destruct (Hrow i q Hq) as (r & Hr & [-> _] & Hcase).
    destruct (Hrow j q' Hq') as (r' & Hr' & [-> _] & Hcase'). intros Hpl.
    destruct Hcase as [[Hn ->]|(He & k & Hk & ->)], Hcase' as [[Hn' ->]|(He' & k' & Hk' & ->)].
    + eauto.
    + congruence.
    + congruence.
    + intros ?. assert (k = k') as <- by lia. congruence.
  - intros i [q Hq]. destruct (Hrow i q Hq) as (r & Hr & _). apply ok_fresh_item0. eauto.
Qed.

(** ** Transactions keep the invariant *)

Lemma keeps_lock P : keeps P FaasStore.advisory_lock (λ _, P).
Proof. apply keeps_exec. auto. Qed.

Lemma ok_BindDevice s f d fs : tables_ok d → tables_ok (FaasStore.BindDevice s f d fs).1.2.
Proof.
  intros H. unfold FaasStore.BindDevice. apply (with_tx_keeps _ _ tables_ok); [|done].
  set (mid := λ d, playlist_binding d !! s = None ∧ tables_ok d).
  eapply lands_seq; [apply keeps_lock|].
  eapply lands_seq; [apply (keeps_exec _ _ _ mid)|].
  { intros w Hw. split; [apply lookup_delete_eq|by apply ok_unbind_playlist]. }
  eapply lands_seq; [apply (keeps_exec _ _ _ mid)|].
  { intros w [Hs Hw]. split; [done|by apply ok_cursors]. }
  eapply lands_seq; [apply (keeps_exec _ _ _ mid)|].
  { intros w [Hs Hw]. split; [|by apply ok_delete_playlists].
    apply map_lookup_filter_None. by left. }
  eapply lands_seq; [apply (keeps_stmt _ _ _ (λ _, tables_ok))|apply (lands_commit _ _ (λ _, tables_ok))].
  intros w [Hs Hw]. pose proof (ok_bind_function s f w Hs Hw).
  by destruct (FaasStore.upsert_render_binding s f w) as [[] ?].
Qed.

Lemma ok_BindPlaylist s p d fs : tables_ok d → tables_ok (PlRender.BindPlaylist s p d fs).1.2.
Proof.
  intros H. unfold PlRender.BindPlaylist. apply (with_tx_keeps _ _ tables_ok); [|done].
  set (mid := λ d, render_binding d !! s = None ∧ tables_ok d).
  eapply lands_seq; [apply keeps_lock|].
  eapply lands_seq; [apply (keeps_exec _ _ _ mid)|].
  { intros w Hw. split; [apply lookup_delete_eq|by apply ok_unbind_function]. }
  eapply lands_seq; [apply (keeps_stmt _ _ _ (λ _, tables_ok))|].
  { intros w [Hs Hw]. pose proof (ok_bind_playlist s p w Hs Hw).
    by destruct (PlRender.upsert_playlist_binding s p w) as [[] ?]. }
  eapply lands_seq; [apply (keeps_exec _ _ _ tables_ok)|].
  { intros w Hw. by apply ok_cursors. }
  eapply lands_seq; [apply (keeps_exec _ _ _ tables_ok)|apply (lands_commit _ _ (λ _, tables_ok))].
  intros w Hw. by apply ok_delete_playlists.
Qed.

(** The statements between the two bindings leave the function binding alone. *)
Lemma render_binding_upsert_managed s d :
  render_binding (PlRender.upsert_managed s d).2 = render_binding d.
Proof.
  unfold PlRender.upsert_managed, PlaylistStore.insert_playlist. by repeat case_match.
Qed.
Lemma render_binding_insert_item r d :
  render_binding (PlaylistStore.insert_item r d).2 = render_binding d.
Proof. unfold PlaylistStore.insert_item. by repeat case_match. Qed.

Lemma ok_SetManagedImage s i d fs : tables_ok d → tables_ok (PlRender.SetManagedImage s i d fs).1.2.
Proof.
  intros H. unfold PlRender.SetManagedImage. apply (with_tx_keeps _ _ tables_ok); [|done].
  set (mid := λ d, render_binding d !! s = None ∧ tables_ok d).
  eapply lands_seq; [apply keeps_lock|].
  eapply lands_seq; [apply (keeps_exec _ _ _ mid)|].
  { intros w Hw. split; [apply lookup_delete_eq|by apply ok_unbind_function]. }
  eapply lands_bind; [apply (keeps_stmt _ _ _ (λ _, mid))|intros pl].
  { intros w [Hs Hw]. pose proof (ok_upsert_managed s w Hw) as Hok.
    pose proof (render_binding_upsert_managed s w) as Hrb.
    destruct (PlRender.upsert_managed s w) as [[] ?]; [|done]. split; [simpl in *; congruence|done]. }
  eapply lands_seq; [apply (keeps_exec _ _ _ mid)|].
  { intros w [Hs Hw]. split; [done|by apply ok_filter_items]. }
  eapply lands_seq; [apply (keeps_stmt _ _ _ (λ _, mid))|].
  { intros w [Hs Hw]. match goal with |- context [PlaylistStore.insert_item ?r w] =>
      assert (Hr : 0 ≤ ir_position r) by done; pose proof (ok_insert_item r w Hr Hw) as Hok;
      pose proof (render_binding_insert_item r w) as Hrb;
      destruct (PlaylistStore.insert_item r w) as [[] ?]; [|done] end.
    split; [simpl in *; congruence|done]. }
  eapply lands_seq; [apply (keeps_stmt _ _ _ (λ _, tables_ok))|].
  { intros w [Hs Hw]. pose proof (ok_bind_playlist s pl w Hs Hw).
    by destruct (PlRender.upsert_playlist_binding s pl w) as [[] ?]. }
  eapply lands_seq; [apply (keeps_exec _ _ _ tables_ok)|apply (lands_commit _ _ (λ _, tables_ok))].
  intros w Hw. by apply ok_cursors.
Qed.

Lemma ok_Reorder pl ids d fs : tables_ok d → tables_ok (PlaylistStore.Reorder pl ids d fs).1.2.
Proof.
  intros H. destruct (PlaylistStore.Reorder_commits pl ids d) with fs as (r & d' & fs' & -> & Hr & _).
  { intros i q Hq. by destruct (ok_item d H i q Hq). }
  simpl. destruct r; [destruct Hr as [? ->]; by apply ok_reordered|by subst].
Qed.

Lemma ok_ResolveCursor s pl i n now d fs :
  tables_ok d → tables_ok (PlRender.ResolveCursor s pl i n now d fs).1.2.
Proof.
  intros H. destruct (Z.lt_ge_cases 0 n) as [Hn|Hn].
  - destruct (PlRender.ResolveCursor_spec s pl i n now d fs Hn) as (r & d' & fs' & -> & Hr & _).
    simpl. destruct r; [|by subst]. unfold PlRender.resolve_spec in Hr.
    repeat case_match; simplify_eq; try done; by apply ok_cursors.
  - unfold PlRender.ResolveCursor. destruct (Z.leb_spec n 0); [done|lia].
Qed.

#[global] Hint Resolve ok_insert_function ok_on_function ok_delete_functions ok_unbind_function
  ok_unbind_playlist ok_cursors ok_filter_lastgood ok_filter_variants ok_upsert_lastgood ok_put_variant
  ok_delete_playlists ok_insert_playlist ok_on_playlist ok_add_item ok_remove_item
  ok_BindDevice ok_BindPlaylist ok_SetManagedImage ok_Reorder ok_ResolveCursor : picpak.

(** One operation of one statement, and the pure continuation after one. *)
Ltac op_ok := first
  [ done
  | apply stmt_effect; [assumption|simpl; eauto with picpak]
  | apply bind_effect; [op_ok|intros; op_ok]
  | progress (repeat case_match); op_ok
  | solve [eauto with picpak] ].

Lemma ok_exec_op o d fs : tables_ok d → tables_ok (exec_op o d fs).
Proof.
  intros H. destruct o; simpl.
  all: try solve [eauto with picpak].
  all: unfold FaasStore.Create, FaasStore.Update, FaasStore.SetEnabled, FaasStore.SetWebhookToken,
    FaasStore.Delete, FaasStore.Unbind, FaasStore.DeleteDeviceBindings, FaasStore.LastGoodPut,
    PlaylistStore.CreatePlaylist, PlaylistStore.UpdatePlaylist, PlaylistStore.DeletePlaylist,
    PlaylistStore.AddItem, PlaylistStore.RemoveItem, PlaylistStore.SetPolicy,
    PlaylistStore.Reshuffle, PlRender.UnbindPlaylist, PlRender.VariantPut,
    PlRender.GCVariantCache, PlaylistStore.affected, exec, throw; op_ok.
Qed.

Lemma ok_exec_ops os d : tables_ok d → tables_ok (exec_ops os d).
Proof.
  unfold exec_ops. revert d. induction os as [|[o fs] os IH]; intros d H; simpl; [done|].
  by apply IH, ok_exec_op.
Qed.

(** The image table may change as long as the images shown stay. *)
Lemma ok_images f d : (∀ i r, items d !! i = Some r → is_Some (f (images d) !! ir_image r)) →
  tables_ok d → tables_ok (upd_images f d).
Proof. intros Hf H. split_ok H. Qed.

(** ** Theorems *)

(** What the frame path reads for a device. *)
Definition resolves (s : string) (b : PlRender.Binding) (d : db) : Prop :=
  (PlRender.ResolveBinding s d []).1.1 = Ok b ∧ cursors d !! s = None.

Definition managed_item (pl image : Z) : item_row := MkItemRow pl image 0 "cover" "none".

Definition shows_image (s : string) (image pl : Z) (d : db) : Prop :=
  resolves s (PlRender.MkBinding pl 0) d ∧
  snd <$> PlaylistStore.items_of pl d = [managed_item pl image] ∧
  ∃ r, playlists d !! pl = Some r ∧ pr_managed r = Some s.

Lemma resolves_parts s d p f :
  default 0 (playlist_binding d !! s) = p → default 0 (render_binding d !! s) = f →
  cursors d !! s = None → resolves s (PlRender.MkBinding p f) d.
Proof. intros <- <- Hc. by split. Qed.

Lemma BindDevice_lands s f :
  lands tables_ok
    (_ ← FaasStore.advisory_lock;
     _ ← tx_exec EDb (upd_playlist_binding (delete s));
     _ ← tx_exec EDb (upd_cursors (delete s));
     _ ← tx_exec EDb (delete_playlists (λ kv, FaasStore.managed_by s kv.2));
     _ ← tx_stmt EDb (FaasStore.upsert_render_binding s f);
     _ ← commit EDb;
     mret tt)
    (λ _, resolves s (PlRender.MkBinding 0 f)).
Proof.
  set (mid := λ d, playlist_binding d !! s = None ∧ cursors d !! s = None).
  eapply lands_seq; [apply keeps_lock|].
  eapply lands_seq; [apply (keeps_exec _ _ _ (λ d, playlist_binding d !! s = None))|].
  { intros w _. apply lookup_delete_eq. }
  eapply lands_seq; [apply (keeps_exec _ _ _ mid)|].
  { intros w Hw. split; [done|apply lookup_delete_eq]. }
  eapply lands_seq; [apply (keeps_exec _ _ _ mid)|].
  { intros w [Hs Hw]. split; [|done]. apply map_lookup_filter_None. by left. }
  eapply lands_seq; [|apply (lands_commit _ _ (λ _, resolves s (PlRender.MkBinding 0 f)))].
  apply keeps_stmt. intros w [Hs Hw]. unfold FaasStore.upsert_render_binding.
  case_bool_decide; [|done]. apply resolves_parts; simpl; [by rewrite Hs| |done].
  by rewrite lookup_insert_eq.
Qed.

Lemma BindPlaylist_lands s p :
  lands tables_ok
    (_ ← FaasStore.advisory_lock;
     _ ← tx_exec EDb (upd_render_binding (delete s));
     _ ← tx_stmt EDb (PlRender.upsert_playlist_binding s p);
     _ ← tx_exec EDb (upd_cursors (delete s));
     _ ← tx_exec EDb (delete_playlists (λ kv, FaasStore.managed_by s kv.2 && negb (kv.1 =? p)));
     _ ← commit EDb;
     mret tt)
    (λ _, resolves s (PlRender.MkBinding p 0)).
Proof.
  set (mid := λ d, render_binding d !! s = None ∧ playlist_binding d !! s = Some p).
  eapply lands_seq; [apply keeps_lock|].
  eapply lands_seq; [apply (keeps_exec _ _ _ (λ d, render_binding d !! s = None))|].
  { intros w _. apply lookup_delete_eq. }
  eapply lands_seq; [apply (keeps_stmt _ _ _ (λ _, mid))|].
  { intros w Hs. unfold PlRender.upsert_playlist_binding. case_bool_decide; [|done].
    split; [done|apply lookup_insert_eq]. }
  eapply lands_seq; [apply (keeps_exec _ _ _ (λ d, mid d ∧ cursors d !! s = None))|].
  { intros w Hw. split; [done|apply lookup_delete_eq]. }
  eapply lands_seq; [|apply (lands_commit _ _ (λ _, resolves s (PlRender.MkBinding p 0)))].
  apply keeps_exec. intros w [[Hs Hp] Hc]. apply resolves_parts; simpl; [|by rewrite Hs|done].
  rewrite (proj2 (map_lookup_filter_Some _ _ s p)); [done|]. split; [done|]. simpl.
  destruct (playlists w !! p); [|done]. rewrite Z.eqb_refl. by rewrite andb_false_r.
Qed.

Lemma upsert_managed_row s d id d' :
  PlRender.upsert_managed s d = (Ok id, d') →
  ∃ r, playlists d' !! id = Some r ∧ pr_managed r = Some s.
Proof.
  unfold PlRender.upsert_managed.
  destruct (PlaylistStore.playlist_managing s d) as [[i r]|] eqn:Hm.
  - apply playlist_managing_Some in Hm as [Hr Hs].
    destruct (PlaylistStore.at_max_version i d); [done|]. intros [= -> <-].
    unfold PlaylistStore.bump. simpl. rewrite lookup_alter_eq, Hr. simpl. by eexists.
  - unfold PlaylistStore.insert_playlist. destruct (negb _); [done|]. destruct (_ || _); [done|].
    intros [= <- <-]. simpl. rewrite lookup_insert_eq. by eexists.
Qed.

Lemma insert_item_single r d id d' :
  tables_ok d → PlaylistStore.items_of (ir_playlist r) d = [] →
  PlaylistStore.insert_item r d = (Ok id, d') →
  snd <$> PlaylistStore.items_of (ir_playlist r) d' = [r] ∧ playlists d' = playlists d.
Proof.
  intros Hok Hnil. unfold PlaylistStore.insert_item. destruct (negb _); [done|].
  destruct (PlaylistStore.position_taken r d); [done|]. destruct (_ || _); [done|].
  intros [= <- <-]. split; [|done]. unfold PlaylistStore.items_of in *. simpl.
  assert (Hfresh : items d !! item_seq d = None).
  { apply eq_None_not_Some. intros ?%(ok_fresh_item d Hok). lia. }
  assert (Hp : filter (λ kv : Z * item_row, ir_playlist kv.2 = ir_playlist r)
                 (map_to_list (<[item_seq d:=r]> (items d))) ≡ₚ [(item_seq d, r)]).
  { rewrite map_to_list_insert by done. rewrite filter_cons_True by done. by rewrite Hnil. }
  apply Permutation_singleton_r in Hp. by rewrite Hp.
Qed.

Lemma SetManagedImage_lands s image :
  lands tables_ok
    (_ ← FaasStore.advisory_lock;
     _ ← tx_exec EDb (upd_render_binding (delete s));
     plID ← tx_stmt EDb (PlRender.upsert_managed s);
     _ ← tx_exec EDb (upd_items (filter (λ kv, ir_playlist kv.2 ≠ plID)));
     _ ← tx_stmt EDb (PlaylistStore.insert_item (MkItemRow plID image 0 "cover" "none"));
     _ ← tx_stmt EDb (PlRender.upsert_playlist_binding s plID);
     _ ← tx_exec EDb (upd_cursors (delete s));
     _ ← commit EDb;
     mret plID)
    (λ pl, shows_image s image pl).
Proof.
  set (row pl d := ∃ r, playlists d !! pl = Some r ∧ pr_managed r = Some s).
  eapply lands_seq; [apply keeps_lock|].
  eapply lands_seq; [apply (keeps_exec _ _ _ (λ d, render_binding d !! s = None ∧ tables_ok d))|].
  { intros w Hw. split; [apply lookup_delete_eq|by apply ok_unbind_function]. }
  eapply lands_bind;
    [apply (keeps_stmt _ _ _ (λ pl d, (render_binding d !! s = None ∧ row pl d) ∧ tables_ok d))
    |intros pl].
  { intros w [Hs Hw]. pose proof (ok_upsert_managed s w Hw) as Hok.
    pose proof (render_binding_upsert_managed s w) as Hrb.
    destruct (PlRender.upsert_managed s w) as [[pl|] w'] eqn:Hu; [|done].
    split; [split; [simpl in *; congruence|by eapply upsert_managed_row]|done]. }
  eapply lands_seq;
    [apply (keeps_exec _ _ _ (λ d, (render_binding d !! s = None ∧ row pl d ∧
       PlaylistStore.items_of pl d = []) ∧ tables_ok d))|].
  { intros w [[Hs Hr] Hw]. split; [|by apply ok_filter_items]. split_and!; [done|done|].
    destruct (PlaylistStore.items_of pl _) as [|[i r] l] eqn:Hi; [done|].
    assert (Hin : (i, r) ∈ PlaylistStore.items_of pl
      (upd_items (filter (λ kv : Z * item_row, ir_playlist kv.2 ≠ pl)) w)) by (rewrite Hi; left).
    apply PlaylistStore.elem_of_items_of in Hin as [[_ Hne]%map_lookup_filter_Some ?]. by destruct Hne. }
  set (one pl d := snd <$> PlaylistStore.items_of pl d = [managed_item pl image]).
  set (filled d := render_binding d !! s = None ∧ row pl d ∧ one pl d).
  eapply lands_seq; [apply (keeps_stmt _ _ _ (λ _, filled))|].
  { intros w [(Hs & Hr & Hnil) Hw].
    destruct (PlaylistStore.insert_item (MkItemRow pl image 0 "cover" "none") w) as [[i|] w'] eqn:Hi;
      [|done].
    pose proof (render_binding_insert_item (MkItemRow pl image 0 "cover" "none") w) as Hrb.
    rewrite Hi in Hrb. simpl in Hrb.
    destruct (insert_item_single (managed_item pl image) _ _ _ Hw Hnil Hi) as [Hone Hpl].
    split_and!; [congruence| |exact Hone]. unfold row. by rewrite Hpl. }
  set (bound d := (render_binding d !! s = None ∧ playlist_binding d !! s = Some pl) ∧
                  row pl d ∧ one pl d).
  eapply lands_seq; [apply (keeps_stmt _ _ _ (λ _, bound))|].
  { intros w (Hs & Hr & Hone). unfold PlRender.upsert_playlist_binding.
    case_bool_decide; [|done]. split_and!; [done|apply lookup_insert_eq|done|done]. }
  eapply lands_seq; [|apply (lands_commit _ _ (shows_image s image))].
  apply keeps_exec. intros w ((Hs & Hp) & Hr & Hone). split_and!; [|exact Hone|exact Hr].
  apply resolves_parts; simpl; [by rewrite Hp|by rewrite Hs|apply lookup_delete_eq].
Qed.

(** Each way of pointing a device at something takes effect or changes
    nothing: afterwards the frame path resolves exactly that function or that
    playlist and nothing else, with the rotation reset; the image shortcut
    leaves the device's managed playlist holding exactly the one image. *)
Theorem bind_takes_effect d s fs (Hok : tables_ok d) :
  (∀ f, ∃ r d' fs', FaasStore.BindDevice s f d fs = (r, d', fs') ∧
     match r with Ok _ => resolves s (PlRender.MkBinding 0 f) d' | Err _ => d' = d end) ∧
  (∀ p, ∃ r d' fs', PlRender.BindPlaylist s p d fs = (r, d', fs') ∧
     match r with Ok _ => resolves s (PlRender.MkBinding p 0) d' | Err _ => d' = d end) ∧
  (∀ image, ∃ r d' fs', PlRender.SetManagedImage s image d fs = (r, d', fs') ∧
     match r with Ok p => shows_image s image p d' | Err _ => d' = d end).
Proof.
  split; [|split].
  - intros f. exact (with_tx_lands _ _ _ _ d fs (BindDevice_lands s f) Hok).
  - intros p. exact (with_tx_lands _ _ _ _ d fs (BindPlaylist_lands s p) Hok).
  - intros i. exact (with_tx_lands _ _ _ _ d fs (SetManagedImage_lands s i) Hok).
Qed.

(** ** Witness *)

(** A device bound to function 1, and an image. *)
Definition sample_db : db :=
  upd_images (λ _, {[5 := MkImageRow "c0ffee" "image/png" 400 300 1000]})
    (exec_ops [(OCreate (FaasStore.MkCreateParams "clock" "x" "" None [] [] None None), []);
               (OBindDevice "AB12" 1, [])] empty_db).

Lemma bind_takes_effect_witness :
  (PlRender.ResolveBinding "AB12" sample_db []).1.1 = Ok (PlRender.MkBinding 0 1) ∧
  ∃ p d' fs', PlRender.SetManagedImage "AB12" 5 sample_db [] = (Ok p, d', fs') ∧
    shows_image "AB12" 5 p d'.
Proof.
  split; [vm_compute; reflexivity|].
  assert (Hok : tables_ok sample_db).
  { apply ok_images; [|apply ok_exec_ops, tables_ok_empty]. intros i r.
    match goal with |- items ?d !! _ = _ → _ => assert (items d = ∅) as -> by (vm_compute; reflexivity) end.
    by intros ?%lookup_empty_Some. }
  destruct (bind_takes_effect sample_db "AB12" [] Hok) as (_ & _ & H).
  destruct (H 5) as (r & d' & fs' & Hrun & Hr).
  assert (Hsome : is_ok (PlRender.SetManagedImage "AB12" 5 sample_db []).1.1 = true)
    by (vm_compute; reflexivity).
  rewrite Hrun in Hsome. destruct r as [p|]; [|discriminate Hsome].
  exists p, d', fs'. split; [exact Hrun|exact Hr].
Defined.

End Bindings.
