(* ===== verification/Wake.v ===== *)
(** * The day/night wake cadence ([internal/faascore/wake.go])

    An instant is a civil time: nanoseconds since a midnight, in a location
    without offset changes (the backend runs in UTC). *)

From S2P Require Import Prelude.

Module Wake.

Record WakeConfig := MkWakeConfig {
  NightStartHour : Z; NightEndHour : Z; DayInterval : Z; MaxWake : Z }.

Definition morningBuffer : Z := 120.

Definition ns_second : Z := 1000000000.
Definition ns_hour : Z := 3600 * ns_second.
Definition ns_day : Z := 24 * ns_hour.

(** [now.Hour()] and [time.Date] of a day at an hour, which normalises. *)
Definition hour (t : Z) : Z := t mod ns_day / ns_hour.
Definition at_hour (t h : Z) : Z := t / ns_day * ns_day + h * ns_hour.

Definition isNight (c : WakeConfig) (hour : Z) : bool :=
  let s := NightStartHour c in
  let e := NightEndHour c in
  if s =? e then false
  else if s <? e then (s <=? hour) && (hour <? e)
  else (s <=? hour) || (hour <? e).

Definition clampWake (secs maxWake : Z) : Z :=
  let secs := if (0 <? maxWake) && (maxWake <? secs) then maxWake else secs in
  if secs <? 60 then 60 else secs.

(** [int(target.Sub(now).Seconds())]: the float64 of a duration of hours keeps
    its nanoseconds, so the conversion drops the fraction of a second. *)
Definition seconds_between (target now : Z) : Z := Z.quot (target - now) ns_second.

Definition NextWakeSeconds (c : WakeConfig) (now : Z) : Z :=
  let secs :=
    if isNight c (hour now) then
      let target := at_hour now (NightEndHour c) in
      let target := if NightEndHour c <=? hour now then target + ns_day else target in
      seconds_between target now + morningBuffer
    else DayInterval c in
  clampWake secs (MaxWake c).

Definition ClampHint (c : WakeConfig) (hint : Z) : Z := clampWake hint (MaxWake c).

(** ** Lemmas *)

Lemma clampWake_bounds secs maxWake :
  60 ≤ clampWake secs maxWake ∧
  (0 < maxWake → clampWake secs maxWake ≤ Z.max 60 maxWake) ∧
  (60 ≤ secs → maxWake ≤ 0 ∨ secs ≤ maxWake → clampWake secs maxWake = secs).
Proof.
  unfold clampWake. destruct (Z.ltb_spec 0 maxWake); simpl; [|zcase; lia].
  destruct (Z.ltb_spec maxWake secs); zcase; lia.
Qed.

Lemma hour_range t : 0 ≤ hour t < 24.
Proof. unfold hour, ns_day, ns_hour, ns_second. dlia. Qed.

(** The instant the night at [now] ends. *)
Definition night_end (c : WakeConfig) (now : Z) : Z :=
  at_hour now (NightEndHour c) + (if NightEndHour c <=? hour now then ns_day else 0).

Definition valid_hours (c : WakeConfig) : Prop :=
  0 ≤ NightStartHour c < 24 ∧ 0 ≤ NightEndHour c < 24.

Lemma hour_at t h : 0 ≤ h < 24 → hour (at_hour t h) = h.
Proof. unfold hour, at_hour, ns_day, ns_hour, ns_second. intros. dlia. Qed.

Lemma night_end_after c now :
  valid_hours c → now < night_end c now ≤ now + ns_day ∧ hour (night_end c now) = NightEndHour c.
Proof.
  intros [_ He]. unfold night_end. pose proof (hour_range now). split.
  - unfold hour, at_hour, ns_day, ns_hour, ns_second in *. zcase; dlia.
  - destruct (NightEndHour c <=? hour now); rewrite ?Z.add_0_r; [|by apply hour_at].
    rewrite <-(hour_at now (NightEndHour c)) at 2 by done.
    unfold hour, at_hour, ns_day, ns_hour, ns_second. dlia.
Qed.

(** From a night instant it stays night until the end hour. *)
Lemma night_until c now t :
  valid_hours c → isNight c (hour now) = true → now ≤ t < night_end c now →
  isNight c (hour t) = true.
Proof.
  intros [Hs He]. unfold isNight, night_end.
  unfold hour, at_hour, ns_day, ns_hour, ns_second in *.
  destruct (Z.eqb_spec (NightStartHour c) (NightEndHour c)); [done|].
  destruct (Z.ltb_spec (NightStartHour c) (NightEndHour c)).
  - rewrite !andb_true_iff, !Z.leb_le, !Z.ltb_lt. zcase; dlia.
  - rewrite !orb_true_iff, !Z.leb_le, !Z.ltb_lt. zcase; dlia.
Qed.

(** ** Theorem *)

(** Every wake is at least a minute and, under a ceiling, never above it; by
    day it is the configured interval; a device that asks at night, with a
    ceiling that leaves room for it, sleeps through the rest of the night and
    wakes within the second before two minutes past its end. *)
Theorem NextWakeSeconds_spec c now :
  60 ≤ NextWakeSeconds c now ∧
  (0 < MaxWake c → NextWakeSeconds c now ≤ Z.max 60 (MaxWake c)) ∧
  (isNight c (hour now) = false → 60 ≤ DayInterval c → MaxWake c ≤ 0 ∨ DayInterval c ≤ MaxWake c →
   NextWakeSeconds c now = DayInterval c) ∧
  (valid_hours c → isNight c (hour now) = true → MaxWake c ≤ 0 ∨ 86520 ≤ MaxWake c →
   let woken := now + NextWakeSeconds c now * ns_second in
   night_end c now + 119 * ns_second < woken ≤ night_end c now + 120 * ns_second ∧
   (∀ t, now ≤ t < night_end c now → isNight c (hour t) = true) ∧
   isNight c (hour (night_end c now)) = false).
Proof.
  unfold NextWakeSeconds.
  match goal with |- context [clampWake ?s ?m] => destruct (clampWake_bounds s m) as (H1 & H2 & H3) end.
  split; [exact H1|]. split; [exact H2|]. split.
  - intros Hd. rewrite Hd in *. exact H3.
  - intros Hv Hn Hm. rewrite Hn in *. pose proof (night_end_after c now Hv) as [Ha Hh].
    assert (Ht : (if NightEndHour c <=? hour now then at_hour now (NightEndHour c) + ns_day
                  else at_hour now (NightEndHour c)) = night_end c now).
    { unfold night_end. destruct (_ <=? _); lia. }
    cbv zeta in *. rewrite Ht in *. unfold seconds_between, morningBuffer in *.
    assert (Hq : 0 ≤ Z.quot (night_end c now - now) ns_second ≤ 86400).
    { unfold ns_second, ns_day, ns_hour, ns_second in *. dlia. }
    rewrite H3 by lia. split; [|split].
    + unfold ns_second in *. dlia.
    + intros t. by apply night_until.
    + rewrite Hh. destruct Hv as [Hs He]. unfold isNight. zcase; lia.
Qed.

Lemma NextWakeSeconds_spec_witness :
  let c := MkWakeConfig 23 6 3600 100000 in
  let now := 23 * ns_hour + 30 * 60 * ns_second in
  NextWakeSeconds c now = 23520 ∧
  isNight c (hour (night_end c now)) = false.
Proof.
  split; [vm_compute; reflexivity|].
  refine (proj2 (proj2 (proj2 (proj2 (proj2 (NextWakeSeconds_spec (MkWakeConfig 23 6 3600 100000)
    (23 * ns_hour + 30 * 60 * ns_second)))) _ _ _))).
  - split; simpl; lia.
  - vm_compute. reflexivity.
  - right. simpl. lia.
Defined.

End Wake.
