(* ===== verification/Supervisor.v ===== *)
(** * The supervisor's state ([internal/faascore/supervisor.go])

    Tables, in-memory caches and everything the supervisor consumes from
    outside, as tapes: clock readings, random draws, the worker's connections,
    the egress proxy's answers and the blob volume. The trace records what it
    sent out, with what came back, and the frames published to a whole fleet. *)

From Stdlib Require Import SpecFloat.
From S2P Require Import Prelude GoLib Db RenderDb FaasProto Wake PlRender.
Import GoLib RenderDb.

Module Supervisor.

(** ** M4 requests (faasproto/msg.go) *)

(** The payload is the JSON the trigger carries, byte for byte. *)
Record Trigger := MkTrigger { TType : string; Payload : option bytes }.
Record RequestCtx := MkRequestCtx {
  Serial : string; Channel : string; CTrigger : Trigger; Now : string }.
Record Limits := MkLimits { TimeoutMs : Z; MemMB : Z }.
Record Request := MkRequest {
  RV : Z; RID : string; RFnID : Z; RFnVer : Z; RSource : string; RCtx : RequestCtx;
  RForce : bool; RDitherDefault : string; RSecrets : gmap string string;
  REgressAllow : list string; REgressCred : string; RLimits : Limits; RInput : bytes }.

(** ** State *)

Record frameEntry := MkEntry { e_version : Z; e_packed : bytes; renderedAt : Z }.
Record invariantEntry := MkInvariant { i_packed : bytes; i_renderedAt : Z }.

(** One connection to the worker: none, broken while writing, or what the
    supervisor reads from it. *)
Inductive conn := NoConn | WriteBroken | Answers (b : bytes).

Inductive event :=
| EvDrive (r : Request) (c : conn)
| EvRegister (cred : string) (allow : list string) (ok : bool)
| EvUnregister (cred : string)
| EvShare (fnID version : Z).

Record world := MkWorld {
  w_db : db;
  w_cache : gmap (string * Z) frameEntry;
  w_inv : gmap (Z * Z) invariantEntry;
  w_lastRun : gmap Z Z;
  w_blobs : gmap string bytes;
  w_clock : Z;
  w_ticks : list Z;
  w_draws : list spec_float;
  w_ids : list bytes;
  w_worker : list conn;
  w_egress : list bool;
  w_flights : list (option (result string bytes));
  w_trace : list event }.

Definition set_db d (w : world) : world :=
  MkWorld d (w_cache w) (w_inv w) (w_lastRun w) (w_blobs w) (w_clock w) (w_ticks w)
    (w_draws w) (w_ids w) (w_worker w) (w_egress w) (w_flights w) (w_trace w).
Definition set_cache c (w : world) : world :=
  MkWorld (w_db w) c (w_inv w) (w_lastRun w) (w_blobs w) (w_clock w) (w_ticks w)
    (w_draws w) (w_ids w) (w_worker w) (w_egress w) (w_flights w) (w_trace w).
Definition set_inv c (w : world) : world :=
  MkWorld (w_db w) (w_cache w) c (w_lastRun w) (w_blobs w) (w_clock w) (w_ticks w)
    (w_draws w) (w_ids w) (w_worker w) (w_egress w) (w_flights w) (w_trace w).
Definition set_lastRun l (w : world) : world :=
  MkWorld (w_db w) (w_cache w) (w_inv w) l (w_blobs w) (w_clock w) (w_ticks w)
    (w_draws w) (w_ids w) (w_worker w) (w_egress w) (w_flights w) (w_trace w).
Definition set_clock c ts (w : world) : world :=
  MkWorld (w_db w) (w_cache w) (w_inv w) (w_lastRun w) (w_blobs w) c ts
    (w_draws w) (w_ids w) (w_worker w) (w_egress w) (w_flights w) (w_trace w).
Definition set_draws l (w : world) : world :=
  MkWorld (w_db w) (w_cache w) (w_inv w) (w_lastRun w) (w_blobs w) (w_clock w) (w_ticks w)
    l (w_ids w) (w_worker w) (w_egress w) (w_flights w) (w_trace w).
Definition set_ids l (w : world) : world :=
  MkWorld (w_db w) (w_cache w) (w_inv w) (w_lastRun w) (w_blobs w) (w_clock w) (w_ticks w)
    (w_draws w) l (w_worker w) (w_egress w) (w_flights w) (w_trace w).
Definition set_worker l (w : world) : world :=
  MkWorld (w_db w) (w_cache w) (w_inv w) (w_lastRun w) (w_blobs w) (w_clock w) (w_ticks w)
    (w_draws w) (w_ids w) l (w_egress w) (w_flights w) (w_trace w).
Definition set_egress l (w : world) : world :=
  MkWorld (w_db w) (w_cache w) (w_inv w) (w_lastRun w) (w_blobs w) (w_clock w) (w_ticks w)
    (w_draws w) (w_ids w) (w_worker w) l (w_flights w) (w_trace w).
Definition set_flights l (w : world) : world :=
  MkWorld (w_db w) (w_cache w) (w_inv w) (w_lastRun w) (w_blobs w) (w_clock w) (w_ticks w)
    (w_draws w) (w_ids w) (w_worker w) (w_egress w) l (w_trace w).
Definition emit e (w : world) : world :=
  MkWorld (w_db w) (w_cache w) (w_inv w) (w_lastRun w) (w_blobs w) (w_clock w) (w_ticks w)
    (w_draws w) (w_ids w) (w_worker w) (w_egress w) (w_flights w) (w_trace w ++ [e]).

Abbreviation MW := (M world err).

(** ** Effects *)

Definition act {A} (f : world → A * world) : MW A := λ w fs,
  let '(a, w') := f w in (Ok a, w', fs).
Definition reads {A} (f : world → A) : MW A := act (λ w, (f w, w)).
Definition does (f : world → world) : MW unit := act (λ w, ((), f w)).

(** A store operation on the pool. *)
Definition on_db {A} (m : M db err A) : MW A := zoom w_db set_db m.

(** [time.Now()]: the clock moves by the next tick and is read. *)
Definition time_now : MW Z := act (λ w,
  let t := w_clock w + default 0 (head (w_ticks w)) in (t, set_clock t (tail (w_ticks w)) w)).

(** [newCallID]: sixteen random bytes in hex. *)
Definition newCallID : MW string := act (λ w,
  (string_of_bytes (hex_encode (default (replicate 16 0) (head (w_ids w)))),
   set_ids (tail (w_ids w)) w)).

(** ** Static configuration *)

Record Supervisor := MkSupervisor {
  wake : Wake.WakeConfig; ditherDefault : string; limits : Limits; retryWake : Z;
  renderTTL : Z; jitterFrac : spec_float; errorFrame : bytes; egressControl : bool }.

(** [nowOrDefault]: the clock in RFC 3339, which only the worker reads. *)
Definition triggerOrRender (t : string) : string :=
  if bool_decide (t = ""%string) then "render"%string else t.

Section Format.
Context (rfc3339 : Z → string).
Definition nowOrDefault (s : string) : MW string :=
  if bool_decide (s = ""%string) then t ← time_now; mret (rfc3339 t) else mret s.
End Format.

(** ** The egress client *)

Definition egress_register (s : Supervisor) (cred : string) (allow : list string) : MW bool :=
  if egressControl s then act (λ w,
    let ok := default true (head (w_egress w)) in
    (ok, emit (EvRegister cred allow ok) (set_egress (tail (w_egress w)) w)))
  else mret true.
Definition egress_unregister (s : Supervisor) (cred : string) : MW unit :=
  if egressControl s then does (emit (EvUnregister cred)) else mret ().

(** ** Trigger configuration (buildframe.go) *)

Record triggerConfig := MkTriggerConfig {
  Mode : string; TTLSec : Z; IntervalS : Z; TDither : string; Cron : string;
  SerialInvariant : bool }.

Inductive config_field := FMode | FTtl | FInterval | FDither | FCron | FSerialInvariant.
Definition config_fields : list (string * config_field) :=
  [("mode", FMode); ("ttl_s", FTtl); ("interval_s", FInterval); ("dither", FDither);
   ("cron", FCron); ("serial_invariant", FSerialInvariant)]%string.

(** A value of the wrong type leaves the field as it is and decoding goes on. *)
Definition decode_member (c : triggerConfig) (kv : string * json) : triggerConfig :=
  let '(MkTriggerConfig m t i d cr si) := c in
  match field_of config_fields kv.1, kv.2 with
  | Some FMode, JStr s => MkTriggerConfig s t i d cr si
  | Some FTtl, JNum n => match parse_int n 64 with
                         | (v, None) => MkTriggerConfig m v i d cr si | _ => c end
  | Some FInterval, JNum n => match parse_int n 64 with
                              | (v, None) => MkTriggerConfig m t v d cr si | _ => c end
  | Some FDither, JStr s => MkTriggerConfig m t i s cr si
  | Some FCron, JStr s => MkTriggerConfig m t i d s si
  | Some FSerialInvariant, JBool b => MkTriggerConfig m t i d cr b
  | _, _ => c
  end.

Definition parseTriggerConfig (raw : option json) : triggerConfig :=
  match raw with
  | Some (JObj m) => foldl decode_member (MkTriggerConfig "" 0 0 "" "" false) m
  | _ => MkTriggerConfig "" 0 0 "" "" false
  end.

End Supervisor.
