(* ===== verification/Worker.v ===== *)
(** * One render ([internal/faascore/render.go])

    Secrets resolved to the bound names, one exchange with the worker, the
    frame packed. What lies outside the sources is a parameter: the AEAD
    opening of a stored secret, the JSON codecs of the request and of the
    response metadata, and the text of an error. *)

From S2P Require Import Prelude GoLib Bwry FaasProto Db RenderDb FaasStore PlRender Wake Supervisor.
Import GoLib RenderDb Supervisor.
Import FaasProto(RenderErr, MkRenderErr, ResponseMeta, MkResponseMeta, MetaErr, NextWakeHint).
Import FaasStore(Function, SecretBindings, EgressAllow).

Module Worker.

Inductive SecretMode := SecretsReal | SecretsStub.
#[global] Instance SecretMode_eq_dec : EqDecision SecretMode.
Proof. solve_decision. Defined.

Record RenderOpts := MkOpts {
  oSecrets : SecretMode; oLimits : Limits; WantRaw : bool; oForce : bool; oDither : string;
  oDitherDefault : string; oEgress : bool; oInput : bytes }.

(** A nil slice is the empty list. *)
Record RenderResult := MkResult {
  Packed : bytes; Raw : bytes; Meta : ResponseMeta; RErr : option RenderErr }.

Inductive m4_err :=
| M4Dial | M4Marshal | M4Frame (e : FaasProto.error) | M4Write | M4Read (e : FaasProto.error)
| M4Kind (k : Z) | M4Decode (e : FaasProto.error).
Inductive failure := FM4 (e : m4_err) | FPack (e : Bwry.error).

Definition from_rgb := Bwry.from_rgb Bwry.panel_width Bwry.panel_height.
Definition pack_with_dither := Bwry.pack_with_dither Bwry.panel_width Bwry.panel_height.

(** The first of the operator's choice, the worker's and the default that
    parses. *)
Definition resolveDitherStr (trigger ret def : string) : string :=
  match find_first (λ s, bool_decide (is_Some (Bwry.parse_dither s))) [trigger; ret; def] with
  | Some s => s
  | None => "none"%string
  end.

Definition failed_meta (id : string) (e : RenderErr) : ResponseMeta :=
  MkResponseMeta 1 id false 0 0 "" None [] (Some e).
Definition set_dither (d : string) (m : ResponseMeta) : ResponseMeta :=
  MkResponseMeta (FaasProto.V m) (FaasProto.ID m) (FaasProto.OK m) (FaasProto.W m)
    (FaasProto.H m) d (NextWakeHint m) (FaasProto.Log m) (MetaErr m).

Section Render.
Context (box_open : string → bytes → bytes → option bytes).
Context (marshal_request : Request → option bytes).
Context (unmarshal_meta : bytes → option ResponseMeta).
Context (text : failure → string).

(** ** Secrets *)

(** [secrets.ResolveSecret]: only a missing row is "not found". *)
Definition ResolveSecret (name : string) : M db err bytes :=
  row ← query EDb (λ d, match secrets d !! name with Some r => Ok r | None => Err ENotFound end);
  match box_open name (sr_nonce row) (sr_ciphertext row) with
  | Some plaintext => mret plaintext
  | None => throw EOpen
  end.

Definition stub_secret (name : string) : string := ("<secret:" ++ name ++ ">")%string.

Fixpoint resolve_names (names : list string) (mode : SecretMode) (out : gmap string string)
    : M db err (result RenderErr (gmap string string)) :=
  match names with
  | [] => mret (Ok out)
  | name :: names =>
      match mode with
      | SecretsStub => resolve_names names mode (<[name := stub_secret name]> out)
      | SecretsReal =>
          val ← attempt (ResolveSecret name);
          match val with
          | Ok v => resolve_names names mode (<[name := string_of_bytes v]> out)
          | Err ENotFound => resolve_names names mode out
          | Err _ => mret (Err (MkRenderErr "secret"
                                  ("secret " ++ name ++ " failed to open")%string))
          end
      end
  end.
Definition resolveSecrets (names : list string) (mode : SecretMode) :=
  resolve_names names mode ∅.

(** ** The exchange *)

Definition exchange (req : Request) (c : conn) : result m4_err (ResponseMeta * bytes) :=
  match c with
  | NoConn => Err M4Dial
  | _ =>
      match marshal_request req with
      | None => Err M4Marshal
      | Some body =>
          match FaasProto.write_frame FaasProto.KindRenderRequest body with
          | Err e => Err (M4Frame e)
          | Ok _ =>
              match c with
              | Answers b =>
                  match (FaasProto.read_frame b).2 with
                  | Err e => Err (M4Read e)
                  | Ok (kind, payload, _) =>
                      if negb (kind =? FaasProto.KindRenderResponse) then Err (M4Kind kind)
                      else match FaasProto.decode_response unmarshal_meta payload with
                           | Err e => Err (M4Decode e)
                           | Ok r => Ok r
                           end
                  end
              | _ => Err M4Write
              end
          end
      end
  end.

Definition driveWorker (req : Request) : MW (result m4_err (ResponseMeta * bytes)) := act (λ w,
  let c := default NoConn (head (w_worker w)) in
  (exchange req c, emit (EvDrive req c) (set_worker (tail (w_worker w)) w))).

(** What follows the exchange. *)
Definition pack_response (opts : RenderOpts) (id : string)
    (r : result m4_err (ResponseMeta * bytes)) : RenderResult :=
  let fail meta e := MkResult [] [] meta (Some e) in
  match r with
  | Err e => let re := MkRenderErr "timeout" (text (FM4 e)) in fail (failed_meta id re) re
  | Ok (meta, raw) =>
      match MetaErr meta with
      | Some e => fail meta e
      | None =>
          match from_rgb raw with
          | Err e => fail meta (MkRenderErr "pack" (text (FPack e)))
          | Ok img =>
              let dith := resolveDitherStr (oDither opts) (FaasProto.Dither meta)
                            (oDitherDefault opts) in
              let mode := default Bwry.DitherNone (Bwry.parse_dither dith) in
              match pack_with_dither img mode with
              | Err e => fail meta (MkRenderErr "pack" (text (FPack e)))
              | Ok packed => MkResult packed (if WantRaw opts then raw else [])
                               (set_dither dith meta) None
              end
          end
      end
  end.

(** The credential of this call at the proxy, for a function with an allow list. *)
Definition provisions (fn : Function) (opts : RenderOpts) : bool :=
  oEgress opts && negb (bool_decide (EgressAllow fn = [])).
Definition register_call (s : Supervisor) (fn : Function) (opts : RenderOpts) (cred : string)
    : MW bool :=
  if provisions fn opts then egress_register s cred (EgressAllow fn) else mret true.
Definition unregister_call (s : Supervisor) (fn : Function) (opts : RenderOpts) (cred : string)
    : MW unit :=
  if provisions fn opts then egress_unregister s cred else mret ().

Definition renderOnce (s : Supervisor) (fn : Function) (rctx : RequestCtx) (opts : RenderOpts)
    : MW RenderResult :=
  vals ← on_db (resolveSecrets (SecretBindings fn) (oSecrets opts));
  match vals with
  | Err e => mret (MkResult [] [] (failed_meta "" e) (Some e))
  | Ok secretVals =>
      cred ← newCallID;
      registered ← register_call s fn opts cred;
      if negb registered then
        let re := MkRenderErr "egress" "egress provisioning failed" in
        mret (MkResult [] [] (failed_meta "" re) (Some re))
      else
        id ← newCallID;
        let req := MkRequest 1 id (FaasStore.ID fn) (FaasStore.FVersion fn) (FaasStore.Source fn)
          rctx (oForce opts) (oDitherDefault opts) secretVals (EgressAllow fn) cred
          (oLimits opts) (oInput opts) in
        r ← driveWorker req;
        _ ← unregister_call s fn opts cred;
        mret (pack_response opts id r)
  end.

(** ** Lemmas *)

Definition secrets_for (names : list string) (mode : SecretMode) (m : gmap string string) : Prop :=
  ∀ k v, m !! k = Some v → k ∈ names ∧ (mode = SecretsStub → v = stub_secret k).

Lemma ResolveSecret_runs name d fs : ∃ r fs', ResolveSecret name d fs = (r, d, fs').
Proof.
  unfold ResolveSecret, mbind, M_bind, query, stmt, throw, mret, M_ret.
  destruct fs as [|[] fs]; [|by eexists _, _|]; destruct (secrets d !! name); simpl;
    [|by eexists _, _| |by eexists _, _]; destruct (box_open _ _ _); by eexists _, _.
Qed.

Lemma resolve_names_runs names mode out d fs bound :
  (∀ k, k ∈ names → k ∈ bound) → secrets_for bound mode out →
  ∃ r fs', resolve_names names mode out d fs = (Ok r, d, fs') ∧
    match r with Ok m => secrets_for bound mode m | Err _ => True end.
Proof.
  intros Hb. revert out fs.
  assert (Hins : ∀ name v out, name ∈ bound → (mode = SecretsStub → v = stub_secret name) →
            secrets_for bound mode out → secrets_for bound mode (<[name:=v]> out)).
  { intros name v out Hn Hv Hout k v' [[<- <-]|[_ ?]]%lookup_insert_Some; eauto. }
  induction names as [|name names IH]; intros out fs Hout; simpl; [by eexists _, _|].
  assert (Hname : name ∈ bound) by (apply Hb; left).
  assert (Hrest : ∀ k, k ∈ names → k ∈ bound) by (intros; apply Hb; by right).
  destruct mode; [|apply IH; [done|by apply Hins]].
  unfold mbind, M_bind, attempt.
  destruct (ResolveSecret_runs name d fs) as (r & fs1 & ->).
  destruct r as [v|[]]; try by eexists _, _.
  - apply IH; [done|]. by apply Hins.
  - by apply IH.
Qed.

Lemma resolveDitherStr_parses t r d :
  is_Some (Bwry.parse_dither (resolveDitherStr t r d)) ∧
  (is_Some (Bwry.parse_dither t) → resolveDitherStr t r d = t).
Proof.
  unfold resolveDitherStr. split.
  - destruct (find_first _ _) as [s|] eqn:Hs; [|by eexists].
    apply find_first_Some in Hs as [_ Hs]. by apply bool_decide_eq_true in Hs.
  - intros Ht. simpl. by rewrite bool_decide_true.
Qed.

Lemma pack_response_ok opts id r :
  match RErr (pack_response opts id r) with
  | Some _ => Packed (pack_response opts id r) = []
  | None =>
      zlen (Packed (pack_response opts id r)) = packed_len ∧
      bytes_ok (Packed (pack_response opts id r)) ∧
      ∃ meta raw img, r = Ok (meta, raw) ∧ MetaErr meta = None ∧ from_rgb raw = Ok img ∧
        let dith := resolveDitherStr (oDither opts) (FaasProto.Dither meta) (oDitherDefault opts) in
        FaasProto.Dither (Meta (pack_response opts id r)) = dith ∧
        pack_with_dither img (default Bwry.DitherNone (Bwry.parse_dither dith)) =
          Ok (Packed (pack_response opts id r))
  end.
Proof.
  unfold pack_response. destruct r as [[meta raw]|e]; [|done].
  destruct (MetaErr meta) eqn:Hm; [done|]. destruct (from_rgb raw) as [img|] eqn:Hi; [|done].
  set (dith := resolveDitherStr _ _ _). set (mode := default _ _).
  destruct (pack_with_dither img mode) as [packed|] eqn:Hp; [|done]. simpl.
  pose proof (Bwry.pack_with_dither_total Bwry.panel_width Bwry.panel_height img mode) as Ht.
  unfold pack_with_dither in Hp. rewrite Hp in Ht.
  destruct Ht as (_ & _ & _ & Hlen & Hok); [done|done|by exists 30000|].
  split; [rewrite Hlen; reflexivity|]. split; [done|]. by exists meta, raw, img.
Qed.

(** What the supervisor keeps across a render. *)
Definition kept (w w' : world) : Prop :=
  w_db w' = w_db w ∧ w_cache w' = w_cache w ∧ w_inv w' = w_inv w ∧
  w_lastRun w' = w_lastRun w ∧ w_blobs w' = w_blobs w ∧ w_clock w' = w_clock w ∧
  w_ticks w' = w_ticks w ∧ w_draws w' = w_draws w ∧ w_flights w' = w_flights w.

(** The request of a render: the function's row, its own bound secrets, its own
    egress list. *)
Definition request_for (fn : Function) (rctx : RequestCtx) (opts : RenderOpts) (r : Request)
    : Prop :=
  RFnID r = FaasStore.ID fn ∧ RFnVer r = FaasStore.FVersion fn ∧
  RSource r = FaasStore.Source fn ∧ RCtx r = rctx ∧ REgressAllow r = EgressAllow fn ∧
  RLimits r = oLimits opts ∧ RInput r = oInput opts ∧
  secrets_for (SecretBindings fn) (oSecrets opts) (RSecrets r).

(** The events of a render: nothing, a refused registration, or one drive, with
    the egress credential registered before it and withdrawn after it. *)
Definition render_events (fn : Function) (rctx : RequestCtx) (opts : RenderOpts)
    (res : RenderResult) (evs : list event) : Prop :=
  (RErr res ≠ None ∧ Packed res = [] ∧ (evs = [] ∨ ∃ cred, evs = [EvRegister cred (EgressAllow fn) false])) ∨
  ∃ req c, request_for fn rctx opts req ∧ res = pack_response opts (RID req) (exchange req c) ∧
    (evs = [EvDrive req c] ∨
     evs = [EvRegister (REgressCred req) (EgressAllow fn) true; EvDrive req c;
            EvUnregister (REgressCred req)]).

Definition tracked (s : Supervisor) (fn : Function) (opts : RenderOpts) : bool :=
  provisions fn opts && egressControl s.

Lemma register_call_runs s fn opts cred w fs :
  ∃ ok w', register_call s fn opts cred w fs = (Ok ok, w', fs) ∧ kept w w' ∧
    w_trace w' = w_trace w ++
      (if tracked s fn opts then [EvRegister cred (EgressAllow fn) ok] else []) ∧
    (tracked s fn opts = false → ok = true).
Proof.
  unfold register_call, tracked, egress_register.
  destruct (provisions fn opts); simpl; [destruct (egressControl s)|].
  - by eexists _, _.
  - exists true, w. by rewrite app_nil_r.
  - exists true, w. by rewrite app_nil_r.
Qed.

Lemma unregister_call_runs s fn opts cred w fs :
  ∃ w', unregister_call s fn opts cred w fs = (Ok (), w', fs) ∧ kept w w' ∧
    w_trace w' = w_trace w ++ (if tracked s fn opts then [EvUnregister cred] else []).
Proof.
  unfold unregister_call, tracked, egress_unregister.
  destruct (provisions fn opts); simpl; [destruct (egressControl s)|].
  - by eexists _.
  - exists w. by rewrite app_nil_r.
  - exists w. by rewrite app_nil_r.
Qed.

Lemma kept_trans a b c : kept a b → kept b c → kept a c.
Proof.
  intros (?&?&?&?&?&?&?&?&?) (?&?&?&?&?&?&?&?&?). repeat split; congruence.
Qed.

Lemma renderOnce_runs s fn rctx opts w fs :
  ∃ res w' fs' evs, renderOnce s fn rctx opts w fs = (Ok res, w', fs') ∧ kept w w' ∧
    w_trace w' = w_trace w ++ evs ∧ render_events fn rctx opts res evs.
Proof.
  unfold renderOnce, on_db, zoom, mbind, M_bind.
  destruct (resolve_names_runs (SecretBindings fn) (oSecrets opts) ∅ (w_db w) fs (SecretBindings fn))
    as (r & fs1 & Hrun & Hr); [done|by intros k v ?%lookup_empty_Some|].
  unfold resolveSecrets. rewrite Hrun. replace (set_db (w_db w) w) with w by (by destruct w).
  destruct r as [vals|e].
  2: { eexists _, w, fs1, []. rewrite app_nil_r. split_and!; [done|done|done|].
       left. split; [done|]. split; [done|by left]. }
  unfold newCallID at 1, act at 1. cbv zeta.
  set (cred := string_of_bytes (hex_encode (default (replicate 16 0) (head (w_ids w))))).
  set (w1 := set_ids (tail (w_ids w)) w).
  destruct (register_call_runs s fn opts cred w1 fs1) as (ok & w2 & -> & Hk & Htr & Hok).
  destruct ok; simpl.
  2: { eexists _, w2, fs1, _. split; [reflexivity|]. split; [exact Hk|]. split; [exact Htr|].
       left. split; [done|]. split; [done|]. destruct (tracked s fn opts); [eauto|by discriminate Hok]. }
  unfold newCallID, act, driveWorker, act.
  set (id := string_of_bytes _). set (c := default NoConn _).
  set (req := MkRequest 1 id _ _ _ _ _ _ _ _ _ _ _).
  set (w3 := emit _ _).
  destruct (unregister_call_runs s fn opts cred w3 fs1) as (w4 & -> & Hk4 & Htr4).
  eexists _, w4, fs1, _. split; [reflexivity|]. split; [|split].
  - eapply kept_trans; [|exact Hk4]. exact Hk.
  - rewrite Htr4. unfold w3. simpl. rewrite Htr. simpl. by rewrite <-!app_assoc.
  - right. exists req, c. split; [done|]. split; [done|].
    destruct (tracked s fn opts); [by right|by left].
Qed.

(** ** Theorem *)

(** C29. A render never fails the caller: it keeps every table and cache, sends at
    most one request, and one that carries only this function's bound secrets
    (stubs in a test) and its own egress list, whose credential is registered
    before and withdrawn after it. A success is a panel-sized frame of the
    returned image, dithered as the operator chose whenever that choice parses;
    a failure carries no frame. *)
Theorem renderOnce_contained s fn rctx opts w fs :
  ∃ res w' fs' evs, renderOnce s fn rctx opts w fs = (Ok res, w', fs') ∧ kept w w' ∧
    w_trace w' = w_trace w ++ evs ∧ render_events fn rctx opts res evs ∧
    match RErr res with
    | Some _ => Packed res = []
    | None =>
        zlen (Packed res) = packed_len ∧ bytes_ok (Packed res) ∧
        (is_Some (Bwry.parse_dither (oDither opts)) →
         FaasProto.Dither (Meta res) = oDither opts) ∧
        ∃ raw img, from_rgb raw = Ok img ∧
          pack_with_dither img
            (default Bwry.DitherNone (Bwry.parse_dither (FaasProto.Dither (Meta res)))) =
          Ok (Packed res)
    end.
Proof.
  destruct (renderOnce_runs s fn rctx opts w fs) as (res & w' & fs' & evs & Hrun & Hk & Htr & Hev).
  exists res, w', fs', evs. do 4 (split; [done|]).
  destruct Hev as [[Hres Hcase]|(req & c & _ & -> & _)].
  - destruct Hcase as [Hcase _]. by destruct (RErr res).
  - pose proof (pack_response_ok opts (RID req) (exchange req c)) as Hp.
    destruct (RErr _); [done|].
    destruct Hp as (Hl & Hb & meta & raw & img & _ & _ & Hi & Hd & Hpk).
    split; [done|]. split; [done|]. rewrite Hd. split; [|by exists raw, img].
    apply resolveDitherStr_parses.
Qed.
End Render.

End Worker.
