(* ===== verification/PlaylistFrame.v ===== *)
(** * The playlist render path ([internal/faascore/playlistframe.go]) *)

From Stdlib Require Import SpecFloat.
From S2P Require Import Prelude GoLib Bwry FaasProto Db RenderDb FaasStore PlaylistStore PlRender Wake Supervisor Worker.
Import GoLib RenderDb Supervisor Worker.
Import FaasStore(Function, MkFunction).
Import PlaylistStore(PlaylistItem, ImageID, Fit, Dither, ItemID, GetPlaylist, RotationItems).
Import PlRender(Cursor, Index, AdvancedAt, time_sub, RotationOrder, ResolveCursor, VariantGet,
  VariantPut).

Module PlaylistFrame.

(** ** Images (imgstore) *)

Record Image := MkImage { ImgID : Z; Sha256 : string }.

Definition GetImage (id : Z) : M db err Image :=
  query EDb (λ d, match images d !! id with
                  | Some r => Ok (MkImage id (im_sha r)) | None => Err ENotFound end).

Definition blob_name (sha : string) : string :=
  string_of_bytes (path_base (bytes_of_string (sha ++ ".bin"))).

Definition LoadBlob (id : Z) : MW bytes :=
  img ← on_db (GetImage id);
  query EBlob (λ w, match w_blobs w !! blob_name (Sha256 img) with
                    | Some b => Ok b | None => Err EBlob end).

(** ** The built-in source *)

Definition quote : string := String.String (Ascii.ascii_of_nat 34) EmptyString.
Definition playlistFit : list string := ["cover"; "contain"; "fill"]%string.
Definition playlistSource (fit : string) : string :=
  let fit := if PlaylistStore.one_of playlistFit fit then fit else "cover"%string in
  ("export default async (ctx, cap) => {
  const b = await cap.sharp(ctx.input).resize(400, 300, { fit: " ++ quote ++ fit ++ quote ++
" }).removeAlpha().raw().toBuffer();
  return { image: cap.sharp(b, { raw: { width: 400, height: 300, channels: 3 } }) };
}")%string.

(** ** The wake *)

Definition default_jitter : spec_float := Bwry.f64_const 15 100.

Definition jitter (s : Supervisor) (secs : Z) : MW Z := act (λ w,
  let frac := if SFleb (jitterFrac s) (Bwry.f64_of_Z 0) then default_jitter else jitterFrac s in
  let r := default (S754_zero false) (head (w_draws w)) in
  (i64 (secs - Bwry.trunc_f64 (Bwry.f64_mul (Bwry.f64_mul r frac) (Bwry.f64_of_Z secs))),
   set_draws (tail (w_draws w)) w)).

Definition playlistWake (s : Supervisor) (now interval : Z) (cur : Cursor) : MW Z :=
  let base := Wake.NextWakeSeconds (wake s) now in
  let toNext := Z.quot (i64 (interval - time_sub now (AdvancedAt cur))) Wake.ns_second in
  let base := if (0 <? toNext) && (toNext <? base) then toNext else base in
  secs ← jitter s base;
  mret (Wake.clampWake secs (Wake.MaxWake (wake s))).

(** ** Variants *)

(** The frame, its status, whether it is stale, and the wake. *)
Record frame := MkFrame { f_packed : bytes; f_status : string; f_stale : bool; f_wake : Z }.

Definition error_frame (s : Supervisor) : frame :=
  MkFrame (errorFrame s) "error" true (retryWake s).

Section Playlist.
Context (box_open : string → bytes → bytes → option bytes).
Context (marshal_request : Request → option bytes).
Context (unmarshal_meta : bytes → option FaasProto.ResponseMeta).
Context (text : failure → string).
Context (rfc3339 : Z → string).

Abbreviation render_once := (renderOnce box_open marshal_request unmarshal_meta text).

(** The synthetic function: no secrets, no egress. *)
Definition playlist_function (source : string) : Function :=
  MkFunction 0 "" source 0 "" None [] [] false.

Definition doRenderPlaylist (s : Supervisor) (source : string) (input : bytes) (dither : string)
    : MW RenderResult :=
  now ← nowOrDefault rfc3339 "";
  render_once s (playlist_function source)
    (MkRequestCtx "" "" (MkTrigger "render" None) now)
    (MkOpts SecretsReal (limits s) false false dither "" false input).

(** What the leader of a flight runs. *)
Definition render_variant (s : Supervisor) (img : Image) (item : PlaylistItem)
    : MW (result string bytes) :=
  again ← attempt (on_db (VariantGet (Sha256 img) (Fit item) (Dither item)));
  match again with
  | Ok p => mret (Ok p)
  | Err _ =>
      blob ← attempt (LoadBlob (ImgID img));
      match blob with
      | Err _ => mret (Err "load blob"%string)
      | Ok blob =>
          res ← doRenderPlaylist s (playlistSource (Fit item)) blob (Dither item);
          match RErr res with
          | Some e => mret (Err ("render " ++ FaasProto.Kind e)%string)
          | None =>
              put ← attempt (on_db (VariantPut (Sha256 img) (Fit item) (Dither item)
                                      (Packed res)));
              match put with
              | Err _ => mret (Err "variant put"%string)
              | Ok _ => mret (Ok (Packed res))
              end
          end
      end
  end.

(** [plFlight.do]: a call for the key that is in flight hands over its outcome,
    otherwise this caller leads. *)
Definition next_flight : MW (option (result string bytes)) := act (λ w,
  (default None (head (w_flights w)), set_flights (tail (w_flights w)) w)).

Definition packedVariant (s : Supervisor) (img : Image) (item : PlaylistItem)
    : MW (result string bytes) :=
  hit ← attempt (on_db (VariantGet (Sha256 img) (Fit item) (Dither item)));
  match hit with
  | Ok p => mret (Ok p)
  | Err _ =>
      joined ← next_flight;
      match joined with
      | Some outcome => mret outcome
      | None => render_variant s img item
      end
  end.

(** ** The frame *)

Definition buildPlaylistFrame (s : Supervisor) (serial : string) (playlistID now : Z) : MW frame :=
  pl ← attempt (on_db (GetPlaylist playlistID));
  match pl with
  | Err _ => mret (error_frame s)
  | Ok pl =>
      items ← attempt (on_db (RotationItems playlistID));
      match items with
      | Err _ | Ok [] => mret (error_frame s)
      | Ok items =>
          let ids := ItemID <$> items in
          let order := RotationOrder (PlaylistStore.OrderMode pl) (PlaylistStore.ShuffleEpoch pl)
                         serial playlistID ids in
          let interval := i64 (PlaylistStore.IntervalS pl * Wake.ns_second) in
          cur ← attempt (on_db (ResolveCursor serial playlistID interval (zlen items) now));
          match cur with
          | Err _ => mret (error_frame s)
          | Ok cur =>
              match (i ← order !! Z.to_nat (Index cur); items !! i) with
              | None => throw EPanic
              | Some item =>
                  img ← attempt (on_db (GetImage (ImageID item)));
                  match img with
                  | Err _ =>
                      w ← playlistWake s now interval cur;
                      mret (MkFrame (errorFrame s) "error" true w)
                  | Ok img =>
                      packed ← packedVariant s img item;
                      match packed with
                      | Err _ => mret (error_frame s)
                      | Ok packed =>
                          w ← playlistWake s now interval cur;
                          mret (MkFrame packed "ok" false w)
                      end
                  end
              end
          end
      end
  end.
End Playlist.

End PlaylistFrame.
