(* ===== verification/Frame.v ===== *)
(** * The frame path of the supervisor ([internal/faascore/buildframe.go],
      [supervisor.go])

    The hot cache with its serial-invariant twin, the three-stage fallback, the
    fan-out, the scheduler and the dispatch of a device's request. *)

From S2P Require Import Prelude GoLib Bwry FaasProto Db RenderDb FaasStore PlRender Bindings Wake Supervisor Worker PlaylistFrame.
Import GoLib RenderDb Supervisor Worker PlaylistFrame.
Import FaasStore(Function, ID, Name, FVersion, TriggerType, TriggerConfig, Enabled,
  LoadFunction, LoadFunctionByName, ListFunctions, BoundSerials, LastGoodGet, LastGoodPut).
Import PlRender(time_sub).

Module Frame.

(** ** The caches *)

Definition cache_get (serial : string) (fnID : Z) : MW (option frameEntry) :=
  reads (λ w, w_cache w !! (serial, fnID)).
Definition cache_put (serial : string) (fnID version : Z) (packed : bytes) : MW unit :=
  t ← time_now;
  does (λ w, set_cache (<[(serial, fnID) := MkEntry version packed t]> (w_cache w)) w).
Definition getInvariant (fnID version : Z) : MW (option invariantEntry) :=
  reads (λ w, w_inv w !! (fnID, version)).
Definition putInvariant (fnID version : Z) (packed : bytes) : MW unit :=
  t ← time_now;
  does (λ w, emit (EvShare fnID version)
               (set_inv (<[(fnID, version) := MkInvariant packed t]> (w_inv w)) w)).

Definition syncInline (fn : Function) : bool :=
  bool_decide (TriggerType fn = FaasStore.TriggerRender) &&
  negb (bool_decide (Mode (parseTriggerConfig (TriggerConfig fn)) = "prerender"%string)).

Definition ttlFor (s : Supervisor) (fn : Function) : Z :=
  let c := parseTriggerConfig (TriggerConfig fn) in
  if 0 <? TTLSec c then i64 (TTLSec c * Wake.ns_second) else renderTTL s.

Definition wakeDefault (s : Supervisor) : MW Z :=
  t ← time_now; mret (Wake.NextWakeSeconds (wake s) t).
Definition wakeFor (s : Supervisor) (meta : FaasProto.ResponseMeta) : MW Z :=
  match FaasProto.NextWakeHint meta with
  | Some hint => mret (Wake.ClampHint (wake s) hint)
  | None => wakeDefault s
  end.

(** [time.Since(t) < ttl]. *)
Definition fresh (s : Supervisor) (fn : Function) (t : Z) : MW bool :=
  now ← time_now; mret (time_sub now t <? ttlFor s fn).

(** A hot entry of the current version within its TTL. *)
Definition hot_hit (s : Supervisor) (serial : string) (fn : Function) : MW (option bytes) :=
  e ← cache_get serial (ID fn);
  match e with
  | Some e => if e_version e =? FVersion fn then
                ok ← fresh s fn (renderedAt e);
                mret (if ok : bool then Some (e_packed e) else None)
              else mret None
  | None => mret None
  end.

(** The shared entry of this function and version within its TTL. *)
Definition shared_hit (s : Supervisor) (fn : Function) : MW (option bytes) :=
  if SerialInvariant (parseTriggerConfig (TriggerConfig fn)) then
    e ← getInvariant (ID fn) (FVersion fn);
    match e with
    | Some e => ok ← fresh s fn (i_renderedAt e);
                mret (if ok : bool then Some (i_packed e) else None)
    | None => mret None
    end
  else mret None.

Section Frames.
Context (box_open : string → bytes → bytes → option bytes).
Context (marshal_request : Request → option bytes).
Context (unmarshal_meta : bytes → option FaasProto.ResponseMeta).
Context (text : failure → string).
Context (rfc3339 : Z → string).
Context (text_le : string → string → bool).

Definition doRender (s : Supervisor) (fn : Function) (rctx : RequestCtx) (force : bool)
    : MW RenderResult :=
  renderOnce box_open marshal_request unmarshal_meta text s fn rctx
    (MkOpts SecretsReal (limits s) false force (TDither (parseTriggerConfig (TriggerConfig fn)))
       (ditherDefault s) true []).

(** The durable frame is stamped with the database's clock. *)
Definition put_lastgood (serial : string) (fnID : Z) (packed : bytes) : MW (result err unit) :=
  now ← reads w_clock;
  attempt (on_db (LastGoodPut now serial fnID packed "ok")).

(** A render that succeeded, for one serial: cached, published when the function
    is serial-invariant, made durable. *)
Definition publish (fn : Function) (serial : string) (packed : bytes) : MW unit :=
  _ ← cache_put serial (ID fn) (FVersion fn) packed;
  if SerialInvariant (parseTriggerConfig (TriggerConfig fn))
  then putInvariant (ID fn) (FVersion fn) packed else mret ().

(** The three stages of the fallback. *)
Definition durable_frame (s : Supervisor) (serial : string) (fn : Function) : MW frame :=
  lg ← attempt (on_db (LastGoodGet serial (ID fn)));
  match lg with
  | Ok lg => mret (MkFrame (lg_packed lg) "stale" true (retryWake s))
  | Err _ => mret (error_frame s)
  end.
Definition fallback (s : Supervisor) (serial : string) (fn : Function) : MW frame :=
  e ← cache_get serial (ID fn);
  match e with
  | Some e => if bool_decide (e_packed e = []) then durable_frame s serial fn
              else mret (MkFrame (e_packed e) "stale" true (retryWake s))
  | None => durable_frame s serial fn
  end.

(** The short-circuits of a request that does not force a render. *)
Definition cached_frame (s : Supervisor) (fn : Function) (serial : string) : MW (option bytes) :=
  hit ← hot_hit s serial fn;
  match hit with
  | Some packed => mret (Some packed)
  | None =>
      hit ← shared_hit s fn;
      match hit with
      | Some packed => _ ← cache_put serial (ID fn) (FVersion fn) packed; mret (Some packed)
      | None => mret None
      end
  end.

Definition buildFrame (s : Supervisor) (fn : Function) (rctx : RequestCtx) (force : bool)
    : MW frame :=
  cached ← (if force then mret None else cached_frame s fn (Serial rctx));
  match cached with
  | Some packed => wake ← wakeDefault s; mret (MkFrame packed "ok" false wake)
  | None =>
      res ← doRender s fn rctx force;
      match RErr res with
      | None =>
          _ ← publish fn (Serial rctx) (Packed res);
          _ ← put_lastgood (Serial rctx) (ID fn) (Packed res);
          wake ← wakeFor s (Meta res);
          mret (MkFrame (Packed res) "ok" false wake)
      | Some _ => fallback s (Serial rctx) fn
      end
  end.

Definition serveFrozen (s : Supervisor) (fn : Function) (rctx : RequestCtx) : MW frame :=
  durable_frame s (Serial rctx) fn.

Definition serveLastGood (s : Supervisor) (fn : Function) (rctx : RequestCtx) : MW frame :=
  lg ← attempt (on_db (LastGoodGet (Serial rctx) (ID fn)));
  match lg with
  | Ok lg => wake ← wakeDefault s;
             mret (MkFrame (lg_packed lg) (lg_status lg)
                     (negb (bool_decide (lg_status lg = "ok"%string))) wake)
  | Err _ => mret (error_frame s)
  end.

(** ** The fan-out *)

Definition channelOf (serial : string) : MW string :=
  ch ← attempt (on_db (query EDb (λ d, Ok (default ""%string (channel_of d !! serial)))));
  mret (match ch with Ok ch => ch | Err _ => ""%string end).

(** One serial of a fan-out; whether it got its frame. *)
Definition fan_one (s : Supervisor) (fn : Function) (trigger : Trigger) (serial : string)
    : MW bool :=
  channel ← channelOf serial;
  now ← nowOrDefault rfc3339 "";
  let rctx := MkRequestCtx serial channel trigger now in
  hit ← shared_hit s fn;
  match hit with
  | Some packed =>
      put ← put_lastgood serial (ID fn) packed;
      match put with
      | Err _ => mret false
      | Ok _ => _ ← cache_put serial (ID fn) (FVersion fn) packed; mret true
      end
  | None =>
      res ← doRender s fn rctx false;
      match RErr res with
      | Some _ => mret false
      | None =>
          put ← put_lastgood serial (ID fn) (Packed res);
          match put with
          | Err _ => mret false
          | Ok _ => _ ← publish fn serial (Packed res); mret true
          end
      end
  end.

Fixpoint fan_serials (s : Supervisor) (fn : Function) (trigger : Trigger)
    (serials : list string) (ok failed : Z) : MW (Z * Z) :=
  match serials with
  | [] => mret (ok, failed)
  | serial :: serials =>
      good ← fan_one s fn trigger serial;
      if good : bool then fan_serials s fn trigger serials (ok + 1) failed
      else fan_serials s fn trigger serials ok (failed + 1)
  end.

Definition fanOut (s : Supervisor) (fn : Function) (trigger : Trigger) : MW (Z * Z) :=
  serials ← attempt (on_db (BoundSerials text_le (ID fn)));
  match serials with
  | Err _ => mret (0, 0)
  | Ok serials => fan_serials s fn trigger serials 0 0
  end.

(** ** The webhook seam: the fan-out it launches in the background *)

Inductive fanout_err := ErrWebhookNotFound | ErrWebhookNotEnabled.

Definition Fanout (name : string) (payload : option bytes)
    : MW (result fanout_err (Function * Trigger)) :=
  fn ← attempt (on_db (LoadFunctionByName name));
  match fn with
  | Err _ => mret (Err ErrWebhookNotFound)
  | Ok fn =>
      if negb (bool_decide (TriggerType fn = FaasStore.TriggerWebhook)) || negb (Enabled fn)
      then mret (Err ErrWebhookNotEnabled)
      else mret (Ok (fn, MkTrigger "webhook" payload))
  end.

(** ** The scheduler *)

Definition timer_type (fn : Function) : option string :=
  let cfg := parseTriggerConfig (TriggerConfig fn) in
  if bool_decide (TriggerType fn = FaasStore.TriggerRender) &&
     bool_decide (Mode cfg = "prerender"%string) then Some "prerender"%string
  else if bool_decide (TriggerType fn = FaasStore.TriggerSchedule) then Some "schedule"%string
  else None.

Definition timer_interval (fn : Function) : Z :=
  let i := IntervalS (parseTriggerConfig (TriggerConfig fn)) in
  i64 ((if i <=? 0 then 900 else i) * Wake.ns_second).

(** One function of a scan; whether it was fanned out. *)
Definition tick_one (s : Supervisor) (now : Z) (sum : FaasStore.Summary) : MW bool :=
  if negb (FaasStore.SumEnabled sum) then mret false
  else
    fn ← attempt (on_db (LoadFunction (FaasStore.SumID sum)));
    match fn with
    | Err _ => mret false
    | Ok fn =>
        match timer_type fn with
        | None => mret false
        | Some ttype =>
            last ← reads (λ w, w_lastRun w !! ID fn);
            if match last with
               | Some last => time_sub now last <? timer_interval fn | None => false end
            then mret false
            else
              _ ← does (λ w, set_lastRun (<[ID fn := now]> (w_lastRun w)) w);
              _ ← fanOut s fn (MkTrigger ttype None);
              mret true
        end
    end.

Fixpoint tick_all (s : Supervisor) (now : Z) (sums : list FaasStore.Summary) : MW (list Z) :=
  match sums with
  | [] => mret []
  | sum :: sums =>
      ran ← tick_one s now sum;
      rest ← tick_all s now sums;
      mret (if ran : bool then FaasStore.SumID sum :: rest else rest)
  end.

(** The ids fanned out in this scan. *)
Definition tickSchedule (s : Supervisor) : MW (list Z) :=
  sums ← attempt (on_db (ListFunctions text_le));
  match sums with
  | Err _ => mret []
  | Ok sums => now ← time_now; tick_all s now sums
  end.

(** ** The dispatch of a device's request *)

Definition Render (s : Supervisor) (serial channel trigger now : string) (force : bool)
    : MW frame :=
  bind ← attempt (on_db (PlRender.ResolveBinding serial));
  match bind with
  | Err _ => mret (error_frame s)
  | Ok bind =>
      if negb (PlRender.PlaylistID bind =? 0) then
        t ← time_now;
        buildPlaylistFrame box_open marshal_request unmarshal_meta text rfc3339 s serial
          (PlRender.PlaylistID bind) t
      else if PlRender.FunctionID bind =? 0 then mret (error_frame s)
      else
        fn ← attempt (on_db (LoadFunction (PlRender.FunctionID bind)));
        match fn with
        | Err _ => mret (error_frame s)
        | Ok fn =>
            now ← nowOrDefault rfc3339 now;
            let rctx := MkRequestCtx serial channel (MkTrigger (triggerOrRender trigger) None)
                          now in
            if negb (Enabled fn) then serveFrozen s fn rctx
            else if syncInline fn then buildFrame s fn rctx force
            else serveLastGood s fn rctx
        end
  end.
End Frames.

End Frame.
