(* ===== verification/FrameSafety.v ===== *)
(** * What a device is served

    The guarantees of the frame path under every fault of the database, the
    worker, the egress proxy and the blob volume: it always returns a
    panel-sized frame, a function's frame only ever reaches the devices it was
    rendered for, and a frozen function is never run. *)

From S2P Require Import Prelude GoLib Bwry FaasProto Db RenderDb FaasStore PlaylistStore PlRender Bindings Wake Supervisor Worker PlaylistFrame Frame.
Import GoLib RenderDb Supervisor Worker PlaylistFrame Frame.
Import PlaylistStore(PlaylistItem, ImageID, Fit, Dither, ItemID).
Import FaasStore(Function, ID, FVersion, TriggerType, TriggerConfig, Enabled).
Import Bindings(tables_ok, ok_lastgood, ok_variant).

Module FrameSafety.

(** ** Operations that always return *)

Definition wp {A} (m : MW A) (w : world) (Q : A → world → Prop) : Prop :=
  ∀ fs, ∃ a w' fs', m w fs = (Ok a, w', fs') ∧ Q a w'.

Lemma wp_ret {A} (a : A) w (Q : A → world → Prop) : Q a w → wp (mret a) w Q.
Proof. intros H fs. by exists a, w, fs. Qed.

Lemma wp_bind {A B} (m : MW A) (k : A → MW B) w Q :
  wp m w (λ a w', wp (k a) w' Q) → wp (m ≫= k) w Q.
Proof.
  intros H fs. destruct (H fs) as (a & w' & fs' & Hm & Hk).
  destruct (Hk fs') as (b & w2 & fs2 & Hb & HQ). exists b, w2, fs2.
  unfold mbind, M_bind. by rewrite Hm.
Qed.

Lemma wp_mono {A} (m : MW A) w (P Q : A → world → Prop) :
  wp m w P → (∀ a w', P a w' → Q a w') → wp m w Q.
Proof.
  intros H HPQ fs. destruct (H fs) as (a & w' & fs' & Hm & HP). exists a, w', fs'. auto.
Qed.

Lemma wp_act {A} (f : world → A * world) w (Q : A → world → Prop) :
  Q (f w).1 (f w).2 → wp (act f) w Q.
Proof. intros H fs. unfold act. destruct (f w) as [a w']. by exists a, w', fs. Qed.

Lemma wp_does f w (Q : unit → world → Prop) : Q () (f w) → wp (does f) w Q.
Proof. apply (wp_act (λ w, ((), f w))). Qed.

Lemma wp_reads {A} (f : world → A) w (Q : A → world → Prop) : Q (f w) w → wp (reads f) w Q.
Proof. apply (wp_act (λ w, (f w, w))). Qed.

(** A store operation whose error the code inspects. *)
Lemma wp_db {A} (m : M db err A) w (Q : result err A → world → Prop) :
  (∀ fs r d' fs', m (w_db w) fs = (r, d', fs') → Q r (set_db d' w)) →
  wp (attempt (on_db m)) w Q.
Proof.
  intros H fs. unfold attempt, on_db, zoom.
  destruct (m (w_db w) fs) as [[r d'] fs'] eqn:Hm. exists r, (set_db d' w), fs'. eauto.
Qed.

Lemma wp_read {A} e (f : db → result err A) w (Q : result err A → world → Prop) :
  Q (Err e) w → Q (f (w_db w)) w → wp (attempt (on_db (query e f))) w Q.
Proof.
  intros He Hf. apply wp_db. intros fs r d' fs' Hq.
  assert (Hd : d' = w_db w ∧ (r = Err e ∨ r = f (w_db w))).
  { unfold query, stmt in Hq. destruct fs as [|[] fs]; simplify_eq; auto. }
  destruct Hd as [-> Hr]. replace (set_db (w_db w) w) with w by (by destruct w).
  by destruct Hr as [->| ->].
Qed.

(** A query of the larger state, as of the blob volume. *)
Lemma wp_query {A} e (f : world → result err A) w (Q : result err A → world → Prop) :
  Q (Err e) w → Q (f w) w → wp (attempt (query e f)) w Q.
Proof.
  intros He Hf fs. unfold attempt, query, stmt. destruct fs as [|[] fs]; by eexists _, w, _.
Qed.

(** Worlds that differ in the clock and the tapes only. *)
Definition same (w w' : world) : Prop :=
  w_db w' = w_db w ∧ w_cache w' = w_cache w ∧ w_inv w' = w_inv w ∧ w_trace w' = w_trace w ∧
  w_flights w' = w_flights w ∧ w_lastRun w' = w_lastRun w.

Lemma wp_time_now w (Q : Z → world → Prop) :
  (∀ t w', same w w' → Q t w') → wp time_now w Q.
Proof. intros H. apply wp_act. by apply H. Qed.

Lemma wp_nowOrDefault f now w (Q : string → world → Prop) :
  (∀ t w', same w w' → Q t w') → wp (nowOrDefault f now) w Q.
Proof.
  intros H. unfold nowOrDefault. case_bool_decide.
  - apply wp_bind, wp_time_now. intros t w' Hw. apply wp_ret. eauto.
  - apply wp_ret. by apply H.
Qed.

Lemma wp_wakeDefault s w (Q : Z → world → Prop) :
  (∀ t w', same w w' → Q t w') → wp (wakeDefault s) w Q.
Proof. intros H. apply wp_bind, wp_time_now. intros t w' Hw. apply wp_ret. eauto. Qed.

Lemma wp_wakeFor s meta w (Q : Z → world → Prop) :
  (∀ t w', same w w' → Q t w') → wp (wakeFor s meta) w Q.
Proof.
  intros H. unfold wakeFor. destruct (FaasProto.NextWakeHint meta).
  - apply wp_ret. by apply H.
  - by apply wp_wakeDefault.
Qed.

Lemma wp_playlistWake s now i cur w (Q : Z → world → Prop) :
  (∀ t w', same w w' → Q t w') → wp (playlistWake s now i cur) w Q.
Proof.
  intros H. unfold playlistWake. cbv zeta. apply wp_bind, wp_act. apply wp_ret. by apply H.
Qed.

Section Safety.
Context (box_open : string → bytes → bytes → option bytes).
Context (marshal_request : Request → option bytes).
Context (unmarshal_meta : bytes → option FaasProto.ResponseMeta).
Context (text : failure → string).
Context (rfc3339 : Z → string).
Context (text_le : string → string → bool).
Context (s : Supervisor) (Herr : zlen (errorFrame s) = packed_len).

(** ** Where a frame comes from *)

(** [packed] is what a successful render of this version of the function gave,
    for this serial or for a version whose frame is published to the fleet. *)
Definition served (tr : list event) (serial : string) (fnID version : Z) (packed : bytes) : Prop :=
  ∃ req c opts, EvDrive req c ∈ tr ∧ RFnID req = fnID ∧ RFnVer req = version ∧
    (Serial (RCtx req) = serial ∨ EvShare fnID version ∈ tr) ∧
    let res := pack_response text opts (RID req)
                 (exchange marshal_request unmarshal_meta req c) in
    RErr res = None ∧ Packed res = packed.

Lemma served_len tr serial fnID v packed :
  served tr serial fnID v packed → zlen packed = packed_len.
Proof.
  intros (req & c & opts & _ & _ & _ & _ & Hn & <-).
  pose proof (pack_response_ok text opts (RID req)
    (exchange marshal_request unmarshal_meta req c)) as H.
  rewrite Hn in H. by destruct H.
Qed.

Lemma served_grow tr evs serial fnID v packed :
  served tr serial fnID v packed → served (tr ++ evs) serial fnID v packed.
Proof.
  intros (req & c & opts & H1 & H2 & H3 & H4 & H5). exists req, c, opts.
  rewrite !elem_of_app. intuition.
Qed.

Lemma served_shared tr serial serial' fnID v packed :
  served tr serial fnID v packed → EvShare fnID v ∈ tr → served tr serial' fnID v packed.
Proof.
  intros (req & c & opts & H1 & H2 & H3 & H4 & H5) Hs. exists req, c, opts. intuition.
Qed.

Record sup_ok (w : world) : Prop := {
  so_tables : tables_ok (w_db w);
  so_cache : ∀ k e, w_cache w !! k = Some e →
    served (w_trace w) k.1 k.2 (e_version e) (e_packed e);
  so_inv : ∀ k e serial, w_inv w !! k = Some e →
    served (w_trace w) serial k.1 k.2 (i_packed e);
  so_lastgood : ∀ k r, lastgood (w_db w) !! k = Some r →
    ∃ v, served (w_trace w) k.1 k.2 v (lg_packed r);
  so_flights : ∀ p, Some (Ok p) ∈ w_flights w → zlen p = packed_len }.

(** A step of the frame path: the invariant holds on, the trace grows, the
    functions and their bindings stay. *)
Definition step_ok (w w' : world) : Prop :=
  sup_ok w' ∧ (∃ evs, w_trace w' = w_trace w ++ evs) ∧ w_lastRun w' = w_lastRun w ∧
  functions (w_db w') = functions (w_db w) ∧ render_binding (w_db w') = render_binding (w_db w).

Lemma quiet_trace w w' : w_trace w' = w_trace w → ∃ evs, w_trace w' = w_trace w ++ evs.
Proof. intros ->. exists []. by rewrite app_nil_r. Qed.

Lemma step_refl w : sup_ok w → step_ok w w.
Proof. intros H. split; [done|]. split; [by apply quiet_trace|done]. Qed.
Lemma step_trans a b c : step_ok a b → step_ok b c → step_ok a c.
Proof.
  intros (_ & [e1 Ha] & ? & ? & ?) (Hc & [e2 Hb] & ? & ? & ?). split; [done|].
  split; [|split_and!; congruence]. exists (e1 ++ e2). by rewrite Hb, Ha, app_assoc.
Qed.

Lemma same_ok w w' : same w w' → sup_ok w → sup_ok w'.
Proof. intros (Hd & Hc & Hi & Ht & Hf & _) []. split; rewrite ?Hd, ?Hc, ?Hi, ?Ht, ?Hf; done. Qed.
Lemma same_step w w' : same w w' → sup_ok w → step_ok w w'.
Proof.
  intros H Hw. split; [by eapply same_ok|]. split; [apply quiet_trace, H|].
  destruct H as (-> & _ & _ & _ & _ & ->). done.
Qed.

(** A step that changes only tables: their invariant, and every durable frame
    still accounted for. *)
Lemma db_ok w d' :
  sup_ok w → tables_ok d' →
  (∀ k r, lastgood d' !! k = Some r → ∃ v, served (w_trace w) k.1 k.2 v (lg_packed r)) →
  sup_ok (set_db d' w).
Proof. intros [] ? ?. by split. Qed.

(** Growing the trace alone keeps the invariant. *)
Lemma kept_ok w w' evs :
  kept w w' → w_trace w' = w_trace w ++ evs → sup_ok w → sup_ok w'.
Proof.
  intros (Hd & Hc & Hi & _ & _ & _ & _ & _ & Hf) Ht []. split; rewrite ?Hd, ?Hc, ?Hi, ?Ht, ?Hf.
  - done.
  - intros k e He. apply served_grow. eauto.
  - intros k e serial He. apply served_grow. eauto.
  - intros k r Hr. destruct (so_lastgood0 k r Hr) as [v ?]. exists v. by apply served_grow.
  - done.
Qed.

(** ** A render *)

Lemma wp_renderOnce fn rctx opts w (Q : RenderResult → world → Prop) :
  sup_ok w →
  (∀ res w', step_ok w w' → kept w w' →
     (RErr res = None →
        zlen (Packed res) = packed_len ∧
        served (w_trace w') (Serial rctx) (ID fn) (FVersion fn) (Packed res)) →
     Q res w') →
  wp (renderOnce box_open marshal_request unmarshal_meta text s fn rctx opts) w Q.
Proof.
  intros Hw HQ fs.
  destruct (renderOnce_runs box_open marshal_request unmarshal_meta text s fn rctx opts w fs)
    as (res & w' & fs' & evs & Hrun & Hk & Ht & Hev).
  exists res, w', fs'. split; [exact Hrun|]. apply HQ; [|done|].
  - split; [by eapply kept_ok|]. split; [by exists evs|].
    destruct Hk as (-> & _ & _ & -> & _). done.
  - intros Hn. destruct Hev as [[? _]|(req & c & Hreq & -> & Hcase)]; [done|].
    assert (Hs : served (w_trace w') (Serial rctx) (ID fn) (FVersion fn)
      (Packed (pack_response text opts (RID req) (exchange marshal_request unmarshal_meta req c)))).
    { exists req, c, opts. destruct Hreq as (? & ? & _ & Hctx & _). rewrite Ht, !elem_of_app.
      split_and!; [|done|done|left; by rewrite Hctx|done].
      right. destruct Hcase as [->| ->]; set_solver. }
    split; [by eapply served_len|done].
Qed.

(** ** The caches *)

Lemma wp_cache_put serial fn v packed w (Q : unit → world → Prop) :
  sup_ok w → served (w_trace w) serial fn v packed →
  (∀ w', step_ok w w' → w_db w' = w_db w → w_trace w' = w_trace w → Q () w') →
  wp (cache_put serial fn v packed) w Q.
Proof.
  intros Hw Hs HQ. apply wp_bind, wp_time_now. intros t w1 H1.
  pose proof (same_ok _ _ H1 Hw) as Hw1. destruct H1 as (Hd & _ & _ & Ht & _ & Hl).
  apply wp_does. apply HQ; simpl; [|done|done].
  split; [|simpl; rewrite Hd; split; [by apply quiet_trace|done]].
  destruct Hw1. split; simpl; try done.
  intros k e [[<- <-]|[_ ?]]%lookup_insert_Some; [by rewrite Ht|eauto].
Qed.

Lemma wp_putInvariant serial fn v packed w (Q : unit → world → Prop) :
  sup_ok w → served (w_trace w) serial fn v packed →
  (∀ w', step_ok w w' → w_db w' = w_db w → Q () w') →
  wp (putInvariant fn v packed) w Q.
Proof.
  intros Hw Hs HQ. apply wp_bind, wp_time_now. intros t w1 H1.
  pose proof (same_ok _ _ H1 Hw) as Hw1. destruct H1 as (Hd & _ & _ & Ht & _ & Hl).
  apply wp_does. apply HQ; simpl; [|done].
  split; [|simpl; rewrite Hd; split; [exists [EvShare fn v]; by rewrite Ht|done]].
  destruct Hw1. split; simpl.
  - done.
  - intros k e He. apply served_grow. eauto.
  - intros k e serial' [[<- <-]|[_ ?]]%lookup_insert_Some; [|apply served_grow; eauto].
    simpl. apply (served_shared _ serial); [apply served_grow; by rewrite Ht|].
    apply elem_of_app. right. by apply list_elem_of_singleton.
  - intros k r Hr. destruct (so_lastgood0 k r Hr) as [v' ?]. exists v'. by apply served_grow.
  - done.
Qed.

Lemma wp_publish fn serial packed w (Q : unit → world → Prop) :
  sup_ok w → served (w_trace w) serial (ID fn) (FVersion fn) packed →
  (∀ w', step_ok w w' → w_db w' = w_db w → Q () w') →
  wp (publish fn serial packed) w Q.
Proof.
  intros Hw Hs HQ. apply wp_bind. eapply wp_cache_put; [done|done|]. intros w1 H1 Hd1 Ht1.
  destruct (SerialInvariant _).
  - eapply wp_putInvariant; [apply H1|by rewrite Ht1|]. intros w2 H2 Hd2.
    apply HQ; [by eapply step_trans|congruence].
  - apply wp_ret. by apply HQ.
Qed.

Lemma wp_put_lastgood serial fn v packed w (Q : result err unit → world → Prop) :
  sup_ok w → served (w_trace w) serial fn v packed →
  (∀ r w', step_ok w w' → w_trace w' = w_trace w → w_cache w' = w_cache w → w_inv w' = w_inv w →
     match r with
     | Ok _ => (∃ lg, lastgood (w_db w') !! (serial, fn) = Some lg ∧ lg_packed lg = packed) ∧
               ∀ k, k ≠ (serial, fn) → lastgood (w_db w') !! k = lastgood (w_db w) !! k
     | Err _ => w_db w' = w_db w
     end → Q r w') →
  wp (put_lastgood serial fn packed) w Q.
Proof.
  intros Hw Hs HQ. apply wp_bind, wp_reads, wp_db. intros fs r d' fs' Hrun.
  assert (Hcase : (∃ e, r = Err e ∧ d' = w_db w) ∨
    (r = Ok () ∧ d' = upd_lastgood (insert (serial, fn) (MkLastGood packed "ok" (w_clock w))) (w_db w))).
  { apply stmt_inv in Hrun as [[-> ->]|Hrun]; [left; eauto|].
    unfold FaasStore.upsert_lastgood in Hrun. repeat case_match; simplify_eq; eauto. }
  destruct Hcase as [(e & -> & ->)|[-> ->]].
  - apply HQ; try done. replace (set_db (w_db w) w) with w by (by destruct w). by apply step_refl.
  - apply HQ; try done.
    + split; [|split; [by apply quiet_trace|done]]. apply db_ok; [done| |].
      * pose proof (Bindings.ok_upsert_lastgood (w_clock w) serial fn packed "ok" (w_db w)
          (so_tables w Hw)) as Hok.
        unfold FaasStore.upsert_lastgood in Hok.
        assert (Hl : zlen packed = packed_len) by (by eapply served_len).
        destruct (so_tables w Hw). split; simpl; try done.
        intros k lg [[<- <-]|[_ ?]]%lookup_insert_Some; eauto.
      * intros k lg. simpl. intros [[<- <-]|[_ Hr]]%lookup_insert_Some; [by exists v|].
        by eapply so_lastgood.
    + simpl. split; [|intros k Hk; by rewrite lookup_insert_ne].
      eexists. by rewrite lookup_insert_eq.
Qed.

Lemma wp_fresh fn t w (Q : bool → world → Prop) :
  (∀ b w', same w w' → Q b w') → wp (fresh s fn t) w Q.
Proof. intros H. apply wp_bind, wp_time_now. intros t' w' Hw. apply wp_ret. eauto. Qed.

Lemma same_refl w : same w w.
Proof. done. Qed.

Lemma wp_hot_hit serial fn w (Q : option bytes → world → Prop) :
  sup_ok w →
  (∀ r w', same w w' →
     (∀ p, r = Some p → served (w_trace w) serial (ID fn) (FVersion fn) p) → Q r w') →
  wp (hot_hit s serial fn) w Q.
Proof.
  intros Hw HQ. apply wp_bind, wp_reads. destruct (w_cache w !! (serial, ID fn)) as [e|] eqn:He.
  2: { apply wp_ret, HQ; [apply same_refl|done]. }
  destruct (Z.eqb_spec (e_version e) (FVersion fn)) as [Hv|].
  2: { apply wp_ret, HQ; [apply same_refl|done]. }
  apply wp_bind, wp_fresh. intros b w' Hs. apply wp_ret, HQ; [done|].
  intros p. destruct b; [|done]. intros [= <-]. rewrite <-Hv.
  exact (so_cache w Hw (serial, ID fn) e He).
Qed.

Lemma wp_shared_hit fn serial w (Q : option bytes → world → Prop) :
  sup_ok w →
  (∀ r w', same w w' →
     (∀ p, r = Some p → served (w_trace w) serial (ID fn) (FVersion fn) p) → Q r w') →
  wp (shared_hit s fn) w Q.
Proof.
  intros Hw HQ. unfold shared_hit. destruct (SerialInvariant _).
  2: { apply wp_ret, HQ; [apply same_refl|done]. }
  apply wp_bind, wp_reads. destruct (w_inv w !! (ID fn, FVersion fn)) as [e|] eqn:He.
  2: { apply wp_ret, HQ; [apply same_refl|done]. }
  apply wp_bind, wp_fresh. intros b w' Hs. apply wp_ret, HQ; [done|].
  intros p. destruct b; [|done]. intros [= <-]. exact (so_inv w Hw (ID fn, FVersion fn) e serial He).
Qed.

(** ** The functions' frames *)

(** The answer for a device bound to a function: the embedded error frame, or a
    frame of that function. *)
Definition of_function (tr : list event) (serial : string) (fnID : Z) (f : frame) : Prop :=
  zlen (f_packed f) = packed_len ∧
  ((f_packed f = errorFrame s ∧ f_status f = "error"%string ∧ f_stale f = true) ∨
   ∃ v, served tr serial fnID v (f_packed f)).

Lemma of_function_error tr serial fnID : of_function tr serial fnID (error_frame s).
Proof. split; [exact Herr|by left]. Qed.
Lemma of_function_served tr serial fnID v f :
  served tr serial fnID v (f_packed f) → of_function tr serial fnID f.
Proof. intros H. split; [by eapply served_len|right; eauto]. Qed.

Abbreviation frame_post w serial fnID :=
  (λ f w', step_ok w w' ∧ of_function (w_trace w') serial fnID f).

Lemma wp_durable_frame serial fn w :
  sup_ok w →
  wp (durable_frame s serial fn) w (λ f w', w' = w ∧ of_function (w_trace w) serial (ID fn) f).
Proof.
  intros Hw. apply wp_bind. unfold FaasStore.LastGoodGet. apply wp_read.
  { apply wp_ret. split; [done|apply of_function_error]. }
  destruct (lastgood (w_db w) !! (serial, ID fn)) as [lg|] eqn:Hlg; apply wp_ret; (split; [done|]).
  - destruct (so_lastgood w Hw _ _ Hlg) as [v Hv]. by eapply of_function_served.
  - apply of_function_error.
Qed.

Lemma wp_serveLastGood fn rctx w :
  sup_ok w →
  wp (serveLastGood s fn rctx) w
    (λ f w', same w w' ∧ of_function (w_trace w') (Serial rctx) (ID fn) f).
Proof.
  intros Hw. apply wp_bind. unfold FaasStore.LastGoodGet. apply wp_read.
  { apply wp_ret. split; [done|apply of_function_error]. }
  destruct (lastgood (w_db w) !! (Serial rctx, ID fn)) as [lg|] eqn:Hlg.
  - apply wp_bind, wp_wakeDefault. intros t w' H. apply wp_ret. split; [done|].
    destruct (so_lastgood w Hw _ _ Hlg) as [v Hv].
    assert (Ht : w_trace w' = w_trace w) by apply H. rewrite Ht. by eapply of_function_served.
  - apply wp_ret. split; [done|apply of_function_error].
Qed.

Lemma wp_fallback serial fn w :
  sup_ok w →
  wp (fallback s serial fn) w (λ f w', w' = w ∧ of_function (w_trace w) serial (ID fn) f).
Proof.
  intros Hw. apply wp_bind, wp_reads.
  destruct (w_cache w !! (serial, ID fn)) as [e|] eqn:He; [|by apply wp_durable_frame].
  case_bool_decide; [by apply wp_durable_frame|]. apply wp_ret. split; [done|].
  eapply of_function_served, (so_cache w Hw (serial, ID fn) e He).
Qed.

Lemma wp_cached_frame fn serial w (Q : option bytes → world → Prop) :
  sup_ok w →
  (∀ r w', step_ok w w' → w_db w' = w_db w → w_trace w' = w_trace w →
     (∀ p, r = Some p → served (w_trace w') serial (ID fn) (FVersion fn) p) → Q r w') →
  wp (cached_frame s fn serial) w Q.
Proof.
  intros Hw HQ. apply wp_bind, wp_hot_hit; [done|]. intros [p|] w1 H1 Hp.
  { apply wp_ret, HQ; [by apply same_step|apply H1|apply H1|].
    intros ? [= <-]. assert (w_trace w1 = w_trace w) as -> by apply H1. by apply Hp. }
  pose proof (same_ok _ _ H1 Hw) as Hw1.
  apply wp_bind, (wp_shared_hit _ serial); [done|]. intros r w2 H2 Hp2.
  pose proof (same_ok _ _ H2 Hw1) as Hw2.
  assert (Ht : w_trace w2 = w_trace w ∧ w_trace w2 = w_trace w1 ∧ w_db w2 = w_db w).
  { destruct H1 as (? & _ & _ & ? & _), H2 as (? & _ & _ & ? & _). split_and!; congruence. }
  assert (Hstep : step_ok w w2) by (eapply step_trans; apply same_step; done).
  destruct Ht as (Ht & Ht1 & Hd). destruct r as [p|].
  - apply wp_bind, wp_cache_put; [done|rewrite Ht1; by apply Hp2|].
    intros w3 H3 Hd3 Ht3. apply wp_ret, HQ; [by eapply step_trans|congruence|congruence|].
    intros ? [= <-]. rewrite Ht3, Ht1. by apply Hp2.
  - by apply wp_ret, HQ.
Qed.

Lemma wp_buildFrame fn rctx force w :
  sup_ok w →
  wp (buildFrame box_open marshal_request unmarshal_meta text s fn rctx force) w
    (frame_post w (Serial rctx) (ID fn)).
Proof.
  intros Hw. apply wp_bind.
  assert (Hcached : wp (if force then mret None else cached_frame s fn (Serial rctx)) w
    (λ r w', step_ok w w' ∧
       ∀ p, r = Some p → served (w_trace w') (Serial rctx) (ID fn) (FVersion fn) p)).
  { destruct force; [apply wp_ret; split; [by apply step_refl|done]|].
    apply wp_cached_frame; [done|]. auto. }
  eapply wp_mono; [exact Hcached|]. intros [p|] w1 [H1 Hp]; simpl.
  { apply wp_bind, wp_wakeDefault. intros t w2 H2. apply wp_ret.
    split; [eapply step_trans; [done|apply same_step; [done|apply H1]]|].
    assert (w_trace w2 = w_trace w1) as -> by apply H2.
    eapply of_function_served. by apply Hp. }
  apply wp_bind. eapply wp_renderOnce; [apply H1|]. intros res w2 H2 _ Hres.
  assert (H12 : step_ok w w2) by (by eapply step_trans).
  destruct (RErr res).
  { eapply wp_mono; [apply wp_fallback; apply H2|]. intros f w3 [-> Hf]. by split. }
  destruct (Hres eq_refl) as [_ Hs].
  apply wp_bind. eapply wp_publish; [apply H2|exact Hs|]. intros w3 H3 _.
  assert (Hs3 : served (w_trace w3) (Serial rctx) (ID fn) (FVersion fn) (Packed res)).
  { destruct H3 as (_ & [evs ->] & _). by apply served_grow. }
  apply wp_bind. eapply wp_put_lastgood; [apply H3|exact Hs3|]. intros r w4 H4 Ht4 _ _ _.
  apply wp_bind, wp_wakeFor. intros t w5 H5. apply wp_ret. split.
  - eapply step_trans; [exact H12|]. eapply step_trans; [exact H3|].
    eapply step_trans; [exact H4|]. apply same_step; [done|apply H4].
  - assert (w_trace w5 = w_trace w4) as -> by apply H5. rewrite Ht4. by eapply of_function_served.
Qed.

(** ** The playlist path *)

Lemma wp_LoadBlob id w (Q : result err bytes → world → Prop) :
  (∀ r, Q r w) → wp (attempt (LoadBlob id)) w Q.
Proof.
  intros HQ fs. unfold attempt, LoadBlob, on_db, zoom, mbind, M_bind.
  assert (Hi : ∃ r fs', GetImage id (w_db w) fs = (r, w_db w, fs')).
  { unfold GetImage, query, stmt. destruct fs as [|[] fs]; by eexists _, _. }
  destruct Hi as (r & fs1 & ->). replace (set_db (w_db w) w) with w by (by destruct w).
  destruct r as [img|e]; [|by eexists _, w, _].
  unfold query, stmt. destruct fs1 as [|[] fs1]; by eexists _, w, _.
Qed.

Lemma wp_VariantPut sha fit dither packed w (Q : result err unit → world → Prop) :
  sup_ok w → (∀ r w', step_ok w w' → Q r w') →
  wp (attempt (on_db (PlRender.VariantPut sha fit dither packed))) w Q.
Proof.
  intros Hw HQ. apply wp_db. intros fs r d' fs' Hrun. apply HQ.
  assert (Hd : d' = w_db w ∨ d' = (PlRender.put_variant (sha, fit, dither) packed (w_db w)).2).
  { apply stmt_inv in Hrun as [[_ ->]|Hrun]; [by left|right; by rewrite Hrun]. }
  assert (Hput : ∀ k p d, lastgood (PlRender.put_variant k p d).2 = lastgood d ∧
    functions (PlRender.put_variant k p d).2 = functions d ∧
    render_binding (PlRender.put_variant k p d).2 = render_binding d).
  { intros. unfold PlRender.put_variant. by repeat case_match. }
  assert (Hlg : lastgood d' = lastgood (w_db w)) by (destruct Hd as [->| ->]; [done|apply Hput]).
  split; [|split; [by apply quiet_trace|split; [done|]]].
  2: { destruct Hd as [->| ->]; [done|apply Hput]. }
  apply db_ok; [done| |rewrite Hlg; apply so_lastgood; done].
  destruct Hd as [->| ->]; [apply Hw|]. apply Bindings.ok_put_variant, Hw.
Qed.

Abbreviation sized w := (λ r w', step_ok w w' ∧
  match r with Ok p => zlen p = packed_len | Err _ => True end).

Lemma wp_render_variant img item w :
  sup_ok w →
  wp (render_variant box_open marshal_request unmarshal_meta text rfc3339 s img item) w (sized w).
Proof.
  intros Hw. assert (Hr := step_refl w Hw). apply wp_bind. unfold PlRender.VariantGet.
  assert (Hmiss : wp (blob ← attempt (LoadBlob (ImgID img));
      match blob with
      | Err _ => mret (Err "load blob"%string)
      | Ok blob =>
          res ← doRenderPlaylist box_open marshal_request unmarshal_meta text rfc3339 s
                  (playlistSource (Fit item)) blob (Dither item);
          match RErr res with
          | Some e => mret (Err ("render " ++ FaasProto.Kind e)%string)
          | None =>
              put ← attempt (on_db (PlRender.VariantPut (Sha256 img) (Fit item) (Dither item)
                                      (Packed res)));
              match put with
              | Err _ => mret (Err "variant put"%string)
              | Ok _ => mret (Ok (Packed res))
              end
          end
      end) w (sized w)).
  { apply wp_bind, wp_LoadBlob. intros [blob|]; [|by apply wp_ret].
    apply wp_bind. unfold doRenderPlaylist. apply wp_bind, wp_nowOrDefault. intros now w1 H1.
    pose proof (same_step _ _ H1 Hw) as Hs1.
    eapply wp_renderOnce; [apply Hs1|]. intros res w2 H2 _ Hres.
    assert (H12 : step_ok w w2) by (by eapply step_trans).
    destruct (RErr res); [by apply wp_ret|]. destruct (Hres eq_refl) as [Hlen _].
    apply wp_bind. eapply wp_VariantPut; [apply H2|]. intros put w3 H3.
    assert (H13 : step_ok w w3) by (by eapply step_trans).
    destruct put; by apply wp_ret. }
  apply wp_read; [exact Hmiss|].
  destruct (variants (w_db w) !! _) as [p|] eqn:Hp; [|exact Hmiss].
  apply wp_ret. split; [done|]. eapply ok_variant; [apply Hw|exact Hp].
Qed.

Lemma wp_packedVariant img item w :
  sup_ok w →
  wp (packedVariant box_open marshal_request unmarshal_meta text rfc3339 s img item) w (sized w).
Proof.
  intros Hw. apply wp_bind. unfold PlRender.VariantGet.
  assert (Hmiss : wp (joined ← next_flight;
      match joined with
      | Some outcome => mret outcome
      | None => render_variant box_open marshal_request unmarshal_meta text rfc3339 s img item
      end) w (sized w)).
  { apply wp_bind, wp_act. simpl. set (w1 := set_flights _ w).
    assert (H1 : step_ok w w1).
    { split; [|split; [by apply quiet_trace|done]]. destruct Hw. split; try done.
      intros p Hp. apply so_flights0. simpl in Hp. destruct (w_flights w); [done|by right]. }
    clearbody w1. destruct (w_flights w) as [|[o|] l] eqn:Hf; simpl.
    - eapply wp_mono; [apply wp_render_variant, H1|]. intros r w2 [H2 ?].
      split; [exact (step_trans _ _ _ H1 H2)|done].
    - apply wp_ret. split; [done|]. destruct o as [p|]; [|done].
      apply (so_flights w Hw). rewrite Hf. by left.
    - eapply wp_mono; [apply wp_render_variant, H1|]. intros r w2 [H2 ?].
      split; [exact (step_trans _ _ _ H1 H2)|done]. }
  apply wp_read; [exact Hmiss|].
  destruct (variants (w_db w) !! _) as [p|] eqn:Hp; [|exact Hmiss].
  apply wp_ret. split; [by apply step_refl|]. eapply ok_variant; [apply Hw|exact Hp].
Qed.

Lemma wp_ResolveCursor serial pl interval n now w (Q : result err PlRender.Cursor → world → Prop) :
  sup_ok w → 0 < n →
  (∀ r w', step_ok w w' → match r with Ok c => 0 ≤ PlRender.Index c < n | Err _ => True end →
     Q r w') →
  wp (attempt (on_db (PlRender.ResolveCursor serial pl interval n now))) w Q.
Proof.
  intros Hw Hn HQ. apply wp_db. intros fs r d' fs' Hrun.
  destruct (PlRender.ResolveCursor_spec serial pl interval n now (w_db w) fs Hn)
    as (r1 & d1 & fs1 & Hrun1 & Hr & _). rewrite Hrun in Hrun1. simplify_eq.
  assert (Hd : d1 = w_db w ∨ ∃ f, d1 = upd_cursors f (w_db w)).
  { destruct r1; [|by left].
    destruct (PlRender.resolve_only_cursors serial pl interval n now (w_db w)) as [H|[f H]];
      rewrite <-Hr in H; simpl in H; eauto. }
  apply HQ; [|destruct r1; [by eapply PlRender.resolve_index|done]].
  split; [|split; [by apply quiet_trace|by destruct Hd as [->|[f ->]]]].
  destruct Hd as [->|[f ->]].
  - apply db_ok; [done|apply Hw|by apply so_lastgood].
  - apply db_ok; [done|apply Bindings.ok_cursors, Hw|by apply so_lastgood].
Qed.

(** The rotation order indexes the items. *)
Lemma rotation_item mode epoch serial pl (its : list PlaylistItem) i :
  0 ≤ i < zlen its →
  ∃ item, (j ← PlRender.RotationOrder mode epoch serial pl (ItemID <$> its) !! Z.to_nat i; its !! j) =
    Some item.
Proof.
  intros Hi. pose proof (PlRender.rotation_perm mode epoch serial pl (ItemID <$> its)) as Hp.
  rewrite length_fmap in Hp.
  destruct (lookup_lt_is_Some_2 (PlRender.RotationOrder mode epoch serial pl (ItemID <$> its)) (Z.to_nat i))
    as [j Hj].
  { apply Permutation_length in Hp. rewrite Hp, length_seq. unfold zlen in Hi. lia. }
  rewrite Hj. simpl. apply lookup_lt_is_Some_2.
  apply list_elem_of_lookup_2 in Hj. rewrite Hp in Hj. by apply elem_of_seq in Hj as [_ ?].
Qed.

Lemma wp_buildPlaylistFrame serial pl now w :
  sup_ok w →
  wp (buildPlaylistFrame box_open marshal_request unmarshal_meta text rfc3339 s serial pl now) w
    (λ f w', step_ok w w' ∧ zlen (f_packed f) = packed_len).
Proof.
  intros Hw. assert (Hr := step_refl w Hw). apply wp_bind. unfold PlaylistStore.GetPlaylist.
  apply wp_read; [by apply wp_ret|].
  destruct (playlists (w_db w) !! pl) as [row|]; [|by apply wp_ret].
  apply wp_bind. unfold PlaylistStore.RotationItems. apply wp_read; [by apply wp_ret|].
  destruct (PlaylistStore.scan_items _) as [|it its]; [by apply wp_ret|]. cbv zeta.
  apply wp_bind, wp_ResolveCursor; [done|rewrite zlen_cons; pose proof (zlen_nonneg its); lia|].
  intros [cur|] w1 H1 Hi; [|by apply wp_ret].
  destruct (rotation_item (PlaylistStore.OrderMode (PlaylistStore.scanPlaylist pl row))
    (PlaylistStore.ShuffleEpoch (PlaylistStore.scanPlaylist pl row)) serial pl (it :: its)
    (PlRender.Index cur) Hi) as [item ->].
  apply wp_bind. unfold GetImage.
  assert (Hwake : ∀ w', step_ok w w' → ∀ p st b, zlen p = packed_len →
    wp (wk ← playlistWake s now (i64 (PlaylistStore.IntervalS (PlaylistStore.scanPlaylist pl row) *
          Wake.ns_second)) cur; mret (MkFrame p st b wk)) w'
      (λ f w', step_ok w w' ∧ zlen (f_packed f) = packed_len)).
  { intros w' Hw' p st b Hp. apply wp_bind, wp_playlistWake. intros t w2 H2. apply wp_ret.
    split; [|done]. eapply step_trans; [done|]. apply same_step; [done|apply Hw']. }
  apply wp_read; [by apply Hwake|].
  destruct (images (w_db w1) !! _) as [row'|]; [|by apply Hwake].
  apply wp_bind. eapply wp_mono; [apply wp_packedVariant, H1|]. intros [p|] w2 [H2 Hp].
  - apply Hwake; [by eapply step_trans|done].
  - apply wp_ret. split; [by eapply step_trans|done].
Qed.

(** ** A device's request *)

(** The answer a device is entitled to, from what it is bound to when it asks. *)
Definition entitled (w : world) (serial : string) (tr : list event) (f : frame) : Prop :=
  zlen (f_packed f) = packed_len ∧
  match playlist_binding (w_db w) !! serial, render_binding (w_db w) !! serial with
  | Some _, _ => True
  | None, Some fnID => of_function tr serial fnID f
  | None, None => f = error_frame s
  end.

Lemma wp_Render serial channel trigger now force w :
  sup_ok w →
  wp (Render box_open marshal_request unmarshal_meta text rfc3339 s serial channel trigger now
        force) w
    (λ f w', step_ok w w' ∧
       (entitled w serial (w_trace w') f ∨ f = error_frame s)).
Proof.
  intros Hw. assert (Hr := step_refl w Hw). apply wp_bind. unfold PlRender.ResolveBinding.
  apply wp_read; [by apply wp_ret; auto|]. unfold entitled.
  destruct (playlist_binding (w_db w) !! serial) as [pl|] eqn:Hpl; simpl.
  - assert (Hpos : 0 < pl).
    { destruct (Bindings.ok_fresh_playlist _ (so_tables w Hw)) as [_ Hf].
      destruct (Hf pl (Bindings.ok_playlist _ (so_tables w Hw) _ _ Hpl)). lia. }
    destruct (Z.eqb_spec pl 0); [lia|]. simpl.
    apply wp_bind, wp_time_now. intros t w1 H1. pose proof (same_step _ _ H1 Hw) as Hs1.
    eapply wp_mono; [apply wp_buildPlaylistFrame, Hs1|]. intros f w2 [H2 Hf].
    split; [by eapply step_trans|by left].
  - destruct (render_binding (w_db w) !! serial) as [fnID|] eqn:Hfn; simpl.
    2: { apply wp_ret; auto. }
    assert (Hpos : 0 < fnID).
    { destruct (Bindings.ok_fresh_function _ (so_tables w Hw)) as [_ Hf].
      destruct (Hf fnID (Bindings.ok_function _ (so_tables w Hw) _ _ Hfn)). lia. }
    destruct (Z.eqb_spec fnID 0); [lia|]. simpl.
    apply wp_bind. unfold FaasStore.LoadFunction. apply wp_read; [by apply wp_ret; auto|].
    destruct (functions (w_db w) !! fnID) as [row|]; [|by apply wp_ret; auto].
    apply wp_bind, wp_nowOrDefault. intros now' w1 H1. pose proof (same_step _ _ H1 Hw) as Hs1.
    assert (Hgoal : ∀ f w', step_ok w1 w' ∧ of_function (w_trace w') serial fnID f →
      step_ok w w' ∧ (zlen (f_packed f) = packed_len ∧ of_function (w_trace w') serial fnID f ∨
                      f = error_frame s)).
    { intros f w' [Hs Hf]. split; [by eapply step_trans|]. left. split; [apply Hf|done]. }
    destruct (negb _).
    { eapply wp_mono; [apply wp_durable_frame, Hs1|]. intros f w2 [-> Hf]. apply Hgoal.
      split; [apply step_refl, Hs1|done]. }
    destruct (syncInline _).
    + eapply wp_mono; [apply wp_buildFrame, Hs1|]. exact Hgoal.
    + eapply wp_mono; [apply wp_serveLastGood, Hs1|]. intros f w2 [H2 Hf]. apply Hgoal.
      split; [apply same_step; [done|apply Hs1]|done].
Qed.

(** ** The fan-out *)

(** What a fan-out does to one serial. *)
Definition fanned (fn : Function) (serial : string) (good : bool) (w w' : world) : Prop :=
  if good then ∃ lg, lastgood (w_db w') !! (serial, ID fn) = Some lg ∧
                     served (w_trace w') serial (ID fn) (FVersion fn) (lg_packed lg)
  else lastgood (w_db w') !! (serial, ID fn) = lastgood (w_db w) !! (serial, ID fn).

Definition others_kept (fn : Function) (P : string → Prop) (w w' : world) : Prop :=
  ∀ k, k.2 ≠ ID fn ∨ P k.1 → lastgood (w_db w') !! k = lastgood (w_db w) !! k.

Lemma wp_fan_one fn trigger serial w :
  sup_ok w →
  wp (fan_one box_open marshal_request unmarshal_meta text rfc3339 s fn trigger serial) w
    (λ good w', step_ok w w' ∧ fanned fn serial good w w' ∧
                others_kept fn (λ x, x ≠ serial) w w').
Proof.
  intros Hw. apply wp_bind.
  assert (Hch : wp (channelOf serial) w (λ _ w', w' = w)).
  { apply wp_bind, wp_read; by apply wp_ret. }
  eapply wp_mono; [exact Hch|]. intros ch ? ->.
  apply wp_bind, wp_nowOrDefault. intros now w1 H1. pose proof (same_ok _ _ H1 Hw) as Hw1.
  cbv zeta. apply wp_bind, (wp_shared_hit _ serial); [done|]. intros hit w2 H2 Hp.
  pose proof (same_ok _ _ H2 Hw1) as Hw2.
  assert (Hstep : step_ok w w2) by (eapply step_trans; apply same_step; done).
  assert (Hd : w_db w2 = w_db w) by (destruct H1 as [? _], H2 as [? _]; congruence).
  assert (Ht : w_trace w2 = w_trace w1) by apply H2.
  (* a frame that is made durable, and what follows *)
  assert (Hput : ∀ (packed : bytes) (after : MW unit) w3, step_ok w w3 → w_db w3 = w_db w →
    served (w_trace w3) serial (ID fn) (FVersion fn) packed →
    (∀ w4, step_ok w w4 → served (w_trace w4) serial (ID fn) (FVersion fn) packed →
       wp after w4 (λ _ w5, step_ok w4 w5 ∧ w_db w5 = w_db w4)) →
    wp (put ← put_lastgood serial (ID fn) packed;
        match put with Err _ => mret false | Ok _ => _ ← after; mret true end) w3
      (λ good w', step_ok w w' ∧ fanned fn serial good w w' ∧
                  others_kept fn (λ x, x ≠ serial) w w')).
  { intros packed after w3 H3 Hd3 Hs3 Hafter.
    apply wp_bind. eapply wp_put_lastgood; [apply H3|exact Hs3|]. intros r w4 H4 Ht4 _ _ Hr.
    assert (H04 : step_ok w w4) by (by eapply step_trans).
    destruct r as [[]|e].
    - assert (Hs4 : served (w_trace w4) serial (ID fn) (FVersion fn) packed) by by rewrite Ht4.
      apply wp_bind. eapply wp_mono; [by apply Hafter|]. intros _ w5 [H5 Hd5]. apply wp_ret.
      destruct Hr as [(lg & Hlg & Hpk) Hother]. split; [by eapply step_trans|]. split.
      + exists lg. rewrite Hd5. split; [done|]. rewrite Hpk.
        destruct H5 as (_ & [evs ->] & _). by apply served_grow.
      + intros k Hk. rewrite Hd5, Hother, Hd3; [done|]. intros ->. simpl in Hk.
        by destruct Hk.
    - apply wp_ret. split; [done|]. unfold fanned, others_kept. rewrite Hr, Hd3. done. }
  destruct hit as [packed|].
  - apply Hput; [done|done|rewrite Ht; by apply Hp|]. intros w4 H4 Hs4.
    eapply wp_cache_put; [apply H4|exact Hs4|]. auto.
  - apply wp_bind. eapply wp_renderOnce; [apply Hstep|]. intros res w3 H3 Hk Hres.
    assert (H03 : step_ok w w3) by (by eapply step_trans).
    assert (Hd3 : w_db w3 = w_db w) by (destruct Hk as [-> _]; done).
    destruct (RErr res).
    + apply wp_ret. split; [done|]. unfold fanned, others_kept. by rewrite Hd3.
    + destruct (Hres eq_refl) as [_ Hs]. apply Hput; [done|done|exact Hs|].
      intros w4 H4 Hs4. eapply wp_publish; [apply H4|exact Hs4|]. auto.
Qed.

Definition count (b : bool) (l : list bool) : Z := zlen (List.filter (Bool.eqb b) l).

Lemma count_cons b c l : count b (c :: l) = (if Bool.eqb b c then 1 else 0) + count b l.
Proof. unfold count. simpl. destruct (Bool.eqb b c); [apply zlen_cons|done]. Qed.

(** The outcome of a fan-out over [serials]. *)
Definition fan_result (fn : Function) (serials : list string) (good : list bool) (w w' : world)
    : Prop :=
  length good = length serials ∧
  (∀ i serial b, serials !! i = Some serial → good !! i = Some b → fanned fn serial b w w') ∧
  others_kept fn (λ x, x ∉ serials) w w'.

Lemma wp_fan_serials fn trigger serials ok failed w :
  NoDup serials → sup_ok w →
  wp (fan_serials box_open marshal_request unmarshal_meta text rfc3339 s fn trigger serials
        ok failed) w
    (λ r w', step_ok w w' ∧ ∃ good, fan_result fn serials good w w' ∧
       r = (ok + count true good, failed + count false good)).
Proof.
  intros Hnd. revert ok failed w. induction Hnd as [|serial serials Hx Hnd IH]; intros ok failed w Hw.
  { apply wp_ret. split; [by apply step_refl|]. exists []. split; [|apply (f_equal2 pair); unfold count, zlen; simpl; lia].
    split; [done|]. split; [by intros i ? ? Hi|by intros k]. }
  cbn [fan_serials]. apply wp_bind. eapply wp_mono; [by apply wp_fan_one|].
  intros b w1 (H1 & Hb & Ho).
  assert (Hrest : ∀ o f, wp (fan_serials box_open marshal_request unmarshal_meta text rfc3339 s fn
      trigger serials o f) w1
    (λ r w', step_ok w w' ∧ ∃ good, fan_result fn (serial :: serials) (b :: good) w w' ∧
       r = (o + count true good, f + count false good))).
  { intros o f. eapply wp_mono; [apply IH, H1|]. intros r w' (H2 & good & (Hl & Hf & Hk) & ->).
    split; [by eapply step_trans|]. exists good. split; [|done].
    split; [simpl; by rewrite Hl|]. split.
    - intros [|i] x c Hi Hc; simpl in *; simplify_eq.
      + assert (Hkeep : lastgood (w_db w') !! (x, ID fn) = lastgood (w_db w1) !! (x, ID fn))
          by (apply Hk; by right).
        unfold fanned in *. destruct c; [|by rewrite Hkeep].
        destruct Hb as (lg & Hlg & Hs). exists lg. split; [by rewrite Hkeep|].
        destruct H2 as (_ & [evs ->] & _). by apply served_grow.
      + specialize (Hf i x c Hi Hc). unfold fanned in *. destruct c; [done|].
        rewrite Hf. apply Ho. right. simpl. intros ->. apply Hx.
        by eapply list_elem_of_lookup_2.
    - intros k Hkey. trans (lastgood (w_db w1) !! k); [apply Hk|apply Ho].
      + destruct Hkey as [?|Hkey]; [by left|right]. intros ?. apply Hkey. by right.
      + destruct Hkey as [?|Hkey]; [by left|right]. intros Heq. apply Hkey. rewrite Heq. left. }
  destruct b; (eapply wp_mono; [apply Hrest|]); intros r w' (H2 & good & Hg & ->);
    (split; [done|]); eexists; (split; [exact Hg|]); rewrite !count_cons; simpl; apply (f_equal2 pair); lia.
Qed.

Definition bound_serials (w : world) (fnID : Z) : list string :=
  merge_sort (FaasStore.serial_le text_le)
    ((filter (λ kv : string * Z, kv.2 = fnID) (map_to_list (render_binding (w_db w)))).*1).

Lemma bound_serials_NoDup w fnID : NoDup (bound_serials w fnID).
Proof.
  unfold bound_serials. rewrite merge_sort_Permutation.
  eapply sublist_NoDup; [apply (NoDup_fst_map_to_list (render_binding (w_db w)))|].
  apply fmap_sublist, sublist_filter.
Qed.

Lemma elem_of_bound_serials w fnID serial :
  serial ∈ bound_serials w fnID ↔ render_binding (w_db w) !! serial = Some fnID.
Proof.
  unfold bound_serials. rewrite merge_sort_Permutation, list_elem_of_fmap. split.
  - intros ([x y] & -> & [Hy Hx]%list_elem_of_filter). simpl in *. subst.
    by apply elem_of_map_to_list.
  - intros H. exists (serial, fnID). split; [done|]. apply list_elem_of_filter.
    split; [done|by apply elem_of_map_to_list].
Qed.

(** Either the list could not be read and nothing happened, or every bound
    serial was tried. *)
Lemma wp_fanOut fn trigger w :
  sup_ok w →
  wp (fanOut box_open marshal_request unmarshal_meta text rfc3339 text_le s fn trigger) w
    (λ r w', step_ok w w' ∧
       ((r = (0, 0) ∧ w' = w) ∨
        ∃ good, fan_result fn (bound_serials w (ID fn)) good w w' ∧
                r = (count true good, count false good))).
Proof.
  intros Hw. apply wp_bind. unfold FaasStore.BoundSerials. apply wp_read.
  { apply wp_ret. split; [by apply step_refl|by left]. }
  eapply wp_mono; [apply wp_fan_serials; [apply bound_serials_NoDup|done]|].
  intros r w' (H & good & Hg & ->). split; [done|]. right. by exists good.
Qed.

(** ** The scheduler *)

(** What lets a scan at [now] run function [id]. *)
Definition due (w : world) (now id : Z) : Prop :=
  ∃ row, functions (w_db w) !! id = Some row ∧
    is_Some (timer_type (FaasStore.scanFunction id row)) ∧
    ∀ last, w_lastRun w !! id = Some last →
      timer_interval (FaasStore.scanFunction id row) ≤ PlRender.time_sub now last.

Definition sched_ok (w w' : world) : Prop :=
  sup_ok w' ∧ functions (w_db w') = functions (w_db w).

Lemma wp_tick_one now sum w :
  sup_ok w →
  wp (tick_one box_open marshal_request unmarshal_meta text rfc3339 text_le s now sum) w
    (λ ran w', sched_ok w w' ∧
       if ran : bool then FaasStore.SumEnabled sum = true ∧ due w now (FaasStore.SumID sum) ∧
            w_lastRun w' = <[FaasStore.SumID sum := now]> (w_lastRun w)
       else w_lastRun w' = w_lastRun w ∧ w_trace w' = w_trace w).
Proof.
  intros Hw. unfold tick_one. destruct (FaasStore.SumEnabled sum); simpl; [|by apply wp_ret].
  apply wp_bind. unfold FaasStore.LoadFunction. apply wp_read; [by apply wp_ret|].
  destruct (functions (w_db w) !! FaasStore.SumID sum) as [row|] eqn:Hrow; [|by apply wp_ret].
  set (fn := FaasStore.scanFunction _ row).
  destruct (timer_type fn) as [tt|] eqn:Htt; [|by apply wp_ret].
  apply wp_bind, wp_reads. change (ID fn) with (FaasStore.SumID sum).
  destruct (match w_lastRun w !! FaasStore.SumID sum with
            | Some last => _ | None => false end) eqn:Hlast; [by apply wp_ret|].
  apply wp_bind, wp_does. set (w1 := set_lastRun _ w).
  assert (Hw1 : sup_ok w1) by (destruct Hw; by split).
  apply wp_bind. eapply wp_mono; [by apply wp_fanOut|]. intros r w2 [(H2 & _ & Hl & Hf & _) _].
  apply wp_ret. split; [by split|]. split; [done|]. split; [|by rewrite Hl].
  exists row. split; [done|]. split; [exists tt; exact Htt|]. intros last Hlt. rewrite Hlt in Hlast.
  apply Z.ltb_ge in Hlast. exact Hlast.
Qed.

Lemma due_other w w' now id :
  functions (w_db w') = functions (w_db w) → w_lastRun w' !! id = w_lastRun w !! id →
  due w' now id → due w now id.
Proof. intros Hf Hl (row & H). rewrite Hf, Hl in H. by exists row. Qed.

(** The functions a scan ran: each was due, and is stamped with the scan's
    instant; the others keep their stamp. *)
Definition scanned (P : Z → Prop) (now : Z) (ran : list Z) (w w' : world) : Prop :=
  (∀ id, id ∈ ran → P id ∧ due w now id ∧ w_lastRun w' !! id = Some now) ∧
  (∀ id, id ∉ ran → w_lastRun w' !! id = w_lastRun w !! id).

Lemma wp_tick_all now sums w :
  NoDup (FaasStore.SumID <$> sums) → sup_ok w →
  wp (tick_all box_open marshal_request unmarshal_meta text rfc3339 text_le s now sums) w
    (λ ran w', sched_ok w w' ∧
       scanned (λ id, ∃ sum, sum ∈ sums ∧ FaasStore.SumID sum = id ∧ FaasStore.SumEnabled sum = true)
         now ran w w' ∧ ∀ id, id ∈ ran → id ∈ FaasStore.SumID <$> sums).
Proof.
  revert w. induction sums as [|sum sums IH]; intros w Hnd Hw.
  { apply wp_ret. split; [by split|]. split; [split|]; try done; intros id Hid;
      by apply not_elem_of_nil in Hid. }
  csimpl in Hnd. apply NoDup_cons in Hnd as [Hx Hnd]. cbn [tick_all].
  apply wp_bind. eapply wp_mono; [by apply wp_tick_one|]. intros ran w1 [[Hw1 Hf1] Hran].
  apply wp_bind. eapply wp_mono; [by apply IH|]. intros rest w2 [[Hw2 Hf2] [[Hin Hout] Hsub]].
  apply wp_ret. split; [split; [done|congruence]|].
  assert (Hlast : ∀ id, id ≠ FaasStore.SumID sum → w_lastRun w1 !! id = w_lastRun w !! id).
  { intros id Hne. destruct ran; [destruct Hran as (_ & _ & ->); by rewrite lookup_insert_ne|].
    by destruct Hran as [-> _]. }
  assert (Hrest : ∀ id, id ∈ rest → id ≠ FaasStore.SumID sum)
    by (intros id Hid ->; by apply Hx, Hsub).
  assert (Hrest' : ∀ id, id ∈ rest →
    (∃ sum', sum' ∈ sum :: sums ∧ FaasStore.SumID sum' = id ∧ FaasStore.SumEnabled sum' = true) ∧
    due w now id ∧ w_lastRun w2 !! id = Some now).
  { intros id Hid. destruct (Hin id Hid) as ((sum' & ? & ? & ?) & Hdue & ?).
    split; [exists sum'; split; [by right|done]|]. split; [|done].
    eapply due_other; [exact Hf1|by apply Hlast, Hrest|done]. }
  assert (Hself : FaasStore.SumID sum ∉ rest) by (intros Hid; by apply (Hrest _ Hid)).
  destruct ran.
  - destruct Hran as (Hen & Hdue & Hl). split; [split|].
    + intros id [->|Hid]%elem_of_cons; [|by apply Hrest'].
      split; [exists sum; split; [left|done]|]. split; [done|].
      by rewrite (Hout _ Hself), Hl, lookup_insert_eq.
    + intros id [Hne Hid]%not_elem_of_cons. rewrite (Hout id Hid). by apply Hlast.
    + csimpl. intros id [->|Hid]%elem_of_cons; [left|right; by apply Hsub].
  - split; [split; [exact Hrest'|]|].
    + intros id Hid. rewrite (Hout id Hid). destruct Hran as [-> _]. done.
    + csimpl. intros id Hid. right. by apply Hsub.
Qed.

Lemma wp_tickSchedule w :
  sup_ok w →
  wp (tickSchedule box_open marshal_request unmarshal_meta text rfc3339 text_le s) w
    (λ ran w', sched_ok w w' ∧ ∃ now,
       scanned (λ id, fr_enabled <$> functions (w_db w) !! id = Some true) now ran w w').
Proof.
  intros Hw. apply wp_bind. unfold FaasStore.ListFunctions. apply wp_read.
  { apply wp_ret. split; [by split|]. exists 0. split; [|done]. intros id Hid.
    by apply not_elem_of_nil in Hid. }
  set (sums := merge_sort _ _). apply wp_bind, wp_time_now. intros now w1 H1.
  pose proof (same_ok _ _ H1 Hw) as Hw1.
  assert (Hsums : ∀ sum, sum ∈ sums → FaasStore.SumEnabled sum = true →
            fr_enabled <$> functions (w_db w) !! FaasStore.SumID sum = Some true).
  { intros sum. unfold sums. rewrite merge_sort_Permutation, list_elem_of_fmap.
    intros ([id row] & -> & Hrow) Hen. apply elem_of_map_to_list in Hrow. simpl in *.
    by rewrite Hrow, <-Hen. }
  assert (Hnd : NoDup (FaasStore.SumID <$> sums)).
  { unfold sums. rewrite merge_sort_Permutation, <-list_fmap_compose.
    apply (NoDup_fst_map_to_list (functions (w_db w))). }
  clearbody sums. destruct H1 as (Hd & _ & _ & _ & _ & Hl).
  eapply wp_mono; [by apply wp_tick_all|]. intros ran w2 ([Hw2 Hf2] & [Hin Hout] & _).
  split; [split; [done|by rewrite Hf2, Hd]|]. exists now. split.
  - intros id Hid. destruct (Hin id Hid) as ((sum & Hsum & <- & Hen) & Hdue & Hstamp).
    split; [by apply Hsums|]. split; [|done].
    eapply due_other; [by rewrite Hd|by rewrite Hl|exact Hdue].
  - intros id Hid. by rewrite (Hout id Hid), Hl.
Qed.

(** ** Everything that happens to the supervisor *)

Definition boot : world := MkWorld empty_db ∅ ∅ ∅ ∅ 0 [] [] [] [] [] [] [].

Inductive sup_step (w : world) : world → Prop :=
| st_render serial channel trigger now force fs r w' fs' :
    Render box_open marshal_request unmarshal_meta text rfc3339 s serial channel trigger now
      force w fs = (r, w', fs') → sup_step w w'
| st_fanout fn trigger fs r w' fs' :
    fanOut box_open marshal_request unmarshal_meta text rfc3339 text_le s fn trigger w fs =
      (r, w', fs') → sup_step w w'
| st_tick fs r w' fs' :
    tickSchedule box_open marshal_request unmarshal_meta text rfc3339 text_le s w fs =
      (r, w', fs') → sup_step w w'
(* operators' and other components' writes *)
| st_tables d' :
    tables_ok d' → lastgood d' ⊆ lastgood (w_db w) → sup_step w (set_db d' w)
(* a restart loses the memory *)
| st_restart : sup_step w (set_lastRun ∅ (set_inv ∅ (set_cache ∅ w)))
(* what the outside will answer *)
| st_outside w' :
    w_db w' = w_db w → w_cache w' = w_cache w → w_inv w' = w_inv w →
    w_lastRun w' = w_lastRun w → w_trace w' = w_trace w →
    (∀ p, Some (Ok p) ∈ w_flights w' → zlen p = packed_len) → sup_step w w'.

Inductive reachable : world → Prop :=
| reach_boot : reachable boot
| reach_step w w' : reachable w → sup_step w w' → reachable w'.

Lemma wp_run {A} (m : MW A) w Q fs r w' fs' :
  wp m w Q → m w fs = (r, w', fs') → ∃ a, r = Ok a ∧ Q a w'.
Proof. intros H Hrun. destruct (H fs) as (a & w2 & fs2 & Hm & HQ). rewrite Hrun in Hm. simplify_eq. eauto. Qed.

Lemma sup_reachable_ok w : reachable w → sup_ok w.
Proof.
  induction 1 as [|w w' _ Hw Hs].
  { split; simpl; try (intros; done).
    - apply Bindings.tables_ok_empty.
    - intros p Hp. by apply not_elem_of_nil in Hp. }
  destruct Hs as [? ? ? ? ? ? ? ? ? Hr|? ? ? ? ? ? Hr|? ? ? ? Hr|d' Hd Hl| |w' Hd Hc Hi Hl Ht Hf].
  - destruct (wp_run _ _ _ _ _ _ _ (wp_Render _ _ _ _ _ _ Hw) Hr) as (f & _ & H & _). apply H.
  - destruct (wp_run _ _ _ _ _ _ _ (wp_fanOut _ _ _ Hw) Hr) as (f & _ & H & _). apply H.
  - destruct (wp_run _ _ _ _ _ _ _ (wp_tickSchedule _ Hw) Hr) as (f & _ & H & _). apply H.
  - apply db_ok; [done|done|]. intros k r Hr. apply (so_lastgood w Hw k r).
    by eapply lookup_weaken.
  - destruct Hw. split; simpl; done.
  - destruct Hw. split; rewrite ?Hd, ?Hc, ?Hi, ?Ht; done.
Qed.

(** ** Theorems *)

(** C2. However the database, the worker, the egress proxy and the blob volume
    fail, before and during the request, a device's request returns a
    panel-sized frame; a device bound to a function is shown the error frame or
    a frame a successful render of that very function produced for it (or for
    its whole fleet, when published as serial-invariant), and an unbound device
    the error frame. *)
Theorem Render_always_serves w (Hw : reachable w) serial channel trigger now force fs :
  ∃ f w' fs',
    Render box_open marshal_request unmarshal_meta text rfc3339 s serial channel trigger now
      force w fs = (Ok f, w', fs') ∧
    zlen (f_packed f) = packed_len ∧
    (entitled w serial (w_trace w') f ∨ f = error_frame s).
Proof.
  destruct (wp_Render serial channel trigger now force w (sup_reachable_ok w Hw) fs)
    as (f & w' & fs' & Hrun & _ & Hf).
  exists f, w', fs'. split; [exact Hrun|]. split; [|exact Hf].
  destruct Hf as [[Hl _]| ->]; [exact Hl|exact Herr].
Qed.

(** A fan-out tries every device bound to the function once and reports how
    many got their frame: those devices hold a durable frame rendered from this
    version of the function, and for every other device and function the
    durable frame is untouched - a failure never overwrites a good frame. *)
Theorem fanOut_per_serial w (Hw : reachable w) fn trigger fs :
  ∃ ok failed w' fs',
    fanOut box_open marshal_request unmarshal_meta text rfc3339 text_le s fn trigger w fs =
      (Ok (ok, failed), w', fs') ∧
    ((ok = 0 ∧ failed = 0 ∧ w' = w) ∨
     ∃ serials good, NoDup serials ∧
       (∀ serial, serial ∈ serials ↔ render_binding (w_db w) !! serial = Some (ID fn)) ∧
       fan_result fn serials good w w' ∧ ok = count true good ∧ failed = count false good).
Proof.
  destruct (wp_fanOut fn trigger w (sup_reachable_ok w Hw) fs)
    as ([ok failed] & w' & fs' & Hrun & _ & Hr).
  exists ok, failed, w', fs'. split; [exact Hrun|].
  destruct Hr as [[[= -> ->] ->]|(good & Hg & [= -> ->])]; [by left|right].
  exists (bound_serials w (ID fn)), good.
  split; [apply bound_serials_NoDup|]. split; [apply elem_of_bound_serials|done].
Qed.

(** A scan of the scheduler runs only enabled functions with a timer whose
    interval has elapsed since the scan that last ran them, and stamps exactly
    those it runs. *)
Theorem tickSchedule_due w (Hw : reachable w) fs :
  ∃ ran w' fs' now,
    tickSchedule box_open marshal_request unmarshal_meta text rfc3339 text_le s w fs =
      (Ok ran, w', fs') ∧
    scanned (λ id, fr_enabled <$> functions (w_db w) !! id = Some true) now ran w w'.
Proof.
  destruct (wp_tickSchedule w (sup_reachable_ok w Hw) fs) as (ran & w' & fs' & Hrun & _ & now & Hr).
  by exists ran, w', fs', now.
Qed.

End Safety.

(** ** Renders that must not happen *)

Section Quiet.
Context (box_open : string → bytes → bytes → option bytes).
Context (marshal_request : Request → option bytes).
Context (unmarshal_meta : bytes → option FaasProto.ResponseMeta).
Context (text : failure → string).
Context (rfc3339 : Z → string).
Context (s : Supervisor).

(** A device bound to a function that is frozen, or whose frames a timer or a
    webhook writes. *)
Definition not_inline (w : world) (serial : string) (fnID : Z) : Prop :=
  playlist_binding (w_db w) !! serial = None ∧ render_binding (w_db w) !! serial = Some fnID ∧
  ∀ row, functions (w_db w) !! fnID = Some row →
    fr_enabled row = false ∨ syncInline (FaasStore.scanFunction fnID row) = false.

Lemma wp_durable_quiet serial fn w :
  wp (durable_frame s serial fn) w (λ f w', w' = w ∧
    (f = error_frame s ∨
     ∃ lg, lastgood (w_db w) !! (serial, ID fn) = Some lg ∧ f_packed f = lg_packed lg)).
Proof.
  apply wp_bind. unfold FaasStore.LastGoodGet. apply wp_read; [apply wp_ret; auto|].
  destruct (lastgood (w_db w) !! (serial, ID fn)) eqn:Hl; apply wp_ret; eauto.
Qed.

Lemma wp_serveLastGood_quiet fn rctx w :
  wp (serveLastGood s fn rctx) w (λ f w', same w w' ∧
    (f = error_frame s ∨
     ∃ lg, lastgood (w_db w) !! (Serial rctx, ID fn) = Some lg ∧ f_packed f = lg_packed lg)).
Proof.
  apply wp_bind. unfold FaasStore.LastGoodGet. apply wp_read; [apply wp_ret; split; [done|by left]|].
  destruct (lastgood (w_db w) !! (Serial rctx, ID fn)) eqn:Hl; [|apply wp_ret; split; [done|by left]].
  apply wp_bind, wp_wakeDefault. intros t w' H. apply wp_ret. eauto.
Qed.

(** A device whose function is disabled, or is not rendered on request, is
    answered from the durable frame of that function or with the error frame:
    nothing is sent to the worker or the proxy, and no table or cache
    changes. *)
Theorem frozen_never_renders w serial fnID channel trigger now force fs
    (Hw : not_inline w serial fnID) :
  ∃ f w' fs',
    Render box_open marshal_request unmarshal_meta text rfc3339 s serial channel trigger now
      force w fs = (Ok f, w', fs') ∧ same w w' ∧
    (f = error_frame s ∨
     ∃ lg, lastgood (w_db w) !! (serial, fnID) = Some lg ∧ f_packed f = lg_packed lg).
Proof.
  destruct Hw as (Hpl & Hrb & Hfn).
  assert (H : wp (Render box_open marshal_request unmarshal_meta text rfc3339 s serial channel
    trigger now force) w (λ f w', same w w' ∧ (f = error_frame s ∨
     ∃ lg, lastgood (w_db w) !! (serial, fnID) = Some lg ∧ f_packed f = lg_packed lg))).
  2: { destruct (H fs) as (f & w' & fs' & Hrun & Hs & Hf). by exists f, w', fs'. }
  apply wp_bind. unfold PlRender.ResolveBinding. apply wp_read; [apply wp_ret; split; [done|by left]|].
  rewrite Hpl, Hrb. simpl. destruct (Z.eqb_spec fnID 0); simpl; [apply wp_ret; split; [done|by left]|].
  apply wp_bind. unfold FaasStore.LoadFunction. apply wp_read; [apply wp_ret; split; [done|by left]|].
  destruct (functions (w_db w) !! fnID) as [row|] eqn:Hrow; [|apply wp_ret; split; [done|by left]].
  apply wp_bind, wp_nowOrDefault. intros now' w1 H1. cbv zeta.
  assert (Hd : w_db w1 = w_db w) by apply H1.
  assert (Htrans : ∀ w2, same w1 w2 → same w w2).
  { intros w2 (?&?&?&?&?&?). destruct H1 as (?&?&?&?&?&?). repeat split; congruence. }
  change (Enabled (FaasStore.scanFunction fnID row)) with (fr_enabled row).
  destruct (Hfn row eq_refl) as [Hoff|Hsync]; [rewrite Hoff|destruct (negb _); [|rewrite Hsync]].
  - eapply wp_mono; [apply wp_durable_quiet|]. intros f w2 [-> Hf]. rewrite Hd in Hf. by split.
  - eapply wp_mono; [apply wp_durable_quiet|]. intros f w2 [-> Hf]. rewrite Hd in Hf. by split.
  - eapply wp_mono; [apply wp_serveLastGood_quiet|]. intros f w2 [H2 Hf]. rewrite Hd in Hf.
    split; [by apply Htrans|exact Hf].
Qed.
End Quiet.

(** ** Witnesses: a scheduled function bound to one device, no worker *)

Definition sample_open (_ : string) (_ _ : bytes) : option bytes := None.
Definition sample_marshal (_ : Request) : option bytes := Some [123; 125].
Definition sample_unmarshal (_ : bytes) : option FaasProto.ResponseMeta := None.
Definition sample_text (_ : failure) : string := "failed".
Definition sample_time (_ : Z) : string := "2026-01-01T00:00:00Z".
Definition sample_le (_ _ : string) : bool := true.
Definition sample_supervisor : Supervisor :=
  MkSupervisor (Wake.MkWakeConfig 23 6 3600 28800) "none" (MkLimits 8000 256) 600
    (120 * Wake.ns_second) (SpecFloat.S754_zero false) (replicate (Z.to_nat 30000) 0) false.

Definition sample_ops (enabled : bool) : list (Bindings.op * list bool) :=
  [(Bindings.OCreate (FaasStore.MkCreateParams "clock" "x" "schedule" None [] [] None None), []);
   (Bindings.OSetEnabled 1 enabled, []); (Bindings.OBindDevice "AB12" 1, [])].
Definition sample_world (enabled : bool) : world :=
  set_db (Bindings.exec_ops (sample_ops enabled) empty_db) boot.

Abbreviation sample_reachable := (reachable sample_open sample_marshal sample_unmarshal sample_text
  sample_time sample_le sample_supervisor).

Lemma sample_frame : zlen (errorFrame sample_supervisor) = packed_len.
Proof.
  change (Z.of_nat (length (replicate (Z.to_nat 30000) 0)) = packed_len).
  rewrite length_replicate. reflexivity.
Qed.

Lemma sample_world_reachable enabled : sample_reachable (sample_world enabled).
Proof.
  eapply reach_step; [apply reach_boot|]. apply st_tables.
  - apply Bindings.ok_exec_ops, Bindings.tables_ok_empty.
  - destruct enabled; vm_compute; intros k; by destruct k as [? []].
Qed.

Lemma Render_always_serves_witness :
  ∃ f w' fs', Render sample_open sample_marshal sample_unmarshal sample_text sample_time
    sample_supervisor "AB12" "stable" "render" "" false (sample_world true) [false; true] =
      (Ok f, w', fs') ∧ zlen (f_packed f) = packed_len.
Proof.
  destruct (Render_always_serves sample_open sample_marshal sample_unmarshal sample_text sample_time
    sample_le sample_supervisor sample_frame (sample_world true) (sample_world_reachable true)
    "AB12" "stable" "render" "" false [false; true]) as (f & w' & fs' & Hrun & Hl & _).
  exists f, w', fs'. split; [exact Hrun|exact Hl].
Defined.

Definition sample_function : Function :=
  FaasStore.MkFunction 1 "clock" "x" 1 "schedule" None [] [] true.

Lemma fanOut_per_serial_witness :
  (fanOut sample_open sample_marshal sample_unmarshal sample_text sample_time sample_le
     sample_supervisor sample_function (MkTrigger "schedule" None) (sample_world true) []).1.1 =
    Ok (0, 1) ∧
  ∃ ok failed w' fs',
    fanOut sample_open sample_marshal sample_unmarshal sample_text sample_time sample_le
      sample_supervisor sample_function (MkTrigger "schedule" None) (sample_world true) [] =
      (Ok (ok, failed), w', fs').
Proof.
  split; [vm_compute; reflexivity|].
  destruct (fanOut_per_serial sample_open sample_marshal sample_unmarshal sample_text sample_time
    sample_le sample_supervisor sample_frame (sample_world true) (sample_world_reachable true)
    sample_function (MkTrigger "schedule" None) []) as (ok & failed & w' & fs' & Hrun & _).
  exists ok, failed, w', fs'. exact Hrun.
Defined.

Lemma tickSchedule_due_witness :
  (tickSchedule sample_open sample_marshal sample_unmarshal sample_text sample_time sample_le
     sample_supervisor (sample_world true) []).1.1 = Ok [1] ∧
  ∃ ran w' fs' now,
    tickSchedule sample_open sample_marshal sample_unmarshal sample_text sample_time sample_le
      sample_supervisor (sample_world true) [] = (Ok ran, w', fs') ∧
    scanned (λ id, fr_enabled <$> functions (w_db (sample_world true)) !! id = Some true) now ran
      (sample_world true) w'.
Proof.
  split; [vm_compute; reflexivity|].
  exact (tickSchedule_due sample_open sample_marshal sample_unmarshal sample_text sample_time
    sample_le sample_supervisor sample_frame (sample_world true) (sample_world_reachable true) []).
Defined.

Lemma frozen_never_renders_witness :
  not_inline (sample_world false) "AB12" 1 ∧
  ∃ f w' fs', Render sample_open sample_marshal sample_unmarshal sample_text sample_time
    sample_supervisor "AB12" "stable" "render" "" true (sample_world false) [] = (Ok f, w', fs') ∧
    same (sample_world false) w'.
Proof.
  assert (H : not_inline (sample_world false) "AB12" 1).
  { split; [vm_compute; reflexivity|]. split; [vm_compute; reflexivity|].
    intros row Hrow. vm_compute in Hrow. injection Hrow as <-. left. reflexivity. }
  split; [exact H|].
  destruct (frozen_never_renders sample_open sample_marshal sample_unmarshal sample_text sample_time
    sample_supervisor (sample_world false) "AB12" 1 "stable" "render" "" true [] H)
    as (f & w' & fs' & Hrun & Hs & _).
  exists f, w', fs'. split; [exact Hrun|exact Hs].
Defined.

End FrameSafety.
