(* ===== verification/SingleFlight.v ===== *)
(** * Concurrent requests for one variant ([internal/faascore/playlistframe.go])

    [packedVariant] as the requests of a fleet run it at once: each request is a
    thread, each of its reads, the two critical sections of the single flight
    and the render are steps, and any interleaving is a run. Statements may
    fail and the cache may be collected at any time; both are counted. *)

From S2P Require Import Prelude.

Module SingleFlight.

(** The key of the flight is the key of the cache: sha, fit and dither. *)
Definition key : Type := string * string * string.
Definition outcome : Type := result string bytes.

(** Where a request is. [c] names the [flightCall] it leads or waits for. *)
Inductive pc :=
| PStart (k : key)                          (* before the first VariantGet *)
| PMissed (k : key)                         (* before do *)
| PWait (k : key) (c : nat)                 (* <-c.done *)
| PLead (k : key) (c : nat)                 (* in fn, before the re-check *)
| PDrive (k : key) (c : nat)                (* driving the worker *)
| PClose (k : key) (c : nat) (r : outcome)  (* done closed, before the delete *)
| PDone (k : key) (r : outcome).

Record state := MkState {
  cache : gmap key bytes;
  calls : gmap key nat;
  closed : gmap nat outcome;
  threads : gmap nat pc;
  next_call : nat;
  drives : key → Z;
  faults : key → Z }.

Definition add_one (k : key) (f : key → Z) : key → Z :=
  λ k', if decide (k' = k) then f k' + 1 else f k'.
Definition set_thread (t : nat) (p : pc) (s : state) : state :=
  MkState (cache s) (calls s) (closed s) (<[t:=p]> (threads s)) (next_call s) (drives s) (faults s).
Definition count_drive (k : key) (s : state) : state :=
  MkState (cache s) (calls s) (closed s) (threads s) (next_call s) (add_one k (drives s)) (faults s).
Definition count_fault (k : key) (s : state) : state :=
  MkState (cache s) (calls s) (closed s) (threads s) (next_call s) (drives s) (add_one k (faults s)).
Definition set_calls m n (s : state) : state :=
  MkState (cache s) m (closed s) (threads s) n (drives s) (faults s).
Definition close_call (c : nat) (r : outcome) (s : state) : state :=
  MkState (cache s) (calls s) (<[c:=r]> (closed s)) (threads s) (next_call s) (drives s) (faults s).
Definition set_cache m (s : state) : state :=
  MkState m (calls s) (closed s) (threads s) (next_call s) (drives s) (faults s).

(** [ON CONFLICT DO NOTHING]. *)
Definition put (k : key) (p : bytes) (m : gmap key bytes) : gmap key bytes :=
  match m !! k with Some _ => m | None => <[k:=p]> m end.

Inductive step (s : state) : state → Prop :=
| s_hit t k p : threads s !! t = Some (PStart k) → cache s !! k = Some p →
    step s (set_thread t (PDone k (Ok p)) s)
| s_miss t k : threads s !! t = Some (PStart k) → cache s !! k = None →
    step s (set_thread t (PMissed k) s)
| s_read_fault t k : threads s !! t = Some (PStart k) →
    step s (set_thread t (PMissed k) (count_fault k s))
| s_join t k c : threads s !! t = Some (PMissed k) → calls s !! k = Some c →
    step s (set_thread t (PWait k c) s)
| s_lead t k : threads s !! t = Some (PMissed k) → calls s !! k = None →
    step s (set_thread t (PLead k (next_call s))
              (set_calls (<[k:=next_call s]> (calls s)) (S (next_call s)) s))
| s_recheck_hit t k c p : threads s !! t = Some (PLead k c) → cache s !! k = Some p →
    step s (set_thread t (PClose k c (Ok p)) (close_call c (Ok p) s))
| s_blob_fault t k c e : threads s !! t = Some (PLead k c) →
    step s (set_thread t (PClose k c (Err e)) (close_call c (Err e) (count_fault k s)))
| s_drive t k c : threads s !! t = Some (PLead k c) → cache s !! k = None →
    step s (set_thread t (PDrive k c) (count_drive k s))
| s_recheck_fault t k c : threads s !! t = Some (PLead k c) →
    step s (set_thread t (PDrive k c) (count_drive k (count_fault k s)))
| s_rendered t k c p : threads s !! t = Some (PDrive k c) →
    step s (set_thread t (PClose k c (Ok p)) (close_call c (Ok p) (set_cache (put k p (cache s)) s)))
| s_render_fault t k c e : threads s !! t = Some (PDrive k c) →
    step s (set_thread t (PClose k c (Err e)) (close_call c (Err e) (count_fault k s)))
| s_delete t k c r : threads s !! t = Some (PClose k c r) →
    step s (set_thread t (PDone k r) (set_calls (delete k (calls s)) (next_call s) s))
| s_woken t k c r : threads s !! t = Some (PWait k c) → closed s !! c = Some r →
    step s (set_thread t (PDone k r) s)
| s_collect k : step s (count_fault k (set_cache (delete k (cache s)) s))
| s_arrive t k : threads s !! t = None → step s (set_thread t (PStart k) s).

Definition init (m : gmap key bytes) : state :=
  MkState m ∅ ∅ ∅ 0 (λ _, 0) (λ _, 0).

Inductive reach (m : gmap key bytes) : state → Prop :=
| reach_init : reach m (init m)
| reach_step s s' : reach m s → step s s' → reach m s'.

(** ** The invariant *)

(** The call a thread owns, from entering the map to leaving it. *)
Definition owns (p : pc) : option (key * nat) :=
  match p with
  | PLead k c | PDrive k c | PClose k c _ => Some (k, c)
  | _ => None
  end.
Definition drives_now (p : pc) : option key :=
  match p with PDrive k _ => Some k | _ => None end.
Definition closing (p : pc) : option outcome :=
  match p with PClose _ _ r => Some r | _ => None end.
(** The outcomes a thread holds. *)
Definition holds (p : pc) : option (key * outcome) :=
  match p with PClose k _ r | PDone k r => Some (k, r) | _ => None end.

(** The map of calls and the threads agree: a call in the map has one owner,
    it is closed exactly when the owner is leaving, and whoever waits for it
    finds it closed or still in the map. *)
Record flight (calls : gmap key nat) (closed : gmap nat outcome) (ts : gmap nat pc) (n : nat) : Prop := {
  fl_owner t p k c : ts !! t = Some p → owns p = Some (k, c) →
    calls !! k = Some c ∧ closed !! c = closing p;
  fl_call k c : calls !! k = Some c → (c < n)%nat ∧
    ∃ t p, ts !! t = Some p ∧ owns p = Some (k, c);
  fl_one t t' p p' k c c' : ts !! t = Some p → ts !! t' = Some p' →
    owns p = Some (k, c) → owns p' = Some (k, c') → t = t';
  fl_inj k k' c : calls !! k = Some c → calls !! k' = Some c → k = k';
  fl_closed c : is_Some (closed !! c) → (c < n)%nat;
  fl_wait t k c : ts !! t = Some (PWait k c) → (c < n)%nat ∧
    (is_Some (closed !! c) ∨ calls !! k = Some c) }.

(** Renders are paid for: one is allowed, every other follows a fault. *)
Definition paid (s : state) : Prop := ∀ k,
  0 ≤ faults s k ∧ drives s k ≤ 1 + faults s k ∧
  (cache s !! k = None → (∀ t p, threads s !! t = Some p → drives_now p ≠ Some k) →
   drives s k ≤ faults s k).

(** Without a fault everybody who has an outcome has what the cache has. *)
Definition shared (m : gmap key bytes) (k : key) (r : outcome) : Prop :=
  ∃ b, r = Ok b ∧ m !! k = Some b.
Definition same (s : state) : Prop := ∀ k, faults s k = 0 →
  (∀ t p, threads s !! t = Some p → drives_now p = Some k → cache s !! k = None) ∧
  (∀ t p r, threads s !! t = Some p → holds p = Some (k, r) → shared (cache s) k r) ∧
  (∀ t c r, threads s !! t = Some (PWait k c) → closed s !! c = Some r → shared (cache s) k r).

Definition inv (s : state) : Prop :=
  flight (calls s) (closed s) (threads s) (next_call s) ∧ paid s ∧ same s.

(** Case analysis on which thread or key a hypothesis speaks of. *)
Ltac lookup_cases :=
  repeat match goal with
  | H : <[_:=_]> _ !! _ = Some _ |- _ => apply lookup_insert_Some in H as [[??]|[??]]; simplify_eq/=
  | H : delete _ _ !! _ = Some _ |- _ => apply lookup_delete_Some in H as [??]
  end.

(** *** Preservation of the map of calls *)

Section Flight.
Context {calls : gmap key nat} {closed : gmap nat outcome} {ts : gmap nat pc} {n : nat}.
Hypothesis F : flight calls closed ts n.

(** A thread that neither enters nor leaves the map. *)
Lemma flight_move t p' :
  from_option owns None (ts !! t) = owns p' →
  from_option closing None (ts !! t) = closing p' →
  (∀ k c, p' = PWait k c → calls !! k = Some c) →
  flight calls closed (<[t:=p']> ts) n.
Proof.
  destruct F as [Ho Hc H1 Hi Hcl Hw]. intros Howns Hclosing Hwaits.
  assert (Hback : ∀ t0 p0 k c, <[t:=p']> ts !! t0 = Some p0 → owns p0 = Some (k, c) →
    ∃ p1, ts !! t0 = Some p1 ∧ owns p1 = Some (k, c) ∧ closing p1 = closing p0).
  { intros. lookup_cases; [|eauto].
    destruct (ts !! t0) as [p1|]; simpl in *; [|congruence]. exists p1. split_and!; congruence. }
  split; eauto.
  - intros t0 p k c Ht Hp. destruct (Hback _ _ _ _ Ht Hp) as (p1 & ? & ? & <-). eauto.
  - intros k c (? & t0 & p0 & Ht & Hp)%Hc. split; [done|].
    destruct (decide (t0 = t)) as [->|]; [|exists t0, p0; by rewrite lookup_insert_ne].
    exists t, p'. rewrite lookup_insert_eq. rewrite Ht in Howns. simpl in Howns. split; congruence.
  - intros t1 t2 p1 p2 k c c' Ht1 Ht2 Hp1 Hp2.
    destruct (Hback _ _ _ _ Ht1 Hp1) as (? & ? & ? & _).
    destruct (Hback _ _ _ _ Ht2 Hp2) as (? & ? & ? & _). eauto.
  - intros t0 k c Ht. lookup_cases; [|eauto].
    specialize (Hwaits _ _ eq_refl). split; [|by right]. by destruct (Hc _ _ Hwaits).
Qed.

Lemma flight_lead t k : ts !! t = Some (PMissed k) → calls !! k = None →
  flight (<[k:=n]> calls) closed (<[t:=PLead k n]> ts) (S n).
Proof.
  destruct F as [Ho Hc H1 Hi Hcl Hw]. intros Ht Hk.
  assert (Hnk : ∀ t0 p0 c, ts !! t0 = Some p0 → owns p0 ≠ Some (k, c)).
  { intros * H Hp. destruct (Ho _ _ _ _ H Hp). congruence. }
  assert (Hn : closed !! n = None).
  { apply eq_None_not_Some. intros H%Hcl. lia. }
  split.
  - intros t0 p0 k0 c0 Ht0 Hp. lookup_cases; [by rewrite lookup_insert_eq|].
    destruct (Ho _ _ _ _ H0 Hp). rewrite lookup_insert_ne; [done|intros <-; by apply (Hnk _ _ c0) in H0].
  - intros k0 c0 Hk0. lookup_cases.
    + split; [lia|]. exists t, (PLead k0 c0). by rewrite lookup_insert_eq.
    + destruct (Hc _ _ H0) as (? & t0 & p0 & Ht0 & Hp). split; [lia|].
      exists t0, p0. rewrite lookup_insert_ne; [done|]. intros <-. by simplify_eq.
  - intros t1 t2 p1 p2 k0 c c' ? ? ? ?. lookup_cases; eauto; simplify_eq/=; exfalso; match goal with H : owns ?p = Some _ |- _ => by eapply (Hnk _ p) end.
  - intros k1 k2 c ? ?. lookup_cases; eauto;
      match goal with H : calls !! _ = Some _ |- _ => apply Hc in H as [? _]; lia end.
  - intros c H%Hcl. lia.
  - intros t0 k0 c0 Ht0. lookup_cases. destruct (Hw _ _ _ H0) as [? [|]]; (split; [lia|]); [by left|right].
    rewrite lookup_insert_ne; [done|congruence].
Qed.

Lemma flight_close t p k c r : ts !! t = Some p → owns p = Some (k, c) → closing p = None →
  flight calls (<[c:=r]> closed) (<[t:=PClose k c r]> ts) n.
Proof.
  destruct F as [Ho Hc H1 Hi Hcl Hw]. intros Ht Hp Hopen.
  destruct (Ho _ _ _ _ Ht Hp) as [Hk Hclo]. split; eauto.
  - intros t0 p0 k0 c0 Ht0 Hp0. lookup_cases; [by rewrite lookup_insert_eq|].
    destruct (Ho _ _ _ _ H0 Hp0). split; [done|]. rewrite lookup_insert_ne; [done|]. intros <-.
    assert (k = k0) as <- by eauto. eauto.
  - intros k0 c0 (? & t0 & p0 & Ht0 & Hp0)%Hc. split; [done|].
    destruct (decide (t0 = t)) as [->|]; [|exists t0, p0; by rewrite lookup_insert_ne].
    simplify_eq. exists t, (PClose k c r). rewrite lookup_insert_eq. simpl. split; congruence.
  - intros t1 t2 p1 p2 k0 c1 c2 ? ? ? ?. lookup_cases; eauto.
  - intros c0 [r0 H]. lookup_cases; [|eauto]. by destruct (Hc _ _ Hk).
  - intros t0 k0 c0 Ht0. lookup_cases. destruct (Hw _ _ _ H0) as [? Hor]. split; [done|].
    destruct (decide (c0 = c)) as [->|]; [left; by rewrite lookup_insert_eq|by rewrite lookup_insert_ne].
Qed.

Lemma flight_delete t k c r : ts !! t = Some (PClose k c r) →
  flight (delete k calls) closed (<[t:=PDone k r]> ts) n.
Proof.
  destruct F as [Ho Hc H1 Hi Hcl Hw]. intros Ht.
  destruct (Ho t _ k c Ht eq_refl) as [Hk Hclo]. split; eauto.
  - intros t0 p0 k0 c0 Ht0 Hp0. lookup_cases.
    destruct (Ho _ _ _ _ H0 Hp0). split; [|done]. apply lookup_delete_Some. split; [|done].
    intros <-. apply H. by eapply H1.
  - intros k0 c0 Hk0. lookup_cases. destruct (Hc _ _ H0) as (? & t0 & p0 & Ht0 & Hp0).
    split; [done|]. exists t0, p0. rewrite lookup_insert_ne; [done|]. intros <-. simplify_eq/=.
  - intros t1 t2 p1 p2 k0 c1 c2 ? ? ? ?. lookup_cases; eauto.
  - intros k1 k2 c0 ? ?. lookup_cases. eauto.
  - intros t0 k0 c0 Ht0. lookup_cases. destruct (Hw _ _ _ H0) as [? [|Hk0]]; (split; [done|]); [by left|].
    destruct (decide (k0 = k)) as [->|]; [|right; by rewrite lookup_delete_ne].
    simplify_eq. left. rewrite Hclo. eauto.
Qed.
End Flight.

(** *** Preservation of the whole invariant *)

Lemma init_inv m : inv (init m).
Proof.
  split_and!.
  - split; simpl; intros *; rewrite ?lookup_empty; done.
  - intros k. simpl. repeat split; lia.
  - intros k _. simpl. repeat split; intros *; by rewrite lookup_empty.
Qed.

Lemma step_flight s s' : inv s → step s s' →
  flight (calls s') (closed s') (threads s') (next_call s').
Proof.
  intros (F & _ & _) Hs.
  assert (Hmove : ∀ t p p', threads s !! t = Some p → owns p = owns p' → closing p = closing p' →
    (∀ k c, p' = PWait k c → calls s !! k = Some c) →
    flight (calls s) (closed s) (<[t:=p']> (threads s)) (next_call s)).
  { intros t p p' Ht ???. apply (flight_move F); by rewrite ?Ht. }
  destruct Hs; try (by eapply Hmove; eauto); try done.
  - eapply Hmove; [done..|]. by intros ?? [= <- <-].
  - by apply (flight_lead F).
  - by eapply (flight_close F).
  - by eapply (flight_close F).
  - by eapply (flight_close F).
  - by eapply (flight_close F).
  - by eapply (flight_delete F).
  - apply (flight_move F); by rewrite ?H.
Qed.

(** Nobody else drives the key a thread owns. *)
Lemma sole_driver s t p k c t' p' : inv s → threads s !! t = Some p → owns p = Some (k, c) →
  threads s !! t' = Some p' → drives_now p' = Some k → t' = t.
Proof.
  intros (F & _ & _) Ht Hp Ht' Hp'. destruct p'; simplify_eq/=. by eapply (fl_one _ _ _ _ F).
Qed.

Lemma undriven_move (ts : gmap nat pc) t p' k :
  (∀ t0 p0, <[t:=p']> ts !! t0 = Some p0 → drives_now p0 ≠ Some k) →
  (∀ p, ts !! t = Some p → drives_now p ≠ Some k) →
  ∀ t0 p0, ts !! t0 = Some p0 → drives_now p0 ≠ Some k.
Proof.
  intros H Ht t0 p0 H0. destruct (decide (t0 = t)) as [->|]; [by apply Ht|].
  apply (H t0). by rewrite lookup_insert_ne.
Qed.

Lemma put_present k p m : is_Some (put k p m !! k).
Proof. unfold put. destruct (m !! k) eqn:E; [by rewrite E|by rewrite lookup_insert_eq]. Qed.
Lemma put_other k p m k0 : put k p m !! k0 = None → m !! k0 = None ∧ k0 ≠ k.
Proof.
  intros H. split; [|intros ->; by destruct (put_present k p m) as [? ?]; simplify_eq].
  unfold put in H. destruct (m !! k); [done|]. by apply lookup_insert_None in H as [? _].
Qed.
Lemma put_keeps k p m k0 b : m !! k0 = Some b → put k p m !! k0 = Some b.
Proof.
  intros H. unfold put. destruct (m !! k) eqn:E; [done|]. rewrite lookup_insert_ne; [done|congruence].
Qed.
Lemma put_absent k p m : m !! k = None → put k p m !! k = Some p.
Proof. intros H. unfold put. by rewrite H, lookup_insert_eq. Qed.
Lemma put_away k p m k0 : m !! k0 = None → k0 ≠ k → put k p m !! k0 = None.
Proof. intros. unfold put. destruct (m !! k); [done|]. by rewrite lookup_insert_ne. Qed.

Lemma step_paid s s' : inv s → step s s' → paid s'.
Proof.
  intros Hinv Hs k0. pose proof Hinv as (F & HP & _). specialize (HP k0) as (Hf & Hd & Hidle).
  assert (Hkeep : ∀ t p', (∀ p, threads s !! t = Some p → drives_now p ≠ Some k0) →
    (∀ t0 p0, <[t:=p']> (threads s) !! t0 = Some p0 → drives_now p0 ≠ Some k0) →
    cache s !! k0 = None → drives s k0 ≤ faults s k0).
  { intros t p' Ht Hall Hk. apply Hidle; [done|]. by eapply undriven_move. }
  assert (Hlead : ∀ t k c, threads s !! t = Some (PLead k c) → cache s !! k = None → k = k0 →
    drives s k0 ≤ faults s k0).
  { intros t k c Ht Hk ->. apply Hidle; [done|]. intros t1 p1 H1 Hp1.
    assert (t1 = t) as -> by by eapply sole_driver. simplify_eq/=. }
  assert (Hnow : ∀ (t : nat) (p : pc) (ts : gmap nat pc),
    (∀ t0 p0, <[t:=p]> ts !! t0 = Some p0 → drives_now p0 ≠ Some k0) → drives_now p ≠ Some k0).
  { intros t p ts Hall. apply (Hall t). by rewrite lookup_insert_eq. }
  destruct Hs; simpl; unfold add_one; try case_decide; subst; split_and!; try lia;
    try (intros Hk Hall; try lia; eapply Hkeep; [|done|done]; intros; simplify_eq/=; congruence);
    try (intros Hk Hall; by destruct (Hnow _ _ _ Hall)).
  - pose proof (Hlead _ _ _ H H0 eq_refl). lia.
  - intros [Hk Hne]%put_other Hall. eapply Hkeep; [|done|done]. intros; simplify_eq/=; congruence.
  - rewrite lookup_delete_ne by done. done.
Qed.

(** A thread that moves keeps what everybody else has; [p'] answers for itself. *)
Lemma same_move m m' (cl cl' : gmap nat outcome) (ts : gmap nat pc) t p' k :
  (∀ b, m !! k = Some b → m' !! k = Some b) →
  (drives_now p' = Some k → m' !! k = None) →
  (∀ r, holds p' = Some (k, r) → shared m' k r) →
  (∀ c r, p' = PWait k c → cl' !! c = Some r → shared m' k r) →
  (∀ t0 p, t0 ≠ t → ts !! t0 = Some p → drives_now p = Some k → m' !! k = None) →
  (∀ t0 c r, ts !! t0 = Some (PWait k c) → cl' !! c = Some r → cl !! c = Some r ∨ shared m' k r) →
  ((∀ t p, ts !! t = Some p → drives_now p = Some k → m !! k = None) ∧
   (∀ t p r, ts !! t = Some p → holds p = Some (k, r) → shared m k r) ∧
   (∀ t c r, ts !! t = Some (PWait k c) → cl !! c = Some r → shared m k r)) →
  (∀ t0 p, <[t:=p']> ts !! t0 = Some p → drives_now p = Some k → m' !! k = None) ∧
  (∀ t0 p r, <[t:=p']> ts !! t0 = Some p → holds p = Some (k, r) → shared m' k r) ∧
  (∀ t0 c r, <[t:=p']> ts !! t0 = Some (PWait k c) → cl' !! c = Some r → shared m' k r).
Proof.
  intros Hm Hd Hh Hw Hd' Hcl (HD & HH & HW).
  assert (Hup : ∀ r, shared m k r → shared m' k r).
  { intros r (b & -> & Hb). exists b. eauto. }
  split_and!; intros; lookup_cases; eauto.
  edestruct Hcl; eauto.
Qed.

Lemma step_same s s' : inv s → step s s' → same s'.
Proof.
  intros Hinv Hs k0. pose proof Hinv as (F & HP & HS). pose proof (HP k0) as (Hf & _ & _).
  assert (Hout : ∀ t k c p r, threads s !! t = Some p → owns p = Some (k, c) → closing p = None → k ≠ k0 →
    ∀ t0 c0 r0, threads s !! t0 = Some (PWait k0 c0) → <[c:=r]> (closed s) !! c0 = Some r0 →
    closed s !! c0 = Some r0).
  { intros t k c p r Ht Hp Ho Hne t0 c0 r0 Hw Hc. lookup_cases; [|done]. exfalso.
    destruct (fl_owner _ _ _ _ F _ _ _ _ Ht Hp) as [Hk Hcl].
    destruct (fl_wait _ _ _ _ F _ _ _ Hw) as [_ [[r1 ?]|?]]; [|by eapply Hne, fl_inj].
    congruence. }
  destruct Hs; simpl; unfold add_one; try case_decide; subst; intros Hk; try lia; try (by apply HS).
  14: { destruct (HS k0 Hk) as (HD & HH & HW). rewrite lookup_delete_ne by done.
    assert (∀ r, shared (cache s) k0 r → shared (delete k (cache s)) k0 r).
    { intros r (b & -> & ?). exists b. by rewrite lookup_delete_ne. }
    split_and!; eauto. }
  all: pose proof (HS k0 Hk) as (HD & HH & HW).
  all: eapply (same_move (cache s) _ (closed s)); [..|exact (HS k0 Hk)]; simpl; try done; eauto; try congruence.
  all: try (intros; simplify_eq/=; eauto; congruence).
  - intros r [= -> <-]. by exists p.
  - intros c0 r [= -> ->] Hc. destruct (fl_call _ _ _ _ F _ _ H0) as (_ & t1 & p1 & H1 & Hp1).
    destruct (fl_owner _ _ _ _ F _ _ _ _ H1 Hp1) as [_ Hcl]. rewrite Hc in Hcl.
    destruct p1; simplify_eq/=. eauto.
  - intros r [= -> <-]. by exists p.
  - intros t0 c0 r Hw Hc. destruct (decide (k = k0)) as [->|Hne]; [|left; by eapply (Hout t)].
    lookup_cases; [right; by exists p|by left].
  - intros b. apply put_keeps.
  - intros r [= -> <-]. exists p. split; [done|]. apply put_absent. by eapply (HD t).
  - intros t0 p0 Hne H0 Hp0. apply put_away; [by eapply (HD t0)|]. intros ->. by eapply Hne, sole_driver.
  - intros t0 c0 r Hw Hc. destruct (decide (k = k0)) as [->|Hne]; [|left; by eapply (Hout t)].
    lookup_cases; [right|by left]. exists p. split; [done|]. apply put_absent. by eapply (HD t).
Qed.

Lemma reach_inv m s : reach m s → inv s.
Proof.
  induction 1; [apply init_inv|]. split_and!; [by eapply step_flight|by eapply step_paid|by eapply step_same].
Qed.

(** ** Termination *)

(** The steps the requests themselves take: no arrival and no collection. *)
Definition rank (p : pc) : nat :=
  match p with
  | PStart _ => 5 | PMissed _ => 4 | PLead _ _ => 3 | PDrive _ _ => 2
  | PWait _ _ | PClose _ _ _ => 1 | PDone _ _ => 0
  end.
Definition work (ts : gmap nat pc) : nat := map_fold (λ _ p n, rank p + n)%nat 0%nat ts.
Definition finished (p : pc) : Prop := ∃ k r, p = PDone k r.
Inductive serve (s s' : state) : Prop :=
| serve_step t p p' : step s s' → threads s !! t = Some p → threads s' = <[t:=p']> (threads s) →
    (rank p' < rank p)%nat → serve s s'.

Lemma work_insert ts t p : ts !! t = None → work (<[t:=p]> ts) = (rank p + work ts)%nat.
Proof. intros H. unfold work. apply (map_fold_insert_L (λ _ p n, (rank p + n)%nat) 0%nat t p ts); [intros; lia|done]. Qed.
Lemma work_set ts t p p' : ts !! t = Some p →
  (work (<[t:=p']> ts) + rank p = work ts + rank p')%nat.
Proof.
  intros H. rewrite <- (insert_delete_id ts t p H) at 2.
  rewrite <- insert_delete_eq. rewrite !work_insert by apply lookup_delete_eq. lia.
Qed.

Lemma serve_work s s' : serve s s' → (work (threads s') < work (threads s))%nat.
Proof. intros [t p p' _ Ht -> Hr]. pose proof (work_set _ _ _ p' Ht). lia. Qed.

(** Only arrivals and collections are not progress of a request. *)
Lemma step_serves s s' : step s s' → serve s s' ∨
  (∃ k, s' = count_fault k (set_cache (delete k (cache s)) s)) ∨
  (∃ t k, threads s !! t = None ∧ s' = set_thread t (PStart k) s).
Proof.
  intros Hs. destruct Hs eqn:E; try (left; eapply serve_step; [done|done|done|simpl; lia]); eauto 6.
Qed.

(** A request that is not finished, or the owner it waits for, can move. *)
Lemma unfinished_moves s t p : inv s → threads s !! t = Some p → ¬ finished p → ∃ s', serve s s'.
Proof.
  intros (F & _ & _) Ht Hp.
  assert (Hown : ∀ t p k c, threads s !! t = Some p → owns p = Some (k, c) → ∃ s', serve s s').
  { clear. intros t p k c Ht Hp. destruct p; simplify_eq/=; eexists;
      (eapply serve_step; [first [by eapply s_delete|by eapply (s_render_fault _ _ _ _ EmptyString)|by eapply s_recheck_fault]|done|done|simpl; lia]). }
  destruct p as [k|k|k c| | |k c r|k r].
  - eexists. eapply serve_step; [by eapply s_read_fault|done|done|simpl; lia].
  - destruct (calls s !! k) as [c|] eqn:Hk; eexists; (eapply serve_step; [first [by eapply s_join|by eapply s_lead]|done|done|simpl; lia]).
  - destruct (fl_wait _ _ _ _ F _ _ _ Ht) as [_ [[r Hr]|Hk]].
    + eexists. eapply serve_step; [by eapply s_woken|done|done|simpl; lia].
    + destruct (fl_call _ _ _ _ F _ _ Hk) as (_ & t1 & p1 & H1 & Hp1). eauto.
  - eauto.
  - eauto.
  - eauto.
  - destruct Hp. by exists k, r.
Qed.

(** ** The theorems *)

(** C35. Pack once, serve many: however the requests for a variant interleave,
    the worker is driven for it at most once more often than something failed
    (a statement, a blob, a render, or a collection of the cached frame); when
    nothing failed, every request that was answered was answered with the one
    frame the cache holds; at most one request renders a variant at a time; and
    nobody waits for a flight that has no leader. *)
Theorem pack_once m s k : reach m s →
  drives s k ≤ 1 + faults s k ∧
  (faults s k = 0 → ∀ t r, threads s !! t = Some (PDone k r) →
     ∃ b, r = Ok b ∧ cache s !! k = Some b) ∧
  (∀ t t' c c', threads s !! t = Some (PDrive k c) → threads s !! t' = Some (PDrive k c') → t = t') ∧
  (∀ t c, threads s !! t = Some (PWait k c) →
     is_Some (closed s !! c) ∨ ∃ t' p, threads s !! t' = Some p ∧ owns p = Some (k, c)).
Proof.
  intros (F & HP & HS)%reach_inv. split_and!.
  - apply HP.
  - intros (_ & HH & _)%HS t r Ht. by eapply HH.
  - intros t t' c c' Ht Ht'. by eapply (fl_one _ _ _ _ F).
  - intros t c Ht. destruct (fl_wait _ _ _ _ F _ _ _ Ht) as [_ [|Hk]]; [by left|right].
    by destruct (fl_call _ _ _ _ F _ _ Hk) as [_ ?].
Qed.

(** Every request is answered: the steps of the requests come to an end
    in every order (no request loops or is served for ever), and where they
    end no request is left waiting. *)
Theorem requests_terminate m s : reach m s →
  Acc (λ s' s, serve s s') s ∧
  ((∀ s', ¬ serve s s') → ∀ t p, threads s !! t = Some p → ∃ k r, p = PDone k r).
Proof.
  intros Hr%reach_inv. split.
  - apply (Wf_nat.well_founded_lt_compat _ (λ s, work (threads s))). intros ??. apply serve_work.
  - intros Hend t p Ht. destruct p; try (edestruct (unfinished_moves s t) as [? []%Hend]; [done|done|by intros (? & ? & ?)]).
    eauto.
Qed.

(** Two requests on a cold variant: the first leads, the second joins. *)
Definition cold : key := (EmptyString, EmptyString, EmptyString).
Definition two_started : state :=
  set_thread 1 (PStart cold) (set_thread 0 (PStart cold) (init ∅)).
Definition two_missed : state := set_thread 1 (PMissed cold) (set_thread 0 (PMissed cold) two_started).
Definition led : state :=
  set_thread 0 (PLead cold 0) (set_calls (<[cold:=0%nat]> ∅) 1 two_missed).
Definition joined : state := set_thread 1 (PWait cold 0) led.
Definition driven : state := set_thread 0 (PDrive cold 0) (count_drive cold joined).

Lemma driven_reach : reach ∅ driven.
Proof.
  eapply reach_step; [|by apply s_drive].
  eapply reach_step; [|by apply s_join].
  eapply reach_step; [|by apply (s_lead two_missed 0 cold)].
  eapply reach_step; [|by apply s_miss].
  eapply reach_step; [|by apply s_miss].
  eapply reach_step; [|by apply s_arrive].
  eapply reach_step; [|by apply s_arrive].
  apply reach_init.
Qed.

Lemma pack_once_witness :
  drives driven cold = 1 ∧ threads driven !! 1%nat = Some (PWait cold 0) ∧
  drives driven cold ≤ 1 + faults driven cold.
Proof.
  split_and!; [reflexivity|reflexivity|].
  exact (proj1 (pack_once ∅ driven cold driven_reach)).
Defined.

Lemma requests_terminate_witness : Acc (λ s' s, serve s s') driven.
Proof. exact (proj1 (requests_terminate ∅ driven driven_reach)). Defined.

End SingleFlight.
