(* ===== verification/FrameArm.v ===== *)
(** * The ingest side of the frame path ([internal/ingestcore/faas.go, server.go])

    The device's GET /frame and the external webhook, in front of a frame
    backend that is known by its interface, and the dispatch of the ingest
    server's paths. The supervisor is the backend the program wires in. *)

From S2P Require Import Prelude GoLib FaasProto JsonText Crypto Db RenderDb FaasStore PlRender Bindings Wake Supervisor Worker PlaylistFrame Frame FrameSafety OtaTicket Rollout LogIngest.
Import GoLib LogIngest.
Import Supervisor(MkTrigger, world, w_db, triggerOrRender, errorFrame).
Import PlaylistFrame(frame, MkFrame, f_packed, f_status, f_stale, f_wake, error_frame).
Import FaasStore(Function, ID, Name, TriggerType, Enabled).
Import Frame(fanout_err, ErrWebhookNotFound, ErrWebhookNotEnabled).

(** ** The interface *)

(** What the ingest calls; [fb_store] are the tables both sides reach through
    the one pool. *)
Class FrameBackend (W : Type) := MkFrameBackend {
  fb_store : W → RenderDb.db;
  fb_render : string → string → string → string → bool → W → list bool → frame * W * list bool;
  fb_fanout : string → option bytes → W → list bool → result fanout_err unit * W * list bool }.

(** What a backend promises: a panel-sized frame, always. *)
Class FrameContract (W : Type) `{FrameBackend W} (ok : W → Prop) : Prop := {
  fc_frame serial channel trigger now force w fs : ok w →
    zlen (f_packed (fb_render serial channel trigger now force w fs).1.1) = RenderDb.packed_len;
  fc_ok serial channel trigger now force w fs : ok w →
    ok (fb_render serial channel trigger now force w fs).1.2 }.

Module FrameArm.

(** ** The server *)

Definition webhookBodyMax : nat := Z.to_nat 65536.
Definition packedFrameSize : Z := 30000.

Definition faasRetryWakeFromEnv (v : string) : Z :=
  if bool_decide (v = ""%string) then 300
  else match atoi v with (n, None) => if 0 <? n then n else 300 | _ => 300 end.

Record Server := MkServer {
  token : string; ota_cfg : config; backend_wired : bool; frameEnabled : bool;
  faasRetryWake : Z; unavailableFrame : bytes }.

Record frameResult := MkResult {
  packed : bytes; wake : Z; fstatus : string; stale : string }.

Definition unavailableResult (s : Server) : frameResult :=
  MkResult (unavailableFrame s) (faasRetryWake s) "unavailable" "1".

(** A request beyond what the push reads: method, path, token header, body. *)
Record http := MkHttp {
  Method : string; Path : string; Req : request; FaasToken : string; Body : bytes }.

(** ** Paths *)

Definition parts (path : string) : list string :=
  string_of_bytes <$> split (trim (bytes_of_string path) 47) [47].
Definition part (n : nat) (l : list string) : string := nth n l ""%string.

Definition OwnsPath (s : Server) (path : string) : bool :=
  negb (bool_decide (token s = ""%string)) && bool_decide (part 0 (parts path) = token s).

Inductive endpoint :=
| EPush | EC2 | EChallenge | ERekey | EFirmware | EFrame | EHook (name : string) | ENone.
#[global] Instance endpoint_eq_dec : EqDecision endpoint.
Proof. solve_decision. Defined.

Definition seg (p : list string) (n : nat) (name : string) : bool := bool_decide (part n p = name).
Definition is_method (m name : string) : bool := bool_decide (m = name).

(** The dispatch of [Handle], in the order of its cases. *)
Definition Handle (s : Server) (method path : string) : endpoint :=
  let p := parts path in
  let get := is_method method "GET" in
  let post := is_method method "POST" in
  if bool_decide (token s = ""%string) || (zlen p <? 2) || negb (seg p 0 (token s)) then ENone
  else if seg p 1 "pp" && seg p 2 "" && get then EPush
  else if seg p 1 "c2" && seg p 2 "" && get then EC2
  else if seg p 1 "c2" && seg p 2 "challenge" && get then EChallenge
  else if seg p 1 "c2" && seg p 2 "rekey" && post then ERekey
  else if seg p 1 "firmware.bin" && seg p 2 "" && get then EFirmware
  else if frameEnabled s && seg p 1 "frame" && seg p 2 "" && get then EFrame
  else if frameEnabled s && seg p 1 "faas" && seg p 2 "hook" && post then EHook (part 3 p)
  else ENone.

Section Arm.
Context {W : Type} `{FrameBackend W}.
Context (inet_ok : string → bool).

Record arm := MkArm { a_tables : LogIngest.db; a_backend : W }.

(** Nothing on these paths returns an error: each is logged or answered. *)
Definition MA (A : Type) : Type := arm → list bool → A * arm * list bool.
Definition ret {A} (a : A) : MA A := λ x fs, (a, x, fs).
Definition bind {A B} (m : MA A) (k : A → MA B) : MA B := λ x fs,
  let '(a, x', fs') := m x fs in k a x' fs'.
Notation "a <- m ;; k" := (bind m (λ a, k)) (at level 100, m at next level, right associativity).

Definition on_tables {A} (m : M LogIngest.db db_err A) : MA (result db_err A) := λ x fs,
  let '(r, d, fs') := m (a_tables x) fs in (r, MkArm d (a_backend x), fs').
Definition on_store {A} (m : M RenderDb.db RenderDb.err A) : MA (result RenderDb.err A) := λ x fs,
  let '(r, _, fs') := m (fb_store (a_backend x)) fs in (r, x, fs').
Definition on_backend {A} (m : W → list bool → A * W * list bool) : MA A := λ x fs,
  let '(a, w, fs') := m (a_backend x) fs in (a, MkArm (a_tables x) w, fs').

(** ** GET /frame *)

Definition deviceChannel (serial : string) : MA string :=
  ch <- on_tables (query EDb (λ d, Ok (match Rollout.devices (ota d) !! serial with
                                       | Some dv => Rollout.channel dv | None => ""%string end)));;
  ret (match ch with Ok ch => ch | Err _ => ""%string end).

Definition requestFrame (s : Server) (serial channel : string) : MA frameResult :=
  if negb (backend_wired s) then ret (unavailableResult s)
  else
    f <- on_backend (fb_render serial channel "render" "" false);;
    if negb (zlen (f_packed f) =? packedFrameSize) then ret (unavailableResult s)
    else ret (MkResult (f_packed f)
                (if f_wake f <=? 0 then faasRetryWake s else f_wake f)
                (if bool_decide (f_status f = ""%string) then "ok"%string else f_status f)
                (if f_stale f then "1"%string else "0"%string)).

(** The telemetry a fetch carries; its acknowledgement, if it was committed. *)
Definition piggyback (s : Server) (nowNs : Z) (r : request) (serial : string) : MA (Z * bool) :=
  if hasExpectedKey (r_query r) then
    a <- on_tables (ingest inet_ok (OtaTicket.unix nowNs) (logFrameMax (ota_cfg s)) r serial);;
    ret (match a with Ok a => a | Err _ => (0, false) end)
  else ret (0, false).

Definition frame_headers (fr : frameResult) : list (string * string) :=
  [("X-Next-Wake-Seconds"%string, format_int (wake fr));
   ("X-Picpak-Status"%string, fstatus fr); ("X-Picpak-Stale"%string, stale fr)].
Definition body_headers (fr : frameResult) : list (string * string) :=
  [("Content-Type"%string, "application/octet-stream"%string);
   ("Content-Length"%string, format_int (zlen (packed fr)))].

Definition handleFrame (s : Server) (nowNs : Z) (r : request) : MA response :=
  let serial := first [qget (r_query r) "sn"; qget (r_query r) "id"] in
  if bool_decide (serial = ""%string) then ret (bare 404)
  else
    ack <- piggyback s nowNs r serial;;
    channel <- deviceChannel serial;;
    fr <- requestFrame s serial channel;;
    sig <- on_tables (injectOTASignal (ota_cfg s) nowNs serial);;
    ret (Resp 200 (ack_header ack ++ frame_headers fr ++
                   (match sig with Ok sig => sig | Err _ => [] end) ++ body_headers fr)
           (packed fr)).

(** ** The webhook *)

Definition webhookToken (h : http) : string :=
  if bool_decide (FaasToken h = ""%string) then qget (r_query (Req h)) "token" else FaasToken h.

Definition hook_payload (rawBody : bytes) : option bytes :=
  match rawBody with
  | [] => None
  | _ => Some (if JsonText.Valid rawBody then rawBody else JsonText.quote rawBody)
  end.

Definition triggerWebhook (s : Server) (name : string) (rawBody : bytes) : MA bool :=
  if negb (backend_wired s) then ret false
  else r <- on_backend (fb_fanout name (hook_payload rawBody));; ret (is_ok r).

Definition handleWebhook (s : Server) (h : http) (name : string) : MA response :=
  if bool_decide (name = ""%string) then ret (bare 404)
  else
    fn <- on_store (FaasStore.LoadFunctionByName name);;
    match fn with
    | Err _ => ret (bare 404)
    | Ok fn =>
        if negb (bool_decide (TriggerType fn = FaasStore.TriggerWebhook)) || negb (Enabled fn)
        then ret (bare 404)
        else
          let presented := webhookToken h in
          sha <- on_store (FaasStore.WebhookTokenSHA (ID fn));;
          match sha with
          | Err _ => ret (bare 401)
          | Ok sha =>
              if bool_decide (presented = ""%string) then ret (bare 401)
              else if negb (bool_decide (Crypto.sha256 (bytes_of_string presented) = sha))
              then ret (bare 401)
              else
                ok <- triggerWebhook s (Name fn) (take webhookBodyMax (Body h));;
                ret (bare (if ok : bool then 202 else 503))
          end
    end.

(** ** Lemmas *)

(** [after m x fs Q]: what [m] returns and leaves satisfies [Q]. *)
Definition after {A} (m : MA A) (x : arm) (fs : list bool) (Q : A → arm → Prop) : Prop :=
  Q (m x fs).1.1 (m x fs).1.2.

Lemma after_ret {A} (a : A) x fs (Q : A → arm → Prop) : Q a x → after (ret a) x fs Q.
Proof. done. Qed.
Lemma after_bind {A B} (m : MA A) (k : A → MA B) x fs Q :
  after m x fs (λ a x', ∀ fs', after (k a) x' fs' Q) → after (bind m k) x fs Q.
Proof.
  unfold after, bind. destruct (m x fs) as [[a x'] fs']. simpl. auto.
Qed.

Lemma after_query {A} e (f : LogIngest.db → result db_err A) x fs (Q : result db_err A → arm → Prop) :
  (∀ r, Q r x) → after (on_tables (query e f)) x fs Q.
Proof.
  intros HQ. unfold after, on_tables, query, stmt. destruct x as [d w].
  destruct fs as [|[] fs]; simpl; apply HQ.
Qed.
Lemma after_store {A} e (f : RenderDb.db → result RenderDb.err A) x fs (Q : result RenderDb.err A → arm → Prop) :
  Q (Err e) x → Q (f (fb_store (a_backend x))) x → after (on_store (query e f)) x fs Q.
Proof.
  intros He Hf. unfold after, on_store, query, stmt. by destruct fs as [|[] fs].
Qed.

Lemma after_channel serial x fs (Q : string → arm → Prop) :
  (∀ c, Q c x) → after (deviceChannel serial) x fs Q.
Proof.
  intros HQ. apply after_bind, after_query. intros r fs'. apply after_ret, HQ.
Qed.

Lemma after_signal cfg ns serial x fs (Q : result db_err (list (string * string)) → arm → Prop) :
  (∀ hdrs, Forall (λ h, h.1 ≠ "X-Log-Ack-Offset"%string) hdrs → Q (Ok hdrs) x) →
  after (on_tables (injectOTASignal cfg ns serial)) x fs Q.
Proof.
  intros HQ. unfold after, on_tables. destruct x as [d w]. simpl.
  destruct (injectOTASignal_reads cfg ns serial d fs) as (hdrs & fs' & -> & Hh & _). by apply HQ.
Qed.

(** The tables after a fetch: untouched, or with its telemetry committed. *)
Definition recorded (s : Server) (ns : Z) (r : request) (serial : string) (x x' : arm)
    (ack : Z * bool) : Prop :=
  (a_tables x' = a_tables x ∧ ack.2 = false) ∨
  (hasExpectedKey (r_query r) = true ∧
   ingest_spec inet_ok (OtaTicket.unix ns) (logFrameMax (ota_cfg s)) r serial (a_tables x) =
     Some (a_tables x', ack)).

Lemma after_piggyback s ns r serial x fs (Q : Z * bool → arm → Prop) :
  (∀ ack x', a_backend x' = a_backend x → recorded s ns r serial x x' ack → Q ack x') →
  after (piggyback s ns r serial) x fs Q.
Proof.
  intros HQ. unfold piggyback. destruct (hasExpectedKey _) eqn:Hk.
  2: { apply after_ret, HQ; [done|by left]. }
  unfold after, bind, on_tables. destruct x as [d w]. simpl.
  destruct (ingest_run inet_ok (OtaTicket.unix ns) (logFrameMax (ota_cfg s)) r serial d fs)
    as (a & d' & fs' & -> & Ha & _). simpl. apply HQ; [done|].
  destruct a as [ack|e]; [by right|]. subst d'. by left.
Qed.

(** What [requestFrame] gives the panel. *)
Definition relayed (s : Server) (serial : string) (w : W) (fr : frameResult) : Prop :=
  fr = unavailableResult s ∨
  ∃ channel fs, packed fr = f_packed (fb_render serial channel "render" "" false w fs).1.1 ∧
    zlen (packed fr) = packedFrameSize.

Lemma after_requestFrame s serial channel x fs (Q : frameResult → arm → Prop) :
  (∀ fr w', relayed s serial (a_backend x) fr →
     (backend_wired s = true →
      zlen (f_packed (fb_render serial channel "render" "" false (a_backend x) fs).1.1) =
        packedFrameSize →
      packed fr = f_packed (fb_render serial channel "render" "" false (a_backend x) fs).1.1) →
     Q fr (MkArm (a_tables x) w')) →
  after (requestFrame s serial channel) x fs Q.
Proof.
  intros HQ. unfold requestFrame. destruct (backend_wired s); simpl.
  2: { apply after_ret. destruct x as [d w]. apply HQ; [by left|done]. }
  unfold after, bind, on_backend.
  destruct (fb_render serial channel "render" "" false (a_backend x) fs) as [[f w'] fs'] eqn:Hr.
  simpl in *. destruct (Z.eqb_spec (zlen (f_packed f)) packedFrameSize) as [Hl|Hl]; simpl.
  - apply HQ; [|done]. right. exists channel, fs. by rewrite Hr.
  - apply HQ; [by left|done].
Qed.

Lemma after_exists {A} (m : MA A) x fs Q :
  after m x fs Q → ∃ a x' fs', m x fs = (a, x', fs') ∧ Q a x'.
Proof. unfold after. destruct (m x fs) as [[a x'] fs']. simpl. eauto. Qed.

Lemma ack_in_headers fr ack hdrs v :
  Forall (λ h, h.1 ≠ "X-Log-Ack-Offset"%string) hdrs →
  ("X-Log-Ack-Offset"%string, v) ∈ ack_header ack ++ frame_headers fr ++ hdrs ++ body_headers fr ↔
  ack.2 = true ∧ v = format_int ack.1.
Proof.
  intros Hh. rewrite Forall_forall in Hh. unfold ack_header. rewrite !elem_of_app. split.
  - intros [Hv|[Hv|[Hv|Hv]]].
    + destruct ack.2; [|by apply not_elem_of_nil in Hv].
      apply list_elem_of_singleton in Hv. by simplify_eq.
    + exfalso. unfold frame_headers in Hv. rewrite !elem_of_cons, elem_of_nil in Hv. naive_solver.
    + by destruct (Hh _ Hv).
    + exfalso. unfold body_headers in Hv. rewrite !elem_of_cons, elem_of_nil in Hv. naive_solver.
  - intros [-> ->]. left. by apply list_elem_of_singleton.
Qed.

(** ** Theorems *)

Definition frame_serial (r : request) : string :=
  first [qget (r_query r) "sn"; qget (r_query r) "id"].

(** A device's fetch is always answered with a panel-sized frame. Whatever
    the backend returns, a body that is not frame-sized never reaches the
    panel: the frame is the backend's or the embedded one. A request without
    an identity is a bare 404 without effect. The telemetry it carries is
    recorded wholly or not at all, a failure to record it costs nothing but the
    acknowledgement, and an acknowledgement is sent exactly when one was
    committed. *)
Theorem handleFrame_serves s ns r x fs (Hu : zlen (unavailableFrame s) = packedFrameSize) :
  ∃ resp x' fs', handleFrame s ns r x fs = (resp, x', fs') ∧
    (frame_serial r = ""%string → resp = bare 404 ∧ x' = x) ∧
    (frame_serial r ≠ ""%string →
       status resp = 200 ∧ zlen (body resp) = packedFrameSize ∧
       ("Content-Length"%string, format_int packedFrameSize) ∈ headers resp ∧
       (∃ fr, relayed s (frame_serial r) (a_backend x) fr ∧ body resp = packed fr) ∧
       ∃ ack, recorded s ns r (frame_serial r) x x' ack ∧
         ∀ v, ("X-Log-Ack-Offset"%string, v) ∈ headers resp ↔ ack.2 = true ∧ v = format_int ack.1).
Proof.
  apply after_exists. unfold handleFrame. fold (frame_serial r).
  case_bool_decide as Hs; [by apply after_ret|].
  apply after_bind, after_piggyback. intros ack x1 Hb Hrec fs1.
  apply after_bind, after_channel. intros c fs2.
  apply after_bind, after_requestFrame. intros fr w' Hfr _ fs3. rewrite Hb in Hfr.
  apply after_bind, after_signal. intros hdrs Hh fs4. apply after_ret. split; [done|]. intros _.
  assert (Hlen : zlen (packed fr) = packedFrameSize).
  { destruct Hfr as [->|(? & ? & _ & ?)]; [exact Hu|done]. }
  split; [done|]. split; [exact Hlen|]. split; [|split; [by exists fr|]].
  - cbn [headers]. unfold body_headers. rewrite Hlen, !elem_of_app. right. right. right. right. left.
  - exists ack. split; [exact Hrec|]. intros v. by apply ack_in_headers.
Qed.

(** The enabled webhook function the name addresses. *)
Definition hook_row (name : string) (d : RenderDb.db) (id : Z) (row : RenderDb.function_row) : Prop :=
  RenderDb.functions d !! id = Some row ∧ RenderDb.fr_name row = name ∧
  RenderDb.fr_trigger row = FaasStore.TriggerWebhook ∧ RenderDb.fr_enabled row = true.

(** The caller presented the token whose hash the function's row holds. *)
Definition authentic (h : http) (name : string) (d : RenderDb.db) : Prop :=
  ∃ id row, hook_row name d id row ∧ webhookToken h ≠ ""%string ∧
    RenderDb.fr_token row = Some (Crypto.sha256 (bytes_of_string (webhookToken h))).

Definition names_unique (d : RenderDb.db) : Prop := ∀ id id' row row',
  RenderDb.functions d !! id = Some row → RenderDb.functions d !! id' = Some row' →
  RenderDb.fr_name row = RenderDb.fr_name row' → id = id'.

Lemma after_by_name name x fs (Q : result RenderDb.err Function → arm → Prop) :
  Q (Err RenderDb.EDb) x →
  ((∀ id row, RenderDb.functions (fb_store (a_backend x)) !! id = Some row →
     RenderDb.fr_name row ≠ name) → Q (Err RenderDb.ENotFound) x) →
  (∀ id row, RenderDb.functions (fb_store (a_backend x)) !! id = Some row →
     RenderDb.fr_name row = name → Q (Ok (FaasStore.scanFunction id row)) x) →
  after (on_store (FaasStore.LoadFunctionByName name)) x fs Q.
Proof.
  intros He Hn Hs. unfold FaasStore.LoadFunctionByName. apply after_store; [done|].
  destruct (find_first _ _) as [[id row]|] eqn:Hf.
  - apply find_first_Some in Hf as [Hin%elem_of_map_to_list Hname%bool_decide_eq_true].
    by apply Hs.
  - apply Hn. intros id row Hrow Hname. rewrite find_first_None in Hf.
    specialize (Hf (id, row)). simpl in Hf. rewrite elem_of_map_to_list, Hname in Hf.
    rewrite bool_decide_true in Hf by done. by specialize (Hf Hrow).
Qed.

Lemma hook_payload_valid b p : bytes_ok b → hook_payload b = Some p → JsonText.Valid p = true.
Proof.
  intros Hb. unfold hook_payload. destruct b as [|c b]; [done|].
  destruct (JsonText.Valid (c :: b)) eqn:E; intros [= <-]; [done|by apply JsonText.quote_valid].
Qed.

(** A fan-out of the function was handed to the backend, which answered [r]. *)
Definition launched (h : http) (name : string) (x x' : arm) (r : result fanout_err unit) : Prop :=
  let payload := hook_payload (take webhookBodyMax (Body h)) in
  (∀ p, payload = Some p → JsonText.Valid p = true) ∧ a_tables x' = a_tables x ∧
  ∃ fs fs', fb_fanout name payload (a_backend x) fs = (r, a_backend x', fs').

Definition answered (s : Server) (h : http) (name : string) (x : arm) (resp : response) (x' : arm) : Prop :=
  (x' = x ∧ (resp = bare 404 ∨ resp = bare 401 ∨
             (resp = bare 503 ∧ backend_wired s = false))) ∨
  (authentic h name (fb_store (a_backend x)) ∧ backend_wired s = true ∧
   ∃ r, launched h name x x' r ∧ resp = bare (if is_ok r then 202 else 503)).

Lemma after_trigger s h name x fs (Q : bool → arm → Prop) : bytes_ok (Body h) →
  (backend_wired s = false → Q false x) →
  (∀ r x', backend_wired s = true → launched h name x x' r → Q (is_ok r) x') →
  after (triggerWebhook s name (take webhookBodyMax (Body h))) x fs Q.
Proof.
  intros Hb Hno Hyes. unfold triggerWebhook. destruct (backend_wired s); simpl.
  2: { by apply after_ret, Hno. }
  unfold after, bind, on_backend. destruct (fb_fanout _ _ _ _) as [[r w'] fs'] eqn:Hr. simpl.
  apply Hyes; [done|]. split.
  - intros p. by apply hook_payload_valid, Forall_take.
  - split; [done|]. by exists fs, fs'.
Qed.

Lemma handleWebhook_answers s h name x fs : bytes_ok (Body h) →
  after (handleWebhook s h name) x fs (λ resp x',
    answered s h name x resp x' ∧
    ((∀ id row, ¬ hook_row name (fb_store (a_backend x)) id row) → resp = bare 404)).
Proof.
  intros Hb. unfold handleWebhook.
  assert (H404 : ∀ x0, x0 = x → answered s h name x (bare 404) x0) by (intros; left; auto).
  case_bool_decide; [by apply after_ret; auto|].
  apply after_bind, after_by_name; [intros fs1; by apply after_ret; auto|intros _ fs1; by apply after_ret; auto|].
  intros id row Hrow Hn fs1. simpl.
  case_bool_decide as Ht; [|apply after_ret; auto].
  destruct (RenderDb.fr_enabled row) eqn:He; [|apply after_ret; auto].
  assert (Hhook : hook_row name (fb_store (a_backend x)) id row) by done. simpl.
  assert (H401 : ∀ fs, after (ret (bare 401)) x fs (λ resp x', answered s h name x resp x' ∧
    ((∀ id row, ¬ hook_row name (fb_store (a_backend x)) id row) → resp = bare 404))).
  { intros fs2. apply after_ret. split; [left; auto|]. intros Hno. by destruct (Hno id row). }
  apply after_bind, after_store; [apply H401|]. rewrite Hrow.
  destruct (RenderDb.fr_token row) as [[|b sha]|] eqn:Hsha; [apply H401| |apply H401].
  intros fs2. case_bool_decide as Hp; [apply H401|].
  case_bool_decide as Hs; simpl; [|apply H401].
  assert (Hauth : authentic h name (fb_store (a_backend x))).
  { exists id, row. split; [done|]. split; [done|]. by rewrite Hsha, Hs. }
  rewrite Hn. apply after_bind, after_trigger; [done|intros Hw fs3|intros r x' Hw Hl fs3]; apply after_ret.
  - split; [left; auto|]. intros Hno. by destruct (Hno id row).
  - split; [right; eauto|]. intros Hno. by destruct (Hno id row).
Qed.

Lemma handleWebhook_serves s h name x : name ≠ ""%string →
  names_unique (fb_store (a_backend x)) → authentic h name (fb_store (a_backend x)) →
  backend_wired s = true →
  ∃ r x' fs', handleWebhook s h name x [] = (bare (if is_ok r then 202 else 503), x', fs') ∧
    fb_fanout name (hook_payload (take webhookBodyMax (Body h))) (a_backend x) [] =
      (r, a_backend x', fs').
Proof.
  intros Hname Hu (id & row & (Hrow & Hn & Ht & He) & Hp & Hsha) Hw.
  unfold handleWebhook. rewrite bool_decide_false by done.
  unfold FaasStore.LoadFunctionByName, bind at 1, on_store at 1, query, stmt.
  destruct (find_first _ _) as [[id' row']|] eqn:Hf.
  2: { rewrite find_first_None in Hf. specialize (Hf (id, row)). simpl in Hf.
       rewrite elem_of_map_to_list, bool_decide_true in Hf by done. by specialize (Hf Hrow). }
  apply find_first_Some in Hf as [Hin%elem_of_map_to_list Hn'%bool_decide_eq_true]. simpl in Hn'.
  assert (id' = id) as -> by (eapply Hu; [done..|congruence]).
  assert (row' = row) as -> by (simpl in Hin; congruence).
  unfold FaasStore.scanFunction. cbn [TriggerType Enabled ID Name].
  rewrite Ht, He, bool_decide_true by done. cbn [negb orb].
  unfold FaasStore.WebhookTokenSHA, bind at 1, on_store at 1, query, stmt. rewrite Hrow, Hsha.
  destruct (Crypto.sha256 (bytes_of_string (webhookToken h))) as [|b sha] eqn:Hs.
  { apply (f_equal length) in Hs. by rewrite Crypto.sha256_length in Hs. }
  cbv beta iota. rewrite bool_decide_false, bool_decide_true by done.
  cbn [negb]. unfold triggerWebhook. rewrite Hw. cbn [negb].
  unfold bind, on_backend. rewrite Hn.
  destruct (fb_fanout _ _ _ _) as [[r w'] fs'] eqn:Hr. eexists r, _, fs'. split; [reflexivity|done].
Qed.

(** C23. A webhook runs nothing unless its caller holds the function's token: a
    fan-out is launched only for an enabled webhook function of that name whose
    stored hash is the SHA-256 of the token presented; it gets at most 64 KiB
    of the body, as valid JSON whatever the body was. Every other request
    changes nothing; a name that is unknown, disabled or not a webhook is the
    same bare 404. Without a fault the rightful caller is served. *)
Theorem handleWebhook_authentic s h name x fs (Hb : bytes_ok (Body h)) :
  ∃ resp x' fs', handleWebhook s h name x fs = (resp, x', fs') ∧
    ((x' = x ∧ (resp = bare 404 ∨ resp = bare 401 ∨
                (resp = bare 503 ∧ backend_wired s = false))) ∨
     (authentic h name (fb_store (a_backend x)) ∧ backend_wired s = true ∧
      ∃ r, launched h name x x' r ∧ resp = bare (if is_ok r then 202 else 503))) ∧
    ((∀ id row, ¬ hook_row name (fb_store (a_backend x)) id row) → resp = bare 404) ∧
    (fs = [] → name ≠ ""%string → names_unique (fb_store (a_backend x)) →
     authentic h name (fb_store (a_backend x)) → backend_wired s = true →
     ∃ r, launched h name x x' r).
Proof.
  destruct (after_exists _ _ _ _ (handleWebhook_answers s h name x fs Hb))
    as (resp & x' & fs' & Hrun & Hans & H404).
  exists resp, x', fs'. split; [done|]. split; [exact Hans|]. split; [exact H404|].
  intros -> Hname Hu Hauth Hw.
  destruct (handleWebhook_serves s h name x Hname Hu Hauth Hw) as (r & x2 & fs2 & Hrun2 & _).
  rewrite Hrun in Hrun2. injection Hrun2 as -> -> ->.
  destruct Hans as [[_ [E|[E|[_ E]]]]|(_ & _ & r2 & Hl & _)];
    [by destruct r|by destruct r|congruence|by exists r2].
Qed.

(** With a backend that keeps its contract the panel gets the backend's own
    frame: nothing is ever refused for its size. *)
Lemma relayed_contract (ok : W → Prop) `{!FrameContract W ok} s serial channel x fs :
  backend_wired s = true → ok (a_backend x) →
  after (requestFrame s serial channel) x fs (λ fr x',
    packed fr = f_packed (fb_render serial channel "render" "" false (a_backend x) fs).1.1).
Proof.
  intros Hw Hok. apply after_requestFrame. intros fr w' _ Hfr. apply Hfr; [done|].
  by apply fc_frame.
Qed.

End Arm.
Arguments MkArm {W} _ _.
Arguments a_tables {W} _.
Arguments a_backend {W} _.

(** ** The supervisor as the backend *)

(** Its state, and the fan-outs its webhook seam set going in the background. *)
Record launcher := MkLauncher { l_world : world; l_jobs : list (Function * Supervisor.Trigger) }.

Section Backend.
Context (box_open : string → bytes → bytes → option bytes).
Context (marshal_request : Supervisor.Request → option bytes).
Context (unmarshal_meta : bytes → option FaasProto.ResponseMeta).
Context (text : Worker.failure → string).
Context (rfc3339 : Z → string).
Context (sup : Supervisor.Supervisor).

(** [Render] has no error to return: [FrameSafety] shows it has none. *)
#[global] Instance supervisor_backend : FrameBackend launcher := {|
  fb_store l := w_db (l_world l);
  fb_render serial channel trigger now force l fs :=
    let '(r, w, fs') := Frame.Render box_open marshal_request unmarshal_meta text rfc3339 sup
                          serial channel trigger now force (l_world l) fs in
    (match r with Ok f => f | Err _ => error_frame sup end, MkLauncher w (l_jobs l), fs');
  fb_fanout name payload l fs :=
    let '(r, w, fs') := Frame.Fanout name payload (l_world l) fs in
    match r with
    | Ok (Ok job) => (Ok tt, MkLauncher w (l_jobs l ++ [job]), fs')
    | Ok (Err e) => (Err e, MkLauncher w (l_jobs l), fs')
    | Err _ => (Err ErrWebhookNotFound, MkLauncher w (l_jobs l), fs')
    end |}.

Definition launcher_ok (l : launcher) : Prop :=
  FrameSafety.sup_ok marshal_request unmarshal_meta text (l_world l).

#[global] Instance supervisor_contract :
  zlen (errorFrame sup) = RenderDb.packed_len → FrameContract launcher launcher_ok.
Proof.
  intros Herr. split; intros serial channel trigger now force l fs Hl; simpl.
  - destruct (FrameSafety.wp_Render box_open marshal_request unmarshal_meta text rfc3339 (λ _ _, true) sup Herr
      serial channel trigger now force (l_world l) Hl fs) as (f & w' & fs' & -> & _ & Hf).
    simpl. destruct Hf as [[Hf _]| ->]; [exact Hf|exact Herr].
  - destruct (FrameSafety.wp_Render box_open marshal_request unmarshal_meta text rfc3339 (λ _ _, true) sup Herr
      serial channel trigger now force (l_world l) Hl fs) as (f & w' & fs' & -> & Hs & _).
    apply Hs.
Qed.
End Backend.

(** ** Concrete instances *)

Definition ex_server : Server :=
  MkServer "tok" (MkConfig false [] 0 65536) true true 300 (replicate (Z.to_nat 30000) 0).
Definition ex_query : query_params := {["sn" := ["p1"]; "v" := ["3700"]; "token" := ["s3cret"]]}%string.
Definition ex_request : request := MkRequest ex_query "" "" "" "" "".

#[local] Instance ex_backend : FrameBackend launcher :=
  supervisor_backend FrameSafety.sample_open FrameSafety.sample_marshal FrameSafety.sample_unmarshal
    FrameSafety.sample_text FrameSafety.sample_time FrameSafety.sample_supervisor.
Definition ex_tables : LogIngest.db := MkDb Rollout.ex_tables [] ∅ ∅ [].
Definition ex_store : RenderDb.db :=
  Bindings.exec_ops
    [(Bindings.OCreate (FaasStore.MkCreateParams "door" "x" "webhook" None [] []
        (Some (Crypto.sha256 (bytes_of_string "s3cret"))) None), []);
     (Bindings.OSetEnabled 1 true, [])] RenderDb.empty_db.
Definition ex_arm : arm := MkArm ex_tables
  (MkLauncher (Supervisor.set_db ex_store FrameSafety.boot) []).

Lemma handleFrame_serves_witness :
  zlen (unavailableFrame ex_server) = packedFrameSize ∧
  ∃ resp x' fs', handleFrame (λ _, true) ex_server 0 ex_request ex_arm [] = (resp, x', fs') ∧
    status resp = 200 ∧ zlen (body resp) = packedFrameSize.
Proof.
  assert (Hu : zlen (unavailableFrame ex_server) = packedFrameSize).
  { change (Z.of_nat (length (replicate (Z.to_nat 30000) 0)) = packedFrameSize).
    rewrite length_replicate. reflexivity. }
  split; [exact Hu|].
  destruct (handleFrame_serves (λ _, true) ex_server 0 ex_request ex_arm [] Hu)
    as (resp & x' & fs' & Hrun & _ & Hs).
  exists resp, x', fs'. split; [exact Hrun|].
  destruct (Hs ltac:(vm_compute; discriminate)) as (H1 & H2 & _). split; [exact H1|exact H2].
Defined.

Definition ex_hook : http := MkHttp "POST" "/tok/faas/hook/door" ex_request "" (bytes_of_string "ding").

Lemma handleWebhook_authentic_witness :
  (handleWebhook ex_server ex_hook "door" ex_arm []).1.1 = bare 202 ∧
  (handleWebhook ex_server (MkHttp "POST" "" ex_request "wrong" []) "door" ex_arm []).1.1 = bare 401 ∧
  ∃ resp x' fs', handleWebhook ex_server ex_hook "door" ex_arm [] = (resp, x', fs').
Proof.
  split; [vm_compute; reflexivity|]. split; [vm_compute; reflexivity|].
  destruct (handleWebhook_authentic ex_server ex_hook "door" ex_arm [] (bytes_of_string_ok "ding"))
    as (resp & x' & fs' & Hrun & _).
  exists resp, x', fs'. exact Hrun.
Defined.

(** The dispatch: without the token nothing is reached, the root handler
    hands over exactly the paths under the token, and on a path under it each
    endpoint answers its own path and method only; the frame arms read as
    absent while they are not armed. *)
Theorem Handle_routes s method path :
  (Handle s method path ≠ ENone → OwnsPath s path = true ∧ (2 ≤ length (parts path))%nat) ∧
  (frameEnabled s = false → ∀ name, Handle s method path ≠ EFrame ∧ Handle s method path ≠ EHook name) ∧
  (∀ e, Handle s method path = e → e ≠ ENone →
     method = match e with ERekey | EHook _ => "POST" | _ => "GET" end%string ∧
     (part 1 (parts path), part 2 (parts path)) =
       match e with
       | EPush => ("pp", "") | EC2 => ("c2", "") | EChallenge => ("c2", "challenge")
       | ERekey => ("c2", "rekey") | EFirmware => ("firmware.bin", "") | EFrame => ("frame", "")
       | _ => ("faas", "hook")
       end%string ∧
     (∀ name, e = EHook name → name = part 3 (parts path))).
Proof.
  unfold Handle, OwnsPath, seg, is_method.
  destruct (bool_decide (token s = ""%string)) eqn:Ht; cbn [orb].
  { split; [done|]. split; [done|]. by intros ? <-. }
  destruct (Z.ltb_spec (zlen (parts path)) 2) as [|Hl]; cbn [orb].
  { split; [done|]. split; [done|]. by intros ? <-. }
  destruct (bool_decide (part 0 (parts path) = token s)) eqn:H0; cbn [negb].
  2: { split; [done|]. split; [done|]. by intros ? <-. }
  split; [intros _; split; [done|unfold zlen in Hl; lia]|].
  set (p1 := part 1 _). set (p2 := part 2 _). set (p3 := part 3 _).
  split.
  - intros -> name. cbn [andb]. repeat case_match; done.
  - intros e <-. repeat match goal with
    | |- context [if ?c then _ else _] => destruct c eqn:?
    end; intros Hne; try done; repeat match goal with
    | H : _ && _ = true |- _ => apply andb_true_iff in H as [? ?]
    | H : bool_decide _ = true |- _ => apply bool_decide_eq_true in H
    end; subst; split; try done; split; try congruence; by intros ? [= ->].
Qed.

End FrameArm.
