(* ===== verification/TestRender.v ===== *)
(** * The operator's test render ([internal/faascore/testrender.go])

    The same primitive as a device's render, without a cache, a durable frame or
    a secret, under limits no higher than production's; and the framed answer
    the browser takes apart. *)

From S2P Require Import Prelude GoLib Bwry FaasProto Db RenderDb FaasStore PlRender Wake Supervisor Worker PlaylistFrame Frame FrameSafety.
Import GoLib RenderDb Supervisor Worker FrameSafety.
Import FaasStore(Function, MkFunction, TriggerConfig).
Import FaasProto(RenderErr, ResponseMeta, RawFrameSize).

Module TestRender.

Record testRenderReq := MkReq {
  tID : option Z; tSource : string; tqDither : string; tSecrets : list string;
  tEgress : list string; tSerial : string; tChannel : string; tTrigger : string; tNow : string;
  tPayload : option bytes; tLimits : option Limits }.

Record testMeta := MkMeta {
  tOK : bool; tStatus : string; tWake : Z; tDither : string; tRawFmt : string;
  tRawW : Z; tRawH : Z; tLog : list FaasProto.LogLine; tErr : option RenderErr }.

(** A test may only ask for less than production. *)
Definition clampLimits (prod : Limits) (req : option Limits) : Limits :=
  match req with
  | None => prod
  | Some r =>
      MkLimits
        (if (0 <? TimeoutMs r) && (TimeoutMs r <? TimeoutMs prod) then TimeoutMs r else TimeoutMs prod)
        (if (0 <? MemMB r) && (MemMB r <? MemMB prod) then MemMB r else MemMB prod)
  end.

Definition statusOf (e : option RenderErr) : string :=
  match e with Some _ => "error" | None => "ok" end.

(** The function of a draft: an unsaved source under the operator's own
    bindings. *)
Definition draft (body : testRenderReq) : Function :=
  MkFunction 0 "" (tSource body) 0 (triggerOrRender (tTrigger body)) None (tSecrets body)
    (tEgress body) false.

(** The operator's knob first; a saved function's own choice when it is unset. *)
Definition trusted_dither (body : testRenderReq) (fn : Function) : string :=
  if bool_decide (tqDither body = ""%string) && bool_decide (is_Some (tID body))
  then TDither (parseTriggerConfig (TriggerConfig fn)) else tqDither body.

Section Test.
Context (box_open : string → bytes → bytes → option bytes).
Context (marshal_request : Request → option bytes).
Context (unmarshal_meta : bytes → option ResponseMeta).
Context (text : failure → string).
Context (rfc3339 : Z → string).
Context (marshal_test_meta : testMeta → option bytes).
Context (unmarshal_seam : bytes → option testRenderReq).

(** u32be metaLen | meta | packed | raw *)
Definition encodeTestFrame (meta : testMeta) (packed raw : bytes) : option bytes :=
  match marshal_test_meta meta with
  | None => None
  | Some mj => Some (put_u32be (u32 (zlen mj)) ++ mj ++ packed ++ raw)
  end.

Definition test_opts (s : Supervisor) (body : testRenderReq) (fn : Function) : RenderOpts :=
  MkOpts SecretsStub (clampLimits (limits s) (tLimits body)) true true (trusted_dither body fn)
    (ditherDefault s) true [].

(** What follows the render. *)
Definition test_answer (s : Supervisor) (res : RenderResult) (wake : Z) : option bytes * Z :=
  let ok := match RErr res with None => true | Some _ => false end in
  let meta := MkMeta ok (statusOf (RErr res)) wake (FaasProto.Dither (Meta res))
    (if ok then "rgb" else "") (if ok then Bwry.panel_width else 0)
    (if ok then Bwry.panel_height else 0) (FaasProto.Log (Meta res)) (RErr res) in
  let packed := if ok then Packed res else errorFrame s in
  let raw := if ok then Raw res else [] in
  match encodeTestFrame meta packed raw with
  | Some out => (Some out, 200)
  | None => (None, 500)
  end.

Definition run_test (s : Supervisor) (body : testRenderReq) (fn : Function)
    : MW (option bytes * Z) :=
  now ← nowOrDefault rfc3339 (tNow body);
  let rctx := MkRequestCtx (tSerial body) (tChannel body)
    (MkTrigger (triggerOrRender (tTrigger body)) (tPayload body)) now in
  res ← renderOnce box_open marshal_request unmarshal_meta text s fn rctx (test_opts s body fn);
  wake ← Frame.wakeFor s (Meta res);
  mret (test_answer s res wake).

Definition testRender (s : Supervisor) (body : testRenderReq) : MW (option bytes * Z) :=
  match tID body with
  | Some id =>
      fn ← attempt (on_db (FaasStore.LoadFunction id));
      match fn with
      | Err _ => mret (None, 404)
      | Ok fn => run_test s body fn
      end
  | None => run_test s body (draft body)
  end.

Definition TestRenderSeam (s : Supervisor) (seam : bytes) : MW (option bytes * Z) :=
  match unmarshal_seam seam with
  | None => mret (None, 400)
  | Some body => testRender s body
  end.

(** ** Lemmas *)

Lemma clampLimits_le prod req :
  TimeoutMs (clampLimits prod req) ≤ TimeoutMs prod ∧ MemMB (clampLimits prod req) ≤ MemMB prod.
Proof. destruct req as [r|]; simpl; [|lia]. split; zsolve. Qed.

(** A request that carries no secret and asks for no more than production. *)
Definition harmless (s : Supervisor) (e : event) : Prop :=
  match e with
  | EvDrive r _ =>
      (∀ k v, RSecrets r !! k = Some v → v = stub_secret k) ∧
      TimeoutMs (RLimits r) ≤ TimeoutMs (limits s) ∧ MemMB (RLimits r) ≤ MemMB (limits s)
  | EvShare _ _ => False
  | _ => True
  end.

Lemma render_events_harmless s body fn rctx res evs :
  render_events marshal_request unmarshal_meta text fn rctx (test_opts s body fn) res evs →
  Forall (harmless s) evs.
Proof.
  pose proof (clampLimits_le (limits s) (tLimits body)) as Hle.
  intros [(_ & _ & [->|[cred ->]])|(req & c & Hreq & _ & Hevs)]; [done|by repeat constructor|].
  destruct Hreq as (_ & _ & _ & _ & _ & Hlim & _ & Hsec).
  assert (Hd : harmless s (EvDrive req c)).
  { split; [|by rewrite Hlim]. intros k v Hk. by apply (Hsec k v Hk). }
  destruct Hevs as [->| ->]; repeat apply Forall_cons_2; done.
Qed.

(** The parts of the answer, where the browser finds them. *)
Definition framed (out : bytes) (meta packed raw : bytes) : Prop :=
  out = put_u32be (u32 (zlen meta)) ++ meta ++ packed ++ raw ∧ zlen packed = packed_len.

(** Everything a device is served from stays as it is. *)
Definition untouched (w w' : world) : Prop :=
  w_db w' = w_db w ∧ w_cache w' = w_cache w ∧ w_inv w' = w_inv w ∧
  w_lastRun w' = w_lastRun w ∧ w_flights w' = w_flights w.

Definition test_post (s : Supervisor) (w : world) (a : option bytes * Z) (w' : world) : Prop :=
  untouched w w' ∧
  (∃ evs, w_trace w' = w_trace w ++ evs ∧ Forall (harmless s) evs) ∧
  (a.2 ∈ [200; 400; 404; 500]) ∧
  (a.2 = 200 ↔ is_Some a.1) ∧
  ∀ out, a.1 = Some out → ∃ meta packed raw, framed out meta packed raw ∧
    (packed = errorFrame s ∧ raw = [] ∨ zlen raw = RawFrameSize).

Lemma untouched_trans a b c : untouched a b → untouched b c → untouched a c.
Proof. intros (?&?&?&?&?) (?&?&?&?&?). repeat split; congruence. Qed.
Lemma same_untouched w w' : same w w' → untouched w w'.
Proof. intros (?&?&?&?&?&?). by repeat split. Qed.
Lemma kept_untouched w w' : kept w w' → untouched w w'.
Proof. intros (?&?&?&?&?&?&?&?&?). by repeat split. Qed.

Lemma pack_response_raw opts id r :
  RErr (pack_response text opts id r) = None → WantRaw opts = true →
  zlen (Raw (pack_response text opts id r)) = RawFrameSize.
Proof.
  unfold pack_response. destruct r as [[meta raw]|e]; [|done].
  destruct (FaasProto.MetaErr meta); [done|]. destruct (from_rgb raw) as [img|] eqn:Hi; [|done].
  destruct (pack_with_dither _ _); [|done]. cbn [RErr Raw]. intros _ ->.
  unfold from_rgb, Bwry.from_rgb in Hi.
  by destruct (Z.eqb_spec (zlen raw) (Bwry.raw_rgb_len Bwry.panel_width Bwry.panel_height)).
Qed.

Lemma test_answer_post s w w' res wake evs :
  zlen (errorFrame s) = packed_len → untouched w w' →
  w_trace w' = w_trace w ++ evs → Forall (harmless s) evs →
  match RErr res with
  | None => zlen (Packed res) = packed_len ∧ zlen (Raw res) = RawFrameSize
  | Some _ => True end →
  test_post s w (test_answer s res wake) w'.
Proof.
  intros Herr Hu Ht He Hres. split; [done|]. split; [by exists evs|].
  unfold test_answer, encodeTestFrame. cbv zeta.
  destruct (marshal_test_meta _) as [mj|]; simpl.
  2: { split; [set_solver|]. split; [|done]. split; [lia|by intros []]. }
  split; [set_solver|]. split; [by split; [eexists|]|].
  intros out [= <-]. eexists mj, _, _. split; [split; [reflexivity|]|].
  - destruct (RErr res); [exact Herr|apply Hres].
  - destruct (RErr res); [by left|right; apply Hres].
Qed.

Lemma wp_run_test s body fn w : zlen (errorFrame s) = packed_len →
  wp (run_test s body fn) w (test_post s w).
Proof.
  intros Herr. apply wp_bind, wp_nowOrDefault. intros now w1 H1. cbv zeta. apply wp_bind. intros fs.
  set (rctx := MkRequestCtx _ _ _ _).
  destruct (renderOnce_runs box_open marshal_request unmarshal_meta text s fn rctx
    (test_opts s body fn) w1 fs) as (res & w2 & fs' & evs & Hrun & Hk & Ht & Hev).
  exists res, w2, fs'. split; [exact Hrun|]. apply wp_bind, wp_wakeFor. intros wake w3 H3.
  apply wp_ret. apply (test_answer_post _ _ _ _ _ evs); [done| | | |].
  - eapply untouched_trans; [by apply same_untouched|].
    eapply untouched_trans; [by apply kept_untouched|by apply same_untouched].
  - destruct H1 as (_ & _ & _ & H1 & _), H3 as (_ & _ & _ & H3 & _). by rewrite H3, Ht, H1.
  - by eapply render_events_harmless.
  - destruct (RErr res) eqn:Hn; [done|].
    destruct Hev as [[? _]|(req & c & _ & -> & _)]; [done|].
    pose proof (pack_response_ok text (test_opts s body fn) (RID req)
      (exchange marshal_request unmarshal_meta req c)) as Hp. rewrite Hn in Hp.
    split; [apply Hp|]. by apply pack_response_raw.
Qed.

Lemma wp_refused s w status : status ∈ [400; 404] →
  wp (mret (None, status)) w (test_post s w).
Proof.
  intros Hs. apply wp_ret. split; [done|]. split; [exists []; by rewrite app_nil_r|].
  simpl. split; [set_solver|]. split; [|done].
  split; [|by intros []]. intros ->. set_solver.
Qed.

(** A test render touches nothing a device is served from: no table, no
    cache, no durable frame. Whatever fails, it answers; every request it sends
    the worker carries only stubs in place of the bound secrets and limits no
    higher than production's. A 200 carries the metadata, a panel-sized frame
    where the browser expects it, and either the raw image of that render or the
    error frame without one. *)
Theorem TestRenderSeam_contained s seam w fs (Herr : zlen (errorFrame s) = packed_len) :
  ∃ a w' fs', TestRenderSeam s seam w fs = (Ok a, w', fs') ∧ test_post s w a w'.
Proof.
  enough (H : wp (TestRenderSeam s seam) w (test_post s w)) by exact (H fs).
  unfold TestRenderSeam. destruct (unmarshal_seam seam) as [body|]; [|apply wp_refused; set_solver].
  unfold testRender. destruct (tID body) as [id|]; [|by apply wp_run_test].
  apply wp_bind, wp_read; [apply wp_refused; set_solver|].
  destruct (functions (w_db w) !! id); [by apply wp_run_test|apply wp_refused; set_solver].
Qed.
End Test.

Definition ex_body : testRenderReq :=
  MkReq None "x" "" ["api"] [] "AB12" "stable" "" "" None (Some (MkLimits 99999 64)).

Lemma TestRenderSeam_contained_witness :
  (TestRenderSeam sample_open sample_marshal sample_unmarshal sample_text sample_time
     (λ _, None) (λ _, Some ex_body) sample_supervisor [] (sample_world true) []).1.1 = Ok (None, 500) ∧
  ∃ a w' fs', TestRenderSeam sample_open sample_marshal sample_unmarshal sample_text sample_time
     (λ _, Some [123; 125]) (λ _, Some ex_body) sample_supervisor [] (sample_world true) [] =
     (Ok a, w', fs') ∧ w_db w' = w_db (sample_world true).
Proof.
  split; [vm_compute; reflexivity|].
  destruct (TestRenderSeam_contained sample_open sample_marshal sample_unmarshal sample_text sample_time
    (λ _, Some [123; 125]) (λ _, Some ex_body) sample_supervisor [] (sample_world true) [] sample_frame)
    as (a & w' & fs' & Hrun & Hu & _).
  exists a, w', fs'. split; [exact Hrun|]. apply Hu.
Defined.

End TestRender.
