(* ===== verification/Credentials.v ===== *)
(** * Admin credentials ([internal/apitoken], [internal/adminuser], [internal/adminsession],
    [internal/operator], [internal/adminaudit], [internal/argon2id])

    The tables of migrations 0007, 0014 and 0015 and every operation on them:
    machine tokens, password accounts, browser sessions, operator keys and the
    audit trail. Random bytes are a tape ([None] where the source of randomness
    fails); argon2's key derivation is a parameter. Times are nanoseconds; a
    timestamp column keeps microseconds. *)

From S2P Require Import Prelude GoLib Db Crypto.
Import GoLib.

Module Credentials.

(** ** Tables *)

Record token_row := MkTokenRow {
  k_token_id : string; k_secret_hash : bytes; k_label : string; k_scopes : list string;
  k_created_at : Z; k_expires_at : option Z; k_last_used : option Z; k_disabled : option Z;
  k_created_by : option Z }.

Record user_row := MkUserRow {
  u_username : string; u_password_hash : string; u_is_admin : bool;
  u_created_at : Z; u_disabled : option Z }.

Record session_row := MkSessionRow {
  s_user_id : Z; s_created_at : Z; s_expires_at : Z; s_last_seen : Z }.

Record operator_row := MkOperatorRow {
  o_token_hash : bytes; o_label : string; o_is_admin : bool; o_created_at : Z;
  o_last_used : option Z; o_disabled : option Z; o_expires_at : option Z }.

Record Entry := MkEntry {
  ActorKind : string; ActorID : string; Action : string; Target : string;
  eRemoteIP : string; eOK : bool }.

Record db := MkDb {
  api_tokens : gmap Z token_row; admin_users : gmap Z user_row;
  admin_sessions : gmap bytes session_row; operator_keys : gmap Z operator_row;
  admin_audit : list (Z * Entry);
  next_token : Z; next_user : Z; next_operator : Z }.

Definition with_tokens (f : gmap Z token_row → gmap Z token_row) (d : db) : db :=
  MkDb (f (api_tokens d)) (admin_users d) (admin_sessions d) (operator_keys d) (admin_audit d)
    (next_token d) (next_user d) (next_operator d).
Definition with_users (f : gmap Z user_row → gmap Z user_row) (d : db) : db :=
  MkDb (api_tokens d) (f (admin_users d)) (admin_sessions d) (operator_keys d) (admin_audit d)
    (next_token d) (next_user d) (next_operator d).
Definition with_sessions (f : gmap bytes session_row → gmap bytes session_row) (d : db) : db :=
  MkDb (api_tokens d) (admin_users d) (f (admin_sessions d)) (operator_keys d) (admin_audit d)
    (next_token d) (next_user d) (next_operator d).
Definition with_operators (f : gmap Z operator_row → gmap Z operator_row) (d : db) : db :=
  MkDb (api_tokens d) (admin_users d) (admin_sessions d) (f (operator_keys d)) (admin_audit d)
    (next_token d) (next_user d) (next_operator d).

Inductive err :=
| EDb | ENoRows | EUnique | EForeignKey | ECheck | ERand
| ErrNotFound | ErrUnknownScope | ErrUsernameTaken | ErrRevoked
| ErrInvalidHash | ErrIncompatibleVersion.
#[global] Instance err_eq_dec : EqDecision err.
Proof. solve_decision. Defined.

Abbreviation MD := (M db err).

(** A value written to a TIMESTAMPTZ column. *)
Definition timestamptz (t : Z) : Z := t / 1000 * 1000.

(** [expires != nil && !expires.After(now)] *)
Definition expired (now : Z) (e : option Z) : bool :=
  match e with Some t => t <=? now | None => false end.

(** [SELECT … WHERE p]: the row of lowest id that satisfies [p]; the columns
    selected on below are unique. *)
Definition id_le {R} (a b : Z * R) : Prop := a.1 ≤ b.1.
#[global] Instance id_le_dec {R} (a b : Z * R) : Decision (id_le a b).
Proof. unfold id_le. apply _. Defined.
Definition by_id {R} (m : gmap Z R) : list (Z * R) := merge_sort id_le (map_to_list m).
Definition select {R} (p : R → bool) (m : gmap Z R) : option (Z * R) :=
  find_first (λ ir, p ir.2) (by_id m).

(** ** argon2id *)

Section Argon2.
(** [argon2.IDKey password salt time memory threads keyLen] *)
Context (IDKey : bytes → bytes → Z → Z → Z → Z → bytes).

Definition argon2_version : Z := 19.
Definition defTime : Z := 2.
Definition defMemory : Z := 65536.
Definition defThreads : Z := 1.
Definition saltLen : Z := 16.
Definition keyLen : Z := 32.

(** [base64.RawStdEncoding], by the alphabet's two characters that differ. *)
Definition std_char (c : Z) : Z := if c =? 45 then 43 else if c =? 95 then 47 else c.
Definition std_encode (b : bytes) : bytes := std_char <$> b64_encode b.
Definition url_char (c : Z) : option Z :=
  if c =? 43 then Some 45 else if c =? 47 then Some 95
  else if (c =? 45) || (c =? 95) then None else Some c.
Definition std_decode (s : bytes) : option bytes := mapM url_char s ≫= b64_decode.

Definition Hash (salt : option bytes) (password : string) : result err string :=
  match salt with
  | None => Err ERand
  | Some salt =>
      let key := IDKey (bytes_of_string password) salt defTime defMemory defThreads keyLen in
      let num v := format_int_b v in
      Ok (string_of_bytes
        (bytes_of_string "$argon2id$v=" ++ num argon2_version ++
         bytes_of_string "$m=" ++ num defMemory ++ bytes_of_string ",t=" ++ num defTime ++
         bytes_of_string ",p=" ++ num defThreads ++
         [36] ++ std_encode salt ++ [36] ++ std_encode key))
  end.

(** [fmt.Sscanf]: a literal of the format, and a decimal operand that fits
    [bits]; what follows the last operand is not looked at. *)
Definition scan_literal (lit : string) (s : bytes) : option bytes :=
  let l := bytes_of_string lit in
  if has_prefix l s then Some (drop (length l) s) else None.

(** [SkipSpace] stops at a newline. *)
Fixpoint skip_space_go (skip : nat) (s : bytes) : bytes :=
  match s with
  | [] => []
  | c :: s' =>
      match skip with
      | S skip => skip_space_go skip s'
      | O => match space_width s with
             | S w => if c =? 10 then s else skip_space_go w s'
             | O => s
             end
      end
  end.
Definition skip_space : bytes → bytes := skip_space_go 0.

Fixpoint digit_run (s : bytes) : bytes * bytes :=
  match s with
  | c :: s' => if is_digit c then let '(d, r) := digit_run s' in (c :: d, r) else ([], s)
  | [] => ([], [])
  end.

Definition scan_uint (bits : Z) (s : bytes) : option (Z * bytes) :=
  let '(d, rest) := digit_run (skip_space s) in
  match parse_uint_b d 64 with
  | (n, None) => if n <? 2 ^ bits then Some (n, rest) else None
  | _ => None
  end.

Definition scan_int (s : bytes) : option (Z * bytes) :=
  let s := skip_space s in
  let '(sign, s) := match s with
    | c :: s' => if (c =? 43) || (c =? 45) then ([c], s') else ([], s)
    | [] => ([], s)
    end in
  let '(d, rest) := digit_run s in
  match parse_int_b (sign ++ d) 64 with (n, None) => Some (n, rest) | _ => None end.

Definition scan_params (s : bytes) : option (Z * Z * Z) :=
  s ← scan_literal "m=" s; '(m, s) ← scan_uint 32 s;
  s ← scan_literal ",t=" s; '(t, s) ← scan_uint 32 s;
  s ← scan_literal ",p=" s; '(p, s) ← scan_uint 8 s;
  Some (m, t, p).

Record phc := MkPhc { p_m : Z; p_t : Z; p_p : Z; p_salt : bytes; p_key : bytes }.

Definition decode (s : string) : result err phc :=
  match split (bytes_of_string s) [36] with
  | [_; alg; ver; params; salt; key] =>
      if negb (bool_decide (alg = bytes_of_string "argon2id")) then Err ErrInvalidHash
      else match s ← scan_literal "v=" ver; scan_int s with
      | None => Err ErrInvalidHash
      | Some (version, _) =>
          if negb (version =? argon2_version) then Err ErrIncompatibleVersion
          else match scan_params params, std_decode salt, std_decode key with
          | Some (m, t, p), Some salt, Some key => Ok (MkPhc m t p salt key)
          | _, _, _ => Err ErrInvalidHash
          end
      end
  | _ => Err ErrInvalidHash
  end.

Definition verify_hash (password : string) (s : string) : result err bool :=
  match decode s with
  | Err e => Err e
  | Ok h => Ok (bool_decide
      (IDKey (bytes_of_string password) (p_salt h) (p_t h) (p_m h) (p_p h) (zlen (p_key h)) = p_key h))
  end.

(** ** Password accounts *)

Record User := MkUser {
  uID : Z; Username : string; uIsAdmin : bool; uCreatedAt : Z; uDisabledAt : option Z }.
Definition scanUser (id : Z) (u : user_row) : User :=
  MkUser id (u_username u) (u_is_admin u) (u_created_at u) (u_disabled u).

Definition by_username (name : string) (u : user_row) : bool := bool_decide (u_username u = name).

Definition insert_user (now : Z) (name hash : string) (admin : bool) (d : db) : result err User * db :=
  if select (by_username name) (admin_users d) is Some _ then (Err EUnique, d)
  else
    let row := MkUserRow name hash admin (timestamptz now) None in
    (Ok (scanUser (next_user d) row),
     MkDb (api_tokens d) (<[next_user d := row]> (admin_users d)) (admin_sessions d)
       (operator_keys d) (admin_audit d) (next_token d) (next_user d + 1) (next_operator d)).

Definition CreateUser (now : Z) (salt : option bytes) (username password : string) (isAdmin : bool)
    : MD User :=
  match Hash salt password with
  | Err e => throw e
  | Ok hash =>
      u ← attempt (stmt EDb (insert_user now username hash isAdmin));
      match u with
      | Ok u => mret u
      | Err EUnique => throw ErrUsernameTaken
      | Err e => throw e
      end
  end.

Definition GetByUsername (username : string) : MD User :=
  query EDb (λ d, match select (by_username username) (admin_users d) with
                  | Some (id, u) => Ok (scanUser id u)
                  | None => Err ErrNotFound end).

Definition GetByID (id : Z) : MD User :=
  query EDb (λ d, match admin_users d !! id with
                  | Some u => Ok (scanUser id u)
                  | None => Err ErrNotFound end).

(** An unknown name costs a derivation too; its outcome is not used. *)
Definition VerifyUser (username password : string) : MD (option User) :=
  row ← attempt (query EDb (λ d, match select (by_username username) (admin_users d) with
                                 | Some iu => Ok iu | None => Err ENoRows end));
  match row with
  | Err ENoRows => mret None
  | Err e => throw e
  | Ok (id, u) =>
      match verify_hash password (u_password_hash u) with
      | Err e => throw e
      | Ok ok => mret (if negb ok || bool_decide (is_Some (u_disabled u)) then None
                       else Some (scanUser id u))
      end
  end.

Definition set_user_disabled (at_ : option Z) (u : user_row) : user_row :=
  MkUserRow (u_username u) (u_password_hash u) (u_is_admin u) (u_created_at u) at_.

Definition SetDisabled (now : Z) (id : Z) (disabled : bool) : MD unit :=
  stmt EDb (λ d, match admin_users d !! id with
    | None => (Err ErrNotFound, d)
    | Some _ => (Ok tt, with_users
        (alter (set_user_disabled (if disabled then Some (timestamptz now) else None)) id) d)
    end).
End Argon2.

(** ** Machine tokens *)

Definition TokenPrefix : string := "ppk_".
Definition tokenIDLen : Z := 12.
Definition secretLen : Z := 32.
(** [enc.EncodedLen(tokenIDLen)] *)
Definition tokenIDEncLen : Z := (tokenIDLen * 8 + 5) / 6.

Definition KnownScopes : list string := ["image:read"; "image:write"]%string.
Definition known_scope (s : string) : bool := existsb (λ k, bool_decide (k = s)) KnownScopes.

Record Token := MkToken {
  ID : Z; TokenID : string; Label : string; Scopes : list string; CreatedAt : Z;
  ExpiresAt : option Z; LastUsedAt : option Z; DisabledAt : option Z; CreatedBy : option Z }.
Definition scanToken (id : Z) (r : token_row) : Token :=
  MkToken id (k_token_id r) (k_label r) (k_scopes r) (k_created_at r) (k_expires_at r)
    (k_last_used r) (k_disabled r) (k_created_by r).

Definition by_token_id (tid : string) (r : token_row) : bool := bool_decide (k_token_id r = tid).
Definition live_token (tid : string) (r : token_row) : bool :=
  by_token_id tid r && bool_decide (k_disabled r = None).

Definition hashSecret (secret : string) : bytes := Crypto.sha256 (bytes_of_string secret).

Definition randString (b : option bytes) : result err string :=
  match b with Some b => Ok (string_of_bytes (b64_encode b)) | None => Err ERand end.

Definition insert_token (r : token_row) (d : db) : result err Token * db :=
  if negb (bool_decide (length (k_secret_hash r) = 32%nat)) || negb (forallb known_scope (k_scopes r))
  then (Err ECheck, d)
  else if select (by_token_id (k_token_id r)) (api_tokens d) is Some _ then (Err EUnique, d)
  else if match k_created_by r with
          | Some k => bool_decide (operator_keys d !! k = None) | None => false end
  then (Err EForeignKey, d)
  else
    (Ok (scanToken (next_token d) r),
     MkDb (<[next_token d := r]> (api_tokens d)) (admin_users d) (admin_sessions d)
       (operator_keys d) (admin_audit d) (next_token d + 1) (next_user d) (next_operator d)).

Definition new_token (now : Z) (tid : string) (secret label : string) (scopes : list string)
    (expires : option Z) (createdBy : option Z) : token_row :=
  MkTokenRow tid (hashSecret secret) label scopes (timestamptz now) (timestamptz <$> expires)
    None None createdBy.

Definition CreateToken (now : Z) (rid rsecret : option bytes) (label : string)
    (scopes : list string) (expires : option Z) (createdBy : option Z) : MD (string * Token) :=
  if negb (forallb known_scope scopes) then throw ErrUnknownScope
  else match randString rid, randString rsecret with
  | Ok tid, Ok secret =>
      tok ← stmt EDb (insert_token (new_token now tid secret label scopes expires createdBy));
      mret ((TokenPrefix +:+ tid +:+ "_" +:+ secret)%string, tok)
  | Err e, _ | _, Err e => throw e
  end.

(** The split is at a fixed offset: both parts may hold the separator. *)
Definition ParseToken (raw : string) : option (string * string) :=
  let p := bytes_of_string TokenPrefix in
  let b := bytes_of_string raw in
  if negb (has_prefix p b) then None
  else
    let rest := drop (length p) b in
    if (zlen rest <? tokenIDEncLen + 2) || negb (bool_decide (rest !! Z.to_nat tokenIDEncLen = Some 95))
    then None
    else Some (string_of_bytes (take (Z.to_nat tokenIDEncLen) rest),
               string_of_bytes (drop (Z.to_nat (tokenIDEncLen + 1)) rest)).

Definition ResolveToken (now : Z) (raw : string) : MD (option Token) :=
  match ParseToken raw with
  | None => mret None
  | Some (tid, secret) =>
      row ← attempt (query EDb (λ d, match select (live_token tid) (api_tokens d) with
                                     | Some ir => Ok ir | None => Err ENoRows end));
      match row with
      | Err ENoRows => mret None
      | Err e => throw e
      | Ok (id, r) =>
          mret (if negb (bool_decide (hashSecret secret = k_secret_hash r)) then None
                else if expired now (k_expires_at r) then None
                else Some (scanToken id r))
      end
  end.

Definition GetToken (id : Z) : MD Token :=
  query EDb (λ d, match api_tokens d !! id with
                  | Some r => Ok (scanToken id r) | None => Err ErrNotFound end).

Definition ListTokens : MD (list Token) :=
  query EDb (λ d, Ok ((λ ir, scanToken ir.1 ir.2) <$> by_id (api_tokens d))).

Definition set_disabled (now : Z) (r : token_row) : token_row :=
  MkTokenRow (k_token_id r) (k_secret_hash r) (k_label r) (k_scopes r) (k_created_at r)
    (k_expires_at r) (k_last_used r) (Some (timestamptz now)) (k_created_by r).
Definition set_used (now : Z) (r : token_row) : token_row :=
  MkTokenRow (k_token_id r) (k_secret_hash r) (k_label r) (k_scopes r) (k_created_at r)
    (k_expires_at r) (Some (timestamptz now)) (k_disabled r) (k_created_by r).

Definition Revoke (now id : Z) : MD unit :=
  stmt EDb (λ d, match api_tokens d !! id with
    | None => (Err ErrNotFound, d)
    | Some _ => (Ok tt, with_tokens (alter (set_disabled now) id) d) end).

Definition TouchToken (now id : Z) : MD unit :=
  exec EDb (with_tokens (alter (set_used now) id)).

(** ** Sessions *)

Record Session := MkSession {
  sUserID : Z; sCreatedAt : Z; sExpiresAt : Z; sLastSeenAt : Z }.
Definition scanSession (r : session_row) : Session :=
  MkSession (s_user_id r) (s_created_at r) (s_expires_at r) (s_last_seen r).

Definition insert_session (id : bytes) (r : session_row) (d : db) : result err Session * db :=
  if bool_decide (is_Some (admin_sessions d !! id)) then (Err EUnique, d)
  else if bool_decide (admin_users d !! s_user_id r = None) then (Err EForeignKey, d)
  else (Ok (scanSession r), with_sessions (<[id := r]>) d).

Definition CreateSession (now : Z) (raw : option bytes) (userID ttl : Z) : MD (string * Session) :=
  match randString raw with
  | Err e => throw e
  | Ok secret =>
      sess ← stmt EDb (insert_session (hashSecret secret)
        (MkSessionRow userID (timestamptz now) (timestamptz (now + ttl)) (timestamptz now)));
      mret (secret, sess)
  end.

Definition ResolveSession (now : Z) (secret : string) : MD (option Session) :=
  row ← attempt (query EDb (λ d, match admin_sessions d !! hashSecret secret with
                                 | Some r => Ok (scanSession r) | None => Err ENoRows end));
  match row with
  | Err ENoRows => mret None
  | Err e => throw e
  | Ok s => mret (if expired now (Some (sExpiresAt s)) then None else Some s)
  end.

Definition DeleteSession (secret : string) : MD unit :=
  exec EDb (with_sessions (delete (hashSecret secret))).

Definition live_session (now : Z) (ir : bytes * session_row) : Prop :=
  timestamptz now ≤ s_expires_at ir.2.
#[global] Instance live_session_dec now ir : Decision (live_session now ir).
Proof. unfold live_session. apply _. Defined.

Definition CleanupSessions (now : Z) : MD Z :=
  stmt EDb (λ d,
    let kept := filter (live_session now) (admin_sessions d) in
    (Ok (Z.of_nat (size (admin_sessions d) - size kept)), with_sessions (λ _, kept) d)).

(** ** Operator keys *)

Record AuthResult := MkAuth { KeyID : Z; aIsAdmin : bool; aLabel : string }.

Definition live_key (h : bytes) (o : operator_row) : bool :=
  bool_decide (o_token_hash o = h) && bool_decide (o_disabled o = None).

Definition Authenticate (now : Z) (token : string) : MD (option AuthResult) :=
  let h := hashSecret token in
  row ← attempt (query EDb (λ d, match select (live_key h) (operator_keys d) with
                                 | Some ir => Ok ir | None => Err ENoRows end));
  match row with
  | Err ENoRows => mret None
  | Err e => throw e
  | Ok (id, o) =>
      mret (if negb (bool_decide (h = o_token_hash o)) then None
            else if expired now (o_expires_at o) then None
            else Some (MkAuth id (o_is_admin o) (o_label o)))
  end.

Definition set_operator (used disabled expires : option Z) (o : operator_row) : operator_row :=
  MkOperatorRow (o_token_hash o) (o_label o) (o_is_admin o) (o_created_at o) used disabled expires.

Definition use_key (now : Z) (o : operator_row) : operator_row :=
  set_operator (Some (timestamptz now)) (o_disabled o) (o_expires_at o) o.

Definition TouchOperator (now id : Z) : MD unit :=
  exec EDb (with_operators (alter (use_key now) id)).

Definition newOperatorToken (raw : bytes) : string * bytes :=
  let token := string_of_bytes (b64_encode raw) in (token, hashSecret token).

Definition insert_operator (now : Z) (hash : bytes) (label : string) (isAdmin : bool) (d : db)
    : result err Z * db :=
  if negb (bool_decide (length hash = 32%nat)) then (Err ECheck, d)
  else if select (λ o, bool_decide (o_token_hash o = hash)) (operator_keys d) is Some _ then (Err EUnique, d)
  else
    (Ok (next_operator d),
     MkDb (api_tokens d) (admin_users d) (admin_sessions d)
       (<[next_operator d := MkOperatorRow hash label isAdmin (timestamptz now) None None None]>
          (operator_keys d))
       (admin_audit d) (next_token d) (next_user d) (next_operator d + 1)).

(** The exit code, with the key and the token printed. *)
Definition createOperator (now : Z) (tty : bool) (raw : bytes) (label : string) (isAdmin : bool)
    : MD (Z * option (Z * string)) :=
  if negb tty then mret (3, None)
  else
    let '(token, hash) := newOperatorToken raw in
    id ← attempt (stmt EDb (insert_operator now hash label isAdmin));
    mret (match id with Ok id => (0, Some (id, token)) | Err _ => (1, None) end).

Definition disable_key (now : Z) (o : operator_row) : operator_row :=
  set_operator (o_last_used o) (Some (timestamptz now)) (o_expires_at o) o.

Definition disableOperator (now id : Z) : MD Z :=
  flipped ← attempt (stmt EDb (λ d, match operator_keys d !! id with
    | Some o => match o_disabled o with
                | None => (Ok true, with_operators (alter (disable_key now) id) d)
                | Some _ => (Ok false, d)
                end
    | None => (Ok false, d) end));
  match flipped with
  | Err _ => mret 1
  | Ok true => mret 0
  | Ok false =>
      existed ← attempt (query EDb (λ d, match operator_keys d !! id with
                                         | Some _ => Ok tt | None => Err ENoRows end));
      mret (match existed with Err ENoRows => 1 | _ => 0 end)
  end.

Record rotation := MkRotation {
  OldID : Z; NewID : Z; rToken : string; rLabel : string; rIsAdmin : bool; OldExpiry : Z }.

Definition set_expiry (e : Z) (o : operator_row) : operator_row :=
  set_operator (o_last_used o) (o_disabled o) (Some (timestamptz e)) o.

(** The replacement and the old key's expiry, in one transaction. *)
Definition rotate_tx (now : Z) (raw : bytes) (o : operator_row) (oldID grace : Z) : MD rotation :=
  let '(token, hash) := newOperatorToken raw in
  let oldExpiry := now + grace in
  with_tx EDb (
    newID ← tx_stmt EDb (insert_operator now hash (o_label o) (o_is_admin o));
    _ ← tx_exec EDb (with_operators (alter (set_expiry oldExpiry) oldID));
    _ ← commit EDb;
    mret (MkRotation oldID newID token (o_label o) (o_is_admin o) oldExpiry)).

Definition rotateOperatorKey (now : Z) (raw : bytes) (oldID grace : Z) : MD rotation :=
  o ← query EDb (λ d, match operator_keys d !! oldID with
                      | Some o => Ok o | None => Err ErrNotFound end);
  if bool_decide (is_Some (o_disabled o)) then throw ErrRevoked
  else rotate_tx now raw o oldID grace.

(** ** The audit trail *)

Definition Write (now : Z) (e : Entry) : MD unit :=
  exec EDb (λ d, MkDb (api_tokens d) (admin_users d) (admin_sessions d) (operator_keys d)
    (admin_audit d ++ [(timestamptz now, e)]) (next_token d) (next_user d) (next_operator d)).

(** ** Lemmas: selection *)

Lemma elem_of_by_id {R} (m : gmap Z R) i r : (i, r) ∈ by_id m ↔ m !! i = Some r.
Proof. unfold by_id. by rewrite merge_sort_Permutation, elem_of_map_to_list. Qed.

Lemma select_Some {R} (p : R → bool) m i r : select p m = Some (i, r) → m !! i = Some r ∧ p r = true.
Proof. intros [H ?]%find_first_Some. by apply elem_of_by_id in H. Qed.

Lemma select_None {R} (p : R → bool) m : select p m = None ↔ ∀ i r, m !! i = Some r → p r = false.
Proof.
  unfold select. rewrite find_first_None. split.
  - intros H i r Hi. by apply (H (i, r)), elem_of_by_id.
  - intros H [i r] Hi%elem_of_by_id. by apply (H i r).
Qed.

Lemma select_unique {R} (p : R → bool) m i r :
  m !! i = Some r → p r = true → (∀ j r', m !! j = Some r' → p r' = true → j = i) →
  select p m = Some (i, r).
Proof.
  intros Hi Hp Hu. destruct (select p m) as [[j r']|] eqn:H.
  - apply select_Some in H as [Hj Hp']. pose proof (Hu j r' Hj Hp'). subst. congruence.
  - rewrite select_None in H. rewrite (H i r Hi) in Hp. done.
Qed.

(** ** Tables with an identity column *)

Definition below {R} (n : Z) (m : gmap Z R) : Prop := map_Forall (λ i _, i < n) m.
Definition unique {R A} (f : R → A) (m : gmap Z R) : Prop :=
  ∀ i j r r', m !! i = Some r → m !! j = Some r' → f r = f r' → i = j.
Definition grows {R} (E : R → R → Prop) (m m' : gmap Z R) : Prop :=
  ∀ i r, m !! i = Some r → ∃ r', m' !! i = Some r' ∧ E r r'.

Section Identity.
Context {R : Type}.
Implicit Types (m : gmap Z R).

Lemma below_fresh n m : below n m → m !! n = None.
Proof. intros H. destruct (m !! n) eqn:Hn; [|done]. apply H in Hn. lia. Qed.

Lemma below_insert n r m : below n m → below (n + 1) (<[n:=r]> m).
Proof.
  intros H i r'. rewrite lookup_insert_Some. intros [[-> _]|[_ Hi]]; [lia|].
  apply H in Hi. lia.
Qed.

Lemma unique_insert {A} (f : R → A) n r m :
  unique f m → (∀ i r', m !! i = Some r' → f r' ≠ f r) → unique f (<[n:=r]> m).
Proof.
  intros Hu Hf i j a b. rewrite !lookup_insert_Some.
  intros [[<- <-]|[? Hi]] [[<- <-]|[? Hj]] He; [done|by destruct (Hf _ _ Hj)|by destruct (Hf _ _ Hi)|].
  by apply (Hu i j a b).
Qed.

Lemma grows_refl (E : R → R → Prop) m : (∀ r, E r r) → grows E m m.
Proof. intros H i r Hi. by exists r. Qed.

Lemma grows_insert (E : R → R → Prop) n r m : (∀ r, E r r) → m !! n = None → grows E m (<[n:=r]> m).
Proof.
  intros H Hn i r' Hi. exists r'. split; [|done]. rewrite lookup_insert_ne; [done|]. congruence.
Qed.

Section Alter.
Context (g : R → R) (k : Z).

Lemma altered m i a : alter g k m !! i = Some a →
  ∃ r, m !! i = Some r ∧ (a = r ∨ i = k ∧ a = g r).
Proof. rewrite lookup_alter_Some. intros [(-> & r & ? & ->)|[? ?]]; eauto. Qed.

Lemma below_alter n m : below n m → below n (alter g k m).
Proof. intros H i r (r' & Hi & _)%altered. by apply (H i r'). Qed.

Lemma unique_alter {A} (f : R → A) m : (∀ r, f (g r) = f r) → unique f m → unique f (alter g k m).
Proof.
  intros Hg Hu i j a b (a' & Hi & Ha)%altered (b' & Hj & Hb)%altered He.
  apply (Hu i j a' b' Hi Hj). destruct Ha as [->|[_ ->]], Hb as [->|[_ ->]]; by rewrite ?Hg in *.
Qed.

Lemma Forall_alter (P : Z → R → Prop) m : (∀ r, P k r → P k (g r)) → map_Forall P m → map_Forall P (alter g k m).
Proof.
  intros Hg H i a (a' & Hi & [->|[-> ->]])%altered; apply H in Hi; auto.
Qed.

Lemma grows_alter (E : R → R → Prop) m : (∀ r, E r r) → (∀ r, E r (g r)) → grows E m (alter g k m).
Proof.
  intros Hr Hg i r Hi. destruct (decide (k = i)) as [->|].
  - exists (g r). split; [|done]. by rewrite lookup_alter_eq, Hi.
  - exists r. split; [|done]. by rewrite lookup_alter_ne.
Qed.
End Alter.
End Identity.

(** ** The tables' invariant *)

Record tables_ok (d : db) : Prop := {
  tok_below : below (next_token d) (api_tokens d);
  tok_unique : unique k_token_id (api_tokens d);
  tok_check : map_Forall (λ _ r, length (k_secret_hash r) = 32%nat ∧ forallb known_scope (k_scopes r) = true)
    (api_tokens d);
  tok_by : map_Forall (λ _ r, ∀ k, k_created_by r = Some k → is_Some (operator_keys d !! k)) (api_tokens d);
  usr_below : below (next_user d) (admin_users d);
  usr_unique : unique u_username (admin_users d);
  ses_check : map_Forall (λ h s, length h = 32%nat ∧ is_Some (admin_users d !! s_user_id s)) (admin_sessions d);
  key_below : below (next_operator d) (operator_keys d);
  key_unique : unique o_token_hash (operator_keys d);
  key_check : map_Forall (λ _ o, length (o_token_hash o) = 32%nat) (operator_keys d) }.

(** What a row authenticates never changes; a revocation is final; the trail
    only grows. *)
Definition token_evolves (r r' : token_row) : Prop :=
  k_token_id r' = k_token_id r ∧ k_secret_hash r' = k_secret_hash r ∧ k_scopes r' = k_scopes r ∧
  k_expires_at r' = k_expires_at r ∧ k_created_by r' = k_created_by r ∧
  (is_Some (k_disabled r) → is_Some (k_disabled r')).
Definition user_evolves (u u' : user_row) : Prop :=
  u_username u' = u_username u ∧ u_password_hash u' = u_password_hash u ∧ u_is_admin u' = u_is_admin u.
Definition key_evolves (o o' : operator_row) : Prop :=
  o_token_hash o' = o_token_hash o ∧ o_label o' = o_label o ∧ o_is_admin o' = o_is_admin o ∧
  (is_Some (o_disabled o) → is_Some (o_disabled o')).

Record evolves (d d' : db) : Prop := {
  ev_tokens : grows token_evolves (api_tokens d) (api_tokens d');
  ev_users : grows user_evolves (admin_users d) (admin_users d');
  ev_keys : grows key_evolves (operator_keys d) (operator_keys d');
  ev_sessions h s s' : admin_sessions d !! h = Some s → admin_sessions d' !! h = Some s' → s' = s;
  ev_audit : admin_audit d `prefix_of` admin_audit d' }.

Definition sound (d d' : db) : Prop := tables_ok d → tables_ok d' ∧ evolves d d'.

Lemma token_evolves_refl r : token_evolves r r.
Proof. by split_and!. Qed.
Lemma user_evolves_refl u : user_evolves u u.
Proof. by split_and!. Qed.
Lemma key_evolves_refl o : key_evolves o o.
Proof. by split_and!. Qed.
#[local] Hint Resolve token_evolves_refl user_evolves_refl key_evolves_refl : core.

Lemma evolves_refl d : evolves d d.
Proof. split; try (apply grows_refl; auto); [congruence|done]. Qed.
Lemma sound_refl d : sound d d.
Proof. split; [done|apply evolves_refl]. Qed.
#[local] Hint Resolve sound_refl : core.

(** The parts of the tables an operation leaves alone. *)
Ltac frame := try first [done | by apply grows_refl | congruence].
Ltac sound_split := intros H; pose proof H as Hok; destruct H; split; split; cbn; frame.

Lemma is_Some_grows {R} (E : R → R → Prop) m m' k : grows E m m' → is_Some (m !! k) → is_Some (m' !! k).
Proof. intros H [r Hr]. destruct (H k r Hr) as (r' & ? & _). by exists r'. Qed.

Lemma sound_insert_user now name hash admin d : sound d (insert_user now name hash admin d).2.
Proof.
  unfold insert_user. destruct (select _ _) eqn:Hs; [auto|]. cbn.
  rewrite select_None in Hs. sound_split.
  - by apply below_insert.
  - apply unique_insert; [done|]. intros i r' Hi Heq. specialize (Hs i r' Hi).
    by apply bool_decide_eq_false in Hs.
  - intros h s Hh. apply ses_check0 in Hh as [? ?]. split; [done|].
    apply (is_Some_grows user_evolves (admin_users d)); [|done].
    apply grows_insert; [auto|]. by apply below_fresh.
  - apply grows_insert; [auto|]. by apply below_fresh.
Qed.

Lemma sound_insert_token r d : sound d (insert_token r d).2.
Proof.
  unfold insert_token. destruct (negb _ || negb _) eqn:Hc; [auto|].
  destruct (select _ _) eqn:Hs; [auto|]. 
  destruct (match k_created_by r with Some k => bool_decide (operator_keys d !! k = None) | None => false end)
    eqn:Hf; [auto|].
  cbn. rewrite select_None in Hs. apply orb_false_iff in Hc as [Hl Hk].
  apply negb_false_iff, bool_decide_eq_true in Hl. apply negb_false_iff in Hk. sound_split.
  - by apply below_insert.
  - apply unique_insert; [done|]. intros i r' Hi Heq. specialize (Hs i r' Hi).
    by apply bool_decide_eq_false in Hs.
  - by apply map_Forall_insert_2.
  - apply map_Forall_insert_2; [|done]. intros k Hk'. rewrite Hk' in Hf.
    apply bool_decide_eq_false in Hf. by destruct (operator_keys d !! k).
  - apply grows_insert; [auto|]. by apply below_fresh.
Qed.

Lemma sound_insert_operator now hash label admin d : sound d (insert_operator now hash label admin d).2.
Proof.
  unfold insert_operator. destruct (negb _) eqn:Hl; [auto|].
  destruct (select _ _) eqn:Hs; [auto|]. cbn. rewrite select_None in Hs.
  apply negb_false_iff, bool_decide_eq_true in Hl. sound_split.
  - intros i r Hi k Hk. eapply is_Some_grows; [|by apply (tok_by0 i r)].
    apply (grows_insert key_evolves); [auto|]. by apply below_fresh.
  - by apply below_insert.
  - apply unique_insert; [done|]. intros i r' Hi Heq. specialize (Hs i r' Hi).
    by apply bool_decide_eq_false in Hs.
  - by apply map_Forall_insert_2.
  - apply grows_insert; [auto|]. by apply below_fresh.
Qed.

Lemma sound_tokens g k d :
  (∀ r, k_token_id (g r) = k_token_id r ∧ k_secret_hash (g r) = k_secret_hash r ∧
        k_scopes (g r) = k_scopes r ∧ k_created_by (g r) = k_created_by r) →
  (∀ r, token_evolves r (g r)) → sound d (with_tokens (alter g k) d).
Proof.
  intros Hg He. sound_split.
  - by apply below_alter.
  - apply unique_alter; [apply Hg|done].
  - apply Forall_alter; [|done]. intros r. by destruct (Hg r) as (_ & -> & -> & _).
  - apply Forall_alter; [|done]. intros r. by destruct (Hg r) as (_ & _ & _ & ->).
  - apply grows_alter; auto.
Qed.

Lemma sound_users g k d : (∀ u, user_evolves u (g u)) → sound d (with_users (alter g k) d).
Proof.
  intros He. sound_split.
  - by apply below_alter.
  - apply unique_alter; [apply He|done].
  - intros h s Hh. apply ses_check0 in Hh as [? ?]. split; [done|]. by apply lookup_alter_is_Some.
  - apply grows_alter; auto.
Qed.

Lemma sound_operators g k d : (∀ o, key_evolves o (g o)) → sound d (with_operators (alter g k) d).
Proof.
  intros He. sound_split.
  - intros i r Hi j Hj. apply lookup_alter_is_Some. by apply (tok_by0 i r).
  - by apply below_alter.
  - apply unique_alter; [apply He|done].
  - apply Forall_alter; [|done]. intros o. by destruct (He o) as [-> _].
  - apply grows_alter; auto.
Qed.

Lemma sound_insert_session secret r d : sound d (insert_session (hashSecret secret) r d).2.
Proof.
  unfold insert_session. case_bool_decide as Hn; [auto|]. case_bool_decide as Hu; [auto|].
  cbn. sound_split.
  - apply map_Forall_insert_2; [|done]. split; [apply Crypto.sha256_length|].
    by destruct (admin_users d !! _).
  - intros h s s' Hs. rewrite lookup_insert_ne; [congruence|]. intros <-. by destruct Hn.
Qed.

(** Rows only leave. *)
Lemma sound_sessions f d : f (admin_sessions d) ⊆ admin_sessions d → sound d (with_sessions f d).
Proof.
  intros Hf. sound_split.
  - intros h s Hh. apply ses_check0. by eapply lookup_weaken.
  - intros h s s' Hs Hs'. eapply lookup_weaken in Hs'; [|exact Hf]. congruence.
Qed.

Lemma sound_trans d1 d2 d3 :
  sound d1 d2 → (tables_ok d2 → tables_ok d3 ∧ evolves d2 d3) → admin_sessions d1 = admin_sessions d2 →
  sound d1 d3.
Proof.
  intros H12 H23 Hses H1. destruct (H12 H1) as [H2 E12]. destruct (H23 H2) as [H3 E23].
  split; [done|]. destruct E12, E23. split.
  - intros i r (r' & Hr & ? & ? & ? & ? & ? & ?)%ev_tokens0.
    destruct (ev_tokens1 i r' Hr) as (r2 & ? & ? & ? & ? & ? & ? & ?).
    exists r2. split; [done|]. split_and!; try congruence. auto.
  - intros i r (r' & Hr & ? & ? & ?)%ev_users0.
    destruct (ev_users1 i r' Hr) as (r2 & ? & ? & ? & ?). exists r2. split; [done|].
    split_and!; congruence.
  - intros i r (r' & Hr & ? & ? & ? & ?)%ev_keys0.
    destruct (ev_keys1 i r' Hr) as (r2 & ? & ? & ? & ? & ?). exists r2. split; [done|].
    split_and!; try congruence. auto.
  - rewrite Hses. done.
  - by etrans.
Qed.

(** ** Every operation *)

Section Operations.
Context (IDKey : bytes → bytes → Z → Z → Z → Z → bytes).

Inductive op :=
| OCreateUser (now : Z) (salt : option bytes) (username password : string) (admin : bool)
| OVerifyUser (username password : string)
| OSetDisabled (now id : Z) (disabled : bool)
| OCreateToken (now : Z) (rid rsecret : option bytes) (label : string) (scopes : list string)
    (expires createdBy : option Z)
| OResolveToken (now : Z) (raw : string)
| ORevoke (now id : Z)
| OTouchToken (now id : Z)
| OCreateSession (now : Z) (raw : option bytes) (userID ttl : Z)
| OResolveSession (now : Z) (secret : string)
| ODeleteSession (secret : string)
| OCleanup (now : Z)
| OAuthenticate (now : Z) (token : string)
| OTouchOperator (now id : Z)
| OCreateOperator (now : Z) (tty : bool) (raw : bytes) (label : string) (admin : bool)
| ODisableOperator (now id : Z)
| ORotate (now : Z) (raw : bytes) (id grace : Z)
| OWrite (now : Z) (e : Entry).

Definition forget {A} (m : MD A) : MD unit := _ ← m; mret ().

Definition run_op (o : op) : MD unit :=
  match o with
  | OCreateUser now salt u p a => forget (CreateUser IDKey now salt u p a)
  | OVerifyUser u p => forget (VerifyUser IDKey u p)
  | OSetDisabled now id b => SetDisabled now id b
  | OCreateToken now i s l sc e c => forget (CreateToken now i s l sc e c)
  | OResolveToken now raw => forget (ResolveToken now raw)
  | ORevoke now id => Revoke now id
  | OTouchToken now id => TouchToken now id
  | OCreateSession now raw u ttl => forget (CreateSession now raw u ttl)
  | OResolveSession now s => forget (ResolveSession now s)
  | ODeleteSession s => DeleteSession s
  | OCleanup now => forget (CleanupSessions now)
  | OAuthenticate now t => forget (Authenticate now t)
  | OTouchOperator now id => TouchOperator now id
  | OCreateOperator now tty raw l a => forget (createOperator now tty raw l a)
  | ODisableOperator now id => forget (disableOperator now id)
  | ORotate now raw id g => forget (rotateOperatorKey now raw id g)
  | OWrite now e => Write now e
  end.

(** An operation that only reads, or does one sound statement. *)
Definition sound_op {A} (m : MD A) : Prop := ∀ d fs, sound d (m d fs).1.2.
Definition reads {A} (m : MD A) : Prop := ∀ d fs, (m d fs).1.2 = d.

Lemma reads_ret {A} (a : A) : reads (mret a).
Proof. done. Qed.
Lemma reads_throw {A} (e : err) : reads (throw e : MD A).
Proof. done. Qed.
Lemma reads_query {A} (e : err) (f : db → result err A) : reads (query e f).
Proof. intros d fs. unfold query, stmt. by destruct fs as [|[] fs]. Qed.
Lemma reads_attempt {A} (m : MD A) : reads m → reads (attempt m).
Proof. intros H d fs. unfold attempt. specialize (H d fs). by destruct (m d fs) as [[r d'] fs']. Qed.
Lemma reads_bind {A B} (m : MD A) (k : A → MD B) : reads m → (∀ a, reads (k a)) → reads (m ≫= k).
Proof.
  intros Hm Hk d fs. unfold mbind, M_bind. specialize (Hm d fs).
  destruct (m d fs) as [[[a|e] d'] fs']; simpl in *; subst; [apply Hk|done].
Qed.

Lemma sound_reads {A} (m : MD A) : reads m → sound_op m.
Proof. intros H d fs. rewrite H. auto. Qed.
Lemma sound_stmt {A} (e : err) (f : db → result err A * db) : (∀ d, sound d (f d).2) → sound_op (stmt e f).
Proof. intros H d fs. by apply stmt_effect. Qed.
Lemma sound_attempt {A} (m : MD A) : sound_op m → sound_op (attempt m).
Proof. intros H d fs. unfold attempt. specialize (H d fs). by destruct (m d fs) as [[r d'] fs']. Qed.
Lemma sound_then {A B} (m : MD A) (k : A → MD B) : sound_op m → (∀ a, reads (k a)) → sound_op (m ≫= k).
Proof.
  intros Hm Hk d fs. specialize (Hm d fs). unfold mbind, M_bind.
  destruct (m d fs) as [[[a|e] d'] fs']; simpl in *; [by rewrite Hk|done].
Qed.
Lemma sound_after {A B} (m : MD A) (k : A → MD B) : reads m → (∀ a, sound_op (k a)) → sound_op (m ≫= k).
Proof.
  intros Hm Hk d fs. specialize (Hm d fs). unfold mbind, M_bind.
  destruct (m d fs) as [[[a|e] d'] fs']; simpl in *; subst; [apply Hk|auto].
Qed.
Lemma sound_tx {A} (e : err) (body : M (Tx db) err A) :
  (∀ d, lands (λ w, w = d) body (λ _ w, sound d w)) → sound_op (with_tx e body).
Proof.
  intros H d fs. destruct (with_tx_lands e body _ _ d fs (H d) eq_refl) as (r & d' & fs' & -> & Hr).
  cbn. destruct r; [done|]. subst. auto.
Qed.
#[local] Hint Resolve reads_ret reads_throw reads_query reads_attempt sound_reads : core.

(** Splits a program into its statements and its results. *)
Ltac reads_solve :=
  repeat first [ apply reads_ret | apply reads_throw | apply reads_query | apply reads_attempt
               | apply reads_bind; [|intros ?] | case_match ].

Lemma reads_VerifyUser u p : reads (VerifyUser IDKey u p).
Proof. unfold VerifyUser. reads_solve. Qed.
Lemma reads_ResolveToken now raw : reads (ResolveToken now raw).
Proof. unfold ResolveToken. reads_solve. Qed.
Lemma reads_ResolveSession now s : reads (ResolveSession now s).
Proof. unfold ResolveSession. reads_solve. Qed.
Lemma reads_Authenticate now t : reads (Authenticate now t).
Proof. unfold Authenticate. reads_solve. Qed.

Lemma sound_rotate now raw id grace : sound_op (rotateOperatorKey now raw id grace).
Proof.
  unfold rotateOperatorKey. apply sound_after; [auto|]. intros o. case_bool_decide; [auto|].
  unfold rotate_tx, newOperatorToken. apply sound_tx. intros d.
  apply (lands_bind _ _ _ (λ _ w, sound d w ∧ admin_sessions d = admin_sessions w)).
  { apply keeps_stmt. intros w ->. unfold insert_operator. pose proof (sound_insert_operator now
      (hashSecret (string_of_bytes (b64_encode raw))) (o_label o) (o_is_admin o) d) as Hs.
    unfold insert_operator in Hs. repeat case_match; simplify_eq; auto. }
  intros newID. apply (lands_seq _ _ _ (λ w, sound d w)).
  { apply keeps_exec. intros w [Hw Hses]. eapply sound_trans; [exact Hw|apply sound_operators|done].
    intros k. by split_and!. }
  apply (lands_commit EDb _ (λ _ w, sound d w)).
Qed.

Lemma sound_run_op o : sound_op (run_op o).
Proof.
  destruct o; cbn [run_op]; try (apply sound_then; [|intros; auto]).
  - unfold CreateUser. case_match; [|auto]. apply sound_then; [|intros; reads_solve].
    apply sound_attempt, sound_stmt. intros. apply sound_insert_user.
  - apply sound_reads, reads_VerifyUser.
  - apply sound_stmt. intros d. case_match; [|auto]. by apply sound_users.
  - unfold CreateToken. repeat case_match; auto. apply sound_then; [|intros; auto].
    apply sound_stmt. intros. apply sound_insert_token.
  - apply sound_reads, reads_ResolveToken.
  - apply sound_stmt. intros d. case_match; [|auto]. apply sound_tokens; [done|].
    intros r. split_and!; by cbn.
  - apply (sound_stmt EDb (λ d, (Ok (), _))). intros d. apply sound_tokens; by intros.
  - unfold CreateSession. case_match; auto. apply sound_then; [|intros; auto].
    apply sound_stmt. intros. apply sound_insert_session.
  - apply sound_reads, reads_ResolveSession.
  - apply (sound_stmt EDb (λ d, (Ok (), _))). intros d. apply sound_sessions, delete_subseteq.
  - apply sound_stmt. intros d. apply sound_sessions, map_filter_subseteq.
  - apply sound_reads, reads_Authenticate.
  - apply (sound_stmt EDb (λ d, (Ok (), _))). intros d. by apply sound_operators.
  - unfold createOperator. case_match; [auto|]. apply sound_then; [|intros; auto].
    apply sound_attempt, sound_stmt. intros. apply sound_insert_operator.
  - unfold disableOperator. apply sound_then; [|intros; reads_solve].
    apply sound_attempt, sound_stmt. intros d. repeat case_match; auto. by apply sound_operators.
  - apply sound_rotate.
  - apply (sound_stmt EDb (λ d, (Ok (), _))). intros d. sound_split. by apply prefix_app_r.
Qed.
End Operations.

End Credentials.
