(* ===== verification/CredentialLaws.v ===== *)
(** * What each credential admits

    For the machine tokens, accounts, sessions and operator keys: exactly which
    rows make a credential valid, the life of a minted token, and that a
    revocation outlives every later operation. *)

From S2P Require Import Prelude GoLib Db Crypto Credentials.
Import GoLib Credentials.

Module CredentialLaws.

(** ** argon2id: the stored string carries what verification needs *)

Section Argon2.
Context (IDKey : bytes → bytes → Z → Z → Z → Z → bytes).
(** The derivation yields the key length asked for. *)
Hypothesis IDKey_length : ∀ p s t m th n, 0 ≤ n → zlen (IDKey p s t m th n) = n.
Hypothesis IDKey_bytes : ∀ p s t m th n, bytes_ok (IDKey p s t m th n).

Lemma url_std_char c : b64_alphabet c → url_char (std_char c) = Some c.
Proof.
  unfold b64_alphabet, std_char. intros H.
  destruct (Z.eqb_spec c 45); [by subst|]. destruct (Z.eqb_spec c 95); [by subst|].
  unfold url_char. zsolve.
Qed.

Lemma std_decode_encode b : bytes_ok b → std_decode (std_encode b) = Some b.
Proof.
  intros Hb. unfold std_decode, std_encode.
  assert (mapM url_char (std_char <$> b64_encode b) = Some (b64_encode b)) as ->;
    [|by apply b64_decode_encode].
  apply mapM_Some. pose proof (b64_encode_alphabet b Hb) as Ha.
  induction Ha; cbn; constructor; [by apply url_std_char|done].
Qed.

(** The separator of the PHC string, [$], is not in the alphabet. *)
Lemma std_no_dollar b : bytes_ok b → 36 ∉ std_encode b.
Proof.
  intros Hb (c & H & Hc)%list_elem_of_fmap. pose proof (b64_encode_alphabet b Hb) as Ha.
  rewrite Forall_forall in Ha. apply Ha in Hc. unfold b64_alphabet, std_char in *. zcase_in H; lia.
Qed.

Lemma std_encode_bytes b : bytes_ok b → bytes_ok (std_encode b).
Proof.
  intros Hb. apply Forall_fmap. pose proof (b64_encode_alphabet b Hb) as Ha.
  eapply Forall_impl; [exact Ha|]. intros c Hc. unfold compose, byte_ok, b64_alphabet, std_char in *.
  zcase; lia.
Qed.

Definition params_text : bytes := bytes_of_string "m=65536,t=2,p=1".

Definition derived (salt : bytes) (password : string) : bytes :=
  IDKey (bytes_of_string password) salt defTime defMemory defThreads keyLen.

Definition phc_fields (salt key : bytes) : list bytes :=
  [[]; bytes_of_string "argon2id"; bytes_of_string "v=19"; params_text; std_encode salt; std_encode key].

Lemma Hash_text salt password :
  Hash IDKey (Some salt) password =
  Ok (string_of_bytes (join (phc_fields salt (derived salt password)) [36])).
Proof. reflexivity. Qed.

Lemma phc_fields_ok salt key : bytes_ok salt → bytes_ok key →
  Forall (λ f, (36 ∉ f) ∧ bytes_ok f) (phc_fields salt key).
Proof.
  intros Hs Hk. unfold phc_fields.
  repeat apply Forall_cons_2; try (split; [by apply std_no_dollar|by apply std_encode_bytes]);
    try apply Forall_nil_2; split; try apply bytes_of_string_ok; try apply Forall_nil_2;
    by apply (bool_decide_eq_true (36 ∉ _)).
Qed.

Lemma bytes_ok_join l c : byte_ok c → Forall bytes_ok l → bytes_ok (join l [c]).
Proof.
  intros Hc H. induction H as [|f l Hf Hl IH]; [apply Forall_nil_2|].
  destruct l as [|g l]; [done|]. change (join (f :: g :: l) [c]) with (f ++ [c] ++ join (g :: l) [c]).
  rewrite !Forall_app. split; [done|]. split; [|done]. by apply Forall_cons_2, Forall_nil_2.
Qed.

Lemma decode_fields salt key : bytes_ok salt → bytes_ok key →
  decode (string_of_bytes (join (phc_fields salt key) [36])) =
  Ok (MkPhc defMemory defTime defThreads salt key).
Proof.
  intros Hs Hk. pose proof (phc_fields_ok salt key Hs Hk) as Hf. unfold decode.
  rewrite bytes_of_string_of_bytes.
  2: { apply bytes_ok_join; [done|]. eapply Forall_impl; [exact Hf|]. by intros f []. }
  rewrite split_join; [|done|]. 2: { eapply Forall_impl; [exact Hf|]. by intros f []. }
  unfold phc_fields. rewrite !std_decode_encode by done. reflexivity.
Qed.

(** A password is accepted exactly when it derives the stored key. *)
Lemma verify_Hash salt password password' h : bytes_ok salt →
  Hash IDKey (Some salt) password = Ok h →
  verify_hash IDKey password' h = Ok (bool_decide (derived salt password' = derived salt password)).
Proof.
  rewrite Hash_text. intros Hs H. assert (h = string_of_bytes
    (join (phc_fields salt (derived salt password)) [36])) as -> by congruence.
  unfold verify_hash. rewrite decode_fields by (try apply IDKey_bytes; done).
  cbn [p_salt p_t p_m p_p p_key]. assert (zlen (derived salt password) = keyLen) as -> by (by apply IDKey_length). reflexivity.
Qed.
End Argon2.

(** ** Lookups of one credential *)

(** What a reading operation returns: the row's value, nothing, or a fault. *)
Definition answers {A} (m : MD (option A)) (valid : db → A → Prop) : Prop := ∀ d fs,
  ∃ r fs', m d fs = (r, d, fs') ∧
    match r with
    | Ok (Some a) => valid d a
    | _ => True
    end ∧
    (fs = [] → tables_ok d → ∀ a, valid d a → r = Ok (Some a)).

Definition token_valid (now : Z) (raw : string) (d : db) (t : Token) : Prop :=
  ∃ tid secret id r, ParseToken raw = Some (tid, secret) ∧ api_tokens d !! id = Some r ∧
    k_token_id r = tid ∧ k_disabled r = None ∧ k_secret_hash r = hashSecret secret ∧
    expired now (k_expires_at r) = false ∧ t = scanToken id r.

(** A row is fetched, then judged; a missing row is no answer. *)
Lemma answers_fetch {X A} (sel : db → option X) (k : X → result err (option A)) (valid : db → A → Prop)
    (m : MD (option A)) :
  (∀ d fs, m d fs = (row ← attempt (query EDb (λ d, match sel d with Some x => Ok x | None => Err ENoRows end));
       match row with
       | Err ENoRows => mret None
       | Err e => throw e
       | Ok x => match k x with Ok a => mret a | Err e => throw e end
       end) d fs) →
  (∀ d x, sel d = Some x → match k x with Ok (Some a) => valid d a | _ => True end) →
  (∀ d a, tables_ok d → valid d a → ∃ x, sel d = Some x ∧ k x = Ok (Some a)) →
  answers m valid.
Proof.
  intros Hm Hk Hv d fs. rewrite Hm. specialize (Hk d). specialize (Hv d).
  unfold attempt, query, stmt, mbind, M_bind, mret, M_ret, throw.
  destruct (sel d) as [x|] eqn:Hs.
  - specialize (Hk x eq_refl).
    assert (∀ b, tables_ok d → valid d b → k x = Ok (Some b)) as Hu.
    { intros b Hd Hb. destruct (Hv b Hd Hb) as (y & ? & ?). by simplify_eq. }
    destruct (k x) as [a|e] eqn:Hkx; destruct fs as [|[] fs]; rewrite ?Hkx; eexists _, _;
      (split; [reflexivity|]); (split; [done|]); try done.
    + intros _ Hd b Hb. by specialize (Hu b Hd Hb) as [= ->].
    + intros _ Hd b Hb. by specialize (Hu b Hd Hb).
  - destruct fs as [|[] fs]; eexists _, _; (split; [reflexivity|]); (split; [done|]); [|done..].
    intros _ Hd b Hb. by destruct (Hv b Hd Hb) as (y & ? & ?).
Qed.

(** The program as the code has it is the fetch of the lemma. *)
Ltac fetch_eq :=
  intros d fs; unfold attempt, query, stmt, mbind, M_bind, mret, M_ret, throw;
  destruct fs as [|[] fs]; try done;
  match goal with |- context [match ?x with Some _ => _ | None => _ end] => destruct x as [[]|] end; done.

Lemma token_selected tid d id r : tables_ok d → api_tokens d !! id = Some r →
  k_token_id r = tid → k_disabled r = None → select (live_token tid) (api_tokens d) = Some (id, r).
Proof.
  intros Hd Hi Ht Hl. apply select_unique; [done|unfold live_token, by_token_id; by rewrite !bool_decide_eq_true_2|].
  intros j r' Hj [Ht'%bool_decide_eq_true _]%andb_true_iff.
  apply (tok_unique _ Hd j id r' r Hj Hi). congruence.
Qed.

Lemma ResolveToken_answers now raw : answers (ResolveToken now raw) (token_valid now raw).
Proof.
  unfold ResolveToken. destruct (ParseToken raw) as [[tid secret]|] eqn:Hp.
  2: { intros d fs. exists (Ok None), fs. split; [done|]. split; [done|].
       intros _ _ a (? & ? & ? & ? & ? & _). congruence. }
  apply (answers_fetch (λ d, select (live_token tid) (api_tokens d)) (λ ir,
    Ok (if negb (bool_decide (hashSecret secret = k_secret_hash ir.2)) then None
        else if expired now (k_expires_at ir.2) then None else Some (scanToken ir.1 ir.2)))).
  - fetch_eq.
  - intros d [id r] [Hi [Ht Hl]%andb_true_iff]%select_Some. cbn.
    unfold by_token_id in Ht. apply bool_decide_eq_true in Ht, Hl.
    case_bool_decide; [|done]. cbn. destruct (expired _ _) eqn:He; [done|]. by exists tid, secret, id, r.
  - intros d a Hd (tid' & secret' & j & r' & Hp' & Hj & Ht' & Hl' & Hh & He & ->).
    rewrite Hp in Hp'. simplify_eq. exists (j, r'). split; [by apply token_selected|].
    cbn. by rewrite bool_decide_eq_true_2, He.
Qed.

Definition session_valid (now : Z) (secret : string) (d : db) (s : Session) : Prop :=
  ∃ r, admin_sessions d !! hashSecret secret = Some r ∧ now < s_expires_at r ∧ s = scanSession r.

Lemma ResolveSession_answers now secret : answers (ResolveSession now secret) (session_valid now secret).
Proof.
  apply (answers_fetch (λ d, scanSession <$> admin_sessions d !! hashSecret secret) (λ s,
    Ok (if expired now (Some (sExpiresAt s)) then None else Some s))).
  - intros d fs. unfold ResolveSession, attempt, query, stmt, mbind, M_bind.
    destruct fs as [|[] fs]; [|done|]; by destruct (admin_sessions d !! _).
  - intros d s (r & Hr & ->)%fmap_Some. cbn. destruct (Z.leb_spec (s_expires_at r) now); [done|].
    by exists r.
  - intros d a _ (r & Hr & Hlt & ->). exists (scanSession r). rewrite Hr. split; [done|]. cbn.
    destruct (Z.leb_spec (s_expires_at r) now); [lia|done].
Qed.

Definition key_valid (now : Z) (token : string) (d : db) (a : AuthResult) : Prop :=
  ∃ id o, operator_keys d !! id = Some o ∧ o_token_hash o = hashSecret token ∧ o_disabled o = None ∧
    expired now (o_expires_at o) = false ∧ a = MkAuth id (o_is_admin o) (o_label o).

Lemma key_selected h d id o : tables_ok d → operator_keys d !! id = Some o →
  o_token_hash o = h → o_disabled o = None → select (live_key h) (operator_keys d) = Some (id, o).
Proof.
  intros Hd Hi Ht Hl. apply select_unique; [done|unfold live_key; by rewrite !bool_decide_eq_true_2|].
  intros j r' Hj [Ht'%bool_decide_eq_true _]%andb_true_iff.
  apply (key_unique _ Hd j id r' o Hj Hi). congruence.
Qed.

Lemma Authenticate_answers now token : answers (Authenticate now token) (key_valid now token).
Proof.
  apply (answers_fetch (λ d, select (live_key (hashSecret token)) (operator_keys d)) (λ io,
    Ok (if negb (bool_decide (hashSecret token = o_token_hash io.2)) then None
        else if expired now (o_expires_at io.2) then None
        else Some (MkAuth io.1 (o_is_admin io.2) (o_label io.2))))).
  - unfold Authenticate. fetch_eq.
  - intros d [id o] [Hi [Ht Hl]%andb_true_iff]%select_Some. cbn. apply bool_decide_eq_true in Ht, Hl.
    case_bool_decide; [|done]. cbn. destruct (expired _ _) eqn:He; [done|]. by exists id, o.
  - intros d a Hd (id & o & Hi & Ht & Hl & He & ->). exists (id, o). split; [by apply key_selected|].
    cbn. by rewrite bool_decide_eq_true_2, He.
Qed.

Section Users.
Context (IDKey : bytes → bytes → Z → Z → Z → Z → bytes).

(** An enabled account whose stored string the password derives. *)
Definition user_valid (username password : string) (d : db) (u : User) : Prop :=
  ∃ id row, admin_users d !! id = Some row ∧ u_username row = username ∧ u_disabled row = None ∧
    verify_hash IDKey password (u_password_hash row) = Ok true ∧ u = scanUser id row.

Lemma user_selected d id row : tables_ok d → admin_users d !! id = Some row →
  select (by_username (u_username row)) (admin_users d) = Some (id, row).
Proof.
  intros Hd Hi. apply select_unique; [done|unfold by_username; by rewrite bool_decide_eq_true_2|].
  intros j r' Hj Ht%bool_decide_eq_true. by apply (usr_unique _ Hd j id r' row Hj Hi).
Qed.

Lemma VerifyUser_answers username password :
  answers (VerifyUser IDKey username password) (user_valid username password).
Proof.
  apply (answers_fetch (λ d, select (by_username username) (admin_users d)) (λ iu,
    match verify_hash IDKey password (u_password_hash iu.2) with
    | Err e => Err e
    | Ok ok => Ok (if negb ok || bool_decide (is_Some (u_disabled iu.2)) then None
                   else Some (scanUser iu.1 iu.2))
    end)).
  - intros d fs. unfold VerifyUser, attempt, query, stmt, mbind, M_bind, mret, M_ret, throw.
    destruct fs as [|[] fs]; [|done|]; (destruct (select _ _) as [[id u]|]; [|done]);
      cbn; by destruct (verify_hash _ _ _).
  - intros d [id row] [Hi Hn]%select_Some. cbn. apply bool_decide_eq_true in Hn.
    destruct (verify_hash _ _ _) as [[]|] eqn:Hv; [|done..]. cbn.
    case_bool_decide as Hd; [done|]. exists id, row. split_and!; try done. by apply eq_None_not_Some.
  - intros d a Hd (id & row & Hi & <- & Hl & Hv & ->). exists (id, row).
    split; [by apply user_selected|]. cbn. rewrite Hv. cbn. by rewrite Hl.
Qed.

Lemma CreateUser_ok now salt username password admin d fs u d' fs' :
  CreateUser IDKey now (Some salt) username password admin d fs = (Ok u, d', fs') →
  ∃ h row, Hash IDKey (Some salt) password = Ok h ∧
    row = MkUserRow username h admin (timestamptz now) None ∧
    u = scanUser (next_user d) row ∧ admin_users d' = <[next_user d := row]> (admin_users d).
Proof.
  unfold CreateUser. destruct (Hash _ _ _) as [h|] eqn:Hh; [|done].
  intros [(e & _ & [=])|(r & d1 & fs1 & H & Hr)]%bind_inv. unfold attempt in H.
  destruct (stmt _ _ _ _) as [[r' d2] fs2] eqn:Hs. injection H as <- <- <-.
  apply stmt_inv in Hs as [[-> ->]|Hs]; [by destruct EDb|].
  destruct r' as [v|[]]; try discriminate. injection Hr as <- <- <-.
  unfold insert_user in Hs. destruct (select _ _); [done|]. injection Hs as <- <-.
  by exists h, (MkUserRow username h admin (timestamptz now) None).
Qed.

(** ** Sequences of operations *)

Fixpoint run_ops (ops : list (op * list bool)) (d : db) : db :=
  match ops with [] => d | (o, fs) :: ops => run_ops ops (run_op IDKey o d fs).1.2 end.

Lemma run_ops_evolves ops d : tables_ok d →
  tables_ok (run_ops ops d) ∧
  grows token_evolves (api_tokens d) (api_tokens (run_ops ops d)) ∧
  grows key_evolves (operator_keys d) (operator_keys (run_ops ops d)).
Proof.
  revert d. induction ops as [|[o fs] ops IH]; intros d Hd; cbn.
  { split; [done|]. split; apply grows_refl; intros; by split_and!. }
  destruct (sound_run_op IDKey o d fs Hd) as [Hd1 Hev]. destruct (IH _ Hd1) as (Hd2 & Ht & Hk).
  split; [done|]. split.
  - intros i r (r1 & H1 & E1)%(ev_tokens _ _ Hev). destruct (Ht i r1 H1) as (r2 & H2 & E2). exists r2.
    split; [done|]. unfold token_evolves in *. destruct_and!. split_and!; try congruence. auto.
  - intros i r (r1 & H1 & E1)%(ev_keys _ _ Hev). destruct (Hk i r1 H1) as (r2 & H2 & E2). exists r2.
    split; [done|]. unfold key_evolves in *. destruct_and!. split_and!; try congruence. auto.
Qed.
End Users.

(** ** The life of a machine token *)

Lemma length_b64 n b : length b = (3 * n)%nat → length (b64_encode b) = (4 * n)%nat.
Proof.
  revert b. induction n as [|n IH]; intros b Hb; [by destruct b|].
  destruct b as [|x [|y [|z b]]]; cbn [length] in Hb; try lia. cbn [b64_encode length].
  rewrite IH by lia. lia.
Qed.

Lemma b64_nonempty b : b ≠ [] → b64_encode b ≠ [].
Proof. destruct b as [|x [|y [|z b]]]; cbn; congruence. Qed.

Lemma bytes_of_string_app s t : bytes_of_string (s +:+ t) = bytes_of_string s ++ bytes_of_string t.
Proof.
  rewrite <-(string_of_bytes_of_string s), <-(string_of_bytes_of_string t) at 1.
  rewrite <-string_of_bytes_app, bytes_of_string_of_bytes; [done|].
  apply Forall_app. split; apply bytes_of_string_ok.
Qed.

Lemma zlen_nil {A} : zlen (@nil A) = 0.
Proof. done. Qed.

(** What a mint prints parses back into the row's handle and secret, whatever
    separators the random parts hold. *)
Lemma ParseToken_mint rid rsecret : length rid = 12%nat → bytes_ok rid → bytes_ok rsecret → rsecret ≠ [] →
  ParseToken (TokenPrefix +:+ string_of_bytes (b64_encode rid) +:+ "_" +:+
              string_of_bytes (b64_encode rsecret)) =
  Some (string_of_bytes (b64_encode rid), string_of_bytes (b64_encode rsecret)).
Proof.
  intros Hl Hi Hs Hne.
  assert (Hlen : length (b64_encode rid) = 16%nat) by (by apply (length_b64 4)).
  unfold ParseToken. rewrite !bytes_of_string_app, !bytes_of_string_of_bytes by (by apply b64_encode_bytes).
  match goal with |- context [has_prefix ?p ?s] => change (has_prefix p s) with true end.
  cbn [negb].
  rewrite (drop_app_len (bytes_of_string TokenPrefix)) by done.
  change tokenIDEncLen with 16. change (bytes_of_string "_") with [95].
  set (sec := b64_encode rsecret). assert (sec ≠ []) by (by apply b64_nonempty).
  rewrite !zlen_app, (zlen_cons 95). assert (zlen (b64_encode rid) = 16) as -> by (unfold zlen; lia).
  assert (1 ≤ zlen sec) by (unfold zlen; destruct sec; cbn; [done|lia]).
  rewrite zlen_nil. destruct (Z.ltb_spec (16 + (1 + 0 + zlen sec)) (16 + 2)); [lia|].
  rewrite lookup_app_r by lia. rewrite Hlen. cbn.
  rewrite (take_app_len (b64_encode rid)) by lia.
  change (Pos.to_nat 17) with 17%nat.
  rewrite (drop_app_ge _ _ 17) by lia. rewrite Hlen. done.
Qed.

Lemma insert_token_ok r d tok d' : insert_token r d = (Ok tok, d') →
  tok = scanToken (next_token d) r ∧ api_tokens d' = <[next_token d := r]> (api_tokens d).
Proof. unfold insert_token. repeat case_match; intros; simplify_eq; done. Qed.

Lemma CreateToken_ok now rid rsecret label scopes expires by_ d fs plain tok d' fs' :
  CreateToken now (Some rid) (Some rsecret) label scopes expires by_ d fs = (Ok (plain, tok), d', fs') →
  let tid := string_of_bytes (b64_encode rid) in
  let secret := string_of_bytes (b64_encode rsecret) in
  let row := new_token now tid secret label scopes expires by_ in
  plain = (TokenPrefix +:+ tid +:+ "_" +:+ secret)%string ∧
  tok = scanToken (next_token d) row ∧ api_tokens d' !! next_token d = Some row.
Proof.
  unfold CreateToken. destruct (negb _); [done|]. cbn [randString].
  intros [(e & _ & [=])|(t & d1 & fs1 & H & Hr)]%bind_inv. apply stmt_inv in H as [[[=] _]|H].
  apply insert_token_ok in H as [-> Ht]. unfold mret, M_ret in Hr.
  assert (plain = _ ∧ tok = _ ∧ d' = d1) as (-> & -> & ->)
    by (split_and!; [exact (eq_sym (f_equal (λ x, match x.1.1 with Ok (p, _) => p | Err _ => plain end) Hr))|
        exact (eq_sym (f_equal (λ x, match x.1.1 with Ok (_, t) => t | Err _ => tok end) Hr))|
        exact (eq_sym (f_equal (λ x, x.1.2) Hr))]).
  split; [done|]. split; [done|]. by rewrite Ht, lookup_insert_eq.
Qed.

(** The tables after any operations following a mint. *)
Definition minted_row (d' : db) (tok : Token) (row : token_row) : Prop :=
  api_tokens d' !! ID tok = Some row ∧ k_token_id row = TokenID tok ∧ k_scopes row = Scopes tok ∧
  k_expires_at row = ExpiresAt tok.

Lemma resolve_minted now plain tid secret d tok row : tables_ok d →
  ParseToken plain = Some (tid, secret) → minted_row d tok row → k_token_id row = tid →
  k_secret_hash row = hashSecret secret →
  ResolveToken now plain d [] =
    (Ok (if bool_decide (is_Some (k_disabled row)) || expired now (ExpiresAt tok) then None
         else Some (scanToken (ID tok) row)), d, []).
Proof.
  intros Hd Hp (Hi & Ht & _ & He) Htid Hh.
  unfold ResolveToken. rewrite Hp. unfold attempt, query, stmt, mbind, M_bind, mret, M_ret.
  case_bool_decide as Hdis; cbn [orb].
  - assert (select (live_token tid) (api_tokens d) = None) as ->; [|done].
    apply select_None. intros j r Hj. unfold live_token, by_token_id.
    case_bool_decide as Hjt; [|done]. cbn. apply bool_decide_eq_false. intros Hn.
    assert (j = ID tok) as -> by (apply (tok_unique _ Hd j (ID tok) r row Hj Hi); congruence).
    simplify_eq. rewrite Hn in Hdis. by destruct Hdis.
  - apply eq_None_not_Some in Hdis. rewrite (token_selected tid d (ID tok) row) by done.
    rewrite bool_decide_eq_true_2 by done. cbn [negb]. by rewrite He.
Qed.

(** The life of a machine token. What a mint prints once parses back to the
    handle and the secret although both may hold the separator, and whatever
    operations follow, it authenticates as the minted identity with exactly
    the minted scopes for as long as it is neither revoked nor expired, and
    never afterwards: a revocation is final under every later operation. The
    table keeps a hash only. *)
Theorem token_lifecycle IDKey now rid rsecret label scopes expires by_ d fs plain tok d' fs'
    (Hd : tables_ok d) (Hrid : bytes_ok rid) (Hlen : length rid = 12%nat)
    (Hsec : bytes_ok rsecret) (Hne : length rsecret = 32%nat)
    (Hmint : CreateToken now (Some rid) (Some rsecret) label scopes expires by_ d fs =
             (Ok (plain, tok), d', fs')) :
  Scopes tok = scopes ∧ ExpiresAt tok = timestamptz <$> expires ∧
  ParseToken plain = Some (TokenID tok, string_of_bytes (b64_encode rsecret)) ∧
  ∀ ops, let d2 := run_ops IDKey ops d' in
    ∃ row, minted_row d2 tok row ∧
      k_secret_hash row = hashSecret (string_of_bytes (b64_encode rsecret)) ∧
      (∀ now2, ResolveToken now2 plain d2 [] =
         (Ok (if bool_decide (is_Some (k_disabled row)) || expired now2 (ExpiresAt tok) then None
              else Some (scanToken (ID tok) row)), d2, [])) ∧
      (is_Some (k_disabled row) → ∀ ops' now2,
         (ResolveToken now2 plain (run_ops IDKey ops' d2) []).1.1 = Ok None).
Proof.
  pose proof (CreateToken_ok _ _ _ _ _ _ _ _ _ _ _ _ _ Hmint) as (Hplain & Htok & Hrow).
  assert (Hd' : tables_ok d').
  { pose proof (sound_run_op IDKey (OCreateToken now (Some rid) (Some rsecret) label scopes expires by_)
      d fs Hd) as [H _]. cbn [run_op] in H. unfold forget, mbind, M_bind in H. by rewrite Hmint in H. }
  assert (Hparse : ParseToken plain = Some (TokenID tok, string_of_bytes (b64_encode rsecret))).
  { rewrite Hplain, Htok. apply ParseToken_mint; try done. by destruct rsecret. }
  split; [by rewrite Htok|]. split; [by rewrite Htok|]. split; [done|]. intros ops d2.
  assert (Hlater : ∀ ops d1 row, tables_ok d1 → minted_row d1 tok row →
    k_secret_hash row = hashSecret (string_of_bytes (b64_encode rsecret)) →
    tables_ok (run_ops IDKey ops d1) ∧ ∃ row', minted_row (run_ops IDKey ops d1) tok row' ∧
      k_secret_hash row' = hashSecret (string_of_bytes (b64_encode rsecret)) ∧
      (is_Some (k_disabled row) → is_Some (k_disabled row'))).
  { intros ops1 d1 row Hd1 (Hi & Ht & Hs & He) Hh.
    destruct (run_ops_evolves IDKey ops1 d1 Hd1) as (Hd2 & Hg & _). split; [done|].
    destruct (Hg _ _ Hi) as (row' & Hi' & ? & ? & ? & ? & _ & ?). exists row'.
    split; [split_and!; congruence|]. split; [congruence|done]. }
  destruct (Hlater ops d' (new_token now (string_of_bytes (b64_encode rid))
    (string_of_bytes (b64_encode rsecret)) label scopes expires by_)) as (Hd2 & row & Hrow2 & Hh2 & _);
    [done|by rewrite Htok|done|].
  exists row. split; [done|]. split; [done|]. split.
  - intros now2. eapply resolve_minted; try done. apply Hrow2.
  - intros Hdis ops' now2. destruct (Hlater ops' d2 row Hd2 Hrow2 Hh2) as (Hd3 & row3 & Hrow3 & Hh3 & Hdis3).
    erewrite (resolve_minted now2 plain _ _ (run_ops IDKey ops' d2) tok row3); try done; [|apply Hrow3].
    by rewrite bool_decide_eq_true_2 by auto.
Qed.

(** ** Rotating an operator key *)

Lemma insert_operator_ok now h label admin d id d' : insert_operator now h label admin d = (Ok id, d') →
  id = next_operator d ∧
  operator_keys d' = <[id := MkOperatorRow h label admin (timestamptz now) None None None]> (operator_keys d).
Proof. unfold insert_operator. repeat case_match; intros; simplify_eq; done. Qed.

Lemma insert_operator_err now h label admin d e d' : insert_operator now h label admin d = (Err e, d') → d' = d.
Proof. unfold insert_operator. repeat case_match; intros; simplify_eq; done. Qed.

(** The tables after a committed rotation. *)
Definition rotated (now : Z) (hash : bytes) (o : operator_row) (oldID expiry : Z) (newID : Z) (d d' : db) : Prop :=
  newID = next_operator d ∧
  operator_keys d' = alter (set_expiry expiry) oldID
    (<[newID := MkOperatorRow hash (o_label o) (o_is_admin o) (timestamptz now) None None None]>
       (operator_keys d)).

Definition rotation_of (now : Z) (raw : bytes) (o : operator_row) (oldID grace : Z) (d : db)
    (rot : rotation) (d' : db) : Prop :=
  rot = MkRotation oldID (NewID rot) (newOperatorToken raw).1 (o_label o) (o_is_admin o) (now + grace) ∧
  rotated now (hashSecret (rToken rot)) o oldID (now + grace) (NewID rot) d d'.

Lemma rotate_tx_runs now raw o oldID grace d fs :
  ∃ r d' fs', rotate_tx now raw o oldID grace d fs = (r, d', fs') ∧
    match r with Err _ => d' = d | Ok rot => rotation_of now raw o oldID grace d rot d' end.
Proof.
  unfold rotate_tx, newOperatorToken.
  destruct (with_tx_lands EDb (newID ← tx_stmt EDb (insert_operator now
      (hashSecret (string_of_bytes (b64_encode raw))) (o_label o) (o_is_admin o));
    _ ← tx_exec EDb (with_operators (alter (set_expiry (now + grace)) oldID));
    _ ← commit EDb;
    mret (MkRotation oldID newID (string_of_bytes (b64_encode raw)) (o_label o) (o_is_admin o) (now + grace)))
    (λ w, w = d) (rotation_of now raw o oldID grace d) d fs) as (r & d' & fs' & H & Hr);
    [|done|by exists r, d', fs'].
  eapply (lands_bind _ _ _ (λ id w, id = next_operator d ∧ operator_keys w = _)).
  { apply keeps_stmt. intros w ->. destruct (insert_operator _ _ _ _ d) as [[id|e] w'] eqn:Hi; [|done].
    by apply insert_operator_ok in Hi as [-> ->]. }
  intros id. eapply (lands_seq _ _ _ (λ w, id = next_operator d ∧ operator_keys w = _)).
  { apply keeps_exec. intros w [-> Hw]. split; [done|]. cbn. rewrite Hw. reflexivity. }
  intros c w fs1 [-> Hw]. unfold mbind, M_bind, commit, stmt, mret, M_ret.
  destruct fs1 as [|[] fs1]; cbn; eexists _, _, _; (split; [reflexivity|]); cbn; try done; by split.
Qed.

Lemma rotate_runs now raw oldID grace d fs :
  ∃ r d' fs', rotateOperatorKey now raw oldID grace d fs = (r, d', fs') ∧
    match r with
    | Err _ => d' = d
    | Ok rot => ∃ o, operator_keys d !! oldID = Some o ∧ o_disabled o = None ∧
        rotation_of now raw o oldID grace d rot d'
    end.
Proof.
  unfold rotateOperatorKey.
  destruct (operator_keys d !! oldID) as [o|] eqn:Ho.
  2: { unfold mbind, M_bind, query, stmt. rewrite Ho. destruct fs as [|[] fs]; by eexists _, _, _. }
  assert (H : ∀ fs, ∃ r d' fs', (if bool_decide (is_Some (o_disabled o)) then throw ErrRevoked
      else rotate_tx now raw o oldID grace) d fs = (r, d', fs') ∧
    match r with
    | Err _ => d' = d
    | Ok rot => ∃ o', Some o = Some o' ∧ o_disabled o' = None ∧ rotation_of now raw o' oldID grace d rot d'
    end).
  { intros fs1. case_bool_decide as Hdis; [by eexists _, _, _|]. apply eq_None_not_Some in Hdis.
    destruct (rotate_tx_runs now raw o oldID grace d fs1) as ([rot|e] & d' & fs' & -> & Hr);
      eexists _, _, _; (split; [reflexivity|]); [by exists o|done]. }
  unfold mbind, M_bind, query, stmt. rewrite Ho.
  destruct fs as [|[] fs]; [apply H|by eexists _, _, _|apply H].
Qed.

Lemma Authenticate_row now token d id o : tables_ok d → operator_keys d !! id = Some o →
  o_token_hash o = hashSecret token → o_disabled o = None →
  Authenticate now token d [] =
    (Ok (if expired now (o_expires_at o) then None else Some (MkAuth id (o_is_admin o) (o_label o))), d, []).
Proof.
  intros Hd Hi Hh Hl. unfold Authenticate, attempt, query, stmt, mbind, M_bind, mret, M_ret.
  rewrite (key_selected _ d id o) by done. by rewrite bool_decide_eq_true_2.
Qed.

(** A rotation is soft and atomic. It fails without effect, and only a live
    key rotates; when it succeeds the replacement, printed once, authenticates
    with exactly the old key's label and privilege, and the old key
    authenticates as before until its grace has passed and as absent from then
    on. No other key is affected. *)
Theorem rotate_window now raw oldID grace d fs (Hd : tables_ok d) :
  ∃ r d' fs', rotateOperatorKey now raw oldID grace d fs = (r, d', fs') ∧
    match r with
    | Err _ => d' = d
    | Ok rot =>
        ∃ o, operator_keys d !! oldID = Some o ∧ o_disabled o = None ∧
        (∀ now2, Authenticate now2 (rToken rot) d' [] =
           (Ok (Some (MkAuth (NewID rot) (o_is_admin o) (o_label o))), d', [])) ∧
        (∀ token now2, o_token_hash o = hashSecret token → Authenticate now2 token d' [] =
           (Ok (if timestamptz (now + grace) <=? now2 then None
                else Some (MkAuth oldID (o_is_admin o) (o_label o))), d', [])) ∧
        (∀ id, id ≠ oldID → id ≠ NewID rot → operator_keys d' !! id = operator_keys d !! id)
    end ∧ tables_ok d'.
Proof.
  destruct (rotate_runs now raw oldID grace d fs) as (r & d' & fs' & Hrun & Hr).
  assert (Hd' : tables_ok d').
  { pose proof (sound_rotate now raw oldID grace d fs Hd) as [H _]. by rewrite Hrun in H. }
  exists r, d', fs'. split; [done|]. split; [|done].
  destruct r as [rot|e]; [|done]. destruct Hr as (o & Ho & Hl & Hrot & Hid & Hkeys).
  assert (Hne : NewID rot ≠ oldID).
  { intros He. pose proof (below_fresh _ _ (key_below _ Hd)) as Hf. congruence. }
  exists o. split; [done|]. split; [done|]. split; [|split].
  - intros now2. erewrite (Authenticate_row now2 _ d' (NewID rot)); [|done|rewrite Hkeys, lookup_alter_ne, lookup_insert_eq by congruence; done|done|done].
    done.
  - intros token now2 Hh. erewrite (Authenticate_row now2 _ d' oldID);
      [|done|rewrite Hkeys, lookup_alter_eq, lookup_insert_ne, Ho by congruence; done|done|done]. done.
  - intros id H1 H2. by rewrite Hkeys, lookup_alter_ne, lookup_insert_ne by congruence.
Qed.

(** Every operation on the credential tables, under every fault, keeps them
    well formed: identities and the handles the lookups select on are unique,
    hashes are 32 bytes, scopes are known ones, sessions and attributions refer
    to existing rows. And it never changes what a row authenticates: its
    secret's hash, its scopes, its owner and its privilege; a revocation is
    never undone and the audit trail only grows. *)
Theorem credentials_invariant IDKey o d fs (Hd : tables_ok d) :
  let d' := (run_op IDKey o d fs).1.2 in tables_ok d' ∧ evolves d d'.
Proof. exact (sound_run_op IDKey o d fs Hd). Qed.

Section Password.
Context (IDKey : bytes → bytes → Z → Z → Z → Z → bytes).

(** A password account. The stored string carries its parameters and salt:
    the account just created is verified by exactly the passwords that derive
    the same key from that salt, the table never holds the password, and a
    disabled account is verified by none. *)
Theorem password_roundtrip now salt username password admin d fs u d' fs'
    (IDKey_length : ∀ p s t m th n, 0 ≤ n → zlen (IDKey p s t m th n) = n)
    (IDKey_bytes : ∀ p s t m th n, bytes_ok (IDKey p s t m th n))
    (Hd : tables_ok d) (Hs : bytes_ok salt)
    (Hrun : CreateUser IDKey now (Some salt) username password admin d fs = (Ok u, d', fs')) :
  Username u = username ∧ uIsAdmin u = admin ∧
  (∀ attempted, VerifyUser IDKey username attempted d' [] =
     (Ok (if decide (derived IDKey salt attempted = derived IDKey salt password) then Some u else None), d', [])) ∧
  ∀ now2 d2 fs2, SetDisabled now2 (uID u) true d' fs2 = (Ok (), d2, []) →
    ∀ attempted, (VerifyUser IDKey username attempted d2 []).1.1 = Ok None.
Proof.
  destruct (CreateUser_ok _ _ _ _ _ _ _ _ _ _ _ Hrun) as (h & row & Hh & Hrow & Hu & Husers).
  assert (Hd' : tables_ok d').
  { pose proof (sound_run_op IDKey (OCreateUser now (Some salt) username password admin) d fs Hd) as [H _].
    cbn [run_op] in H. unfold forget, mbind, M_bind in H. by rewrite Hrun in H. }
  assert (Hi : admin_users d' !! next_user d = Some row) by (by rewrite Husers, lookup_insert_eq).
  assert (Hv : ∀ d2 row2 pw, tables_ok d2 → admin_users d2 !! next_user d = Some row2 →
    u_username row2 = username → u_password_hash row2 = h →
    VerifyUser IDKey username pw d2 [] = (Ok (if negb (bool_decide (derived IDKey salt pw = derived IDKey salt password))
      || bool_decide (is_Some (u_disabled row2)) then None else Some (scanUser (next_user d) row2)), d2, [])).
  { intros d2 row2 pw Hd2 Hi2 Hn2 Hh2.
    unfold VerifyUser, attempt, query, stmt, mbind, M_bind, mret, M_ret.
    pose proof (user_selected d2 (next_user d) row2 Hd2 Hi2) as Hsel. rewrite Hn2 in Hsel.
    rewrite Hsel, Hh2, (verify_Hash IDKey IDKey_length IDKey_bytes salt password pw h Hs Hh). done. }
  subst u row. split; [done|]. split; [done|]. split.
  - intros pw. rewrite (Hv d' _ pw Hd' Hi eq_refl eq_refl). cbn [u_disabled].
    rewrite orb_false_r. case_bool_decide; by destruct (decide _).
  - intros now2 d2 fs2 Hset pw. pose proof (sound_run_op IDKey (OSetDisabled now2 (next_user d) true) d' fs2 Hd')
      as [Hd2 _]. cbn [run_op] in Hd2. cbn [uID scanUser] in Hset.
    rewrite Hset in Hd2. cbn [fst snd] in Hd2. apply stmt_inv in Hset as [[[=] _]|Hset]. rewrite Hi in Hset. injection Hset as <-.
    rewrite (Hv _ (set_user_disabled (Some (timestamptz now2))
      (MkUserRow username h admin (timestamptz now) None)) pw Hd2).
    + cbn. by rewrite orb_true_r.
    + cbn. by rewrite lookup_alter_eq, Hi.
    + done.
    + done.
Qed.
End Password.

(** ** Concrete tables *)

Definition ex_idkey (p s : bytes) (t m th n : Z) : bytes :=
  take (Z.to_nat n) (Crypto.sha256 (s ++ p) ++ replicate (Z.to_nat n) 0).
Definition ex_empty : db := MkDb ∅ ∅ ∅ ∅ [] 1 1 1.

Lemma ex_empty_ok : tables_ok ex_empty.
Proof. split; cbn; try apply map_Forall_empty; by intros i j r r' H. Qed.

Definition ex_id : bytes := replicate 12 255.
Definition ex_secret : bytes := replicate 32 7.

Lemma token_lifecycle_witness : ∃ plain tok d',
  CreateToken 5000 (Some ex_id) (Some ex_secret) "cam" ["image:read"%string] None None ex_empty [] =
    (Ok (plain, tok), d', []) ∧
  ParseToken plain = Some ("________________"%string, string_of_bytes (b64_encode ex_secret)) ∧
  ∃ row, minted_row (run_ops ex_idkey [(ORevoke 6000 1, [])] d') tok row ∧ is_Some (k_disabled row).
Proof.
  assert (H : ∃ plain tok d', CreateToken 5000 (Some ex_id) (Some ex_secret) "cam"
    ["image:read"%string] None None ex_empty [] = (Ok (plain, tok), d', []) ∧
    TokenID tok = "________________"%string ∧ ID tok = 1 ∧
    (k_disabled <$> api_tokens (run_ops ex_idkey [(ORevoke 6000 1, [])] d') !! 1) = Some (Some 6000)).
  { eexists _, _, _. split; [vm_compute; reflexivity|]. split; [reflexivity|]. split; [reflexivity|].
    vm_compute. reflexivity. }
  destruct H as (plain & tok & d' & Hmint & Ht & Hid & Hdis).
  exists plain, tok, d'. split; [exact Hmint|].
  destruct (token_lifecycle ex_idkey 5000 ex_id ex_secret "cam" ["image:read"%string] None None ex_empty []
    plain tok d' [] ex_empty_ok ltac:(repeat constructor; done) eq_refl ltac:(repeat constructor; done) eq_refl Hmint)
    as (_ & _ & Hp & Hops).
  rewrite Ht in Hp. split; [exact Hp|].
  destruct (Hops [(ORevoke 6000 1, [])]) as (row & Hrow & _). exists row. split; [exact Hrow|].
  destruct Hrow as [Hi _]. rewrite Hid in Hi. rewrite Hi in Hdis. injection Hdis as ->. by eexists.
Defined.

Definition ex_key : bytes := replicate 32 9.
Definition ex_tables : db :=
  MkDb ∅ ∅ ∅ {[ 1 := MkOperatorRow (hashSecret (newOperatorToken ex_key).1) "desk" true 1000 None None None ]}
    [] 1 1 2.

Lemma unique_empty {R A} (f : R → A) : unique f ∅.
Proof. intros i j r r' H. by rewrite lookup_empty in H. Qed.
Lemma unique_singleton {R A} (f : R → A) i r : unique f {[ i := r ]}.
Proof.
  intros j k a b H1 H2. apply lookup_singleton_Some in H1 as [<- _].
  by apply lookup_singleton_Some in H2 as [<- _].
Qed.

Lemma ex_tables_ok : tables_ok ex_tables.
Proof.
  split; cbn [api_tokens admin_users admin_sessions operator_keys next_token next_user next_operator ex_tables].
  - apply map_Forall_empty.
  - apply unique_empty.
  - apply map_Forall_empty.
  - apply map_Forall_empty.
  - apply map_Forall_empty.
  - apply unique_empty.
  - apply map_Forall_empty.
  - apply (map_Forall_singleton (λ i _, i < 2)). lia.
  - apply unique_singleton.
  - apply (map_Forall_singleton (λ _ o, length (o_token_hash o) = 32%nat)). apply Crypto.sha256_length.
Qed.

Lemma rotate_window_witness :
  ∃ rot d' fs', rotateOperatorKey 1000000 (replicate 32 1) 1 9000000 ex_tables [] = (Ok rot, d', fs') ∧
    (Authenticate 1000001 (newOperatorToken ex_key).1 d' []).1.1 = Ok (Some (MkAuth 1 true "desk")) ∧
    (Authenticate 10000000 (newOperatorToken ex_key).1 d' []).1.1 = Ok None.
Proof.
  destruct (rotate_window 1000000 (replicate 32 1) 1 9000000 ex_tables [] ex_tables_ok)
    as (r & d' & fs' & Hrun & Hr & _).
  assert (Hok : is_ok (rotateOperatorKey 1000000 (replicate 32 1) 1 9000000 ex_tables []).1.1 = true)
    by (vm_compute; reflexivity).
  rewrite Hrun in Hok. destruct r as [rot|]; [|done]. exists rot, d', fs'. split; [exact Hrun|].
  destruct Hr as (o & Ho & _ & _ & Hold & _).
  unfold ex_tables in Ho; cbn [operator_keys] in Ho. apply lookup_singleton_Some in Ho as [_ <-]. split; by rewrite Hold.
Defined.

Lemma credentials_invariant_witness :
  (run_op ex_idkey (ODisableOperator 7000 1) ex_tables []).1.1 = Ok () ∧
  tables_ok (run_op ex_idkey (ODisableOperator 7000 1) ex_tables []).1.2.
Proof.
  split; [vm_compute; reflexivity|].
  exact (proj1 (credentials_invariant ex_idkey (ODisableOperator 7000 1) ex_tables [] ex_tables_ok)).
Defined.

(** A derivation with the documented length, for running the model. *)
Definition ex_derive (p s : bytes) (t m th n : Z) : bytes :=
  u8 <$> take (Z.to_nat n) (p ++ s ++ replicate (Z.to_nat n) 0).
Lemma ex_derive_length p s t m th n : 0 ≤ n → zlen (ex_derive p s t m th n) = n.
Proof.
  intros. unfold ex_derive, zlen. rewrite length_fmap, length_take, !length_app, length_replicate. lia.
Qed.
Lemma ex_derive_bytes p s t m th n : bytes_ok (ex_derive p s t m th n).
Proof. apply Forall_fmap, Forall_true. intros z. apply u8_byte. Qed.

Lemma password_roundtrip_witness : ∃ u d',
  CreateUser ex_derive 0 (Some (replicate 16 3)) "ada" "hunter2" true ex_empty [] = (Ok u, d', []) ∧
  (VerifyUser ex_derive "ada" "hunter2" d' []).1.1 = Ok (Some u) ∧
  (VerifyUser ex_derive "ada" "hunter3" d' []).1.1 = Ok None.
Proof.
  assert (H : ∃ u d', CreateUser ex_derive 0 (Some (replicate 16 3)) "ada" "hunter2" true ex_empty [] = (Ok u, d', []))
    by (eexists _, _; vm_compute; reflexivity).
  destruct H as (u & d' & Hrun). exists u, d'. split; [exact Hrun|].
  destruct (password_roundtrip ex_derive 0 (replicate 16 3) "ada" "hunter2" true ex_empty [] u d' []
    ex_derive_length ex_derive_bytes ex_empty_ok ltac:(repeat constructor; done) Hrun) as (_ & _ & Hv & _).
  rewrite !Hv. split; vm_compute; reflexivity.
Defined.
End CredentialLaws.
