(* ===== verification/RateLimit.v ===== *)
(** * Token buckets ([internal/adminhttp/ratelimit.go])

    The hard-capped LRU of refilling buckets that brakes the admin surface.
    Token counts are float64; times are nanoseconds of a monotonic clock. *)

From S2P Require Import Prelude GoLib Bwry.
From Stdlib Require Import SpecFloat.
Import Bwry.

Module RateLimit.

Record tokenBucket := MkBucket { tokens : spec_float; lastRefill : Z }.

(** [lru]: the keys, most recently used first. *)
Record rateLimiter := MkLimiter {
  rate : spec_float; burst : spec_float; window : Z; max : Z;
  buckets : gmap string tokenBucket; lru : list string; evictions : Z }.

Definition ns_second : Z := 1000000000.
Definition ns_minute : Z := 60 * ns_second.

(** [Duration.Seconds] *)
Definition seconds (d : Z) : spec_float :=
  f64_add (f64_of_Z (Z.quot d ns_second)) (f64_div (f64_of_Z (Z.rem d ns_second)) (f64_of_Z ns_second)).

Definition one : spec_float := f64_of_Z 1.

Definition newRateLimiter (limit win max : Z) : rateLimiter :=
  let limit := if limit <? 1 then 1 else limit in
  let win := if win <=? 0 then ns_minute else win in
  let max := if max <? 1 then 1 else max in
  MkLimiter (f64_div (f64_of_Z limit) (seconds win)) (f64_of_Z limit) win max ∅ [] 0.

Definition set_buckets (b : gmap string tokenBucket) (l : list string) (ev : Z) (rl : rateLimiter)
    : rateLimiter := MkLimiter (rate rl) (burst rl) (window rl) (max rl) b l ev.

Definition put_bucket (key : string) (b : tokenBucket) (rl : rateLimiter) : rateLimiter :=
  set_buckets (<[key := b]> (buckets rl)) (lru rl) (evictions rl) rl.

(** The refill since the last access, up to the burst. *)
Definition refill (rl : rateLimiter) (now : Z) (b : tokenBucket) : tokenBucket :=
  let t := f64_add (tokens b) (f64_mul (seconds (now - lastRefill b)) (rate rl)) in
  MkBucket (if SFltb (burst rl) t then burst rl else t) now.

Definition without (key : string) (l : list string) : list string :=
  List.filter (λ k, negb (bool_decide (k = key))) l.

(** The eviction loop; every round removes a key, so as many rounds as keys are
    enough. *)
Fixpoint evict (n : nat) (rl : rateLimiter) : rateLimiter :=
  match n with
  | O => rl
  | S n =>
      if max rl <? zlen (lru rl) then
        match last (lru rl) with
        | None => rl
        | Some back => evict n (set_buckets (delete back (buckets rl)) (removelast (lru rl))
                                  (evictions rl + 1) rl)
        end
      else rl
  end.

Definition bucketLocked (now : Z) (key : string) (rl : rateLimiter) : tokenBucket * rateLimiter :=
  match buckets rl !! key with
  | Some b =>
      let b := refill rl now b in
      (b, set_buckets (<[key := b]> (buckets rl)) (key :: without key (lru rl)) (evictions rl) rl)
  | None =>
      let b := MkBucket (burst rl) now in
      let rl := set_buckets (<[key := b]> (buckets rl)) (key :: lru rl) (evictions rl) rl in
      (b, evict (length (lru rl)) rl)
  end.

Definition has_token (b : tokenBucket) : bool := SFleb one (tokens b).
Definition spend (b : tokenBucket) : tokenBucket := MkBucket (f64_sub (tokens b) one) (lastRefill b).

Definition allow (now : Z) (key : string) (rl : rateLimiter) : bool * rateLimiter :=
  let '(b, rl) := bucketLocked now key rl in
  if has_token b then (true, put_bucket key (spend b) rl) else (false, rl).

Definition peek (now : Z) (key : string) (rl : rateLimiter) : bool * rateLimiter :=
  let '(b, rl) := bucketLocked now key rl in (has_token b, rl).

Definition consume (now : Z) (key : string) (rl : rateLimiter) : rateLimiter :=
  let '(b, rl) := bucketLocked now key rl in
  let b := spend b in
  put_bucket key (if SFltb (tokens b) (f64_of_Z 0) then MkBucket (f64_of_Z 0) (lastRefill b) else b) rl.

Definition retryAfter (now : Z) (key : string) (rl : rateLimiter) : Z * rateLimiter :=
  let '(b, rl) := bucketLocked now key rl in
  (if has_token b then 1
   else if SFleb (rate rl) (f64_of_Z 0) then trunc_f64 (seconds (window rl))
   else
     let secs := f64_div (f64_sub one (tokens b)) (rate rl) in
     let n := trunc_f64 secs in
     let n := if SFltb (f64_of_Z n) secs then n + 1 else n in
     if n <? 1 then 1 else n, rl).

Definition len (rl : rateLimiter) : Z := Z.of_nat (size (buckets rl)).

Definition envIntOr (v : string) (def : Z) : Z :=
  if bool_decide (v = ""%string) then def
  else match GoLib.atoi v with (n, None) => if 0 <? n then n else def | _ => def end.

Definition csrfSafeMethod (m : string) : bool :=
  bool_decide (m = "GET"%string) || bool_decide (m = "HEAD"%string) || bool_decide (m = "OPTIONS"%string).

Record limiters := MkLimiters { ipLimiter : rateLimiter; principalWrite : rateLimiter; principalRead : rateLimiter }.

(** The environment's values: IP per minute, IP cap, writes, reads and principal
    cap. *)
Definition ConfigureRateLimitsFromEnv (ip ipMax wr rd prMax : string) : limiters :=
  let principalMax := envIntOr prMax 16384 in
  MkLimiters (newRateLimiter (envIntOr ip 10) ns_minute (envIntOr ipMax 65536))
    (newRateLimiter (envIntOr wr 60) ns_minute principalMax)
    (newRateLimiter (envIntOr rd 600) ns_minute principalMax).

(** ** The LRU's invariant *)

Record rl_ok (rl : rateLimiter) : Prop := {
  rl_nodup : NoDup (lru rl);
  rl_keys k : k ∈ lru rl ↔ is_Some (buckets rl !! k);
  rl_max : 1 ≤ max rl;
  rl_cap : zlen (lru rl) ≤ max rl }.

Lemma elem_of_without k key l : k ∈ without key l ↔ k ∈ l ∧ k ≠ key.
Proof.
  unfold without. rewrite !list_elem_of_In, filter_In. case_bool_decide; cbn; intuition congruence.
Qed.

Lemma NoDup_without key l : NoDup l → NoDup (without key l).
Proof. intros H%NoDup_ListNoDup. by apply NoDup_ListNoDup, List.NoDup_filter. Qed.

Lemma without_id key l : key ∉ l → without key l = l.
Proof.
  induction l as [|x l IH]; [done|]. intros [Hne Hl]%not_elem_of_cons. unfold without. cbn.
  rewrite bool_decide_eq_false_2 by done. cbn. f_equal. by apply IH.
Qed.

Lemma length_without key l : NoDup l → key ∈ l → length (key :: without key l) = length l.
Proof.
  induction 1 as [|x l Hx Hl IH]; intros Hin; [by apply not_elem_of_nil in Hin|].
  unfold without. cbn. case_bool_decide as Hk; cbn; fold (without key l).
  - subst x. by rewrite without_id.
  - apply elem_of_cons in Hin as [->|Hin]; [done|]. apply IH in Hin. cbn in Hin. by rewrite Hin.
Qed.

(** Everything but the cap. *)
Record rl_listed (rl : rateLimiter) : Prop := {
  ls_nodup : NoDup (lru rl);
  ls_keys k : k ∈ lru rl ↔ is_Some (buckets rl !! k);
  ls_max : 1 ≤ max rl }.

Definition same_policy (rl rl' : rateLimiter) : Prop :=
  rate rl' = rate rl ∧ burst rl' = burst rl ∧ window rl' = window rl ∧ max rl' = max rl.

Lemma same_policy_trans a b c : same_policy a b → same_policy b c → same_policy a c.
Proof. intros (? & ? & ? & ?) (? & ? & ? & ?). by split_and!; etrans. Qed.

Lemma removelast_last {A} (l : list A) x : last l = Some x → l = removelast l ++ [x].
Proof.
  intros Hx. apply last_Some in Hx as [l' ->]. by rewrite removelast_last.
Qed.

Definition evicted (rl rl' : rateLimiter) : Prop :=
  ∃ dropped, lru rl = lru rl' ++ dropped ∧
    (zlen (lru rl) ≤ max rl → dropped = []) ∧
    (zlen (lru rl) ≤ max rl + 1 → (length dropped ≤ 1)%nat) ∧
    ∀ k, buckets rl' !! k = if bool_decide (k ∈ dropped) then None else buckets rl !! k.

Lemma evicted_none rl : evicted rl rl.
Proof.
  exists []. rewrite app_nil_r. split; [done|]. split; [done|]. split; [cbn; lia|].
  intros k. rewrite bool_decide_eq_false_2; [done|apply not_elem_of_nil].
Qed.

Lemma evict_spec n rl : rl_listed rl → zlen (lru rl) ≤ max rl + Z.of_nat n →
  rl_ok (evict n rl) ∧ same_policy rl (evict n rl) ∧ evicted rl (evict n rl).
Proof.
  revert rl. induction n as [|n IH]; intros rl [Hn Hk Hm] Hlen; cbn [evict].
  { split; [split; [done|exact Hk|done|lia]|]. split; [done|apply evicted_none]. }
  destruct (Z.ltb_spec (max rl) (zlen (lru rl))) as [Hlt|Hge].
  2: { split; [split; [done|exact Hk|done|lia]|]. split; [done|apply evicted_none]. }
  destruct (last (lru rl)) as [back|] eqn:Hb.
  2: { apply last_None in Hb. rewrite Hb in Hlt. unfold zlen in Hlt. cbn in Hlt. lia. }
  apply removelast_last in Hb. set (l := removelast (lru rl)) in *.
  set (rl1 := set_buckets _ _ _ _).
  assert (Hl1 : rl_listed rl1).
  { rewrite Hb in Hn, Hk. apply NoDup_app in Hn as (Hn & Hd & _). split; [done| |done].
    intros k. cbn. specialize (Hk k). rewrite elem_of_app, list_elem_of_singleton in Hk.
    destruct (decide (k = back)) as [->|Hne].
    - rewrite lookup_delete_eq. split; [|by intros [? ?]]. intros Hin. by destruct (Hd back Hin); left.
    - rewrite lookup_delete_ne by done. rewrite <-Hk. naive_solver. }
  assert (Hz : zlen (lru rl) = zlen l + 1) by (rewrite Hb at 1; by rewrite zlen_app).
  destruct (IH rl1 Hl1) as (Hok & Hp & dropped & Hd & Hd0 & _ & Hbk); [cbn; lia|].
  split; [done|]. split; [done|]. exists (dropped ++ [back]). cbn [lru rl1 set_buckets] in Hd.
  split; [rewrite Hb at 1; rewrite Hd at 1; by rewrite app_assoc|].
  split; [lia|]. split.
  - intros Hle. rewrite Hd0; [done|]. cbn. lia.
  - intros k. rewrite Hbk. cbn [buckets rl1 set_buckets]. do 2 case_bool_decide; try done.
    + destruct H0. apply elem_of_app. by left.
    + apply elem_of_app in H0 as [?| ->%list_elem_of_singleton]; [done|]. by rewrite lookup_delete_eq.
    + rewrite lookup_delete_ne; [done|]. intros ->. destruct H0. apply elem_of_app. right. by left.
Qed.

(** One access to a key: its bucket, and what may happen to the others. *)
Definition fresh (rl : rateLimiter) (now : Z) : tokenBucket := MkBucket (burst rl) now.

Definition touched (rl : rateLimiter) (now : Z) (key : string) : tokenBucket :=
  match buckets rl !! key with Some b => refill rl now b | None => fresh rl now end.

Lemma bucketLocked_spec now key rl : rl_ok rl → ∃ rl',
  bucketLocked now key rl = (touched rl now key, rl') ∧ rl_ok rl' ∧ same_policy rl rl' ∧
  buckets rl' !! key = Some (touched rl now key) ∧ head (lru rl') = Some key ∧
  ∀ k, k ≠ key → buckets rl' !! k = buckets rl !! k ∨
    (buckets rl' !! k = None ∧ buckets rl !! key = None ∧ zlen (lru rl) = max rl ∧ last (lru rl) = Some k).
Proof.
  intros [Hn Hk Hm Hc]. unfold bucketLocked, touched. destruct (buckets rl !! key) as [b|] eqn:Hb.
  - eexists. split; [reflexivity|]. assert (Hin : key ∈ lru rl) by (apply Hk; by eexists). split.
    + split; cbn; [|intros k|done|].
      * apply NoDup_cons. rewrite elem_of_without. split; [naive_solver|by apply NoDup_without].
      * rewrite elem_of_cons, elem_of_without, Hk. destruct (decide (k = key)) as [->|].
        -- rewrite lookup_insert_eq. split; [by eexists|by left].
        -- rewrite lookup_insert_ne by done. naive_solver.
      * unfold zlen in *. rewrite length_without by done. lia.
    + split; [done|]. cbn. rewrite lookup_insert_eq. split; [done|]. split; [done|].
      intros k Hne. left. by rewrite lookup_insert_ne.
  - set (rl1 := set_buckets _ _ _ _). assert (Hnin : key ∉ lru rl) by (rewrite Hk, Hb; by intros [? ?]).
    assert (Hl1 : rl_listed rl1).
    { split; cbn; [by apply NoDup_cons| |done]. intros k. rewrite elem_of_cons, Hk.
      destruct (decide (k = key)) as [->|].
      - rewrite lookup_insert_eq. split; [by eexists|by left].
      - rewrite lookup_insert_ne by done. naive_solver. }
    assert (Hz : zlen (lru rl1) = 1 + zlen (lru rl)) by (cbn; by rewrite zlen_cons).
    destruct (evict_spec (length (lru rl1)) rl1 Hl1) as (Hok & Hp & dropped & Hd & Hd0 & Hd1 & Hbk);
      [change (max rl1) with (max rl); unfold zlen; lia|].
    exists (evict (length (lru rl1)) rl1). split; [reflexivity|]. split; [done|]. split; [done|].
    cbn [max rl1 set_buckets] in *. specialize (Hd1 ltac:(lia)).
    cbn [lru rl1 set_buckets] in Hd. set (rest := lru (evict _ _)) in *.
    assert (Hrest : head rest = Some key ∧ key ∉ dropped).
    { destruct rest as [|x rest'] eqn:Hr.
      - cbn in Hd. subst dropped. cbn in Hd1. exfalso.
        assert (lru rl = []) as Hnil by (destruct (lru rl); [done|cbn in Hd1; lia]).
        rewrite Hnil in Hz, Hd0. specialize (Hd0 ltac:(unfold zlen; cbn; lia)). done.
      - injection Hd as <- Hd. split; [done|]. intros Hin. apply Hnin. rewrite Hd. apply elem_of_app. by right. }
    destruct Hrest as [Hhead Hkd]. split; [rewrite Hbk, bool_decide_eq_false_2 by done; cbn; by rewrite lookup_insert_eq|].
    split; [done|]. intros k Hne. rewrite Hbk. cbn [buckets rl1 set_buckets].
    case_bool_decide as Hin; [|left; by rewrite lookup_insert_ne]. right. split; [done|]. split; [done|].
    destruct dropped as [|x [|y dropped]]; [by apply not_elem_of_nil in Hin| |cbn in Hd1; lia].
    apply list_elem_of_singleton in Hin as <-.
    assert (Hlast : last (key :: lru rl) = Some k) by (by rewrite Hd, last_snoc).
    split.
    + destruct (Z.le_gt_cases (zlen (lru rl) + 1) (max rl)); [|lia]. by specialize (Hd0 ltac:(lia)).
    + destruct (lru rl) as [|y l]; [by injection Hlast as ->|done].
Qed.
(** ** Sources that share a limiter *)

(** Requests with their times, in the order they come; those of one source, and its
    verdicts among those of all. *)
Fixpoint attempts (reqs : list (Z * string)) (rl : rateLimiter) : list bool * rateLimiter :=
  match reqs with
  | [] => ([], rl)
  | (now, k) :: reqs =>
      let '(ok, rl) := allow now k rl in
      let '(oks, rl) := attempts reqs rl in (ok :: oks, rl)
  end.
Fixpoint own (k : string) (reqs : list (Z * string)) : list (Z * string) :=
  match reqs with
  | [] => []
  | r :: reqs => if bool_decide (r.2 = k) then r :: own k reqs else own k reqs
  end.
Fixpoint verdicts_of (k : string) (reqs : list (Z * string)) (oks : list bool) : list bool :=
  match reqs, oks with
  | r :: reqs, ok :: oks => if bool_decide (r.2 = k) then ok :: verdicts_of k reqs oks else verdicts_of k reqs oks
  | _, _ => []
  end.

Lemma own_sources k reqs x : x ∈ (own k reqs).*2 → x = k.
Proof.
  induction reqs as [|r reqs IH]; cbn; [by intros ?%not_elem_of_nil|]. case_bool_decide as Hr; [|done].
  cbn. intros [->|Hx]%elem_of_cons; [done|by apply IH].
Qed.

(** What one request does to its own bucket and to the others', while no key has to
    go for it. *)
Definition spent (b : tokenBucket) : tokenBucket := if has_token b then spend b else b.
Lemma put_ok key b rl : is_Some (buckets rl !! key) → rl_ok rl → rl_ok (put_bucket key b rl).
Proof.
  intros Hkey [Hn Hk Hm Hc]. split; try done. intros x. rewrite Hk. cbn.
  destruct (decide (x = key)) as [->|]; [|by rewrite lookup_insert_ne].
  rewrite lookup_insert_eq. split; [by eexists|done].
Qed.
Lemma allow_room now key rl : rl_ok rl → (buckets rl !! key = None → zlen (lru rl) < max rl) → ∃ rl',
  allow now key rl = (has_token (touched rl now key), rl') ∧ rl_ok rl' ∧ same_policy rl rl' ∧
  buckets rl' !! key = Some (spent (touched rl now key)) ∧ ∀ k, k ≠ key → buckets rl' !! k = buckets rl !! k.
Proof.
  intros Hok Hroom. destruct (bucketLocked_spec now key rl Hok) as (rl1 & Hrun & Hok1 & Hp1 & Hb1 & _ & Hother).
  assert (Hrest : ∀ k, k ≠ key → buckets rl1 !! k = buckets rl !! k).
  { intros k Hne. destruct (Hother k Hne) as [?|(_ & Hnone & Hfull & _)]; [done|]. specialize (Hroom Hnone). lia. }
  unfold allow, spent. rewrite Hrun. destruct (has_token _).
  - eexists. split; [reflexivity|]. split; [apply put_ok; [by eexists|done]|]. split; [done|]. cbn.
    split; [apply lookup_insert_eq|]. intros k Hne. rewrite lookup_insert_ne by done. by apply Hrest.
  - by exists rl1.
Qed.
Lemma listed_after rl rl' key ks : rl_ok rl → rl_ok rl' → (∀ k, k ≠ key → buckets rl' !! k = buckets rl !! k) →
  key ∈ ks → lru rl ⊆ ks → lru rl' ⊆ ks.
Proof.
  intros Hok Hok' Hother Hk Hsub x Hx. destruct (decide (x = key)) as [->|Hne]; [done|]. apply Hsub.
  apply (rl_keys _ Hok). rewrite <-(Hother x Hne). by apply (rl_keys _ Hok').
Qed.
(** No room is needed that the cap does not have. *)
Lemma room_for ks rl key : NoDup ks → zlen ks ≤ max rl → key ∈ ks → lru rl ⊆ ks → rl_ok rl →
  buckets rl !! key = None → zlen (lru rl) < max rl.
Proof.
  intros Hn Hc Hk Hsub [Hnd Hkeys _ _] Hnone. assert (Hlen : (length (key :: lru rl) ≤ length ks)%nat); [|unfold zlen in *; cbn in *; lia].
  apply submseteq_length, NoDup_submseteq.
  - apply NoDup_cons. split; [|done]. rewrite Hkeys, Hnone. by intros [? ?].
  - intros x [->|Hx]%elem_of_cons; [done|by apply Hsub].
Qed.

(** The limiter all share and the one the source has for itself agree on its bucket. *)
Record alike (k : string) (ks : list string) (rl solo : rateLimiter) : Prop := {
  al_ok : rl_ok rl; al_solo : rl_ok solo; al_policy : same_policy rl solo; al_bucket : buckets rl !! k = buckets solo !! k;
  al_keys : lru rl ⊆ ks; al_only : lru solo ⊆ [k] }.
Lemma touched_alike k ks rl solo now : alike k ks rl solo → touched rl now k = touched solo now k.
Proof.
  intros [_ _ (Hr & Hb & _) He _ _]. unfold touched, refill, fresh. by rewrite He, Hr, Hb.
Qed.
Lemma attempts_alone k ks reqs rl solo : NoDup ks → reqs.*2 ⊆ ks → zlen ks ≤ max rl → alike k ks rl solo →
  verdicts_of k reqs (attempts reqs rl).1 = (attempts (own k reqs) solo).1.
Proof.
  intros Hn. revert rl solo. induction reqs as [|[now key] reqs IH]; intros rl solo Hsub Hc Ha; [done|].
  assert (Hkey : key ∈ ks) by (apply Hsub; left). assert (Hsub' : reqs.*2 ⊆ ks) by (intros x Hx; apply Hsub; by right).
  pose proof Ha as [Hok Hsolo Hp Hb Hkeys Honly].
  destruct (allow_room now key rl Hok) as (rl1 & Hrun & Hok1 & Hp1 & Hb1 & Ho1); [by apply (room_for ks)|].
  assert (Hk1 : lru rl1 ⊆ ks) by exact (listed_after rl rl1 key ks Hok Hok1 Ho1 Hkey Hkeys).
  assert (Hc1 : zlen ks ≤ max rl1) by (destruct Hp1 as (_ & _ & _ & ->); done).
  cbn [attempts own snd]. rewrite Hrun. case_bool_decide as He.
  - subst key. destruct (allow_room now k solo Hsolo) as (solo1 & Hrun' & Hok2 & Hp2 & Hb2 & Ho2).
    { apply (room_for [k]); [apply NoDup_singleton|pose proof (rl_max _ Hsolo); change (zlen [k]) with 1; lia|by left|done|done]. }
    cbn [attempts]. rewrite Hrun'. rewrite <-(touched_alike k ks rl solo now Ha) in *.
    specialize (IH rl1 solo1 Hsub' Hc1). destruct (attempts reqs rl1) as [oks rl2], (attempts (own k reqs) solo1) as [oks' solo2].
    cbn [fst snd verdicts_of] in *. rewrite bool_decide_eq_true_2 by done. f_equal. apply IH. split; [done|done| |congruence|done|].
    + destruct Hp as (? & ? & ? & ?), Hp1 as (? & ? & ? & ?), Hp2 as (? & ? & ? & ?). split_and!; congruence.
    + apply (listed_after solo solo1 k); [done|done|done|by left|done].
  - specialize (IH rl1 solo Hsub' Hc1). destruct (attempts reqs rl1) as [oks rl2]. cbn [fst snd verdicts_of] in *.
    rewrite bool_decide_eq_false_2 by done. apply IH. split; [done|done| |rewrite Ho1; [done|congruence]|done|done].
    destruct Hp as (? & ? & ? & ?), Hp1 as (? & ? & ? & ?). split_and!; congruence.
Qed.
Lemma new_ok limit win cap : rl_ok (newRateLimiter limit win cap).
Proof.
  split; cbn; [apply NoDup_nil_2| | |].
  - intros k. rewrite lookup_empty. split; [by intros ?%not_elem_of_nil|by intros []].
  - destruct (Z.ltb_spec cap 1); lia.
  - unfold zlen. cbn. destruct (Z.ltb_spec cap 1); lia.
Qed.

(** ** A quota at one instant

    Token counts stay whole numbers while no time passes, and the float
    operations on them are exact: here for every limit up to the policy's
    largest, 600. *)

Definition policy_max : Z := 600.

#[local] Instance spec_float_eq_dec : EqDecision spec_float.
Proof. solve_decision. Defined.

Definition whole_ops (k : Z) : bool :=
  eqb (SFleb one (f64_of_Z k)) (1 <=? k) &&
  bool_decide (f64_add (f64_of_Z k) (S754_zero false) = f64_of_Z k) &&
  ((k =? 0) || bool_decide (f64_sub (f64_of_Z k) one = f64_of_Z (k - 1))).

Definition whole_limit (l : Z) : bool :=
  bool_decide (f64_mul (seconds 0) (f64_div (f64_of_Z l) (seconds ns_minute)) = S754_zero false) &&
  forallb (λ k, negb (SFltb (f64_of_Z l) (f64_of_Z k))) (seqZ 0 (l + 1)).

Lemma all_below (p : Z → bool) s n k : forallb p (seqZ s n) = true → s ≤ k < s + n → p k = true.
Proof.
  intros H Hk. rewrite forallb_forall in H. apply H, list_elem_of_In, elem_of_seqZ. lia.
Qed.

Lemma whole_ops_ok k : 0 ≤ k ≤ policy_max → whole_ops k = true.
Proof.
  intros Hk. apply (all_below whole_ops 0 (policy_max + 1)); [vm_compute; reflexivity|lia].
Qed.

Lemma whole_limit_ok l : 1 ≤ l ≤ policy_max → whole_limit l = true.
Proof.
  intros Hk. apply (all_below whole_limit 1 policy_max); [vm_compute; reflexivity|lia].
Qed.

Lemma has_token_whole k t : 0 ≤ k ≤ policy_max → has_token (MkBucket (f64_of_Z k) t) = (1 <=? k).
Proof.
  intros Hk%whole_ops_ok. unfold whole_ops in Hk. apply andb_true_iff in Hk as [[H _]%andb_true_iff _].
  by apply eqb_prop in H.
Qed.

Lemma spend_whole k t : 1 ≤ k ≤ policy_max → spend (MkBucket (f64_of_Z k) t) = MkBucket (f64_of_Z (k - 1)) t.
Proof.
  intros Hk. assert (H := whole_ops_ok k ltac:(lia)). unfold whole_ops in H.
  apply andb_true_iff in H as [_ [?%Z.eqb_eq|H]%orb_true_iff]; [lia|].
  apply bool_decide_eq_true in H. unfold spend. cbn [tokens lastRefill]. by rewrite H.
Qed.

Section Quota.
Context (limit cap now : Z).
Hypothesis Hlimit : 1 ≤ limit ≤ policy_max.

Definition of_policy (rl : rateLimiter) : Prop := same_policy (newRateLimiter limit ns_minute cap) rl.

Lemma refill_whole rl k : of_policy rl → 0 ≤ k ≤ limit →
  refill rl now (MkBucket (f64_of_Z k) now) = MkBucket (f64_of_Z k) now.
Proof.
  intros (Hr & Hb & _) Hk. assert (Hw := whole_ops_ok k ltac:(lia)). assert (Hl := whole_limit_ok limit Hlimit).
  unfold whole_ops in Hw. apply andb_true_iff in Hw as [[_ Ha%bool_decide_eq_true]%andb_true_iff _].
  unfold whole_limit in Hl. apply andb_true_iff in Hl as [Hm%bool_decide_eq_true Hlt].
  assert (Hlk := all_below _ _ _ k Hlt ltac:(lia)). cbn beta in Hlk. apply negb_true_iff in Hlk.
  unfold newRateLimiter in Hr, Hb. cbn [rate burst] in Hr, Hb.
  destruct (Z.ltb_spec limit 1); [lia|]. change (ns_minute <=? 0) with false in Hr. cbn iota in Hr.
  unfold refill. cbn [tokens lastRefill]. rewrite Z.sub_diag, Hr, Hm, Ha, Hb, Hlk. done.
Qed.

(** What a source that asks [n] times at once, alone, has left and is told. *)
Record left_with (k : string) (left : Z) (rl : rateLimiter) : Prop := {
  lw_ok : rl_ok rl; lw_policy : of_policy rl; lw_only : lru rl ⊆ [k];
  lw_bucket : touched rl now k = MkBucket (f64_of_Z left) now }.
Lemma left_step k left rl : left_with k left rl → 0 ≤ left ≤ limit → ∃ rl',
  allow now k rl = (1 <=? left, rl') ∧ left_with k (Z.max 0 (left - 1)) rl'.
Proof.
  intros [Hok Hp Hsub Ht] Hl. destruct (allow_room now k rl Hok) as (rl1 & Hrun & Hok1 & Hp1 & Hb1 & Ho1).
  { apply (room_for [k]); [apply NoDup_singleton|pose proof (rl_max _ Hok); change (zlen [k]) with 1; lia|by left|done|done]. }
  exists rl1. rewrite Hrun, Ht, has_token_whole by lia. split; [done|].
  assert (Hpol : of_policy rl1) by (by eapply same_policy_trans).
  split; [done|done|apply (listed_after rl rl1 k); [done|done|done|by left|done]|].
  unfold touched. rewrite Hb1, Ht. unfold spent. rewrite has_token_whole by lia. destruct (Z.leb_spec 1 left).
  - rewrite spend_whole by lia. replace (Z.max 0 (left - 1)) with (left - 1) by lia. apply refill_whole; [done|lia].
  - replace (Z.max 0 (left - 1)) with left by lia. by apply refill_whole.
Qed.
Lemma alone_quota k reqs left rl : Forall (λ r, r = (now, k)) reqs → left_with k left rl → 0 ≤ left ≤ limit →
  (attempts reqs rl).1 = (λ j, bool_decide (j < left)) <$> seqZ 0 (zlen reqs).
Proof.
  intros Hall. revert left rl. induction Hall as [|r reqs -> _ IH]; intros left rl Hw Hl; [done|].
  destruct (left_step k left rl Hw Hl) as (rl1 & Hrun & Hw1). cbn [attempts]. rewrite Hrun.
  specialize (IH (Z.max 0 (left - 1)) rl1 Hw1 ltac:(lia)). destruct (attempts reqs rl1) as [oks rl2]. cbn [fst] in *. rewrite IH.
  rewrite zlen_cons. rewrite (seqZ_cons 0 (1 + zlen reqs)) by (pose proof (zlen_nonneg reqs); lia).
  replace (Z.pred (1 + zlen reqs)) with (zlen reqs) by lia.
  cbn [fmap list_fmap]. f_equal; [case_bool_decide; destruct (Z.leb_spec 1 left); lia || done|].
  change (Z.succ 0) with (0 + 1). rewrite <-(fmap_add_seqZ 1 0), <-list_fmap_compose. apply list_fmap_ext. intros j x Hx. cbn.
  apply list_elem_of_lookup_2, elem_of_seqZ in Hx. apply bool_decide_ext. lia.
Qed.
End Quota.

Lemma own_same now k reqs : Forall (λ r, r.1 = now) (own k reqs) → Forall (λ r, r = (now, k)) (own k reqs).
Proof.
  rewrite !Forall_forall. intros Ht [t x] Hr. pose proof (Ht _ Hr) as Hn. cbn in Hn. subst.
  f_equal. apply (own_sources k reqs). apply list_elem_of_fmap. by exists (now, x).
Qed.

(** C40. The brake isolates, and it is exact. Of a limiter since its start, any
    limit, window and cap, and any requests at any times from no more sources than
    the cap: a source is told exactly what it would be told if no other had asked.
    And if it asks at one instant, under a limit per minute of at most [policy_max],
    its first [limit] requests are granted and no other. (With more sources than the
    cap the one longest unused is evicted, and its bucket is full again when it
    returns.) *)
Theorem flood_isolated limit win cap reqs k (Hcap : zlen (remove_dups reqs.*2) ≤ Z.max 1 cap) :
  let told := verdicts_of k reqs (attempts reqs (newRateLimiter limit win cap)).1 in
  told = (attempts (own k reqs) (newRateLimiter limit win cap)).1 ∧
  ∀ now, 1 ≤ limit ≤ policy_max → win = ns_minute → Forall (λ r, r.1 = now) (own k reqs) →
    told = (λ j, bool_decide (j < limit)) <$> seqZ 0 (zlen (own k reqs)).
Proof.
  cbv zeta. assert (Halone : verdicts_of k reqs (attempts reqs (newRateLimiter limit win cap)).1 =
    (attempts (own k reqs) (newRateLimiter limit win cap)).1).
  { apply (attempts_alone k (remove_dups reqs.*2)); [apply NoDup_remove_dups| | |].
    - intros x Hx. by apply elem_of_remove_dups.
    - cbn. destruct (Z.ltb_spec cap 1); lia.
    - split; [apply new_ok|apply new_ok|by split_and!|done|apply list_subseteq_nil|apply list_subseteq_nil]. }
  split; [exact Halone|]. intros now Hl -> Hnow. rewrite Halone.
  apply (alone_quota limit cap now Hl k); [by apply own_same| |lia].
  split; [apply new_ok|by split_and!|apply list_subseteq_nil|]. unfold touched, fresh. cbn.
  destruct (Z.ltb_spec limit 1); [lia|done].
Qed.

(** "a" floods at 7 ns, "b" asks then and later. *)
Definition ex_reqs : list (Z * string) := [(7, "a"); (7, "a"); (7, "b"); (7, "a"); (ns_minute, "b"); (ns_minute, "b"); (ns_minute, "b")]%string.
Lemma flood_isolated_witness :
  zlen (remove_dups ex_reqs.*2) ≤ Z.max 1 2 ∧
  verdicts_of "a" ex_reqs (attempts ex_reqs (newRateLimiter 2 ns_minute 2)).1 = [true; true; false] ∧
  verdicts_of "b" ex_reqs (attempts ex_reqs (newRateLimiter 2 ns_minute 2)).1 = [true; true; true; false].
Proof.
  assert (Hcap : zlen (remove_dups ex_reqs.*2) ≤ Z.max 1 2) by (vm_compute; discriminate).
  split; [exact Hcap|]. split.
  - destruct (flood_isolated 2 ns_minute 2 ex_reqs "a" Hcap) as [_ Hq]. rewrite (Hq 7);
      [vm_compute; reflexivity|unfold policy_max; lia|reflexivity|repeat constructor].
  - destruct (flood_isolated 2 ns_minute 2 ex_reqs "b" Hcap) as [-> _]. vm_compute. reflexivity.
Defined.
End RateLimit.
