(* ===== verification/AdminGate.v ===== *)
(** * The admin surface's gates ([internal/adminhttp])

    One [Principal] from four carriers: the dispatch of [Auth], the Basic
    carrier with its argon2 semaphore and positive cache, the session carrier
    with its CSRF gate, the operator key on the loopback listener only, and the
    two rate limits. A handler runs over the process state; every statement
    may fail by the fault schedule. *)

From S2P Require Import Prelude GoLib Db Crypto Credentials CredentialLaws RateLimit.
Import GoLib Credentials CredentialLaws RateLimit.

Module AdminGate.

(** ** Requests and replies *)

Inductive ListenerOrigin := OriginLoopback | OriginPublic.
#[global] Instance ListenerOrigin_eq_dec : EqDecision ListenerOrigin.
Proof. solve_decision. Defined.

(** [Cookie]: the value of [ppk_sid], if the request has that cookie. *)
Record request := MkRequest {
  Method : string; Authorization : string; Cookie : option string; XRequestedWith : string;
  XRealIP : string; RemoteAddr : string; Origin : option ListenerOrigin; RequestID : string; Now : Z }.

#[warnings="-register-all"]
Inductive json :=
| JNull | JBool (b : bool) | JNum (n : Z) | JStr (s : string) | JTime (t : Z)
| JList (l : list json) | JObj (l : list (string * json)).

Record reply := Reply { rStatus : Z; rHeaders : list (string * string); rBody : json }.

Definition writeJSON (r : request) (hdrs : list (string * string)) (status : Z) (body : json) : reply :=
  Reply status (hdrs ++ [("Content-Type", "application/json")]%string ++
    if bool_decide (RequestID r = ""%string) then [] else [("X-Request-ID"%string, RequestID r)]) body.
Definition WriteOK (r : request) (hdrs : list (string * string)) (fields : list (string * json)) : reply :=
  writeJSON r hdrs 200 (JObj (("success"%string, JBool true) :: fields)).
Definition WriteCreated (r : request) (fields : list (string * json)) : reply :=
  writeJSON r [] 201 (JObj (("success"%string, JBool true) :: fields)).
Definition WriteErr (r : request) (hdrs : list (string * string)) (status : Z) (code msg : string) : reply :=
  writeJSON r hdrs status
    (JObj [("success"%string, JBool false); ("error"%string, JStr msg); ("code"%string, JStr code)]).

Definition unauthorized (r : request) : reply :=
  WriteErr r [] 401 "unauthorized" "invalid or missing credentials".
Definition internal (r : request) : reply := WriteErr r [] 500 "internal" "auth lookup failed".

(** ** Headers *)

Definition to_lower (c : Z) : Z := if (65 <=? c) && (c <=? 90) then c + 32 else c.
(** [strings.EqualFold] of an ASCII prefix. *)
Definition fold_prefix (pfx : string) (h : bytes) : bool :=
  let p := bytes_of_string pfx in
  (zlen p <? zlen h) && bool_decide (to_lower <$> take (length p) h = to_lower <$> p).

Fixpoint skip_all_space (skip : nat) (s : bytes) : bytes :=
  match s with
  | [] => []
  | _ :: s' => match skip with
               | S k => skip_all_space k s'
               | O => match space_width s with S k => skip_all_space k s' | O => s end
               end
  end.
Definition all_space (s : bytes) : bool := bool_decide (skip_all_space 0 s = []).
Fixpoint trim_right_space (s : bytes) : bytes :=
  if all_space s then [] else match s with c :: s' => c :: trim_right_space s' | [] => [] end.
Definition TrimSpace (s : bytes) : bytes := trim_right_space (skip_all_space 0 s).

Definition bearer (r : request) : option string :=
  let h := bytes_of_string (Authorization r) in
  if negb (fold_prefix "Bearer " h) then None
  else
    let tok := TrimSpace (drop 7 h) in
    if bool_decide (tok = []) then None else Some (string_of_bytes tok).

Definition hasBasicScheme (r : request) : bool :=
  fold_prefix "Basic " (bytes_of_string (Authorization r)).

(** [base64.StdEncoding]: padded; newlines are skipped. *)
Definition drop_last (n : nat) (s : bytes) : bytes := take (length s - n) s.
Definition std_padded_decode (s : bytes) : option bytes :=
  let s := List.filter not_newline s in
  if negb (zlen s mod 4 =? 0) then None
  else
    let body := match last s with
                | Some 61 => let s1 := drop_last 1 s in
                             match last s1 with Some 61 => drop_last 1 s1 | _ => s1 end
                | _ => s
                end in
    std_decode body.

(** [r.BasicAuth()] *)
Definition BasicAuth (r : request) : option (string * string) :=
  let h := bytes_of_string (Authorization r) in
  if negb (bool_decide (to_lower <$> take 6 h = to_lower <$> bytes_of_string "Basic ")) then None
  else
    c ← std_padded_decode (drop 6 h);
    '(u, p) ← cut c 58;
    Some (string_of_bytes u, string_of_bytes p).

(** [net.SplitHostPort]: the host, or nothing on an error. *)
Fixpoint index (c : Z) (s : bytes) : option nat :=
  match s with
  | [] => None
  | d :: s' => if c =? d then Some O else S <$> index c s'
  end.
Definition last_index (c : Z) (s : bytes) : option nat :=
  (λ i, (length s - 1 - i)%nat) <$> index c (reverse s).
Definition SplitHost (s : bytes) : option bytes :=
  i ← last_index 58 s;
  '(host, j, k) ← match s with
    | 91 :: _ =>
        e ← index 93 s;
        if bool_decide (S e = i) then Some (take (e - 1) (drop 1 s), 1%nat, S e) else None
    | _ =>
        let host := take i s in
        match index 58 host with None => Some (host, O, O) | Some _ => None end
    end;
  match index 91 (drop j s), index 93 (drop k s) with
  | None, None => Some host
  | _, _ => None
  end.

Definition RemoteIP (r : request) : string :=
  let peer := match SplitHost (bytes_of_string (RemoteAddr r)) with
              | Some host => string_of_bytes host
              | None => RemoteAddr r
              end in
  if bool_decide (Origin r = Some OriginPublic) then
    let xrip := TrimSpace (bytes_of_string (XRealIP r)) in
    if bool_decide (xrip = []) then peer else string_of_bytes xrip
  else peer.

(** ** Principals *)

Inductive PrincipalKind := KindOperator | KindBearer | KindSession | KindBasic.
#[global] Instance PrincipalKind_eq_dec : EqDecision PrincipalKind.
Proof. solve_decision. Defined.
Definition kind_string (k : PrincipalKind) : string :=
  match k with
  | KindOperator => "operator" | KindBearer => "bearer"
  | KindSession => "session" | KindBasic => "basic"
  end.

Record Principal := MkPrincipal {
  Kind : PrincipalKind; prID : string; prLabel : string; prScopes : list string; IsAdmin : bool }.

Definition ScopeImageRead : string := "image:read".
Definition ScopeImageWrite : string := "image:write".
Definition implicitFullScopes : list string := [ScopeImageRead; ScopeImageWrite].
Definition HasScope (p : Principal) (scope : string) : bool := existsb (λ s, bool_decide (s = scope)) (prScopes p).

Record ctx := MkCtx { c_principal : option Principal; c_operator : option AuthResult }.
Definition no_ctx : ctx := MkCtx None None.

(** ** The Basic carrier's positive cache *)

Record basicCacheEntry := MkCached {
  ce_digest : bytes; ce_userID : Z; ce_isAdmin : bool; ce_expires : Z }.
Record basicCache := MkCache {
  bc_ttl : Z; bc_max : Z; bc_entries : gmap bytes basicCacheEntry; bc_lru : list bytes }.

Definition newBasicCache (ttl max : Z) : basicCache :=
  MkCache ttl (if max <? 1 then 1 else max) ∅ [].

Definition basicDigest (user pass : string) : bytes :=
  Crypto.sha256 (bytes_of_string user ++ [0] ++ bytes_of_string pass).

Definition front (key : bytes) (l : list bytes) : list bytes :=
  List.filter (λ k, negb (bool_decide (k = key))) l.

Definition cache_remove (key : bytes) (c : basicCache) : basicCache :=
  match bc_entries c !! key with
  | None => c
  | Some _ => MkCache (bc_ttl c) (bc_max c) (delete key (bc_entries c)) (front key (bc_lru c))
  end.

Definition bc_get (now : Z) (user pass : string) (c : basicCache) : option basicCacheEntry * basicCache :=
  if bc_ttl c <=? 0 then (None, c)
  else
    let d := basicDigest user pass in
    match bc_entries c !! d with
    | None => (None, c)
    | Some e =>
        if ce_expires e <? now then (None, cache_remove d c)
        else if negb (bool_decide (ce_digest e = d)) then (None, c)
        else (Some e, MkCache (bc_ttl c) (bc_max c) (bc_entries c) (d :: front d (bc_lru c)))
    end.

(** The eviction loop, as many rounds as there are keys. *)
Fixpoint cache_evict (n : nat) (c : basicCache) : basicCache :=
  match n with
  | O => c
  | S n =>
      if bc_max c <? zlen (bc_lru c) then
        match last (bc_lru c) with
        | Some back => cache_evict n (cache_remove back c)
        | None => c
        end
      else c
  end.

Definition bc_put (now : Z) (user pass : string) (userID : Z) (isAdmin : bool) (c : basicCache) : basicCache :=
  if bc_ttl c <=? 0 then c
  else
    let d := basicDigest user pass in
    let e := MkCached d userID isAdmin (now + bc_ttl c) in
    match bc_entries c !! d with
    | Some _ => MkCache (bc_ttl c) (bc_max c) (<[d := e]> (bc_entries c)) (d :: front d (bc_lru c))
    | None =>
        let c := MkCache (bc_ttl c) (bc_max c) (<[d := e]> (bc_entries c)) (d :: bc_lru c) in
        cache_evict (length (bc_lru c)) c
    end.

(** ** The process *)

(** The [last_used_at] bumps that run beside the request. *)
Inductive touch := TouchedToken (id : Z) | TouchedOperator (id : Z).

Record proc := MkProc {
  p_db : db; p_cache : basicCache; p_argon2 : Z; p_verifies : Z;
  p_limits : limiters; p_pending : list touch }.

Definition set_db (d : db) (p : proc) : proc :=
  MkProc d (p_cache p) (p_argon2 p) (p_verifies p) (p_limits p) (p_pending p).
Definition set_cache (c : basicCache) (p : proc) : proc :=
  MkProc (p_db p) c (p_argon2 p) (p_verifies p) (p_limits p) (p_pending p).
Definition set_argon2 (n : Z) (p : proc) : proc :=
  MkProc (p_db p) (p_cache p) n (p_verifies p) (p_limits p) (p_pending p).
Definition set_verifies (n : Z) (p : proc) : proc :=
  MkProc (p_db p) (p_cache p) (p_argon2 p) n (p_limits p) (p_pending p).
Definition set_limits (l : limiters) (p : proc) : proc :=
  MkProc (p_db p) (p_cache p) (p_argon2 p) (p_verifies p) l (p_pending p).
Definition set_pending (t : list touch) (p : proc) : proc :=
  MkProc (p_db p) (p_cache p) (p_argon2 p) (p_verifies p) (p_limits p) t.

Abbreviation MP := (M proc err).
Definition handler : Type := request → ctx → MP reply.

Definition act {A} (f : proc → A * proc) : MP A := λ p fs, let '(a, p') := f p in (Ok a, p', fs).
Definition on_db {A} (m : MD A) : MP A := zoom p_db set_db m.

(** A pending bump runs: best effort. *)
Definition run_touch (now : Z) : MP unit :=
  t ← act (λ p, (head (p_pending p), set_pending (tail (p_pending p)) p));
  match t with
  | Some (TouchedToken id) => _ ← attempt (on_db (TouchToken now id)); mret ()
  | Some (TouchedOperator id) => _ ← attempt (on_db (TouchOperator now id)); mret ()
  | None => mret ()
  end.

Definition later (t : touch) : MP unit := act (λ p, ((), set_pending (p_pending p ++ [t]) p)).

(** ** The argon2 semaphore *)

Definition defaultArgon2Parallel : Z := 3.
Definition argon2ParallelFromEnv (v : string) : Z := envIntOr v defaultArgon2Parallel.

Section Gates.
(** [argon2.IDKey], and the semaphore's capacity. *)
Context (IDKey : bytes → bytes → Z → Z → Z → Z → bytes) (slots : Z).

Definition TryAcquireArgon2 : MP bool := act (λ p,
  if p_argon2 p <? slots then (true, set_argon2 (p_argon2 p + 1) p) else (false, p)).
Definition ReleaseArgon2 : MP unit := act (λ p, ((), set_argon2 (p_argon2 p - 1) p)).

(** ** The Basic carrier *)

Definition basicPrincipal (user : string) (userID : Z) (isAdmin : bool) : Principal :=
  MkPrincipal KindBasic (format_int userID) user implicitFullScopes isAdmin.

Definition audit (now : Z) (e : Entry) : MP unit := _ ← attempt (on_db (Write now e)); mret ().

(** A miss, with the slot held. *)
Definition verify_basic (now : Z) (user pass remoteIP : string) : MP (option Principal * Z) :=
  _ ← act (λ p, ((), set_verifies (p_verifies p + 1) p));
  u ← attempt (on_db (VerifyUser IDKey user pass));
  match u with
  | Err _ => mret (None, 500)
  | Ok None =>
      _ ← audit now (MkEntry "basic" "" "basic.login_fail" user remoteIP false);
      mret (None, 401)
  | Ok (Some u) =>
      _ ← act (λ p, ((), set_cache (bc_put now user pass (uID u) (uIsAdmin u) (p_cache p)) p));
      mret (Some (basicPrincipal user (uID u) (uIsAdmin u)), 200)
  end.

Definition resolveBasic (now : Z) (user pass remoteIP : string) : MP (option Principal * Z) :=
  hit ← act (λ p, let '(e, c) := bc_get now user pass (p_cache p) in (e, set_cache c p));
  match hit with
  | Some e => mret (Some (basicPrincipal user (ce_userID e) (ce_isAdmin e)), 200)
  | None =>
      got ← TryAcquireArgon2;
      if negb got then mret (None, 429)
      else
        res ← verify_basic now user pass remoteIP;
        _ ← ReleaseArgon2;
        mret res
  end.

(** ** The rate limits *)

Definition on_limiter {A} (safe : bool) (f : rateLimiter → A * rateLimiter) : MP A := act (λ p,
  let l := p_limits p in
  if safe then
    let '(a, rl) := f (principalRead l) in (a, set_limits (MkLimiters (ipLimiter l) (principalWrite l) rl) p)
  else
    let '(a, rl) := f (principalWrite l) in (a, set_limits (MkLimiters (ipLimiter l) rl (principalRead l)) p)).
Definition on_ip {A} (f : rateLimiter → A * rateLimiter) : MP A := act (λ p,
  let l := p_limits p in
  let '(a, rl) := f (ipLimiter l) in (a, set_limits (MkLimiters rl (principalWrite l) (principalRead l)) p)).

Definition retry_header (n : Z) : list (string * string) := [("Retry-After"%string, format_int n)].

Definition admitPrincipal (next : handler) (r : request) (c : ctx) (pr : Principal) : MP reply :=
  let safe := csrfSafeMethod (Method r) in
  let key := (kind_string (Kind pr) +:+ ":" +:+ prID pr)%string in
  ok ← on_limiter safe (allow (Now r) key);
  if negb ok then
    n ← on_limiter safe (retryAfter (Now r) key);
    mret (WriteErr r (retry_header n) 429 "rate_limited" "request rate exceeded; retry shortly")
  else next r (MkCtx (Some pr) (c_operator c)).

Definition IPRateLimit (next : handler) : handler := λ r c,
  let ip := RemoteIP r in
  ok ← on_ip (peek (Now r) ip);
  if negb ok then
    n ← on_ip (retryAfter (Now r) ip);
    mret (WriteErr r (retry_header n) 429 "rate_limited" "too many attempts; retry shortly")
  else
    rep ← next r c;
    _ ← (if rStatus rep =? 401 then on_ip (λ rl, ((), consume (Now r) ip rl)) else mret ());
    mret rep.

(** ** The session carrier *)

Definition resolveSession (now : Z) (secret : string) : MP (option Principal) :=
  sess ← on_db (ResolveSession now secret);
  match sess with
  | None => mret None
  | Some sess =>
      u ← attempt (on_db (GetByID (sUserID sess)));
      match u with
      | Err ErrNotFound => mret None
      | Err e => throw e
      | Ok u =>
          mret (if bool_decide (is_Some (uDisabledAt u)) then None
                else Some (MkPrincipal KindSession (format_int (uID u)) (Username u)
                             implicitFullScopes (uIsAdmin u)))
      end
  end.

Definition csrf_missing (r : request) : bool :=
  negb (csrfSafeMethod (Method r)) && negb (bool_decide (XRequestedWith r = "picpak"%string)).

(** ** [Auth]: the dispatch of the carriers *)

Definition auth_token (next : handler) (r : request) (c : ctx) (raw : string) : MP reply :=
  tok ← attempt (on_db (ResolveToken (Now r) raw));
  match tok with
  | Err _ => mret (internal r)
  | Ok None => mret (unauthorized r)
  | Ok (Some tok) =>
      _ ← later (TouchedToken (ID tok));
      admitPrincipal next r c (MkPrincipal KindBearer (TokenID tok) (Label tok) (Scopes tok) false)
  end.

Definition auth_operator (next : handler) (r : request) (c : ctx) (raw : string) : MP reply :=
  if negb (bool_decide (Origin r = Some OriginLoopback)) then mret (unauthorized r)
  else
    op ← attempt (on_db (Authenticate (Now r) raw));
    match op with
    | Err _ => mret (internal r)
    | Ok None => mret (unauthorized r)
    | Ok (Some op) =>
        _ ← later (TouchedOperator (KeyID op));
        admitPrincipal next r (MkCtx (c_principal c) (Some op))
          (MkPrincipal KindOperator (format_int (KeyID op)) (aLabel op) implicitFullScopes (aIsAdmin op))
    end.

Definition auth_basic (next : handler) (r : request) (c : ctx) : MP reply :=
  match BasicAuth r with
  | None => mret (unauthorized r)
  | Some (user, pass) =>
      res ← resolveBasic (Now r) user pass (RemoteIP r);
      match res with
      | (Some pr, _) => admitPrincipal next r c pr
      | (None, status) =>
          mret (if status =? 429
                then WriteErr r (retry_header 1) 429 "rate_limited"
                       "authentication capacity exceeded; retry shortly"
                else if status =? 500 then internal r else unauthorized r)
      end
  end.

Definition auth_session (next : handler) (r : request) (c : ctx) (secret : string) : MP reply :=
  pr ← attempt (resolveSession (Now r) secret);
  match pr with
  | Err _ => mret (internal r)
  | Ok None => mret (unauthorized r)
  | Ok (Some pr) =>
      if csrf_missing r
      then mret (WriteErr r [] 403 "csrf_required"
                   "mutating session requests must send X-Requested-With: picpak")
      else admitPrincipal next r c pr
  end.

Definition Auth (next : handler) : handler := λ r c,
  match bearer r with
  | Some raw =>
      if has_prefix (bytes_of_string TokenPrefix) (bytes_of_string raw)
      then auth_token next r c raw else auth_operator next r c raw
  | None =>
      if hasBasicScheme r then auth_basic next r c
      else match Cookie r with
           | Some secret =>
               if bool_decide (secret = ""%string) then mret (unauthorized r)
               else auth_session next r c secret
           | None => mret (unauthorized r)
           end
  end.

Definition RequireAdmin (next : handler) : handler := λ r c,
  match c_principal c with
  | Some pr => if IsAdmin pr then next r c
               else mret (WriteErr r [] 403 "forbidden" "admin privilege required")
  | None => mret (WriteErr r [] 403 "forbidden" "admin privilege required")
  end.

Definition RequireScope (scope : string) (next : handler) : handler := λ r c,
  let refused := WriteErr r [] 403 "forbidden" ("missing required scope: " +:+ scope) in
  match c_principal c with
  | Some pr => if HasScope pr scope then next r c else mret refused
  | None => mret refused
  end.

End Gates.

End AdminGate.
