(* ===== verification/AdminAuth.v ===== *)
(** * Who the admin surface admits

    [Auth] runs a handler only for a credential that is valid in the tables at
    that moment (or, for Basic, that verified within the cache's lifetime); the
    privilege gates and the rate limits on top of it. *)

From S2P Require Import Prelude GoLib Db Crypto Credentials CredentialLaws RateLimit AdminGate.
Import GoLib Credentials CredentialLaws RateLimit AdminGate.

Module AdminAuth.

(** ** The positive cache *)

Record cache_shape (c : basicCache) : Prop := {
  cs_nodup : NoDup (bc_lru c);
  cs_keys k : k ∈ bc_lru c ↔ is_Some (bc_entries c !! k);
  cs_max : 1 ≤ bc_max c }.

(** [V digest user admin t]: that pair verified at [t] as that account. *)
Abbreviation verified := (bytes → Z → bool → Z → Prop).

Record cache_ok (V : verified) (c : basicCache) : Prop := {
  co_shape : cache_shape c;
  co_cap : zlen (bc_lru c) ≤ bc_max c;
  co_true : map_Forall (λ d e, ce_digest e = d ∧
    ∃ t, V d (ce_userID e) (ce_isAdmin e) t ∧ ce_expires e = t + bc_ttl c) (bc_entries c) }.

Lemma elem_of_front k key l : k ∈ front key l ↔ k ∈ l ∧ k ≠ key.
Proof. unfold front. rewrite !list_elem_of_In, filter_In. case_bool_decide; cbn; intuition congruence. Qed.

Lemma NoDup_front key l : NoDup l → NoDup (front key l).
Proof. intros H%NoDup_ListNoDup. by apply NoDup_ListNoDup, List.NoDup_filter. Qed.

Lemma length_front key l : (length (front key l) ≤ length l)%nat.
Proof. apply filter_length_le. Qed.

Lemma length_front_lt key l : key ∈ l → (length (front key l) < length l)%nat.
Proof.
  induction l as [|x l IH]; intros Hin; [by apply not_elem_of_nil in Hin|].
  unfold front. cbn. pose proof (length_front key l) as Hle. unfold front in Hle.
  case_bool_decide as Hx; cbn; [lia|].
  apply elem_of_cons in Hin as [->|Hin]; [done|]. apply IH in Hin. unfold front in Hin. lia.
Qed.

Lemma cache_remove_shape key c : cache_shape c → cache_shape (cache_remove key c).
Proof.
  intros [Hn Hk Hm]. unfold cache_remove. destruct (bc_entries c !! key) as [e|] eqn:He; [|done].
  split; cbn; [by apply NoDup_front| |done]. intros k. rewrite elem_of_front, Hk.
  destruct (decide (k = key)) as [->|].
  - rewrite lookup_delete_eq. split; [by intros [_ []]|by intros []].
  - rewrite lookup_delete_ne by done. naive_solver.
Qed.

Lemma cache_remove_sub key c : bc_entries (cache_remove key c) ⊆ bc_entries c.
Proof. unfold cache_remove. destruct (_ !! key); cbn; [apply delete_subseteq|done]. Qed.

Lemma cache_remove_policy key c :
  bc_ttl (cache_remove key c) = bc_ttl c ∧ bc_max (cache_remove key c) = bc_max c.
Proof. unfold cache_remove. by destruct (_ !! key). Qed.

Lemma cache_evict_ok n c : cache_shape c → zlen (bc_lru c) ≤ bc_max c + Z.of_nat n →
  cache_shape (cache_evict n c) ∧ zlen (bc_lru (cache_evict n c)) ≤ bc_max (cache_evict n c) ∧
  bc_entries (cache_evict n c) ⊆ bc_entries c ∧ bc_ttl (cache_evict n c) = bc_ttl c.
Proof.
  revert c. induction n as [|n IH]; intros c Hs Hlen; cbn [cache_evict]; [split_and!; try done; lia|].
  destruct (Z.ltb_spec (bc_max c) (zlen (bc_lru c))) as [Hlt|]; [|by split_and!].
  pose proof Hs as [Hn Hk Hm].
  destruct (last (bc_lru c)) as [back|] eqn:Hb.
  2: { apply last_None in Hb. rewrite Hb in Hlt. unfold zlen in Hlt. cbn in Hlt. lia. }
  assert (Hin : back ∈ bc_lru c).
  { apply last_Some in Hb as [l ->]. apply elem_of_app. right. by left. }
  assert (He : is_Some (bc_entries c !! back)) by (by apply Hk).
  destruct (cache_remove_policy back c) as [Ht Hmx].
  destruct (IH (cache_remove back c)) as (H1 & H2 & H3 & H4).
  - by apply cache_remove_shape.
  - rewrite Hmx. unfold cache_remove. destruct He as [e ->]. cbn [bc_lru].
    pose proof (length_front_lt back (bc_lru c) Hin). unfold zlen in *. lia.
  - split_and!; [done|done| |congruence]. etrans; [exact H3|]. apply cache_remove_sub.
Qed.

Lemma map_Forall_sub {A} (P : bytes → A → Prop) (m m' : gmap bytes A) : m' ⊆ m → map_Forall P m → map_Forall P m'.
Proof. intros Hs H k a Ha. apply H. by eapply lookup_weaken. Qed.

Definition learned (V : verified) (IDKey : bytes → bytes → Z → Z → Z → Z → bytes) (now : Z) (d : db) : verified :=
  λ dg uid adm t, V dg uid adm t ∨
    ∃ user pass u, dg = basicDigest user pass ∧ t = now ∧ user_valid IDKey user pass d u ∧
      uid = uID u ∧ adm = uIsAdmin u.

Lemma cache_ok_mono (V V' : verified) c : (∀ d u a t, V d u a t → V' d u a t) → cache_ok V c → cache_ok V' c.
Proof.
  intros HV [Hs Hc Ht]. split; [done|done|]. intros d e He. destruct (Ht d e He) as (? & t & ? & ?).
  split; [done|]. exists t. auto.
Qed.

Lemma cache_used_ok V d c : cache_ok V c → is_Some (bc_entries c !! d) →
  cache_ok V (MkCache (bc_ttl c) (bc_max c) (bc_entries c) (d :: front d (bc_lru c))).
Proof.
  intros [[Hn Hk Hm] Hc Ht] Hd. assert (Hin : d ∈ bc_lru c) by (by apply Hk).
  split; [split| |done]; cbn.
  - apply NoDup_cons. rewrite elem_of_front. split; [naive_solver|by apply NoDup_front].
  - intros k. rewrite elem_of_cons, elem_of_front, <-Hk.
    destruct (decide (k = d)) as [->|]; naive_solver.
  - done.
  - pose proof (length_front_lt d (bc_lru c) Hin). unfold zlen in *. cbn [length]. lia.
Qed.

(** A hit is an entry that verified no longer ago than its lifetime. *)
Lemma bc_get_ok V now user pass c : cache_ok V c →
  cache_ok V (bc_get now user pass c).2 ∧
  ∀ e, (bc_get now user pass c).1 = Some e →
    ∃ t, V (basicDigest user pass) (ce_userID e) (ce_isAdmin e) t ∧ now ≤ t + bc_ttl c.
Proof.
  intros Hok. unfold bc_get. destruct (bc_ttl c <=? 0); [done|].
  destruct (bc_entries c !! basicDigest user pass) as [e|] eqn:He; [|done].
  destruct (co_true _ _ Hok _ _ He) as (Hd & t & HV & Ht).
  destruct (Z.ltb_spec (ce_expires e) now) as [Hx|Hx].
  { split; [|done]. cbn [fst snd]. destruct (cache_remove_policy (basicDigest user pass) c) as [Hp1 Hp2].
    destruct Hok as [Hs Hc Htr]. split; [by apply cache_remove_shape| |].
    - rewrite Hp2. unfold cache_remove. rewrite He. cbn.
      pose proof (length_front (basicDigest user pass) (bc_lru c)). unfold zlen in *. lia.
    - rewrite Hp1. eapply map_Forall_sub; [apply cache_remove_sub|done]. }
  rewrite Hd. rewrite bool_decide_eq_true_2 by done. cbn. split; [apply cache_used_ok; [done|by eexists]|].
  intros e' [= <-]. exists t. split; [done|lia].
Qed.

Lemma bc_put_ok V now user pass uid adm c : cache_ok V c →
  V (basicDigest user pass) uid adm now → cache_ok V (bc_put now user pass uid adm c).
Proof.
  intros Hok HV. unfold bc_put. destruct (bc_ttl c <=? 0); [done|].
  set (d := basicDigest user pass) in *. set (e := MkCached d uid adm (now + bc_ttl c)).
  assert (Htrue : map_Forall (λ d e, ce_digest e = d ∧
    ∃ t, V d (ce_userID e) (ce_isAdmin e) t ∧ ce_expires e = t + bc_ttl c) (<[d := e]> (bc_entries c))).
  { apply map_Forall_insert_2; [|apply Hok]. split; [done|]. by exists now. }
  destruct (bc_entries c !! d) as [e0|] eqn:He.
  - destruct Hok as [[Hn Hk Hm] Hc _]. assert (Hin : d ∈ bc_lru c) by (apply Hk; by eexists).
    split; [split| |done]; cbn.
    + apply NoDup_cons. rewrite elem_of_front. split; [naive_solver|by apply NoDup_front].
    + intros k. rewrite elem_of_cons, elem_of_front, Hk. destruct (decide (k = d)) as [->|].
      * rewrite lookup_insert_eq. split; [by eexists|by left].
      * rewrite lookup_insert_ne by done. naive_solver.
    + done.
    + pose proof (length_front_lt d (bc_lru c) Hin). unfold zlen in *. cbn [length]. lia.
  - destruct Hok as [[Hn Hk Hm] Hc _]. set (c1 := MkCache _ _ _ _).
    assert (Hnin : d ∉ bc_lru c) by (rewrite Hk, He; by intros []).
    assert (Hs1 : cache_shape c1).
    { split; cbn; [by apply NoDup_cons| |done]. intros k. rewrite elem_of_cons, Hk.
      destruct (decide (k = d)) as [->|].
      - rewrite lookup_insert_eq. split; [by eexists|by left].
      - rewrite lookup_insert_ne by done. naive_solver. }
    destruct (cache_evict_ok (length (bc_lru c1)) c1 Hs1) as (H1 & H2 & H3 & H4).
    { change (bc_max c1) with (bc_max c). unfold zlen. lia. }
    change (cache_ok V (cache_evict (length (bc_lru c1)) c1)).
    split; [done|done|]. rewrite H4. eapply map_Forall_sub; [exact H3|exact Htrue].
Qed.
(** ** Lookups on the process *)

Lemma set_db_id p : set_db (p_db p) p = p.
Proof. by destruct p. Qed.

(** A credential lookup: its answer, on the same process. *)
Lemma on_db_answers {A B} (m : MD (option A)) valid (k : result err (option A) → MP B) p fs :
  answers m valid → ∃ a fs', (attempt (on_db m) ≫= k) p fs = k a p fs' ∧
    match a with Ok (Some v) => valid (p_db p) v | _ => True end.
Proof.
  intros Hm. destruct (Hm (p_db p) fs) as (a & fs' & Hrun & Ha & _). exists a, fs'. split; [|done].
  unfold attempt, on_db, zoom, mbind, M_bind. by rewrite Hrun, set_db_id.
Qed.

Ltac step_db A a fs' H :=
  match goal with |- context [(attempt (on_db ?m) ≫= ?k) ?p ?fs] =>
    destruct (on_db_answers m _ k p fs A) as (a & fs' & -> & H) end.

(** ** Runs of a gate *)

Section Gates.
Context (IDKey : bytes → bytes → Z → Z → Z → Z → bytes) (slots : Z).

(** The credential tables as they were; the trail may have grown. *)
Definition same_tables (d d' : db) : Prop :=
  api_tokens d' = api_tokens d ∧ admin_users d' = admin_users d ∧
  admin_sessions d' = admin_sessions d ∧ operator_keys d' = operator_keys d ∧
  admin_audit d `prefix_of` admin_audit d'.

(** The credential of the request is genuine, and [c] is what it gives. *)
Definition genuine (V : verified) (ttl : Z) (r : request) (d : db) (c : ctx) (pr : Principal) : Prop :=
  c_principal c = Some pr ∧
  match Kind pr with
  | KindBearer => ∃ raw tok, bearer r = Some raw ∧ token_valid (Now r) raw d tok ∧
      pr = MkPrincipal KindBearer (TokenID tok) (Label tok) (Scopes tok) false ∧ c_operator c = None
  | KindOperator => ∃ raw op, bearer r = Some raw ∧ Origin r = Some OriginLoopback ∧
      key_valid (Now r) raw d op ∧ c_operator c = Some op ∧
      pr = MkPrincipal KindOperator (format_int (KeyID op)) (aLabel op) implicitFullScopes (aIsAdmin op)
  | KindBasic => ∃ user pass uid adm, BasicAuth r = Some (user, pass) ∧ c_operator c = None ∧
      pr = basicPrincipal user uid adm ∧
      ((∃ u, user_valid IDKey user pass d u ∧ uid = uID u ∧ adm = uIsAdmin u) ∨
       ∃ t, V (basicDigest user pass) uid adm t ∧ Now r ≤ t + ttl)
  | KindSession => ∃ secret s u row, Cookie r = Some secret ∧ session_valid (Now r) secret d s ∧
      admin_users d !! sUserID s = Some row ∧ u_disabled row = None ∧ u = scanUser (sUserID s) row ∧
      csrf_missing r = false ∧ c_operator c = None ∧
      pr = MkPrincipal KindSession (format_int (uID u)) (Username u) implicitFullScopes (uIsAdmin u)
  end.

(** What a request leaves behind beside its handler. *)
Record beside (V : verified) (r : request) (p p' : proc) : Prop := {
  bs_tables : same_tables (p_db p) (p_db p');
  bs_cache : cache_ok (learned V IDKey (Now r) (p_db p)) (p_cache p');
  bs_ttl : bc_ttl (p_cache p') = bc_ttl (p_cache p);
  bs_slots : p_argon2 p' = p_argon2 p }.

Definition run : Type := result err reply * proc * list bool.

Definition refused (V : verified) (r : request) (p : proc) (x : run) : Prop := ∃ rep p' fs',
  x = (Ok rep, p', fs') ∧ rStatus rep ∈ [401; 403; 429; 500] ∧ beside V r p p'.
Definition admitted (V : verified) (next : handler) (r : request) (p : proc) (x : run) : Prop := ∃ c pr p' fs',
  x = next r c p' fs' ∧ genuine V (bc_ttl (p_cache p)) r (p_db p) c pr ∧ beside V r p p' ∧ p_db p' = p_db p.
Definition gated (V : verified) (next : handler) (r : request) (p : proc) (x : run) : Prop :=
  refused V r p x ∨ admitted V next r p x.

Lemma same_tables_refl d : same_tables d d.
Proof. by split_and!. Qed.

Lemma beside_refl V r p : cache_ok V (p_cache p) → beside V r p p.
Proof.
  intros Hc. split; [apply same_tables_refl| |done..]. eapply cache_ok_mono; [|exact Hc]. by left.
Qed.

Lemma refuse V r p rep fs : cache_ok V (p_cache p) → rStatus rep ∈ [401; 403; 429; 500] →
  ∀ next, gated V next r p (Ok rep, p, fs).
Proof. intros Hc Hs next. left. exists rep, p, fs. split; [done|]. split; [done|]. by apply beside_refl. Qed.

(** Steps that touch only the limits and the pending bumps. *)
Definition aside (p p' : proc) : Prop :=
  p_db p' = p_db p ∧ p_cache p' = p_cache p ∧ p_argon2 p' = p_argon2 p.

Lemma beside_aside V r p p1 p2 : beside V r p p1 → aside p1 p2 → beside V r p p2.
Proof.
  intros [Ht Hc Hl Hs] (H1 & H2 & H3). split; rewrite ?H1, ?H2, ?H3; done.
Qed.

Lemma on_limiter_aside {A B} safe (f : rateLimiter → A * rateLimiter) (k : A → MP B) p fs :
  ∃ a p', (on_limiter safe f ≫= k) p fs = k a p' fs ∧ aside p p'.
Proof.
  unfold on_limiter, act, mbind, M_bind. destruct safe; destruct (f _) as [a rl]; by eexists _, _.
Qed.

Lemma later_aside {B} t (k : MP B) p fs : ∃ p', (later t ≫= λ _, k) p fs = k p' fs ∧ aside p p'.
Proof. by eexists. Qed.

(** Runs one step of a gate. *)
Ltac step_limiter a p' H :=
  match goal with |- context [(on_limiter ?s ?f ≫= ?k) ?p ?fs] =>
    destruct (on_limiter_aside s f k p fs) as (a & p' & -> & H) end.
Ltac step_later p' H :=
  match goal with |- context [(later ?t ≫= ?k) ?p ?fs] =>
    destruct (later_aside t (k ()) p fs) as (p' & -> & H) end.
Lemma admit_gated V next r c pr p p1 fs :
  genuine V (bc_ttl (p_cache p)) r (p_db p) (MkCtx (Some pr) (c_operator c)) pr →
  beside V r p p1 → p_db p1 = p_db p →
  gated V next r p (admitPrincipal next r c pr p1 fs).
Proof.
  intros Hg Hb Hd. unfold admitPrincipal.
  step_limiter ok p2 H2.
  pose proof (beside_aside _ _ _ _ _ Hb H2) as Hb2. destruct ok; cbn [negb].
  - right. eexists _, pr, p2, fs. split; [reflexivity|]. split; [done|]. split; [done|].
    destruct H2 as (-> & _). done.
  - step_limiter n p3 H3.
    left. eexists _, p3, fs. split; [reflexivity|]. split; [cbn; set_solver|]. by eapply beside_aside.
Qed.

Lemma auth_token_gated V next r raw p fs : cache_ok V (p_cache p) → bearer r = Some raw →
  gated V next r p (auth_token next r no_ctx raw p fs).
Proof.
  intros Hc Hb. unfold auth_token.
  step_db (ResolveToken_answers (Now r) raw) a fs1 Ha.
  destruct a as [[tok|]|e]; try (apply refuse; [done|cbn; set_solver]).
  step_later p2 H2.
  apply admit_gated; [|by eapply beside_aside; [apply beside_refl|]|by destruct H2 as (-> & _)].
  split; [done|]. cbn. by exists raw, tok.
Qed.

Lemma auth_operator_gated V next r raw p fs : cache_ok V (p_cache p) → bearer r = Some raw →
  gated V next r p (auth_operator next r no_ctx raw p fs).
Proof.
  intros Hc Hb. unfold auth_operator.
  case_bool_decide as Ho; cbn [negb]; [|apply refuse; [done|cbn; set_solver]].
  step_db (Authenticate_answers (Now r) raw) a fs1 Ha.
  destruct a as [[op|]|e]; try (apply refuse; [done|cbn; set_solver]).
  step_later p2 H2.
  apply admit_gated; [|by eapply beside_aside; [apply beside_refl|]|by destruct H2 as (-> & _)].
  split; [done|]. cbn. by exists raw, op.
Qed.

(** ** The Basic carrier *)

Definition basic_result (V : verified) (r : request) (user pass : string) (p : proc)
    (res : option Principal * Z) (p' : proc) : Prop :=
  match res with
  | (Some pr, st) => st = 200 ∧ p_db p' = p_db p ∧ ∃ uid adm, pr = basicPrincipal user uid adm ∧
      ((∃ u, user_valid IDKey user pass (p_db p) u ∧ uid = uID u ∧ adm = uIsAdmin u) ∨
       ∃ t, V (basicDigest user pass) uid adm t ∧ Now r ≤ t + bc_ttl (p_cache p))
  | (None, st) => st ∈ [401; 429; 500]
  end.

Lemma bc_get_ttl now user pass c : bc_ttl (bc_get now user pass c).2 = bc_ttl c.
Proof.
  unfold bc_get. repeat case_match; try done. cbn [snd]. apply cache_remove_policy.
Qed.

Lemma bc_put_ttl now user pass uid adm c : bc_ttl (bc_put now user pass uid adm c) = bc_ttl c.
Proof.
  unfold bc_put. repeat case_match; try done.
  assert (Hev : ∀ n c, bc_ttl (cache_evict n c) = bc_ttl c); [|by rewrite Hev].
  intros n. induction n as [|n IH]; intros c0; [done|]. cbn [cache_evict].
  destruct (_ <? _); [|done]. destruct (last _); [|done]. rewrite IH. apply cache_remove_policy.
Qed.

Lemma audit_runs now e p fs : ∃ p' fs', audit now e p fs = (Ok (), p', fs') ∧
  same_tables (p_db p) (p_db p') ∧ p_cache p' = p_cache p ∧ p_argon2 p' = p_argon2 p.
Proof.
  unfold audit, attempt, on_db, zoom, Write, exec, stmt, mbind, M_bind.
  destruct fs as [|[] fs]; eexists _, _; (split; [reflexivity|]); (split; [|done]); cbn;
    split_and!; try done; by apply prefix_app_r.
Qed.

Lemma verify_basic_runs V r user pass ip p fs : cache_ok V (p_cache p) →
  ∃ res p' fs', verify_basic IDKey (Now r) user pass ip p fs = (Ok res, p', fs') ∧
    beside V r p p' ∧ basic_result V r user pass p res p'.
Proof.
  intros Hc. unfold verify_basic.
  set (p1 := set_verifies (p_verifies p + 1) p).
  match goal with |- context [(act ?f ≫= ?k) p fs] =>
    change ((act f ≫= k) p fs) with (k () p1 fs) end. cbv beta.
  step_db (VerifyUser_answers IDKey user pass) a fs1 Ha.
  destruct a as [[u|]|e].
  - eexists _, _, fs1. split; [reflexivity|]. split; [split|]; cbn.
    + apply same_tables_refl.
    + apply bc_put_ok; [eapply cache_ok_mono; [|exact Hc]; by left|].
      right. exists user, pass, u. by split_and!.
    + apply bc_put_ttl.
    + done.
    + split; [done|]. split; [done|]. exists (uID u), (uIsAdmin u). split; [done|]. left. by exists u.
  - match goal with |- context [(audit ?n ?e ≫= _) p1 fs1] =>
      destruct (audit_runs n e p1 fs1) as (p2 & fs2 & Hrun & Ht & Hc2 & Hs2) end.
    exists (None, 401), p2, fs2. unfold mbind, M_bind. rewrite Hrun. split; [done|].
    split; [split|cbn; set_solver]; rewrite ?Hc2, ?Hs2; try done.
    eapply cache_ok_mono; [|exact Hc]. by left.
  - exists (None, 500), p1, fs1. split; [done|]. split; [|cbn; set_solver].
    apply (beside_aside V r p p); [by apply beside_refl|done].
Qed.

Lemma resolveBasic_runs V r user pass ip p fs : cache_ok V (p_cache p) →
  ∃ res p' fs', resolveBasic IDKey slots (Now r) user pass ip p fs = (Ok res, p', fs') ∧
    beside V r p p' ∧ basic_result V r user pass p res p'.
Proof.
  intros Hc. unfold resolveBasic, TryAcquireArgon2, ReleaseArgon2, act, mbind, M_bind, mret, M_ret.
  pose proof (bc_get_ok V (Now r) user pass (p_cache p) Hc) as [Hget Hhit].
  pose proof (bc_get_ttl (Now r) user pass (p_cache p)) as Httl.
  destruct (bc_get (Now r) user pass (p_cache p)) as [hit c1]. cbn [fst snd] in Hget, Hhit, Httl.
  assert (Hb1 : beside V r p (set_cache c1 p)).
  { split; [apply same_tables_refl| |exact Httl|done]. eapply cache_ok_mono; [|exact Hget]. by left. }
  destruct hit as [e|].
  { eexists _, _, fs. split; [reflexivity|]. split; [done|]. split; [done|]. split; [done|].
    exists (ce_userID e), (ce_isAdmin e). split; [done|]. right. by apply Hhit. }
  cbn [p_argon2 set_cache]. destruct (Z.ltb_spec (p_argon2 p) slots) as [Hsl|Hsl]; cbn [negb].
  2: { eexists _, _, fs. split; [reflexivity|]. split; [done|]. cbn. set_solver. }
  set (p1 := set_argon2 _ _).
  destruct (verify_basic_runs V r user pass ip p1 fs Hget) as (res & p2 & fs2 & -> & Hb & Hres).
  eexists _, _, fs2. split; [reflexivity|]. destruct Hb as [Ht Hc2 Htt Hs2]. split; [split|].
  - exact Ht.
  - exact Hc2.
  - cbn. rewrite Htt. exact Httl.
  - cbn. rewrite Hs2. cbn. lia.
  - destruct res as [[pr|] st]; [|done]. destruct Hres as (Hst & Hd & uid & adm & Hpr & Hj).
    split; [done|]. split; [done|]. exists uid, adm. split; [done|].
    destruct Hj as [?|(t & ? & Ht')]; [by left|right]. exists t. split; [done|]. cbn in Ht'. by rewrite Httl in Ht'.
Qed.

Lemma auth_basic_gated V next r p fs : cache_ok V (p_cache p) →
  gated V next r p (auth_basic IDKey slots next r no_ctx p fs).
Proof.
  intros Hc. unfold auth_basic. destruct (BasicAuth r) as [[user pass]|] eqn:Hb;
    [|apply refuse; [done|cbn; set_solver]].
  destruct (resolveBasic_runs V r user pass (RemoteIP r) p fs Hc) as (res & p1 & fs1 & Hrun & Hbs & Hres).
  unfold mbind, M_bind. rewrite Hrun. destruct res as [[pr|] st].
  - destruct Hres as (_ & Hd & uid & adm & -> & Hj). apply admit_gated; [|done|done].
    split; [done|]. cbn. exists user, pass, uid, adm. by split_and!.
  - left. eexists _, p1, fs1. split; [reflexivity|]. split; [|done]. cbn in Hres.
    repeat case_match; cbn; set_solver.
Qed.

(** ** The session carrier *)

Lemma resolveSession_runs now secret p fs :
  ∃ a fs', resolveSession now secret p fs = (a, p, fs') ∧
    match a with
    | Ok (Some pr) => ∃ s row, session_valid now secret (p_db p) s ∧
        admin_users (p_db p) !! sUserID s = Some row ∧ u_disabled row = None ∧
        pr = MkPrincipal KindSession (format_int (sUserID s)) (u_username row) implicitFullScopes (u_is_admin row)
    | _ => True
    end.
Proof.
  unfold resolveSession, on_db, zoom, mbind, M_bind.
  destruct (ResolveSession_answers now secret (p_db p) fs) as (a & fs1 & -> & Ha & _). rewrite set_db_id.
  destruct a as [[s|]|e]; [|by eexists _, _..].
  unfold attempt, GetByID, query, stmt. rewrite ?set_db_id.
  destruct fs1 as [|[] fs1]; destruct (admin_users (p_db p) !! sUserID s) as [row|] eqn:Hrow;
    rewrite ?set_db_id; eexists _, _; (split; [reflexivity|]); try done; cbn;
    destruct (decide (is_Some (u_disabled row))) as [Hd|Hd];
    rewrite ?(bool_decide_eq_true_2 _ Hd), ?(bool_decide_eq_false_2 _ Hd); try done;
    apply eq_None_not_Some in Hd; by exists s, row.
Qed.

Lemma auth_session_gated V next r secret p fs : cache_ok V (p_cache p) → Cookie r = Some secret →
  gated V next r p (auth_session next r no_ctx secret p fs).
Proof.
  intros Hc Hck. unfold auth_session, attempt, mbind at 1, M_bind.
  destruct (resolveSession_runs (Now r) secret p fs) as (a & fs1 & -> & Ha).
  destruct a as [[pr|]|e]; try (apply refuse; [done|cbn; set_solver]).
  destruct (csrf_missing r) eqn:Hx; [apply refuse; [done|cbn; set_solver]|].
  destruct Ha as (s & row & Hs & Hrow & Hdis & ->).
  apply admit_gated; [|by apply beside_refl|done]. split; [done|]. cbn.
  exists secret, s, (scanUser (sUserID s) row), row. by split_and!.
Qed.

Lemma Auth_gated V next r p fs : cache_ok V (p_cache p) →
  gated V next r p (Auth IDKey slots next r no_ctx p fs).
Proof.
  intros Hc. unfold Auth. destruct (bearer r) as [raw|] eqn:Hb.
  - destruct (has_prefix _ _); [by apply auth_token_gated|by apply auth_operator_gated].
  - destruct (hasBasicScheme r); [by apply auth_basic_gated|].
    destruct (Cookie r) as [secret|] eqn:Hck; [|apply refuse; [done|cbn; set_solver]].
    case_bool_decide; [apply refuse; [done|cbn; set_solver]|by apply auth_session_gated].
Qed.

(** ** Properties *)

(** The single gate of the admin surface. Whatever the request, the faults and
    the handler, [Auth] either answers 401, 403, 429 or 500 itself, or runs the
    handler with a principal that the tables justify at that moment: a live,
    unexpired machine token that is never an admin and has exactly its granted
    scopes; an operator key on the loopback listener only; an account whose
    password verifies, now or within the cache's lifetime; or a live session of
    an enabled account, for a mutation only with the CSRF header. Either way
    the credential tables are untouched, the audit trail only grew, the argon2
    slot is free again and the cache stays within its cap and holds only pairs
    that verified. *)
Theorem Auth_admits V next r p fs (Hc : cache_ok V (p_cache p)) :
  (∃ rep p' fs', Auth IDKey slots next r no_ctx p fs = (Ok rep, p', fs') ∧
     rStatus rep ∈ [401; 403; 429; 500] ∧ beside V r p p') ∨
  (∃ c pr p' fs', Auth IDKey slots next r no_ctx p fs = next r c p' fs' ∧
     genuine V (bc_ttl (p_cache p)) r (p_db p) c pr ∧ beside V r p p' ∧ p_db p' = p_db p).
Proof. exact (Auth_gated V next r p fs Hc). Qed.

(** A principal without the privilege does not pass. *)
Lemma admit_refuses V h r c pr p p1 fs : IsAdmin pr = false → beside V r p p1 →
  refused V r p (admitPrincipal (RequireAdmin h) r c pr p1 fs).
Proof.
  intros Hadm Hb. unfold admitPrincipal. step_limiter ok p2 H2.
  pose proof (beside_aside _ _ _ _ _ Hb H2) as Hb2. destruct ok; cbn [negb].
  - unfold RequireAdmin. cbn [c_principal]. rewrite Hadm. eexists _, p2, fs. split; [reflexivity|].
    split; [cbn; set_solver|done].
  - step_limiter n p3 H3. eexists _, p3, fs. split; [reflexivity|]. split; [cbn; set_solver|].
    by eapply beside_aside.
Qed.

(** No machine token, and no bearer at all off the loopback listener, reaches a
    fleet-admin route: the route's handler is not run, whatever it is, and the
    credential tables are as before. *)
Theorem bearer_never_admin V h r p fs raw (Hc : cache_ok V (p_cache p)) (Hb : bearer r = Some raw)
    (Hraw : has_prefix (bytes_of_string TokenPrefix) (bytes_of_string raw) = true ∨
            Origin r ≠ Some OriginLoopback) :
  ∃ rep p' fs', Auth IDKey slots (RequireAdmin h) r no_ctx p fs = (Ok rep, p', fs') ∧
    rStatus rep ∈ [401; 403; 429; 500] ∧ beside V r p p'.
Proof.
  assert (Hanswer : ∀ rep fs1, rStatus rep ∈ [401; 403; 429; 500] →
    ∃ rep' p' fs', ((Ok rep, p, fs1) : run) = (Ok rep', p', fs') ∧
      rStatus rep' ∈ [401; 403; 429; 500] ∧ beside V r p p').
  { intros rep fs1 Hs. exists rep, p, fs1. split; [done|]. split; [done|]. by apply beside_refl. }
  unfold Auth. rewrite Hb. destruct (has_prefix _ _) eqn:Hp.
  - unfold auth_token. step_db (ResolveToken_answers (Now r) raw) a fs1 Ha.
    destruct a as [[tok|]|e]; try (apply Hanswer; cbn; set_solver).
    step_later p2 H2. apply admit_refuses; [done|]. eapply beside_aside; [by apply beside_refl|done].
  - destruct Hraw as [Hraw|Ho]; [congruence|]. unfold auth_operator. rewrite bool_decide_eq_false_2 by done.
    apply Hanswer. cbn. set_solver.
Qed.

End Gates.

(** ** Concrete requests *)

Definition nobody : verified := λ _ _ _ _, False.
Definition ex_limits : limiters := ConfigureRateLimitsFromEnv "" "" "" "" "".
Definition ex_proc (d : db) : proc := MkProc d (newBasicCache 60000000000 1024) 0 0 ex_limits [].
Definition ex_request (auth : string) (o : option ListenerOrigin) : request :=
  MkRequest "POST" auth None "" "203.0.113.9" "10.0.0.1:4711" o "req-1" 2000000.
Definition ex_handler : handler := λ r c, mret (WriteOK r [] []).
Definition ex_bearer : string := ("Bearer " +:+ (newOperatorToken ex_key).1)%string.

Lemma ex_cache_ok V : cache_ok V (newBasicCache 60000000000 1024).
Proof.
  split; [split| |apply map_Forall_empty]; cbn; try lia; [apply NoDup_nil_2| |unfold zlen; cbn; lia].
  intros k. rewrite lookup_empty. split; [by intros ?%not_elem_of_nil|by intros []].
Qed.

Lemma ok_not_refused rep : rStatus rep = 200 → rStatus rep ∈ [401; 403; 429; 500] → False.
Proof. intros ->. set_solver. Qed.

(** The break-glass key works on the loopback listener, and only there. *)
Lemma Auth_admits_witness :
  ∃ p' fs', Auth ex_derive 3 ex_handler (ex_request ex_bearer (Some OriginLoopback)) no_ctx (ex_proc ex_tables) []
    = (Ok (WriteOK (ex_request ex_bearer (Some OriginLoopback)) [] []), p', fs') ∧
    beside ex_derive nobody (ex_request ex_bearer (Some OriginLoopback)) (ex_proc ex_tables) p'.
Proof.
  assert (Hrun : (Auth ex_derive 3 ex_handler (ex_request ex_bearer (Some OriginLoopback)) no_ctx
    (ex_proc ex_tables) []).1.1 = Ok (WriteOK (ex_request ex_bearer (Some OriginLoopback)) [] []))
    by (vm_compute; reflexivity).
  destruct (Auth_admits ex_derive 3 nobody ex_handler (ex_request ex_bearer (Some OriginLoopback))
    (ex_proc ex_tables) [] (ex_cache_ok nobody)) as [(rep & p' & fs' & H & Hs & _)|(c & pr & p' & fs' & H & _ & Hb & _)].
  - rewrite H in Hrun. injection Hrun as ->. exfalso. revert Hs. apply ok_not_refused. reflexivity.
  - exists p', fs'. split; [exact H|exact Hb].
Defined.

Lemma bearer_never_admin_witness :
  ∃ rep p' fs', Auth ex_derive 3 (RequireAdmin ex_handler) (ex_request ex_bearer (Some OriginPublic)) no_ctx
    (ex_proc ex_tables) [] = (Ok rep, p', fs') ∧ rStatus rep = 401 ∧
    same_tables (p_db (ex_proc ex_tables)) (p_db p').
Proof.
  assert (Hrun : (λ x, match x with Ok rep => rStatus rep | Err _ => 0 end)
    (Auth ex_derive 3 (RequireAdmin ex_handler) (ex_request ex_bearer (Some OriginPublic)) no_ctx
    (ex_proc ex_tables) []).1.1 = 401) by (vm_compute; reflexivity).
  assert (Hb : bearer (ex_request ex_bearer (Some OriginPublic)) = Some (newOperatorToken ex_key).1)
    by (vm_compute; reflexivity).
  assert (Ho : Origin (ex_request ex_bearer (Some OriginPublic)) ≠ Some OriginLoopback) by discriminate.
  destruct (bearer_never_admin ex_derive 3 nobody ex_handler (ex_request ex_bearer (Some OriginPublic))
    (ex_proc ex_tables) [] _ (ex_cache_ok nobody) Hb (or_intror Ho)) as (rep & p' & fs' & H & _ & [Ht _ _ _]).
  rewrite H in Hrun. by exists rep, p', fs'.
Defined.
End AdminAuth.
