(* ===== verification/AdminHttp.v ===== *)
(** * Login, logout and machine tokens ([cmd/backend/auth_http.go], [token_http.go],
    [token_cli.go], [usercli.go])

    The handlers behind the gates and the bootstrap commands. A request's
    decoded JSON body is an argument, [None] where it does not decode; RFC 3339
    parsing is a parameter. *)

From S2P Require Import Prelude GoLib Db Crypto Credentials CredentialLaws RateLimit AdminGate AdminAuth.
Import GoLib Credentials CredentialLaws AdminGate AdminAuth.

Module AdminHttp.

Definition sessionCookieName : string := "ppk_sid".
Definition ns_per_s : Z := 1000000000.

(** Zero is no attribute, a negative age is zero. *)
Definition max_age (n : Z) : string :=
  if n =? 0 then ""%string else ("; Max-Age=" +:+ format_int (Z.max 0 n))%string.

(** [http.SetCookie] of the attributes both handlers use. *)
Definition set_cookie (value : string) (maxAge : Z) : string * string :=
  ("Set-Cookie"%string,
   (sessionCookieName +:+ "=" +:+ value +:+ "; Path=/" +:+ max_age maxAge +:+
    "; HttpOnly; Secure; SameSite=Strict")%string).

Definition opt_time (t : option Z) : json := match t with Some t => JTime t | None => JNull end.

Record token_body := MkTokenBody {
  tb_label : string; tb_scopes : list string; tb_expires : option string }.

Section Handlers.
Context (IDKey : bytes → bytes → Z → Z → Z → Z → bytes) (slots : Z).
Context (parse_rfc3339 : string → option Z).
(** [ADMIN_SESSION_TTL], nanoseconds *)
Context (sessionTTL : Z).

(** ** Sessions *)

Definition login (body : option (string * string)) (rnd : option bytes) : handler := λ r _,
  match body with
  | None => mret (WriteErr r [] 400 "bad_request" "malformed JSON body")
  | Some (username, password) =>
      let remoteIP := RemoteIP r in
      got ← TryAcquireArgon2 slots;
      if negb got then
        mret (WriteErr r (retry_header 1) 429 "rate_limited" "authentication capacity exceeded; retry shortly")
      else
        u ← attempt (on_db (VerifyUser IDKey username password));
        _ ← ReleaseArgon2;
        match u with
        | Err _ => mret (WriteErr r [] 500 "internal" "login failed")
        | Ok None =>
            _ ← audit (Now r) (MkEntry "session" "" "session.login_fail" username remoteIP false);
            mret (WriteErr r [] 401 "unauthorized" "invalid credentials")
        | Ok (Some u) =>
            s ← attempt (on_db (CreateSession (Now r) rnd (uID u) sessionTTL));
            match s with
            | Err _ => mret (WriteErr r [] 500 "internal" "session create failed")
            | Ok (secret, sess) =>
                _ ← audit (Now r) (MkEntry "session" (format_int (uID u)) "session.login"
                                     (Username u) remoteIP true);
                mret (WriteOK r [set_cookie secret (Z.quot sessionTTL ns_per_s)]
                  [("user_id", JNum (uID u)); ("username", JStr (Username u));
                   ("is_admin", JBool (uIsAdmin u)); ("expires_at", JTime (sExpiresAt sess))]%string)
            end
        end
  end.

Definition logout : handler := λ r _,
  let done := WriteOK r [set_cookie "" (-1)] [("logged_out"%string, JBool true)] in
  match Cookie r with
  | Some secret =>
      if bool_decide (secret = ""%string) then mret done
      else
        x ← attempt (on_db (DeleteSession secret));
        mret (match x with Err _ => WriteErr r [] 500 "internal" "logout failed" | Ok _ => done end)
  | None => mret done
  end.

(** One tick of the session sweep; its error is logged. *)
Definition session_prune (now : Z) : MP unit := _ ← attempt (on_db (CleanupSessions now)); mret ().

(** ** Machine tokens *)

Definition mintedBy (pr : Principal) : option Z :=
  if bool_decide (Kind pr = KindOperator) then
    match parse_int (prID pr) 64 with (id, None) => Some id | _ => None end
  else None.

(** The zero [Principal] where there is none. *)
Definition actor_id (c : ctx) : string :=
  match c_principal c with Some pr => prID pr | None => "" end.
Definition actor_kind (c : ctx) : string :=
  match c_principal c with Some pr => kind_string (Kind pr) | None => "" end.

(** An absent or empty expiry is none; anything else must parse. *)
Definition parse_expiry (e : option string) : result unit (option Z) :=
  match e with
  | None => Ok None
  | Some s => if bool_decide (s = ""%string) then Ok None
              else match parse_rfc3339 s with Some t => Ok (Some t) | None => Err () end
  end.

Definition mint (body : option token_body) (rid rsecret : option bytes) : handler := λ r c,
  match body with
  | None => mret (WriteErr r [] 400 "bad_request" "malformed JSON body")
  | Some b =>
      if bool_decide (tb_label b = ""%string)
      then mret (WriteErr r [] 422 "invalid_label" "label is required")
      else match parse_expiry (tb_expires b) with
      | Err _ => mret (WriteErr r [] 422 "invalid_expiry" "expires_at must be RFC3339")
      | Ok expires =>
          res ← attempt (on_db (CreateToken (Now r) rid rsecret (tb_label b) (tb_scopes b) expires
                                  (match c_principal c with Some pr => mintedBy pr | None => None end)));
          match res with
          (* the message also quotes the scope *)
          | Err ErrUnknownScope => mret (WriteErr r [] 422 "unknown_scope" "apitoken: unknown scope")
          | Err _ => mret (WriteErr r [] 500 "internal" "token mint failed")
          | Ok (plaintext, tok) =>
              a ← attempt (on_db (Write (Now r) (MkEntry (actor_kind c) (actor_id c) "token.mint"
                                                   (TokenID tok) (RemoteIP r) true)));
              mret (match a with
                    | Err _ => WriteErr r [] 500 "internal" "token mint failed"
                    | Ok _ => WriteOK r []
                        [("token", JStr plaintext); ("id", JNum (ID tok)); ("token_id", JStr (TokenID tok));
                         ("label", JStr (Label tok)); ("scopes", JList (JStr <$> Scopes tok));
                         ("expires_at", opt_time (ExpiresAt tok)); ("created_at", JTime (CreatedAt tok))]%string
                    end)
          end
      end
  end.

Definition tokenStatus (now : Z) (t : Token) : string :=
  if bool_decide (is_Some (DisabledAt t)) then "revoked"
  else if expired now (ExpiresAt t) then "expired" else "active".

Definition token_json (now : Z) (t : Token) : json :=
  JObj [("id", JNum (ID t)); ("token_id", JStr (TokenID t)); ("label", JStr (Label t));
        ("scopes", JList (JStr <$> Scopes t)); ("created_at", JTime (CreatedAt t));
        ("expires_at", opt_time (ExpiresAt t)); ("last_used", opt_time (LastUsedAt t));
        ("status", JStr (tokenStatus now t))]%string.

Definition list_tokens : handler := λ r _,
  toks ← attempt (on_db ListTokens);
  mret (match toks with
        | Err _ => WriteErr r [] 500 "internal" "token list failed"
        | Ok toks => WriteOK r [] [("tokens"%string, JList (token_json (Now r) <$> toks))]
        end).

Definition no_token (r : request) : reply := WriteErr r [] 404 "not_found" "no such token".
Definition revoke_failed (r : request) : reply := WriteErr r [] 500 "internal" "token revoke failed".

Definition revoke (path_id : string) : handler := λ r c,
  match parse_int path_id 64 with
  | (id, None) =>
      if id <=? 0 then mret (no_token r)
      else
        tok ← attempt (on_db (GetToken id));
        match tok with
        | Err ErrNotFound => mret (no_token r)
        | Err _ => mret (revoke_failed r)
        | Ok tok =>
            x ← attempt (on_db (Revoke (Now r) id));
            match x with
            | Err _ => mret (revoke_failed r)
            | Ok _ =>
                a ← attempt (on_db (Write (Now r) (MkEntry (actor_kind c) (actor_id c) "token.revoke"
                                                     (TokenID tok) (RemoteIP r) true)));
                mret (match a with
                      | Err _ => revoke_failed r
                      | Ok _ => WriteOK r [] [("revoked"%string, JStr (TokenID tok))]
                      end)
            end
        end
  | _ => mret (no_token r)
  end.

(** The routes, as registered. *)
Definition login_route body rnd : handler := IPRateLimit (login body rnd).
Definition logout_route : handler := IPRateLimit (Auth IDKey slots logout).
Definition mint_route body rid rsecret : handler :=
  IPRateLimit (Auth IDKey slots (RequireAdmin (mint body rid rsecret))).
Definition list_route : handler := IPRateLimit (Auth IDKey slots (RequireAdmin list_tokens)).
Definition revoke_route path_id : handler := IPRateLimit (Auth IDKey slots (RequireAdmin (revoke path_id))).
End Handlers.

(** ** The bootstrap commands *)

(** The exit code, with what is printed. *)
Definition createApiToken (now : Z) (tty : bool) (rid rsecret : option bytes) (label : string)
    (scopes : list string) (expiresIn : Z) : MD (Z * option (string * Token)) :=
  if negb tty then mret (3, None)
  else
    let expires := if 0 <? expiresIn then Some (now + expiresIn) else None in
    res ← attempt (CreateToken now rid rsecret label scopes expires None);
    match res with
    | Err ErrUnknownScope => mret (2, None)
    | Err _ => mret (1, None)
    | Ok (plaintext, tok) =>
        _ ← attempt (Write now (MkEntry "cli" "" "token.mint" (TokenID tok) "" true));
        mret (0, Some (plaintext, tok))
    end.

Definition splitScopes (csv : string) : list string :=
  List.filter (λ s, negb (bool_decide (s = ""%string)))
    ((λ b, string_of_bytes (TrimSpace b)) <$> split (bytes_of_string csv) [44]).

(** [pw] and [confirm]: the two prompts, [None] where reading fails. *)
Definition createUser (IDKey : bytes → bytes → Z → Z → Z → Z → bytes) (now : Z) (tty : bool)
    (pw confirm : option string) (salt : option bytes) (username : string) (isAdmin : bool)
    : MD (Z * option User) :=
  if negb tty then mret (3, None)
  else match pw with
  | None => mret (1, None)
  | Some pw =>
      if bool_decide (pw = ""%string) then mret (2, None)
      else match confirm with
      | None => mret (1, None)
      | Some confirm =>
          if negb (bool_decide (pw = confirm)) then mret (2, None)
          else
            u ← attempt (CreateUser IDKey now salt username pw isAdmin);
            mret (match u with Ok u => (0, Some u) | Err _ => (1, None) end)
      end
  end.

(** ** A session, from the login to its end *)

Lemma insert_session_ok id r d sess d' : insert_session id r d = (Ok sess, d') →
  sess = scanSession r ∧ is_Some (admin_users d !! s_user_id r) ∧
  d' = with_sessions (<[id := r]>) d.
Proof.
  unfold insert_session. case_bool_decide; [done|]. case_bool_decide as Hu; [done|].
  intros [= <- <-]. split; [done|]. split; [|done]. by destruct (admin_users d !! _).
Qed.

Lemma CreateSession_ok now raw uid ttl d fs secret sess d' fs' :
  CreateSession now (Some raw) uid ttl d fs = (Ok (secret, sess), d', fs') →
  let row := MkSessionRow uid (timestamptz now) (timestamptz (now + ttl)) (timestamptz now) in
  secret = string_of_bytes (b64_encode raw) ∧ sess = scanSession row ∧
  is_Some (admin_users d !! uid) ∧ d' = with_sessions (<[hashSecret secret := row]>) d.
Proof.
  unfold CreateSession. cbn [randString]. set (sec := string_of_bytes _).
  intros [(e & _ & [=])|(s & d1 & fs1 & H & Hr)]%bind_inv. apply stmt_inv in H as [[[=] _]|H].
  apply insert_session_ok in H as (-> & Hu & ->). unfold mret, M_ret in Hr.
  assert (secret = sec ∧ sess = _ ∧ d' = _) as (-> & -> & ->)
    by (split_and!; [exact (eq_sym (f_equal (λ x, match x.1.1 with Ok (p, _) => p | Err _ => secret end) Hr))|
        exact (eq_sym (f_equal (λ x, match x.1.1 with Ok (_, t) => t | Err _ => sess end) Hr))|
        exact (eq_sym (f_equal (λ x, x.1.2) Hr))]).
  done.
Qed.

(** The tables after a login: the new session row, and the trail. *)
Record logged_in (p p' : proc) (secret : string) (row : session_row) : Prop := {
  li_sessions : admin_sessions (p_db p') = <[hashSecret secret := row]> (admin_sessions (p_db p));
  li_users : admin_users (p_db p') = admin_users (p_db p);
  li_tokens : api_tokens (p_db p') = api_tokens (p_db p);
  li_keys : operator_keys (p_db p') = operator_keys (p_db p) }.

(** The principal of a session of that account. *)
Definition session_principal (uid : Z) (row : user_row) : Principal :=
  MkPrincipal KindSession (format_int uid) (u_username row) implicitFullScopes (u_is_admin row).

Lemma ResolveSession_nil now secret d :
  ResolveSession now secret d [] =
    (Ok (row ← admin_sessions d !! hashSecret secret;
         if s_expires_at row <=? now then None else Some (scanSession row)), d, []).
Proof.
  unfold ResolveSession, attempt, query, stmt, mbind, M_bind, mret, M_ret.
  by destruct (admin_sessions d !! hashSecret secret).
Qed.

Lemma GetByID_nil id d :
  GetByID id d [] = (match admin_users d !! id with Some u => Ok (scanUser id u) | None => Err ErrNotFound end, d, []).
Proof. done. Qed.

Lemma resolveSession_nil now secret p row urow :
  admin_sessions (p_db p) !! hashSecret secret = Some row →
  admin_users (p_db p) !! s_user_id row = Some urow → u_disabled urow = None →
  resolveSession now secret p [] =
    (Ok (if s_expires_at row <=? now then None else Some (session_principal (s_user_id row) urow)), p, []).
Proof.
  intros Hs Hu Hd. unfold resolveSession, on_db, zoom, mbind at 1, M_bind.
  rewrite ResolveSession_nil, Hs, set_db_id. cbn [mbind option_bind].
  destruct (s_expires_at row <=? now); [done|].
  unfold attempt, zoom, mbind, M_bind. rewrite GetByID_nil. cbn [sUserID scanSession].
  rewrite Hu, set_db_id. cbn [uDisabledAt scanUser]. by rewrite Hd.
Qed.

(** What a request that carries only the cookie meets. *)
Lemma auth_with_cookie IDKey slots next r p secret row urow :
  bearer r = None → hasBasicScheme r = false → Cookie r = Some secret → secret ≠ ""%string →
  csrf_missing r = false →
  admin_sessions (p_db p) !! hashSecret secret = Some row →
  admin_users (p_db p) !! s_user_id row = Some urow → u_disabled urow = None →
  Auth IDKey slots next r no_ctx p [] =
    (if s_expires_at row <=? Now r then (Ok (unauthorized r), p, [])
     else admitPrincipal next r no_ctx (session_principal (s_user_id row) urow) p []).
Proof.
  intros Hb Hbas Hc Hne Hcs Hs Hu Hd. unfold Auth. rewrite Hb, Hbas, Hc, bool_decide_eq_false_2 by done.
  unfold auth_session, attempt, mbind, M_bind. rewrite (resolveSession_nil _ _ _ row urow) by done.
  destruct (s_expires_at row <=? Now r); [done|]. by rewrite Hcs.
Qed.

Lemma auth_without_session IDKey slots next r p secret :
  bearer r = None → hasBasicScheme r = false → Cookie r = Some secret → secret ≠ ""%string →
  admin_sessions (p_db p) !! hashSecret secret = None →
  Auth IDKey slots next r no_ctx p [] = (Ok (unauthorized r), p, []).
Proof.
  intros Hb Hbas Hc Hne Hs. unfold Auth. rewrite Hb, Hbas, Hc, bool_decide_eq_false_2 by done.
  unfold auth_session, attempt, resolveSession, on_db, zoom, mbind, M_bind.
  by rewrite ResolveSession_nil, Hs, set_db_id.
Qed.

Section Lifecycle.
Context (IDKey : bytes → bytes → Z → Z → Z → Z → bytes) (slots ttl : Z).

Definition session_row_of (r : request) (uid : Z) : session_row :=
  MkSessionRow uid (timestamptz (Now r)) (timestamptz (Now r + ttl)) (timestamptz (Now r)).

(** A login that let somebody in. *)
Definition logs_in (body : option (string * string)) (raw : bytes) (r : request) (p : proc)
    (rep : reply) (p' : proc) : Prop :=
  ∃ username password u, body = Some (username, password) ∧
    user_valid IDKey username password (p_db p) u ∧
    set_cookie (string_of_bytes (b64_encode raw)) (Z.quot ttl ns_per_s) ∈ rHeaders rep ∧
    logged_in p p' (string_of_bytes (b64_encode raw)) (session_row_of r (uID u)).

Lemma login_runs body raw r c p fs : ∃ rep p' fs',
  login IDKey slots ttl body (Some raw) r c p fs = (Ok rep, p', fs') ∧ p_argon2 p' = p_argon2 p ∧
  ((rStatus rep = 200 ∧ logs_in body raw r p rep p') ∨
   (rStatus rep ∈ [400; 401; 429; 500] ∧ same_tables (p_db p) (p_db p'))).
Proof.
  unfold login. destruct body as [[username password]|].
  2: { eexists _, p, fs. split; [reflexivity|]. split; [done|]. right. split; [cbn; set_solver|apply same_tables_refl]. }
  unfold TryAcquireArgon2, act, mbind at 1, M_bind at 1.
  destruct (Z.ltb_spec (p_argon2 p) slots) as [Hsl|Hsl]; cbn [negb].
  2: { eexists _, p, fs. split; [reflexivity|]. split; [done|]. right. split; [cbn; set_solver|apply same_tables_refl]. }
  set (p1 := set_argon2 _ _). step_db (VerifyUser_answers IDKey username password) a fs1 Ha.
  unfold ReleaseArgon2, act, mbind at 1, M_bind at 1. set (p2 := set_argon2 _ p1).
  assert (H2 : p_db p2 = p_db p ∧ p_argon2 p2 = p_argon2 p) by (cbn; split; [done|lia]).
  destruct H2 as [Hd2 Ha2].
  destruct a as [[u|]|e].
  - unfold attempt, on_db, zoom, mbind at 1, M_bind at 1.
    destruct (CreateSession (Now r) (Some raw) (uID u) ttl (p_db p2) fs1) as [[[[secret sess]|e] d3] fs3] eqn:Hcs.
    + apply CreateSession_ok in Hcs as (-> & -> & Hu & ->). set (p3 := set_db _ p2).
      match goal with |- context [(audit ?n ?e ≫= _) p3 fs3] =>
        destruct (audit_runs n e p3 fs3) as (p4 & fs4 & Hrun & Ht & _ & Hs4) end.
      eexists _, p4, fs4. unfold mbind, M_bind. rewrite Hrun. split; [reflexivity|].
      split; [rewrite Hs4; exact Ha2|]. left. split; [done|]. exists username, password, u.
      split; [done|]. split; [exact Ha|]. split; [left|].
      destruct Ht as (Ht1 & Ht2 & Ht3 & Ht4 & _). split; [by rewrite Ht3|by rewrite Ht2|by rewrite Ht1|by rewrite Ht4].
    + eexists _, (set_db d3 p2), fs3. split; [reflexivity|]. split; [done|]. right. split; [cbn; set_solver|].
      cbn. assert (d3 = p_db p2) as ->; [|rewrite Hd2; apply same_tables_refl].
      unfold CreateSession in Hcs. cbn [randString] in Hcs.
      apply bind_inv in Hcs as [(e' & Hs & _)|(s & d1 & fs4 & _ & [=])].
      apply stmt_inv in Hs as [[_ ->]|Hs]; [done|]. unfold insert_session in Hs.
      repeat case_match; by simplify_eq.
  - match goal with |- context [(audit ?n ?e ≫= _) p2 fs1] =>
      destruct (audit_runs n e p2 fs1) as (p4 & fs4 & Hrun & Ht & _ & Hs4) end.
    eexists _, p4, fs4. unfold mbind, M_bind. rewrite Hrun. split; [reflexivity|].
    split; [rewrite Hs4; exact Ha2|]. right. split; [cbn; set_solver|]. by rewrite <-Hd2.
  - eexists _, p2, fs1. split; [reflexivity|]. split; [done|]. right. split; [cbn; set_solver|].
    rewrite Hd2. apply same_tables_refl.
Qed.

(** A request whose only credential is the cookie. *)
Definition cookie_only (r : request) (secret : string) : Prop :=
  bearer r = None ∧ hasBasicScheme r = false ∧ Cookie r = Some secret ∧ csrf_missing r = false.

Lemma secret_nonempty raw : bytes_ok raw → length raw = 32%nat → string_of_bytes (b64_encode raw) ≠ ""%string.
Proof.
  intros Hb Hl He. apply (f_equal bytes_of_string) in He.
  rewrite bytes_of_string_of_bytes in He by (by apply b64_encode_bytes).
  by apply (b64_nonempty raw); [intros ->|].
Qed.

(** A session, from the login to its end. A login answers 200 only for an
    enabled account whose password verifies, and then sets the cookie and opens
    a session; any other answer changes no credential. From then on a request
    with that cookie (and, for a mutation, the CSRF header) meets the rate
    limit as exactly that account until the session's lifetime has passed, and
    401 from then on; after a logout with the cookie it meets 401 at once. The
    argon2 slot is free again on every path. *)
Theorem session_lifecycle body raw r c p fs (Hraw : bytes_ok raw) (Hlen : length raw = 32%nat) :
  ∃ rep p' fs', login IDKey slots ttl body (Some raw) r c p fs = (Ok rep, p', fs') ∧
    p_argon2 p' = p_argon2 p ∧
    ((rStatus rep ∈ [400; 401; 429; 500] ∧ same_tables (p_db p) (p_db p')) ∨
     ∃ username password u secret, rStatus rep = 200 ∧ body = Some (username, password) ∧
       user_valid IDKey username password (p_db p) u ∧
       set_cookie secret (Z.quot ttl ns_per_s) ∈ rHeaders rep ∧
       (∀ next r2, cookie_only r2 secret →
          Auth IDKey slots next r2 no_ctx p' [] =
            (if timestamptz (Now r + ttl) <=? Now r2 then (Ok (unauthorized r2), p', [])
             else admitPrincipal next r2 no_ctx
                    (MkPrincipal KindSession (format_int (uID u)) username implicitFullScopes (uIsAdmin u)) p' [])) ∧
       (∀ next r2 r3 c2, Cookie r2 = Some secret → cookie_only r3 secret →
          ∃ rep2 p2, logout r2 c2 p' [] = (Ok rep2, p2, []) ∧ rStatus rep2 = 200 ∧
            Auth IDKey slots next r3 no_ctx p2 [] = (Ok (unauthorized r3), p2, []))).
Proof.
  destruct (login_runs body raw r c p fs) as (rep & p' & fs' & Hrun & Hsl & Hcase).
  exists rep, p', fs'. split; [done|]. split; [done|].
  destruct Hcase as [(Hst & username & password & u & -> & Huv & Hck & Hin)|?]; [right|by left].
  set (secret := string_of_bytes (b64_encode raw)) in *.
  assert (Hne : secret ≠ ""%string) by (by apply secret_nonempty).
  exists username, password, u, secret. do 4 (split; [done|]). destruct Hin as [Hses Husr _ _].
  pose proof Huv as (id & urow & Hi & Hn & Hdis & _ & Hu). split.
  - intros next r2 (Hb & Hbas & Hc & Hcs).
    rewrite (auth_with_cookie _ _ _ r2 p' secret (session_row_of r (uID u)) urow); try done.
    + cbn [s_expires_at s_user_id session_row_of]. unfold session_principal. rewrite Hu. cbn [uID uIsAdmin scanUser].
      by rewrite Hn.
    + by rewrite Hses, lookup_insert_eq.
    + cbn. rewrite Husr, Hu. exact Hi.
  - intros next r2 r3 c2 Hc2 (Hb & Hbas & Hc & Hcs). unfold logout. rewrite Hc2, bool_decide_eq_false_2 by done.
    eexists _, (set_db _ p'). split; [reflexivity|]. split; [done|].
    apply (auth_without_session _ _ _ r3 _ secret); try done. cbn. apply lookup_delete_eq.
Qed.
End Lifecycle.

Definition ex_user_db : db :=
  (CreateUser ex_derive 0 (Some (replicate 16 3)) "ada" "hunter2" true ex_empty []).1.2.

Lemma session_lifecycle_witness :
  ∃ rep p' fs', login ex_derive 3 60000000000 (Some ("ada", "hunter2")%string) (Some ex_secret)
    (ex_request "" None) no_ctx (ex_proc ex_user_db) [] = (Ok rep, p', fs') ∧ rStatus rep = 200 ∧
    p_argon2 p' = 0.
Proof.
  assert (Hst : (λ x, match x with Ok rep => rStatus rep | Err _ => 0 end)
    (login ex_derive 3 60000000000 (Some ("ada", "hunter2")%string) (Some ex_secret)
      (ex_request "" None) no_ctx (ex_proc ex_user_db) []).1.1 = 200) by (vm_compute; reflexivity).
  destruct (session_lifecycle ex_derive 3 60000000000 (Some ("ada", "hunter2")%string) ex_secret
    (ex_request "" None) no_ctx (ex_proc ex_user_db) [] ltac:(repeat constructor; done) eq_refl)
    as (rep & p' & fs' & Hrun & Hsl & _).
  rewrite Hrun in Hst. exists rep, p', fs'. split; [exact Hrun|]. split; [exact Hst|exact Hsl].
Defined.

End AdminHttp.
