(* ===== verification/TemplateStore.v ===== *)
(** * Templates ([internal/templatestore] types, store, catalog, preview)

    The tables templates and template_preview (migrations 0016, 0018, 0019)
    beside the functions whose provenance points at them. The embedded file
    system and PostgreSQL's [IS DISTINCT FROM] on jsonb are parameters. *)

From S2P Require Import Prelude GoLib Db RenderDb FaasStore.
Import GoLib.
Import RenderDb(json, JArr, function_row, MkFunctionRow).

Module TemplateStore.

(** ** Types *)

Inductive err :=
| EDb | ErrNotFound | ErrInvalidName | ErrInvalidKind | ErrScriptTooLong | EUnique | ECheck
| ECatalog.
#[global] Instance err_eq_dec : EqDecision err.
Proof. solve_decision. Defined.

Definition BerryScriptMax : Z := 8191.
Definition KindRenderFn : string := "render_fn".
Definition KindBerrySnippet : string := "berry_snippet".
Definition KindPlaylistPreset : string := "playlist_preset".

Definition IsUniqueViolation (e : err) : bool := bool_decide (e = EUnique).

(** The mutable body: what an operator edits and the catalog carries. *)
Record body := MkBody {
  b_description : gmap string string; b_source : string; b_params : option json;
  b_egress : list string; b_secrets : list string; b_trigger : option json }.

(** A row; params is never NULL, trigger_config may be. *)
Record template_row := MkTemplateRow {
  t_name : string; t_kind : string; t_description : gmap string string; t_source : string;
  t_params : json; t_egress : list string; t_secrets : list string; t_trigger : option json;
  t_builtin : bool; t_version : Z }.

Record Template := MkTemplate { ID : Z; row : template_row }.

Record Summary := MkSummary {
  s_id : Z; s_name : string; s_kind : string; s_description : gmap string string;
  s_builtin : bool; s_version : Z }.
Record SummaryWithSource := MkSummaryWithSource { s_summary : Summary; s_source : string }.

Record db := MkDb {
  templates : gmap Z template_row; template_seq : Z;
  previews : gmap (Z * Z) bytes; render : RenderDb.db }.

Definition with_templates f (d : db) : db :=
  MkDb (f (templates d)) (template_seq d) (previews d) (render d).
Definition with_previews f (d : db) : db :=
  MkDb (templates d) (template_seq d) (f (previews d)) (render d).
Definition with_render r (d : db) : db :=
  MkDb (templates d) (template_seq d) (previews d) r.
Definition next_template (d : db) : db :=
  MkDb (templates d) (template_seq d + 1) (previews d) (render d).

(** ** Names and kinds *)

Definition builtinPrefix : string := "builtin/".
Definition is_builtin_name (name : string) : bool :=
  has_prefix (bytes_of_string builtinPrefix) (bytes_of_string name).
Definition ValidName (name : string) : bool :=
  RenderDb.ValidName name && negb (is_builtin_name name).

Definition validKind (kind : string) : bool :=
  bool_decide (kind = KindRenderFn) || bool_decide (kind = KindBerrySnippet) ||
  bool_decide (kind = KindPlaylistPreset).

Definition berry_over (kind source : string) : bool :=
  bool_decide (kind = KindBerrySnippet) && (BerryScriptMax <? zlen (bytes_of_string source)).

Definition coalesceParams (j : option json) : json := default (JArr []) j.

(** ** Statements *)

(** The CHECK constraints on the kind and on the length of a snippet. *)
Definition row_check (r : template_row) : bool :=
  validKind (t_kind r) && negb (berry_over (t_kind r) (t_source r)).

Definition named (name : string) (kv : Z * template_row) : bool :=
  bool_decide (t_name kv.2 = name).
Definition find_named (name : string) (d : db) : option (Z * template_row) :=
  find_first (named name) (map_to_list (templates d)).

Definition insert_template (r : template_row) (d : db) : result err Z * db :=
  if negb (row_check r) then (Err ECheck, d)
  else match find_named (t_name r) d with
  | Some _ => (Err EUnique, d)
  | None => (Ok (template_seq d), next_template (with_templates (insert (template_seq d) r) d))
  end.

Definition new_row (name kind : string) (b : body) (builtin : bool) : template_row :=
  MkTemplateRow name kind (b_description b) (b_source b) (coalesceParams (b_params b))
    (b_egress b) (b_secrets b) (b_trigger b) builtin 1.

Definition Create (name kind : string) (b : body) : M db err Z :=
  if negb (ValidName name) then throw ErrInvalidName
  else if negb (validKind kind) then throw ErrInvalidKind
  else if berry_over kind (b_source b) then throw ErrScriptTooLong
  else stmt EDb (insert_template (new_row name kind b false)).

(** The row with the new body and the next version. *)
Definition bump (r : template_row) (kind : string) (b : body) : template_row :=
  MkTemplateRow (t_name r) kind (b_description b) (b_source b) (coalesceParams (b_params b))
    (b_egress b) (b_secrets b) (b_trigger b) (t_builtin r) (t_version r + 1).

(** The version is an INT column. *)
Definition update_row (id : Z) (r : template_row) (kind : string) (b : body) (d : db)
    : result err unit * db :=
  let r' := bump r kind b in
  if FaasStore.max_int <=? t_version r then (Err EDb, d)
  else if negb (row_check r') then (Err ECheck, d)
  else (Ok tt, with_templates (insert id r') d).

Definition Update (id : Z) (b : body) : M db err bool :=
  kind ← attempt (query EDb (λ d, match templates d !! id with
                                  | Some r => Ok (t_kind r) | None => Err ErrNotFound end));
  match kind with
  | Err ErrNotFound => mret false
  | Err e => throw e
  | Ok kind =>
      if berry_over kind (b_source b) then throw ErrScriptTooLong
      else stmt EDb (λ d, match templates d !! id with
                          | None => (Ok false, d)
                          | Some r => let '(x, d') := update_row id r (t_kind r) b d in
                                      (_ ← x; Ok true, d')
                          end)
  end.

(** [ON DELETE SET NULL] of the functions' provenance. *)
Definition forget_template (id : Z) (r : function_row) : function_row :=
  MkFunctionRow (RenderDb.fr_name r) (RenderDb.fr_source r) (RenderDb.fr_version r)
    (RenderDb.fr_trigger r) (RenderDb.fr_config r) (RenderDb.fr_secrets r) (RenderDb.fr_egress r)
    (RenderDb.fr_token r) (RenderDb.fr_enabled r)
    (if bool_decide (RenderDb.fr_template r = Some id) then None else RenderDb.fr_template r).

Definition delete_template (id : Z) (d : db) : db :=
  MkDb (delete id (templates d)) (template_seq d) (filter (λ kv, kv.1.1 ≠ id) (previews d))
    (RenderDb.upd_functions (fmap (forget_template id)) (render d)).

Definition Delete (id : Z) : M db err bool :=
  stmt EDb (λ d, match templates d !! id with
                 | None => (Ok false, d)
                 | Some _ => (Ok true, delete_template id d)
                 end).

Definition Load (id : Z) : M db err Template :=
  query EDb (λ d, match templates d !! id with
                  | Some r => Ok (MkTemplate id r) | None => Err ErrNotFound end).

(** ** Listing *)

Definition summary (kv : Z * template_row) : Summary :=
  MkSummary kv.1 (t_name kv.2) (t_kind kv.2) (t_description kv.2) (t_builtin kv.2) (t_version kv.2).

Definition id_le (a b : Z * template_row) : Prop := a.1 ≤ b.1.
#[global] Instance id_le_dec a b : Decision (id_le a b).
Proof. unfold id_le. apply _. Defined.

Definition clamp_limit (limit : Z) : Z := if (limit <=? 0) || (200 <? limit) then 200 else limit.

(** [WHERE (kind = $1) AND id > $2 ORDER BY id LIMIT $3] *)
Definition page (kindFilter : string) (limit afterID : Z) (d : db) : list (Z * template_row) :=
  take (Z.to_nat (clamp_limit limit)) (merge_sort id_le
    (filter (λ kv, (kindFilter = ""%string ∨ t_kind kv.2 = kindFilter) ∧ afterID < kv.1)
       (map_to_list (templates d)))).

Definition List_ (kindFilter : string) (limit afterID : Z) : M db err (list Summary) :=
  query EDb (λ d, Ok (summary <$> page kindFilter limit afterID d)).

(** Only a snippet carries its source. *)
Definition with_source (kv : Z * template_row) : SummaryWithSource :=
  MkSummaryWithSource (summary kv)
    (if bool_decide (t_kind kv.2 = KindBerrySnippet) then t_source kv.2 else ""%string).
Definition ListWithSource (kindFilter : string) (limit afterID : Z)
    : M db err (list SummaryWithSource) :=
  query EDb (λ d, Ok (with_source <$> page kindFilter limit afterID d)).

(** ** Previews (preview.go) *)

Record PreviewTarget := MkTarget { pt_id : Z; pt_name : string; pt_version : Z; pt_source : string }.

Definition BuiltinPreviewTargets : M db err (list PreviewTarget) :=
  query EDb (λ d, Ok ((λ kv : Z * template_row,
      MkTarget kv.1 (t_name kv.2) (t_version kv.2) (t_source kv.2)) <$>
    merge_sort id_le (filter (λ kv, t_builtin kv.2 = true ∧ t_kind kv.2 = KindRenderFn)
                        (map_to_list (templates d))))).

Definition LoadPreview (templateID version : Z) : M db err bytes :=
  query EDb (λ d, match previews d !! (templateID, version) with
                  | Some png => Ok png | None => Err ErrNotFound end).

(** The upsert, under the foreign key to the template. *)
Definition StorePreview (templateID version : Z) (png : bytes) : M db err unit :=
  stmt EDb (λ d,
    if bool_decide (is_Some (templates d !! templateID))
    then (Ok tt, with_previews (insert (templateID, version) png) d)
    else (Err EDb, d)).

(** ** The embedded catalog (catalog.go) *)

Record catalogEntry := MkEntry {
  e_name : string; e_kind : string; e_sourceFile : string; e_body : body; e_fixture : string }.
Record SeedResult := MkSeed { Inserted : Z; Updated : Z; Unchanged : Z }.

Section Catalog.
(** The decoded catalog.json ([None] where it does not decode), the embedded
    files, and [IS DISTINCT FROM] on two jsonb values. *)
Context (catalog : option (list catalogEntry)) (readFile : string → option string).
Context (distinct : json → json → bool).

Definition attach (e : catalogEntry) : option (catalogEntry * string) :=
  if negb (is_builtin_name (e_name e)) then None
  else if negb (validKind (e_kind e)) then None
  else
    src ← readFile ("builtins/" +:+ e_sourceFile e);
    if berry_over (e_kind e) src then None else Some (e, src).

Definition loadCatalog : option (list (catalogEntry * string)) :=
  entries ← catalog; mapM attach entries.

Definition PreviewFixtures : option (gmap string string) :=
  entries ← loadCatalog;
  foldl (λ acc es, out ← acc;
    if bool_decide (e_fixture es.1 = ""%string) then Some out
    else png ← readFile ("builtins/" +:+ e_fixture es.1);
         Some (<[e_name es.1 := png]> out)) (Some ∅) entries.

(** The row the upsert proposes. *)
Definition excluded (e : catalogEntry) (src : string) : template_row :=
  let b := e_body e in
  new_row (e_name e) (e_kind e)
    (MkBody (b_description b) src (b_params b) (b_egress b) (b_secrets b) (b_trigger b)) true.

Definition distinct_opt (a b : option json) : bool :=
  match a, b with
  | None, None => false
  | Some a, Some b => distinct a b
  | _, _ => true
  end.

Definition changed (r x : template_row) : bool :=
  negb (bool_decide (t_kind r = t_kind x)) ||
  negb (bool_decide (t_description r = t_description x)) ||
  negb (bool_decide (t_source r = t_source x)) || distinct (t_params r) (t_params x) ||
  negb (bool_decide (t_egress r = t_egress x)) ||
  negb (bool_decide (t_secrets r = t_secrets x)) ||
  distinct_opt (t_trigger r) (t_trigger x).

(** [DO UPDATE SET ... version = templates.version + 1]. *)
Definition refresh (r x : template_row) : template_row :=
  MkTemplateRow (t_name r) (t_kind x) (t_description x) (t_source x) (t_params x) (t_egress x)
    (t_secrets x) (t_trigger x) (t_builtin r) (t_version r + 1).

(** [INSERT ... ON CONFLICT (name) DO UPDATE ... WHERE ... RETURNING (xmax <> 0)]:
    no row where the guard suppressed the update. The proposed row passes the
    CHECK constraints before the conflict is looked for; an identity value is
    drawn either way. *)
Definition upsert_builtin (x : template_row) (d : db) : result err (option bool) * db :=
  if negb (row_check x) then (Err ECheck, d)
  else match find_named (t_name x) d with
  | None => (Ok (Some false), next_template (with_templates (insert (template_seq d) x) d))
  | Some (id, r) =>
      if t_builtin r && changed r x then
        if FaasStore.max_int <=? t_version r then (Err EDb, d)
        else (Ok (Some true), next_template (with_templates (insert id (refresh r x)) d))
      else (Ok None, next_template d)
  end.

Definition tally (res : SeedResult) (x : option bool) : SeedResult :=
  match x with
  | None => MkSeed (Inserted res) (Updated res) (Unchanged res + 1)
  | Some true => MkSeed (Inserted res) (Updated res + 1) (Unchanged res)
  | Some false => MkSeed (Inserted res + 1) (Updated res) (Unchanged res)
  end.

Fixpoint seed_entries (es : list (catalogEntry * string)) (res : SeedResult)
    : M (Tx db) err SeedResult :=
  match es with
  | [] => mret res
  | (e, src) :: es =>
      x ← tx_stmt EDb (upsert_builtin (excluded e src));
      seed_entries es (tally res x)
  end.

(** The closing check only logs; whether a query of it failed. *)
Fixpoint warn_missing (es : list (catalogEntry * string)) : M (Tx db) err bool :=
  match es with
  | [] => mret false
  | (e, _) :: es =>
      x ← attempt (tx_query EDb (λ d, match find_named (e_name e) d with
                     | Some (_, r) => Ok (t_builtin r) | None => Err ErrNotFound end));
      failed ← warn_missing es;
      mret (failed || bool_decide (x = Err EDb))
  end.

(** A failed query has aborted the transaction: its commit reports a rollback. *)
Definition SeedBuiltins : M db err SeedResult :=
  match loadCatalog with
  | None => throw ECatalog
  | Some es =>
      with_tx EDb (
        _ ← tx_exec EDb (λ d, d);
        res ← seed_entries es (MkSeed 0 0 0);
        aborted ← warn_missing es;
        _ ← (if aborted : bool then throw EDb else commit EDb);
        mret res)
  end.
End Catalog.

End TemplateStore.

(** * The template store keeps its names, caps and provenance

    The invariant of the two tables under every operation and fault, and the
    convergence of the boot-time seeding. *)

From S2P Require Import Prelude GoLib Db RenderDb FaasStore.
Import GoLib TemplateStore.

Module TemplateLaws.

(** ** The invariant *)

Definition names_unique (m : gmap Z template_row) : Prop :=
  ∀ i j r q, m !! i = Some r → m !! j = Some q → t_name r = t_name q → i = j.

(** A name an operator may choose, or a prefab's. *)
Definition name_ok (r : template_row) : Prop :=
  if t_builtin r then is_builtin_name (t_name r) = true else ValidName (t_name r) = true.

Record store_ok (d : db) : Prop := {
  so_unique : names_unique (templates d);
  so_fresh : ∀ i, is_Some (templates d !! i) → 0 < i < template_seq d;
  so_seq : 0 < template_seq d;
  so_check : ∀ i r, templates d !! i = Some r → row_check r = true;
  so_name : ∀ i r, templates d !! i = Some r → name_ok r;
  so_version : ∀ i r, templates d !! i = Some r → 1 ≤ t_version r ≤ FaasStore.max_int;
  so_preview : ∀ i v, is_Some (previews d !! (i, v)) → is_Some (templates d !! i);
  so_origin : ∀ f r i, RenderDb.functions (render d) !! f = Some r →
    RenderDb.fr_template r = Some i → is_Some (templates d !! i) }.

Lemma ValidName_not_builtin name : ValidName name = true → is_builtin_name name = false.
Proof. intros [_ H]%andb_prop. by apply negb_true_iff. Qed.

Lemma find_named_Some name d id r :
  find_named name d = Some (id, r) → templates d !! id = Some r ∧ t_name r = name.
Proof.
  intros [Hin Hn]%find_first_Some. apply elem_of_map_to_list in Hin.
  split; [done|]. by apply bool_decide_eq_true in Hn.
Qed.
Lemma find_named_None name d id r :
  find_named name d = None → templates d !! id = Some r → t_name r ≠ name.
Proof.
  intros H Hr. unfold find_named in H. rewrite find_first_None in H.
  specialize (H (id, r)). rewrite elem_of_map_to_list in H.
  by apply H, bool_decide_eq_false in Hr.
Qed.
Lemma find_named_unique d id r :
  names_unique (templates d) → templates d !! id = Some r → find_named (t_name r) d = Some (id, r).
Proof.
  intros Hu Hr. destruct (find_named (t_name r) d) as [[j q]|] eqn:Hf.
  - apply find_named_Some in Hf as [Hq Hn]. rewrite (Hu j id q r Hq Hr Hn) in Hq |- *. congruence.
  - by apply (find_named_None _ _ id r) in Hf.
Qed.

(** Replacing or adding one row. *)
Lemma ok_put id r d : store_ok d →
  (∀ j q, templates d !! j = Some q → t_name q = t_name r → j = id) →
  0 < id → row_check r = true → name_ok r → 1 ≤ t_version r ≤ FaasStore.max_int →
  let seq' := Z.max (template_seq d) (id + 1) in
  store_ok (MkDb (<[id := r]> (templates d)) seq' (previews d) (render d)).
Proof.
  intros H Hn Hid Hc Hname Hv seq'. subst seq'. destruct H; constructor; simpl.
  - intros i j a b [[<- <-]|[? Ha]]%lookup_insert_Some [[<- <-]|[? Hb]]%lookup_insert_Some He; try done.
    + symmetry. by eapply Hn.
    + by eapply Hn.
    + by eapply so_unique0.
  - intros i [<-|Hi]%lookup_insert_is_Some'; [lia|]. apply so_fresh0 in Hi. lia.
  - lia.
  - intros i q [[<- <-]|[_ ?]]%lookup_insert_Some; eauto.
  - intros i q [[<- <-]|[_ ?]]%lookup_insert_Some; eauto.
  - intros i q [[<- <-]|[_ ?]]%lookup_insert_Some; eauto.
  - intros i v Hi%so_preview0. apply lookup_insert_is_Some'. eauto.
  - intros f q i Hf Ht. apply lookup_insert_is_Some'. eauto.
Qed.

Lemma ok_seq n d : template_seq d ≤ n → store_ok d →
  store_ok (MkDb (templates d) n (previews d) (render d)).
Proof. intros Hn H. destruct H; constructor; simpl; eauto; [|lia]. intros i Hi%so_fresh0. lia. Qed.

Lemma ok_insert r d : store_ok d → row_check r = true → name_ok r →
  1 ≤ t_version r ≤ FaasStore.max_int → find_named (t_name r) d = None →
  store_ok (next_template (with_templates (insert (template_seq d) r) d)).
Proof.
  intros H Hc Hn Hv Hf. unfold next_template, with_templates. simpl.
  pose proof (so_seq d H). replace (template_seq d + 1) with (Z.max (template_seq d) (template_seq d + 1)) by lia.
  apply ok_put; try done. intros j q Hq He. by apply (find_named_None _ _ j q) in Hf.
Qed.

Lemma ok_replace id r r' d : store_ok d → templates d !! id = Some r →
  t_name r' = t_name r → row_check r' = true → name_ok r' →
  1 ≤ t_version r' ≤ FaasStore.max_int → store_ok (with_templates (insert id r') d).
Proof.
  intros H Hr Hnm Hc Hn Hv. unfold with_templates.
  assert (Hb : 0 < id < template_seq d) by (apply (so_fresh d H); eauto).
  replace (template_seq d) with (Z.max (template_seq d) (id + 1)) by lia.
  apply ok_put; try done; [|lia]. intros j q Hq He. rewrite Hnm in He. by eapply (so_unique d H).
Qed.

(** ** The operations *)

Inductive op :=
| OCreate (name kind : string) (b : body) | OUpdate (id : Z) (b : body) | ODelete (id : Z)
| OStorePreview (id version : Z) (png : bytes)
| OSeed (catalog : option (list catalogEntry)) (readFile : string → option string)
    (distinct : RenderDb.json → RenderDb.json → bool).

Definition run_op (o : op) (d : db) (fs : list bool) : db :=
  match o with
  | OCreate n k b => (Create n k b d fs).1.2
  | OUpdate id b => (Update id b d fs).1.2
  | ODelete id => (Delete id d fs).1.2
  | OStorePreview id v png => (StorePreview id v png d fs).1.2
  | OSeed c rf dist => (SeedBuiltins c rf dist d fs).1.2
  end.

Definition run_ops (os : list (op * list bool)) (d : db) : db :=
  foldl (λ d o, run_op o.1 d o.2) d os.

Lemma ok_delete id d : store_ok d → store_ok (delete_template id d).
Proof.
  intros H. destruct H; constructor; simpl.
  - intros i j r q [_ ?]%lookup_delete_Some [_ ?]%lookup_delete_Some. by eapply so_unique0.
  - intros i [r [_ Hr]%lookup_delete_Some]. apply so_fresh0. eauto.
  - done.
  - intros i r [_ ?]%lookup_delete_Some. eauto.
  - intros i r [_ ?]%lookup_delete_Some. eauto.
  - intros i r [_ ?]%lookup_delete_Some. eauto.
  - intros i v [b [Hb Hne]%map_lookup_filter_Some]. simpl in Hne.
    rewrite lookup_delete_ne by congruence. apply (so_preview0 i v). eauto.
  - intros f r i Hf Ht. rewrite lookup_fmap in Hf.
    destruct (RenderDb.functions (render d) !! f) as [r0|] eqn:Hr0; [|done]. simplify_eq/=.
    case_bool_decide; [done|]. rewrite lookup_delete_ne by congruence. eauto.
Qed.

Lemma ok_update_row id r b d : store_ok d → templates d !! id = Some r →
  store_ok (update_row id r (t_kind r) b d).2.
Proof.
  intros H Hr. unfold update_row. destruct (Z.leb_spec FaasStore.max_int (t_version r)); [done|].
  destruct (row_check _) eqn:Hc; [|done]. simpl.
  apply (ok_replace id r); try done.
  - apply (so_name d H _ _ Hr).
  - pose proof (so_version d H _ _ Hr). simpl. lia.
Qed.

Lemma ok_upsert dist x d : store_ok d → is_builtin_name (t_name x) = true → t_builtin x = true →
  t_version x = 1 → store_ok (upsert_builtin dist x d).2.
Proof.
  intros H Hn Hb Hv. unfold upsert_builtin. destruct (row_check x) eqn:Hc; [|done]. cbn [negb].
  destruct (find_named (t_name x) d) as [[id r]|] eqn:Hf.
  - apply find_named_Some in Hf as [Hr Hnr]. destruct (t_builtin r) eqn:Hbr; [|by apply ok_seq; [lia|]].
    destruct (changed _ _ _); cbn [andb]; [|by apply ok_seq; [lia|]].
    destruct (Z.leb_spec FaasStore.max_int (t_version r)); [done|]. simpl.
    apply (ok_seq _ (with_templates _ d)); [simpl; lia|].
    apply (ok_replace id r); try done.
    + unfold name_ok. simpl. rewrite Hbr, Hnr. done.
    + pose proof (so_version d H _ _ Hr). simpl. lia.
  - simpl. apply ok_insert; try done.
    + unfold name_ok. by rewrite Hb.
    + rewrite Hv. unfold FaasStore.max_int. lia.
Qed.

Lemma attach_ok rf e x : attach rf e = Some x →
  x.1 = e ∧ is_builtin_name (e_name e) = true ∧ validKind (e_kind e) = true ∧
  berry_over (e_kind e) x.2 = false.
Proof.
  unfold attach. destruct (is_builtin_name _); [|done]. destruct (validKind _); [|done]. cbn [negb].
  destruct (rf _) as [src|]; [|done]. simpl. destruct (berry_over _ _) eqn:Hb; [done|].
  by intros [= <-].
Qed.

Lemma loadCatalog_ok c rf es : loadCatalog c rf = Some es →
  Forall (λ x, is_builtin_name (e_name x.1) = true ∧ row_check (excluded x.1 x.2) = true) es.
Proof.
  unfold loadCatalog. destruct c as [l|]; [|done]. simpl. intros H%mapM_Some.
  induction H as [|e x l es Hx _ IH]; constructor; [|done].
  apply attach_ok in Hx as (-> & Hn & Hk & Hb). split; [done|].
  unfold row_check. simpl. by rewrite Hk, Hb.
Qed.

(** ** A transaction that seeds *)

Section Seed.
Context (dist : RenderDb.json → RenderDb.json → bool).

(** The seeding as one pass over the catalog. *)
Fixpoint seed (es : list (catalogEntry * string)) (res : SeedResult) (d : db)
    : option (db * SeedResult) :=
  match es with
  | [] => Some (d, res)
  | (e, src) :: es =>
      match upsert_builtin dist (excluded e src) d with
      | (Ok x, d') => seed es (tally res x) d'
      | (Err _, _) => None
      end
  end.

Lemma seed_entries_implements es res w :
  implements (seed_entries dist es res) w (seed es res w).
Proof.
  revert res w. induction es as [|[e src] es IH]; intros res w; [apply implements_ret|].
  cbn [seed_entries seed].
  pose proof (implements_bind (tx_stmt EDb (upsert_builtin dist (excluded e src)))
    (λ x, seed_entries dist es (tally res x)) w _ (λ w' x, seed es (tally res x) w')
    (implements_stmt _ _ _)) as H.
  destruct (upsert_builtin dist (excluded e src) w) as [[x|e'] w'] eqn:Hu; simpl in H; apply H;
    intros; apply IH.
Qed.

(** The closing check leaves the working copy alone. *)
Lemma warn_missing_quiet es t fs : ∃ b fs', warn_missing es t fs = (Ok b, t, fs') ∧
  (fs = [] → b = false ∧ fs' = []).
Proof.
  revert fs. induction es as [|[e src] es IH]; intros fs; [by eexists _, _|]. cbn [warn_missing].
  set (q := tx_query EDb _).
  assert (Hq : ∃ r fs', q t fs = (r, t, fs') ∧ (fs = [] → r ≠ Err EDb ∧ fs' = [])) .
  { destruct t as [c w]. unfold q, tx_query, tx_stmt, stmt. simpl.
    destruct fs as [|[] fs]; eexists _, _; (split; [reflexivity|]); [|done|done].
    intros _. split; [|done]. by destruct (find_named _ _) as [[]|]. }
  destruct Hq as (r & fs1 & Hq & Hr). unfold attempt, mbind, M_bind. rewrite Hq.
  destruct (IH fs1) as (b & fs2 & -> & Hb). eexists _, _. split; [reflexivity|]. intros ->.
  destruct (Hr eq_refl) as [Hne ->]. destruct (Hb eq_refl) as [-> ->].
  by rewrite bool_decide_eq_false_2.
Qed.

(** What follows the pass over the catalog. *)
Definition seed_tail (es : list (catalogEntry * string)) (res : SeedResult)
    : M (Tx db) err SeedResult :=
  aborted ← warn_missing es;
  _ ← (if aborted : bool then throw EDb else commit EDb);
  mret res.

Lemma seed_tail_commits es d w res :
  commits (seed_tail es res) d w (Some (w, res)).
Proof.
  intros fs. unfold seed_tail, mbind at 1, M_bind at 1.
  destruct (warn_missing_quiet es (MkTx d w) fs) as (b & fs1 & -> & Hb).
  destruct b.
  - eexists _, _, _. split; [reflexivity|]. split; [done|]. intros ->. by destruct (Hb eq_refl).
  - destruct (commits_end (E:=err) EDb res d w fs1) as (r & t & fs2 & Hrun & Hr & Hn).
    eexists _, _, _. split; [exact Hrun|]. split; [done|]. intros ->.
    destruct (Hb eq_refl) as [_ ->]. by apply Hn.
Qed.

(** Seeding does the whole pass, or nothing. *)
Lemma SeedBuiltins_runs c rf es d fs : loadCatalog c rf = Some es →
  ∃ r d' fs', SeedBuiltins c rf dist d fs = (r, d', fs') ∧
    match r with Ok a => seed es (MkSeed 0 0 0) d = Some (d', a) | Err _ => d' = d end ∧
    (fs = [] → fs' = [] ∧ is_ok r = bool_decide (is_Some (seed es (MkSeed 0 0 0) d))).
Proof.
  intros Hl. unfold SeedBuiltins. rewrite Hl. apply with_tx_commits.
  eapply commits_bind_Some; [apply (implements_exec EDb (λ d, d))|].
  pose proof (commits_bind (seed_entries dist es (MkSeed 0 0 0))
    (seed_tail es) d d _ (λ w a, Some (w, a)) (seed_entries_implements es (MkSeed 0 0 0) d)
    (λ w a _, seed_tail_commits es d w a)) as H.
  by destruct (seed es _ d) as [[]|].
Qed.

Lemma ok_seed es res d d' res' : store_ok d →
  Forall (λ x, is_builtin_name (e_name x.1) = true ∧ row_check (excluded x.1 x.2) = true) es →
  seed es res d = Some (d', res') → store_ok d'.
Proof.
  intros Hok Hes. revert res d Hok. induction Hes as [|[e src] es [Hn _] _ IH]; intros res d Hok; simpl.
  - by intros [= <- _].
  - pose proof (ok_upsert dist (excluded e src) d Hok Hn eq_refl eq_refl) as H.
    destruct (upsert_builtin _ _ _) as [[x|?] d1]; [|done]. by apply IH.
Qed.
End Seed.

Lemma ok_run_op o d fs : store_ok d → store_ok (run_op o d fs).
Proof.
  intros H. destruct o as [n k b|id b|id|id v png|c rf dist]; simpl.
  - unfold Create. destruct (ValidName n) eqn:Hn; [|done]. destruct (validKind k) eqn:Hk; [|done].
    destruct (berry_over _ _) eqn:Hb; [done|]. apply (stmt_effect _ _ store_ok); [done|].
    unfold insert_template. destruct (row_check _) eqn:Hc; [|done]. cbn [negb].
    destruct (find_named _ _) as [[]|] eqn:Hf; [done|]. apply ok_insert; try done.
  - unfold Update. apply bind_effect; [unfold attempt, query, stmt; by destruct fs as [|[] ?]|].
    intros [kind|[]] d' fs' Hd'; try done. destruct (berry_over _ _); [done|].
    apply (stmt_effect _ _ store_ok); [done|]. destruct (templates d' !! id) as [r|] eqn:Hr; [|done].
    pose proof (ok_update_row id r b d' Hd' Hr). by destruct (update_row _ _ _ _ _).
  - apply (stmt_effect _ _ store_ok); [done|]. destruct (templates d !! id); [|done]. by apply ok_delete.
  - apply (stmt_effect _ _ store_ok); [done|]. case_bool_decide as Ht; [|done]. simpl. destruct H; constructor; simpl; eauto.
    intros i w [[= <- <-]|?]%lookup_insert_is_Some'; eauto.
  - destruct (loadCatalog c rf) as [es|] eqn:Hl.
    + destruct (SeedBuiltins_runs dist c rf es d fs Hl) as (r & d' & fs' & -> & Hr & _). simpl.
      destruct r; [|by subst]. eapply ok_seed; [done| |done]. by eapply loadCatalog_ok.
    + unfold SeedBuiltins. by rewrite Hl.
Qed.

Definition empty_store : db := MkDb ∅ 1 ∅ RenderDb.empty_db.

Lemma ok_empty : store_ok empty_store.
Proof. constructor; simpl; try done; intros; by destruct_and?; exfalso; destruct H. Qed.

(** ** The seeding converges *)

Section Converges.
Context (dist : RenderDb.json → RenderDb.json → bool).
Hypothesis dist_refl : ∀ j, dist j j = false.

Lemma changed_refl x : changed dist x x = false.
Proof.
  unfold changed. rewrite dist_refl. rewrite !bool_decide_eq_true_2 by done.
  unfold distinct_opt. destruct (t_trigger x); [by rewrite dist_refl|done].
Qed.
Lemma changed_refresh r x : changed dist (refresh r x) x = false.
Proof. exact (changed_refl x). Qed.

(** A prefab row with the catalog's content. *)
Definition installed (x : template_row) (d : db) : Prop :=
  ∃ id r, templates d !! id = Some r ∧ t_name r = t_name x ∧ t_builtin r = true ∧
    changed dist r x = false.

(** Rows of other names, and everything beside the rows. *)
Definition leaves (names : list string) (d d' : db) : Prop :=
  (∀ i r, t_name r ∉ names → templates d' !! i = Some r ↔ templates d !! i = Some r) ∧
  previews d' = previews d ∧ render d' = render d.

Lemma leaves_trans n1 n2 a b c : leaves n1 a b → leaves n2 b c → leaves (n1 ++ n2) a c.
Proof.
  intros (H1 & ? & ?) (H2 & ? & ?). split_and!; [|congruence..].
  intros i r [Hn1 Hn2]%not_elem_of_app. by rewrite H2, H1.
Qed.

Lemma prefab_row d id r : store_ok d → templates d !! id = Some r →
  is_builtin_name (t_name r) = true → t_builtin r = true.
Proof.
  intros H Hr Hn. pose proof (so_name d H _ _ Hr) as Hok. unfold name_ok in Hok.
  destruct (t_builtin r); [done|]. by rewrite (ValidName_not_builtin _ Hok) in Hn.
Qed.

Lemma upsert_installs x d o d' : store_ok d → is_builtin_name (t_name x) = true →
  t_builtin x = true → upsert_builtin dist x d = (Ok o, d') →
  installed x d' ∧ leaves [t_name x] d d'.
Proof.
  intros Hok Hn Hb. unfold upsert_builtin. destruct (row_check x); [|done]. cbn [negb].
  destruct (find_named (t_name x) d) as [[id r]|] eqn:Hf.
  - apply find_named_Some in Hf as [Hr Hnr].
    rewrite (prefab_row d id r Hok Hr) by (by rewrite Hnr). cbn [andb].
    destruct (changed dist r x) eqn:Hc.
    + destruct (FaasStore.max_int <=? _); [done|]. intros [= _ <-]. split.
      * exists id, (refresh r x). simpl. rewrite lookup_insert_eq, changed_refresh.
        split_and!; try done. eapply prefab_row; [done..|]. by rewrite Hnr.
      * split_and!; [|done..]. intros i q Hq. simpl. rewrite not_elem_of_cons in Hq.
        destruct (decide (i = id)) as [->|]; [|by rewrite lookup_insert_ne].
        rewrite lookup_insert_eq, Hr. destruct Hq as [Hq _].
        split; intros [= <-]; exfalso; apply Hq; simpl; congruence.
    + intros [= _ <-]. split; [|done]. exists id, r. split_and!; try done.
      eapply prefab_row; [done..|]. by rewrite Hnr.
  - intros [= _ <-]. split.
    + exists (template_seq d), x. simpl. rewrite lookup_insert_eq, changed_refl. done.
    + split_and!; [|done..]. intros i q Hq. simpl. rewrite not_elem_of_cons in Hq.
      destruct Hq as [Hq _]. rewrite lookup_insert_Some. split; [|intros Hi; right].
      * by intros [[_ <-]|[_ ?]].
      * split; [|done]. intros <-. pose proof (so_fresh d Hok (template_seq d)) as Hs.
        assert (0 < template_seq d < template_seq d) by (apply Hs; eauto). lia.
Qed.

Lemma upsert_quiet x d : store_ok d → row_check x = true → installed x d →
  ∃ d', upsert_builtin dist x d = (Ok None, d') ∧ templates d' = templates d ∧
    previews d' = previews d ∧ render d' = render d.
Proof.
  intros Hok Hc (id & r & Hr & Hnr & Hb & Hch). unfold upsert_builtin. rewrite Hc. cbn [negb].
  rewrite <-Hnr, (find_named_unique d id r) by (done || apply so_unique, Hok).
  rewrite Hch, andb_false_r. by eexists.
Qed.

Lemma installed_leaves x names d d' : installed x d → t_name x ∉ names → leaves names d d' →
  installed x d'.
Proof.
  intros (id & r & Hr & Hnr & ?) Hn (Hl & _). exists id, r. split; [|done].
  apply Hl; [by rewrite Hnr|done].
Qed.

Definition names_of (es : list (catalogEntry * string)) : list string := (λ x, e_name x.1) <$> es.
Definition total (r : SeedResult) : Z := Inserted r + Updated r + Unchanged r.

Abbreviation catalog_ok := (Forall (λ x : catalogEntry * string,
  is_builtin_name (e_name x.1) = true ∧ row_check (excluded x.1 x.2) = true)).

Lemma seed_installs es res d d' res' : store_ok d → catalog_ok es → NoDup (names_of es) →
  seed dist es res d = Some (d', res') →
  Forall (λ x, installed (excluded x.1 x.2) d') es ∧ leaves (names_of es) d d' ∧
  total res' = total res + zlen es.
Proof.
  intros Hok Hes. revert res d Hok.
  induction Hes as [|[e src] es [Hn Hc] Hes IH]; intros res d Hok Hnd; cbn [seed].
  { intros [= <- <-]. split; [constructor|]. split; [done|]. unfold zlen. simpl. lia. }
  destruct (upsert_builtin dist (excluded e src) d) as [[o|?] d1] eqn:Hu; [|done]. intros Hs.
  apply NoDup_cons in Hnd as [Hni Hnd]. simpl in Hn, Hc.
  pose proof (ok_upsert dist (excluded e src) d Hok Hn eq_refl eq_refl) as Hok1. rewrite Hu in Hok1.
  destruct (upsert_installs (excluded e src) d o d1 Hok Hn eq_refl Hu) as [Hi Hl].
  destruct (IH _ _ Hok1 Hnd Hs) as (Hall & Hl2 & Ht). split_and!.
  - constructor; [|done]. by eapply installed_leaves.
  - apply (leaves_trans [e_name e] (names_of es) d d1 d'); done.
  - rewrite Ht, zlen_cons. destruct o as [[]|]; unfold total; simpl; lia.
Qed.

Lemma seed_quiet es res d : store_ok d → catalog_ok es →
  Forall (λ x, installed (excluded x.1 x.2) d) es →
  ∃ d', seed dist es res d = Some (d', MkSeed (Inserted res) (Updated res) (Unchanged res + zlen es)) ∧
    templates d' = templates d ∧ previews d' = previews d ∧ render d' = render d.
Proof.
  intros Hok Hes. revert res d Hok.
  induction Hes as [|[e src] es [Hn Hc] Hes IH]; intros res d Hok Hin; cbn [seed].
  { exists d. split_and!; try done. destruct res; simpl. unfold zlen. simpl. by rewrite Z.add_0_r. }
  apply Forall_cons_1 in Hin as [Hi Hin]. simpl in Hn, Hc, Hi.
  destruct (upsert_quiet (excluded e src) d Hok Hc Hi) as (d1 & Hu & Ht & Hp & Hr).
  pose proof (ok_upsert dist (excluded e src) d Hok Hn eq_refl eq_refl) as Hok1. rewrite Hu in Hok1. rewrite Hu.
  destruct (IH (tally res None) d1 Hok1) as (d2 & -> & Ht2 & Hp2 & Hr2).
  { eapply Forall_impl; [exact Hin|]. intros [e' src'] (id & r & Hx & ?).
    exists id, r. by rewrite Ht. }
  exists d2. split; [|split_and!; congruence]. rewrite zlen_cons. cbn [tally Inserted Updated Unchanged].
  do 2 f_equal. f_equal. lia.
Qed.

(** Boot-time seeding converges. From tables that satisfy the invariant, a
    run either changes nothing or installs every entry of the embedded catalog
    as a prefab row with exactly the entry's content, leaves every other
    template, every preview and every function alone, and accounts for each
    entry once; the next boot with the same catalog reports all of them
    unchanged and rewrites no row. *)
Theorem SeedBuiltins_converges c rf es d fs (Hok : store_ok d) (Hl : loadCatalog c rf = Some es)
    (Hnd : NoDup (names_of es)) :
  ∃ r d' fs', SeedBuiltins c rf dist d fs = (r, d', fs') ∧
    match r with
    | Err _ => d' = d
    | Ok res =>
        total res = zlen es ∧ leaves (names_of es) d d' ∧
        Forall (λ x, installed (excluded x.1 x.2) d') es ∧
        ∃ d2, SeedBuiltins c rf dist d' [] = (Ok (MkSeed 0 0 (zlen es)), d2, []) ∧
          templates d2 = templates d' ∧ previews d2 = previews d' ∧ render d2 = render d'
    end.
Proof.
  destruct (SeedBuiltins_runs dist c rf es d fs Hl) as (r & d' & fs' & Hrun & Hr & _).
  exists r, d', fs'. split; [done|]. destruct r as [res|]; [|done].
  pose proof (loadCatalog_ok c rf es Hl) as Hes.
  destruct (seed_installs es _ d d' res Hok Hes Hnd Hr) as (Hin & Hlv & Ht).
  split; [by rewrite Ht|]. do 2 (split; [done|]).
  pose proof (ok_seed dist es _ d d' res Hok Hes Hr) as Hok'.
  destruct (seed_quiet es (MkSeed 0 0 0) d' Hok' Hes Hin) as (d2 & Hs & Hp).
  cbn [Inserted Updated Unchanged] in Hs. rewrite Z.add_0_l in Hs.
  destruct (SeedBuiltins_runs dist c rf es d' [] Hl) as (r2 & d3 & fs3 & Hrun2 & Hr2 & Hn2).
  destruct (Hn2 eq_refl) as [-> Hb]. rewrite Hs, bool_decide_eq_true_2 in Hb by eauto.
  destruct r2 as [res2|]; [|done]. rewrite Hs in Hr2. injection Hr2 as <- <-.
  by exists d2.
Qed.

(** Whatever the operators, the boot-time seeding and the preview cache do, in
    any order and under any database fault: template names stay unique, a
    prefab's name stays in the reserved namespace and an operator's out of it,
    no snippet outgrows the device's fetch limit, and no preview or function
    points at a template that is gone. *)
Theorem store_invariant os d (Hok : store_ok d) : store_ok (run_ops os d).
Proof.
  revert d Hok. induction os as [|[o fs] os IH]; intros d Hok; [done|].
  apply IH, ok_run_op, Hok.
Qed.
End Converges.

(** ** Samples *)

(** Syntactic equality of values: the numbers as written, the members in order. *)
Fixpoint json_eqb (a b : RenderDb.json) : bool :=
  match a, b with
  | RenderDb.JNull, RenderDb.JNull => true
  | RenderDb.JBool x, RenderDb.JBool y => Bool.eqb x y
  | RenderDb.JNum x, RenderDb.JNum y => String.eqb x y
  | RenderDb.JStr x, RenderDb.JStr y => String.eqb x y
  | RenderDb.JArr l, RenderDb.JArr k =>
      (fix go l k := match l, k with
       | [], [] => true
       | x :: l, y :: k => json_eqb x y && go l k
       | _, _ => false
       end) l k
  | RenderDb.JObj l, RenderDb.JObj k =>
      (fix go l k := match l, k with
       | [], [] => true
       | x :: l, y :: k => String.eqb x.1 y.1 && json_eqb x.2 y.2 && go l k
       | _, _ => false
       end) l k
  | _, _ => false
  end.

Lemma json_eqb_refl : ∀ j, json_eqb j j = true.
Proof.
  fix IH 1. destruct j as [|b|s|s|l|l]; simpl.
  - done.
  - by destruct b.
  - apply String.eqb_refl.
  - apply String.eqb_refl.
  - induction l as [|x l IHl]; [done|]. rewrite IH. exact IHl.
  - induction l as [|[k x] l IHl]; [done|]. simpl. rewrite String.eqb_refl, IH. exact IHl.
Qed.

Definition ex_distinct (a b : RenderDb.json) : bool := negb (json_eqb a b).
Lemma ex_distinct_refl j : ex_distinct j j = false.
Proof. unfold ex_distinct. by rewrite json_eqb_refl. Qed.

Definition ex_entry (name kind file : string) : catalogEntry :=
  MkEntry name kind file (MkBody ∅ "" None [] [] None) "".
Definition ex_entries : list catalogEntry :=
  [ex_entry "builtin/clock" "render_fn" "clock.js";
   ex_entry "builtin/wifi-preset" "berry_snippet" "wifi-preset.be"]%string.
Definition ex_files (name : string) : option string := Some ("// " +:+ name)%string.
Definition ex_loaded : list (catalogEntry * string) :=
  (λ e, (e, "// builtins/" +:+ e_sourceFile e)%string) <$> ex_entries.

Lemma SeedBuiltins_converges_witness : ∃ d2,
  SeedBuiltins (Some ex_entries) ex_files ex_distinct
    (SeedBuiltins (Some ex_entries) ex_files ex_distinct empty_store []).1.2 [] =
    (Ok (MkSeed 0 0 2), d2, []) ∧ map_size (templates d2) = 2%nat.
Proof.
  assert (Hnd : NoDup (names_of ex_loaded)) by (apply (bool_decide_unpack _); vm_compute; exact I).
  destruct (SeedBuiltins_converges ex_distinct ex_distinct_refl (Some ex_entries) ex_files ex_loaded
    empty_store [] ok_empty eq_refl Hnd) as (r & d' & fs' & Hrun & H).
  assert (Hd : d' = (SeedBuiltins (Some ex_entries) ex_files ex_distinct empty_store []).1.2)
    by (by rewrite Hrun).
  assert (Hok : is_ok r = true).
  { assert (Hr : r = (SeedBuiltins (Some ex_entries) ex_files ex_distinct empty_store []).1.1)
      by (by rewrite Hrun). rewrite Hr. vm_compute. reflexivity. }
  destruct r as [res|]; [|discriminate Hok].
  destruct H as (_ & _ & _ & d2 & Hrun2 & Ht & _). exists d2. rewrite <-Hd. split; [exact Hrun2|].
  rewrite Ht, Hd. vm_compute. reflexivity.
Defined.

Lemma store_invariant_witness : store_ok (run_ops
  [(OSeed (Some ex_entries) ex_files ex_distinct, []);
   (OCreate "my-clock" "render_fn" (MkBody ∅ "x" None [] [] None), [false]);
   (ODelete 3, [])] empty_store).
Proof. apply store_invariant, ok_empty. Defined.

End TemplateLaws.
