(* ===== verification/TemplateSubst.v ===== *)
(** * Parameter substitution ([internal/templatestore/substitute.go])

    The parameter schema, the checks on the values and the splice of the
    placeholders. [url.Parse], the text of a float64, the verdict of
    [strconv.ParseFloat] and the iteration order of a map are parameters. *)

From S2P Require Import Prelude GoLib Db RenderDb RateLimit AdminGate TemplateStore.
Import GoLib TemplateStore.
Import RenderDb(json, JNull, JBool, JNum, JStr, JArr, JObj, field_of).

Module TemplateSubst.

Inductive SubstituteError :=
| UnknownParam (name : string) | MissingParam (name : string)
| Unresolved (token : bytes) | EgressMismatch (host : string)
| InvalidParam (name : string).
(** A defined client fault, or a malformed stored schema. *)
Inductive sub_err := SubErr (e : SubstituteError) | SchemaErr.

Definition code (e : SubstituteError) : string :=
  match e with
  | UnknownParam _ => "unknown_param" | MissingParam _ => "missing_param"
  | Unresolved _ => "unresolved_placeholder" | EgressMismatch _ => "egress_host_mismatch"
  | InvalidParam _ => "invalid_param"
  end.

(** ** The schema *)

Record paramSpec := MkSpec {
  p_name : string; p_label : string; p_type : string; p_required : bool;
  p_default : option json; p_options : list string }.
Definition no_spec : paramSpec := MkSpec "" "" "" false None [].

Inductive spec_field := FName | FLabel | FType | FRequired | FDefault | FOptions.
Definition spec_fields : list (string * spec_field) :=
  [("name", FName); ("label", FLabel); ("type", FType); ("required", FRequired);
   ("default", FDefault); ("options", FOptions)]%string.

(** null leaves a string as it is; any other type is an error. *)
Definition decode_string (old : string) (v : json) : option string :=
  match v with JStr s => Some s | JNull => Some old | _ => None end.
Fixpoint decode_strings (old : list string) (l : list json) : option (list string) :=
  match l with
  | [] => Some []
  | v :: l =>
      s ← decode_string (default ""%string (head old)) v;
      r ← decode_strings (tail old) l; Some (s :: r)
  end.

Definition decode_member (s : paramSpec) (kv : string * json) : option paramSpec :=
  let '(MkSpec n l t r d o) := s in
  match field_of spec_fields kv.1 with
  | Some FName => n ← decode_string n kv.2; Some (MkSpec n l t r d o)
  | Some FLabel => l ← decode_string l kv.2; Some (MkSpec n l t r d o)
  | Some FType => t ← decode_string t kv.2; Some (MkSpec n l t r d o)
  | Some FRequired => match kv.2 with
                      | JBool b => Some (MkSpec n l t b d o)
                      | JNull => Some s
                      | _ => None
                      end
  | Some FDefault => Some (MkSpec n l t r (Some kv.2) o)
  | Some FOptions => match kv.2 with
                     | JArr v => o ← decode_strings o v; Some (MkSpec n l t r d o)
                     | JNull => Some (MkSpec n l t r d [])
                     | _ => None
                     end
  | None => Some s
  end.

Definition decode_spec (j : json) : option paramSpec :=
  match j with
  | JObj m => foldl (λ s kv, s ← s; decode_member s kv) (Some no_spec) m
  | JNull => Some no_spec
  | _ => None
  end.

Definition parseParamSchema (raw : json) : option (list paramSpec) :=
  match raw with
  | JArr l => mapM decode_spec l
  | JNull => Some []
  | _ => None
  end.

(** ** Placeholders: [\{\{[^{}]*\}\}] *)

Definition brace (c : Z) : bool := (c =? 123) || (c =? 125).

(** The rest of a token after its opening braces, with its length. *)
Fixpoint token_close (s : bytes) : option nat :=
  match s with
  | [] => None
  | c :: s' =>
      if brace c
      then if (c =? 125) && bool_decide (head s' = Some 125) then Some 2%nat else None
      else S <$> token_close s'
  end.
Definition token_at (s : bytes) : option nat :=
  if bool_decide (take 2 s = [123; 123]) then (λ n, 2 + n)%nat <$> token_close (drop 2 s) else None.
(** [FindString]: the leftmost match. *)
Fixpoint find_placeholder (s : bytes) : option bytes :=
  match token_at s with
  | Some n => Some (take n s)
  | None => match s with [] => None | _ :: s' => find_placeholder s' end
  end.

(** ** [strings.NewReplacer(...).Replace] with keys of two bytes or more

    At each position the first pair in argument order whose key matches. *)
Fixpoint replace_go (pairs : list (bytes * bytes)) (skip : nat) (s : bytes) : bytes :=
  match s with
  | [] => []
  | c :: s' =>
      match skip with
      | S k => replace_go pairs k s'
      | O => match find_first (λ p, has_prefix p.1 s) pairs with
             | Some p => p.2 ++ replace_go pairs (length p.1 - 1) s'
             | None => c :: replace_go pairs 0 s'
             end
      end
  end.
Definition Replace (pairs : list (bytes * bytes)) (s : bytes) : bytes := replace_go pairs 0 s.

Definition token_of (name : bytes) : bytes := [123; 123] ++ name ++ [125; 125].

(** ** Egress hosts *)

Definition hostOf (hostport : string) : string :=
  match AdminGate.SplitHost (bytes_of_string hostport) with
  | Some h => string_of_bytes h
  | None => hostport
  end.
Definition hostInAllowlist (host : string) (allow : list string) : bool :=
  existsb (λ entry, bool_decide (hostOf entry = host)) allow.
Definition containsString (opts : list string) (want : string) : bool :=
  existsb (λ o, bool_decide (o = want)) opts.

Section Substitute.
(** The host and the hostname of a parsed URL; [%v] of the float64 a literal
    denotes, nothing where it is out of range; the verdict of [ParseFloat]. *)
Context (url_Parse : string → option (string * string)).
Context (fmt_float : string → option string) (ParseFloat : bytes → bool).
(** The order in which a map is ranged over. *)
Context (range : list (string * json) → list (string * json)).

(** Decoding into [any] fails on a number no float64 holds. *)
Fixpoint representable (j : json) : bool :=
  match j with
  | JNum lit => bool_decide (is_Some (fmt_float lit))
  | JArr l => forallb representable l
  | JObj m => forallb (λ kv, representable kv.2) m
  | _ => true
  end.

Definition key_le (a b : string * bytes) : Prop := String.leb a.1 b.1 = true.
#[local] Instance key_le_dec a b : Decision (key_le a b).
Proof. unfold key_le. apply _. Defined.

(** [fmt.Sprint]: a map by its sorted keys, the last of equal members. *)
Fixpoint Sprint (j : json) : bytes :=
  match j with
  | JNull => bytes_of_string "<nil>"
  | JBool b => bytes_of_string (if b then "true" else "false")
  | JNum lit => bytes_of_string (default ""%string (fmt_float lit))
  | JStr s => bytes_of_string s
  | JArr l => [91] ++ join (map Sprint l) [32] ++ [93]
  | JObj m =>
      bytes_of_string "map[" ++
      join ((λ kv : string * bytes, bytes_of_string kv.1 ++ [58] ++ kv.2) <$>
              merge_sort key_le (map_to_list (list_to_map
                (reverse (map (λ kv, (kv.1, Sprint kv.2)) m)) : gmap string bytes))) [32] ++ [93]
  end.

Definition urlHost (raw : string) : option string :=
  let raw := string_of_bytes (AdminGate.TrimSpace (bytes_of_string raw)) in
  if bool_decide (raw = ""%string) then None
  else
    u ← url_Parse raw;
    u ← (if bool_decide (u.1 = ""%string) then url_Parse ("//" +:+ raw) else Some u);
    if bool_decide (u.2 = ""%string) then None else Some u.2.

Definition isNumeric (v : json) : bool :=
  match v with
  | JNum _ => true
  | JStr s => ParseFloat (AdminGate.TrimSpace (bytes_of_string s))
  | _ => false
  end.

Definition checkParamType (s : paramSpec) (val : json) (egressAllow : list string)
    : option SubstituteError :=
  if bool_decide (p_type s = "url"%string) then
    match val with
    | JStr str =>
        match urlHost str with
        | None => Some (InvalidParam (p_name s))
        | Some host => if hostInAllowlist host egressAllow then None else Some (EgressMismatch host)
        end
    | _ => Some (InvalidParam (p_name s))
    end
  else if bool_decide (p_type s = "number"%string) then
    if isNumeric val then None else Some (InvalidParam (p_name s))
  else if bool_decide (p_type s = "enum"%string) then
    if containsString (p_options s) (string_of_bytes (Sprint val)) then None
    else Some (InvalidParam (p_name s))
  else None.

Definition spliceTokens (source : string) (values : gmap string json) : bytes :=
  Replace ((λ kv : string * json, (token_of (bytes_of_string kv.1), Sprint kv.2)) <$>
             range (map_to_list values)) (bytes_of_string source).

(** One round of the loop over the schema. *)
Definition apply_spec (egress : list string) (values : gmap string json) (s : paramSpec)
    : result sub_err (gmap string json) :=
  let checked v values :=
    match checkParamType s v egress with
    | Some e => Err (SubErr e)
    | None => Ok values
    end in
  match values !! p_name s with
  | Some v => checked v values
  | None =>
      match p_default s with
      | Some dv => if representable dv then checked dv (<[p_name s := dv]> values) else Err SchemaErr
      | None => if p_required s then Err (SubErr (MissingParam (p_name s))) else Ok values
      end
  end.

Fixpoint apply_specs (egress : list string) (values : gmap string json) (specs : list paramSpec)
    : result sub_err (gmap string json) :=
  match specs with
  | [] => Ok values
  | s :: specs => values ← apply_spec egress values s; apply_specs egress values specs
  end.

Definition declared (specs : list paramSpec) (k : string) : bool :=
  existsb (λ s, bool_decide (p_name s = k)) specs.

Definition Substitute (t : Template) (params : gmap string json) : result sub_err bytes :=
  match parseParamSchema (t_params (row t)) with
  | None => Err SchemaErr
  | Some specs =>
      match find_first (λ kv, negb (declared specs kv.1)) (range (map_to_list params)) with
      | Some kv => Err (SubErr (UnknownParam kv.1))
      | None =>
          values ← apply_specs (t_egress (row t)) params specs;
          let out := spliceTokens (t_source (row t)) values in
          match find_placeholder out with
          | Some tok => Err (SubErr (Unresolved tok))
          | None => Ok out
          end
      end
  end.
End Substitute.

(** ** The splice, on a source read as text and tokens *)

Inductive part := Chr (c : Z) | Tok (name : string).
#[global] Instance part_eq_dec : EqDecision part.
Proof. solve_decision. Defined.
Definition brace_free (name : string) : Prop :=
  Forall (λ c, brace c = false) (bytes_of_string name).
Definition part_ok (p : part) : Prop :=
  match p with Chr _ => True | Tok n => brace_free n end.
Definition part_source (p : part) : bytes :=
  match p with Chr c => [c] | Tok n => token_of (bytes_of_string n) end.

(** A source as its placeholders, leftmost first, and the characters between. *)
Fixpoint parse_go (skip : nat) (s : bytes) : list part :=
  match s with
  | [] => []
  | c :: s' =>
      match skip with
      | S k => parse_go k s'
      | O => match token_at s with
             | Some n => Tok (string_of_bytes (take (n - 4) (drop 2 s))) :: parse_go (n - 1) s'
             | None => Chr c :: parse_go 0 s'
             end
      end
  end.
Definition parts_of (source : string) : list part := parse_go 0 (bytes_of_string source).

Lemma brace_false c : brace c = false → c ≠ 123 ∧ c ≠ 125.
Proof. unfold brace. intros [H1 H2]%orb_false_iff. lia. Qed.

Lemma token_close_name n rest : Forall (λ c, brace c = false) n →
  is_Some (token_close (n ++ 125 :: 125 :: rest)).
Proof.
  induction 1 as [|c n Hc _ [k IH]]; simpl; [done|].
  rewrite Hc, IH. by eexists.
Qed.

Lemma token_at_token n rest : brace_free n →
  is_Some (token_at (token_of (bytes_of_string n) ++ rest)).
Proof.
  intros Hn. destruct (token_close_name (bytes_of_string n) rest Hn) as [k Hk].
  exists (2 + k)%nat. unfold token_of, token_at. rewrite <-!(assoc_L (++)).
  change (drop 2 _) with (bytes_of_string n ++ 125 :: 125 :: rest). by rewrite Hk.
Qed.

Lemma token_close_inv s k : token_close s = Some k →
  ∃ n rest, s = n ++ 125 :: 125 :: rest ∧ Forall (λ c, brace c = false) n ∧ k = (length n + 2)%nat.
Proof.
  revert k. induction s as [|c s IH]; intros k; [done|]. cbn [token_close]. destruct (brace c) eqn:Hb.
  - destruct (Z.eqb_spec c 125) as [->|]; [|done]. case_bool_decide as Hh; [|done]. intros [= <-].
    destruct s as [|d s]; [done|]. injection Hh as ->. by exists [], s.
  - destruct (token_close s) as [j|]; [|done]. intros [= <-]. destruct (IH j eq_refl) as (n & rest & -> & Hn & ->).
    exists (c :: n), rest. split_and!; [done|by constructor|done].
Qed.

(** What the regular expression matches is the token of a brace-free name. *)
Lemma token_at_inv s k : bytes_ok s → token_at s = Some k →
  ∃ n rest, s = token_of (bytes_of_string n) ++ rest ∧ brace_free n ∧
    k = (length (bytes_of_string n) + 4)%nat ∧ n = string_of_bytes (take (k - 4) (drop 2 s)).
Proof.
  unfold token_at. case_bool_decide as Ht; [|done]. intros Hs.
  destruct (token_close (drop 2 s)) as [j|] eqn:Hc; [|done]. intros [= <-].
  apply token_close_inv in Hc as (n & rest & Hd & Hn & ->).
  assert (Hb : bytes_of_string (string_of_bytes n) = n).
  { apply bytes_of_string_of_bytes. apply (Forall_drop _ 2) in Hs. rewrite Hd in Hs. by apply Forall_app in Hs as [? _]. }
  exists (string_of_bytes n), rest. rewrite Hb. split_and!.
  - rewrite <-(take_drop 2 s), Ht, Hd. unfold token_of. by rewrite <-!(assoc_L (++)).
  - unfold brace_free. by rewrite Hb.
  - simpl. lia.
  - f_equal. rewrite Hd. symmetry. apply take_app_len. simpl. lia.
Qed.

Lemma parse_skip a s : parse_go (length a) (a ++ s) = parse_go 0 s.
Proof. induction a as [|c a IH]; [done|]. exact IH. Qed.

(** A source without a token at its start, and with one. *)
Lemma parse_cases s : bytes_ok s →
  s = [] ∨ (∃ c s', s = c :: s' ∧ token_at s = None ∧ bytes_ok s' ∧ parse_go 0 s = Chr c :: parse_go 0 s') ∨
  (∃ n rest, s = token_of (bytes_of_string n) ++ rest ∧ brace_free n ∧ bytes_ok rest ∧
     parse_go 0 s = Tok n :: parse_go 0 rest).
Proof.
  intros Hs. destruct s as [|c s']; [by left|right]. destruct (token_at (c :: s')) as [k|] eqn:Ht.
  - right. destruct (token_at_inv _ _ Hs Ht) as (n & rest & He & Hn & Hk & Hnm). exists n, rest.
    assert (Hr : bytes_ok rest) by (rewrite He in Hs; by apply Forall_app in Hs as [_ ?]).
    split_and!; [done..|]. cbn [parse_go]. rewrite Ht, <-Hnm. f_equal.
    set (l := 123 :: bytes_of_string n ++ [125; 125]).
    assert (Hs' : s' = l ++ rest).
    { unfold token_of in He. simpl in He. injection He as _ ->. unfold l. cbn [app]. by rewrite <-!(assoc_L (++)). }
    replace (k - 1)%nat with (length l) by (unfold l; rewrite Hk; cbn [length]; rewrite length_app; simpl; lia).
    rewrite Hs'. apply parse_skip.
  - left. exists c, s'. split_and!; [done..|by apply Forall_cons in Hs as [_ ?]|]. cbn [parse_go]. by rewrite Ht.
Qed.

(** Induction along the reading of a source. *)
Lemma parse_ind (P : bytes → Prop) : P [] →
  (∀ c s, token_at (c :: s) = None → parse_go 0 (c :: s) = Chr c :: parse_go 0 s → P s → P (c :: s)) →
  (∀ n s, brace_free n → parse_go 0 (token_of (bytes_of_string n) ++ s) = Tok n :: parse_go 0 s → P s →
     P (token_of (bytes_of_string n) ++ s)) →
  ∀ s, bytes_ok s → P s.
Proof.
  intros H0 Hc Ht s. induction (well_founded_ltof _ (@length Z) s) as [s _ IH]. intros Hs.
  destruct (parse_cases s Hs) as [->|[(c & s' & -> & Hn & Hs' & Hp)|(n & rest & -> & Hn & Hr & Hp)]]; [done|..].
  - apply Hc; [done..|]. apply IH; [|done]. unfold ltof. simpl. lia.
  - apply Ht; [done..|]. apply IH; [|done]. unfold ltof, token_of. rewrite !length_app. simpl. lia.
Qed.

Lemma parts_source s : bytes_ok s → parse_go 0 s ≫= part_source = s.
Proof.
  revert s. apply parse_ind; [done|..].
  - intros c s _ -> IH. by rewrite bind_cons, IH.
  - intros n s _ -> IH. by rewrite bind_cons, IH.
Qed.
Lemma parts_ok s : bytes_ok s → Forall part_ok (parse_go 0 s).
Proof. revert s. apply parse_ind; [done|..]; intros ? ? ? ->; by constructor. Qed.

Lemma find_placeholder_app a s : is_Some (token_at s) → is_Some (find_placeholder (a ++ s)).
Proof.
  intros [n Hn]. induction a as [|c a IH].
  - destruct s as [|c s]; [discriminate Hn|]. change (is_Some (find_placeholder (c :: s))). cbn [find_placeholder].
    rewrite Hn. by eexists.
  - change ((c :: a) ++ s) with (c :: (a ++ s)). cbn [find_placeholder].
    case_match; [by eexists|exact IH].
Qed.

Lemma replace_skip pairs a s : replace_go pairs (length a) (a ++ s) = replace_go pairs 0 s.
Proof. induction a as [|c a IH]; [done|]. exact IH. Qed.

Lemma has_prefix_self a s : has_prefix a (a ++ s) = true.
Proof. induction a as [|c a IH]; simpl; [done|]. by rewrite Z.eqb_refl. Qed.

(** Of two brace-free names, one's closed text starts another's only if they
    are the same. *)
Lemma closed_prefix m n rest : Forall (λ c, brace c = false) m → Forall (λ c, brace c = false) n →
  has_prefix (m ++ [125; 125]) (n ++ 125 :: 125 :: rest) = true → m = n.
Proof.
  intros Hm. revert n. induction Hm as [|c m Hc _ IH]; intros n Hn.
  - destruct Hn as [|d n Hd _]; [done|]. cbn [app has_prefix]. apply brace_false in Hd.
    intros H. apply andb_prop in H as [H%Z.eqb_eq _]. lia.
  - destruct Hn as [|d n Hd Hn]; cbn [app has_prefix]; intros [H1 H2]%andb_prop.
    + apply brace_false in Hc. apply Z.eqb_eq in H1. lia.
    + apply Z.eqb_eq in H1. f_equal; [done|]. by apply IH.
Qed.

Section Splice.
Context (pairs : list (bytes * bytes)).
(** Every key is the token of a brace-free name. *)
Hypothesis keys : Forall (λ p, ∃ m, brace_free m ∧ p.1 = token_of (bytes_of_string m)) pairs.

Lemma no_key c s : c ≠ 123 ∨ head s ≠ Some 123 → find_first (λ p, has_prefix p.1 (c :: s)) pairs = None.
Proof using keys.
  intros Hc. apply find_first_None. intros p Hp. rewrite Forall_forall in keys.
  destruct (keys p Hp) as (m & _ & ->). unfold token_of. cbn [app has_prefix].
  destruct (Z.eqb_spec 123 c) as [<-|Hne]; [|done]. destruct Hc as [Hc|Hc]; [done|]. cbn [andb].
  destruct s as [|d s]; [done|]. cbn [has_prefix]. simpl in Hc. destruct (Z.eqb_spec 123 d); [congruence|done].
Qed.

Lemma replace_text t s : 123 ∉ t → replace_go pairs 0 (t ++ s) = t ++ replace_go pairs 0 s.
Proof using keys.
  induction t as [|c t IH]; [done|]. intros [Hc Ht]%not_elem_of_cons.
  change ((c :: t) ++ s) with (c :: (t ++ s)). cbn [replace_go].
  rewrite no_key by (left; congruence). by rewrite IH.
Qed.

(** The replacement of one token: the first pair of its name. *)
Definition fill_token (n : string) : bytes :=
  match find_first (λ p, bool_decide (p.1 = token_of (bytes_of_string n))) pairs with
  | Some p => p.2
  | None => token_of (bytes_of_string n)
  end.

Lemma find_first_ext {A} (p q : A → bool) l : (∀ x, x ∈ l → p x = q x) → find_first p l = find_first q l.
Proof using Type.
  induction l as [|x l IH]; intros H; [done|]. simpl. rewrite (H x) by left.
  destruct (q x); [done|]. apply IH. intros y Hy. apply H. by right.
Qed.

Lemma token_match n rest : brace_free n →
  find_first (λ p, has_prefix p.1 (token_of (bytes_of_string n) ++ rest)) pairs =
  find_first (λ p, bool_decide (p.1 = token_of (bytes_of_string n))) pairs.
Proof using keys.
  intros Hn. apply find_first_ext. intros p Hp. rewrite Forall_forall in keys.
  destruct (keys p Hp) as (m & Hm & ->). case_bool_decide as He.
  - rewrite He. apply has_prefix_self.
  - destruct (has_prefix _ _) eqn:Hx; [|done]. exfalso. apply He. unfold token_of in *. cbn [app has_prefix] in Hx.
    rewrite <-(assoc_L (++)) in Hx. by rewrite (closed_prefix _ _ _ Hm Hn Hx).
Qed.

Lemma replace_token n s : brace_free n →
  replace_go pairs 0 (token_of (bytes_of_string n) ++ s) = fill_token n ++ replace_go pairs 0 s.
Proof using keys.
  intros Hn. pose proof (token_match n s Hn) as Hf. unfold fill_token.
  set (tok := token_of (bytes_of_string n)) in *.
  destruct (find_first (λ p, bool_decide _) pairs) as [p|] eqn:Hp.
  - apply find_first_Some in Hp as [_ Hp]. apply bool_decide_eq_true in Hp.
    assert (Hc : ∃ c l, tok = c :: l) by (by eexists _, _). destruct Hc as (c & l & Hc).
    rewrite Hc in Hf, Hp |- *. change ((c :: l) ++ s) with (c :: (l ++ s)) in *. cbn [replace_go].
    rewrite Hf. f_equal. rewrite Hp. cbn [length]. rewrite Nat.sub_succ, Nat.sub_0_r. apply replace_skip.
  - assert (Hc : tok = 123 :: 123 :: bytes_of_string n ++ [125; 125]) by done.
    rewrite Hc in Hf |- *. simpl app in Hf |- *. rewrite <-(assoc_L (++)) in Hf |- *.
    cbn [replace_go]. rewrite Hf. f_equal.
    assert (Hne : head (bytes_of_string n ++ [125; 125] ++ s) ≠ Some 123).
    { destruct Hn as [|c l Hb _]; [done|]. simpl. apply brace_false in Hb. intros [= ->]. lia. }
    assert (Ht : 123 ∉ bytes_of_string n ++ [125; 125]).
    { intros [Hi|Hi]%elem_of_app.
      - unfold brace_free in Hn. rewrite Forall_forall in Hn. by specialize (Hn _ Hi).
      - by repeat (apply elem_of_cons in Hi as [Hi|Hi]; [done|]); apply not_elem_of_nil in Hi. }
    rewrite no_key by (by right). f_equal. rewrite (assoc_L (++)). by rewrite replace_text.
Qed.

Definition fill_part (p : part) : bytes := match p with Chr c => [c] | Tok n => fill_token n end.

(** A key matches only where a token stands. *)
Lemma no_token_no_key s : token_at s = None → find_first (λ p, has_prefix p.1 s) pairs = None.
Proof using keys.
  intros Ht. apply find_first_None. intros p Hp. rewrite Forall_forall in keys.
  destruct (keys p Hp) as (m & Hm & ->). apply not_true_is_false. intros [rest ->]%has_prefix_app.
  destruct (token_at_token m rest Hm) as [k Hk]. congruence.
Qed.

Lemma replace_parts s : bytes_ok s → replace_go pairs 0 s = parse_go 0 s ≫= fill_part.
Proof using keys.
  revert s. apply parse_ind; [done|..].
  - intros c s Ht -> IH. rewrite bind_cons. cbn [replace_go fill_part]. by rewrite (no_token_no_key _ Ht), IH.
  - intros n s Hn -> IH. rewrite bind_cons, replace_token by done. by rewrite IH.
Qed.
End Splice.

(** ** What a substitution admits *)

Section Sound.
Context (url_Parse : string → option (string * string)).
Context (fmt_float : string → option string) (ParseFloat : bytes → bool).
Context (range : list (string * json) → list (string * json)).
Hypothesis range_perm : ∀ l, range l ≡ₚ l.

Abbreviation check := (checkParamType url_Parse fmt_float ParseFloat).
Abbreviation specs_of egress := (apply_specs url_Parse fmt_float ParseFloat egress).

(** One round only adds a checked default under the spec's own name. *)
Lemma apply_spec_ok egress values s values' :
  apply_spec url_Parse fmt_float ParseFloat egress values s = Ok values' →
  values ⊆ values' ∧
  (∀ k, is_Some (values' !! k) → is_Some (values !! k) ∨ k = p_name s) ∧
  (p_required s = true → is_Some (values' !! p_name s)) ∧
  (∀ v, values' !! p_name s = Some v → check s v egress = None) ∧
  (∀ k v, values' !! k = Some v → values !! k = Some v ∨ (k = p_name s ∧ p_default s = Some v)).
Proof using Type.
  unfold apply_spec. destruct (values !! p_name s) as [v|] eqn:Hv.
  - destruct (check s v egress) eqn:Hc; [done|]. intros [= <-].
    split_and!; [done|by left|by rewrite Hv| |by left]. intros w Hw. congruence.
  - destruct (p_default s) as [dv|].
    + destruct (representable _ _); [|done]. destruct (check s dv egress) eqn:Hc; [done|]. intros [= <-].
      split_and!.
      * by apply insert_subseteq.
      * intros k [<-|?]%lookup_insert_is_Some'; [by right|by left].
      * intros _. rewrite lookup_insert_eq. by eexists.
      * intros w. rewrite lookup_insert_eq. congruence.
      * intros k w [[<- <-]|[_ ?]]%lookup_insert_Some; [by right|by left].
    + destruct (p_required s) eqn:Hr; [done|]. intros [= <-].
      split_and!; [done|by left|done| |by left]. intros w Hw. congruence.
Qed.

Lemma apply_specs_ok egress specs values values' : specs_of egress values specs = Ok values' →
  values ⊆ values' ∧
  (∀ k, is_Some (values' !! k) → is_Some (values !! k) ∨ ∃ s, s ∈ specs ∧ p_name s = k) ∧
  (∀ s, s ∈ specs → p_required s = true → is_Some (values' !! p_name s)) ∧
  (∀ s v, s ∈ specs → values !! p_name s = Some v → check s v egress = None) ∧
  (NoDup (p_name <$> specs) →
   ∀ s v, s ∈ specs → values' !! p_name s = Some v → check s v egress = None) ∧
  (∀ k v, values' !! k = Some v → values !! k = Some v ∨
     ∃ s, s ∈ specs ∧ p_name s = k ∧ p_default s = Some v ∧ check s v egress = None).
Proof using Type.
  revert values. induction specs as [|s specs IH]; intros values; simpl.
  { intros [= <-]. split_and!; [done|by left|intros s Hs|intros s v Hs|intros _ s v Hs|by left];
      by apply not_elem_of_nil in Hs. }
  destruct (apply_spec _ _ _ egress values s) as [v1|] eqn:Hs; [|done]. simpl. intros Hr.
  apply apply_spec_ok in Hs as (Hsub & Hdom & Hreq & Hchk & Hfrom).
  destruct (IH v1 Hr) as (Hsub' & Hdom' & Hreq' & Hin & Hchk' & Hfrom'). split_and!.
  - by etrans.
  - intros k Hk. destruct (Hdom' k Hk) as [H1|(s' & ? & ?)].
    + destruct (Hdom k H1) as [?| ->]; [by left|]. right. exists s. split; [left|done].
    + right. exists s'. split; [by right|done].
  - intros s' [->|Hs']%elem_of_cons Hq; [|by apply Hreq'].
    destruct (Hreq Hq) as [v Hv]. exists v. by eapply lookup_weaken.
  - intros s' v [->|Hs']%elem_of_cons Hv.
    + apply Hchk. by eapply lookup_weaken.
    + apply Hin; [done|]. by eapply lookup_weaken.
  - intros [Hni Hnd]%NoDup_cons s' v [->|Hs']%elem_of_cons Hv; [|by apply Hchk'].
    destruct (v1 !! p_name s) as [w|] eqn:Hw.
    + rewrite (lookup_weaken _ _ _ _ Hw Hsub') in Hv. simplify_eq. by apply Hchk.
    + destruct (Hdom' (p_name s) ltac:(by eexists)) as [[w ?]|(s' & Hs' & Hn)]; [congruence|].
      exfalso. apply Hni. rewrite <-Hn. by apply list_elem_of_fmap_2.
  - intros k v Hv. destruct (Hfrom' k v Hv) as [H1|(s' & ? & ? & ? & ?)].
    + destruct (Hfrom k v H1) as [?|[-> Hd]]; [by left|]. right. exists s. split_and!; [left|done|done|by apply Hchk].
    + right. exists s'. split_and!; [by right|done..].
Qed.

(** A value that passes as a URL. *)
Lemma url_checked s v egress : check s v egress = None → p_type s = "url"%string →
  ∃ str host entry, v = JStr str ∧ urlHost url_Parse str = Some host ∧ entry ∈ egress ∧ hostOf entry = host.
Proof using Type.
  unfold checkParamType. intros Hc Hty. rewrite bool_decide_eq_true_2 in Hc by done.
  destruct v as [| | |str| |]; try done. destruct (urlHost url_Parse str) as [host|] eqn:Hh; [|done].
  destruct (hostInAllowlist host _) eqn:Ha; [|done]. unfold hostInAllowlist in Ha.
  apply existsb_exists in Ha as (entry & Hi & Hb). exists str, host, entry.
  split_and!; [done|done|by apply list_elem_of_In|by apply bool_decide_eq_true in Hb].
Qed.

Definition pairs_of (values : gmap string json) : list (bytes * bytes) :=
  (λ kv : string * json, (token_of (bytes_of_string kv.1), Sprint fmt_float kv.2)) <$>
    range (map_to_list values).

(** A part with its value in place. *)
Definition filled (values : gmap string json) (p : part) : bytes :=
  match p with
  | Chr c => [c]
  | Tok n => match values !! n with Some v => Sprint fmt_float v | None => part_source (Tok n) end
  end.

Lemma token_of_inj m n : token_of (bytes_of_string m) = token_of (bytes_of_string n) → m = n.
Proof using Type.
  unfold token_of. intros [= H]. apply app_inj_2 in H as [H _]; [|done]. by apply bytes_of_string_inj.
Qed.

Lemma elem_of_pairs values k v : values !! k = Some v ↔
  (token_of (bytes_of_string k), Sprint fmt_float v) ∈ pairs_of values ∧ values !! k = Some v.
Proof using range_perm.
  split; [|by intros []]. intros Hv. split; [|done]. unfold pairs_of. apply list_elem_of_fmap.
  exists (k, v). split; [done|]. rewrite range_perm. by apply elem_of_map_to_list.
Qed.

Lemma fill_is_filled values p : fill_part (pairs_of values) p = filled values p.
Proof using range_perm.
  destruct p as [c|n]; [done|]. cbn [fill_part filled]. unfold fill_token.
  destruct (find_first _ _) as [q|] eqn:Hf.
  - apply find_first_Some in Hf as [Hq Hb]. apply bool_decide_eq_true in Hb.
    unfold pairs_of in Hq. apply list_elem_of_fmap in Hq as ((k & v) & -> & Hin).
    rewrite range_perm in Hin. apply elem_of_map_to_list in Hin. simpl in Hb |- *.
    apply token_of_inj in Hb as ->. by rewrite Hin.
  - destruct (values !! n) as [v|] eqn:Hv; [|done]. exfalso.
    apply elem_of_pairs in Hv as [Hp _]. rewrite find_first_None in Hf. specialize (Hf _ Hp).
    by rewrite bool_decide_eq_true_2 in Hf.
Qed.

Lemma spliceTokens_parts values source :
  (∀ k, is_Some (values !! k) → brace_free k) →
  spliceTokens fmt_float range source values = parts_of source ≫= filled values.
Proof using range_perm.
  intros Hk. unfold spliceTokens, Replace, parts_of. change (fmap _ _) with (pairs_of values).
  rewrite replace_parts; [| |apply bytes_of_string_ok].
  - induction (parse_go 0 (bytes_of_string source)) as [|p ps IH]; [done|]. by rewrite !bind_cons, fill_is_filled, IH.
  - apply Forall_forall. intros q Hq. unfold pairs_of in Hq.
    apply list_elem_of_fmap in Hq as ((k & v) & -> & Hin). rewrite range_perm in Hin.
    apply elem_of_map_to_list in Hin. exists k. split; [|done]. apply Hk. by eexists.
Qed.

(** A token without a value would still be a placeholder. *)
Lemma tokens_filled values parts n : Forall part_ok parts → Tok n ∈ parts →
  find_placeholder (parts ≫= filled values) = None → is_Some (values !! n).
Proof using Type.
  intros Hok Hin Hf. destruct (values !! n) as [v|] eqn:Hv; [by eexists|]. exfalso.
  rewrite Forall_forall in Hok. pose proof (Hok _ Hin) as Hn. simpl in Hn.
  apply list_elem_of_split in Hin as (l1 & l2 & ->). rewrite bind_app, bind_cons in Hf.
  cbn [filled] in Hf. rewrite Hv in Hf.
  pose proof (find_placeholder_app (l1 ≫= filled values) _ (token_at_token n (l2 ≫= filled values) Hn)) as [x Hx].
  cbn [part_source] in Hf. congruence.
Qed.

(** C19. What a template may become. A substitution that succeeds used only
    parameters the template's schema declares, with every required one present.
    Every value it used is the caller's or a default of the schema; it passes the
    check of the declaration it fills (of every declaration of its name, when the
    caller gave it or the schema's names are distinct), and a value so declared as
    a URL, default or not, names a host of the template's own egress list. No
    placeholder is left in the result, not even one smuggled in by a value. And
    the result is the source, whatever braces it holds, with each placeholder the
    regular expression finds in it, leftmost first, replaced once by its value and
    every other character unchanged (the schema's names having no braces). *)
Theorem Substitute_sound t params out
    (H : Substitute url_Parse fmt_float ParseFloat range t params = Ok out) :
  ∃ specs values, parseParamSchema (t_params (row t)) = Some specs ∧ params ⊆ values ∧
    (∀ k, is_Some (values !! k) → ∃ s, s ∈ specs ∧ p_name s = k) ∧
    (∀ s, s ∈ specs → p_required s = true → is_Some (values !! p_name s)) ∧
    (∀ k v, values !! k = Some v → params !! k = Some v ∨ ∃ s, s ∈ specs ∧ p_name s = k ∧ p_default s = Some v ∧
       (p_type s = "url"%string → ∃ str host entry, v = JStr str ∧
          urlHost url_Parse str = Some host ∧ entry ∈ t_egress (row t) ∧ hostOf entry = host)) ∧
    (∀ s v, s ∈ specs → values !! p_name s = Some v →
       is_Some (params !! p_name s) ∨ NoDup (p_name <$> specs) →
       check s v (t_egress (row t)) = None ∧
       (p_type s = "url"%string → ∃ str host entry, v = JStr str ∧
          urlHost url_Parse str = Some host ∧ entry ∈ t_egress (row t) ∧ hostOf entry = host)) ∧
    find_placeholder out = None ∧
    (parts_of (t_source (row t)) ≫= part_source = bytes_of_string (t_source (row t)) ∧
     ((∀ s, s ∈ specs → brace_free (p_name s)) →
      out = parts_of (t_source (row t)) ≫= filled values ∧
      ∀ n, Tok n ∈ parts_of (t_source (row t)) → is_Some (values !! n))).
Proof using range_perm.
  unfold Substitute in H. destruct (parseParamSchema _) as [specs|]; [|done].
  destruct (find_first _ (range (map_to_list params))) as [kv|] eqn:Hu; [done|].
  destruct (specs_of (t_egress (row t)) params specs) as [values|] eqn:Hs; [|done]. simpl in H.
  destruct (find_placeholder _) eqn:Hf; [done|]. injection H as <-.
  apply apply_specs_ok in Hs as (Hsub & Hdom & Hreq & Hin & Hall & Hfrom).
  assert (Hdecl : ∀ k, is_Some (values !! k) → ∃ s, s ∈ specs ∧ p_name s = k).
  { intros k [[v Hv]|?]%Hdom; [|done]. rewrite find_first_None in Hu.
    specialize (Hu (k, v)). rewrite range_perm, elem_of_map_to_list in Hu.
    apply Hu in Hv. simpl in Hv. apply negb_false_iff, existsb_exists in Hv as (s & Hi & Hb).
    exists s. split; [by apply list_elem_of_In|]. by apply bool_decide_eq_true in Hb. }
  exists specs, values. split_and!; try done.
  - intros k v [?|(s & Hi & Hn & Hd & Hc)]%Hfrom; [by left|right]. exists s. split_and!; [done..|].
    intros Hty. by eapply url_checked.
  - intros s v Hi Hv Hw. assert (Hc : check s v (t_egress (row t)) = None).
    { destruct Hw as [[w Hp]|Hnd]; [|by apply Hall]. pose proof (lookup_weaken _ _ _ _ Hp Hsub). simplify_eq. by apply Hin. }
    split; [done|]. intros Hty. by eapply url_checked.
  - apply parts_source, bytes_of_string_ok.
  - intros Hbf. assert (He : spliceTokens fmt_float range (t_source (row t)) values = parts_of (t_source (row t)) ≫= filled values).
    { apply spliceTokens_parts. intros k (s & Hs & <-)%Hdecl. by apply Hbf. }
    split; [done|]. intros n Hn. apply (tokens_filled values (parts_of (t_source (row t)))); [|done|by rewrite <-He].
    apply parts_ok, bytes_of_string_ok.
Qed.
End Sound.

(** ** Samples *)

(** A parser that knows one scheme: the host runs to the next slash. *)
Definition ex_parse (s : string) : option (string * string) :=
  let b := bytes_of_string s in
  if has_prefix (bytes_of_string "https://") b then
    let h := string_of_bytes (default [] (head (split (drop 8 b) [47]))) in Some (h, h)
  else None.
(** A source in the shape of the shipped external-image template, whose width is a
    parameter with a default. *)
Definition ex_source : string :=
  "export default async (ctx, cap) => { const res = await cap.fetch(`{{url}}`); return { image: cap.sharp(res, { raw: { width: {{width}} } }) }; };".
Definition ex_template : Template :=
  MkTemplate 1 (MkTemplateRow "builtin/external-image" "render_fn" ∅ ex_source
    (JArr [JObj [("name", JStr "url"); ("type", JStr "url"); ("required", JBool true)];
           JObj [("name", JStr "width"); ("type", JStr "number"); ("default", JNum "400")]]%string)
    ["images.example.com:443"%string] [] None true 1).
Definition ex_url : json := JStr "https://images.example.com/a.png".
Definition ex_out : bytes := bytes_of_string
  "export default async (ctx, cap) => { const res = await cap.fetch(`https://images.example.com/a.png`); return { image: cap.sharp(res, { raw: { width: 400 } }) }; };".

Lemma Substitute_sound_witness :
  Substitute ex_parse Some (λ _, true) (λ l, l) ex_template {["url"%string := ex_url]} = Ok ex_out ∧
  find_placeholder ex_out = None ∧ ∃ values : gmap string json,
    ex_out = parts_of ex_source ≫= filled Some values ∧ values !! "url"%string = Some ex_url ∧
    is_Some (values !! "width"%string).
Proof.
  assert (H : Substitute ex_parse Some (λ _, true) (λ l, l) ex_template {["url"%string := ex_url]} = Ok ex_out)
    by (vm_compute; reflexivity).
  split; [exact H|].
  destruct (Substitute_sound ex_parse Some (λ _, true) (λ l, l) (λ l, reflexivity l) _ _ _ H)
    as (specs & values & Hs & Hsub & _ & _ & _ & _ & Hf & _ & Hsp).
  split; [exact Hf|]. exists values.
  assert (Hb : ∀ s, s ∈ specs → brace_free (p_name s)).
  { apply Forall_forall. vm_compute in Hs. injection Hs as <-. repeat constructor. }
  destruct (Hsp Hb) as [Ho Hv]. split; [exact Ho|]. split.
  - eapply lookup_weaken; [|exact Hsub]. vm_compute. reflexivity.
  - apply Hv. apply (bool_decide_unpack _). vm_compute. exact I.
Defined.

End TemplateSubst.
