(* ===== verification/Fleet.v ===== *)
(** * One database, seen by each component

    The handlers of the operator surface touch the tables of several
    components in one transaction. The tables are one record; a component's
    operations run on its view, in which a column it shares is read from the
    table that owns it. *)

From S2P Require Import Prelude GoLib Db C2 Rollout LogIngest RenderDb FaasStore PlaylistStore PlRender TemplateStore.

Module Fleet.

(** [labels] is the label column of devices; a serial without one is NULL. *)
Record fleet := MkFleet {
  labels : gmap string string;
  ingest : LogIngest.db;
  device_auth : gmap string C2.auth_row;
  c2_nonce : gmap string (bytes * Z);
  c2_cursors : gmap string C2.cursor;
  command_queue : list C2.command;
  next_seq : Z;
  store : TemplateStore.db;
  (* the ids of operator_keys *)
  operators : gset Z }.

Definition devices (f : fleet) : gmap string Rollout.device :=
  Rollout.devices (LogIngest.ota (ingest f)).

Definition set_labels l (f : fleet) : fleet :=
  MkFleet (l (labels f)) (ingest f) (device_auth f) (c2_nonce f) (c2_cursors f)
    (command_queue f) (next_seq f) (store f) (operators f).
Definition set_ingest i (f : fleet) : fleet :=
  MkFleet (labels f) i (device_auth f) (c2_nonce f) (c2_cursors f) (command_queue f)
    (next_seq f) (store f) (operators f).
Definition set_store s (f : fleet) : fleet :=
  MkFleet (labels f) (ingest f) (device_auth f) (c2_nonce f) (c2_cursors f)
    (command_queue f) (next_seq f) s (operators f).
Definition set_device_auth a (f : fleet) : fleet :=
  MkFleet (labels f) (ingest f) (a (device_auth f)) (c2_nonce f) (c2_cursors f)
    (command_queue f) (next_seq f) (store f) (operators f).
Definition set_c2_cursors c (f : fleet) : fleet :=
  MkFleet (labels f) (ingest f) (device_auth f) (c2_nonce f) (c (c2_cursors f))
    (command_queue f) (next_seq f) (store f) (operators f).
Definition set_queue q (f : fleet) : fleet :=
  MkFleet (labels f) (ingest f) (device_auth f) (c2_nonce f) (c2_cursors f) q (next_seq f)
    (store f) (operators f).

(** ** The views *)

Definition set_channel_of c (d : RenderDb.db) : RenderDb.db :=
  RenderDb.MkDb (RenderDb.functions d) (RenderDb.function_seq d) (RenderDb.render_binding d)
    (RenderDb.lastgood d) (RenderDb.playlists d) (RenderDb.playlist_seq d) (RenderDb.items d)
    (RenderDb.item_seq d) (RenderDb.playlist_binding d) (RenderDb.cursors d) (RenderDb.variants d)
    (RenderDb.images d) (RenderDb.secrets d) c.
(** The frame side as it is stored, and with the channels of the devices. *)
Definition stored (f : fleet) : RenderDb.db := TemplateStore.render (store f).
Definition render_of (f : fleet) : RenderDb.db :=
  set_channel_of (Rollout.channel <$> devices f) (stored f).
Definition set_render (d : RenderDb.db) (f : fleet) : fleet :=
  set_store (TemplateStore.with_render (set_channel_of (RenderDb.channel_of (stored f)) d) (store f)) f.

Definition c2_of (f : fleet) : C2.db :=
  C2.MkDb (dom (devices f)) (device_auth f) (c2_nonce f) (c2_cursors f) (command_queue f)
    (next_seq f) (RenderDb.playlist_binding (stored f)) (operators f).
Definition set_c2 (d : C2.db) (f : fleet) : fleet :=
  MkFleet (labels f) (ingest f) (C2.device_auth d) (C2.c2_nonce d) (C2.cursors d)
    (C2.command_queue d) (C2.next_seq d) (store f) (operators f).

Definition ota_of (f : fleet) : Rollout.tables := LogIngest.ota (ingest f).
Definition set_ota (t : Rollout.tables) (f : fleet) : fleet :=
  set_ingest (LogIngest.set_ota t (ingest f)) f.

(** ** Calls from a handler

    A handler always answers: the error of a call is a value it inspects. *)

Abbreviation MF := (M fleet Empty_set).

Definition call {T E A} (get : fleet → T) (put : T → fleet → fleet) (m : M T E A)
    : MF (result E A) := λ f fs,
  let '(r, t, fs') := m (get f) fs in (Ok r, put t f, fs').

Definition on_c2 {E A} (m : M C2.db E A) : MF (result E A) := call c2_of set_c2 m.
Definition on_render {E A} (m : M RenderDb.db E A) : MF (result E A) := call render_of set_render m.
Definition on_templates {E A} (m : M TemplateStore.db E A) : MF (result E A) :=
  call store set_store m.
Definition on_ota {E A} (m : M Rollout.tables E A) : MF (result E A) := call ota_of set_ota m.
Definition on_fleet {E A} (m : M fleet E A) : MF (result E A) := call id (λ t _, t) m.

(** ** The same views inside a transaction of the whole *)

Definition tx_zoom {S T E A} (get : S → T) (put : T → S → S) (m : M T E A) : M (Tx S) E A := λ t fs,
  let '(r, w, fs') := m (get (tx_work t)) fs in (r, MkTx (tx_committed t) (put w (tx_work t)), fs').

(** ** Reasoning about a handler

    [wpf m f Q]: from [f], under every fault schedule, [m] answers, and [Q]
    holds of the answer and the tables. *)

Definition wpf {A} (m : MF A) (f : fleet) (Q : A → fleet → Prop) : Prop :=
  ∀ fs, ∃ a f' fs', m f fs = (Ok a, f', fs') ∧ Q a f'.

Lemma wpf_ret {A} (a : A) f (Q : A → fleet → Prop) : Q a f → wpf (mret a) f Q.
Proof. intros H fs. by eexists _, _, _. Qed.

Lemma wpf_bind {A B} (m : MF A) (k : A → MF B) f Q :
  wpf m f (λ a f', wpf (k a) f' Q) → wpf (m ≫= k) f Q.
Proof.
  intros H fs. destruct (H fs) as (a & f' & fs' & Hm & Hk).
  destruct (Hk fs') as (b & f2 & fs2 & Hb & HQ). exists b, f2, fs2.
  unfold mbind, M_bind. by rewrite Hm.
Qed.

Lemma wpf_mono {A} (m : MF A) f (P Q : A → fleet → Prop) :
  wpf m f P → (∀ a f', P a f' → Q a f') → wpf m f Q.
Proof. intros H Himp fs. destruct (H fs) as (a & f' & fs' & ? & ?). exists a, f', fs'. auto. Qed.

(** A call does what the component's operation does to its view. *)
Lemma wpf_call {T E A} (get : fleet → T) (put : T → fleet → fleet) (m : M T E A) f Q :
  (∀ fs r t fs', m (get f) fs = (r, t, fs') → Q r (put t f)) → wpf (call get put m) f Q.
Proof.
  intros H fs. unfold call. destruct (m (get f) fs) as [[r t] fs'] eqn:Hm.
  eexists _, _, _. split; [reflexivity|]. by eapply H.
Qed.

(** ** Laws of the views *)

Lemma c2_of_set_c2 d f : C2.devices d = dom (devices f) →
  C2.playlist_binding d = RenderDb.playlist_binding (stored f) → C2.operators d = operators f →
  c2_of (set_c2 d f) = d.
Proof. destruct d. simpl. intros -> -> ->. done. Qed.
Lemma set_c2_c2_of f : set_c2 (c2_of f) f = f.
Proof. by destruct f. Qed.
Lemma set_render_render_of f : set_render (render_of f) f = f.
Proof. by destruct f as [? ? ? ? ? ? ? [? ? ? []] ?]. Qed.
Lemma render_of_set_render d f : RenderDb.channel_of d = Rollout.channel <$> devices f →
  render_of (set_render d f) = d.
Proof. destruct d. simpl. by intros ->. Qed.

End Fleet.
