(* ===== verification/DeviceStore.v ===== *)
(** * The device registry ([internal/devicestore])

    Registration and re-bond, the read models, and the delete that spans every
    component's tables. P-256 point validation is a parameter. *)

From S2P Require Import Prelude GoLib Db C2 Rollout LogIngest RenderDb FaasStore PlaylistStore PlRender TemplateStore Fleet.
Import GoLib Fleet.

Module DeviceStore.

Inductive err := EDb | EForeignKey | ECheck.
#[global] Instance err_eq_dec : EqDecision err.
Proof. solve_decision. Defined.

(** ** Serials and keys *)

Definition serial_char (c : Z) : bool :=
  is_digit c || ((65 <=? c) && (c <=? 90)) || ((97 <=? c) && (c <=? 122)) || (c =? 95) || (c =? 45).
(** [^[A-Za-z0-9_-]{1,31}$] *)
Definition serialRe (s : string) : bool :=
  let b := bytes_of_string s in (1 <=? zlen b) && (zlen b <=? 31) && forallb serial_char b.
Definition ValidSerial (s : string) : bool := negb (bool_decide (s = "*"%string)) && serialRe s.

Definition ValidPubkey (on_curve : bytes → bool) (b : bytes) : bool :=
  if negb (zlen b =? 65) || negb (bool_decide (head b = Some 4)) then false else on_curve b.

(** ** Read models *)

Record Row := MkRow {
  Serial : string; Label : option string; Channel : string; LastSeen : option Z; Bonded : bool }.
Record Detail := MkDetail { d_row : Row; PubkeyPresent : bool }.

Definition bonded (f : fleet) (serial : string) : bool :=
  match device_auth f !! serial with Some a => C2.session_bootstrapped a | None => false end.
Definition pubkey_present (f : fleet) (serial : string) : bool :=
  match device_auth f !! serial with
  | Some a => bool_decide (is_Some (C2.ecdsa_pubkey a)) | None => false end.
Definition row_of (f : fleet) (serial : string) (dv : Rollout.device) : Row :=
  MkRow serial (labels f !! serial) (Rollout.channel dv) (Rollout.last_seen dv) (bonded f serial).

(** ** Registration *)

Inductive action := Created | Rebonded | Updated.
#[global] Instance action_eq_dec : EqDecision action.
Proof. solve_decision. Defined.

(** The registered key: nothing where there is no row, NULL as the empty key. *)
Definition existing_key (serial : string) (f : fleet) : option bytes :=
  (λ a, default [] (C2.ecdsa_pubkey a)) <$> device_auth f !! serial.
Definition action_of (existing : option bytes) (pubkey : bytes) : action :=
  match existing with
  | None => Created
  | Some k => if bool_decide (k = pubkey) then Updated else Rebonded
  end.

(** [INSERT INTO devices ... ON CONFLICT DO UPDATE], COALESCE on the parameters,
    under the foreign key to the channel. *)
Definition upsert_device (now : Z) (serial : string) (label channel : option string) (f : fleet)
    : result err unit * fleet :=
  let t := ota_of f in
  let dv := match devices f !! serial with
            | Some dv => Rollout.MkDevice (default (Rollout.channel dv) channel) (Rollout.mac dv) (Some now)
            | None => Rollout.MkDevice (default "stable"%string channel) None (Some now)
            end in
  if bool_decide (is_Some (Rollout.channels t !! Rollout.channel dv))
  then (Ok tt, set_labels (λ l, match label with Some x => <[serial := x]> l | None => l end)
                 (set_ota (Rollout.set_devices (insert serial dv) t) f))
  else (Err EForeignKey, f).

Definition reset_session (pubkey : bytes) (a : C2.auth_row) : C2.auth_row :=
  C2.AuthRow (Some pubkey) None (C2.session_epoch a + 1) 0 false (C2.digits a) (C2.last_seen_at a).
Definition keep_session (pubkey : bytes) (a : C2.auth_row) : C2.auth_row :=
  C2.AuthRow (Some pubkey) (C2.session_secret a) (C2.session_epoch a) (C2.session_last_counter a)
    (C2.session_bootstrapped a) (C2.digits a) (C2.last_seen_at a).
(** The column defaults; 8 digits since migration 0002. *)
Definition new_auth (pubkey : bytes) : C2.auth_row := C2.AuthRow (Some pubkey) None 0 0 false 8 0.

Definition upsert_auth (serial : string) (pubkey : bytes) (rebond : bool) (f : fleet)
    : result err unit * fleet :=
  if negb (zlen pubkey =? 65) then (Err ECheck, f)
  else (Ok tt, set_device_auth (λ m, <[serial :=
          match m !! serial with
          | None => new_auth pubkey
          | Some a => if rebond then reset_session pubkey a else keep_session pubkey a
          end]> m) f).

(** [COALESCE(MAX(seq),0)] over the whole queue. *)
Definition head_seq (q : list C2.command) : Z := foldr (λ c m, Z.max (C2.seq c) m) 0 q.
(** A column default stands for the NULL poll time. *)
Definition seed_cursor (serial : string) (f : fleet) : fleet :=
  set_c2_cursors (λ m, match m !! serial with
                       | Some _ => m
                       | None => <[serial := C2.MkCursor (head_seq (command_queue f)) 0]> m
                       end) f.

Definition Register (now : Z) (serial : string) (label channel : option string) (pubkey : bytes)
    : M fleet err action :=
  with_tx EDb (
    existing ← tx_query EDb (λ f, Ok (existing_key serial f));
    let act := action_of existing pubkey in
    _ ← tx_stmt EDb (upsert_device now serial label channel);
    _ ← tx_stmt EDb (upsert_auth serial pubkey (bool_decide (act = Rebonded)));
    _ ← tx_exec EDb (seed_cursor serial);
    _ ← commit EDb;
    mret act).

(** ** Reads *)

Section Collation.
Context (text_le : string → string → bool).
Definition row_le (a b : Row) : Prop := text_le (Serial a) (Serial b) = true.
#[global] Instance row_le_dec a b : Decision (row_le a b).
Proof. unfold row_le. apply _. Defined.
Definition List_ : M fleet err (list Row) :=
  query EDb (λ f, Ok (merge_sort row_le
    ((λ kv : string * Rollout.device, row_of f kv.1 kv.2) <$> map_to_list (devices f)))).
End Collation.

Definition Get (serial : string) : M fleet err (option Detail) :=
  query EDb (λ f, Ok ((λ dv, MkDetail (row_of f serial dv) (pubkey_present f serial)) <$>
                        devices f !! serial)).

(** [UPDATE devices SET channel = COALESCE($2, channel), label = COALESCE($3, label)] *)
Definition patch_device (serial : string) (label channel : option string) (f : fleet)
    : result err bool * fleet :=
  match devices f !! serial with
  | None => (Ok false, f)
  | Some dv =>
      let t := ota_of f in
      let dv' := Rollout.MkDevice (default (Rollout.channel dv) channel) (Rollout.mac dv)
                   (Rollout.last_seen dv) in
      if bool_decide (is_Some (Rollout.channels t !! Rollout.channel dv'))
      then (Ok true, set_labels (λ l, match label with Some x => <[serial := x]> l | None => l end)
                       (set_ota (Rollout.set_devices (insert serial dv') t) f))
      else (Err EForeignKey, f)
  end.

Definition Patch (serial : string) (label channel : option string) : M fleet err (option Detail) :=
  matched ← stmt EDb (patch_device serial label channel);
  if negb matched then mret None else Get serial.

(** ** Deletion *)

Definition drop_commands (serial : string) (f : fleet) : fleet :=
  set_queue (List.filter (λ c, negb (bool_decide (C2.target c = serial))) (command_queue f)) f.
Definition drop_targets (serial : string) (f : fleet) : fleet :=
  let t := ota_of f in
  set_ota (Rollout.set_targets
    (List.filter (λ x, negb (bool_decide (Rollout.t_serial x = serial))) (Rollout.rollout_targets t))
    (Rollout.next_id t) t) f.
Definition drop_managed (serial : string) (f : fleet) : fleet :=
  set_render (RenderDb.delete_playlists (λ kv, FaasStore.managed_by serial kv.2) (render_of f)) f.
Definition drop_telemetry (serial : string) (f : fleet) : fleet :=
  let d := ingest f in
  set_ingest (LogIngest.MkDb (LogIngest.ota d)
    (List.filter (λ r, negb (bool_decide (LogIngest.tm_serial r = serial))) (LogIngest.telemetry d))
    (LogIngest.log_cursors d) (LogIngest.fragments d) (LogIngest.logs d)) f.
Definition drop_logs (serial : string) (f : fleet) : fleet :=
  let d := ingest f in
  set_ingest (LogIngest.MkDb (LogIngest.ota d) (LogIngest.telemetry d) (LogIngest.log_cursors d)
    (LogIngest.fragments d)
    (List.filter (λ r, negb (bool_decide (LogIngest.l_serial r = serial))) (LogIngest.logs d))) f.

(** [DELETE FROM devices], with what references the row ON DELETE CASCADE:
    device_auth, c2_nonce, device_c2_cursor, device_log_cursor and
    device_log_fragment. *)
Definition drop_device (serial : string) (f : fleet) : fleet :=
  let d := ingest f in
  let t := LogIngest.ota d in
  MkFleet (delete serial (labels f))
    (LogIngest.MkDb (Rollout.set_devices (delete serial) t) (LogIngest.telemetry d)
       (delete serial (LogIngest.log_cursors d))
       (filter (λ kv, kv.1.1.1 ≠ serial) (LogIngest.fragments d)) (LogIngest.logs d))
    (delete serial (device_auth f)) (delete serial (c2_nonce f)) (delete serial (c2_cursors f))
    (command_queue f) (next_seq f) (store f) (operators f).
Definition delete_device (serial : string) (f : fleet) : result err bool * fleet :=
  match devices f !! serial with
  | None => (Ok false, f)
  | Some _ => (Ok true, drop_device serial f)
  end.

(** The stores' own operations, on the transaction they are handed. *)
Definition in_render {A} (m : M RenderDb.db RenderDb.err A) : M (Tx fleet) err A := λ t fs,
  let '(r, d, fs') := m (render_of (tx_work t)) fs in
  (match r with Ok a => Ok a | Err _ => Err EDb end,
   MkTx (tx_committed t) (set_render d (tx_work t)), fs').

Definition Delete (serial : string) (purgeTimeSeries : bool) : M fleet err bool :=
  with_tx EDb (
    _ ← tx_exec EDb (drop_commands serial);
    _ ← tx_exec EDb (drop_targets serial);
    _ ← in_render (FaasStore.DeleteDeviceBindings serial);
    _ ← in_render (PlRender.UnbindPlaylist serial);
    _ ← tx_exec EDb (drop_managed serial);
    _ ← (if purgeTimeSeries then
           _ ← tx_exec EDb (drop_telemetry serial); tx_exec EDb (drop_logs serial)
         else mret ());
    found ← tx_stmt EDb (delete_device serial);
    if negb found then mret false
    else _ ← commit EDb; mret true).

End DeviceStore.

(** * What a registration and a deletion leave behind

    A re-bond takes the old session out of use, an identical re-registration
    changes no credential, a new device owes no old command, and a deleted
    serial is mentioned nowhere. *)

From S2P Require Import Prelude GoLib Crypto Db Auth C2 Rollout LogIngest RenderDb FaasStore PlaylistStore PlRender TemplateStore Fleet.
Import GoLib Crypto Fleet DeviceStore.

Module DeviceLaws.

(** ** The operations as functions on the tables *)

Definition register_spec (now : Z) (serial : string) (label channel : option string)
    (pubkey : bytes) (f : fleet) : option (fleet * action) :=
  let act := action_of (existing_key serial f) pubkey in
  match upsert_device now serial label channel f with
  | (Err _, _) => None
  | (Ok _, f1) =>
      match upsert_auth serial pubkey (bool_decide (act = Rebonded)) f1 with
      | (Err _, _) => None
      | (Ok _, f2) => Some (seed_cursor serial f2, act)
      end
  end.

Lemma Register_runs now serial label channel pubkey f fs :
  ∃ r f' fs', Register now serial label channel pubkey f fs = (r, f', fs') ∧
    match r with
    | Ok a => register_spec now serial label channel pubkey f = Some (f', a)
    | Err _ => f' = f
    end ∧
    (fs = [] → fs' = [] ∧
     is_ok r = bool_decide (is_Some (register_spec now serial label channel pubkey f))).
Proof.
  apply with_tx_commits.
  eapply commits_bind_Some; [apply (implements_read EDb (existing_key serial))|].
  set (act := action_of _ _). unfold register_spec. fold act.
  destruct (upsert_device now serial label channel f) as [[[]|e] f1] eqn:H1.
  2: { eapply commits_bind_None. by eapply implements_err. }
  eapply commits_bind_Some; [by eapply implements_ok|].
  destruct (upsert_auth serial pubkey _ f1) as [[[]|e] f2] eqn:H2.
  2: { eapply commits_bind_None. by eapply implements_err. }
  eapply commits_bind_Some; [by eapply implements_ok|].
  eapply commits_bind_Some; [apply implements_exec|]. apply commits_end.
Qed.

(** The calls into the stores on the same transaction. *)
Lemma in_render_implements {A} (m : M RenderDb.db RenderDb.err A) w d' a :
  (∀ fs, ∃ r d fs', m (render_of w) fs = (r, d, fs') ∧
     match r with Ok x => d = d' ∧ x = a | Err _ => True end ∧
     (fs = [] → fs' = [] ∧ is_ok r = true)) →
  implements (in_render m) w (Some (set_render d' w, a)).
Proof.
  intros H c fs. unfold in_render. simpl. destruct (H fs) as (r & d & fs' & -> & Hr & Hn).
  eexists _, _, _. split; [reflexivity|]. split; [done|]. split.
  - destruct r; [|done]. by destruct Hr as [-> ->].
  - intros ->. destruct (Hn eq_refl) as [-> Hok]. split; [done|]. by destruct r.
Qed.

Definition unbound_render (serial : string) (d : RenderDb.db) : RenderDb.db :=
  RenderDb.upd_lastgood (filter (λ kv, kv.1.1 ≠ serial))
    (RenderDb.upd_render_binding (delete serial) d).
Definition unbound_playlist (serial : string) (d : RenderDb.db) : RenderDb.db :=
  RenderDb.upd_cursors (delete serial) (RenderDb.upd_playlist_binding (delete serial) d).

Lemma DeleteDeviceBindings_in serial w :
  implements (in_render (FaasStore.DeleteDeviceBindings serial)) w
    (Some (set_render (unbound_render serial (render_of w)) w, ())).
Proof.
  apply in_render_implements. intros fs.
  unfold FaasStore.DeleteDeviceBindings, exec, stmt, mbind, M_bind.
  destruct fs as [|[] [|[] fs]]; simpl; by eexists _, _, _.
Qed.

Lemma UnbindPlaylist_in serial w :
  implements (in_render (PlRender.UnbindPlaylist serial)) w
    (Some (set_render (unbound_playlist serial (render_of w)) w,
           bool_decide (is_Some (RenderDb.playlist_binding (render_of w) !! serial)))).
Proof.
  apply in_render_implements. intros fs.
  unfold PlRender.UnbindPlaylist, exec, stmt, mbind, M_bind, mret, M_ret.
  destruct fs as [|[] [|[] fs]]; simpl; by eexists _, _, _.
Qed.

(** Everything the deletion removes before the device's own row. *)
Definition purged (serial : string) (purge : bool) (f : fleet) : fleet :=
  if purge then drop_logs serial (drop_telemetry serial f) else f.
Definition cleared (serial : string) (purge : bool) (f : fleet) : fleet :=
  let f1 := drop_targets serial (drop_commands serial f) in
  let f2 := set_render (unbound_render serial (render_of f1)) f1 in
  let f3 := set_render (unbound_playlist serial (render_of f2)) f2 in
  purged serial purge (drop_managed serial f3).

Definition delete_spec (serial : string) (purge : bool) (f : fleet) : fleet * bool :=
  match devices f !! serial with
  | None => (f, false)
  | Some _ => (drop_device serial (cleared serial purge f), true)
  end.

Lemma purge_implements serial (purge : bool) w :
  implements (if purge then
      _ ← (tx_exec EDb (drop_telemetry serial) : M (Tx fleet) err ()); tx_exec EDb (drop_logs serial)
    else mret ()) w (Some (purged serial purge w, ())).
Proof.
  destruct purge; [|apply implements_ret].
  apply (implements_bind _ _ w (Some (drop_telemetry serial w, ())) (λ w' _, Some (drop_logs serial w', ()))).
  - apply implements_exec.
  - intros ? ? _. apply implements_exec.
Qed.

(** A body that returns without a commit leaves the tables alone. *)
Lemma commits_abandon {S E A} (a : A) (d w : S) : commits (E:=E) (mret a) d w (Some (d, a)).
Proof. intros fs. by eexists _, _, _. Qed.

Lemma Delete_runs serial purge f fs :
  ∃ r f' fs', Delete serial purge f fs = (r, f', fs') ∧
    match r with Ok b => delete_spec serial purge f = (f', b) | Err _ => f' = f end ∧
    (fs = [] → fs' = [] ∧ is_ok r = true).
Proof.
  assert (H : ∃ r f' fs', Delete serial purge f fs = (r, f', fs') ∧
    match r with Ok b => Some (delete_spec serial purge f) = Some (f', b) | Err _ => f' = f end ∧
    (fs = [] → fs' = [] ∧ is_ok r = bool_decide (is_Some (Some (delete_spec serial purge f))))).
  2: { destruct H as (r & f' & fs' & Hrun & Hr & Hn). exists r, f', fs'. split; [exact Hrun|].
       split; [destruct r; [by injection Hr|done]|].
       intros Hfs. destruct (Hn Hfs) as [-> ->]. split; [done|]. by apply bool_decide_eq_true_2. }
  apply with_tx_commits.
  eapply commits_bind_Some; [apply implements_exec|].
  eapply commits_bind_Some; [apply implements_exec|].
  eapply commits_bind_Some; [apply DeleteDeviceBindings_in|].
  eapply commits_bind_Some; [apply UnbindPlaylist_in|].
  eapply commits_bind_Some; [apply implements_exec|].
  eapply commits_bind_Some; [apply purge_implements|].
  fold (cleared serial purge f). unfold delete_spec.
  assert (Hd : devices (cleared serial purge f) = devices f) by (by destruct purge).
  destruct (devices f !! serial) as [dv|] eqn:Hdv.
  - eapply commits_bind_Some; [apply implements_ok; unfold delete_device; by rewrite Hd, Hdv|].
    apply commits_end.
  - eapply commits_bind_Some; [apply implements_ok; unfold delete_device; by rewrite Hd, Hdv|].
    apply commits_abandon.
Qed.

(** ** A device without a session *)

Lemma no_session_refused now q d fs :
  (∀ a, C2.device_auth d !! (qget q "sn") = Some a → C2.session_secret a = None) →
  ∃ o fs', C2.handleC2 now q d fs = (Ok o, d, fs') ∧ C2.refused o.
Proof.
  intros Hs. destruct (C2.handleC2_run now q d fs) as (o & d' & fs' & Hrun & [[_ Hp]|[-> Hr]]).
  - exfalso. unfold C2.poll_spec in Hp.
    destruct (C2.auth_spec now _ q d) as [d1|] eqn:Ha; [|done].
    apply C2.auth_spec_inv in Ha as (c & otp & a & k & _ & _ & Hrow & Hk & _).
    by rewrite (Hs a Hrow) in Hk.
  - by exists o, fs'.
Qed.

Lemma rekey_needs_key on_curve verify_asn1 now sn req d fs a pk resp d' fs' :
  C2.device_auth d !! sn = Some a → C2.ecdsa_pubkey a = Some pk →
  C2.handleC2Rekey on_curve verify_asn1 now sn req d fs = (Ok resp, d', fs') → d' ≠ d →
  ∃ msg sig, verify_asn1 pk (sha256 msg) sig = true.
Proof.
  intros Ha Hpk Hrun Hne.
  destruct (C2.handleC2Rekey_run on_curve verify_asn1 now sn req d fs)
    as (r & d2 & fs2 & Hrun2 & Hor). rewrite Hrun in Hrun2.
  assert (r = resp ∧ d2 = d') as [-> ->].
  { split; [exact (eq_sym (f_equal (λ x, match x.1.1 with Ok y => y | Err _ => resp end) Hrun2))|].
    exact (eq_sym (f_equal (λ x, x.1.2) Hrun2)). }
  destruct Hor as [(_ & rq & _ & Hs)|[-> _]]; [|done].
  unfold C2.rekey_spec in Hs. rewrite Ha in Hs. cbn [mbind option_bind] in Hs.
  destruct (C2.rekey_ok on_curve verify_asn1 _ _ _ _) as [secret|] eqn:Hok; [|done].
  apply C2.rekey_ok_inv in Hok as (p & nonce & sig & Hp & _ & _ & _ & _ & _ & _ & _ & _ & Hv).
  rewrite Hpk in Hp. injection Hp as <-. by eexists _, _.
Qed.

(** ** Registration *)

Lemma head_seq_max q c : c ∈ q → C2.seq c ≤ head_seq q.
Proof.
  induction q as [|x q IH]; [by intros ?%not_elem_of_nil|].
  intros [->|Hc]%elem_of_cons; simpl; [lia|]. specialize (IH Hc). lia.
Qed.

(** Nothing queued so far is owed to a cursor at the head. *)
Lemma head_owes_nothing serial q : C2.next_command serial (head_seq q) q = None.
Proof.
  apply C2.next_command_None. intros c Hc%head_seq_max. unfold C2.eligible.
  destruct (Z.ltb_spec (head_seq q) (C2.seq c)); [lia|]. apply andb_false_r.
Qed.

Lemma upsert_device_ok now serial label channel f x f1 :
  upsert_device now serial label channel f = (Ok x, f1) →
  ∃ dv, f1 = set_labels (λ l, match label with Some x => <[serial := x]> l | None => l end)
               (set_ota (Rollout.set_devices (insert serial dv) (ota_of f)) f) ∧
    Rollout.channel dv = default (match devices f !! serial with
                                  | Some d => Rollout.channel d | None => "stable"%string end) channel ∧
    is_Some (Rollout.channels (ota_of f) !! Rollout.channel dv).
Proof.
  unfold upsert_device. case_bool_decide as Hc; [|done]. intros [= _ <-].
  eexists. split; [reflexivity|]. split; [by destruct (devices f !! serial)|done].
Qed.

Lemma existing_same serial f pubkey : zlen pubkey = 65 → existing_key serial f = Some pubkey →
  ∃ a, device_auth f !! serial = Some a ∧ C2.ecdsa_pubkey a = Some pubkey.
Proof.
  unfold existing_key. intros Hl. destruct (device_auth f !! serial) as [a|]; [|done].
  simpl. intros [= He]. exists a. split; [done|].
  destruct (C2.ecdsa_pubkey a); simpl in He; by subst.
Qed.

(** What a registration does to the row of the session. *)
Lemma register_auth serial pubkey rebond f x f2 :
  upsert_auth serial pubkey rebond f = (Ok x, f2) → zlen pubkey = 65 ∧
  f2 = set_device_auth (insert serial (match device_auth f !! serial with
         | None => new_auth pubkey
         | Some a => if rebond then reset_session pubkey a else keep_session pubkey a end)) f.
Proof.
  unfold upsert_auth. destruct (Z.eqb_spec (zlen pubkey) 65); [|done]. by intros [= _ <-].
Qed.

Lemma keep_session_same pubkey a : C2.ecdsa_pubkey a = Some pubkey → keep_session pubkey a = a.
Proof. destruct a. simpl. by intros ->. Qed.

(** The tables of every other serial, and the rest of the system. *)
Record elsewhere (serial : string) (f f' : fleet) : Prop := {
  el_rows : ∀ s, s ≠ serial → devices f' !! s = devices f !! s ∧ labels f' !! s = labels f !! s ∧
    device_auth f' !! s = device_auth f !! s ∧ c2_nonce f' !! s = c2_nonce f !! s ∧
    c2_cursors f' !! s = c2_cursors f !! s }.

Lemma register_spec_inv now serial label channel pubkey f f' act :
  register_spec now serial label channel pubkey f = Some (f', act) →
  act = action_of (existing_key serial f) pubkey ∧ zlen pubkey = 65 ∧
  (∃ dv, devices f' = <[serial := dv]> (devices f) ∧
     Rollout.channel dv = default (match devices f !! serial with
                                   | Some d => Rollout.channel d | None => "stable"%string end) channel) ∧
  labels f' = match label with Some x => <[serial := x]> (labels f) | None => labels f end ∧
  device_auth f' = <[serial := match device_auth f !! serial with
     | None => new_auth pubkey
     | Some a => if bool_decide (act = Rebonded) then reset_session pubkey a
                 else keep_session pubkey a end]> (device_auth f) ∧
  c2_cursors f' = match c2_cursors f !! serial with
     | Some _ => c2_cursors f
     | None => <[serial := C2.MkCursor (head_seq (command_queue f)) 0]> (c2_cursors f) end ∧
  command_queue f' = command_queue f ∧ c2_nonce f' = c2_nonce f ∧ store f' = store f.
Proof.
  unfold register_spec. set (a0 := action_of _ _).
  destruct (upsert_device now serial label channel f) as [[[]|e] f1] eqn:H1; [|done].
  destruct (upsert_auth serial pubkey _ f1) as [[[]|e] f2] eqn:H2; [|done]. intros [= <- <-].
  apply register_auth in H2 as [Hlen ->].
  apply upsert_device_ok in H1 as (dv & -> & Hch & _).
  split_and!; try done. by exists dv.
Qed.

(** What a registration does to a device's credentials and to what it is
    owed. A registration either changes nothing or stores the key it was
    given and answers what it found. An identical re-registration leaves the
    session row as it was. A new or changed key leaves the device without a
    session: every poll is refused and changes nothing, and only a re-key whose
    signature verifies under the new key can open one. A new device owes no
    command queued before it; an existing cursor stays where it is. The channel
    and label it did not name, and every other device, are kept. *)
Theorem Register_bonds now serial label channel pubkey f fs :
  ∃ r f' fs', Register now serial label channel pubkey f fs = (r, f', fs') ∧
  match r with
  | Err _ => f' = f
  | Ok act =>
      act = action_of (existing_key serial f) pubkey ∧
      (∃ a', device_auth f' !! serial = Some a' ∧ C2.ecdsa_pubkey a' = Some pubkey ∧
         (act = Updated → device_auth f !! serial = Some a') ∧
         (act ≠ Updated → C2.session_secret a' = None ∧ C2.session_bootstrapped a' = false)) ∧
      (act ≠ Updated →
         (∀ now2 q fs2, (qget q "sn") = serial → ∃ o fs2',
            C2.handleC2 now2 q (c2_of f') fs2 = (Ok o, c2_of f', fs2') ∧ C2.refused o) ∧
         (∀ on_curve verify_asn1 now2 req fs2 resp d2 fs2',
            C2.handleC2Rekey on_curve verify_asn1 now2 serial req (c2_of f') fs2 = (Ok resp, d2, fs2') →
            d2 ≠ c2_of f' → ∃ msg sig, verify_asn1 pubkey (sha256 msg) sig = true)) ∧
      (∃ c', c2_cursors f' !! serial = Some c' ∧
         match c2_cursors f !! serial with
         | Some c => c' = c
         | None => C2.next_command serial (C2.applied_seq c') (command_queue f') = None
         end) ∧
      (∃ dv', devices f' !! serial = Some dv' ∧
         (channel = None → ∀ dv, devices f !! serial = Some dv → Rollout.channel dv' = Rollout.channel dv)) ∧
      (label = None → labels f' = labels f) ∧
      elsewhere serial f f' ∧ command_queue f' = command_queue f ∧ store f' = store f
  end.
Proof.
  destruct (Register_runs now serial label channel pubkey f fs) as (r & f' & fs' & Hrun & Hr & _).
  exists r, f', fs'. split; [done|]. destruct r as [act|]; [|done].
  apply register_spec_inv in Hr as (Hact & Hlen & (dv & Hdev & Hch) & Hlab & Hau & Hcur & Hq & Hn & Hst).
  set (a' := match device_auth f !! serial with None => _ | Some _ => _ end) in Hau.
  assert (Hrow : device_auth f' !! serial = Some a') by (by rewrite Hau, lookup_insert_eq).
  assert (Hkey : C2.ecdsa_pubkey a' = Some pubkey)
    by (unfold a'; destruct (device_auth f !! serial); [by destruct (bool_decide _)|done]).
  assert (Hnew : act ≠ Updated → C2.session_secret a' = None ∧ C2.session_bootstrapped a' = false).
  { unfold a'. intros Hne. destruct (device_auth f !! serial) as [a|] eqn:Ha; [|done].
    rewrite bool_decide_eq_true_2; [done|]. subst act. unfold existing_key in Hne |- *.
    rewrite Ha in Hne |- *. simpl in *. unfold action_of in *. by case_bool_decide. }
  assert (Hold : act = Updated → device_auth f !! serial = Some a').
  { intros Hup. assert (He : existing_key serial f = Some pubkey).
    { subst act. unfold action_of in Hup. destruct (existing_key serial f); [|done].
      case_bool_decide; [by subst|done]. }
    destruct (existing_same serial f pubkey Hlen He) as (a & Ha & Hpk). unfold a'. rewrite Ha.
    rewrite bool_decide_eq_false_2 by (by rewrite Hup). by rewrite keep_session_same. }
  clearbody a'. split_and!; try done; [by exists a'| | | | | ].
  - intros Hne. destruct (Hnew Hne) as [Hsec _]. split.
    + intros now2 q fs2 Hsn. apply no_session_refused. intros a Ha. simpl in Ha.
      rewrite Hsn, Hrow in Ha. by injection Ha as <-.
    + intros on_curve verify_asn1 now2 req fs2 resp d2 fs2' Hrk Hd.
      by eapply (rekey_needs_key on_curve verify_asn1 now2 serial req (c2_of f') fs2 a' pubkey).
  - rewrite Hcur. destruct (c2_cursors f !! serial) as [c|] eqn:Hc; [by exists c|].
    eexists. rewrite lookup_insert_eq. split; [done|]. cbn [C2.applied_seq]. rewrite Hq.
    apply head_owes_nothing.
  - exists dv. rewrite Hdev, lookup_insert_eq. split; [done|]. intros -> dv0 H0. by rewrite Hch, H0.
  - intros ->. exact Hlab.
  - constructor. intros s Hs. rewrite Hdev, Hau, Hn, Hcur, Hlab. split_and!; try done.
    + by rewrite lookup_insert_ne.
    + destruct label; [by rewrite lookup_insert_ne|done].
    + by rewrite lookup_insert_ne.
    + destruct (c2_cursors f !! serial); [done|by rewrite lookup_insert_ne].
Qed.

(** ** Deletion *)

(** No table mentions the serial. *)
Record forgotten (serial : string) (purge : bool) (f : fleet) : Prop := {
  fg_device : devices f !! serial = None;
  fg_label : labels f !! serial = None;
  fg_auth : device_auth f !! serial = None;
  fg_nonce : c2_nonce f !! serial = None;
  fg_cursor : c2_cursors f !! serial = None;
  fg_queue : ∀ c, c ∈ command_queue f → C2.target c ≠ serial;
  fg_target : ∀ x, x ∈ Rollout.rollout_targets (ota_of f) → Rollout.t_serial x ≠ serial;
  fg_render : RenderDb.render_binding (stored f) !! serial = None;
  fg_lastgood : ∀ fn, RenderDb.lastgood (stored f) !! (serial, fn) = None;
  fg_playlist : RenderDb.playlist_binding (stored f) !! serial = None;
  fg_rotation : RenderDb.cursors (stored f) !! serial = None;
  fg_managed : ∀ p r, RenderDb.playlists (stored f) !! p = Some r → RenderDb.pr_managed r ≠ Some serial;
  fg_log_cursor : LogIngest.log_cursors (ingest f) !! serial = None;
  fg_fragment : ∀ epoch e, LogIngest.fragments (ingest f) !! (serial, epoch, e) = None;
  fg_telemetry : purge = true →
    (∀ r, r ∈ LogIngest.telemetry (ingest f) → LogIngest.tm_serial r ≠ serial) ∧
    (∀ r, r ∈ LogIngest.logs (ingest f) → LogIngest.l_serial r ≠ serial) }.

(** A playlist kept for that serial alone. *)
Definition managed_for (serial : string) (f : fleet) (p : Z) : Prop :=
  ∃ r, RenderDb.playlists (stored f) !! p = Some r ∧ RenderDb.pr_managed r = Some serial.

(** The rows of a series that are not the serial's. *)
Definition not_of {A} (p : A → string) (serial : string) (l : list A) : list A := filter (λ x, p x ≠ serial) l.

(** Table by table, what is left: every row that is not the serial's own, in its
    place; the playlists managed for it go with their items and with whatever else
    was bound to them. *)
Record kept (serial : string) (purge : bool) (f f' : fleet) : Prop := {
  kp_devices : devices f' = delete serial (devices f) ∧ labels f' = delete serial (labels f) ∧
    device_auth f' = delete serial (device_auth f);
  kp_c2 : c2_nonce f' = delete serial (c2_nonce f) ∧ c2_cursors f' = delete serial (c2_cursors f) ∧
    command_queue f' = not_of C2.target serial (command_queue f) ∧ next_seq f' = next_seq f ∧ operators f' = operators f;
  kp_ota : Rollout.rollout_targets (ota_of f') = not_of Rollout.t_serial serial (Rollout.rollout_targets (ota_of f)) ∧
    Rollout.firmware_versions (ota_of f') = Rollout.firmware_versions (ota_of f) ∧
    Rollout.channels (ota_of f') = Rollout.channels (ota_of f) ∧
    Rollout.blobs (ota_of f') = Rollout.blobs (ota_of f) ∧ Rollout.next_id (ota_of f') = Rollout.next_id (ota_of f);
  kp_series :
    LogIngest.telemetry (ingest f') =
      (if purge then not_of LogIngest.tm_serial serial (LogIngest.telemetry (ingest f)) else LogIngest.telemetry (ingest f)) ∧
    LogIngest.logs (ingest f') =
      (if purge then not_of LogIngest.l_serial serial (LogIngest.logs (ingest f)) else LogIngest.logs (ingest f));
  kp_upload : LogIngest.log_cursors (ingest f') = delete serial (LogIngest.log_cursors (ingest f)) ∧
    LogIngest.fragments (ingest f') = filter (λ kv, kv.1.1.1 ≠ serial) (LogIngest.fragments (ingest f));
  kp_templates : TemplateStore.templates (store f') = TemplateStore.templates (store f) ∧
    TemplateStore.template_seq (store f') = TemplateStore.template_seq (store f) ∧
    TemplateStore.previews (store f') = TemplateStore.previews (store f);
  kp_functions : RenderDb.functions (stored f') = RenderDb.functions (stored f) ∧
    RenderDb.function_seq (stored f') = RenderDb.function_seq (stored f) ∧
    RenderDb.render_binding (stored f') = delete serial (RenderDb.render_binding (stored f)) ∧
    RenderDb.lastgood (stored f') = filter (λ kv, kv.1.1 ≠ serial) (RenderDb.lastgood (stored f));
  kp_shared : RenderDb.images (stored f') = RenderDb.images (stored f) ∧
    RenderDb.variants (stored f') = RenderDb.variants (stored f) ∧
    RenderDb.secrets (stored f') = RenderDb.secrets (stored f) ∧
    RenderDb.playlist_seq (stored f') = RenderDb.playlist_seq (stored f) ∧
    RenderDb.item_seq (stored f') = RenderDb.item_seq (stored f);
  kp_rotation : RenderDb.cursors (stored f') = delete serial (RenderDb.cursors (stored f));
  kp_playlists : ∀ p r, RenderDb.playlists (stored f') !! p = Some r ↔
    RenderDb.playlists (stored f) !! p = Some r ∧ ¬ managed_for serial f p;
  kp_items : ∀ i r, RenderDb.items (stored f') !! i = Some r ↔
    RenderDb.items (stored f) !! i = Some r ∧ ¬ managed_for serial f (RenderDb.ir_playlist r);
  kp_bindings : ∀ s p, RenderDb.playlist_binding (stored f') !! s = Some p ↔
    RenderDb.playlist_binding (stored f) !! s = Some p ∧ s ≠ serial ∧ ¬ managed_for serial f p }.

Lemma elem_of_filtered {A} (p : A → string) serial (l : list A) x :
  x ∈ List.filter (λ x, negb (bool_decide (p x = serial))) l ↔ p x ≠ serial ∧ x ∈ l.
Proof.
  by rewrite C2.elem_of_filter_bool, negb_true_iff, bool_decide_eq_false.
Qed.

(** Which playlists the cascade takes. *)
Definition taken (serial : string) (d : RenderDb.db) (p : Z) : bool :=
  match RenderDb.playlists d !! p with
  | Some r => FaasStore.managed_by serial r | None => false end.

Lemma taken_managed serial f p : taken serial (stored f) p = true ↔ managed_for serial f p.
Proof.
  unfold taken, managed_for, FaasStore.managed_by.
  destruct (RenderDb.playlists (stored f) !! p) as [r|]; [rewrite bool_decide_eq_true|].
  - split; [intros ?; by exists r|]. intros (q & [= <-] & ?). done.
  - split; [done|]. by intros (q & ? & _).
Qed.

(** The frame side after the deletion. *)
Lemma stored_cleared serial purge f :
  stored (drop_device serial (cleared serial purge f)) =
  RenderDb.delete_playlists (λ kv, FaasStore.managed_by serial kv.2)
    (unbound_playlist serial (unbound_render serial (stored f))).
Proof. destruct purge; by destruct f as [? ? ? ? ? ? ? [? ? ? []] ?]. Qed.

Lemma ingest_cleared serial purge f :
  ingest (drop_device serial (cleared serial purge f)) =
  LogIngest.MkDb
    (Rollout.set_devices (delete serial)
      (let t := ota_of f in Rollout.set_targets
        (List.filter (λ x, negb (bool_decide (Rollout.t_serial x = serial))) (Rollout.rollout_targets t))
        (Rollout.next_id t) t))
    (if purge then List.filter (λ r, negb (bool_decide (LogIngest.tm_serial r = serial)))
                     (LogIngest.telemetry (ingest f))
     else LogIngest.telemetry (ingest f))
    (delete serial (LogIngest.log_cursors (ingest f)))
    (filter (λ kv, kv.1.1.1 ≠ serial) (LogIngest.fragments (ingest f)))
    (if purge then List.filter (λ r, negb (bool_decide (LogIngest.l_serial r = serial)))
                     (LogIngest.logs (ingest f))
     else LogIngest.logs (ingest f)).
Proof. by destruct purge. Qed.

Lemma rest_cleared serial purge f : let f' := drop_device serial (cleared serial purge f) in
  labels f' = delete serial (labels f) ∧ device_auth f' = delete serial (device_auth f) ∧
  c2_nonce f' = delete serial (c2_nonce f) ∧ c2_cursors f' = delete serial (c2_cursors f) ∧
  command_queue f' = List.filter (λ c, negb (bool_decide (C2.target c = serial))) (command_queue f).
Proof. by destruct purge. Qed.

Lemma cleared_forgotten serial purge f :
  forgotten serial purge (drop_device serial (cleared serial purge f)).
Proof.
  destruct (rest_cleared serial purge f) as (Hl & Ha & Hn & Hc & Hq).
  constructor; rewrite ?Hl, ?Ha, ?Hn, ?Hc, ?Hq, ?stored_cleared;
    unfold devices, ota_of; rewrite ?ingest_cleared; simpl.
  - apply lookup_delete_eq.
  - apply lookup_delete_eq.
  - apply lookup_delete_eq.
  - apply lookup_delete_eq.
  - apply lookup_delete_eq.
  - by intros c [? _]%elem_of_filtered.
  - by intros x [? _]%elem_of_filtered.
  - apply lookup_delete_eq.
  - intros fn. apply map_lookup_filter_None. right. intros x _ Hx. by apply Hx.
  - apply map_lookup_filter_None. left. apply lookup_delete_eq.
  - apply lookup_delete_eq.
  - intros p r [Hr Hg]%map_lookup_filter_Some Hm. simpl in Hr, Hg. rewrite Hr in Hg. simpl in Hg.
    unfold FaasStore.managed_by in Hg. by rewrite Hm, bool_decide_eq_true_2 in Hg.
  - apply lookup_delete_eq.
  - intros epoch e. apply map_lookup_filter_None. right. intros x _ Hx. by apply Hx.
  - intros ->. split; by intros r [? _]%elem_of_filtered.
Qed.

Lemma not_of_filter {A} (p : A → string) serial (l : list A) :
  List.filter (λ x, negb (bool_decide (p x = serial))) l = not_of p serial l.
Proof.
  unfold not_of. induction l as [|x l IH]; [done|]. cbn [List.filter]. rewrite IH.
  rewrite filter_cons. by repeat case_decide || case_bool_decide.
Qed.
Lemma not_taken serial f p : taken serial (stored f) p = false ↔ ¬ managed_for serial f p.
Proof. rewrite <-taken_managed. by destruct (taken _ _ _). Qed.

Lemma cleared_kept serial purge f :
  kept serial purge f (drop_device serial (cleared serial purge f)).
Proof.
  destruct (rest_cleared serial purge f) as (Hl & Ha & Hn & Hc & Hq).
  assert (Hpl : ∀ p, match RenderDb.playlists (stored f) !! p with
    | Some r => FaasStore.managed_by serial r | None => false end = false ↔ ¬ managed_for serial f p)
    by (intros p; apply not_taken).
  constructor; rewrite ?Hl, ?Ha, ?Hn, ?Hc, ?Hq, ?stored_cleared; unfold devices, ota_of;
    rewrite ?ingest_cleared; simpl; rewrite ?not_of_filter.
  - done.
  - by destruct purge.
  - done.
  - by destruct purge; rewrite ?not_of_filter.
  - done.
  - by destruct purge.
  - done.
  - done.
  - done.
  - intros p r. by rewrite map_lookup_filter_Some, <-Hpl.
  - intros i r. by rewrite map_lookup_filter_Some, <-Hpl.
  - intros s p. rewrite map_lookup_filter_Some, lookup_delete_Some, <-Hpl. naive_solver.
Qed.

(** C21. Deleting a device deletes all of it and nothing else. Under any fault
    the deletion answers an error and changes nothing, finds no such device
    and changes nothing, or leaves no row in any table that mentions the serial
    (its telemetry and log lines too, when the purge is on); every other row of
    every table is as it was and where it was, the one exception being the
    playlists managed for the serial, which go with their items and with any
    other device's binding to them. A device
    registered under the serial afterwards has a new key, no session, no
    binding, and owes none of the commands queued before. *)
Theorem Delete_forgets serial purge f fs :
  ∃ r f' fs', Delete serial purge f fs = (r, f', fs') ∧
  match r with
  | Err _ => f' = f
  | Ok false => f' = f ∧ devices f !! serial = None
  | Ok true => is_Some (devices f !! serial) ∧ forgotten serial purge f' ∧ kept serial purge f f' ∧
      ∀ now label channel pubkey fs2 act f2 fs2',
        Register now serial label channel pubkey f' fs2 = (Ok act, f2, fs2') →
        act = Created ∧ device_auth f2 !! serial = Some (new_auth pubkey) ∧
        (∃ c, c2_cursors f2 !! serial = Some c ∧
           C2.next_command serial (C2.applied_seq c) (command_queue f2) = None) ∧
        RenderDb.render_binding (stored f2) !! serial = None ∧
        RenderDb.playlist_binding (stored f2) !! serial = None
  end.
Proof.
  destruct (Delete_runs serial purge f fs) as (r & f' & fs' & Hrun & Hr & _).
  exists r, f', fs'. split; [done|]. destruct r as [b|]; [|done]. unfold delete_spec in Hr.
  destruct (devices f !! serial) as [dv|]; injection Hr as <- <-; [|done].
  split; [by eexists|]. pose proof (cleared_forgotten serial purge f) as Hf.
  split; [done|]. split; [apply cleared_kept|].
  set (f' := drop_device _ _) in *. clearbody f'. destruct Hf.
  intros now label channel pubkey fs2 act f2 fs2' Hreg.
  destruct (Register_runs now serial label channel pubkey f' fs2) as (r & f3 & fs3 & Hrun3 & Hr3 & _).
  rewrite Hreg in Hrun3. injection Hrun3 as <- <- <-.
  apply register_spec_inv in Hr3 as (Hact & _ & _ & _ & Hau & Hcur & Hq & _ & Hst).
  unfold existing_key in Hact. rewrite fg_auth0 in Hact, Hau. rewrite fg_cursor0 in Hcur.
  split; [done|]. rewrite Hau, lookup_insert_eq. split; [done|]. split.
  - eexists. rewrite Hcur, lookup_insert_eq. split; [done|]. rewrite Hq. apply head_owes_nothing.
  - unfold stored in *. by rewrite Hst.
Qed.

End DeviceLaws.
