(* ===== verification/DeviceHttp.v ===== *)
(** * The device and command routes ([cmd/backend/devices.go], [commands.go],
    [berry_http.go]; [internal/commandstore/feedback.go])

    The handlers behind the gates of the admin surface. A request's decoded JSON
    body is an argument, [None] where it does not decode or is too long. *)

From S2P Require Import Prelude GoLib Db C2 Rollout LogIngest RenderDb FaasStore TemplateStore Fleet DeviceStore Credentials RateLimit AdminGate.
Import GoLib Fleet.
Import AdminGate(request, ctx, reply, json, JNull, JBool, JNum, JStr, JTime, JList, JObj, WriteOK, WriteErr, c_operator, c_principal, rStatus).

Module DeviceHttp.

Definition fail (r : request) (status : Z) (code msg : string) : MF reply :=
  mret (WriteErr r [] status code msg).
Definition opt_str (s : option string) : json := match s with Some s => JStr s | None => JNull end.
Definition opt_time (t : option Z) : json := match t with Some t => JTime t | None => JNull end.

(** [op, _ := adminhttp.Operator(ctx)]: the zero result where there is none. *)
Definition op_KeyID (c : ctx) : Z :=
  match c_operator c with Some op => Credentials.KeyID op | None => 0 end.

(** The device tables count seconds. *)
Definition seconds (r : request) : Z := AdminGate.Now r / 1000000000.

(** ** Devices *)

Definition row_fields (d : DeviceStore.Row) : list (string * json) :=
  [("serial", JStr (DeviceStore.Serial d)); ("label", opt_str (DeviceStore.Label d));
   ("channel", JStr (DeviceStore.Channel d)); ("last_seen", opt_time (DeviceStore.LastSeen d));
   ("bonded", JBool (DeviceStore.Bonded d))]%string.
Definition detail_json (d : DeviceStore.Detail) : json :=
  JObj (row_fields (DeviceStore.d_row d) ++ [("pubkey_present"%string, JBool (DeviceStore.PubkeyPresent d))]).
Definition action_string (a : DeviceStore.action) : string :=
  match a with
  | DeviceStore.Created => "created" | DeviceStore.Rebonded => "rebonded"
  | DeviceStore.Updated => "updated"
  end.

Record register_body := MkRegister {
  rb_serial : string; rb_label : option string; rb_channel : option string; rb_pubkey : string }.

Section Handlers.
Context (text_le : string → string → bool).
(** [elliptic.Unmarshal] accepts the point; [ADMIN_DELETE_PURGES_TELEMETRY]. *)
Context (on_curve : bytes → bool) (purgeTelemetry : bool).

Definition list_devices (r : request) : MF reply :=
  rows ← on_fleet (DeviceStore.List_ text_le);
  match rows with
  | Err _ => fail r 500 "internal" "device list failed"
  | Ok rows => mret (WriteOK r [] [("devices"%string, JList ((λ d, JObj (row_fields d)) <$> rows))])
  end.

Definition get_device (r : request) (serial : string) : MF reply :=
  d ← on_fleet (DeviceStore.Get serial);
  match d with
  | Err _ => fail r 500 "internal" "device lookup failed"
  | Ok None => fail r 404 "not_found" "no such device"
  | Ok (Some d) => mret (WriteOK r [] [("device"%string, detail_json d)])
  end.

Definition register_device (r : request) (body : option register_body) : MF reply :=
  match body with
  | None => fail r 400 "bad_request" "malformed JSON body"
  | Some b =>
      if negb (DeviceStore.ValidSerial (rb_serial b))
      then fail r 422 "invalid_serial" "serial must match ^[A-Za-z0-9_-]{1,31}$ and not be '*'"
      else
        let bad := fail r 422 "invalid_pubkey"
          "ecdsa_pubkey must be a base64-encoded 65-byte uncompressed P-256 point (0x04||X||Y)" in
        match AdminGate.std_padded_decode (bytes_of_string (rb_pubkey b)) with
        | None => bad
        | Some pubkey =>
            if negb (DeviceStore.ValidPubkey on_curve pubkey) then bad
            else
              a ← on_fleet (DeviceStore.Register (seconds r) (rb_serial b) (rb_label b)
                              (rb_channel b) pubkey);
              match a with
              | Err DeviceStore.EForeignKey => fail r 422 "unknown_channel" "channel does not exist"
              | Err _ => fail r 500 "internal" "register failed"
              | Ok a => mret (WriteOK r [] [("serial", JStr (rb_serial b));
                                            ("action", JStr (action_string a))]%string)
              end
        end
  end.

Definition patch_device (r : request) (serial : string) (body : option (option string * option string))
    : MF reply :=
  match body with
  | None => fail r 400 "bad_request" "malformed JSON body"
  | Some (None, None) => fail r 422 "nothing_to_update" "provide label and/or channel"
  | Some (label, channel) =>
      d ← on_fleet (DeviceStore.Patch serial label channel);
      match d with
      | Err DeviceStore.EForeignKey => fail r 422 "unknown_channel" "channel does not exist"
      | Err _ => fail r 500 "internal" "patch failed"
      | Ok None => fail r 404 "not_found" "no such device"
      | Ok (Some d) => mret (WriteOK r [] [("device"%string, detail_json d)])
      end
  end.

Definition delete_device (r : request) (serial : string) : MF reply :=
  found ← on_fleet (DeviceStore.Delete serial purgeTelemetry);
  match found with
  | Err _ => fail r 500 "internal" "delete failed"
  | Ok false => fail r 404 "not_found" "no such device"
  | Ok true => mret (WriteOK r [] [("serial", JStr serial); ("deleted", JBool true)]%string)
  end.
End Handlers.

(** ** Commands *)

Record command_body := MkCommandBody {
  cb_serial : string; cb_script : string; cb_note : option string; cb_key : option string }.

Definition enqueue_failed (r : request) (e : C2.enqueue_err) : MF reply :=
  match e with
  | C2.ErrScriptEmpty => fail r 422 "invalid_script" "script is empty"
  | C2.ErrScriptTooLong => fail r 422 "invalid_script" "script exceeds the 8191-byte cap"
  | C2.ErrUnknownSerial => fail r 422 "unknown_serial" "target serial is not a registered device"
  | C2.ErrDb _ => fail r 500 "internal" "enqueue failed"
  end.

Definition enqueue (r : request) (c : ctx) (path_serial : string) (body : option command_body)
    : MF reply :=
  match body with
  | None => fail r 400 "bad_request" "malformed JSON body"
  | Some b =>
      let serial := if bool_decide (path_serial = ""%string) then cb_serial b else path_serial in
      if negb (bool_decide (serial = "*"%string)) && negb (DeviceStore.ValidSerial serial)
      then fail r 422 "invalid_serial" "serial must be a valid device serial or '*'"
      else
        seq ← on_c2 (C2.Enqueue (seconds r) serial (cb_script b) (cb_note b) (op_KeyID c) (cb_key b));
        match seq with
        | Err e => enqueue_failed r e
        | Ok seq => mret (WriteOK r [] [("seq", JNum seq); ("serial", JStr serial)]%string)
        end
  end.

(** ** The editor's view of recent commands *)

Record RecentCommand := MkRecent {
  rc_seq : Z; rc_serial : string; rc_note : option string; rc_at : Z; rc_op : option Z;
  TargetCount : Z; AppliedCount : Z }.

Definition count {A} (p : A → bool) (l : list A) : Z := zlen (List.filter p l).
Definition recent_of (d : C2.db) (c : C2.command) : RecentCommand :=
  let curs := map_to_list (C2.cursors d) in
  let reached (kv : string * C2.cursor) := C2.seq c <=? C2.applied_seq kv.2 in
  let fleet_wide := bool_decide (C2.target c = "*"%string) in
  MkRecent (C2.seq c) (C2.target c) (C2.note c) (C2.created_at c) (C2.operator_key_id c)
    (if fleet_wide then Z.of_nat (size (C2.devices d)) else 1)
    (if fleet_wide then count reached curs
     else count (λ kv, bool_decide (kv.1 = C2.target c) && reached kv) curs).

Definition newer (a b : C2.command) : Prop := C2.seq b ≤ C2.seq a.
#[global] Instance newer_dec a b : Decision (newer a b).
Proof. unfold newer. apply _. Defined.

(** A command's own clock and the window are seconds. *)
Definition RecentCommands (now window limit : Z) : M C2.db db_err (list RecentCommand) :=
  query EDb (λ d, Ok (recent_of d <$> take (Z.to_nat limit) (merge_sort newer
    (List.filter (λ c, now - window <=? C2.created_at c) (C2.command_queue d))))).

Definition recent_json (c : RecentCommand) : json :=
  JObj [("seq", JNum (rc_seq c)); ("serial", JStr (rc_serial c)); ("note", opt_str (rc_note c));
        ("created_at", JTime (rc_at c));
        ("operator_key_id", match rc_op c with Some k => JNum k | None => JNull end);
        ("target_count", JNum (TargetCount c)); ("applied_count", JNum (AppliedCount c))]%string.

Definition recent (window limit : Z) (r : request) : MF reply :=
  cmds ← on_c2 (RecentCommands (seconds r) window limit);
  match cmds with
  | Err _ => fail r 500 "internal" "recent commands query failed"
  | Ok cmds => mret (WriteOK r [] [("commands"%string, JList (recent_json <$> cmds))])
  end.

(** ** Whom a command is attributed to *)

(** The insert of a command no operator key stands behind. *)
Lemma attributed_unknown op ins d : C2.op_known op d = false →
  C2.command_queue (ins d).2 = C2.command_queue d ∨ is_ok (ins d).1 = true →
  (is_ok (C2.attributed op ins d).1 = false) ∧
  C2.command_queue (C2.attributed op ins d).2 = C2.command_queue d.
Proof.
  intros Hop. unfold C2.attributed. destruct (ins d) as [[n|e] d']; simpl; [by rewrite Hop|].
  by intros [?|?].
Qed.

Lemma stmt_runs {S E A} (e : E) (f : S → result E A * S) s fs : ∃ r s' fs',
  stmt e f s fs = (r, s', fs') ∧ ((r = Err e ∧ s' = s) ∨ (r, s') = f s).
Proof.
  unfold stmt. destruct fs as [|[] fs]; destruct (f s) as [r s'] eqn:Hf; eexists _, _, _;
    (split; [reflexivity|]); auto.
Qed.

(** The three inserts of [Enqueue], without an operator to attribute to. *)
Lemma Enqueue_unattributed now serial script note op key d fs : op ∉ C2.operators d →
  ∃ r d' fs', C2.Enqueue now serial script note op key d fs = (r, d', fs') ∧
    C2.command_queue d' = C2.command_queue d ∧
    (∀ n, r = Ok n → ∃ k, key = Some k ∧ k ≠ ""%string ∧
       existsb (C2.pending_key serial k) (C2.command_queue d) = true).
Proof.
  intros Hop. assert (Hk : C2.op_known (Some op) d = false) by (by apply bool_decide_eq_false).
  assert (Hplain : ∀ fs, ∃ r d' fs',
    C2.lift_db (stmt EDb (C2.attributed (Some op)
      (C2.insert_plain now serial script note (Some op)))) d fs = (r, d', fs') ∧
    C2.command_queue d' = C2.command_queue d ∧ is_ok r = false).
  { intros fs1. unfold C2.lift_db.
    destruct (stmt_runs EDb (C2.attributed (Some op) (C2.insert_plain now serial script note (Some op))) d fs1)
      as (r & d' & fs' & -> & [[-> ->]|He]); [by eexists _, _, _|].
    destruct (attributed_unknown (Some op) (C2.insert_plain now serial script note (Some op)) d Hk)
      as [Hr Hq]; [by right|]. rewrite <-He in Hr, Hq. simpl in Hr, Hq.
    destruct r; [done|]. by eexists _, _, _. }
  unfold C2.Enqueue. case_bool_decide; [by eexists _, _, _|].
  destruct (_ <? _); [by eexists _, _, _|].
  unfold mbind at 1, M_bind at 1.
  destruct (C2.known_serial_run serial d fs) as (rb & fs1 & ->).
  destruct rb as [[]|]; cbn [negb]; [|by eexists _, _, _..].
  destruct key as [k|].
  2: { destruct (Hplain fs1) as (r & d' & fs' & -> & Hq & Hr). eexists _, _, _.
       split; [reflexivity|]. split; [done|]. by intros n ->. }
  case_bool_decide as Hke.
  { destruct (Hplain fs1) as (r & d' & fs' & -> & Hq & Hr). eexists _, _, _.
    split; [reflexivity|]. split; [done|]. by intros n ->. }
  unfold attempt, C2.lift_db, mbind at 1, M_bind at 1.
  destruct (stmt_runs EDb (C2.attributed (Some op) (C2.insert_keyed now serial script note (Some op) k)) d fs1)
    as (r & d' & fs' & -> & [[-> ->]|He]); [by eexists _, _, _|].
  destruct (attributed_unknown (Some op) (C2.insert_keyed now serial script note (Some op) k) d Hk)
    as [Hr Hq]; [unfold C2.insert_keyed; by destruct (existsb _ _); [left|right]|].
  rewrite <-He in Hr, Hq. simpl in Hr, Hq. destruct r as [|e]; [done|].
  assert (Hex : e = ENoRows → existsb (C2.pending_key serial k) (C2.command_queue d) = true).
  { intros ->. unfold C2.attributed, C2.insert_keyed in He. rewrite Hk in He.
    by destruct (existsb _ _). }
  destruct e; [by eexists _, _, _| |by eexists _, _, _].
  unfold query. destruct (stmt_runs EDb (λ s, (C2.select_pending serial k s, s)) d' fs')
    as (r & d2 & fs2 & -> & [[-> ->]|He2]); [by eexists _, _, _|].
  injection He2 as -> ->. eexists _, _, _. split; [reflexivity|]. split; [done|].
  intros n _. exists k. by split_and!; [..|apply Hex].
Qed.

(** A command can be queued by an operator key only. A principal of any other
    carrier (a browser session, Basic, a machine token) has no operator id, and
    the queue's attribution must reference one: whatever an admin sends that
    way, under any fault, no command is queued, and the answer is an error
    unless an identical keyed command is already pending. *)
Theorem enqueue_needs_operator_key r c path_serial body f fs
    (Hop : c_operator c = None) (Hids : ∀ k, k ∈ operators f → 0 < k) :
  ∃ rep f' fs', enqueue r c path_serial body f fs = (Ok rep, f', fs') ∧
    command_queue f' = command_queue f ∧
    (rStatus rep ∈ [400; 422; 500] ∨
     ∃ b k s, body = Some b ∧ cb_key b = Some k ∧
       existsb (C2.pending_key s k) (command_queue f) = true).
Proof.
  unfold enqueue, fail. destruct body as [b|]; [|eexists _, _, _; split; [reflexivity|];
    split; [done|left; cbn; set_solver]].
  set (serial := if bool_decide _ then _ else _). clearbody serial.
  destruct (_ && _); [eexists _, _, _; split; [reflexivity|]; split; [done|left; cbn; set_solver]|].
  assert (Hk : op_KeyID c = 0) by (unfold op_KeyID; by rewrite Hop). rewrite Hk.
  unfold on_c2, call, mbind at 1, M_bind at 1.
  destruct (Enqueue_unattributed (seconds r) serial (cb_script b) (cb_note b) 0 (cb_key b) (c2_of f) fs)
    as (res & d' & fs' & -> & Hq & Hok); [intros Hi; simpl in Hi; apply Hids in Hi; lia|].
  destruct res as [n|e].
  - eexists _, _, _. split; [reflexivity|]. split; [done|]. right.
    destruct (Hok n eq_refl) as (k & ? & _ & ?). by exists b, k, serial.
  - destruct e; eexists _, _, _; (split; [reflexivity|]); (split; [done|left; cbn; set_solver]).
Qed.

(** ** Samples *)

Definition ex_request : request :=
  AdminGate.MkRequest "POST" "" (Some "s"%string) "picpak" "" "10.0.0.1:5" None "" 5000000000.
Definition ex_ctx : ctx :=
  AdminGate.MkCtx (Some (AdminGate.MkPrincipal AdminGate.KindSession "1" "ada"
    AdminGate.implicitFullScopes true)) None.
Definition ex_fleet : fleet :=
  MkFleet ∅ (LogIngest.MkDb (Rollout.MkTables ∅ {["stable"%string := None]} [] 1
      {["p1"%string := Rollout.MkDevice "stable" None None]} ∅) [] ∅ ∅ [])
    ∅ ∅ ∅ [] 1 (TemplateStore.MkDb ∅ 1 ∅ RenderDb.empty_db) {[1]}.
Definition ex_command : command_body := MkCommandBody "p1" "led()" None None.

Lemma enqueue_needs_operator_key_witness : ∃ rep f',
  enqueue ex_request ex_ctx "" (Some ex_command) ex_fleet [] = (Ok rep, f', []) ∧
  command_queue f' = [] ∧ rStatus rep = 500.
Proof.
  destruct (enqueue_needs_operator_key ex_request ex_ctx "" (Some ex_command) ex_fleet [] eq_refl)
    as (rep & f' & fs' & Hrun & Hq & _).
  { intros k Hk. change (k ∈ ({[1]} : gset Z)) in Hk. apply elem_of_singleton in Hk as ->. done. }
  assert (H : (λ x, (match x.1.1 with Ok rep => rStatus rep | Err _ => 0 end, x.2))
    (enqueue ex_request ex_ctx "" (Some ex_command) ex_fleet []) = (500, [])) by (vm_compute; reflexivity).
  rewrite Hrun in H. exists rep, f'. injection H as Hs Hf. simpl in Hs, Hf. subst fs'. by split_and!.
Defined.

End DeviceHttp.
