(* ===== verification/TemplateHttp.v ===== *)
(** * The template routes ([cmd/backend/template_http.go], [template_apply_http.go],
    [template_preview_http.go])

    The CRUD handlers with the immutability of prefabs, the application of a
    template to devices (a command per target or a new function) and the
    preview cache. The canonical JSON of the parameters and the preview's
    renderer are parameters. *)

From S2P Require Import Prelude GoLib Crypto Db C2 Rollout LogIngest RenderDb FaasStore TemplateStore TemplateSubst Fleet DeviceStore RateLimit AdminGate DeviceHttp.
Import GoLib Crypto Fleet DeviceHttp.
Import AdminGate(request, ctx, reply, json, JNull, JBool, JNum, JStr, JTime, JList, JObj, WriteOK, WriteErr, c_operator, c_principal, rStatus, Reply).
Import TemplateStore(Template, MkTemplate, ID, row, body, b_source).

Module TemplateHttp.

(** ** Reads and the CRUD *)

Definition templateID (path_id : string) : option Z :=
  match parse_int path_id 64 with
  | (id, None) => if id <=? 0 then None else Some id
  | _ => None
  end.
Definition bad_id (r : request) : MF reply :=
  fail r 422 "invalid_id" "template id must be a positive integer".
Definition no_template (r : request) : MF reply := fail r 404 "not_found" "no such template".
Definition load_failed (r : request) : MF reply := fail r 500 "internal" "template load failed".
Definition malformed (r : request) : MF reply := fail r 400 "bad_request" "malformed JSON body".

Definition summary_fields (s : TemplateStore.Summary) : list (string * json) :=
  [("id", JNum (TemplateStore.s_id s)); ("name", JStr (TemplateStore.s_name s));
   ("kind", JStr (TemplateStore.s_kind s)); ("builtin", JBool (TemplateStore.s_builtin s));
   ("version", JNum (TemplateStore.s_version s))]%string.
Definition source_field (s : TemplateStore.SummaryWithSource) : list (string * json) :=
  if bool_decide (TemplateStore.s_source s = ""%string) then []
  else [("source"%string, JStr (TemplateStore.s_source s))].

Definition previewSourceListMax : Z := 50.

(** A parameter that does not parse counts as what ParseInt returns beside the error. *)
Definition list_templates (r : request) (q : query_params) : MF reply :=
  let kind := qget q "kind" in
  let after := (parse_int (qget q "after") 64).1 in
  let limit := (parse_int (qget q "limit") 64).1 in
  let failed := fail r 500 "internal" "template list failed" in
  if bool_decide (qget q "include" = "source"%string) then
    let limit := if (limit <=? 0) || (previewSourceListMax <? limit) then previewSourceListMax else limit in
    sums ← on_templates (TemplateStore.ListWithSource kind limit after);
    match sums with
    | Err _ => failed
    | Ok sums => mret (WriteOK r [] [("templates"%string,
        JList ((λ s, JObj (summary_fields (TemplateStore.s_summary s) ++ source_field s)) <$> sums))])
    end
  else
    sums ← on_templates (TemplateStore.List_ kind limit after);
    match sums with
    | Err _ => failed
    | Ok sums => mret (WriteOK r [] [("templates"%string, JList ((λ s, JObj (summary_fields s)) <$> sums))])
    end.

(** The fields a template is recognised by; the full row rides along. *)
Definition template_fields (t : Template) : list (string * json) :=
  [("id", JNum (ID t)); ("name", JStr (TemplateStore.t_name (row t)));
   ("kind", JStr (TemplateStore.t_kind (row t))); ("source", JStr (TemplateStore.t_source (row t)));
   ("egress_allow", JList (JStr <$> TemplateStore.t_egress (row t)));
   ("secret_bindings", JList (JStr <$> TemplateStore.t_secrets (row t)));
   ("builtin", JBool (TemplateStore.t_builtin (row t)));
   ("version", JNum (TemplateStore.t_version (row t)))]%string.

Definition get_template (r : request) (path_id : string) : MF reply :=
  match templateID path_id with
  | None => bad_id r
  | Some id =>
      t ← on_templates (TemplateStore.Load id);
      match t with
      | Err TemplateStore.ErrNotFound => no_template r
      | Err _ => load_failed r
      | Ok t => mret (WriteOK r [] [("template"%string, JObj (template_fields t))])
      end
  end.

Definition create_failed (r : request) (e : TemplateStore.err) : MF reply :=
  match e with
  | TemplateStore.ErrInvalidName => fail r 422 "invalid_name"
      "name must match ^[a-z0-9][a-z0-9._-]{0,127}$ and not use the reserved 'builtin/' namespace"
  | TemplateStore.ErrInvalidKind => fail r 422 "invalid_kind"
      "kind must be render_fn|berry_snippet|playlist_preset"
  | TemplateStore.ErrScriptTooLong => fail r 422 "berry_too_long"
      "berry_snippet source exceeds the 8191-byte cap"
  | TemplateStore.EUnique => fail r 409 "duplicate_name" "a template with that name already exists"
  | _ => fail r 500 "internal" "template create failed"
  end.

Definition create_template (r : request) (b : option (string * string * body)) : MF reply :=
  match b with
  | None => malformed r
  | Some (name, kind, b) =>
      if bool_decide (b_source b = ""%string) then fail r 422 "missing_source" "source is required"
      else
        id ← on_templates (TemplateStore.Create name kind b);
        match id with
        | Err e => create_failed r e
        | Ok id => mret (WriteOK r [] [("id", JNum id); ("name", JStr name); ("kind", JStr kind);
                                       ("builtin", JBool false)]%string)
        end
  end.

(** The row a mutation may touch, or the answer that refuses it. *)
Definition loadMutable (r : request) (id : Z) : MF (result reply Template) :=
  t ← on_templates (TemplateStore.Load id);
  match t with
  | Err TemplateStore.ErrNotFound => rep ← no_template r; mret (Err rep)
  | Err _ => rep ← load_failed r; mret (Err rep)
  | Ok t =>
      if TemplateStore.t_builtin (row t) then
        rep ← fail r 409 "builtin_immutable"
          "builtin templates are immutable — duplicate to an operator template to edit";
        mret (Err rep)
      else mret (Ok t)
  end.

Definition update_template (r : request) (path_id : string) (b : option body) : MF reply :=
  match templateID path_id with
  | None => bad_id r
  | Some id =>
      t ← loadMutable r id;
      match t, b with
      | Err rep, _ => mret rep
      | Ok _, None => malformed r
      | Ok t, Some b =>
          if bool_decide (b_source b = ""%string) then fail r 422 "missing_source" "source is required"
          else
            found ← on_templates (TemplateStore.Update id b);
            match found with
            | Err TemplateStore.ErrScriptTooLong =>
                fail r 422 "berry_too_long" "berry_snippet source exceeds the 8191-byte cap"
            | Err _ => fail r 500 "internal" "template update failed"
            | Ok false => no_template r
            | Ok true => mret (WriteOK r [] [("id", JNum id); ("updated", JBool true);
                           ("version", JNum (TemplateStore.t_version (row t) + 1))]%string)
            end
      end
  end.

Definition delete_template (r : request) (path_id : string) : MF reply :=
  match templateID path_id with
  | None => bad_id r
  | Some id =>
      t ← loadMutable r id;
      match t with
      | Err rep => mret rep
      | Ok _ =>
          found ← on_templates (TemplateStore.Delete id);
          match found with
          | Err _ => fail r 500 "internal" "template delete failed"
          | Ok false => no_template r
          | Ok true => mret (WriteOK r [] [("id", JNum id); ("deleted", JBool true)]%string)
          end
      end
  end.

(** ** Applying a template *)

(** [Params]: the decoded object, [None] where it is not one or holds a number
    no float64 holds. *)
Record applyBody := MkApply {
  FnName : string; Params : option (gmap string RenderDb.json); TargetSerials : list string;
  Bind : bool; Enable : bool; IdempotencyKey : option string }.

(** [faasstore.Create] with its provenance: the foreign key to templates is
    checked at the end of the statement. *)
Definition insert_from_template (r : RenderDb.function_row) (f : fleet) : result RenderDb.err Z * fleet :=
  let '(x, d') := FaasStore.insert_function r (render_of f) in
  match x with
  | Err e => (Err e, f)
  | Ok id =>
      if match RenderDb.fr_template r with
         | Some t => bool_decide (is_Some (TemplateStore.templates (store f) !! t)) | None => true end
      then (Ok id, set_render d' f) else (Err RenderDb.EForeignKey, f)
  end.
Definition CreateFunction (p : FaasStore.CreateParams) : M fleet RenderDb.err Z :=
  stmt RenderDb.EDb (insert_from_template (RenderDb.MkFunctionRow (FaasStore.cp_name p)
    (FaasStore.cp_source p) 1 (FaasStore.triggerOrDefault (FaasStore.cp_trigger p))
    (FaasStore.coalesceJSON (FaasStore.cp_config p)) (FaasStore.cp_secrets p) (FaasStore.cp_egress p)
    (FaasStore.cp_token p) false (FaasStore.cp_template p))).

Definition dquote : string := string_of_bytes [34].

Section Apply.
Context (url_Parse : string → option (string * string)).
Context (fmt_float : string → option string) (ParseFloat : bytes → bool).
Context (range : list (string * RenderDb.json) → list (string * RenderDb.json)).
(** [json.Marshal] of the pairs. *)
Context (canon : list (string * RenderDb.json) → bytes).

Definition name_le (a b : string * RenderDb.json) : Prop := String.leb a.1 b.1 = true.
#[local] Instance name_le_dec a b : Decision (name_le a b).
Proof. unfold name_le. apply _. Defined.
Definition sortedParams (params : gmap string RenderDb.json) : list (string * RenderDb.json) :=
  merge_sort name_le (map_to_list params).

Definition deriveIdempotencyKey (id : Z) (params : gmap string RenderDb.json) : string :=
  ("tmpl:" +:+ format_int id +:+ ":" +:+
   string_of_bytes (hex_encode (take 8 (sha256 (canon (sortedParams params))))))%string.

Definition trim_builtin (name : bytes) : bytes :=
  let p := bytes_of_string TemplateStore.builtinPrefix in
  if has_prefix p name then drop (length p) name else name.
Definition deriveFnName (templateName : string) (params : gmap string RenderDb.json) : string :=
  let hash := hex_encode (take 4 (sha256 (canon (sortedParams params)))) in
  let base := take (128 - 1 - length hash) (trim_builtin (bytes_of_string templateName)) in
  string_of_bytes (base ++ [45] ++ hash).

Definition substitute := TemplateSubst.Substitute url_Parse fmt_float ParseFloat range.

Definition substitute_failed (r : request) (e : TemplateSubst.sub_err) : MF reply :=
  match e with
  (* the message also quotes the parameter *)
  | TemplateSubst.SubErr e => fail r 422 (TemplateSubst.code e) ""
  | TemplateSubst.SchemaErr => fail r 500 "internal" "template substitution failed"
  end.

(** The loop over the targets; what is queued before an error stays queued. *)
Fixpoint enqueue_targets (r : request) (c : ctx) (script note key : string) (serials : list string)
    (acc : list json) : MF (result reply (list json)) :=
  match serials with
  | [] => mret (Ok acc)
  | serial :: serials =>
      if negb (bool_decide (serial = "*"%string)) && negb (DeviceStore.ValidSerial serial)
      then rep ← fail r 422 "invalid_serial"
                   ("serial must be a valid device serial or '*': " +:+ serial);
           mret (Err rep)
      else
        seq ← on_c2 (C2.Enqueue (seconds r) serial script (Some note) (op_KeyID c) (Some key));
        match seq with
        | Err e => rep ← enqueue_failed r e; mret (Err rep)
        | Ok seq =>
            enqueue_targets r c script note key serials
              (acc ++ [JObj [("serial", JStr serial); ("seq", JNum seq)]%string])
        end
  end.

Definition applyBerry (r : request) (c : ctx) (t : Template) (b : applyBody) : MF reply :=
  if bool_decide (TargetSerials b = []) then fail r 422 "missing_target"
    ("target_serials is required (use [" +:+ dquote +:+ "*" +:+ dquote +:+ "] to apply to the whole fleet)")
  else match Params b with
  | None => fail r 400 "bad_request" "params must be a JSON object"
  | Some params =>
      match substitute t params with
      | Err e => substitute_failed r e
      | Ok script =>
          if TemplateStore.BerryScriptMax <? zlen script
          then fail r 422 "berry_too_long" "berry_snippet source exceeds the 8191-byte cap after substitution"
          else
            let key := default (deriveIdempotencyKey (ID t) params) (IdempotencyKey b) in
            res ← enqueue_targets r c (string_of_bytes script)
                    ("tmpl:" +:+ TemplateStore.t_name (row t)) key (TargetSerials b) [];
            match res with
            | Err rep => mret rep
            | Ok results => mret (WriteOK r [] [("kind", JStr (TemplateStore.t_kind (row t)));
                                                ("enqueued", JList results)]%string)
            end
      end
  end.

(** The loop of [createRenderFn]; [fuel] rounds are left of 64. *)
Fixpoint create_attempts (fuel : nat) (attempt : Z) (r : request) (t : Template) (source base : string)
    (explicit : bool) : MF (result reply (Z * string)) :=
  match fuel with
  | O => rep ← fail r 409 "function_name_taken" "could not derive a free function name after 64 attempts";
         mret (Err rep)
  | S fuel =>
      let name := if 0 <? attempt then (base +:+ "-" +:+ format_int (attempt + 1))%string else base in
      id ← on_fleet (CreateFunction (FaasStore.MkCreateParams name source ""
             (TemplateStore.t_trigger (row t)) (TemplateStore.t_secrets (row t))
             (TemplateStore.t_egress (row t)) None (Some (ID t))));
      match id with
      | Ok id => mret (Ok (id, name))
      | Err RenderDb.EUnique =>
          if explicit then
            rep ← fail r 409 "function_name_taken" "a function with that name already exists";
            mret (Err rep)
          else create_attempts fuel (attempt + 1) r t source base explicit
      | Err _ => rep ← fail r 500 "internal" "function create failed"; mret (Err rep)
      end
  end.
Definition createRenderFn := create_attempts 64 0.

Fixpoint bind_targets (r : request) (id : Z) (serials : list string) : MF (result reply ()) :=
  match serials with
  | [] => mret (Ok ())
  | serial :: serials =>
      x ← on_render (FaasStore.BindDevice serial id);
      match x with
      | Err _ => rep ← fail r 500 "internal" ("bind failed for " +:+ serial); mret (Err rep)
      | Ok _ => bind_targets r id serials
      end
  end.

Definition enable_fn (r : request) (b : applyBody) (id : Z) : MF (result reply ()) :=
  if Enable b then
    x ← on_render (FaasStore.SetEnabled id true);
    match x with
    | Err _ => rep ← fail r 500 "internal" "enable failed"; mret (Err rep)
    | Ok _ => mret (Ok ())
    end
  else mret (Ok ()).

Definition applyRenderFn (r : request) (t : Template) (b : applyBody) : MF reply :=
  match Params b with
  | None => fail r 400 "bad_request" "params must be a JSON object"
  | Some params =>
      match substitute t params with
      | Err e => substitute_failed r e
      | Ok source =>
          let explicit := negb (bool_decide (FnName b = ""%string)) in
          let base := if explicit then FnName b else deriveFnName (TemplateStore.t_name (row t)) params in
          if negb (RenderDb.ValidName base) then fail r 422 "invalid_name"
            "fn_name must match ^[a-z0-9][a-z0-9._-]{0,127}$ (the reserved 'builtin/' namespace is rejected by the charset)"
          else match (if Bind b then find_first (λ s, negb (DeviceStore.ValidSerial s)) (TargetSerials b)
                      else None) with
          | Some serial => fail r 422 "invalid_serial"
              ("serial must be a valid device serial (render_fn bind has no '*' fanout): " +:+ serial)
          | None =>
              fn ← createRenderFn r t (string_of_bytes source) base explicit;
              match fn with
              | Err rep => mret rep
              | Ok (newID, name) =>
                  let serials := if Bind b then TargetSerials b else [] in
                  bound ← bind_targets r newID serials;
                  match bound with
                  | Err rep => mret rep
                  | Ok _ =>
                      on ← enable_fn r b newID;
                      mret (match on with
                            | Err rep => rep
                            | Ok _ => WriteOK r [] [("kind", JStr (TemplateStore.t_kind (row t)));
                                ("id", JNum newID); ("name", JStr name);
                                ("serials", JList (JStr <$> serials))]%string
                            end)
                  end
              end
          end
      end
  end.

Definition apply_template (r : request) (c : ctx) (path_id : string) (b : option applyBody) : MF reply :=
  match templateID path_id with
  | None => bad_id r
  | Some id =>
      t ← on_templates (TemplateStore.Load id);
      match t, b with
      | Err TemplateStore.ErrNotFound, _ => no_template r
      | Err _, _ => load_failed r
      | Ok _, None => malformed r
      | Ok t, Some b =>
          let kind := TemplateStore.t_kind (row t) in
          if bool_decide (kind = TemplateStore.KindBerrySnippet) then applyBerry r c t b
          else if bool_decide (kind = TemplateStore.KindRenderFn) then applyRenderFn r t b
          else fail r 422 "unsupported_kind" ("apply is not available for kind " +:+ kind)
      end
  end.
End Apply.

End TemplateHttp.
