(* ===== verification/TemplateApply.v ===== *)
(** * What applying a template can do

    A snippet reaches the queue only as the checked substitution of its
    template, within the device's fetch limit and for the named targets; a
    function is minted with exactly the template's trust profile, and no prefab
    can be edited. *)

From S2P Require Import Prelude GoLib Crypto Db C2 Rollout LogIngest RenderDb FaasStore PlaylistStore PlRender TemplateStore TemplateSubst Fleet DeviceStore Credentials RateLimit AdminGate DeviceHttp TemplateHttp.
Import GoLib Crypto Fleet DeviceHttp TemplateHttp.
Import AdminGate(request, ctx, reply, rStatus).
Import TemplateStore(Template, ID, row, body).

Module TemplateApply.

(** ** Prefabs *)

Lemma Load_inv id d fs r d' fs' : TemplateStore.Load id d fs = (r, d', fs') →
  d' = d ∧ match r with
           | Ok t => ID t = id ∧ TemplateStore.templates d !! id = Some (row t)
           | Err TemplateStore.ErrNotFound => TemplateStore.templates d !! id = None
           | Err _ => True
           end.
Proof.
  intros H. apply stmt_inv in H as [[-> ->]|H]; [done|]. injection H as <- <-.
  by destruct (TemplateStore.templates d !! id).
Qed.

Lemma set_store_same f : set_store (store f) f = f.
Proof. by destruct f. Qed.

Lemma wpf_fail r status code msg f (Q : reply → fleet → Prop) :
  Q (AdminGate.WriteErr r [] status code msg) f → wpf (fail r status code msg) f Q.
Proof. apply wpf_ret. Qed.

Lemma wpf_load id f Q :
  (∀ t, ID t = id → TemplateStore.templates (store f) !! id = Some (row t) → Q (Ok t) f) →
  (TemplateStore.templates (store f) !! id = None → Q (Err TemplateStore.ErrNotFound) f) →
  (∀ e, e ≠ TemplateStore.ErrNotFound → Q (Err e) f) →
  wpf (on_templates (TemplateStore.Load id)) f Q.
Proof.
  intros Hok Hno Herr. apply wpf_call. intros fs r d' fs' H.
  apply Load_inv in H as [-> Hr]. rewrite set_store_same.
  destruct r as [t|e]; [destruct Hr; auto|]. destruct (decide (e = TemplateStore.ErrNotFound)) as [->|]; auto.
Qed.

(** What a mutation is handed: an operator's row, as stored, or an answer. *)
Lemma wpf_loadMutable r id f Q :
  (∀ t, ID t = id → TemplateStore.templates (store f) !! id = Some (row t) →
     TemplateStore.t_builtin (row t) = false → Q (Ok t) f) →
  (∀ rep, rStatus rep ∈ [404; 409; 500] → Q (Err rep) f) →
  wpf (loadMutable r id) f Q.
Proof.
  intros Hok Herr. unfold loadMutable. apply wpf_bind, wpf_load.
  - intros t Hid Hrow. destruct (TemplateStore.t_builtin (row t)) eqn:Hb.
    + apply wpf_bind, wpf_fail, wpf_ret, Herr. cbn. set_solver.
    + apply wpf_ret. by apply Hok.
  - intros _. apply wpf_bind, wpf_fail, wpf_ret, Herr. cbn. set_solver.
  - intros [] ?; try done; apply wpf_bind, wpf_fail, wpf_ret, Herr; cbn; set_solver.
Qed.

(** A prefab cannot be edited or deleted through the API: whatever the body and
    the faults, the answer is not a success and nothing in the database
    changes. *)
Theorem builtin_immutable r path_id id b f tr (Hid : templateID path_id = Some id)
    (Hrow : TemplateStore.templates (store f) !! id = Some tr) (Hb : TemplateStore.t_builtin tr = true) :
  ∀ fs, ∃ u fs1 d fs2, update_template r path_id b f fs = (Ok u, f, fs1) ∧
    delete_template r path_id f fs = (Ok d, f, fs2) ∧
    rStatus u ∈ [404; 409; 500] ∧ rStatus d ∈ [404; 409; 500].
Proof.
  intros fs.
  assert (Hu : wpf (update_template r path_id b) f (λ u f', f' = f ∧ rStatus u ∈ [404; 409; 500])).
  { unfold update_template. rewrite Hid. apply wpf_bind, wpf_loadMutable.
    - intros t _ Ht Hf. congruence.
    - intros rep Hrep. by apply wpf_ret. }
  assert (Hd : wpf (delete_template r path_id) f (λ d f', f' = f ∧ rStatus d ∈ [404; 409; 500])).
  { unfold delete_template. rewrite Hid. apply wpf_bind, wpf_loadMutable.
    - intros t _ Ht Hf. congruence.
    - intros rep Hrep. by apply wpf_ret. }
  destruct (Hu fs) as (u & f1 & fs1 & -> & -> & ?), (Hd fs) as (d & f2 & fs2 & -> & -> & ?).
  by exists u, fs1, d, fs2.
Qed.

(** ** Snippets *)

(** [d'] is [d] with at most one more command. *)
Record queued (d : C2.db) (p : C2.command → Prop) (d' : C2.db) : Prop := {
  qd_rows : ∃ rows, C2.command_queue d' = C2.command_queue d ++ rows ∧ Forall p rows;
  qd_auth : C2.device_auth d' = C2.device_auth d;
  qd_nonce : C2.c2_nonce d' = C2.c2_nonce d;
  qd_cursors : C2.cursors d' = C2.cursors d;
  qd_devices : C2.devices d' = C2.devices d ∧ C2.playlist_binding d' = C2.playlist_binding d ∧
    C2.operators d' = C2.operators d }.

Lemma queued_refl d p : queued d p d.
Proof. constructor; try done. exists []. by rewrite app_nil_r. Qed.

Definition row_is (serial script : string) (note : option string) (op : Z) (key : option string)
    (c : C2.command) : Prop :=
  C2.target c = serial ∧ C2.script c = script ∧ C2.note c = note ∧ C2.operator_key_id c = Some op ∧
  C2.idempotency_key c = key ∧ C2.applied c = false.

Lemma attributed_queued op ins d p : queued d p (ins d).2 →
  queued d p (C2.attributed op ins d).2.
Proof.
  unfold C2.attributed. destruct (ins d) as [[n|e] d'] eqn:Hi; simpl; [|done].
  intros H. destruct (C2.op_known op d); [done|].
  constructor; try done. exists []. by rewrite app_nil_r.
Qed.

Lemma insert_queued now serial script note op key d :
  queued d (row_is serial script note op (Some key)) (C2.insert_keyed now serial script note (Some op) key d).2 ∧
  queued d (row_is serial script note op None) (C2.insert_plain now serial script note (Some op) d).2.
Proof.
  split.
  - unfold C2.insert_keyed. destruct (existsb _ _); constructor; simpl; try done.
    + exists []. by rewrite app_nil_r.
    + eexists. split; [reflexivity|]. by repeat constructor.
  - constructor; simpl; try done. eexists. split; [reflexivity|]. by repeat constructor.
Qed.

(** An empty key is no key. *)
Definition key_of (key : option string) : option string :=
  match key with
  | Some k => if bool_decide (k = ""%string) then None else Some k | None => None end.

Lemma Enqueue_queued now serial script note op key d fs r d' fs' :
  C2.Enqueue now serial script note op key d fs = (r, d', fs') →
  queued d (row_is serial script note op (key_of key)) d' ∧
  (C2.command_queue d' ≠ C2.command_queue d →
     zlen (bytes_of_string script) ≤ C2.ScriptMax ∧ (serial = "*"%string ∨ serial ∈ C2.devices d)).
Proof.
  destruct (insert_queued now serial script note op (default ""%string key) d) as [Hk Hp].
  pose proof (attributed_queued (Some op) _ d _ Hk) as Hka.
  pose proof (attributed_queued (Some op) _ d _ Hp) as Hpa. clear Hk Hp.
  unfold C2.Enqueue. case_bool_decide as Hse; [intros [= <- <- <-]; split; [apply queued_refl|done]|].
  destruct (Z.ltb_spec C2.ScriptMax (zlen (bytes_of_string script))) as [|Hlen];
    [intros [= <- <- <-]; split; [apply queued_refl|done]|].
  unfold mbind at 1, M_bind at 1.
  destruct (C2.known_serial serial d fs) as [[rb db] fs1] eqn:Hkn.
  assert (Hdb : db = d ∧ (rb = Ok true → serial = "*"%string ∨ serial ∈ C2.devices d)).
  { unfold C2.known_serial in Hkn. case_bool_decide as Hst.
    - injection Hkn as <- <- <-. by auto.
    - unfold C2.lift_db, query, stmt in Hkn.
      destruct fs as [|[] fs]; injection Hkn as <- <- <-; split; try done;
        intros [= Hb%bool_decide_eq_true]; by right. }
  destruct Hdb as [-> Hs]. destruct rb as [[]|]; cbn [negb];
    [|intros [= <- <- <-]; split; [apply queued_refl|done]..].
  specialize (Hs eq_refl). intros H. split; [|by intros _].
  assert (Hplain : C2.lift_db (stmt EDb (C2.attributed (Some op)
      (C2.insert_plain now serial script note (Some op)))) d fs1 = (r, d', fs') →
      queued d (row_is serial script note op None) d').
  { clear H. unfold C2.lift_db. destruct (stmt_runs EDb (C2.attributed (Some op)
      (C2.insert_plain now serial script note (Some op))) d fs1) as (rp & dp & fp & -> & [[-> ->]|He]);
      intros [= _ <- _]; [apply queued_refl|]. by rewrite <-He in Hpa. }
  unfold key_of. destruct key as [k|]; [|by apply Hplain]. simpl in Hka.
  case_bool_decide as Hke; [by apply Hplain|]. clear Hplain Hpa.
  unfold attempt, C2.lift_db, mbind at 1, M_bind at 1 in H.
  destruct (stmt_runs EDb (C2.attributed (Some op)
      (C2.insert_keyed now serial script note (Some op) k)) d fs1) as (rp & dp & fp & Hr & Hc).
  rewrite Hr in H.
  assert (Hq : queued d (row_is serial script note op (Some k)) dp).
  { destruct Hc as [[_ ->]|He]; [apply queued_refl|]. by rewrite <-He in Hka. }
  clear Hr Hc Hka. destruct rp as [n|[]]; try by injection H as <- <- <-.
  unfold query in H. destruct (stmt_runs EDb (λ s, (C2.select_pending serial k s, s)) dp fp)
    as (r2 & d2 & f2 & Hr2 & Hc2). rewrite Hr2 in H. injection H as <- <- <-.
  destruct Hc2 as [[_ ->]|He]; [done|]. by injection He as _ ->.
Qed.

(** Everything but the command queue. *)
Record same_but_queue (f f' : fleet) : Prop := {
  sq_labels : labels f' = labels f; sq_ingest : ingest f' = ingest f;
  sq_auth : device_auth f' = device_auth f; sq_nonce : c2_nonce f' = c2_nonce f;
  sq_cursors : c2_cursors f' = c2_cursors f; sq_store : store f' = store f;
  sq_operators : operators f' = operators f }.

Lemma same_but_queue_refl f : same_but_queue f f.
Proof. by constructor. Qed.
Lemma same_but_queue_trans a b c : same_but_queue a b → same_but_queue b c → same_but_queue a c.
Proof. intros [] []. constructor; congruence. Qed.

Lemma queued_fleet f p d' : queued (c2_of f) p d' → same_but_queue f (set_c2 d' f) ∧
  ∃ rows, command_queue (set_c2 d' f) = command_queue f ++ rows ∧ Forall p rows.
Proof. intros [Hrows Ha Hn Hc _]. split; [by constructor|done]. Qed.

(** A command of one application. *)
Definition applied_row (targets : list string) (script note key : string) (op : Z) (f : fleet)
    (c : C2.command) : Prop :=
  C2.target c ∈ targets ∧ (C2.target c = "*"%string ∨ is_Some (devices f !! C2.target c)) ∧
  row_is (C2.target c) script (Some note) op (key_of (Some key)) c ∧
  zlen (bytes_of_string script) ≤ C2.ScriptMax.

Lemma applied_row_more l l' script note key op f f' c : l ⊆ l' → devices f' = devices f →
  applied_row l script note key op f' c → applied_row l' script note key op f c.
Proof. unfold applied_row. intros Hl ->. intros (? & ? & ? & ?). split_and!; auto. Qed.

Lemma wpf_enqueue_targets r c script note key serials acc f Q :
  (∀ res f' rows, same_but_queue f f' → command_queue f' = command_queue f ++ rows →
     Forall (applied_row serials script note key (op_KeyID c) f) rows → Q res f') →
  wpf (enqueue_targets r c script note key serials acc) f Q.
Proof.
  revert acc f Q. induction serials as [|s serials IH]; intros acc f Q HQ; cbn [enqueue_targets].
  { apply wpf_ret, (HQ _ f []); [apply same_but_queue_refl|by rewrite app_nil_r|done]. }
  destruct (_ && _).
  { apply wpf_bind, wpf_fail, wpf_ret, (HQ _ f []);
      [apply same_but_queue_refl|by rewrite app_nil_r|done]. }
  apply wpf_bind, wpf_call. intros fs res d' fs' Henq.
  apply Enqueue_queued in Henq as [Hq Hacc]. pose proof (queued_fleet f _ d' Hq) as (Hsame & rows & Hrows & Hp).
  set (f1 := set_c2 d' f) in *.
  assert (Hall : Forall (applied_row (s :: serials) script note key (op_KeyID c) f) rows).
  { destruct rows as [|x rows]; [done|]. destruct Hacc as [Hlen Hdev].
    { change (C2.command_queue d') with (command_queue f1). rewrite Hrows. intros He.
      change (C2.command_queue (c2_of f)) with (command_queue f) in He.
      apply (f_equal length) in He. rewrite length_app in He. simpl in He. lia. }
    eapply Forall_impl; [exact Hp|]. intros y (Ht & Hy). rewrite Forall_forall in Hp.
    unfold applied_row. rewrite Ht. split_and!; [left| |done|done].
    destruct Hdev as [?|Hd]; [by left|right]. change (s ∈ dom (devices f)) in Hd. by apply elem_of_dom in Hd. }
  destruct res as [n|e].
  - apply IH. intros res f2 rows2 Hsame2 Hrows2 Hall2.
    apply (HQ _ _ (rows ++ rows2)); [by eapply same_but_queue_trans| |].
    + by rewrite Hrows2, Hrows, (assoc_L (++)).
    + apply Forall_app. split; [done|]. eapply Forall_impl; [exact Hall2|].
      intros x. apply applied_row_more; [intros ? ?; by right|].
      unfold devices. by rewrite (sq_ingest _ _ Hsame).
  - apply wpf_bind. eapply (wpf_mono _ _ (λ _ f', f' = f1)).
    + destruct e; apply wpf_ret; done.
    + intros rep f' ->. apply wpf_ret. by apply (HQ _ _ rows).
Qed.

Section Apply.
Context (url_Parse : string → option (string * string)).
Context (fmt_float : string → option string) (ParseFloat : bytes → bool).
Context (range : list (string * RenderDb.json) → list (string * RenderDb.json)).
Context (canon : list (string * RenderDb.json) → bytes).

Abbreviation subst := (substitute url_Parse fmt_float ParseFloat range).
Abbreviation berry := (applyBerry url_Parse fmt_float ParseFloat range canon).
Abbreviation apply_key b t params := (default (deriveIdempotencyKey canon (ID t) params) (IdempotencyKey b)).

(** What a snippet's application adds to the queue. *)
Definition snippet_rows (c : ctx) (t : Template) (b : applyBody) (f : fleet)
    (rows : list C2.command) : Prop :=
  rows = [] ∨ ∃ params out, Params b = Some params ∧ subst t params = Ok out ∧
    TemplateSubst.find_placeholder out = None ∧ zlen out ≤ TemplateStore.BerryScriptMax ∧
    Forall (applied_row (TargetSerials b) (string_of_bytes out)
      ("tmpl:" +:+ TemplateStore.t_name (row t)) (apply_key b t params) (op_KeyID c) f) rows.

Lemma substitute_no_placeholder t params out : subst t params = Ok out →
  TemplateSubst.find_placeholder out = None.
Proof.
  unfold substitute, TemplateSubst.Substitute. destruct (TemplateSubst.parseParamSchema _); [|done].
  destruct (find_first _ _); [done|]. destruct (TemplateSubst.apply_specs _ _ _ _ _ _); [|done].
  cbn [mbind result_bind]. destruct (TemplateSubst.find_placeholder _) eqn:Hf; [done|].
  by intros [= <-].
Qed.

Lemma wpf_applyBerry r c t b f : wpf (berry r c t b) f (λ rep f',
  same_but_queue f f' ∧ ∃ rows, command_queue f' = command_queue f ++ rows ∧ snippet_rows c t b f rows).
Proof.
  assert (Hno : same_but_queue f f ∧ ∃ rows, command_queue f = command_queue f ++ rows ∧
    snippet_rows c t b f rows).
  { split; [apply same_but_queue_refl|]. exists []. split; [by rewrite app_nil_r|by left]. }
  unfold applyBerry. case_bool_decide; [by apply wpf_fail|].
  destruct (Params b) as [params|] eqn:Hp; [|by apply wpf_fail].
  destruct (subst t params) as [out|e] eqn:Hs; [|destruct e; by apply wpf_fail].
  destruct (Z.ltb_spec TemplateStore.BerryScriptMax (zlen out)) as [|Hlen]; [by apply wpf_fail|].
  apply wpf_bind, wpf_enqueue_targets. intros res f' rows Hsame Hrows Hall.
  assert (Hyes : same_but_queue f f' ∧ ∃ rows, command_queue f' = command_queue f ++ rows ∧
    snippet_rows c t b f rows).
  { split; [done|]. exists rows. split; [done|]. right. exists params, out.
    split_and!; try done. by eapply substitute_no_placeholder. }
  destruct res; by apply wpf_ret.
Qed.

(** What a snippet can put on the command queue. Whatever the request and the
    faults, applying a snippet changes nothing but the queue and only appends to
    it; every command it appends carries the template's source with the checked
    parameters in place and no placeholder left, fits the 8191 bytes a device
    can fetch after the substitution, is addressed to a named target that is the
    fleet or a registered device, and is attributed and keyed as requested. *)
Theorem apply_snippet_bounded r c t b f fs :
  ∃ rep f' fs', berry r c t b f fs = (Ok rep, f', fs') ∧ same_but_queue f f' ∧
    ∃ rows, command_queue f' = command_queue f ++ rows ∧ snippet_rows c t b f rows.
Proof. destruct (wpf_applyBerry r c t b f fs) as (rep & f' & fs' & ?). by exists rep, f', fs'. Qed.

(** ** Applying twice *)

Definition result_json (s : string) (n : Z) : AdminGate.json :=
  AdminGate.JObj [("serial", AdminGate.JStr s); ("seq", AdminGate.JNum n)]%string.

(** The pending command of a target. *)
Definition pending_at (key s : string) (f : fleet) (n : Z) : Prop :=
  ∃ c, c ∈ command_queue f ∧ C2.pending_key s key c = true ∧ C2.seq c = n.

Definition targetable (script : string) (op : Z) (f : fleet) (s : string) : Prop :=
  C2.enqueueable s script op (c2_of f) ∧ (s = "*"%string ∨ DeviceStore.ValidSerial s = true).

Lemma enqueue_pass r c script note key serials acc f : key ≠ ""%string →
  C2.queue_wf (c2_of f) → Forall (targetable script (op_KeyID c) f) serials →
  ∃ seqs f', enqueue_targets r c script note key serials acc f [] =
      (Ok (Ok (acc ++ zip_with result_json serials seqs)), f', []) ∧
    C2.queue_wf (c2_of f') ∧ same_but_queue f f' ∧
    (∃ rows, command_queue f' = command_queue f ++ rows) ∧
    Forall2 (λ s n, pending_at key s f' n) serials seqs ∧
    (Forall (λ s, ∃ n, pending_at key s f n) serials → command_queue f' = command_queue f).
Proof.
  intros Hk. revert acc f. induction serials as [|s serials IH]; intros acc f Hwf Hall.
  { exists [], f. rewrite app_nil_r. split_and!; try done. exists []. by rewrite app_nil_r. }
  apply Forall_cons_1 in Hall as [[Henq Hval] Hall]. cbn [enqueue_targets].
  replace (_ && _) with false.
  2: { destruct Hval as [->|Hv]; [by rewrite bool_decide_eq_true_2|]. rewrite Hv. by rewrite andb_false_r. }
  destruct (C2.Enqueue_keyed_step (seconds r) s script (Some note) (op_KeyID c) key (c2_of f) Hwf Henq Hk)
    as (n & d1 & Hrun & Hwf1 & Henq1 & (x & Hx & Hpk & Hsx) & Hold & Hnew).
  pose proof (Enqueue_queued _ _ _ _ _ _ _ _ _ _ _ Hrun) as [Hq _].
  destruct (queued_fleet f _ d1 Hq) as (Hsame & rows1 & Hrows1 & _).
  assert (Hc2 : c2_of (set_c2 d1 f) = d1).
  { apply c2_of_set_c2; apply Hq. }
  set (f1 := set_c2 d1 f) in *.
  assert (Hdev : devices f1 = devices f) by done.
  destruct (IH (acc ++ [result_json s n]) f1) as (seqs & f2 & Hrun2 & Hwf2 & Hsame2 & (rows2 & Hrows2) & Hp2 & Hold2).
  { by rewrite Hc2. }
  { eapply Forall_impl; [exact Hall|]. intros s' [(? & ? & ? & ?) ?]. split; [|done].
    by split_and!. }
  exists (n :: seqs), f2. unfold on_c2, call, mbind at 1, M_bind at 1. rewrite Hrun. fold f1.
  replace (acc ++ zip_with result_json (s :: serials) (n :: seqs))
    with ((acc ++ [result_json s n]) ++ zip_with result_json serials seqs) by (by rewrite <-(assoc_L (++))).
  split_and!; [exact Hrun2|done| | | |].
  - by eapply same_but_queue_trans.
  - exists (rows1 ++ rows2). by rewrite Hrows2, Hrows1, (assoc_L (++)).
  - constructor; [|done]. exists x. split; [|done]. rewrite Hrows2. apply elem_of_app. by left.
  - intros [[m Hm] Hrest]%Forall_cons_1.
    assert (He : existsb (C2.pending_key s key) (C2.command_queue (c2_of f)) = true).
    { apply C2.existsb_pending. destruct Hm as (y & ? & ? & _). by exists y. }
    rewrite Hold2; [by apply Hold|]. eapply Forall_impl; [exact Hrest|].
    intros s' (m' & y & Hy & ?). exists m', y. split; [|done]. rewrite Hrows1. apply elem_of_app. by left.
Qed.

(** A double-clicked application queues its commands once. Without faults, an
    application to registered targets answers 200 with one pending command per
    target; the same application again, while none of them has been
    acknowledged, answers the same sequence numbers and queues nothing. *)
Theorem apply_snippet_once r r2 c t b params out f
    (Hb : Params b = Some params) (Ht : TargetSerials b ≠ []) (Hs : subst t params = Ok out)
    (Hlen : zlen out ≤ TemplateStore.BerryScriptMax) (Hk : apply_key b t params ≠ ""%string)
    (Hwf : C2.queue_wf (c2_of f))
    (Htg : Forall (targetable (string_of_bytes out) (op_KeyID c) f) (TargetSerials b)) :
  ∃ rep f1 rep2 f2, berry r c t b f [] = (Ok rep, f1, []) ∧ rStatus rep = 200 ∧
    Forall (λ s, ∃ n, pending_at (apply_key b t params) s f1 n) (TargetSerials b) ∧
    berry r2 c t b f1 [] = (Ok rep2, f2, []) ∧ rStatus rep2 = 200 ∧
    AdminGate.rBody rep2 = AdminGate.rBody rep ∧ command_queue f2 = command_queue f1.
Proof.
  unfold applyBerry. rewrite bool_decide_eq_false_2, Hb, Hs by done.
  destruct (Z.ltb_spec TemplateStore.BerryScriptMax (zlen out)); [lia|].
  set (key := apply_key b t params) in *. set (note := ("tmpl:" +:+ _)%string).
  destruct (enqueue_pass r c (string_of_bytes out) note key (TargetSerials b) [] f Hk Hwf Htg)
    as (seqs & f1 & Hrun & Hwf1 & Hsame & _ & Hp & _).
  assert (Hpend : Forall (λ s, ∃ n, pending_at key s f1 n) (TargetSerials b)).
  { apply Forall_lookup_2. intros i s Hi.
    destruct (Forall2_lookup_l _ _ _ _ _ Hp Hi) as (n & _ & Hn). by exists n. }
  destruct (enqueue_pass r2 c (string_of_bytes out) note key (TargetSerials b) [] f1 Hk Hwf1)
    as (seqs2 & f2 & Hrun2 & Hwf2 & _ & _ & Hp2 & Hold).
  { eapply Forall_impl; [exact Htg|]. intros s [(? & ? & Hd & Ho) ?]. split; [|done]. split_and!; try done.
    - simpl in Hd |- *. unfold devices in *. by rewrite (sq_ingest _ _ Hsame).
    - simpl in Ho |- *. by rewrite (sq_operators _ _ Hsame). }
  specialize (Hold Hpend).
  assert (Hseqs : seqs2 = seqs).
  { apply list_eq_same_length with (length seqs); [by rewrite <-(Forall2_length _ _ _ Hp)| |].
    - by rewrite <-(Forall2_length _ _ _ Hp2), <-(Forall2_length _ _ _ Hp).
    - intros i n2 n1 _ Hi2 Hi1.
      destruct (Forall2_lookup_r _ _ _ _ _ Hp Hi1) as (s & Hsi & x & Hx & Hxk & <-).
      destruct (Forall2_lookup_r _ _ _ _ _ Hp2 Hi2) as (s' & Hsi' & y & Hy & Hyk & <-).
      rewrite Hsi in Hsi'. injection Hsi' as <-. rewrite Hold in Hy.
      pose proof (C2.select_pending_unique s key (c2_of f1) x Hwf1 Hx Hxk) as H1.
      pose proof (C2.select_pending_unique s key (c2_of f1) y Hwf1 Hy Hyk) as H2. congruence. }
  subst seqs2. unfold mbind, M_bind. rewrite Hrun.
  eexists _, f1, _, f2. split; [reflexivity|]. do 2 (split; [done|]). rewrite Hrun2.
  by split; [reflexivity|].
Qed.
End Apply.

(** ** Functions *)

(** Everything but the frame side. *)
Record same_but_render (f f' : fleet) : Prop := {
  sr_labels : labels f' = labels f; sr_ingest : ingest f' = ingest f;
  sr_auth : device_auth f' = device_auth f; sr_nonce : c2_nonce f' = c2_nonce f;
  sr_cursors : c2_cursors f' = c2_cursors f; sr_queue : command_queue f' = command_queue f;
  sr_operators : operators f' = operators f;
  sr_templates : TemplateStore.templates (store f') = TemplateStore.templates (store f);
  sr_previews : TemplateStore.previews (store f') = TemplateStore.previews (store f) }.

Lemma same_but_render_refl f : same_but_render f f.
Proof. by constructor. Qed.
Lemma same_but_render_trans a b c : same_but_render a b → same_but_render b c → same_but_render a c.
Proof. intros [] []. constructor; congruence. Qed.
Lemma same_but_render_set d f : same_but_render f (set_render d f).
Proof. by constructor. Qed.

(** What [BindDevice] does when it commits. *)
Definition bound (s : string) (fn : Z) (d : RenderDb.db) : RenderDb.db :=
  RenderDb.upd_render_binding (insert s fn)
    (RenderDb.delete_playlists (λ kv, FaasStore.managed_by s kv.2)
      (RenderDb.upd_cursors (delete s) (RenderDb.upd_playlist_binding (delete s) d))).

Lemma BindDevice_runs s fn d fs : ∃ r d' fs', FaasStore.BindDevice s fn d fs = (r, d', fs') ∧
  match r with Ok _ => d' = bound s fn d | Err _ => d' = d end.
Proof.
  assert (H : ∃ r d' fs', FaasStore.BindDevice s fn d fs = (r, d', fs') ∧
    match r with
    | Ok a => (if bool_decide (is_Some (RenderDb.functions d !! fn)) then Some (bound s fn d, ()) else None)
              = Some (d', a)
    | Err _ => d' = d
    end ∧ (fs = [] → fs' = [] ∧ is_ok r =
      bool_decide (is_Some (if bool_decide (is_Some (RenderDb.functions d !! fn))
                            then Some (bound s fn d, ()) else None)))).
  { apply with_tx_commits.
    eapply commits_bind_Some; [apply (implements_exec RenderDb.EDb (λ d, d))|].
    do 3 (eapply commits_bind_Some; [apply implements_exec|]).
    case_bool_decide as Hf.
    - eapply commits_bind_Some; [|apply commits_end]. apply implements_ok.
      unfold FaasStore.upsert_render_binding. by rewrite bool_decide_eq_true_2.
    - eapply commits_bind_None. eapply implements_err.
      unfold FaasStore.upsert_render_binding. by rewrite bool_decide_eq_false_2. }
  destruct H as (r & d' & fs' & Hrun & Hr & _). exists r, d', fs'. split; [done|].
  destruct r; [|done]. case_bool_decide; [|done]. by injection Hr as <-.
Qed.

(** Functions are left alone, and so are the bindings of other serials. *)
Record rebinds (targets : list string) (fn : Z) (f f' : fleet) : Prop := {
  rb_same : same_but_render f f';
  rb_functions : RenderDb.functions (stored f') = RenderDb.functions (stored f);
  rb_seq : RenderDb.function_seq (stored f') = RenderDb.function_seq (stored f);
  rb_others : ∀ s, s ∉ targets →
    RenderDb.render_binding (stored f') !! s = RenderDb.render_binding (stored f) !! s }.

Lemma rebinds_refl l fn f : rebinds l fn f f.
Proof. by constructor. Qed.

Lemma wpf_bind_targets r fn serials f (Q : result reply () → fleet → Prop) :
  (∀ f', rebinds serials fn f f' →
     (∀ s, s ∈ serials → RenderDb.render_binding (stored f') !! s = Some fn) → Q (Ok ()) f') →
  (∀ rep f', rebinds serials fn f f' → rStatus rep = 500 → Q (Err rep) f') →
  wpf (bind_targets r fn serials) f Q.
Proof.
  revert f. induction serials as [|s serials IH]; intros f Hok Herr; cbn [bind_targets].
  { apply wpf_ret, Hok; [apply rebinds_refl|]. by intros ? ?%not_elem_of_nil. }
  apply wpf_bind, wpf_call. intros fs res d' fs' H.
  destruct (BindDevice_runs s fn (render_of f) fs) as (res2 & d2 & fs2 & Hrun & Hr).
  rewrite H in Hrun. injection Hrun as <- <- <-. destruct res as [[]|e].
  - subst d'. set (f1 := set_render (bound s fn (render_of f)) f).
    assert (H1 : rebinds [s] fn f f1).
    { constructor; try done. intros s' Hs. rewrite list_elem_of_singleton in Hs.
      unfold f1. simpl. by rewrite lookup_insert_ne. }
    assert (Hcomb : ∀ f', rebinds serials fn f1 f' → rebinds (s :: serials) fn f f').
    { intros f' [Hs1 Hf1 Hq1 Ho1]. destruct H1 as [Hs0 Hf0 Hq0 Ho0].
      constructor; [by eapply same_but_render_trans|congruence|congruence|].
      intros s' [Hn1 Hn2]%not_elem_of_cons. rewrite Ho1 by done. apply Ho0.
      by rewrite list_elem_of_singleton. }
    apply IH.
    + intros f' Hr Hb. apply Hok; [by apply Hcomb|]. intros s' [->|Hs']%elem_of_cons; [|by apply Hb].
      destruct (decide (s ∈ serials)) as [Hin|Hni]; [by apply Hb|].
      rewrite (rb_others _ _ _ _ Hr s Hni). simpl. apply lookup_insert_eq.
    + intros rep f' Hr Hst. apply Herr; [by apply Hcomb|done].
  - subst d'. apply wpf_bind, wpf_fail, wpf_ret, Herr; [|done].
    rewrite set_render_render_of. apply rebinds_refl.
Qed.

Lemma wpf_enable_fn r b fn f (Q : result reply () → fleet → Prop) row0 :
  RenderDb.functions (stored f) !! fn = Some row0 → RenderDb.fr_enabled row0 = false →
  (∀ f', same_but_render f f' → RenderDb.render_binding (stored f') = RenderDb.render_binding (stored f) →
     RenderDb.functions (stored f') = <[fn := RenderDb.MkFunctionRow (RenderDb.fr_name row0)
       (RenderDb.fr_source row0) (RenderDb.fr_version row0) (RenderDb.fr_trigger row0)
       (RenderDb.fr_config row0) (RenderDb.fr_secrets row0) (RenderDb.fr_egress row0)
       (RenderDb.fr_token row0) (Enable b) (RenderDb.fr_template row0)]> (RenderDb.functions (stored f)) →
     Q (Ok ()) f') →
  (∀ rep, rStatus rep = 500 → Q (Err rep) f) →
  wpf (enable_fn r b fn) f Q.
Proof.
  intros Hrow Hoff Hok Herr. unfold enable_fn. destruct (Enable b).
  - apply wpf_bind, wpf_call. intros fs res d' fs' H. unfold FaasStore.SetEnabled in H.
    apply stmt_inv in H as [[-> ->]|H].
    + rewrite set_render_render_of. apply wpf_bind, wpf_fail, wpf_ret. by apply Herr.
    + unfold FaasStore.on_function in H. change (RenderDb.functions (render_of f)) with (RenderDb.functions (stored f)) in H.
      rewrite Hrow in H. injection H as <- <-. apply wpf_ret. by apply Hok.
  - apply wpf_ret, Hok; [apply same_but_render_refl|done|].
    rewrite insert_id; [done|]. rewrite Hrow. destruct row0. simpl in *. by rewrite Hoff.
Qed.

(** The function a template mints: its source, its trust profile, nothing else. *)
Definition minted_row (t : Template) (name : string) (out : bytes) (enabled : bool) : RenderDb.function_row :=
  RenderDb.MkFunctionRow name (string_of_bytes out) 1 FaasStore.TriggerRender
    (FaasStore.coalesceJSON (TemplateStore.t_trigger (row t))) (TemplateStore.t_secrets (row t))
    (TemplateStore.t_egress (row t)) None enabled (Some (ID t)).

Definition free_name (name : string) (f : fleet) : Prop :=
  FaasStore.function_named name (stored f) = false.

(** [f'] is [f] with that one new function. *)
Record mints (t : Template) (name : string) (out : bytes) (id : Z) (f f' : fleet) : Prop := {
  mt_same : same_but_render f f';
  mt_id : id = RenderDb.function_seq (stored f);
  mt_name : free_name name f;
  mt_row : RenderDb.functions (stored f') = <[id := minted_row t name out false]> (RenderDb.functions (stored f));
  mt_bindings : RenderDb.render_binding (stored f') = RenderDb.render_binding (stored f) }.

Definition derived (base : string) (name : string) : Prop :=
  name = base ∨ ∃ n, 2 ≤ n ≤ 64 ∧ name = (base +:+ "-" +:+ format_int n)%string.

Lemma wpf_create_attempts fuel k r t out base explicit f (Q : result reply (Z * string) → fleet → Prop) :
  0 ≤ k → k + Z.of_nat fuel = 64 →
  (∀ id name f', mints t name out id f f' → derived base name → (explicit = true → k = 0 → name = base) →
     Q (Ok (id, name)) f') →
  (∀ rep, rStatus rep ∈ [409; 500] → Q (Err rep) f) →
  wpf (create_attempts fuel k r t (string_of_bytes out) base explicit) f Q.
Proof.
  intros Hk Hfuel Hok Herr. revert k Hk Hfuel Hok.
  induction fuel as [|fuel IH]; intros k Hk Hfuel Hok; cbn [create_attempts].
  { apply wpf_bind, wpf_fail, wpf_ret, Herr. cbn. set_solver. }
  set (name := if 0 <? k then _ else base).
  assert (Hname : derived base name).
  { unfold name. destruct (Z.ltb_spec 0 k); [right; exists (k + 1); split; [lia|done]|by left]. }
  apply wpf_bind, wpf_call. intros fs res f' fs' H. unfold CreateFunction in H.
  apply stmt_inv in H as [[-> ->]|H].
  { apply wpf_bind, wpf_fail, wpf_ret, Herr. cbn. set_solver. }
  change (id f) with f in H. unfold insert_from_template in H. cbn [FaasStore.cp_name FaasStore.cp_source FaasStore.cp_trigger
    FaasStore.cp_config FaasStore.cp_secrets FaasStore.cp_egress FaasStore.cp_token FaasStore.cp_template] in H.
  set (nrow := RenderDb.MkFunctionRow _ _ _ _ _ _ _ _ _ _) in H.
  unfold FaasStore.insert_function in H.
  change (FaasStore.function_named (RenderDb.fr_name nrow) (render_of f))
    with (FaasStore.function_named name (stored f)) in H.
  replace (negb _) with false in H by done.
  destruct (FaasStore.function_named name (stored f)) eqn:Hfree.
  - cbv iota beta zeta in H. injection H as <- <-. destruct explicit.
    + apply wpf_bind, wpf_fail, wpf_ret, Herr. cbn. set_solver.
    + apply IH; [lia|lia|]. intros id nm f2 Hm Hd _. by apply Hok.
  - change (RenderDb.fr_template nrow) with (Some (ID t)) in H. cbv iota beta in H.
    destruct (bool_decide (is_Some (_ !! ID t))); injection H as <- <-.
    + apply wpf_ret, Hok; [by constructor|done|]. intros _ ->. done.
    + apply wpf_bind, wpf_fail, wpf_ret, Herr. cbn. set_solver.
Qed.

Section Functions.
Context (url_Parse : string → option (string * string)).
Context (fmt_float : string → option string) (ParseFloat : bytes → bool).
Context (range : list (string * RenderDb.json) → list (string * RenderDb.json)).
Context (canon : list (string * RenderDb.json) → bytes).

Abbreviation subst := (substitute url_Parse fmt_float ParseFloat range).
Abbreviation render_fn := (applyRenderFn url_Parse fmt_float ParseFloat range canon).

(** The outcome of an application that minted function [id]. *)
Record applied (t : Template) (b : applyBody) (f f' : fleet) (ok : bool) : Prop := {
  ap_minted : ∃ params out name on, Params b = Some params ∧ subst t params = Ok out ∧
    TemplateSubst.find_placeholder out = None ∧ free_name name f ∧
    (FnName b ≠ ""%string → name = FnName b) ∧ derived (if bool_decide (FnName b = ""%string)
       then deriveFnName canon (TemplateStore.t_name (row t)) params else FnName b) name ∧
    (on = true → Enable b = true) ∧ (ok = true → on = Enable b) ∧
    RenderDb.functions (stored f') =
      <[RenderDb.function_seq (stored f) := minted_row t name out on]> (RenderDb.functions (stored f));
  ap_targets : ok = true → Bind b = true → ∀ s, s ∈ TargetSerials b →
    RenderDb.render_binding (stored f') !! s = Some (RenderDb.function_seq (stored f));
  ap_others : ∀ s, Bind b = false ∨ s ∉ TargetSerials b →
    RenderDb.render_binding (stored f') !! s = RenderDb.render_binding (stored f) !! s }.

Lemma insert_shadow {A} (m : gmap Z A) k x y : <[k := x]> (<[k := y]> m) = <[k := x]> m.
Proof. apply insert_insert_eq. Qed.

Lemma wpf_applyRenderFn r t b f : wpf (render_fn r t b) f (λ rep f',
  same_but_render f f' ∧
  ((f' = f ∧ rStatus rep ≠ 200) ∨ applied t b f f' (bool_decide (rStatus rep = 200)))).
Proof.
  assert (Hno : ∀ status code msg, status ≠ 200 → wpf (fail r status code msg) f (λ rep f',
    same_but_render f f' ∧
    ((f' = f ∧ rStatus rep ≠ 200) ∨ applied t b f f' (bool_decide (rStatus rep = 200))))).
  { intros. apply wpf_fail. split; [apply same_but_render_refl|]. by left. }
  unfold applyRenderFn. destruct (Params b) as [params|] eqn:Hp; [|by apply Hno].
  destruct (subst t params) as [out|e] eqn:Hs; [|destruct e; by apply Hno].
  pose proof (substitute_no_placeholder url_Parse fmt_float ParseFloat range t params out Hs) as Hph.
  set (base := if negb _ then FnName b else _).
  assert (Hbase : base = if bool_decide (FnName b = ""%string)
       then deriveFnName canon (TemplateStore.t_name (row t)) params else FnName b)
    by (unfold base; by case_bool_decide).
  destruct (RenderDb.ValidName base); [|by apply Hno]. cbn [negb].
  destruct (if Bind b then _ else None); [by apply Hno|].
  apply wpf_bind. unfold createRenderFn. apply wpf_create_attempts; [lia|lia| |].
  2: { intros rep Hrep. apply wpf_ret. split; [apply same_but_render_refl|]. left. split; [done|].
       repeat (apply elem_of_cons in Hrep as [->|Hrep]; [done|]). by apply not_elem_of_nil in Hrep. }
  intros id name f1 [Hs1 -> Hfree Hrow Hbind] Hder Hexp.
  assert (Hnm : FnName b ≠ ""%string → name = FnName b).
  { intros Hne. rewrite Hexp; [|by rewrite bool_decide_eq_false_2|done].
    unfold base. by rewrite bool_decide_eq_false_2. }
  rewrite Hbase in Hder. clear Hbase Hexp Hno base.
  set (id := RenderDb.function_seq (stored f)) in *.
  set (targets := if Bind b then TargetSerials b else []).
  assert (Hout : ∀ s, Bind b = false ∨ s ∉ TargetSerials b → s ∉ targets).
  { intros s Hsx. unfold targets. destruct (Bind b); [by destruct Hsx|apply not_elem_of_nil]. }
  apply wpf_bind, wpf_bind_targets.
  - intros f2 [Hs2 Hf2 _ Ho2] Hall. apply wpf_bind.
    apply (wpf_enable_fn _ _ _ _ _ (minted_row t name out false)).
    + rewrite Hf2, Hrow. apply lookup_insert_eq.
    + done.
    + intros f3 Hs3 Hb3 Hf3. apply wpf_ret. split; [by do 2 (eapply same_but_render_trans; [eassumption|])|].
      right. change (bool_decide _) with true. constructor.
      * exists params, out, name, (Enable b). split_and!; try done.
        rewrite Hf3, Hf2, Hrow. apply insert_shadow.
      * intros _ HB s Hsx. rewrite Hb3. apply Hall. unfold targets. by rewrite HB.
      * intros s Hsx. rewrite Hb3, Ho2, Hbind by auto. done.
    + intros rep Hst. apply wpf_ret. split; [by eapply same_but_render_trans|]. right. rewrite Hst.
      constructor; [|done|].
      * exists params, out, name, false. split_and!; try done. by rewrite Hf2, Hrow.
      * intros s Hsx. rewrite Ho2, Hbind by auto. done.
  - intros rep f2 [Hs2 Hf2 _ Ho2] Hst. apply wpf_ret. split; [by eapply same_but_render_trans|].
    right. rewrite Hst. constructor; [|done|].
    + exists params, out, name, false. split_and!; try done. by rewrite Hf2, Hrow.
    + intros s Hsx. rewrite Ho2, Hbind by auto. done.
Qed.

(** What a template can mint. Whatever the request and the faults, applying a
    render template changes nothing but the frame side, and there adds at most
    one function: its source is the checked substitution, its egress list,
    secrets and trigger are exactly the template's, its name was free (the one
    asked for, or the derived one with one of 63 suffixes), and it is enabled
    only if the request said so. An answer of 200 means the function exists,
    is enabled as asked and every named target shows it; no other serial's
    binding moves. *)
Theorem apply_function_profile r t b f fs :
  ∃ rep f' fs', render_fn r t b f fs = (Ok rep, f', fs') ∧ same_but_render f f' ∧
    ((f' = f ∧ rStatus rep ≠ 200) ∨ applied t b f f' (bool_decide (rStatus rep = 200))).
Proof. destruct (wpf_applyRenderFn r t b f fs) as (rep & f' & fs' & ?). by exists rep, f', fs'. Qed.
End Functions.

(** ** Samples *)

Definition ex_snippet : Template :=
  TemplateStore.MkTemplate 1 (TemplateStore.MkTemplateRow "builtin/wifi-preset" "berry_snippet" ∅
    "wifi('{{ssid}}')"
    (RenderDb.JArr [RenderDb.JObj [("name", RenderDb.JStr "ssid"); ("type", RenderDb.JStr "string");
                                   ("required", RenderDb.JBool true)]]%string)
    [] [] None true 1).
Definition ex_templates : fleet :=
  set_store (TemplateStore.MkDb {[1 := row ex_snippet]} 2 ∅ RenderDb.empty_db) ex_fleet.
Definition ex_params : gmap string RenderDb.json := {["ssid"%string := RenderDb.JStr "attic"]}.
Definition ex_apply : applyBody := MkApply "" (Some ex_params) ["*"; "p1"]%string false false None.
(** A canonical form of text parameters. *)
Definition ex_canon (l : list (string * RenderDb.json)) : bytes :=
  l ≫= λ kv, bytes_of_string kv.1 ++ [0] ++
             match kv.2 with RenderDb.JStr s => bytes_of_string s | _ => [] end ++ [0].
Definition ex_operator : ctx :=
  AdminGate.MkCtx None (Some (Credentials.MkAuth 1 true "op")).

Lemma builtin_immutable_witness : ∃ u fs1 d fs2,
  update_template ex_request "1" None ex_templates [] = (Ok u, ex_templates, fs1) ∧
  delete_template ex_request "1" ex_templates [] = (Ok d, ex_templates, fs2) ∧
  rStatus u ∈ [404; 409; 500] ∧ rStatus d ∈ [404; 409; 500].
Proof.
  apply (builtin_immutable ex_request "1" 1 None ex_templates (row ex_snippet)).
  - vm_compute. reflexivity.
  - vm_compute. reflexivity.
  - vm_compute. reflexivity.
Defined.

Lemma apply_snippet_once_witness : ∃ rep f1 rep2 f2,
  applyBerry TemplateSubst.ex_parse Some (λ _, true) (λ l, l) ex_canon ex_request ex_operator
    ex_snippet ex_apply ex_templates [] = (Ok rep, f1, []) ∧ rStatus rep = 200 ∧
  applyBerry TemplateSubst.ex_parse Some (λ _, true) (λ l, l) ex_canon ex_request ex_operator
    ex_snippet ex_apply f1 [] = (Ok rep2, f2, []) ∧ command_queue f2 = command_queue f1.
Proof.
  destruct (apply_snippet_once TemplateSubst.ex_parse Some (λ _, true) (λ l, l) ex_canon ex_request
    ex_request ex_operator ex_snippet ex_apply ex_params (bytes_of_string "wifi('attic')") ex_templates)
    as (rep & f1 & rep2 & f2 & H1 & Hs & _ & H2 & _ & _ & Hq).
  - reflexivity.
  - discriminate.
  - vm_compute. reflexivity.
  - vm_compute. discriminate.
  - vm_compute. discriminate.
  - split_and!; [constructor|constructor|]. intros s k. vm_compute. lia.
  - assert (Hsome : bool_decide (Forall (λ s, (s = "*"%string ∨ s ∈ dom (devices ex_templates)) ∧
      (s = "*"%string ∨ DeviceStore.ValidSerial s = true)) (TargetSerials ex_apply)) = true)
      by (vm_compute; reflexivity).
    apply bool_decide_eq_true in Hsome. eapply Forall_impl; [exact Hsome|].
    intros s [Hd Hv]. split; [|exact Hv]. split; [vm_compute; discriminate|].
    split; [vm_compute; discriminate|]. split; [exact Hd|]. change (1 ∈ ({[1]} : gset Z)).
    by apply elem_of_singleton.
  - exists rep, f1, rep2, f2. split_and!; assumption.
Defined.

End TemplateApply.
