(* ===== verification/TemplatePreview.v ===== *)
(** * Template previews ([cmd/backend/template_preview_http.go],
    [internal/templatestore/png.go])

    The gallery card of a template: the curated fixture, or a render through the
    operator's test arm with no egress and stubbed secrets, decoded to palette
    indices and cached per version. The PNG encoding of an indexed image, the
    renderer the handler is given and the JSON of the seam's body are
    parameters. *)

From S2P Require Import Prelude GoLib Bwry FaasProto Db C2 Rollout LogIngest RenderDb FaasStore PlRender Wake Supervisor Worker PlaylistFrame Frame FrameSafety TestRender TemplateStore TemplateSubst Fleet DeviceStore RateLimit AdminGate DeviceHttp TemplateHttp TemplateApply.
Import GoLib Fleet DeviceHttp TemplateHttp.
Import AdminGate(request, ctx, reply, json, WriteErr, c_principal, rStatus).
Import TemplateStore(Template, ID, row).
Import FrameSafety(wp, wp_bind, wp_ret, wp_nowOrDefault, wp_wakeFor).

Module TemplatePreview.

(** ** The indexed image (png.go) *)

(** K, W, Y, R: the logical colour of each code. *)
Definition previewPalette : list (Z * Z * Z) := [(0, 0, 0); (255, 255, 255); (255, 255, 0); (255, 0, 0)].

(** [code = (byte >> (6 - 2*(px&3))) & 3], row-major. *)
Definition unpack (packed : bytes) (n : nat) : list Z :=
  (λ px, Z.land (Z.shiftr (nth (px / 4) packed 0) (6 - 2 * Z.of_nat (px mod 4))) 3) <$> seq 0 n.

Section Preview.
(** [png.Encode] of the palette and the indices. *)
Context (encode_png : list (Z * Z * Z) → list Z → option bytes).

Definition PackedToPNG (packed : bytes) : option bytes :=
  if negb (zlen packed =? RenderDb.packed_len) then None
  else encode_png previewPalette (unpack packed (Z.to_nat (Bwry.panel_width * Bwry.panel_height))).

(** ** Producing a preview *)

Inductive preview_err := PreviewUnavailable | PreviewFailed.
Record previewRenderer := MkRenderer {
  fixtures : gmap string bytes;
  render : option (string → MF (result preview_err bytes)) }.

(** The one render slot is held across the render: previews are a sequence. *)
Definition produce (p : previewRenderer) (name kind source : string) : MF (result preview_err bytes) :=
  match fixtures p !! name with
  | Some fx => mret (Ok fx)
  | None =>
      if negb (bool_decide (kind = TemplateStore.KindRenderFn)) then mret (Err PreviewUnavailable)
      else match render p with
      | None => mret (Err PreviewUnavailable)
      | Some render =>
          packed ← render source;
          mret (match packed with
                | Err e => Err e
                | Ok packed => match PackedToPNG packed with
                               | Some png => Ok png | None => Err PreviewFailed end
                end)
      end
  end.

(** A failed cache write is logged only. *)
Definition renderAndStore (p : previewRenderer) (t : Template) : MF (result preview_err bytes) :=
  png ← produce p (TemplateStore.t_name (row t)) (TemplateStore.t_kind (row t)) (TemplateStore.t_source (row t));
  match png with
  | Err e => mret (Err e)
  | Ok png =>
      _ ← on_templates (TemplateStore.StorePreview (ID t) (TemplateStore.t_version (row t)) png);
      mret (Ok png)
  end.

(** [warmed], [skipped], [failed]. *)
Fixpoint warm (p : previewRenderer) (ts : list TemplateStore.PreviewTarget) (acc : Z * Z * Z)
    : MF (Z * Z * Z) :=
  match ts with
  | [] => mret acc
  | t :: ts =>
      let '(w, s, e) := acc in
      cached ← on_templates (TemplateStore.LoadPreview (TemplateStore.pt_id t) (TemplateStore.pt_version t));
      match cached with
      | Ok _ => warm p ts (w, s + 1, e)
      | Err _ =>
          png ← produce p (TemplateStore.pt_name t) TemplateStore.KindRenderFn (TemplateStore.pt_source t);
          match png with
          | Err _ => warm p ts (w, s, e + 1)
          | Ok png =>
              x ← on_templates (TemplateStore.StorePreview (TemplateStore.pt_id t) (TemplateStore.pt_version t) png);
              warm p ts (if is_ok x then (w + 1, s, e) else (w, s, e + 1))
          end
      end
  end.
Definition warmup (p : previewRenderer) : MF (option (Z * Z * Z)) :=
  ts ← on_templates TemplateStore.BuiltinPreviewTargets;
  match ts with
  | Err _ => mret None
  | Ok ts => res ← warm p ts (0, 0, 0); mret (Some res)
  end.

(** ** The route *)

(** A card's answer: an error, 304 or the image. *)
Inductive answer := Refused (r : reply) | NotModified (etag : string) | Image (etag : string) (png : bytes).

Definition etag_of (id version : Z) : string :=
  string_of_bytes ([34] ++ format_int_b id ++ [45] ++ format_int_b version ++ [34]).

Definition is_admin (c : ctx) : bool :=
  match c_principal c with Some pr => AdminGate.IsAdmin pr | None => false end.

Definition serve_image (ifNoneMatch : string) (id : Z) (t : Template) (png : bytes) : answer :=
  let etag := etag_of id (TemplateStore.t_version (row t)) in
  if bool_decide (ifNoneMatch = etag) then NotModified etag else Image etag png.

Definition preview (p : previewRenderer) (r : request) (c : ctx) (path_id ifNoneMatch : string)
    : MF answer :=
  let refuse status code msg := mret (Refused (WriteErr r [] status code msg)) in
  match templateID path_id with
  | None => refuse 422 "invalid_id"%string "template id must be a positive integer"%string
  | Some id =>
      t ← on_templates (TemplateStore.Load id);
      match t with
      | Err TemplateStore.ErrNotFound => refuse 404 "not_found"%string "no such template"%string
      | Err _ => refuse 500 "internal"%string "template load failed"%string
      | Ok t =>
          if negb (TemplateStore.t_builtin (row t)) && negb (is_admin c)
          then refuse 403 "forbidden"%string "operator-authored template previews are admin-only"%string
          else
            png ← on_templates (TemplateStore.LoadPreview id (TemplateStore.t_version (row t)));
            match png with
            | Ok png => mret (serve_image ifNoneMatch id t png)
            | Err TemplateStore.ErrNotFound =>
                png ← renderAndStore p t;
                match png with
                | Ok png => mret (serve_image ifNoneMatch id t png)
                | Err PreviewUnavailable =>
                    refuse 404 "no_preview"%string "no preview available for this template"%string
                | Err PreviewFailed => refuse 502 "preview_render_failed"%string "preview render failed"%string
                end
            | Err _ => refuse 500 "internal"%string "preview load failed"%string
            end
      end
  end.
End Preview.

(** ** The renderer the program wires in *)

Definition parsePackedFromTestFrame (all : bytes) : option bytes :=
  if zlen all <? 4 then None
  else
    let start := 4 + be_combine (take 4 all) in
    if zlen all <? start + RenderDb.packed_len then None
    else Some (take (Z.to_nat RenderDb.packed_len) (drop (Z.to_nat start) all)).

(** The seam's body: no egress host, whatever the template allows. *)
Definition preview_body (source : string) : TestRender.testRenderReq :=
  TestRender.MkReq None source "" [] [] "preview0" "" "render" "" None None.

Section Seam.
Context (box_open : string → bytes → bytes → option bytes).
Context (marshal_request : Supervisor.Request → option bytes).
Context (unmarshal_meta : bytes → option FaasProto.ResponseMeta).
Context (text : Worker.failure → string) (rfc3339 : Z → string).
Context (marshal_test_meta : TestRender.testMeta → option bytes).
Context (marshal_seam : TestRender.testRenderReq → bytes).
Context (unmarshal_seam : bytes → option TestRender.testRenderReq).

Abbreviation TestRenderSeam := (TestRender.TestRenderSeam box_open marshal_request unmarshal_meta text
  rfc3339 marshal_test_meta unmarshal_seam).

Definition preview_seam (s : Supervisor.Supervisor) (source : string)
    : Supervisor.MW (result preview_err bytes) :=
  a ← TestRenderSeam s (marshal_seam (preview_body source));
  mret (match a with
        | (Some out, 200) => match parsePackedFromTestFrame out with
                             | Some packed => Ok packed | None => Err PreviewFailed end
        | (None, 200) => Err PreviewFailed
        | _ => Err PreviewUnavailable
        end).
End Seam.


(** ** The pixels of a card *)

Lemma unpack_pack codes : unpack (Bwry.pack2bpp codes) (length codes) = Bwry.low2 <$> codes.
Proof.
  change (unpack ?p ?n) with (Bwry.panel_code p <$> seq 0 n).
  apply list_eq. intros i. rewrite !list_lookup_fmap.
  destruct (decide (i < length codes)%nat) as [Hi|Hi].
  - rewrite lookup_seq_lt by done.
    destruct (lookup_lt_is_Some_2 codes i Hi) as [c Hc]. rewrite Hc.
    cbn [fmap option_fmap option_map]. rewrite Nat.add_0_l, (Bwry.panel_code_pack codes i Hi).
    by rewrite (nth_lookup codes i 0), Hc.
  - rewrite lookup_seq_ge, (lookup_ge_None_2 codes) by lia. done.
Qed.

Lemma PackedToPNG_pixels enc codes : length codes = Z.to_nat (Bwry.panel_width * Bwry.panel_height) →
  Forall (λ c, 0 ≤ c < 4) codes →
  PackedToPNG enc (Bwry.pack2bpp codes) = enc previewPalette codes.
Proof.
  intros Hlen Hc. unfold PackedToPNG.
  rewrite (Bwry.pack_codes_ok Bwry.panel_width Bwry.panel_height codes); [|done|done|by exists 30000|done].
  change (Bwry.packed_size Bwry.panel_width Bwry.panel_height =? RenderDb.packed_len) with true.
  cbn [negb]. rewrite <-Hlen, unpack_pack. f_equal.
  rewrite <-(list_fmap_id codes) at 2. apply list_fmap_ext. intros i x Hx.
  apply Bwry.low2_small. by eapply (Forall_lookup_1 _ _ _ _ Hc).
Qed.

Lemma parse_framed meta packed raw : zlen meta < 2 ^ 32 → zlen packed = RenderDb.packed_len →
  parsePackedFromTestFrame (put_u32be (u32 (zlen meta)) ++ meta ++ packed ++ raw) = Some packed.
Proof.
  intros Hm Hp. pose proof (zlen_nonneg meta). pose proof (zlen_nonneg raw).
  unfold parsePackedFromTestFrame. rewrite u32_small by lia.
  assert (zlen (put_u32be (zlen meta)) = 4) as H4 by done.
  destruct (Z.ltb_spec (zlen (put_u32be (zlen meta) ++ meta ++ packed ++ raw)) 4) as [Hlt|_].
  { rewrite zlen_app in Hlt. pose proof (zlen_nonneg (meta ++ packed ++ raw)). lia. }
  cbv zeta. rewrite (take_app_len (put_u32be (zlen meta))), be_u32_roundtrip by (done || lia).
  destruct (Z.ltb_spec (zlen (put_u32be (zlen meta) ++ meta ++ packed ++ raw))
              (4 + zlen meta + RenderDb.packed_len)) as [Hlt|_].
  { rewrite !zlen_app in Hlt. lia. }
  f_equal. rewrite (app_assoc (put_u32be _)), (drop_app_len (_ ++ _)).
  - apply take_app_len. unfold zlen in Hp. lia.
  - rewrite length_app. unfold zlen in *. lia.
Qed.

(** A prefab's render sees no allowed host and no secret. *)
Definition offline (e : Supervisor.event) : Prop :=
  match e with
  | Supervisor.EvDrive r _ => Supervisor.REgressAllow r = [] ∧ Supervisor.RSecrets r = ∅
  | Supervisor.EvRegister _ allow _ => allow = []
  | Supervisor.EvUnregister _ => True
  | Supervisor.EvShare _ _ => False
  end.

Section Offline.
Context (box_open : string → bytes → bytes → option bytes).
Context (marshal_request : Supervisor.Request → option bytes).
Context (unmarshal_meta : bytes → option FaasProto.ResponseMeta).
Context (text : Worker.failure → string) (rfc3339 : Z → string).
Context (marshal_test_meta : TestRender.testMeta → option bytes).
Context (marshal_seam : TestRender.testRenderReq → bytes).
Context (unmarshal_seam : bytes → option TestRender.testRenderReq).
Context (Hmeta : ∀ m mj, marshal_test_meta m = Some mj → zlen mj < 2 ^ 32).
Context (Hseam : ∀ source, unmarshal_seam (marshal_seam (preview_body source)) = Some (preview_body source)).

Abbreviation render_once := (Worker.renderOnce box_open marshal_request unmarshal_meta text).

Lemma render_offline s source rctx res evs :
  Worker.render_events marshal_request unmarshal_meta text (TestRender.draft (preview_body source)) rctx
    (TestRender.test_opts s (preview_body source) (TestRender.draft (preview_body source))) res evs →
  Forall offline evs.
Proof.
  intros [(_ & _ & [->|[cred ->]])|(req & c & Hreq & _ & Hevs)]; [done|by repeat constructor|].
  destruct Hreq as (_ & _ & _ & _ & Hal & _ & _ & Hsec).
  assert (offline (Supervisor.EvDrive req c)).
  { split; [exact Hal|]. apply map_empty. intros k. destruct (Supervisor.RSecrets req !! k) as [v|] eqn:Hk; [|done].
    destruct (Hsec k v Hk) as [Hin _]. by apply elem_of_nil in Hin. }
  destruct Hevs as [->| ->]; repeat apply Forall_cons_2; done.
Qed.

(** What a render ends in: the frame the card shows, by how the render went. *)
Definition seam_answer (s : Supervisor.Supervisor) (res : Worker.RenderResult)
    (a : result preview_err bytes) : Prop :=
  match a with
  | Ok packed =>
      zlen packed = RenderDb.packed_len ∧
      packed = match Worker.RErr res with None => Worker.Packed res | Some _ => Supervisor.errorFrame s end
  | Err e => e = PreviewUnavailable
  end.

Definition seam_post (s : Supervisor.Supervisor) (w : Supervisor.world)
    (a : result preview_err bytes) (w' : Supervisor.world) : Prop :=
  TestRender.untouched w w' ∧
  ∃ evs res, Supervisor.w_trace w' = Supervisor.w_trace w ++ evs ∧ Forall offline evs ∧
    seam_answer s res a.

Lemma seam_answered s res wake packed_ok : zlen (Supervisor.errorFrame s) = RenderDb.packed_len →
  (Worker.RErr res = None → zlen (Worker.Packed res) = RenderDb.packed_len) →
  packed_ok = match TestRender.test_answer marshal_test_meta s res wake with
    | (Some out, 200) => match parsePackedFromTestFrame out with
                         | Some packed => Ok packed | None => Err PreviewFailed end
    | (None, 200) => Err PreviewFailed
    | _ => Err PreviewUnavailable end →
  seam_answer s res packed_ok.
Proof.
  intros Herr Hres ->. unfold TestRender.test_answer, TestRender.encodeTestFrame. cbv zeta.
  destruct (marshal_test_meta _) as [mj|] eqn:Hmj; [|done]. apply Hmeta in Hmj. cbn [seam_answer].
  destruct (Worker.RErr res) eqn:Hn; rewrite parse_framed by auto; unfold seam_answer; rewrite Hn; auto.
Qed.

(** The preview render is closed: whatever the template declares and whatever
    fails, it answers, no table, cache or durable frame changes, every request
    the worker is driven with carries an empty allow list and no secret, and no
    credential is registered for a host. The card's frame is the render's, or
    the error frame when the render fails (the seam answers 200 either way, so
    the handler caches the error frame like any other card). *)
Theorem preview_offline s source w fs (Herr : zlen (Supervisor.errorFrame s) = RenderDb.packed_len) :
  ∃ a w' fs', preview_seam box_open marshal_request unmarshal_meta text rfc3339 marshal_test_meta
    marshal_seam unmarshal_seam s source w fs = (Ok a, w', fs') ∧ seam_post s w a w'.
Proof.
  enough (H : wp (preview_seam box_open marshal_request unmarshal_meta text rfc3339 marshal_test_meta
    marshal_seam unmarshal_seam s source) w (seam_post s w)) by exact (H fs).
  unfold preview_seam, TestRender.TestRenderSeam. rewrite Hseam.
  apply wp_bind. unfold TestRender.testRender. cbn [TestRender.tID preview_body].
  apply wp_bind, wp_nowOrDefault. intros now w1 H1. cbv zeta. apply wp_bind. intros fs1.
  set (rctx := Supervisor.MkRequestCtx _ _ _ _).
  destruct (Worker.renderOnce_runs box_open marshal_request unmarshal_meta text s
    (TestRender.draft (preview_body source)) rctx
    (TestRender.test_opts s (preview_body source) (TestRender.draft (preview_body source))) w1 fs1)
    as (res & w2 & fs2 & evs & Hrun & Hk & Ht & Hev).
  exists res, w2, fs2. split; [exact Hrun|]. apply wp_bind, wp_wakeFor. intros wake w3 H3.
  apply wp_ret, wp_ret. split.
  { eapply TestRender.untouched_trans; [by apply TestRender.same_untouched|].
    eapply TestRender.untouched_trans; [by apply TestRender.kept_untouched|by apply TestRender.same_untouched]. }
  exists evs, res. split.
  { destruct H1 as (_ & _ & _ & H1 & _), H3 as (_ & _ & _ & H3 & _). by rewrite H3, Ht, H1. }
  split; [by eapply render_offline|]. eapply seam_answered; [done| |reflexivity].
  intros Hn. destruct Hev as [[? _]|(req & c & _ & -> & _)]; [done|].
  pose proof (Worker.pack_response_ok text (TestRender.test_opts s (preview_body source)
    (TestRender.draft (preview_body source))) (Supervisor.RID req)
    (Worker.exchange marshal_request unmarshal_meta req c)) as Hp. rewrite Hn in Hp. apply Hp.
Qed.
End Offline.

(** ** The route *)

Section Route.
Context (encode_png : list (Z * Z * Z) → list Z → option bytes).
Context (p : previewRenderer).
Context (Hrender : ∀ rd source f, render p = Some rd → wpf (rd source) f (λ _ f', f' = f)).

(** Where an image may come from. *)
Definition produced (t : TemplateStore.template_row) (png : bytes) : Prop :=
  fixtures p !! TemplateStore.t_name t = Some png ∨
  (TemplateStore.t_kind t = TemplateStore.KindRenderFn ∧
   ∃ packed, zlen packed = RenderDb.packed_len ∧ PackedToPNG encode_png packed = Some png).

Lemma wpf_produce name kind source f Q :
  (∀ e, Q (Err e) f) →
  (∀ png, fixtures p !! name = Some png ∨
     (kind = TemplateStore.KindRenderFn ∧
      ∃ packed, zlen packed = RenderDb.packed_len ∧ PackedToPNG encode_png packed = Some png) →
   Q (Ok png) f) →
  wpf (produce encode_png p name kind source) f Q.
Proof.
  intros Herr Hok. unfold produce. destruct (fixtures p !! name) as [fx|]; [apply wpf_ret; auto|].
  case_bool_decide as Hk; [|apply wpf_ret; auto]. cbn [negb].
  destruct (render p) as [rd|] eqn:Hrd; [|apply wpf_ret; auto].
  apply wpf_bind. eapply wpf_mono; [by apply Hrender|]. intros [packed|e] ? ->; apply wpf_ret; [|auto].
  destruct (PackedToPNG encode_png packed) as [png|] eqn:Hpng; [|auto]. apply Hok. right. split; [done|].
  exists packed. split; [|done]. unfold PackedToPNG in Hpng.
  by destruct (Z.eqb_spec (zlen packed) RenderDb.packed_len).
Qed.

(** The cache after a render: as it was, or with the image under its version. *)
Definition cache_step (id : Z) (t : TemplateStore.template_row) (png : bytes) (f f' : fleet) : Prop :=
  f' = f ∨ f' = set_store (TemplateStore.with_previews
                  (insert (id, TemplateStore.t_version t) png) (store f)) f.

Lemma StorePreview_step t png f : wpf (on_templates (TemplateStore.StorePreview (ID t)
    (TemplateStore.t_version (row t)) png)) f (λ _ f', cache_step (ID t) (row t) png f f').
Proof.
  apply wpf_call. intros fs r d' fs' H. unfold cache_step.
  apply stmt_inv in H as [[-> ->]|H]; [left; apply TemplateApply.set_store_same|].
  case_bool_decide; injection H as <- <-; [by right|left; apply TemplateApply.set_store_same].
Qed.

Lemma wpf_renderAndStore t f Q :
  (∀ e, Q (Err e) f) →
  (∀ png f', produced (row t) png → cache_step (ID t) (row t) png f f' → Q (Ok png) f') →
  wpf (renderAndStore encode_png p t) f Q.
Proof.
  intros Herr Hok. unfold renderAndStore. apply wpf_bind, wpf_produce.
  - intros e. by apply wpf_ret.
  - intros png Hpng. apply wpf_bind. eapply wpf_mono; [apply StorePreview_step|].
    intros ? f' Hstep. apply wpf_ret. by apply Hok.
Qed.

(** What a card's answer says. *)
Definition card_ok (c : ctx) (t : TemplateStore.template_row) (id : Z) (inm : string)
    (f : fleet) (a : answer) (f' : fleet) : Prop :=
  let cached := TemplateStore.previews (store f) !! (id, TemplateStore.t_version t) in
  match a with
  | Refused rep => f' = f ∧ (TemplateStore.t_builtin t || is_admin c = false → rStatus rep ∈ [403; 500])
  | NotModified etag | Image etag _ =>
      TemplateStore.t_builtin t || is_admin c = true ∧ etag = etag_of id (TemplateStore.t_version t) ∧
      (match a with NotModified _ => inm = etag | _ => inm ≠ etag end) ∧
      ∃ png, (match a with Image _ b => b = png | _ => True end) ∧
        match cached with
        | Some old => png = old ∧ f' = f
        | None => produced t png ∧ cache_step id t png f f'
        end
  end.

Lemma serve_image_ok c t inm png f f' :
  TemplateStore.t_builtin (row t) || is_admin c = true →
  match TemplateStore.previews (store f) !! (ID t, TemplateStore.t_version (row t)) with
  | Some old => png = old ∧ f' = f
  | None => produced (row t) png ∧ cache_step (ID t) (row t) png f f'
  end → card_ok c (row t) (ID t) inm f (serve_image inm (ID t) t png) f'.
Proof.
  intros Hp Hpng. unfold serve_image. cbv zeta. case_bool_decide as He; simpl;
    repeat (split; [done|]); by exists png.
Qed.

(** The preview route, whatever fails: an operator's template never renders
    for, and is never shown to, a caller without privilege; a card is an image
    for the template's current version and its own tag, 304 exactly when the
    client names that tag; a cached card is served as stored and renders
    nothing; an uncached one is the curated fixture, or the PNG of a panel-sized
    frame of a [render_fn], and the cache then differs at most by holding just
    that image at just that version. *)
Theorem preview_served r c path_id inm f id t (Hid : templateID path_id = Some id)
    (Ht : TemplateStore.templates (store f) !! id = Some t) :
  wpf (preview encode_png p r c path_id inm) f (card_ok c t id inm f).
Proof.
  unfold preview. rewrite Hid. apply wpf_bind, TemplateApply.wpf_load.
  - intros t' <- Ht'. rewrite Ht in Ht'. injection Ht' as ->.
    destruct (TemplateStore.t_builtin (row t') || is_admin c) eqn:Hp.
    2: { apply orb_false_iff in Hp as [Hb Ha]. rewrite Hb, Ha. apply wpf_ret. split; [done|]. cbn. set_solver. }
    rewrite <-negb_orb, Hp. cbn [negb].
    apply wpf_bind, wpf_call. intros fs res d' fs' Hl.
    assert (Hrefused : ∀ st code msg, card_ok c (row t') (ID t') inm f (Refused (WriteErr r [] st code msg)) f).
    { intros. split; [done|]. by rewrite Hp. }
    apply stmt_inv in Hl as [[-> ->]|Hl].
    { rewrite TemplateApply.set_store_same. apply wpf_ret. apply Hrefused. }
    destruct (TemplateStore.previews (store f) !! (ID t', _)) as [old|] eqn:Hold;
      injection Hl as <- <-; rewrite TemplateApply.set_store_same.
    + apply wpf_ret. apply serve_image_ok; [done|]. by rewrite Hold.
    + apply wpf_bind, wpf_renderAndStore; [intros []; apply wpf_ret, Hrefused|].
      intros png f' Hpng Hstep. apply wpf_ret. apply serve_image_ok; [done|]. by rewrite Hold.
  - congruence.
  - intros [] ?; try done; apply wpf_ret; (split; [done|]); cbn; set_solver.
Qed.
End Route.

(** ** Samples *)

Definition ex_png (pal : list (Z * Z * Z)) (px : list Z) : option bytes := Some (take 4 px).
Definition ex_renderer : previewRenderer := MkRenderer ∅ (Some (λ _, mret (Err PreviewFailed))).
Definition ex_card : TemplateStore.template_row :=
  TemplateStore.new_row "mine" TemplateStore.KindRenderFn (TemplateStore.MkBody ∅ "src" None [] [] None) false.
Definition ex_cards : fleet :=
  set_store (TemplateStore.MkDb {[9 := ex_card]} 10 {[(9, 1) := [7; 7]]} RenderDb.empty_db) ex_fleet.

(** The admin sees the stored card, another caller does not. *)
Lemma preview_served_witness :
  (preview ex_png ex_renderer ex_request ex_ctx "9" "" ex_cards []).1.1 =
    Ok (Image (string_of_bytes ([34; 57; 45; 49; 34])) [7; 7]) ∧
  wpf (preview ex_png ex_renderer ex_request (AdminGate.MkCtx None None) "9" "") ex_cards
    (card_ok ex_png ex_renderer (AdminGate.MkCtx None None) ex_card 9 "" ex_cards).
Proof.
  split; [vm_compute; reflexivity|].
  apply (preview_served ex_png ex_renderer).
  - intros rd source f [= <-]. by apply wpf_ret.
  - vm_compute. reflexivity.
  - reflexivity.
Defined.

(** No worker answers: the card is the error frame. *)
Lemma preview_offline_witness : ∃ a w' fs',
  preview_seam FrameSafety.sample_open FrameSafety.sample_marshal FrameSafety.sample_unmarshal
    FrameSafety.sample_text FrameSafety.sample_time (λ _, Some [123; 125])
    (λ b, bytes_of_string (TestRender.tSource b)) (λ b, Some (preview_body (string_of_bytes b)))
    FrameSafety.sample_supervisor "x" (FrameSafety.sample_world true) [] = (Ok a, w', fs') ∧
  seam_post FrameSafety.sample_supervisor (FrameSafety.sample_world true) a w'.
Proof.
  apply preview_offline.
  - intros _ mj [= <-]. done.
  - intros source. cbn [preview_body TestRender.tSource]. by rewrite string_of_bytes_of_string.
  - exact FrameSafety.sample_frame.
Defined.

End TemplatePreview.
