(* ===== verification/DbLogic.v ===== *)
(** * A program logic for handlers over tables

    [triple P m Q R]: from tables with [P], under every fault schedule, [m]
    ends in [Q] of its value or in [R] of its error. [within P m Q R c] is the
    same of the body of a transaction, of its working copy, with the committed
    tables [c] untouched until a commit. *)

From S2P Require Import Prelude Db.

Section Triple.
Context {S E : Type}.

Definition triple {A} (P : S → Prop) (m : M S E A) (Q : A → S → Prop) (R : E → S → Prop) : Prop :=
  ∀ s fs, P s → match m s fs with
                | (Ok a, s', _) => Q a s'
                | (Err e, s', _) => R e s'
                end.

Lemma triple_ret {A} (a : A) (P : S → Prop) Q R : (∀ s, P s → Q a s) → triple P (mret a) Q R.
Proof. intros H s fs Hs. by apply H. Qed.

Lemma triple_throw {A} (e : E) (P : S → Prop) Q (R : E → S → Prop) :
  (∀ s, P s → R e s) → triple P (throw e : M S E A) Q R.
Proof. intros H s fs Hs. by apply H. Qed.

Lemma triple_bind {A B} (m : M S E A) (k : A → M S E B) P Mid Q R :
  triple P m Mid R → (∀ a, triple (Mid a) (k a) Q R) → triple P (m ≫= k) Q R.
Proof.
  intros Hm Hk s fs Hs. unfold mbind, M_bind. specialize (Hm s fs Hs).
  destruct (m s fs) as [[[a|e] s'] fs']; [by apply Hk|done].
Qed.

Lemma triple_weaken {A} (m : M S E A) (P P' : S → Prop) (Q Q' : A → S → Prop) (R R' : E → S → Prop) :
  triple P' m Q' R' → (∀ s, P s → P' s) → (∀ a s, Q' a s → Q a s) → (∀ e s, R' e s → R e s) →
  triple P m Q R.
Proof.
  intros Hm HP HQ HR s fs Hs. specialize (Hm s fs (HP s Hs)).
  destruct (m s fs) as [[[a|e] s'] fs']; auto.
Qed.

(** The error becomes a value. *)
Lemma triple_attempt {A} (m : M S E A) P Q (R : E → S → Prop) :
  triple P m (λ a, Q (Ok a)) (λ e, Q (Err e)) → triple P (attempt m) Q R.
Proof.
  intros Hm s fs Hs. unfold attempt. specialize (Hm s fs Hs). by destruct (m s fs) as [[[a|e] s'] fs'].
Qed.

(** A statement runs, or fails and changes nothing. *)
Lemma triple_stmt {A} (e : E) (f : S → result E A * S) (P : S → Prop) Q (R : E → S → Prop) :
  (∀ s, P s → R e s) →
  (∀ s, P s → match f s with (Ok a, s') => Q a s' | (Err e', s') => R e' s' end) →
  triple P (stmt e f) Q R.
Proof.
  intros He Hf s fs Hs. unfold stmt. pose proof (Hf s Hs) as H.
  destruct fs as [|[] fs]; [|by apply He|]; by destruct (f s) as [[a|e'] s'].
Qed.

Lemma triple_query {A} (e : E) (f : S → result E A) (P : S → Prop) Q (R : E → S → Prop) :
  (∀ s, P s → R e s) →
  (∀ s, P s → match f s with Ok a => Q a s | Err e' => R e' s end) →
  triple P (query e f) Q R.
Proof. intros He Hf. apply triple_stmt; [done|]. intros s Hs. specialize (Hf s Hs). by destruct (f s). Qed.

Lemma triple_exec (e : E) (f : S → S) (P : S → Prop) Q (R : E → S → Prop) :
  (∀ s, P s → R e s) → (∀ s, P s → Q () (f s)) → triple P (exec e f) Q R.
Proof. intros He Hf. by apply triple_stmt. Qed.

(** What a run from a given state shows. *)
Lemma triple_run {A} (m : M S E A) P Q R s fs :
  triple P m Q R → P s → ∃ r s' fs', m s fs = (r, s', fs') ∧
    match r with Ok a => Q a s' | Err e => R e s' end.
Proof. intros H Hs. specialize (H s fs Hs). destruct (m s fs) as [[[a|e] s'] fs']; by eexists _, _, _. Qed.

End Triple.

(** ** Transactions *)

Section Within.
Context {S E : Type}.

Definition within {A} (c : S) (P : S → Prop) (m : M (Tx S) E A) (Q : A → S → Prop)
    (R : E → Prop) : Prop :=
  triple (λ t, tx_committed t = c ∧ P (tx_work t)) m (λ a t, tx_committed t = c ∧ Q a (tx_work t))
    (λ e t, tx_committed t = c ∧ R e).

(** A body that ends in a commit. *)
Definition settles {A} (c : S) (P : S → Prop) (m : M (Tx S) E A) (Q : A → S → Prop)
    (R : E → Prop) : Prop :=
  triple (λ t, tx_committed t = c ∧ P (tx_work t)) m (λ a t, Q a (tx_committed t))
    (λ e t, tx_committed t = c ∧ R e).

Lemma within_stmt {A} c (e : E) (f : S → result E A * S) (P : S → Prop) Q (R : E → Prop) :
  R e → (∀ s, P s → match f s with (Ok a, s') => Q a s' | (Err e', _) => R e' end) →
  within c P (tx_stmt e f) Q R.
Proof.
  intros He Hf. apply triple_stmt; [by intros t [Hc _]|]. intros t [Hc Hp]. specialize (Hf _ Hp).
  by destruct (f (tx_work t)) as [[a|e'] s'].
Qed.

Lemma within_query {A} c (e : E) (f : S → result E A) (P : S → Prop) Q (R : E → Prop) :
  R e → (∀ s, P s → match f s with Ok a => Q a s | Err e' => R e' end) →
  within c P (tx_query e f) Q R.
Proof. intros He Hf. apply within_stmt; [done|]. intros s Hs. specialize (Hf s Hs). by destruct (f s). Qed.

Lemma within_exec c (e : E) (f : S → S) (P : S → Prop) Q (R : E → Prop) :
  R e → (∀ s, P s → Q () (f s)) → within c P (tx_exec e f) Q R.
Proof. intros He Hf. by apply within_stmt. Qed.

Lemma settles_bind {A B} c (m : M (Tx S) E A) (k : A → M (Tx S) E B) P Mid Q R :
  within c P m Mid R → (∀ a, settles c (Mid a) (k a) Q R) → settles c P (m ≫= k) Q R.
Proof. intros Hm Hk. by eapply triple_bind. Qed.

Lemma settles_throw {A} c (e : E) (P : S → Prop) Q (R : E → Prop) :
  R e → settles c P (throw e : M (Tx S) E A) Q R.
Proof. intros He. apply triple_throw. by intros t [Hc _]. Qed.

Lemma settles_commit {A} c (e : E) (a : A) (P : S → Prop) Q (R : E → Prop) :
  R e → (∀ s, P s → Q a s) → settles c P (_ ← commit e; mret a) Q R.
Proof.
  intros He Hq. eapply (triple_bind _ _ _ (λ _ t, Q a (tx_committed t))); [|intros _; by apply triple_ret].
  apply triple_stmt; [by intros t [Hc _]|]. intros t [_ Hp]. by apply Hq.
Qed.

Lemma triple_tx {A} (e : E) (body : M (Tx S) E A) (P : S → Prop) Q (R : E → S → Prop) :
  (∀ s, P s → R e s) →
  (∀ c, P c → settles c (λ s, s = c) body Q (λ e', R e' c)) →
  triple P (with_tx e body) Q R.
Proof.
  intros He Hb s fs Hs. unfold with_tx.
  pose proof (Hb s Hs (MkTx s s) (tail fs) (conj eq_refl eq_refl)) as H.
  destruct fs as [|[] fs]; [|by apply He|]; simpl in *;
    destruct (body _ _) as [[[a|e'] t] fs']; simpl; [done| |done|]; by destruct H as [-> ?].
Qed.
End Within.
