(* ===== verification/Images.v ===== *)
(** * The image store ([internal/imgstore])

    The image rows and the content-addressed volume beside them. A file-system
    call is a statement like any other: it can fail and then leaves the volume
    as it was. The volume holds files only. [image.DecodeConfig] and the name
    [os.CreateTemp] picks are parameters; the column [blob_path] is never read
    and is not kept. *)

From S2P Require Import Prelude GoLib Crypto Db RenderDb Bindings PlRender PlaylistFrame.
Import GoLib Crypto.
Import RenderDb(image_row, MkImageRow, im_sha, im_mime, im_width, im_height, im_size).

Module Images.

Inductive err := ENotFound | ETooLarge | EUnsupported | EInUse | EDb | EIO.
#[global] Instance err_eq_dec : EqDecision err.
Proof. solve_decision. Defined.

Definition MaxImagePixels : Z := 24000000.

(** ** State *)

Record file := MkFile { f_data : bytes; f_mtime : Z }.

(** [image_meta]: the operator and creation time of a row; [blobs] is [None]
    until the directory exists. *)
Record vault := MkVault {
  tables : RenderDb.db; image_seq : Z; image_meta : gmap Z (option Z * Z);
  operators : gset Z; blobs : option (gmap string file) }.

Definition set_tables d (v : vault) : vault :=
  MkVault d (image_seq v) (image_meta v) (operators v) (blobs v).
Definition set_blobs b (v : vault) : vault :=
  MkVault (tables v) (image_seq v) (image_meta v) (operators v) b.
Definition images (v : vault) : gmap Z image_row := RenderDb.images (tables v).
Definition files (v : vault) : gmap string file := default ∅ (blobs v).

Record Image := MkImage {
  ID : Z; OperatorKeyID : option Z; Sha256 : string; Mime : string;
  Width : Z; Height : Z; ByteSize : Z; CreatedAt : Z }.

Definition image_of (v : vault) (id : Z) (r : image_row) : Image :=
  let m := default (None, 0) (image_meta v !! id) in
  MkImage id m.1 (im_sha r) (im_mime r) (im_width r) (im_height r) (im_size r) m.2.

(** ** Names *)

Definition sha_hex (blob : bytes) : string := string_of_bytes (hex_encode (sha256 blob)).
(** [sha + ".bin"], reduced to its last path element. *)
Definition blobFSPath (sha : string) : string := PlaylistFrame.blob_name sha.

Definition tmp_prefix : string := ".tmp-img-".
Definition is_tmp (name : string) : bool :=
  has_prefix (bytes_of_string tmp_prefix) (bytes_of_string name).
(** [strings.CutSuffix(name, ".bin")] *)
Definition cut_bin (name : string) : option string :=
  let b := bytes_of_string name in
  let n := (length b - 4)%nat in
  if bool_decide (drop n b = bytes_of_string ".bin") then Some (string_of_bytes (take n b)) else None.

Definition find_sha (sha : string) (v : vault) : option (Z * image_row) :=
  find_first (λ kv, bool_decide (im_sha kv.2 = sha)) (map_to_list (images v)).

Definition name_le (a b : string) : Prop := String.leb a b = true.
#[global] Instance name_le_dec a b : Decision (name_le a b).
Proof. unfold name_le. apply _. Defined.

Section Store.
Context (formatMIME_of : bytes → option (string * Z * Z)).
Context (tempName : gset string → string).

(** The decoders the server registers. *)
Definition formatMIME (format : string) : option string :=
  if bool_decide (format = "png"%string) then Some "image/png"%string
  else if bool_decide (format = "jpeg"%string) then Some "image/jpeg"%string
  else if bool_decide (format = "gif"%string) then Some "image/gif"%string
  else None.
(** [image.DecodeConfig]: the header's format and dimensions. *)
Definition sniff (blob : bytes) : option (string * Z * Z) :=
  c ← formatMIME_of blob;
  let '(format, w, h) := c in
  mime ← formatMIME format;
  Some (mime, w, h).

(** ** The volume *)

Definition fs_do (f : gmap string file → gmap string file) : M vault err unit :=
  exec EIO (λ v, set_blobs (Some (f (files v))) v).

(** Temp file, rename; the deferred remove cleans up and reports nothing. *)
Definition writeBlobAtomic (now : Z) (name : string) (data : bytes) : M vault err unit :=
  _ ← fs_do id;
  tmp ← query EIO (λ v, Ok (tempName (dom (files v))));
  _ ← fs_do <[tmp := MkFile [] now]>;
  r ← attempt (
    _ ← fs_do <[tmp := MkFile data now]>;
    _ ← fs_do id;
    fs_do (λ fs, <[name := MkFile data now]> (delete tmp fs)));
  _ ← attempt (fs_do (delete tmp));
  match r with Ok _ => mret () | Err e => throw e end.

(** [os.Remove] that tolerates a missing file. *)
Definition remove_blob (sha : string) : M vault err unit :=
  exec EIO (λ v, set_blobs (delete (blobFSPath sha) <$> blobs v) v).

(** ** Rows *)

Definition sha_ok (sha : string) : bool :=
  let b := bytes_of_string sha in
  (zlen b =? 64) && forallb (λ c, is_digit c || ((97 <=? c) && (c <=? 102))) b.
Definition in_int4 (n : Z) : bool := (- 2 ^ 31 <=? n) && (n <? 2 ^ 31).
Definition known_operator (op : option Z) (v : vault) : bool :=
  match op with Some k => bool_decide (k ∈ operators v) | None => true end.

(** [INSERT ... ON CONFLICT (sha256) DO NOTHING RETURNING]: the identity value
    is spent either way; no row is [ErrNotFound]. *)
Definition insert_image (now : Z) (op : option Z) (r : image_row) (v : vault) : result err Image * vault :=
  let id := image_seq v in
  let spent := MkVault (tables v) (id + 1) (image_meta v) (operators v) (blobs v) in
  if negb (sha_ok (im_sha r) && (0 <? im_size r) && in_int4 (im_width r) && in_int4 (im_height r))
  then (Err EDb, spent)
  else if bool_decide (is_Some (find_sha (im_sha r) v)) then (Err ENotFound, spent)
  else if negb (known_operator op v) then (Err EDb, spent)
  else
    let v' := MkVault (RenderDb.upd_images (insert id r) (tables v)) (id + 1)
                (insert id (op, now) (image_meta v)) (operators v) (blobs v) in
    (Ok (image_of v' id r), v').

Definition GetImage (id : Z) : M vault err Image :=
  query EDb (λ v, match images v !! id with
                  | Some r => Ok (image_of v id r) | None => Err ENotFound end).
Definition GetImageBySha (sha : string) : M vault err Image :=
  query EDb (λ v, match find_sha sha v with
                  | Some (id, r) => Ok (image_of v id r) | None => Err ENotFound end).

(** Only [IsNotExist] of the stat heals. *)
Definition heal (now : Z) (sha : string) (blob : bytes) : M vault err unit :=
  stat ← attempt (query EIO (λ v, Ok (bool_decide (files v !! blobFSPath sha = None))));
  match stat with
  | Ok true => writeBlobAtomic now (blobFSPath sha) blob
  | _ => mret ()
  end.

Definition PutImage (now : Z) (op : option Z) (blob : bytes) : M vault err Image :=
  match sniff blob with
  | None => throw EUnsupported
  | Some (mime, w, h) =>
      if MaxImagePixels <? i64 (w * h) then throw ETooLarge
      else
        let sha := sha_hex blob in
        r ← attempt (stmt EDb (insert_image now op (MkImageRow sha mime w h (zlen blob))));
        match r with
        | Err ENotFound => _ ← heal now sha blob; GetImageBySha sha
        | Err e => throw e
        | Ok img => _ ← writeBlobAtomic now (blobFSPath sha) blob; mret img
        end
  end.

(** ** Reading *)

Definition LoadBlob (id : Z) : M vault err (bytes * Image) :=
  img ← GetImage id;
  b ← query EIO (λ v, match files v !! blobFSPath (Sha256 img) with
                      | Some f => Ok (f_data f) | None => Err EIO end);
  mret (b, img).

Definition id_le (a b : Z * image_row) : Prop := a.1 ≤ b.1.
#[global] Instance id_le_dec a b : Decision (id_le a b).
Proof. unfold id_le. apply _. Defined.

(** [WHERE id > $1 ORDER BY id LIMIT $2] *)
Definition page (limit cursor : Z) (v : vault) : list (Z * image_row) :=
  take (Z.to_nat (if limit <=? 0 then 50 else limit))
    (merge_sort id_le (filter (λ kv, cursor < kv.1) (map_to_list (images v)))).
Definition ListImages (limit cursor : Z) : M vault err (list Image) :=
  query EDb (λ v, Ok ((λ kv, image_of v kv.1 kv.2) <$> page limit cursor v)).

(** ** Deleting *)

Definition referenced (id : Z) (d : RenderDb.db) : bool :=
  existsb (λ kv, RenderDb.ir_image kv.2 =? id) (map_to_list (RenderDb.items d)).

(** [DELETE ... RETURNING sha256], restricted by the foreign key of an item. *)
Definition delete_row (id : Z) (v : vault) : result err string * vault :=
  match images v !! id with
  | None => (Err ENotFound, v)
  | Some r =>
      if referenced id (tables v) then (Err EInUse, v)
      else (Ok (im_sha r),
            MkVault (RenderDb.upd_images (delete id) (tables v)) (image_seq v)
              (delete id (image_meta v)) (operators v) (blobs v))
  end.

Definition DeleteImage (id : Z) : M vault err unit :=
  sha ← stmt EDb (delete_row id); remove_blob sha.

(** Playlists that hold the image, by whether a device manages them. *)
Definition holds (id : Z) (d : RenderDb.db) (pid : Z) : bool :=
  existsb (λ kv, (RenderDb.ir_image kv.2 =? id) && (RenderDb.ir_playlist kv.2 =? pid))
    (map_to_list (RenderDb.items d)).
Definition managed (r : RenderDb.playlist_row) : bool := bool_decide (is_Some (RenderDb.pr_managed r)).

Definition inReal (id : Z) (d : RenderDb.db) : bool :=
  existsb (λ kv, holds id d kv.1 && negb (managed kv.2)) (map_to_list (RenderDb.playlists d)).
(** [DELETE FROM playlist_cursor WHERE serial IN (managed serials)] *)
Definition drop_cursors (id : Z) (d : RenderDb.db) : RenderDb.db :=
  RenderDb.upd_cursors (filter (λ kv,
    existsb (λ p, holds id d p.1 && bool_decide (RenderDb.pr_managed p.2 = Some kv.1))
      (map_to_list (RenderDb.playlists d)) = false)) d.
Definition drop_playlists (id : Z) (d : RenderDb.db) : RenderDb.db :=
  RenderDb.delete_playlists (λ p, managed p.2 && holds id d p.1) d.

Definition DeleteImageManagedAware (id : Z) : M vault err unit :=
  sha ← with_tx EDb (
    inReal ← tx_query EDb (λ v, Ok (inReal id (tables v)));
    if inReal : bool then throw EInUse
    else
      _ ← tx_exec EDb (λ v, set_tables (drop_cursors id (tables v)) v);
      _ ← tx_exec EDb (λ v, set_tables (drop_playlists id (tables v)) v);
      sha ← tx_stmt EDb (delete_row id);
      _ ← commit EDb;
      mret sha);
  remove_blob sha.

(** ** The sweep *)

Record sweep := MkSweep { s_removed : Z; s_onDisk : gset string }.

(** One entry of the listing: its age is read when its turn comes, and an entry
    whose age cannot be read is left; [None] continues, an error stops. *)
Definition old (now grace : Z) (f : file) : bool := grace <=? PlRender.time_sub now (f_mtime f).
Definition info (name : string) : M vault err (result err file) :=
  attempt (query EIO (λ v, match files v !! name with Some f => Ok f | None => Err EIO end)).
Definition remove_name (name : string) : M vault err unit :=
  exec EIO (λ v, set_blobs (delete name <$> blobs v) v).

Definition sweep_entry (now grace : Z) (known : gset string) (name : string) (s : sweep)
    : M vault err (sweep * bool) :=
  let reap s :=
    i ← info name;
    match i with
    | Ok f =>
        if old now grace f then
          x ← attempt (remove_name name);
          mret (if is_ok x then (MkSweep (s_removed s + 1) (s_onDisk s), true) else (s, false))
        else mret (s, true)
    | Err _ => mret (s, true)
    end in
  if is_tmp name then reap s
  else match cut_bin name with
  | None => mret (s, true)
  | Some sha =>
      let s := MkSweep (s_removed s) ({[sha]} ∪ s_onDisk s) in
      if bool_decide (sha ∈ known) then mret (s, true) else reap s
  end.

Fixpoint sweep_entries (now grace : Z) (known : gset string) (names : list string) (s : sweep)
    : M vault err (sweep * bool) :=
  match names with
  | [] => mret (s, true)
  | name :: names =>
      r ← sweep_entry now grace known name s;
      if r.2 : bool then sweep_entries now grace known names r.1 else mret r
  end.

Definition shas (v : vault) : gset string := list_to_set (im_sha ∘ snd <$> map_to_list (images v)).

(** [removed], [missing]; the error, if any, with the counts so far. *)
Definition SweepOrphanBlobs (now grace : Z) : M vault err (Z * Z * bool) :=
  names ← query EIO (λ v, Ok ((λ fs : gmap string file, merge_sort name_le (map_to_list fs).*1) <$> blobs v));
  match names with
  | None => mret (0, 0, true)
  | Some names =>
      known ← query EDb (λ v, Ok (shas v));
      r ← sweep_entries now grace known names (MkSweep 0 ∅);
      mret (if r.2 : bool
            then (s_removed r.1, Z.of_nat (size (known ∖ s_onDisk r.1)), true)
            else (s_removed r.1, 0, false))
  end.
End Store.
End Images.
