(* ===== verification/ImageLaws.v ===== *)
(** * What the image store guarantees

    The volume stays content addressed, a stored image stays readable under any
    later operation but its own deletion, and the sweep reaps exactly the old
    orphans. *)

From S2P Require Import Prelude GoLib Crypto Db DbLogic RenderDb PlaylistStore Bindings PlRender PlaylistFrame Images.
Import GoLib Crypto Images.
Import RenderDb(image_row, MkImageRow, im_sha, im_mime, im_width, im_height, im_size).

Module ImageLaws.

(** ** Names *)

Lemma hex_length b : length (hex_encode b) = (2 * length b)%nat.
Proof. induction b as [|x b IH]; [done|]. cbn [hex_encode length]. rewrite IH. lia. Qed.

Lemma sha_hex_bytes blob : bytes_of_string (sha_hex blob) = hex_encode (sha256 blob).
Proof. apply bytes_of_string_of_bytes, hex_encode_bytes, sha256_bytes. Qed.

Definition hex_char (c : Z) : bool := is_digit c || ((97 <=? c) && (c <=? 102)).

Lemma hex_digit_ok v : 0 ≤ v < 16 → hex_char (hex_digit v) = true.
Proof. intros. unfold hex_char, hex_digit, is_digit. destruct (Z.ltb_spec v 10); zsolve. Qed.

Lemma sha_hex_ok blob : sha_ok (sha_hex blob) = true.
Proof.
  unfold sha_ok. rewrite sha_hex_bytes. unfold zlen. rewrite hex_length, sha256_length.
  apply andb_true_iff. split; [done|]. generalize (sha256_bytes blob). generalize (sha256 blob).
  intros l Hl. induction Hl as [|x l Hx Hl IH]; [done|]. cbn [hex_encode forallb].
  unfold byte_ok in Hx. fold (hex_char (hex_digit (x / 16))) (hex_char (hex_digit (x mod 16))).
  rewrite !hex_digit_ok by dlia. exact IH.
Qed.

Lemma sha_ok_chars sha : sha_ok sha = true →
  length (bytes_of_string sha) = 64%nat ∧ Forall (λ c, hex_char c = true) (bytes_of_string sha).
Proof.
  unfold sha_ok. intros [Hl Hf]%andb_true_iff. apply Z.eqb_eq in Hl. unfold zlen in Hl.
  split; [lia|]. apply Forall_forall. intros c Hc. rewrite forallb_forall in Hf. apply Hf.
  by apply list_elem_of_In.
Qed.

Lemma blob_bytes sha : sha_ok sha = true →
  bytes_of_string (blobFSPath sha) = bytes_of_string sha ++ bytes_of_string ".bin".
Proof.
  intros [Hl Hc]%sha_ok_chars. unfold blobFSPath, PlaylistFrame.blob_name.
  assert (bytes_of_string (sha ++ ".bin") = bytes_of_string sha ++ bytes_of_string ".bin") as ->.
  { clear. unfold bytes_of_string. induction sha as [|a s IH]; [done|]. simpl. by rewrite IH. }
  assert (Hok : bytes_ok (bytes_of_string sha ++ bytes_of_string ".bin"))
    by (apply Forall_app; split; apply bytes_of_string_ok).
  rewrite path_base_id; [by rewrite bytes_of_string_of_bytes|by destruct (bytes_of_string sha)|].
  rewrite elem_of_app. intros [Hin|Hin]; [|by apply (bool_decide_eq_true (47 ∈ bytes_of_string ".bin")) in Hin].
  rewrite Forall_forall in Hc. by apply Hc in Hin.
Qed.

Lemma blob_inj a b : sha_ok a = true → sha_ok b = true → blobFSPath a = blobFSPath b → a = b.
Proof.
  intros Ha Hb H. apply bytes_of_string_inj. apply (f_equal bytes_of_string) in H.
  rewrite !blob_bytes in H by done. by apply app_inj_tail_iff in H || simplify_list_eq.
Qed.

Lemma blob_not_tmp sha : sha_ok sha = true → is_tmp (blobFSPath sha) = false.
Proof.
  intros Hs. unfold is_tmp. rewrite blob_bytes by done. apply sha_ok_chars in Hs as [Hl Hc].
  destruct (bytes_of_string sha) as [|c s]; [done|]. apply Forall_cons in Hc as [Hc _].
  destruct (Z.eq_dec c 46) as [->|Hne]; [done|]. apply not_true_is_false. intros H.
  apply has_prefix_app in H as [r Hr]. injection Hr as Hr _. by apply Hne.
Qed.

Lemma cut_blob sha : sha_ok sha = true → cut_bin (blobFSPath sha) = Some sha.
Proof.
  intros Hs. unfold cut_bin. rewrite blob_bytes by done. rewrite length_app.
  change (length (bytes_of_string ".bin")) with 4%nat. rewrite Nat.add_sub.
  rewrite drop_app_len, take_app_len by done. rewrite bool_decide_true by done.
  by rewrite string_of_bytes_of_string.
Qed.

(** ** The invariant *)

(** The types the store can serve. *)
Definition mimes : list string := ["image/png"; "image/jpeg"; "image/gif"]%string.

Record wf (v : vault) : Prop := {
  wf_row : ∀ id r, images v !! id = Some r →
    sha_ok (im_sha r) = true ∧ im_width r * im_height r ≤ MaxImagePixels ∧ im_mime r ∈ mimes ∧ id < image_seq v;
  wf_unique : ∀ i j ri rj, images v !! i = Some ri → images v !! j = Some rj →
    im_sha ri = im_sha rj → i = j;
  wf_addr : ∀ sha f, sha_ok sha = true → files v !! blobFSPath sha = Some f → sha_hex (f_data f) = sha }.

(** A row, with its blob in place. *)
Definition held (h : option (Z * image_row)) (v : vault) : Prop :=
  match h with
  | Some (id, r) => images v !! id = Some r ∧ is_Some (files v !! blobFSPath (im_sha r))
  | None => True
  end.
Definition inv (h : option (Z * image_row)) (v : vault) : Prop := wf v ∧ held h v.

Lemma find_sha_Some sha v id r : find_sha sha v = Some (id, r) → images v !! id = Some r ∧ im_sha r = sha.
Proof.
  intros [Hin Hp]%find_first_Some. apply elem_of_map_to_list in Hin. by apply bool_decide_eq_true in Hp.
Qed.
Lemma find_sha_None sha v id r : find_sha sha v = None → images v !! id = Some r → im_sha r ≠ sha.
Proof.
  intros Hn Hr Hs. apply (find_first_None _ _) with (x := (id, r)) in Hn.
  - by apply bool_decide_eq_false in Hn.
  - by apply elem_of_map_to_list.
Qed.

(** A change of the volume only. *)
Lemma inv_blobs h v b : inv h v →
  (∀ sha f, sha_ok sha = true → default ∅ b !! blobFSPath sha = Some f →
     files v !! blobFSPath sha = Some f ∨ sha_hex (f_data f) = sha) →
  (∀ id r, h = Some (id, r) → sha_ok (im_sha r) = true → is_Some (files v !! blobFSPath (im_sha r)) →
     is_Some (default ∅ b !! blobFSPath (im_sha r))) →
  inv h (set_blobs b v).
Proof.
  intros [[Hr Hu Ha] Hh] Hb Hk. split; [split|]; simpl; [done|done| |].
  - intros sha f Hs Hf. change (files (set_blobs b v)) with (default ∅ b) in Hf.
    destruct (Hb sha f Hs Hf); [by apply Ha|done].
  - destruct h as [[id r]|]; [|done]. destruct Hh as [Hi Hp]. split; [done|].
    change (files (set_blobs b v)) with (default ∅ b). eapply Hk; eauto. by apply (Hr id r).
Qed.

Lemma inv_tmp h v name f : is_tmp name = true → inv h v →
  inv h (set_blobs (Some (<[name := f]> (files v))) v).
Proof.
  intros Ht Hi. assert (Hne : ∀ sha, sha_ok sha = true → name ≠ blobFSPath sha).
  { intros sha Hs ->. by rewrite blob_not_tmp in Ht. }
  apply inv_blobs; [done|..]; simpl.
  - intros sha g Hs. rewrite lookup_insert_ne by auto. auto.
  - intros id r _ Hs. by rewrite lookup_insert_ne by auto.
Qed.

Lemma inv_untmp h v name : is_tmp name = true → inv h v →
  inv h (set_blobs (Some (delete name (files v))) v).
Proof.
  intros Ht Hi. assert (Hne : ∀ sha, sha_ok sha = true → name ≠ blobFSPath sha).
  { intros sha Hs ->. by rewrite blob_not_tmp in Ht. }
  apply inv_blobs; [done|..]; simpl.
  - intros sha g Hs. rewrite lookup_delete_ne by auto. auto.
  - intros id r _ Hs. by rewrite lookup_delete_ne by auto.
Qed.

Lemma inv_same h v : inv h v → inv h (set_blobs (Some (files v)) v).
Proof. intros Hi. apply inv_blobs; simpl; auto. Qed.

(** Removing a blob no row needs. *)
Lemma inv_remove h v name : inv h v →
  (∀ id r, h = Some (id, r) → sha_ok (im_sha r) = true → name ≠ blobFSPath (im_sha r)) →
  inv h (set_blobs (delete name <$> blobs v) v).
Proof.
  intros Hi Hne. assert (Hd : default ∅ (delete name <$> blobs v) = delete name (files v)).
  { unfold files. destruct (blobs v); simpl; [done|]. by rewrite delete_empty. }
  apply inv_blobs; [done|..]; rewrite Hd.
  - intros sha g Hs. rewrite lookup_delete_Some. tauto.
  - intros id r Hh Hs. rewrite lookup_delete_ne by eauto. done.
Qed.

(** ** The operations keep it *)

Section Store.
Context (decode_config : bytes → option (string * Z * Z)).
Context (tempName : gset string → string).
Context (Htmp : ∀ X, is_tmp (tempName X) = true).

(** What a change of the volume leaves alone. *)
Definition on_tables (K : vault → Prop) : Prop := ∀ v b, K v → K (set_blobs b v).

Lemma triple_fs h K f : on_tables K →
  (∀ v, K v → inv h v → inv h (set_blobs (Some (f (files v))) v)) →
  triple (λ v, inv h v ∧ K v) (fs_do f) (λ _ v, inv h v ∧ K v) (λ _ v, inv h v ∧ K v).
Proof. intros HK Hf. apply triple_exec; [done|]. intros v [Hi Hk]. auto. Qed.

Definition present (data : bytes) (v : vault) : Prop := is_Some (files v !! blobFSPath (sha_hex data)).

(** The rename puts the blob under its own address. *)
Lemma inv_rename h v tmp now data : is_tmp tmp = true → inv h v →
  inv h (set_blobs (Some (<[blobFSPath (sha_hex data) := MkFile data now]> (delete tmp (files v)))) v).
Proof.
  intros Ht Hi. apply inv_blobs; [done|..]; simpl.
  - intros sha f Hs. destruct (decide (blobFSPath (sha_hex data) = blobFSPath sha)) as [He|He].
    + apply blob_inj in He; [|apply sha_hex_ok|done]. subst sha. rewrite lookup_insert_eq.
      intros [= <-]. by right.
    + rewrite lookup_insert_ne by done. rewrite lookup_delete_Some. intros [_ ?]. by left.
  - intros id r _ Hs Hp. destruct (decide (blobFSPath (sha_hex data) = blobFSPath (im_sha r))) as [He|He].
    + rewrite He, lookup_insert_eq. eauto.
    + rewrite lookup_insert_ne, lookup_delete_ne; [done| |done].
      intros He2. by rewrite He2, blob_not_tmp in Ht.
Qed.

Lemma rename_keeps h K tmp now data : on_tables K → is_tmp tmp = true →
  triple (λ v, inv h v ∧ K v)
    (_ ← fs_do <[tmp := MkFile data now]>;
     _ ← fs_do id;
     fs_do (λ fs, <[blobFSPath (sha_hex data) := MkFile data now]> (delete tmp fs)))
    (λ _ v, inv h v ∧ K v ∧ present data v) (λ _ v, inv h v ∧ K v).
Proof.
  intros HK Ht. eapply triple_bind; [apply (triple_fs h K); auto using inv_tmp|intros []].
  eapply triple_bind; [apply (triple_fs h K); [done|intros; by apply inv_same]|intros []].
  apply triple_exec; [done|]. intros v [Hi Hk]. split; [by apply inv_rename|]. split; [by apply HK|].
  unfold present, files. simpl. rewrite lookup_insert_eq. eauto.
Qed.

Lemma writeBlobAtomic_keeps h K now data : on_tables K →
  triple (λ v, inv h v ∧ K v) (writeBlobAtomic tempName now (blobFSPath (sha_hex data)) data)
    (λ _ v, inv h v ∧ K v ∧ present data v) (λ _ v, inv h v ∧ K v).
Proof.
  intros HK. unfold writeBlobAtomic.
  eapply triple_bind; [apply (triple_fs h K); [done|intros; by apply inv_same]|intros []].
  apply (triple_bind _ _ _ (λ tmp v, inv h v ∧ (is_tmp tmp = true ∧ K v))).
  { apply triple_query; [done|]. intros v [Hi Hk]. by split. }
  intros tmp. set (K' := λ v, is_tmp tmp = true ∧ K v).
  assert (HK' : on_tables K') by (intros v b [? ?]; split; [done|by apply HK]).
  apply (triple_bind _ _ _ (λ _ v, inv h v ∧ K' v)).
  { eapply triple_weaken; [apply (triple_fs h K'); [done|intros v [Ht _]; by apply inv_tmp]|done..|].
    by intros e v (?&_&?). }
  intros []. apply (triple_bind _ _ _ (λ r v, inv h v ∧ K' v ∧
    match r with Ok _ => present data v | Err _ => True end)).
  - apply triple_attempt. intros v fs [Hi [Ht Hk]].
    eapply (triple_weaken _ (λ v, inv h v ∧ K v)); [by apply (rename_keeps h K)|done|..|done];
      unfold K'; tauto.
  - intros r. apply (triple_bind _ _ _ (λ _ v, inv h v ∧ K v ∧
      match r with Ok _ => present data v | Err _ => True end)).
    + apply triple_attempt, triple_exec; [by intros v (?&[_ ?]&?)|]. intros v (Hi & [Ht Hk] & Hp).
      split; [by apply inv_untmp|]. split; [by apply HK|]. destruct r; [|done].
      unfold present, files. simpl. rewrite lookup_delete_ne; [done|].
      intros He. rewrite He, blob_not_tmp in Ht; [done|apply sha_hex_ok].
    + intros ?. destruct r as [[]|e]; [by apply triple_ret|]. apply triple_throw. by intros v (?&?&?).
Qed.

(** ** Ingest *)

(** The image is a row of the blob's address. *)
Definition row_for (img : Image) (blob : bytes) (v : vault) : Prop :=
  ∃ r, images v !! ID img = Some r ∧ im_sha r = sha_hex blob.

Lemma sniff_pixels blob mime w k : sniff decode_config blob = Some (mime, w, k) →
  in_int4 w = true → in_int4 k = true → (MaxImagePixels <? i64 (w * k)) = false → w * k ≤ MaxImagePixels.
Proof.
  unfold in_int4. intros _ [?%Z.leb_le ?%Z.ltb_lt]%andb_true_iff [?%Z.leb_le ?%Z.ltb_lt]%andb_true_iff.
  rewrite i64_small by (unfold in_i64, min_i64, max_i64; nia). intros ?%Z.ltb_ge. done.
Qed.

(** A row the gates of [PutImage] let through. *)
Definition row_ok (r : image_row) : Prop :=
  im_mime r ∈ mimes ∧
  (in_int4 (im_width r) = true → in_int4 (im_height r) = true → im_width r * im_height r ≤ MaxImagePixels).

Lemma sniffed_ok blob mime w k sha n : sniff decode_config blob = Some (mime, w, k) →
  (MaxImagePixels <? i64 (w * k)) = false → row_ok (MkImageRow sha mime w k n).
Proof.
  intros Hs Hpx. split; [|intros; by eapply sniff_pixels]. unfold sniff in Hs.
  destruct (decode_config blob) as [[[f a] b]|]; [|done]. simpl in Hs. unfold formatMIME in Hs.
  repeat case_bool_decide; simplify_eq/=; set_solver.
Qed.

Lemma insert_image_inv h now op r v : inv h v → row_ok r →
  match insert_image now op r v with
  | (Ok img, v') => inv h v' ∧ images v' !! ID img = Some r ∧ find_sha (im_sha r) v = None
  | (Err e, v') => inv h v' ∧ images v' = images v ∧ (e = ENotFound → is_Some (find_sha (im_sha r) v'))
  end.
Proof.
  intros [[Hr Hu Ha] Hh] [Hmime Hpx]. unfold insert_image. cbv zeta.
  assert (Hsp : inv h (MkVault (tables v) (image_seq v + 1) (image_meta v) (operators v) (blobs v))).
  { split; [split; [|done|done]|by destruct h as [[]|]]. intros id r' Hi. destruct (Hr id r' Hi) as (?&?&?&?).
    simpl. split_and!; [done|done|done|lia]. }
  destruct (sha_ok (im_sha r)) eqn:Hs; [|by split]. destruct (0 <? im_size r); [|by split].
  destruct (in_int4 (im_width r)) eqn:Hw; [|by split]. destruct (in_int4 (im_height r)) eqn:Hk; [|by split].
  cbn [andb negb]. case_bool_decide as Hf; [by split|]. rewrite <-eq_None_not_Some in Hf.
  destruct (known_operator op v); cbn [negb]; [|by split].
  set (v' := MkVault _ _ _ _ _). assert (Him : images v' = <[image_seq v := r]> (images v)) by done.
  split; [split; [split|]|].
  - intros id r'. rewrite Him. intros [[<- <-]|[_ Hi]]%lookup_insert_Some.
    + simpl. split_and!; [done|by apply Hpx|done|lia].
    + destruct (Hr id r' Hi) as (?&?&?&?). simpl. split_and!; [done|done|done|lia].
  - intros i j ri rj. rewrite Him.
    intros [[<- <-]|[? Hi]]%lookup_insert_Some [[<- <-]|[? Hj]]%lookup_insert_Some He; [done|..].
    + by destruct (find_sha_None _ _ _ _ Hf Hj).
    + by destruct (find_sha_None _ _ _ _ Hf Hi).
    + by eapply Hu.
  - exact Ha.
  - destruct h as [[id r']|]; [|done]. destruct Hh as [Hi Hp]. split; [|done].
    rewrite Him, lookup_insert_ne; [done|]. intros <-. by apply Hr in Hi as (_ & _ & _ & ?%Z.lt_irrefl).
  - split; [|done]. change (ID _) with (image_seq v). by rewrite Him, lookup_insert_eq.
Qed.

Lemma find_sha_on_tables sha : on_tables (λ v, is_Some (find_sha sha v)).
Proof. by intros v b. Qed.

Lemma heal_keeps h K now blob : on_tables K →
  triple (λ v, inv h v ∧ K v) (heal tempName now (sha_hex blob) blob) (λ _ v, inv h v ∧ K v)
    (λ _ v, inv h v ∧ K v).
Proof.
  intros HK. unfold heal. apply (triple_bind _ _ _ (λ _ v, inv h v ∧ K v)).
  { apply triple_attempt. by apply triple_query. }
  intros [[]|e]; try (by apply triple_ret).
  eapply triple_weaken; [by apply (writeBlobAtomic_keeps h K)|done|by intros ? ? (?&?&?)|done].
Qed.

(** What the reservation leaves. *)
Lemma reserved h now op r : row_ok r →
  triple (inv h) (attempt (stmt EDb (insert_image now op r))) (λ x v, inv h v ∧ match x with
    | Ok img => images v !! ID img = Some r
    | Err e => e = ENotFound → is_Some (find_sha (im_sha r) v) end) (λ _, inv h).
Proof.
  intros Hpx. apply triple_attempt, triple_stmt; [by intros v ?|]. intros v Hi.
  pose proof (insert_image_inv h now op r v Hi Hpx) as H.
  destruct (insert_image now op r v) as [[img|e] v']; tauto.
Qed.

Lemma PutImage_keeps h now op blob :
  triple (inv h) (PutImage decode_config tempName now op blob) (λ img v, inv h v ∧ row_for img blob v)
    (λ _, inv h).
Proof.
  unfold PutImage. destruct (sniff decode_config blob) as [[[mime w] k]|] eqn:Hsn; [|by apply triple_throw].
  destruct (MaxImagePixels <? i64 (w * k)) eqn:Hpx; [by apply triple_throw|]. cbv zeta.
  set (r := MkImageRow _ _ _ _ _).
  eapply triple_bind; [by apply reserved; eapply sniffed_ok|].
  intros [img|e].
  - set (K := λ v, images v !! ID img = Some r).
    assert (HK : on_tables K) by by intros v b.
    apply (triple_bind _ _ _ (λ _ v, inv h v ∧ K v ∧ present blob v)).
    + eapply triple_weaken; [by apply (writeBlobAtomic_keeps h K)|done|done|by intros ? ? [? ?]].
    + intros []. apply triple_ret. intros v (Hi & Hk & _). split; [done|]. by exists r.
  - destruct e; try (apply triple_throw; by intros v [? ?]).
    apply (triple_bind _ _ _ (λ _ v, inv h v ∧ is_Some (find_sha (sha_hex blob) v))).
    + eapply triple_weaken; [by apply (heal_keeps h _ now blob (find_sha_on_tables (sha_hex blob)))|
        intros v [? H]; split; [done|by apply H]|done|by intros ? ? [? ?]].
    + intros []. apply triple_query; [by intros v [? ?]|]. intros v [Hi [[id r'] Hf]]. rewrite Hf. split; [done|].
      apply find_sha_Some in Hf. by exists r'.
Qed.

Lemma write_present now blob v fs v' fs' : wf v →
  writeBlobAtomic tempName now (blobFSPath (sha_hex blob)) blob v fs = (Ok (), v', fs') → present blob v'.
Proof.
  intros Hw Hrun. pose proof (writeBlobAtomic_keeps None (λ _, True) now blob (λ _ _ _, I) v fs
    (conj (conj Hw I) I)) as H. rewrite Hrun in H. apply H.
Qed.

(** A successful upload leaves its bytes' address in the volume, unless the row
    was there before and the stat of its blob failed. *)
Lemma PutImage_present now op blob v fs img v' fs' : wf v →
  PutImage decode_config tempName now op blob v fs = (Ok img, v', fs') →
  fs = [] ∨ find_sha (sha_hex blob) v = None → present blob v'.
Proof.
  intros Hw. unfold PutImage. destruct (sniff decode_config blob) as [[[mime w] k]|] eqn:Hsn; [|done].
  destruct (MaxImagePixels <? i64 (w * k)) eqn:Hpx; [done|]. cbv zeta.
  set (r := MkImageRow _ _ _ _ _). intros Hrun Hcase.
  apply bind_inv in Hrun as [(e & _ & ?)|(x & v1 & fs1 & Hx & Hrun)]; [done|].
  assert (Hw1 : wf v1 ∧ (fs = [] → fs1 = []) ∧
    (x = Err ENotFound → find_sha (sha_hex blob) v ≠ None)).
  { unfold attempt in Hx. destruct (stmt _ _ v fs) as [[y v2] fs2] eqn:Hst.
    injection Hx as <- <- <-.
    pose proof (insert_image_inv None now op r v (conj Hw I) ltac:(by eapply sniffed_ok)) as Hi.
    split; [|split].
    - apply stmt_inv in Hst as [[_ ->]|Hst]; [done|]. rewrite Hst in Hi. destruct y; apply Hi.
    - intros ->. unfold stmt in Hst. destruct (insert_image now op r v). by injection Hst.
    - intros ->. destruct (stmt_inv _ _ _ _ _ _ _ Hst) as [[He _]|Hrow]; [discriminate He|]. rewrite Hrow in Hi.
      destruct Hi as (_ & Him & Hf). specialize (Hf eq_refl). unfold find_sha in Hf |- *. rewrite Him in Hf.
      intros Hn. change (im_sha r) with (sha_hex blob) in Hf. rewrite Hn in Hf. by destruct Hf. }
  destruct Hw1 as (Hw1 & Hfs & Hnf). destruct x as [i|e].
  - apply bind_inv in Hrun as [(e & _ & ?)|([] & v2 & fs2 & Hwr & Hrun)]; [done|].
    injection Hrun as <- <- <-. by eapply write_present.
  - destruct e; try done. destruct Hcase as [->|Hn]; [|by destruct Hnf]. rewrite (Hfs eq_refl) in Hrun.
    apply bind_inv in Hrun as [(e & _ & ?)|([] & v2 & fs2 & Hh & Hrun)]; [done|].
    unfold GetImageBySha in Hrun. apply stmt_inv in Hrun as [[? _]|Hrun]; [done|].
    injection Hrun as _ <-. unfold heal, mbind, M_bind, attempt, query, stmt in Hh.
    case_bool_decide as Hfile; [by eapply write_present|]. injection Hh as <- _.
    unfold present. by destruct (files v1 !! _).
Qed.

(** ** Deletion *)

(** A row that is gone needs no blob. *)
Definition unneeded (sha : string) (h : option (Z * image_row)) : Prop :=
  ∀ id r, h = Some (id, r) → im_sha r ≠ sha.

Lemma delete_row_inv h id v : inv h v → (∀ r, h ≠ Some (id, r)) →
  match delete_row id v with
  | (Ok sha, v') => inv h v' ∧ sha_ok sha = true ∧ unneeded sha h
  | (Err _, v') => v' = v
  end.
Proof.
  intros [[Hr Hu Ha] Hh] Hne. unfold delete_row. destruct (images v !! id) as [r|] eqn:Hi; [|done].
  destruct (referenced id (tables v)); [done|]. set (v' := MkVault _ _ _ _ _).
  assert (Him : images v' = delete id (images v)) by done.
  split; [split; [split|]|split; [by eapply Hr|]].
  - intros j rj. rewrite Him. intros [_ Hj]%lookup_delete_Some. by apply Hr in Hj.
  - intros j k rj rk. rewrite Him. intros [_ Hj]%lookup_delete_Some [_ Hk]%lookup_delete_Some. by apply Hu.
  - exact Ha.
  - destruct h as [[j rj]|]; [|done]. destruct Hh as [Hj Hp]. split; [|done].
    rewrite Him, lookup_delete_ne; [done|]. intros ->. by apply (Hne rj).
  - intros j rj -> Hs. destruct Hh as [Hj _]. assert (j = id) as -> by by eapply Hu. by apply (Hne rj).
Qed.

Lemma remove_blob_keeps h sha : sha_ok sha = true → unneeded sha h →
  triple (inv h) (remove_blob sha) (λ _, inv h) (λ _, inv h).
Proof.
  intros Hs Hn. apply triple_exec; [done|]. intros v Hi. apply inv_remove; [done|].
  intros id r -> Hr He. apply blob_inj in He; [|done|done]. by apply (Hn id r).
Qed.

Lemma DeleteImage_keeps h id : (∀ r, h ≠ Some (id, r)) →
  triple (inv h) (DeleteImage id) (λ _, inv h) (λ _, inv h).
Proof.
  intros Hne. unfold DeleteImage.
  apply (triple_bind _ _ _ (λ sha v, inv h v ∧ sha_ok sha = true ∧ unneeded sha h)).
  - apply triple_stmt; [done|]. intros v Hi. pose proof (delete_row_inv h id v Hi Hne) as H.
    destruct (delete_row id v) as [[sha|e] v']; [done|by subst].
  - intros sha v fs (Hi & Hs & Hu). by apply remove_blob_keeps.
Qed.

(** A change of the tables that leaves the images alone. *)
Lemma inv_tables h v d : inv h v → RenderDb.images d = images v → inv h (set_tables d v).
Proof.
  intros [[Hr Hu Ha] Hh] He. assert (Him : images (set_tables d v) = images v) by exact He.
  split; [split; rewrite ?Him; done|]. destruct h as [[id r]|]; [|done]. unfold held. by rewrite Him.
Qed.

Lemma DeleteImageManagedAware_keeps h id : (∀ r, h ≠ Some (id, r)) →
  triple (inv h) (DeleteImageManagedAware id) (λ _, inv h) (λ _, inv h).
Proof.
  intros Hne. unfold DeleteImageManagedAware.
  apply (triple_bind _ _ _ (λ sha v, inv h v ∧ sha_ok sha = true ∧ unneeded sha h)).
  - apply triple_tx; [done|]. intros c Hc. apply (settles_bind _ _ _ _ (λ _ v, inv h v)).
    { apply within_query; [done|]. by intros v ->. }
    intros [|]; [by apply settles_throw|].
    apply (settles_bind _ _ _ _ (λ _ v, inv h v)); [apply within_exec; [done|]; intros v Hv; by apply inv_tables|intros []].
    apply (settles_bind _ _ _ _ (λ _ v, inv h v)); [apply within_exec; [done|]; intros v Hv; by apply inv_tables|intros []].
    apply (settles_bind _ _ _ _ (λ sha v, inv h v ∧ sha_ok sha = true ∧ unneeded sha h)).
    { apply within_stmt; [done|]. intros v Hv. pose proof (delete_row_inv h id v Hv Hne) as H.
      by destruct (delete_row id v) as [[sha|e] v']. }
    intros sha. by apply settles_commit.
  - intros sha v fs (Hi & Hs & Hu). by apply remove_blob_keeps.
Qed.

(** ** The sweep *)

(** Removing what is not needed. *)
Lemma remove_name_keeps h known name :
  is_tmp name = true ∨ (∃ sha, cut_bin name = Some sha ∧ sha ∉ known) →
  triple (λ v, inv h v ∧ shas v = known) (remove_name name) (λ _ v, inv h v ∧ shas v = known)
    (λ _ v, inv h v ∧ shas v = known).
Proof.
  intros Hname. apply triple_exec; [done|]. intros v [Hi Hk]. split; [|done].
  apply inv_remove; [done|]. intros id r -> Hs ->.
  destruct Hname as [Ht|(sha & Hc & Hn)]; [by rewrite blob_not_tmp in Ht|].
  rewrite cut_blob in Hc by done. injection Hc as <-. apply Hn. rewrite <-Hk. unfold shas.
  apply elem_of_list_to_set. destruct Hi as [_ [Hr _]].
  apply list_elem_of_fmap. exists (id, r). split; [done|]. by apply elem_of_map_to_list.
Qed.

Lemma sweep_entries_keeps h now grace known names s :
  triple (λ v, inv h v ∧ shas v = known) (sweep_entries now grace known names s)
    (λ _ v, inv h v ∧ shas v = known) (λ _ v, inv h v ∧ shas v = known).
Proof.
  revert s. induction names as [|name names IH]; intros s; [by apply triple_ret|].
  cbn [sweep_entries]. eapply triple_bind.
  2: { intros r. destruct (r.2); [apply IH|by apply triple_ret]. }
  assert (Hreap : ∀ s, (is_tmp name = true ∨ (∃ sha, cut_bin name = Some sha ∧ sha ∉ known)) →
    triple (λ v, inv h v ∧ shas v = known)
      (i ← info name;
       match i with
       | Ok f =>
           if old now grace f then
             x ← attempt (remove_name name);
             mret (if is_ok x then (MkSweep (s_removed s + 1) (s_onDisk s), true) else (s, false))
           else mret (s, true)
       | Err _ => mret (s, true)
       end) (λ _ v, inv h v ∧ shas v = known) (λ _ v, inv h v ∧ shas v = known)).
  { intros s' Hn. apply (triple_bind _ _ _ (λ _ v, inv h v ∧ shas v = known)).
    - apply triple_attempt, triple_query; [done|]. intros v Hv. by destruct (files v !! name).
    - intros [f|]; [|by apply triple_ret]. destruct (old now grace f); [|by apply triple_ret].
      apply (triple_bind _ _ _ (λ _ v, inv h v ∧ shas v = known)); [|by intros x; apply triple_ret].
      by apply triple_attempt, remove_name_keeps. }
  unfold sweep_entry. destruct (is_tmp name); [by apply Hreap; left|].
  destruct (cut_bin name) as [sha|]; [|by apply triple_ret]. cbv zeta.
  case_bool_decide; [by apply triple_ret|]. apply Hreap. right. by exists sha.
Qed.

Lemma SweepOrphanBlobs_keeps h now grace :
  triple (inv h) (SweepOrphanBlobs now grace) (λ _, inv h) (λ _, inv h).
Proof.
  unfold SweepOrphanBlobs. apply (triple_bind _ _ _ (λ _, inv h)); [by apply triple_query|].
  intros [names|]; [|by apply triple_ret].
  apply (triple_bind _ _ _ (λ known v, inv h v ∧ shas v = known)); [by apply triple_query|].
  intros known. apply (triple_bind _ _ _ (λ _ v, inv h v ∧ shas v = known)).
  - eapply triple_weaken; [apply (sweep_entries_keeps h)|done|done|by intros ? ? [? ?]].
  - intros r. apply triple_ret. by intros v [? ?].
Qed.

(** ** Histories *)

(** Everything that happens to the store: its operations, a write cut short by
    a crash, and the other components' changes of their own tables. *)
Inductive op :=
| OPut (now : Z) (by_ : option Z) (blob : bytes)
| ODelete (id : Z)
| OManaged (id : Z)
| OSweep (now grace : Z)
| OCrash (f : file)
| OTables (d : RenderDb.db).

Definition run_op (o : op) (v : vault) (fs : list bool) : vault :=
  match o with
  | OPut now who blob => (PutImage decode_config tempName now who blob v fs).1.2
  | ODelete id => (DeleteImage id v fs).1.2
  | OManaged id => (DeleteImageManagedAware id v fs).1.2
  | OSweep now grace => (SweepOrphanBlobs now grace v fs).1.2
  | OCrash f => set_blobs (Some (<[tempName (dom (files v)) := f]> (files v))) v
  | OTables d => set_tables (RenderDb.upd_images (λ _, images v) d) v
  end.
Definition run_ops (os : list (op * list bool)) (v : vault) : vault :=
  foldl (λ v o, run_op o.1 v o.2) v os.
Definition deletes (id : Z) (o : op) : Prop :=
  match o with ODelete i | OManaged i => i = id | _ => False end.

Lemma triple_inv {A} h (m : M vault err A) Q v fs :
  triple (inv h) m Q (λ _, inv h) → (∀ a v, Q a v → inv h v) → inv h v → inv h (m v fs).1.2.
Proof. intros Hm HQ Hi. specialize (Hm v fs Hi). destruct (m v fs) as [[[a|e] v'] fs']; eauto. Qed.

Lemma run_op_inv h o v fs : inv h v →
  match h with Some (id, _) => ¬ deletes id o | None => True end → inv h (run_op o v fs).
Proof.
  intros Hi Hd. assert (Hne : ∀ id, (o = ODelete id ∨ o = OManaged id) → ∀ r, h ≠ Some (id, r)).
  { intros id Ho r ->. apply Hd. by destruct Ho as [->| ->]. }
  destruct o; simpl.
  - eapply triple_inv; [apply PutImage_keeps|by intros ? ? [? ?]|done].
  - eapply triple_inv; [apply DeleteImage_keeps; auto|done|done].
  - eapply triple_inv; [apply DeleteImageManagedAware_keeps; auto|done|done].
  - eapply triple_inv; [apply SweepOrphanBlobs_keeps|done|done].
  - by apply inv_tmp.
  - by apply inv_tables.
Qed.

Lemma run_ops_inv h os v : inv h v →
  Forall (λ o, match h with Some (id, _) => ¬ deletes id o.1 | None => True end) os → inv h (run_ops os v).
Proof.
  intros Hi Hos. revert v Hi. induction Hos as [|o os Ho _ IH]; intros v Hi; [done|].
  apply IH. by apply run_op_inv.
Qed.

Lemma LoadBlob_held id r v : held (Some (id, r)) v → ∃ f,
  files v !! blobFSPath (im_sha r) = Some f ∧
  LoadBlob id v [] = (Ok (f_data f, image_of v id r), v, []).
Proof.
  intros [Hi [f Hf]]. exists f. split; [done|].
  unfold LoadBlob, GetImage, mbind, M_bind, query, stmt. rewrite Hi. cbn [Sha256 image_of]. by rewrite Hf.
Qed.

(** C12. An uploaded image is durable: once an upload has answered, whatever is
    uploaded, swept, crashed or deleted afterwards and wherever it fails, short
    of deleting that image, its row is there and reading it gives bytes of the
    uploaded content address; and the volume stays content addressed, its rows
    unique by address and within the pixel cap. (A repeat of stored content
    relies on its stat of the blob not failing.) *)
Theorem stored_image_durable v now who blob fs img v1 fs1 os (Hw : wf v)
    (Hput : PutImage decode_config tempName now who blob v fs = (Ok img, v1, fs1))
    (Hcase : fs = [] ∨ find_sha (sha_hex blob) v = None)
    (Hos : Forall (λ o, ¬ deletes (ID img) o.1) os) :
  let v2 := run_ops os v1 in
  wf v2 ∧ ∃ b img', LoadBlob (ID img) v2 [] = (Ok (b, img'), v2, []) ∧
    sha_hex b = sha_hex blob ∧ ID img' = ID img ∧ Sha256 img' = sha_hex blob.
Proof.
  pose proof (PutImage_keeps None now who blob v fs (conj Hw I)) as H. rewrite Hput in H.
  destruct H as [[Hw1 _] (r & Hr & Hs)].
  pose proof (PutImage_present now who blob v fs img v1 fs1 Hw Hput Hcase) as Hp.
  assert (Hi : inv (Some (ID img, r)) v1) by (split; [done|]; split; [done|by rewrite Hs]).
  apply (run_ops_inv _ os) in Hi; [|done]. destruct Hi as [Hw2 Hh].
  split; [done|]. destruct (LoadBlob_held _ _ _ Hh) as (f & Hf & Hl).
  eexists _, _. split; [exact Hl|]. split; [|done].
  rewrite <-Hs. apply (wf_addr _ Hw2); [|done]. rewrite Hs. apply sha_hex_ok.
Qed.

End Store.

(** ** What the sweep reaps *)

Lemma cut_bin_inv name sha : cut_bin name = Some sha → sha_ok sha = true → name = blobFSPath sha.
Proof.
  unfold cut_bin. cbv zeta. case_bool_decide as Hd; [|done]. intros Hc Hs.
  apply bytes_of_string_inj. rewrite blob_bytes by done. injection Hc as <-.
  rewrite bytes_of_string_of_bytes.
  2: { apply Forall_take, bytes_of_string_ok. }
  by rewrite <-Hd, take_drop.
Qed.

(** An orphan: a leftover temporary, or an address no row has. *)
Definition orphan (known : gset string) (name : string) : bool :=
  is_tmp name || match cut_bin name with Some sha => bool_decide (sha ∉ known) | None => false end.
Definition doomed (now grace : Z) (known : gset string) (kv : string * file) : bool :=
  old now grace kv.2 && orphan known kv.1.
(** The addresses the listing shows. *)
Definition address (name : string) : gset string :=
  if is_tmp name then ∅ else match cut_bin name with Some sha => {[sha]} | None => ∅ end.

Lemma sweep_entry_runs now grace v b name f s : blobs v = Some b → b !! name = Some f →
  let gone := doomed now grace (shas v) (name, f) in
  sweep_entry now grace (shas v) name s v [] =
    (Ok (MkSweep (s_removed s + if gone then 1 else 0) (address name ∪ s_onDisk s), true),
     if gone then set_blobs (Some (delete name b)) v else v, []).
Proof.
  intros Hb Hf. assert (Hfile : files v !! name = Some f) by (unfold files; by rewrite Hb).
  assert (Hreap : ∀ d, (i ← info name; match i with
      | Ok f => if old now grace f then x ← attempt (remove_name name);
          mret (if is_ok x then (MkSweep (s_removed s + 1) d, true) else (MkSweep (s_removed s) d, false))
        else mret (MkSweep (s_removed s) d, true)
      | Err _ => mret (MkSweep (s_removed s) d, true) end) v [] =
    (Ok (MkSweep (s_removed s + if old now grace f then 1 else 0) d, true),
     if old now grace f then set_blobs (Some (delete name b)) v else v, [])).
  { intros d. unfold info, remove_name, mbind, M_bind, attempt, query, exec, stmt. rewrite Hfile.
    destruct (old now grace f); simpl; [by rewrite Hb|by rewrite Z.add_0_r]. }
  unfold sweep_entry, doomed, orphan, address. cbn [fst snd]. destruct (is_tmp name).
  - rewrite orb_true_l, andb_true_r. destruct s as [n d]. cbn [s_removed s_onDisk] in *.
    rewrite Hreap. by rewrite (left_id_L ∅ (∪)).
  - rewrite orb_false_l. destruct (cut_bin name) as [sha|].
    + cbv zeta. cbn [s_removed s_onDisk]. case_bool_decide as Hk.
      * rewrite bool_decide_false by tauto. rewrite andb_false_r, Z.add_0_r. done.
      * rewrite bool_decide_true by done. rewrite andb_true_r. apply Hreap.
    + rewrite andb_false_r, Z.add_0_r, (left_id_L ∅ (∪)). by destruct s.
Qed.

Definition reaped (now grace : Z) (known : gset string) (names : list string) (b : gmap string file)
    : gmap string file :=
  filter (λ kv, kv.1 ∉ names ∨ doomed now grace known kv = false) b.

Lemma reaped_cons now grace known name f names b : b !! name = Some f → name ∉ names →
  reaped now grace known (name :: names) b =
  reaped now grace known names (if doomed now grace known (name, f) then delete name b else b).
Proof.
  intros Hf Hn. apply map_eq. intros k. apply option_eq. intros g. unfold reaped.
  rewrite !map_lookup_filter_Some. cbn [fst]. rewrite not_elem_of_cons.
  destruct (decide (k = name)) as [->|Hne].
  - destruct (doomed now grace known (name, f)) eqn:Hd; [rewrite lookup_delete_Some|]; split.
    + intros [Hg [[? _]|Hg2]]; [done|]. assert (g = f) as -> by congruence. congruence.
    + by intros [[? _] _].
    + intros [Hg _]. by split; [|left].
    + intros [Hg _]. assert (g = f) as -> by congruence. by split; [|right].
  - destruct (doomed now grace known (name, f)); [rewrite lookup_delete_Some|]; intuition congruence.
Qed.

(** How many of the names fall. *)
Definition fallen (now grace : Z) (known : gset string) (b : gmap string file) (names : list string) : Z :=
  zlen (filter (λ name, match b !! name with Some f => doomed now grace known (name, f) | None => false end = true) names).

Lemma sweep_entries_run now grace names : ∀ v b s, NoDup names → blobs v = Some b →
  (∀ name, name ∈ names → is_Some (b !! name)) →
  ∃ s', sweep_entries now grace (shas v) names s v [] =
    (Ok (s', true), set_blobs (Some (reaped now grace (shas v) names b)) v, []) ∧
    s_removed s' = s_removed s + fallen now grace (shas v) b names ∧
    s_onDisk s' = ⋃ (address <$> names) ∪ s_onDisk s.
Proof.
  induction names as [|name names IH]; intros v b s Hnd Hb Hin.
  - exists s. split; [|split; [unfold fallen, zlen; simpl; lia|simpl; by rewrite (left_id_L ∅ (∪))]].
    simpl. unfold mret, M_ret. repeat f_equal. unfold reaped. rewrite map_filter_id; [by destruct v; simpl in *; subst|].
    intros k f _. left. by apply not_elem_of_nil.
  - apply NoDup_cons in Hnd as [Hn Hnd]. destruct (Hin name) as [f Hf]; [by left|].
    cbn [sweep_entries]. unfold mbind, M_bind. rewrite (sweep_entry_runs now grace v b name f s Hb Hf). cbv zeta.
    set (gone := doomed now grace (shas v) (name, f)). cbn [fst snd].
    set (v1 := if gone then _ else v). set (b1 := if gone then delete name b else b).
    assert (Hb1 : blobs v1 = Some b1) by (subst v1 b1; by destruct gone).
    assert (Hk1 : shas v1 = shas v) by (subst v1; by destruct gone).
    assert (Hb1n : ∀ x, x ∈ names → b1 !! x = b !! x).
    { intros x Hx. subst b1. destruct gone; [|done]. rewrite lookup_delete_ne; [done|]. by intros ->. }
    destruct (IH v1 b1 (MkSweep (s_removed s + (if gone then 1 else 0)) (address name ∪ s_onDisk s)) Hnd Hb1)
      as (s' & Hrun & Hrem & Hdisk).
    { intros x Hx. rewrite Hb1n by done. apply Hin. by right. }
    rewrite Hk1 in Hrun, Hrem. exists s'. split; [|split].
    + rewrite Hrun, (reaped_cons _ _ _ _ f) by done. fold gone. fold b1.
      assert (Hsb : ∀ x, set_blobs x v1 = set_blobs x v) by (intros; subst v1; by destruct gone).
      by rewrite Hsb.
    + rewrite Hrem. cbn [s_removed]. unfold fallen. rewrite filter_cons, Hf. fold gone.
      assert (Heq : filter (λ x, match b1 !! x with Some g => doomed now grace (shas v) (x, g) | None => false end = true) names =
                    filter (λ x, match b !! x with Some g => doomed now grace (shas v) (x, g) | None => false end = true) names).
      { clear -Hb1n. induction names as [|x names IHn]; [done|].
        rewrite !filter_cons, (Hb1n x), IHn; [done| |apply elem_of_cons; by left].
        intros y Hy. apply Hb1n, elem_of_cons. by right. }
      rewrite Heq. destruct gone; [rewrite decide_True, zlen_cons by done|rewrite decide_False by done]; lia.
    + rewrite Hdisk. cbn [s_onDisk fmap list_fmap union_list foldr]. by rewrite (assoc_L (∪)), (comm_L (∪) (address name)).
Qed.

Lemma merge_sort_keys (b : gmap string file) : NoDup (merge_sort name_le (map_to_list b).*1) ∧
  ∀ name, name ∈ merge_sort name_le (map_to_list b).*1 ↔ is_Some (b !! name).
Proof.
  split.
  - rewrite merge_sort_Permutation. apply NoDup_fst_map_to_list.
  - intros name. rewrite merge_sort_Permutation, list_elem_of_fmap. split.
    + intros ([k f] & -> & Hk%elem_of_map_to_list). by exists f.
    + intros [f Hf]. exists (name, f). split; [done|]. by apply elem_of_map_to_list.
Qed.

(** The rows whose blob is not in the volume. *)
Definition bare (v : vault) : gset string := filter (λ sha, files v !! blobFSPath sha = None) (shas v).

Definition missing (v : vault) : Z :=
  match blobs v with Some _ => Z.of_nat (size (bare v)) | None => 0 end.

Lemma known_ok v sha : wf v → sha ∈ shas v → sha_ok sha = true.
Proof.
  intros Hw [[id r] [-> Hin%elem_of_map_to_list]]%elem_of_list_to_set%list_elem_of_fmap. by apply (wf_row v Hw id r).
Qed.

Lemma missing_bare v names : wf v → (∀ name, name ∈ names ↔ is_Some (files v !! name)) →
  shas v ∖ (⋃ (address <$> names)) = bare v.
Proof.
  intros Hw Hn. apply set_eq. intros sha. unfold bare.
  rewrite elem_of_difference, elem_of_filter, elem_of_union_list. split.
  - intros [Hs Hno]. split; [|done]. apply eq_None_not_Some. intros Hf. apply Hno.
    exists (address (blobFSPath sha)). split; [apply list_elem_of_fmap_2; by apply Hn|].
    pose proof (known_ok v sha Hw Hs) as Hok. unfold address.
    rewrite blob_not_tmp, cut_blob by done. by apply elem_of_singleton.
  - intros [Hf Hs]. split; [done|]. intros (X & HX & Hin). apply list_elem_of_fmap in HX as (name & -> & Hname).
    unfold address in Hin. destruct (is_tmp name); [by apply elem_of_empty in Hin|].
    destruct (cut_bin name) as [s|] eqn:Hc; [|by apply elem_of_empty in Hin].
    apply elem_of_singleton in Hin as ->. apply cut_bin_inv in Hc; [|by eapply known_ok]. subst name.
    apply Hn in Hname. rewrite Hf in Hname. by destruct Hname.
Qed.

Lemma fallen_count now grace known b :
  fallen now grace known b (merge_sort name_le (map_to_list b).*1) =
  zlen (filter (λ kv, doomed now grace known kv = true) (map_to_list b)).
Proof.
  unfold fallen, zlen. rewrite merge_sort_Permutation.
  assert (H : ∀ l, (∀ kv, kv ∈ l → b !! kv.1 = Some kv.2) →
    length (filter (λ name, match b !! name with Some f => doomed now grace known (name, f) | None => false end = true) l.*1) =
    length (filter (λ kv, doomed now grace known kv = true) l)).
  { induction l as [|[k f] l IH]; intros Hl; [done|]. cbn [fmap list_fmap fst].
    assert (Hk : b !! k = Some f) by (apply (Hl (k, f)), elem_of_cons; by left).
    rewrite !filter_cons, Hk.
    assert (IH' := IH ltac:(intros kv Hkv; apply Hl, elem_of_cons; by right)).
    case_decide; cbn [length]; by rewrite IH'. }
  rewrite H; [done|]. by intros [k f] Hk%elem_of_map_to_list.
Qed.

(** The sweep reaps exactly the old orphans: when nothing fails it ends with no
    row touched, every file that a row owns or that is younger than the grace
    still there, every older orphan (leftover temporaries included) gone, their
    number reported, and the rows that lack a blob counted (none where the
    directory does not exist yet). *)
Theorem sweep_exact v now grace (Hw : wf v) :
  ∃ n v', SweepOrphanBlobs now grace v [] = (Ok (n, missing v, true), v', []) ∧
    tables v' = tables v ∧ image_meta v' = image_meta v ∧
    files v' = filter (λ kv, doomed now grace (shas v) kv = false) (files v) ∧
    n = zlen (filter (λ kv, doomed now grace (shas v) kv = true) (map_to_list (files v))).
Proof.
  unfold SweepOrphanBlobs, mbind at 1, M_bind at 1. unfold query at 1, stmt at 1.
  destruct (blobs v) as [b|] eqn:Hb; cbn [fmap option_fmap option_map].
  - destruct (merge_sort_keys b) as [Hnd Hkeys].
    unfold mbind at 1, M_bind at 1, query, stmt.
    destruct (sweep_entries_run now grace _ v b (MkSweep 0 ∅) Hnd Hb) as (s' & Hrun & Hrem & Hdisk).
    { intros name. apply Hkeys. }
    unfold mbind, M_bind. rewrite Hrun. cbn [fst snd].
    exists (s_removed s'), (set_blobs (Some (reaped now grace (shas v) (merge_sort name_le (map_to_list b).*1) b)) v).
    split; [|split_and!; [done|done|..]].
    + unfold missing. rewrite Hb, Hdisk. cbn [s_onDisk]. rewrite (right_id_L ∅ (∪)), missing_bare; [reflexivity|done|].
      intros name. rewrite Hkeys. unfold files. by rewrite Hb.
    + unfold files at 1. simpl. unfold files. rewrite Hb. simpl. unfold reaped. apply map_eq. intros k.
      apply option_eq. intros f. rewrite !map_lookup_filter_Some. split; [|tauto].
      intros [Hf [Hn|Hd]]; [|done]. exfalso. apply Hn, Hkeys. by exists f.
    + rewrite Hrem. unfold files. rewrite Hb. apply fallen_count.
  - assert (Hf : files v = ∅) by (unfold files; by rewrite Hb).
    exists 0, v. split; [|split_and!; [done|done|by rewrite Hf|by rewrite Hf, map_to_list_empty]].
    unfold missing. by rewrite Hb.
Qed.

(** ** What an image's deletion takes along *)

(** A playlist that exists to hold the image on one panel. *)
Definition holder (id : Z) (d : RenderDb.db) (pid : Z) (row : RenderDb.playlist_row) : Prop :=
  managed row = true ∧ holds id d pid = true.

Record released (id : Z) (d d' : RenderDb.db) : Prop := {
  rl_real : ∀ pid row, RenderDb.playlists d !! pid = Some row → holds id d pid = true → managed row = true;
  rl_images : RenderDb.images d' = delete id (RenderDb.images d);
  rl_unused : referenced id d' = false;
  rl_playlists : ∀ pid row, RenderDb.playlists d' !! pid = Some row ↔
    RenderDb.playlists d !! pid = Some row ∧ ¬ holder id d pid row;
  rl_bindings : ∀ serial pid, RenderDb.playlist_binding d' !! serial = Some pid ↔
    RenderDb.playlist_binding d !! serial = Some pid ∧
    (∀ row, RenderDb.playlists d !! pid = Some row → ¬ holder id d pid row);
  rl_cursors : ∀ serial c, RenderDb.cursors d' !! serial = Some c ↔
    RenderDb.cursors d !! serial = Some c ∧
    (∀ pid row, RenderDb.playlists d !! pid = Some row → holds id d pid = true →
       RenderDb.pr_managed row ≠ Some serial);
  rl_rest : RenderDb.functions d' = RenderDb.functions d ∧ RenderDb.render_binding d' = RenderDb.render_binding d ∧
    RenderDb.lastgood d' = RenderDb.lastgood d }.

Definition release (id : Z) (d : RenderDb.db) : RenderDb.db :=
  RenderDb.upd_images (delete id) (drop_playlists id (drop_cursors id d)).

Lemma existsb_map_to_list {A} (p : Z * A → bool) (m : gmap Z A) :
  existsb p (map_to_list m) = true ↔ ∃ k x, m !! k = Some x ∧ p (k, x) = true.
Proof.
  rewrite existsb_exists. split.
  - intros ([k x] & Hin%list_elem_of_In%elem_of_map_to_list & Hp). by exists k, x.
  - intros (k & x & Hm & Hp). exists (k, x). split; [|done]. by apply list_elem_of_In, elem_of_map_to_list.
Qed.

Lemma release_released id d : inReal id d = false → referenced id (drop_playlists id (drop_cursors id d)) = false →
  released id d (release id d).
Proof.
  intros Hreal Href.
  assert (Hmanaged : ∀ pid row, RenderDb.playlists d !! pid = Some row → holds id d pid = true → managed row = true).
  { intros pid row Hp Hh. destruct (managed row) eqn:Hm; [done|]. exfalso.
    assert (inReal id d = true) as Ht; [|congruence].
    apply existsb_map_to_list. exists pid, row. cbn [fst snd]. by rewrite Hh, Hm. }
  set (gone := λ pid, match RenderDb.playlists d !! pid with Some r => managed r && holds id d pid | None => false end).
  assert (Hgone : ∀ pid, gone pid = false ↔ ∀ row, RenderDb.playlists d !! pid = Some row → ¬ holder id d pid row).
  { intros pid. unfold gone, holder. destruct (RenderDb.playlists d !! pid) as [row|]; [|naive_solver].
    rewrite andb_false_iff. split; [|intros H; specialize (H row eq_refl); destruct (managed row), (holds id d pid); tauto].
    intros H row' [= <-] [? ?]. destruct H; congruence. }
  split; [exact Hmanaged|done|exact Href|..|done].
  - intros pid row. change (RenderDb.playlists (release id d)) with
      (filter (λ kv : Z * RenderDb.playlist_row, gone kv.1 = false) (RenderDb.playlists d)).
    rewrite map_lookup_filter_Some. cbn [fst]. rewrite Hgone. split; intros [Hp H]; (split; [done|]);
      [by apply H|]. intros row' Hp'. by rewrite Hp in Hp'; injection Hp' as <-.
  - intros serial pid. change (RenderDb.playlist_binding (release id d)) with
      (filter (λ kv : string * Z, gone kv.2 = false) (RenderDb.playlist_binding d)).
    rewrite map_lookup_filter_Some. cbn [snd]. by rewrite Hgone.
  - intros serial c. unfold release, drop_playlists, drop_cursors. simpl. rewrite map_lookup_filter_Some. cbn [fst].
    rewrite <-not_true_iff_false, existsb_map_to_list. split; intros [Hc H]; (split; [done|]).
    + intros pid row Hp Hh Hs. apply H. exists pid, row. cbn [fst snd]. by rewrite Hh, bool_decide_true.
    + intros (pid & row & Hp & [Hh Hs%bool_decide_eq_true]%andb_true_iff). by eapply H.
Qed.

(** Deleting an image never touches an operator's playlist: one that still shows
    it makes the deletion fail, and a failure before the commit changes nothing.
    A deletion that commits takes along exactly the single-image playlists the
    panels' shortcut manages, their bindings and cursors, and no other row. *)
Theorem delete_managed_only id v fs :
  ∃ x v' fs', DeleteImageManagedAware id v fs = (x, v', fs') ∧
    (v' = v ∨ released id (tables v) (tables v')) ∧
    match x with
    | Ok _ => released id (tables v) (tables v')
    | Err EInUse => v' = v ∧ (inReal id (tables v) = true ∨
        referenced id (drop_playlists id (drop_cursors id (tables v))) = true)
    | Err ENotFound => v' = v ∧ images v !! id = None
    | Err _ => True
    end.
Proof.
  assert (H : triple (λ w, w = v) (DeleteImageManagedAware id) (λ _ w, released id (tables v) (tables w))
    (λ e w, (w = v ∨ released id (tables v) (tables w)) ∧ match e with
       | EInUse => w = v ∧ (inReal id (tables v) = true ∨
           referenced id (drop_playlists id (drop_cursors id (tables v))) = true)
       | ENotFound => w = v ∧ images v !! id = None | _ => True end)).
  2: { destruct (triple_run _ _ _ _ v fs H eq_refl) as (x & v' & fs' & Hrun & Hx).
       exists x, v', fs'. split; [exact Hrun|]. destruct x as [[]|e]; [by split; [right|]|exact Hx]. }
  unfold DeleteImageManagedAware.
  apply (triple_bind _ _ _ (λ _ w, released id (tables v) (tables w))).
  - apply triple_tx; [intros w ->; split; [by left|done]|]. intros c ->.
    apply (settles_bind _ _ _ _ (λ b w, w = v ∧ b = inReal id (tables v))).
    { apply within_query; [split; [by left|done]|]. by intros w ->. }
    intros [|].
    { intros [c w] fs1 [Hc [Hw Hb]]. simpl in Hc, Hw. subst. simpl. split; [done|]. split; [by left|]. split; [done|]. by left. }
    apply (settles_bind _ _ _ _ (λ _ w, inReal id (tables v) = false ∧ w = set_tables (drop_cursors id (tables v)) v)).
    { apply within_exec; [split; [by left|done]|]. by intros w [-> <-]. }
    intros []. apply (settles_bind _ _ _ _ (λ _ w, inReal id (tables v) = false ∧
      w = set_tables (drop_playlists id (drop_cursors id (tables v))) v)).
    { apply within_exec; [split; [by left|done]|]. by intros w [Hr ->]. }
    intros []. apply (settles_bind _ _ _ _ (λ _ w, released id (tables v) (tables w))).
    { apply within_stmt; [split; [by left|done]|]. intros w [Hr ->]. unfold delete_row.
      destruct (images _ !! id) as [row|] eqn:Hi; [|split; [by left|done]].
      destruct (referenced id _) eqn:Href; [split; [by left|]; split; [done|by right]|].
      by apply release_released. }
    intros sha. apply settles_commit; [split; [by left|done]|done].
  - intros sha. apply triple_exec; [by intros w Hw; split; [right|]|done].
Qed.

(** ** The tables the stores share *)

(** The operations of the four stores over the one database: those of the
    functions, playlists and bindings, and those of the images. *)
Inductive store_op :=
| SStore (o : Bindings.op)
| SPut (now : Z) (by_ : option Z) (blob : bytes)
| SDelete (id : Z)
| SManaged (id : Z)
| SSweep (now grace : Z).

Section Tables.
Context (decode_config : bytes → option (string * Z * Z)).
Context (tempName : gset string → string).

Definition store_step (o : store_op) (v : vault) (fs : list bool) : vault :=
  match o with
  | SStore o => set_tables (Bindings.exec_op o (tables v) fs) v
  | SPut now who blob => (PutImage decode_config tempName now who blob v fs).1.2
  | SDelete id => (DeleteImage id v fs).1.2
  | SManaged id => (DeleteImageManagedAware id v fs).1.2
  | SSweep now grace => (SweepOrphanBlobs now grace v fs).1.2
  end.
Definition store_run (os : list (store_op * list bool)) (v : vault) : vault :=
  foldl (λ v o, store_step o.1 v o.2) v os.

Definition tabled (v : vault) : Prop := Bindings.tables_ok (tables v).
(** A program that keeps the tables well formed, whatever it answers. *)
Definition tidy {A} (m : M vault err A) : Prop := triple tabled m (λ _, tabled) (λ _, tabled).

Lemma tidy_ret {A} (a : A) : tidy (mret a).
Proof. by apply triple_ret. Qed.
Lemma tidy_throw {A} e : tidy (throw e : M vault err A).
Proof. by apply triple_throw. Qed.
Lemma tidy_bind {A B} (m : M vault err A) (k : A → M vault err B) :
  tidy m → (∀ a, tidy (k a)) → tidy (m ≫= k).
Proof. intros Hm Hk. by apply (triple_bind _ _ _ (λ _, tabled)). Qed.
Lemma tidy_attempt {A} (m : M vault err A) : tidy m → tidy (attempt m).
Proof. intros Hm. by apply triple_attempt. Qed.
Lemma tidy_query {A} e (f : vault → result err A) : tidy (query e f).
Proof. apply triple_query; [done|]. intros v Hv. by destruct (f v). Qed.
Lemma tidy_blobs e (f : vault → option (gmap string file)) : tidy (exec e (λ v, set_blobs (f v) v)).
Proof. by apply triple_exec. Qed.
Lemma tidy_stmt {A} e (f : vault → result err A * vault) :
  (∀ v, tabled v → tabled (f v).2) → tidy (stmt e f).
Proof. intros Hf. apply triple_stmt; [done|]. intros v Hv. specialize (Hf v Hv). by destruct (f v) as [[] ?]. Qed.

Create HintDb tidy.
#[local] Hint Resolve tidy_ret tidy_throw tidy_attempt tidy_query tidy_blobs : tidy.
Ltac tidy := repeat first
  [ solve [eauto with tidy] | apply tidy_bind; [|intros ?] | apply tidy_attempt | progress case_match ].

Lemma tidy_write now name data : tidy (writeBlobAtomic tempName now name data).
Proof. unfold writeBlobAtomic, fs_do. tidy. Qed.
Lemma tidy_remove sha : tidy (remove_blob sha).
Proof. apply tidy_blobs. Qed.

Lemma insert_image_tabled now op r v : tabled v → tabled (insert_image now op r v).2.
Proof.
  intros Hv. unfold insert_image. cbv zeta. destruct (negb _); [done|]. case_bool_decide; [done|].
  destruct (negb _); [done|]. apply Bindings.ok_images; [|done]. intros i q Hq.
  apply lookup_insert_is_Some'. right. by eapply Bindings.ok_image.
Qed.

Lemma referenced_false (id : Z) d (i : Z) q : referenced id d = false → RenderDb.items d !! i = Some q → RenderDb.ir_image q ≠ id.
Proof.
  unfold referenced. rewrite <-not_true_iff_false, existsb_map_to_list. intros Hn Hi He. apply Hn.
  exists i, q. split; [done|]. by apply Z.eqb_eq.
Qed.

Lemma delete_row_tabled id v : tabled v → tabled (delete_row id v).2.
Proof.
  intros Hv. unfold delete_row. destruct (images v !! id) as [row|]; [|done]. destruct (referenced id (tables v)) eqn:Hr; [done|].
  apply Bindings.ok_images; [|done]. intros i q Hq. rewrite lookup_delete_ne.
  - by eapply Bindings.ok_image.
  - intros He. by eapply referenced_false.
Qed.

Lemma tidy_put now who blob : tidy (PutImage decode_config tempName now who blob).
Proof.
  unfold PutImage, heal, GetImageBySha. pose proof tidy_write.
  pose proof (λ e now op r, tidy_stmt e _ (insert_image_tabled now op r)). tidy.
Qed.

Lemma tidy_delete id : tidy (DeleteImage id).
Proof.
  unfold DeleteImage. pose proof tidy_remove. pose proof (λ e, tidy_stmt e _ (delete_row_tabled id)). tidy.
Qed.

Lemma tidy_managed id : tidy (DeleteImageManagedAware id).
Proof.
  unfold DeleteImageManagedAware. apply tidy_bind; [|apply tidy_remove].
  apply triple_tx; [done|]. intros c Hc.
  apply (settles_bind _ _ _ _ (λ _, tabled)); [apply within_query; [done|]; by intros v ->|].
  intros [|]; [by apply settles_throw|].
  apply (settles_bind _ _ _ _ (λ _, tabled)); [apply within_exec; [done|]; intros v; apply Bindings.ok_cursors|intros []].
  apply (settles_bind _ _ _ _ (λ _, tabled)); [apply within_exec; [done|]; intros v; apply Bindings.ok_delete_playlists|intros []].
  apply (settles_bind _ _ _ _ (λ _, tabled)).
  - apply within_stmt; [done|]. intros v Hv%(delete_row_tabled id). by destruct (delete_row id v) as [[] ?].
  - intros sha. by apply settles_commit.
Qed.

Lemma tidy_sweep now grace : tidy (SweepOrphanBlobs now grace).
Proof.
  assert (He : ∀ known names s, tidy (sweep_entries now grace known names s)).
  { intros known names. induction names as [|name names IH]; intros s; cbn [sweep_entries]; [apply tidy_ret|].
    apply tidy_bind; [|intros r; destruct (r.2); [apply IH|apply tidy_ret]].
    unfold sweep_entry, info, remove_name, fs_do. tidy. }
  unfold SweepOrphanBlobs. tidy.
Qed.

Lemma tidy_end {A} (m : M vault err A) v fs : tidy m → tabled v → tabled (m v fs).1.2.
Proof. intros Hm Hv. specialize (Hm v fs Hv). by destruct (m v fs) as [[[] ?] ?]. Qed.

(** C10. Shared tables: over any sequence of the operations of the function,
    playlist, binding and image stores, whichever of their statements fail, no
    device has both a function and a playlist, every binding points at an
    existing row, every playlist item at an existing playlist and an existing
    image, no device has two managed playlists, the positions of a playlist's
    items are distinct and cached frames have the panel's size. *)
Theorem tables_invariant os v0 : tables v0 = RenderDb.empty_db →
  Bindings.tables_ok (tables (store_run os v0)).
Proof.
  intros H0. assert (Hv : tabled v0) by (unfold tabled; rewrite H0; apply Bindings.tables_ok_empty). clear H0.
  revert v0 Hv. induction os as [|[o fs] os IH]; intros v Hv; [done|]. apply IH. destruct o; cbn [store_step fst snd].
  - by apply Bindings.ok_exec_op.
  - by apply tidy_end; [apply tidy_put|].
  - by apply tidy_end; [apply tidy_delete|].
  - by apply tidy_end; [apply tidy_managed|].
  - by apply tidy_end; [apply tidy_sweep|].
Qed.
End Tables.

(** ** Samples *)

Definition ex_config (blob : bytes) : option (string * Z * Z) := Some ("png"%string, 2, 2).
Definition ex_temp (X : gset string) : string := ".tmp-img-1".
Definition empty_vault : vault := MkVault RenderDb.empty_db 1 ∅ ∅ None.
Definition ex_history : list (op * list bool) :=
  [(OPut 10 None [4; 5], [false; false; true]); (OSweep 9000 5, []); (ODelete 2, []); (OPut 20 None [1; 2], [])].

Lemma wf_empty : wf empty_vault.
Proof.
  assert (Him : images empty_vault = ∅) by done. assert (Hf : files empty_vault = ∅) by done.
  split; rewrite ?Him, ?Hf; [by intros ? ? ?%lookup_empty_Some|by intros ? ? ? ? ?%lookup_empty_Some|].
  by intros sha f _ ?%lookup_empty_Some.
Qed.

Lemma stored_image_durable_witness : ∃ img v1,
  PutImage ex_config ex_temp 5 None [1; 2] empty_vault [] = (Ok img, v1, []) ∧ ID img = 1 ∧
  ∃ b img', LoadBlob 1 (run_ops ex_config ex_temp ex_history v1) [] =
    (Ok (b, img'), run_ops ex_config ex_temp ex_history v1, []) ∧ sha_hex b = sha_hex [1; 2].
Proof.
  destruct (PutImage ex_config ex_temp 5 None [1; 2] empty_vault []) as [[r v1] fs1] eqn:Hput.
  assert (Hr : match r with Ok img => ID img | Err _ => 0 end = 1 ∧ fs1 = []).
  { change r with ((r, v1, fs1).1.1). change fs1 with ((r, v1, fs1).2) at 2. rewrite <-Hput.
    split; vm_compute; reflexivity. }
  destruct r as [img|e]; destruct Hr as [Hid ->]; [|discriminate].
  destruct (stored_image_durable ex_config ex_temp (λ _, eq_refl) empty_vault 5 None [1; 2] [] img v1 []
    ex_history wf_empty Hput (or_introl eq_refl)) as [_ (b & img' & Hl & Hs & _)].
  - rewrite Hid. repeat constructor; intros H; inversion H.
  - rewrite Hid in Hl. exists img, v1. split; [reflexivity|]. split; [exact Hid|]. exists b, img'. split; [exact Hl|exact Hs].
Defined.

(** Two images in a playlist that is reordered, one of them shown alone on a
    panel as well; its deletion is refused, as the playlist still shows it. *)
Definition ex_tables : list (store_op * list bool) :=
  [(SPut 5 None [1; 2], []); (SPut 6 None [3; 4], []);
   (SStore (Bindings.OCreatePlaylist (PlaylistStore.MkCreateParams None "wall" 60 "sequential" None)), []);
   (SStore (Bindings.OAddItem 1 (PlaylistStore.MkAddItem 1 "cover" "none")), []);
   (SStore (Bindings.OAddItem 1 (PlaylistStore.MkAddItem 2 "cover" "none")), []);
   (SStore (Bindings.OReorder 1 [2; 1]), []);
   (SStore (Bindings.OSetManagedImage "AB12" 2), []);
   (SManaged 2, []); (SSweep 9000 5, [])].

Lemma tables_invariant_witness :
  let v := store_run ex_config ex_temp ex_tables empty_vault in
  (map_to_list (RenderDb.items (tables v))).*2 =
    [RenderDb.MkItemRow 2 2 0 "cover" "none"; RenderDb.MkItemRow 1 2 0 "cover" "none";
     RenderDb.MkItemRow 1 1 1 "cover" "none"] ∧
  Bindings.tables_ok (tables v).
Proof.
  split; [vm_compute; reflexivity|exact (tables_invariant ex_config ex_temp ex_tables empty_vault eq_refl)].
Defined.

Lemma sweep_exact_witness : ∃ n v',
  SweepOrphanBlobs 9000 5 (run_op ex_config ex_temp (OCrash (MkFile [1] 7)) empty_vault []) [] = (Ok (n, 0, true), v', []) ∧
  files v' !! ".tmp-img-1"%string = None.
Proof.
  set (v := run_op ex_config ex_temp (OCrash (MkFile [1] 7)) empty_vault []).
  assert (Hw : wf v) by apply (run_op_inv ex_config ex_temp (λ _, eq_refl) None (OCrash (MkFile [1] 7)) empty_vault [] (conj wf_empty I) I).
  destruct (sweep_exact v 9000 5 Hw) as (n & v' & Hrun & _ & _ & Hf & _).
  exists n, v'. assert (missing v = 0) as Hm by (vm_compute; reflexivity). rewrite Hm in Hrun.
  split; [exact Hrun|]. rewrite Hf. vm_compute. reflexivity.
Defined.

End ImageLaws.
