(* ===== verification/Thumbnail.v ===== *)
(** * Thumbnails ([cmd/backend/image_http.go], [downscale] and [fitBox])

    Box averaging of a decoded source into the grid's tile. A source is its
    dimensions and the 16-bit premultiplied channels [At(x, y).RGBA()]; the sums
    are 64-bit. *)

From S2P Require Import Prelude GoLib.
Import GoLib.

Module Thumbnail.

Definition thumbMaxDim : Z := 320.

Definition pixel : Type := Z * Z * Z * Z.
Record picture := MkPicture { Dx : Z; Dy : Z; At : Z → Z → pixel }.

Definition atLeast1 (v : Z) : Z := if v <? 1 then 1 else v.
Definition fitBox (sw sh maxDim : Z) : Z * Z :=
  if (sw <=? maxDim) && (sh <=? maxDim) then (atLeast1 sw, atLeast1 sh)
  else if sh <=? sw then (maxDim, atLeast1 (Z.quot (sh * maxDim) sw))
  else (atLeast1 (Z.quot (sw * maxDim) sh), maxDim).

(** The five sums of a target cell. *)
Record cell := MkCell { rs : Z; gs : Z; bs : Z; as_ : Z; cnt : Z }.
Definition no_cell : cell := MkCell 0 0 0 0 0.
Definition add_pixel (p : pixel) (c : cell) : cell :=
  let '(r, g, b, a) := p in
  MkCell (u64 (rs c + Z.shiftr r 8)) (u64 (gs c + Z.shiftr g 8)) (u64 (bs c + Z.shiftr b 8))
    (u64 (as_ c + Z.shiftr a 8)) (u64 (cnt c + 1)).

Definition target (sw sh dw dh : Z) (xy : Z * Z) : nat :=
  Z.to_nat (Z.quot (xy.2 * dh) sh * dw + Z.quot (xy.1 * dw) sw).

(** The order of the two loops. *)
Definition scan (sw sh : Z) : list (Z * Z) := y ← seqZ 0 sh; (λ x, (x, y)) <$> seqZ 0 sw.

Definition accumulate (src : picture) (dw dh : Z) : list cell :=
  foldl (λ acc xy, alter (add_pixel (At src xy.1 xy.2)) (target (Dx src) (Dy src) dw dh xy) acc)
    (replicate (Z.to_nat (dw * dh)) no_cell) (scan (Dx src) (Dy src)).

Definition finish (c : cell) : list Z :=
  let n := if cnt c =? 0 then 1 else cnt c in
  [u8 (rs c / n); u8 (gs c / n); u8 (bs c / n); u8 (as_ c / n)].

(** Width, height and [Pix] of the destination. *)
Definition downscale (src : picture) (maxDim : Z) : Z * Z * list Z :=
  let '(dw, dh) := fitBox (Dx src) (Dy src) maxDim in
  if (Dx src <=? 0) || (Dy src <=? 0) then (dw, dh, replicate (Z.to_nat (dw * dh * 4)) 0)
  else (dw, dh, accumulate src dw dh ≫= finish).

(** ** The box *)

Lemma atLeast1_spec v : 1 ≤ atLeast1 v ∧ v ≤ atLeast1 v ∧ (1 ≤ v → atLeast1 v = v).
Proof. unfold atLeast1. destruct (Z.ltb_spec v 1); lia. Qed.

Lemma fitBox_spec sw sh maxDim dw dh : 1 ≤ sw → 1 ≤ sh → 1 ≤ maxDim → fitBox sw sh maxDim = (dw, dh) →
  1 ≤ dw ≤ sw ∧ 1 ≤ dh ≤ sh ∧ dw ≤ maxDim ∧ dh ≤ maxDim ∧
  (sw ≤ maxDim → sh ≤ maxDim → dw = sw ∧ dh = sh).
Proof.
  intros Hw Hh Hm. unfold fitBox.
  assert (Hq : ∀ a b, 1 ≤ a → 1 ≤ b → a ≤ b → maxDim < b →
    1 ≤ atLeast1 (Z.quot (a * maxDim) b) ≤ a ∧ atLeast1 (Z.quot (a * maxDim) b) ≤ maxDim).
  { intros a b Ha Hb Hab Hmb. rewrite Z.quot_div_nonneg by nia.
    assert (a * maxDim / b ≤ a) by (apply Z.div_le_upper_bound; nia).
    assert (a * maxDim / b ≤ maxDim) by (apply Z.div_le_upper_bound; nia).
    unfold atLeast1. destruct (Z.ltb_spec (a * maxDim / b) 1); lia. }
  destruct (Z.leb_spec sw maxDim), (Z.leb_spec sh maxDim); cbn [andb].
  - intros [= <- <-]. rewrite !(proj2 (proj2 (atLeast1_spec _))) by lia. lia.
  - destruct (Z.leb_spec sh sw); [lia|]. intros [= <- <-]. pose proof (Hq sw sh). lia.
  - destruct (Z.leb_spec sh sw); [|lia]. intros [= <- <-]. pose proof (Hq sh sw). lia.
  - destruct (Z.leb_spec sh sw); intros [= <- <-]; [pose proof (Hq sh sw)|pose proof (Hq sw sh)]; lia.
Qed.

(** Every target column has a source column, and none falls outside. *)
Lemma column_onto s d X : 1 ≤ d ≤ s → 0 ≤ X < d → ∃ x, 0 ≤ x < s ∧ Z.quot (x * d) s = X.
Proof.
  intros Hd HX. exists ((X * s + d - 1) / d).
  pose proof (Z.div_mod (X * s + d - 1) d ltac:(lia)) as Hdiv.
  pose proof (Z.mod_pos_bound (X * s + d - 1) d ltac:(lia)) as Hmod.
  set (x := (X * s + d - 1) / d) in *. split; [nia|].
  rewrite Z.quot_div_nonneg by nia. symmetry. apply Z.div_unique with (r := x * d - X * s); nia.
Qed.
Lemma column_in s d x : 1 ≤ d → 1 ≤ s → 0 ≤ x < s → 0 ≤ Z.quot (x * d) s < d.
Proof.
  intros Hd Hs Hx. rewrite Z.quot_div_nonneg by nia.
  split; [apply Z.div_pos; nia|apply Z.div_lt_upper_bound; nia].
Qed.

(** ** The sums *)

Definition channel : Type := pixel → Z.
Definition red : channel := λ p, Z.shiftr p.1.1.1 8.
Definition green : channel := λ p, Z.shiftr p.1.1.2 8.
Definition blue : channel := λ p, Z.shiftr p.1.2 8.
Definition alpha : channel := λ p, Z.shiftr p.2 8.

Definition sum (f : pixel → Z) (l : list pixel) : Z := foldr (λ p n, f p + n) 0 l.
(** Sixteen bits a channel. *)
Definition pixel_ok (p : pixel) : Prop :=
  let '(r, g, b, a) := p in
  0 ≤ r < 2 ^ 16 ∧ 0 ≤ g < 2 ^ 16 ∧ 0 ≤ b < 2 ^ 16 ∧ 0 ≤ a < 2 ^ 16.
Definition picture_ok (src : picture) : Prop :=
  1 ≤ Dx src ∧ 1 ≤ Dy src ∧ Dx src * Dy src < 2 ^ 56 ∧ ∀ x y, pixel_ok (At src x y).

Lemma shiftr8 v : 0 ≤ v < 2 ^ 16 → 0 ≤ Z.shiftr v 8 ≤ 255.
Proof. intros. rewrite Z.shiftr_div_pow2 by lia. change (2 ^ 8) with 256. change (2 ^ 16) with 65536 in *. dlia. Qed.

Lemma channel_bound p : pixel_ok p →
  0 ≤ red p ≤ 255 ∧ 0 ≤ green p ≤ 255 ∧ 0 ≤ blue p ≤ 255 ∧ 0 ≤ alpha p ≤ 255.
Proof. destruct p as [[[r g] b] a]. intros (?&?&?&?). split_and!; by apply shiftr8. Qed.

Lemma sum_bound f l : Forall (λ p, 0 ≤ f p ≤ 255) l → 0 ≤ sum f l ≤ 255 * zlen l.
Proof. induction 1 as [|p l Hp _ IH]; [done|]. rewrite zlen_cons. simpl. lia. Qed.

Definition cell_bound (m : Z) (c : cell) : Prop :=
  0 ≤ rs c ≤ m ∧ 0 ≤ gs c ≤ m ∧ 0 ≤ bs c ≤ m ∧ 0 ≤ as_ c ≤ m ∧ 0 ≤ cnt c ≤ m.

(** No sum wraps while fewer than 2^56 pixels are added. *)
Lemma add_pixels l : ∀ c m, cell_bound m c → m + 255 * zlen l < 2 ^ 64 → Forall pixel_ok l →
  foldl (λ c p, add_pixel p c) c l =
  MkCell (rs c + sum red l) (gs c + sum green l) (bs c + sum blue l) (as_ c + sum alpha l) (cnt c + zlen l).
Proof.
  induction l as [|p l IH]; intros c m Hc Hm Hl.
  - change (zlen (@nil pixel)) with 0. unfold sum. cbn [foldl foldr]. rewrite !Z.add_0_r. by destruct c.
  - apply Forall_cons in Hl as [Hp Hl]. rewrite zlen_cons in *. pose proof (zlen_nonneg l).
    pose proof (channel_bound p Hp) as (Hr & Hg & Hb & Ha). destruct Hc as (?&?&?&?&?). cbn [foldl].
    assert (Hadd : add_pixel p c = MkCell (rs c + red p) (gs c + green p) (bs c + blue p) (as_ c + alpha p) (cnt c + 1)).
    { destruct p as [[[r g] b] a]. unfold red, green, blue, alpha in *. cbn [fst snd] in *.
      unfold add_pixel. rewrite !u64_small by lia. done. }
    rewrite Hadd. erewrite (IH _ (m + 255)); [|unfold cell_bound; cbn [rs gs bs as_ cnt]; lia|lia|done].
    cbn [rs gs bs as_ cnt sum foldr]. f_equal; unfold sum; lia.
Qed.

(** A fold of updates acts on a cell by those that hit it. *)
Lemma foldl_alter {A B} (f : A → B → B) (t : A → nat) (l : list A) : ∀ (acc : list B) k,
  foldl (λ acc q, alter (f q) (t q) acc) acc l !! k =
  (λ c, foldl (λ c q, f q c) c (List.filter (λ q, bool_decide (t q = k)) l)) <$> acc !! k.
Proof.
  induction l as [|q l IH]; intros acc k; cbn [foldl List.filter]; [by destruct (acc !! k)|].
  rewrite IH. case_bool_decide as Hk.
  - subst k. rewrite list_lookup_alter_eq || rewrite list_lookup_alter. by destruct (acc !! t q).
  - rewrite list_lookup_alter_ne by done. done.
Qed.

Lemma length_foldl_alter {A B} (f : A → B → B) (t : A → nat) (l : list A) (acc : list B) :
  length (foldl (λ acc q, alter (f q) (t q) acc) acc l) = length acc.
Proof. revert acc. induction l as [|q l IH]; intros acc; [done|]. cbn [foldl]. by rewrite IH, length_alter. Qed.

(** ** The boxes *)

(** The source positions averaged into target (X, Y), in loop order. *)
Definition in_box (src : picture) (dw dh X Y : Z) (xy : Z * Z) : bool :=
  (Z.quot (xy.1 * dw) (Dx src) =? X) && (Z.quot (xy.2 * dh) (Dy src) =? Y).
Definition box (src : picture) (dw dh X Y : Z) : list pixel :=
  (λ xy, At src xy.1 xy.2) <$> List.filter (in_box src dw dh X Y) (scan (Dx src) (Dy src)).

Lemma elem_of_scan sw sh x y : (x, y) ∈ scan sw sh ↔ 0 ≤ x < sw ∧ 0 ≤ y < sh.
Proof.
  unfold scan. rewrite list_elem_of_bind. split.
  - intros (y' & Hin & Hy%elem_of_seqZ). apply list_elem_of_fmap in Hin as (x' & [= -> ->] & Hx%elem_of_seqZ). lia.
  - intros [Hx Hy]. exists y. split; [|apply elem_of_seqZ; lia].
    apply list_elem_of_fmap. exists x. split; [done|]. apply elem_of_seqZ; lia.
Qed.

Lemma length_positions sw sh : 0 ≤ sw → 0 ≤ sh → zlen (scan sw sh) = sw * sh.
Proof.
  intros Hw Hh. unfold scan, zlen.
  assert (H : ∀ l : list Z, length (l ≫= λ y, (λ x, (x, y)) <$> seqZ 0 sw) = (length l * Z.to_nat sw)%nat).
  { induction l as [|y l IH]; [done|]. rewrite bind_cons, length_app, length_fmap, length_seqZ, IH. simpl. lia. }
  rewrite H, length_seqZ. nia.
Qed.

Lemma target_box src dw dh X Y xy : 1 ≤ Dx src → 1 ≤ Dy src → 1 ≤ dw → 1 ≤ dh → 0 ≤ X < dw → 0 ≤ Y < dh →
  xy ∈ scan (Dx src) (Dy src) →
  bool_decide (target (Dx src) (Dy src) dw dh xy = Z.to_nat (Y * dw + X)) = in_box src dw dh X Y xy.
Proof.
  intros Hw Hh Hdw Hdh HX HY Hin. destruct xy as [x y]. apply elem_of_scan in Hin as [Hx Hy].
  pose proof (column_in (Dx src) dw x Hdw Hw Hx) as HA. pose proof (column_in (Dy src) dh y Hdh Hh Hy) as HB.
  unfold target, in_box. cbn [fst snd]. set (A := Z.quot (x * dw) (Dx src)) in *.
  set (B := Z.quot (y * dh) (Dy src)) in *.
  destruct (Z.eqb_spec A X) as [->|HneA]; destruct (Z.eqb_spec B Y) as [->|HneB]; cbn [andb];
    [by apply bool_decide_eq_true|apply bool_decide_eq_false; intros He; apply Z2Nat.inj in He; nia..].
Qed.

Lemma length_finish c : length (finish c) = 4%nat.
Proof. done. Qed.

Lemma bind_finish l k c : l !! k = Some c → take 4 (drop (4 * k) (l ≫= finish)) = finish c.
Proof.
  revert k. induction l as [|x l IH]; intros [|k] Hk; [done..| |].
  - injection Hk as ->. rewrite bind_cons, drop_0. by apply take_app_len.
  - simpl in Hk. rewrite bind_cons. replace (4 * S k)%nat with (length (finish x) + 4 * k)%nat by (rewrite length_finish; lia).
    rewrite drop_app_add. by apply IH.
Qed.

Lemma foldl_fmap {A B C} (f : C → B → C) (g : A → B) (l : list A) c :
  foldl (λ c q, f c (g q)) c l = foldl f c (g <$> l).
Proof. revert c. induction l as [|q l IH]; intros c; [done|]. simpl. apply IH. Qed.

Lemma filter_ext_in {A} (p q : A → bool) (l : list A) : (∀ x, x ∈ l → p x = q x) →
  List.filter p l = List.filter q l.
Proof.
  induction l as [|x l IH]; intros H; [done|]. simpl. rewrite (H x) by (apply elem_of_cons; by left).
  rewrite IH by (intros y Hy; apply H, elem_of_cons; by right). done.
Qed.

Lemma length_filter_le {A} (p : A → bool) (l : list A) : zlen (List.filter p l) ≤ zlen l.
Proof. unfold zlen. pose proof (List.filter_length_le p l). lia. Qed.

Lemma box_pixels src dw dh X Y : picture_ok src → Forall pixel_ok (box src dw dh X Y).
Proof. intros (_ & _ & _ & Hp). unfold box. apply Forall_fmap, Forall_forall. intros xy _. apply Hp. Qed.

Lemma box_size src dw dh X Y : picture_ok src → zlen (box src dw dh X Y) < 2 ^ 56.
Proof.
  intros (Hw & Hh & Hn & _). unfold box, zlen. rewrite length_fmap.
  pose proof (length_filter_le (in_box src dw dh X Y) (scan (Dx src) (Dy src))) as Hl.
  rewrite length_positions in Hl by lia. unfold zlen in Hl. lia.
Qed.

(** The cell of a target holds the sums of its box. *)
Lemma accumulate_cell src dw dh X Y : picture_ok src → 1 ≤ dw → 1 ≤ dh → 0 ≤ X < dw → 0 ≤ Y < dh →
  let l := box src dw dh X Y in
  accumulate src dw dh !! Z.to_nat (Y * dw + X) =
    Some (MkCell (sum red l) (sum green l) (sum blue l) (sum alpha l) (zlen l)).
Proof.
  intros Hok Hdw Hdh HX HY l. unfold accumulate. rewrite foldl_alter.
  rewrite lookup_replicate_2 by nia. cbn [fmap option_fmap option_map].
  rewrite (filter_ext_in _ (in_box src dw dh X Y)).
  2: { intros xy Hin. apply target_box; try done; apply Hok. }
  rewrite (foldl_fmap (λ c p, add_pixel p c) (λ xy, At src xy.1 xy.2)).
  fold (box src dw dh X Y). fold l. rewrite (add_pixels l no_cell 0); [done| | |by apply box_pixels].
  - repeat split; done.
  - pose proof (box_size src dw dh X Y Hok). fold l in H. lia.
Qed.

Lemma box_nonempty src dw dh X Y : 1 ≤ dw ≤ Dx src → 1 ≤ dh ≤ Dy src → 0 ≤ X < dw → 0 ≤ Y < dh →
  1 ≤ zlen (box src dw dh X Y).
Proof.
  intros Hdw Hdh HX HY. destruct (column_onto (Dx src) dw X Hdw HX) as (x & Hx & Hxq).
  destruct (column_onto (Dy src) dh Y Hdh HY) as (y & Hy & Hyq).
  assert (Hin : At src x y ∈ box src dw dh X Y).
  { apply list_elem_of_fmap. exists (x, y). split; [done|]. apply list_elem_of_In, List.filter_In.
    split; [by apply list_elem_of_In, elem_of_scan|]. unfold in_box. cbn [fst snd]. by rewrite Hxq, Hyq, !Z.eqb_refl. }
  destruct (box src dw dh X Y); [by apply elem_of_nil in Hin|]. rewrite zlen_cons.
  pose proof (zlen_nonneg l). lia.
Qed.

Definition average (f : channel) (l : list pixel) : Z := sum f l / zlen l.

Lemma average_byte f l : 1 ≤ zlen l → Forall (λ p, 0 ≤ f p ≤ 255) l → u8 (average f l) = average f l.
Proof.
  intros Hl Hf. apply sum_bound in Hf. apply u8_small. unfold average.
  split; [apply Z.div_pos; lia|apply Z.div_lt_upper_bound; lia].
Qed.

(** A thumbnail fits its box and is the box average of its source: its sides
    are positive, within the bound, no longer than the source's and equal to
    them when those fit; every target pixel averages a box of at least one source
    pixel, channel by channel, with no sum wrapping and no cell left empty. *)
Theorem downscale_average src maxDim X Y (Hok : picture_ok src) (Hm : 1 ≤ maxDim) :
  let '(dw, dh, pix) := downscale src maxDim in
  1 ≤ dw ≤ Z.min maxDim (Dx src) ∧ 1 ≤ dh ≤ Z.min maxDim (Dy src) ∧
  (Dx src ≤ maxDim → Dy src ≤ maxDim → dw = Dx src ∧ dh = Dy src) ∧
  (0 ≤ X < dw → 0 ≤ Y < dh →
   let l := box src dw dh X Y in 1 ≤ zlen l ∧
   take 4 (drop (4 * Z.to_nat (Y * dw + X)) pix) =
     [average red l; average green l; average blue l; average alpha l]).
Proof.
  unfold downscale. pose proof Hok as (Hw & Hh & _ & _).
  destruct (fitBox (Dx src) (Dy src) maxDim) as [dw dh] eqn:Hfit.
  destruct (fitBox_spec _ _ _ _ _ Hw Hh Hm Hfit) as (Hdw & Hdh & Hmw & Hmh & Hsame).
  destruct (Z.leb_spec (Dx src) 0); [lia|]. destruct (Z.leb_spec (Dy src) 0); [lia|]. cbn [orb].
  split; [lia|]. split; [lia|]. split; [done|]. intros HX HY. set (l := box src dw dh X Y).
  pose proof (box_nonempty src dw dh X Y Hdw Hdh HX HY) as Hne. fold l in Hne. split; [done|].
  erewrite bind_finish by (apply accumulate_cell; done || lia). fold l.
  unfold finish. cbn [cnt rs gs bs as_]. destruct (Z.eqb_spec (zlen l) 0); [lia|].
  assert (Hch : ∀ f, (∀ p, pixel_ok p → 0 ≤ f p ≤ 255) → u8 (sum f l / zlen l) = average f l).
  { intros f Hf. apply average_byte; [done|]. eapply Forall_impl; [by apply box_pixels|]. exact Hf. }
  rewrite !Hch by (intros p Hp; by destruct (channel_bound p Hp) as (?&?&?&?)). done.
Qed.

Definition ex_picture : picture := MkPicture 640 320 (λ x y, (256 * (x mod 2) * 255, 0, 65535, 65535)).

Lemma downscale_average_witness :
  fitBox 640 320 320 = (320, 160) ∧
  (let '(dw, dh, pix) := downscale ex_picture 320 in
   1 ≤ dw ≤ Z.min 320 640 ∧ 1 ≤ dh ≤ Z.min 320 320).
Proof.
  split; [reflexivity|].
  assert (Hok : picture_ok ex_picture).
  { split; [done|]. split; [done|]. split; [done|]. intros x y. cbn.
    pose proof (Z.mod_pos_bound x 2 ltac:(lia)). lia. }
  pose proof (downscale_average ex_picture 320 0 0 Hok ltac:(lia)) as H.
  destruct (downscale ex_picture 320) as [[dw dh] pix]. destruct H as (Hw & Hh & _). split; [exact Hw|exact Hh].
Defined.
End Thumbnail.
