(* ===== verification/ImageHttp.v ===== *)
(** * The image routes ([cmd/backend/image_http.go])

    Upload, listing, metadata, bytes, thumbnail and deletion over the store and
    the audit trail. What the request's body turns out to be is an argument;
    content sniffing and the image codecs are parameters. *)

From S2P Require Import Prelude GoLib Crypto Db DbLogic RenderDb Bindings PlRender PlaylistFrame Credentials RateLimit AdminGate AdminAuth AdminHttp Images ImageLaws Thumbnail.
Import GoLib Images.
Import RenderDb(image_row, im_sha, im_mime, im_width, im_height).
Import AdminGate(request, ctx, reply, json, JNum, JStr, JTime, JObj, JList, JNull, WriteErr, WriteOK, WriteCreated, c_principal, Now, rStatus).

Module ImageHttp.

Definition defaultMaxImageBytes : Z := 25165824.

(** ** State and calls *)

Record state := MkState { store : vault; trail : Credentials.db }.
Abbreviation MI := (M state Empty_set).

Definition on_store {A} (m : M vault err A) : MI (result err A) := λ s fs,
  let '(r, v, fs') := m (store s) fs in (Ok r, MkState v (trail s), fs').
Definition on_trail {E A} (m : M Credentials.db E A) : MI (result E A) := λ s fs,
  let '(r, t, fs') := m (trail s) fs in (Ok r, MkState (store s) t, fs').

(** ** Names and limits *)

Definition imageMIMEAllowlist : list string :=
  ["image/png"; "image/jpeg"; "image/webp"; "image/gif"]%string.

Section Handlers.
Context (decode_config : bytes → option (string * Z * Z)).
Context (tempName : gset string → string).
(** [http.DetectContentType], [image.Decode], [png.Encode] of an RGBA image *)
Context (detect : bytes → string).
Context (decode : bytes → option Thumbnail.picture).
Context (encode_png : Z * Z * list Z → option bytes).
Context (maxBytes : Z).

Definition allowedImageMIME (blob : bytes) : bool :=
  let ct := bytes_of_string (detect blob) in
  let ct := match cut ct 59 with Some (a, _) => a | None => ct end in
  bool_decide (string_of_bytes (AdminGate.TrimSpace ct) ∈ imageMIMEAllowlist).

Definition extForMIME (m : string) : string :=
  if bool_decide (m = "image/png"%string) then ".png"
  else if bool_decide (m = "image/jpeg"%string) then ".jpg"
  else if bool_decide (m = "image/gif"%string) then ".gif"
  else if bool_decide (m = "image/webp"%string) then ".webp"
  else ".bin".

Definition imageID (path_id : string) : option Z :=
  match parse_int path_id 64 with
  | (id, None) => if id <=? 0 then None else Some id
  | _ => None
  end.
Definition clampImageLimit (raw : string) : Z :=
  match atoi raw with
  | (n, None) => if n <=? 0 then 50 else if 200 <? n then 200 else n
  | _ => 50
  end.
Definition parseImageCursor (raw : string) : Z :=
  if bool_decide (raw = ""%string) then 0
  else match parse_int raw 64 with (n, None) => if n <? 0 then 0 else n | _ => 0 end.

Definition imageMetaFields (img : Image) : list (string * json) :=
  [("id", JNum (ID img)); ("sha256", JStr (Sha256 img)); ("mime", JStr (Mime img));
   ("width", JNum (Width img)); ("height", JNum (Height img)); ("byte_size", JNum (ByteSize img));
   ("created_at", JTime (CreatedAt img))]%string.

(** An element of the listing: the attribution where there is one. *)
Definition image_json (img : Image) : json :=
  JObj (match OperatorKeyID img with Some k => [("operator_key_id"%string, JNum k)] | None => [] end ++
        imageMetaFields img).

Definition refuse (r : request) (status : Z) (code msg : string) : MI reply :=
  mret (WriteErr r [] status code msg).
Definition no_image (r : request) : MI reply := refuse r 404 "not_found" "no such image".

(** ** Upload *)

(** The request's body: a multipart form that does not yield a file, or the bytes
    of the file or of the raw body, up to the error that ends them ([true] for
    the cap on the request). *)
Inductive upload_body :=
| FormTooLarge | FormMalformed | FormNoFile
| Stream (data : bytes) (err : option bool).

Definition limitedRead (r : request) (data : bytes) (err : option bool) : result reply bytes :=
  if zlen data <=? maxBytes then
    match err with
    | None => Ok data
    | Some true => Err (WriteErr r [] 422 "blob_too_large" "image exceeds the size cap")
    | Some false => Err (WriteErr r [] 500 "internal" "image read failed")
    end
  else Ok (take (Z.to_nat (maxBytes + 1)) data).

Definition readUpload (r : request) (b : upload_body) : result reply bytes :=
  match b with
  | FormTooLarge => Err (WriteErr r [] 422 "blob_too_large" "multipart upload exceeds the size cap")
  | FormMalformed => Err (WriteErr r [] 400 "bad_request" "malformed multipart body")
  | FormNoFile => Err (WriteErr r [] 422 "missing_file" "multipart field 'file' required")
  | Stream data err => limitedRead r data err
  end.

Definition minted_by (c : ctx) : option Z :=
  match c_principal c with Some pr => AdminHttp.mintedBy pr | None => None end.

Definition unsupported (r : request) : MI reply :=
  refuse r 422 "unsupported_type" "content type is not an allowed image format".

Definition store_blob (r : request) (c : ctx) (existed : bool) (blob : bytes) : MI reply :=
  img ← on_store (PutImage decode_config tempName (Now r) (minted_by c) blob);
  match img with
  | Err EUnsupported => unsupported r
  | Err ETooLarge => refuse r 422 "blob_too_large" "image dimensions exceed the pixel cap"
  | Err _ => refuse r 500 "internal" "image store failed"
  | Ok img =>
      mret (if existed then WriteOK r [] (imageMetaFields img) else WriteCreated r (imageMetaFields img))
  end.

Definition upload (r : request) (c : ctx) (b : upload_body) : MI reply :=
  match readUpload r b with
  | Err rep => mret rep
  | Ok blob =>
      if zlen blob =? 0 then refuse r 422 "empty_blob" "image body is empty"
      else if maxBytes <? zlen blob then refuse r 422 "blob_too_large" "image exceeds the size cap"
      else if negb (allowedImageMIME blob) then unsupported r
      else
        found ← on_store (GetImageBySha (sha_hex blob));
        match found with
        | Err ENotFound => store_blob r c false blob
        | Err _ => refuse r 500 "internal" "image lookup failed"
        | Ok _ => store_blob r c true blob
        end
  end.

(** ** Reading *)

Definition list_images (r : request) (limit after : string) : MI reply :=
  let limit := clampImageLimit limit in
  imgs ← on_store (ListImages limit (parseImageCursor after));
  match imgs with
  | Err _ => refuse r 500 "internal" "image list failed"
  | Ok imgs =>
      let next := if (zlen imgs =? limit) && (0 <? zlen imgs)
                  then match last imgs with Some img => JNum (ID img) | None => JNull end else JNull in
      mret (WriteOK r [] [("images"%string, JList (image_json <$> imgs)); ("next_cursor"%string, next)])
  end.

(** A JSON answer, a 304, or bytes with their headers. *)
Inductive answer :=
| Json (rep : reply) | NotModified (headers : list (string * string))
| Body (headers : list (string * string)) (data : bytes).
Definition json_of (m : MI reply) : MI answer := rep ← m; mret (Json rep).

Definition dquote : string := String.String (Ascii.ascii_of_nat 34) EmptyString.

Definition serveRaw (r : request) (id : Z) : MI answer :=
  x ← on_store (LoadBlob id);
  match x with
  | Err ENotFound => json_of (no_image r)
  | Err _ => json_of (refuse r 500 "internal" "image blob unavailable")
  | Ok (blob, img) =>
      mret (Body [("Content-Type", Mime img); ("X-Content-Type-Options", "nosniff");
        ("Content-Security-Policy", "default-src 'none'");
        ("Content-Disposition", "inline; filename=" +:+ dquote +:+ format_int id +:+
           extForMIME (Mime img) +:+ dquote);
        ("Content-Length", format_int (zlen blob))]%string blob)
  end.

Definition get_image (r : request) (path_id raw : string) : MI answer :=
  match imageID path_id with
  | None => json_of (no_image r)
  | Some id =>
      if bool_decide (raw = "1"%string) then serveRaw r id
      else json_of (
        img ← on_store (GetImage id);
        match img with
        | Err ENotFound => no_image r
        | Err _ => refuse r 500 "internal" "image read failed"
        | Ok img => mret (WriteOK r [] [("image"%string, JObj (imageMetaFields img))])
        end)
  end.

(** ** Thumbnail *)

Definition thumbETag (sha : string) : string :=
  (dquote +:+ "t" +:+ format_int Thumbnail.thumbMaxDim +:+ "-" +:+ sha +:+ dquote)%string.
Definition writeThumbCacheHeaders (etag : string) : list (string * string) :=
  [("ETag", etag); ("Cache-Control", "private, max-age=31536000, immutable")]%string.

Definition trim_weak (s : bytes) : bytes :=
  if has_prefix [87; 47] s then drop 2 s else s.
Definition etagMatches (inm etag : string) : bool :=
  let bare := trim_weak (bytes_of_string etag) in
  existsb (λ part,
    let p := AdminGate.TrimSpace part in
    bool_decide (p = [42]) || bool_decide (trim_weak p = bare)) (split (bytes_of_string inm) [44]).

Definition thumbnail (r : request) (path_id ifNoneMatch : string) : MI answer :=
  match imageID path_id with
  | None => json_of (no_image r)
  | Some id =>
      x ← on_store (LoadBlob id);
      match x with
      | Err ENotFound => json_of (no_image r)
      | Err _ => json_of (refuse r 500 "internal" "image blob unavailable")
      | Ok (blob, img) =>
          let etag := thumbETag (Sha256 img) in
          if negb (bool_decide (ifNoneMatch = ""%string)) && etagMatches ifNoneMatch etag
          then mret (NotModified (writeThumbCacheHeaders etag))
          else match decode blob with
          | None => json_of (refuse r 500 "internal" "image decode failed")
          | Some src =>
              match encode_png (Thumbnail.downscale src Thumbnail.thumbMaxDim) with
              | None => json_of (refuse r 500 "internal" "thumbnail encode failed")
              | Some out =>
                  mret (Body ([("Content-Type", "image/png"); ("X-Content-Type-Options", "nosniff");
                    ("Content-Security-Policy", "default-src 'none'")]%string ++
                    writeThumbCacheHeaders etag ++ [("Content-Length"%string, format_int (zlen out))]) out)
              end
          end
      end
  end.

(** ** Deletion *)

Definition delete_image (r : request) (c : ctx) (path_id : string) : MI reply :=
  match imageID path_id with
  | None => no_image r
  | Some id =>
      x ← on_store (DeleteImageManagedAware id);
      match x with
      | Err ENotFound => no_image r
      | Err EInUse => refuse r 409 "image_in_use" "image is referenced by a playlist"
      | Err _ => refuse r 500 "internal" "image delete failed"
      | Ok _ =>
          a ← on_trail (Credentials.Write (Now r) (Credentials.MkEntry (AdminHttp.actor_kind c)
                (AdminHttp.actor_id c) "image.delete" (format_int id) (AdminGate.RemoteIP r) true));
          match a with
          | Err _ => refuse r 500 "internal" "image delete audit failed"
          | Ok _ => mret (WriteOK r [] [("deleted"%string, JNum id)])
          end
      end
  end.
End Handlers.

(** ** Lemmas *)

Lemma on_store_runs {A} (m : M vault err A) s fs : ∃ x v fs',
  m (store s) fs = (x, v, fs') ∧ on_store m s fs = (Ok x, MkState v (trail s), fs').
Proof. unfold on_store. destruct (m (store s) fs) as [[x v] fs']. by eexists _, _, _. Qed.

Lemma MkState_same s : MkState (store s) (trail s) = s.
Proof. by destruct s. Qed.

Lemma GetImage_runs id v fs : ∃ x fs', GetImage id v fs = (x, v, fs') ∧
  match x with
  | Ok img => ∃ r, images v !! id = Some r ∧ img = image_of v id r
  | Err ENotFound => images v !! id = None
  | Err _ => True
  end.
Proof.
  unfold GetImage, query, stmt. destruct fs as [|[] fs]; [|by eexists _, _|];
    (destruct (images v !! id) as [r|] eqn:Hi; eexists _, _; (split; [reflexivity|]); [by exists r|done]).
Qed.

Lemma LoadBlob_runs id v fs : ∃ x fs', LoadBlob id v fs = (x, v, fs') ∧
  match x with
  | Ok (b, img) => ∃ r f, images v !! id = Some r ∧ img = image_of v id r ∧
                     files v !! blobFSPath (im_sha r) = Some f ∧ b = f_data f
  | Err ENotFound => images v !! id = None
  | Err _ => True
  end.
Proof.
  unfold LoadBlob, mbind, M_bind. destruct (GetImage_runs id v fs) as ([img|e] & fs1 & -> & H);
    [|by eexists _, _].
  destruct H as (r & Hi & ->). unfold query, stmt. cbn [Sha256 image_of].
  destruct fs1 as [|[] fs1]; [|by eexists _, _|];
    (destruct (files v !! blobFSPath (im_sha r)) as [f|] eqn:Hf; eexists _, _; (split; [reflexivity|]);
      [by exists r, f|done]).
Qed.

(** The headers that keep a browser from running what it is served. *)
Definition inert (ty : string) (hs : list (string * string)) : Prop :=
  ("Content-Type", ty)%string ∈ hs ∧ ("X-Content-Type-Options", "nosniff")%string ∈ hs ∧
  ("Content-Security-Policy", "default-src 'none'")%string ∈ hs.

Definition refused (rep : reply) : Prop := rStatus rep ∈ [404; 500].

Lemma serveRaw_runs r id s fs : ∃ a fs', serveRaw r id s fs = (Ok a, s, fs') ∧
  match a with
  | Body hs data => ∃ row f, images (store s) !! id = Some row ∧ inert (im_mime row) hs ∧
      files (store s) !! blobFSPath (im_sha row) = Some f ∧ data = f_data f
  | Json rep => refused rep
  | NotModified _ => False
  end.
Proof.
  unfold serveRaw, mbind at 1, M_bind at 1. destruct (on_store_runs (LoadBlob id) s fs) as (x & v & fs1 & Hm & ->).
  destruct (LoadBlob_runs id (store s) fs) as (x' & fs' & Hrun & H). rewrite Hrun in Hm.
  injection Hm as <- <- <-. rewrite MkState_same. destruct x' as [[b img]|e].
  - destruct H as (row & f & Hi & -> & Hf & ->). eexists _, _. split; [reflexivity|]. exists row, f.
    split; [done|]. split; [|done]. unfold inert. set_solver.
  - destruct e; eexists _, _; (split; [reflexivity|]); unfold refused; cbn; set_solver.
Qed.

Section Laws.
Context (decode : bytes → option Thumbnail.picture).
Context (encode_png : Z * Z * list Z → option bytes).

Lemma get_image_keeps r path_id raw s fs : ∃ a fs', get_image r path_id raw s fs = (Ok a, s, fs') ∧
  match a with
  | Body hs data => ∃ id row f, imageID path_id = Some id ∧ images (store s) !! id = Some row ∧
      inert (im_mime row) hs ∧ files (store s) !! blobFSPath (im_sha row) = Some f ∧ data = f_data f
  | Json rep => refused rep ∨ rStatus rep = 200
  | NotModified _ => False
  end.
Proof.
  unfold get_image. destruct (imageID path_id) as [id|].
  2: { eexists _, _. split; [reflexivity|]. left. unfold refused. cbn. set_solver. }
  case_bool_decide as Hraw.
  - destruct (serveRaw_runs r id s fs) as (a & fs' & Hrun & H). exists a, fs'. split; [done|].
    destruct a; [by left|done|]. destruct H as (row & f & ?). by exists id, row, f.
  - unfold json_of, mbind, M_bind. destruct (on_store_runs (GetImage id) s fs) as (x & v & fs1 & Hm & ->).
    destruct (GetImage_runs id (store s) fs) as (x' & fs' & Hrun & H2). rewrite Hrun in Hm.
    injection Hm as <- <- <-. rewrite MkState_same.
    destruct x' as [img|e]; [|destruct e]; eexists _, _; (split; [reflexivity|]);
      [by right|left; unfold refused; cbn; set_solver..].
Qed.

(** What a thumbnail answer says of its image. *)
Definition tile_of (row : image_row) (data : bytes) (blob : bytes) : Prop :=
  ∃ src, decode blob = Some src ∧ encode_png (Thumbnail.downscale src Thumbnail.thumbMaxDim) = Some data.

Lemma thumbnail_keeps r path_id inm s fs : ∃ a fs', thumbnail decode encode_png r path_id inm s fs = (Ok a, s, fs') ∧
  match a with
  | Body hs data => ∃ id row f, imageID path_id = Some id ∧ images (store s) !! id = Some row ∧
      inert "image/png" hs ∧ ("ETag"%string, thumbETag (im_sha row)) ∈ hs ∧
      files (store s) !! blobFSPath (im_sha row) = Some f ∧ tile_of row data (f_data f)
  | Json rep => refused rep
  | NotModified _ => ∃ id row, imageID path_id = Some id ∧ images (store s) !! id = Some row ∧
      etagMatches inm (thumbETag (im_sha row)) = true
  end.
Proof.
  unfold thumbnail. destruct (imageID path_id) as [id|].
  2: { eexists _, _. split; [reflexivity|]. unfold refused. cbn. set_solver. }
  unfold mbind at 1, M_bind at 1. destruct (on_store_runs (LoadBlob id) s fs) as (x & v & fs1 & Hm & ->).
  destruct (LoadBlob_runs id (store s) fs) as (x' & fs' & Hrun & H). rewrite Hrun in Hm.
  injection Hm as <- <- <-. rewrite MkState_same. destruct x' as [[b img]|e].
  2: { destruct e; eexists _, _; (split; [reflexivity|]); unfold refused; cbn; set_solver. }
  destruct H as (row & f & Hi & -> & Hf & ->). cbv zeta. cbn [Sha256 image_of].
  destruct (_ && _) eqn:He; [eexists _, _; split; [reflexivity|]; exists id, row; by apply andb_true_iff in He as [_ ?]|].
  destruct (decode (f_data f)) as [src|] eqn:Hd.
  2: { eexists _, _. split; [reflexivity|]. unfold refused. cbn. set_solver. }
  destruct (encode_png _) as [out|] eqn:Hout; (eexists _, _; split; [reflexivity|]).
  - exists id, row, f. split_and!; [done|done|unfold inert; set_solver|set_solver|done|by exists src].
  - unfold refused. cbn. set_solver.
Qed.

(** What the image routes serve, whatever fails: bytes of a stored image's own
    content address under the type checked at its upload (never one the bytes
    could choose), or the tile derived from such bytes under its address' tag,
    each with sniffing off and an empty content policy; 304 only for a tag the
    client holds; and no request for an image changes anything. *)
Theorem images_served r path_id raw inm s fs (Hw : ImageLaws.wf (store s)) :
  (∃ a fs', get_image r path_id raw s fs = (Ok a, s, fs') ∧
    match a with
    | Body hs data => ∃ id row, imageID path_id = Some id ∧ images (store s) !! id = Some row ∧
        sha_hex data = im_sha row ∧ im_mime row ∈ ImageLaws.mimes ∧ inert (im_mime row) hs
    | Json rep => refused rep ∨ rStatus rep = 200
    | NotModified _ => False
    end) ∧
  (∃ a fs', thumbnail decode encode_png r path_id inm s fs = (Ok a, s, fs') ∧
    match a with
    | Body hs data => ∃ id row blob, imageID path_id = Some id ∧ images (store s) !! id = Some row ∧
        sha_hex blob = im_sha row ∧ tile_of row data blob ∧ inert "image/png" hs ∧
        ("ETag"%string, thumbETag (im_sha row)) ∈ hs
    | NotModified _ => ∃ id row, imageID path_id = Some id ∧ images (store s) !! id = Some row ∧
        etagMatches inm (thumbETag (im_sha row)) = true
    | Json rep => refused rep
    end).
Proof.
  assert (Haddr : ∀ id row f, images (store s) !! id = Some row →
    files (store s) !! blobFSPath (im_sha row) = Some f → sha_hex (f_data f) = im_sha row).
  { intros id row f Hi Hf. apply (ImageLaws.wf_addr _ Hw); [|done]. by apply (ImageLaws.wf_row _ Hw id row Hi). }
  split.
  - destruct (get_image_keeps r path_id raw s fs) as (a & fs' & Hrun & H). exists a, fs'. split; [done|].
    destruct a as [|hs|hs data]; [done..|]. destruct H as (id & row & f & Hid & Hi & Hin & Hf & ->).
    exists id, row. split_and!; [done|done|by eapply Haddr|by apply (ImageLaws.wf_row _ Hw id row Hi)|apply Hin..].
  - destruct (thumbnail_keeps r path_id inm s fs) as (a & fs' & Hrun & H). exists a, fs'. split; [done|].
    destruct a as [|hs|hs data]; [done..|]. destruct H as (id & row & f & Hid & Hi & Hin & Het & Hf & Ht).
    exists id, row, (f_data f). split_and!; [done|done|by eapply Haddr|done|apply Hin..|done].
Qed.
End Laws.

Section Upload.
Context (decode_config : bytes → option (string * Z * Z)).
Context (tempName : gset string → string).
Context (Htmp : ∀ X, is_tmp (tempName X) = true).
Context (detect : bytes → string) (maxBytes : Z).

(** What the gates admit. *)
Definition admitted (r : request) (b : upload_body) (blob : bytes) : Prop :=
  readUpload maxBytes r b = Ok blob ∧ 0 < zlen blob ≤ maxBytes ∧ allowedImageMIME detect blob = true.

Lemma store_blob_runs r c existed blob s fs : ImageLaws.wf (store s) →
  ∃ rep s' fs', store_blob decode_config tempName r c existed blob s fs = (Ok rep, s', fs') ∧
    ImageLaws.wf (store s') ∧ trail s' = trail s ∧
    ((rStatus rep ∈ [422; 500]) ∨
     ∃ img, PutImage decode_config tempName (Now r) (minted_by c) blob (store s) fs = (Ok img, store s', fs') ∧
       ImageLaws.row_for img blob (store s') ∧
       rep = if existed then WriteOK r [] (imageMetaFields img) else WriteCreated r (imageMetaFields img)).
Proof.
  intros Hw. unfold store_blob, mbind at 1, M_bind at 1.
  destruct (on_store_runs (PutImage decode_config tempName (Now r) (minted_by c) blob) s fs)
    as (x & v & fs1 & Hm & ->).
  pose proof (ImageLaws.PutImage_keeps decode_config tempName Htmp None (Now r) (minted_by c) blob (store s) fs
    (conj Hw I)) as H. rewrite Hm in H. destruct x as [img|e].
  - destruct H as [[Hw' _] Hrow]. eexists _, _, _. split; [reflexivity|]. split; [done|]. split; [done|].
    right. exists img. by destruct existed.
  - destruct H as [Hw' _]. destruct e; eexists _, _, _; (split; [reflexivity|]);
      (split; [done|]; split; [done|]; left; cbn; set_solver).
Qed.

Lemma find_row sha v : ImageLaws.wf v → ∀ fs, ∃ x fs', GetImageBySha sha v fs = (x, v, fs') ∧ (fs = [] → fs' = []) ∧
  match x with
  | Ok _ => is_Some (find_sha sha v) | Err ENotFound => find_sha sha v = None | Err _ => True
  end.
Proof.
  intros Hw fs. unfold GetImageBySha, query, stmt. destruct fs as [|[] fs]; [|by eexists _, _|];
    (destruct (find_sha sha v) as [[id r]|] eqn:Hi; eexists _, _; (split; [reflexivity|]); [by eauto|done]).
Qed.

(** The image is served with the bytes of the uploaded address. *)
Definition serves (img : Image) (row : image_row) (blob : bytes) (s' : state) : Prop :=
  ∀ r path_id, imageID path_id = Some (ID img) →
    ∃ hs data fs', get_image r path_id "1" s' [] = (Ok (Body hs data), s', fs') ∧
      sha_hex data = sha_hex blob ∧ inert (im_mime row) hs.

Definition upload_post (r : request) (b : upload_body) (s : state) (fs : list bool) (rep : reply) (s' : state)
    : Prop :=
  ImageLaws.wf (store s') ∧ trail s' = trail s ∧
  (rStatus rep ∈ [400; 422; 500] ∨
   ∃ blob img row, admitted r b blob ∧ images (store s') !! ID img = Some row ∧
     im_sha row = sha_hex blob ∧ im_width row * im_height row ≤ MaxImagePixels ∧
     (rep = WriteCreated r (imageMetaFields img) ∧ find_sha (sha_hex blob) (store s) = None ∨
      rep = WriteOK r [] (imageMetaFields img) ∧ is_Some (find_sha (sha_hex blob) (store s))) ∧
     (fs = [] → serves img row blob s')).

Lemma present_serves img row blob s' : ImageLaws.wf (store s') → images (store s') !! ID img = Some row →
  im_sha row = sha_hex blob → ImageLaws.present blob (store s') → serves img row blob s'.
Proof.
  intros Hw Hi Hs Hp r path_id Hid.
  destruct (ImageLaws.LoadBlob_held (ID img) row (store s')) as (f & Hf & Hl); [split; [done|by rewrite Hs]|].
  unfold get_image. rewrite Hid, bool_decide_true by done. unfold serveRaw, mbind at 1, M_bind at 1.
  destruct (on_store_runs (LoadBlob (ID img)) s' []) as (x & v & fs1 & Hm & ->). rewrite Hl in Hm.
  injection Hm as <- <- <-. rewrite MkState_same. eexists _, _, _. split; [reflexivity|].
  split; [|unfold inert; set_solver]. rewrite <-Hs. apply (ImageLaws.wf_addr _ Hw); [|done].
  by apply (ImageLaws.wf_row _ Hw (ID img) row Hi).
Qed.

(** The tail of an upload, once its content is known to be new or not. *)
Lemma stored_post r c b existed blob s fs0 fs : ImageLaws.wf (store s) → admitted r b blob →
  (existed = true → is_Some (find_sha (sha_hex blob) (store s))) →
  (existed = false → find_sha (sha_hex blob) (store s) = None) → (fs0 = [] → fs = []) →
  ∃ rep s' fs', store_blob decode_config tempName r c existed blob s fs = (Ok rep, s', fs') ∧
    upload_post r b s fs0 rep s'.
Proof.
  intros Hw Had Hold Hnew Hfs.
  destruct (store_blob_runs r c existed blob s fs Hw) as (rep & s' & fs' & Hrun & Hw' & Htr & Hcase).
  exists rep, s', fs'. split; [done|]. split; [done|]. split; [done|].
  destruct Hcase as [Hs|(img & Hput & (row & Hi & Hsha) & ->)]; [left; set_solver|right].
  exists blob, img, row. split_and!; [done|done|done|by apply (ImageLaws.wf_row _ Hw' _ row Hi)|..].
  - destruct existed; [right|left]; auto.
  - intros Hf. apply present_serves; [done..|].
    eapply (ImageLaws.PutImage_present decode_config tempName Htmp); [exact Hw|exact Hput|left; auto].
Qed.

(** An upload, whatever fails: it answers, the store stays well formed and a
    success passed every gate (size, sniffed type, decodable header, pixel cap),
    201 exactly for content the store did not have. Where no call fails, the
    image it names is then served with the bytes of the uploaded address. *)
Theorem upload_served r c b s fs (Hw : ImageLaws.wf (store s)) :
  ∃ rep s' fs', upload decode_config tempName detect maxBytes r c b s fs = (Ok rep, s', fs') ∧
    upload_post r b s fs rep s'.
Proof.
  assert (Hno : ∀ rep, rStatus rep ∈ [400; 422; 500] → upload_post r b s fs rep s).
  { intros rep Hrep. split; [done|]. split; [done|]. by left. }
  unfold upload. destruct (readUpload maxBytes r b) as [blob|rep] eqn:Hread.
  2: { eexists _, _, _. split; [reflexivity|]. apply Hno. unfold readUpload, limitedRead in Hread.
       destruct b as [| | |data [[]|]]; repeat case_match; simplify_eq; cbn; set_solver. }
  destruct (Z.eqb_spec (zlen blob) 0) as [|Hpos]; [eexists _, _, _; split; [reflexivity|]; apply Hno; cbn; set_solver|].
  destruct (Z.ltb_spec maxBytes (zlen blob)) as [|Hmax]; [eexists _, _, _; split; [reflexivity|]; apply Hno; cbn; set_solver|].
  destruct (allowedImageMIME detect blob) eqn:Hal; [|eexists _, _, _; split; [reflexivity|]; apply Hno; cbn; set_solver].
  cbn [negb]. pose proof (zlen_nonneg blob). assert (Had : admitted r b blob) by (split_and!; [done|lia|lia|done]).
  unfold mbind at 1, M_bind at 1.
  destruct (on_store_runs (GetImageBySha (sha_hex blob)) s fs) as (x & v & fs1 & Hm & ->).
  destruct (find_row (sha_hex blob) (store s) Hw fs) as (x' & fs' & Hrun & Hfs & H2). rewrite Hrun in Hm.
  injection Hm as <- <- <-. rewrite MkState_same.
  destruct x' as [img|e]; [by apply stored_post|].
  destruct e; [by apply stored_post|eexists _, _, _; split; [reflexivity|]; apply Hno; cbn; set_solver..].
Qed.
End Upload.

(** ** Samples *)

Definition ex_state : state :=
  MkState ImageLaws.empty_vault (Credentials.MkDb ∅ ∅ ∅ ∅ [] 1 1 1).
Definition ex_detect (b : bytes) : string := "image/png".
Definition ex_decode (b : bytes) : option Thumbnail.picture := Some (Thumbnail.MkPicture 2 2 (λ _ _, (0, 0, 0, 65535))).
Definition ex_encode (x : Z * Z * list Z) : option bytes := Some (x.2).

Lemma upload_served_witness : ∃ rep s' fs',
  upload ImageLaws.ex_config ImageLaws.ex_temp ex_detect 100
    (AdminGate.MkRequest "POST" "" None "" "" "" None "" 7) AdminGate.no_ctx (Stream [1; 2] None) ex_state [] =
    (Ok rep, s', fs') ∧ rStatus rep = 201.
Proof.
  destruct (upload_served ImageLaws.ex_config ImageLaws.ex_temp (λ _, eq_refl) ex_detect 100
    (AdminGate.MkRequest "POST" "" None "" "" "" None "" 7) AdminGate.no_ctx (Stream [1; 2] None) ex_state []
    ImageLaws.wf_empty) as (rep & s' & fs' & Hrun & _).
  exists rep, s', fs'. split; [exact Hrun|].
  assert (H : match (upload ImageLaws.ex_config ImageLaws.ex_temp ex_detect 100
    (AdminGate.MkRequest "POST" "" None "" "" "" None "" 7) AdminGate.no_ctx (Stream [1; 2] None) ex_state []).1.1
    with Ok rep => rStatus rep | Err _ => 0 end = 201) by (vm_compute; reflexivity).
  rewrite Hrun in H. exact H.
Defined.

Lemma images_served_witness : ∃ a fs',
  thumbnail ex_decode ex_encode (AdminGate.MkRequest "GET" "" None "" "" "" None "" 8) "1" "*" ex_state [] =
    (Ok a, ex_state, fs') ∧ match a with Json rep => rStatus rep ∈ [404; 500] | _ => True end.
Proof.
  destruct (images_served ex_decode ex_encode (AdminGate.MkRequest "GET" "" None "" "" "" None "" 8) "1" "1" "*"
    ex_state [] ImageLaws.wf_empty) as [_ (a & fs' & Hrun & Ha)].
  exists a, fs'. split; [exact Hrun|]. destruct a; [exact Ha|exact I..].
Defined.
End ImageHttp.
