(* ===== verification/PlaylistHttp.v ===== *)
(** * The playlist routes ([cmd/backend/playlist_http.go], [panel_http.go])

    The playlist CRUD, the items, the binding of a device and the single-image
    shortcut, with the signal a mutation sends to the warmer. A request's
    decoded JSON body is an argument, [None] where it does not decode or is too
    long. *)

From S2P Require Import Prelude GoLib Db RenderDb Rollout PlaylistStore PlRender TemplateStore Fleet DeviceStore AdminGate AdminHttp DeviceHttp.
Import GoLib Fleet.
Import AdminGate(request, ctx, reply, json, JNull, JBool, JNum, JStr, JTime, JList, JObj, WriteOK, WriteCreated, WriteErr, c_principal, rStatus).

Module PlaylistHttp.

(** The tables, and the payloads sent on the channel [playlist_changed]. *)
Record state := MkState { world : fleet; signals : list Z }.
Abbreviation MP := (M state Empty_set).

Definition on_world {A} (m : MF A) : MP A := λ s fs,
  let '(r, w, fs') := m (world s) fs in (r, MkState w (signals s), fs').
Definition on_db {E A} (m : M RenderDb.db E A) : MP (result E A) := on_world (on_render m).

Definition refuse (r : request) (status : Z) (code msg : string) : MP reply :=
  mret (WriteErr r [] status code msg).

(** [NotifyPlaylistChanged]: best effort, its error is dropped. *)
Definition notify (playlistID : Z) : MP () := λ s fs,
  match fs with
  | true :: fs' => (Ok (), s, fs')
  | _ => (Ok (), MkState (world s) (signals s ++ [playlistID]), tail fs)
  end.

(** ** Path and query values *)

Definition playlistID (path_id : string) : option Z :=
  match parse_int path_id 64 with
  | (id, None) => if id <=? 0 then None else Some id
  | _ => None
  end.
Definition no_playlist (r : request) : MP reply := refuse r 404 "not_found" "no such playlist".
Definition no_item (r : request) : MP reply := refuse r 404 "not_found" "no such item".
Definition malformed (r : request) : MP reply := refuse r 400 "bad_request" "malformed JSON body".

Definition clampPlaylistLimit (raw : string) : Z :=
  match atoi raw with
  | (n, None) => if n <=? 0 then 50 else if 200 <? n then 200 else n
  | _ => 50
  end.
Definition parsePlaylistCursor (raw : string) : Z :=
  if bool_decide (raw = ""%string) then 0
  else match parse_int raw 64 with (n, None) => if n <? 0 then 0 else n | _ => 0 end.
Definition parseItemCursor (raw : string) : Z :=
  if bool_decide (raw = ""%string) then -1
  else match atoi raw with (n, None) => n | _ => -1 end.

(** ** Answers *)

Definition omit_empty {A} (key : string) (f : A → json) (x : option A) : list (string * json) :=
  match x with Some a => [(key, f a)] | None => [] end.
Definition playlist_json (p : PlaylistStore.Playlist) : json :=
  JObj ([("id", JNum (PlaylistStore.ID p))]%string ++
        omit_empty "operator_key_id" JNum (PlaylistStore.OperatorKeyID p) ++
        [("name", JStr (PlaylistStore.Name p)); ("interval_s", JNum (PlaylistStore.IntervalS p));
         ("order_mode", JStr (PlaylistStore.OrderMode p));
         ("shuffle_epoch", JNum (PlaylistStore.ShuffleEpoch p));
         ("version", JNum (PlaylistStore.PVersion p))]%string ++
        omit_empty "managed_serial" JStr (PlaylistStore.ManagedSerial p)).
Definition summary_json (s : PlaylistStore.Summary) : json :=
  JObj [("id", JNum (PlaylistStore.SumID s)); ("name", JStr (PlaylistStore.SumName s));
        ("interval_s", JNum (PlaylistStore.SumInterval s));
        ("order_mode", JStr (PlaylistStore.SumOrder s));
        ("version", JNum (PlaylistStore.SumVersion s))]%string.
Definition item_json (i : PlaylistStore.PlaylistItem) : json :=
  JObj [("id", JNum (PlaylistStore.ItemID i)); ("playlist_id", JNum (PlaylistStore.PlaylistID i));
        ("image_id", JNum (PlaylistStore.ImageID i)); ("position", JNum (PlaylistStore.Position i));
        ("fit", JStr (PlaylistStore.Fit i)); ("dither", JStr (PlaylistStore.Dither i))]%string.

(** The cursor of a full page is the key of its last row. *)
Definition next_cursor {A} (limit : Z) (key : A → Z) (rows : list A) : json :=
  if (zlen rows =? limit) && (0 <? zlen rows)
  then match last rows with Some a => JNum (key a) | None => JNull end else JNull.

(** ** Playlists *)

Record create_body := MkCreate { c_name : string; c_order : string; c_interval : Z }.

Definition name_refused (r : request) : MP reply :=
  refuse r 422 "invalid_name" "name must match ^[a-z0-9][a-z0-9._-]{0,127}$".
Definition name_taken (r : request) : MP reply :=
  refuse r 409 "name_conflict" "a playlist with that name already exists".

Definition minted_by (c : ctx) : option Z :=
  match c_principal c with Some pr => AdminHttp.mintedBy pr | None => None end.

Definition create (r : request) (c : ctx) (body : option create_body) : MP reply :=
  match body with
  | None => malformed r
  | Some b =>
      pl ← on_db (PlaylistStore.CreatePlaylist
                    (PlaylistStore.MkCreateParams (minted_by c) (c_name b) (c_interval b) (c_order b) None));
      match pl with
      | Err RenderDb.ENameInvalid => name_refused r
      | Err RenderDb.EPolicyInvalid =>
          refuse r 422 "invalid_policy" "order_mode must be sequential|shuffle"
      | Err RenderDb.EUnique => name_taken r
      | Err _ => refuse r 500 "internal" "playlist create failed"
      | Ok pl =>
          _ ← notify (PlaylistStore.ID pl);
          mret (WriteCreated r [("playlist"%string, playlist_json pl)])
      end
  end.

Definition list_playlists (r : request) (limit after : string) : MP reply :=
  let limit := clampPlaylistLimit limit in
  rows ← on_db (PlaylistStore.ListPlaylists limit (parsePlaylistCursor after) false);
  match rows with
  | Err _ => refuse r 500 "internal" "playlist list failed"
  | Ok rows =>
      mret (WriteOK r [] [("playlists", JList (summary_json <$> rows));
                          ("next_cursor", next_cursor limit PlaylistStore.SumID rows)]%string)
  end.

Definition get_playlist (r : request) (path_id limit after : string) : MP reply :=
  match playlistID path_id with
  | None => no_playlist r
  | Some id =>
      pl ← on_db (PlaylistStore.GetPlaylist id);
      match pl with
      | Err RenderDb.ENotFound => no_playlist r
      | Err _ => refuse r 500 "internal" "playlist read failed"
      | Ok pl =>
          let limit := clampPlaylistLimit limit in
          items ← on_db (PlaylistStore.ListItems id limit (parseItemCursor after));
          match items with
          | Err _ => refuse r 500 "internal" "playlist items read failed"
          | Ok items =>
              mret (WriteOK r [] [("playlist", playlist_json pl); ("items", JList (item_json <$> items));
                                  ("next_cursor", next_cursor limit PlaylistStore.Position items)]%string)
          end
      end
  end.

Definition update (r : request) (path_id : string) (body : option PlaylistStore.UpdateParams)
    : MP reply :=
  match playlistID path_id with
  | None => no_playlist r
  | Some id =>
      match body with
      | None => malformed r
      | Some (PlaylistStore.MkUpdateParams None None None) =>
          refuse r 422 "nothing_to_update" "provide name and/or order_mode and/or interval_s"
      | Some b =>
          pl ← on_db (PlaylistStore.UpdatePlaylist id b);
          match pl with
          | Err RenderDb.ENameInvalid => name_refused r
          | Err RenderDb.EPolicyInvalid => refuse r 422 "invalid_policy"
              "order_mode must be sequential|shuffle and interval_s must be > 0"
          | Err RenderDb.EUnique => name_taken r
          | Err RenderDb.ENotFound => no_playlist r
          | Err _ => refuse r 500 "internal" "playlist update failed"
          | Ok pl => _ ← notify id; mret (WriteOK r [] [("playlist"%string, playlist_json pl)])
          end
      end
  end.

Definition reshuffle (r : request) (path_id : string) : MP reply :=
  match playlistID path_id with
  | None => no_playlist r
  | Some id =>
      res ← on_db (PlaylistStore.Reshuffle id);
      match res with
      | Err RenderDb.ENotFound => no_playlist r
      | Err _ => refuse r 500 "internal" "reshuffle failed"
      | Ok _ => _ ← notify id; mret (WriteOK r [] [("reshuffled"%string, JNum id)])
      end
  end.

(** The count and the delete are two statements. *)
Definition delete_playlist (r : request) (path_id : string) : MP reply :=
  match playlistID path_id with
  | None => no_playlist r
  | Some id =>
      n ← on_db (PlRender.CountBindings id);
      match n with
      | Err _ => refuse r 500 "internal" "playlist binding check failed"
      | Ok n =>
          if 0 <? n then
            refuse r 409 "playlist_in_use"
              ("playlist is bound to " ++ format_int n ++ " device(s); unbind before deleting")
          else
            res ← on_db (PlaylistStore.DeletePlaylist id);
            match res with
            | Err RenderDb.ENotFound => no_playlist r
            | Err _ => refuse r 500 "internal" "playlist delete failed"
            | Ok _ => mret (WriteOK r [] [("deleted"%string, JNum id)])
            end
      end
  end.

(** ** Items *)

Definition addItem (r : request) (path_id : string) (body : option PlaylistStore.AddItemParams)
    : MP reply :=
  match playlistID path_id with
  | None => no_playlist r
  | Some id =>
      match body with
      | None => malformed r
      | Some b =>
          if PlaylistStore.ap_image b <=? 0
          then refuse r 422 "missing_image_id" "image_id is required"
          else if negb (PlaylistStore.ValidFit (PlaylistStore.ap_fit b))
          then refuse r 422 "invalid_fit" "fit must be cover|contain|fill"
          else if negb (PlaylistStore.ValidDither (PlaylistStore.ap_dither b))
          then refuse r 422 "invalid_dither" "dither must be none|floyd-steinberg|atkinson|ordered"
          else
            pl ← on_db (PlaylistStore.GetPlaylist id);
            match pl with
            | Err RenderDb.ENotFound => no_playlist r
            | Err _ => refuse r 500 "internal" "playlist read failed"
            | Ok _ =>
                item ← on_db (PlaylistStore.AddItem id b);
                match item with
                | Err RenderDb.EForeignKey => refuse r 422 "unknown_image" "image_id does not exist"
                | Err _ => refuse r 500 "internal" "add item failed"
                | Ok item => _ ← notify id; mret (WriteCreated r [("item"%string, item_json item)])
                end
            end
      end
  end.

(** The item goes by its own id; the path names the playlist that is signalled. *)
Definition removeItem (r : request) (path_id path_item : string) : MP reply :=
  match playlistID path_id with
  | None => no_playlist r
  | Some id =>
      match playlistID path_item with
      | None => no_item r
      | Some itemID =>
          res ← on_db (PlaylistStore.RemoveItem itemID);
          match res with
          | Err RenderDb.ENotFound => no_item r
          | Err _ => refuse r 500 "internal" "remove item failed"
          | Ok _ => _ ← notify id; mret (WriteOK r [] [("removed"%string, JNum itemID)])
          end
      end
  end.

Definition reorder (r : request) (path_id : string) (body : option (list Z)) : MP reply :=
  match playlistID path_id with
  | None => no_playlist r
  | Some id =>
      match body with
      | None => malformed r
      | Some ids =>
          res ← on_db (PlaylistStore.Reorder id ids);
          match res with
          | Err RenderDb.EReorderIncomplete => refuse r 422 "reorder_incomplete"
              "item_ids must be exactly the playlist's current items (no missing, foreign, or duplicate ids)"
          | Err _ => refuse r 500 "internal" "reorder failed"
          | Ok _ => _ ← notify id; mret (WriteOK r [] [("reordered"%string, JNum id)])
          end
      end
  end.

(** ** Bindings *)

(** [SELECT EXISTS(SELECT 1 FROM devices WHERE serial = $1)]. *)
Definition device_exists (serial : string) : MF (result db_err bool) :=
  on_fleet (query EDb (λ f, Ok (bool_decide (is_Some (devices f !! serial))))).
Definition bad_serial (r : request) : MP reply :=
  refuse r 422 "invalid_serial" "serial must match ^[A-Za-z0-9_-]{1,31}$".

(** The checks the binding routes share: a valid serial of a known device and a
    decoded positive id. *)
Definition with_device (r : request) (serial : string) (id : option Z) (missing : string * string)
    (k : Z → MP reply) : MP reply :=
  if negb (DeviceStore.ValidSerial serial) then bad_serial r
  else match id with
  | None => malformed r
  | Some id =>
      if id <=? 0 then refuse r 422 missing.1 missing.2
      else
        known ← on_world (device_exists serial);
        match known with
        | Err _ => refuse r 500 "internal" "device check failed"
        | Ok false => refuse r 422 "unknown_serial" "no such device"
        | Ok true => k id
        end
  end.

Definition bind_playlist (r : request) (serial : string) (body : option Z) : MP reply :=
  with_device r serial body ("missing_playlist_id", "playlist_id is required")%string (λ id,
    pl ← on_db (PlaylistStore.GetPlaylist id);
    match pl with
    | Err RenderDb.ENotFound => refuse r 422 "unknown_playlist" "playlist_id does not exist"
    | Err _ => refuse r 500 "internal" "playlist read failed"
    | Ok _ =>
        res ← on_db (PlRender.BindPlaylist serial id);
        match res with
        | Err _ => refuse r 500 "internal" "bind failed"
        | Ok _ => _ ← notify id;
                  mret (WriteOK r [] [("serial", JStr serial); ("playlist_id", JNum id)]%string)
        end
    end).

Definition unbind_playlist (r : request) (serial : string) : MP reply :=
  if negb (DeviceStore.ValidSerial serial) then bad_serial r
  else
    existed ← on_db (PlRender.UnbindPlaylist serial);
    match existed with
    | Err _ => refuse r 500 "internal" "unbind failed"
    | Ok false => refuse r 404 "not_found" "no playlist binding for this device"
    | Ok true => mret (WriteOK r [] [("serial", JStr serial); ("unbound", JBool true)]%string)
    end.

(** [imgstore.GetImage], as far as the shortcut looks: whether the row is there. *)
Definition image_known (id : Z) : M RenderDb.db RenderDb.err () :=
  query RenderDb.EDb (λ d, if bool_decide (is_Some (RenderDb.images d !! id)) then Ok () else Err RenderDb.ENotFound).

(** No signal: the shortcut has no warmer. *)
Definition setImage (r : request) (serial : string) (body : option Z) : MP reply :=
  with_device r serial body ("missing_image_id", "image_id is required")%string (λ id,
    img ← on_db (image_known id);
    match img with
    | Err RenderDb.ENotFound => refuse r 422 "unknown_image" "image_id does not exist"
    | Err _ => refuse r 500 "internal" "image read failed"
    | Ok _ =>
        pl ← on_db (PlRender.SetManagedImage serial id);
        match pl with
        | Err _ => refuse r 500 "internal" "set image failed"
        | Ok pl => mret (WriteOK r [] [("serial", JStr serial); ("image_id", JNum id);
                                       ("playlist_id", JNum pl)]%string)
        end
    end).

(** ** The routes *)

Inductive route :=
| RCreate (b : option create_body) | RList (limit after : string)
| RGet (id limit after : string) | RUpdate (id : string) (b : option PlaylistStore.UpdateParams)
| RReshuffle (id : string) | RDelete (id : string)
| RAddItem (id : string) (b : option PlaylistStore.AddItemParams)
| RRemoveItem (id item : string) | RReorder (id : string) (b : option (list Z))
| RBind (serial : string) (b : option Z) | RUnbind (serial : string)
| RSetImage (serial : string) (b : option Z).

Definition serve (r : request) (c : ctx) (x : route) : MP reply :=
  match x with
  | RCreate b => create r c b
  | RList limit after => list_playlists r limit after
  | RGet id limit after => get_playlist r id limit after
  | RUpdate id b => update r id b
  | RReshuffle id => reshuffle r id
  | RDelete id => delete_playlist r id
  | RAddItem id b => addItem r id b
  | RRemoveItem id item => removeItem r id item
  | RReorder id b => reorder r id b
  | RBind serial b => bind_playlist r serial b
  | RUnbind serial => unbind_playlist r serial
  | RSetImage serial b => setImage r serial b
  end.

End PlaylistHttp.
