(* ===== verification/PlaylistLaws.v ===== *)
(** * What a playlist request does ([cmd/backend/playlist_http.go], [panel_http.go])

    The effect of each store operation as the handlers use it, and the two
    contracts of the routes: an accepted request does what it says, a refused
    one nothing, and no request moves another device. *)

From S2P Require Import Prelude GoLib Db RenderDb Rollout FaasStore PlaylistStore PlRender Bindings TemplateStore Fleet DeviceStore AdminGate AdminHttp DeviceHttp TemplateApply PlaylistHttp.
Import GoLib RenderDb Fleet PlaylistHttp.
Import AdminGate(request, ctx, reply, rStatus).
Import PlaylistStore(items_of, ids_of, next_position, bump, patch, reshuffled, reordered).
Import PlaylistStore(ap_image, ap_fit, ap_dither, up_name).
Import Bindings(tables_ok, resolves, shows_image).
Import TemplateApply(same_but_render, same_but_render_refl, same_but_render_set).

Module PlaylistLaws.

(** ** Effects of the store operations

    A failed operation changes nothing; one that succeeds is related to its
    tables by [R]. *)

Definition effect {A} (m : M db err A) (R : A → db → db → Prop) (d : db) : Prop :=
  ∀ fs, ∃ r d' fs', m d fs = (r, d', fs') ∧ match r with Ok a => R a d d' | Err _ => d' = d end.

Lemma effect_stmt {A} (e : err) (f : db → result err A * db) (R : A → db → db → Prop) d :
  match f d with (Ok a, d') => R a d d' | (Err _, d') => d' = d end → effect (stmt e f) R d.
Proof.
  intros H fs. unfold stmt. destruct fs as [|[] fs]; [|by eexists _, _, _|];
    destruct (f d) as [[a|e'] d']; by eexists _, _, _.
Qed.

Lemma effect_query {A} (e : err) (f : db → result err A) (R : A → db → db → Prop) d :
  match f d with Ok a => R a d d | Err _ => True end → effect (query e f) R d.
Proof. intros H. apply effect_stmt. by destruct (f d). Qed.

Lemma effect_throw {A} (e : err) (R : A → db → db → Prop) d : effect (throw e) R d.
Proof. intros fs. by eexists _, _, _. Qed.

(** Work on the result of an operation that changes nothing more. *)
Lemma effect_map {A B} (m : M db err A) (k : A → M db err B) (R : A → db → db → Prop)
    (R' : B → db → db → Prop) d :
  effect m R d →
  (∀ a d', R a d d' → (∃ b, k a = mret b ∧ R' b d d') ∨ (∃ e, k a = throw e ∧ d' = d)) →
  effect (m ≫= k) R' d.
Proof.
  intros Hm Hk fs. unfold mbind, M_bind. destruct (Hm fs) as (r & d' & fs' & -> & Hr).
  destruct r as [a|e]; [|by eexists _, _, _].
  destruct (Hk a d' Hr) as [(b & -> & Hb)|(e & -> & ->)]; by eexists _, _, _.
Qed.

Lemma effect_and {A} (m : M db err A) R R' d :
  effect m R d → effect m R' d → effect m (λ a d d', R a d d' ∧ R' a d d') d.
Proof.
  intros H H' fs. destruct (H fs) as (r & d1 & fs1 & Hm & Hr).
  destruct (H' fs) as (r' & d2 & fs2 & Hm' & Hr'). rewrite Hm in Hm'. injection Hm' as <- <- <-.
  exists r, d1, fs1. split; [done|]. by destruct r.
Qed.

Lemma effect_mono {A} (m : M db err A) (R R' : A → db → db → Prop) d :
  effect m R d → (∀ a d', R a d d' → R' a d d') → effect m R' d.
Proof.
  intros H Himp fs. destruct (H fs) as (r & d' & fs' & ? & ?). exists r, d', fs'. split; [done|].
  destruct r; auto.
Qed.

(** The invariant of the tables comes for free. *)
Lemma effect_ok {A} (m : M db err A) R d (o : Bindings.op) :
  (∀ fs, Bindings.exec_op o d fs = (m d fs).1.2) → tables_ok d → effect m R d →
  effect m (λ a d d', R a d d' ∧ tables_ok d') d.
Proof.
  intros Hop Hd H fs. destruct (H fs) as (r & d' & fs' & Hm & Hr). exists r, d', fs'. split; [done|].
  destruct r; [|done]. split; [done|].
  pose proof (Bindings.ok_exec_op o d fs Hd) as Hok. by rewrite Hop, Hm in Hok.
Qed.

(** ** What moves *)

(** Everything of a device but the devices in [touched]. *)
Record kept (touched : string → Prop) (d d' : db) : Prop := {
  k_functions : functions d' = functions d;
  k_function_seq : function_seq d' = function_seq d;
  k_images : images d' = images d;
  k_secrets : secrets d' = secrets d;
  k_lastgood : lastgood d' = lastgood d;
  k_variants : variants d' = variants d;
  k_channel : channel_of d' = channel_of d;
  k_bindings : ∀ s, ¬ touched s → playlist_binding d' !! s = playlist_binding d !! s ∧
     render_binding d' !! s = render_binding d !! s ∧ cursors d' !! s = cursors d !! s }.

Definition nobody (s : string) : Prop := False.

Lemma kept_refl t d : kept t d d.
Proof. by constructor. Qed.

(** ** The operations on playlists *)

Definition inserted (id : Z) (r : playlist_row) (d d' : db) : Prop :=
  playlists d !! id = None ∧ playlists d' = <[id := r]> (playlists d) ∧ items d' = items d.
Definition replaced (id : Z) (f : playlist_row → playlist_row) (d d' : db) : Prop :=
  ∃ r, playlists d !! id = Some r ∧ playlists d' = <[id := f r]> (playlists d) ∧ items d' = items d.

Definition created_row (p : PlaylistStore.CreateParams) : playlist_row :=
  MkPlaylistRow (PlaylistStore.cp_operator p) (PlaylistStore.cp_name p)
    (if PlaylistStore.cp_interval p <=? 0 then 900 else PlaylistStore.cp_interval p)
    (if bool_decide (PlaylistStore.cp_order p = ""%string) then "sequential"%string else PlaylistStore.cp_order p)
    1 1 (PlaylistStore.cp_managed p).

Lemma CreatePlaylist_effect p d : tables_ok d →
  effect (PlaylistStore.CreatePlaylist p) (λ pl d d', pl = PlaylistStore.scanPlaylist (PlaylistStore.ID pl) (created_row p) ∧
    inserted (PlaylistStore.ID pl) (created_row p) d d' ∧ ValidName (PlaylistStore.cp_name p) = true ∧ kept nobody d d') d.
Proof.
  intros Hd. unfold PlaylistStore.CreatePlaylist.
  destruct (ValidName _) eqn:Hn; [|apply effect_throw]. cbn [negb].
  destruct (PlaylistStore.ValidOrderMode _); [|apply effect_throw]. cbn [negb].
  apply (effect_map _ _ (λ id d d', inserted id (created_row p) d d' ∧ kept nobody d d')).
  - apply effect_stmt. unfold PlaylistStore.insert_playlist.
    destruct (negb _); [done|]. destruct (_ || _); [done|]. split; [|by constructor].
    split; [|done]. apply eq_None_not_Some. intros Hs. pose proof (proj2 (Bindings.ok_fresh_playlist d Hd) _ Hs). lia.
  - intros id d' [Hi Hk]. left. eexists. split; [reflexivity|]. by split_and!.
Qed.

Lemma on_playlist_effect {A} id f (k : option playlist_row → M db err A) (R : A → db → db → Prop) d :
  (∀ r d', playlists d !! id = Some r → replaced id f d d' → kept nobody d d' →
     ∃ b, k (Some (f r)) = mret b ∧ R b d d') →
  (∃ e, k None = throw e) →
  effect (r ← stmt EDb (PlaylistStore.on_playlist id f); k r) R d.
Proof.
  intros Hs [e Hn].
  apply (effect_map _ _ (λ o d d', match o with
    | Some r' => ∃ r, playlists d !! id = Some r ∧ r' = f r ∧ replaced id f d d' ∧ kept nobody d d'
    | None => d' = d end)).
  - apply effect_stmt. unfold PlaylistStore.on_playlist. destruct (playlists d !! id) as [r|] eqn:Hr; [|done].
    cbv zeta. destruct (_ || _); [done|]. destruct (negb _); [done|].
    destruct (PlaylistStore.playlist_named _ _ _); [done|].
    exists r. split_and!; [done|done|by exists r|by constructor].
  - intros [r'|] d'; [intros (r & Hr & -> & Hrep & Hk)|intros ->; right; eauto].
    left. by apply Hs.
Qed.

Lemma UpdatePlaylist_effect id p d :
  effect (PlaylistStore.UpdatePlaylist id p) (λ pl d d', replaced id (patch p) d d' ∧ kept nobody d d') d.
Proof.
  unfold PlaylistStore.UpdatePlaylist. do 3 (destruct (match _ with Some _ => _ | None => _ end); [apply effect_throw|]).
  apply on_playlist_effect; eauto.
Qed.

Lemma Reshuffle_effect id d :
  effect (PlaylistStore.Reshuffle id) (λ _ d d', replaced id reshuffled d d' ∧ kept nobody d d') d.
Proof. apply on_playlist_effect; [|by eexists]. intros r d' _ H Hk. exists (). by split. Qed.

(** Deleting a playlist takes the devices bound to it along. *)
Definition bound_to (id : Z) (d : db) (s : string) : Prop := playlist_binding d !! s = Some id.

Lemma delete_playlists_kept p d :
  kept (λ s, ∃ id r, bound_to id d s ∧ playlists d !! id = Some r ∧ p (id, r) = true) d (delete_playlists p d).
Proof.
  constructor; try done. intros s Hs. split; [|done]. simpl.
  destruct (playlist_binding d !! s) as [id|] eqn:Hb.
  - apply map_lookup_filter_Some. split; [done|]. simpl.
    destruct (playlists d !! id) as [r|] eqn:Hr; [|done].
    destruct (p (id, r)) eqn:Hp; [|done]. destruct Hs. by exists id, r.
  - apply map_lookup_filter_None. by left.
Qed.

Lemma DeletePlaylist_effect id d :
  effect (PlaylistStore.DeletePlaylist id) (λ _ d d', is_Some (playlists d !! id) ∧ playlists d' !! id = None ∧
    (∀ k, k ≠ id → playlists d' !! k = playlists d !! k) ∧
    (∀ i r, items d' !! i = Some r ↔ items d !! i = Some r ∧ ir_playlist r ≠ id) ∧ kept (bound_to id d) d d') d.
Proof.
  unfold PlaylistStore.DeletePlaylist.
  apply (effect_map _ _ (λ found d d', found = bool_decide (is_Some (playlists d !! id)) ∧
    d' = delete_playlists (λ kv, kv.1 =? id) d)); [by apply effect_stmt|].
  intros found d' [-> ->]. case_bool_decide as Hs.
  - left. exists (). split; [done|]. split; [done|]. split_and!.
    + simpl. apply map_lookup_filter_None. right. intros r Hr. simpl. rewrite Hr, Z.eqb_refl. by intros [=].
    + intros k Hk. simpl. destruct (playlists d !! k) as [r|] eqn:Hr; [|by apply map_lookup_filter_None; left].
      apply map_lookup_filter_Some. split; [done|]. simpl. rewrite Hr. lia.
    + intros i r. simpl. rewrite map_lookup_filter_Some. simpl. destruct (decide (ir_playlist r = id)) as [->|Hne].
      * destruct Hs as [row Hrow]. rewrite Hrow, Z.eqb_refl. naive_solver.
      * destruct (playlists d !! ir_playlist r); [rewrite (proj2 (Z.eqb_neq _ _) Hne)|]; naive_solver.
    + pose proof (delete_playlists_kept (λ kv, kv.1 =? id) d) as [].
      constructor; try done. intros s Hn. apply k_bindings0. intros (i & r & Hb & _ & Hi).
      simpl in Hi. apply Z.eqb_eq in Hi as ->. done.
  - right. eexists. split; [reflexivity|].
    assert (Hnone : playlists d !! id = None) by by apply eq_None_not_Some.
    assert (Hg : ∀ k, match playlists d !! k with Some r => k =? id | None => false end = false).
    { intros k. destruct (playlists d !! k) as [r|] eqn:Hr; [|done]. apply Z.eqb_neq. by intros ->; rewrite Hnone in Hr. }
    destruct d. unfold delete_playlists, upd_playlist_binding, upd_items, upd_playlists. simpl in *.
    f_equal; apply map_filter_id; intros; simpl; apply Hg.
Qed.

Definition appended (pl : Z) (p : PlaylistStore.AddItemParams) (item : Z) (d d' : db) : Prop :=
  items d !! item = None ∧
  items d' = <[item := MkItemRow pl (ap_image p) (next_position pl d)
     (if bool_decide (ap_fit p = ""%string) then "cover"%string else ap_fit p)
     (if bool_decide (ap_dither p = ""%string) then "none"%string else ap_dither p)]> (items d) ∧
  is_Some (images d !! ap_image p) ∧ playlists d' = playlists (bump pl d).

Lemma AddItem_effect pl p d : tables_ok d →
  effect (PlaylistStore.AddItem pl p) (λ it d d', PlaylistStore.Position it = next_position pl d ∧
    appended pl p (PlaylistStore.ItemID it) d d' ∧ kept nobody d d') d.
Proof.
  intros Hd. unfold PlaylistStore.AddItem.
  apply (effect_map _ _ (λ ir d d', ir_position ir.2 = next_position pl d ∧ appended pl p ir.1 d d' ∧ kept nobody d d')).
  - apply effect_stmt. unfold PlaylistStore.add_item, PlaylistStore.insert_item.
    destruct (PlaylistStore.at_max_version pl d); [done|]. destruct (negb (PlaylistStore.item_check _)); [done|].
    destruct (PlaylistStore.position_taken _ _); [done|]. destruct (negb _) eqn:?; [done|].
    destruct (negb (bool_decide (is_Some (images d !! _)))) eqn:Hi; [done|].
    apply negb_false_iff, bool_decide_eq_true in Hi. simpl. split; [done|]. split; [|by constructor].
    split_and!; [|done|exact Hi|done]. apply eq_None_not_Some. intros Hs.
    pose proof (Bindings.ok_fresh_item d Hd _ Hs). lia.
  - intros [id r] d' (Hp & Ha & Hk). left. eexists. split; [reflexivity|]. by split_and!.
Qed.

Lemma RemoveItem_effect id d :
  effect (PlaylistStore.RemoveItem id) (λ _ d d', ∃ r, items d !! id = Some r ∧ items d' = delete id (items d) ∧
    playlists d' = playlists (bump (ir_playlist r) d) ∧ kept nobody d d') d.
Proof.
  apply effect_stmt. unfold PlaylistStore.remove_item. destruct (items d !! id) as [r|]; [|done].
  destruct (PlaylistStore.at_max_version _ _); [done|]. exists r. by split_and!; [..|constructor].
Qed.

Lemma Reorder_effect pl ids d : tables_ok d →
  effect (PlaylistStore.Reorder pl ids) (λ _ d d', ids ≡ₚ ids_of pl d ∧ d' = reordered pl ids d ∧ kept nobody d d') d.
Proof.
  intros Hd fs. destruct (PlaylistStore.Reorder_commits pl ids d) with (fs := fs) as (r & d' & fs' & Hrun & Hr & _).
  { intros id r Hr. by apply (Bindings.ok_item d Hd id r). }
  exists r, d', fs'. split; [done|]. destruct r; [|done]. destruct Hr as [Hp ->]. split_and!; [done|done|by constructor].
Qed.

(** ** The bindings *)

(** The devices a binding moves: the named one, and what was bound to a playlist
    managed for it. *)
Definition displaced (serial : string) (d : db) (s : string) : Prop :=
  s = serial ∨ ∃ id r, bound_to id d s ∧ playlists d !! id = Some r ∧ pr_managed r = Some serial.

Lemma kept_seq (t : string → Prop) d d1 d' : kept t d d1 → kept t d1 d' → kept t d d'.
Proof.
  intros [] []. constructor; try congruence. intros s Hn.
  destruct (k_bindings0 s Hn) as (<- & <- & <-). by apply k_bindings1.
Qed.
Lemma kept_weaken (t t' : string → Prop) d d' : kept t d d' → (∀ s, t s → t' s) → kept t' d d'.
Proof. intros [] Ht. constructor; auto. Qed.

Lemma kept_delete_render s d : kept (eq s) d (upd_render_binding (delete s) d).
Proof. constructor; try done. intros s' Hn. simpl. by rewrite lookup_delete_ne. Qed.
Lemma kept_delete_cursor s d : kept (eq s) d (upd_cursors (delete s) d).
Proof. constructor; try done. intros s' Hn. simpl. by rewrite lookup_delete_ne. Qed.
Lemma kept_insert_playlist_binding s id d : kept (eq s) d (upd_playlist_binding (insert s id) d).
Proof. constructor; try done. intros s' Hn. simpl. by rewrite lookup_insert_ne. Qed.
Lemma kept_delete_playlist_binding s d : kept (eq s) d (upd_playlist_binding (delete s) d).
Proof. constructor; try done. intros s' Hn. simpl. by rewrite lookup_delete_ne. Qed.

(** What [BindPlaylist] does when it commits. *)
Definition bound_playlist (s : string) (id : Z) (d : db) : db :=
  delete_playlists (λ kv, FaasStore.managed_by s kv.2 && negb (kv.1 =? id))
    (upd_cursors (delete s) (upd_playlist_binding (insert s id) (upd_render_binding (delete s) d))).

Lemma BindPlaylist_effect s id d : tables_ok d →
  effect (PlRender.BindPlaylist s id) (λ _ d d', d' = bound_playlist s id d ∧
    resolves s (PlRender.MkBinding id 0) d' ∧ kept (displaced s d) d d') d.
Proof.
  intros Hd. apply (effect_mono _ (λ _ d d', d' = bound_playlist s id d ∧ resolves s (PlRender.MkBinding id 0) d')).
  - apply effect_and; intros fs; [|exact (with_tx_lands _ _ _ _ d fs (Bindings.BindPlaylist_lands s id) Hd)].
    assert (H : ∃ r d' fs', PlRender.BindPlaylist s id d fs = (r, d', fs') ∧
      match r with
      | Ok a => (if bool_decide (is_Some (playlists d !! id)) then Some (bound_playlist s id d, ()) else None)
                = Some (d', a)
      | Err _ => d' = d
      end ∧ (fs = [] → fs' = [] ∧ is_ok r = bool_decide (is_Some
        (if bool_decide (is_Some (playlists d !! id)) then Some (bound_playlist s id d, ()) else None)))).
    { apply with_tx_commits.
      eapply commits_bind_Some; [apply (implements_exec EDb (λ d, d))|].
      eapply commits_bind_Some; [apply implements_exec|].
      case_bool_decide as Hp.
      - eapply commits_bind_Some.
        { apply implements_ok. unfold PlRender.upsert_playlist_binding. by rewrite bool_decide_eq_true_2. }
        do 2 (eapply commits_bind_Some; [apply implements_exec|]). apply commits_end.
      - eapply commits_bind_None. eapply implements_err.
        unfold PlRender.upsert_playlist_binding. by rewrite bool_decide_eq_false_2. }
    destruct H as (r & d' & fs' & Hrun & Hr & _). exists r, d', fs'. split; [done|].
    destruct r; [|done]. case_bool_decide; [|done]. by injection Hr as <-.
  - intros _ d' [-> Hres]. split_and!; [done|done|].
    set (d1 := upd_cursors (delete s) (upd_playlist_binding (insert s id) (upd_render_binding (delete s) d))).
    assert (H1 : kept (eq s) d d1).
    { unfold d1. eapply kept_seq; [apply kept_delete_render|].
      eapply kept_seq; [apply kept_insert_playlist_binding|apply kept_delete_cursor]. }
    apply (kept_seq _ _ d1); [apply (kept_weaken (eq s)); [done|intros ? <-; by left]|].
    eapply kept_weaken; [apply delete_playlists_kept|].
    intros s' (i & r & Hb & Hr & Hm). destruct (decide (s' = s)) as [->|Hne]; [by left|right].
    unfold bound_to, d1 in Hb. simpl in Hb. rewrite lookup_insert_ne in Hb by congruence.
    exists i, r. split_and!; [done|done|]. simpl in Hm. apply andb_true_iff in Hm as [Hm _].
    by apply bool_decide_eq_true in Hm.
Qed.

Lemma SetManagedImage_kept s image d : effect (PlRender.SetManagedImage s image) (λ _ d d', kept (eq s) d d') d.
Proof.
  intros fs. apply (with_tx_lands _ _ (kept (eq s) d)); [|apply kept_refl].
  set (P := kept (eq s) d).
  assert (Hexec : ∀ f, (∀ w, kept (eq s) w (f w)) → keeps P (tx_exec EDb f) (λ _, P)).
  { intros f Hf. apply keeps_exec. intros w Hw. by eapply kept_seq. }
  assert (Hstmt : ∀ A (f : db → result err A * db), (∀ w, kept (eq s) w (f w).2) → keeps P (tx_stmt EDb f) (λ _, P)).
  { intros A f Hf. apply keeps_stmt. intros w Hw. specialize (Hf w). destruct (f w) as [[a|e] w']; [|done].
    by eapply kept_seq. }
  eapply lands_seq; [apply Hexec; intros w; apply kept_refl|].
  eapply lands_seq; [apply Hexec, kept_delete_render|].
  eapply lands_bind; [apply Hstmt|intros pl].
  { intros w. unfold PlRender.upsert_managed, PlaylistStore.insert_playlist.
    repeat case_match; simplify_eq/=; by constructor. }
  eapply lands_seq; [apply Hexec; intros w; by constructor|].
  eapply lands_seq; [apply Hstmt|].
  { intros w. unfold PlaylistStore.insert_item. repeat case_match; simplify_eq/=; by constructor. }
  eapply lands_seq; [apply Hstmt|].
  { intros w. unfold PlRender.upsert_playlist_binding.
    case_bool_decide; [apply kept_insert_playlist_binding|apply kept_refl]. }
  eapply lands_seq; [apply Hexec, kept_delete_cursor|]. apply (lands_commit _ _ (λ _, P)).
Qed.

(** A bind drops what was managed for the device, its items and the bindings to it,
    and nothing more. *)
Definition superseded (s : string) (id : Z) (d : db) (p : Z) : Prop :=
  p ≠ id ∧ ∃ r, playlists d !! p = Some r ∧ pr_managed r = Some s.
Record rebound (s : string) (id : Z) (d d' : db) : Prop := {
  rb_playlists : ∀ p r, playlists d' !! p = Some r ↔ playlists d !! p = Some r ∧ ¬ superseded s id d p;
  rb_items : ∀ i r, items d' !! i = Some r ↔ items d !! i = Some r ∧ ¬ superseded s id d (ir_playlist r);
  rb_bindings : ∀ t p, t ≠ s →
    playlist_binding d' !! t = Some p ↔ playlist_binding d !! t = Some p ∧ ¬ superseded s id d p;
  rb_others : ∀ t, t ≠ s → render_binding d' !! t = render_binding d !! t ∧ cursors d' !! t = cursors d !! t }.

Lemma superseded_gone s id d p :
  match playlists d !! p with Some r => FaasStore.managed_by s r && negb (p =? id) | None => false end = false ↔
  ¬ superseded s id d p.
Proof.
  unfold superseded, FaasStore.managed_by. destruct (playlists d !! p) as [r|]; [|naive_solver].
  rewrite andb_false_iff, bool_decide_eq_false, negb_false_iff, Z.eqb_eq.
  destruct (decide (p = id)), (decide (pr_managed r = Some s)); naive_solver.
Qed.

Lemma bound_playlist_rebound s id d : rebound s id d (bound_playlist s id d).
Proof.
  constructor.
  - intros p r. unfold bound_playlist. simpl. by rewrite map_lookup_filter_Some, <-superseded_gone.
  - intros i r. unfold bound_playlist. simpl. by rewrite map_lookup_filter_Some, <-superseded_gone.
  - intros t p Ht. unfold bound_playlist. simpl.
    by rewrite map_lookup_filter_Some, lookup_insert_ne, <-superseded_gone by done.
  - intros t Ht. unfold bound_playlist. simpl. by rewrite !lookup_delete_ne by done.
Qed.

(** The image shortcut fills the device's managed playlist and no other. *)
Definition repinned (s : string) (pl : Z) (d d' : db) : Prop :=
  (∀ r, playlists d !! pl = Some r → pr_managed r = Some s) ∧
  (∀ p, p ≠ pl → playlists d' !! p = playlists d !! p) ∧
  (∀ i r, ir_playlist r ≠ pl → items d' !! i = Some r ↔ items d !! i = Some r).

Lemma upsert_managed_frame s d w : tables_ok d → playlists w = playlists d → playlist_seq w = playlist_seq d →
  match PlRender.upsert_managed s w with
  | (Ok pl, w') => (∀ r, playlists d !! pl = Some r → pr_managed r = Some s) ∧
      (∀ p, p ≠ pl → playlists w' !! p = playlists d !! p) ∧ items w' = items w ∧ item_seq w' = item_seq w
  | (Err _, _) => True
  end.
Proof.
  intros Hd Hp Hq. unfold PlRender.upsert_managed. destruct (PlaylistStore.playlist_managing s w) as [[id r]|] eqn:Hm.
  - destruct (PlaylistStore.at_max_version id w); [done|]. apply Bindings.playlist_managing_Some in Hm as [Hr Hs].
    unfold bump. simpl. rewrite <-Hp. split_and!; [congruence| |done..]. intros p Hne. by rewrite lookup_alter_ne.
  - unfold PlaylistStore.insert_playlist. destruct (negb _); [done|]. destruct (_ || _); [done|]. simpl.
    split_and!; [|by intros p Hne; rewrite lookup_insert_ne, Hp|done..].
    intros r Hr. destruct (Bindings.ok_fresh_playlist d Hd) as [_ Hf]. rewrite Hq in Hr.
    specialize (Hf _ (ex_intro _ r Hr)). lia.
Qed.

Lemma SetManagedImage_frame s image d : tables_ok d →
  effect (PlRender.SetManagedImage s image) (λ pl d d', repinned s pl d d') d.
Proof.
  intros Hd fs. set (P0 w := playlists w = playlists d ∧ playlist_seq w = playlist_seq d ∧
    items w = items d ∧ item_seq w = item_seq d).
  apply (with_tx_lands _ _ P0 (λ pl, repinned s pl d)); [|by split_and!].
  eapply lands_seq; [apply Bindings.keeps_lock|].
  eapply lands_seq; [by apply (keeps_exec _ _ _ P0)|].
  set (P1 pl w := (∀ r, playlists d !! pl = Some r → pr_managed r = Some s) ∧
    (∀ p, p ≠ pl → playlists w !! p = playlists d !! p) ∧ items w = items d ∧ item_seq w = item_seq d).
  eapply lands_bind; [apply (keeps_stmt _ _ _ P1)|intros pl].
  { intros w (Hp & Hq & Hi & Hj). pose proof (upsert_managed_frame s d w Hd Hp Hq) as H.
    destruct (PlRender.upsert_managed s w) as [[pl|e] w']; [|done]. unfold P1. by rewrite <-Hi, <-Hj. }
  set (P2 w := repinned s pl d w ∧ items w !! item_seq w = None).
  eapply lands_seq; [apply (keeps_exec _ _ _ P2)|].
  { intros w (Hm & Hp & Hi & Hj). split; [split_and!; [done..|]|]; simpl; rewrite Hi, ?Hj.
    - intros i r Hne. rewrite map_lookup_filter_Some. naive_solver.
    - apply map_lookup_filter_None. left. apply eq_None_not_Some. intros ?%(Bindings.ok_fresh_item d Hd). lia. }
  set (P3 w := repinned s pl d w).
  eapply lands_seq; [apply (keeps_stmt _ _ _ (λ _, P3))|].
  { intros w [(Hm & Hp & Hi) Hj]. unfold PlaylistStore.insert_item. destruct (negb _); [done|].
    destruct (PlaylistStore.position_taken _ w); [done|]. destruct (_ || _); [done|]. split_and!; [done..|]. intros i r Hne. simpl. rewrite <-(Hi i r Hne).
    destruct (decide (i = item_seq w)) as [->|]; [|by rewrite lookup_insert_ne].
    rewrite lookup_insert_eq, Hj. split; [|done]. intros [= <-]. by destruct Hne. }
  eapply lands_seq; [apply (keeps_stmt _ _ _ (λ _, P3))|].
  { intros w Hw. unfold PlRender.upsert_playlist_binding. by case_bool_decide. }
  eapply lands_seq; [by apply (keeps_exec _ _ _ P3)|]. apply (lands_commit _ _ (λ pl, repinned s pl d)).
Qed.

Lemma SetManagedImage_effect s image d : tables_ok d →
  effect (PlRender.SetManagedImage s image)
    (λ pl d d', (shows_image s image pl d' ∧ repinned s pl d d') ∧ kept (eq s) d d') d.
Proof.
  intros Hd. apply effect_and; [|apply SetManagedImage_kept]. apply effect_and; [|by apply SetManagedImage_frame].
  intros fs. exact (with_tx_lands _ _ _ _ d fs (Bindings.SetManagedImage_lands s image) Hd).
Qed.

(** An unbind is two statements: the second can fail alone. *)
Lemma UnbindPlaylist_runs s d fs : ∃ r d' fs', PlRender.UnbindPlaylist s d fs = (r, d', fs') ∧
  kept (eq s) d d' ∧ playlists d' = playlists d ∧ items d' = items d ∧
  match r with
  | Ok found => found = bool_decide (is_Some (playlist_binding d !! s)) ∧
                playlist_binding d' !! s = None ∧ cursors d' !! s = None
  | Err _ => d' = d ∨ d' = upd_playlist_binding (delete s) d
  end.
Proof.
  assert (Hall : kept (eq s) d (upd_cursors (delete s) (upd_playlist_binding (delete s) d)))
    by (eapply kept_seq; [apply kept_delete_playlist_binding|apply kept_delete_cursor]).
  unfold PlRender.UnbindPlaylist, exec, stmt, mbind, M_bind, mret, M_ret.
  destruct fs as [|[] [|[] fs]]; eexists _, _, _; (split; [reflexivity|]); simpl;
    rewrite ?lookup_delete_eq; split_and!; try done; auto using kept_refl, kept_delete_playlist_binding.
Qed.

(** ** The contract of the routes *)

Definition registered (serial : string) (f : fleet) : Prop :=
  DeviceStore.ValidSerial serial = true ∧ is_Some (devices f !! serial).

(** What an accepted request did to the tables, and the playlist it announces. *)
Definition outcome (c : ctx) (x : route) (f : fleet) (d d' : db) (announce : option Z) : Prop :=
  match x with
  | RCreate (Some b) => ∃ id, announce = Some id ∧ ValidName (c_name b) = true ∧
      inserted id (created_row (PlaylistStore.MkCreateParams (minted_by c) (c_name b) (c_interval b) (c_order b) None)) d d'
  | RList _ _ => announce = None ∧ d' = d
  | RGet id _ _ => announce = None ∧ d' = d ∧ ∃ n, playlistID id = Some n ∧ is_Some (playlists d !! n)
  | RUpdate id (Some b) => ∃ n, playlistID id = Some n ∧ announce = Some n ∧ replaced n (patch b) d d'
  | RReshuffle id => ∃ n, playlistID id = Some n ∧ announce = Some n ∧ replaced n reshuffled d d'
  | RDelete id => ∃ n, playlistID id = Some n ∧ announce = None ∧ (∀ s, ¬ bound_to n d s) ∧
      is_Some (playlists d !! n) ∧ playlists d' !! n = None ∧
      (∀ k, k ≠ n → playlists d' !! k = playlists d !! k) ∧
      (∀ i r, items d' !! i = Some r ↔ items d !! i = Some r ∧ ir_playlist r ≠ n)
  | RAddItem id (Some b) => ∃ n item, playlistID id = Some n ∧ announce = Some n ∧ appended n b item d d'
  | RRemoveItem id item => ∃ n i r, playlistID id = Some n ∧ playlistID item = Some i ∧ announce = Some n ∧
      items d !! i = Some r ∧ items d' = delete i (items d) ∧ playlists d' = playlists (bump (ir_playlist r) d)
  | RReorder id (Some ids) => ∃ n, playlistID id = Some n ∧ announce = Some n ∧
      ids ≡ₚ ids_of n d ∧ d' = reordered n ids d
  | RBind serial (Some id) => registered serial f ∧ announce = Some id ∧
      resolves serial (PlRender.MkBinding id 0) d' ∧ rebound serial id d d'
  | RUnbind serial => announce = None ∧ is_Some (playlist_binding d !! serial) ∧
      playlist_binding d' !! serial = None ∧ cursors d' !! serial = None ∧
      playlists d' = playlists d ∧ items d' = items d
  | RSetImage serial (Some id) => registered serial f ∧ announce = None ∧ is_Some (images d !! id) ∧
      ∃ pl, shows_image serial id pl d' ∧ repinned serial pl d d'
  | _ => False
  end.

(** The devices whose binding a route may move. *)
Definition touched (x : route) (d : db) : string → Prop :=
  match x with
  | RBind serial _ => displaced serial d
  | RUnbind serial | RSetImage serial _ => eq serial
  | _ => nobody
  end.

Definition refusal (rep : reply) : Prop := rStatus rep ∈ [400; 404; 409; 422; 500].
Definition success (rep : reply) : Prop := rStatus rep ∈ [200; 201].
Definition announced (a : option Z) (s s' : state) : Prop :=
  signals s' = signals s ∨ ∃ id, a = Some id ∧ signals s' = signals s ++ [id].

Inductive answered (c : ctx) (x : route) (s : state) (rep : reply) (s' : state) : Prop :=
| ARefused : refusal rep → s' = s → answered c x s rep s'
| AAccepted d' a : success rep → world s' = set_render d' (world s) → announced a s s' →
    outcome c x (world s) (render_of (world s)) d' a →
    kept (touched x (render_of (world s))) (render_of (world s)) d' → tables_ok d' →
    answered c x s rep s'
| AUnbound serial d' : x = RUnbind serial → rStatus rep ∈ [404; 500] →
    s' = MkState (set_render d' (world s)) (signals s) → kept (eq serial) (render_of (world s)) d' →
    playlist_binding d' !! serial = None → playlists d' = playlists (render_of (world s)) →
    items d' = items (render_of (world s)) → tables_ok d' → answered c x s rep s'.

(** ** Reasoning about a handler *)

Definition wps {A} (m : MP A) (s : state) (Q : A → state → Prop) : Prop :=
  ∀ fs, ∃ a s' fs', m s fs = (Ok a, s', fs') ∧ Q a s'.

Lemma wps_ret {A} (a : A) s (Q : A → state → Prop) : Q a s → wps (mret a) s Q.
Proof. intros H fs. by eexists _, _, _. Qed.

Lemma wps_bind {A B} (m : MP A) (k : A → MP B) s Q : wps m s (λ a s', wps (k a) s' Q) → wps (m ≫= k) s Q.
Proof.
  intros H fs. destruct (H fs) as (a & s' & fs' & Hm & Hk). destruct (Hk fs') as (b & s2 & fs2 & Hb & HQ).
  exists b, s2, fs2. unfold mbind, M_bind. by rewrite Hm.
Qed.

Lemma moved_same s : MkState (set_render (render_of (world s)) (world s)) (signals s) = s.
Proof. rewrite set_render_render_of. by destruct s. Qed.

Lemma wps_on_db {A B} (m : M db err A) R (k : result err A → MP B) s Q :
  effect m R (render_of (world s)) →
  (∀ a d', R a (render_of (world s)) d' → wps (k (Ok a)) (MkState (set_render d' (world s)) (signals s)) Q) →
  (∀ e, wps (k (Err e)) s Q) → wps (on_db m ≫= k) s Q.
Proof.
  intros Hm Hok Herr. apply wps_bind. intros fs. unfold on_db, on_world, on_render, call.
  destruct (Hm fs) as (r & d' & fs' & -> & Hr). eexists _, _, _. split; [reflexivity|].
  destruct r as [a|e]; [by apply Hok|]. subst d'. rewrite moved_same. apply Herr.
Qed.

Lemma wps_read {A B} (f : db → result err A) (k : result err A → MP B) s Q :
  (∀ a, f (render_of (world s)) = Ok a → wps (k (Ok a)) s Q) → (∀ e, wps (k (Err e)) s Q) →
  wps (on_db (query EDb f) ≫= k) s Q.
Proof.
  intros Hok Herr. apply (wps_on_db _ (λ a d d', d' = d ∧ f d = Ok a)); [| |done].
  - apply effect_query. by destruct (f _).
  - intros a d' [-> Ha]. rewrite moved_same. by apply Hok.
Qed.

Lemma wps_known {B} serial (k : result db_err bool → MP B) s Q :
  (∀ e, wps (k (Err e)) s Q) →
  (∀ b, b = bool_decide (is_Some (devices (world s) !! serial)) → wps (k (Ok b)) s Q) →
  wps (on_world (device_exists serial) ≫= k) s Q.
Proof.
  intros He Hk. apply wps_bind. intros fs. destruct s as [w sg].
  destruct fs as [|[] fs]; eexists _, _, _; (split; [reflexivity|]); [by apply Hk|apply He|by apply Hk].
Qed.

Lemma wps_notify {B} id (k : () → MP B) s Q :
  wps (k ()) s Q → wps (k ()) (MkState (world s) (signals s ++ [id])) Q → wps (notify id ≫= k) s Q.
Proof. intros H1 H2. apply wps_bind. intros [|[] fs]; by eexists _, _, _. Qed.

Section Answers.
Context (c : ctx) (x : route) (s : state).

Lemma wps_refuse r status code msg : status ∈ [400; 404; 409; 422; 500] →
  wps (refuse r status code msg) s (answered c x s).
Proof. intros H. apply wps_ret. by apply ARefused. Qed.

(** The end of a handler: the announcement where there is one, and the answer. *)
Lemma wps_accept rep d' a : success rep →
  outcome c x (world s) (render_of (world s)) d' a →
  kept (touched x (render_of (world s))) (render_of (world s)) d' ∧ tables_ok d' →
  (a = None → wps (mret rep) (MkState (set_render d' (world s)) (signals s)) (answered c x s)) ∧
  (∀ id, a = Some id → wps (_ ← notify id; mret rep) (MkState (set_render d' (world s)) (signals s)) (answered c x s)).
Proof.
  intros Hs Ho [Hk Hok]. split.
  - intros ->. apply wps_ret. eapply AAccepted; try done. by left.
  - intros id ->. apply wps_notify; apply wps_ret; eapply AAccepted; try done; [by left|right].
    by exists id.
Qed.

Lemma wps_show rep : success rep → tables_ok (render_of (world s)) →
  outcome c x (world s) (render_of (world s)) (render_of (world s)) None →
  wps (mret rep) s (answered c x s).
Proof.
  intros Hs Hok Ho. apply wps_ret. eapply (AAccepted _ _ _ _ _ (render_of (world s)) None);
    [done|by rewrite set_render_render_of|by left|done|apply kept_refl|done].
Qed.
End Answers.

Ltac listed := apply (bool_decide_unpack _); vm_compute; exact I.
Ltac refusing := first [apply wps_refuse; listed | apply wps_ret, ARefused; [listed|reflexivity]].
(** A store operation: an error is refused, a success goes on. *)
Ltac store_step lem o :=
  eapply wps_on_db; [eapply (effect_ok _ _ _ o); [reflexivity|eassumption|apply lem; eassumption]
                    | |intros []; refusing].

Section Routes.
Context (r : request) (c : ctx) (s : state).
Context (Hok : tables_ok (render_of (world s))).

Lemma create_answered b : wps (create r c b) s (answered c (RCreate b) s).
Proof.
  destruct b as [b|]; [|refusing]. unfold create.
  set (p := PlaylistStore.MkCreateParams _ _ _ _ _).
  store_step CreatePlaylist_effect (Bindings.OCreatePlaylist p).
  intros pl d' [(_ & Hi & Hn & Hk) Hd].
  eapply (wps_accept c (RCreate (Some b)) s _ d' (Some (PlaylistStore.ID pl))); [listed| |done|done].
  by exists (PlaylistStore.ID pl).
Qed.

Lemma list_answered limit after : wps (list_playlists r limit after) s (answered c (RList limit after) s).
Proof.
  apply wps_read; [|intros []; refusing]. intros rows _. by apply wps_show; [listed|..].
Qed.

Lemma get_answered id limit after : wps (get_playlist r id limit after) s (answered c (RGet id limit after) s).
Proof.
  unfold get_playlist. destruct (playlistID id) as [n|] eqn:Hid; [|refusing].
  apply wps_read; [|intros []; refusing]. intros pl Hpl.
  apply wps_read; [|intros []; refusing]. intros its _.
  apply wps_show; [listed|done|]. split_and!; [done|done|]. exists n. split; [done|].
  cbn beta in Hpl. by destruct (playlists _ !! n); [eexists|].
Qed.

Lemma update_answered id b : wps (update r id b) s (answered c (RUpdate id b) s).
Proof.
  unfold update. destruct (playlistID id) as [n|] eqn:Hid; [|refusing]. destruct b as [b|]; [|refusing].
  assert (H : wps (pl ← on_db (PlaylistStore.UpdatePlaylist n b);
    match pl with
    | Err ENameInvalid => name_refused r
    | Err EPolicyInvalid => refuse r 422 "invalid_policy" "order_mode must be sequential|shuffle and interval_s must be > 0"
    | Err EUnique => name_taken r
    | Err ENotFound => no_playlist r
    | Err _ => refuse r 500 "internal" "playlist update failed"
    | Ok pl => _ ← notify n; mret (AdminGate.WriteOK r [] [("playlist"%string, playlist_json pl)])
    end) s (answered c (RUpdate id (Some b)) s)).
  { store_step UpdatePlaylist_effect (Bindings.OUpdatePlaylist n b). intros pl d' [[Hr Hk] Hd].
    eapply (wps_accept c (RUpdate id (Some b)) s _ d' (Some n)); [listed| |done|done]. by exists n. }
  destruct b as [[] [] []]; try exact H. refusing.
Qed.

Lemma reshuffle_answered id : wps (reshuffle r id) s (answered c (RReshuffle id) s).
Proof.
  unfold reshuffle. destruct (playlistID id) as [n|] eqn:Hid; [|refusing].
  store_step Reshuffle_effect (Bindings.OReshuffle n). intros [] d' [[Hr Hk] Hd].
  eapply (wps_accept c (RReshuffle id) s _ d' (Some n)); [listed| |done|done]. by exists n.
Qed.

Lemma unbound_count n d : zlen (filter (λ kv : string * Z, kv.2 = n) (map_to_list (playlist_binding d))) <= 0 →
  ∀ t, ¬ bound_to n d t.
Proof.
  intros Hz t Hb. assert (Hin : (t, n) ∈ filter (λ kv : string * Z, kv.2 = n) (map_to_list (playlist_binding d))).
  { apply list_elem_of_filter. split; [done|]. by apply elem_of_map_to_list. }
  unfold zlen in Hz. destruct (filter _ _); [by apply not_elem_of_nil in Hin|]. simpl in Hz. lia.
Qed.

Lemma delete_answered id : wps (delete_playlist r id) s (answered c (RDelete id) s).
Proof.
  unfold delete_playlist. destruct (playlistID id) as [n|] eqn:Hid; [|refusing].
  apply wps_read; [|intros []; refusing]. intros k [= <-].
  destruct (0 <? _) eqn:Hz; [refusing|]. apply Z.ltb_ge in Hz.
  assert (Hnone : ∀ t, ¬ bound_to n (render_of (world s)) t) by exact (unbound_count n _ Hz).
  store_step DeletePlaylist_effect (Bindings.ODeletePlaylist n). intros [] d' [(Hs & Hn & Ho & Hi & Hk) Hd].
  eapply (wps_accept c (RDelete id) s _ d' None); [listed| | |done].
  - by exists n.
  - split; [|done]. eapply kept_weaken; [exact Hk|]. intros t Ht. by apply Hnone in Ht.
Qed.

Lemma addItem_answered id b : wps (addItem r id b) s (answered c (RAddItem id b) s).
Proof.
  unfold addItem. destruct (playlistID id) as [n|] eqn:Hid; [|refusing]. destruct b as [b|]; [|refusing].
  destruct (_ <=? 0); [refusing|]. destruct (negb _); [refusing|]. destruct (negb _); [refusing|].
  apply wps_read; [|intros []; refusing]. intros pl _.
  store_step AddItem_effect (Bindings.OAddItem n b). intros it d' [(_ & Ha & Hk) Hd].
  eapply (wps_accept c (RAddItem id (Some b)) s _ d' (Some n)); [listed| |done|done]. by eexists n, _.
Qed.

Lemma removeItem_answered id item : wps (removeItem r id item) s (answered c (RRemoveItem id item) s).
Proof.
  unfold removeItem. destruct (playlistID id) as [n|] eqn:Hid; [|refusing].
  destruct (playlistID item) as [i|] eqn:Hit; [|refusing].
  store_step RemoveItem_effect (Bindings.ORemoveItem i). intros [] d' [(row & Hr & Hi & Hp & Hk) Hd].
  eapply (wps_accept c (RRemoveItem id item) s _ d' (Some n)); [listed| |done|done]. by exists n, i, row.
Qed.

Lemma reorder_answered id b : wps (reorder r id b) s (answered c (RReorder id b) s).
Proof.
  unfold reorder. destruct (playlistID id) as [n|] eqn:Hid; [|refusing]. destruct b as [ids|]; [|refusing].
  store_step Reorder_effect (Bindings.OReorder n ids). intros [] d' [(Hp & Hr & Hk) Hd].
  eapply (wps_accept c (RReorder id (Some ids)) s _ d' (Some n)); [listed| |done|done]. by exists n.
Qed.

Lemma with_device_answered serial b missing k x :
  (∀ id, b = Some id → registered serial (world s) → wps (k id) s (answered c x s)) →
  wps (with_device r serial b missing k) s (answered c x s).
Proof.
  intros Hk. unfold with_device. destruct (DeviceStore.ValidSerial serial) eqn:Hv; [|refusing]. cbn [negb].
  destruct b as [id|]; [|refusing]. destruct (id <=? 0); [refusing|].
  apply wps_known; [intros []; refusing|]. intros known ->. case_bool_decide as Hd; [|refusing]. by apply Hk.
Qed.

Lemma bind_answered serial b : wps (bind_playlist r serial b) s (answered c (RBind serial b) s).
Proof.
  apply with_device_answered. intros id -> Hreg.
  apply wps_read; [|intros []; refusing]. intros pl _.
  store_step BindPlaylist_effect (Bindings.OBindPlaylist serial id). intros [] d' [(-> & Hres & Hk) Hd].
  eapply (wps_accept c (RBind serial (Some id)) s _ _ (Some id)); [listed| |done|done].
  split_and!; [done..|apply bound_playlist_rebound].
Qed.

Lemma setImage_answered serial b : wps (setImage r serial b) s (answered c (RSetImage serial b) s).
Proof.
  apply with_device_answered. intros id -> Hreg.
  apply wps_read; [|intros []; refusing]. intros [] Himg.
  store_step SetManagedImage_effect (Bindings.OSetManagedImage serial id). intros pl d' [((Hsh & Hre) & Hk) Hd].
  eapply (wps_accept c (RSetImage serial (Some id)) s _ d' None); [listed| |done|done].
  split_and!; [done..| |by exists pl]. cbn beta in Himg. by case_bool_decide.
Qed.

Lemma unbind_answered serial : wps (unbind_playlist r serial) s (answered c (RUnbind serial) s).
Proof.
  unfold unbind_playlist. destruct (negb _); [refusing|].
  apply wps_bind. intros fs. unfold on_db, on_world, on_render, call.
  destruct (UnbindPlaylist_runs serial (render_of (world s)) fs) as (res & d' & fs' & Hrun & Hk & Hp & Hi & Hr).
  pose proof (Bindings.ok_exec_op (Bindings.OUnbindPlaylist serial) _ fs Hok) as Hd. simpl in Hd.
  rewrite Hrun in *. simpl in Hd. eexists _, _, _. split; [reflexivity|].
  destruct res as [found|e].
  - destruct Hr as (-> & Hb & Hc). case_bool_decide as Hsome.
    + apply (wps_accept c (RUnbind serial) s _ d' None); [listed|done|done|done].
    + eexists _, _, _. split; [reflexivity|]. by eapply (AUnbound _ _ _ _ _ serial d'); [|listed|..].
  - destruct Hr as [->| ->].
    + rewrite moved_same. refusing.
    + eexists _, _, _. split; [reflexivity|].
      eapply (AUnbound _ _ _ _ _ serial); [done|listed|done|done|apply lookup_delete_eq|done..].
Qed.
End Routes.

Lemma serve_answered r c x s : tables_ok (render_of (world s)) → wps (serve r c x) s (answered c x s).
Proof.
  intros Hok. destruct x; simpl.
  - by apply create_answered.
  - by apply list_answered.
  - by apply get_answered.
  - by apply update_answered.
  - by apply reshuffle_answered.
  - by apply delete_answered.
  - by apply addItem_answered.
  - by apply removeItem_answered.
  - by apply reorder_answered.
  - by apply bind_answered.
  - by apply unbind_answered.
  - by apply setImage_answered.
Qed.

Lemma moved_view t d' f : kept t (render_of f) d' → render_of (set_render d' f) = d'.
Proof. intros Hk. apply render_of_set_render. by rewrite (k_channel _ _ _ Hk). Qed.

(** ** Theorems *)

(** C24. Every playlist route does exactly what it answers: under any faults it
    answers; a success has done to the tables what the route names and nothing else
    (the row created, patched, reshuffled, or deleted with its items while no
    device shows it; the item appended at the next position or removed; the order
    replaced by a permutation of it; the registered device resolving exactly the
    playlist, or the one image in the playlist managed for it) and announces the
    playlist at most once. Every other playlist and item stays, and the bindings
    and rotation of every device but the named one; a bind drops the playlists that
    were managed for the device, with their items and with whatever else was bound
    to them. A refusal has changed and announced nothing, except that a refused
    unbind leaves that one device unbound. No table outside the frame side moves,
    and the frame side keeps its invariant. *)
Theorem playlist_requests_exact r c x s fs (Hok : tables_ok (render_of (world s))) :
  ∃ rep s' fs', serve r c x s fs = (Ok rep, s', fs') ∧
    ((success rep ∧ ∃ a, outcome c x (world s) (render_of (world s)) (render_of (world s')) a ∧
        announced a s s') ∨
     (refusal rep ∧ s' = s) ∨
     (∃ serial, x = RUnbind serial ∧ rStatus rep ∈ [404; 500] ∧ signals s' = signals s ∧
        playlist_binding (render_of (world s')) !! serial = None ∧
        playlists (render_of (world s')) = playlists (render_of (world s)) ∧
        items (render_of (world s')) = items (render_of (world s)))) ∧
    kept (touched x (render_of (world s))) (render_of (world s)) (render_of (world s')) ∧
    same_but_render (world s) (world s') ∧ tables_ok (render_of (world s')).
Proof.
  destruct (serve_answered r c x s Hok fs) as (rep & s' & fs' & Hrun & Ha). exists rep, s', fs'.
  split; [done|]. destruct Ha as [? ->|d' a ? Hw ? ? Hk ?|serial d' -> ? -> Hk ? ? ? ?].
  - split; [right; by left|]. split; [apply kept_refl|]. by split; [apply same_but_render_refl|].
  - rewrite Hw, (moved_view _ _ _ Hk). split; [left; split; [done|]; by exists a|].
    split; [done|]. by split; [apply same_but_render_set|].
  - cbn [world signals]. rewrite (moved_view _ _ _ Hk). split; [right; right; exists serial; by split_and!|].
    split; [done|]. by split; [apply same_but_render_set|].
Qed.

(** ** Samples *)

(** Playlists 1 and 2 with an item in 1, image 5; p1 shows its managed playlist 3,
    and p2 was bound to that playlist by its id. *)
Definition ex_db : db :=
  Bindings.exec_ops
    [(Bindings.OCreatePlaylist (PlaylistStore.MkCreateParams None "one" 60 "" None), []);
     (Bindings.OCreatePlaylist (PlaylistStore.MkCreateParams None "two" 60 "" None), []);
     (Bindings.OAddItem 1 (PlaylistStore.MkAddItem 5 "" ""), []);
     (Bindings.OSetManagedImage "p1" 5, []); (Bindings.OBindPlaylist "p2" 3, [])]
    (upd_images (λ _, {[5 := MkImageRow "c0ffee" "image/png" 400 300 1000]}) empty_db).
Definition ex_state : state := MkState (set_render ex_db DeviceHttp.ex_fleet) [].

Definition status_of (x : result Empty_set reply * state * list bool) : Z :=
  match x.1.1 with Ok rep => rStatus rep | Err _ => 0 end.

Lemma tables_ok_view d f : tables_ok d → tables_ok (render_of (set_render d f)).
Proof. intros []. by constructor. Qed.
Lemma ex_state_ok : tables_ok (render_of (world ex_state)).
Proof. apply tables_ok_view, Bindings.ok_exec_ops, Bindings.ok_images; [intros i r H; destruct (lookup_empty_Some i r H)|apply Bindings.tables_ok_empty]. Qed.

(** Rebinding p1 takes p2 along, which showed p1's managed playlist. *)
Lemma bind_displaces : let s' := (serve DeviceHttp.ex_request DeviceHttp.ex_ctx (RBind "p1" (Some 2)) ex_state []).1.2 in
  playlist_binding (render_of (world ex_state)) !! "p2"%string = Some 3 ∧
  playlist_binding (render_of (world s')) !! "p2"%string = None ∧ signals s' = [2].
Proof. split_and!; vm_compute; reflexivity. Qed.

(** Item 1 of playlist 1 goes through the path of playlist 2, which is announced. *)
Lemma removeItem_any_playlist :
  let x := serve DeviceHttp.ex_request DeviceHttp.ex_ctx (RRemoveItem "2" "1") ex_state [] in
  ir_playlist <$> items (render_of (world ex_state)) !! 1 = Some 1 ∧
  items (render_of (world x.1.2)) !! 1 = None ∧ signals x.1.2 = [2] ∧ status_of x = 200.
Proof. split_and!; vm_compute; reflexivity. Qed.

(** Binding p1 elsewhere drops its managed playlist, p2's binding to it included,
    and leaves playlist 1 with its item. *)
Lemma playlist_requests_exact_witness : ∃ rep s',
  serve DeviceHttp.ex_request DeviceHttp.ex_ctx (RBind "p1" (Some 2)) ex_state [] = (Ok rep, s', []) ∧
  rStatus rep = 200 ∧ resolves "p1" (PlRender.MkBinding 2 0) (render_of (world s')) ∧
  playlist_binding (render_of (world s')) !! "p2"%string = None ∧
  items (render_of (world s')) !! 1 = items (render_of (world ex_state)) !! 1 ∧
  is_Some (items (render_of (world ex_state)) !! 1).
Proof.
  destruct (playlist_requests_exact DeviceHttp.ex_request DeviceHttp.ex_ctx (RBind "p1" (Some 2)) ex_state [] ex_state_ok)
    as (rep & s' & fs' & Hrun & H & _).
  assert (Hst : (λ x, (status_of x, x.2))
    (serve DeviceHttp.ex_request DeviceHttp.ex_ctx (RBind "p1" (Some 2)) ex_state []) = (200, []))
    by (vm_compute; reflexivity).
  rewrite Hrun in Hst. injection Hst as Hs Hf. unfold status_of in Hs. simpl in Hs, Hf. subst fs'.
  exists rep, s'. split; [exact Hrun|]. split; [exact Hs|].
  assert (H3 : (λ d, (playlists d !! 3) ≫= pr_managed) (render_of (world ex_state)) = Some "p1"%string) by (vm_compute; reflexivity).
  assert (Hb : playlist_binding (render_of (world ex_state)) !! "p2"%string = Some 3) by (vm_compute; reflexivity).
  assert (H1 : ∃ row, items (render_of (world ex_state)) !! 1 = Some row ∧ ir_playlist row = 1 ∧
    (playlists (render_of (world ex_state)) !! 1) ≫= pr_managed = None)
    by (eexists; split; [vm_compute; reflexivity|split; vm_compute; reflexivity]).
  revert H3 Hb H1 H. generalize (render_of (world ex_state)). intros d H3 Hb (row & Hrow & Hpl & H1) H.
  destruct H as [[_ (a & (_ & _ & Hres & Hrb) & _)]|[[Hr _]|(serial & Hx & _)]]; [| |discriminate Hx].
  - split; [exact Hres|]. split; [|split; [|exact (ex_intro _ row Hrow)]].
    + destruct (playlist_binding (render_of (world s')) !! "p2"%string) as [p|] eqn:Hp; [|reflexivity]. exfalso.
      apply (rb_bindings _ _ _ _ Hrb) in Hp as [Hp Hn]; [|discriminate]. rewrite Hb in Hp. injection Hp as <-.
      apply Hn. split; [discriminate|]. cbv beta in H3.
      destruct (playlists d !! 3) as [q|]; [exact (ex_intro _ q (conj eq_refl H3))|discriminate H3].
    + rewrite Hrow. apply (rb_items _ _ _ _ Hrb). split; [exact Hrow|]. rewrite Hpl. intros [_ (q & Hq & Hm)].
      rewrite Hq in H1. cbn in H1. rewrite H1 in Hm. discriminate Hm.
  - exfalso. unfold refusal in Hr. rewrite Hs in Hr. clear -Hr. by apply (bool_decide_pack _) in Hr.
Defined.

End PlaylistLaws.
