(* ===== verification/FaasHttp.v ===== *)
(** * The function routes ([cmd/backend/faas_http.go], [faas_ui_http.go])

    The CRUD of render functions with their trigger configuration and webhook
    token, the binding of a device to a function, and the editor's reads and
    test run. A request's decoded JSON body is an argument, [None] where it does
    not decode or is too long; a trigger configuration is its JSON value, [None]
    where the field is absent. *)

From S2P Require Import Prelude GoLib JsonText Crypto Bwry Db RenderDb Rollout FaasStore Supervisor TemplateStore Fleet DeviceStore AdminGate DeviceHttp PlaylistHttp.
Import GoLib Fleet DeviceHttp.
Import AdminGate(request, ctx, reply, json, JNull, JBool, JNum, JStr, JTime, JList, JObj, WriteOK, WriteErr, rStatus).

Module FaasHttp.

(** ** Validation *)

Definition faasID (path_id : string) : option Z :=
  match parse_int path_id 64 with
  | (id, None) => if id <=? 0 then None else Some id
  | _ => None
  end.
Definition bad_id (r : request) : MF reply :=
  fail r 422 "invalid_id" "function id must be a positive integer".
Definition no_function (r : request) : MF reply := fail r 404 "not_found" "no such function".
Definition malformed (r : request) : MF reply := fail r 400 "bad_request" "malformed JSON body".

Definition triggerTypeOrDefault (s : string) : option string :=
  if bool_decide (s = ""%string) then Some FaasStore.TriggerRender
  else if FaasStore.trigger_check s then Some s else None.

Record triggerCfg := MkTriggerCfg {
  Mode : string; TTLSec : Z; IntervalS : Z; Dither : string; Cron : string }.
Inductive cfg_field := CMode | CTtl | CInterval | CDither | CCron.
Definition cfg_fields : list (string * cfg_field) :=
  [("mode", CMode); ("ttl_s", CTtl); ("interval_s", CInterval); ("dither", CDither); ("cron", CCron)]%string.
Definition zero_cfg : triggerCfg := MkTriggerCfg "" 0 0 "" "".

(** [json.Unmarshal] reports a member of the wrong type; null leaves it alone. *)
Definition cfg_member (c : triggerCfg) (kv : string * RenderDb.json) : option triggerCfg :=
  let '(MkTriggerCfg m t i d cr) := c in
  match RenderDb.field_of cfg_fields kv.1, kv.2 with
  | None, _ | _, RenderDb.JNull => Some c
  | Some CMode, RenderDb.JStr s => Some (MkTriggerCfg s t i d cr)
  | Some CTtl, RenderDb.JNum n =>
      match parse_int n 64 with (v, None) => Some (MkTriggerCfg m v i d cr) | _ => None end
  | Some CInterval, RenderDb.JNum n =>
      match parse_int n 64 with (v, None) => Some (MkTriggerCfg m t v d cr) | _ => None end
  | Some CDither, RenderDb.JStr s => Some (MkTriggerCfg m t i s cr)
  | Some CCron, RenderDb.JStr s => Some (MkTriggerCfg m t i d s)
  | _, _ => None
  end.
Fixpoint cfg_members (c : triggerCfg) (l : list (string * RenderDb.json)) : option triggerCfg :=
  match l with
  | [] => Some c
  | kv :: l => match cfg_member c kv with Some c => cfg_members c l | None => None end
  end.
Definition unmarshal_cfg (raw : RenderDb.json) : option triggerCfg :=
  match raw with
  | RenderDb.JNull => Some zero_cfg
  | RenderDb.JObj l => cfg_members zero_cfg l
  | _ => None
  end.

Definition render_modes : string :=
  string_of_bytes (bytes_of_string "render mode must be " ++ [34] ++ bytes_of_string "sync" ++ [34] ++
    bytes_of_string " or " ++ [34] ++ bytes_of_string "prerender" ++ [34]).

(** [None]: accepted; otherwise the code and the message of the 422. *)
Definition validTriggerConfig (ty : string) (raw : option RenderDb.json) : option (string * string) :=
  match raw with
  | None => None
  | Some raw =>
      match unmarshal_cfg raw with
      | None => Some ("invalid_trigger_config", "trigger_config must be a JSON object matching the trigger shape")%string
      | Some c =>
          if (TTLSec c <? 0) || (IntervalS c <? 0)
          then Some ("invalid_trigger_config", "ttl_s and interval_s must be >= 0")%string
          else if bool_decide (ty = FaasStore.TriggerRender) && negb (bool_decide (Mode c = ""%string)) &&
                  negb (bool_decide (Mode c = "sync"%string)) && negb (bool_decide (Mode c = "prerender"%string))
          then Some ("invalid_trigger_config", render_modes)%string
          else if negb (bool_decide (Dither c = ""%string)) && negb (bool_decide (is_Some (Bwry.parse_dither (Dither c))))
          then Some ("invalid_dither", "dither must be none|atkinson")%string
          else None
      end
  end.

(** The token and its hash, from 32 random bytes. *)
Definition genWebhookToken (raw : bytes) : string * bytes :=
  let plaintext := string_of_bytes (hex_encode raw) in
  (plaintext, Crypto.sha256 (bytes_of_string plaintext)).

(** ** The CRUD *)

Section Handlers.
(** A JSON value of the store in an answer. *)
Context (raw_json : RenderDb.json → json).
Context (text_le : string → string → bool).

Definition summary_json (s : FaasStore.Summary) : json :=
  JObj [("id", JNum (FaasStore.SumID s)); ("name", JStr (FaasStore.SumName s));
        ("trigger_type", JStr (FaasStore.SumTrigger s)); ("enabled", JBool (FaasStore.SumEnabled s));
        ("version", JNum (FaasStore.SumVersion s))]%string.
Definition list_functions (r : request) : MF reply :=
  sums ← on_render (FaasStore.ListFunctions text_le);
  match sums with
  | Err _ => fail r 500 "internal" "function list failed"
  | Ok sums => mret (WriteOK r [] [("functions"%string, JList (summary_json <$> sums))])
  end.

Definition fnFields (f : FaasStore.Function) : list (string * json) :=
  [("id", JNum (FaasStore.ID f)); ("name", JStr (FaasStore.Name f));
   ("source", JStr (FaasStore.Source f)); ("version", JNum (FaasStore.FVersion f));
   ("trigger_type", JStr (FaasStore.TriggerType f));
   ("trigger_config", match FaasStore.TriggerConfig f with Some j => raw_json j | None => JNull end);
   ("secret_bindings", JList (JStr <$> FaasStore.SecretBindings f));
   ("egress_allow", JList (JStr <$> FaasStore.EgressAllow f));
   ("enabled", JBool (FaasStore.Enabled f))]%string.

Definition get_function (r : request) (path_id : string) : MF reply :=
  match faasID path_id with
  | None => bad_id r
  | Some id =>
      fn ← on_render (FaasStore.LoadFunction id);
      match fn with
      | Err RenderDb.ENotFound => no_function r
      | Err _ => fail r 500 "internal" "function load failed"
      | Ok fn =>
          serials ← on_render (FaasStore.BoundSerials text_le id);
          match serials with
          | Err _ => fail r 500 "internal" "bound-serial lookup failed"
          | Ok serials => mret (WriteOK r [] [("function", JObj (fnFields fn));
                                              ("bound_serials", JList (JStr <$> serials))]%string)
          end
      end
  end.

Record create_body := MkCreate {
  c_name : string; c_source : string; c_trigger : string; c_config : option RenderDb.json;
  c_secrets : list string; c_egress : list string }.

(** [raw]: what [rand.Read] fills in, should a token be minted. *)
Definition create_function (r : request) (raw : bytes) (body : option create_body) : MF reply :=
  match body with
  | None => malformed r
  | Some b =>
      if negb (RenderDb.ValidName (c_name b))
      then fail r 422 "invalid_name" "name must match ^[a-z0-9][a-z0-9._-]{0,127}$"
      else match triggerTypeOrDefault (c_trigger b) with
      | None => fail r 422 "invalid_trigger_type" "trigger_type must be render|schedule|webhook"
      | Some ty =>
          if bool_decide (c_source b = ""%string) then fail r 422 "missing_source" "source is required"
          else match validTriggerConfig ty (c_config b) with
          | Some (code, msg) => fail r 422 code msg
          | None =>
              let token := if bool_decide (ty = FaasStore.TriggerWebhook)
                           then Some (genWebhookToken raw) else None in
              id ← on_render (FaasStore.Create (FaasStore.MkCreateParams (c_name b) (c_source b) ty
                     (c_config b) (c_secrets b) (c_egress b) (snd <$> token) None));
              match id with
              | Err RenderDb.EUnique =>
                  fail r 409 "duplicate_name" "a function with that name already exists"
              | Err _ => fail r 500 "internal" "function create failed"
              | Ok id =>
                  mret (WriteOK r [] ([("id", JNum id); ("name", JStr (c_name b)); ("trigger_type", JStr ty);
                                       ("enabled", JBool false)]%string ++
                    match token with
                    | Some (plaintext, _) => if bool_decide (plaintext = ""%string) then []
                                             else [("webhook_token"%string, JStr plaintext)]
                    | None => [] end))
              end
          end
      end
  end.

Definition update_function (r : request) (path_id : string) (body : option FaasStore.UpdateParams)
    : MF reply :=
  match faasID path_id with
  | None => bad_id r
  | Some id =>
      match body with
      | None => malformed r
      | Some b =>
          fn ← on_render (FaasStore.LoadFunction id);
          match fn with
          | Err RenderDb.ENotFound => no_function r
          | Err _ => fail r 500 "internal" "function load failed"
          | Ok fn =>
              if bool_decide (FaasStore.up_source b = ""%string)
              then fail r 422 "missing_source" "source is required"
              else match validTriggerConfig (FaasStore.TriggerType fn) (FaasStore.up_config b) with
              | Some (code, msg) => fail r 422 code msg
              | None =>
                  found ← on_render (FaasStore.Update id b);
                  match found with
                  | Err _ => fail r 500 "internal" "function update failed"
                  | Ok false => no_function r
                  | Ok true => mret (WriteOK r [] [("id", JNum id); ("updated", JBool true)]%string)
                  end
              end
          end
      end
  end.

(** The two halves of PATCH: the switch, then the token; each gives the fields of
    the answer or refuses. *)
Definition patch_enabled (r : request) (id : Z) (enabled : option bool)
    : MF (result reply (list (string * json))) :=
  match enabled with
  | None => mret (Ok [])
  | Some b =>
      found ← on_render (FaasStore.SetEnabled id b);
      match found with
      | Err _ => rep ← fail r 500 "internal" "set enabled failed"; mret (Err rep)
      | Ok false => rep ← no_function r; mret (Err rep)
      | Ok true => mret (Ok [("enabled"%string, JBool b)])
      end
  end.
Definition rotate_token (r : request) (id : Z) (raw : bytes) : MF (result reply (list (string * json))) :=
  fn ← on_render (FaasStore.LoadFunction id);
  match fn with
  | Err RenderDb.ENotFound => rep ← no_function r; mret (Err rep)
  | Err _ => rep ← fail r 500 "internal" "function load failed"; mret (Err rep)
  | Ok fn =>
      if negb (bool_decide (FaasStore.TriggerType fn = FaasStore.TriggerWebhook)) then
        rep ← fail r 422 "not_webhook" "only a webhook function has a token to rotate"; mret (Err rep)
      else
        let '(plaintext, sha) := genWebhookToken raw in
        res ← on_render (FaasStore.SetWebhookToken id sha);
        match res with
        | Err _ => rep ← fail r 500 "internal" "token rotate failed"; mret (Err rep)
        | Ok _ => mret (Ok [("webhook_token"%string, JStr plaintext)])
        end
  end.

Definition patch_function (r : request) (raw : bytes) (path_id : string)
    (body : option (option bool * bool)) : MF reply :=
  match faasID path_id with
  | None => bad_id r
  | Some id =>
      match body with
      | None => malformed r
      | Some (None, false) => fail r 422 "no_change" "provide enabled and/or rotate_token"
      | Some (enabled, rotate) =>
          x ← patch_enabled r id enabled;
          match x with
          | Err rep => mret rep
          | Ok fields =>
              if rotate : bool then
                y ← rotate_token r id raw;
                match y with
                | Err rep => mret rep
                | Ok token => mret (WriteOK r [] (("id"%string, JNum id) :: fields ++ token))
                end
              else mret (WriteOK r [] (("id"%string, JNum id) :: fields))
          end
      end
  end.

Definition delete_function (r : request) (path_id : string) : MF reply :=
  match faasID path_id with
  | None => bad_id r
  | Some id =>
      found ← on_render (FaasStore.Delete id);
      match found with
      | Err _ => fail r 500 "internal" "function delete failed"
      | Ok false => no_function r
      | Ok true => mret (WriteOK r [] [("id", JNum id); ("deleted", JBool true)]%string)
      end
  end.

(** ** Bindings *)

Definition bad_serial (r : request) : MF reply :=
  fail r 422 "invalid_serial" "serial must match ^[A-Za-z0-9_-]{1,31}$".

Definition bind_function (r : request) (serial : string) (body : option Z) : MF reply :=
  if negb (DeviceStore.ValidSerial serial) then bad_serial r
  else match body with
  | None => malformed r
  | Some id =>
      if id <=? 0 then fail r 422 "missing_function_id" "function_id is required"
      else
        known ← PlaylistHttp.device_exists serial;
        match known with
        | Err _ => fail r 500 "internal" "device check failed"
        | Ok false => fail r 422 "unknown_serial" "no such device"
        | Ok true =>
            res ← on_render (FaasStore.BindDevice serial id);
            match res with
            | Err RenderDb.EForeignKey => fail r 422 "unknown_function" "function_id does not exist"
            | Err _ => fail r 500 "internal" "bind failed"
            | Ok _ => mret (WriteOK r [] [("serial", JStr serial); ("function_id", JNum id)]%string)
            end
        end
  end.

Definition boundFunction (r : request) (serial : string) : MF reply :=
  if negb (DeviceStore.ValidSerial serial) then bad_serial r
  else
    res ← on_render (FaasStore.BoundFunction serial);
    match res with
    | Err _ => fail r 500 "internal" "binding lookup failed"
    | Ok (_, _, false) => mret (WriteOK r [] [("binding"%string, JNull)])
    | Ok (id, name, true) =>
        mret (WriteOK r [] [("binding", JObj [("function_id", JNum id); ("name", JStr name)])]%string)
    end.

Definition boundDevices (r : request) (path_id : string) : MF reply :=
  match faasID path_id with
  | None => bad_id r
  | Some id =>
      v ← on_render (FaasStore.Version id);
      match v with
      | Err RenderDb.ENotFound => no_function r
      | Err _ => fail r 500 "internal" "function check failed"
      | Ok _ =>
          serials ← on_render (FaasStore.BoundSerials text_le id);
          match serials with
          | Err _ => fail r 500 "internal" "bound-device lookup failed"
          | Ok serials => mret (WriteOK r [] [("serials", JList (JStr <$> serials));
                                              ("count", JNum (zlen serials))]%string)
          end
      end
  end.

Definition unbind_function (r : request) (serial : string) : MF reply :=
  if negb (DeviceStore.ValidSerial serial) then bad_serial r
  else
    found ← on_render (FaasStore.Unbind serial);
    match found with
    | Err _ => fail r 500 "internal" "unbind failed"
    | Ok false => fail r 404 "not_found" "no binding for that device"
    | Ok true => mret (WriteOK r [] [("serial", JStr serial); ("unbound", JBool true)]%string)
    end.

(** ** The routes *)

Inductive route :=
| FList | FGet (id : string) | FCreate (b : option create_body)
| FUpdate (id : string) (b : option FaasStore.UpdateParams)
| FPatch (id : string) (b : option (option bool * bool)) | FDelete (id : string)
| FBind (serial : string) (b : option Z)
| FBound (serial : string) | FDevices (id : string) | FUnbind (serial : string).

Definition serve (r : request) (raw : bytes) (x : route) : MF reply :=
  match x with
  | FList => list_functions r
  | FGet id => get_function r id
  | FCreate b => create_function r raw b
  | FUpdate id b => update_function r id b
  | FPatch id b => patch_function r raw id b
  | FDelete id => delete_function r id
  | FBind serial b => bind_function r serial b
  | FBound serial => boundFunction r serial
  | FDevices id => boundDevices r id
  | FUnbind serial => unbind_function r serial
  end.
End Handlers.

(** ** The test run *)

(** The body, [tb_limits] and [tb_payload] as raw JSON text. *)
Record test_body := MkTestBody {
  tb_id : option Z; tb_source : string; tb_dither : string; tb_secrets : list string;
  tb_egress : list string; tb_limits : bytes; tb_serial : string; tb_trigger : string;
  tb_now : string; tb_payload : bytes }.
Record seam := MkSeam { s_body : test_body; s_channel : string; s_trigger : string }.

Inductive test_answer := Refused (rep : reply) | Framed (out : bytes).

(** [SELECT channel FROM devices]: empty where it fails or nothing matches. *)
Definition device_channel (serial : string) : MF (result db_err string) :=
  on_fleet (query EDb (λ f, match devices f !! serial with
                            | Some d => Ok (Rollout.channel d) | None => Err ENoRows end)).

(** [None]: the test render is switched off. *)
Definition testRun (faas : option (seam → MF (bytes * Z))) (r : request) (body : option test_body)
    : MF test_answer :=
  let refuse status code msg := mret (Refused (WriteErr r [] status code msg)) in
  match faas with
  | None => refuse 503 "test_run_unavailable"%string
              "test-run is not configured (BACKEND_TEST_RENDER_ENABLED unset)"%string
  | Some render =>
      match body with
      | None => refuse 400 "bad_request"%string "malformed JSON body"%string
      | Some b =>
          let trigger := if bool_decide (tb_trigger b = ""%string) then "render"%string else tb_trigger b in
          if negb (DeviceStore.ValidSerial (tb_serial b))
          then refuse 422 "invalid_serial"%string "ctx.serial must match ^[A-Za-z0-9_-]{1,31}$"%string
          else if negb (FaasStore.trigger_check trigger)
          then refuse 422 "invalid_trigger"%string "ctx.trigger must be render|schedule|webhook"%string
          else if (0 <? zlen (tb_payload b)) && negb (JsonText.Valid (tb_payload b))
          then refuse 422 "invalid_payload"%string "ctx.payload must be valid JSON"%string
          else if negb (bool_decide (is_Some (tb_id b))) && bool_decide (tb_source b = ""%string)
          then refuse 422 "missing_source"%string "fn.id or fn.source is required"%string
          else
            channel ← device_channel (tb_serial b);
            a ← render (MkSeam b (match channel with Ok c => c | Err _ => ""%string end) trigger);
            if a.2 =? 404 then refuse 404 "not_found"%string "no such function"%string
            else if negb (a.2 =? 200) then refuse 502 "supervisor_error"%string "test-render failed"%string
            else mret (Framed a.1)
      end
  end.

End FaasHttp.

(** * What a function request does ([cmd/backend/faas_http.go], [faas_ui_http.go])

    The accepted trigger configuration is the one the frame path reads; an
    accepted request does what it says, a refused one nothing, a token is shown
    once and kept as its hash. *)

From S2P Require Import Prelude GoLib JsonText Crypto Bwry Db RenderDb Rollout FaasStore PlRender Bindings Supervisor TemplateStore Fleet DeviceStore AdminGate DeviceHttp TemplateApply PlaylistHttp PlaylistLaws.
Import GoLib RenderDb Fleet FaasHttp.
Import AdminGate(request, ctx, reply, rStatus, WriteOK).
Import Bindings(tables_ok, resolves).
Import TemplateApply(same_but_render, same_but_render_refl, same_but_render_set, bound).
Import DeviceHttp(fail).
Import PlaylistLaws(effect, effect_stmt, effect_query, effect_mono, effect_and, effect_ok, refusal, success, registered).

Import Supervisor(config_field, FMode, FTtl, FInterval, FDither, FCron, FSerialInvariant, config_fields, decode_member, parseTriggerConfig, triggerConfig, TDither).

Module FunctionLaws.

(** ** The configuration *)

(** The fields both readers know. *)
Definition of_cfg (f : cfg_field) : config_field :=
  match f with
  | CMode => FMode | CTtl => FTtl | CInterval => FInterval | CDither => FDither | CCron => FCron
  end.

Lemma field_agrees key :
  match field_of cfg_fields key with
  | Some f => field_of config_fields key = Some (of_cfg f)
  | None => field_of config_fields key = None ∨ field_of config_fields key = Some FSerialInvariant
  end.
Proof.
  unfold field_of, cfg_fields, config_fields. cbn [find_first fst snd].
  do 5 (match goal with |- context [name_is key ?n] => destruct (name_is key n) eqn:?; [done|] end).
  destruct (name_is key "serial_invariant") eqn:Hk.
  - apply bool_decide_eq_true in Hk as ->. vm_compute. by right.
  - do 5 (match goal with |- context [name_folds key ?n] => destruct (name_folds key n) eqn:?; [done|] end).
    destruct (name_folds key "serial_invariant"); auto.
Qed.

(** The frame path's reading agrees with the checked one. *)
Definition reads_as (c : triggerCfg) (p : triggerConfig) : Prop :=
  Supervisor.Mode p = Mode c ∧ Supervisor.TTLSec p = TTLSec c ∧ Supervisor.IntervalS p = IntervalS c ∧
  TDither p = Dither c ∧ Supervisor.Cron p = Cron c.

Lemma member_agrees c p kv c' : reads_as c p → cfg_member c kv = Some c' →
  reads_as c' (decode_member p kv).
Proof.
  intros Hr. destruct c as [m t i d cr], p as [m' t' i' d' cr' si]. destruct kv as [key v].
  unfold cfg_member, decode_member. cbn [fst snd]. pose proof (field_agrees key) as Hf.
  destruct (field_of cfg_fields key) as [f|].
  - rewrite Hf. destruct Hr as (? & ? & ? & ? & ?). simpl in *. subst.
    destruct f, v; simpl; intros H; simplify_eq; try done;
      destruct (parse_int lit 64) as [n [e|]]; simplify_eq; done.
  - intros [= <-]. destruct Hf as [-> | ->]; [done|]. by destruct v.
Qed.

Lemma members_agree l : ∀ c p c', reads_as c p → cfg_members c l = Some c' →
  reads_as c' (foldl decode_member p l).
Proof.
  induction l as [|kv l IH]; intros c p c' Hr; simpl; [by intros [= <-]|].
  destruct (cfg_member c kv) as [c1|] eqn:Hm; [|done]. intros H.
  eapply IH; [|exact H]. by eapply member_agrees.
Qed.

Lemma unmarshal_agrees raw c : unmarshal_cfg raw = Some c → reads_as c (parseTriggerConfig (Some raw)).
Proof.
  destruct raw; try done.
  - intros H. injection H as <-. by repeat split.
  - intros H. by apply (members_agree m zero_cfg).
Qed.

(** The trigger configuration the edge accepts is the one the frame path runs
    on: the supervisor's tolerant reader finds the mode, the cadences and the
    dither that were checked, so both cadences are never negative, a render
    function's mode is one the frame path knows and the dither is implemented;
    without a configuration it runs on the zero one. *)
Theorem accepted_config_runs ty raw (H : validTriggerConfig ty raw = None) :
  ∃ c, match raw with Some j => unmarshal_cfg j = Some c | None => c = zero_cfg end ∧
    reads_as c (parseTriggerConfig (Some (FaasStore.coalesceJSON raw))) ∧
    0 ≤ TTLSec c ∧ 0 ≤ IntervalS c ∧
    (ty = FaasStore.TriggerRender → Mode c ∈ [""; "sync"; "prerender"]%string) ∧
    (Dither c = ""%string ∨ is_Some (Bwry.parse_dither (Dither c))).
Proof.
  destruct raw as [raw|]; simpl in H.
  2: { exists zero_cfg. split; [done|]. split; [done|]. split; [done|]. split; [done|].
       split; [|by left]. intros _. apply elem_of_cons. by left. }
  destruct (unmarshal_cfg raw) as [c|] eqn:Hc; [|done]. exists c.
  split; [done|]. split; [by apply unmarshal_agrees|].
  destruct ((TTLSec c <? 0) || (IntervalS c <? 0)) eqn:Hneg; [done|].
  apply orb_false_iff in Hneg as [?%Z.ltb_ge ?%Z.ltb_ge].
  destruct (bool_decide (ty = FaasStore.TriggerRender) && _ && _ && _) eqn:Hmode; [done|].
  destruct (negb (bool_decide (Dither c = ""%string)) && _) eqn:Hd; [done|].
  split_and!; [done|done| |].
  - intros ->. rewrite bool_decide_true in Hmode by done.
    revert Hmode. rewrite !elem_of_cons. repeat (case_bool_decide; simpl); auto; done.
  - repeat case_bool_decide; auto; done.
Qed.

(** ** The effects of the store *)

(** Only functions and the bindings to them move. *)
Record still (d d' : db) : Prop := {
  s_playlists : playlists d' = playlists d; s_items : items d' = items d;
  s_playlist_binding : playlist_binding d' = playlist_binding d; s_cursors : cursors d' = cursors d;
  s_images : images d' = images d; s_variants : variants d' = variants d;
  s_secrets : secrets d' = secrets d; s_channel : channel_of d' = channel_of d }.
Lemma still_refl d : still d d.
Proof. by constructor. Qed.

Definition changed (id : Z) (f : function_row → function_row) (d d' : db) : Prop :=
  ∃ r, functions d !! id = Some r ∧ functions d' = <[id := f r]> (functions d) ∧
    render_binding d' = render_binding d ∧ lastgood d' = lastgood d.

Definition with_update (p : FaasStore.UpdateParams) (r : function_row) : function_row :=
  MkFunctionRow (fr_name r) (FaasStore.up_source p) (fr_version r + 1) (fr_trigger r)
    (FaasStore.coalesceJSON (FaasStore.up_config p)) (FaasStore.up_secrets p) (FaasStore.up_egress p)
    (fr_token r) (fr_enabled r) (fr_template r).
Definition with_enabled (b : bool) (r : function_row) : function_row :=
  MkFunctionRow (fr_name r) (fr_source r) (fr_version r) (fr_trigger r) (fr_config r) (fr_secrets r)
    (fr_egress r) (fr_token r) b (fr_template r).
Definition with_token (sha : bytes) (r : function_row) : function_row :=
  MkFunctionRow (fr_name r) (fr_source r) (fr_version r) (fr_trigger r) (fr_config r) (fr_secrets r)
    (fr_egress r) (Some sha) (fr_enabled r) (fr_template r).

Lemma on_function_effect id g f d :
  (∀ r, match g r with Ok r' => r' = f r | Err _ => True end) →
  effect (stmt EDb (FaasStore.on_function id g))
    (λ found d d', if found : bool then changed id f d d' ∧ still d d'
                   else d' = d ∧ functions d !! id = None) d.
Proof.
  intros Hg. apply effect_stmt. unfold FaasStore.on_function.
  destruct (functions d !! id) as [r|] eqn:Hr; [|done]. specialize (Hg r).
  destruct (g r) as [r'|]; [|done]. subst r'. split; [by exists r|by constructor].
Qed.

Lemma Update_effect id p d : effect (FaasStore.Update id p)
  (λ found d d', if found : bool then changed id (with_update p) d d' ∧ still d d'
                 else d' = d ∧ functions d !! id = None) d.
Proof. apply on_function_effect. intros r. by destruct (_ <=? _). Qed.
Lemma SetEnabled_effect id b d : effect (FaasStore.SetEnabled id b)
  (λ found d d', if found : bool then changed id (with_enabled b) d d' ∧ still d d'
                 else d' = d ∧ functions d !! id = None) d.
Proof. by apply on_function_effect. Qed.
Lemma SetWebhookToken_effect id sha d : effect (FaasStore.SetWebhookToken id sha)
  (λ found d d', if found : bool then changed id (with_token sha) d d' ∧ still d d'
                 else d' = d ∧ functions d !! id = None) d.
Proof. apply on_function_effect. intros r. by destruct (negb _). Qed.

(** The row of a new function. *)
Definition created_row (p : FaasStore.CreateParams) : function_row :=
  MkFunctionRow (FaasStore.cp_name p) (FaasStore.cp_source p) 1
    (FaasStore.triggerOrDefault (FaasStore.cp_trigger p)) (FaasStore.coalesceJSON (FaasStore.cp_config p))
    (FaasStore.cp_secrets p) (FaasStore.cp_egress p) (FaasStore.cp_token p) false (FaasStore.cp_template p).
Definition minted (id : Z) (row : function_row) (d d' : db) : Prop :=
  functions d !! id = None ∧ functions d' = <[id := row]> (functions d) ∧
  render_binding d' = render_binding d ∧ lastgood d' = lastgood d.

Lemma Create_effect p d : tables_ok d →
  effect (FaasStore.Create p) (λ id d d', minted id (created_row p) d d' ∧ still d d') d.
Proof.
  intros Hd. apply effect_stmt. unfold FaasStore.insert_function.
  destruct (negb _); [done|]. destruct (FaasStore.function_named _ _); [done|].
  split; [|by constructor]. split_and!; [|done..]. apply eq_None_not_Some. intros Hs.
  pose proof (proj2 (Bindings.ok_fresh_function d Hd) _ Hs). lia.
Qed.

(** Deleting a function takes its bindings and durable frames along. *)
Definition forgotten (id : Z) (d d' : db) : Prop :=
  functions d' = delete id (functions d) ∧
  ∀ s, render_binding d' !! s = (if bool_decide (render_binding d !! s = Some id) then None
                                 else render_binding d !! s).

Lemma Delete_effect id d : effect (FaasStore.Delete id)
  (λ found d d', still d d' ∧ if found : bool then is_Some (functions d !! id) ∧ forgotten id d d'
                 else d' = d) d.
Proof.
  apply effect_stmt.
  assert (Hg : ∀ k, match functions d !! k with Some r => k =? id | None => false end = true ↔
                    k = id ∧ is_Some (functions d !! id)).
  { intros k. destruct (functions d !! k) as [r|] eqn:Hr; split; try done.
    - intros ->%Z.eqb_eq. split; [done|by eexists].
    - intros [-> _]. apply Z.eqb_refl.
    - intros [-> [? ?]]. congruence. }
  split; [by constructor|]. case_bool_decide as Hs.
  - split; [done|]. split.
    + apply map_eq. intros k. simpl. destruct (decide (k = id)) as [->|Hk].
      * rewrite lookup_delete_eq. apply map_lookup_filter_None. right. intros r _. simpl.
        rewrite (proj2 (Hg id)) by done. done.
      * rewrite lookup_delete_ne by done. destruct (functions d !! k) as [r|] eqn:Hr.
        -- apply map_lookup_filter_Some. split; [done|]. simpl. apply not_true_is_false. by intros [? _]%Hg.
        -- apply map_lookup_filter_None. by left.
    + intros s. simpl. case_bool_decide as Hb.
      * apply map_lookup_filter_None. right. intros k Hk. simpl. rewrite Hb in Hk. injection Hk as <-.
        rewrite (proj2 (Hg id)) by done. done.
      * destruct (render_binding d !! s) as [k|] eqn:Hk.
        -- apply map_lookup_filter_Some. split; [done|]. simpl. apply not_true_is_false. intros [? _]%Hg. congruence.
        -- apply map_lookup_filter_None. by left.
  - assert (Hf : ∀ k, match functions d !! k with Some r => k =? id | None => false end = false)
      by (intros k; apply not_true_is_false; by intros [_ ?]%Hg).
    clear Hg. destruct d. unfold delete_functions, upd_functions, upd_render_binding, upd_lastgood. simpl in *.
    f_equal; apply map_filter_id; intros; simpl; apply Hf.
Qed.

Lemma BindDevice_effect s id d : tables_ok d →
  effect (FaasStore.BindDevice s id) (λ _ d d', d' = bound s id d ∧ resolves s (PlRender.MkBinding 0 id) d') d.
Proof.
  intros Hd. apply effect_and; intros fs; [|exact (with_tx_lands _ _ _ _ d fs (Bindings.BindDevice_lands s id) Hd)].
  destruct (TemplateApply.BindDevice_runs s id d fs) as (r & d' & fs' & ? & ?). by exists r, d', fs'.
Qed.

Lemma Unbind_effect s d : effect (FaasStore.Unbind s)
  (λ found d d', if found : bool then is_Some (render_binding d !! s) ∧ functions d' = functions d ∧
       render_binding d' = delete s (render_binding d) ∧ still d d' else d' = d) d.
Proof.
  apply effect_stmt. case_bool_decide as Hs; [split_and!; [done..|by constructor]|].
  apply eq_None_not_Some in Hs. destruct d. unfold upd_render_binding. simpl in *. by rewrite delete_id.
Qed.

(** ** The contract of the routes *)

(** A token as it is shown, and as it is kept. *)
Definition shown (raw : bytes) : string := string_of_bytes (hex_encode raw).
Definition kept_hash (raw : bytes) : bytes := Crypto.sha256 (bytes_of_string (shown raw)).

(** The field a minted token is shown in. *)
Definition token_field (raw : bytes) : list (string * AdminGate.json) :=
  let plaintext := shown raw in
  if bool_decide (plaintext = ""%string) then [] else [("webhook_token"%string, AdminGate.JStr plaintext)].

Definition created (b : create_body) (ty : string) (raw : bytes) : function_row :=
  created_row (FaasStore.MkCreateParams (c_name b) (c_source b) ty (c_config b) (c_secrets b) (c_egress b)
    (if bool_decide (ty = FaasStore.TriggerWebhook) then Some (kept_hash raw) else None) None).

(** What a PATCH does to the row, and its answer's fields. *)
Definition patched (raw : bytes) (e : option bool) (rot : bool) (r : function_row) : function_row :=
  let r := match e with Some b => with_enabled b r | None => r end in
  if rot then with_token (kept_hash raw) r else r.
Definition patch_fields (raw : bytes) (e : option bool) (rot : bool) : list (string * AdminGate.json) :=
  match e with Some b => [("enabled"%string, AdminGate.JBool b)] | None => [] end ++
  (if rot then [("webhook_token"%string, AdminGate.JStr (shown raw))] else []).

(** What an accepted request did to the tables, and what it answered. *)
Definition outcome (r : request) (raw : bytes) (x : route) (f : fleet) (d d' : db) (rep : reply) : Prop :=
  match x with
  | FList | FBound _ => d' = d
  | FGet id | FDevices id => d' = d ∧ ∃ n, faasID id = Some n ∧ is_Some (functions d !! n)
  | FCreate (Some b) => ∃ id ty, triggerTypeOrDefault (c_trigger b) = Some ty ∧
      ValidName (c_name b) = true ∧ validTriggerConfig ty (c_config b) = None ∧
      minted id (created b ty raw) d d' ∧
      rep = WriteOK r [] ([("id", AdminGate.JNum id); ("name", AdminGate.JStr (c_name b));
                           ("trigger_type", AdminGate.JStr ty); ("enabled", AdminGate.JBool false)]%string ++
                          if bool_decide (ty = FaasStore.TriggerWebhook) then token_field raw else [])
  | FUpdate id (Some b) => ∃ n, faasID id = Some n ∧ changed n (with_update b) d d' ∧
      (∀ row, functions d !! n = Some row → validTriggerConfig (fr_trigger row) (FaasStore.up_config b) = None)
  | FPatch id (Some (e, rot)) => ∃ n, faasID id = Some n ∧ changed n (patched raw e rot) d d' ∧
      (rot = true → ∀ row, functions d !! n = Some row → fr_trigger row = FaasStore.TriggerWebhook) ∧
      rep = WriteOK r [] (("id"%string, AdminGate.JNum n) :: patch_fields raw e rot)
  | FDelete id => ∃ n, faasID id = Some n ∧ is_Some (functions d !! n) ∧ forgotten n d d'
  | FBind serial (Some id) => registered serial f ∧ d' = bound serial id d ∧
      resolves serial (PlRender.MkBinding 0 id) d'
  | FUnbind serial => is_Some (render_binding d !! serial) ∧ functions d' = functions d ∧
      render_binding d' = delete serial (render_binding d)
  | _ => False
  end.

Inductive answered (r : request) (raw : bytes) (x : route) (f : fleet) (rep : reply) (f' : fleet) : Prop :=
| ARefused : refusal rep → f' = f → answered r raw x f rep f'
| AAccepted d' : rStatus rep = 200 → f' = set_render d' f → outcome r raw x f (render_of f) d' rep →
    channel_of d' = channel_of (render_of f) → tables_ok d' → answered r raw x f rep f'
| AHalf id n b d' : x = FPatch id (Some (Some b, true)) → refusal rep → f' = set_render d' f →
    faasID id = Some n → changed n (with_enabled b) (render_of f) d' → still (render_of f) d' →
    tables_ok d' → answered r raw x f rep f'.

Lemma wpf_render {A B} (m : M db err A) R (k : result err A → MF B) f Q :
  effect m R (render_of f) →
  (∀ a d', R a (render_of f) d' → wpf (k (Ok a)) (set_render d' f) Q) →
  (∀ e, wpf (k (Err e)) f Q) → wpf (on_render m ≫= k) f Q.
Proof.
  intros Hm Hok Herr. apply wpf_bind. intros fs. unfold on_render, call.
  destruct (Hm fs) as (r & d' & fs' & -> & Hr). eexists _, _, _. split; [reflexivity|].
  destruct r as [a|e]; [by apply Hok|]. subst d'. rewrite set_render_render_of. apply Herr.
Qed.

Lemma wpf_read {A B} (q : db → result err A) (k : result err A → MF B) f Q :
  (∀ a, q (render_of f) = Ok a → wpf (k (Ok a)) f Q) → (∀ e, wpf (k (Err e)) f Q) →
  wpf (on_render (query EDb q) ≫= k) f Q.
Proof.
  intros Hok Herr. apply (wpf_render _ (λ a d d', d' = d ∧ q d = Ok a)); [| |done].
  - apply effect_query. by destruct (q _).
  - intros a d' [-> Ha]. rewrite set_render_render_of. by apply Hok.
Qed.

Lemma wpf_known {B} serial (k : result db_err bool → MF B) f Q :
  (∀ e, wpf (k (Err e)) f Q) →
  (∀ b, b = bool_decide (is_Some (devices f !! serial)) → wpf (k (Ok b)) f Q) →
  wpf (PlaylistHttp.device_exists serial ≫= k) f Q.
Proof.
  intros He Hk. apply wpf_bind.
  intros [|[] fs]; eexists _, _, _; (split; [reflexivity|]); [by apply Hk|apply He|by apply Hk].
Qed.

Ltac listed := apply (bool_decide_unpack _); vm_compute; exact I.
Ltac refusing := apply wpf_ret, ARefused; [listed|reflexivity].

Section Routes.
Context (raw_json : json → AdminGate.json) (text_le : string → string → bool).
Context (r : request) (raw : bytes) (f : fleet).
Context (Hok : tables_ok (render_of f)).

Lemma wpf_shown x rep : rStatus rep = 200 → outcome r raw x f (render_of f) (render_of f) rep →
  wpf (mret rep) f (answered r raw x f).
Proof.
  intros Hs Ho. apply wpf_ret, (AAccepted _ _ _ _ _ _ (render_of f)); try done. by rewrite set_render_render_of.
Qed.

Lemma wpf_did x rep d' : rStatus rep = 200 → outcome r raw x f (render_of f) d' rep →
  channel_of d' = channel_of (render_of f) → tables_ok d' →
  wpf (mret rep) (set_render d' f) (answered r raw x f).
Proof. intros. by apply wpf_ret, (AAccepted _ _ _ _ _ _ d'). Qed.

Ltac store_step lem o :=
  eapply wpf_render; [eapply (effect_ok _ _ _ o); [reflexivity|eassumption|apply lem; eassumption]
                     | |intros []; refusing].

Lemma fn_list_answered : wpf (list_functions text_le r) f (answered r raw FList f).
Proof. apply wpf_read; [|intros []; refusing]. intros sums _. by apply wpf_shown. Qed.

Lemma load_known n (k : result err FaasStore.Function → MF reply) x :
  (∀ row, functions (render_of f) !! n = Some row → wpf (k (Ok (FaasStore.scanFunction n row))) f (answered r raw x f)) →
  (∀ e, wpf (k (Err e)) f (answered r raw x f)) →
  wpf (on_render (FaasStore.LoadFunction n) ≫= k) f (answered r raw x f).
Proof.
  intros Hs He. apply wpf_read; [|done]. intros a Ha. cbn beta in Ha.
  destruct (functions _ !! n) as [row|] eqn:Hrow; [|done]. injection Ha as <-. by apply Hs.
Qed.

Lemma fn_get_answered id : wpf (get_function raw_json text_le r id) f (answered r raw (FGet id) f).
Proof.
  unfold get_function. destruct (faasID id) as [n|] eqn:Hid; [|refusing].
  apply load_known; [|intros []; refusing]. intros row Hrow.
  apply wpf_read; [|intros []; refusing]. intros serials _.
  apply wpf_shown; [done|]. split; [done|]. exists n. by split.
Qed.

Lemma fn_create_answered b : wpf (create_function r raw b) f (answered r raw (FCreate b) f).
Proof.
  destruct b as [b|]; [|refusing]. unfold create_function.
  destruct (ValidName _) eqn:Hn; [|refusing]. cbn [negb].
  destruct (triggerTypeOrDefault _) as [ty|] eqn:Hty; [|refusing].
  case_bool_decide; [refusing|]. destruct (validTriggerConfig _ _) as [[code msg]|] eqn:Hc; [refusing|].
  assert (Htok : (snd <$> (if bool_decide (ty = FaasStore.TriggerWebhook) then Some (genWebhookToken raw) else None))
    = if bool_decide (ty = FaasStore.TriggerWebhook) then Some (kept_hash raw) else None)
    by (by destruct (bool_decide _)).
  rewrite Htok. set (p := FaasStore.MkCreateParams _ _ _ _ _ _ _ _).
  store_step Create_effect (Bindings.OCreate p). intros id d' [[Hm Hs] Hd].
  eapply wpf_did; [done| |by destruct Hs|done]. exists id, ty. split_and!; [done..|].
  by destruct (bool_decide (ty = _)).
Qed.

Lemma fn_update_answered id b : wpf (update_function r id b) f (answered r raw (FUpdate id b) f).
Proof.
  unfold update_function. destruct (faasID id) as [n|] eqn:Hid; [|refusing]. destruct b as [b|]; [|refusing].
  apply load_known; [|intros []; refusing]. intros row Hrow. cbn [FaasStore.scanFunction FaasStore.TriggerType].
  case_bool_decide; [refusing|]. destruct (validTriggerConfig _ _) as [[code msg]|] eqn:Hc; [refusing|].
  store_step Update_effect (Bindings.OUpdate n b). intros [] d' [Hres Hd].
  - destruct Hres as [Hch Hs]. eapply wpf_did; [done| |by destruct Hs|done]. exists n. split_and!; [done|done|].
    intros row' Hr. rewrite Hrow in Hr. by injection Hr as <-.
  - destruct Hres as [-> _]. rewrite set_render_render_of. refusing.
Qed.

Lemma fn_delete_answered id : wpf (delete_function r id) f (answered r raw (FDelete id) f).
Proof.
  unfold delete_function. destruct (faasID id) as [n|] eqn:Hid; [|refusing].
  store_step Delete_effect (Bindings.ODelete n). intros [] d' [[Hs Hres] Hd].
  - destruct Hres as [Hsome Hf]. eapply wpf_did; [done| |by destruct Hs|done]. by exists n.
  - subst d'. rewrite set_render_render_of. refusing.
Qed.

(** The second half of a PATCH, on the tables the first half left. *)
Lemma rotate_step n d1 g (Q : result reply (list (string * AdminGate.json)) → fleet → Prop) :
  tables_ok d1 → changed n g (render_of f) d1 → still (render_of f) d1 →
  (∀ row, fr_trigger (g row) = fr_trigger row) →
  (∀ d2, changed n (λ row, with_token (kept_hash raw) (g row)) (render_of f) d2 → still (render_of f) d2 →
     tables_ok d2 → (∀ row, functions (render_of f) !! n = Some row → fr_trigger row = FaasStore.TriggerWebhook) →
     Q (Ok [("webhook_token"%string, AdminGate.JStr (shown raw))]) (set_render d2 f)) →
  (∀ rep, refusal rep → Q (Err rep) (set_render d1 f)) →
  wpf (rotate_token r n raw) (set_render d1 f) Q.
Proof.
  intros Hd1 (row & Hrow & Hf1 & Hb1 & Hl1) Hs1 Htr Hok1 Herr.
  assert (Hview : render_of (set_render d1 f) = d1) by (apply render_of_set_render; by destruct Hs1).
  assert (Hno : ∀ status code msg, status ∈ [400; 404; 409; 422; 500] →
    wpf (rep ← fail r status code msg; mret (Err rep)) (set_render d1 f) Q).
  { intros. apply wpf_bind, wpf_ret, wpf_ret. by apply Herr. }
  unfold rotate_token. apply wpf_read.
  2: { intros []; apply Hno; listed. }
  intros fn Hfn. rewrite Hview, Hf1, lookup_insert_eq in Hfn. injection Hfn as <-. simpl.
  case_bool_decide as Hw; [|apply Hno; listed]. cbn [negb].
  eapply wpf_render; [|cbv beta|intros []; apply Hno; listed].
  - rewrite Hview. eapply (effect_ok _ _ _ (Bindings.OSetWebhookToken n _)); [reflexivity|done|].
    apply SetWebhookToken_effect.
  - intros [] d2 [Hres Hd2].
    + destruct Hres as [(row1 & Hrow1 & Hf2 & Hb2 & Hl2) Hs2]. rewrite Hview in *.
      rewrite Hf1, lookup_insert_eq in Hrow1. injection Hrow1 as <-.
      apply wpf_ret. assert (Hset : set_render d2 (set_render d1 f) = set_render d2 f).
      { destruct f as [? ? ? ? ? ? ? [? ? ? []] ?]. done. }
      rewrite Hset. apply Hok1.
      * exists row. split_and!; [done| |congruence|congruence]. rewrite Hf2, Hf1. apply insert_insert_eq.
      * destruct Hs1, Hs2. constructor; congruence.
      * done.
      * intros row' Hr'. rewrite Hrow in Hr'. injection Hr' as <-. by rewrite <-Htr.
    + destruct Hres as [_ Hn]. by rewrite Hview, Hf1, lookup_insert_eq in Hn.
Qed.


Definition id_row (row : function_row) : function_row := row.

Lemma patch_answered id b : wpf (patch_function r raw id b) f (answered r raw (FPatch id b) f).
Proof.
  unfold patch_function. destruct (faasID id) as [n|] eqn:Hid; [|refusing].
  destruct b as [[e rot]|]; [|refusing]. destruct e as [b|].
  - apply wpf_bind. unfold patch_enabled.
    eapply wpf_render; [eapply (effect_ok _ _ _ (Bindings.OSetEnabled n b)); [reflexivity|done|apply SetEnabled_effect]
                       | |intros []; apply wpf_bind, wpf_ret, wpf_ret; refusing].
    intros [] d1 [Hres Hd1].
    2: { destruct Hres as [-> _]. rewrite set_render_render_of. apply wpf_bind, wpf_ret, wpf_ret. refusing. }
    destruct Hres as [Hch Hs1]. apply wpf_ret. destruct rot.
    + apply wpf_bind. apply (rotate_step n d1 (with_enabled b)); try done.
      * intros d2 Hch2 Hs2 Hd2 Hw. apply wpf_did; [done| |by destruct Hs2|done]. exists n. by split_and!.
      * intros rep Hrep. apply wpf_ret. by eapply AHalf.
    + apply wpf_did; [done| |by destruct Hs1|done]. exists n. by split_and!.
  - destruct rot; [|refusing]. apply wpf_bind, wpf_ret. cbv beta iota. apply wpf_bind.
    destruct (functions (render_of f) !! n) as [row|] eqn:Hrow.
    2: { unfold rotate_token. apply wpf_read; [|intros []; apply wpf_bind, wpf_ret, wpf_ret; refusing].
         intros fn Hfn. by rewrite Hrow in Hfn. }
    rewrite <-(set_render_render_of f) at 1. apply (rotate_step n _ id_row); try done.
    + exists row. split_and!; [done|by rewrite insert_id|done|done].
    + intros d2 Hch2 Hs2 Hd2 Hw. apply wpf_did; [done| |by destruct Hs2|done]. exists n. by split_and!.
    + intros rep Hrep. rewrite set_render_render_of. by apply wpf_ret, ARefused.
Qed.

Lemma fn_bind_answered serial b : wpf (bind_function r serial b) f (answered r raw (FBind serial b) f).
Proof.
  unfold bind_function. destruct (DeviceStore.ValidSerial serial) eqn:Hv; [|refusing]. cbn [negb].
  destruct b as [n|]; [|refusing]. destruct (n <=? 0); [refusing|].
  apply wpf_known; [intros []; refusing|]. intros known ->. case_bool_decide as Hdev; [|refusing].
  store_step BindDevice_effect (Bindings.OBindDevice serial n). intros [] d' [[-> Hres] Hd].
  apply wpf_did; [done| |done|done]. by split_and!.
Qed.

Lemma bound_answered serial : wpf (boundFunction r serial) f (answered r raw (FBound serial) f).
Proof.
  unfold boundFunction. destruct (negb _); [refusing|]. apply wpf_read; [|intros []; refusing].
  intros [[n name] []] _; by apply wpf_shown.
Qed.

Lemma devices_answered id : wpf (boundDevices text_le r id) f (answered r raw (FDevices id) f).
Proof.
  unfold boundDevices. destruct (faasID id) as [n|] eqn:Hid; [|refusing].
  apply wpf_read; [|intros []; refusing]. intros v Hv.
  apply wpf_read; [|intros []; refusing]. intros serials _. apply wpf_shown; [done|].
  split; [done|]. exists n. split; [done|]. cbn beta in Hv. by destruct (functions _ !! n).
Qed.

Lemma fn_unbind_answered serial : wpf (unbind_function r serial) f (answered r raw (FUnbind serial) f).
Proof.
  unfold unbind_function. destruct (negb _); [refusing|].
  store_step Unbind_effect (Bindings.OUnbind serial). intros [] d' [Hres Hd].
  - destruct Hres as (Hsome & Hf & Hb & Hs). apply wpf_did; [done|by split_and!|by destruct Hs|done].
  - subst d'. rewrite set_render_render_of. refusing.
Qed.

Lemma fn_serve_answered x : wpf (serve raw_json text_le r raw x) f (answered r raw x f).
Proof.
  destruct x; simpl.
  - apply fn_list_answered.
  - apply fn_get_answered.
  - apply fn_create_answered.
  - apply fn_update_answered.
  - apply patch_answered.
  - apply fn_delete_answered.
  - apply fn_bind_answered.
  - apply bound_answered.
  - apply devices_answered.
  - apply fn_unbind_answered.
Qed.
End Routes.

(** C25. Every function route does what it answers: under any faults it answers; a
    success has done to the tables exactly what the route names (the row minted
    disabled, replaced with its version bumped, switched or its token rotated,
    deleted with every binding to it, the registered device resolving exactly
    the function) and nothing else of the fleet; a webhook's token is in that
    one answer and its hash in the row. A refusal has changed nothing, but for
    a PATCH of both halves, which may have thrown the switch before the token
    was refused. The frame tables keep their invariant. *)
Theorem function_requests_exact raw_json text_le r raw x f fs (Hok : tables_ok (render_of f)) :
  ∃ rep f' fs', serve raw_json text_le r raw x f fs = (Ok rep, f', fs') ∧
    same_but_render f f' ∧ tables_ok (render_of f') ∧
    ((rStatus rep = 200 ∧ outcome r raw x f (render_of f) (render_of f') rep) ∨
     (refusal rep ∧ f' = f) ∨
     (refusal rep ∧ ∃ id n b, x = FPatch id (Some (Some b, true)) ∧ faasID id = Some n ∧
        changed n (with_enabled b) (render_of f) (render_of f'))).
Proof.
  destruct (fn_serve_answered raw_json text_le r raw f Hok x fs) as (rep & f' & fs' & Hrun & Ha).
  exists rep, f', fs'. split; [done|].
  assert (Hview : ∀ d', channel_of d' = channel_of (render_of f) → render_of (set_render d' f) = d')
    by (intros d' Hch; by apply render_of_set_render).
  destruct Ha as [? ->|d' ? -> ? ? ?|id n b d' -> ? -> ? ? Hs ?].
  - split; [apply same_but_render_refl|]. split; [done|]. right. by left.
  - rewrite Hview by done. split; [apply same_but_render_set|]. split; [done|]. by left.
  - rewrite Hview by (by destruct Hs). split; [apply same_but_render_set|]. split; [done|].
    right. right. split; [done|]. by exists id, n, b.
Qed.

(** ** Samples *)

Definition ex_body : create_body :=
  MkCreate "clock" "x" "" (Some (JObj [("ttl_s"%string, JNum "60")])) [] [].
Definition ex_raw : bytes := replicate 32 171.
Definition ex_serve (x : route) (f : fleet) : result Empty_set reply * fleet * list bool :=
  serve (λ _, AdminGate.JNull) (λ _ _, true) DeviceHttp.ex_request ex_raw x f [].
Definition status_of (x : result Empty_set reply * fleet * list bool) : Z :=
  match x.1.1 with Ok rep => rStatus rep | Err _ => 0 end.

(** A render function 1, disabled. *)
Definition ex_functions : fleet :=
  (ex_serve (FCreate (Some ex_body)) DeviceHttp.ex_fleet).1.2.

(** The switch is thrown although the answer is 422. *)
Lemma patch_half : let x := ex_serve (FPatch "1" (Some (Some true, true))) ex_functions in
  status_of x = 422 ∧ fr_enabled <$> functions (render_of ex_functions) !! 1 = Some false ∧
  fr_enabled <$> functions (render_of x.1.2) !! 1 = Some true.
Proof. split_and!; vm_compute; reflexivity. Qed.

Lemma ex_fleet_ok : tables_ok (render_of DeviceHttp.ex_fleet).
Proof. apply (PlaylistLaws.tables_ok_view empty_db), Bindings.tables_ok_empty. Qed.

Lemma function_requests_exact_witness : ∃ rep f',
  ex_serve (FCreate (Some ex_body)) DeviceHttp.ex_fleet = (Ok rep, f', []) ∧ rStatus rep = 200 ∧
  ∃ id, functions (render_of f') !! id = Some (created ex_body "render" ex_raw).
Proof.
  destruct (function_requests_exact (λ _, AdminGate.JNull) (λ _ _, true) DeviceHttp.ex_request ex_raw
    (FCreate (Some ex_body)) DeviceHttp.ex_fleet [] ex_fleet_ok) as (rep & f' & fs' & Hrun & _ & _ & H).
  assert (Hst : (λ x, (status_of x, x.2)) (ex_serve (FCreate (Some ex_body)) DeviceHttp.ex_fleet) = (200, []))
    by (vm_compute; reflexivity).
  unfold ex_serve in Hst. rewrite Hrun in Hst. injection Hst as Hs Hf. unfold status_of in Hs. cbn in Hs, Hf.
  subst fs'. exists rep, f'. split; [exact Hrun|]. split; [exact Hs|]. clear Hrun.
  destruct H as [[_ Ho]|[[Hr _]|[Hr _]]].
  - destruct Ho as (id & ty & Hty & _ & _ & (_ & Hf & _) & _). injection Hty as <-.
    exists id. rewrite Hf. apply lookup_insert_eq.
  - exfalso. unfold refusal in Hr. rewrite Hs in Hr. clear -Hr. by apply (bool_decide_pack _) in Hr.
  - exfalso. unfold refusal in Hr. rewrite Hs in Hr. clear -Hr. by apply (bool_decide_pack _) in Hr.
Defined.

Lemma accepted_config_runs_witness :
  validTriggerConfig "render" (Some (JObj [("Mode", JStr "prerender"); ("interval_s", JNum "300")]%string)) = None ∧
  ∃ c, reads_as c (parseTriggerConfig (Some (JObj [("Mode", JStr "prerender"); ("interval_s", JNum "300")]%string))) ∧
    IntervalS c = 300.
Proof.
  assert (H : validTriggerConfig "render" (Some (JObj [("Mode", JStr "prerender"); ("interval_s", JNum "300")]%string)) = None)
    by (vm_compute; reflexivity).
  split; [exact H|]. destruct (accepted_config_runs _ _ H) as (c & Hc & Hr & _). exists c.
  split; [exact Hr|]. vm_compute in Hc. by injection Hc as <-.
Defined.

End FunctionLaws.
