(* ===== verification/Net.v ===== *)
(** * Addresses ([net], [net/netip])

    What the sources use of Go's address types: an IP is a list of 4 or 16
    bytes, [None] the nil one; the classes of addresses, CIDR blocks, the text
    forms and host:port pairs. *)

From S2P Require Import Prelude GoLib.
Import GoLib.

Module Net.

(** ** Classes of addresses *)

Definition at_ (ip : bytes) (i : nat) : Z := nth i ip 0.
Definition v4InV6Prefix : bytes := replicate 10 0 ++ [255; 255].
Definition To4 (ip : bytes) : option bytes :=
  if zlen ip =? 4 then Some ip
  else if (zlen ip =? 16) && bool_decide (take 12 ip = v4InV6Prefix) then Some (drop 12 ip)
  else None.
Definition To16 (ip : bytes) : bytes := if zlen ip =? 4 then v4InV6Prefix ++ ip else ip.

Definition IPv6loopback : bytes := replicate 15 0 ++ [1].
Definition IPv6unspecified : bytes := replicate 16 0.
(** A 4-byte address equals its 16-byte form. *)
Definition Equal (a b : bytes) : bool := bool_decide (To16 a = To16 b).

Definition IsUnspecified (ip : bytes) : bool :=
  Equal ip [0; 0; 0; 0] || Equal ip IPv6unspecified.
Definition IsLoopback (ip : bytes) : bool :=
  match To4 ip with Some ip4 => at_ ip4 0 =? 127 | None => Equal ip IPv6loopback end.
Definition IsPrivate (ip : bytes) : bool :=
  match To4 ip with
  | Some ip4 => (at_ ip4 0 =? 10) || ((at_ ip4 0 =? 172) && (Z.land (at_ ip4 1) 240 =? 16)) ||
                ((at_ ip4 0 =? 192) && (at_ ip4 1 =? 168))
  | None => (zlen ip =? 16) && (Z.land (at_ ip 0) 254 =? 252)
  end.
Definition IsMulticast (ip : bytes) : bool :=
  match To4 ip with
  | Some ip4 => Z.land (at_ ip4 0) 240 =? 224
  | None => (zlen ip =? 16) && (at_ ip 0 =? 255)
  end.
Definition IsInterfaceLocalMulticast (ip : bytes) : bool :=
  (zlen ip =? 16) && (at_ ip 0 =? 255) && (Z.land (at_ ip 1) 15 =? 1).
Definition IsLinkLocalMulticast (ip : bytes) : bool :=
  match To4 ip with
  | Some ip4 => (at_ ip4 0 =? 224) && (at_ ip4 1 =? 0) && (at_ ip4 2 =? 0)
  | None => (zlen ip =? 16) && (at_ ip 0 =? 255) && (Z.land (at_ ip 1) 15 =? 2)
  end.
Definition IsLinkLocalUnicast (ip : bytes) : bool :=
  match To4 ip with
  | Some ip4 => (at_ ip4 0 =? 169) && (at_ ip4 1 =? 254)
  | None => (zlen ip =? 16) && (at_ ip 0 =? 254) && (Z.land (at_ ip 1) 192 =? 128)
  end.

(** ** The text forms *)

(** One decimal octet: no empty field, no leading zero, at most 255. *)
Definition parse_octet (s : bytes) : option Z :=
  match s with
  | [] => None
  | c :: rest =>
      if forallb is_digit s && negb ((c =? 48) && negb (bool_decide (rest = []))) then
        let v := foldl (λ v c, v * 10 + (c - 48)) 0 s in
        if 255 <? v then None else Some v
      else None
  end.
Definition parseIPv4 (s : bytes) : option bytes :=
  match parse_octet <$> split s [46] with
  | [Some a; Some b; Some c; Some d] => Some [a; b; c; d]
  | _ => None
  end.

Definition hex_nibble (c : Z) : option Z :=
  if is_digit c then Some (c - 48)
  else if (97 <=? c) && (c <=? 102) then Some (c - 87)
  else if (65 <=? c) && (c <=? 70) then Some (c - 55)
  else None.
(** The hex digits at the head: how many, their value and the rest; five are too
    many. *)
Fixpoint hex_group (n : nat) (acc : Z) (s : bytes) : option (nat * Z * bytes) :=
  match s with
  | [] => Some (n, acc, [])
  | c :: s' =>
      match hex_nibble c with
      | None => Some (n, acc, s)
      | Some v => if (3 <? n)%nat then None else hex_group (S n) (acc * 16 + v) s'
      end
  end.

(** The groups read so far, with the place of the ellipsis, and the text left.
    The address has sixteen bytes: eight rounds at most. *)
Fixpoint v6_groups (rounds : nat) (ip : bytes) (ellipsis : option nat) (s : bytes)
    : option (bytes * option nat * bytes) :=
  match rounds with
  | O => Some (ip, ellipsis, s)
  | S rounds =>
      match hex_group 0 0 s with
      | None | Some (O, _, _) => None
      | Some (_, acc, rest) =>
          match rest with
          | [] => Some (ip ++ [acc / 256; acc mod 256], ellipsis, [])
          | c :: rest =>
              if c =? 46 then
                if negb (bool_decide (is_Some ellipsis)) && negb (length ip =? 12)%nat then None
                else if (16 <? length ip + 4)%nat then None
                else match parseIPv4 s with Some ip4 => Some (ip ++ ip4, ellipsis, []) | None => None end
              else
                let ip := ip ++ [acc / 256; acc mod 256] in
                if negb (c =? 58) then None
                else match rest with
                | [] => None
                | c :: rest' =>
                    if c =? 58 then
                      match ellipsis, rest' with
                      | Some _, _ => None
                      | None, [] => Some (ip, Some (length ip), [])
                      | None, _ => v6_groups rounds ip (Some (length ip)) rest'
                      end
                    else v6_groups rounds ip ellipsis rest
                end
          end
      end
  end.

Definition expand (ip : bytes) (ellipsis : option nat) : option bytes :=
  if (length ip <? 16)%nat then
    match ellipsis with
    | Some e => Some (take e ip ++ replicate (16 - length ip) 0 ++ drop e ip)
    | None => None
    end
  else match ellipsis with Some _ => None | None => Some ip end.

(** Without a zone: an address with one is not an IP. *)
Definition parseIPv6 (s : bytes) : option bytes :=
  let finish x := match x with
                  | Some (ip, ellipsis, []) => expand ip ellipsis
                  | _ => None
                  end in
  if has_prefix [58; 58] s then
    match drop 2 s with
    | [] => Some IPv6unspecified
    | s => finish (v6_groups 8 [] (Some 0%nat) s)
    end
  else finish (v6_groups 8 [] None s).

(** What the first separator announces. *)
Fixpoint first_of (cs : list Z) (s : bytes) : option Z :=
  match s with
  | [] => None
  | c :: s => if bool_decide (c ∈ cs) then Some c else first_of cs s
  end.
(** [ParseIP] of a literal always has sixteen bytes. *)
Definition ParseIP (s : string) : option bytes :=
  let b := bytes_of_string s in
  if bool_decide (37 ∈ b) then None
  else match first_of [46; 58] b with
  | Some 46 => (λ ip, v4InV6Prefix ++ ip) <$> parseIPv4 b
  | Some _ => parseIPv6 b
  | None => None
  end.

(** A 16-bit group without leading zeros, in lower case. *)
Definition hex16 (v : Z) : bytes :=
  if 4096 <=? v then hex_digit (v / 4096) :: hex_digit (v / 256 mod 16) :: hex_digit (v / 16 mod 16) :: [hex_digit (v mod 16)]
  else if 256 <=? v then hex_digit (v / 256) :: hex_digit (v / 16 mod 16) :: [hex_digit (v mod 16)]
  else if 16 <=? v then hex_digit (v / 16) :: [hex_digit (v mod 16)]
  else [hex_digit v].
Fixpoint groups (ip : bytes) : list Z :=
  match ip with a :: b :: ip => a * 256 + b :: groups ip | _ => [] end.

Fixpoint zeros (gs : list Z) : nat :=
  match gs with g :: gs => if g =? 0 then S (zeros gs) else O | [] => O end.
(** The first longest run of at least two zero groups. *)
Fixpoint best_run (i : nat) (gs : list Z) (best : nat * nat) : nat * nat :=
  match gs with
  | [] => best
  | _ :: gs' =>
      let l := zeros gs in
      best_run (S i) gs' (if (1 <? l)%nat && (best.2 <? l)%nat then (i, l) else best)
  end.
Definition join_groups (gs : list Z) : bytes := join (hex16 <$> gs) [58].
Definition string6 (ip : bytes) : bytes :=
  let gs := groups ip in
  let '(start, len) := best_run 0 gs (0%nat, 0%nat) in
  if (len =? 0)%nat then join_groups gs
  else join_groups (take start gs) ++ [58; 58] ++ join_groups (drop (start + len) gs).
Definition string4 (ip : bytes) : bytes := join (format_uint_b <$> ip) [46].
Definition IP_String (ip : bytes) : string :=
  string_of_bytes (match To4 ip with
                   | Some ip4 => string4 ip4
                   | None => if zlen ip =? 16 then string6 ip else [63]
                   end).

(** ** Blocks *)

Record IPNet := MkNet { n_ip : bytes; n_mask : bytes }.

Definition CIDRMask (ones bits : Z) : bytes :=
  (λ i, Z.land 255 (Z.shiftl 255 (8 - Z.max 0 (Z.min 8 (ones - 8 * Z.of_nat i))))) <$>
    seq 0 (Z.to_nat (bits / 8)).
Definition masked (ip mask : bytes) : bytes := zip_with Z.land ip mask.

Definition ParseCIDR (s : string) : option IPNet :=
  match cut (bytes_of_string s) 47 with
  | None => None
  | Some (addr, mask) =>
      let bits := match first_of [46; 58] addr with Some 46 => 32 | _ => 128 end in
      match ParseIP (string_of_bytes addr), parse_uint_b mask 64 with
      | Some ip, (n, None) =>
          if bits <? n then None
          else
            let m := CIDRMask n bits in
            let ip := if bits =? 32 then drop 12 ip else ip in
            Some (MkNet (masked ip m) m)
      | _, _ => None
      end
  end.

(** The network number and the mask, both in the short form of a v4 block. *)
Definition networkNumberAndMask (n : IPNet) : option (bytes * bytes) :=
  let ip := default (n_ip n) (To4 (n_ip n)) in
  let mask := if (zlen (n_mask n) =? 16) && (zlen ip =? 4) then drop 12 (n_mask n) else n_mask n in
  if ((zlen ip =? 4) || (zlen ip =? 16)) && (zlen mask =? zlen ip) then Some (ip, mask) else None.
Definition Contains (n : IPNet) (ip : bytes) : bool :=
  let ip := default ip (To4 ip) in
  match networkNumberAndMask n with
  | Some (nn, m) => (zlen ip =? zlen nn) && bool_decide (masked nn m = masked ip m)
  | None => zlen ip =? 0
  end.

(** ** Hosts and ports *)

Fixpoint last_index_go (i : nat) (c : Z) (s : bytes) : option nat :=
  match s with
  | [] => None
  | x :: s => match last_index_go (S i) c s with
              | Some k => Some k
              | None => if x =? c then Some i else None
              end
  end.
Definition last_index (s : bytes) (c : Z) : option nat := last_index_go 0 c s.
Definition has (c : Z) (s : bytes) : bool := bool_decide (c ∈ s).

Definition split_host_port (hp : bytes) : option (bytes * bytes) :=
  match last_index hp 58 with
  | None => None
  | Some i =>
      let port := drop (S i) hp in
      let plain :=
        let host := take i hp in
        if has 58 host then None else if has 91 hp then None else if has 93 hp then None
        else Some (host, port) in
      match hp with
      | [] => plain
      | c :: rest =>
          if negb (c =? 91) then plain
          else match cut rest 93 with
          | None => None
          | Some (host, after) =>
              if negb (S (S (length host)) =? i)%nat then None
              else if has 91 rest then None
              else if has 93 after then None
              else Some (host, port)
          end
      end
  end.
Definition SplitHostPort (hp : string) : option (string * string) :=
  match split_host_port (bytes_of_string hp) with
  | Some (h, p) => Some (string_of_bytes h, string_of_bytes p)
  | None => None
  end.
Definition join_host_port (host port : bytes) : bytes :=
  if has 58 host then [91] ++ host ++ [93; 58] ++ port else host ++ [58] ++ port.
Definition JoinHostPort (host port : string) : string :=
  string_of_bytes (join_host_port (bytes_of_string host) (bytes_of_string port)).

End Net.

(** * The text of an address reads back ([net])

    [ParseIP] undoes [IP.String] for every address, and [SplitHostPort] undoes
    [JoinHostPort]: what the proxy hands the dialer denotes the address it
    decided on. *)

From S2P Require Import Prelude GoLib.
Import GoLib Net.

Module NetLaws.

(** A property of a byte, or of the values below a small bound, by inspection. *)
Lemma below (n : nat) (P : Z → bool) : forallb P (seqZ 0 (Z.of_nat n)) = true →
  ∀ c, 0 ≤ c < Z.of_nat n → P c = true.
Proof.
  intros H c Hc. rewrite List.forallb_forall in H. apply H, list_elem_of_In, elem_of_seqZ. lia.
Qed.
Lemma byte_all (P : Z → bool) : forallb P (seqZ 0 256) = true → ∀ c, 0 ≤ c < 256 → P c = true.
Proof. apply (below 256). Qed.

(** ** Four octets *)

Lemma octet_roundtrip c : 0 ≤ c < 256 → parse_octet (format_uint_b c) = Some c.
Proof.
  intros Hc. apply (bool_decide_unpack _), Is_true_eq_left.
  revert c Hc. apply (byte_all (λ c, bool_decide (parse_octet (format_uint_b c) = Some c))).
  vm_compute. reflexivity.
Qed.

(** Decimal digits hold no separator. *)
Lemma octet_digits c x : 0 ≤ c < 256 → x ∈ format_uint_b c → 48 ≤ x < 58.
Proof.
  intros Hc. assert (H : forallb (λ x, (48 <=? x) && (x <? 58)) (format_uint_b c) = true).
  { revert c Hc. apply (byte_all (λ c, forallb (λ x, (48 <=? x) && (x <? 58)) (format_uint_b c))).
    vm_compute. reflexivity. }
  rewrite List.forallb_forall in H. intros Hx%list_elem_of_In%H. lia.
Qed.

Lemma parseIPv4_string4 ip : bytes_ok ip → zlen ip = 4 → parseIPv4 (string4 ip) = Some ip.
Proof.
  intros Hb Hlen. destruct ip as [|a [|b [|c [|d [|]]]]]; try (unfold zlen in Hlen; simpl in Hlen; lia).
  rewrite !Forall_cons in Hb. destruct Hb as (Ha & Hb & Hc & Hd & _).
  unfold parseIPv4, string4. rewrite split_join; [|done|].
  - simpl. by rewrite !octet_roundtrip.
  - cbn [fmap list_fmap]. rewrite !Forall_cons.
    split_and!; [..|constructor]; intros Hin; apply octet_digits in Hin; unfold byte_ok in *; lia.
Qed.

(** ** Sixteen-bit groups *)

Lemma nibble_roundtrip x : 0 ≤ x < 16 → hex_nibble (hex_digit x) = Some x ∧
  hex_digit x ≠ 37 ∧ hex_digit x ≠ 46 ∧ hex_digit x ≠ 58 ∧ hex_digit x ≠ 91 ∧ hex_digit x ≠ 93 ∧
  0 ≤ hex_digit x < 256.
Proof.
  intros Hx. apply (bool_decide_unpack _). apply Is_true_eq_left.
  revert x Hx. apply (below 16 (λ x, bool_decide (hex_nibble (hex_digit x) = Some x ∧
    hex_digit x ≠ 37 ∧ hex_digit x ≠ 46 ∧ hex_digit x ≠ 58 ∧ hex_digit x ≠ 91 ∧ hex_digit x ≠ 93 ∧
    0 ≤ hex_digit x < 256))).
  vm_compute. reflexivity.
Qed.

Definition group (v : Z) : Prop := 0 ≤ v < 65536.
Definition stops (s : bytes) : Prop := match s with [] => True | c :: _ => hex_nibble c = None end.

Lemma hex_group_stop n acc s : stops s → hex_group n acc s = Some (n, acc, s).
Proof. destruct s as [|c s]; [done|]. simpl. by intros ->. Qed.

Lemma hex_group_step n acc x s : 0 ≤ x < 16 → (n ≤ 3)%nat →
  hex_group n acc (hex_digit x :: s) = hex_group (S n) (acc * 16 + x) s.
Proof.
  intros Hx Hn. cbn [hex_group]. destruct (nibble_roundtrip x Hx) as [-> _].
  destruct (Nat.ltb_spec 3 n); [lia|done].
Qed.

Lemma hex_group_hex16 v s : group v → stops s →
  ∃ n, hex_group 0 0 (hex16 v ++ s) = Some (S n, v, s).
Proof.
  intros Hv Hs. unfold group in Hv. unfold hex16.
  destruct (Z.leb_spec 4096 v); [|destruct (Z.leb_spec 256 v); [|destruct (Z.leb_spec 16 v)]];
    cbn [app]; rewrite ?hex_group_step by (first [lia | dlia]); rewrite (hex_group_stop _ _ _ Hs);
    eexists; repeat f_equal; dlia.
Qed.

(** The characters of a group, and that there is one. *)
Lemma hex16_chars v c : group v → c ∈ hex16 v → ∃ x, 0 ≤ x < 16 ∧ c = hex_digit x.
Proof.
  intros Hv. unfold group in Hv. unfold hex16.
  destruct (Z.leb_spec 4096 v); [|destruct (Z.leb_spec 256 v); [|destruct (Z.leb_spec 16 v)]];
    rewrite ?elem_of_cons, ?elem_of_nil; intros Hc; repeat destruct Hc as [->|Hc]; try done;
    eexists; (split; [|reflexivity]); dlia.
Qed.
Lemma hex16_head v : group v → ∃ x s, 0 ≤ x < 16 ∧ hex16 v = hex_digit x :: s.
Proof.
  intros Hv. unfold group in Hv. unfold hex16.
  destruct (Z.leb_spec 4096 v); [|destruct (Z.leb_spec 256 v); [|destruct (Z.leb_spec 16 v)]];
    eexists _, _; (split; [|reflexivity]); dlia.
Qed.

Definition two (v : Z) : bytes := [v / 256; v mod 256].
Definition bytes_of (gs : list Z) : bytes := mjoin (two <$> gs).
Lemma length_bytes_of gs : length (bytes_of gs) = (2 * length gs)%nat.
Proof.
  induction gs as [|g gs IH]; [done|].
  change (bytes_of (g :: gs)) with (two g ++ bytes_of gs). rewrite length_app, IH. simpl. lia.
Qed.
Lemma bytes_of_app a b : bytes_of (a ++ b) = bytes_of a ++ bytes_of b.
Proof. unfold bytes_of. by rewrite fmap_app, join_app. Qed.
Lemma bytes_of_zeros n : bytes_of (replicate n 0) = replicate (2 * n) 0.
Proof.
  induction n as [|n IH]; [done|]. replace (2 * S n)%nat with (S (S (2 * n))) by lia.
  change (bytes_of (replicate (S n) 0)) with (two 0 ++ bytes_of (replicate n 0)). by rewrite IH.
Qed.

Lemma groups_spec ip : bytes_ok ip → Nat.even (length ip) = true →
  bytes_of (groups ip) = ip ∧ Forall group (groups ip) ∧ length ip = (2 * length (groups ip))%nat.
Proof.
  intros Hb. remember (length ip) as n eqn:Hn. revert ip Hn Hb.
  induction n as [n IH] using lt_wf_ind. intros ip Hn Hb He.
  destruct ip as [|a [|b ip]]; simpl in Hn; subst n; [done|done|].
  rewrite !Forall_cons in Hb. destruct Hb as (Ha & Hb & Hip).
  unfold byte_ok in Ha, Hb.
  destruct (IH (length ip) ltac:(lia) ip eq_refl Hip He) as (H1 & H2 & H3).
  split_and!.
  - change (groups (a :: b :: ip)) with ((a * 256 + b) :: groups ip).
    change (bytes_of ((a * 256 + b) :: groups ip)) with (two (a * 256 + b) ++ bytes_of (groups ip)).
    rewrite H1. unfold two. simpl. f_equal; [dlia|f_equal; dlia].
  - constructor; [unfold group; lia|done].
  - simpl. lia.
Qed.


Lemma join_groups_cons g gs : gs ≠ [] → join_groups (g :: gs) = hex16 g ++ [58] ++ join_groups gs.
Proof. by destruct gs. Qed.

(** Text of groups begins with a hex digit. *)
Lemma join_groups_head gs rest : gs ≠ [] → Forall group gs →
  ∃ x s, 0 ≤ x < 16 ∧ join_groups gs ++ rest = hex_digit x :: s.
Proof.
  destruct gs as [|g gs]; [done|]. intros _ [Hg _]%Forall_cons. destruct (hex16_head g Hg) as (x & s & Hx & Hs).
  destruct gs as [|g' gs].
  - exists x, (s ++ rest). split; [done|]. unfold join_groups. simpl. by rewrite Hs.
  - rewrite join_groups_cons, Hs by done. by exists x, ((s ++ [58] ++ join_groups (g' :: gs)) ++ rest).
Qed.

Lemma digit_not_58 x : 0 ≤ x < 16 → (hex_digit x =? 58) = false.
Proof. intros Hx. destruct (nibble_roundtrip x Hx) as (_ & _ & _ & H & _). by apply Z.eqb_neq. Qed.

(** One round, on a group that a colon and another group follow. *)
Lemma v6_round rounds ip e g gs rest : group g → gs ≠ [] → Forall group gs →
  v6_groups (S rounds) ip e (join_groups (g :: gs) ++ rest) =
  v6_groups rounds (ip ++ two g) e (join_groups gs ++ rest).
Proof.
  intros Hg Hne Hgs. rewrite join_groups_cons, <-!app_assoc by done.
  destruct (join_groups_head gs rest Hne Hgs) as (x & s & Hx & ->).
  destruct (hex_group_hex16 g ([58] ++ hex_digit x :: s) Hg) as [n Hn]; [done|].
  cbn [v6_groups]. rewrite Hn. cbn [app]. by rewrite (digit_not_58 x Hx).
Qed.

(** The last group, at the end of the text or before the ellipsis. *)
Lemma v6_last rounds ip e g : group g →
  v6_groups (S rounds) ip e (join_groups [g]) = Some (ip ++ two g, e, []).
Proof.
  intros Hg. change (join_groups [g]) with (hex16 g). rewrite <-(app_nil_r (hex16 g)).
  destruct (hex_group_hex16 g [] Hg) as [n Hn]; [done|]. cbn [v6_groups]. by rewrite Hn.
Qed.
Lemma v6_ellipsis rounds ip g rest : group g →
  v6_groups (S rounds) ip None (join_groups [g] ++ [58; 58] ++ rest) =
  match rest with
  | [] => Some (ip ++ two g, Some (length ip + 2)%nat, [])
  | _ => v6_groups rounds (ip ++ two g) (Some (length ip + 2)%nat) rest
  end.
Proof.
  intros Hg. change (join_groups [g]) with (hex16 g).
  destruct (hex_group_hex16 g ([58; 58] ++ rest) Hg) as [n Hn]; [done|].
  cbn [v6_groups]. rewrite Hn. cbn [app]. simpl. rewrite length_app. by destruct rest.
Qed.

Lemma v6_all gs : ∀ rounds ip e, gs ≠ [] → Forall group gs → (length gs ≤ rounds)%nat →
  v6_groups rounds ip e (join_groups gs) = Some (ip ++ bytes_of gs, e, []).
Proof.
  induction gs as [|g gs IH]; intros rounds ip e Hne Hgs Hlen; [done|].
  apply Forall_cons in Hgs as [Hg Hgs]. destruct rounds as [|rounds]; [simpl in Hlen; lia|].
  destruct gs as [|g' gs].
  - by rewrite v6_last.
  - rewrite <-(app_nil_r (join_groups _)), v6_round, app_nil_r by done.
    rewrite IH by (done || simpl in *; lia). by rewrite <-app_assoc.
Qed.

Lemma v6_prefix gs : ∀ rounds ip rest, gs ≠ [] → Forall group gs → (length gs ≤ rounds)%nat →
  v6_groups rounds ip None (join_groups gs ++ [58; 58] ++ rest) =
  match rest with
  | [] => Some (ip ++ bytes_of gs, Some (length ip + 2 * length gs)%nat, [])
  | _ => v6_groups (rounds - length gs) (ip ++ bytes_of gs) (Some (length ip + 2 * length gs)%nat) rest
  end.
Proof.
  induction gs as [|g gs IH]; intros rounds ip rest Hne Hgs Hlen; [done|].
  apply Forall_cons in Hgs as [Hg Hgs]. destruct rounds as [|rounds]; [simpl in Hlen; lia|].
  destruct gs as [|g' gs].
  - rewrite v6_ellipsis by done. change (bytes_of [g]) with (two g).
    change (2 * length [g])%nat with 2%nat. change (length [g]) with 1%nat.
    by replace (S rounds - 1)%nat with rounds by lia.
  - rewrite v6_round by done. rewrite IH by (done || simpl in *; lia).
    rewrite length_app, <-app_assoc. simpl length.
    replace (length ip + 2 + 2 * S (length gs))%nat with (length ip + 2 * S (S (length gs)))%nat by lia.
    done.
Qed.

(** ** The longest run of zeros *)

Lemma zeros_take gs : take (zeros gs) gs = replicate (zeros gs) 0 ∧ (zeros gs ≤ length gs)%nat.
Proof.
  induction gs as [|g gs [IH Hle]]; [done|]. simpl. destruct (Z.eqb_spec g 0) as [->|]; simpl; [|split; [done|lia]].
  split; [by rewrite IH|lia].
Qed.

(** A run of zeros worth an ellipsis. *)
Definition run_of (gs : list Z) (r : nat * nat) : Prop :=
  r.2 = 0%nat ∨ ((2 ≤ r.2)%nat ∧ (r.1 + r.2 ≤ length gs)%nat ∧
                 gs = take r.1 gs ++ replicate r.2 0 ++ drop (r.1 + r.2) gs).

Lemma best_run_spec all : ∀ gs i best, drop i all = gs → run_of all best →
  run_of all (best_run i gs best).
Proof.
  induction gs as [|g gs IH]; intros i best Hd Hb; [done|]. cbn [best_run].
  assert (Hi : (i < length all)%nat).
  { destruct (decide (i < length all)%nat); [done|]. by rewrite drop_ge in Hd by lia. }
  apply IH.
  { replace (S i) with (i + 1)%nat by lia. rewrite <-drop_drop, Hd. done. }
  destruct ((1 <? zeros (g :: gs))%nat && _) eqn:Hc; [|done].
  apply andb_true_iff in Hc as [Hc%Nat.ltb_lt _]. right. cbn [fst snd].
  destruct (zeros_take (g :: gs)) as [Ht Hle].
  assert (Hl : length (g :: gs) = (length all - i)%nat) by (by rewrite <-Hd, length_drop).
  split; [lia|]. split; [lia|].
  rewrite <-(take_drop i all) at 1. f_equal. rewrite Hd, <-(take_drop (zeros (g :: gs)) (g :: gs)) at 1.
  rewrite Ht. f_equal. by rewrite <-drop_drop, Hd.
Qed.

(** ** Sixteen bytes *)

Lemma expand_full ip : length ip = 16%nat → expand ip None = Some ip.
Proof. intros Hl. unfold expand. by rewrite Hl. Qed.
Lemma expand_run a n b : length (a ++ replicate n 0 ++ b) = 16%nat → (0 < n)%nat →
  expand (a ++ b) (Some (length a)) = Some (a ++ replicate n 0 ++ b).
Proof.
  rewrite !length_app, length_replicate. intros Hl Hn. unfold expand. rewrite length_app.
  destruct (Nat.ltb_spec (length a + length b) 16); [|lia].
  rewrite take_app_length, drop_app_length. by replace (16 - (length a + length b))%nat with n by lia.
Qed.

Lemma no_prefix gs rest : gs ≠ [] → Forall group gs → has_prefix [58; 58] (join_groups gs ++ rest) = false.
Proof.
  intros Hne Hgs. destruct (join_groups_head gs rest Hne Hgs) as (x & s & Hx & ->).
  pose proof (digit_not_58 x Hx) as H. cbn [has_prefix]. rewrite Z.eqb_sym in H. by rewrite H.
Qed.

Lemma parse_groups gs : Forall group gs → length gs = 8%nat →
  parseIPv6 (join_groups gs) = Some (bytes_of gs).
Proof.
  intros Hgs Hl. assert (Hne : gs ≠ []) by (by intros ->).
  unfold parseIPv6. rewrite <-(app_nil_r (join_groups gs)) at 1. rewrite no_prefix by done.
  rewrite v6_all by (done || lia). apply expand_full. simpl. rewrite length_bytes_of. lia.
Qed.

Lemma join_groups_nonnil gs : gs ≠ [] → Forall group gs → ∃ c s, join_groups gs = c :: s.
Proof.
  intros Hne Hgs. destruct (join_groups_head gs [] Hne Hgs) as (x & s & _ & Hs).
  rewrite app_nil_r in Hs. by eexists _, _.
Qed.

Lemma parse_run a n b : Forall group a → Forall group b → (2 ≤ n)%nat →
  (length a + n + length b = 8)%nat →
  parseIPv6 (join_groups a ++ [58; 58] ++ join_groups b) = Some (bytes_of (a ++ replicate n 0 ++ b)).
Proof.
  intros Ha Hb Hn Hl.
  assert (Hfin : expand (bytes_of a ++ bytes_of b) (Some (2 * length a)%nat) =
                 Some (bytes_of (a ++ replicate n 0 ++ b))).
  { rewrite !bytes_of_app, bytes_of_zeros, <-length_bytes_of. apply expand_run; [|lia].
    rewrite !length_app, length_replicate, !length_bytes_of. lia. }
  unfold parseIPv6. destruct a as [|g a].
  - simpl app. cbn [has_prefix]. rewrite !Z.eqb_refl. cbn [andb drop]. rewrite drop_0.
    destruct b as [|g b].
    + simpl in Hl. assert (n = 8%nat) as -> by lia. done.
    + destruct (join_groups_nonnil (g :: b) ltac:(done) Hb) as (c & s & Hs).
      rewrite Hs. cbv iota beta zeta. rewrite <-Hs, v6_all by (done || simpl in *; lia). exact Hfin.
  - rewrite no_prefix by done. rewrite v6_prefix by (done || simpl in *; lia).
    destruct b as [|g' b].
    + cbn [join_groups]. simpl join_groups. rewrite app_nil_l. etrans; [|exact Hfin].
      change (bytes_of []) with (@nil Z). by rewrite app_nil_r.
    + destruct (join_groups_nonnil (g' :: b) ltac:(done) Hb) as (c & s & Hs).
      rewrite Hs. cbv iota beta zeta. rewrite <-Hs, v6_all by (done || simpl in *; lia). exact Hfin.
Qed.

Lemma parse_string6 ip : bytes_ok ip → length ip = 16%nat → parseIPv6 (string6 ip) = Some ip.
Proof.
  intros Hb Hl. destruct (groups_spec ip Hb) as (Hgs & Hg & Hlen); [by rewrite Hl|].
  unfold string6. pose proof (best_run_spec (groups ip) (groups ip) 0 (0%nat, 0%nat) eq_refl ltac:(by left)) as Hr.
  destruct (best_run 0 (groups ip) (0%nat, 0%nat)) as [start len]. unfold run_of in Hr. cbn [fst snd] in Hr.
  destruct (Nat.eqb_spec len 0) as [_|Hne].
  - rewrite parse_groups by (done || lia). by rewrite Hgs.
  - destruct Hr as [?|(H2 & Hle & Hsplit)]; [done|].
    rewrite (parse_run _ len).
    + by rewrite <-Hsplit, Hgs.
    + by apply Forall_take.
    + by apply Forall_drop.
    + done.
    + rewrite length_take, length_drop. lia.
Qed.

(** ** The characters of the text *)

Lemma join_groups_chars gs c : Forall group gs → c ∈ join_groups gs →
  c = 58 ∨ ∃ x, 0 ≤ x < 16 ∧ c = hex_digit x.
Proof.
  induction gs as [|g gs IH]; intros Hgs Hc; [by apply not_elem_of_nil in Hc|].
  apply Forall_cons in Hgs as [Hg Hgs]. destruct gs as [|g' gs].
  - right. by apply (hex16_chars g).
  - rewrite join_groups_cons in Hc by done. rewrite !elem_of_app, list_elem_of_singleton in Hc.
    destruct Hc as [Hc|[Hc|Hc]]; [right; by apply (hex16_chars g)|by left|by apply IH].
Qed.

Lemma string6_chars ip c : bytes_ok ip → length ip = 16%nat → c ∈ string6 ip →
  c = 58 ∨ ∃ x, 0 ≤ x < 16 ∧ c = hex_digit x.
Proof.
  intros Hb Hl. destruct (groups_spec ip Hb) as (_ & Hg & _); [by rewrite Hl|].
  unfold string6. destruct (best_run _ _ _) as [start len].
  destruct (len =? 0)%nat; [by apply join_groups_chars|].
  rewrite !elem_of_app, !elem_of_cons. intros [Hc|[Hc|Hc]].
  - apply (join_groups_chars _ _ (Forall_take _ _ _ Hg) Hc).
  - destruct Hc as [->|[->|Hc%not_elem_of_nil]]; [by left..|done].
  - apply (join_groups_chars _ _ (Forall_drop _ _ _ Hg) Hc).
Qed.

Lemma string6_colon ip : bytes_ok ip → length ip = 16%nat → 58 ∈ string6 ip.
Proof.
  intros Hb Hl. destruct (groups_spec ip Hb) as (_ & Hg & Hlen); [by rewrite Hl|].
  unfold string6. destruct (best_run _ _ _) as [start len].
  destruct (len =? 0)%nat.
  - destruct (groups ip) as [|g [|g' gs]]; [simpl in Hlen; lia..|].
    rewrite join_groups_cons by done. rewrite !elem_of_app. right. left. by left.
  - rewrite elem_of_app. right. left.
Qed.

Lemma first_of_colon s : 46 ∉ s → 58 ∈ s → first_of [46; 58] s = Some 58.
Proof.
  induction s as [|c s IH]; intros H46 H58; [by apply not_elem_of_nil in H58|]. cbn [first_of].
  apply not_elem_of_cons in H46 as [Hc H46]. case_bool_decide as Hin.
  - rewrite !elem_of_cons, elem_of_nil in Hin. destruct Hin as [->|[->|[]]]; done.
  - apply IH; [done|]. apply elem_of_cons in H58 as [<-|]; [|done]. destruct Hin. set_solver.
Qed.
Lemma first_of_dot s rest : (∀ c, c ∈ s → c ≠ 46 ∧ c ≠ 58) → first_of [46; 58] (s ++ 46 :: rest) = Some 46.
Proof.
  induction s as [|c s IH]; intros Hs; [done|]. cbn [app first_of]. rewrite bool_decide_eq_false_2.
  - apply IH. intros x Hx. apply Hs. by right.
  - destruct (Hs c) as [H1 H2]; [by left|]. rewrite !elem_of_cons, elem_of_nil. naive_solver.
Qed.

Lemma string4_chars ip c : bytes_ok ip → c ∈ string4 ip → c = 46 ∨ 48 ≤ c < 58.
Proof.
  unfold string4. induction ip as [|a ip IH]; intros Hb Hc; [by apply not_elem_of_nil in Hc|].
  apply Forall_cons in Hb as [Ha Hb]. destruct ip as [|b ip].
  - right. by apply (octet_digits a).
  - change (join (format_uint_b <$> a :: b :: ip) [46]) with
      (format_uint_b a ++ [46] ++ join (format_uint_b <$> b :: ip) [46]) in Hc.
    rewrite !elem_of_app, list_elem_of_singleton in Hc.
    destruct Hc as [Hc|[Hc|Hc]]; [right; by apply (octet_digits a)|by left|by apply IH].
Qed.

Lemma To4_Some ip ip4 : To4 ip = Some ip4 → length ip4 = 4%nat ∧ To16 ip = v4InV6Prefix ++ ip4.
Proof.
  unfold To4, To16. destruct (Z.eqb_spec (zlen ip) 4) as [H4|H4].
  - intros [= <-]. unfold zlen in H4. split; [lia|done].
  - destruct (Z.eqb_spec (zlen ip) 16) as [H16|]; [|done]. cbn [andb]. case_bool_decide as Ht; [|done].
    intros [= <-]. unfold zlen in H16. split; [rewrite length_drop; lia|]. rewrite <-Ht. by rewrite take_drop.
Qed.

Definition valid_ip (ip : bytes) : Prop := bytes_ok ip ∧ (length ip = 4%nat ∨ length ip = 16%nat).

Lemma To4_ok ip ip4 : bytes_ok ip → To4 ip = Some ip4 → bytes_ok ip4.
Proof.
  unfold To4. intros Hb. destruct (zlen ip =? 4); [by intros [= <-]|].
  destruct (_ && _); [|done]. intros [= <-]. by apply Forall_drop.
Qed.

(** The text of a valid address, as bytes. *)
Lemma IP_String_bytes ip : valid_ip ip →
  bytes_of_string (IP_String ip) = match To4 ip with Some ip4 => string4 ip4 | None => string6 ip end ∧
  (To4 ip = None → length ip = 16%nat).
Proof.
  intros [Hb Hl]. unfold IP_String. destruct (To4 ip) as [ip4|] eqn:H4.
  - split; [|done]. apply bytes_of_string_of_bytes. apply Forall_forall. intros c Hc.
    apply string4_chars in Hc; [unfold byte_ok; lia|by eapply To4_ok].
  - assert (Hl' : length ip = 16%nat).
    { destruct Hl as [Hl|]; [|done]. unfold To4, zlen in H4. by rewrite Hl in H4. }
    split; [|done]. unfold zlen. rewrite Hl'. change (Z.of_nat 16 =? 16) with true. cbn iota.
    apply bytes_of_string_of_bytes. apply Forall_forall. intros c Hc.
    apply (string6_chars ip) in Hc; [|done..]. destruct Hc as [->|(x & Hx & ->)]; [done|].
    unfold byte_ok. by apply nibble_roundtrip.
Qed.

(** The text of an address denotes it: [ParseIP] of what [IP.String] prints is
    the address again, in its 16-byte form, for every IPv4, IPv4-mapped and IPv6
    address, whichever run of zeros was abbreviated. *)
Theorem address_roundtrip ip (H : valid_ip ip) : ParseIP (IP_String ip) = Some (To16 ip).
Proof.
  destruct (IP_String_bytes ip H) as [Htext Hlen]. destruct H as [Hb _].
  unfold ParseIP. rewrite Htext. destruct (To4 ip) as [ip4|] eqn:H4.
  - destruct (To4_Some ip ip4 H4) as [Hl ->]. pose proof (To4_ok ip ip4 Hb H4) as Hb4.
    rewrite bool_decide_eq_false_2 by (intros Hin; apply string4_chars in Hin; [lia|done]).
    assert (Hdot : first_of [46; 58] (string4 ip4) = Some 46).
    { destruct ip4 as [|a [|b ip4]]; [simpl in Hl; lia..|]. apply Forall_cons in Hb4 as [Ha _].
      change (string4 (a :: b :: ip4)) with (format_uint_b a ++ 46 :: join (format_uint_b <$> b :: ip4) [46]).
      apply first_of_dot. intros c Hc. apply octet_digits in Hc; [lia|done]. }
    rewrite Hdot, parseIPv4_string4; [done|done|unfold zlen; lia].
  - specialize (Hlen eq_refl). assert (Hc : ∀ c, c ∈ string6 ip → c ≠ 37 ∧ c ≠ 46).
    { intros c Hc. apply (string6_chars ip) in Hc; [|done..]. destruct Hc as [->|(x & Hx & ->)]; [done|].
      destruct (nibble_roundtrip x Hx) as (_ & ? & ? & _). done. }
    rewrite bool_decide_eq_false_2 by (by intros [? _]%Hc).
    rewrite first_of_colon; [|by intros [_ ?]%Hc|by apply string6_colon].
    rewrite parse_string6 by done. f_equal. unfold To16, zlen. by rewrite Hlen.
Qed.

(** ** Hosts and ports *)

Lemma last_index_none c s i : c ∉ s → last_index_go i c s = None.
Proof.
  revert i. induction s as [|x s IH]; intros i Hs; [done|]. apply not_elem_of_cons in Hs as [Hx Hs].
  cbn [last_index_go]. rewrite IH by done. by destruct (Z.eqb_spec x c).
Qed.
Lemma last_index_app c a b i : c ∉ b → last_index_go i c (a ++ c :: b) = Some (i + length a)%nat.
Proof.
  intros Hb. revert i. induction a as [|x a IH]; intros i; cbn [app last_index_go].
  - rewrite last_index_none, Z.eqb_refl by done. f_equal. simpl. lia.
  - rewrite IH. f_equal. simpl. lia.
Qed.
Lemma last_index_inv c s i k : last_index_go i c s = Some k →
  ∃ a b, s = a ++ c :: b ∧ k = (i + length a)%nat ∧ c ∉ b.
Proof.
  revert i. induction s as [|x s IH]; intros i H; [done|]. cbn [last_index_go] in H.
  destruct (last_index_go (S i) c s) as [k'|] eqn:Hk.
  - injection H as ->. destruct (IH _ Hk) as (a & b & -> & -> & Hb). exists (x :: a), b. split; [done|].
    split; [simpl; lia|done].
  - destruct (Z.eqb_spec x c) as [->|]; [|done]. injection H as <-. exists [], s. split; [done|].
    split; [simpl; lia|]. intros Hin. clear IH. revert Hk. generalize (S i). induction s as [|y s IH]; intros n Hk.
    + by apply not_elem_of_nil in Hin.
    + cbn [last_index_go] in Hk. destruct (last_index_go (S n) c s) eqn:Hs; [done|].
      destruct (Z.eqb_spec y c); [done|]. apply elem_of_cons in Hin as [->|Hin]; [done|]. by eapply IH.
Qed.

Lemma cut_spec a c b : c ∉ a → cut (a ++ c :: b) c = Some (a, b).
Proof.
  induction a as [|x a IH]; intros Ha; cbn [app cut]; [by rewrite Z.eqb_refl|].
  apply not_elem_of_cons in Ha as [Hx Ha]. destruct (Z.eqb_spec x c); [congruence|]. by rewrite IH.
Qed.
Lemma cut_inv s c a b : cut s c = Some (a, b) → s = a ++ c :: b ∧ c ∉ a.
Proof.
  revert a. induction s as [|x s IH]; intros a H; [done|]. cbn [cut] in H.
  destruct (Z.eqb_spec x c) as [->|Hx]; [injection H as <- <-; split; [done|apply not_elem_of_nil]|].
  destruct (cut s c) as [[a' b']|]; [|done]. injection H as <- <-. destruct (IH a' eq_refl) as [-> Ha].
  split; [done|]. by apply not_elem_of_cons.
Qed.

Definition clean (s : bytes) : Prop := (58 ∉ s) ∧ (91 ∉ s) ∧ (93 ∉ s).

Lemma has_false c s : c ∉ s → has c s = false.
Proof. intros H. by apply bool_decide_eq_false_2. Qed.

Lemma split_join_host h p : 91 ∉ h → 93 ∉ h → clean p → split_host_port (join_host_port h p) = Some (h, p).
Proof.
  intros H91 H93 (P58 & P91 & P93). unfold join_host_port, split_host_port, last_index.
  destruct (has 58 h) eqn:Hh.
  - replace ([91] ++ h ++ [93; 58] ++ p) with ((91 :: h ++ [93]) ++ 58 :: p)
      by (simpl; by rewrite <-app_assoc).
    rewrite last_index_app by done. cbn [app]. rewrite Z.eqb_refl. cbn [negb].
    rewrite <-app_assoc. cbn [app]. rewrite cut_spec by done.
    assert (Hlen : length (91 :: h ++ [93]) = S (S (length h))) by (simpl; rewrite length_app; simpl; lia).
    rewrite Hlen, Nat.eqb_refl. cbn [negb].
    rewrite (has_false 91), (has_false 93).
    + do 2 f_equal. replace (91 :: h ++ 93 :: 58 :: p) with ((91 :: h ++ [93; 58]) ++ p)
        by (simpl; by rewrite <-app_assoc).
      apply drop_app_length'. simpl. rewrite length_app. simpl. lia.
    + intros [?|?]%elem_of_cons; done.
    + rewrite elem_of_app, !elem_of_cons. naive_solver.
  - unfold has in Hh. apply bool_decide_eq_false in Hh. cbn [app]. rewrite last_index_app by done.
    cbn [Nat.add]. rewrite take_app_length.
    assert (Hp : drop (S (length h)) (h ++ 58 :: p) = p).
    { replace (h ++ 58 :: p) with ((h ++ [58]) ++ p) by (by rewrite <-app_assoc).
      apply drop_app_length'. rewrite length_app. simpl. lia. }
    rewrite Hp, (has_false 58) by done. rewrite (has_false 91), (has_false 93).
    + destruct h as [|c h]; cbn [app]; [done|]. apply not_elem_of_cons in H91 as [Hc _].
      destruct (Z.eqb_spec c 91); [congruence|done].
    + rewrite elem_of_app, elem_of_cons. naive_solver.
    + rewrite elem_of_app, elem_of_cons. naive_solver.
Qed.

Lemma split_port_clean hp h p : split_host_port hp = Some (h, p) → clean p.
Proof.
  unfold split_host_port, last_index. destruct (last_index_go 0 58 hp) as [i|] eqn:Hi; [|done].
  apply last_index_inv in Hi as (a & b & Hhp & -> & Hb). simpl Nat.add.
  assert (Hd : drop (S (length a)) hp = b).
  { rewrite Hhp. replace (a ++ 58 :: b) with ((a ++ [58]) ++ b) by (by rewrite <-app_assoc).
    apply drop_app_length'. rewrite length_app. simpl. lia. }
  rewrite Hd. assert (Hin : ∀ c, c ∈ b → c ∈ hp) by (intros c Hc; rewrite Hhp, elem_of_app; right; by right).
  assert (Hplain : (if has 58 (take (length a) hp) then None else if has 91 hp then None
    else if has 93 hp then None else Some (take (length a) hp, b)) = Some (h, p) → clean p).
  { destruct (has 58 _); [done|]. destruct (has 91 hp) eqn:H91; [done|]. destruct (has 93 hp) eqn:H93; [done|].
    intros [= _ <-]. unfold has in H91, H93. apply bool_decide_eq_false in H91, H93.
    split_and!; [done|intros ?%Hin|intros ?%Hin]; done. }
  destruct hp as [|c rest]; [by destruct a|]. destruct (negb (c =? 91)); [done|].
  destruct (cut rest 93) as [[host after]|] eqn:Hc; [|done]. apply cut_inv in Hc as [Hrest Hhost].
  destruct (negb (S (S (length host)) =? length a)%nat) eqn:Hlen; [done|].
  apply negb_false_iff, Nat.eqb_eq in Hlen.
  destruct (has 91 rest) eqn:H91; [done|]. destruct (has 93 after) eqn:H93; [done|].
  intros [= _ <-]. unfold has in H91, H93. apply bool_decide_eq_false in H91, H93.
  (* the port follows the bracket and the colon *)
  assert (Heq : (c :: host ++ [93]) ++ after = a ++ 58 :: b).
  { rewrite <-Hhp, Hrest. simpl. by rewrite <-app_assoc. }
  apply app_inj_1 in Heq as [_ ->]; [|simpl; rewrite length_app; simpl; lia].
  apply not_elem_of_cons in H93 as [_ H93]. split_and!; [done| |done].
  intros Hb'. apply H91. rewrite Hrest, elem_of_app. right. right. by right.
Qed.

Lemma split_port_suffix hp h p : split_host_port hp = Some (h, p) → ∃ x, hp = x ++ p.
Proof.
  unfold split_host_port, last_index. destruct (last_index_go 0 58 hp) as [i|]; [|done].
  assert (Hd : ∃ x, hp = x ++ drop (S i) hp) by (exists (take (S i) hp); by rewrite take_drop).
  intros H. assert (p = drop (S i) hp) as ->; [|done].
  repeat case_match; try done; by injection H.
Qed.

(** What the dialer is handed splits into the address it was made of. *)
Lemma pinned_denotes ip port : valid_ip ip → clean (bytes_of_string port) →
  SplitHostPort (JoinHostPort (IP_String ip) port) = Some (IP_String ip, port).
Proof.
  intros Hip Hp. destruct (IP_String_bytes ip Hip) as [Htext Hlen]. destruct Hip as [Hb _].
  assert (Hchars : ∀ c, c ∈ bytes_of_string (IP_String ip) → byte_ok c ∧ c ≠ 91 ∧ c ≠ 93).
  { intros c. rewrite Htext. destruct (To4 ip) as [ip4|] eqn:H4.
    - intros Hc. apply string4_chars in Hc; [unfold byte_ok; lia|by eapply To4_ok].
    - intros Hc. apply (string6_chars ip) in Hc; [|done|by apply Hlen].
      destruct Hc as [->|(x & Hx & ->)]; [done|]. unfold byte_ok.
      destruct (nibble_roundtrip x Hx) as (_ & _ & _ & _ & ? & ? & ?). done. }
  unfold SplitHostPort, JoinHostPort. rewrite bytes_of_string_of_bytes.
  - rewrite split_join_host; [by rewrite !string_of_bytes_of_string| | |done]; intros Hin; by apply Hchars in Hin as (_ & ? & ?).
  - unfold join_host_port. destruct (has 58 _); rewrite !Forall_app; split_and!; try apply bytes_of_string_ok; by repeat constructor.
Qed.

End NetLaws.
