(* ===== verification/Egress.v ===== *)
(** * The egress proxy ([cmd/faas-egress])

    The registry of per-call credentials, the decision whom a call may reach and
    the proxy's two arms. A DNS lookup, a dial, a hijack and the upstream's
    answer are arguments; the trace records the dials. *)

From S2P Require Import Prelude GoLib Net.
Import GoLib Net.

Module Egress.

(** ** The policy (policy.go) *)

Fixpoint mustCIDRs (cidrs : list string) : option (list IPNet) :=
  match cidrs with
  | [] => Some []
  | c :: cidrs => n ← ParseCIDR c; ns ← mustCIDRs cidrs; Some (n :: ns)
  end.
Definition denyBlocks : list string :=
  ["0.0.0.0/8"; "100.64.0.0/10"; "192.0.0.0/24"; "198.18.0.0/15"; "240.0.0.0/4";
   "255.255.255.255/32"; "64:ff9b::/96"; "100::/64"]%string.
(** A block that does not parse is a panic at startup; they do. *)
Definition denyExtra : list IPNet := default [] (mustCIDRs denyBlocks).

(** The nil address is denied too. *)
Definition isDenied (ip : bytes) : bool :=
  bool_decide (ip = []) ||
  IsLoopback ip || IsLinkLocalUnicast ip || IsLinkLocalMulticast ip ||
  IsInterfaceLocalMulticast ip || IsMulticast ip || IsUnspecified ip || IsPrivate ip ||
  existsb (λ n, Contains n ip) denyExtra.

Definition hostAllowed (host port : string) (allow : list string) : bool :=
  existsb (λ a, bool_decide (a = host) || bool_decide (a = host ++ ":" ++ port)%string) allow.

Inductive decide_err := NotAllowed | ResolveFailed | OnlyDenied.

(** [lookup]: the addresses of a name, [None] for an error. *)
Definition decide (host port : string) (allow : list string) (lookup : string → option (list bytes))
    : result decide_err bytes :=
  if negb (hostAllowed host port allow) then Err NotAllowed
  else match ParseIP host with
  | Some ip => Ok ip
  | None =>
      match lookup host with
      | None => Err ResolveFailed
      | Some ips => match find_first (λ ip, negb (isDenied ip)) ips with
                    | Some ip => Ok ip | None => Err OnlyDenied end
      end
  end.

(** ** The registry (main.go) *)

Abbreviation registry := (gmap string (list string)).

(** The control socket's two routes; a body that does not decode is [None]. *)
Inductive control := Register (body : option (string * list string)) | Unregister (body : option string).
Definition controlHandler (c : control) (reg : registry) : Z * registry :=
  match c with
  | Register (Some (cred, allow)) =>
      if bool_decide (cred = ""%string) then (400, reg) else (204, <[cred := allow]> reg)
  | Unregister (Some cred) =>
      if bool_decide (cred = ""%string) then (400, reg) else (204, delete cred reg)
  | Register None | Unregister None => (400, reg)
  end.

(** ** The proxy *)

(** Header names are canonical, as the server hands them on. *)
Abbreviation headers := (gmap string (list string)).
Definition header_get (h : headers) (k : string) : string := default ""%string (head (default [] (h !! k))).
(** [dst.Add] of every value. *)
Definition copyHeaders (dst src : headers) : headers := union_with (λ a b, Some (a ++ b)) dst src.

Record request := MkRequest {
  Method : string; Host : string; URLHost : string; URL : string; Header : headers; Body : bytes }.

Definition MethodConnect : string := "CONNECT".
Definition proxy_auth : string := "Proxy-Authorization".
Definition bearer : string := "Bearer ".

Definition credOf (r : request) : string :=
  let b := bytes_of_string (header_get (Header r) proxy_auth) in
  let p := bytes_of_string bearer in
  if has_prefix p b then string_of_bytes (drop (length p) b) else ""%string.

Definition target (r : request) : string * string :=
  let connect := bool_decide (Method r = MethodConnect) in
  let hp := if negb connect && negb (bool_decide (URLHost r = ""%string)) then URLHost r else Host r in
  match SplitHostPort hp with
  | Some (h, p) => (h, p)
  | None => (hp, if connect then "443" else "80")%string
  end.

(** The outside: name resolution, whether a dial succeeds, whether and how the
    connection can be taken over ([None]: no hijacker; [false]: it or the first
    write fails), whether the forwarded request is well formed, and what the
    upstream answers it. *)
Record outside := MkOutside {
  o_lookup : string → option (list bytes);
  o_dial : string → bool;
  o_hijack : option bool;
  o_valid : string → string → bool;
  o_upstream : string → string → string → headers → bytes → option (Z * headers * bytes) }.

Inductive answer :=
| Answer (status : Z) (h : headers) (body : bytes)   (* an HTTP response *)
| Tunnel (pinned : string)                           (* bytes piped both ways *)
| Dropped.                                           (* the connection is closed *)
Definition plain (status : Z) (text : string) : answer := Answer status ∅ (bytes_of_string text).

(** What the proxy dialled, for which credential and target. *)
Record dialled := MkDial { d_cred : string; d_host : string; d_port : string; d_ip : bytes; d_addr : string }.

Definition doConnect (o : outside) (pinned : string) : answer :=
  if negb (o_dial o pinned) then plain 502 "egress upstream"
  else match o_hijack o with
  | None => plain 500 "no hijack"
  | Some false => Dropped
  | Some true => Tunnel pinned
  end.

(** The transport dials the pinned address, whatever the request's host is; the
    flag says whether it was dialled. *)
Definition doHTTP (o : outside) (r : request) (pinned : string) : bool * answer :=
  if negb (o_valid o (Method r) (URL r)) then (false, plain 400 "bad request")
  else
    let h := delete proxy_auth (copyHeaders ∅ (Header r)) in
    (true,
     if negb (o_dial o pinned) then plain 502 "egress upstream"
     else match o_upstream o pinned (Method r) (URL r) h (Body r) with
     | None => plain 502 "egress upstream"
     | Some (status, h, body) => Answer status (copyHeaders ∅ h) body
     end).

Definition ServeHTTP (o : outside) (reg : registry) (r : request) : list dialled * answer :=
  let cred := credOf r in
  match reg !! cred with
  | None => ([], plain 403 "egress: unknown or missing credential")
  | Some allow =>
      if bool_decide (cred = ""%string) then ([], plain 403 "egress: unknown or missing credential")
      else
        let '(host, port) := target r in
        match decide host port allow (o_lookup o) with
        | Err _ => ([], plain 403 "egress denied")
        | Ok ip =>
            let pinned := JoinHostPort (IP_String ip) port in
            let d := MkDial cred host port ip pinned in
            if bool_decide (Method r = MethodConnect) then ([d], doConnect o pinned)
            else let '(dials, a) := doHTTP o r pinned in (if dials : bool then [d] else [], a)
        end
  end.

(** ** Runs

    Requests on the control socket and on the proxy, one at a time: a request
    reads the registry once, under its lock. *)

Inductive step := Control (c : control) | Proxy (o : outside) (r : request).
Record proxy_state := MkState { reg : registry; dials : list (registry * dialled) }.
Definition run_step (x : step) (s : proxy_state) : proxy_state :=
  match x with
  | Control c => MkState (controlHandler c (reg s)).2 (dials s)
  | Proxy o r => MkState (reg s) (dials s ++ ((λ d, (reg s, d)) <$> (ServeHTTP o (reg s) r).1))
  end.
Definition run (xs : list step) (s : proxy_state) : proxy_state := foldl (λ s x, run_step x s) s xs.

End Egress.

(** * What the egress proxy can reach ([cmd/faas-egress])

    The deny-set as ranges of addresses, and the contract of the proxy: every
    dial is for a registered credential, to a target its list names, at exactly
    one vetted address. *)

From Stdlib Require Import ZifyBool.
From S2P Require Import Prelude GoLib Net.
Import GoLib Net Egress.
Import NetLaws(valid_ip, clean, byte_all).

Module EgressLaws.

(** ** The deny-set *)

(** A range of addresses: its first one and how many bits are free. *)
Definition in_range (n : Z) (r : Z * Z) : bool := (r.1 <=? n) && (n <? r.1 + 2 ^ r.2).
Definition v4 (a b c d : Z) : Z := ((a * 256 + b) * 256 + c) * 256 + d.

Definition denied4 : list (Z * Z) :=
  [(v4 0 0 0 0, 24); (v4 10 0 0 0, 24); (v4 100 64 0 0, 22); (v4 127 0 0 0, 24);
   (v4 169 254 0 0, 16); (v4 172 16 0 0, 20); (v4 192 0 0 0, 8); (v4 192 168 0 0, 16);
   (v4 198 18 0 0, 17); (v4 224 0 0 0, 28); (v4 240 0 0 0, 28)].
(** ::, ::1, the NAT64 prefix, the discard prefix, unique local, link local,
    multicast. *)
Definition denied6 : list (Z * Z) :=
  [(0, 0); (1, 0); (be_combine [0; 100; 255; 155] * 2 ^ 96, 32); (be_combine [1; 0] * 2 ^ 112, 64);
   (252 * 2 ^ 120, 121); (be_combine [254; 128] * 2 ^ 112, 118); (255 * 2 ^ 120, 120)].

(** Masks of a byte, as ranges. *)
Lemma mask_range m v lo hi : forallb (λ x, eqb (Z.land x m =? v) ((lo <=? x) && (x <? hi))) (seqZ 0 256) = true →
  ∀ x, 0 ≤ x < 256 → (Z.land x m =? v) = (lo <=? x) && (x <? hi).
Proof. intros H x Hx. apply eqb_prop. by apply (byte_all (λ x, eqb (Z.land x m =? v) ((lo <=? x) && (x <? hi)))). Qed.

Lemma land_byte x : 0 ≤ x < 256 → Z.land x 255 = x ∧ Z.land x 0 = 0.
Proof.
  intros Hx. split; [|apply Z.land_0_r]. change 255 with (Z.ones 8). rewrite Z.land_ones by lia.
  rewrite Z.mod_small by lia. done.
Qed.

Lemma m240_224 x : 0 ≤ x < 256 → (Z.land x 240 =? 224) = (224 <=? x) && (x <? 240).
Proof. by apply mask_range. Qed.
Lemma m240_16 x : 0 ≤ x < 256 → (Z.land x 240 =? 16) = (16 <=? x) && (x <? 32).
Proof. by apply mask_range. Qed.
Lemma m240_240 x : 0 ≤ x < 256 → (Z.land x 240 =? 240) = (240 <=? x) && (x <? 256).
Proof. by apply mask_range. Qed.
Lemma m192_64 x : 0 ≤ x < 256 → (Z.land x 192 =? 64) = (64 <=? x) && (x <? 128).
Proof. by apply mask_range. Qed.
Lemma m192_128 x : 0 ≤ x < 256 → (Z.land x 192 =? 128) = (128 <=? x) && (x <? 192).
Proof. by apply mask_range. Qed.
Lemma m254_18 x : 0 ≤ x < 256 → (Z.land x 254 =? 18) = (18 <=? x) && (x <? 20).
Proof. by apply mask_range. Qed.
Lemma m254_252 x : 0 ≤ x < 256 → (Z.land x 254 =? 252) = (252 <=? x) && (x <? 254).
Proof. by apply mask_range. Qed.

Lemma decide_cons (a b : Z) l k : bool_decide (a :: l = b :: k) = (b =? a) && bool_decide (l = k).
Proof.
  destruct (Z.eqb_spec b a) as [->|Hne]; simpl.
  - repeat case_bool_decide; congruence.
  - apply bool_decide_eq_false_2. congruence.
Qed.

Definition mask4 (a b c d : Z) : bytes := [a; b; c; d].
Lemma denyExtra_blocks : denyExtra =
  [MkNet [0; 0; 0; 0] [255; 0; 0; 0]; MkNet [100; 64; 0; 0] [255; 192; 0; 0];
   MkNet [192; 0; 0; 0] [255; 255; 255; 0]; MkNet [198; 18; 0; 0] [255; 254; 0; 0];
   MkNet [240; 0; 0; 0] [240; 0; 0; 0]; MkNet [255; 255; 255; 255] [255; 255; 255; 255];
   MkNet ([0; 100; 255; 155] ++ replicate 12 0) (replicate 12 255 ++ replicate 4 0);
   MkNet (1 :: replicate 15 0) (replicate 8 255 ++ replicate 8 0)].
Proof. vm_compute. reflexivity. Qed.

Ltac lists_eq := rewrite !decide_cons; rewrite ?bool_decide_eq_true_2 by done.

Lemma contains4 n0 n1 n2 n3 m0 m1 m2 m3 a b c d :
  Contains (MkNet [n0; n1; n2; n3] [m0; m1; m2; m3]) [a; b; c; d] =
  (Z.land a m0 =? Z.land n0 m0) && ((Z.land b m1 =? Z.land n1 m1) &&
  ((Z.land c m2 =? Z.land n2 m2) && ((Z.land d m3 =? Z.land n3 m3) && true))).
Proof.
  change (Contains _ _) with (bool_decide ([Z.land n0 m0; Z.land n1 m1; Z.land n2 m2; Z.land n3 m3] =
    [Z.land a m0; Z.land b m1; Z.land c m2; Z.land d m3])). by lists_eq.
Qed.

Lemma IsUnspecified4 a b c d : IsUnspecified [a; b; c; d] = (a =? 0) && (b =? 0) && (c =? 0) && (d =? 0).
Proof.
  unfold IsUnspecified, Equal.
  change (To16 [a; b; c; d]) with [0; 0; 0; 0; 0; 0; 0; 0; 0; 0; 255; 255; a; b; c; d].
  change (To16 [0; 0; 0; 0]) with [0; 0; 0; 0; 0; 0; 0; 0; 0; 0; 255; 255; 0; 0; 0; 0].
  change (To16 IPv6unspecified) with [0; 0; 0; 0; 0; 0; 0; 0; 0; 0; 0; 0; 0; 0; 0; 0].
  lists_eq. lia.
Qed.

(** The ranges, octet by octet. *)
Ltac octets := unfold in_range, v4; cbn [fst snd]; lia.
Lemma denied4_bytes a b c d : 0 ≤ a < 256 → 0 ≤ b < 256 → 0 ≤ c < 256 → 0 ≤ d < 256 →
  existsb (in_range (v4 a b c d)) denied4 =
  (a =? 0) || ((a =? 10) || ((a =? 100) && ((64 <=? b) && (b <? 128)) || ((a =? 127) ||
  ((a =? 169) && (b =? 254) || ((a =? 172) && ((16 <=? b) && (b <? 32)) ||
  ((a =? 192) && ((b =? 0) && (c =? 0)) || ((a =? 192) && (b =? 168) ||
  ((a =? 198) && ((18 <=? b) && (b <? 20)) || ((224 <=? a) && (a <? 240) || ((240 <=? a) || false)))))))))).
Proof.
  intros Ha Hb Hc Hd. unfold denied4. cbn [existsb].
  repeat f_equal; octets.
Qed.

Lemma isDenied_v4 a b c d : bytes_ok [a; b; c; d] →
  isDenied [a; b; c; d] = existsb (in_range (v4 a b c d)) denied4.
Proof.
  rewrite !Forall_cons. unfold byte_ok. intros (Ha & Hb & Hc & Hd & _).
  unfold isDenied. rewrite denyExtra_blocks. cbn [existsb]. rewrite !contains4, IsUnspecified4.
  change (Contains (MkNet ([0; 100; 255; 155] ++ _) _) _) with false.
  change (Contains (MkNet (1 :: replicate 15 0) _) _) with false.
  change (IsLoopback [a; b; c; d]) with (a =? 127).
  change (IsLinkLocalUnicast [a; b; c; d]) with ((a =? 169) && (b =? 254)).
  change (IsLinkLocalMulticast [a; b; c; d]) with ((a =? 224) && (b =? 0) && (c =? 0)).
  change (IsInterfaceLocalMulticast [a; b; c; d]) with false.
  change (IsMulticast [a; b; c; d]) with (Z.land a 240 =? 224).
  change (IsPrivate [a; b; c; d]) with
    ((a =? 10) || ((a =? 172) && (Z.land b 240 =? 16)) || ((a =? 192) && (b =? 168))).
  rewrite ?(proj1 (land_byte a Ha)), ?(proj1 (land_byte b Hb)), ?(proj1 (land_byte c Hc)),
    ?(proj1 (land_byte d Hd)), ?Z.land_0_r.
  change (Z.land 0 255) with 0; change (Z.land 100 255) with 100; change (Z.land 192 255) with 192;
    change (Z.land 198 255) with 198; change (Z.land 240 240) with 240; change (Z.land 255 255) with 255;
    change (Z.land 64 192) with 64; change (Z.land 18 254) with 18; change (Z.land 0 0) with 0.
  rewrite m240_224, m240_240, m240_16, m192_64, m254_18 by done.
  rewrite denied4_bytes by done. rewrite bool_decide_eq_false_2 by done. cbn [orb].
  cbn [Z.eqb Pos.eqb andb]. rewrite !andb_true_r.
  assert (Hu : (a =? 0) && (b =? 0) && (c =? 0) && (d =? 0) = true → (a =? 0) = true) by lia.
  assert (Hl : (a =? 224) && (b =? 0) && (c =? 0) = true → (224 <=? a) && (a <? 240) = true) by lia.
  assert (Hr : (240 <=? a) && (a <? 256) = (240 <=? a)) by lia.
  assert (Hx : (a =? 255) && ((b =? 255) && ((c =? 255) && (d =? 255))) = true → (240 <=? a) = true) by lia.
  rewrite Hr. apply eq_true_iff_eq. rewrite !orb_true_iff. tauto.
Qed.

(** *** Sixteen bytes *)

Lemma be_combine_inj a b : length a = length b → bytes_ok a → bytes_ok b →
  be_combine a = be_combine b → a = b.
Proof.
  revert b. induction a as [|x a IH] using rev_ind; intros b Hl Ha Hb.
  { by destruct b. }
  destruct b as [|y b _] using rev_ind; [rewrite length_app in Hl; simpl in Hl; lia|].
  rewrite !length_app in Hl. simpl in Hl. rewrite !Forall_app, !Forall_singleton in *.
  destruct Ha as [Ha Hx], Hb as [Hb Hy]. unfold be_combine. rewrite !foldl_snoc. fold (be_combine a) (be_combine b).
  unfold byte_ok in Hx, Hy. intros H. assert (be_combine a = be_combine b ∧ x = y) as [Hab ->] by lia.
  f_equal. apply IH; [lia|done..].
Qed.

Lemma combine_prefix k ip : bytes_ok ip → length ip = 16%nat → (k ≤ 16)%nat →
  ∃ r, be_combine ip = be_combine (take k ip) * 2 ^ (8 * (16 - Z.of_nat k)) + r ∧
       0 ≤ r < 2 ^ (8 * (16 - Z.of_nat k)).
Proof.
  intros Hb Hl Hk. exists (be_combine (drop k ip)). rewrite <-(take_drop k ip) at 1.
  rewrite be_combine_app. assert (Hz : zlen (drop k ip) = 16 - Z.of_nat k) by (unfold zlen; rewrite length_drop; lia).
  pose proof (be_combine_bound (drop k ip) (Forall_drop _ k _ Hb)) as Hd.
  assert (Hp : 256 ^ zlen (drop k ip) = 2 ^ (8 * (16 - Z.of_nat k))).
  { rewrite Hz. change 256 with (2 ^ 8). by rewrite <-Z.pow_mul_r by lia. }
  rewrite Hp in *. done.
Qed.

Lemma prefix_range k pre ip : bytes_ok ip → length ip = 16%nat → (k ≤ 16)%nat → bytes_ok pre → length pre = k →
  in_range (be_combine ip) (be_combine pre * 2 ^ (8 * (16 - Z.of_nat k)), 8 * (16 - Z.of_nat k)) =
  bool_decide (take k ip = pre).
Proof.
  intros Hb Hl Hk Hp Hlp. destruct (combine_prefix k ip Hb Hl Hk) as (r & Hn & Hr).
  unfold in_range. cbn [fst snd]. rewrite Hn. clear Hn.
  set (M := 2 ^ (8 * (16 - Z.of_nat k))) in *. clearbody M.
  case_bool_decide as Heq.
  - rewrite Heq. apply andb_true_iff. rewrite Z.leb_le, Z.ltb_lt. nia.
  - assert (be_combine (take k ip) ≠ be_combine pre).
    { intros H. apply Heq. apply be_combine_inj; [rewrite length_take; lia|by apply Forall_take|done|done]. }
    apply andb_false_iff. rewrite Z.leb_gt, Z.ltb_ge. nia.
Qed.

Definition prefix_mask (k : nat) : bytes := replicate k 255 ++ replicate (16 - k) 0.
Lemma masked_prefix k ip : bytes_ok ip → length ip = 16%nat → (k ≤ 16)%nat →
  masked ip (prefix_mask k) = take k ip ++ replicate (16 - k) 0.
Proof.
  intros Hb Hl Hk. unfold masked, prefix_mask. rewrite <-(take_drop k ip) at 1.
  rewrite zip_with_app by (rewrite length_take, length_replicate; lia). f_equal.
  - assert (Hz : ∀ l, bytes_ok l → zip_with Z.land l (replicate (length l) 255) = l).
    { induction 1 as [|x l Hx Hf IH]; [done|]. simpl. rewrite IH. by rewrite (proj1 (land_byte x Hx)). }
    specialize (Hz (take k ip) (Forall_take _ k _ Hb)). rewrite length_take in Hz.
    replace (k `min` length ip)%nat with k in Hz by lia. done.
  - assert (Hz : ∀ l : bytes, zip_with Z.land l (replicate (length l) 0) = replicate (length l) 0).
    { induction l as [|x l IH]; [done|]. simpl. by rewrite IH, Z.land_0_r. }
    specialize (Hz (drop k ip)). rewrite length_drop in Hz. by rewrite Hl in Hz.
Qed.

Lemma contains_prefix k nn ip : bytes_ok ip → length ip = 16%nat → To4 ip = None → (k ≤ 16)%nat →
  bytes_ok nn → length nn = 16%nat → To4 nn = None →
  Contains (MkNet nn (prefix_mask k)) ip = bool_decide (take k ip = take k nn).
Proof.
  intros Hb Hl H4 Hk Hbn Hln H4n.
  assert (Hm : length (prefix_mask k) = 16%nat) by (unfold prefix_mask; rewrite length_app, !length_replicate; lia).
  assert (Hnm : networkNumberAndMask (MkNet nn (prefix_mask k)) = Some (nn, prefix_mask k)).
  { unfold networkNumberAndMask. cbn [n_ip n_mask]. rewrite H4n. cbn [default from_option id].
    unfold zlen. rewrite Hln. change (Z.of_nat 16 =? 4) with false. rewrite andb_false_r. by rewrite Hm. }
  unfold Contains. rewrite Hnm, H4. cbn [default from_option id]. unfold zlen. rewrite Hl, Hln, Z.eqb_refl. cbn [andb].
  rewrite !masked_prefix by done. apply bool_decide_ext. split; [|by intros ->].
  intros H. apply app_inj_1 in H as [H _]; [done|]. rewrite !length_take. lia.
Qed.

Lemma contains4_long n m ip : To4 n = Some n → length ip = 16%nat → To4 ip = None →
  Contains (MkNet n m) ip = false.
Proof.
  intros Hn Hl H4. unfold Contains, networkNumberAndMask. cbn [n_ip n_mask]. rewrite Hn, H4.
  cbn [default from_option id]. assert (Hz : zlen n = 4).
  { unfold To4 in Hn. destruct (Z.eqb_spec (zlen n) 4); [done|]. destruct (_ && _) eqn:E; [|done].
    apply andb_true_iff in E as [E _]. injection Hn as Hn. apply (f_equal length) in Hn.
    rewrite length_drop in Hn. unfold zlen in E. lia. }
  rewrite Hz. change (4 =? 4) with true. cbn [orb andb].
  assert (Hi : (zlen ip =? 4) = false) by (unfold zlen; by rewrite Hl).
  assert (Hi0 : (zlen ip =? 0) = false) by (unfold zlen; by rewrite Hl).
  match goal with |- context [if ?b then Some _ else None] => destruct b end;
    [by rewrite ?Hz, Hi|by rewrite Hi0].
Qed.

Lemma range_unique_local ip : bytes_ok ip → length ip = 16%nat →
  in_range (be_combine ip) (252 * 2 ^ 120, 121) = (Z.land (at_ ip 0) 254 =? 252).
Proof.
  intros Hb Hl. destruct (combine_prefix 1 ip Hb Hl ltac:(lia)) as (r & -> & Hr).
  destruct ip as [|a ip]; [done|]. apply Forall_cons in Hb as [Ha _]. unfold at_. cbn [nth].
  rewrite m254_252 by done. change (be_combine (take 1 (a :: ip))) with a.
  change (8 * (16 - Z.of_nat 1)) with 120 in *. unfold in_range. cbn [fst snd].
  change (2 ^ 121) with (2 * 2 ^ 120). set (M := 2 ^ 120) in *. assert (0 < M) by done. clearbody M.
  apply eq_true_iff_eq. rewrite !andb_true_iff, !Z.leb_le, !Z.ltb_lt. split; intros [? ?]; split; nia.
Qed.
Lemma range_multicast ip : bytes_ok ip → length ip = 16%nat →
  in_range (be_combine ip) (255 * 2 ^ 120, 120) = (at_ ip 0 =? 255).
Proof.
  intros Hb Hl. destruct (combine_prefix 1 ip Hb Hl ltac:(lia)) as (r & -> & Hr).
  destruct ip as [|a ip]; [done|]. apply Forall_cons in Hb as [Ha _]. unfold at_. cbn [nth].
  change (be_combine (take 1 (a :: ip))) with a. unfold byte_ok in Ha.
  change (8 * (16 - Z.of_nat 1)) with 120 in *. unfold in_range. cbn [fst snd].
  set (M := 2 ^ 120) in *. assert (0 < M) by done. clearbody M.
  apply eq_true_iff_eq. rewrite !andb_true_iff, !Z.leb_le, !Z.ltb_lt, Z.eqb_eq. split; [intros [? ?]; nia|].
  intros ->. split; nia.
Qed.
Lemma range_link_local ip : bytes_ok ip → length ip = 16%nat →
  in_range (be_combine ip) (be_combine [254; 128] * 2 ^ 112, 118) =
  (at_ ip 0 =? 254) && (Z.land (at_ ip 1) 192 =? 128).
Proof.
  intros Hb Hl. destruct (combine_prefix 2 ip Hb Hl ltac:(lia)) as (r & -> & Hr).
  destruct ip as [|a [|b ip]]; [done..|]. rewrite !Forall_cons in Hb. destruct Hb as (Ha & Hb & _).
  unfold at_. cbn [nth]. rewrite m192_128 by done. unfold byte_ok in *.
  change (be_combine (take 2 (a :: b :: ip))) with (a * 256 + b). change (be_combine [254; 128]) with 65152.
  change (8 * (16 - Z.of_nat 2)) with 112 in *. unfold in_range. cbn [fst snd].
  change (2 ^ 118) with (64 * 2 ^ 112). set (M := 2 ^ 112) in *. assert (0 < M) by done. clearbody M.
  apply eq_true_iff_eq. rewrite !andb_true_iff, !Z.leb_le, !Z.ltb_lt, Z.eqb_eq. split.
  - intros [H1 H2]. assert (65152 ≤ a * 256 + b < 65216) by nia. lia.
  - intros (-> & H1 & H2). split; nia.
Qed.

Ltac listed := apply (bool_decide_unpack _); vm_compute; exact I.
Lemma isDenied_v6 ip : bytes_ok ip → length ip = 16%nat → To4 ip = None →
  isDenied ip = existsb (in_range (be_combine ip)) denied6.
Proof.
  intros Hb Hl H4. unfold isDenied. rewrite denyExtra_blocks. cbn [existsb].
  rewrite !(contains4_long [_; _; _; _]) by done.
  assert (Hz : (zlen ip =? 16) = true) by (unfold zlen; by rewrite Hl).
  assert (Hz4 : (zlen ip =? 4) = false) by (unfold zlen; by rewrite Hl).
  assert (H16 : To16 ip = ip) by (unfold To16; by rewrite Hz4).
  change (replicate 12 255 ++ replicate 4 0) with (prefix_mask 12).
  change (replicate 8 255 ++ replicate 8 0) with (prefix_mask 8).
  rewrite !contains_prefix by (done || lia || (apply (bool_decide_unpack _); vm_compute; exact I)).
  unfold IsLoopback, IsLinkLocalUnicast, IsLinkLocalMulticast, IsInterfaceLocalMulticast, IsMulticast,
    IsUnspecified, IsPrivate, Equal. rewrite H4, H16, Hz. cbn [andb].
  assert (Hm4 : bool_decide (ip = To16 [0; 0; 0; 0]) = false).
  { apply bool_decide_eq_false_2. intros ->. vm_compute in H4. done. }
  rewrite Hm4. cbn [orb]. rewrite bool_decide_eq_false_2 by (by intros ->). cbn [orb].
  change (To16 IPv6loopback) with IPv6loopback. change (To16 IPv6unspecified) with IPv6unspecified.
  unfold denied6. cbn [existsb].
  assert (R0 : in_range (be_combine ip) (0, 0) = bool_decide (ip = IPv6unspecified)).
  { etrans; [apply (prefix_range 16 IPv6unspecified ip Hb Hl); [done|listed|done]|]. by rewrite take_ge by lia. }
  assert (R1 : in_range (be_combine ip) (1, 0) = bool_decide (ip = IPv6loopback)).
  { etrans; [apply (prefix_range 16 IPv6loopback ip Hb Hl); [done|listed|done]|]. by rewrite take_ge by lia. }
  assert (R2 : in_range (be_combine ip) (be_combine [0; 100; 255; 155] * 2 ^ 96, 32) =
               bool_decide (take 12 ip = [0; 100; 255; 155] ++ replicate 8 0)).
  { apply (prefix_range 12 ([0; 100; 255; 155] ++ replicate 8 0) ip Hb Hl); [lia|listed|done]. }
  assert (R3 : in_range (be_combine ip) (be_combine [1; 0] * 2 ^ 112, 64) =
               bool_decide (take 8 ip = [1; 0] ++ replicate 6 0)).
  { apply (prefix_range 8 ([1; 0] ++ replicate 6 0) ip Hb Hl); [lia|listed|done]. }
  rewrite R0, R1, R2, R3, range_unique_local, range_link_local, range_multicast by done.
  change (take 12 ([0; 100; 255; 155] ++ replicate 12 0)) with ([0; 100; 255; 155] ++ replicate 8 0).
  change (take 8 (1 :: replicate 15 0)) with ([1; 0] ++ replicate 6 0).
  apply eq_true_iff_eq. rewrite !orb_true_iff.
  assert (Ha : (at_ ip 0 =? 255) && (Z.land (at_ ip 1) 15 =? 2) = true → (at_ ip 0 =? 255) = true) by (intros [? _]%andb_true_iff; done).
  assert (Hc : (at_ ip 0 =? 255) && (Z.land (at_ ip 1) 15 =? 1) = true → (at_ ip 0 =? 255) = true) by (intros [? _]%andb_true_iff; done).
  tauto.
Qed.

Lemma isDenied_mapped a b c d : isDenied (v4InV6Prefix ++ [a; b; c; d]) = isDenied [a; b; c; d].
Proof.
  assert (Hm : To4 (v4InV6Prefix ++ [a; b; c; d]) = Some [a; b; c; d]) by reflexivity.
  assert (Hs : To4 [a; b; c; d] = Some [a; b; c; d]) by reflexivity.
  assert (He : To16 (v4InV6Prefix ++ [a; b; c; d]) = To16 [a; b; c; d]) by reflexivity.
  unfold isDenied, IsLoopback, IsLinkLocalUnicast, IsLinkLocalMulticast, IsMulticast, IsUnspecified, IsPrivate,
    Contains, Equal. rewrite Hm, Hs, He.
  change (IsInterfaceLocalMulticast (v4InV6Prefix ++ [a; b; c; d])) with false.
  change (IsInterfaceLocalMulticast [a; b; c; d]) with false.
  rewrite !bool_decide_eq_false_2 by done. done.
Qed.

Lemma To4_cases ip ip4 : valid_ip ip → To4 ip = Some ip4 → bytes_ok ip4 ∧ ∃ a b c d, ip4 = [a; b; c; d] ∧
  (ip = ip4 ∨ ip = v4InV6Prefix ++ ip4).
Proof.
  intros [Hb Hl] H4. pose proof (NetLaws.To4_ok _ _ Hb H4) as Hb4. split; [done|].
  destruct (NetLaws.To4_Some _ _ H4) as [Hl4 H16].
  destruct ip4 as [|a [|b [|c [|d [|]]]]]; try done. exists a, b, c, d. split; [done|].
  unfold To16 in H16. unfold To4 in H4. destruct (zlen ip =? 4); [left; by injection H4|by right].
Qed.

(** The SSRF deny-set, by address: an IPv4 address (also in its IPv4-mapped
    form) is denied exactly in the this-network, private, CGNAT, loopback,
    link-local (the metadata service), IETF, benchmarking, multicast and
    reserved ranges; an IPv6 address exactly if it is unspecified, loopback,
    unique-local, link-local, multicast, NAT64 or discard-only. The nil address
    is denied. *)
Theorem isDenied_exact ip (H : valid_ip ip) :
  isDenied [] = true ∧
  isDenied ip = match To4 ip with
                | Some ip4 => existsb (in_range (be_combine ip4)) denied4
                | None => existsb (in_range (be_combine ip)) denied6
                end.
Proof.
  split; [done|]. destruct (To4 ip) as [ip4|] eqn:H4.
  - destruct (To4_cases _ _ H H4) as (Hb & a & b & c & d & -> & [-> | ->]);
      rewrite ?isDenied_mapped; by apply isDenied_v4.
  - destruct H as [Hb [Hl|Hl]]; [unfold To4, zlen in H4; by rewrite Hl in H4|]. by apply isDenied_v6.
Qed.

Lemma isDenied_exact_witness : valid_ip [169; 254; 169; 254] ∧
  isDenied [169; 254; 169; 254] = true ∧ isDenied [8; 8; 8; 8] = false.
Proof.
  assert (H1 : valid_ip [169; 254; 169; 254]) by listed. assert (H2 : valid_ip [8; 8; 8; 8]) by listed.
  split; [done|]. destruct (isDenied_exact _ H1) as [_ ->], (isDenied_exact _ H2) as [_ ->].
  split; vm_compute; reflexivity.
Defined.

(** ** The proxy *)

(** What vets a dial: its credential is registered with a list that names the
    target; the address is the allowed literal itself, or one the lookup gave
    that is not denied; and the text dialled denotes address and port. *)
Record vetted (o : outside) (g : registry) (d : dialled) : Prop := {
  v_cred : d_cred d ≠ ""%string;
  v_allow : ∃ allow, g !! d_cred d = Some allow ∧ hostAllowed (d_host d) (d_port d) allow = true;
  v_ip : ParseIP (d_host d) = Some (d_ip d) ∨
         (ParseIP (d_host d) = None ∧ isDenied (d_ip d) = false ∧
          ∃ ips, o_lookup o (d_host d) = Some ips ∧ d_ip d ∈ ips);
  v_addr : valid_ip (d_ip d) → SplitHostPort (d_addr d) = Some (IP_String (d_ip d), d_port d) ∧
           ParseIP (IP_String (d_ip d)) = Some (To16 (d_ip d)) }.

Lemma target_port_clean r : clean (bytes_of_string (target r).2).
Proof.
  unfold target. set (hp := if _ && _ then _ else _). clearbody hp.
  destruct (SplitHostPort hp) as [[h p]|] eqn:Hs.
  - unfold SplitHostPort in Hs. destruct (split_host_port _) as [[h' p']|] eqn:Hsp; [|done].
    injection Hs as _ <-. cbn [snd]. pose proof (NetLaws.split_port_clean _ _ _ Hsp) as (H1 & H2 & H3).
    assert (Hp : bytes_ok p').
    { destruct (NetLaws.split_port_suffix _ _ _ Hsp) as [x Hx].
      pose proof (bytes_of_string_ok hp) as Hb. rewrite Hx in Hb. by apply Forall_app in Hb as [_ ?]. }
    by rewrite bytes_of_string_of_bytes.
  - cbn [snd]. destruct (bool_decide _); apply (bool_decide_unpack _); vm_compute; exact I.
Qed.

Lemma find_first_elem {A} (p : A → bool) l x : find_first p l = Some x → x ∈ l ∧ p x = true.
Proof. apply find_first_Some. Qed.

Lemma ServeHTTP_vetted o g r d : d ∈ (ServeHTTP o g r).1 → vetted o g d ∧ (ServeHTTP o g r).1 = [d].
Proof.
  unfold ServeHTTP. destruct (g !! credOf r) as [allow|] eqn:Hg; [|by intros ?%not_elem_of_nil].
  case_bool_decide as Hc; [by intros ?%not_elem_of_nil|].
  pose proof (target_port_clean r) as Hport. destruct (target r) as [host port] eqn:Ht. cbn [snd] in Hport.
  destruct (decide host port allow (o_lookup o)) as [ip|] eqn:Hd; [|by intros ?%not_elem_of_nil].
  set (d0 := MkDial _ _ _ _ _). assert (Hv : vetted o g d0).
  { unfold decide in Hd. destruct (hostAllowed host port allow) eqn:Ha; [|done]. cbn [negb] in Hd.
    constructor; cbn.
    - done.
    - by exists allow.
    - destruct (ParseIP host) as [ip'|]; [left; congruence|]. right. split; [done|].
      destruct (o_lookup o host) as [ips|]; [|done]. destruct (find_first _ ips) as [x|] eqn:Hf; [|done].
      injection Hd as ->. apply find_first_elem in Hf as [Hin Hn]. split; [by apply negb_true_iff|]. by exists ips.
    - intros Hip. split; [by apply NetLaws.pinned_denotes|by apply NetLaws.address_roundtrip]. }
  case_bool_decide; [cbn; by intros ->%list_elem_of_singleton|].
  destruct (doHTTP o r _) as [[] a]; cbn; [by intros ->%list_elem_of_singleton|by intros ?%not_elem_of_nil].
Qed.

Lemma ServeHTTP_dial o g r d : d ∈ (ServeHTTP o g r).1 → credOf r = d_cred d ∧ target r = (d_host d, d_port d).
Proof.
  unfold ServeHTTP. destruct (g !! credOf r) as [allow|] eqn:Hg; [|by intros ?%not_elem_of_nil].
  case_bool_decide as Hc; [by intros ?%not_elem_of_nil|].
  destruct (target r) as [host port] eqn:Ht.
  destruct (decide host port allow (o_lookup o)) as [ip|] eqn:Hd; [|by intros ?%not_elem_of_nil].
  case_bool_decide; [cbn; by intros ->%list_elem_of_singleton|].
  destruct (doHTTP o r _) as [[] a]; cbn; [by intros ->%list_elem_of_singleton|by intros ?%not_elem_of_nil].
Qed.

Lemma ServeHTTP_once o g r : (length (ServeHTTP o g r).1 ≤ 1)%nat.
Proof.
  destruct (ServeHTTP o g r).1 as [|d l] eqn:H; [cbn; lia|].
  assert (Hd : d ∈ (ServeHTTP o g r).1) by (rewrite H; left).
  destruct (ServeHTTP_vetted _ _ _ _ Hd) as [_ Hx]. rewrite Hx in H. injection H as <-; cbn; lia.
Qed.

(** ** The registry over a run *)

(** The credential a control request puts or takes, when it is accepted. *)
Definition names (c : string) (x : step) : bool :=
  match x with
  | Control (Register (Some (c', _))) | Control (Unregister (Some c')) => bool_decide (c' = c)
  | _ => false
  end.

(** [c] was registered with [allow], and nothing since named it. *)
Definition registered (c : string) (allow : list string) (xs : list step) : Prop :=
  ∃ pre post, xs = pre ++ Control (Register (Some (c, allow))) :: post ∧
              forallb (λ x, negb (names c x)) post = true.

Lemma run_snoc xs x s : run (xs ++ [x]) s = run_step x (run xs s).
Proof. unfold run. by rewrite foldl_app. Qed.

Lemma registered_snoc c allow xs x :
  registered c allow xs → names c x = false → registered c allow (xs ++ [x]).
Proof.
  intros (pre & post & -> & Hp) Hx. exists pre, (post ++ [x]). split; [by rewrite <- app_assoc|].
  rewrite forallb_app, Hp. cbn. by rewrite Hx.
Qed.

Abbreviation init := (MkState ∅ []).

Lemma control_registered x xs c allow :
  (∀ a, reg (run xs init) !! c = Some a → registered c a xs) → c ≠ ""%string →
  reg (run_step x (run xs init)) !! c = Some allow → registered c allow (xs ++ [x]).
Proof.
  intros IH Hc. assert (Hnew : names c x = false → reg (run xs init) !! c = Some allow → registered c allow (xs ++ [x])).
  { intros Hn Hl. apply registered_snoc; auto. }
  destruct x as [[[[c' al]|]|[c'|]]|o r]; try (apply Hnew; done);
    cbn -[run] in *; (destruct (bool_decide_reflect (c' = ""%string)) as [He|He]); cbn -[run];
    try (apply Hnew; apply bool_decide_eq_false_2; congruence);
    (destruct (base.decide (c' = c)) as [->|Hne];
      [|rewrite ?lookup_insert_ne, ?lookup_delete_ne by done; apply Hnew; by apply bool_decide_eq_false_2]).
  - rewrite lookup_insert_eq. intros [= ->]. exists xs, []. done.
  - by rewrite lookup_delete_eq.
Qed.

Lemma run_registered xs c allow : c ≠ ""%string → reg (run xs init) !! c = Some allow → registered c allow xs.
Proof.
  intros Hc. revert allow. induction xs as [|x xs IH] using rev_ind; intros allow; [by cbn|].
  rewrite run_snoc. by apply control_registered.
Qed.

Definition is_proxy (x : step) : bool := if x is Proxy _ _ then true else false.

(** C9. Whatever requests reach the proxy's two sockets, in whatever order: each
    dial was made by one proxied request, for a non-empty credential that the
    control socket had registered, and not unregistered or replaced since, with
    a list naming the target; the address dialled is the literal on that list or
    an answer of the lookup outside the deny-set, and the text dialled denotes
    exactly that address and the target's port. A request dials at most once. *)
Theorem egress_contained xs :
  (∀ g d, (g, d) ∈ dials (run xs init) →
     ∃ pre o r post allow, xs = pre ++ Proxy o r :: post ∧ (ServeHTTP o g r).1 = [d] ∧
       registered (d_cred d) allow pre ∧ hostAllowed (d_host d) (d_port d) allow = true ∧
       credOf r = d_cred d ∧ target r = (d_host d, d_port d) ∧ vetted o g d) ∧
  (length (dials (run xs init)) ≤ length (List.filter is_proxy xs))%nat.
Proof.
  induction xs as [|x xs [IH1 IH2]] using rev_ind; [split; [by intros ?? ?%not_elem_of_nil|done]|].
  rewrite run_snoc. rewrite List.filter_app, length_app. destruct x as [c|o r]; cbn -[run].
  - split; [|lia]. intros g d H. destruct (IH1 g d H) as (pre & o & r & post & al & -> & Hx).
    exists pre, o, r, (post ++ [Control c]), al. by rewrite <- app_assoc.
  - rewrite length_app, length_fmap. split.
    + intros g d [H|H]%elem_of_app.
      * destruct (IH1 g d H) as (pre & o' & r' & post & al & -> & Hx).
        exists pre, o', r', (post ++ [Proxy o r]), al. by rewrite <- app_assoc.
      * apply list_elem_of_fmap in H as (d' & [= -> ->] & Hd).
        destruct (ServeHTTP_vetted _ _ _ _ Hd) as [Hv H1]. destruct (v_allow _ _ _ Hv) as (al & Hg & Ha).
        destruct (ServeHTTP_dial _ _ _ _ Hd) as [Hc Ht].
        exists xs, o, r, [], al. split_and!; try done. apply run_registered; [by apply Hv|done].
    + pose proof (ServeHTTP_once o (reg (run xs init)) r). cbn. lia.
Qed.

End EgressLaws.
