(* ===== verification/Secrets.v ===== *)
(** * Sealed secrets ([internal/sealbox], [internal/secrets], the secret routes,
    [-secret-decrypt])

    AES-256-GCM is an interface with its laws; a fresh nonce and the time are
    arguments. The table [secrets] is a map by name, and every statement can
    fail. The rotation sweep runs statement by statement, with the requests of
    others between its rows. *)

From S2P Require Import Prelude GoLib Db Credentials AdminGate.
Import GoLib.
Import AdminGate(request, reply, json, JNull, JBool, JNum, JStr, JTime, JList, JObj, WriteOK, WriteErr, TrimSpace, std_padded_decode).

(** Key, nonce, text, associated data. *)
Class Aead := {
  gcm_seal : bytes → bytes → bytes → bytes → bytes;
  gcm_open : bytes → bytes → bytes → bytes → option bytes }.

(** Decryption inverts encryption; a ciphertext is as long as its text and the
    tag, in bytes. *)
Class AeadLaws (A : Aead) : Prop := {
  open_seal : ∀ k n p a, gcm_open k n (gcm_seal k n p a) a = Some p;
  seal_length : ∀ k n p a, zlen (gcm_seal k n p a) = zlen p + 16;
  seal_bytes : ∀ k n p a, bytes_ok k → bytes_ok n → bytes_ok p → bytes_ok a → bytes_ok (gcm_seal k n p a) }.

Module Secrets.

(** ** The box ([sealbox]) *)

Definition KeySize : Z := 32.
Definition NonceSize : Z := 12.
Definition aadPrefix : string := "picpak:secret:v1:".
Definition aad (name : string) : bytes := bytes_of_string (aadPrefix ++ name).

Inductive key_err := KeyEmpty | KeyNotHex (label : string) | KeyLength (label : string) (got : Z).
Definition EnvKey : string := "SECRETS_KEY".
Definition EnvKeyPrev : string := "SECRETS_KEY_PREV".

Definition parseKey (label hexKey : string) : result key_err bytes :=
  match hex_decode (TrimSpace (bytes_of_string hexKey)) with
  | None => Err (KeyNotHex label)
  | Some raw => if negb (zlen raw =? KeySize) then Err (KeyLength label (zlen raw)) else Ok raw
  end.

Record Box := MkBox { current : bytes; prev : option bytes }.
Definition blank (s : string) : bool := bool_decide (TrimSpace (bytes_of_string s) = []).

Definition New (currentHex prevHex : string) : result key_err Box :=
  if blank currentHex then Err KeyEmpty
  else match parseKey EnvKey currentHex with
  | Err e => Err e
  | Ok k =>
      if blank prevHex then Ok (MkBox k None)
      else match parseKey EnvKeyPrev prevHex with
           | Err e => Err e
           | Ok p => Ok (MkBox k (Some p))
           end
  end.
Definition FromEnv (env : string → string) : result key_err Box := New (env EnvKey) (env EnvKeyPrev).
Definition HasPrev (b : Box) : bool := bool_decide (is_Some (prev b)).

(** [EPanic]: [cipher.AEAD] panics on a nonce of another length. *)
Inductive err := ENameRequired | EPlaintextEmpty | EOpen | EPanic | ENotFound | EDb | ECheck | ERange.
#[global] Instance err_eq_dec : EqDecision err.
Proof. solve_decision. Defined.

(** A row of [secrets], by its name. *)
Record row := MkRow {
  r_ciphertext : bytes; r_nonce : bytes; r_version : Z; r_created : Z; r_rotated : option Z }.
Abbreviation table := (gmap string row).
Abbreviation MS := (M table Empty_set).

Section Aead.
Context {A : Aead}.

Definition Seal (b : Box) (fresh : bytes) (name : string) (plaintext : bytes) : result err (bytes * bytes) :=
  if bool_decide (name = ""%string) then Err ENameRequired
  else if bool_decide (plaintext = []) then Err EPlaintextEmpty
  else Ok (fresh, gcm_seal (current b) fresh plaintext (aad name)).

(** The flag: opened with the previous key. *)
Definition Open (b : Box) (name : string) (nonce ciphertext : bytes) : result err (bytes * bool) :=
  if bool_decide (name = ""%string) then Err ENameRequired
  else if negb (zlen nonce =? NonceSize) then Err EPanic
  else match gcm_open (current b) nonce ciphertext (aad name) with
  | Some p => Ok (p, false)
  | None =>
      match prev b with
      | None => Err EOpen
      | Some k => match gcm_open k nonce ciphertext (aad name) with
                  | Some p => Ok (p, true)
                  | None => Err EOpen
                  end
      end
  end.

(** [strings.SplitN(s, sep, 3)] of one byte: all after the second separator is
    the third field. *)
Definition splitN3 (s : bytes) (sep : Z) : list bytes :=
  match cut s sep with
  | None => [s]
  | Some (x, s) => match cut s sep with
                   | None => [x; s]
                   | Some (y, s) => [x; y; s]
                   end
  end.

Inductive line_err := LineEmpty | LineMalformed | LineNonce | LineCiphertext.
Definition DecodeLine (input : bytes) : result line_err (bytes * bytes * string) :=
  let clean := List.filter not_newline (TrimSpace input) in
  if bool_decide (clean = []) then Err LineEmpty
  else match splitN3 clean 58 with
  | [n; c; name] =>
      if bool_decide (n = []) || bool_decide (c = []) || bool_decide (name = []) then Err LineMalformed
      else match std_padded_decode n with
      | None => Err LineNonce
      | Some n => match std_padded_decode c with
                  | None => Err LineCiphertext
                  | Some c => Ok (n, c, string_of_bytes name)
                  end
      end
  | _ => Err LineMalformed
  end.

(** ** The table ([secrets]) *)

Definition name_head (c : Z) : bool := ((97 <=? c) && (c <=? 122)) || is_digit c.
Definition name_char (c : Z) : bool := name_head c || (c =? 46) || (c =? 95) || (c =? 45).
(** [^[a-z0-9][a-z0-9._-]{0,127}$] *)
Definition ValidSecretName (name : string) : bool :=
  match bytes_of_string name with
  | c :: s => name_head c && forallb name_char s && (zlen s <=? 127)
  | [] => false
  end.

Record Meta := MkMeta { MName : string; KeyVersion : Z; CreatedAt : Z; RotatedAt : option Z }.
Definition meta_of (name : string) (r : row) : Meta := MkMeta name (r_version r) (r_created r) (r_rotated r).

(** The upsert, with the CHECK on the nonce; [created] is [xmax = 0]. *)
Definition upsert (now : Z) (name : string) (ct nonce : bytes) (s : table) : result err bool * table :=
  if negb (zlen nonce =? NonceSize) then (Err ECheck, s)
  else match s !! name with
  | None => (Ok true, <[name := MkRow ct nonce 1 now None]> s)
  | Some r => (Ok false, <[name := MkRow ct nonce (r_version r) (r_created r) (Some now)]> s)
  end.

Definition PutSecret (now : Z) (b : Box) (fresh : bytes) (name : string) (value : bytes) : M table err bool :=
  match Seal b fresh name value with
  | Err e => throw e
  | Ok (nonce, ct) => stmt EDb (upsert now name ct nonce)
  end.

Section Collation.
Context (text_le : string → string → bool).
Definition meta_le (a b : Meta) : Prop := text_le (MName a) (MName b) = true.
#[global] Instance meta_le_dec a b : Decision (meta_le a b).
Proof. unfold meta_le. apply _. Defined.
Definition ListMeta : M table err (list Meta) :=
  query EDb (λ s, Ok (merge_sort meta_le ((λ kv : string * row, meta_of kv.1 kv.2) <$> map_to_list s))).
End Collation.

Definition GetMeta (name : string) : M table err Meta :=
  query EDb (λ s, match s !! name with Some r => Ok (meta_of name r) | None => Err ENotFound end).

Definition DeleteSecret (name : string) : M table err bool :=
  stmt EDb (λ s, (Ok (bool_decide (is_Some (s !! name))), delete name s)).

(** Only a missing row is "not found". *)
Definition ResolveSecret (b : Box) (name : string) : M table err bytes :=
  r ← query EDb (λ s, match s !! name with Some r => Ok r | None => Err ENotFound end);
  match Open b name (r_nonce r) (r_ciphertext r) with
  | Ok (plaintext, _) => mret plaintext
  | Err e => throw e
  end.

(** ** The rotation sweep *)

(** What another request does to the table between two statements of the sweep. *)
Inductive other := OPut (now : Z) (fresh : bytes) (name : string) (value : bytes) | ODelete (name : string).
Definition other_step (b : Box) (s : table) (o : other) : table :=
  match o with
  | OPut now fresh name value => (PutSecret now b fresh name value s []).1.2
  | ODelete name => (DeleteSecret name s []).1.2
  end.

(** The guarded update: the number of rows affected. [key_version] is an INT. *)
Definition reseal (name : string) (nct nn ct : bytes) (s : table) : result err Z * table :=
  match s !! name with
  | Some r =>
      if negb (bool_decide (r_ciphertext r = ct)) then (Ok 0, s)
      else if negb (zlen nn =? NonceSize) then (Err ECheck, s)
      else if 2 ^ 31 - 1 <? r_version r + 1 then (Err ERange, s)
      else (Ok 1, <[name := MkRow nct nn (r_version r + 1) (r_created r) (r_rotated r)]> s)
  | None => (Ok 0, s)
  end.

Section Sweep.
(** The nonce drawn for a row, and what others did just before its turn. *)
Context (fresh : string → bytes) (others : string → list other).

Definition interfere (b : Box) (name : string) : M table err unit := λ s fs,
  (Ok tt, foldl (other_step b) s (others name), fs).

(** One row: its fault is collected, [Kept] needs nothing or was rewritten
    meanwhile. *)
Inductive row_outcome := Stranded | Kept | Resealed.
Definition sweep_row (b : Box) (name : string) (r : row) : M table err row_outcome :=
  _ ← interfere b name;
  match Open b name (r_nonce r) (r_ciphertext r) with
  | Err EPanic => throw EPanic
  | Err _ => mret Stranded
  | Ok (_, false) => mret Kept
  | Ok (plaintext, true) =>
      match Seal b (fresh name) name plaintext with
      | Err _ => mret Stranded
      | Ok (nn, nct) =>
          n ← attempt (stmt EDb (reseal name nct nn (r_ciphertext r)));
          mret (match n with Err _ => Stranded | Ok n => if n =? 1 then Resealed else Kept end)
      end
  end.
Fixpoint sweep_rows (b : Box) (rows : list (string * row)) (reSealed : Z) (stranded : list string)
    : M table err (Z * list string) :=
  match rows with
  | [] => mret (reSealed, stranded)
  | (name, r) :: rows =>
      o ← sweep_row b name r;
      match o with
      | Stranded => sweep_rows b rows reSealed (stranded ++ [name])
      | Kept => sweep_rows b rows reSealed stranded
      | Resealed => sweep_rows b rows (reSealed + 1) stranded
      end
  end.

(** [sweep_failed]: an error is returned; the caller keeps the previous key. *)
Record swept := MkSwept { reSealed : Z; stranded : list string; sweep_failed : bool }.
Definition Sweep (b : Box) : M table err swept :=
  if negb (HasPrev b) then mret (MkSwept 0 [] false)
  else
    all ← attempt (query EDb (λ s, Ok (map_to_list s)));
    match all with
    | Err _ => mret (MkSwept 0 [] true)
    | Ok all =>
        '(n, st) ← sweep_rows b all 0 [];
        mret (MkSwept n st (negb (bool_decide (st = []))))
    end.
End Sweep.

(** ** Break-glass ([-secret-decrypt]) *)

Inductive decrypt_err := DLine (e : line_err) | DOpen (e : err).
Definition decryptStdin (b : Box) (input : bytes) : result decrypt_err bytes :=
  match DecodeLine input with
  | Err e => Err (DLine e)
  | Ok (nonce, ct, name) =>
      match Open b name nonce ct with
      | Ok (plaintext, _) => Ok plaintext
      | Err e => Err (DOpen e)
      end
  end.

(** Exit code and standard output; [None] is a panic (exit code 2). *)
Definition runSecretDecrypt (env : string → string) (stdin : option bytes) (isTTY : bool) : Z * bytes :=
  match FromEnv env with
  | Err _ => (1, [])
  | Ok b =>
      match stdin with
      | None => (1, [])
      | Some input =>
          if negb isTTY then (3, [])
          else match decryptStdin b input with
          | Ok plaintext => (0, plaintext ++ [10])
          | Err (DOpen EPanic) => (2, [])
          | Err _ => (1, [])
          end
      end
  end.

(** ** The routes ([secrets_api.go]) *)

Definition secretValueMax : Z := 64 * 1024.
Definition call {T} (m : M table err T) : MS (result err T) := λ s fs,
  let '(r, s', fs') := m s fs in (Ok r, s', fs').
Definition fail (r : request) (status : Z) (code msg : string) : MS reply := mret (WriteErr r [] status code msg).

Definition meta_json (m : Meta) : json :=
  JObj [("name", JStr (MName m)); ("key_version", JNum (KeyVersion m)); ("created_at", JTime (CreatedAt m));
        ("rotated_at", match RotatedAt m with Some t => JTime t | None => JNull end)]%string.

(** [body]: the decoded value, [None] where the body does not decode or is too
    long. *)
Definition put (now : Z) (b : Box) (fresh : bytes) (r : request) (name : string) (body : option string) : MS reply :=
  if negb (ValidSecretName name)
  then fail r 422 "invalid_name" "name must match ^[a-z0-9][a-z0-9._-]{0,127}$"
  else match body with
  | None => fail r 400 "bad_request" "malformed JSON body"
  | Some value =>
      let v := bytes_of_string value in
      if bool_decide (value = ""%string) then fail r 422 "empty_value" "value must be non-empty"
      else if secretValueMax <? zlen v then fail r 413 "value_too_large" "value exceeds the size cap"
      else
        created ← call (PutSecret now b fresh name v);
        match created with
        | Err _ => fail r 500 "internal" "secret write failed"
        | Ok created =>
            mret (WriteOK r [] [("name", JStr name);
                                ("action", JStr (if created : bool then "created" else "rotated"))]%string)
        end
  end.

Definition list_secrets (text_le : string → string → bool) (r : request) : MS reply :=
  metas ← call (ListMeta text_le);
  match metas with
  | Err _ => fail r 500 "internal" "secret list failed"
  | Ok metas => mret (WriteOK r [] [("secrets"%string, JList (meta_json <$> metas))])
  end.

Definition get (r : request) (name : string) : MS reply :=
  m ← call (GetMeta name);
  match m with
  | Err ENotFound => fail r 404 "not_found" "no such secret"
  | Err _ => fail r 500 "internal" "secret lookup failed"
  | Ok m => mret (WriteOK r [] [("secret"%string, meta_json m)])
  end.

Definition del (r : request) (name : string) : MS reply :=
  found ← call (DeleteSecret name);
  match found with
  | Err _ => fail r 500 "internal" "secret delete failed"
  | Ok found =>
      if negb found then fail r 404 "not_found" "no such secret"
      else mret (WriteOK r [] [("name"%string, JStr name)])
  end.

Inductive route :=
| RPut (fresh : bytes) (name : string) (body : option string)
| RList | RGet (name : string) | RDelete (name : string).
Definition serve (text_le : string → string → bool) (b : Box) (now : Z) (r : request) (x : route) : MS reply :=
  match x with
  | RPut fresh name body => put now b fresh r name body
  | RList => list_secrets text_le r
  | RGet name => get r name
  | RDelete name => del r name
  end.
End Aead.

End Secrets.

(** * What the secret store promises

    A value put is recovered, by resolution and at break-glass, also after the
    key has been rotated; the routes do what they answer and show no material;
    the rotation sweep changes no value, under faults and between the requests
    of others. *)

From S2P Require Import Prelude GoLib Db Credentials CredentialLaws AdminGate Net DeviceHttp.
Import GoLib Secrets.
Import AdminGate(request, reply, TrimSpace, std_padded_decode, drop_last, skip_all_space, trim_right_space, all_space).

Module SecretLaws.

(** ** Base64 with padding, broken into lines *)

Definition std_padded_encode (b : bytes) : bytes :=
  Credentials.std_encode b ++
  match (zlen b mod 3) with 1 => [61; 61] | 2 => [61] | _ => [] end.

Lemma std_encode_length b : zlen (Credentials.std_encode b) mod 4 =
  match zlen b mod 3 with 1 => 2 | 2 => 3 | _ => 0 end.
Proof.
  unfold Credentials.std_encode, zlen. rewrite length_fmap.
  induction b as [|x|x y|x y z b IH] using list_ind3; [done..|]. cbn [b64_encode length].
  replace (Z.of_nat (S (S (S (S (length (b64_encode b))))))) with (Z.of_nat (length (b64_encode b)) + 1 * 4) by lia.
  replace (Z.of_nat (S (S (S (length b))))) with (Z.of_nat (length b) + 1 * 3) by lia.
  by rewrite !Z.mod_add by lia.
Qed.

Definition std_alphabet (c : Z) : Prop :=
  65 ≤ c ≤ 90 ∨ 97 ≤ c ≤ 122 ∨ 48 ≤ c ≤ 57 ∨ c = 43 ∨ c = 47.
Lemma std_encode_alphabet b : bytes_ok b → Forall std_alphabet (Credentials.std_encode b).
Proof.
  intros Hb. apply Forall_fmap. eapply Forall_impl; [by apply b64_encode_alphabet|].
  unfold b64_alphabet, std_alphabet, Credentials.std_char, compose. intros c Hc. zcase; lia.
Qed.

Lemma filter_id (p : Z → bool) l : Forall (λ c, p c = true) l → List.filter p l = l.
Proof. induction 1 as [|c l H _ IH]; [done|]. cbn. by rewrite H, IH. Qed.

Lemma last_alphabet l c : Forall std_alphabet l → last l = Some c → c ≠ 61.
Proof.
  intros Hl Hc. apply last_Some in Hc as [k ->]. apply Forall_app in Hl as [_ Hl].
  apply Forall_cons in Hl as [Hl _]. unfold std_alphabet in Hl. lia.
Qed.

(** A case on the padding character, elsewhere. *)
Lemma not_pad {A} c (x y : A) : c ≠ 61 → match c with 61 => x | _ => y end = y.
Proof. intros Hc. destruct c as [|c|c]; try done. repeat (destruct c as [c|c|]; try done). Qed.

Lemma std_padded_roundtrip b : bytes_ok b → std_padded_decode (std_padded_encode b) = Some b.
Proof.
  intros Hb. pose proof (std_encode_length b) as Hl. pose proof (std_encode_alphabet b Hb) as Ha.
  pose proof (CredentialLaws.std_decode_encode b Hb) as Hd.
  unfold std_padded_decode, std_padded_encode. set (e := Credentials.std_encode b) in *. clearbody e.
  assert (H0 : 0 ≤ zlen b mod 3 < 3) by (apply Z.mod_pos_bound; lia).
  set (pad := match zlen b mod 3 with 1 => [61; 61] | 2 => [61] | _ => [] end).
  assert (Hpad : pad = [] ∧ zlen e mod 4 = 0 ∨ pad = [61] ∧ zlen e mod 4 = 3 ∨ pad = [61; 61] ∧ zlen e mod 4 = 2).
  { unfold pad. rewrite Hl. assert (H3 : zlen b mod 3 = 0 ∨ zlen b mod 3 = 1 ∨ zlen b mod 3 = 2) by lia.
    destruct H3 as [-> | [-> | ->]]; auto. }
  clearbody pad. rewrite (filter_id not_newline).
  2: { apply Forall_app. split.
       - eapply Forall_impl; [exact Ha|]. unfold std_alphabet, not_newline. intros c Hc. zsolve.
       - destruct Hpad as [[-> _]|[[-> _]|[-> _]]]; repeat constructor. }
  destruct Hpad as [[-> Hm]|[[-> Hm]|[-> Hm]]].
  - rewrite app_nil_r, Hm. cbn [negb Z.eqb]. destruct (last e) as [c|] eqn:Hc; [|done].
    by rewrite not_pad by eauto using last_alphabet.
  - rewrite zlen_app. change (zlen [61]) with 1. rewrite <- Z.add_mod_idemp_l, Hm by lia. cbn -[last].
    rewrite last_snoc. unfold drop_last. rewrite length_app. cbn [length].
    replace (length e + 1 - 1)%nat with (length e) by lia. rewrite take_app_length.
    destruct (last e) as [c|] eqn:Hc; [|done].
    by rewrite not_pad by eauto using last_alphabet.
  - rewrite zlen_app. change (zlen [61; 61]) with 2. rewrite <- Z.add_mod_idemp_l, Hm by lia. cbn -[last].
    change (e ++ [61; 61]) with (e ++ ([61] ++ [61])). rewrite app_assoc, last_snoc. unfold drop_last.
    rewrite !length_app. cbn [length]. replace (length e + 1 + 1 - 1)%nat with (length (e ++ [61])) by (rewrite length_app; cbn; lia).
    rewrite take_app_length, last_snoc, length_app. cbn [length].
    replace (length e + 1 - 1)%nat with (length e) by lia. by rewrite take_app_length.
Qed.

(** The record of a row, and a text that holds it with line breaks anywhere. *)
Definition record (name : string) (nonce ct : bytes) : bytes :=
  std_padded_encode nonce ++ 58 :: std_padded_encode ct ++ 58 :: bytes_of_string name.

Definition visible (c : Z) : Prop := 33 ≤ c < 127.

Lemma space_width_visible c s : visible c → space_width (c :: s) = 0%nat.
Proof.
  unfold visible. intros Hc. unfold space_width.
  assert (((9 <=? c) && (c <=? 13)) || (c =? 32) = false) as -> by lia.
  destruct c as [|c|c]; try done. repeat (destruct c as [c|c|]; try done; try lia).
Qed.

Lemma trim_visible s : Forall (λ c, visible c ∨ not_newline c = false) s →
  List.filter not_newline (TrimSpace s) = List.filter not_newline s.
Proof.
  assert (Hnl : ∀ c s, not_newline c = false → space_width (c :: s) = 1%nat).
  { intros c s'. unfold not_newline. rewrite negb_false_iff, orb_true_iff, !Z.eqb_eq. by intros [-> | ->]. }
  assert (Hskip : ∀ s, Forall (λ c, visible c ∨ not_newline c = false) s →
    List.filter not_newline (skip_all_space 0 s) = List.filter not_newline s ∧
    Forall (λ c, visible c ∨ not_newline c = false) (skip_all_space 0 s)).
  { induction 1 as [|c l Hc Hl IH]; [done|]. destruct Hc as [Hc|Hc]; cbn [skip_all_space].
    - rewrite space_width_visible by done. split; [done|]. constructor; auto.
    - rewrite Hnl by done. cbn [List.filter]. by rewrite Hc. }
  intros Hs. unfold TrimSpace. destruct (Hskip s Hs) as [<- Hs']. generalize dependent (skip_all_space 0 s).
  clear s Hs. intros l Hl. induction Hl as [|c l Hc Hl IH]; [done|]. cbn [trim_right_space].
  unfold all_space. case_bool_decide as Ha.
  - assert (Hf : List.filter not_newline (skip_all_space 0 (c :: l)) = List.filter not_newline (c :: l))
      by (apply Hskip; by constructor). by rewrite Ha in Hf.
  - cbn [List.filter]. by rewrite IH.
Qed.
Lemma std_padded_alphabet b : bytes_ok b → Forall (λ c, visible c ∧ c ≠ 58) (std_padded_encode b).
Proof.
  intros Hb. unfold std_padded_encode. apply Forall_app. split.
  - eapply Forall_impl; [by apply std_encode_alphabet|]. unfold std_alphabet, visible. lia.
  - destruct (zlen b mod 3) as [|[[]|[]|]|]; repeat constructor; unfold visible; lia.
Qed.
Lemma std_padded_nonempty b : b ≠ [] → std_padded_encode b ≠ [].
Proof.
  intros Hb. unfold std_padded_encode, Credentials.std_encode.
  destruct b as [|x [|y [|z b]]]; done.
Qed.

Lemma name_char_visible c : name_char c = true → visible c ∧ c ≠ 58.
Proof. unfold name_char, name_head, is_digit, visible. rewrite !orb_true_iff, !andb_true_iff, !Z.leb_le, !Z.eqb_eq. lia. Qed.
Lemma valid_name_visible name : ValidSecretName name = true →
  name ≠ ""%string ∧ Forall visible (bytes_of_string name).
Proof.
  unfold ValidSecretName. destruct (bytes_of_string name) as [|c s] eqn:Hn; [done|].
  rewrite !andb_true_iff. intros [[Hc Hs] _]. split; [by intros ->|]. constructor.
  - apply name_char_visible. unfold name_char. by rewrite Hc.
  - apply Forall_forall. intros x Hx%list_elem_of_In. apply name_char_visible.
    rewrite List.forallb_forall in Hs. by apply Hs.
Qed.

Lemma DecodeLine_record name nonce ct input :
  ValidSecretName name = true → bytes_ok nonce → nonce ≠ [] → bytes_ok ct → ct ≠ [] →
  List.filter not_newline input = record name nonce ct →
  DecodeLine input = Ok (nonce, ct, name).
Proof.
  intros [Hname Hvis]%valid_name_visible Hn Hn0 Hc Hc0 Hin.
  pose proof (std_padded_alphabet nonce Hn) as An. pose proof (std_padded_alphabet ct Hc) as Ac.
  unfold DecodeLine. rewrite trim_visible, Hin.
  2: { apply Forall_forall. intros c Hel. destruct (not_newline c) eqn:Hnl; [left|by right].
       assert (Hr : c ∈ record name nonce ct).
       { rewrite <- Hin. apply list_elem_of_In, List.filter_In. split; [by apply list_elem_of_In|done]. }
       rewrite Forall_forall in An, Ac, Hvis. unfold record in Hr.
       rewrite elem_of_app, elem_of_cons, elem_of_app, elem_of_cons in Hr.
       destruct Hr as [Hr|[-> |[Hr|[-> |Hr]]]]; [by apply An|done|by apply Ac|done|by apply Hvis]. }
  assert (Hnc : ∀ l, Forall (λ c, visible c ∧ c ≠ 58) l → 58 ∉ l)
    by (intros l Hl Hel; rewrite Forall_forall in Hl; by destruct (Hl 58 Hel)).
  unfold record, splitN3. rewrite !NetLaws.cut_spec by auto.
  pose proof (std_padded_nonempty nonce Hn0). pose proof (std_padded_nonempty ct Hc0).
  assert (Hb0 : bytes_of_string name ≠ []).
  { intros H'. apply Hname. rewrite <- (string_of_bytes_of_string name), H'. done. }
  rewrite !bool_decide_eq_false_2 by (done || (intros [??]%app_nil; done)). cbn [orb].
  by rewrite !std_padded_roundtrip, string_of_bytes_of_string.
Qed.

(** ** Values put are recovered *)

Section Aead.
Context {A : Aead} {AL : AeadLaws A}.

(** The nonce CHECK, over the table. *)
Definition nonces_ok (s : table) : Prop := map_Forall (λ _ r, zlen (r_nonce r) = NonceSize) s.

Lemma PutSecret_inv now b fresh name value s fs r s' fs' :
  PutSecret now b fresh name value s fs = (r, s', fs') →
  (∃ e, r = Err e ∧ s' = s) ∨
  (name ≠ ""%string ∧ value ≠ [] ∧ zlen fresh = NonceSize ∧ r = Ok (bool_decide (s !! name = None)) ∧
   ∃ v c t, s' = <[name := MkRow (gcm_seal (current b) fresh value (aad name)) fresh v c t]> s ∧
     meta_of name (MkRow (gcm_seal (current b) fresh value (aad name)) fresh v c t) =
       match s !! name with
       | None => MkMeta name 1 now None
       | Some r => MkMeta name (r_version r) (r_created r) (Some now)
       end).
Proof.
  unfold PutSecret, Seal. case_bool_decide as Hn; [intros [= <- <- <-]; eauto|].
  case_bool_decide as Hv; [intros [= <- <- <-]; eauto|].
  intros [[-> ->]|H]%stmt_inv; [eauto|]. unfold upsert in H.
  destruct (Z.eqb_spec (zlen fresh) NonceSize) as [Hz|]; cbn [negb] in H; [|injection H as <- <-; eauto].
  right. split_and!; [done..| |]; destruct (s !! name) as [r0|]; injection H as <- <-;
    rewrite ?bool_decide_eq_true_2, ?bool_decide_eq_false_2 by done; try done; by repeat eexists.
Qed.

(** [b'] holds the key of [b], as the current one or, where the current one
    does not open the row, as the previous one. *)
Definition holds_key (b b' : Box) (name : string) (r : row) : Prop :=
  current b' = current b ∨
  (prev b' = Some (current b) ∧ gcm_open (current b') (r_nonce r) (r_ciphertext r) (aad name) = None).

Lemma Open_sealed b b' fresh name value v c t :
  name ≠ ""%string → zlen fresh = NonceSize →
  holds_key b b' name (MkRow (gcm_seal (current b) fresh value (aad name)) fresh v c t) →
  ∃ u, Open b' name fresh (gcm_seal (current b) fresh value (aad name)) = Ok (value, u).
Proof.
  intros Hn Hz [Hk|[Hk Ho]]; unfold Open; rewrite bool_decide_eq_false_2 by done; rewrite Hz;
    change (negb (NonceSize =? NonceSize)) with false; cbn [r_nonce r_ciphertext] in *.
  - rewrite Hk, open_seal. eauto.
  - rewrite Ho, Hk, open_seal. eauto.
Qed.

Definition env_of (cur prv : string) (k : string) : string :=
  if bool_decide (k = EnvKey) then cur else if bool_decide (k = EnvKeyPrev) then prv else ""%string.

(** Whatever is put under a valid name is recovered: when the PUT succeeded,
    resolution gives the value under every box that still holds the key (also as
    the previous one, after a rotation), and so does the break-glass command
    from the environment and the printed row, wherever its text is broken into
    lines; no other row has moved. A PUT that failed has changed nothing, and
    the break-glass command prints nothing unless to a terminal. *)
Theorem put_recovered now b fresh name value s fs r s'
    (Hname : ValidSecretName name = true) (Hvalue : bytes_ok value) (Hfresh : bytes_ok fresh)
    (Hkey : bytes_ok (current b)) (Hput : ∃ fs', PutSecret now b fresh name value s fs = (r, s', fs')) :
  match r with
  | Err _ => s' = s
  | Ok created =>
      created = bool_decide (s !! name = None) ∧
      (∀ other, other ≠ name → s' !! other = s !! other) ∧
      ∃ row, s' !! name = Some row ∧ ∀ b', holds_key b b' name row →
        (ResolveSecret b' name s' []).1.1 = Ok value ∧
        ∀ cur prv input, New cur prv = Ok b' →
          List.filter not_newline input = record name (r_nonce row) (r_ciphertext row) →
          runSecretDecrypt (env_of cur prv) (Some input) true = (0, value ++ [10]) ∧
          runSecretDecrypt (env_of cur prv) (Some input) false = (3, [])
  end.
Proof.
  destruct Hput as [fs' H].
  destruct (PutSecret_inv _ _ _ _ _ _ _ _ _ _ H) as [(e & -> & ->)|(Hn & Hv & Hz & -> & v & c & t & -> & _)]; [done|].
  split; [done|]. split; [intros o Ho; by rewrite lookup_insert_ne|].
  set (row := MkRow _ _ v c t). exists row. split; [apply lookup_insert_eq|]. intros b' Hb'.
  destruct (Open_sealed b b' fresh name value v c t Hn Hz Hb') as [u Ho]. split.
  - unfold ResolveSecret, query, stmt, mbind, M_bind, throw, mret, M_ret. cbn -[Open aad]. rewrite lookup_insert_eq.
    cbn -[Open aad]. by rewrite Ho.
  - intros cur prv input Hb Hin. unfold runSecretDecrypt, FromEnv.
    change (env_of cur prv EnvKey) with cur. change (env_of cur prv EnvKeyPrev) with prv. rewrite Hb. cbn [negb].
    split; [|done]. unfold decryptStdin.
    rewrite (DecodeLine_record name fresh (r_ciphertext row)); [cbn [r_ciphertext row]; by rewrite Ho|..]; try done.
    + intros ->. done.
    + apply seal_bytes; try done. apply bytes_of_string_ok.
    + intros Hc. pose proof (seal_length (current b) fresh value (aad name)) as Hl. cbn in Hc. rewrite Hc in Hl.
      change (zlen []) with 0 in Hl. pose proof (zlen_nonneg value). lia.
Qed.

(** ** The routes *)

(** Tables that differ in the material only. *)
Definition same_meta (s1 s2 : table) : Prop := ∀ name, meta_of name <$> s1 !! name = meta_of name <$> s2 !! name.

(** Requests that differ in the nonce drawn and in the value only, both within
    the bounds the route checks. *)
Definition value_ok (v : string) : Prop := v ≠ ""%string ∧ zlen (bytes_of_string v) ≤ secretValueMax.
Definition same_route (x1 x2 : route) : Prop :=
  match x1, x2 with
  | RPut f1 n1 (Some v1), RPut f2 n2 (Some v2) =>
      n1 = n2 ∧ zlen f1 = NonceSize ∧ zlen f2 = NonceSize ∧ value_ok v1 ∧ value_ok v2
  | _, _ => x1 = x2
  end.

Lemma same_meta_list s1 s2 : same_meta s1 s2 →
  ((λ kv : string * row, meta_of kv.1 kv.2) <$> map_to_list s1) =
  ((λ kv : string * row, meta_of kv.1 kv.2) <$> map_to_list s2).
Proof.
  intros H.
  assert (Hm : ∀ s : table, (λ kv : string * row, meta_of kv.1 kv.2) <$> map_to_list s =
            (λ kv : string * (Z * Z * option Z), MkMeta kv.1 kv.2.1.1 kv.2.1.2 kv.2.2) <$>
            map_to_list ((λ r, (r_version r, r_created r, r_rotated r)) <$> s)).
  { intros s. rewrite map_to_list_fmap, <- list_fmap_compose. apply list_fmap_ext. by intros ? [? ?]. }
  rewrite !Hm. f_equal. f_equal. apply map_eq. intros i. rewrite !lookup_fmap. specialize (H i).
  destruct (s1 !! i), (s2 !! i); cbn in *; try done. injection H as -> -> ->. done.
Qed.

Lemma same_meta_insert s1 s2 n r1 r2 : same_meta s1 s2 → meta_of n r1 = meta_of n r2 →
  same_meta (<[n := r1]> s1) (<[n := r2]> s2).
Proof.
  intros H Hr k. destruct (decide (k = n)) as [->|Hk].
  - rewrite !lookup_insert_eq. cbn. by rewrite Hr.
  - by rewrite !lookup_insert_ne by done.
Qed.

Fixpoint serve_all (text_le : string → string → bool) (b : Box) (xs : list (Z * request * route)) : MS (list reply) :=
  match xs with
  | [] => mret []
  | (now, r, x) :: xs =>
      a ← serve text_le b now r x; rest ← serve_all text_le b xs; mret (a :: rest)
  end.
Definition same_request (x1 x2 : Z * request * route) : Prop :=
  x1.1 = x2.1 ∧ same_route x1.2 x2.2.

(** Two runs that answer alike, in tables with the same metadata. *)
Definition alike {T} (x1 x2 : result Empty_set T * table * list bool) : Prop :=
  ∃ a s1 s2 fs, x1 = (Ok a, s1, fs) ∧ x2 = (Ok a, s2, fs) ∧ same_meta s1 s2.

Lemma upsert_alike now name c1 c2 f1 f2 s1 s2 : zlen f1 = NonceSize → zlen f2 = NonceSize → same_meta s1 s2 →
  (upsert now name c1 f1 s1).1 = (upsert now name c2 f2 s2).1 ∧
  same_meta (upsert now name c1 f1 s1).2 (upsert now name c2 f2 s2).2.
Proof.
  intros H1 H2 Hm. unfold upsert. rewrite H1, H2. change (negb (NonceSize =? NonceSize)) with false.
  cbv iota. pose proof (Hm name) as Hn.
  destruct (s1 !! name) as [r1|], (s2 !! name) as [r2|]; cbn in Hn; try done.
  - split; [done|]. apply same_meta_insert; [done|]. by injection Hn as <- <- _.
  - split; [done|]. by apply same_meta_insert.
Qed.

Lemma put_alike now b1 b2 f1 f2 r name v1 v2 s1 s2 fs :
  zlen f1 = NonceSize → zlen f2 = NonceSize → value_ok v1 → value_ok v2 → same_meta s1 s2 →
  alike (put now b1 f1 r name (Some v1) s1 fs) (put now b2 f2 r name (Some v2) s2 fs).
Proof.
  intros H1 H2 [Hv1 Hl1] [Hv2 Hl2] Hm. unfold put, fail.
  destruct (ValidSecretName name) eqn:Hn; cbn [negb]; [|by repeat eexists].
  apply valid_name_visible in Hn as [Hn _].
  rewrite !bool_decide_eq_false_2 by done.
  assert (Hc : ∀ v, zlen (bytes_of_string v) ≤ secretValueMax → (secretValueMax <? zlen (bytes_of_string v)) = false) by lia.
  rewrite !Hc by done. unfold PutSecret, Seal. rewrite !(bool_decide_eq_false_2 (name = ""%string)) by done.
  assert (Hb : ∀ v, v ≠ ""%string → bytes_of_string v ≠ []).
  { intros v Hv He. apply Hv. by rewrite <- (string_of_bytes_of_string v), He. }
  rewrite !bool_decide_eq_false_2 by eauto.
  destruct (upsert_alike now name (gcm_seal (current b1) f1 (bytes_of_string v1) (aad name))
    (gcm_seal (current b2) f2 (bytes_of_string v2) (aad name)) f1 f2 s1 s2 H1 H2 Hm) as [He Hs].
  unfold call, stmt, mbind, M_bind, mret, M_ret.
  destruct (upsert now name _ f1 s1) as [e1 t1], (upsert now name _ f2 s2) as [e2 t2]. cbn in He, Hs. subst e2.
  destruct fs as [|[] fs]; destruct e1; by repeat eexists.
Qed.

Lemma serve_alike text_le now b1 b2 r x1 x2 s1 s2 fs : same_route x1 x2 → same_meta s1 s2 →
  alike (serve text_le b1 now r x1 s1 fs) (serve text_le b2 now r x2 s2 fs).
Proof.
  intros Hx Hm. destruct x1 as [f1 n1 [v1|]| |n1|n1].
  - destruct x2 as [f2 n2 [v2|]| |n2|n2]; try done. destruct Hx as (<- & H1 & H2 & H3 & H4). by apply put_alike.
  - cbn in Hx. subst x2. cbn. unfold put, fail. destruct (negb _); by repeat eexists.
  - cbn in Hx. subst x2. cbn -[meta_json]. unfold list_secrets, fail, call, ListMeta, query, stmt, mbind, M_bind, mret, M_ret.
    rewrite (same_meta_list s1 s2 Hm). destruct fs as [|[] fs]; by repeat eexists.
  - cbn in Hx. subst x2. cbn -[meta_json]. unfold get, fail, call, GetMeta, query, stmt, mbind, M_bind, mret, M_ret.
    pose proof (Hm n1) as Hn. destruct (s1 !! n1) as [r1|], (s2 !! n1) as [r2|]; cbn -[meta_of] in Hn |- *; try done;
      [apply (inj Some) in Hn; rewrite Hn|]; destruct fs as [|[] fs]; by repeat eexists.
  - cbn in Hx. subst x2. cbn. unfold del, fail, call, DeleteSecret, stmt, mbind, M_bind, mret, M_ret.
    assert (Hd : same_meta (delete n1 s1) (delete n1 s2)).
    { intros k. destruct (decide (k = n1)) as [->|Hk]; [by rewrite !lookup_delete_eq|]. by rewrite !lookup_delete_ne by done. }
    pose proof (Hm n1) as Hn. assert (Hb : bool_decide (is_Some (s1 !! n1)) = bool_decide (is_Some (s2 !! n1))).
    { destruct (s1 !! n1), (s2 !! n1); cbn in Hn; try done. }
    rewrite Hb. clear Hb. destruct fs as [|[] fs]; destruct (bool_decide (is_Some (s2 !! n1))); by repeat eexists.
Qed.

(** C20. The store is write-only: requests answer by the metadata alone. Two
    servers, with different keys, whose tables agree on names, versions and times
    but hold any other material, and which are sent the same requests but for the
    values put and the nonces drawn, give the same answers, status, headers and
    bodies, under the same faults, and their tables still agree. *)
Theorem secrets_unseen text_le b1 b2 xs1 xs2 s1 s2 fs
    (Hreq : Forall2 same_request xs1 xs2) (Hmeta : same_meta s1 s2) :
  alike (serve_all text_le b1 xs1 s1 fs) (serve_all text_le b2 xs2 s2 fs).
Proof.
  revert s1 s2 fs Hmeta. induction Hreq as [|[[now r] x1] [[now' r'] x2] xs1 xs2 [Hn Hx] _ IH]; intros s1 s2 fs Hm.
  - by repeat eexists.
  - cbn in Hn, Hx. injection Hn as <- <-. cbn. unfold mbind at 1 3, M_bind at 1 3.
    destruct (serve_alike text_le now b1 b2 r x1 x2 s1 s2 fs Hx Hm) as (a & t1 & t2 & fs' & -> & -> & Ht).
    unfold mbind, M_bind. destruct (IH t1 t2 fs' Ht) as (l & u1 & u2 & fs2 & -> & -> & Hu). by repeat eexists.
Qed.

(** ** The rotation sweep *)

Definition val_of (b : Box) (name : string) (r : row) : result err bytes :=
  match Open b name (r_nonce r) (r_ciphertext r) with Ok (p, _) => Ok p | Err e => Err e end.
(** Every secret resolves alike in both tables. *)
Definition same_values (b : Box) (s1 s2 : table) : Prop :=
  ∀ name, val_of b name <$> s1 !! name = val_of b name <$> s2 !! name.
(** The row no longer needs the previous key. *)
Definition opens_now (b : Box) (name : string) (r : row) : Prop :=
  ∃ p, Open (MkBox (current b) None) name (r_nonce r) (r_ciphertext r) = Ok (p, false) ∧ val_of b name r = Ok p.
(** What the sweep can do with a row, given working statements. *)
Definition sealable (b : Box) (name : string) (r : row) : Prop :=
  ∃ p u, Open b name (r_nonce r) (r_ciphertext r) = Ok (p, u) ∧
         (u = true → p ≠ [] ∧ r_version r + 1 ≤ 2 ^ 31 - 1).

(** A value put meanwhile does not encrypt to the ciphertext of a row read. *)
Definition fresh_put (b : Box) (s : table) (o : other) : Prop :=
  match o with
  | OPut _ f name v => ∀ r, s !! name = Some r → gcm_seal (current b) f v (aad name) ≠ r_ciphertext r
  | ODelete _ => True
  end.

Lemma Open_current b name nonce ct p :
  Open b name nonce ct = Ok (p, false) → Open (MkBox (current b) None) name nonce ct = Ok (p, false).
Proof.
  unfold Open. cbn [current prev]. case_bool_decide; [done|]. destruct (negb _); [done|].
  destruct (gcm_open (current b) _ _ _); [done|]. destruct (prev b) as [k|]; [|done]. by destruct (gcm_open k _ _ _).
Qed.
Lemma opens_sealed b fresh name value v c t : name ≠ ""%string → zlen fresh = NonceSize →
  opens_now b name (MkRow (gcm_seal (current b) fresh value (aad name)) fresh v c t).
Proof.
  intros Hn Hz. exists value. unfold val_of, Open. cbn. rewrite bool_decide_eq_false_2 by done. rewrite Hz.
  change (negb (NonceSize =? NonceSize)) with false. by rewrite open_seal.
Qed.

Lemma same_values_insert b s1 s2 n r1 r2 : same_values b s1 s2 → val_of b n r1 = val_of b n r2 →
  same_values b (<[n := r1]> s1) (<[n := r2]> s2).
Proof.
  intros H Hr k. destruct (decide (k = n)) as [->|Hk].
  - rewrite !lookup_insert_eq. cbn. by rewrite Hr.
  - by rewrite !lookup_insert_ne by done.
Qed.

(** A step of another request: nothing, a row sealed with the current key, or a
    row less. *)
Lemma other_step_cases b o :
  (∀ s, other_step b s o = s) ∨
  (∃ name f v, name ≠ ""%string ∧ zlen f = NonceSize ∧ (∀ s, fresh_put b s o → ∀ r, s !! name = Some r →
       gcm_seal (current b) f v (aad name) ≠ r_ciphertext r) ∧
     ∀ s, ∃ vc c t, other_step b s o = <[name := MkRow (gcm_seal (current b) f v (aad name)) f vc c t]> s) ∨
  (∃ name, ∀ s, other_step b s o = delete name s).
Proof.
  destruct o as [now f name v|name]; cbn; [|right; right; by exists name].
  destruct (decide (name = ""%string ∨ v = [] ∨ zlen f ≠ NonceSize)) as [Hbad|Hok].
  - left. intros s. destruct (PutSecret now b f name v s []) as [[r s'] fs'] eqn:H.
    destruct (PutSecret_inv _ _ _ _ _ _ _ _ _ _ H) as [(? & -> & ->)|(? & ? & ? & _)]; [done|tauto].
  - right. left. exists name, f, v. split_and!; [tauto|lia|done|]. intros s.
    destruct (PutSecret now b f name v s []) as [[r s'] fs'] eqn:H.
    destruct (PutSecret_inv _ _ _ _ _ _ _ _ _ _ H) as [(e & -> & ->)|(? & ? & ? & _ & vc & c & t & -> & _)]; [|by exists vc, c, t].
    exfalso. unfold PutSecret, Seal in H. rewrite !bool_decide_eq_false_2 in H by tauto.
    unfold stmt, upsert in H. destruct (Z.eqb_spec (zlen f) NonceSize); [|tauto]. cbn [negb] in H.
    by destruct (s !! name).
Qed.

Section Run.
Context (b : Box) (fresh : string → bytes) (others : string → list other).
Context (s0 : table).
Hypothesis fresh_len : ∀ name, zlen (fresh name) = NonceSize.
Hypothesis others_fresh : ∀ name, Forall (fresh_put b s0) (others name).

(** [rem]: the rows read and not yet seen; [st]: the stranded names; [spec]: the
    table had the sweep done nothing. *)
Record sweep_inv (rem : list (string * row)) (st : list string) (cur spec : table) : Prop := {
  si_rem : ∀ name r, (name, r) ∈ rem → s0 !! name = Some r;
  si_same : ∀ name r r', (name, r) ∈ rem → cur !! name = Some r' → r_ciphertext r' = r_ciphertext r → r' = r;
  si_rows : ∀ name r, cur !! name = Some r → opens_now b name r ∨ name ∈ st ∨ (name, r) ∈ rem;
  si_nodup : NoDup rem.*1;
  si_vals : same_values b cur spec }.

Lemma other_step_inv rem st cur spec o : fresh_put b s0 o →
  sweep_inv rem st cur spec → sweep_inv rem st (other_step b cur o) (other_step b spec o).
Proof.
  intros Hf [H1 H2 H3 H4 H5].
  destruct (other_step_cases b o) as [Hs|[(name & f & v & Hn & Hz & Hfr & Hs)|(name & Hs)]].
  - by rewrite !Hs.
  - specialize (Hfr s0 Hf). destruct (Hs cur) as (v1 & c1 & t1 & ->), (Hs spec) as (v2 & c2 & t2 & ->).
    constructor; [done|..|done|].
    + intros k r r' Hin Hl Hc. destruct (decide (k = name)) as [->|Hk].
      * rewrite lookup_insert_eq in Hl. injection Hl as <-. cbn in Hc. by destruct (Hfr r (H1 _ _ Hin)).
      * rewrite lookup_insert_ne in Hl by done. eauto.
    + intros k r Hl. destruct (decide (k = name)) as [->|Hk].
      * rewrite lookup_insert_eq in Hl. injection Hl as <-. left. by apply opens_sealed.
      * rewrite lookup_insert_ne in Hl by done. eauto.
    + by apply same_values_insert.
  - rewrite !Hs. constructor; [done|..|done|].
    + intros k r r' Hin Hl. apply lookup_delete_Some in Hl as [_ Hl]. eauto.
    + intros k r Hl. apply lookup_delete_Some in Hl as [_ Hl]. eauto.
    + intros k. destruct (decide (k = name)) as [->|Hk]; [by rewrite !lookup_delete_eq|].
      rewrite !lookup_delete_ne by done. apply H5.
Qed.
Lemma others_inv rem st os cur spec : Forall (fresh_put b s0) os →
  sweep_inv rem st cur spec → sweep_inv rem st (foldl (other_step b) cur os) (foldl (other_step b) spec os).
Proof. intros Hos. revert cur spec. induction Hos as [|o os Ho _ IH]; intros; [done|]. cbn. by apply IH, other_step_inv. Qed.

(** A row done: what is left is covered. *)
Lemma row_stranded name r rem st cur spec :
  sweep_inv ((name, r) :: rem) st cur spec → sweep_inv rem (st ++ [name]) cur spec.
Proof.
  intros [H1 H2 H3 H4 H5]. apply NoDup_cons in H4 as [_ H4]. constructor; [..|done|done].
  - intros k x Hin. apply H1. by right.
  - intros k x x' Hin. apply H2. by right.
  - intros k x Hl. rewrite elem_of_app. destruct (H3 k x Hl) as [?|[?|[[= -> ->]|?]%elem_of_cons]]; auto.
    right; left; right. by left.
Qed.
Lemma row_current name r rem st cur spec : (∀ r', cur !! name = Some r' → r' = r → opens_now b name r) →
  sweep_inv ((name, r) :: rem) st cur spec → sweep_inv rem st cur spec.
Proof.
  intros Ho [H1 H2 H3 H4 H5]. apply NoDup_cons in H4 as [_ H4]. constructor; [..|done|done].
  - intros k x Hin. apply H1. by right.
  - intros k x x' Hin. apply H2. by right.
  - intros k x Hl. destruct (H3 k x Hl) as [?|[?|[[= -> ->]|?]%elem_of_cons]]; eauto.
Qed.
Lemma row_resealed name r rem st cur spec p v c t :
  name ≠ ""%string → val_of b name r = Ok p → cur !! name = Some r →
  sweep_inv ((name, r) :: rem) st cur spec →
  sweep_inv rem st (<[name := MkRow (gcm_seal (current b) (fresh name) p (aad name)) (fresh name) v c t]> cur) spec.
Proof.
  intros Hn Hv Hc [H1 H2 H3 H4 H5]. apply NoDup_cons in H4 as [Hni H4].
  destruct (opens_sealed b (fresh name) name p v c t Hn (fresh_len name)) as (p' & Ho & Hv').
  assert (p' = p) as ->.
  { unfold Open in Ho. cbn in Ho. rewrite bool_decide_eq_false_2, fresh_len in Ho by done. cbn in Ho.
    rewrite open_seal in Ho. congruence. }
  constructor; [..|done|].
  - intros k x Hin. apply H1. by right.
  - intros k x x' Hin Hl. rewrite lookup_insert_ne in Hl; [apply H2 with (name := k); [by right|done]|].
    intros <-. apply Hni, list_elem_of_fmap. by exists (name, x).
  - intros k x Hl. destruct (decide (k = name)) as [->|Hk].
    + rewrite lookup_insert_eq in Hl. injection Hl as <-. left. by exists p.
    + rewrite lookup_insert_ne in Hl by done.
      destruct (H3 k x Hl) as [?|[?|[[= -> ->]|?]%elem_of_cons]]; eauto. done.
  - intros k. destruct (decide (k = name)) as [->|Hk]; [|rewrite lookup_insert_ne by done; apply H5].
    rewrite lookup_insert_eq, <- H5, Hc. cbn -[val_of]. by rewrite Hv', Hv.
Qed.
(** What the requests in between do on their own. *)
Definition without_sweep (rem : list (string * row)) (spec : table) : table :=
  foldl (λ s p, foldl (other_step b) s (others p.1)) spec rem.

Lemma reseal_cases name nct nn r cur : zlen nn = NonceSize →
  (∀ r', cur !! name = Some r' → r_ciphertext r' = r_ciphertext r → r' = r) →
  (reseal name nct nn (r_ciphertext r) cur = (Ok 0, cur) ∧ cur !! name ≠ Some r) ∨
  (reseal name nct nn (r_ciphertext r) cur = (Err ERange, cur) ∧ ¬ r_version r + 1 ≤ 2 ^ 31 - 1) ∨
  (cur !! name = Some r ∧ ∃ v c t, reseal name nct nn (r_ciphertext r) cur = (Ok 1, <[name := MkRow nct nn v c t]> cur)).
Proof.
  intros Hz Hs. unfold reseal. destruct (cur !! name) as [r'|] eqn:Hl; [|by left].
  case_bool_decide as Hc; cbn [negb]; [|left; split; [done|by intros [= ->]]].
  rewrite (Hs r' eq_refl Hc) in *. rewrite Hz. change (negb (NonceSize =? NonceSize)) with false. cbv iota.
  destruct (Z.ltb_spec (2 ^ 31 - 1) (r_version r + 1)); [right; left; split; [done|lia]|].
  right. right. split; [done|]. by eexists _, _, _.
Qed.

Definition strand (o : row_outcome) (name : string) (st : list string) : list string :=
  match o with Stranded => st ++ [name] | _ => st end.

Lemma sweep_row_run name r rem st cur spec fs :
  sweep_inv ((name, r) :: rem) st cur spec → zlen (r_nonce r) = NonceSize →
  ∃ o cur' fs', sweep_row fresh others b name r cur fs = (Ok o, cur', fs') ∧
    sweep_inv rem (strand o name st) cur' (foldl (other_step b) spec (others name)) ∧
    (fs = [] → fs' = [] ∧ (sealable b name r → o ≠ Stranded)).
Proof.
  intros Hinv Hz. apply (others_inv _ _ (others name)) in Hinv; [|done].
  set (cur1 := foldl _ cur (others name)) in *. set (spec1 := foldl _ spec (others name)) in *.
  assert (Hst : ∀ fs1 : list bool, (fs = [] → fs1 = [] ∧ ¬ sealable b name r) → ∃ o cur' fs',
    ((Ok Stranded : result err row_outcome), cur1, fs1) = (Ok o, cur', fs') ∧ sweep_inv rem (strand o name st) cur' spec1 ∧
    (fs = [] → fs' = [] ∧ (sealable b name r → o ≠ Stranded))).
  { intros fs1 Hn. exists Stranded, cur1, fs1. split_and!; [done|by eapply row_stranded|].
    intros Hf. destruct (Hn Hf). done. }
  assert (Hgo : ∀ o cur2 (fs1 : list bool), o ≠ Stranded → (fs = [] → fs1 = []) → sweep_inv rem st cur2 spec1 → ∃ o' cur' fs',
    ((Ok o : result err row_outcome), cur2, fs1) = (Ok o', cur', fs') ∧ sweep_inv rem (strand o' name st) cur' spec1 ∧
    (fs = [] → fs' = [] ∧ (sealable b name r → o' ≠ Stranded))).
  { intros o cur2 fs1 Ho Hf Hi. exists o, cur2, fs1. split_and!; [done|by destruct o|by auto]. }
  unfold sweep_row, mbind, M_bind, interfere. fold cur1.
  destruct (Open b name (r_nonce r) (r_ciphertext r)) as [[p []]|e] eqn:Ho.
  - assert (Hn : name ≠ ""%string) by (intros ->; by unfold Open in Ho).
    unfold Seal. rewrite (bool_decide_eq_false_2 (name = ""%string)) by done. case_bool_decide as Hp.
    { apply Hst. intros ->. split; [done|]. intros (p' & u & Ho' & Hu). rewrite Ho in Ho'. injection Ho' as <- <-. by destruct Hu. }
    unfold attempt, stmt, mret, M_ret.
    destruct (reseal_cases name (gcm_seal (current b) (fresh name) p (aad name)) (fresh name) r cur1) as
      [[Hrs Hne]|[[Hrs Hv]|(Hc & v & c & t & Hrs)]]; [done|intros r'; apply (si_same _ _ _ _ Hinv); by left|..];
      destruct fs as [|[] fs]; cbn [tail]; rewrite ?Hrs; try (by apply Hst).
    1,2: apply Hgo; [done..|]; eapply row_current; [|exact Hinv]; by intros r' ? ->.
    1: apply Hst; intros ?; split; [done|]; intros (p' & u & Ho' & Hu); rewrite Ho in Ho'; injection Ho' as <- <-; by destruct Hu.
    all: apply Hgo; [done..|]; eapply row_resealed; [done|by unfold val_of; rewrite Ho|done|exact Hinv].
  - apply Hgo; [done..|]. eapply row_current; [|exact Hinv]. intros _ _ _. exists p.
    split; [by apply Open_current|]. unfold val_of. by rewrite Ho.
  - assert (He : e ≠ EPanic).
    { intros ->. unfold Open in Ho. rewrite Hz in Ho. case_bool_decide; [done|].
      change (negb (NonceSize =? NonceSize)) with false in Ho. destruct (gcm_open _ _ _ _); [done|].
      destruct (prev b); [|done]. by destruct (gcm_open _ _ _ _). }
    destruct e; try done; apply Hst; intros Hf; (split; [done|]); intros (p' & u & Ho' & _); congruence.
Qed.

Lemma sweep_rows_run rem : ∀ n st cur spec fs,
  sweep_inv rem st cur spec → nonces_ok s0 →
  ∃ n' st' cur' fs', sweep_rows fresh others b rem n st cur fs = (Ok (n', st'), cur', fs') ∧
    sweep_inv [] st' cur' (without_sweep rem spec) ∧
    (fs = [] → Forall (λ p, sealable b p.1 p.2) rem → st' = st).
Proof.
  induction rem as [|[name r] rem IH]; intros n st cur spec fs Hinv Hok; [by eexists _, _, _, _|].
  pose proof (si_rem _ _ _ _ Hinv name r ltac:(left)) as Hr.
  destruct (sweep_row_run name r rem st cur spec fs Hinv (Hok _ _ Hr)) as (o & cur1 & fs1 & Ho & Hi & Hs).
  cbn [sweep_rows]. unfold mbind, M_bind. rewrite Ho.
  assert (Hrest : ∀ n1, ∃ n' st' cur' fs',
    sweep_rows fresh others b rem n1 (strand o name st) cur1 fs1 = (Ok (n', st'), cur', fs') ∧
    sweep_inv [] st' cur' (without_sweep ((name, r) :: rem) spec) ∧
    (fs = [] → Forall (λ p, sealable b p.1 p.2) ((name, r) :: rem) → st' = st)).
  { intros n1. destruct (IH n1 _ cur1 _ fs1 Hi Hok) as (n2 & st2 & cur2 & fs2 & -> & Hi2 & Hst).
    exists n2, st2, cur2, fs2. split_and!; [done..|]. intros Hf [Hsr Hss]%Forall_cons.
    destruct (Hs Hf) as [Hf1 Hns]. rewrite (Hst Hf1 Hss). by destruct o; [destruct Hns|..]. }
  destruct o; apply Hrest.
Qed.
End Run.

(** Whether the listing, the first statement, is answered. *)
Definition listed (fs : list bool) : bool := negb (default false (head fs)).

(** C18. Rotation: on boot with a previous key, under any faults of the statements
    and whatever other requests write or delete before each row's turn, the sweep
    always ends, without a panic. When its listing fails it changes nothing and
    says so. Otherwise every secret, row by row and absence included, resolves to
    exactly what those other requests alone, in that order, would have left; each
    row opens under the current key alone, to that value, or is named as stranded;
    and a failure is reported exactly when one is stranded, so that after a sweep
    without failure the previous key can be dropped. When no statement fails and
    every row opens, nothing is stranded. *)
Theorem sweep_rotates b fresh others s fs
    (Hprev : HasPrev b = true) (Hnonces : nonces_ok s) (Hlen : ∀ name, zlen (fresh name) = NonceSize)
    (Hothers : ∀ name, Forall (fresh_put b s) (others name)) :
  ∃ w s' fs', Sweep fresh others b s fs = (Ok w, s', fs') ∧
    if listed fs then
      same_values b s' (without_sweep b others (map_to_list s) s) ∧
      (∀ name r, s' !! name = Some r → opens_now b name r ∨ name ∈ stranded w) ∧
      (sweep_failed w = false ↔ stranded w = []) ∧
      (fs = [] → map_Forall (sealable b) s → stranded w = [])
    else s' = s ∧ w = MkSwept 0 [] true.
Proof.
  assert (Hinv : sweep_inv b s (map_to_list s) [] s s).
  { constructor; [by intros ? ? ?%elem_of_map_to_list|..|apply NoDup_fst_map_to_list|done].
    - intros name r r' Hr%elem_of_map_to_list Hr' _. congruence.
    - intros name r Hr. right. right. by apply elem_of_map_to_list. }
  assert (Hrun : ∀ fs1, (fs = [] → fs1 = []) → ∃ n st s' fs',
    sweep_rows fresh others b (map_to_list s) 0 [] s fs1 = (Ok (n, st), s', fs') ∧
    same_values b s' (without_sweep b others (map_to_list s) s) ∧
    (∀ name r, s' !! name = Some r → opens_now b name r ∨ name ∈ st) ∧
    (negb (bool_decide (st = [])) = false ↔ st = []) ∧
    (fs = [] → map_Forall (sealable b) s → st = [])).
  { intros fs1 Hfs.
    destruct (sweep_rows_run b fresh others s Hlen Hothers (map_to_list s) 0 [] s s fs1 Hinv Hnonces)
      as (n & st & s' & fs' & -> & Hi & Hst). exists n, st, s', fs'. split_and!; [done|by apply Hi|..].
    - intros name r Hl. destruct (si_rows _ _ _ _ _ _ Hi name r Hl) as [?|[?|?%not_elem_of_nil]]; auto. done.
    - by rewrite negb_false_iff, bool_decide_eq_true.
    - intros Hf Hs. apply (Hst (Hfs Hf)). apply Forall_forall.
      intros [name r] Hin%elem_of_map_to_list. by apply (Hs name r). }
  unfold Sweep, attempt, query, stmt, mbind, M_bind, mret, M_ret. rewrite Hprev. cbn [negb].
  destruct fs as [|[] fs]; cbn [listed head default negb]; [|by eexists _, _, _|].
  - destruct (Hrun [] ltac:(done)) as (n & st & s' & fs' & -> & Hw). by eexists _, _, _.
  - destruct (Hrun fs ltac:(done)) as (n & st & s' & fs' & -> & Hw). by eexists _, _, _.
Qed.

End Aead.


(** ** Samples

    A cipher that appends a tag of its key, in place of AES-GCM. *)

Definition tag (k : bytes) : bytes := take 16 (k ++ replicate 16 0).
Definition tagged : Aead := {|
  gcm_seal k _ p _ := p ++ tag k;
  gcm_open k _ c _ :=
    if bool_decide (drop (length c - 16) c = tag k) then Some (take (length c - 16) c) else None |}.
Lemma tag_length k : length (tag k) = 16%nat.
Proof. unfold tag. rewrite length_take, length_app, length_replicate. lia. Qed.
Lemma tagged_laws : AeadLaws tagged.
Proof.
  constructor; cbn.
  - intros k _ p _. rewrite length_app, tag_length. replace (length p + 16 - 16)%nat with (length p) by lia.
    by rewrite drop_app_length, take_app_length, bool_decide_eq_true_2.
  - intros k _ p _. rewrite zlen_app. unfold zlen at 2. by rewrite tag_length.
  - intros k _ p _ Hk _ Hp _. apply Forall_app. split; [done|]. apply Forall_take, Forall_app. split; [done|].
    by apply Forall_replicate.
Qed.

Definition key_a : bytes := replicate 32 7.
Definition key_b : bytes := replicate 32 9.
Definition nonce0 : bytes := replicate 12 1.
Definition ex_box : Box := MkBox key_b (Some key_a).
Definition ex_table : table :=
  <["wifi" := MkRow ([104; 105] ++ tag key_a) nonce0 1 0 None]>
  (<["api" := MkRow ([111; 107] ++ tag key_b) nonce0 2 0 (Some 5)]> ∅)%string.
Lemma ex_sealable : map_Forall (@sealable tagged ex_box) ex_table.
Proof.
  unfold ex_table.
  apply map_Forall_insert_2; [|apply map_Forall_insert_2; [|apply map_Forall_empty]];
    (eexists _, _; split; [vm_compute; reflexivity|done]).
Qed.

Lemma put_recovered_witness :
  let s' := (@PutSecret tagged 9 ex_box nonce0 "wifi" [115; 51] ex_table []).1.2 in
  (∀ other, other ≠ "wifi"%string → s' !! other = ex_table !! other) ∧
  (@ResolveSecret tagged (MkBox key_b None) "wifi" s' []).1.1 = Ok [115; 51].
Proof.
  pose proof (@put_recovered tagged tagged_laws 9 ex_box nonce0 "wifi" [115; 51] ex_table [] _ _
    eq_refl ltac:(repeat constructor; done) ltac:(repeat constructor; done) ltac:(repeat constructor; done)
    (ex_intro _ [] eq_refl)) as H. cbv zeta in H |- *. destruct H as (_ & H1 & row & _ & H2).
  split; [exact H1|]. apply (H2 (MkBox key_b None)). by left.
Defined.

Definition ex_req : request := DeviceHttp.ex_request.
Lemma secrets_unseen_witness :
  let x1 := [(1, ex_req, RPut nonce0 "api" (Some "old"%string)); (2, ex_req, RList); (3, ex_req, RGet "wifi")] in
  let x2 := [(1, ex_req, RPut (replicate 12 3) "api" (Some "newer"%string)); (2, ex_req, RList); (3, ex_req, RGet "wifi")] in
  Forall2 same_request x1 x2 ∧
  alike (@serve_all tagged (λ _ _, true) ex_box x1 ex_table []) (@serve_all tagged (λ _ _, true) (MkBox key_a None) x2 ex_table []).
Proof.
  assert (H : Forall2 same_request
    [(1, ex_req, RPut nonce0 "api" (Some "old"%string)); (2, ex_req, RList); (3, ex_req, RGet "wifi")]
    [(1, ex_req, RPut (replicate 12 3) "api" (Some "newer"%string)); (2, ex_req, RList); (3, ex_req, RGet "wifi")]).
  { repeat constructor; done. }
  split; [exact H|]. by apply (@secrets_unseen tagged _ _ _ _ _ _ _ _ H).
Defined.

Lemma sweep_rotates_witness :
  ∃ w s' fs', @Sweep tagged (λ _, nonce0) (λ _, [OPut 3 nonce0 "new" [120]]) ex_box ex_table [] = (Ok w, s', fs') ∧
    stranded w = [] ∧ (∀ r, s' !! "wifi"%string = Some r → @opens_now tagged ex_box "wifi" r) ∧
    @val_of tagged ex_box "wifi" <$> s' !! "wifi"%string = Some (Ok (bytes_of_string "hi")).
Proof.
  destruct (@sweep_rotates tagged tagged_laws ex_box (λ _, nonce0) (λ _, [OPut 3 nonce0 "new" [120]]) ex_table [])
    as (w & s' & fs' & H & Hv & Ho & _ & Hok).
  - done.
  - apply (bool_decide_unpack _). vm_compute. exact I.
  - done.
  - intros _. constructor; [|constructor]. intros r Hr. by vm_compute in Hr.
  - specialize (Hok eq_refl ex_sealable). exists w, s', fs'. split_and!; [exact H|exact Hok|..].
    + intros r Hr. destruct (Ho _ _ Hr) as [Hx|Hin]; [exact Hx|]. exfalso. rewrite Hok in Hin. inversion Hin.
    + rewrite (Hv "wifi"%string). vm_compute. reflexivity.
Defined.

(** A concurrent PUT by a server still on the previous key is not stranded, and
    is lost with that key: the guard takes its row for current. *)
Definition old_server_put (s : table) : table := (@PutSecret tagged 4 (MkBox key_a None) nonce0 "wifi" [110; 101; 119] s []).1.2.
Lemma stale_put_unnoticed :
  let s1 := old_server_put ex_table in
  reseal "wifi" ([104; 105] ++ tag key_b) nonce0 ([104; 105] ++ tag key_a) s1 = (Ok 0, s1) ∧
  (@ResolveSecret tagged (MkBox key_b None) "wifi" s1 []).1.1 = Err EOpen.
Proof. vm_compute. split; reflexivity. Qed.

(** A record whose nonce has another length makes the break-glass command panic
    rather than answer. *)
Lemma break_glass_panics :
  @runSecretDecrypt tagged (env_of (string_of_bytes (hex_encode key_a)) "") (Some (bytes_of_string "AQID:AQID:wifi")) true = (2, []).
Proof. vm_compute. reflexivity. Qed.

End SecretLaws.
