(* ===== verification/Events.v ===== *)
(** * The event stream of the operator panel ([cmd/backend/events.go])

    One broadcast loop diffs the device roster, tails the logs and the telemetry
    and diffs the command cursors, and fans the frames to the mailboxes of the
    connections. The hub, its loop and each connection's handler are one state;
    an operation is a step of it. What the producers' queries answer, whether a
    write succeeds and what the re-authentication says are arguments. *)

From S2P Require Import Prelude GoLib LogQuery DeviceStore AdminGate.
Import GoLib.
Import DeviceStore(Row, Serial, Label, Channel, Bonded).

Module Events.

(** ** Configuration *)

Definition envInt (v : string) (def : Z) : Z :=
  match atoi v with (n, None) => if 0 <? n then n else def | _ => def end.
(** [ParseDuration]: the standard library's, in nanoseconds. *)
Definition envDuration (ParseDuration : string → option Z) (v : string) (def : Z) : Z :=
  if bool_decide (v = ""%string) then def
  else match ParseDuration v with Some d => if 0 <? d then d else def | None => def end.
Definition seconds (n : Z) : Z := n * 1000000000.
Record sseConfig := MkConfig { tick : Z; ping_every : Z; reauth : Z; writeWindow : Z; maxConn : Z }.
Definition loadSSEConfig (ParseDuration : string → option Z) (env : string → string) : sseConfig :=
  let dur k def := envDuration ParseDuration (env k) (seconds def) in
  MkConfig (dur "ADMIN_EVENTS_TICK"%string 5) (dur "ADMIN_SSE_PING"%string 25) (dur "ADMIN_SSE_REAUTH"%string 60)
    (dur "ADMIN_SSE_WRITE_DL"%string 90) (envInt (env "ADMIN_SSE_MAX_CONN"%string) 8).

Definition sseMailbox : Z := 16.

Definition bearerToken (authorization : string) : string :=
  let h := bytes_of_string authorization in
  if AdminGate.fold_prefix "Bearer " h then string_of_bytes (AdminGate.TrimSpace (drop 7 h)) else ""%string.

(** ** Payloads and frames

    [marshal] is [json.Marshal]; a payload it refuses is not sent. *)

Inductive delta_op := Upsert | Remove.
#[global] Instance delta_op_eq_dec : EqDecision delta_op.
Proof. solve_decision. Defined.
Record Cursor := MkCursor { cu_serial : string; cu_applied : Z; cu_polled : option Z }.

(** A handler commits the header and sends the snapshot, then drains. *)
Inductive phase := Opening | Draining | Closed.
#[global] Instance phase_eq_dec : EqDecision phase.
Proof. solve_decision. Defined.

Section Hub.
(** The telemetry producer's events and watermark. *)
Context {Tel WM : Type}.

Inductive payload :=
| PSnapshot (rows : list Row) | PDelta (op : delta_op) (r : Row)
| PLog (e : LogQuery.TailEvent) | PTelemetry (e : Tel) | PCursor (c : Cursor)
| PRevoked.
Record sseFrame := MkFrame { f_name : string; f_data : payload }.

Context (marshal : payload → option bytes).

(** One event on the wire. *)
Definition event_text (name id : string) (data : bytes) : bytes :=
  (if bool_decide (id = ""%string) then []
   else bytes_of_string "id: " ++ bytes_of_string id ++ [10]) ++
  bytes_of_string "event: " ++ bytes_of_string name ++ 10 :: bytes_of_string "data: " ++ data ++ [10; 10].
Definition ping_text : bytes := bytes_of_string ": ping" ++ [10; 10].

Inductive wire := WEvent (f : sseFrame) | WPing.
Definition wire_text (m : wire) : bytes :=
  match m with
  | WEvent f => event_text (f_name f) "" (default [] (marshal (f_data f)))
  | WPing => ping_text
  end.

(** ** The producers *)

Definition rosterIdentity (r : Row) : string :=
  let sep := string_of_bytes [31] in
  (Serial r ++ sep ++ default ""%string (Label r) ++ sep ++ Channel r ++ sep ++
   (if Bonded r then "true" else "false"))%string.

(** The order of a map's iteration is one of many. *)
Definition diffRoster (last cur : gmap string Row) : list (delta_op * Row) :=
  omap (λ kv : string * Row,
          match last !! kv.1 with
          | Some old => if bool_decide (rosterIdentity old = rosterIdentity kv.2) then None else Some (Upsert, kv.2)
          | None => Some (Upsert, kv.2)
          end) (map_to_list cur) ++
  omap (λ kv : string * Row, if bool_decide (is_Some (cur !! kv.1)) then None else Some (Remove, kv.2))
    (map_to_list last).

Definition diffCursors (last : gmap string Z) (cur : list Cursor) : list Cursor * gmap string Z :=
  (List.filter (λ c, negb (bool_decide (last !! cu_serial c = Some (cu_applied c)))) cur,
   foldl (λ m c, <[cu_serial c := cu_applied c]> m) ∅ cur).

Record producers := MkProducers {
  lastSent : gmap string Row; logHW : option LogQuery.Cursor; telemetryHW : option WM;
  cursorState : gmap string Z }.
Definition no_producers : producers := MkProducers ∅ None None ∅.

(** The answers of one tick's queries; [None] is an error. *)
Record polls := MkPolls {
  p_roster : option (list Row);
  p_logs : option (list LogQuery.TailEvent * LogQuery.Cursor);
  p_telemetry : option (list Tel * WM);
  p_cursors : option (list Cursor) }.

(** [broadcastJSON]: the frames to fan out. *)
Definition frame_of (name : string) (v : payload) : list sseFrame :=
  match marshal v with Some _ => [MkFrame name v] | None => [] end.

Definition tickRoster (ans : option (list Row)) (last : gmap string Row) : list sseFrame * gmap string Row :=
  match ans with
  | None => ([], last)
  | Some rows =>
      let cur := foldl (λ m r, <[Serial r := r]> m) ∅ rows in
      (diffRoster last cur ≫= λ d, frame_of "devices" (PDelta d.1 d.2), cur)
  end.
Definition tickLogs (ans : option (list LogQuery.TailEvent * LogQuery.Cursor)) (hw : option LogQuery.Cursor)
    : list sseFrame * option LogQuery.Cursor :=
  match ans with
  | None => ([], hw)
  | Some (evs, nhw) => (evs ≫= λ e, frame_of "log" (PLog e), Some nhw)
  end.
Definition tickTelemetry (ans : option (list Tel * WM)) (hw : option WM) : list sseFrame * option WM :=
  match ans with
  | None => ([], hw)
  | Some (evs, nhw) => (evs ≫= λ e, frame_of "telemetry" (PTelemetry e), Some nhw)
  end.
Definition tickC2Cursor (ans : option (list Cursor)) (last : gmap string Z) : list sseFrame * gmap string Z :=
  match ans with
  | None => ([], last)
  | Some cur => let '(evs, next) := diffCursors last cur in (evs ≫= λ c, frame_of "c2cursor" (PCursor c), next)
  end.
Definition produce (a : polls) (p : producers) : list sseFrame * producers :=
  let '(f1, roster) := tickRoster (p_roster a) (lastSent p) in
  let '(f2, hw) := tickLogs (p_logs a) (logHW p) in
  let '(f3, wm) := tickTelemetry (p_telemetry a) (telemetryHW p) in
  let '(f4, cu) := tickC2Cursor (p_cursors a) (cursorState p) in
  (f1 ++ f2 ++ f3 ++ f4, MkProducers roster hw wm cu).

(** ** The hub *)

Record conn := MkConn { c_ch : list sseFrame; c_done : bool; c_phase : phase; c_wire : list wire; c_token : string }.

(** The loop waits for a tick, fans out, or has seen no subscriber and not yet
    cleared [running]. *)
Inductive loop := Stopped | Waiting (p : producers) | Sending (fs : list sseFrame) (p : producers) | Exiting.

Record sseHub := MkHub { subs : gset nat; running : bool; h_loop : loop; conns : gmap nat conn }.
Definition init : sseHub := MkHub ∅ false Stopped ∅.

(** [None]: at the cap, answered 429. *)
Definition subscribe (max : Z) (i : nat) (token : string) (h : sseHub) : option sseHub :=
  let max := if max <=? 0 then 8 else max in
  if max <=? Z.of_nat (size (subs h)) then None
  else Some (MkHub ({[i]} ∪ subs h) true (if running h then h_loop h else Waiting no_producers)
               (<[i := MkConn [] false Opening [] token]> (conns h))).

Definition unsubscribe (i : nat) (h : sseHub) : sseHub :=
  MkHub (subs h ∖ {[i]}) (running h) (h_loop h) (conns h).

Definition has_room (c : conn) : bool := zlen (c_ch c) <? sseMailbox.
Definition offer (f : sseFrame) (c : conn) : conn :=
  if has_room c then MkConn (c_ch c ++ [f]) (c_done c) (c_phase c) (c_wire c) (c_token c)
  else MkConn (c_ch c) true (c_phase c) (c_wire c) (c_token c).
Definition broadcast (f : sseFrame) (h : sseHub) : sseHub :=
  MkHub (filter (λ i, default false (has_room <$> conns h !! i) = true) (subs h))
    (running h) (h_loop h)
    (map_imap (λ i c, Some (if bool_decide (i ∈ subs h) then offer f c else c)) (conns h)).

Definition set_loop (l : loop) (h : sseHub) : sseHub := MkHub (subs h) (running h) l (conns h).

(** One action of the loop: its count of subscribers at a tick, one frame, the
    end of a fan-out, the deferred clearing of [running]. *)
Definition loop_act (a : polls) (h : sseHub) : sseHub :=
  match h_loop h with
  | Stopped => h
  | Waiting p =>
      if bool_decide (subs h = ∅) then set_loop Exiting h
      else let '(fs, p') := produce a p in set_loop (Sending fs p') h
  | Sending (f :: fs) p => set_loop (Sending fs p) (broadcast f h)
  | Sending [] p => set_loop (Waiting p) h
  | Exiting => MkHub (subs h) false Stopped (conns h)
  end.

(** ** A connection's handler *)

Definition set_conn (i : nat) (c : conn) (h : sseHub) : sseHub :=
  MkHub (subs h) (running h) (h_loop h) (<[i := c]> (conns h)).
(** The return, with the deferred unsubscribe. *)
Definition close_conn (i : nat) (c : conn) (h : sseHub) : sseHub :=
  unsubscribe i (set_conn i (MkConn (c_ch c) (c_done c) Closed (c_wire c) (c_token c)) h).
(** A write: a failed one ends the stream. *)
Definition write (ok : bool) (i : nat) (m : wire) (ph : phase) (c : conn) (h : sseHub) : sseHub :=
  if ok then set_conn i (MkConn (c_ch c) (c_done c) ph (c_wire c ++ [m]) (c_token c)) h
  else close_conn i c h.

Inductive act :=
| ASnapshot (rows : option (list Row)) (ok : bool)   (* the roster's answer *)
| ADrain (ok : bool)
| APing (ok : bool)
| AReauth (authenticate : string → option bool) (ok : bool)   (* [None]: an error *)
| ALeave                                             (* the client disconnects *)
| ADropped.

(** What the handler does on one of its events; [None] where it is not waiting
    for it. *)
Definition handle (i : nat) (x : act) (h : sseHub) : option sseHub :=
  c ← conns h !! i;
  match c_phase c, x with
  | Opening, ASnapshot rows ok =>
      match rows with
      | Some rows =>
          match marshal (PSnapshot rows) with
          | Some _ => Some (write ok i (WEvent (MkFrame "snapshot" (PSnapshot rows))) Draining c h)
          | None => Some (set_conn i (MkConn (c_ch c) (c_done c) Draining (c_wire c) (c_token c)) h)
          end
      | None => Some (set_conn i (MkConn (c_ch c) (c_done c) Draining (c_wire c) (c_token c)) h)
      end
  | Draining, ADrain ok =>
      match c_ch c with
      | [] => None
      | f :: ch => Some (write ok i (WEvent f) Draining (MkConn ch (c_done c) Draining (c_wire c) (c_token c)) h)
      end
  | Draining, APing ok => Some (write ok i WPing Draining c h)
  | Draining, AReauth authenticate ok =>
      match authenticate (c_token c) with
      | Some true => Some h
      | _ =>
          let c := if ok : bool
                   then MkConn (c_ch c) (c_done c) Draining (c_wire c ++ [WEvent (MkFrame "error" PRevoked)]) (c_token c)
                   else c in
          Some (close_conn i c h)
      end
  | Draining, ALeave => Some (close_conn i c h)
  | Draining, ADropped => if c_done c then Some (close_conn i c h) else None
  | _, _ => None
  end.

(** ** Runs *)

(** The frame an action of the loop fans out. *)
Definition said (h : sseHub) : list sseFrame :=
  match h_loop h with Sending (f :: _) _ => [f] | _ => [] end.

(** A step, with the frames it fans out. *)
Inductive step (max : Z) : sseHub → list sseFrame → sseHub → Prop :=
| SSubscribe i token h h' : conns h !! i = None → subscribe max i token h = Some h' → step max h [] h'
| SLoop a h : step max h (said h) (loop_act a h)
| SHandle i x h h' : handle i x h = Some h' → step max h [] h'.
Inductive run (max : Z) (h : sseHub) : list sseFrame → sseHub → Prop :=
| RNil : run max h [] h
| RStep l1 h1 l2 h2 : run max h l1 h1 → step max h1 l2 h2 → run max h (l1 ++ l2) h2.

End Hub.

Arguments sseHub : clear implicits.
Arguments conn : clear implicits.
Arguments payload : clear implicits.
Arguments sseFrame : clear implicits.
Arguments producers : clear implicits.
Arguments loop : clear implicits.

End Events.

(** * What the event stream promises

    The hub's invariant under every interleaving of the loop, the connections
    and their handlers; no frame lost, repeated or out of order for a connection
    that stays; the roster a panel shows; and the framing. *)

From S2P Require Import Prelude GoLib LogQuery DeviceStore Crypto Credentials CredentialLaws AdminGate Net DeviceHttp.
Import GoLib Events.
Import DeviceStore(Row, Serial, Label, Channel, Bonded).

Module EventLaws.

Section Hub.
Context {Tel WM : Type} (marshal : payload Tel → option bytes).
Implicit Types (h : sseHub Tel WM) (c : conn Tel) (f : sseFrame Tel).

(** ** The invariant *)

Definition cap (max : Z) : Z := if max <=? 0 then 8 else max.

(** Frames the loop sends: not a handler's own. *)
Definition live f : bool := match f_data f with PSnapshot _ | PRevoked => false | _ => true end.
Definition sent c : list (sseFrame Tel) :=
  omap (λ m, match m with WEvent f => if live f then Some f else None | WPing => None end) (c_wire c).
(** Everything a connection was offered. *)
Definition stream c : list (sseFrame Tel) := sent c ++ c_ch c.

Definition snapshot (m : @wire Tel) : bool := match m with WEvent (MkFrame _ (PSnapshot _)) => true | _ => false end.

Record conn_ok c : Prop := {
  co_room : zlen (c_ch c) ≤ sseMailbox;
  co_live : Forall (λ f, live f = true) (c_ch c);
  co_opening : c_phase c = Opening → c_wire c = [];
  co_snapshot : Forall (λ m, snapshot m = false) (tail (c_wire c)) }.

Record hub_ok (max : Z) h : Prop := {
  ho_cap : Z.of_nat (size (subs h)) ≤ cap max;
  ho_conns : ∀ i c, conns h !! i = Some c → conn_ok c ∧ (i ∈ subs h ↔ c_done c = false ∧ c_phase c ≠ Closed);
  ho_subs : ∀ i, i ∈ subs h → is_Some (conns h !! i);
  ho_running : running h = false ↔ h_loop h = Stopped;
  ho_live : ∀ fs p, h_loop h = Sending fs p → Forall (λ f, live f = true) fs }.

Lemma produce_live a (p : producers WM) : Forall (λ f, live f = true) (produce marshal a p).1.
Proof.
  assert (Hf : ∀ n v, live (MkFrame n v) = true → Forall (λ f, live f = true) (frame_of marshal n v)).
  { intros n v Hv. unfold frame_of. destruct (marshal v); by repeat constructor. }
  assert (Hb : ∀ {A} (g : A → list (sseFrame Tel)) l, (∀ x, Forall (λ f, live f = true) (g x)) →
            Forall (λ f, live f = true) (l ≫= g)).
  { intros A g l Hg. induction l; cbn; [constructor|]. by apply Forall_app. }
  unfold produce. destruct (tickRoster _ _ _) as [f1 r] eqn:H1, (tickLogs _ _ _) as [f2 hw] eqn:H2,
    (tickTelemetry _ _ _) as [f3 wm] eqn:H3, (tickC2Cursor _ _ _) as [f4 cu] eqn:H4.
  cbn. rewrite !Forall_app. split_and!.
  - unfold tickRoster in H1. destruct (p_roster a); injection H1 as <- _; [|constructor].
    apply Hb. intros ?. by apply Hf.
  - unfold tickLogs in H2. destruct (p_logs a) as [[??]|]; injection H2 as <- _; [|constructor].
    apply Hb. intros ?. by apply Hf.
  - unfold tickTelemetry in H3. destruct (p_telemetry a) as [[??]|]; injection H3 as <- _; [|constructor].
    apply Hb. intros ?. by apply Hf.
  - unfold tickC2Cursor in H4. destruct (p_cursors a) as [cs|]; [|by injection H4 as <- _].
    destruct (diffCursors _ _) as [??]. injection H4 as <- _. apply Hb. intros ?. by apply Hf.
Qed.

Lemma broadcast_lookup f h i : conns (broadcast f h) !! i =
  (λ c, if bool_decide (i ∈ subs h) then offer f c else c) <$> conns h !! i.
Proof. cbn. rewrite map_lookup_imap. by destruct (conns h !! i). Qed.
Lemma broadcast_subs f h i : i ∈ subs (broadcast f h) ↔ i ∈ subs h ∧ ∃ c, conns h !! i = Some c ∧ has_room c = true.
Proof.
  cbn. rewrite elem_of_filter. destruct (conns h !! i) as [c|]; cbn; split; intros [H1 H2]; split; try done.
  - by exists c.
  - by destruct H2 as (? & [= <-] & ?).
  - by destruct H2 as (? & ? & ?).
Qed.

Lemma set_loop_ok max l h : hub_ok max h → h_loop h ≠ Stopped → l ≠ Stopped →
  (∀ fs p, l = Sending fs p → Forall (λ f, live f = true) fs) → hub_ok max (set_loop l h).
Proof. intros [H1 H2 H3 H4 H5] Hs Hl Hf. constructor; cbn; [done..| |done]. split; [by intros ?%H4|done]. Qed.

Lemma broadcast_ok max f h : live f = true → hub_ok max h → hub_ok max (broadcast f h).
Proof.
  intros Hf [H1 H2 H3 H4 H5]. constructor; [..|done|done].
  - etrans; [|exact H1]. apply inj_le, subseteq_size. intros i. rewrite broadcast_subs. by intros [? _].
  - intros i c Hc. rewrite broadcast_lookup in Hc. destruct (conns h !! i) as [c0|] eqn:H0; [|done].
    cbn in Hc. injection Hc as <-. destruct (H2 i c0 H0) as [[Ha Hb Hc He] Hd]. rewrite broadcast_subs, H0.
    case_bool_decide as Hin.
    + unfold offer. destruct (has_room c0) eqn:Hr; (split; [constructor; cbn|cbn]); try done.
      * unfold has_room in Hr. apply Z.ltb_lt in Hr. rewrite zlen_app. change (zlen [f]) with 1. lia.
      * apply Forall_app. split; [done|by repeat constructor].
      * rewrite <- Hd. naive_solver.
      * split; [intros [_ (? & [= <-] & ?)]; congruence|by intros [? _]].
    + split; [by constructor|]. rewrite <- Hd. naive_solver.
  - intros i. rewrite broadcast_subs, broadcast_lookup. intros [_ (c & -> & _)]. by eexists.
Qed.

Lemma loop_act_ok max a h : hub_ok max h → hub_ok max (loop_act marshal a h).
Proof.
  intros H. unfold loop_act. destruct (h_loop h) as [|p|[|f fs] p|] eqn:Hl; [done|..].
  - case_bool_decide; [apply set_loop_ok; congruence|]. destruct (produce marshal a p) as [fs p'] eqn:Hp.
    apply set_loop_ok; try congruence. intros fs' p2 [= -> ->]. pose proof (produce_live a p) as Hx. by rewrite Hp in Hx.
  - apply set_loop_ok; congruence.
  - pose proof (ho_live _ _ H _ _ Hl) as Hf. apply Forall_cons in Hf as [Hf Hfs].
    apply set_loop_ok; [by apply broadcast_ok|cbn; congruence|done|]. intros ? ? [= <- <-]. done.
  - destruct H as [H1 H2 H3 H4 H5]. constructor; cbn; done.
Qed.

Lemma subscribe_ok max i token h h' : conns h !! i = None → subscribe max i token h = Some h' →
  hub_ok max h → hub_ok max h'.
Proof.
  unfold subscribe. fold (cap max). intros Hi Hs [H1 H2 H3 H4 H5].
  destruct (Z.leb_spec (cap max) (Z.of_nat (size (subs h)))); [done|]. injection Hs as <-.
  assert (Hni : i ∉ subs h) by (intros Hin; apply H3 in Hin as [c Hc]; congruence).
  constructor; cbn.
  - rewrite size_union by set_solver. rewrite size_singleton. lia.
  - intros k c. destruct (decide (k = i)) as [->|Hk].
    + rewrite lookup_insert_eq. intros [= <-]. split; [by constructor; cbn|]. cbn. set_solver.
    + rewrite lookup_insert_ne by done. intros Hc. destruct (H2 k c Hc) as [? Hd]. split; [done|].
      rewrite <- Hd. set_solver.
  - intros k Hk. destruct (decide (k = i)) as [->|?]; [by rewrite lookup_insert_eq|].
    rewrite lookup_insert_ne by done. apply H3. set_solver.
  - destruct (running h) eqn:Hr; [|done]. split; [done|]. intros ?. apply H4. done.
  - intros fs p. destruct (running h); [apply H5|done].
Qed.

(** A handler changes its own connection; it stays subscribed unless it returns. *)
Lemma conn_step_ok max i c c' h (keep : bool) :
  conns h !! i = Some c → conn_ok c' → c_done c' = c_done c →
  (if keep then c_phase c' ≠ Closed ∧ c_phase c ≠ Closed else c_phase c' = Closed) →
  hub_ok max h → hub_ok max (if keep then set_conn i c' h else unsubscribe i (set_conn i c' h)).
Proof.
  intros Hc Hok Hd Hk [H1 H2 H3 H4 H5]. destruct (H2 i c Hc) as [_ Hi]. destruct keep; constructor; cbn; try done.
  - intros k x. destruct (decide (k = i)) as [->|Hne].
    + rewrite lookup_insert_eq. intros [= <-]. split; [done|]. rewrite Hi, Hd. naive_solver.
    + rewrite lookup_insert_ne by done. apply H2.
  - intros k Hin. destruct (decide (k = i)) as [->|Hne]; [by rewrite lookup_insert_eq|].
    rewrite lookup_insert_ne by done. by apply H3.
  - etrans; [|exact H1]. apply inj_le, subseteq_size. set_solver.
  - intros k x. destruct (decide (k = i)) as [->|Hne].
    + rewrite lookup_insert_eq. intros [= <-]. split; [done|]. split; [set_solver|intros [_ ?]; congruence].
    + rewrite lookup_insert_ne by done. intros Hx. destruct (H2 k x Hx) as [? Hd']. split; [done|].
      rewrite <- Hd'. set_solver.
  - intros k Hin. destruct (decide (k = i)) as [->|Hne]; [set_solver|].
    rewrite lookup_insert_ne by done. apply H3. set_solver.
Qed.

(** The effect of a handler's event, by its connection. *)
Record handled c c' (keep : bool) : Prop := {
  ha_ok : conn_ok c → conn_ok c';
  ha_done : c_done c' = c_done c;
  ha_phase : if keep then c_phase c' ≠ Closed ∧ c_phase c ≠ Closed else c_phase c' = Closed;
  ha_stream : conn_ok c → keep = true → stream c' = stream c;
  ha_sent : conn_ok c → sent c' `prefix_of` stream c }.

Lemma snap_tail (w : list (@wire Tel)) m : Forall (λ m, snapshot m = false) (tail w) → w = [] ∨ snapshot m = false →
  Forall (λ m, snapshot m = false) (tail (w ++ [m])).
Proof.
  intros Hw [-> |Hm]; [by constructor|]. destruct w; [by constructor|]. cbn. apply Forall_app. by repeat constructor.
Qed.
Lemma sent_snoc ch d ph (w : list (@wire Tel)) m tk :
  sent (MkConn ch d ph (w ++ [m]) tk) =
  sent (MkConn ch d ph w tk) ++ match m with WEvent f => if live f then [f] else [] | WPing => [] end.
Proof. unfold sent. cbn. rewrite omap_app. f_equal. cbn. by destruct m as [f|]; [destruct (live f)|]. Qed.

Lemma handle_cases i x h h' : handle marshal i x h = Some h' →
  h' = h ∨ ∃ c c' (keep : bool), conns h !! i = Some c ∧ handled c c' keep ∧
    h' = if keep then set_conn i c' h else unsubscribe i (set_conn i c' h).
Proof.
  unfold handle. destruct (conns h !! i) as [[ch d ph w tk]|] eqn:Hc; [|done]. cbn [mbind option_bind c_phase].
  assert (Hsame : ∀ keep ph' m, ph ≠ Closed → (match m with WEvent f => live f = false | WPing => True end) →
    (snapshot m = true → ph = Opening) → (ph' = Opening → False) →
    (if keep : bool then ph' ≠ Closed else ph' = Closed) →
    handled (MkConn ch d ph w tk) (MkConn ch d ph' (w ++ [m]) tk) keep).
  { intros keep ph' m Hph Hm Hs Ho Hk.
    assert (Hsent : sent (MkConn ch d ph' (w ++ [m]) tk) = sent (MkConn ch d ph w tk)).
    { rewrite sent_snoc. destruct m as [f|]; [rewrite Hm|]; by rewrite app_nil_r. }
    constructor; [|done|by destruct keep|..].
    - intros [H1 H2 H3 H4]. constructor; cbn in *; try done. apply snap_tail; [done|].
      destruct (snapshot m); [left|right]; auto.
    - intros _ _. unfold stream. by rewrite Hsent.
    - intros _. rewrite Hsent. by eexists. }
  assert (Hphase : ∀ keep ph', ph ≠ Closed → (ph' = Opening → False) → (if keep : bool then ph' ≠ Closed else ph' = Closed) →
    handled (MkConn ch d ph w tk) (MkConn ch d ph' w tk) keep).
  { intros keep ph' Hph Ho Hk. constructor; cbn; [|done|by destruct keep|done|].
    - intros [H1 H2 H3 H4]. by constructor.
    - intros _. by eexists. }
  destruct ph, x as [rows ok|ok|ok|auth ok| |]; try done.
  - destruct rows as [rows|]; [destruct (marshal _)|]; intros [= <-]; right.
    + destruct ok; [eexists _, _, true|eexists _, _, false]; (split; [done|split; [|done]]); [by apply Hsame|by apply Hphase].
    + eexists _, _, true. split; [done|split; [|done]]. by apply Hphase.
    + eexists _, _, true. split; [done|split; [|done]]. by apply Hphase.
  - cbn [c_ch]. destruct ch as [|f ch]; [done|]. intros [= <-]. right.
    assert (Hlive : Forall (λ f, live f = true) (f :: ch) → snapshot (WEvent f) = false).
    { intros [Hf _]%Forall_cons. unfold live in Hf. cbn. destruct f as [n []]; done. }
    destruct ok; [eexists _, _, true|eexists _, _, false]; (split; [done|split; [|done]]).
    + assert (Hsent : live f = true → stream (MkConn ch d Draining (w ++ [WEvent f]) tk) =
                stream (MkConn (f :: ch) d Draining w tk)).
      { intros Hf. unfold stream. rewrite sent_snoc, Hf. cbn. by rewrite <- app_assoc. }
      constructor; [|done|by split|..].
      * intros [H1 H2 H3 H4]. constructor; cbn in *; [unfold zlen in *; cbn in *; lia|by apply Forall_cons in H2 as [_ ?]|done|].
        apply snap_tail; [done|right; auto].
      * intros [_ H2 _ _] _. apply Hsent. by apply Forall_cons in H2 as [Hf _].
      * intros [_ H2 _ _]. rewrite <- Hsent by (by apply Forall_cons in H2 as [Hf _]). by eexists.
    + constructor; cbn; [|done|done|done|intros _; by eexists].
      intros [H1 H2 H3 H4]. constructor; cbn in *; [unfold zlen in *; cbn in *; lia|by apply Forall_cons in H2 as [_ ?]|done|done].
  - intros [= <-]. right.
    destruct ok; [eexists _, _, true|eexists _, _, false]; (split; [done|split; [|done]]); [by apply Hsame|by apply Hphase].
  - cbn [c_token]. destruct (auth tk) as [[]|]; [intros [= <-]; by left|..]; intros [= <-]; right;
      destruct ok; eexists _, _, false; (split; [done|split; [|done]]); [by apply Hsame|by apply Hphase|by apply Hsame|by apply Hphase].
  - intros [= <-]. right. eexists _, _, false. split; [done|split; [|done]]. by apply Hphase.
  - cbn [c_done]. destruct d eqn:Hd; [|done]. intros [= <-]. right. eexists _, _, false.
    split; [done|split; [|done]]. by apply Hphase.
Qed.

Lemma hub_step_ok max h l h' : step marshal max h l h' → hub_ok max h → hub_ok max h'.
Proof.
  intros [i tk h0 h1 Hi Hs|a h0|i x h0 h1 Hx] H; [by eapply subscribe_ok|by apply loop_act_ok|].
  destruct (handle_cases _ _ _ _ Hx) as [-> |(c & c' & keep & Hc & Hh & ->)]; [done|].
  eapply conn_step_ok; [done|by apply Hh, (ho_conns _ _ H i c Hc)|by apply Hh|by apply Hh|done].
Qed.

Lemma init_ok max : hub_ok max init.
Proof. constructor; cbn; try done. unfold cap. rewrite size_empty. destruct (Z.leb_spec max 0); lia. Qed.

Lemma run_ok max h l h' : run marshal max h l h' → hub_ok max h → hub_ok max h'.
Proof. induction 1; eauto using hub_step_ok. Qed.

(** ** What a connection is sent *)

(** The frames fanned out, for a connection that is subscribed. *)
Definition got (i : nat) h (l : list (sseFrame Tel)) := if decide (i ∈ subs h) then l else [].

Lemma step_conn max h l h' i c : step marshal max h l h' → hub_ok max h → conns h !! i = Some c →
  ∃ c', conns h' !! i = Some c' ∧ (i ∈ subs h' → i ∈ subs h ∧ stream c' = stream c ++ l) ∧
        sent c' `prefix_of` stream c ∧ (c_phase c' ≠ Closed → stream c' `prefix_of` stream c ++ got i h l) ∧
        (c_phase c = Closed → c' = c).
Proof.
  intros [k tk h0 h1 Hi Hs|a h0|k x h0 h1 Hx] H Hc.
  - unfold subscribe in Hs. destruct (_ <=? _); [done|]. injection Hs as <-. exists c. cbn.
    assert (Hne : k ≠ i) by (by intros ->; congruence). rewrite lookup_insert_ne by done.
    rewrite app_nil_r. split_and!; [done|intros Hin; split; [set_solver|done]|by eexists|intros _; by apply prefix_app_r|done].
  - assert (Hkeep : ∀ l, ∃ c', conns (set_loop l h0) !! i = Some c' ∧
      (i ∈ subs (set_loop l h0) → i ∈ subs h0 ∧ stream c' = stream c ++ []) ∧ sent c' `prefix_of` stream c ∧
      (c_phase c' ≠ Closed → stream c' `prefix_of` stream c ++ got i h0 []) ∧ (c_phase c = Closed → c' = c)).
    { intros l'. exists c. rewrite app_nil_r. split_and!; [done|done|by eexists|intros _; by apply prefix_app_r|done]. }
    unfold said, loop_act. destruct (h_loop h0) as [|p|[|f fs] p|] eqn:Hl; try apply (Hkeep (h_loop h0)); try apply Hkeep.
    + destruct (bool_decide _); [apply Hkeep|]. destruct (produce marshal a p). apply Hkeep.
    + cbn [subs conns set_loop]. exists (if bool_decide (i ∈ subs h0) then offer f c else c).
      assert (Hoff : stream (offer f c) = stream c ++ (if has_room c then [f] else [])).
      { unfold offer. destruct (has_room c); unfold stream, sent; cbn; [by rewrite app_assoc|by rewrite app_nil_r]. }
      assert (Hsent : sent (offer f c) = sent c) by (unfold offer; by destruct (has_room c)).
      split; [rewrite broadcast_lookup; by rewrite Hc|]. split_and!.
      * rewrite broadcast_subs. intros [Hin (c2 & Hc2 & Hr)]. split; [done|]. rewrite bool_decide_eq_true_2 by done.
        rewrite Hc in Hc2. injection Hc2 as <-. by rewrite Hoff, Hr.
      * case_bool_decide; rewrite ?Hsent; by eexists.
      * intros _. unfold got. rewrite decide_bool_decide. case_bool_decide; [|by apply prefix_app_r].
        rewrite Hoff. destruct (has_room c); [done|]. rewrite app_nil_r. by apply prefix_app_r.
      * intros Hcl. destruct (ho_conns _ _ H i c Hc) as [_ Hi]. rewrite bool_decide_eq_false_2; [done|]. tauto.
  - destruct (handle_cases _ _ _ _ Hx) as [-> |(c0 & c1 & keep & Hc0 & Hh & ->)].
    { exists c. rewrite app_nil_r. split_and!; [done|done|by eexists|intros _; by apply prefix_app_r|done]. }
    destruct (decide (k = i)) as [->|Hne].
    + rewrite Hc in Hc0. injection Hc0 as <-. pose proof (proj1 (ho_conns _ _ H i c Hc)) as Hok.
      assert (Hopen : c_phase c ≠ Closed) by (unfold handle in Hx; rewrite Hc in Hx; cbn in Hx; by destruct (c_phase c)).
      destruct Hh as [_ _ Hph Hst Hse]. exists c1. destruct keep; cbn; rewrite lookup_insert_eq, app_nil_r.
      * split_and!; [done|intros ?; split; [done|by apply Hst]|by apply Hse| |done].
        intros _. rewrite Hst by done. by apply prefix_app_r.
      * split_and!; [done|set_solver|by apply Hse|by intros Hn; destruct Hn|done].
    + exists c. destruct keep; cbn; rewrite lookup_insert_ne, app_nil_r by done;
        split_and!; try done; try (by eexists); try (intros _; by apply prefix_app_r). set_solver.
Qed.

(** C26. Frames reach a connection exactly: under every interleaving of the loop,
    the subscriptions and the handlers, whatever fails, the hub holds at most its
    cap of connections, each with a mailbox of at most 16 frames; a connection
    still subscribed has been offered, after what it already had, every frame
    fanned out since, once and in order; and what any connection, dropped ones
    included, has written is a prefix of that. *)
Theorem stream_exact max h0 h i c l0 l (H0 : run marshal max init l0 h0) (Hc : conns h0 !! i = Some c)
    (H : run marshal max h0 l h) :
  Z.of_nat (size (subs h)) ≤ cap max ∧
  ∃ c', conns h !! i = Some c' ∧ zlen (c_ch c') ≤ sseMailbox ∧
    (i ∈ subs h → i ∈ subs h0 ∧ c_done c' = false ∧ stream c' = stream c ++ l) ∧
    sent c' `prefix_of` stream c ++ l.
Proof.
  pose proof (run_ok _ _ _ _ H0 (init_ok max)) as Hok0.
  assert (Hrun : ∃ c', conns h !! i = Some c' ∧ (i ∈ subs h → i ∈ subs h0 ∧ stream c' = stream c ++ l) ∧
    (c_phase c' ≠ Closed → stream c' `prefix_of` stream c ++ l) ∧ sent c' `prefix_of` stream c ++ l).
  { induction H as [|l1 h1 l2 h2 Hr IH Hs].
    - exists c. rewrite app_nil_r. split_and!; [done|done|by intros _|by eexists].
    - destruct IH as (c1 & Hc1 & Hin1 & Hst1 & Hse1). pose proof (run_ok _ _ _ _ Hr Hok0) as Hok1.
      destruct (step_conn _ _ _ _ _ _ Hs Hok1 Hc1) as (c2 & Hc2 & Hin2 & Hse2 & Hst2 & Hcl). rewrite app_assoc.
      exists c2. split; [done|]. destruct (decide (c_phase c1 = Closed)) as [Hd|Hd].
      + rewrite (Hcl Hd) in *. split_and!; [|done|by apply prefix_app_r].
        intros Hin. destruct (Hin2 Hin) as [Hin' _]. by apply (ho_conns _ _ Hok1 i c1 Hc1) in Hin' as [_ ?].
      + specialize (Hst1 Hd). split_and!.
        * intros Hin. destruct (Hin2 Hin) as [Hin' ->]. destruct (Hin1 Hin') as [? ->]. done.
        * intros Hd2. specialize (Hst2 Hd2). unfold got in Hst2. destruct (decide (i ∈ subs h1)) as [Hin|Hin].
          -- by destruct (Hin1 Hin) as [_ <-].
          -- rewrite app_nil_r in Hst2. apply prefix_app_r. by etrans.
        * etrans; [exact Hse2|]. by apply prefix_app_r. }
  pose proof (run_ok _ _ _ _ H Hok0) as Hok. split; [apply Hok|].
  destruct Hrun as (c' & Hc' & Hin & _ & Hse). exists c'. destruct (ho_conns _ _ Hok i c' Hc') as [[Hroom _ _ _] Hi].
  split_and!; [done|done| |done]. intros Hs. destruct (Hin Hs). apply Hi in Hs as [? _]. done.
Qed.


(** ** The roster a panel shows *)

(** What the last delta about a serial says of it, if there was one. *)
Definition about_step (s : string) (acc : option (option Row)) f : option (option Row) :=
  match f_data f with
  | PDelta op r => if bool_decide (Serial r = s) then Some (match op with Upsert => Some r | Remove => None end) else acc
  | _ => acc
  end.
Definition last_about (s : string) (l : list (sseFrame Tel)) : option (option Row) := foldl (about_step s) None l.

(** The panel: a snapshot replaces its list, a delta changes a row. *)
Definition roster_of (rows : list Row) : gmap string Row := foldl (λ m r, <[Serial r := r]> m) ∅ rows.
Definition show (m : gmap string Row) (w : @wire Tel) : gmap string Row :=
  match w with
  | WEvent f => match f_data f with
                | PSnapshot rows => roster_of rows
                | PDelta Upsert r => <[Serial r := r]> m
                | PDelta Remove r => delete (Serial r) m
                | _ => m
                end
  | WPing => m
  end.
Definition panel c : gmap string Row := foldl show ∅ (c_wire c).
(** Its list after the snapshot. *)
Definition panel_base c : gmap string Row :=
  match c_wire c with w :: _ => if snapshot w then show ∅ w else ∅ | [] => ∅ end.

(** Equal up to the columns that are not diffed. *)
Definition agree (a b : option Row) : Prop := rosterIdentity <$> a = rosterIdentity <$> b.

Lemma last_about_app s l1 l2 : last_about s (l1 ++ l2) =
  match last_about s l2 with Some v => Some v | None => last_about s l1 end.
Proof.
  unfold last_about. rewrite foldl_app. generalize (foldl (about_step s) None l1) as acc. intros acc.
  revert acc. induction l2 as [|f l2 IH] using rev_ind; intros acc; [done|]. rewrite !foldl_app. cbn.
  rewrite (IH acc). unfold about_step at 1 3. destruct (f_data f); try done. by case_bool_decide.
Qed.
Lemma last_about_Some s l v : last_about s l = Some v →
  ∃ n op r, MkFrame n (PDelta op r) ∈ l ∧ Serial r = s ∧ v = match op with Upsert => Some r | Remove => None end.
Proof.
  induction l as [|f l IH] using rev_ind; [done|]. rewrite last_about_app. cbn. unfold about_step at 1.
  destruct f as [n []]; cbn; try (intros Hv; destruct (IH Hv) as (? & ? & ? & ? & ?); eexists _, _, _; by rewrite elem_of_app; eauto).
  case_bool_decide as Hs.
  - intros [= <-]. eexists n, op, r. rewrite elem_of_app. split; [right; left|done].
  - intros Hv. destruct (IH Hv) as (? & ? & ? & ? & ?). eexists _, _, _. rewrite elem_of_app. eauto.
Qed.
Lemma last_about_is_Some s l n op r : MkFrame n (PDelta op r) ∈ l → Serial r = s → is_Some (last_about s l).
Proof.
  intros [l1 [l2 ->]]%list_elem_of_split Hs. rewrite last_about_app. change (MkFrame n (PDelta op r) :: l2) with ([MkFrame n (PDelta op r)] ++ l2).
  rewrite last_about_app. destruct (last_about s l2); [by eexists|]. cbn. unfold about_step. cbn.
  rewrite bool_decide_eq_true_2 by done. by eexists.
Qed.

Lemma panel_lookup c s : conn_ok c → panel c !! s = default (panel_base c !! s) (last_about s (sent c)).
Proof.
  intros [_ _ _ Hsnap]. unfold panel, panel_base, sent.
  assert (Hgen : ∀ w m, Forall (λ m, snapshot m = false) w → foldl show m w !! s =
    default (m !! s) (last_about s (omap (λ m, match m with WEvent f => if live f then Some f else None | WPing => None end) w))).
  { intros w m. induction w as [|x w IH] using rev_ind; [done|]. intros [Hw Hx]%Forall_app.
    apply Forall_cons in Hx as [Hx _]. rewrite foldl_app, omap_app, last_about_app. cbn. specialize (IH Hw).
    destruct x as [[n []]|]; cbn in *; try done.
    destruct op; cbn; unfold about_step; cbn; (case_bool_decide as Hs; [subst s|]); cbn;
      rewrite ?lookup_insert_eq, ?lookup_delete_eq, ?lookup_insert_ne, ?lookup_delete_ne by done; done. }
  destruct (c_wire c) as [|x w]; [done|]. cbn [tail] in Hsnap. destruct (snapshot x) eqn:Hx.
  - cbn [foldl]. rewrite Hgen by done. by destruct x as [[n []]|].
  - rewrite Hgen by by constructor. done.
Qed.

(** Each serial is the key of its row. *)
Definition keyed (m : gmap string Row) : Prop := map_Forall (λ s r, Serial r = s) m.
Lemma roster_keyed rows : keyed (roster_of rows).
Proof.
  unfold roster_of. assert (H : ∀ m, keyed m → keyed (foldl (λ m r, <[Serial r := r]> m) m rows)).
  { induction rows as [|r rows IH]; intros m Hm; [done|]. apply IH. by apply map_Forall_insert_2. }
  apply H, map_Forall_empty.
Qed.

Section Roster.
(** A row always has a JSON text. *)
Hypothesis marshals : ∀ op r, is_Some (marshal (PDelta op r)).

Lemma diff_about last cur s : keyed last → keyed cur →
  let fs := diffRoster last cur ≫= λ d, frame_of marshal "devices" (PDelta d.1 d.2) in
  match last_about s fs with
  | Some v => agree v (cur !! s)
  | None => agree (last !! s) (cur !! s)
  end.
Proof.
  intros Hl Hc fs.
  assert (Hin : ∀ op r, (op, r) ∈ diffRoster last cur → ∃ n, MkFrame n (PDelta op r) ∈ fs).
  { intros op r Hd. exists "devices"%string. unfold fs. apply list_elem_of_bind. exists (op, r). split; [|done].
    unfold frame_of. cbn [fst snd]. destruct (marshals op r) as [x ->]. by left. }
  destruct (last_about s fs) as [v|] eqn:Ha.
  - apply last_about_Some in Ha as (n & op & r & Hf & Hs & ->). unfold fs in Hf.
    apply list_elem_of_bind in Hf as ([op' r'] & Hf & Hd). unfold frame_of in Hf. cbn in Hf.
    destruct (marshal (PDelta op' r')); [|by apply not_elem_of_nil in Hf].
    apply list_elem_of_singleton in Hf as [= _ -> ->]. unfold diffRoster in Hd.
    apply elem_of_app in Hd as [Hd|Hd]; apply list_elem_of_omap in Hd as ([k x] & Hk & Hd); cbn in Hd;
      apply elem_of_map_to_list in Hk.
    + assert (Hx : op' = Upsert ∧ r' = x).
      { destruct (last !! k); [destruct (bool_decide _)|]; by simplify_eq. }
      destruct Hx as [-> ->]. pose proof (Hc _ _ Hk) as Hk'. cbn in Hk'. subst. by rewrite Hk.
    + case_bool_decide as Hn; [done|]. injection Hd as <- <-. pose proof (Hl _ _ Hk) as Hk'. cbn in Hk'. subst.
      destruct (cur !! Serial x); [by destruct Hn|done].
  - unfold agree. destruct (cur !! s) as [r|] eqn:Hr.
    + destruct (last !! s) as [old|] eqn:Ho.
      * destruct (decide (rosterIdentity old = rosterIdentity r)) as [He|He]; [cbn; by rewrite He|]. exfalso.
        destruct (Hin Upsert r) as [n Hf].
        { apply elem_of_app. left. apply list_elem_of_omap. exists (s, r). split; [by apply elem_of_map_to_list|]. cbn.
          rewrite Ho. by rewrite bool_decide_eq_false_2. }
        destruct (last_about_is_Some s fs n Upsert r Hf (Hc _ _ Hr)). congruence.
      * exfalso. destruct (Hin Upsert r) as [n Hf].
        { apply elem_of_app. left. apply list_elem_of_omap. exists (s, r). split; [by apply elem_of_map_to_list|]. cbn. by rewrite Ho. }
        destruct (last_about_is_Some s fs n Upsert r Hf (Hc _ _ Hr)). congruence.
    + destruct (last !! s) as [old|] eqn:Ho; [|done]. exfalso. destruct (Hin Remove old) as [n Hf].
      { apply elem_of_app. right. apply list_elem_of_omap. exists (s, old). split; [by apply elem_of_map_to_list|]. cbn.
        rewrite Hr. by rewrite bool_decide_eq_false_2 by (by intros []). }
      destruct (last_about_is_Some s fs n Remove old Hf (Hl _ _ Ho)). congruence.
Qed.

(** What the loop still owes: the frames left to fan out, and the roster the
    deltas lead to. *)
Definition owed h : option (list (sseFrame Tel) * gmap string Row) :=
  match h_loop h with
  | Waiting p => Some ([], lastSent p)
  | Sending fs p => Some (fs, lastSent p)
  | _ => None
  end.

Record track h : Prop := {
  tr_keyed : ∀ fs m, owed h = Some (fs, m) → keyed m;
  tr_agree : ∀ fs m i c s v, owed h = Some (fs, m) → i ∈ subs h → conns h !! i = Some c →
    last_about s (stream c ++ fs) = Some v → agree v (m !! s);
  tr_owed : ∀ fs m s v, owed h = Some (fs, m) → last_about s fs = Some v → agree v (m !! s);
  tr_idle : ∀ i c s, owed h = None → i ∈ subs h → conns h !! i = Some c → last_about s (stream c) = None }.

(** Every device of the roster has been announced to the connection. *)
Definition announced (i : nat) h : Prop := ∀ fs m c s,
  owed h = Some (fs, m) → i ∈ subs h → conns h !! i = Some c → is_Some (m !! s) → is_Some (last_about s (stream c ++ fs)).

Lemma last_about_other s fs : (∀ n op r, MkFrame n (PDelta op r) ∉ fs) → last_about s fs = None.
Proof.
  intros H. destruct (last_about s fs) as [v|] eqn:Hv; [|done].
  apply last_about_Some in Hv as (n & op & r & Hf & _). by destruct (H n op r).
Qed.

Lemma produce_about (a : @polls Tel WM) (p : producers WM) s : keyed (lastSent p) →
  let x := produce marshal a p in
  keyed (lastSent x.2) ∧
  match last_about s x.1 with
  | Some v => agree v (lastSent x.2 !! s)
  | None => agree (lastSent p !! s) (lastSent x.2 !! s)
  end.
Proof.
  intros Hk. unfold produce. destruct (tickRoster _ _ _) as [f1 r] eqn:H1, (tickLogs _ _ _) as [f2 hw] eqn:H2,
    (tickTelemetry _ _ _) as [f3 wm] eqn:H3, (tickC2Cursor _ _ _) as [f4 cu] eqn:H4. cbn [fst snd lastSent].
  assert (Hno : last_about s (f2 ++ f3 ++ f4) = None).
  { assert (Hf : ∀ {A} name (g : A → payload Tel) l n op x, (∀ y, g y ≠ PDelta op x) →
      MkFrame n (PDelta op x) ∉ (l ≫= λ y, frame_of marshal name (g y))).
    { intros A name g l n op x Hg (y & Hy & _)%list_elem_of_bind. unfold frame_of in Hy.
      destruct (marshal (g y)); [|by apply not_elem_of_nil in Hy].
      apply list_elem_of_singleton in Hy as [= _ Heq]. by apply (Hg y). }
    apply last_about_other. intros n op x. rewrite !not_elem_of_app. split_and!.
    - unfold tickLogs in H2. destruct (p_logs a) as [[??]|]; injection H2 as <- _; [by apply Hf|apply not_elem_of_nil].
    - unfold tickTelemetry in H3. destruct (p_telemetry a) as [[??]|]; injection H3 as <- _; [by apply Hf|apply not_elem_of_nil].
    - unfold tickC2Cursor in H4. destruct (p_cursors a) as [cs|]; [|injection H4 as <- _; apply not_elem_of_nil].
      destruct (diffCursors _ _) as [??]. injection H4 as <- _. by apply Hf. }
  rewrite last_about_app, Hno. unfold tickRoster in H1. destruct (p_roster a) as [rows|]; injection H1 as <- <-.
  - split; [apply roster_keyed|]. apply diff_about; [done|apply roster_keyed].
  - done.
Qed.

(** One step: the roster owed, and what a subscribed connection had before. *)
Lemma owed_step max h l h' : step marshal max h l h' → track h → hub_ok max h →
  (owed h' = None ∧ (owed h = None ∧ l = [] ∨ subs h' = ∅)) ∨
  (owed h = None ∧ owed h' = Some ([], ∅) ∧ l = []) ∨
  (∃ fs m fs' m', owed h = Some (fs, m) ∧ owed h' = Some (fs', m') ∧ keyed m' ∧
     ((fs = l ++ fs' ∧ m' = m) ∨
      (fs = [] ∧ l = [] ∧ ∀ s, match last_about s fs' with Some v => agree v (m' !! s) | None => agree (m !! s) (m' !! s) end))).
Proof.
  intros Hst Ht Hok. destruct Hst as [k tk h0 h1 Hi Hs|a h0|k x h0 h1 Hx].
  - unfold subscribe in Hs. destruct (_ <=? _); [done|]. injection Hs as <-. unfold owed. cbn.
    destruct (running h0) eqn:Hr.
    + destruct (h_loop h0) as [|p|fs p|] eqn:Hl; [by left; auto| |  |by left; auto]; right; right;
        eexists _, _, _, _; (split; [done|split; [done|split; [|by left]]]);
        eapply (tr_keyed _ Ht); unfold owed; by rewrite Hl.
    + right. left. apply (ho_running _ _ Hok) in Hr as ->. done.
  - unfold said, loop_act, owed. destruct (h_loop h0) as [|p|[|f fs] p|] eqn:Hl.
    + rewrite Hl. left. auto.
    + assert (Hk : keyed (lastSent p)) by (eapply (tr_keyed _ Ht); unfold owed; by rewrite Hl).
      case_bool_decide as Hsub; [left; auto|]. destruct (produce marshal a p) as [fs p'] eqn:Hp. right. right.
      eexists _, _, _, _. cbn. split; [done|]. split; [done|].
      pose proof (λ s, produce_about a p s Hk) as Hx. rewrite Hp in Hx. cbn in Hx.
      split; [by destruct (Hx ""%string)|]. right. split_and!; [done|done|]. intros s. by destruct (Hx s).
    + right. right. eexists _, _, _, _. cbn. split; [done|]. split; [done|]. split; [|by left].
      eapply (tr_keyed _ Ht); unfold owed; by rewrite Hl.
    + right. right. eexists _, _, _, _. cbn. split; [done|]. split; [done|]. split; [|by left].
      eapply (tr_keyed _ Ht); unfold owed; by rewrite Hl.
    + left. auto.
  - assert (Hl : h_loop h1 = h_loop h0).
    { destruct (handle_cases _ _ _ _ Hx) as [-> |(c & c' & [] & _ & _ & ->)]; done. }
    unfold owed. rewrite Hl. destruct (h_loop h0) as [|p|fs p|] eqn:Hl0; [by left; auto| | |by left; auto]; right; right;
      eexists _, _, _, _; (split; [done|split; [done|split; [|by left]]]);
      eapply (tr_keyed _ Ht); unfold owed; by rewrite Hl0.
Qed.

(** A connection subscribed after a step was so before, with its stream, or is
    new. *)
Lemma step_stream max h l h' i c' : step marshal max h l h' → hub_ok max h → i ∈ subs h' → conns h' !! i = Some c' →
  (∃ c, i ∈ subs h ∧ conns h !! i = Some c ∧ stream c' = stream c ++ l) ∨ (l = [] ∧ stream c' = [] ∧ conns h !! i = None).
Proof.
  intros Hs Hok Hin Hc'. destruct (conns h !! i) as [c|] eqn:Hc.
  - left. destruct (step_conn _ _ _ _ _ _ Hs Hok Hc) as (c2 & Hc2 & Hx & _). rewrite Hc' in Hc2. injection Hc2 as <-.
    destruct (Hx Hin) as [? ?]. by exists c.
  - right. destruct Hs as [k tk h0 h1 Hi Hs|a h0|k x h0 h1 Hx].
    + unfold subscribe in Hs. destruct (_ <=? _); [done|]. injection Hs as <-. cbn in *.
      destruct (decide (k = i)) as [->|Hne]; [|rewrite lookup_insert_ne in Hc' by done; congruence].
      rewrite lookup_insert_eq in Hc'. by injection Hc' as <-.
    + exfalso. unfold loop_act in Hc'. destruct (h_loop h0) as [|p|[|f fs] p|]; cbn in Hc'; try congruence.
      * destruct (bool_decide _); [cbn in Hc'; congruence|]. destruct (produce marshal a p). cbn in Hc'. congruence.
      * rewrite map_lookup_imap, Hc in Hc'. done.
    + exfalso. destruct (handle_cases _ _ _ _ Hx) as [-> |(c & c1 & keep & Hk & _ & ->)]; [congruence|].
      destruct (decide (k = i)) as [->|Hne]; [congruence|].
      destruct keep; cbn in Hc'; rewrite lookup_insert_ne in Hc' by done; congruence.
Qed.

Lemma track_step max h l h' : step marshal max h l h' → hub_ok max h → track h → track h'.
Proof.
  intros Hs Hok Ht. pose proof (owed_step _ _ _ _ Hs Ht Hok) as Hcase. destruct Ht as [Hk Ha How Hid].
  assert (Howed : ∀ fs m s v, owed h' = Some (fs, m) → last_about s fs = Some v → agree v (m !! s)).
  { intros fs m s v Ho Hv.
    destruct Hcase as [[? _]|[(_ & H & _)|(fs0 & m0 & fs' & m' & H0 & H & _ & Hor)]]; [congruence|..];
      rewrite H in Ho; injection Ho as <- <-; [done|]. destruct Hor as [[-> ->]|(_ & _ & Hor)].
    - eapply (How _ _ s v H0). by rewrite last_about_app, Hv.
    - specialize (Hor s). by rewrite Hv in Hor. }
  constructor; [..|done|].
  - intros fs m Ho. destruct Hcase as [[? _]|[(_ & H & _)|(fs0 & m0 & fs' & m' & _ & H & Hk' & _)]]; [congruence| |by rewrite H in Ho; injection Ho as <- <-].
    rewrite H in Ho. injection Ho as <- <-. apply map_Forall_empty.
  - intros fs m i c' s v Ho Hin Hc' Hv.
    destruct (step_stream _ _ _ _ _ _ Hs Hok Hin Hc') as [(c & Hin0 & Hc & Hst)|(-> & Hst & Hnew)]; rewrite Hst in Hv;
      [|by eapply Howed].
    destruct Hcase as [[? _]|[(Hn & H & ->)|(fs0 & m0 & fs' & m' & H0 & H & _ & Hor)]]; [congruence|..];
      rewrite H in Ho; injection Ho as <- <-.
    + rewrite !app_nil_r in Hv. by rewrite (Hid i c s Hn Hin0 Hc) in Hv.
    + destruct Hor as [[-> ->]|(-> & -> & Hor)].
      * rewrite <- app_assoc in Hv. eapply (Ha _ _ i c s v H0 Hin0 Hc Hv).
      * rewrite app_nil_r, last_about_app in Hv. specialize (Hor s).
        destruct (last_about s fs') as [v'|]; [by injection Hv as <-|]. etrans; [|exact Hor].
        eapply (Ha [] m0 i c s v H0 Hin0 Hc). by rewrite app_nil_r.
  - intros i c' s Hn Hin Hc'.
    destruct (step_stream _ _ _ _ _ _ Hs Hok Hin Hc') as [(c & Hin0 & Hc & Hst)|(-> & Hst & Hnew)]; rewrite Hst; [|done].
    destruct Hcase as [[_ [[Hn0 ->]|He]]|[(_ & H & _)|(fs0 & m0 & fs' & m' & H0 & H & _ & Hor)]]; [|set_solver|congruence..].
    rewrite app_nil_r. by eapply Hid.
Qed.

Lemma announced_step max h l h' i : step marshal max h l h' → hub_ok max h → track h → is_Some (conns h !! i) →
  announced i h → announced i h'.
Proof.
  intros Hs Hok Ht [c0 Hc0] Han fs m c' s Ho Hin Hc' Hm.
  destruct (step_stream _ _ _ _ _ _ Hs Hok Hin Hc') as [(c & Hin0 & Hc & Hst)|(_ & _ & Hnew)]; [|congruence].
  rewrite Hst. destruct (owed_step _ _ _ _ Hs Ht Hok) as
    [[? _]|[(Hn & H & ->)|(fs0 & m0 & fs' & m' & H0 & H & _ & Hor)]]; [congruence|..];
    rewrite H in Ho; injection Ho as <- <-; [by destruct Hm|]. destruct Hor as [[-> ->]|(-> & -> & Hor)].
  - rewrite <- app_assoc. by eapply Han.
  - rewrite app_nil_r, last_about_app. specialize (Hor s). destruct (last_about s fs') as [v|]; [by eexists|].
    rewrite <- (app_nil_r (stream c)). eapply Han; [done..|]. unfold agree in Hor.
    destruct Hm as [r Hr]. rewrite Hr in Hor. by destruct (m0 !! s).
Qed.

Lemma init_track : track init.
Proof. constructor; try done. Qed.

(** The roster a panel shows, between two ticks, once it has drained its
    mailbox: of every device about which it was sent a delta, exactly what the
    loop last polled, but for the column that is not diffed; of every other
    device, what its snapshot said. For a connection that was there when the
    loop started, every device of the roster has been sent. *)
Theorem roster_tracks max h0 h l0 l i c0 c p
    (H0 : run marshal max init l0 h0) (H : run marshal max h0 l h) (Hc0 : conns h0 !! i = Some c0)
    (Hloop : h_loop h = Waiting p) (Hin : i ∈ subs h) (Hc : conns h !! i = Some c) (Hdrained : c_ch c = []) :
  (∀ s, match last_about s (sent c) with
        | Some _ => agree (panel c !! s) (lastSent p !! s)
        | None => panel c !! s = panel_base c !! s
        end) ∧
  (match h_loop h0 with Waiting p0 => lastSent p0 = ∅ | Sending _ _ => False | _ => True end →
   ∀ s r, lastSent p !! s = Some r → agree (panel c !! s) (Some r)).
Proof.
  assert (Hboth : ∀ h1 l1 h2, run marshal max h1 l1 h2 → hub_ok max h1 → track h1 → hub_ok max h2 ∧ track h2).
  { intros h1 l1 h2 Hr Hok Ht. induction Hr as [|? ? ? ? Hr IH Hs]; [done|]. destruct IH.
    split; [by eapply hub_step_ok|by eapply track_step]. }
  destruct (Hboth _ _ _ H0 (init_ok max) init_track) as [Hok0 Ht0].
  destruct (Hboth _ _ _ H Hok0 Ht0) as [Hok Ht]. destruct (ho_conns _ _ Hok i c Hc) as [Hcok _].
  assert (Hstream : stream c = sent c) by (unfold stream; by rewrite Hdrained, app_nil_r).
  assert (Howed : owed h = Some ([], lastSent p)) by (unfold owed; by rewrite Hloop).
  assert (Hagree : ∀ s v, last_about s (sent c) = Some v → agree (panel c !! s) (lastSent p !! s)).
  { intros s v Hv. rewrite panel_lookup, Hv by done. cbn.
    eapply (tr_agree _ Ht _ _ i c s v Howed Hin Hc). by rewrite app_nil_r, Hstream. }
  split.
  - intros s. destruct (last_about s (sent c)) as [v|] eqn:Hv; [by eapply Hagree|].
    by rewrite panel_lookup, Hv by done.
  - intros Hstart s r Hr.
    assert (Hann : announced i h).
    { assert (Hann0 : announced i h0).
      { intros fs m c1 s1 Ho _ _ [r1 Hr1]. unfold owed in Ho. destruct (h_loop h0) as [|p0|fs0 p0|]; try done.
        injection Ho as <- <-. by rewrite Hstart in Hr1. }
      clear -H Hok0 Ht0 Hann0 Hc0 Hboth marshals. induction H as [|l1 h1 l2 h2 Hr IH Hs]; [done|].
      destruct (Hboth _ _ _ Hr Hok0 Ht0) as [Hok1 Ht1]. eapply announced_step; [done..| |done].
      clear -Hr Hc0 Hok0 Hboth Ht0 marshals. induction Hr as [|l1 h1 l2 h2 Hr IH Hs]; [by eexists|].
      destruct (Hboth _ _ _ Hr Hok0 Ht0) as [Hok1 _]. destruct IH as [c1 Hc1].
      destruct (step_conn _ _ _ _ _ _ Hs Hok1 Hc1) as (c2 & Hc2 & _). by eexists. }
    destruct (Hann [] (lastSent p) c s Howed Hin Hc ltac:(by eexists)) as [v Hv].
    rewrite app_nil_r, Hstream in Hv. rewrite <- Hr. by eapply Hagree.
Qed.
End Roster.

(** ** Runs by computation *)

Inductive label := LSubscribe (i : nat) (token : string) | LLoop (a : @polls Tel WM) | LHandle (i : nat) (x : act).
Definition exec_one (max : Z) (x : label) h : option (list (sseFrame Tel) * sseHub Tel WM) :=
  match x with
  | LSubscribe i token => if conns h !! i is Some _ then None else (λ h', ([], h')) <$> subscribe max i token h
  | LLoop a => Some (said h, loop_act marshal a h)
  | LHandle i x => (λ h', ([], h')) <$> handle marshal i x h
  end.
Fixpoint exec (max : Z) (xs : list label) (acc : list (sseFrame Tel)) h : option (list (sseFrame Tel) * sseHub Tel WM) :=
  match xs with
  | [] => Some (acc, h)
  | x :: xs => '(l, h') ← exec_one max x h; exec max xs (acc ++ l) h'
  end.
Lemma exec_one_step max x h l h' : exec_one max x h = Some (l, h') → step marshal max h l h'.
Proof.
  destruct x as [i tk|a|i x]; cbn.
  - destruct (conns h !! i) eqn:Hi; [done|]. destruct (subscribe _ _ _ _) eqn:Hs; [|done]. intros [= <- <-]. by econstructor.
  - intros [= <- <-]. constructor.
  - destruct (handle _ _ _ _) eqn:Hs; [|done]. intros [= <- <-]. by econstructor.
Qed.
Lemma exec_run max xs h acc l h' h0 : run marshal max h0 acc h → exec max xs acc h = Some (l, h') → run marshal max h0 l h'.
Proof.
  revert acc h. induction xs as [|x xs IH]; intros acc h Hr; cbn; [by intros [= <- <-]|].
  destruct (exec_one max x h) as [[l1 h1]|] eqn:Hx; [|done]. cbn. apply IH. econstructor; [done|]. by eapply exec_one_step.
Qed.

(** ** Framing *)

(** An event stream as the specification of server-sent events reads it, of a
    text without carriage returns: the event type and the data so far, and the
    events dispatched. *)
Record es := MkEs { es_type : bytes; es_data : bytes; es_out : list (bytes * bytes) }.
Definition strip_space (v : bytes) : bytes := match v with 32 :: v => v | _ => v end.
Definition es_line (s : es) (line : bytes) : es :=
  match line with
  | [] => match es_data s with
          | [] => MkEs [] [] (es_out s)
          | d => MkEs [] [] (es_out s ++ [(es_type s, removelast d)])
          end
  | _ =>
      let '(name, v) := match cut line 58 with Some (n, v) => (n, strip_space v) | None => (line, []) end in
      if bool_decide (name = bytes_of_string "event") then MkEs v (es_data s) (es_out s)
      else if bool_decide (name = bytes_of_string "data") then MkEs (es_type s) (es_data s ++ v ++ [10]) (es_out s)
      else s
  end.
Definition event_source (t : bytes) : list (bytes * bytes) :=
  es_out (foldl es_line (MkEs [] [] []) (split t [10])).

Definition wire_event (w : @wire Tel) : option (bytes * bytes) :=
  match w with
  | WEvent f => (λ d, (bytes_of_string (f_name f), d)) <$> marshal (f_data f)
  | WPing => None
  end.
Definition sendable (w : @wire Tel) : Prop :=
  match w with
  | WEvent f => (10 ∉ bytes_of_string (f_name f)) ∧ is_Some (marshal (f_data f))
  | WPing => True
  end.

Lemma split_line l rest : 10 ∉ l → split (l ++ 10 :: rest) [10] = l :: split rest [10].
Proof. intros Hl. exact (split_go_nosep 10 [] l rest Hl). Qed.
Lemma es_field s name v : 58 ∉ name → name ≠ [] →
  es_line s (name ++ 58 :: 32 :: v) =
  if bool_decide (name = bytes_of_string "event") then MkEs v (es_data s) (es_out s)
  else if bool_decide (name = bytes_of_string "data") then MkEs (es_type s) (es_data s ++ v ++ [10]) (es_out s) else s.
Proof.
  intros Hn Hne. unfold es_line. destruct name as [|c name]; [done|]. cbn [app].
  change (c :: name ++ 58 :: 32 :: v) with ((c :: name) ++ 58 :: 32 :: v). rewrite NetLaws.cut_spec by done. done.
Qed.

Lemma es_blank ty d out : es_line (MkEs ty (d ++ [10]) out) [] = MkEs [] [] (out ++ [(ty, d)]).
Proof. unfold es_line. cbn [es_data es_type es_out]. destruct (d ++ [10]) as [|x l] eqn:Hd; [by destruct d|]. by rewrite <- Hd, removelast_last. Qed.

(** No payload can break the framing: given that a JSON text holds no line
    feed and is not empty, whatever events and pings a connection was written are
    read back by the event stream's parsing as exactly those events, with their
    names and data, and nothing else. *)
Theorem framing_exact (ws : list wire) (Hjson : ∀ p d, marshal p = Some d → (10 ∉ d) ∧ d ≠ [])
    (Hws : Forall sendable ws) :
  event_source (concat (wire_text marshal <$> ws)) = omap wire_event ws.
Proof.
  unfold event_source.
  assert (Hgen : ∀ out, es_out (foldl es_line (MkEs [] [] out) (split (concat (wire_text marshal <$> ws)) [10])) =
    out ++ omap wire_event ws); [|by rewrite Hgen].
  induction Hws as [|w ws Hw _ IH]; intros out; [by rewrite app_nil_r|].
  cbn [fmap list_fmap concat]. destruct w as [[name p]|]; cbn [wire_text].
  - destruct Hw as [Hn [d Hd]]. cbn in Hn, Hd. destruct (Hjson p d Hd) as [Hnl Hne]. cbn [f_name f_data]. rewrite Hd. cbn [default].
    unfold event_text. change (bool_decide (""%string = ""%string)) with true. cbv iota.
    cbn [app]. rewrite <- !app_assoc. cbn [app]. rewrite <- !app_assoc. cbn [app].
    assert (Hnot : ∀ l1 l2, 10 ∉ l1 → 10 ∉ l2 → 10 ∉ l1 ++ l2) by (intros; rewrite not_elem_of_app; done).
    assert (He : (10 ∉ bytes_of_string "event: ") ∧ 10 ∉ bytes_of_string "data: ") by (split; apply (bool_decide_unpack _); vm_compute; exact I).
    rewrite (app_assoc (bytes_of_string "event: ")), split_line by (apply Hnot; [apply He|done]).
    rewrite (app_assoc (bytes_of_string "data: ") d), split_line by (apply Hnot; [apply He|done]).
    change (10 :: concat (wire_text marshal <$> ws)) with ([] ++ 10 :: concat (wire_text marshal <$> ws)).
    rewrite split_line by apply not_elem_of_nil. cbn [foldl].
    rewrite (es_field _ (bytes_of_string "event") (bytes_of_string name)) by (try done; apply (bool_decide_unpack _); vm_compute; exact I).
    rewrite (es_field _ (bytes_of_string "data") d) by (try done; apply (bool_decide_unpack _); vm_compute; exact I).
    change (bool_decide (bytes_of_string "event" = bytes_of_string "event")) with true.
    change (bool_decide (bytes_of_string "data" = bytes_of_string "event")) with false.
    change (bool_decide (bytes_of_string "data" = bytes_of_string "data")) with true. cbv iota.
    cbn [es_type es_data es_out app]. rewrite es_blank, IH, <- app_assoc. cbn. by rewrite Hd.
  - unfold ping_text. change (bytes_of_string ": ping" ++ [10; 10]) with (bytes_of_string ": ping" ++ 10 :: [] ++ [10]).
    rewrite <- app_assoc. cbn [app]. rewrite split_line by (apply (bool_decide_unpack _); vm_compute; exact I).
    change (10 :: concat (wire_text marshal <$> ws)) with ([] ++ 10 :: concat (wire_text marshal <$> ws)).
    rewrite split_line by apply not_elem_of_nil. cbn [foldl omap list_omap wire_event].
    change (es_line (MkEs [] [] out) (bytes_of_string ": ping")) with (MkEs [] [] out).
    change (es_line (MkEs [] [] out) []) with (MkEs [] [] out). apply IH.
Qed.

(** ** Re-authentication *)

(** The hub's [operator.Authenticate]. *)
Definition auth_of (now : Z) (d : Credentials.db) (fs : list bool) (token : string) : option bool :=
  match (Credentials.Authenticate now token d fs).1.1 with
  | Ok (Some _) => Some true
  | Ok None => Some false
  | Err _ => None
  end.

Lemma bearerToken_none r : AdminGate.bearer r = None → bearerToken (AdminGate.Authorization r) = ""%string.
Proof.
  unfold AdminGate.bearer, bearerToken. destruct (AdminGate.fold_prefix _ _); [|done]. cbn [negb].
  case_bool_decide as Ht; [|done]. by rewrite Ht.
Qed.

Lemma reauth_cases i h h' c auth ok : conns h !! i = Some c → c_phase c = Draining →
  handle marshal i (AReauth auth ok) h = Some h' →
  if decide (auth (c_token c) = Some true) then h' = h
  else (i ∉ subs h') ∧ ∃ c', conns h' !! i = Some c' ∧ c_phase c' = Closed ∧
         (ok = true → last (c_wire c') = Some (WEvent (MkFrame "error" PRevoked))).
Proof.
  intros Hc Hph. unfold handle. rewrite Hc. cbn [mbind option_bind]. rewrite Hph.
  case_decide as Ha; [rewrite Ha; by intros [= <-]|].
  assert (Hclose : ∀ c1, (ok = true → last (c_wire c1) = Some (WEvent (MkFrame "error" PRevoked))) →
    Some (close_conn i c1 h) = Some h' → (i ∉ subs h') ∧ ∃ c', conns h' !! i = Some c' ∧ c_phase c' = Closed ∧
         (ok = true → last (c_wire c') = Some (WEvent (MkFrame "error" PRevoked)))).
  { intros c1 Hw [= <-]. split; [cbn; set_solver|]. eexists. cbn. rewrite lookup_insert_eq. split_and!; done. }
  destruct (auth (c_token c)) as [[]|]; [done|..]; apply Hclose; intros ->; cbn; by rewrite last_snoc.
Qed.

(** C15. A stream outlives a re-authentication exactly as an operator key: with the
    token of a live key and a working query it goes on untouched; otherwise, and
    on any error of the query, it ends with the error event, unsubscribed. A
    connection admitted by a session cookie or Basic credentials carries the
    empty token there, so that its first re-authentication ends it. *)
Theorem reauth_operator_key i h h' c now d fs ok r
    (Hd : Credentials.tables_ok d) (Hc : conns h !! i = Some c) (Hph : c_phase c = Draining)
    (Htoken : c_token c = bearerToken (AdminGate.Authorization r))
    (Hact : handle marshal i (AReauth (auth_of now d fs) ok) h = Some h') :
  (fs = [] → ∀ a, CredentialLaws.key_valid now (c_token c) d a → h' = h) ∧
  ((∀ a, ¬ CredentialLaws.key_valid now (c_token c) d a) ∨ auth_of now d fs (c_token c) = None →
    (i ∉ subs h') ∧ ∃ c', conns h' !! i = Some c' ∧ c_phase c' = Closed ∧
      (ok = true → last (c_wire c') = Some (WEvent (MkFrame "error" PRevoked)))) ∧
  (AdminGate.bearer r = None → c_token c = ""%string).
Proof.
  pose proof (reauth_cases i h h' c _ ok Hc Hph Hact) as Hcase.
  destruct (CredentialLaws.Authenticate_answers now (c_token c) d fs) as (res & fs' & Hr & Hv & Hl).
  split_and!.
  - intros Hf a Ha. rewrite (Hl Hf Hd a Ha) in Hr. rewrite decide_True in Hcase; [done|].
    unfold auth_of. by rewrite Hr.
  - intros Hno. rewrite decide_False in Hcase; [done|]. destruct Hno as [Hno|Hno]; [|congruence].
    unfold auth_of. rewrite Hr. cbn. destruct res as [[a|]|]; try done. by destruct (Hno a).
  - intros Hb. rewrite Htoken. by apply bearerToken_none.
Qed.
End Hub.

(** ** Samples *)

Definition ex_marshal (p : payload unit) : option bytes := Some [123; 125].
Definition ex_row (s : string) : Row := DeviceStore.MkRow s None "stable" None true.
Abbreviation ex_hub := (sseHub unit unit).
Definition ex_polls (rows : list Row) : @polls unit unit := MkPolls (Some rows) None None None.
Definition ex_exec (xs : list (@label unit unit)) : option (list (sseFrame unit) * ex_hub) := exec ex_marshal 8 xs [] init.
Lemma ex_run xs l h : ex_exec xs = Some (l, h) → run ex_marshal 8 init l h.
Proof. apply exec_run. constructor. Qed.

(** One panel: connected, its snapshot sent, one tick fanned out and drained. *)
Definition ex_first : list (@label unit unit) := [LSubscribe 0 ""; LHandle 0 (ASnapshot (Some []) true)].
Definition ex_then : list (@label unit unit) :=
  ex_first ++ [LLoop (ex_polls [ex_row "d1"]); LLoop (ex_polls []); LLoop (ex_polls []); LHandle 0 (ADrain true)].
Definition state (xs : list (@label unit unit)) : ex_hub := match ex_exec xs with Some (_, h) => h | None => init end.
Definition spoken (xs : list (@label unit unit)) : list (sseFrame unit) := match ex_exec xs with Some (l, _) => l | None => [] end.
Lemma ex_run_state xs : ex_exec xs ≠ None → run ex_marshal 8 init (spoken xs) (state xs).
Proof. intros H. apply (ex_run xs). unfold spoken, state. by destruct (ex_exec xs) as [[]|]. Qed.
Definition ex_conn (xs : list (@label unit unit)) : conn unit := default (MkConn [] false Closed [] "") (conns (state xs) !! 0%nat).

Lemma ex_more : run ex_marshal 8 (state ex_first) (spoken ex_then) (state ex_then).
Proof.
  apply (exec_run ex_marshal 8 [LLoop (ex_polls [ex_row "d1"]); LLoop (ex_polls []); LLoop (ex_polls []); LHandle 0 (ADrain true)]
    (state ex_first) []); [constructor|]. vm_compute. reflexivity.
Qed.

Lemma stream_exact_witness : Z.of_nat (size (subs (state ex_then))) ≤ 8 ∧
  stream (ex_conn ex_then) = stream (ex_conn ex_first) ++ spoken ex_then.
Proof.
  destruct (stream_exact ex_marshal 8 (state ex_first) (state ex_then) 0 (ex_conn ex_first) (spoken ex_first) (spoken ex_then)
    (ex_run_state ex_first ltac:(done)) ltac:(vm_compute; reflexivity) ex_more) as (Hcap & c' & Hc' & _ & Hin & _).
  split; [exact Hcap|]. assert (Hx : conns (state ex_then) !! 0%nat = Some (ex_conn ex_then)) by (vm_compute; reflexivity).
  rewrite Hx in Hc'. apply (inj Some) in Hc' as <-. apply Hin. vm_compute. reflexivity.
Defined.

Lemma roster_tracks_witness : agree (panel (ex_conn ex_then) !! "d1"%string) (Some (ex_row "d1")).
Proof.
  destruct (roster_tracks ex_marshal ltac:(by eexists) 8 (state ex_first) (state ex_then) (spoken ex_first) (spoken ex_then)
    0 (ex_conn ex_first) (ex_conn ex_then) (MkProducers {[ "d1"%string := ex_row "d1" ]} None None ∅)
    (ex_run_state ex_first ltac:(done)) ex_more) as [_ H]; [vm_compute; reflexivity..|].
  apply H; vm_compute; reflexivity.
Defined.

Lemma framing_exact_witness :
  event_source (concat (wire_text ex_marshal <$> [WPing; WEvent (MkFrame "devices" (PDelta Upsert (ex_row "d1")))])) =
  [(bytes_of_string "devices", [123; 125])].
Proof.
  rewrite (framing_exact ex_marshal).
  - reflexivity.
  - intros p d [= <-]. split; [|done]. apply (bool_decide_unpack _). vm_compute. exact I.
  - repeat constructor; [|by eexists]. apply (bool_decide_unpack _). vm_compute. exact I.
Defined.

(** A request with a session cookie and no Authorization header. *)
Definition cookie_request : AdminGate.request := DeviceHttp.ex_request.
Definition ex_reauth : act := AReauth (auth_of 5 CredentialLaws.ex_empty []) true.
Lemma reauth_operator_key_witness :
  ∃ h', handle ex_marshal 0 ex_reauth (state ex_first) = Some h' ∧ (0%nat ∉ subs h').
Proof.
  assert (Hno : ∀ a, ¬ CredentialLaws.key_valid 5 "" CredentialLaws.ex_empty a)
    by (intros a (id & o & Hl & _); by exact (lookup_empty_Some id o Hl)).
  destruct (handle ex_marshal 0 ex_reauth (state ex_first)) as [h'|] eqn:Hh; [|by vm_compute in Hh].
  exists h'. split; [done|].
  destruct (reauth_operator_key ex_marshal 0 (state ex_first) h' (ex_conn ex_first) 5 CredentialLaws.ex_empty [] true cookie_request
    CredentialLaws.ex_empty_ok) as (_ & H & _); [vm_compute; reflexivity..|exact Hh|].
  by apply H; left.
Defined.

(** The loop's exit is lost to a subscriber: it has seen no subscriber, one
    arrives and finds [running] set, then the flag is cleared. The hub is left
    with a connection and no loop, until another connection arrives. *)
Definition ex_lost : list (@label unit unit) :=
  [LSubscribe 0 ""; LHandle 0 (ASnapshot None true); LHandle 0 ALeave; LLoop (ex_polls []); LSubscribe 1 ""; LLoop (ex_polls [])].
Lemma lost_loop : ∃ l (h : ex_hub), run ex_marshal 8 init l h ∧ 1%nat ∈ subs h ∧ h_loop h = Stopped ∧
  ∀ a, loop_act ex_marshal a h = h.
Proof.
  exists (spoken ex_lost), (state ex_lost). split; [by apply ex_run_state|].
  split; [vm_compute; reflexivity|]. split; [vm_compute; reflexivity|]. intros a. vm_compute. reflexivity.
Qed.

(** A device in a panel's snapshot that is deleted before the loop's next poll is
    never removed from the panel. *)
Definition ex_ghost : list (@label unit unit) :=
  [LSubscribe 0 ""; LHandle 0 (ASnapshot (Some [ex_row "d1"]) true);
   LLoop (ex_polls []); LLoop (ex_polls []); LLoop (ex_polls []); LLoop (ex_polls [])].
Lemma ghost_device : lastSent <$> (match h_loop (state ex_ghost) with Waiting p => Some p | _ => None end) = Some ∅ ∧
  c_ch (ex_conn ex_ghost) = [] ∧ panel (ex_conn ex_ghost) !! "d1"%string = Some (ex_row "d1").
Proof. vm_compute. done. Qed.

(** The separator may occur in a label: two identities of a device that the
    diff takes for one. *)
Lemma identity_collides :
  rosterIdentity (DeviceStore.MkRow "d1" (Some ("a" ++ string_of_bytes [31] ++ "b")%string) "c" None true) =
  rosterIdentity (DeviceStore.MkRow "d1" (Some "a"%string) ("b" ++ string_of_bytes [31] ++ "c")%string None true).
Proof. vm_compute. reflexivity. Qed.
End EventLaws.
