(* ===== verification/Telemetry.v ===== *)
(** * The telemetry dashboard ([internal/telemetry], [cmd/backend/telemetry_http.go])

    The read side of telemetry: sentinels, the verdict over one row, the fleet,
    device and history queries over the tables the ingest writes, the live
    tail's producer and the three routes. Timestamps are seconds, durations
    nanoseconds. The collation, [strings.EqualFold] and the decoding of the extra
    JSON are arguments. *)

From S2P Require Import Prelude GoLib Db C2 Rollout LogIngest RenderDb TemplateStore Fleet DeviceStore AdminGate AdminHttp Events DeviceHttp.
Import GoLib Fleet.
Import LogIngest(telemetry_row, tm_time, tm_serial, tm_channel, usb, uptime_ms, boot_count, reset_reason, running_ver, diag_ota_rr).
Import AdminGate(request, reply, json, JNull, JBool, JNum, JStr, JTime, JList, JObj, WriteOK).
Import DeviceHttp(fail).

Module Telemetry.

(** ** Durations *)

Definition hour : Z := 3600 * 1000000000.
Definition minute : Z := 60 * 1000000000.
Definition second : Z := 1000000000.

(** [fmtFrac]: the digits of [v] after the point, without trailing zeros, and
    the rest of [v]. *)
Fixpoint fmtFrac (prec : nat) (v : Z) (print : bool) (acc : bytes) : bytes * Z :=
  match prec with
  | O => (if print then 46 :: acc else acc, v)
  | S prec =>
      let d := v mod 10 in
      let print := print || negb (d =? 0) in
      fmtFrac prec (v / 10) print (if print then 48 + d :: acc else acc)
  end.
(** [Duration.String] of a duration that is not negative. *)
Definition duration_text (d : Z) : bytes :=
  if d =? 0 then bytes_of_string "0s"
  else if d <? 1000 then format_int_b d ++ bytes_of_string "ns"
  else if d <? 1000000 then let '(f, v) := fmtFrac 3 d false [] in format_int_b v ++ f ++ [194; 181; 115]
  else if d <? second then let '(f, v) := fmtFrac 6 d false [] in format_int_b v ++ f ++ bytes_of_string "ms"
  else
    let '(f, u) := fmtFrac 9 d false [] in
    let s := format_int_b (u mod 60) ++ f ++ bytes_of_string "s" in
    let m := u / 60 in
    if m =? 0 then s
    else
      let ms := format_int_b (m mod 60) ++ bytes_of_string "m" ++ s in
      if m / 60 =? 0 then ms else format_int_b (m / 60) ++ bytes_of_string "h" ++ ms.

(** [Duration.Round], halves away from zero, of a duration that is not negative. *)
Definition round (d m : Z) : Z := let r := d mod m in if r + r <? m then d - r else d + m - r.
Definition roundAge (d : Z) : Z :=
  if 24 * hour <=? d then round d hour else if hour <=? d then round d minute else round d second.

(** [time.Time.Sub]: saturates. *)
Definition Sub (a b : Z) : Z :=
  let d := (a - b) * second in
  if d <? - 2 ^ 63 then - 2 ^ 63 else if 2 ^ 63 - 1 <? d then 2 ^ 63 - 1 else d.

(** ** Sentinels (sentinel.go) *)

Definition SentinelGeneric : Z := -1.
Definition SentinelRSSI : Z := -127.
Definition SentinelTemp : Z := -32768.

Definition null_int (applyGeneric : bool) (p : option Z) : option Z :=
  match p with
  | None => None
  | Some v => if applyGeneric && (v =? SentinelGeneric) then None else Some v
  end.
Definition nullI32 := null_int.
Definition nullI16 := null_int.
Definition nullI64 := null_int.
Definition derefStr (p : option string) : string := default ""%string p.

Record Extra := MkExtra {
  RSSI : option Z; Heap : option Z; Temp : option Z; TX : option Z; Present : bool }.

Section Decode.
(** [json.Unmarshal] into a map, and of a member into a number, truncated. *)
Context (unmarshal_map : bytes → option (gmap string bytes)) (unmarshal_int : bytes → option Z).
Definition extraInt (m : gmap string bytes) (key : string) (sentinel : Z) (applySentinel : bool) : option Z :=
  raw ← m !! key; v ← unmarshal_int raw;
  if applySentinel && (v =? sentinel) then None else Some v.
Definition DecodeExtra (raw : bytes) : Extra :=
  if bool_decide (raw = []) then MkExtra None None None None false
  else match unmarshal_map raw with
  | None => MkExtra None None None None false
  | Some m => MkExtra (extraInt m "rssi" SentinelRSSI true) (extraInt m "heap" 0 false)
                (extraInt m "temp" SentinelTemp true) (extraInt m "tx" 0 false) true
  end.
End Decode.

(** ** The verdict (health.go) *)

Inductive Health := HealthOK | HealthLowBatt | HealthBadBoots | HealthBrownout | HealthOffline | HealthNoData.
#[global] Instance Health_eq_dec : EqDecision Health.
Proof. solve_decision. Defined.
Definition severity (h : Health) : Z :=
  match h with
  | HealthOK => 0 | HealthLowBatt => 1 | HealthBadBoots => 2 | HealthBrownout => 3 | HealthOffline => 4 | HealthNoData => 5
  end.
Definition Health_String (h : Health) : string :=
  match h with
  | HealthOK => "OK" | HealthLowBatt => "LOW_BATT" | HealthBadBoots => "BAD_BOOTS"
  | HealthBrownout => "BROWNOUT" | HealthOffline => "OFFLINE_STALE" | HealthNoData => "NO_DATA"
  end.

(** The time of a sample without data is the zero time. *)
Record Sample := MkSample {
  HasData : bool; Time : option Z; s_reset : option string; DiagOTARR : option Z; BadBoots : option Z;
  BattPct : option Z; s_usb : option bool; Uptime : option Z; C2LastSeen : option Z }.
Record VerdictCfg := MkCfg {
  StaleAfter : Z; BrownoutResetReasons : list string; BrownoutOTARRCodes : list Z;
  BadBootsWarn : Z; LowBattPct : Z; LowBattIncludesUSB : bool }.

Definition DefaultVerdictCfg : VerdictCfg := MkCfg (3 * hour) ["brownout"%string] [9] 2 15 false.

Definition ReasonC2Alive : string := "c2_alive".
Definition ReasonSilent : string := "silent".
Definition text (l : list bytes) : string := string_of_bytes (concat l).
Definition num (n : Z) : bytes := format_int_b n.

Section Verdict.
Context (EqualFold : string → string → bool).

Definition containsFold (set : list string) (v : string) : bool := existsb (λ s, EqualFold s v) set.
Definition containsInt (set : list Z) (v : Z) : bool := existsb (λ s, s =? v) set.

Definition bump (to : Health) (reason : string) (acc : Health * list string) : Health * list string :=
  ((if severity acc.1 <? severity to then to else acc.1), acc.2 ++ [reason]).

(** The conditions, each with its verdict and reason, in the code's order. *)
Definition offline (s : Sample) (cfg : VerdictCfg) (now : Z) : option (Health * string) :=
  match Time s with
  | Some t =>
      let age := Sub now t in
      if (0 <? StaleAfter cfg) && (StaleAfter cfg <? age)
      then Some (HealthOffline, text [bytes_of_string "no report for "; duration_text (roundAge age);
                                      bytes_of_string " (> stale_after "; duration_text (StaleAfter cfg); bytes_of_string ")"])
      else None
  | None => None
  end.
Definition brownout_reset (s : Sample) (cfg : VerdictCfg) : option (Health * string) :=
  match s_reset s with
  | Some rr => if containsFold (BrownoutResetReasons cfg) rr then Some (HealthBrownout, ("reset_reason=" ++ rr)%string) else None
  | None => None
  end.
Definition brownout_ota (s : Sample) (cfg : VerdictCfg) : option (Health * string) :=
  match DiagOTARR s with
  | Some code => if containsInt (BrownoutOTARRCodes cfg) code
                 then Some (HealthBrownout, text [bytes_of_string "diag_ota_rr="; num code; bytes_of_string " (brownout-during-OTA)"])
                 else None
  | None => None
  end.
Definition bad_boots_warn (s : Sample) (cfg : VerdictCfg) : option (Health * string) :=
  match BadBoots s with
  | Some bb => if (0 <? BadBootsWarn cfg) && (BadBootsWarn cfg <=? bb)
               then Some (HealthBadBoots, text [bytes_of_string "bad_boots="; num bb; bytes_of_string " (>= "; num (BadBootsWarn cfg); bytes_of_string ")"])
               else None
  | None => None
  end.
Definition low_batt (s : Sample) (cfg : VerdictCfg) : option (Health * string) :=
  match BattPct s with
  | Some pct => if (pct <=? LowBattPct cfg) && (LowBattIncludesUSB cfg || negb (default false (s_usb s)))
                then Some (HealthLowBatt, text [bytes_of_string "batt_pct="; num pct; bytes_of_string " (<= "; num (LowBattPct cfg); bytes_of_string ")"])
                else None
  | None => None
  end.
Definition conditions (s : Sample) (cfg : VerdictCfg) (now : Z) : list (option (Health * string)) :=
  [offline s cfg now; brownout_reset s cfg; brownout_ota s cfg; bad_boots_warn s cfg; low_batt s cfg].

Definition Verdict (s : Sample) (cfg : VerdictCfg) (now : Z) : Health * list string :=
  if negb (HasData s) then
    match C2LastSeen s with
    | Some t => if (0 <? StaleAfter cfg) && (Sub now t <=? StaleAfter cfg)
                then (HealthNoData, [ReasonC2Alive]) else (HealthNoData, [ReasonSilent])
    | None => (HealthNoData, [ReasonSilent])
    end
  else foldl (λ acc c, match c with Some (h, reason) => bump h reason acc | None => acc end)
         (HealthOK, []) (conditions s cfg now).

Definition uptimeRollback (cur prev : Sample) : bool :=
  match Uptime cur, Uptime prev with Some c, Some p => c <? p | _, _ => false end.
Definition reasonIsBrownout (s : Sample) (cfg : VerdictCfg) : bool :=
  match s_reset s with Some rr => containsFold (BrownoutResetReasons cfg) rr | None => false end.
Definition RollbackChip (cur prev : Sample) (cfg : VerdictCfg) : bool :=
  uptimeRollback cur prev && reasonIsBrownout cur cfg.
End Verdict.

(** ** The queries (repo.go, query.sql.go) *)

Record FleetRow := MkFleetRow {
  f_serial : string; f_label : option string; AssignedChannel : string; RegLastSeen : option Z;
  f_bonded : bool; f_c2 : option Z;
  (* the newest telemetry row, if there is one *)
  f_time : option Z; f_mv : option Z; f_pct : option Z; f_bad : option Z; f_boots : option Z;
  f_reset : option string; f_usb : option bool; f_uptime : option Z; RunningVer : string;
  ReportedChannel : string; f_otarr : option Z }.
Definition has_data (r : FleetRow) : bool := bool_decide (is_Some (f_time r)).
Definition sample_of (r : FleetRow) : Sample :=
  MkSample (has_data r) (f_time r) (f_reset r) (f_otarr r) (f_bad r) (f_pct r) (f_usb r) (f_uptime r) (f_c2 r).
Definition ChannelMismatch (r : FleetRow) : bool :=
  has_data r && negb (bool_decide (ReportedChannel r = ""%string)) &&
  negb (bool_decide (ReportedChannel r = AssignedChannel r)).

(** [ORDER BY time DESC LIMIT 1]; among equal times, one of them. *)
Definition later (best : option telemetry_row) (r : telemetry_row) : option telemetry_row :=
  match best with Some b => if tm_time r <? tm_time b then best else Some r | None => Some r end.
Definition newest (serial : string) (l : list telemetry_row) : option telemetry_row :=
  foldl later None (List.filter (λ r, bool_decide (tm_serial r = serial)) l).

(** A clock that was never set is 0 in the row. *)
Definition c2_clock (a : C2.auth_row) : option Z :=
  if C2.last_seen_at a =? 0 then None else Some (C2.last_seen_at a).

Definition fleet_row (f : fleet) (serial : string) (dv : Rollout.device) : FleetRow :=
  let t := newest serial (LogIngest.telemetry (ingest f)) in
  let get {A} (g : telemetry_row → option A) : option A := t ≫= g in
  MkFleetRow serial (labels f !! serial) (Rollout.channel dv) (Rollout.last_seen dv) (DeviceStore.bonded f serial)
    (device_auth f !! serial ≫= c2_clock)
    (tm_time <$> t) (nullI32 true (get LogIngest.batt_mv)) (nullI16 true (get LogIngest.batt_pct))
    (nullI32 false (get LogIngest.bad_boots)) (nullI64 false (get boot_count)) (get reset_reason) (get usb)
    (nullI64 true (get uptime_ms)) (derefStr (get running_ver)) (derefStr (get tm_channel))
    (nullI16 false (get diag_ota_rr)).

Section Collation.
Context (text_le : string → string → bool).
Definition row_le (a b : FleetRow) : Prop := text_le (f_serial a) (f_serial b) = true.
#[global] Instance row_le_dec a b : Decision (row_le a b).
Proof. unfold row_le. apply _. Defined.

(** [serials]: the filter, empty for all. *)
Definition fleet_select (serials : list string) (f : fleet) : list FleetRow :=
  merge_sort row_le
    ((λ kv : string * Rollout.device, fleet_row f kv.1 kv.2) <$>
      List.filter (λ kv : string * Rollout.device, bool_decide (serials = []) || bool_decide (kv.1 ∈ serials))
        (map_to_list (devices f))).
Definition fleetRows (serials : list string) (maxDevices : Z) : M fleet db_err (list FleetRow) :=
  query EDb (λ f, Ok (take (Z.to_nat (if maxDevices <? 1 then 1 else maxDevices)) (fleet_select serials f))).
Definition LatestFleet (maxDevices : Z) := fleetRows [] maxDevices.
Definition FleetForSerials (serials : list string) (maxDevices : Z) : M fleet db_err (list FleetRow) :=
  if bool_decide (serials = []) then mret [] else fleetRows serials maxDevices.

Record DeviceTelemetry := MkDevice {
  d_row : telemetry_row; d_mv : option Z; d_pct : option Z; d_uptime : option Z; d_extra : Extra }.
(** The ingest writes no extra column: it is NULL. *)
Definition LatestDevice (serial : string) : M fleet db_err (option DeviceTelemetry) :=
  query EDb (λ f, Ok ((λ t, MkDevice t (nullI32 true (LogIngest.batt_mv t)) (nullI16 true (LogIngest.batt_pct t))
                             (nullI64 true (uptime_ms t)) (DecodeExtra (λ _, None) (λ _, None) [])) <$>
                      newest serial (LogIngest.telemetry (ingest f)))).

Record HistoryPoint := MkPoint {
  h_time : Z; h_mv : option Z; h_pct : option Z; h_bad : option Z; h_boots : option Z;
  h_reset : option string; h_uptime : option Z; h_otarr : option Z }.
Definition point_of (t : telemetry_row) : HistoryPoint :=
  MkPoint (tm_time t) (nullI32 true (LogIngest.batt_mv t)) (nullI16 true (LogIngest.batt_pct t))
    (nullI32 false (LogIngest.bad_boots t)) (nullI64 false (boot_count t)) (reset_reason t)
    (nullI64 true (uptime_ms t)) (nullI16 false (diag_ota_rr t)).
Definition point_sample (h : HistoryPoint) : Sample :=
  MkSample true (Some (h_time h)) (h_reset h) (h_otarr h) (h_bad h) None None (h_uptime h) None.
Definition newer (a b : telemetry_row) : Prop := tm_time b ≤ tm_time a.
#[global] Instance newer_dec a b : Decision (newer a b).
Proof. unfold newer. apply _. Defined.
Definition DeviceHistory (now : Z) (serial : string) (window maxRows : Z) : M fleet db_err (list HistoryPoint) :=
  query EDb (λ f, Ok (point_of <$> take (Z.to_nat (if maxRows <? 1 then 1 else maxRows))
    (merge_sort newer (List.filter (λ t, bool_decide (tm_serial t = serial) &&
        (if window <=? 0 then 0 <=? tm_time t else Sub now (tm_time t) <=? window))
      (reverse (LogIngest.telemetry (ingest f))))))).

(** ** The live tail (producer.go) *)

Record Event := MkEvent {
  e_serial : string; e_time : option Z; e_pct : option Z; e_mv : option Z; e_ver : string;
  e_health : string; e_last_seen : option Z; e_mismatch : bool }.

(** [SELECT serial, max(time) ... WHERE time > wm GROUP BY serial]. *)
Definition since (wm : Z) (l : list telemetry_row) : list telemetry_row := List.filter (λ t, wm <? tm_time t) l.
Definition changed (wm : Z) (l : list telemetry_row) : list string := remove_dups (tm_serial <$> since wm l).
Definition high (wm : Z) (l : list telemetry_row) : Z := foldl (λ hw t, Z.max hw (tm_time t)) wm (since wm l).
Definition prime (now : Z) (l : list telemetry_row) : Z :=
  match l with [] => now | t :: l => foldl (λ hw t, Z.max hw (tm_time t)) (tm_time t) l end.

Context (EqualFold : string → string → bool).
Definition event_of (cfg : VerdictCfg) (channelMismatchWarn : bool) (now : Z) (r : FleetRow) : option Event :=
  if negb (has_data r) then None
  else Some (MkEvent (f_serial r) (f_time r) (f_pct r) (f_mv r) (RunningVer r)
               (Health_String (Verdict EqualFold (sample_of r) cfg now).1) (RegLastSeen r)
               (channelMismatchWarn && ChannelMismatch r)).

(** [None]: not primed. The new watermark is not returned on an error. *)
Definition TailTelemetry (hw : option Z) (cfg : VerdictCfg) (channelMismatchWarn : bool) (maxDevices now : Z)
    : M fleet db_err (list Event * option Z) :=
  match hw with
  | None =>
      t ← query EDb (λ f, Ok (prime now (LogIngest.telemetry (ingest f))));
      mret ([], Some t)
  | Some wm =>
      '(serials, newHW) ← query EDb (λ f, let l := LogIngest.telemetry (ingest f) in Ok (changed wm l, high wm l));
      if bool_decide (serials = []) then mret ([], Some wm)
      else
        fleet ← FleetForSerials serials maxDevices;
        mret (omap (event_of cfg channelMismatchWarn now) fleet, Some newHW)
  end.

(** ** The routes (telemetry_http.go) *)

Record telemetryPolicy := MkPolicy {
  cfg : VerdictCfg; fleetMax : Z; historyWindow : Z; historyMaxRows : Z; channelMismatchWarn : bool;
  grafanaBaseURL : string; webhookBaseURL : string }.

(** The zero time, as it is marshalled: year 1. *)
Definition zero_time : Z := -62135596800.
Definition json_int (v : option Z) : json := match v with Some v => JNum v | None => JNull end.
Definition json_str (v : option string) : json := match v with Some v => JStr v | None => JNull end.
Definition json_bool (v : option bool) : json := match v with Some v => JBool v | None => JNull end.
Definition json_time (v : option Z) : json := match v with Some v => JTime v | None => JNull end.

Definition fleet_fields (r : FleetRow) : list (string * json) :=
  [("serial", JStr (f_serial r)); ("label", json_str (f_label r)); ("assigned_channel", JStr (AssignedChannel r));
   ("reg_last_seen", json_time (RegLastSeen r)); ("bonded", JBool (f_bonded r)); ("c2_last_seen", json_time (f_c2 r));
   ("has_data", JBool (has_data r)); ("time", JTime (default zero_time (f_time r))); ("batt_mv", json_int (f_mv r));
   ("batt_pct", json_int (f_pct r)); ("bad_boots", json_int (f_bad r)); ("boot_count", json_int (f_boots r));
   ("reset_reason", json_str (f_reset r)); ("usb", json_bool (f_usb r)); ("uptime_ms", json_int (f_uptime r));
   ("running_ver", JStr (RunningVer r)); ("reported_channel", JStr (ReportedChannel r));
   ("diag_ota_rr", json_int (f_otarr r))]%string.
Definition viewOf (p : telemetryPolicy) (r : FleetRow) (now : Z) : json :=
  let '(h, reasons) := Verdict EqualFold (sample_of r) (cfg p) now in
  JObj (fleet_fields r ++
    [("health", JStr (Health_String h)); ("reasons", match reasons with [] => JNull | l => JList (JStr <$> l) end);
     ("channel_mismatch", JBool (channelMismatchWarn p && ChannelMismatch r))]%string).
Definition extra_json (e : Extra) : json :=
  JObj [("rssi", json_int (RSSI e)); ("heap", json_int (Heap e)); ("temp", json_int (Temp e)); ("tx", json_int (TX e));
        ("present", JBool (Present e))]%string.
Definition device_json (d : DeviceTelemetry) : json :=
  let t := d_row d in
  JObj [("serial", JStr (tm_serial t)); ("time", JTime (tm_time t)); ("batt_mv", json_int (d_mv d));
        ("batt_pct", json_int (d_pct d)); ("bad_boots", json_int (LogIngest.bad_boots t)); ("boot_count", json_int (boot_count t));
        ("reset_reason", json_str (reset_reason t)); ("usb", json_bool (usb t)); ("uptime_ms", json_int (d_uptime d));
        ("running_ver", JStr (derefStr (running_ver t))); ("device_channel", JStr (derefStr (tm_channel t)));
        ("diag_run_part", JStr (LogIngest.diag_run t)); ("diag_runstate", json_int (LogIngest.diag_runstate t));
        ("diag_o0", json_int (LogIngest.diag_o0 t)); ("diag_o1", json_int (LogIngest.diag_o1 t));
        ("diag_inv", json_str (LogIngest.diag_inv t)); ("diag_boots", json_int (LogIngest.diag_boots t));
        ("diag_rr", json_int (LogIngest.diag_rr t)); ("diag_ota_rr", json_int (diag_ota_rr t));
        ("diag_mv", json_int (LogIngest.diag_mv t)); ("diag_mv_err", json_int (LogIngest.diag_mv_err t));
        ("diag_stage", json_str (LogIngest.diag_stage t)); ("extra", extra_json (d_extra d))]%string.
Definition point_json (h : HistoryPoint) : json :=
  JObj [("time", JTime (h_time h)); ("batt_mv", json_int (h_mv h)); ("batt_pct", json_int (h_pct h));
        ("bad_boots", json_int (h_bad h)); ("boot_count", json_int (h_boots h)); ("reset_reason", json_str (h_reset h));
        ("uptime_ms", json_int (h_uptime h)); ("diag_ota_rr", json_int (h_otarr h))]%string.

Definition rollbackFires (hist : list HistoryPoint) (c : VerdictCfg) : bool :=
  match hist with
  | a :: b :: _ => RollbackChip EqualFold (point_sample a) (point_sample b) c
  | _ => false
  end.

Definition fleet_route (p : telemetryPolicy) (r : request) : MF reply :=
  rows ← on_fleet (LatestFleet (fleetMax p));
  match rows with
  | Err _ => fail r 500 "internal" "fleet query failed"
  | Ok rows =>
      let now := DeviceHttp.seconds r in
      mret (WriteOK r [] [("fleet", JList ((λ x, viewOf p x now) <$> rows)); ("server_time", JTime now)]%string)
  end.

Definition deviceTelemetry (p : telemetryPolicy) (r : request) (serial : string) : MF reply :=
  rows ← on_fleet (FleetForSerials [serial] 1);
  match rows with
  | Err _ => fail r 500 "internal" "fleet lookup failed"
  | Ok [] => fail r 404 "not_found" "no such device"
  | Ok (row :: _) =>
      latest ← on_fleet (LatestDevice serial);
      match latest with
      | Err _ => fail r 500 "internal" "device telemetry query failed"
      | Ok latest =>
          let now := DeviceHttp.seconds r in
          hist ← on_fleet (DeviceHistory now serial (historyWindow p) (historyMaxRows p));
          match hist with
          | Err _ => fail r 500 "internal" "device history query failed"
          | Ok hist =>
              mret (WriteOK r [] [("fleet", viewOf p row now);
                                  ("latest", match latest with Some d => device_json d | None => JNull end);
                                  ("history", JList (point_json <$> hist));
                                  ("rollback_brownout", JBool (rollbackFires hist (cfg p)));
                                  ("server_time", JTime now)]%string)
          end
      end
  end.

Definition config_route (p : telemetryPolicy) (r : request) : MF reply :=
  mret (WriteOK r [] [("grafana_base_url", JStr (grafanaBaseURL p)); ("webhook_base_url", JStr (webhookBaseURL p))]%string).
End Collation.

(** ** Policy from the environment *)

(** [strconv.ParseBool] *)
Definition ParseBool (s : string) : option bool :=
  if bool_decide (s ∈ ["1"; "t"; "T"; "true"; "TRUE"; "True"]%string) then Some true
  else if bool_decide (s ∈ ["0"; "f"; "F"; "false"; "FALSE"; "False"]%string) then Some false else None.
Definition envBool (v : string) (def : bool) : bool := if bool_decide (v = ""%string) then def else default def (ParseBool v).
Definition csvParam (s : string) : list string :=
  if bool_decide (s = ""%string) then [] else AdminHttp.splitScopes s.
Definition envCSV (v : string) (def : list string) : list string := match csvParam v with [] => def | l => l end.
Definition envIntCSV (v : string) (def : list Z) : list Z :=
  match omap (λ p, match atoi p with (n, None) => Some n | _ => None end) (csvParam v) with [] => def | l => l end.
Definition loadTelemetryPolicy (ParseDuration : string → option Z) (env : string → string) : telemetryPolicy :=
  let int k def := Events.envInt (env k) def in
  let dur k def := Events.envDuration ParseDuration (env k) def in
  MkPolicy
    (MkCfg (dur "ADMIN_TELEMETRY_STALE_AFTER"%string (3 * hour))
       (envCSV (env "ADMIN_TELEMETRY_BROWNOUT_RESET_REASONS"%string) ["brownout"%string])
       (envIntCSV (env "ADMIN_TELEMETRY_BROWNOUT_OTA_RR_CODES"%string) [9])
       (int "ADMIN_TELEMETRY_BAD_BOOTS_WARN"%string 2) (int "ADMIN_TELEMETRY_LOW_BATT_PCT"%string 15)
       (envBool (env "ADMIN_TELEMETRY_LOW_BATT_INCLUDES_USB"%string) false))
    (int "ADMIN_TELEMETRY_FLEET_MAX_DEVICES"%string 1000) (dur "ADMIN_TELEMETRY_HISTORY_WINDOW"%string (72 * hour))
    (int "ADMIN_TELEMETRY_HISTORY_MAX_ROWS"%string 500) (envBool (env "ADMIN_TELEMETRY_CHANNEL_MISMATCH_WARN"%string) true)
    (env "ADMIN_GRAFANA_BASE_URL"%string) (env "ADMIN_WEBHOOK_BASE_URL"%string).

End Telemetry.

(** * What the telemetry dashboard shows

    The verdict is the most severe condition with every reason; the fleet list
    and the live tail show each registered device by its newest row; the routes
    only read. *)

From S2P Require Import Prelude GoLib Db Rollout LogIngest RenderDb TemplateStore Fleet DeviceStore AdminGate DeviceHttp.
Import GoLib Fleet Telemetry.
Import LogIngest(telemetry_row, tm_time, tm_serial).
Import AdminGate(request, reply, rStatus).

Module TelemetryLaws.

(** ** The verdict *)

Section Verdict.
Context (EqualFold : string → string → bool).

Definition triggered (s : Sample) (cfg : VerdictCfg) (now : Z) : list (Health * string) :=
  omap id (conditions EqualFold s cfg now).

Lemma foldl_bump l acc :
  let r := foldl (λ acc c, match c with Some (h, reason) => bump h reason acc | None => acc end) acc l in
  r.2 = acc.2 ++ (omap id l).*2 ∧ severity acc.1 ≤ severity r.1 ∧
  (∀ c, c ∈ omap id l → severity c.1 ≤ severity r.1) ∧ (r.1 = acc.1 ∨ r.1 ∈ (omap id l).*1).
Proof.
  revert acc. induction l as [|c l IH]; intros acc; cbn -[severity].
  - rewrite app_nil_r. split_and!; [done|lia|by intros ? ?%not_elem_of_nil|by left].
  - destruct c as [[h reason]|]; cbn -[severity]; [|apply IH].
    destruct (IH (bump h reason acc)) as (H1 & H2 & H3 & H4). cbn -[severity] in *.
    assert (Hb : severity acc.1 ≤ severity (if severity acc.1 <? severity h then h else acc.1) ∧
                 severity h ≤ severity (if severity acc.1 <? severity h then h else acc.1)).
    { destruct (Z.ltb_spec (severity acc.1) (severity h)); lia. }
    split_and!.
    + rewrite H1. cbn. by rewrite <- app_assoc.
    + lia.
    + intros c [-> |Hc]%elem_of_cons; [cbn -[severity]; lia|by apply H3].
    + destruct H4 as [-> |H4]; [|right; by right]. destruct (_ <? _); [right; left|by left].
Qed.

(** The verdict on a sample with data names every condition that holds, in
    order, and is the most severe of them: OK exactly when none holds. Without
    data it says only whether the device still polls. A sentinel or NULL uptime
    is never a rollback. *)
Theorem Verdict_exact s cfg now :
  let v := Verdict EqualFold s cfg now in
  let hold := triggered s cfg now in
  (HasData s = true →
     v.2 = hold.*2 ∧ (∀ c, c ∈ hold → severity c.1 ≤ severity v.1) ∧
     (v.1 = HealthOK ↔ hold = []) ∧ (hold ≠ [] → v.1 ∈ hold.*1)) ∧
  (HasData s = false → v.1 = HealthNoData ∧ (v.2 = [ReasonC2Alive] ∨ v.2 = [ReasonSilent])) ∧
  (∀ prev, Uptime s = None ∨ Uptime prev = None → RollbackChip EqualFold s prev cfg = false).
Proof.
  cbv zeta. unfold Verdict, triggered. split_and!.
  - intros ->. cbn [negb]. destruct (foldl_bump (conditions EqualFold s cfg now) (HealthOK, [])) as (H1 & H2 & H3 & H4).
    set (v := foldl _ _ _) in *. set (hold := omap id _) in *.
    assert (Hsev : ∀ c, c ∈ hold → c.1 ≠ HealthOK).
    { intros [h x] Hc. apply list_elem_of_omap in Hc as (o & Ho & Hid). cbn in Hid. subst o.
      unfold conditions in Ho. repeat rewrite elem_of_cons in Ho. cbn.
      destruct Ho as [Ho|[Ho|[Ho|[Ho|[Ho|Ho]]]]]; [unfold offline in Ho; destruct (Time s)|unfold brownout_reset in Ho; destruct (s_reset s)
        |unfold brownout_ota in Ho; destruct (DiagOTARR s)|unfold bad_boots_warn in Ho; destruct (BadBoots s)
        |unfold low_batt in Ho; destruct (BattPct s)|by apply not_elem_of_nil in Ho]; try done;
        match type of Ho with _ = (if ?b then _ else _) => destruct b; [by injection Ho as -> _|done] end. }
    split_and!; [exact H1|exact H3| |].
    + split.
      * intros Hok. destruct hold as [|c hold]; [done|]. specialize (H3 c ltac:(left)). specialize (Hsev c ltac:(left)).
        rewrite Hok in H3. destruct c as [[] ?]; cbn in *; try done; lia.
      * intros Hn. rewrite Hn in H4. destruct H4 as [H4|H4]; [done|by apply not_elem_of_nil in H4].
    + intros Hne. destruct H4 as [H4|H4]; [|done]. destruct hold as [|c hold]; [done|].
      specialize (H3 c ltac:(left)). specialize (Hsev c ltac:(left)). rewrite H4 in H3.
      destruct c as [[] ?]; cbn in *; try done; lia.
  - intros ->. cbn [negb]. destruct (C2LastSeen s); [destruct (_ && _)|]; auto.
  - intros prev H. unfold RollbackChip, uptimeRollback. destruct (Uptime s), (Uptime prev); try done. by destruct H.
Qed.
End Verdict.

(** ** The newest row *)

Lemma newest_spec serial l :
  match newest serial l with
  | Some r => r ∈ l ∧ tm_serial r = serial ∧ ∀ r', r' ∈ l → tm_serial r' = serial → tm_time r' ≤ tm_time r
  | None => ∀ r, r ∈ l → tm_serial r ≠ serial
  end.
Proof.
  unfold newest. induction l as [|r l IH] using rev_ind; [by intros ? ?%not_elem_of_nil|].
  rewrite List.filter_app, foldl_app. cbn [List.filter]. set (best := foldl _ _ _) in *. clearbody best.
  assert (Hin : ∀ x, x ∈ l ++ [r] ↔ x ∈ l ∨ x = r) by (intros; by rewrite elem_of_app, list_elem_of_singleton).
  case_bool_decide as Hs; cbn [foldl].
  - unfold later. destruct best as [b|]; [destruct (Z.ltb_spec (tm_time r) (tm_time b)) as [Hlt|Hlt]|].
    + destruct IH as (H1 & H2 & H3). split_and!; [apply Hin; auto|done|]. intros x [?| ->]%Hin ?; [auto|lia].
    + destruct IH as (H1 & H2 & H3). split_and!; [apply Hin; auto|done|]. intros x [Hx| ->]%Hin Hxs; [|lia].
      specialize (H3 x Hx Hxs). lia.
    + split_and!; [apply Hin; auto|done|]. intros x [Hx| ->]%Hin ?; [by destruct (IH x Hx)|lia].
  - destruct best as [b|].
    + destruct IH as (H1 & H2 & H3). split_and!; [apply Hin; auto|done|]. intros x [?| ->]%Hin ?; [auto|done].
    + intros x [?| ->]%Hin; auto.
Qed.

(** ** The fleet and the tail *)

Section Fleet.
Context (text_le : string → string → bool) (EqualFold : string → string → bool).

Lemma fleet_select_perm serials f : NoDup serials → (∀ s, s ∈ serials → is_Some (devices f !! s)) → serials ≠ [] →
  f_serial <$> fleet_select text_le serials f ≡ₚ serials.
Proof.
  intros Hnd Hreg Hne. unfold fleet_select. rewrite merge_sort_Permutation, <- list_fmap_compose.
  rewrite bool_decide_eq_false_2 by done. cbn [orb].
  change (f_serial ∘ (λ kv : string * Rollout.device, fleet_row f kv.1 kv.2)) with (λ kv : string * Rollout.device, kv.1).
  apply NoDup_Permutation; [|done|].
  - assert (H : ∀ l : list (string * Rollout.device), NoDup l.*1 → NoDup ((List.filter (λ kv, bool_decide (kv.1 ∈ serials)) l).*1)).
    { intros l. induction l as [|[k v] l IH]; [done|]. intros [Hni Hl]%NoDup_cons. cbn [List.filter].
      case_bool_decide; [|by apply IH]. constructor; [|by apply IH]. intros ([k' v'] & Hk & Hin)%list_elem_of_fmap.
      cbn in Hk. subst k'. apply Hni, list_elem_of_fmap. exists (k, v'). split; [done|].
      apply list_elem_of_In, List.filter_In in Hin as [Hin _]. by apply list_elem_of_In. }
    apply H, NoDup_fst_map_to_list.
  - intros s. rewrite list_elem_of_fmap. split.
    + intros ([k v] & -> & Hin). apply list_elem_of_In, List.filter_In in Hin as [_ Hin]. by apply bool_decide_eq_true in Hin.
    + intros Hs. destruct (Hreg s Hs) as [dv Hdv]. exists (s, dv). split; [done|].
      apply list_elem_of_In, List.filter_In. split; [by apply list_elem_of_In, elem_of_map_to_list|by apply bool_decide_eq_true].
Qed.

Lemma fleet_select_rows serials f r : r ∈ fleet_select text_le serials f →
  ∃ dv, devices f !! f_serial r = Some dv ∧ r = fleet_row f (f_serial r) dv.
Proof.
  unfold fleet_select. rewrite (elem_of_Permutation_proper _ _ _ (merge_sort_Permutation _ _)).
  intros ([k dv] & -> & Hin)%list_elem_of_fmap. apply list_elem_of_In, List.filter_In in Hin as [Hin _].
  apply list_elem_of_In, elem_of_map_to_list in Hin. by exists dv.
Qed.

Lemma fleet_select_one serial f : match fleet_select text_le [serial] f with
  | [] => devices f !! serial = None
  | _ => is_Some (devices f !! serial)
  end.
Proof.
  destruct (devices f !! serial) as [dv|] eqn:Hd.
  - assert (Hp := fleet_select_perm [serial] f). destruct (fleet_select _ _ _); [|done].
    exfalso. assert (Hx : f_serial <$> [] ≡ₚ [serial]); [|by apply Permutation_nil_cons in Hx].
    apply Hp; [apply NoDup_singleton| |done]. intros s ->%list_elem_of_singleton. by exists dv.
  - destruct (fleet_select _ _ _) as [|r l] eqn:Hs; [done|]. exfalso.
    assert (Hr : r ∈ fleet_select text_le [serial] f) by (rewrite Hs; left).
    revert Hr. unfold fleet_select. rewrite (elem_of_Permutation_proper _ _ _ (merge_sort_Permutation _ _)).
    intros ([k dv] & -> & Hin)%list_elem_of_fmap. apply list_elem_of_In, List.filter_In in Hin as [Hin Hk].
    apply list_elem_of_In, elem_of_map_to_list in Hin. apply bool_decide_eq_true, list_elem_of_singleton in Hk. cbn in Hk. congruence.
Qed.

Lemma high_spec wm l : wm ≤ high wm l ∧ ∀ t, t ∈ l → tm_time t ≤ high wm l.
Proof.
  unfold high. induction l as [|t l [IH1 IH2]] using rev_ind; [split; [cbn; lia|by intros ? ?%not_elem_of_nil]|].
  unfold since in *. rewrite List.filter_app, foldl_app. cbn [List.filter].
  destruct (Z.ltb_spec wm (tm_time t)); cbn [foldl]; (split; [lia|]);
    intros x [Hx| ->%list_elem_of_singleton]%elem_of_app; try (specialize (IH2 x Hx)); lia.
Qed.
Lemma changed_spec wm l s : s ∈ changed wm l ↔ ∃ t, t ∈ l ∧ tm_serial t = s ∧ wm < tm_time t.
Proof.
  unfold changed. rewrite elem_of_remove_dups, list_elem_of_fmap. unfold since. split.
  - intros (t & -> & Hin). apply list_elem_of_In, List.filter_In in Hin as [Hin Ht%Z.ltb_lt]. exists t.
    by rewrite list_elem_of_In.
  - intros (t & Hin & <- & Ht). exists t. split; [done|]. apply list_elem_of_In, List.filter_In.
    split; [by apply list_elem_of_In|by apply Z.ltb_lt].
Qed.

(** One tick of the live tail, given a watermark, room for the devices that
    reported since and their registration: exactly one event for each of them,
    and for no other, carrying its newest row; the new watermark covers every
    row, so that the next tick on the same rows is quiet and repeats nothing. The
    fleet list shows every registered device, also a silent one, by its newest
    row. *)
Theorem tail_complete f wm cfg warn cap now
    (Hreg : ∀ s, s ∈ changed wm (LogIngest.telemetry (ingest f)) → is_Some (devices f !! s))
    (Hroom : Z.of_nat (length (changed wm (LogIngest.telemetry (ingest f)))) ≤ cap) :
  let l := LogIngest.telemetry (ingest f) in
  (∃ evs hw, TailTelemetry text_le EqualFold (Some wm) cfg warn cap now f [] = (Ok (evs, Some hw), f, []) ∧
     e_serial <$> evs ≡ₚ changed wm l ∧
     (∀ e, e ∈ evs → ∃ r, newest (e_serial e) l = Some r ∧ e_time e = Some (tm_time r)) ∧
     (∀ t, t ∈ l → tm_time t ≤ hw) ∧
     TailTelemetry text_le EqualFold (Some hw) cfg warn cap now f [] = (Ok ([], Some hw), f, [])) ∧
  (∀ s, is_Some (devices f !! s) ↔ s ∈ f_serial <$> fleet_select text_le [] f) ∧
  (∀ r, r ∈ fleet_select text_le [] f → f_time r = tm_time <$> newest (f_serial r) l).
Proof.
  cbv zeta. set (l := LogIngest.telemetry (ingest f)) in *.
  assert (Hquiet : ∀ hw, (∀ t, t ∈ l → tm_time t ≤ hw) →
    TailTelemetry text_le EqualFold (Some hw) cfg warn cap now f [] = (Ok ([], Some hw), f, [])).
  { intros hw Hhw. unfold TailTelemetry, query, stmt, mbind, M_bind, mret, M_ret. fold l.
    assert (Hc : changed hw l = []).
    { destruct (changed hw l) as [|s x] eqn:Hx; [done|]. assert (Hs : s ∈ changed hw l) by (rewrite Hx; left).
      apply changed_spec in Hs as (t & Ht & _ & Hlt). specialize (Hhw t Ht). lia. }
    by rewrite Hc. }
  split_and!.
  - destruct (high_spec wm l) as [_ Hhigh].
    destruct (decide (changed wm l = [])) as [Hnil|Hne].
    + exists [], wm. assert (Hwm : ∀ t, t ∈ l → tm_time t ≤ wm).
      { intros t Ht. destruct (Z.le_gt_cases (tm_time t) wm); [done|]. exfalso.
        assert (Hs : tm_serial t ∈ changed wm l) by (apply changed_spec; eauto). rewrite Hnil in Hs.
        by apply not_elem_of_nil in Hs. }
      split_and!; [by apply Hquiet|by rewrite Hnil|by intros ? ?%not_elem_of_nil|done|by apply Hquiet].
    + pose proof (fleet_select_perm (changed wm l) f (NoDup_remove_dups _) Hreg Hne) as Hperm.
      set (rows := fleet_select text_le (changed wm l) f) in *.
      assert (Hlen : (length rows ≤ Z.to_nat (if cap <? 1 then 1 else cap)%Z)%nat).
      { apply Permutation_length in Hperm. rewrite length_fmap in Hperm. rewrite Hperm.
        destruct (Z.ltb_spec cap 1); lia. }
      exists (omap (event_of EqualFold cfg warn now) rows), (high wm l).
      assert (Hrow : ∀ r, r ∈ rows → ∃ t, newest (f_serial r) l = Some t ∧ f_time r = Some (tm_time t)).
      { intros r Hr. assert (Hs : f_serial r ∈ changed wm l) by (rewrite <- Hperm; by apply list_elem_of_fmap_2).
        apply changed_spec in Hs as (t & Ht & Hts & _). destruct (fleet_select_rows _ _ _ Hr) as (dv & _ & Hr').
        pose proof (newest_spec (f_serial r) l) as Hn. destruct (newest (f_serial r) l) as [b|] eqn:Hb; [|by destruct (Hn t Ht)].
        exists b. split; [done|]. rewrite Hr'. cbn. fold l. by rewrite Hb. }
      split_and!; [..|exact Hhigh|by apply Hquiet].
      * unfold TailTelemetry, FleetForSerials, fleetRows, query, stmt, mbind, M_bind, mret, M_ret. fold l.
        rewrite (bool_decide_eq_false_2 (changed wm l = [])) by done. cbn -[fleet_select take].
        fold rows. by rewrite take_ge.
      * rewrite <- Hperm. assert (Ho : e_serial <$> omap (event_of EqualFold cfg warn now) rows = f_serial <$> rows); [|by rewrite Ho].
        clear -Hrow. induction rows as [|r rows IH]; [done|]. cbn. destruct (Hrow r ltac:(left)) as (t & _ & Ht).
        unfold event_of, has_data. rewrite Ht. cbn. f_equal. apply IH. intros x Hx. apply Hrow. by right.
      * intros e (r & Hr & He)%list_elem_of_omap. destruct (Hrow r Hr) as (t & Hn & Ht). unfold event_of, has_data in He.
        rewrite Ht in He. cbn in He. injection He as <-. cbn. exists t. split; [done|]. by rewrite ?Ht.
  - intros s. split.
    + intros [dv Hdv]. apply list_elem_of_fmap. exists (fleet_row f s dv). split; [done|]. unfold fleet_select.
      rewrite (elem_of_Permutation_proper _ _ _ (merge_sort_Permutation _ _)). apply list_elem_of_fmap. exists (s, dv).
      split; [done|]. apply list_elem_of_In, List.filter_In. by rewrite <- list_elem_of_In, elem_of_map_to_list.
    + intros (r & -> & Hr)%list_elem_of_fmap. destruct (fleet_select_rows _ _ _ Hr) as (dv & -> & _). by eexists.
  - intros r Hr. destruct (fleet_select_rows _ _ _ Hr) as (dv & _ & ->). done.
Qed.

(** A query of a handler answers, and leaves the tables. *)
Lemma on_query {E A} (e : E) (g : fleet → result E A) f fs : ∃ fs', (fs = [] → fs' = []) ∧ (
  on_fleet (query e g) f fs = (Ok (g f), f, fs') ∨ fs ≠ [] ∧ on_fleet (query e g) f fs = (Ok (Err e), f, fs')).
Proof.
  unfold on_fleet, call, query, stmt. destruct fs as [|[] fs]; cbn; destruct (g f); eexists; (split; [|eauto]); done.
Qed.

Ltac on_query f fs fs' :=
  match goal with |- context [on_fleet (query ?e ?g) f fs] => destruct (on_query e g f fs) as (fs' & ? & [->|[? ->]]) end.
Ltac answered := eexists _, _; split; [reflexivity|]; split_and!; [cbn; set_solver|try done|try naive_solver].

(** The dashboard only reads: under any faults each route answers, with 200,
    404 or 500, and the tables are as they were. Without faults the list is
    there, and a device's page exactly for a registered device. *)
Theorem dashboard_reads_only p r serial f fs :
  (∃ rep fs', fleet_route text_le EqualFold p r f fs = (Ok rep, f, fs') ∧ rStatus rep ∈ [200; 500] ∧
     (fs = [] → rStatus rep = 200)) ∧
  (∃ rep fs', deviceTelemetry text_le EqualFold p r serial f fs = (Ok rep, f, fs') ∧ rStatus rep ∈ [200; 404; 500] ∧
     (rStatus rep = 404 → devices f !! serial = None) ∧
     (fs = [] → rStatus rep = 200 ↔ is_Some (devices f !! serial))) ∧
  (∃ rep fs', config_route p r f fs = (Ok rep, f, fs') ∧ rStatus rep = 200).
Proof.
  split_and!.
  - unfold fleet_route, LatestFleet, fleetRows, mbind, M_bind.
    destruct (on_query EDb (λ f, Ok (take (Z.to_nat (if fleetMax p <? 1 then 1 else fleetMax p)) (fleet_select text_le [] f))) f fs)
      as (fs' & _ & [->|[Hfs ->]]); (eexists _, _; split; [reflexivity|]); cbn; split; try done; set_solver.
  - unfold deviceTelemetry, FleetForSerials. rewrite (bool_decide_eq_false_2 ([serial] = [])) by done.
    unfold fleetRows, LatestDevice, DeviceHistory.
    pose proof (fleet_select_one serial f) as Hone. unfold mbind, M_bind.
    on_query f fs fs1; [|by answered].
    assert (Htake : take (Z.to_nat 1) (fleet_select text_le [serial] f) = [] ↔ devices f !! serial = None).
    { destruct (fleet_select _ _ _); cbn; split; try done. intros Hn. rewrite Hn in Hone. by destruct Hone. }
    cbn -[fleet_select take]. change (if 1 <? 1 then 1 else 1) with 1. destruct (take _ _) as [|row rows].
    { assert (Hnone : devices f !! serial = None) by (by apply Htake). answered. rewrite Hnone. split; [done|by intros []]. }
    assert (Hsome : is_Some (devices f !! serial)) by (apply not_eq_None_Some; by intros ?%Htake).
    on_query f fs1 fs2; [|by answered]. on_query f fs2 fs3; by answered.
  - by eexists _, _.
Qed.
End Fleet.

(** ** Samples *)

Definition row_at (t : Z) (s : string) : telemetry_row :=
  LogIngest.MkTelemetry t s (Some 3900) (Some (-1)) None (Some 7) (Some "brownout"%string) None None None None "" None
    None None None None None None None None None None.
Definition ex_fleet (l : list telemetry_row) : fleet :=
  MkFleet ∅ (LogIngest.MkDb (Rollout.MkTables ∅ {["stable"%string := None]} [] 1
      {["p1"%string := Rollout.MkDevice "stable" None None; "p2"%string := Rollout.MkDevice "stable" None None]} ∅) l ∅ ∅ [])
    ∅ ∅ ∅ [] 1 (TemplateStore.MkDb ∅ 1 ∅ RenderDb.empty_db) ∅.
Definition text_le (a b : string) : bool := String.leb a b.
Definition ex_db : fleet := ex_fleet [row_at 100 "p1"; row_at 160 "p2"; row_at 170 "p1"].

Lemma ex_registered wm s : s ∈ changed wm (LogIngest.telemetry (ingest ex_db)) → is_Some (devices ex_db !! s).
Proof.
  intros (t & Ht & <- & _)%changed_spec. revert t Ht. apply Forall_forall.
  repeat constructor; vm_compute; by eexists.
Qed.

Lemma tail_complete_witness :
  (∃ evs hw, TailTelemetry text_le String.eqb (Some 120) DefaultVerdictCfg true 2 200 ex_db [] = (Ok (evs, Some hw), ex_db, []) ∧
     e_serial <$> evs ≡ₚ ["p2"; "p1"]%string) ∧
  is_Some (devices ex_db !! "p1"%string).
Proof.
  destruct (tail_complete text_le String.eqb ex_db 120 DefaultVerdictCfg true 2 200 (ex_registered 120)) as [H _].
  { vm_compute. discriminate. }
  split; [|vm_compute; by eexists]. destruct H as (evs & hw & H1 & H2 & _). exists evs, hw. split; [exact H1|]. exact H2.
Defined.

(** Beyond its cap the tail drops the devices that reported, for good: the
    watermark moves past their rows. *)
Theorem tail_drops :
  (e_serial <$> (match (TailTelemetry text_le String.eqb (Some 120) DefaultVerdictCfg true 1 200 ex_db []).1.1 with
                 | Ok (evs, _) => evs | Err _ => [] end) = ["p1"%string]) ∧
  "p2"%string ∈ changed 120 (LogIngest.telemetry (ingest ex_db)) ∧
  TailTelemetry text_le String.eqb (Some 170) DefaultVerdictCfg true 1 200 ex_db [] = (Ok ([], Some 170), ex_db, []).
Proof.
  split_and!; [vm_compute; reflexivity|apply changed_spec|vm_compute; reflexivity].
  exists (row_at 160 "p2"). split_and!; [right; left|done|done].
Qed.

End TelemetryLaws.
