(* ===== verification/LogHttp.v ===== *)
(** * The log viewer's routes ([cmd/backend/logs_http.go])

    The three reads over [LogQuery] and the fragment prune, with the two
    statements of [internal/logquery] they use. The collation, the JSON codec of
    the bookmark and which fragments are stale are arguments. *)

From S2P Require Import Prelude GoLib Db Rollout LogIngest LogQuery Fleet AdminGate Events DeviceHttp Telemetry.
Import GoLib Fleet.
Import LogQuery(Line, Cursor, Params, MkParams, Page).
Import AdminGate(request, reply, json, JNull, JBool, JNum, JStr, JTime, JList, JObj, WriteOK, rStatus).
Import DeviceHttp(fail).

Module LogHttp.

(** ** Statements of logquery.go *)

Section Collation.
Context (text_le serial_ltb : string → string → bool).
Definition le (a b : string) : Prop := text_le a b = true.
#[global] Instance le_dec a b : Decision (le a b).
Proof. unfold le. apply _. Defined.

Definition DistinctSerials (now window : Z) : M LogIngest.db db_err (list string) :=
  query EDb (λ d, Ok (merge_sort le (remove_dups (LogIngest.l_serial <$>
    List.filter (λ r, Telemetry.Sub now (LogIngest.l_time r) <? window) (LogIngest.logs d))))).

(** [stale]: whether the fragment's creation lies before the horizon. *)
Definition PruneFragments (stale : string * Z * Z → bool) : M LogIngest.db db_err Z :=
  stmt EDb (λ d,
    (Ok (Z.of_nat (size (filter (λ kv : string * Z * Z * LogIngest.fragment, stale kv.1 = true) (LogIngest.fragments d)))),
     LogIngest.set_fragments (filter (λ kv : string * Z * Z * LogIngest.fragment, stale kv.1 = false)) d)).

(** ** The handlers *)

Record logHandlers := MkHandlers { sep : string; pageMax : Z; serialsWindow : Z }.
Definition env (v def : string) : string := if bool_decide (v = ""%string) then def else v.
Definition envIntOr := Events.envInt.
Definition envDurOr := Events.envDuration.
Definition loadLogHandlers (ParseDuration : string → option Z) (getenv : string → string) : logHandlers :=
  MkHandlers (env (getenv "LOG_LINE_SEPARATOR"%string) "|") (envIntOr (getenv "LOG_PAGE_MAX"%string) 500)
    (envDurOr ParseDuration (getenv "LOG_SERIALS_WINDOW"%string) (90 * 24 * Telemetry.hour)).

Definition on_logs {E A} (m : M LogIngest.db E A) : MF (result E A) := call ingest set_ingest m.

(** [json_ok]: the bookmark's JSON decodes; its row pointer may still be one the
    database does not take, which [unmarshal] decides. *)
Context (marshal : Cursor → bytes) (unmarshal : bytes → option Cursor) (json_ok : bytes → bool).
Definition cursor_ok (s : string) : bool :=
  match b64_decode (bytes_of_string s) with Some raw => json_ok raw | None => false end.

Definition line_json (l : Line) : json :=
  JObj [("time", JTime (LogQuery.ln_time l)); ("serial", JStr (LogQuery.ln_serial l)); ("seq", Telemetry.json_int (LogQuery.ln_seq l));
        ("idx", JNum (LogQuery.ln_idx l)); ("boot_count", Telemetry.json_int (LogQuery.ln_boot l)); ("source", JStr (LogQuery.ln_source l));
        ("gap", JBool (LogQuery.ln_gap l)); ("suspect", JBool (LogQuery.ln_suspect l)); ("text", JStr (LogQuery.ln_text l));
        ("synthetic", JBool false)]%string.

(** [q]: the query parameter of a name, empty where absent. *)
Definition limit_param (h : logHandlers) (q : string → string) : Z :=
  match atoi (q "limit"%string) with
  | (n, None) => if (0 <? n) && (n <? pageMax h) then n else pageMax h
  | _ => pageMax h
  end.
Definition query_page (p : Params) : M LogIngest.db db_err Page :=
  query EDb (λ d, match LogQuery.Query serial_ltb marshal unmarshal p (LogIngest.logs d) with
                  | Some pg => Ok pg | None => Err EConstraint end).
Definition list_page (h : logHandlers) (r : request) (q : string → string) (boot : option Z) : MF reply :=
  let before := q "before"%string in
  if negb (bool_decide (before = ""%string)) && negb (cursor_ok before)
  then fail r 422 "invalid_cursor" "malformed pagination cursor"
  else
    page ← on_logs (query_page (MkParams (Telemetry.csvParam (q "serials"%string)) (Telemetry.csvParam (q "sources"%string))
                                  boot before (limit_param h q) (sep h)));
    match page with
    | Err _ => fail r 500 "internal" "log query failed"
    | Ok page =>
        mret (WriteOK r [] [("lines", JList (line_json <$> LogQuery.pg_lines page)); ("next_cursor", JStr (LogQuery.NextCursor page));
                            ("reached_edge", JBool (LogQuery.ReachedEdge page))]%string)
    end.
Definition list (h : logHandlers) (r : request) (q : string → string) : MF reply :=
  if bool_decide (q "boot"%string = ""%string) then list_page h r q None
  else match parse_int (q "boot"%string) 64 with
       | (n, None) => list_page h r q (Some n)
       | _ => fail r 422 "invalid_boot" "boot must be an integer epoch"
       end.

Definition serials (h : logHandlers) (r : request) : MF reply :=
  ss ← on_logs (DistinctSerials (DeviceHttp.seconds r) (serialsWindow h));
  match ss with
  | Err _ => fail r 500 "internal" "serials query failed"
  | Ok ss => mret (WriteOK r [] [("serials"%string, JList (JStr <$> ss))])
  end.

Definition reconstruct (r : request) (serial : string) (q : string → string) : MF reply :=
  if bool_decide (serial = ""%string) then fail r 422 "invalid_serial" "serial required"
  else match parse_int (q "epoch"%string) 64 with
  | (epoch, None) =>
      rec ← on_logs (query EDb (λ d, Ok (LogQuery.Reconstruct serial epoch d)));
      match rec with
      | Err _ => fail r 500 "internal" "reconstruct failed"
      | Ok (text, gaps) =>
          mret (WriteOK r [] [("serial", JStr serial); ("epoch", JNum epoch); ("text", JStr (string_of_bytes text));
                              ("gaps", JList ((λ off, JObj [("after_off"%string, JNum off)]) <$> gaps))]%string)
      end
  | _ => fail r 422 "invalid_epoch" "epoch query param must be an integer"
  end.

(** One tick of the prune: a failed statement is only logged. *)
Definition prune_tick (stale : string * Z * Z → bool) : MF unit :=
  _ ← on_logs (PruneFragments stale); mret tt.

(** ** What the routes do *)

Lemma on_logs_query {A} (e : db_err) (g : LogIngest.db → result db_err A) f fs : ∃ fs', (fs = [] → fs' = []) ∧ (
  on_logs (query e g) f fs = (Ok (g (ingest f)), f, fs') ∨ fs ≠ [] ∧ on_logs (query e g) f fs = (Ok (Err e), f, fs')).
Proof.
  assert (Hf : set_ingest (ingest f) f = f) by (by destruct f).
  unfold on_logs, call, query, stmt. destruct fs as [|[] fs]; cbn [is_ok]; destruct (g _); rewrite Hf; eexists; (split; [|eauto]); done.
Qed.

(** Every page is of one row at least and of the operator's cap at most, whatever
    the query string. *)
Lemma limit_bounded h q : 0 < pageMax h → 1 ≤ limit_param h q ≤ pageMax h.
Proof.
  intros Hp. unfold limit_param. destruct (atoi _) as [n [e|]]; [lia|].
  destruct (Z.ltb_spec 0 n), (Z.ltb_spec n (pageMax h)); cbn; lia.
Qed.

(** The viewer only reads, and what it shows is what the queries give on the
    tables; the prune removes the stale fragments and nothing else. *)
Lemma list_reads h r q f fs : ∃ rep fs', list h r q f fs = (Ok rep, f, fs') ∧ rStatus rep ∈ [200; 422; 500].
Proof.
  assert (Hpage : ∀ boot, ∃ rep fs', list_page h r q boot f fs = (Ok rep, f, fs') ∧ rStatus rep ∈ [200; 422; 500]).
  { intros boot. unfold list_page. destruct (_ && _); [by eexists _, _; split; [reflexivity|cbn; set_solver]|].
    unfold mbind, M_bind, query_page.
    match goal with |- context [on_logs (query ?e ?g) f fs] => destruct (on_logs_query e g f fs) as (fs' & _ & [->|[_ ->]]) end.
    - destruct (LogQuery.Query _ _ _ _ _); eexists _, _; (split; [reflexivity|cbn; set_solver]).
    - eexists _, _. split; [reflexivity|cbn; set_solver]. }
  unfold list. case_bool_decide; [apply Hpage|]. destruct (parse_int _ _) as [n [e|]]; [|apply Hpage].
  eexists _, _. split; [reflexivity|cbn; set_solver].
Qed.

Lemma prune_exact stale f fs : ∃ f' fs', prune_tick stale f fs = (Ok tt, f', fs') ∧
  (f' = f ∨ f' = set_ingest (LogIngest.set_fragments (filter (λ kv : string * Z * Z * LogIngest.fragment, stale kv.1 = false)) (ingest f)) f) ∧
  (∀ k, stale k = false → LogIngest.fragments (ingest f') !! k = LogIngest.fragments (ingest f) !! k) ∧
  (fs = [] → ∀ k, stale k = true → LogIngest.fragments (ingest f') !! k = None).
Proof.
  assert (Hf : set_ingest (ingest f) f = f) by (by destruct f).
  unfold prune_tick, on_logs, call, PruneFragments, stmt, mbind, M_bind, mret, M_ret.
  destruct fs as [|[] fs]; cbn [is_ok]; rewrite ?Hf; eexists _, _; (split; [reflexivity|]); (split; [by auto|]);
    try done; (split; [|try done; intros _]); intros k Hk; cbn.
  - rewrite map_lookup_filter. destruct (LogIngest.fragments (ingest f) !! k); cbn; [by rewrite option_guard_True|done].
  - rewrite map_lookup_filter. destruct (LogIngest.fragments (ingest f) !! k); cbn; [|done]. rewrite option_guard_False; [done|]. cbn. congruence.
  - rewrite map_lookup_filter. destruct (LogIngest.fragments (ingest f) !! k); cbn; [by rewrite option_guard_True|done].
Qed.
End Collation.
End LogHttp.
