(* ===== verification/OtaHttp.v ===== *)
(** * The OTA routes ([cmd/backend/ota_http.go])

    Firmware upload, channel defaults, rollouts and the resolver's answer, over
    [Rollout], with the list reads of [rolloutadmin]. A decoded body, [None]
    where it does not decode or is too large, and the collation are arguments. *)

From S2P Require Import Prelude GoLib Crypto Db Rollout LogIngest DeviceStore Fleet AdminGate DeviceHttp Telemetry.
Import GoLib Fleet.
Import Rollout(Target, tables, firmware_versions, channels, rollout_targets).
Import AdminGate(request, reply, json, JNull, JBool, JNum, JStr, JTime, JList, JObj, WriteOK, rStatus).
Import DeviceHttp(fail, seconds).

Module OtaHttp.

(** ** The list reads (rolloutadmin/write.go) *)

Record FirmwareRow := MkFirmwareRow { fr_version : string; Sha256 : string; SizeBytes : Z; CreatedAt : Z }.
Definition by_created (a b : FirmwareRow) : Prop := CreatedAt b ≤ CreatedAt a.
#[global] Instance by_created_dec a b : Decision (by_created a b).
Proof. unfold by_created. apply _. Defined.
Definition ListFirmware : M tables db_err (list FirmwareRow) :=
  query EDb (λ d, Ok (merge_sort by_created
    ((λ kv : string * Rollout.fw_row, MkFirmwareRow kv.1 (Rollout.sha256_ kv.2) (Rollout.size_bytes kv.2) (Rollout.created kv.2))
       <$> map_to_list (firmware_versions d)))).

Section Collation.
Context (text_le : string → string → bool).
Definition by_name (a b : string * option string) : Prop := text_le a.1 b.1 = true.
#[global] Instance by_name_dec a b : Decision (by_name a b).
Proof. unfold by_name. apply _. Defined.
Definition ListChannels : M tables db_err (list (string * option string)) :=
  query EDb (λ d, Ok (merge_sort by_name (map_to_list (channels d)))).
Definition by_scope (a b : Target) : Prop :=
  text_le (Rollout.t_channel b) (Rollout.t_channel a) = false ∨
  (text_le (Rollout.t_channel a) (Rollout.t_channel b) = true ∧ text_le (Rollout.t_serial a) (Rollout.t_serial b) = true).
#[global] Instance by_scope_dec a b : Decision (by_scope a b).
Proof. unfold by_scope. apply _. Defined.
Definition ListRollouts : M tables db_err (list Target) :=
  query EDb (λ d, Ok (merge_sort by_scope (rollout_targets d))).

(** ** Firmware *)

Definition maxFirmwareBytes : Z := Z.shiftl 16 20.
(** [^[0-9a-f]{64}$] *)
Definition hex_digit (b : Z) : bool := ((48 <=? b) && (b <=? 57)) || ((97 <=? b) && (b <=? 102)).
Definition shaRe (s : bytes) : bool := (zlen s =? 64) && forallb hex_digit s.
(** [strings.ToLower], as far as the pattern can tell. *)
Definition ToLower (s : string) : bytes := Rollout.to_lower <$> bytes_of_string s.

(** The file field: absent, or its content, [None] where the read fails. *)
Record form := MkForm { version_field : string; sha_field : string; blob_field : option (option bytes) }.

Definition register_failed (r : request) (version : string) (e : Rollout.write_err) : MF reply :=
  match e with
  | Rollout.ErrShaMismatch => fail r 422 "sha_mismatch" "server-recomputed sha256 != claimed (nothing stored)"
  | Rollout.EWrite EConstraint =>
      (* the CHECK is evaluated before the unique index *)
      if 31 <? Rollout.char_length version then fail r 422 "invalid_version" "version/sha violates a constraint"
      else fail r 409 "duplicate_version" "version already registered"
  | _ => fail r 500 "internal" "register failed"
  end.
Definition registerFirmware (r : request) (f : option form) : MF reply :=
  match f with
  | None => fail r 400 "bad_request" "malformed or oversized multipart body"
  | Some f =>
      let version := version_field f in
      let claimed := ToLower (sha_field f) in
      if bool_decide (version = ""%string) || (31 <? Z.of_nat (String.length version))
      then fail r 422 "invalid_version" "version must be 1..31 chars"
      else if negb (shaRe claimed) then fail r 422 "invalid_sha" "sha256 must match ^[0-9a-f]{64}$"
      else match blob_field f with
      | None => fail r 422 "missing_blob" "multipart field 'blob' required"
      | Some None => fail r 500 "internal" "blob read failed"
      | Some (Some content) =>
          let blob := take (Z.to_nat (maxFirmwareBytes + 1)) content in
          if maxFirmwareBytes <? zlen blob then fail r 422 "blob_too_large" "firmware blob exceeds the size cap"
          else
            sha ← on_ota (Rollout.RegisterFirmware (seconds r) version (string_of_bytes claimed) blob);
            match sha with
            | Err e => register_failed r version e
            | Ok sha => mret (WriteOK r [] [("version", JStr version); ("sha256", JStr sha); ("size_bytes", JNum (zlen blob))]%string)
            end
      end
  end.

Definition listFirmware (r : request) : MF reply :=
  rows ← on_ota ListFirmware;
  match rows with
  | Err _ => fail r 500 "internal" "firmware list failed"
  | Ok rows => mret (WriteOK r [] [("firmware"%string, JList ((λ x, JObj [("version", JStr (fr_version x));
      ("sha256", JStr (Sha256 x)); ("size_bytes", JNum (SizeBytes x)); ("created_at", JTime (CreatedAt x))]%string) <$> rows))])
  end.

(** ** Channels *)

Definition listChannels (r : request) : MF reply :=
  rows ← on_ota ListChannels;
  match rows with
  | Err _ => fail r 500 "internal" "channel list failed"
  | Ok rows => mret (WriteOK r [] [("channels"%string, JList ((λ x : string * option string,
      JObj [("name", JStr x.1); ("default_version", Telemetry.json_str x.2)]%string) <$> rows))])
  end.

Definition setChannelDefault (r : request) (name : string) (body : option string) : MF reply :=
  match body with
  | None => fail r 400 "bad_request" "malformed JSON body"
  | Some version =>
      if bool_decide (version = ""%string) then fail r 422 "missing_version" "version required"
      else
        found ← on_ota (Rollout.SetChannelDefault name version);
        match found with
        | Err EConstraint => fail r 422 "unknown_version" "version does not exist"
        | Err _ => fail r 500 "internal" "set default failed"
        | Ok false => fail r 404 "not_found" "no such channel"
        | Ok true => mret (WriteOK r [] [("channel", JStr name); ("default_version", JStr version)]%string)
        end
  end.

(** ** Rollouts *)

Record rollout_body := MkRollout { rb_serial : string; rb_channel : string; rb_version : string }.
Definition upsertRollout (r : request) (body : option rollout_body) : MF reply :=
  match body with
  | None => fail r 400 "bad_request" "malformed JSON body"
  | Some b =>
      if negb (bool_decide (rb_serial b = "*"%string)) && negb (DeviceStore.ValidSerial (rb_serial b))
      then fail r 422 "invalid_serial" "serial must be '*' or match ^[A-Za-z0-9_-]{1,31}$"
      else if bool_decide (rb_channel b = ""%string) || bool_decide (rb_version b = ""%string)
      then fail r 422 "missing_field" "channel and version required"
      else
        ok ← on_ota (Rollout.SerialResolvable (rb_serial b));
        match ok with
        | Err _ => fail r 500 "internal" "serial check failed"
        | Ok false => fail r 422 "unknown_serial" "no such device"
        | Ok true =>
            id ← on_ota (Rollout.UpsertRollout (seconds r) (rb_serial b) (rb_channel b) (rb_version b));
            match id with
            | Err EConstraint => fail r 422 "unknown_channel_or_version" "channel or version does not exist"
            | Err _ => fail r 500 "internal" "rollout upsert failed"
            | Ok id => mret (WriteOK r [] [("id", JNum id); ("serial", JStr (rb_serial b)); ("channel", JStr (rb_channel b));
                                           ("version", JStr (rb_version b))]%string)
            end
        end
  end.

Definition rolloutVals : list string := ["active"; "paused"; "done"]%string.
Definition rolloutID (s : string) : option Z := match parse_int s 64 with (n, None) => Some n | _ => None end.
Definition bad_id (r : request) : MF reply := fail r 422 "invalid_id" "rollout id must be an integer".
Definition setRolloutState (r : request) (id : string) (body : option string) : MF reply :=
  match rolloutID id with
  | None => bad_id r
  | Some n =>
      match body with
      | None => fail r 400 "bad_request" "malformed JSON body"
      | Some state =>
          if negb (bool_decide (state ∈ rolloutVals)) then fail r 422 "invalid_state" "state must be active|paused|done"
          else
            found ← on_ota (Rollout.SetRolloutState (seconds r) n state);
            match found with
            | Err _ => fail r 500 "internal" "set state failed"
            | Ok false => fail r 404 "not_found" "no such rollout"
            | Ok true => mret (WriteOK r [] [("id", JNum n); ("state", JStr state)]%string)
            end
      end
  end.
Definition deleteRollout (r : request) (id : string) : MF reply :=
  match rolloutID id with
  | None => bad_id r
  | Some n =>
      found ← on_ota (Rollout.DeleteRollout n);
      match found with
      | Err _ => fail r 500 "internal" "delete failed"
      | Ok false => fail r 404 "not_found" "no such rollout"
      | Ok true => mret (WriteOK r [] [("id", JNum n); ("deleted", JBool true)]%string)
      end
  end.
Definition listRollouts (r : request) : MF reply :=
  rows ← on_ota ListRollouts;
  match rows with
  | Err _ => fail r 500 "internal" "rollout list failed"
  | Ok rows => mret (WriteOK r [] [("rollouts"%string, JList ((λ t, JObj [("id", JNum (Rollout.t_id t)); ("serial", JStr (Rollout.t_serial t));
      ("channel", JStr (Rollout.t_channel t)); ("version", JStr (Rollout.t_version t)); ("state", JStr (Rollout.t_state t));
      ("updated_at", JTime (Rollout.t_updated t))]%string) <$> rows))])
  end.

(** ** The resolver's answer *)

Definition source_string (s : Rollout.Source) : string :=
  match s with
  | Rollout.SourceSerial => "serial" | Rollout.SourceFleet => "fleet"
  | Rollout.SourceChannelDefault => "channel-default" | Rollout.SourceNone => "none"
  end.
Definition resolved_json (x : Rollout.Resolved) : json :=
  JObj [("version", JStr (Rollout.Version x)); ("source", JStr (source_string (Rollout.RSource x)))]%string.
Definition resolve (r : request) (serial : string) : MF reply :=
  res ← on_ota (Rollout.ResolveTarget serial);
  match res with
  | Err _ => fail r 500 "internal" "resolve failed"
  | Ok x => mret (WriteOK r [] [("serial", JStr serial); ("resolved", resolved_json x)]%string)
  end.
End Collation.
End OtaHttp.

(** * From the upload to the device

    Every OTA route answers under any fault and moves the tables by the
    operator writes of [Rollout] only, and a refused request changes nothing; an
    uploaded firmware that is pinned to a device is what that device is told of
    and downloads. *)

From S2P Require Import Prelude GoLib Crypto Db OtaTicket Rollout LogIngest DeviceStore Fleet AdminGate ImageLaws DeviceHttp Telemetry.
Import GoLib Crypto Fleet OtaHttp.
Import Rollout(firmware_versions, channels, rollout_targets, targets_wf, blob_ok, admin_step, active).
Import AdminGate(request, reply, rStatus, JStr, WriteOK).

Module OtaLaws.

(** ** The hash in the form *)

Lemma sha_hex_shape b : shaRe (hex_encode (sha256 b)) = true ∧ Rollout.to_lower <$> hex_encode (sha256 b) = hex_encode (sha256 b).
Proof.
  assert (Hf : Forall (λ c, hex_digit c = true ∧ Rollout.to_lower c = c) (hex_encode (sha256 b))).
  { pose proof (sha256_bytes b) as Hb. revert Hb. generalize (sha256 b) as l. clear b. intros l Hl.
    assert (Hd : ∀ v, 0 ≤ v < 16 → hex_digit (GoLib.hex_digit v) = true ∧ Rollout.to_lower (GoLib.hex_digit v) = GoLib.hex_digit v).
    { intros v Hv. unfold hex_digit, Rollout.to_lower, GoLib.hex_digit. destruct (Z.ltb_spec v 10); split; zcase; (done || lia). }
    induction Hl as [|x l Hx Hl IH]; [constructor|]. cbn [hex_encode]. unfold byte_ok in Hx.
    repeat constructor; try apply Hd; try done; dlia. }
  split.
  - unfold shaRe. apply andb_true_intro. split.
    + apply Z.eqb_eq. unfold zlen. rewrite ImageLaws.hex_length, sha256_length. done.
    + apply forallb_forall. intros c Hc%list_elem_of_In. rewrite Forall_forall in Hf. by apply Hf.
  - rewrite <- (list_fmap_id (hex_encode _)) at 2. apply list_fmap_ext. intros i c Hc. rewrite Forall_forall in Hf.
    apply Hf. by eapply list_elem_of_lookup_2.
Qed.

(** ** Calls on the tables *)

Lemma set_ota_of f : set_ota (ota_of f) f = f.
Proof. by destruct f as [? [] ? ? ? ? ? ? ?]. Qed.
Lemma ota_of_set t f : ota_of (set_ota t f) = t.
Proof. done. Qed.

(** What a run of a handler leaves: an answer of a listed status, tables reached
    by operator writes, and everything as it was where the request is refused. *)
Record safe (f : fleet) (rep : reply) (f' : fleet) : Prop := {
  safe_status : rStatus rep ∈ [200; 400; 404; 409; 422; 500];
  safe_steps : rtc admin_step (ota_of f) (ota_of f') ∧ f' = set_ota (ota_of f') f;
  safe_refused : rStatus rep ∉ [200; 500] → f' = f }.

Lemma safe_same f rep : rStatus rep ∈ [200; 400; 404; 409; 422; 500] → safe f rep f.
Proof. intros Hs. split; [done|by rewrite set_ota_of|done]. Qed.

(** A call whose runs are operator writes, that leave the tables unless the
    handler then answers 200 or 500. *)
Lemma wpf_ota {E A} (m : M Rollout.tables E A) (k : result E A → MF reply) f :
  (∀ fs a d' fs', m (ota_of f) fs = (a, d', fs') → (d' = ota_of f ∨ admin_step (ota_of f) d') ∧
     ∃ rep, k a = mret rep ∧ rStatus rep ∈ [200; 400; 404; 409; 422; 500] ∧
       (rStatus rep ∉ [200; 500] → d' = ota_of f)) →
  wpf (on_ota m ≫= k) f (safe f).
Proof.
  intros Hm. apply wpf_bind, wpf_call. intros fs a d' fs' Hrun. destruct (Hm _ _ _ _ Hrun) as (Hs & rep & -> & Hst & Href).
  apply wpf_ret. split; [done| |].
  - rewrite ota_of_set. split; [|by destruct f]. destruct Hs as [-> |Hs]; [apply rtc_refl|by apply rtc_once].
  - intros Hr. rewrite (Href Hr). apply set_ota_of.
Qed.
Ltac answer := eexists; split; [reflexivity|split; [cbn; set_solver|]].
Ltac refuse := apply wpf_ret, safe_same; cbn; set_solver.

Section Routes.
Context (text_le : string → string → bool).

Lemma registerFirmware_safe r fm f : wpf (registerFirmware r fm) f (safe f).
Proof.
  unfold registerFirmware, DeviceHttp.fail. destruct fm as [[v sh bl]|]; [|refuse]. cbn [version_field sha_field blob_field].
  destruct (_ || _); [refuse|]. destruct (negb _); [refuse|]. destruct bl as [[content|]|]; [|refuse..].
  destruct (_ <? _); [refuse|]. apply wpf_ota. intros fs a d' fs' Hrun.
  split; [right; by eapply Rollout.admin_register|].
  destruct (Rollout.RegisterFirmware_run (DeviceHttp.seconds r) v (string_of_bytes (ToLower sh)) (take (Z.to_nat (maxFirmwareBytes + 1)) content) (ota_of f) fs)
    as (a1 & d1 & fs1 & Hrun1 & Hor). rewrite Hrun in Hrun1. injection Hrun1 as <- <- <-.
  destruct Hor as [[-> _]|(_ & _ & _ & [[_ ->]|[_ ->]])].
  - destruct a as [sha|[|[]|]]; cbn [register_failed]; try (answer; done). unfold DeviceHttp.fail. destruct (31 <? _); by answer.
  - answer. set_solver.
  - answer. set_solver.
Qed.

Lemma setChannelDefault_safe r n b f : wpf (setChannelDefault r n b) f (safe f).
Proof.
  unfold setChannelDefault, DeviceHttp.fail. destruct b as [v|]; [|refuse]. case_bool_decide; [refuse|].
  apply wpf_ota. intros fs a d' fs' Hrun. split; [right; by eapply Rollout.admin_default|].
  unfold Rollout.SetChannelDefault in Hrun. apply stmt_inv in Hrun as [[-> ->]|Hrun]; [by answer|].
  destruct (channels (ota_of f) !! n); [case_bool_decide|]; simplify_eq; answer; set_solver.
Qed.

Lemma upsertRollout_safe r b f : wpf (upsertRollout r b) f (safe f).
Proof.
  unfold upsertRollout, DeviceHttp.fail. destruct b as [[s ch v]|]; [|refuse]. cbn [rb_serial rb_channel rb_version].
  destruct (_ && _); [refuse|]. destruct (_ || _); [refuse|].
  apply wpf_bind, wpf_call. intros fs a d' fs' Hrun.
  assert (Hd : d' = ota_of f).
  { unfold Rollout.SerialResolvable in Hrun. case_bool_decide; [by injection Hrun|].
    unfold query in Hrun. apply stmt_inv in Hrun as [[_ ->]|Hrun]; [done|by injection Hrun]. }
  rewrite Hd, set_ota_of. destruct a as [[]|]; [|refuse..].
  apply wpf_ota. intros fs1 a d1 fs1' Hrun1. split; [right; by eapply Rollout.admin_upsert|].
  unfold Rollout.UpsertRollout in Hrun1. apply stmt_inv in Hrun1 as [[-> ->]|Hrun1]; [by answer|].
  unfold Rollout.upsert_target in Hrun1. destruct (_ || _); [|destruct (find_first _ _)]; simplify_eq; answer; set_solver.
Qed.

Lemma absent_unchanged g id n (d : Rollout.tables) : existsb (λ t, Rollout.t_id t =? id) (rollout_targets d) = false →
  Rollout.set_targets ((λ t, if Rollout.t_id t =? id then g t else t) <$> rollout_targets d) n d = Rollout.set_targets (rollout_targets d) n d ∧
  List.filter (λ t, negb (Rollout.t_id t =? id)) (rollout_targets d) = rollout_targets d.
Proof.
  intros Hn. assert (Hall : ∀ t, t ∈ rollout_targets d → (Rollout.t_id t =? id) = false).
  { intros t Ht. destruct (Rollout.t_id t =? id) eqn:He; [|done]. exfalso.
    assert (existsb (λ t, Rollout.t_id t =? id) (rollout_targets d) = true); [|congruence].
    apply existsb_exists. exists t. by rewrite <- list_elem_of_In. }
  split; [f_equal|].
  - rewrite <- (list_fmap_id (rollout_targets d)) at 2. apply list_fmap_ext. intros i t Ht.
    by rewrite (Hall t (list_elem_of_lookup_2 _ _ _ Ht)).
  - revert Hall. generalize (rollout_targets d) as l. intros l. induction l as [|t l IH]; [done|]. intros Hall. cbn [List.filter].
    rewrite (Hall t ltac:(left)). cbn [negb]. f_equal. apply IH. intros x Hx. apply Hall. by right.
Qed.

Lemma setRolloutState_safe r id b f : wpf (setRolloutState r id b) f (safe f).
Proof.
  unfold setRolloutState, bad_id, DeviceHttp.fail. destruct (rolloutID id) as [n|]; [|refuse]. destruct b as [st|]; [|refuse].
  destruct (negb _); [refuse|]. apply wpf_ota. intros fs a d' fs' Hrun. split; [right; by eapply Rollout.admin_state|].
  unfold Rollout.SetRolloutState in Hrun. apply stmt_inv in Hrun as [[-> ->]|Hrun]; [by answer|].
  destruct (existsb _ _) eqn:He; injection Hrun as <- <-; answer; [set_solver|]. intros _.
  rewrite (proj1 (absent_unchanged _ _ _ _ He)). by destruct (ota_of f).
Qed.

Lemma deleteRollout_safe r id f : wpf (deleteRollout r id) f (safe f).
Proof.
  unfold deleteRollout, bad_id, DeviceHttp.fail. destruct (rolloutID id) as [n|]; [|refuse].
  apply wpf_ota. intros fs a d' fs' Hrun. split; [right; by eapply Rollout.admin_delete|].
  unfold Rollout.DeleteRollout in Hrun. apply stmt_inv in Hrun as [[-> ->]|Hrun]; [by answer|].
  destruct (existsb _ _) eqn:He; injection Hrun as <- <-; answer; [set_solver|]. intros _.
  rewrite (proj2 (absent_unchanged (λ t, t) n 0 _ He)). by destruct (ota_of f).
Qed.

Lemma reading_safe {A} (m : M Rollout.tables db_err A) (k : result db_err A → MF reply) f :
  (∀ fs, ∃ a fs', m (ota_of f) fs = (a, ota_of f, fs')) →
  (∀ a, ∃ rep, k a = mret rep ∧ rStatus rep ∈ [200; 400; 404; 409; 422; 500]) → wpf (on_ota m ≫= k) f (safe f).
Proof.
  intros Hm Hk. apply wpf_ota. intros fs a d' fs' Hrun. destruct (Hm fs) as (a1 & fs1 & Hrun1). rewrite Hrun in Hrun1.
  injection Hrun1 as <- -> <-. split; [by left|]. destruct (Hk a) as (rep & ? & ?). by exists rep.
Qed.

Lemma resolve_safe r s f : wpf (resolve r s) f (safe f).
Proof.
  apply reading_safe.
  - intros fs. destruct (Rollout.ResolveTarget_reads s (ota_of f) fs) as (a & fs' & ?). by exists a, fs'.
  - intros [x|e]; eexists; (split; [reflexivity|cbn; set_solver]).
Qed.
Lemma listing_safe {A} (g : Rollout.tables → A) (k : result db_err A → MF reply) f :
  (∀ a, ∃ rep, k a = mret rep ∧ rStatus rep ∈ [200; 400; 404; 409; 422; 500]) →
  wpf (on_ota (query EDb (λ d, Ok (g d))) ≫= k) f (safe f).
Proof.
  intros Hk. apply reading_safe; [|done]. intros fs. unfold query, stmt. destruct fs as [|[] fs]; by eexists _, _.
Qed.

(** ** The routes *)

Inductive ota_request :=
| ORegister (fm : option form) | OListFirmware | OListChannels | ODefault (name : string) (version : option string)
| OUpsert (b : option rollout_body) | OState (id : string) (state : option string) | ODelete (id : string)
| OListRollouts | OResolve (serial : string).
Definition run (r : request) (x : ota_request) : MF reply :=
  match x with
  | ORegister fm => registerFirmware r fm | OListFirmware => listFirmware r | OListChannels => listChannels text_le r
  | ODefault n v => setChannelDefault r n v | OUpsert b => upsertRollout r b | OState i s => setRolloutState r i s
  | ODelete i => deleteRollout r i | OListRollouts => listRollouts text_le r | OResolve s => resolve r s
  end.
Lemma run_safe r x f : wpf (run r x) f (safe f).
Proof.
  destruct x; cbn [run];
    [apply registerFirmware_safe| | |apply setChannelDefault_safe|apply upsertRollout_safe
    |apply setRolloutState_safe|apply deleteRollout_safe| |apply resolve_safe];
    (apply listing_safe; intros [?|?]; eexists; (split; [reflexivity|cbn; set_solver])).
Qed.

(** Whatever the OTA request and under any faults, it is answered with a
    documented status; one that is refused changes nothing, no table but those of
    the rollout changes, and these stay well-formed: targets unique and of
    existing channels and versions, blobs named by their content. *)
Theorem ota_routes_safe r x f fs (Hwf : targets_wf (ota_of f)) (Hblob : blob_ok (ota_of f)) :
  ∃ rep f' fs', run r x f fs = (Ok rep, f', fs') ∧ rStatus rep ∈ [200; 400; 404; 409; 422; 500] ∧
    (rStatus rep ∉ [200; 500] → f' = f) ∧ f' = set_ota (ota_of f') f ∧
    targets_wf (ota_of f') ∧ blob_ok (ota_of f').
Proof.
  destruct (run_safe r x f fs) as (rep & f' & fs' & Hrun & [Hs [Hst Hset] Href]).
  exists rep, f', fs'. split_and!; [done..|exact Hset|idtac|idtac];
    (assert (H : targets_wf (ota_of f') ∧ blob_ok (ota_of f')); [|by destruct H]);
    (clear -Hwf Hblob Hst; induction Hst; [done|]; apply IHHst; by eapply Rollout.admin_step_wf).
Qed.

(** ** From the upload to the device *)

Lemma char_length_le s : Rollout.char_length s ≤ Z.of_nat (String.length s).
Proof.
  unfold Rollout.char_length, zlen. apply Nat2Z.inj_le.
  assert (Hf : ∀ (p : Z → bool) l, (length (List.filter p l) ≤ length l)%nat).
  { intros q l. induction l as [|x l IH]; [done|]. cbn. destruct (q x); cbn; lia. }
  etrans; [apply Hf|]. unfold bytes_of_string. rewrite length_map. apply Nat.eq_le_incl.
  induction s as [|a s IH]; [done|]. cbn. by f_equal.
Qed.

Lemma register_accepts r v claimed blob f : v ≠ ""%string → Z.of_nat (String.length v) ≤ 31 →
  firmware_versions (ota_of f) !! v = None → ToLower claimed = hex_encode (sha256 blob) → zlen blob ≤ maxFirmwareBytes →
  ∃ rep, registerFirmware r (Some (MkForm v claimed (Some (Some blob)))) f [] =
    (Ok rep, set_ota (Rollout.set_blobs (insert (Rollout.blob_name blob) blob)
       (Rollout.set_firmware (insert v (Rollout.MkFw (string_of_bytes (hex_encode (sha256 blob))) (Rollout.blob_name blob) (zlen blob) (DeviceHttp.seconds r)))
          (ota_of f))) f, []) ∧ rStatus rep = 200.
Proof.
  intros Hv Hlen Hfresh Hsha Hcap. destruct (sha_hex_shape blob) as [Hre Hlow]. unfold registerFirmware.
  cbn [version_field sha_field blob_field]. rewrite Hsha, Hre, bool_decide_eq_false_2 by done.
  rewrite (proj2 (Z.ltb_ge 31 _) Hlen). cbn [orb negb].
  assert (Htake : take (Z.to_nat (maxFirmwareBytes + 1)) blob = blob) by (apply take_ge; unfold zlen in *; lia).
  rewrite Htake, (proj2 (Z.ltb_ge maxFirmwareBytes _) Hcap).
  unfold on_ota, call, Rollout.RegisterFirmware, Rollout.writeBlobAtomic, Rollout.lift_w, Rollout.insert_firmware, Rollout.equal_fold_hex, query, exec, stmt, mbind, M_bind, mret, M_ret, throw.
  rewrite bytes_of_string_of_bytes by apply hex_encode_bytes, sha256_bytes.
  rewrite Hlow, (bool_decide_eq_true_2 (_ = _)) by done. cbn [negb]. rewrite Hfresh.
  rewrite (bool_decide_eq_false_2 (is_Some None)) by (by intros [? ?]).
  assert (Hcl : Rollout.char_length v ≤ 31).
  { etrans; [apply char_length_le|exact Hlen]. }
  rewrite (proj2 (Z.ltb_ge 31 _) Hcl). cbn [orb]. eexists. split; [reflexivity|done].
Qed.

Lemma upsert_active now s ch v d : is_Some (channels d !! ch) → is_Some (firmware_versions d !! v) →
  ∃ id d', Rollout.upsert_target now s ch v d = (Ok id, d') ∧ active d' s ch v ∧
    firmware_versions d' = firmware_versions d ∧ Rollout.blobs d' = Rollout.blobs d ∧
    Rollout.devices d' = Rollout.devices d ∧ channels d' = channels d.
Proof.
  intros Hch Hv. unfold Rollout.upsert_target. rewrite !bool_decide_eq_true_2 by done. cbn [negb orb].
  destruct (find_first _ _) as [old|] eqn:Hf; eexists _, _; (split; [reflexivity|]); (split; [|done]).
  - apply find_first_Some in Hf as [Hin Hk]. eexists. split; [apply list_elem_of_fmap; exists old; split; [reflexivity|exact Hin]|].
    cbn beta. by rewrite Hk.
  - eexists. split; [apply elem_of_app; right; by left|done].
Qed.

Lemma resolves_pinned s dv v d : targets_wf d → s ≠ "*"%string → Rollout.devices d !! s = Some dv →
  active d s (Rollout.channel dv) v →
  Rollout.ResolveTarget s d [] = (Ok (Rollout.MkResolved v Rollout.SourceSerial), d, []).
Proof.
  intros Hwf Hne Hdv Hact. unfold Rollout.ResolveTarget. db_unfold. simpl. rewrite Hdv. simpl.
  destruct (proj2 (proj2 (proj2 Hwf)) _ _ Hdv) as [def Hdef]. rewrite Hdef. simpl. unfold Rollout.Resolve, Rollout.DefaultPrecedence. simpl.
  pose proof (Rollout.tier_serial d (Rollout.channel dv) s Hne) as Ht.
  destruct (Rollout.first_some (Rollout.offers (Rollout.channel dv) Rollout.TierSerial) _) as [x|].
  - destruct Ht as (v' & Hv' & ->). by rewrite (Rollout.active_unique _ _ _ _ _ Hwf Hact Hv').
  - by destruct (Ht v).
Qed.

Lemma pin_accepts r s dv v f : targets_wf (ota_of f) → DeviceStore.ValidSerial s = true → v ≠ ""%string →
  Rollout.channel dv ≠ ""%string → devices f !! s = Some dv → is_Some (firmware_versions (ota_of f) !! v) →
  ∃ rep d', upsertRollout r (Some (MkRollout s (Rollout.channel dv) v)) f [] = (Ok rep, set_ota d' f, []) ∧ rStatus rep = 200 ∧
    active d' s (Rollout.channel dv) v ∧ firmware_versions d' = firmware_versions (ota_of f) ∧ Rollout.blobs d' = Rollout.blobs (ota_of f) ∧
    Rollout.devices d' = Rollout.devices (ota_of f) ∧ targets_wf d'.
Proof.
  intros Hwf Hs Hv Hch Hdv Hfw. change (devices f) with (Rollout.devices (ota_of f)) in Hdv.
  destruct (upsert_active (DeviceHttp.seconds r) s (Rollout.channel dv) v (ota_of f)) as (id & d' & Hup & Hact & H1 & H2 & H3 & _);
    [by eapply Hwf|done|].
  unfold upsertRollout. cbn [rb_serial rb_channel rb_version]. rewrite Hs, andb_false_r, !bool_decide_eq_false_2 by done. cbn [orb].
  unfold on_ota, call, Rollout.SerialResolvable, Rollout.UpsertRollout, query, stmt, mbind, M_bind, mret, M_ret.
  case_bool_decide as Hstar; [by subst s|]. rewrite Hdv, bool_decide_eq_true_2 by (by eexists). cbn.
  rewrite set_ota_of, Hup. cbn. eexists _, d'. split; [reflexivity|]. split_and!; try done.
  pose proof (Rollout.targets_wf_upsert (DeviceHttp.seconds r) s (Rollout.channel dv) v (ota_of f) Hwf) as Hw. by rewrite Hup in Hw.
Qed.

(** The headers a push is answered with, for a device told of [v]. *)
Definition signal (cfg : LogIngest.config) (now : Z) (s v : string) : list (string * string) :=
  [("X-Firmware-Version"%string, v);
   ("X-Firmware-Ticket"%string, string_of_bytes (OtaTicket.Mint now (LogIngest.otaKey cfg) (bytes_of_string s) (bytes_of_string v) (LogIngest.otaTTL cfg)))].

Lemma signals_pinned cfg now s v d : LogIngest.otaArmed cfg = true → v ≠ ""%string →
  Rollout.ResolveTarget s (LogIngest.ota d) [] = (Ok (Rollout.MkResolved v Rollout.SourceSerial), LogIngest.ota d, []) →
  LogIngest.injectOTASignal cfg now s d [] = (Ok (signal cfg now s v), d, []).
Proof.
  intros Harm Hv Hres. unfold LogIngest.injectOTASignal. rewrite Harm. cbn [negb]. unfold mbind, M_bind, attempt, zoom, mret, M_ret. rewrite Hres.
  cbn [Rollout.RSource Rollout.Version]. rewrite !bool_decide_eq_false_2 by done. cbn [orb].
  assert (LogIngest.set_ota (LogIngest.ota d) d = d) as -> by by destruct d. done.
Qed.

Lemma ticket_of cfg now s v t : ("X-Firmware-Ticket"%string, t) ∈ signal cfg now s v →
  t = string_of_bytes (OtaTicket.Mint now (LogIngest.otaKey cfg) (bytes_of_string s) (bytes_of_string v) (LogIngest.otaTTL cfg)).
Proof. unfold signal. rewrite elem_of_cons, list_elem_of_singleton. by intros [H|H]; injection H. Qed.
Lemma Mint_bytes now key s v ttl : bytes_ok (OtaTicket.Mint now key (bytes_of_string s) (bytes_of_string v) ttl).
Proof.
  assert (Hdot : bytes_ok OtaTicket.dot) by (repeat constructor; unfold byte_ok; lia).
  unfold OtaTicket.Mint, OtaTicket.signingInput, OtaTicket.mac.
  repeat (apply Forall_app; split); try exact Hdot; try apply b64_encode_bytes; try apply bytes_of_string_ok; try apply format_int_bytes.
  apply hmac_sha256_bytes.
Qed.
Lemma ticket_nonempty cfg now s v t : ("X-Firmware-Ticket"%string, t) ∈ signal cfg now s v → t ≠ ""%string.
Proof.
  intros ->%ticket_of He. apply (f_equal bytes_of_string) in He. rewrite bytes_of_string_of_bytes in He by apply Mint_bytes.
  unfold OtaTicket.Mint, OtaTicket.dot in He. cbn [bytes_of_string] in He. apply (f_equal length) in He.
  rewrite !length_app in He. cbn in He. lia.
Qed.

(** The download's answer for a stored firmware. *)
Definition binary (blob : bytes) : response :=
  Resp 200 [("X-Firmware-SHA256"%string, string_of_bytes (hex_encode (sha256 blob)));
    ("Content-Type"%string, "application/octet-stream"%string); ("Content-Length"%string, format_int (zlen blob))] blob.

Lemma serves_binary cfg now q sn v created blob d : LogIngest.otaArmed cfg = true → LogIngest.r_ticket q ≠ ""%string →
  OtaTicket.Verify now (LogIngest.otaKey cfg) (bytes_of_string (LogIngest.r_ticket q)) = Ok (sn, bytes_of_string v) →
  blob_ok (LogIngest.ota d) →
  firmware_versions (LogIngest.ota d) !! v =
    Some (Rollout.MkFw (string_of_bytes (hex_encode (sha256 blob))) (Rollout.blob_name blob) (zlen blob) created) →
  Rollout.blobs (LogIngest.ota d) !! Rollout.blob_name blob = Some blob →
  ∃ d' fs', LogIngest.handleFirmware cfg now q d [] = (Ok (binary blob), d', fs').
Proof.
  intros [Hen Hk]%andb_true_iff Ht Hver Hok Hfw Hblob. unfold LogIngest.handleFirmware. rewrite Hen, Hk, Hver. cbn [negb].
  rewrite bool_decide_eq_false_2 by done. rewrite string_of_bytes_of_string.
  pose proof (Rollout.blob_path_base _ _ _ Hok Hfw) as Hbase. cbn [Rollout.blob_path] in Hbase.
  unfold attempt, query, stmt, mbind, M_bind, mret, M_ret. rewrite Hfw. cbn [Rollout.blob_path Rollout.sha256_ Rollout.size_bytes].
  rewrite Hbase, Hblob. case_bool_decide; [by eexists _, _|].
  destruct (LogIngest.insertSnapshot _ _ _ _ _ _) as [[a d'] fs']. by eexists _, _.
Qed.

(** C7. From the operator's upload to the device. A new version of at most 31
    bytes whose claimed hash is that of the bytes, within the cap, is registered;
    pinned to a registered device it is what [GET /api/resolve] shows and what
    that device's next push is told of, and the ticket it is handed downloads,
    until it expires, exactly the bytes that were uploaded, with their hash. *)
Theorem upload_reaches_device cfg r1 r2 r3 v claimed blob s dv f now now2
    (Hwf : targets_wf (ota_of f)) (Hblobs : blob_ok (ota_of f)) (Harm : LogIngest.otaArmed cfg = true)
    (Hv : v ≠ ""%string) (Hlen : Z.of_nat (String.length v) ≤ 31) (Hfresh : firmware_versions (ota_of f) !! v = None)
    (Hsha : ToLower claimed = hex_encode (sha256 blob)) (Hcap : zlen blob ≤ maxFirmwareBytes)
    (Hs : DeviceStore.ValidSerial s = true) (Hdv : devices f !! s = Some dv) (Hch : Rollout.channel dv ≠ ""%string)
    (Hin : in_i64 (OtaTicket.unix (now + LogIngest.otaTTL cfg)))
    (Hlive : OtaTicket.unix now2 < OtaTicket.unix (now + LogIngest.otaTTL cfg)) :
  ∃ rep1 f1 rep2 f2,
    registerFirmware r1 (Some (MkForm v claimed (Some (Some blob)))) f [] = (Ok rep1, f1, []) ∧ rStatus rep1 = 200 ∧
    upsertRollout r2 (Some (MkRollout s (Rollout.channel dv) v)) f1 [] = (Ok rep2, f2, []) ∧ rStatus rep2 = 200 ∧
    resolve r3 s f2 [] = (Ok (WriteOK r3 [] [("serial", JStr s);
      ("resolved", resolved_json (Rollout.MkResolved v Rollout.SourceSerial))]%string), f2, []) ∧
    LogIngest.injectOTASignal cfg now s (ingest f2) [] = (Ok (signal cfg now s v), ingest f2, []) ∧
    ∀ q, ("X-Firmware-Ticket"%string, LogIngest.r_ticket q) ∈ signal cfg now s v →
      ∃ d' fs', LogIngest.handleFirmware cfg now2 q (ingest f2) [] = (Ok (binary blob), d', fs').
Proof.
  destruct (register_accepts r1 v claimed blob f Hv Hlen Hfresh Hsha Hcap) as (rep1 & Hreg & Hrep1).
  set (d1 := Rollout.set_blobs _ _) in Hreg. set (f1 := set_ota d1 f) in Hreg.
  assert (Hwf1 : targets_wf (ota_of f1)) by (by apply Rollout.targets_wf_firmware).
  assert (Hfw1 : firmware_versions (ota_of f1) !! v = Some (Rollout.MkFw (string_of_bytes (hex_encode (sha256 blob)))
            (Rollout.blob_name blob) (zlen blob) (DeviceHttp.seconds r1))) by apply lookup_insert_eq.
  destruct (pin_accepts r2 s dv v f1) as (rep2 & d2 & Hpin & Hrep2 & Hact & Hfw & Hbl & Hdev & Hwf2); [done..|by eexists|].
  exists rep1, f1, rep2, (set_ota d2 f1). split; [exact Hreg|]. split; [exact Hrep1|]. split; [exact Hpin|]. split; [exact Hrep2|].
  assert (Hstar : s ≠ "*"%string) by (by intros ->).
  assert (Hok2 : blob_ok d2).
  { destruct Hblobs as [Hr Hn]. split.
    - intros w row. rewrite Hfw. unfold f1, d1. cbn. rewrite lookup_insert_Some. intros [[_ <-]|[_ ?]]; [by exists blob|by eapply Hr].
    - intros n b. rewrite Hbl. unfold f1, d1. cbn. rewrite lookup_insert_Some. intros [[<- <-]|[_ ?]]; [done|by eapply Hn]. }
  assert (Hres : Rollout.ResolveTarget s d2 [] = (Ok (Rollout.MkResolved v Rollout.SourceSerial), d2, [])).
  { apply (resolves_pinned s dv); [done..| |exact Hact]. rewrite Hdev. exact Hdv. }
  split; [|split].
  - unfold resolve, on_ota, call, mbind, M_bind. rewrite ota_of_set, Hres. done.
  - by apply signals_pinned.
  - intros q Hq. eapply serves_binary; [exact Harm| | |exact Hok2|change (LogIngest.ota _) with d2; rewrite Hfw; exact Hfw1
      |change (LogIngest.ota _) with d2; rewrite Hbl; apply lookup_insert_eq].
    + by eapply ticket_nonempty.
    + apply ticket_of in Hq. rewrite Hq, bytes_of_string_of_bytes by apply Mint_bytes.
      rewrite OtaTicket.mint_verify by (try apply bytes_of_string_ok; done). by rewrite (proj2 (Z.leb_gt _ _) Hlive).
Qed.
End Routes.

(** ** Samples *)
#[local] Opaque sha256.

Definition ex_tables : Rollout.tables :=
  Rollout.MkTables ∅ {["stable"%string := None]} [] 1 {["p1"%string := Rollout.MkDevice "stable" None None]} ∅.
Definition ex_fleet : fleet := set_ota ex_tables DeviceHttp.ex_fleet.
Definition ex_cfg : LogIngest.config := LogIngest.MkConfig true (repeat 107 32) 600000000000 65536.

Lemma ex_tables_sound : targets_wf (ota_of ex_fleet) ∧ blob_ok (ota_of ex_fleet).
Proof.
  split; [split_and!|split]; cbn.
  - constructor.
  - constructor.
  - intros ch v. rewrite lookup_singleton_Some. by intros [_ ?].
  - intros s v. rewrite lookup_singleton_Some. intros [_ <-]. rewrite lookup_singleton_eq. by eexists.
  - intros v r. by rewrite lookup_empty.
  - intros n b. by rewrite lookup_empty.
Qed.

Lemma upload_reaches_device_witness : ∃ rep f1 f2 d' fs',
  registerFirmware DeviceHttp.ex_request (Some (MkForm "1.0" (string_of_bytes (hex_encode (sha256 [1; 2; 3]))) (Some (Some [1; 2; 3])))) ex_fleet [] = (Ok rep, f1, []) ∧
  LogIngest.handleFirmware ex_cfg 60000000000 (LogIngest.MkRequest (∅ : query_params) "" "" "" (string_of_bytes (OtaTicket.Mint 0 (repeat 107 32) (bytes_of_string "p1") (bytes_of_string "1.0") 600000000000)) "")
    (ingest f2) [] = (Ok (binary [1; 2; 3]), d', fs').
Proof.
  destruct ex_tables_sound as [Hwf Hok].
  destruct (upload_reaches_device ex_cfg DeviceHttp.ex_request DeviceHttp.ex_request DeviceHttp.ex_request "1.0"
    (string_of_bytes (hex_encode (sha256 [1; 2; 3]))) [1; 2; 3] "p1" (Rollout.MkDevice "stable" None None) ex_fleet 0 60000000000)
    as (rep & f1 & rep2 & f2 & H1 & _ & _ & _ & _ & _ & H);
    [exact Hwf|exact Hok|reflexivity|discriminate|discriminate|reflexivity| |discriminate|reflexivity|reflexivity|discriminate|by split|reflexivity|].
  - unfold ToLower. rewrite bytes_of_string_of_bytes by apply hex_encode_bytes, sha256_bytes. apply sha_hex_shape.
  - destruct (H (LogIngest.MkRequest (∅ : query_params) "" "" "" (string_of_bytes (OtaTicket.Mint 0 (repeat 107 32) (bytes_of_string "p1") (bytes_of_string "1.0") 600000000000)) ""))
      as (d' & fs' & Hf); [right; left|]. exists rep, f1, f2, d', fs'. by split.
Defined.

Lemma ota_routes_safe_witness : ∃ rep f' fs',
  run String.leb DeviceHttp.ex_request (OUpsert (Some (MkRollout "ghost" "stable" "1.0"))) ex_fleet [] = (Ok rep, f', fs') ∧ f' = ex_fleet.
Proof.
  destruct ex_tables_sound as [Hwf Hok].
  destruct (ota_routes_safe String.leb DeviceHttp.ex_request (OUpsert (Some (MkRollout "ghost" "stable" "1.0"))) ex_fleet [] Hwf Hok)
    as (rep & f' & fs' & Hrun & _ & Href & _).
  exists rep, f', fs'. split; [exact Hrun|]. apply Href.
  assert (H : match (run String.leb DeviceHttp.ex_request (OUpsert (Some (MkRollout "ghost" "stable" "1.0"))) ex_fleet []).1.1 with
              | Ok rep => rStatus rep | Err _ => 0 end = 422) by (vm_compute; reflexivity).
  rewrite Hrun in H. cbn in H. rewrite H. by intros [?|[?|[]%not_elem_of_nil]%elem_of_cons]%elem_of_cons.
Defined.
End OtaLaws.
