(* ===== verification/GoText.v ===== *)
(** * More of Go's standard library: text, numbers in any base, paths

    [strings] (contains, replace, lower case), [strconv.ParseUint] with base 0,
    [path.Clean] and [path.Join], as the operator console uses them. *)

From S2P Require Import Prelude GoLib AdminGate.
Import GoLib.

Module GoText.

Definition TrimSpace (s : string) : string := string_of_bytes (AdminGate.TrimSpace (bytes_of_string s)).

(** ** strings *)

Fixpoint contains (sub s : bytes) : bool :=
  has_prefix sub s || match s with [] => false | _ :: s' => contains sub s' end.
Definition Contains (s sub : string) : bool := contains (bytes_of_string sub) (bytes_of_string s).

(** [strings.ReplaceAll] of a text that is not empty. *)
Definition replace_all (s old new : bytes) : bytes := join (split s old) new.
Definition ReplaceAll (s old new : string) : string :=
  string_of_bytes (replace_all (bytes_of_string s) (bytes_of_string old) (bytes_of_string new)).

Definition ascii_lower (c : Z) : Z := if (65 <=? c) && (c <=? 90) then c + 32 else c.
(** [strings.ToLower], as a search for an ASCII text sees it: the two letters
    outside ASCII that lower to ASCII ones, and ASCII itself. *)
Definition lower_view (s : bytes) : bytes :=
  ascii_lower <$> replace_all (replace_all s [226; 132; 170] [107]) [196; 176] [105].
(** The letters an ASCII [s] or [k] also matches under (?i). *)
Definition fold_view (s : bytes) : bytes :=
  ascii_lower <$> replace_all (replace_all s [226; 132; 170] [107]) [197; 191] [115].

(** ** strconv.ParseUint(s, 0, 64) *)

(** [c | 0x20] *)
Definition lower (c : Z) : Z := Z.lor c 32.
Definition digit_value (c : Z) : option Z :=
  if (48 <=? c) && (c <=? 57) then Some (c - 48)
  else if (97 <=? lower c) && (lower c <=? 122) then Some (lower c - 97 + 10) else None.
Fixpoint parse_digits (base n : Z) (s : bytes) : option Z :=
  match s with
  | [] => Some n
  | c :: s =>
      if c =? 95 then parse_digits base n s
      else match digit_value c with
      | Some d => if base <=? d then None
                  else let n := n * base + d in if 2 ^ 64 <=? n then None else parse_digits base n s
      | None => None
      end
  end.

Inductive seen := SawStart | SawDigit | SawUnderscore | SawOther.
Fixpoint underscores (hex : bool) (saw : seen) (s : bytes) : bool :=
  match s with
  | [] => match saw with SawUnderscore => false | _ => true end
  | c :: s =>
      if is_digit c || (hex && (97 <=? lower c) && (lower c <=? 102)) then underscores hex SawDigit s
      else if c =? 95 then match saw with SawDigit => underscores hex SawUnderscore s | _ => false end
      else match saw with SawUnderscore => false | _ => underscores hex SawOther s end
  end.
Definition is_base (c : Z) : bool := (lower c =? 98) || (lower c =? 111) || (lower c =? 120).
Definition underscoreOK (s : bytes) : bool :=
  let s := match s with c :: s' => if (c =? 45) || (c =? 43) then s' else s | [] => s end in
  match s with
  | 48 :: c :: s' => if is_base c then underscores (lower c =? 120) SawDigit s' else underscores false SawStart s
  | _ => underscores false SawStart s
  end.
Definition base_of (s : bytes) : Z * bytes :=
  match s with
  | 48 :: c :: x :: s' =>
      if lower c =? 98 then (2, x :: s') else if lower c =? 111 then (8, x :: s')
      else if lower c =? 120 then (16, x :: s') else (8, c :: x :: s')
  | 48 :: s' => (8, s')
  | _ => (10, s)
  end.
Definition ParseUint0 (s : string) : option Z :=
  let b := bytes_of_string s in
  if bool_decide (b = []) then None
  else
    let '(base, digits) := base_of b in
    n ← parse_digits base 0 digits;
    if bool_decide (95 ∈ digits) && negb (underscoreOK b) then None else Some n.

(** ** Paths *)

(** [Clean]: the components kept so far, last first. *)
Fixpoint clean_go (rooted : bool) (kept : list bytes) (l : list bytes) : list bytes :=
  match l with
  | [] => kept
  | c :: l =>
      if bool_decide (c = []) || bool_decide (c = [46]) then clean_go rooted kept l
      else if bool_decide (c = [46; 46]) then
        match kept with
        | k :: kept' => if bool_decide (k = [46; 46]) then clean_go rooted (c :: kept) l else clean_go rooted kept' l
        | [] => if rooted then clean_go rooted [] l else clean_go rooted [c] l
        end
      else clean_go rooted (c :: kept) l
  end.
Definition is_abs (p : bytes) : bool := has_prefix [47] p.
Definition clean (p : bytes) : bytes :=
  let out := (if is_abs p then [47] else []) ++ join (reverse (clean_go (is_abs p) [] (split p [47]))) [47] in
  if bool_decide (out = []) then [46] else out.
Definition join_path (base p : bytes) : bytes :=
  match base, p with
  | [], [] => []
  | [], _ => clean p
  | _, [] => clean base
  | _, _ => clean (base ++ [47] ++ p)
  end.
Definition IsAbs (p : string) : bool := is_abs (bytes_of_string p).
Definition Join (base p : string) : string := string_of_bytes (join_path (bytes_of_string base) (bytes_of_string p)).
(** [path.Dir]: what stands before the last slash, with it, cleaned. *)
Fixpoint from_slash (s : bytes) : bytes :=
  match s with [] => [] | c :: s' => if c =? 47 then s else from_slash s' end.
Definition dir (p : bytes) : bytes := clean (reverse (from_slash (reverse p))).
Definition Dir (p : string) : string := string_of_bytes (dir (bytes_of_string p)).

(** [%#x] *)
Fixpoint hex_digits (fuel : nat) (n : Z) : bytes :=
  match fuel with
  | O => []
  | S fuel => (if n / 16 =? 0 then [] else hex_digits fuel (n / 16)) ++ [hex_digit (n mod 16)]
  end.
Definition format_hex (n : Z) : string := string_of_bytes ([48; 120] ++ hex_digits 16 n).

Example clean_dots : clean (bytes_of_string "/a/./b/../../c//d/") = bytes_of_string "/c/d". Proof. reflexivity. Qed.
Example clean_up : clean (bytes_of_string "../a/..") = bytes_of_string "..". Proof. reflexivity. Qed.
Example dir_of : dir (bytes_of_string "/tmp/x/boot.bin") = bytes_of_string "/tmp/x". Proof. reflexivity. Qed.
Example base0 : ParseUint0 <$> ["0x20000"; "0x"; "017"; "0b101"; "1_000"; "1__0"; "0"; "09"; "18446744073709551616"]%string =
  [Some 131072; None; Some 15; Some 5; Some 1000; None; Some 0; None; None]. Proof. reflexivity. Qed.
Example hex_text : format_hex 131072 = "0x20000"%string ∧ format_hex 0 = "0x0"%string. Proof. by split. Qed.
End GoText.
