(* ===== verification/Flash.v ===== *)
(** * The firmware rollout of the operator console ([tools/picpak-ops/internal/flash])

    The write set and its guard, the esptool command line, staging, the parse of
    esptool's output and the controller's sequence per device. What happens
    outside (files, the host's shell, the gate, esptool) is a [world] that may
    answer each effect by everything that happened before. *)

From S2P Require Import Prelude GoLib Crypto AdminGate GoText.
Import GoLib Crypto GoText.

Module Flash.

(** ** Configuration and targets (config.go, types.go) *)

Record BuildArtifact := MkArtifact { a_name : string; a_file : string; a_offset : string }.
Record FlashCfg := MkFlash {
  EsptoolCmd : list string; Chip : string; Before : string; After : string;
  FlashMode : string; FlashSize : string; FlashFreq : string; ExtraArgs : list string;
  NVSPreserveOffset : string; StageMode : string; StageRemoteDir : string; StageSkipUnchanged : bool;
  Concurrency : Z; RetryAuto : bool; RetryMax : Z; TailLines : Z }.

Record DiscoveredDevice := MkDevice { d_host : string; TTY : string; Descriptor : string }.
Record Target := MkTarget { ID : string; Host : string; Device : DiscoveredDevice }.
Definition Port (t : Target) : string := TTY (Device t).
Definition NewTarget (dev : DiscoveredDevice) : Target :=
  MkTarget (d_host dev ++ ":" ++ TTY dev) (d_host dev) dev.

Inductive Phase := PhasePending | PhaseValidating | PhaseStaging | PhaseConfirming | PhaseFlashing | PhaseDone | PhaseFailed.
Definition Terminal (p : Phase) : bool := match p with PhaseDone | PhaseFailed => true | _ => false end.
Inductive FailClass :=
| FailNone | FailValidate | FailStage | FailGate | FailPortBusy | FailSync | FailHash | FailReset | FailTimeout | FailExit.
#[global] Instance FailClass_eq_dec : EqDecision FailClass.
Proof. solve_decision. Defined.
Definition Retryable (c : FailClass) : bool :=
  match c with FailPortBusy | FailSync | FailReset | FailTimeout => true | _ => false end.

(** ** The write set (writeset.go) *)

Record WriteEntry := MkEntry { Name : string; Offset : Z; Size : Z; File : string; LocalPath : string }.
Record NVSGuard := MkGuard { Start : Z; Len : Z }.
Definition nvsRegionLen : Z := 24576.

Definition parseOffset (s : string) : option Z :=
  let s := TrimSpace s in
  if bool_decide (s = ""%string) then None else ParseUint0 s.
Definition GuardFromConfig (fc : FlashCfg) : NVSGuard :=
  match parseOffset (NVSPreserveOffset fc) with
  | Some start => MkGuard start nvsRegionLen
  | None => MkGuard 0 0
  end.

Definition resolveUnder (base p : string) : string :=
  if bool_decide (p = ""%string) then base else if IsAbs p then p else Join base p.

(** [sort.SliceStable]. *)
Fixpoint insert_entry (e : WriteEntry) (l : list WriteEntry) : list WriteEntry :=
  match l with
  | [] => [e]
  | x :: l' => if Offset e <=? Offset x then e :: l else x :: insert_entry e l'
  end.
Definition by_offset (l : list WriteEntry) : list WriteEntry := foldr insert_entry [] l.

Inductive write_err := EEmptySet | EBadOffset (name offset : string).
Fixpoint resolve_entries (stat : string → option Z) (artifactDir : string) (l : list BuildArtifact)
    : result write_err (list WriteEntry) :=
  match l with
  | [] => Ok []
  | a :: l =>
      match parseOffset (a_offset a) with
      | None => Err (EBadOffset (a_name a) (a_offset a))
      | Some off =>
          let lp := resolveUnder artifactDir (a_file a) in
          match resolve_entries stat artifactDir l with
          | Ok es => Ok (MkEntry (a_name a) off (default 0 (stat lp)) (a_file a) lp :: es)
          | Err e => Err e
          end
      end
  end.
(** [stat]: the size of a file that is there. *)
Definition BuildWriteSet (stat : string → option Z) (artifactDir : string) (artifacts : list BuildArtifact)
    : result write_err (list WriteEntry) :=
  match artifacts with
  | [] => Err EEmptySet
  | _ => match resolve_entries stat artifactDir artifacts with Ok es => Ok (by_offset es) | Err e => Err e end
  end.

Definition eraseVerbs : list bytes :=
  bytes_of_string <$> ["erase-flash"; "erase_flash"; "erase-region"; "erase_region"; "erase-all"; "erase_all"]%string.
Definition erase_verb (tok : string) : bool :=
  bool_decide (lower_view (bytes_of_string (TrimSpace tok)) ∈ eraseVerbs).

Inductive refusal := REraseVerb (tok : string) | ROverlap (e : WriteEntry).
Definition entry_end (e : WriteEntry) : Z := u64 (Offset e + (if 0 <? Size e then Size e else 1)).
Definition overlaps (g : NVSGuard) (e : WriteEntry) : bool :=
  (0 <? Len g) && (Offset e <? u64 (Start g + Len g)) && (Start g <? entry_end e).
Definition ValidateWriteSet (ws : list WriteEntry) (argv : list string) (g : NVSGuard) : option refusal :=
  match find_first erase_verb argv with
  | Some tok => Some (REraseVerb tok)
  | None => match find_first (overlaps g) ws with Some e => Some (ROverlap e) | None => None end
  end.

(** ** The command line (esptool.go) *)

Definition writeFlashVerb : string := "write-flash".
Definition dashReset (mode : string) : string := ReplaceAll (TrimSpace mode) "_" "-".
Definition BuildEsptoolArgv (fc : FlashCfg) (port hostDir : string) (ws : list WriteEntry) : list string :=
  (EsptoolCmd fc ++ ["--chip"; Chip fc; "-p"; port; "--before"; dashReset (Before fc); "--after"; dashReset (After fc);
    writeFlashVerb; "--flash-mode"; FlashMode fc; "--flash-size"; FlashSize fc; "--flash-freq"; FlashFreq fc]%string) ++
  ExtraArgs fc ++ (ws ≫= λ e, [format_hex (Offset e); resolveUnder hostDir (File e)]).

(** ** esptool's output (progress.go) *)

Definition is_hex (c : Z) : bool := is_digit c || ((97 <=? lower c) && (lower c <=? 102)).
(** [\s] *)
Definition re_space (c : Z) : bool := (c =? 9) || (c =? 10) || (c =? 12) || (c =? 13) || (c =? 32).
Fixpoint take_while (p : Z → bool) (s : bytes) : bytes * bytes :=
  match s with
  | c :: s' => if p c then let '(a, b) := take_while p s' in (c :: a, b) else ([], s)
  | [] => ([], [])
  end.
Definition expect (p s : bytes) : option bytes := if has_prefix p s then Some (drop (length p) s) else None.
Definition some_of (p : Z → bool) (s : bytes) : option (bytes * bytes) :=
  match take_while p s with ([], _) => None | r => Some r end.
(** [writingRe] from the start of the text: the digits of the percentage. *)
Definition writing_here (s : bytes) : option bytes :=
  s ← expect (bytes_of_string "Writing at 0x") s;
  '(_, s) ← some_of is_hex s;
  s ← expect (bytes_of_string "...") s;
  s ← expect [40] (take_while re_space s).2;
  '(pct, s) ← some_of is_digit s;
  s ← expect (bytes_of_string "%)") (take_while re_space s).2;
  Some pct.
Fixpoint writingRe (s : bytes) : option bytes :=
  match writing_here s with
  | Some m => Some m
  | None => match s with [] => None | _ :: s' => writingRe s' end
  end.
Definition hashVerifiedRe (s : bytes) : bool := contains (bytes_of_string "Hash of data verified") s.
Definition hashMismatchRe (s : bytes) : bool :=
  existsb (λ t, contains (bytes_of_string t) (fold_view s))
    ["hash of data does not match"; "hash of data verification failed"; "hash of data mismatch"]%string.
Definition leavingRe (s : bytes) : bool :=
  existsb (λ t, has_prefix (bytes_of_string t) (fold_view (take_while re_space s).2))
    ["leaving..."; "hard resetting"; "staying in bootloader"]%string.

Record Progress := MkProgress {
  NumFiles : Z; Verified : Z; CurrentFile : Z; CurrentPct : Z; Mismatch : bool; Leaving : bool }.
Definition NewProgress (n : Z) : Progress := MkProgress n 0 0 0 false false.
Definition Ingest (p : Progress) (line : string) : Progress :=
  let line := trim_right (bytes_of_string line) 13 in
  match writingRe line with
  | Some m =>
      let pct := match atoi (string_of_bytes m) with (n, None) => n | _ => CurrentPct p end in
      let cur := if (NumFiles p <=? Verified p) && (0 <? NumFiles p) then NumFiles p - 1 else Verified p in
      MkProgress (NumFiles p) (Verified p) cur pct (Mismatch p) (Leaving p)
  | None =>
      if hashMismatchRe line then MkProgress (NumFiles p) (Verified p) (CurrentFile p) (CurrentPct p) true (Leaving p)
      else if hashVerifiedRe line then MkProgress (NumFiles p) (Verified p + 1) (CurrentFile p) 0 (Mismatch p) (Leaving p)
      else if leavingRe line then MkProgress (NumFiles p) (Verified p) (CurrentFile p) (CurrentPct p) (Mismatch p) true
      else p
  end.
Definition IngestAll (p : Progress) (lines : list string) : Progress := foldl Ingest p lines.
Definition AllVerified (p : Progress) : bool := (0 <? NumFiles p) && (NumFiles p <=? Verified p).
Definition Success (p : Progress) (exitCode : Z) : bool := (exitCode =? 0) && negb (Mismatch p) && AllVerified p.

(** ** Why a run failed (recovery.go) *)

Definition mentions (blob : bytes) (l : list string) : bool := existsb (λ t, contains (bytes_of_string t) blob) l.
Definition Classify (lines : list string) (runErr : option string) (p : Progress) : FailClass * string :=
  let blob := lower_view (join (bytes_of_string <$> lines) [10]) ++
    match runErr with Some e => 10 :: lower_view (bytes_of_string e) | None => [] end in
  if Mismatch p || mentions blob ["hash of data does not match"; "hash verification failed"; "hash mismatch";
       "a fatal error occurred: contents differ"]%string
  then (FailHash, "the flashed contents did not verify — re-flash; a bad cable/usb hub is the usual cause"%string)
  else if mentions blob ["could not open"; "permission denied"; "resource busy"; "device or resource busy";
       "port doesn't exist"; "no such file or directory"; "could not exclusively lock"]%string
  then (FailPortBusy, "the device port could not be opened — close any console on it (auto-released) and retry"%string)
  else if mentions blob ["failed to connect"; "no serial data received"; "invalid head of packet"; "wrong boot mode detected";
       "timed out waiting for packet header"; "failed to enter download mode"]%string
  then (FailSync, "esptool could not sync with the ROM — replug the device or retry (download mode auto-resyncs over USB-JTAG)"%string)
  else if match runErr with
          | Some e => mentions blob ["context deadline exceeded"; "signal: killed"; "killed"]%string ||
                      contains (bytes_of_string "deadline") (lower_view (bytes_of_string e))
          | None => false
          end
  then (FailTimeout, "the esptool run exceeded flash.run_timeout — retry; raise the timeout if the app is large"%string)
  else if mentions blob ["failed to leave"; "hard resetting failed"; "error while resetting"]%string
  then (FailReset, "the post-write reset failed — the bytes are likely written; power-cycle the device"%string)
  else if (0 <? NumFiles p) && negb (AllVerified p)
  then (FailHash, "not every file verified before esptool exited — re-flash; treat as a partial write"%string)
  else (FailExit, "esptool exited non-zero — see the output tail; re-flash over USB"%string).
Definition classifyTransport (err : option string) : FailClass * string :=
  match err with
  | None => (FailExit, "the flash run did not start"%string)
  | Some e =>
      let s := lower_view (bytes_of_string e) in
      if mentions s ["unknown host"%string] then (FailExit, ("the device's host is not a configured [[hosts]] entry: " ++ e)%string)
      else if mentions s ["busy"%string] || mentions s ["open"%string] then (FailPortBusy, e)
      else (FailExit, e)
  end.

(** ** The world outside *)

(** What the controller does, in order. [EShell] runs a command on the target's
    host and collects its output, [EPipe] feeds it bytes. *)
Inductive msg :=
| FlashPhaseMsg (id : string) (p : Phase)
| FlashRunStartedMsg (id : string) (numFiles : Z)
| FlashDeviceDoneMsg (id : string) (ok : bool) (c : FailClass) (hint : string) (tail : list string).
Inductive effect :=
| ESend (m : msg) | ERelease (port : string) | EShell (host : string) (argv : list string)
| EPipe (host : string) (argv : list string) (data : bytes) | EConfirm (d : DiscoveredDevice)
| ERun (host : string) (argv : list string).

(** A finished run: its output, exit code and transport error. *)
Record run_result := MkRun { Lines : list string; ExitCode : Z; RunErr : option string }.
(** A piped command: whether a run came back, and the errors of the start, the
    write, the close and the run, with its exit code. *)
Record pipe_result := MkPipe {
  p_run : bool; p_start : option string; p_write : option string; p_close : option string; p_exit : Z; p_err : option string }.

Record world := MkWorld {
  w_stat : list effect → string → option Z;
  w_read : list effect → string → result string bytes;
  w_shell : list effect → string → list string → result string string;
  w_pipe : list effect → string → list string → bytes → pipe_result;
  w_confirm : list effect → DiscoveredDevice → option string;
  w_run : list effect → string → list string → result (option string) run_result;
  (* the device's context is over: cancelled or past its timeout *)
  w_over : list effect → bool }.

(** A computation that acts on the world and leaves a trace. *)
Definition P (A : Type) : Type := list effect → A * list effect.
#[global] Instance P_ret : MRet P := λ A a tr, (a, tr).
#[global] Instance P_bind : MBind P := λ A B k m tr, let '(a, tr) := m tr in k a tr.
Definition act (e : effect) : P unit := λ tr, (tt, tr ++ [e]).
(** An effect and the world's answer to it. *)
Definition ask {A} (e : effect) (answer : list effect → A) : P A := λ tr, (answer tr, tr ++ [e]).
(** Reading a local file leaves no trace. *)
Definition peek {A} (answer : list effect → A) : P A := λ tr, (answer tr, tr).

(** ** Staging (stage.go) *)

Definition shellQuote (s : string) : string := ("'" ++ ReplaceAll s "'" "'\''" ++ "'")%string.
Definition slash (s : string) : string := ReplaceAll s "\" "/".
Definition defaultStageDir : string := "/tmp/picpak-ops-flash".

(** How a target's artifacts get to its host. *)
Inductive Stager :=
| noopStager (hostDir : string)
| scpStager (stageDir : string) (skipUnchanged : bool) (local : bool).
Definition newStager (fc : FlashCfg) (local : bool) (hostBuildDir : string) : Stager :=
  if bool_decide (StageMode fc = "scp"%string) then
    let dir := TrimSpace (StageRemoteDir fc) in
    scpStager (if bool_decide (dir = ""%string) then defaultStageDir else dir) (StageSkipUnchanged fc) local
  else noopStager hostBuildDir.
Definition HostDir (s : Stager) : string := match s with noopStager d => d | scpStager d _ _ => d end.

Definition wrap (local : bool) (cmd : string) : list string := if local then ["sh"; "-c"; cmd]%string else [cmd].

Section World.
Context (w : world).

Definition remoteSHA256 (host : string) (local : bool) (p : string) : P (result string string) :=
  let argv := wrap local ("sha256sum " ++ shellQuote p ++ " 2>/dev/null || true")%string in
  out ← ask (EShell host argv) (λ tr, w_shell w tr host argv);
  mret (match out with
  | Err e => Err e
  | Ok out => match fields (bytes_of_string out) with
              | [] => Ok ""%string
              | f :: _ => Ok (string_of_bytes (ascii_lower <$> f))
              end
  end).

Definition first_err (l : list (option string)) : option string := foldr (λ e r, match e with Some _ => e | None => r end) None l.
Definition putFile (host : string) (local : bool) (localPath remotePath : string) : P (option string) :=
  data ← peek (λ tr, w_read w tr localPath);
  match data with
  | Err e => mret (Some e)
  | Ok data =>
      let tmp := (remotePath ++ ".part")%string in
      let argv := wrap local ("mkdir -p " ++ shellQuote (Dir remotePath) ++ " && cat > " ++ shellQuote tmp ++
                              " && mv -f " ++ shellQuote tmp ++ " " ++ shellQuote remotePath)%string in
      r ← ask (EPipe host argv data) (λ tr, w_pipe w tr host argv data);
      mret (match p_start r with
      | Some e => Some e
      | None => if negb (p_run r) then None
                else first_err [p_write r; p_close r;
                       (if p_exit r =? 0 then p_err r else Some ("remote copy exited " ++ format_int (p_exit r))%string)]
      end)
  end.

Definition sha256File (p : string) : P (result string string) :=
  data ← peek (λ tr, w_read w tr p);
  mret (match data with Ok b => Ok (string_of_bytes (hex_encode (sha256 b))) | Err e => Err e end).

(** Whether the remote file is the local one already. *)
Definition unchanged (host : string) (local : bool) (e : WriteEntry) (remote : string) : P bool :=
  sum ← sha256File (LocalPath e);
  match sum with
  | Err _ => mret false
  | Ok sum =>
      r ← remoteSHA256 host local remote;
      mret (match r with Ok x => negb (bool_decide (x = ""%string)) && bool_decide (x = sum) | Err _ => false end)
  end.
Fixpoint stage_entries (host dir : string) (skip local : bool) (ws : list WriteEntry) : P (option string) :=
  match ws with
  | [] => mret None
  | e :: ws =>
      let remote := Join dir (slash (File e)) in
      let has_local := negb (bool_decide (LocalPath e = ""%string)) in
      same ← ((if skip && has_local then unchanged host local e remote else mret false) : P bool);
      if (same : bool) then stage_entries host dir skip local ws
      else if negb has_local then mret (Some ("flash: artifact has no local source to stage: " ++ Name e)%string)
      else
        err ← putFile host local (LocalPath e) remote;
        match err with
        | Some msg => mret (Some ("flash: staging " ++ Name e ++ " to " ++ remote ++ ": " ++ msg)%string)
        | None => stage_entries host dir skip local ws
        end
  end.
Definition Stage (t : Target) (s : Stager) (ws : list WriteEntry) : P (option string) :=
  match s with
  | noopStager _ => mret None
  | scpStager dir skip local => stage_entries (Host t) dir skip local ws
  end.

(** ** The controller (controller.go) *)

Context (fc : FlashCfg) (artDir : string) (artifacts : list BuildArtifact).
(** The host's entry: how it is staged, or why there is none. *)
Context (stagerFor : Target → result string Stager).

Definition phase (t : Target) (p : Phase) : P unit := act (ESend (FlashPhaseMsg (ID t) p)).
Definition fail (t : Target) (c : FailClass) (hint : string) (tail : list string) : P bool :=
  _ ← act (ESend (FlashDeviceDoneMsg (ID t) false c hint tail)); mret false.
Definition succeed (t : Target) (tail : list string) : P bool :=
  _ ← act (ESend (FlashDeviceDoneMsg (ID t) true FailNone "" tail)); mret true.
Definition releasePort (port : string) : P unit := if bool_decide (port = ""%string) then mret tt else act (ERelease port).
Definition tailOf (lines : list string) : list string :=
  let n := Z.to_nat (if TailLines fc <? 1 then 40 else TailLines fc) in drop (length lines - n) lines.

Definition runOnce (t : Target) (argv : list string) (numFiles : Z) : P (bool * FailClass * string * list string) :=
  r ← ask (ERun (Host t) argv) (λ tr, w_run w tr (Host t) argv);
  match r with
  | Err err => let '(c, hint) := classifyTransport err in mret (false, c, hint, [])
  | Ok r =>
      _ ← act (ESend (FlashRunStartedMsg (ID t) numFiles));
      let prog := IngestAll (NewProgress numFiles) (Lines r) in
      if Success prog (ExitCode r) then mret (true, FailNone, ""%string, tailOf (Lines r))
      else let '(c, hint) := Classify (Lines r) (RunErr r) prog in mret (false, c, hint, tailOf (Lines r))
  end.

(** [retries]: how many are left. *)
Fixpoint run_attempts (retries : nat) (t : Target) (argv : list string) (numFiles : Z) : P bool :=
  _ ← phase t PhaseFlashing;
  '(ok, c, hint, tail) ← runOnce t argv numFiles;
  if (ok : bool) then succeed t tail
  else
    over ← peek (w_over w);
    match retries with
    | S retries => if Retryable c && negb over then run_attempts retries t argv numFiles else fail t c hint tail
    | O => fail t c hint tail
    end.
Definition runWithRetry (t : Target) (argv : list string) (numFiles : Z) : P bool :=
  run_attempts (if RetryAuto fc then Z.to_nat (RetryMax fc) else 0%nat) t argv numFiles.

(** The error texts are abridged. *)
Definition write_hint (e : write_err) : string :=
  match e with EEmptySet => "flash: empty build.artifacts (nothing to flash)" | EBadOffset n o => "flash: artifact has an invalid offset: " ++ n ++ " " ++ o end.
Definition refusal_hint (r : refusal) : string :=
  match r with
  | REraseVerb tok => "flash: refusing to run, argv carries the erase verb " ++ tok
  | ROverlap e => "flash: refusing to run, overlaps the protected NVS region: " ++ Name e
  end.

Definition flashOne (t : Target) : P bool :=
  _ ← phase t PhaseValidating;
  built ← peek (λ tr, BuildWriteSet (w_stat w tr) artDir artifacts);
  match built with
  | Err e => fail t FailValidate (write_hint e) []
  | Ok ws =>
      match stagerFor t with
      | Err e => fail t FailStage e []
      | Ok stager =>
          let argv := BuildEsptoolArgv fc (Port t) (HostDir stager) ws in
          match ValidateWriteSet ws argv (GuardFromConfig fc) with
          | Some r => fail t FailValidate (refusal_hint r) []
          | None =>
              _ ← phase t PhaseStaging;
              err ← Stage t stager ws;
              match err with
              | Some e => fail t FailStage e []
              | None =>
                  _ ← phase t PhaseConfirming;
                  gate ← ask (EConfirm (Device t)) (λ tr, w_confirm w tr (Device t));
                  match gate with
                  | Some e => fail t FailGate e []
                  | None =>
                      _ ← releasePort (Port t);
                      runWithRetry t argv (zlen ws)
                  end
              end
          end
      end
  end.
End World.

(** ** A batch (controller.go, [runAll]) *)

(** Where a target's goroutine is: before its host's lock, with it, with a slot of
    the semaphore, past the slot, or done. *)
Inductive stage := Queued | Locked | Slotted | Unslotted (ok : bool) | Finished (ok : bool).
Definition holds_lock (s : stage) : bool := match s with Locked | Slotted | Unslotted _ => true | _ => false end.
Definition holds_slot (s : stage) : bool := match s with Slotted => true | _ => false end.
Definition batch : Type := list (Target * stage).
Definition slots (b : batch) : nat := length (List.filter (λ x, holds_slot x.2) b).
Definition conc (fc : FlashCfg) : nat := Z.to_nat (if Concurrency fc <? 1 then 1 else Concurrency fc).
Definition start (targets : list Target) : batch := (λ t, (t, Queued)) <$> targets.

Inductive batch_step (n : nat) : batch → batch → Prop :=
| BLock pre t post : (∀ x, x ∈ pre ++ post → Host x.1 = Host t → holds_lock x.2 = false) →
    batch_step n (pre ++ (t, Queued) :: post) (pre ++ (t, Locked) :: post)
| BSlot pre t post : (slots (pre ++ (t, Locked) :: post) < n)%nat →
    batch_step n (pre ++ (t, Locked) :: post) (pre ++ (t, Slotted) :: post)
| BRun pre t post ok : batch_step n (pre ++ (t, Slotted) :: post) (pre ++ (t, Unslotted ok) :: post)
| BUnlock pre t post ok : batch_step n (pre ++ (t, Unslotted ok) :: post) (pre ++ (t, Finished ok) :: post).
End Flash.
