(* ===== verification/FlashLaws.v ===== *)
(** * What a flash run may do to a device

    Whatever the world answers, nothing reaches the host before the write set is
    validated, every esptool run writes the sorted, validated set clear of the
    NVS region after the gate and the release of the port, and the verdict is the
    last run's. *)

From S2P Require Import Prelude GoLib Crypto AdminGate GoText Flash.
From Stdlib Require Import Sorting.Sorted.
Import GoLib Crypto GoText Flash.

Module FlashLaws.

(** ** The write set *)

Lemma insert_entry_perm e l : insert_entry e l ≡ₚ e :: l.
Proof.
  induction l as [|x l IH]; [done|]. cbn. destruct (_ <=? _); [done|]. rewrite IH. apply Permutation_swap.
Qed.
Lemma by_offset_perm l : by_offset l ≡ₚ l.
Proof. unfold by_offset. induction l as [|e l IH]; [done|]. cbn. by rewrite insert_entry_perm, IH. Qed.

Definition off_le (a b : WriteEntry) : Prop := Offset a ≤ Offset b.
Lemma by_offset_sorted l : StronglySorted off_le (by_offset l).
Proof.
  unfold by_offset. induction l as [|e l IH]; [constructor|]. cbn. revert IH. generalize (foldr insert_entry [] l) as s. intros s.
  induction s as [|x s IHs]; cbn; intros Hs; [by repeat constructor|]. apply StronglySorted_inv in Hs as [Hs Hx].
  destruct (Z.leb_spec (Offset e) (Offset x)).
  - repeat constructor; [done|done|done|]. eapply Forall_impl; [exact Hx|]. unfold off_le. intros y Hy. cbn in *. lia.
  - constructor; [by apply IHs|]. rewrite insert_entry_perm. constructor; [unfold off_le; lia|done].
Qed.

Lemma resolve_entries_ok stat dir l es : resolve_entries stat dir l = Ok es →
  Forall2 (λ a e, parseOffset (a_offset a) = Some (Offset e) ∧ Name e = a_name a ∧ File e = a_file a ∧
     LocalPath e = resolveUnder dir (a_file a) ∧ Size e = default 0 (stat (LocalPath e))) l es.
Proof.
  revert es. induction l as [|a l IH]; cbn; intros es; [intros [= <-]; constructor|].
  destruct (parseOffset _) as [off|] eqn:Ho; [|done]. destruct (resolve_entries _ _ _) as [es'|]; [|done].
  intros [= <-]. constructor; [done|by apply IH].
Qed.

(** What the write set holds: every artifact once, by ascending offset. *)
Lemma BuildWriteSet_ok stat dir l ws : BuildWriteSet stat dir l = Ok ws →
  StronglySorted off_le ws ∧ l ≠ [] ∧
  ∃ es, ws ≡ₚ es ∧ Forall2 (λ a e, parseOffset (a_offset a) = Some (Offset e) ∧ Name e = a_name a ∧ File e = a_file a ∧
     LocalPath e = resolveUnder dir (a_file a) ∧ Size e = default 0 (stat (LocalPath e))) l es.
Proof.
  unfold BuildWriteSet. destruct l as [|a l]; [done|]. destruct (resolve_entries _ _ _) as [es|] eqn:Hr; [|done].
  intros [= <-]. split_and!; [apply by_offset_sorted|done|]. exists es. split; [apply by_offset_perm|by apply resolve_entries_ok].
Qed.

(** ** The guard *)

Definition bytes_written (e : WriteEntry) : Z := if 0 <? Size e then Size e else 1.
Definition clear_of (s len : Z) (e : WriteEntry) : Prop := Offset e + bytes_written e ≤ s ∨ s + len ≤ Offset e.

Lemma parse_digits_bound base n s m : parse_digits base n s = Some m → n < 2 ^ 64 → m < 2 ^ 64.
Proof.
  revert n. induction s as [|c s IH]; intros n; cbn -[Z.pow]; [by intros [= <-]|].
  destruct (c =? 95); [by apply IH|]. destruct (digit_value c); [|done]. destruct (_ <=? _); [done|].
  destruct (Z.leb_spec (2 ^ 64) (n * base + z)); [done|]. intros Hm _. by eapply IH.
Qed.
Lemma parse_digits_nonneg base n s m : parse_digits base n s = Some m → 0 ≤ base → 0 ≤ n → 0 ≤ m.
Proof.
  revert n. induction s as [|c s IH]; intros n; cbn -[Z.pow]; [by intros [= <-]|].
  destruct (c =? 95); [by apply IH|]. destruct (digit_value c) as [d|] eqn:Hd; [|done].
  assert (0 ≤ d).
  { revert Hd. unfold digit_value.
    destruct (Z.leb_spec 48 c), (Z.leb_spec c 57), (Z.leb_spec 97 (lower c)), (Z.leb_spec (lower c) 122); cbn; intros [= <-]; lia. }
  destruct (_ <=? _); [done|]. destruct (_ <=? _); [done|]. intros Hm ? ?. eapply IH; [exact Hm|done|nia].
Qed.
Lemma parseOffset_bound s n : parseOffset s = Some n → 0 ≤ n < 2 ^ 64.
Proof.
  unfold parseOffset, ParseUint0. case_bool_decide; [done|]. case_bool_decide; [done|].
  destruct (base_of _) as [base ds] eqn:Hb. destruct (parse_digits _ _ _) as [m|] eqn:Hm; [|done]. cbn.
  destruct (_ && _); [done|]. intros [= <-]. split; [|by apply parse_digits_bound in Hm].
  apply parse_digits_nonneg in Hm; [done| |done]. revert Hb. generalize (bytes_of_string (TrimSpace s)) as l. intros l.
  unfold base_of. repeat case_match; intros [= <- _]; lia.
Qed.

(** The overlap test is exact for a region below 2^63, whatever the sizes. *)
Lemma overlaps_exact s len e : 0 < len → 0 ≤ s → s + len ≤ 2 ^ 63 → 0 ≤ Offset e < 2 ^ 64 → Size e < 2 ^ 63 →
  overlaps (MkGuard s len) e = false ↔ clear_of s len e.
Proof.
  intros Hlen Hs Hb Ho Hsz. unfold overlaps, entry_end, clear_of, bytes_written. cbn [Start Len].
  assert (Hw : 1 ≤ (if 0 <? Size e then Size e else 1) < 2 ^ 63) by (destruct (Z.ltb_spec 0 (Size e)); lia).
  set (b := if 0 <? Size e then Size e else 1) in *. clearbody b.
  rewrite (proj2 (Z.ltb_lt 0 len) Hlen). cbn [andb]. unfold u64. rewrite (Z.mod_small (s + len)) by lia.
  rewrite andb_false_iff, !Z.ltb_ge. destruct (Z.le_gt_cases (2 ^ 64) (Offset e + b)) as [Hwrap|Hno].
  - split; [|lia]. intros _. right. lia.
  - rewrite Z.mod_small by lia. lia.
Qed.

Lemma find_first_none {A} (p : A → bool) l : find_first p l = None → ∀ x, x ∈ l → p x = false.
Proof.
  induction l as [|y l IH]; cbn; [by intros _ x ?%not_elem_of_nil|]. destruct (p y) eqn:Hy; [done|].
  intros Hn x [-> |Hx]%elem_of_cons; [done|by apply IH].
Qed.

Lemma ValidateWriteSet_ok ws argv g : ValidateWriteSet ws argv g = None →
  (∀ tok, tok ∈ argv → erase_verb tok = false) ∧ (∀ e, e ∈ ws → overlaps g e = false).
Proof.
  unfold ValidateWriteSet. destruct (find_first erase_verb argv) eqn:H1; [done|].
  destruct (find_first (overlaps g) ws) eqn:H2; [done|]. intros _. split; by apply find_first_none.
Qed.

(** ** esptool's verdict *)

Definition writing_line (l : string) : bool := match writingRe (trim_right (bytes_of_string l) 13) with Some _ => true | None => false end.
Definition mismatch_line (l : string) : bool := negb (writing_line l) && hashMismatchRe (trim_right (bytes_of_string l) 13).
Definition verified_line (l : string) : bool :=
  negb (writing_line l) && negb (mismatch_line l) && hashVerifiedRe (trim_right (bytes_of_string l) 13).

Lemma Ingest_counts p l :
  NumFiles (Ingest p l) = NumFiles p ∧ Verified (Ingest p l) = Verified p + (if verified_line l then 1 else 0) ∧
  Mismatch (Ingest p l) = Mismatch p || mismatch_line l.
Proof.
  unfold Ingest, verified_line, mismatch_line, writing_line. set (x := trim_right _ _). clearbody x.
  destruct (writingRe x), (hashMismatchRe x), (hashVerifiedRe x), (leavingRe x), p as [n v c pct [] lv]; cbn; split_and!; (done || lia).
Qed.
Lemma IngestAll_counts lines p :
  NumFiles (IngestAll p lines) = NumFiles p ∧
  Verified (IngestAll p lines) = Verified p + zlen (List.filter verified_line lines) ∧
  Mismatch (IngestAll p lines) = Mismatch p || existsb mismatch_line lines.
Proof.
  unfold IngestAll. revert p. induction lines as [|l lines IH]; intros p; cbn.
  - rewrite orb_false_r. unfold zlen. cbn. split_and!; [done|lia|done].
  - destruct (IH (Ingest p l)) as (-> & -> & ->). destruct (Ingest_counts p l) as (-> & -> & ->).
    rewrite orb_assoc. split_and!; [done| |done]. unfold zlen. destruct (verified_line l); cbn; lia.
Qed.

(** A run succeeded: exit 0, every file's hash verified, no mismatch reported. *)
Definition succeeded (n : Z) (r : run_result) : Prop :=
  ExitCode r = 0 ∧ 0 < n ≤ zlen (List.filter verified_line (Lines r)) ∧ ∀ l, l ∈ Lines r → mismatch_line l = false.
Lemma Success_exact n r : Success (IngestAll (NewProgress n) (Lines r)) (ExitCode r) = true ↔ succeeded n r.
Proof.
  unfold Success, AllVerified, succeeded. destruct (IngestAll_counts (Lines r) (NewProgress n)) as (-> & -> & ->). cbn [NewProgress Verified NumFiles Mismatch orb].
  rewrite !andb_true_iff, Z.eqb_eq, negb_true_iff, Z.ltb_lt, Z.leb_le, Z.add_0_l.
  assert (H : existsb mismatch_line (Lines r) = false ↔ ∀ l, l ∈ Lines r → mismatch_line l = false).
  { generalize (Lines r) as ls. intros ls. induction ls as [|l ls IH]; cbn; [split; [by intros _ ? ?%not_elem_of_nil|done]|].
    rewrite orb_false_iff, IH. split; [intros [? ?] x [-> |?]%elem_of_cons; auto|intros Hx; split; [apply Hx; left|intros x ?; apply Hx; by right]]. }
  rewrite H. tauto.
Qed.

(** ** Quoting *)

(** How a POSIX shell reads one word of single quotes and escapes; any other
    character outside quotes may be special. *)
Fixpoint sh_word (quoted : bool) (s : bytes) : option bytes :=
  match s with
  | [] => if quoted then None else Some []
  | c :: s' =>
      if quoted then if c =? 39 then sh_word false s' else cons c <$> sh_word true s'
      else if c =? 39 then sh_word true s'
      else if c =? 92 then match s' with c2 :: s2 => cons c2 <$> sh_word false s2 | [] => None end
      else None
  end.

Lemma join_split_one c cur s new :
  join (split_go [c] 0 cur s) new = reverse cur ++ (s ≫= λ x, if x =? c then new else [x]).
Proof.
  revert cur. induction s as [|x s IH]; intros cur; cbn [split_go]; [by rewrite app_nil_r|].
  cbn [has_prefix]. rewrite andb_true_r, (Z.eqb_sym c x). cbn. destruct (x =? c).
  - pose proof (IH []) as H. destruct (split_go [c] 0 [] s) as [|y l] eqn:Hs; [by apply split_go_nonempty in Hs|]. 
    change (join (reverse cur :: y :: l) new) with (reverse cur ++ new ++ join (y :: l) new). by rewrite H.
  - rewrite IH, reverse_cons, <- app_assoc. done.
Qed.

Lemma bytes_of_append s t : bytes_of_string (s ++ t)%string = bytes_of_string s ++ bytes_of_string t.
Proof.
  rewrite <- (string_of_bytes_of_string s), <- (string_of_bytes_of_string t) at 1.
  rewrite <- string_of_bytes_app, bytes_of_string_of_bytes; [done|].
  apply Forall_app. split; apply bytes_of_string_ok.
Qed.

(** Whatever a path contains, the shell reads its quoted form as exactly that
    path: a remote command cannot be broken out of. *)
Theorem shellQuote_exact s : sh_word false (bytes_of_string (shellQuote s)) = Some (bytes_of_string s).
Proof.
  unfold shellQuote, ReplaceAll, replace_all, split. rewrite !bytes_of_append.
  change (bytes_of_string "'") with [39]. change (bytes_of_string "'\''") with [39; 92; 39; 39].
  rewrite (join_split_one 39 [] (bytes_of_string s)). rewrite reverse_nil, app_nil_l.
  pose proof (bytes_of_string_ok s) as Hok. rewrite bytes_of_string_of_bytes.
  - cbn [app sh_word]. change (39 =? 39) with true. cbn iota. clear Hok. induction (bytes_of_string s) as [|c l IH]; [done|].
    cbn [mbind list_bind]. destruct (Z.eqb_spec c 39) as [-> |Hc].
    + cbn [app sh_word]. cbn. cbn in IH. by rewrite IH.
    + cbn [app sh_word]. rewrite (proj2 (Z.eqb_neq c 39) Hc). by rewrite IH.
  - induction Hok as [|c l Hc Hl IH]; [constructor|]. cbn [mbind list_bind]. apply Forall_app. split; [|exact IH].
    destruct (c =? 39); repeat apply Forall_cons_2; try apply Forall_nil_2; (done || unfold byte_ok; lia).
Qed.

(** ** Traces *)

(** From any trace, [m] appends some effects, which [Q] speaks of. *)
Definition adds {A} (m : P A) (Q : list effect → A → list effect → Prop) : Prop :=
  ∀ tr, ∃ a l, m tr = (a, tr ++ l) ∧ Q tr a l.

Lemma adds_ret {A} (a : A) (Q : list effect → A → list effect → Prop) : (∀ tr, Q tr a []) → adds (mret a) Q.
Proof. intros H tr. exists a, []. by rewrite app_nil_r. Qed.
Lemma adds_peek {A} (g : list effect → A) (Q : list effect → A → list effect → Prop) : (∀ tr, Q tr (g tr) []) → adds (peek g) Q.
Proof. intros H tr. exists (g tr), []. by rewrite app_nil_r. Qed.
Lemma adds_ask {A} e (g : list effect → A) (Q : list effect → A → list effect → Prop) : (∀ tr, Q tr (g tr) [e]) → adds (ask e g) Q.
Proof. intros H tr. by exists (g tr), [e]. Qed.
Lemma adds_act e (Q : list effect → unit → list effect → Prop) : (∀ tr, Q tr tt [e]) → adds (act e) Q.
Proof. intros H tr. by exists tt, [e]. Qed.
Lemma adds_bind {A B} (m : P A) (k : A → P B) Q1 Q2 (Q : list effect → B → list effect → Prop) :
  adds m Q1 → (∀ a, adds (k a) (Q2 a)) →
  (∀ tr a l1 b l2, Q1 tr a l1 → Q2 a (tr ++ l1) b l2 → Q tr b (l1 ++ l2)) → adds (m ≫= k) Q.
Proof.
  intros Hm Hk HQ tr. destruct (Hm tr) as (a & l1 & Hrun & H1). destruct (Hk a (tr ++ l1)) as (b & l2 & Hrun2 & H2).
  exists b, (l1 ++ l2). unfold mbind, P_bind. rewrite Hrun, Hrun2, app_assoc. eauto.
Qed.
Lemma adds_mono {A} (m : P A) (Q Q' : list effect → A → list effect → Prop) :
  adds m Q → (∀ tr a l, Q tr a l → Q' tr a l) → adds m Q'.
Proof. intros Hm HQ tr. destruct (Hm tr) as (a & l & ? & ?). eauto 10. Qed.
(** Effects of one kind only. *)
Definition only {A} (K : effect → Prop) (m : P A) : Prop := adds m (λ _ _ l, Forall K l).
Lemma only_ret {A} K (a : A) : only K (mret a).
Proof. by apply adds_ret. Qed.
Lemma only_bind {A B} K (m : P A) (k : A → P B) : only K m → (∀ a, only K (k a)) → only K (m ≫= k).
Proof. intros Hm Hk. eapply adds_bind; [exact Hm|exact Hk|]. cbn. intros. by apply Forall_app. Qed.
Lemma only_peek {A} K (g : list effect → A) : only K (peek g).
Proof. by apply adds_peek. Qed.
Lemma only_ask {A} K e (g : list effect → A) : K e → only K (ask e g).
Proof. intros. apply adds_ask. intros. by repeat constructor. Qed.

Section World.
Context (w : world).

(** ** Staging *)

(** Staging talks to the target's host through its shell only. *)
Definition shell_of (host : string) (e : effect) : Prop :=
  match e with EShell h _ | EPipe h _ _ => h = host | _ => False end.

Lemma putFile_only host local lp rp : only (shell_of host) (putFile w host local lp rp).
Proof.
  unfold putFile. apply only_bind; [apply only_peek|]. intros [data|e]; [|apply only_ret].
  apply only_bind; [by apply only_ask|intros; apply only_ret].
Qed.
Lemma unchanged_only host local e remote : only (shell_of host) (unchanged w host local e remote).
Proof.
  unfold unchanged, sha256File, remoteSHA256. apply only_bind; [apply only_bind; [apply only_peek|intros; apply only_ret]|].
  intros [sum|e']; [|apply only_ret].
  apply only_bind; [apply only_bind; [by apply only_ask|intros; apply only_ret]|intros; apply only_ret].
Qed.
Lemma Stage_only t s ws : only (shell_of (Host t)) (Stage w t s ws).
Proof.
  destruct s as [d|dir skip local]; cbn [Stage]; [apply only_ret|]. induction ws as [|e ws IH]; cbn [stage_entries]; [apply only_ret|].
  apply only_bind; [destruct (_ && _); [apply unchanged_only|apply only_ret]|]. intros [].
  - exact IH.
  - destruct (negb _); [apply only_ret|]. apply only_bind; [apply putFile_only|]. intros [msg|]; [apply only_ret|exact IH].
Qed.

(** ** The attempts *)

Context (fc : FlashCfg).
Definition is_run (e : effect) : bool := match e with ERun _ _ => true | _ => false end.
Definition attempt_effect (t : Target) (argv : list string) (nf : Z) (e : effect) : Prop :=
  e = ESend (FlashPhaseMsg (ID t) PhaseFlashing) ∨ e = ERun (Host t) argv ∨ e = ESend (FlashRunStartedMsg (ID t) nf).

(** What the attempts leave: runs of the one command line, at least one and at
    most one more than the retries, and the verdict of the last. *)
Record attempt_body (n : nat) (t : Target) (argv : list string) (nf : Z) (tr : list effect) (ok : bool) (body : list effect) : Prop := {
  at_kinds : Forall (attempt_effect t argv nf) body;
  at_count : (1 ≤ length (List.filter is_run body) ≤ S n)%nat;
  at_last : ∃ pre post, body = pre ++ ERun (Host t) argv :: post ∧ List.filter is_run post = [] ∧
    (ok = true ↔ ∃ r, w_run w (tr ++ pre) (Host t) argv = Ok r ∧ succeeded nf r) }.
Definition attempts (n : nat) (t : Target) (argv : list string) (nf : Z) (tr : list effect) (ok : bool) (l : list effect) : Prop :=
  ∃ body c hint tail, l = body ++ [ESend (FlashDeviceDoneMsg (ID t) ok c hint tail)] ∧ attempt_body n t argv nf tr ok body.

(** One run, its output read. *)
Lemma runOnce_adds t argv nf : adds (runOnce w fc t argv nf) (λ tr x l,
  (l = [ERun (Host t) argv] ∨ l = [ERun (Host t) argv; ESend (FlashRunStartedMsg (ID t) nf)]) ∧
  (x.1.1.1 = true ↔ ∃ r, w_run w tr (Host t) argv = Ok r ∧ succeeded nf r)).
Proof.
  intros tr. unfold runOnce, ask, mbind, P_bind. destruct (w_run w tr (Host t) argv) as [r|err] eqn:Hr.
  - unfold act, mret, P_ret. destruct (Success _ _) eqn:Hs.
    + eexists _, _. split; [by rewrite <- app_assoc|]. split; [by right|]. cbn. apply Success_exact in Hs.
      split; [intros _; by exists r|done].
    + destruct (Classify _ _ _) as [c hint]. eexists _, _. split; [by rewrite <- app_assoc|]. split; [by right|]. cbn.
      split; [done|]. intros (r' & [= <-] & Hok). apply Success_exact in Hok. congruence.
  - destruct (classifyTransport err) as [c hint]. eexists _, _. split; [reflexivity|]. split; [by left|]. cbn. split; [done|].
    by intros (r & ? & _).
Qed.

Ltac kinds := repeat (apply Forall_cons; split; [unfold attempt_effect; tauto|]); apply Forall_nil; exact I.
Lemma attempt_once n t argv nf tr ok l :
  (l = [ERun (Host t) argv] ∨ l = [ERun (Host t) argv; ESend (FlashRunStartedMsg (ID t) nf)]) →
  (ok = true ↔ ∃ r, w_run w (tr ++ [ESend (FlashPhaseMsg (ID t) PhaseFlashing)]) (Host t) argv = Ok r ∧ succeeded nf r) →
  attempt_body n t argv nf tr ok (ESend (FlashPhaseMsg (ID t) PhaseFlashing) :: l).
Proof.
  intros Hl Hok. split.
  - destruct Hl as [-> | ->]; kinds.
  - destruct Hl as [-> | ->]; cbn; lia.
  - exists [ESend (FlashPhaseMsg (ID t) PhaseFlashing)]. destruct Hl as [-> | ->]; eexists; (split; [reflexivity|]); by split.
Qed.
Lemma attempt_again n t argv nf tr ok l body :
  (l = [ERun (Host t) argv] ∨ l = [ERun (Host t) argv; ESend (FlashRunStartedMsg (ID t) nf)]) →
  attempt_body n t argv nf (tr ++ ESend (FlashPhaseMsg (ID t) PhaseFlashing) :: l) ok body →
  attempt_body (S n) t argv nf tr ok (ESend (FlashPhaseMsg (ID t) PhaseFlashing) :: l ++ body).
Proof.
  intros Hl [Hk Hc (pre & post & -> & Hp & Hok)]. split.
  - rewrite app_comm_cons. apply Forall_app. split; [|exact Hk]. destruct Hl as [-> | ->]; kinds.
  - destruct Hl as [-> | ->]; cbn in *; lia.
  - exists (ESend (FlashPhaseMsg (ID t) PhaseFlashing) :: l ++ pre), post. split; [cbn; by rewrite <- app_assoc|]. split; [done|].
    rewrite <- app_assoc in Hok. exact Hok.
Qed.

(** The end of the last attempt. *)
Lemma attempts_end n t argv nf tr l ok c hint tail :
  (l = [ERun (Host t) argv] ∨ l = [ERun (Host t) argv; ESend (FlashRunStartedMsg (ID t) nf)]) →
  (ok = true ↔ ∃ r, w_run w (tr ++ [ESend (FlashPhaseMsg (ID t) PhaseFlashing)]) (Host t) argv = Ok r ∧ succeeded nf r) →
  ∃ a l0, ((ok, ((tr ++ [ESend (FlashPhaseMsg (ID t) PhaseFlashing)]) ++ l) ++ [ESend (FlashDeviceDoneMsg (ID t) ok c hint tail)]) : bool * list effect) =
    (a, tr ++ l0) ∧ attempts n t argv nf tr a l0.
Proof.
  intros Hl Hok. exists ok, ((ESend (FlashPhaseMsg (ID t) PhaseFlashing) :: l) ++ [ESend (FlashDeviceDoneMsg (ID t) ok c hint tail)]).
  split; [by rewrite <- !app_assoc|]. eexists _, _, _, _. split; [reflexivity|by apply attempt_once].
Qed.

Lemma run_attempts_adds n t argv nf : adds (run_attempts w fc n t argv nf) (attempts n t argv nf).
Proof.
  induction n as [|n IH]; intros tr; cbn [run_attempts]; unfold phase, act; unfold mbind at 1, P_bind at 1;
    destruct (runOnce_adds t argv nf (tr ++ [ESend (FlashPhaseMsg (ID t) PhaseFlashing)])) as ([[[ok c] hint] tail] & l & Hrun & Hl & Hok);
    unfold mbind at 1, P_bind at 1; rewrite Hrun; cbn in Hok; destruct ok.
  1-3: by apply attempts_end.
  unfold peek, mbind at 1, P_bind at 1. destruct (_ && _); [|by apply attempts_end].
  destruct (IH ((tr ++ [ESend (FlashPhaseMsg (ID t) PhaseFlashing)]) ++ l)) as (ok & l' & -> & body & c' & hint' & tail' & -> & Hb).
  exists ok, ((ESend (FlashPhaseMsg (ID t) PhaseFlashing) :: l ++ body) ++ [ESend (FlashDeviceDoneMsg (ID t) ok c' hint' tail')]).
  split; [cbn; by rewrite <- !app_assoc|]. eexists _, _, _, _. split; [reflexivity|].
  apply attempt_again; [done|]. by rewrite <- app_assoc in Hb.
Qed.

(** ** One device *)

Context (artDir : string) (artifacts : list BuildArtifact) (stagerFor : Target → result string Stager).
Definition validating (t : Target) : effect := ESend (FlashPhaseMsg (ID t) PhaseValidating).
Definition staging (t : Target) : effect := ESend (FlashPhaseMsg (ID t) PhaseStaging).
Definition confirming (t : Target) : effect := ESend (FlashPhaseMsg (ID t) PhaseConfirming).
Definition failing (t : Target) (c : FailClass) (hint : string) : effect := ESend (FlashDeviceDoneMsg (ID t) false c hint []).
Definition released (t : Target) : list effect := if bool_decide (Port t = ""%string) then [] else [ERelease (Port t)].
Definition retries : nat := if RetryAuto fc then Z.to_nat (RetryMax fc) else 0%nat.
Abbreviation the_argv t stager ws := (BuildEsptoolArgv fc (Port t) (HostDir stager) ws).

(** The write set was built and passed the guard. *)
Definition validated (t : Target) (ws : list WriteEntry) (stager : Stager) : Prop :=
  BuildWriteSet (w_stat w [validating t]) artDir artifacts = Ok ws ∧ stagerFor t = Ok stager ∧
  ValidateWriteSet ws (the_argv t stager ws) (GuardFromConfig fc) = None.

(** How a device's sequence goes: refused, staging failed, the gate closed, or run. *)
Inductive sequence (t : Target) : bool → list effect → Prop :=
| SRefused c hint : sequence t false [validating t; failing t c hint]
| SStage ws stager sl e : validated t ws stager → Forall (shell_of (Host t)) sl →
    sequence t false (validating t :: staging t :: sl ++ [failing t FailStage e])
| SGate ws stager sl e : validated t ws stager → Forall (shell_of (Host t)) sl →
    sequence t false (validating t :: staging t :: sl ++ [confirming t; EConfirm (Device t); failing t FailGate e])
| SRun ws stager sl ok l : validated t ws stager → Forall (shell_of (Host t)) sl →
    w_confirm w (validating t :: staging t :: sl ++ [confirming t]) (Device t) = None →
    attempts retries t (the_argv t stager ws) (zlen ws)
      (validating t :: staging t :: sl ++ [confirming t; EConfirm (Device t)] ++ released t) ok l →
    sequence t ok (validating t :: staging t :: sl ++ [confirming t; EConfirm (Device t)] ++ released t ++ l).

Lemma flashOne_sequence t : ∃ ok tr, flashOne w fc artDir artifacts stagerFor t [] = (ok, tr) ∧ sequence t ok tr.
Proof.
  unfold flashOne, phase, act, peek. unfold mbind at 1, P_bind at 1. unfold mbind at 1, P_bind at 1. cbn [app].
  destruct (BuildWriteSet _ _ _) as [ws|e] eqn:Hws; [|eexists _, _; split; [reflexivity|apply SRefused]].
  destruct (stagerFor t) as [stager|e] eqn:Hst; [|eexists _, _; split; [reflexivity|apply SRefused]].
  destruct (ValidateWriteSet _ _ _) as [r|] eqn:Hv; [eexists _, _; split; [reflexivity|apply SRefused]|].
  assert (Hval : validated t ws stager) by done.
  unfold mbind at 1, P_bind at 1. unfold mbind at 1, P_bind at 1. cbn [app].
  destruct (Stage_only t stager ws [validating t; staging t]) as (serr & sl & Hrun & Hsl).
  match goal with |- context [Stage w t stager ws ?x] => change x with [validating t; staging t] end. rewrite Hrun.
  destruct serr as [e|]; [eexists _, _; split; [reflexivity|by eapply SStage]|].
  unfold mbind at 1, P_bind at 1. unfold ask, mbind at 1, P_bind at 1. cbn [app]. rewrite <- app_assoc. cbn [app].
  destruct (w_confirm w _ (Device t)) as [e|] eqn:Hg.
  { exists false, (validating t :: staging t :: sl ++ [confirming t; EConfirm (Device t); failing t FailGate e]).
    split; [|by eapply SGate]. unfold fail, act, mbind, P_bind, mret, P_ret. cbn. by rewrite <- app_assoc. }
  assert (Hrel : ∀ tr, releasePort (Port t) tr = (tt, tr ++ released t)).
  { intros tr. unfold releasePort, released. case_bool_decide; [by rewrite app_nil_r|done]. }
  unfold mbind at 1, P_bind at 1. rewrite Hrel.
  destruct (run_attempts_adds retries t (the_argv t stager ws) (zlen ws)
    (validating t :: staging t :: sl ++ [confirming t; EConfirm (Device t)] ++ released t)) as (ok & l & Hrun2 & Hat).
  exists ok, (validating t :: staging t :: sl ++ [confirming t; EConfirm (Device t)] ++ released t ++ l).
  split; [|by apply (SRun t ws stager)]. unfold runWithRetry, retries in *. etrans; [|etrans; [exact Hrun2|cbn; by rewrite <- !app_assoc]].
  f_equal. cbn. by rewrite <- !app_assoc.
Qed.

(** ** The verdict *)

Definition is_done (e : effect) : bool := match e with ESend (FlashDeviceDoneMsg _ _ _ _ _) => true | _ => false end.
Definition runs (l : list effect) : nat := length (List.filter is_run l).
Lemma filter_none {A} (p : A → bool) l : (∀ x, x ∈ l → p x = false) → List.filter p l = [].
Proof.
  induction l as [|x l IH]; [done|]. intros H. cbn. rewrite (H x) by left. apply IH. intros y Hy. apply H. by right.
Qed.

Lemma filter_reverse {A} (p : A → bool) l : List.filter p l = [] → List.filter p (reverse l) = [].
Proof.
  intros Hl. apply filter_none. intros x Hx. rewrite elem_of_reverse in Hx. destruct (p x) eqn:Hr; [|done].
  exfalso. assert (Hi : x ∈ List.filter p l). { apply list_elem_of_In, List.filter_In. split; [by apply list_elem_of_In|done]. }
  rewrite Hl in Hi. by apply not_elem_of_nil in Hi.
Qed.
Lemma first_unique {A} (p : A → bool) a b x y X Y : List.filter p a = [] → List.filter p b = [] → p x = true → p y = true →
  a ++ x :: X = b ++ y :: Y → x = y ∧ X = Y.
Proof.
  revert b. induction a as [|e a IH]; intros [|e' b] Ha Hb Hx Hy He; cbn in *.
  - by injection He.
  - injection He as -> _. by rewrite Hx in Hb.
  - injection He as <- _. by rewrite Hy in Ha.
  - injection He as <- He. destruct (p e); [done|]. by eapply IH.
Qed.
(** The last of a kind is where it is. *)
Lemma last_unique {A} (p : A → bool) pre x post pre2 y post2 : List.filter p post = [] → List.filter p post2 = [] →
  p x = true → p y = true → pre ++ x :: post = pre2 ++ y :: post2 → pre = pre2 ∧ x = y.
Proof.
  intros H1 H2 Hx Hy He. apply (f_equal reverse) in He. rewrite !reverse_app, !reverse_cons, <- !app_assoc in He. cbn in He.
  destruct (first_unique p (reverse post) (reverse post2) x y (reverse pre) (reverse pre2)) as [-> Hr]; try done; try by apply filter_reverse.
  by apply (inj reverse) in Hr.
Qed.

(** A device's verdict, for the trace of its sequence. *)
Definition verdict (t : Target) (ok : bool) (body : list effect) : Prop :=
  (∀ e, e ∈ body → is_done e = false) ∧ (runs body ≤ 1 + retries)%nat ∧
  (ok = true ↔ ∃ pre argv post r, body = pre ++ ERun (Host t) argv :: post ∧ runs post = 0%nat ∧
     w_run w pre (Host t) argv = Ok r ∧ succeeded (zlen artifacts) r).

Lemma verdict_failed t body : (∀ e, e ∈ body → is_done e = false ∧ is_run e = false) → verdict t false body.
Proof.
  intros Hb. split_and!.
  - intros e He. by apply Hb.
  - unfold runs. rewrite filter_none; [cbn; lia|]. intros e He. by apply Hb.
  - split; [done|]. intros (pre & argv & post & r & -> & _). destruct (Hb (ERun (Host t) argv)) as [_ ?]; [|done].
    apply elem_of_app. right. left.
Qed.
Lemma verdict_run t ws stager ok p body : validated t ws stager → (∀ e, e ∈ p → is_done e = false ∧ is_run e = false) →
  attempt_body retries t (the_argv t stager ws) (zlen ws) p ok body → verdict t ok (p ++ body).
Proof.
  intros (Hb & _) Hp [Hk Hc (pre & post & -> & Hpost & Hok)].
  assert (Hzl : zlen ws = zlen artifacts).
  { destruct (BuildWriteSet_ok _ _ _ _ Hb) as (_ & _ & es & Hperm & Hf2). unfold zlen.
    by rewrite (Permutation_length Hperm), (Forall2_length _ _ _ Hf2). }
  split_and!.
  - rewrite Forall_forall in Hk. intros e [He|He]%elem_of_app; [by apply Hp|]. by destruct (Hk e He) as [-> |[-> | ->]].
  - unfold runs. rewrite List.filter_app, (filter_none is_run p) by (intros e He; by apply Hp). exact (proj2 Hc).
  - rewrite Hok, Hzl. split.
    + intros (r & Hr & Hsuc). exists (p ++ pre), (the_argv t stager ws), post, r. rewrite <- app_assoc. unfold runs. by rewrite Hpost.
    + intros (pre2 & argv2 & post2 & r & Heq & Hp2 & Hr & Hsuc). rewrite app_assoc in Heq.
      apply (last_unique is_run) in Heq as [-> [= ->]]; [by exists r|done|by apply nil_length_inv|done|done].
Qed.

Lemma before_runs t sl e : Forall (shell_of (Host t)) sl →
  e ∈ validating t :: staging t :: sl ++ [confirming t; EConfirm (Device t)] ++ released t → is_done e = false ∧ is_run e = false.
Proof.
  intros Hsl He. rewrite Forall_forall in Hsl.
  apply elem_of_cons in He as [-> |[-> |[He|[-> |[-> |He]%elem_of_cons]%elem_of_cons]%elem_of_app]%elem_of_cons]; try done.
  - specialize (Hsl e He). by destruct e.
  - unfold released in He. case_bool_decide; [by apply not_elem_of_nil in He|]. by apply list_elem_of_singleton in He as ->.
Qed.

(** C13. The verdict on a device is one final message, and it is true: a device is
    reported flashed exactly when its last esptool run exited 0, verified the hash
    of every artifact and reported no mismatch. A run is repeated at most as often
    as configured. *)
Theorem flash_verdict t : ∃ ok body c hint tail,
  flashOne w fc artDir artifacts stagerFor t [] = (ok, body ++ [ESend (FlashDeviceDoneMsg (ID t) ok c hint tail)]) ∧
  (∀ e, e ∈ body → is_done e = false) ∧ (runs body ≤ 1 + retries)%nat ∧
  (ok = true ↔ ∃ pre argv post r, body = pre ++ ERun (Host t) argv :: post ∧ runs post = 0%nat ∧
     w_run w pre (Host t) argv = Ok r ∧ succeeded (zlen artifacts) r).
Proof.
  destruct (flashOne_sequence t) as (ok & tr & Hrun & Hseq).
  assert (H : ∃ body c hint tail, tr = body ++ [ESend (FlashDeviceDoneMsg (ID t) ok c hint tail)] ∧ verdict t ok body);
    [|destruct H as (body & c & hint & tail & -> & ?); by exists ok, body, c, hint, tail].
  clear Hrun. destruct Hseq as [c hint|ws stager sl x Hv Hsl|ws stager sl x Hv Hsl|ws stager sl ok l Hv Hsl Hg Hat].
  - exists [validating t], c, hint, []. split; [done|]. apply verdict_failed. by intros e ->%list_elem_of_singleton.
  - exists (validating t :: staging t :: sl), FailStage, x, []. split; [done|]. apply verdict_failed. intros e He.
    apply (before_runs t sl); [done|]. rewrite !app_comm_cons. apply elem_of_app. by left.
  - exists (validating t :: staging t :: sl ++ [confirming t; EConfirm (Device t)]), FailGate, x, [].
    split; [cbn; by rewrite <- app_assoc|]. apply verdict_failed. intros e He. apply (before_runs t sl); [done|].
    rewrite app_assoc, !app_comm_cons. apply elem_of_app. by left.
  - destruct Hat as (body & c & hint & tail & -> & Hb). eexists (_ ++ body), c, hint, tail.
    split; [|eapply verdict_run; [exact Hv|intros e; by apply before_runs|exact Hb]]. cbn. by rewrite <- !app_assoc.
Qed.

(** The effects that reach a host. *)
Definition reaches_host (e : effect) : bool := match e with ESend _ | ERelease _ => false | _ => true end.
(** What an effect on a host may be, for a validated write set. *)
Definition sanctioned (t : Target) (ws : list WriteEntry) (stager : Stager) (e : effect) : Prop :=
  match e with
  | ERun host argv => host = Host t ∧ argv = the_argv t stager ws ∧ ∀ tok, tok ∈ argv → erase_verb tok = false
  | EConfirm d => d = Device t
  | EShell host _ | EPipe host _ _ => host = Host t
  | _ => True
  end.

Lemma attempts_sanctioned n t ws stager nf tr ok l e : validated t ws stager →
  attempts n t (the_argv t stager ws) nf tr ok l → e ∈ l → sanctioned t ws stager e.
Proof.
  intros (_ & _ & Hv) (body & c & hint & tail & -> & [Hk _ _]) [He| ->%list_elem_of_singleton]%elem_of_app; [|done].
  rewrite Forall_forall in Hk. destruct (Hk e He) as [-> |[-> | ->]]; [done| |done].
  apply ValidateWriteSet_ok in Hv as [Hv _]. by split_and!.
Qed.
Lemma sequence_sanctioned t ok tr e : sequence t ok tr → e ∈ tr → reaches_host e = true →
  ∃ ws stager, validated t ws stager ∧ sanctioned t ws stager e.
Proof.
  intros Hs He Hr. destruct Hs as [c hint|ws stager sl x Hv Hsl|ws stager sl x Hv Hsl|ws stager sl ok l Hv Hsl Hg Hat].
  - by apply elem_of_cons in He as [-> | ->%list_elem_of_singleton].
  - exists ws, stager. split; [done|]. apply elem_of_cons in He as [-> |[-> |[He| ->%list_elem_of_singleton]%elem_of_app]%elem_of_cons]; [done..| |done].
    rewrite Forall_forall in Hsl. specialize (Hsl e He). by destruct e.
  - exists ws, stager. split; [done|]. apply elem_of_cons in He as [-> |[-> |[He|He]%elem_of_app]%elem_of_cons]; [done..| |].
    + rewrite Forall_forall in Hsl. specialize (Hsl e He). by destruct e.
    + apply elem_of_cons in He as [-> |[-> | ->%list_elem_of_singleton]%elem_of_cons]; done.
  - exists ws, stager. split; [done|]. apply elem_of_cons in He as [-> |[-> |[He|He]%elem_of_app]%elem_of_cons]; [done..| |].
    + rewrite Forall_forall in Hsl. specialize (Hsl e He). by destruct e.
    + cbn [app] in He. apply elem_of_cons in He as [-> |[-> |[He|He]%elem_of_app]%elem_of_cons]; [done|done| |by eapply attempts_sanctioned].
      unfold released in He. case_bool_decide; [by apply not_elem_of_nil in He|]. by apply list_elem_of_singleton in He as ->.
Qed.

(** The prefix before a run: the gate passed, and the port was asked for. *)
Lemma run_after_gate t ok tr pre host argv post : sequence t ok tr → tr = pre ++ ERun host argv :: post →
  ∃ pre1 pre2, pre = pre1 ++ EConfirm (Device t) :: pre2 ∧ w_confirm w pre1 (Device t) = None ∧
    (Port t ≠ ""%string → ERelease (Port t) ∈ pre2).
Proof.
  intros Hs Htr. assert (Hin : ERun host argv ∈ tr) by (rewrite Htr; apply elem_of_app; right; left).
  assert (Hnosl : ∀ sl, Forall (shell_of (Host t)) sl → ERun host argv ∉ sl).
  { intros sl Hsl Hi. rewrite Forall_forall in Hsl. by apply (Hsl _ Hi). }
  destruct Hs as [c hint|ws stager sl x Hv Hsl|ws stager sl x Hv Hsl|ws stager sl ok l Hv Hsl Hg Hat].
  - exfalso. repeat (apply elem_of_cons in Hin as [?|Hin]; [done|]). by apply not_elem_of_nil in Hin.
  - exfalso. apply elem_of_cons in Hin as [?|[?|[Hin|?%list_elem_of_singleton]%elem_of_app]%elem_of_cons]; try done. by eapply Hnosl.
  - exfalso. apply elem_of_cons in Hin as [?|[?|[Hin|Hin]%elem_of_app]%elem_of_cons]; try done; [by eapply Hnosl|].
    repeat (apply elem_of_cons in Hin as [?|Hin]; [done|]). by apply not_elem_of_nil in Hin.
  - set (g := validating t :: staging t :: sl ++ [confirming t]) in *.
    assert (Hshape : g ++ EConfirm (Device t) :: released t ++ l = pre ++ ERun host argv :: post).
    { rewrite <- Htr. unfold g. cbn. by rewrite <- app_assoc. }
    assert (Hg0 : ERun host argv ∉ g ++ EConfirm (Device t) :: released t).
    { unfold g. intros [Hi|Hi]%elem_of_app.
      - apply elem_of_cons in Hi as [?|[?|[Hi|?%list_elem_of_singleton]%elem_of_app]%elem_of_cons]; try done. by eapply Hnosl.
      - apply elem_of_cons in Hi as [?|Hi]; [done|]. unfold released in Hi. case_bool_decide; [by apply not_elem_of_nil in Hi|].
        by apply list_elem_of_singleton in Hi. }
    assert (Hpre : ∃ k, pre = (g ++ EConfirm (Device t) :: released t) ++ k).
    { rewrite app_comm_cons, app_assoc in Hshape. apply app_eq_inv in Hshape as [(k & HG & Hk)|(k & Hk & _)]; [|by exists k].
      destruct k as [|e k]; [exists []; by rewrite app_nil_r, HG, app_nil_r|]. injection Hk as <- _. exfalso. apply Hg0. rewrite HG.
      apply elem_of_app. right. left. }
    destruct Hpre as (k & ->). exists g, (released t ++ k). split; [by rewrite <- app_assoc|]. split; [done|].
    intros Hp. apply elem_of_app. left. unfold released. rewrite bool_decide_eq_false_2 by done. left.
Qed.

(** C3. The factory NVS region is inviolable, whatever the world answers: nothing
    reaches a host before the write set is built and validated; every effect is on
    the target's own host and device; each esptool run carries the one command
    line of that set, sorted so that the highest offset is written last, clear of
    the NVS region for the sizes seen and without an erase verb; and it follows a
    confirmation of the gate and the release of the port. *)
Theorem flash_preserves_nvs t s (Hg : parseOffset (NVSPreserveOffset fc) = Some s) (Hs : s + nvsRegionLen ≤ 2 ^ 63)
    (Hstat : ∀ tr p n, w_stat w tr p = Some n → n < 2 ^ 63) :
  ∃ ok tr, flashOne w fc artDir artifacts stagerFor t [] = (ok, tr) ∧
    (∀ e, e ∈ tr → reaches_host e = true → ∃ ws stager,
       BuildWriteSet (w_stat w [validating t]) artDir artifacts = Ok ws ∧ stagerFor t = Ok stager ∧
       StronglySorted off_le ws ∧ (∀ x, x ∈ ws → clear_of s nvsRegionLen x) ∧ sanctioned t ws stager e) ∧
    (∀ pre host argv post, tr = pre ++ ERun host argv :: post → ∃ pre1 pre2,
       pre = pre1 ++ EConfirm (Device t) :: pre2 ∧ w_confirm w pre1 (Device t) = None ∧
       (Port t ≠ ""%string → ERelease (Port t) ∈ pre2)).
Proof.
  destruct (flashOne_sequence t) as (ok & tr & Hrun & Hseq). exists ok, tr. split; [exact Hrun|]. split.
  - intros e He Hr. destruct (sequence_sanctioned t ok tr e Hseq He Hr) as (ws & stager & (Hb & Hst & Hv) & Hsan).
    exists ws, stager. destruct (BuildWriteSet_ok _ _ _ _ Hb) as (Hsorted & _ & es & Hperm & Hf2).
    split_and!; [done..| |done]. intros x Hx. apply ValidateWriteSet_ok in Hv as [_ Hov].
    unfold GuardFromConfig in Hov. rewrite Hg in Hov. rewrite Hperm in Hx.
    apply list_elem_of_lookup in Hx as [i Hi]. destruct (Forall2_lookup_r _ _ _ _ _ Hf2 Hi) as (a & _ & Ho & _ & _ & _ & Hsz).
    apply overlaps_exact; [done|apply parseOffset_bound in Hg; lia|done|by apply parseOffset_bound in Ho| |].
    + rewrite Hsz. destruct (w_stat w _ _) eqn:Hn; [by eapply Hstat|cbn; lia].
    + apply Hov. rewrite Hperm. by eapply list_elem_of_lookup_2.
  - intros pre host argv post Htr. by eapply run_after_gate.
Qed.
End World.

(** ** A batch *)

Section Batch.
Context (n : nat).

Definition locked (b : batch) : list string := (λ x : Target * stage, Host x.1) <$> List.filter (λ x, holds_lock x.2) b.
(** One target per host at a time, and no more runs than slots. *)
Definition batch_ok (b : batch) : Prop := NoDup (locked b) ∧ (slots b ≤ n)%nat.
Definition weight (s : stage) : nat := match s with Queued => 4 | Locked => 3 | Slotted => 2 | Unslotted _ => 1 | Finished _ => 0 end.
Definition measure (b : batch) : nat := sum_list_with (λ x : Target * stage, weight x.2) b.
Definition all_finished (b : batch) : Prop := ∀ x, x ∈ b → ∃ ok, x.2 = Finished ok.

Lemma locked_app a b : locked (a ++ b) = locked a ++ locked b.
Proof. unfold locked. by rewrite List.filter_app, fmap_app. Qed.
Lemma slots_app a b : slots (a ++ b) = (slots a + slots b)%nat.
Proof. unfold slots. by rewrite List.filter_app, length_app. Qed.
Lemma measure_app a b : measure (a ++ b) = (measure a + measure b)%nat.
Proof. unfold measure. by rewrite sum_list_with_app. Qed.

Lemma NoDup_middle {A} (a b : list A) x : NoDup (a ++ x :: b) ↔ (x ∉ a ++ b) ∧ NoDup (a ++ b).
Proof. by rewrite <- Permutation_middle, NoDup_cons. Qed.

Lemma batch_step_ok b b' : batch_step n b b' → batch_ok b →
  batch_ok b' ∧ S (measure b') = measure b ∧ b'.*1 = b.*1.
Proof.
  intros Hs [Hnd Hsl]. unfold batch_ok. destruct Hs as [pre t post Hfree|pre t post Hfree|pre t post ok|pre t post ok];
    rewrite ?locked_app, ?slots_app, ?measure_app, ?fmap_app in *; cbn in *; (split; [split|split; [cbn; lia|done]]);
    try (unfold slots in *; cbn in *; lia); try done.
  - apply NoDup_middle. split; [|exact Hnd]. fold (locked post). rewrite <- locked_app. intros ([x s] & Hx & Hin)%list_elem_of_fmap.
    apply list_elem_of_In, List.filter_In in Hin as [Hin Hl]. cbn in Hx, Hl.
    assert (Hf : holds_lock s = false) by (apply (Hfree (x, s)); [by apply list_elem_of_In|done]). congruence.
  - by apply NoDup_middle in Hnd as [_ ?].
Qed.

(** While a target is left, some goroutine can go on. *)
Definition going (s : stage) : bool := match s with Slotted | Unslotted _ => true | _ => false end.
Definition is_locked (s : stage) : bool := match s with Locked => true | _ => false end.
Definition is_queued (s : stage) : bool := match s with Queued => true | _ => false end.
Lemma somewhere (p : stage → bool) (b : batch) :
  (∀ x, x ∈ b → p x.2 = false) ∨ ∃ pre t s post, b = pre ++ (t, s) :: post ∧ p s = true.
Proof.
  destruct (decide (Exists (λ x : Target * stage, p x.2 = true) b)) as [He|He].
  - right. apply Exists_exists in He as ([t s] & Hin & Hp). apply list_elem_of_split in Hin as (pre & post & ->). eauto 10.
  - left. intros x Hx. destruct (p x.2) eqn:Hp; [|done]. exfalso. apply He, Exists_exists. eauto.
Qed.
Lemma batch_progress b : (0 < n)%nat → batch_ok b → all_finished b ∨ ∃ b', batch_step n b b'.
Proof.
  intros Hn [Hnd Hsl].
  destruct (somewhere going b) as [Hgo|(pre & t & s & post & -> & Hp)]; [|right; destruct s; try done; eexists; (apply (BRun n pre t post true) || apply BUnlock)].
  assert (Hslots : slots b = 0%nat).
  { unfold slots. rewrite filter_none; [done|]. intros x Hx. specialize (Hgo x Hx). by destruct x as [t []]. }
  destruct (somewhere is_locked b) as [Hlk|(pre & t & s & post & -> & Hp)]; [|right; destruct s; try done; eexists; apply BSlot; lia].
  destruct (somewhere is_queued b) as [Hq|(pre & t & s & post & -> & Hp)].
  - left. intros x Hx. specialize (Hgo x Hx). specialize (Hlk x Hx). specialize (Hq x Hx). destruct x as [t []]; try done. by eexists.
  - right. destruct s; try done. eexists. apply BLock. intros x Hx _.
    assert (Hx' : x ∈ pre ++ (t, Queued) :: post) by (apply elem_of_app in Hx as [?|?]; apply elem_of_app; [by left|right; by right]).
    specialize (Hgo x Hx'). specialize (Hlk x Hx'). by destruct x as [x []].
Qed.

(** C32. A batch flashes one device per host at a time and no more at once than
    configured, never deadlocks, and ends: after at most four steps per target
    every target has its verdict. *)
Theorem batch_finishes targets k b (Hn : (0 < n)%nat) : nsteps (batch_step n) k (start targets) b →
  batch_ok b ∧ b.*1 = targets ∧ (k + measure b = 4 * length targets)%nat ∧
  (all_finished b ∨ ∃ b', batch_step n b b').
Proof.
  intros Hk. assert (H0 : batch_ok (start targets) ∧ measure (start targets) = (4 * length targets)%nat ∧ (start targets).*1 = targets).
  { clear Hk. unfold batch_ok, start. induction targets as [|t ts [[H1 H2] [H3 H4]]]; [split_and!; cbn; [by apply NoDup_nil_2|lia|done|done]|].
    cbn in *. split_and!; [done|done|unfold measure in *; cbn in *; lia|by rewrite H4]. }
  assert (H : ∀ k a b, nsteps (batch_step n) k a b → batch_ok a → batch_ok b ∧ b.*1 = a.*1 ∧ (k + measure b = measure a)%nat).
  { clear. intros k a b Hk. induction Hk as [a|k a b c Hs Hk IH]; intros Ha; [done|].
    destruct (batch_step_ok a b Hs Ha) as (Hb & Hm & Hf). destruct (IH Hb) as (Hc & -> & Hm'). split_and!; [done|done|lia]. }
  destruct H0 as (Ha & Hm & Hf). destruct (H _ _ _ Hk Ha) as (Hb & Hb1 & Hkm). split_and!; [done|by rewrite Hb1|lia|by apply batch_progress].
Qed.
End Batch.

(** ** Samples *)

Definition ex_cfg (extra : list string) : FlashCfg :=
  MkFlash ["esptool"%string] "esp32c3" "default_reset" "hard_reset" "dio" "4MB" "80m" extra "0x9000" "local" "" true 2 true 1 40.
Definition ex_artifacts : list BuildArtifact :=
  [MkArtifact "app" "picpak.bin" "0x20000"; MkArtifact "boot" "bootloader/bootloader.bin" "0x0"].
Definition ex_device : DiscoveredDevice := MkDevice "bench" "/dev/ttyACM0" "usb-Espressif".
Definition ex_output : list string :=
  ["Writing at 0x00020000... (37 %)"; "Hash of data verified."; "Hash of data verified."; "Hard resetting via RTS pin..."]%string.
Definition ex_world : world :=
  MkWorld (λ _ _, Some 4096) (λ _ _, Ok [1; 2; 3]) (λ _ _ _, Ok ""%string) (λ _ _ _ _, MkPipe true None None None 0 None)
    (λ _ _, None) (λ _ _ _, Ok (MkRun ex_output 0 None)) (λ _, false).
Definition ex_stager (t : Target) : result string Stager := Ok (newStager (ex_cfg []) true "/build").
Abbreviation ex_flash extra := (flashOne ex_world (ex_cfg extra) "/repo/build" ex_artifacts ex_stager (NewTarget ex_device) []).

Lemma flash_preserves_nvs_witness : ∃ tr ws,
  ex_flash [] = (true, tr) ∧
  BuildWriteSet (λ _, Some 4096) "/repo/build" ex_artifacts = Ok ws ∧ (∀ x, x ∈ ws → clear_of 36864 nvsRegionLen x) ∧
  ERun "bench" ["esptool"; "--chip"; "esp32c3"; "-p"; "/dev/ttyACM0"; "--before"; "default-reset"; "--after"; "hard-reset"; "write-flash";
    "--flash-mode"; "dio"; "--flash-size"; "4MB"; "--flash-freq"; "80m"; "0x0"; "/build/bootloader/bootloader.bin"; "0x20000"; "/build/picpak.bin"]%string ∈ tr.
Proof.
  destruct (flash_preserves_nvs ex_world (ex_cfg []) "/repo/build" ex_artifacts ex_stager (NewTarget ex_device) 36864) as (ok & tr & Hrun & Hsafe & _);
    [vm_compute; reflexivity|vm_compute; discriminate|intros tr p n [= <-]; vm_compute; reflexivity|].
  assert (Htr : tr = (ex_flash []).2) by (by rewrite Hrun). assert (Hok : ok = (ex_flash []).1) by (by rewrite Hrun).
  set (run := ERun _ _). assert (Hin : run ∈ tr).
  { rewrite Htr. vm_compute. do 6 right. left. }
  destruct (Hsafe run Hin eq_refl) as (ws & stager & Hws & _ & _ & Hclear & _).
  exists tr, ws. rewrite Hrun, Hok. split_and!; [vm_compute; reflexivity|exact Hws|exact Hclear|exact Hin].
Defined.

(** The guard looks for erase verbs, which esptool takes before its options: the
    option that erases the whole flash passes it, from the extra arguments to the
    command that runs; and so does a further address, inside the region. *)
Theorem erase_option_passes :
  (∃ argv, ERun "bench" argv ∈ (ex_flash ["--erase-all"%string]).2 ∧ "--erase-all"%string ∈ argv) ∧
  (∃ argv pre post, ERun "bench" argv ∈ (ex_flash ["0x9000"; "blank.bin"]%string).2 ∧ argv = pre ++ ["0x9000"; "blank.bin"]%string ++ post).
Proof.
  split.
  - eexists. split; [vm_compute; do 6 right; left|]. do 16 right. left.
  - eexists _, [_;_;_;_;_;_;_;_;_;_;_;_;_;_;_;_], _. split; [vm_compute; do 6 right; left|reflexivity].
Qed.
(** An offset that does not parse leaves no guard at all. *)
Theorem zero_guard fc e : parseOffset (NVSPreserveOffset fc) = None → overlaps (GuardFromConfig fc) e = false.
Proof. intros Hn. unfold GuardFromConfig. by rewrite Hn. Qed.

Lemma batch_finishes_witness : ∃ b,
  nsteps (batch_step 2) 2 (start [NewTarget ex_device; NewTarget ex_device]) b ∧ batch_ok 2 b ∧ ∃ b', batch_step 2 b b'.
Proof.
  exists [(NewTarget ex_device, Slotted); (NewTarget ex_device, Queued)].
  assert (H : nsteps (batch_step 2) 2 (start [NewTarget ex_device; NewTarget ex_device]) [(NewTarget ex_device, Slotted); (NewTarget ex_device, Queued)]).
  { eapply nsteps_l; [apply (BLock 2 [] (NewTarget ex_device) [(NewTarget ex_device, Queued)]); by intros x ->%list_elem_of_singleton|].
    eapply nsteps_l; [apply (BSlot 2 [] (NewTarget ex_device) [(NewTarget ex_device, Queued)]); vm_compute; lia|apply nsteps_O]. }
  destruct (batch_finishes 2 _ 2 _ ltac:(lia) H) as (Hok & _ & _ & [Hall|Hstep]); [|by split_and!].
  exfalso. by destruct (Hall (NewTarget ex_device, Slotted) ltac:(left)).
Defined.
End FlashLaws.
