(* ===== verification/OpsLogs.v ===== *)
(** * The console's live log tail ([tools/picpak-ops/internal/logs])

    The parse of a row into lines, the reads of the [logs] table, the tail store
    (prime, forward poll, scrollback, filter, reload, clear) and the pane's
    filter overlay. The store runs in one goroutine, so a run is a sequence of
    its operations; every read may fail. *)

From S2P Require Import Prelude GoLib Db GoText LogIngest.
Import GoLib GoText LogIngest.

Module OpsLogs.

(** ** Lines, cursor, filter, configuration (types.go) *)

Inductive SyntheticKind := SynthNone | SynthGap | SynthSuspect.
#[global] Instance SyntheticKind_eq_dec : EqDecision SyntheticKind.
Proof. solve_decision. Defined.

Record Line := MkLine {
  Time : Z; Serial : string; BootCount : Z; HasBoot : bool; Source : string; Text : string;
  Synthetic : SyntheticKind }.
#[global] Instance Line_eq_dec : EqDecision Line.
Proof. solve_decision. Defined.

Record Cursor := MkCursor { c_time : Z; c_seq : option Z; HasData : bool }.
Record Filter := MkFilter { Serials : list string; Sources : list string }.
Record Config := MkConfig {
  LineSeparator : string; PollInterval : Z; PollBatch : Z; BackfillPage : Z; LiveRingLines : Z;
  HistoryMaxRows : Z; DefaultSerials : list string; DefaultSources : list string;
  ShowGapMarkers : bool; GapMarkerFormat : string; ShowSuspect : bool; SuspectMarker : string;
  ErrorBackoff : Z; ErrorBackoffMax : Z }.

(** ** From a row to its lines (parse.go) *)

Definition drop_last_empty (parts : list bytes) : list bytes :=
  match reverse parts with [] :: r => reverse r | _ => parts end.
Definition splitPayload (payload sep : string) : list string :=
  if bool_decide (sep = ""%string) then if bool_decide (payload = ""%string) then [] else [payload]
  else string_of_bytes <$> drop_last_empty (split (bytes_of_string payload) (bytes_of_string sep)).

(** FNV-1a, 64 bits, of Go's [hash/fnv]. *)
Definition fnv64a (b : bytes) : Z :=
  foldl (λ h c, u64 (Z.lxor h c * 1099511628211)) 14695981039346656037 b.
Definition hex_of (n : Z) : string := string_of_bytes (hex_digits 16 n).
Definition dedupKey (r : log_row) : string :=
  (format_int (default (-1) (offset_start r)) ++ ":" ++ hex_of (fnv64a (bytes_of_string (l_payload r))))%string.

Record bootTracker := MkBoot { last : gmap string Z; seen : gset string }.
Definition newBootTracker : bootTracker := MkBoot ∅ ∅.
Definition boot_step (serial : string) (bc : option Z) (bt : bootTracker) : (bool * Z) * bootTracker :=
  match bc with
  | None => ((false, 0), bt)
  | Some b =>
      let bt' := MkBoot (<[serial := b]> (last bt)) ({[serial]} ∪ seen bt) in
      match last bt !! serial with
      | None => ((false, 0), bt')
      | Some prev => ((negb (prev =? b), prev), bt')
      end
  end.

Definition gapMarker (format : string) (from to : Z) : string :=
  ReplaceAll (ReplaceAll format "{from}" (format_int from)) "{to}" (format_int to).
Definition row_line (r : log_row) (text : string) (kind : SyntheticKind) : Line :=
  MkLine (l_time r) (l_serial r) (default 0 (l_boot r)) (bool_decide (is_Some (l_boot r))) (source r) text kind.
Definition contentLine (r : log_row) (text : string) : Line := row_line r text SynthNone.
Definition syntheticLine (r : log_row) (kind : SyntheticKind) (text : string) : Line := row_line r text kind.

Definition parseRow (cfg : Config) (r : log_row) (bt : bootTracker) : list Line * bootTracker :=
  let '((changed, from), bt') := boot_step (l_serial r) (l_boot r) bt in
  let gap :=
    if ShowGapMarkers cfg && (changed || l_gap r) then
      let to := default from (l_boot r) in
      let fromShown := if negb changed && l_gap r then to else from in
      [syntheticLine r SynthGap (gapMarker (GapMarkerFormat cfg) fromShown to)]
    else [] in
  let mark := if ShowSuspect cfg && suspect r then [syntheticLine r SynthSuspect (SuspectMarker cfg)] else [] in
  (gap ++ mark ++ (contentLine r <$> splitPayload (l_payload r) (LineSeparator cfg)), bt').
Fixpoint parse_rows (cfg : Config) (rows : list log_row) (bt : bootTracker) : list Line * bootTracker :=
  match rows with
  | [] => ([], bt)
  | r :: rows => let '(a, bt) := parseRow cfg r bt in let '(b, bt) := parse_rows cfg rows bt in (a ++ b, bt)
  end.

(** ** The reads (query.go)

    Rows the ORDER BY leaves tied come in table order. *)

(** [NULLS FIRST], ascending. *)
Definition opt_cmp (a b : option Z) : comparison :=
  match a, b with
  | None, None => Eq | None, Some _ => Lt | Some _, None => Gt | Some x, Some y => x ?= y
  end.
Definition then_cmp (a b : comparison) : comparison := match a with Eq => b | _ => a end.
Definition row_cmp (a b : log_row) : comparison :=
  then_cmp (l_time a ?= l_time b) (then_cmp (opt_cmp (l_seq a) (l_seq b)) (opt_cmp (offset_start a) (offset_start b))).
Definition asc (a b : log_row) : Prop := row_cmp a b ≠ Gt.
Definition desc (a b : log_row) : Prop := row_cmp a b ≠ Lt.
#[global] Instance comparison_eq_dec : EqDecision comparison.
Proof. solve_decision. Defined.
#[global] Instance asc_dec : RelDecision asc := λ a b, decide (row_cmp a b ≠ Gt).
#[global] Instance desc_dec : RelDecision desc := λ a b, decide (row_cmp a b ≠ Lt).

Definition matches (f : Filter) (r : log_row) : bool :=
  (bool_decide (Serials f = []) || bool_decide (l_serial r ∈ Serials f)) &&
  (bool_decide (Sources f = []) || bool_decide (source r ∈ Sources f)).
Definition queryRecent (f : Filter) (limit : Z) (tbl : list log_row) : list log_row :=
  reverse (take (Z.to_nat limit) (merge_sort desc (List.filter (matches f) tbl))).
Definition queryForward (f : Filter) (since limit : Z) (tbl : list log_row) : list log_row :=
  take (Z.to_nat limit) (merge_sort asc (List.filter (λ r, matches f r && (since <=? l_time r)) tbl)).
Definition queryBackfill (f : Filter) (before limit : Z) (tbl : list log_row) : list log_row :=
  reverse (take (Z.to_nat limit) (merge_sort desc (List.filter (λ r, matches f r && (l_time r <? before)) tbl))).
(** [ORDER BY serial] in the database's collation. *)
Definition queryDistinctSerials (collate : string → string → bool) (tbl : list log_row) : list string :=
  merge_sort (λ a b, Is_true (collate a b)) (remove_dups (l_serial <$> tbl)).

(** ** The tail store (store.go) *)

Inductive msg :=
| logRowsMsg (added : Z) (cur : Cursor)
| logBackfillMsg (added : Z) (exhausted : bool)
| logSerialsMsg (serials : list string)
| logErrMsg (e : db_err).

Record logStore := MkStore {
  ring : list Line; cursor : Cursor; seenAtMax : gset string; oldest : option Z; fwdBoot : bootTracker;
  filter : Filter; primed : bool; backfillExhausted : bool; backfilledRows : Z; curBackoff : Z }.

(** January 1 of year 1, Go's zero time, in seconds. *)
Definition zero_time : Z := -62135596800.
Definition no_cursor : Cursor := MkCursor zero_time None false.
Definition newLogStore (cfg : Config) : logStore :=
  MkStore [] no_cursor ∅ None newBootTracker (MkFilter (DefaultSerials cfg) (DefaultSources cfg)) false false 0 0.

Definition set_ring l (s : logStore) : logStore :=
  MkStore l (cursor s) (seenAtMax s) (oldest s) (fwdBoot s) (filter s) (primed s) (backfillExhausted s)
    (backfilledRows s) (curBackoff s).
Definition set_tail c k b (s : logStore) : logStore :=
  MkStore (ring s) c k (oldest s) b (filter s) (primed s) (backfillExhausted s) (backfilledRows s) (curBackoff s).
Definition set_history o p x n (s : logStore) : logStore :=
  MkStore (ring s) (cursor s) (seenAtMax s) o (fwdBoot s) (filter s) p x n (curBackoff s).
Definition set_backoff b (s : logStore) : logStore :=
  MkStore (ring s) (cursor s) (seenAtMax s) (oldest s) (fwdBoot s) (filter s) (primed s) (backfillExhausted s)
    (backfilledRows s) b.

(** [trimLocked], [appendLinesLocked]. *)
Definition ring_limit (cfg : Config) : Z := if LiveRingLines cfg <? 1 then 1 else LiveRingLines cfg.
Definition trim_ring (cfg : Config) (l : list Line) : list Line :=
  if ring_limit cfg <? zlen l then drop (Z.to_nat (zlen l - ring_limit cfg)) l else l.
Definition appendLinesLocked (cfg : Config) (lines : list Line) (s : logStore) : logStore :=
  if bool_decide (lines = []) then s else set_ring (trim_ring cfg (ring s ++ lines)) s.

(** One row of [ingestForward]: is it a repeat, and what it does otherwise. *)
Definition repeated (s : logStore) (r : log_row) : bool :=
  HasData (cursor s) && negb (c_time (cursor s) <? l_time r) && bool_decide (dedupKey r ∈ seenAtMax s).
Definition advance (s : logStore) (r : log_row) : Cursor * gset string :=
  let later := negb (HasData (cursor s)) || (c_time (cursor s) <? l_time r) in
  let c := if later then MkCursor (l_time r) (c_seq (cursor s)) true else cursor s in
  let k := if later then ∅ else seenAtMax s in
  let k := if l_time r =? c_time c then {[dedupKey r]} ∪ k else k in
  (match l_seq r with Some q => MkCursor (c_time c) (Some q) (HasData c) | None => c end, k).
Definition ingest_row (cfg : Config) (r : log_row) (s : logStore) : Z * logStore :=
  if repeated s r then (0, s)
  else
    let '(c, k) := advance s r in
    let '(lines, bt) := parseRow cfg r (fwdBoot s) in
    (zlen lines, appendLinesLocked cfg lines (set_tail c k bt s)).
Fixpoint ingestForward (cfg : Config) (rows : list log_row) (s : logStore) : Z * logStore :=
  match rows with
  | [] => (0, s)
  | r :: rows =>
      let '(n, s) := ingest_row cfg r s in
      let '(m, s) := ingestForward cfg rows s in (n + m, s)
  end.
Definition ingestBackfill (cfg : Config) (rows : list log_row) (s : logStore) : Z * logStore :=
  if bool_decide (rows = []) then (0, s)
  else let block := (parse_rows cfg rows newBootTracker).1 in (zlen block, set_ring (trim_ring cfg (block ++ ring s)) s).

(** The goroutine's world: the store, the table it reads, the messages sent. *)
Record world := MkWorld { store : logStore; table : list log_row; sent : list msg }.
Abbreviation T := (M world db_err).

Definition the_store : T logStore := λ w fs, (Ok (store w), w, fs).
Definition update {A} (f : logStore → A * logStore) : T A := λ w fs,
  let '(a, s) := f (store w) in (Ok a, MkWorld s (table w) (sent w), fs).
Definition modify (f : logStore → logStore) : T unit := update (λ s, (tt, f s)).
Definition emit (m : msg) : T unit := λ w fs, (Ok tt, MkWorld (store w) (table w) (sent w ++ [m]), fs).
Definition read {A} (q : list log_row → A) : T A := query EDb (λ w, Ok (q (table w))).

Definition head_time (rows : list log_row) (o : option Z) : option Z :=
  match rows with r :: _ => Some (l_time r) | [] => o end.

Section Store.
Context (cfg : Config) (collate : string → string → bool).

Definition prime : T unit :=
  s ← the_store;
  rows ← read (queryRecent (filter s) (BackfillPage cfg));
  added ← update (ingestForward cfg rows);
  _ ← modify (λ s, set_history (head_time rows (oldest s)) true (zlen rows <? BackfillPage cfg) (backfilledRows s) s);
  s ← the_store;
  serials ← attempt (read (queryDistinctSerials collate));
  _ ← match serials with Ok ss => emit (logSerialsMsg ss) | Err _ => mret tt end;
  emit (logRowsMsg added (cursor s)).

Definition forward : T unit :=
  s ← the_store;
  rows ← read (queryForward (filter s) (c_time (cursor s)) (PollBatch cfg));
  added ← update (ingestForward cfg rows);
  s ← the_store;
  if 0 <? added then emit (logRowsMsg added (cursor s)) else mret tt.

Definition doBackfill : T unit :=
  s ← the_store;
  match oldest s with
  | Some before =>
      if backfillExhausted s || (HistoryMaxRows cfg <=? backfilledRows s) then emit (logBackfillMsg 0 true)
      else
        rows ← read (queryBackfill (filter s) before (BackfillPage cfg));
        added ← update (ingestBackfill cfg rows);
        exhausted ← update (λ s,
          let n := backfilledRows s + zlen rows in
          let x := (zlen rows <? BackfillPage cfg) || (HistoryMaxRows cfg <=? n) in
          (x, set_history (head_time rows (oldest s)) (primed s) x n s));
        emit (logBackfillMsg added exhausted)
  | None => emit (logBackfillMsg 0 true)
  end.

Definition resetForReprime (f : option Filter) (s : logStore) : logStore :=
  MkStore [] no_cursor ∅ None newBootTracker (default (filter s) f) false false 0 (curBackoff s).

Inductive storeReq := reqBackfill | reqSetFilter (f : Filter) | reqReload | reqClear.
Definition or_report (m : T unit) : T unit :=
  r ← attempt m;
  match r with Ok _ => mret tt | Err e => emit (logErrMsg e) end.
Definition handleReq (r : storeReq) : T unit :=
  match r with
  | reqBackfill => or_report doBackfill
  | reqSetFilter f => _ ← modify (resetForReprime (Some f)); or_report prime
  | reqReload => _ ← modify (resetForReprime None); or_report prime
  | reqClear => _ ← modify (set_ring []); s ← the_store; emit (logRowsMsg 0 (cursor s))
  end.

Definition second : Z := 1000000000.
Definition nextBackoff (cur base max : Z) : Z :=
  if cur <=? 0 then if base <=? 0 then 10 * second else base
  else let n := i64 (cur * 2) in if (0 <? max) && (max <? n) then max else n.
Definition pollInterval : Z := if 0 <? PollInterval cfg then PollInterval cfg else 3 * second.
Definition tick : T Z :=
  s ← the_store;
  r ← attempt (if primed s then forward else prime);
  match r with
  | Err e =>
      _ ← emit (logErrMsg e);
      update (λ s, let b := nextBackoff (curBackoff s) (ErrorBackoff cfg) (ErrorBackoffMax cfg) in (b, set_backoff b s))
  | Ok _ => _ ← modify (set_backoff 0); mret pollInterval
  end.

(** [run]: the timer or a request. *)
Inductive event := Timer | Request (r : storeReq).
Definition handle (e : event) : T unit :=
  match e with Timer => _ ← tick; mret tt | Request r => handleReq r end.
(** What the backend does meanwhile: rows are appended. *)
Inductive step : world → world → Prop :=
| step_event e w fs r w' fs' : handle e w fs = (r, w', fs') → step w w'
| step_insert w rows : step w (MkWorld (store w) (table w ++ rows) (sent w)).
Inductive reachable (t0 : list log_row) : world → Prop :=
| reach_new : reachable t0 (MkWorld (newLogStore cfg) t0 [])
| reach_step w w' : reachable t0 w → step w w' → reachable t0 w'.
End Store.

(** ** The filter overlay (filter.go) *)

(** [sort.Strings]. *)
Definition bytes_le (a b : string) : Prop := String.leb a b = true.
#[global] Instance bytes_le_dec : RelDecision bytes_le := λ a b, decide (String.leb a b = true).
Definition sort_strings (l : list string) : list string := merge_sort bytes_le l.
Fixpoint dedupe_go (seen : gset string) (l : list string) : list string :=
  match l with
  | [] => []
  | s :: l => if bool_decide (s = ""%string) || bool_decide (s ∈ seen) then dedupe_go seen l
              else s :: dedupe_go ({[s]} ∪ seen) l
  end.
Definition dedupeSorted (l : list string) : list string := sort_strings (dedupe_go ∅ l).

Record filterOverlay := MkOverlay { f_open : bool; f_serials : list string; selected : gmap string bool; f_cursor : Z }.
Definition openWith (candidates current : list string) (f : filterOverlay) : filterOverlay :=
  MkOverlay true (dedupeSorted candidates) (foldl (λ m s, <[s := true]> m) ∅ current) 0.
Definition move (delta : Z) (f : filterOverlay) : filterOverlay :=
  let n := zlen (f_serials f) in
  let c := if n =? 0 then 0
           else let c := f_cursor f + delta in
                let c := if c <? 0 then 0 else c in if n <=? c then n - 1 else c in
  MkOverlay (f_open f) (f_serials f) (selected f) c.
Definition toggle (f : filterOverlay) : filterOverlay :=
  if (f_cursor f <? 0) || (zlen (f_serials f) <=? f_cursor f) then f
  else match f_serials f !! Z.to_nat (f_cursor f) with
  | Some s => MkOverlay (f_open f) (f_serials f) (<[s := negb (default false (selected f !! s))]> (selected f)) (f_cursor f)
  | None => f
  end.
Definition chosen (f : filterOverlay) : list string :=
  sort_strings (List.filter (λ s, default false (selected f !! s)) (map_to_list (selected f)).*1).

(** [cycleSingle]: all, then each item alone, then all again. *)
Fixpoint index_of (s : string) (l : list string) : option nat :=
  match l with [] => None | x :: l => if bool_decide (x = s) then Some 0%nat else S <$> index_of s l end.
Definition cycleSingle (items current : list string) : list string :=
  let idx := match current with [c] => default 0%nat (S <$> index_of c items) | _ => 0%nat end in
  match items !! idx with Some s => [s] | None => [] end.

Example fnv_text : hex_of (fnv64a (bytes_of_string "foobar")) = "85944171f73967e8"%string. Proof. reflexivity. Qed.
Example split_text : splitPayload "a|b||c|" "|" = ["a"; "b"; ""; "c"]%string. Proof. reflexivity. Qed.
Example cycle_text : cycleSingle ["a"; "b"] [] = ["a"]%string ∧ cycleSingle ["a"; "b"] ["b"] = []%string. Proof. by split. Qed.
End OpsLogs.

(** * What the console's live log tail promises

    A forward poll shows every new row exactly once; the ring stays within its
    bound; where the tail stalls, drops or does not scroll back. *)

From S2P Require Import Prelude GoLib Db GoText C2 LogIngest LogQuery Thumbnail FlashLaws.
Import GoLib GoText LogIngest OpsLogs.

Module OpsLogsLaws.

(** ** The ring *)

Lemma ring_limit_pos cfg : 1 ≤ ring_limit cfg.
Proof. unfold ring_limit. zcase; lia. Qed.
Lemma nil_bounded cfg : zlen (@nil Line) ≤ ring_limit cfg.
Proof. pose proof (ring_limit_pos cfg). unfold zlen. simpl length. lia. Qed.
Lemma trim_ring_len cfg l : zlen (trim_ring cfg l) ≤ ring_limit cfg.
Proof.
  unfold trim_ring. pose proof (ring_limit_pos cfg). zcase; [|lia].
  unfold zlen in *. rewrite length_drop. lia.
Qed.
Lemma trim_ring_id cfg l : zlen l ≤ ring_limit cfg → trim_ring cfg l = l.
Proof. unfold trim_ring. zcase; [lia|done]. Qed.
(** Trimming on the way is trimming at the end. *)
Lemma trim_ring_app cfg a b : trim_ring cfg (trim_ring cfg a ++ b) = trim_ring cfg (a ++ b).
Proof.
  pose proof (ring_limit_pos cfg) as Hp.
  destruct (Z.le_gt_cases (zlen a) (ring_limit cfg)) as [Ha|Ha]; [by rewrite (trim_ring_id cfg a)|].
  assert (Ht : trim_ring cfg a = drop (Z.to_nat (zlen a - ring_limit cfg)) a).
  { unfold trim_ring. zcase; [done|lia]. }
  rewrite Ht. unfold trim_ring at 2. rewrite zlen_app. pose proof (zlen_nonneg b).
  destruct (Z.ltb_spec (ring_limit cfg) (zlen a + zlen b)); [|lia].
  assert (Hl : zlen (drop (Z.to_nat (zlen a - ring_limit cfg)) a) = ring_limit cfg).
  { unfold zlen in *. rewrite length_drop. lia. }
  unfold trim_ring. rewrite zlen_app, Hl.
  replace (Z.to_nat (zlen a + zlen b - ring_limit cfg))
    with (Z.to_nat (zlen a - ring_limit cfg) + Z.to_nat (zlen b))%nat by lia.
  rewrite <-drop_drop, (drop_app_le a b) by (unfold zlen in *; lia).
  destruct (Z.ltb_spec (ring_limit cfg) (ring_limit cfg + zlen b)).
  - by replace (ring_limit cfg + zlen b - ring_limit cfg) with (zlen b) by lia.
  - by replace (zlen b) with 0 by lia.
Qed.

Lemma append_ring cfg lines s :
  zlen (ring s) ≤ ring_limit cfg → appendLinesLocked cfg lines s = set_ring (trim_ring cfg (ring s ++ lines)) s.
Proof.
  intros Hs. unfold appendLinesLocked. case_bool_decide as Hl; [|done]. subst.
  rewrite app_nil_r, trim_ring_id by done. by destruct s.
Qed.
Lemma append_bound cfg lines s :
  zlen (ring s) ≤ ring_limit cfg → zlen (ring (appendLinesLocked cfg lines s)) ≤ ring_limit cfg.
Proof. intros. rewrite append_ring by done. simpl. apply trim_ring_len. Qed.

Definition bounded (cfg : Config) (s : logStore) : Prop := zlen (ring s) ≤ ring_limit cfg.
Lemma ingest_row_bounded cfg r s : bounded cfg s → bounded cfg (ingest_row cfg r s).2.
Proof.
  intros Hs. unfold ingest_row. case_match; [done|].
  destruct (advance s r), (parseRow cfg r (fwdBoot s)). by apply append_bound.
Qed.
Lemma ingestForward_bounded cfg rows s : bounded cfg s → bounded cfg (ingestForward cfg rows s).2.
Proof.
  revert s. induction rows as [|r rows IH]; intros s Hs; simpl; [done|].
  pose proof (ingest_row_bounded cfg r s Hs) as Hr. destruct (ingest_row cfg r s) as [n s1].
  specialize (IH s1 Hr). by destruct (ingestForward cfg rows s1).
Qed.
Lemma ingestBackfill_bounded cfg rows s : bounded cfg s → bounded cfg (ingestBackfill cfg rows s).2.
Proof. intros. unfold ingestBackfill. case_bool_decide; [done|]. apply trim_ring_len. Qed.

(** ** Store operations that keep a property of the store *)

Definition keeps_store {A} (P : logStore → Prop) (m : T A) : Prop :=
  ∀ w fs, P (store w) → P (store (m w fs).1.2).
Section Keeps.
Context (P : logStore → Prop).
Lemma keeps_pure {A} (a : A) : keeps_store P (mret a).
Proof. by intros w fs H. Qed.
Lemma keeps_bind {A B} (m : T A) (k : A → T B) :
  keeps_store P m → (∀ a, keeps_store P (k a)) → keeps_store P (m ≫= k).
Proof.
  intros Hm Hk w fs H. unfold mbind, M_bind. specialize (Hm w fs H).
  destruct (m w fs) as [[[a|e] w'] fs']; simpl in *; [by apply Hk|done].
Qed.
Lemma keeps_get {A} (k : logStore → T A) :
  (∀ s, P s → keeps_store P (k s)) → keeps_store P (the_store ≫= k).
Proof. intros Hk w fs H. by apply Hk. Qed.
Lemma keeps_update {A} (f : logStore → A * logStore) : (∀ s, P s → P (f s).2) → keeps_store P (update f).
Proof. intros Hf w fs H. unfold update. specialize (Hf _ H). by destruct (f (store w)). Qed.
Lemma keeps_modify f : (∀ s, P s → P (f s)) → keeps_store P (modify f).
Proof. intros Hf. by apply keeps_update. Qed.
Lemma keeps_emit m : keeps_store P (emit m).
Proof. by intros w fs H. Qed.
Lemma keeps_read {A} (q : list log_row → A) : keeps_store P (read q).
Proof. intros w [|[] fs] H; apply H. Qed.
Lemma keeps_attempt {A} (m : T A) : keeps_store P m → keeps_store P (attempt m).
Proof. intros Hm w fs H. unfold attempt. specialize (Hm w fs H). by destruct (m w fs) as [[? ?] ?]. Qed.
Lemma keeps_or_report (m : T unit) : keeps_store P m → keeps_store P (or_report m).
Proof.
  intros Hm. apply keeps_bind; [by apply keeps_attempt|].
  intros [a|e]; [apply keeps_pure|apply keeps_emit].
Qed.
End Keeps.
Create HintDb tail.
#[export] Hint Resolve keeps_pure keeps_emit keeps_read keeps_attempt keeps_or_report : tail.
Ltac keeps :=
  repeat match goal with
  | |- keeps_store _ (mbind _ the_store) => apply keeps_get; intros ? ?
  | |- keeps_store _ (mbind _ _) => apply keeps_bind; [|intros ?]
  | |- keeps_store _ (modify _) => apply keeps_modify; intros ? ?
  | |- keeps_store _ (update _) => apply keeps_update; intros ? ?
  | |- keeps_store _ (match ?x with _ => _ end) => destruct x
  | |- keeps_store _ (if ?x then _ else _) => destruct x
  | |- keeps_store _ _ => solve [eauto with tail]
  end.

Section Bounded.
Context (cfg : Config) (collate : string → string → bool).
Lemma prime_bounded : keeps_store (bounded cfg) (prime cfg collate).
Proof. unfold prime. keeps; [by apply ingestForward_bounded|done]. Qed.
Lemma forward_bounded : keeps_store (bounded cfg) (forward cfg).
Proof. unfold forward. keeps. by apply ingestForward_bounded. Qed.
Lemma backfill_bounded : keeps_store (bounded cfg) (doBackfill cfg).
Proof. unfold doBackfill. keeps; [by apply ingestBackfill_bounded|done]. Qed.
Lemma reset_bounded f s : bounded cfg (resetForReprime f s).
Proof. apply nil_bounded. Qed.
Lemma tick_bounded : keeps_store (bounded cfg) (tick cfg collate).
Proof.
  pose proof prime_bounded as Hp. pose proof forward_bounded as Hf. unfold tick.
  apply keeps_get; intros s Hs. apply keeps_bind; [destruct (primed s); by apply keeps_attempt|].
  intros [a|e]; keeps; done.
Qed.
Lemma handle_bounded e : keeps_store (bounded cfg) (handle cfg collate e).
Proof.
  pose proof prime_bounded as Hp. pose proof backfill_bounded as Hb.
  destruct e as [|[|f| |]]; unfold handle, handleReq.
  - apply keeps_bind; [apply tick_bounded|intros; apply keeps_pure].
  - by apply keeps_or_report.
  - keeps. apply reset_bounded.
  - keeps. apply reset_bounded.
  - keeps. apply nil_bounded.
Qed.
End Bounded.

(** The ring of lines never outgrows its configured bound, whatever polls,
    scrollback, filter changes, clears and failed reads happen, and whatever
    the backend appends meanwhile. *)
Theorem ring_bounded cfg collate t0 w :
  reachable cfg collate t0 w → zlen (ring (store w)) ≤ Z.max 1 (LiveRingLines cfg).
Proof.
  intros Hr. cut (bounded cfg (store w)).
  { unfold bounded, ring_limit. zcase; lia. }
  induction Hr as [|w w' Hr IH Hs].
  - apply nil_bounded.
  - destruct Hs as [e w fs r w' fs' H|]; [|done].
    pose proof (handle_bounded cfg collate e w fs IH) as Hb. by rewrite H in Hb.
Qed.

(** ** One poll *)

Definition row_key (r : log_row) : Z * string := (l_time r, dedupKey r).
Definition fresh (s : logStore) (r : log_row) : bool := negb (repeated s r).
Definition in_time (a b : log_row) : Prop := l_time a ≤ l_time b.

Lemma repeated_iff s r :
  HasData (cursor s) = true → c_time (cursor s) ≤ l_time r →
  repeated s r = true ↔ l_time r = c_time (cursor s) ∧ dedupKey r ∈ seenAtMax s.
Proof.
  intros Hd Hle. unfold repeated. rewrite Hd. simpl. rewrite andb_true_iff, negb_true_iff, bool_decide_eq_true.
  rewrite Z.ltb_ge. intuition lia.
Qed.

(** What a row that is not a repeat leaves. *)
Lemma ingest_fresh cfg r s :
  HasData (cursor s) = true → c_time (cursor s) ≤ l_time r → zlen (ring s) ≤ ring_limit cfg → repeated s r = false →
  ∃ s1, ingest_row cfg r s = (zlen (parseRow cfg r (fwdBoot s)).1, s1) ∧
    ring s1 = trim_ring cfg (ring s ++ (parseRow cfg r (fwdBoot s)).1) ∧
    fwdBoot s1 = (parseRow cfg r (fwdBoot s)).2 ∧ filter s1 = filter s ∧
    HasData (cursor s1) = true ∧ c_time (cursor s1) = l_time r ∧
    (∀ k, k ∈ seenAtMax s1 ↔ (l_time r = c_time (cursor s) ∧ k ∈ seenAtMax s) ∨ k = dedupKey r).
Proof.
  intros Hd Hle Hb Hf. unfold ingest_row. rewrite Hf.
  destruct (advance s r) as [c k] eqn:Ha. destruct (parseRow cfg r (fwdBoot s)) as [lines bt] eqn:Hp.
  eexists. split; [done|]. rewrite append_ring by done. simpl.
  assert (Hc : c_time c = l_time r ∧ HasData c = true ∧
               ∀ x, x ∈ k ↔ (l_time r = c_time (cursor s) ∧ x ∈ seenAtMax s) ∨ x = dedupKey r).
  { unfold advance in Ha. rewrite Hd in Ha. simpl in Ha.
    destruct (Z.ltb_spec (c_time (cursor s)) (l_time r)) as [Hlt|Hge]; simpl in Ha.
    - rewrite Z.eqb_refl in Ha. destruct (l_seq r); injection Ha as <- <-; simpl;
        (split; [done|split; [done|set_solver by lia]]).
    - replace (l_time r =? c_time (cursor s)) with true in Ha by (symmetry; apply Z.eqb_eq; lia).
      destruct (l_seq r); injection Ha as <- <-; simpl; (split; [lia|split; [done|]]);
        intros x; assert (l_time r = c_time (cursor s)) by lia; set_solver. }
  by destruct Hc as (? & ? & ?).
Qed.

(** A later row of the poll is a repeat after [r] exactly if it was before. *)
Lemma fresh_after s s1 r r' :
  HasData (cursor s) = true → HasData (cursor s1) = true →
  c_time (cursor s) ≤ l_time r → l_time r ≤ l_time r' → row_key r ≠ row_key r' →
  c_time (cursor s1) = l_time r →
  (∀ k, k ∈ seenAtMax s1 ↔ (l_time r = c_time (cursor s) ∧ k ∈ seenAtMax s) ∨ k = dedupKey r) →
  fresh s1 r' = fresh s r'.
Proof.
  intros Hd Hd1 Hle Hle' Hne Hc Hk. unfold fresh. f_equal. apply eq_true_iff_eq.
  rewrite !repeated_iff by (done || lia). rewrite Hk. unfold row_key in Hne.
  split; [intros [Ht [[? ?]|He]]|intros [Ht Hin]].
  - split; [lia|done].
  - exfalso. apply Hne. rewrite He. f_equal. lia.
  - split; [lia|]. left. split; [lia|done].
Qed.

(** The state and the lines a poll leaves, for rows in time order. *)
Definition poll_result (cfg : Config) (rows : list log_row) (s : logStore) (n : Z) (s' : logStore) : Prop :=
  let p := parse_rows cfg (List.filter (fresh s) rows) (fwdBoot s) in
  n = zlen p.1 ∧ ring s' = trim_ring cfg (ring s ++ p.1) ∧ fwdBoot s' = p.2 ∧ filter s' = filter s ∧
  HasData (cursor s') = true ∧ c_time (cursor s) ≤ c_time (cursor s') ∧
  (∀ r, r ∈ rows → l_time r ≤ c_time (cursor s')) ∧
  (∀ k, k ∈ seenAtMax s' ↔ (c_time (cursor s') = c_time (cursor s) ∧ k ∈ seenAtMax s) ∨
                           ∃ r, r ∈ rows ∧ l_time r = c_time (cursor s') ∧ dedupKey r = k).
Lemma ingestForward_spec cfg rows s :
  HasData (cursor s) = true → zlen (ring s) ≤ ring_limit cfg →
  StronglySorted in_time rows → Forall (λ r, c_time (cursor s) ≤ l_time r) rows → NoDup (row_key <$> rows) →
  poll_result cfg rows s (ingestForward cfg rows s).1 (ingestForward cfg rows s).2.
Proof.
  revert s. induction rows as [|r rows IH]; intros s Hd Hb Hs Hle Hnd.
  { unfold poll_result. simpl. rewrite app_nil_r, trim_ring_id by done.
    repeat (split; [done || set_solver|]). set_solver. }
  apply StronglySorted_inv in Hs as [Hs Hr]. apply Forall_cons_1 in Hle as [Hle1 Hle].
  rewrite fmap_cons in Hnd. apply NoDup_cons in Hnd as [Hni Hnd]. simpl.
  destruct (repeated s r) eqn:Hrep.
  - unfold ingest_row. rewrite Hrep. specialize (IH s Hd Hb Hs Hle Hnd).
    apply repeated_iff in Hrep as Hrep'; [|done..]. destruct Hrep' as [Ht Hk].
    assert (Hf : fresh s r = false) by (unfold fresh; by rewrite Hrep).
    destruct (ingestForward cfg rows s) as [m s2]. unfold poll_result in *. simpl in *. rewrite Hf.
    destruct IH as (? & ? & ? & ? & ? & Hle2 & Hall & Hseen).
    repeat (split; [done|]). split; [|].
    + intros r' [->|Hr']%elem_of_cons; [lia|by apply Hall].
    + intros k. rewrite Hseen. split; [set_solver|].
      intros [?|(r' & [->|Hr']%elem_of_cons & Ht' & <-)]; [by left|left; split; [lia|done]|right; eauto].
  - destruct (ingest_fresh cfg r s Hd Hle1 Hb Hrep) as (s1 & -> & Hring & Hbt & Hfil & Hd1 & Hc1 & Hk1).
    assert (Hsame : List.filter (fresh s1) rows = List.filter (fresh s) rows).
    { apply List.filter_ext_in. intros r' Hr'. apply list_elem_of_In in Hr'.
      eapply fresh_after; [done|done| | | |done|done]; [done| |].
      - by eapply Forall_forall in Hr.
      - intros He. apply Hni. rewrite He. by apply list_elem_of_fmap_2. }
    destruct (IH s1) as (Hn & Hr2 & Hb2 & Hf2 & Hd2 & Hle2 & Hall & Hseen); [done| |done| |done|].
    { rewrite Hring. apply trim_ring_len. }
    { rewrite Hc1. done. }
    assert (Hf : fresh s r = true) by (unfold fresh; by rewrite Hrep).
    destruct (ingestForward cfg rows s1) as [m s2]. unfold poll_result. simpl in *. rewrite Hf. simpl.
    rewrite Hsame, Hbt in Hn, Hr2, Hb2.
    destruct (parseRow cfg r (fwdBoot s)) as [a bt1]. simpl in *.
    destruct (parse_rows cfg (List.filter (fresh s) rows) bt1) as [b bt2]. simpl in *.
    split; [rewrite zlen_app; lia|]. split; [by rewrite Hr2, Hring, trim_ring_app, app_assoc|].
    split; [done|]. split; [congruence|]. split; [done|]. split; [lia|]. split.
    + intros r' [->|Hr']%elem_of_cons; [lia|by apply Hall].
    + intros k. rewrite Hseen, Hk1, Hc1. split.
      * intros [[He [[He' Hin]| ->]]|(r' & Hr' & ? & ?)].
        -- left. split; [lia|done].
        -- right. exists r. split; [left|]. split; [lia|done].
        -- right. exists r'. split; [by right|done].
      * intros [[He Hin]|(r' & [->|Hr']%elem_of_cons & Ht' & <-)].
        -- left. split; [lia|]. left. split; [lia|done].
        -- left. split; [lia|]. by right.
        -- right. eauto.
Qed.

(** ** The order of the reads *)

Lemma opt_cmp_antisym a b : opt_cmp b a = CompOpp (opt_cmp a b).
Proof. destruct a, b; simpl; try done. apply Z.compare_antisym. Qed.
Lemma row_cmp_antisym a b : row_cmp b a = CompOpp (row_cmp a b).
Proof.
  unfold row_cmp. rewrite (Z.compare_antisym (l_time a) (l_time b)),
    (opt_cmp_antisym (l_seq a) (l_seq b)), (opt_cmp_antisym (offset_start a) (offset_start b)).
  by destruct (l_time a ?= l_time b), (opt_cmp (l_seq a) (l_seq b)).
Qed.
#[global] Instance asc_total : Total asc.
Proof. intros a b. unfold asc. rewrite (row_cmp_antisym a b). by destruct (row_cmp a b); [left|left|right]. Qed.
#[global] Instance desc_total : Total desc.
Proof. intros a b. unfold desc. rewrite (row_cmp_antisym a b). by destruct (row_cmp a b); [left|right|left]. Qed.
Lemma asc_time a b : asc a b → in_time a b.
Proof. unfold asc, in_time, row_cmp. destruct (Z.compare_spec (l_time a) (l_time b)); simpl; [lia|lia|done]. Qed.
Lemma desc_time a b : desc a b → in_time b a.
Proof. unfold desc, in_time, row_cmp. destruct (Z.compare_spec (l_time a) (l_time b)); simpl; [lia|done|lia]. Qed.
#[global] Instance in_time_trans : Transitive in_time.
Proof. unfold in_time. intros a b c. lia. Qed.

Lemma sorted_asc l : StronglySorted in_time (merge_sort asc l).
Proof.
  apply Sorted_StronglySorted; [apply _|].
  assert (H : Sorted asc (merge_sort asc l)) by (apply Sorted_merge_sort; apply _).
  induction H as [|x l' H IH Hx]; constructor; [done|].
  destruct Hx; constructor. by apply asc_time.
Qed.
Lemma sorted_desc l : StronglySorted (flip in_time) (merge_sort desc l).
Proof.
  apply Sorted_StronglySorted; [unfold flip, in_time; intros ???; lia|].
  assert (H : Sorted desc (merge_sort desc l)) by (apply Sorted_merge_sort; apply _).
  induction H as [|x l' H IH Hx]; constructor; [done|].
  destruct Hx; constructor. by apply desc_time.
Qed.

(** ** Forward polls *)

(** The matching rows a poll may read. *)
Definition ahead (s : logStore) (r : log_row) : bool :=
  matches (filter s) r && (c_time (cursor s) <=? l_time r).
(** Every matching row is at the cursor's second or before, and those at that
    second are exactly the rows held there. *)
Definition caught_up (s : logStore) (tbl : list log_row) : Prop :=
  HasData (cursor s) = true ∧
  (∀ r, r ∈ tbl → matches (filter s) r = true → l_time r ≤ c_time (cursor s)) ∧
  (∀ k, k ∈ seenAtMax s ↔
        ∃ r, r ∈ tbl ∧ matches (filter s) r = true ∧ l_time r = c_time (cursor s) ∧ dedupKey r = k).

Lemma ahead_iff s r : ahead s r = true ↔ matches (filter s) r = true ∧ c_time (cursor s) ≤ l_time r.
Proof. unfold ahead. by rewrite andb_true_iff, Z.leb_le. Qed.
Lemma forward_page s n tbl r : r ∈ queryForward (filter s) (c_time (cursor s)) n tbl → r ∈ tbl ∧ ahead s r = true.
Proof.
  intros Hr. unfold queryForward in Hr. apply elem_of_take in Hr as (i & Hr & _).
  apply list_elem_of_lookup_2 in Hr. rewrite merge_sort_Permutation in Hr.
  by apply C2.elem_of_filter_bool in Hr as [? ?].
Qed.
Lemma forward_page_whole s n tbl :
  zlen (List.filter (ahead s) tbl) ≤ n →
  queryForward (filter s) (c_time (cursor s)) n tbl = merge_sort asc (List.filter (ahead s) tbl).
Proof.
  intros Hn. unfold queryForward. fold (ahead s). apply take_ge.
  rewrite merge_sort_Permutation. unfold zlen in Hn. lia.
Qed.
Lemma filter_permutation {A} (p : A → bool) l k : l ≡ₚ k → List.filter p l ≡ₚ List.filter p k.
Proof. induction 1; simpl; repeat case_match; try done; [by constructor..|by constructor|by etrans]. Qed.

(** Of the rows ahead, those that are not repeats are the new ones. *)
Lemma fresh_rows s tbl news :
  caught_up s tbl →
  (∀ r, r ∈ news → matches (filter s) r = true → c_time (cursor s) ≤ l_time r) →
  NoDup (row_key <$> List.filter (ahead s) (tbl ++ news)) →
  List.filter (fresh s) (List.filter (ahead s) (tbl ++ news)) = List.filter (matches (filter s)) news.
Proof.
  intros (Hd & Hle & Hseen) Hnews Hnd.
  assert (Hnew : List.filter (ahead s) news = List.filter (matches (filter s)) news).
  { apply List.filter_ext_in. intros r Hr. apply list_elem_of_In in Hr. apply eq_true_iff_eq.
    rewrite ahead_iff. split; [by intros [? _]|]. intros. split; [done|by apply Hnews]. }
  rewrite List.filter_app, fmap_app in Hnd. apply NoDup_app in Hnd as (_ & Hdis & _).
  rewrite !List.filter_app, <-Hnew.
  rewrite (FlashLaws.filter_none _ (List.filter (ahead s) tbl)), app_nil_l.
  - rewrite (List.forallb_filter_id); [done|]. apply List.forallb_forall. intros r Hr.
    apply list_elem_of_In in Hr. apply C2.elem_of_filter_bool in Hr as [Ha Hr].
    unfold fresh. apply negb_true_iff, not_true_iff_false. intros Hrep.
    apply ahead_iff in Ha as Ha'. destruct Ha' as [Hm Ht].
    apply repeated_iff in Hrep as [He Hk]; [|done..].
    apply Hseen in Hk as (r0 & Hr0 & Hm0 & Ht0 & Hk0).
    apply (Hdis (row_key r)).
    + apply list_elem_of_fmap. exists r0. split; [unfold row_key; by rewrite Hk0, Ht0, He|].
      apply C2.elem_of_filter_bool. split; [|done]. apply ahead_iff. split; [done|lia].
    + apply list_elem_of_fmap_2. by apply C2.elem_of_filter_bool.
  - intros r Hr. apply C2.elem_of_filter_bool in Hr as [Ha Hr]. apply ahead_iff in Ha as [Hm Ht].
    unfold fresh. apply negb_false_iff, repeated_iff; [done..|].
    assert (l_time r = c_time (cursor s)) by (specialize (Hle r Hr Hm); lia).
    split; [done|]. apply Hseen. eauto.
Qed.

Lemma caught_up_after s s' tbl news (page : list log_row) :
  caught_up s tbl → filter s' = filter s → HasData (cursor s') = true → c_time (cursor s) ≤ c_time (cursor s') →
  (∀ r, r ∈ page ↔ r ∈ tbl ++ news ∧ ahead s r = true) →
  (∀ r, r ∈ news → matches (filter s) r = true → c_time (cursor s) ≤ l_time r) →
  (∀ r, r ∈ page → l_time r ≤ c_time (cursor s')) →
  (∀ k, k ∈ seenAtMax s' ↔ (c_time (cursor s') = c_time (cursor s) ∧ k ∈ seenAtMax s) ∨
                           ∃ r, r ∈ page ∧ l_time r = c_time (cursor s') ∧ dedupKey r = k) →
  caught_up s' (tbl ++ news).
Proof.
  intros (Hd & Hle & Hseen) Hf Hd' Hc Hpage Hnews Hall Hk. split; [done|]. rewrite Hf. split.
  - intros r [Hr|Hr]%elem_of_app Hm; [specialize (Hle r Hr Hm); lia|].
    apply Hall, Hpage. split; [apply elem_of_app; by right|apply ahead_iff; auto].
  - intros k. rewrite Hk. split.
    + intros [[He Hin]|(r & Hr & Ht & <-)].
      * apply Hseen in Hin as (r & Hr & Hm & Ht & <-). exists r. rewrite He. split; [apply elem_of_app; by left|done].
      * apply Hpage in Hr as [Hr [Hm _]%ahead_iff]. eauto.
    + intros (r & Hr & Hm & Ht & <-). apply elem_of_app in Hr as [Hr|Hr].
      * left. specialize (Hle r Hr Hm). split; [lia|]. apply Hseen. exists r. split; [done|]. split; [done|].
        split; [lia|done].
      * right. exists r. rewrite Hpage. split; [|done].
        split; [apply elem_of_app; by right|apply ahead_iff; auto].
Qed.

(** C30. When a forward poll shows every new line exactly once. From a tail that has
    caught up with the table, under three provisos - the backend appends only rows
    not older than the cursor, the rows from the cursor on fit one batch, and no two
    of them agree in instant and dedup key - one poll adds to the ring the lines of
    exactly the new rows the filter matches, each once and oldest first, reports
    their number if there are any, and has caught up with the longer table. What
    breaks a proviso is lost or stalls the tail, as shown next to this theorem. *)
Theorem tail_exactly_once cfg s tbl news out :
  caught_up s tbl → zlen (ring s) ≤ ring_limit cfg →
  (∀ r, r ∈ news → matches (filter s) r = true → c_time (cursor s) ≤ l_time r) →
  NoDup (row_key <$> List.filter (ahead s) (tbl ++ news)) →
  zlen (List.filter (ahead s) (tbl ++ news)) ≤ PollBatch cfg →
  ∃ rows s', rows ≡ₚ List.filter (matches (filter s)) news ∧ StronglySorted in_time rows ∧
    ring s' = trim_ring cfg (ring s ++ (parse_rows cfg rows (fwdBoot s)).1) ∧
    caught_up s' (tbl ++ news) ∧
    forward cfg (MkWorld s (tbl ++ news) out) [] =
      (Ok tt, MkWorld s' (tbl ++ news)
         (out ++ (if 0 <? zlen (parse_rows cfg rows (fwdBoot s)).1
                  then [logRowsMsg (zlen (parse_rows cfg rows (fwdBoot s)).1) (cursor s')] else [])), []).
Proof.
  intros Hcu Hring Hnews Hnd Hlen. pose proof Hcu as (Hd & _ & _).
  set (page := queryForward (filter s) (c_time (cursor s)) (PollBatch cfg) (tbl ++ news)).
  assert (Hp : page = merge_sort asc (List.filter (ahead s) (tbl ++ news))) by by apply forward_page_whole.
  assert (Hperm : page ≡ₚ List.filter (ahead s) (tbl ++ news)) by (rewrite Hp; apply merge_sort_Permutation).
  assert (Hin : ∀ r, r ∈ page ↔ r ∈ tbl ++ news ∧ ahead s r = true).
  { intros r. rewrite Hperm, C2.elem_of_filter_bool. tauto. }
  destruct (ingestForward_spec cfg page s) as (Hn & Hr & Hb & Hf & Hd' & Hc & Hall & Hk); [done|done| | | |].
  { rewrite Hp. apply sorted_asc. }
  { apply Forall_forall. intros r [_ [_ Hr]%ahead_iff]%Hin. done. }
  { by rewrite Hperm. }
  exists (List.filter (fresh s) page), (ingestForward cfg page s).2.
  split; [rewrite <-(fresh_rows s tbl news) by done; by apply filter_permutation|].
  split; [apply LogQuery.StronglySorted_filter; rewrite Hp; apply sorted_asc|].
  split; [done|]. split; [by eapply caught_up_after|].
  destruct (ingestForward cfg page s) as [n s'] eqn:Hi. cbn [fst snd] in *. rewrite <-Hn.
  unfold forward, the_store, read, query, stmt, update, emit, mbind, M_bind, mret, M_ret. cbn [store table sent].
  fold page. rewrite Hi. cbn [store table sent]. destruct (0 <? n); [done|]. by rewrite app_nil_r.
Qed.

(** ** Where the tail stalls *)

Lemma sorted_prefix (t : Z) (l : list log_row) n :
  StronglySorted in_time l → Forall (λ r, t ≤ l_time r) l →
  (n ≤ length (List.filter (λ r, (l_time r =? t)%Z) l))%nat → Forall (λ r, l_time r = t) (take n l).
Proof.
  revert n. induction l as [|r l IH]; intros n Hs Hle Hn; [by rewrite take_nil|].
  apply StronglySorted_inv in Hs as [Hs Hr]. apply Forall_cons_1 in Hle as [Hle1 Hle]. simpl in Hn.
  destruct n as [|n]; [constructor|]. simpl. destruct (Z.eqb_spec (l_time r) t) as [He|Hne].
  - constructor; [done|]. apply IH; [done..|simpl in Hn; lia].
  - exfalso. rewrite FlashLaws.filter_none in Hn; [simpl in Hn; lia|].
    intros x Hx. eapply Forall_forall in Hr; [|done]. unfold in_time in Hr. apply Z.eqb_neq. lia.
Qed.
Lemma ingest_repeats cfg rows s : (∀ r, r ∈ rows → repeated s r = true) → ingestForward cfg rows s = (0, s).
Proof.
  induction rows as [|r rows IH]; intros H; simpl; [done|].
  unfold ingest_row. rewrite (H r) by left. rewrite IH; [done|]. intros x Hx. apply H. by right.
Qed.

Lemma filter_ahead_at s tbl :
  List.filter (λ r, (l_time r =? c_time (cursor s))%Z) (List.filter (ahead s) tbl) =
  List.filter (λ r, matches (filter s) r && (l_time r =? c_time (cursor s))) tbl.
Proof.
  induction tbl as [|r tbl IH]; simpl; [done|]. unfold ahead at 1.
  destruct (matches (filter s) r); simpl; [|done].
  destruct (Z.eqb_spec (l_time r) (c_time (cursor s))) as [He|He]; simpl.
  - rewrite He, Z.leb_refl. simpl. rewrite He, Z.eqb_refl. by rewrite <-IH.
  - destruct (_ <=? _); simpl; [|done]. by apply Z.eqb_neq in He as ->.
Qed.

(** A second that fills the batch stalls the tail for good: once as many
    matching rows as the batch holds share the cursor's second, no forward
    poll ever changes anything, whatever later rows the backend appends. *)
Theorem tail_stalls cfg s tbl news out :
  caught_up s tbl → 0 ≤ PollBatch cfg →
  PollBatch cfg ≤ zlen (List.filter (λ r, matches (filter s) r && (l_time r =? c_time (cursor s))) tbl) →
  (∀ r, r ∈ news → c_time (cursor s) < l_time r) →
  forward cfg (MkWorld s (tbl ++ news) out) [] = (Ok tt, MkWorld s (tbl ++ news) out, []).
Proof.
  intros (Hd & Hle & Hseen) Hb0 Hb Hnews.
  set (page := queryForward (filter s) (c_time (cursor s)) (PollBatch cfg) (tbl ++ news)).
  assert (Hall : Forall (λ r, l_time r = c_time (cursor s)) page).
  { apply sorted_prefix; [apply sorted_asc| |].
    - rewrite merge_sort_Permutation. apply Forall_forall. by intros r [[_ ?]%ahead_iff _]%C2.elem_of_filter_bool.
    - rewrite (Permutation_length (filter_permutation _ _ _ (merge_sort_Permutation _ _))).
      rewrite !List.filter_app, length_app. unfold zlen in Hb. fold (ahead s). rewrite filter_ahead_at. lia. }
  assert (Hrep : ingestForward cfg page s = (0, s)).
  { apply ingest_repeats. intros r Hr. pose proof (forward_page _ _ _ _ Hr) as [Hin [Hm Ht]%ahead_iff].
    assert (He : l_time r = c_time (cursor s)) by by eapply Forall_forall in Hall.
    apply repeated_iff; [done..|]. split; [done|]. apply Hseen. exists r.
    apply elem_of_app in Hin as [Hin|Hin]; [done|]. apply Hnews in Hin. lia. }
  unfold forward, the_store, read, query, stmt, update, emit, mbind, M_bind, mret, M_ret. cbn [store table sent].
  fold page. by rewrite Hrep.
Qed.

(** ** Scrollback *)

(** Once the ring is full the scrollback key shows nothing older: an older
    page is read and its lines counted in the report, but the ring, trimmed
    from the oldest end, is what it was. *)
Theorem backfill_when_full cfg s tbl out before :
  oldest s = Some before → backfillExhausted s = false → backfilledRows s < HistoryMaxRows cfg →
  zlen (ring s) = ring_limit cfg →
  let rows := queryBackfill (filter s) before (BackfillPage cfg) tbl in
  let r := doBackfill cfg (MkWorld s tbl out) [] in
  ring (store r.1.2) = ring s ∧
  ∃ x, sent r.1.2 = out ++ [logBackfillMsg (zlen (parse_rows cfg rows newBootTracker).1) x].
Proof.
  intros Ho Hx Hn Hring rows. unfold doBackfill, the_store, read, query, stmt, update, emit, mbind, M_bind.
  cbn [store table sent]. rewrite Ho, Hx. destruct (Z.leb_spec (HistoryMaxRows cfg) (backfilledRows s)); [lia|].
  cbn [orb store table sent]. fold rows. unfold ingestBackfill. case_bool_decide as Hr.
  - rewrite Hr. cbn. eauto.
  - cbn [store table sent fst snd set_history set_ring ring]. split; [|eauto].
    unfold trim_ring. rewrite zlen_app, Hring.
    pose proof (zlen_nonneg (parse_rows cfg rows newBootTracker).1) as H0.
    destruct (Z.ltb_spec (ring_limit cfg) (zlen (parse_rows cfg rows newBootTracker).1 + ring_limit cfg)).
    + rewrite drop_app_len; [done|]. unfold zlen. lia.
    + assert (Hz : zlen (parse_rows cfg rows newBootTracker).1 = 0) by lia. apply zlen_nil_inv in Hz. by rewrite Hz.
Qed.

(** ** Retries *)

Lemma nextBackoff_range cur base max :
  0 < base ≤ max → 2 * max ≤ max_i64 → cur = 0 ∨ base ≤ cur ≤ max →
  base ≤ nextBackoff cur base max ≤ max ∧ (0 < cur → nextBackoff cur base max = Z.min (2 * cur) max).
Proof.
  intros Hb Hm Hc. unfold nextBackoff. destruct (Z.leb_spec cur 0), (Z.leb_spec base 0); try lia.
  rewrite i64_small by (unfold in_i64, min_i64, max_i64 in *; lia).
  replace (cur * 2) with (2 * cur) by lia.
  destruct (Z.ltb_spec 0 max), (Z.ltb_spec max (2 * cur)); simpl; lia.
Qed.
(** The waits after [n] failed polls in a row. *)
Definition backoff_after (cfg : Config) (n : nat) : Z :=
  Nat.iter n (λ c, nextBackoff c (ErrorBackoff cfg) (ErrorBackoffMax cfg)) 0.
(** The waits after failing reads double from the configured base up to
    the configured maximum and stay there. *)
Theorem backoff_doubles cfg n :
  0 < ErrorBackoff cfg ≤ ErrorBackoffMax cfg → 2 * ErrorBackoffMax cfg ≤ max_i64 →
  backoff_after cfg (S n) = Z.min (ErrorBackoff cfg * 2 ^ Z.of_nat n) (ErrorBackoffMax cfg).
Proof.
  intros Hb Hm. induction n as [|n IH].
  - unfold backoff_after. simpl. unfold nextBackoff. simpl. destruct (Z.leb_spec (ErrorBackoff cfg) 0); lia.
  - change (backoff_after cfg (S (S n))) with
      (nextBackoff (backoff_after cfg (S n)) (ErrorBackoff cfg) (ErrorBackoffMax cfg)).
    rewrite IH. assert (1 ≤ 2 ^ Z.of_nat n) by (apply (Z.pow_le_mono_r 2 0); lia).
    assert (Hq : ErrorBackoff cfg ≤ ErrorBackoff cfg * 2 ^ Z.of_nat n) by nia.
    destruct (nextBackoff_range (Z.min (ErrorBackoff cfg * 2 ^ Z.of_nat n) (ErrorBackoffMax cfg)) (ErrorBackoff cfg)
      (ErrorBackoffMax cfg)) as [_ Hd]; [done|done|right; lia|].
    rewrite Hd by lia.
    rewrite Nat2Z.inj_succ, Z.pow_succ_r by lia.
    replace (ErrorBackoff cfg * (2 * 2 ^ Z.of_nat n)) with (2 * (ErrorBackoff cfg * 2 ^ Z.of_nat n)) by ring. lia.
Qed.

(** ** From rows to lines *)

Lemma join_trailing (l : list bytes) sep : l ≠ [] → join l sep ++ sep = join (l ++ [[]]) sep.
Proof.
  intros Hl. induction l as [|x [|y l] IH]; [done|simpl; by rewrite app_nil_r|].
  change (join (x :: y :: l) sep) with (x ++ sep ++ join (y :: l) sep).
  change (join ((x :: y :: l) ++ [[]]) sep) with (x ++ sep ++ join ((y :: l) ++ [[]]) sep).
  by rewrite <-IH, !app_assoc.
Qed.

(** What the device joined, the console splits: a payload made of lines
    without the separator, the last one not empty, gives those lines back,
    with or without a separator at the end. *)
Theorem payload_roundtrip (c : Z) (ls : list bytes) (trailing : bool) :
  byte_ok c → ls ≠ [] → Forall (λ l, bytes_ok l ∧ c ∉ l) ls → List.last ls [] ≠ [] →
  splitPayload (string_of_bytes (join ls [c] ++ (if trailing then [c] else []))) (string_of_bytes [c]) =
  string_of_bytes <$> ls.
Proof.
  intros Hc Hne Hls Hlast.
  assert (Hs : bytes_of_string (string_of_bytes [c]) = [c]) by (apply bytes_of_string_of_bytes; by apply Forall_singleton).
  unfold splitPayload. rewrite bool_decide_false by (intros He; by rewrite He in Hs).
  assert (Hnosep : Forall (λ f, c ∉ f) ls) by (eapply Forall_impl; [done|by intros ? []]).
  assert (Hok : bytes_ok (join ls [c] ++ (if trailing then [c] else []))).
  { apply Forall_app. split; [|destruct trailing; [by apply Forall_singleton|constructor]].
    clear -Hls Hc. induction Hls as [|x l [Hx _] Hl IH]; [constructor|].
    destruct l as [|y l]; [done|]. apply Forall_app. split; [done|]. by constructor. }
  rewrite Hs, bytes_of_string_of_bytes by done. f_equal.
  destruct (exists_last Hne) as (l & x & ->). rewrite List.last_last in Hlast.
  destruct trailing.
  - rewrite join_trailing by by destruct l. rewrite split_join.
    + unfold drop_last_empty. by rewrite reverse_snoc, reverse_involutive.
    + by destruct l.
    + apply Forall_app. split; [done|]. apply Forall_singleton, not_elem_of_nil.
  - rewrite app_nil_r, split_join by done. unfold drop_last_empty. rewrite reverse_snoc.
    by destruct x.
Qed.

(** ** The source key *)

(** The source and device keys rotate: starting from all, pressing the key
    visits each of the items alone, in order, and then all again. *)
Theorem cycle_rotates items n :
  NoDup items → (n ≤ length items)%nat →
  Nat.iter n (cycleSingle items) [] = match n with O => [] | S k => match items !! k with Some s => [s] | None => [] end end ∧
  Nat.iter (S (length items)) (cycleSingle items) [] = [].
Proof.
  intros Hnd Hn.
  assert (Hidx : ∀ k s, items !! k = Some s → index_of s items = Some k).
  { clear n Hn. induction Hnd as [|x l Hx Hnd IH]; intros k s Hk; [done|]. simpl.
    destruct k as [|k]; simpl in Hk; simplify_eq; [by rewrite bool_decide_true|].
    rewrite bool_decide_false, (IH k s); [done|done|].
    intros ->. apply Hx. by eapply list_elem_of_lookup_2. }
  assert (Hit : ∀ m, (m ≤ length items)%nat → Nat.iter m (cycleSingle items) [] =
    match m with O => [] | S k => match items !! k with Some s => [s] | None => [] end end).
  { induction m as [|m IHm]; intros Hm; [done|]. simpl Nat.iter. rewrite IHm by lia.
    destruct m as [|m]; [done|]. destruct (lookup_lt_is_Some_2 items m) as [s Hs]; [lia|].
    rewrite Hs. unfold cycleSingle. by rewrite (Hidx m s Hs). }
  split; [by apply Hit|]. simpl Nat.iter. rewrite Hit by lia.
  destruct (length items) as [|k] eqn:Hl; [by apply nil_length_inv in Hl as ->|].
  destruct (lookup_lt_is_Some_2 items k) as [s Hs]; [lia|].
  rewrite Hs. unfold cycleSingle. rewrite (Hidx k s Hs). simpl.
  by rewrite lookup_ge_None_2 by lia.
Qed.

(** ** Priming *)

(** The first row of an empty tail is ingested as if the cursor were there. *)
Lemma ingest_first cfg r rows s :
  HasData (cursor s) = false →
  ingestForward cfg (r :: rows) s =
  ingestForward cfg (r :: rows) (set_tail (MkCursor (l_time r) (c_seq (cursor s)) true) ∅ (fwdBoot s) s).
Proof.
  intros Hd. cbn [ingestForward]. enough (ingest_row cfg r s =
    ingest_row cfg r (set_tail (MkCursor (l_time r) (c_seq (cursor s)) true) ∅ (fwdBoot s) s)) as -> by done.
  assert (Hr1 : repeated s r = false) by (unfold repeated; by rewrite Hd).
  assert (Hr2 : repeated (set_tail (MkCursor (l_time r) (c_seq (cursor s)) true) ∅ (fwdBoot s) s) r = false).
  { unfold repeated. cbn [cursor set_tail HasData c_time seenAtMax]. rewrite Z.ltb_irrefl. simpl.
    apply bool_decide_false. set_solver. }
  unfold ingest_row. rewrite Hr1, Hr2. unfold advance. rewrite Hd.
  cbn [cursor set_tail HasData c_time c_seq seenAtMax negb orb fwdBoot]. rewrite Z.ltb_irrefl.
  cbn [c_time c_seq HasData]. rewrite Z.eqb_refl.
  destruct (parseRow cfg r (fwdBoot s)). unfold appendLinesLocked. by destruct (l_seq r).
Qed.

Lemma sorted_reverse (l : list log_row) : StronglySorted (flip in_time) l → StronglySorted in_time (reverse l).
Proof.
  induction 1 as [|x l H IH Hx]; [constructor|]. rewrite reverse_cons.
  clear H. revert IH. generalize (reverse_Permutation l). generalize (reverse l) as k.
  intros k Hp IH. apply (Permutation_Forall (symmetry Hp)) in Hx. clear Hp. induction IH as [|y k Hk IHk Hy]; simpl; [repeat constructor|].
  apply Forall_cons_1 in Hx as [Hxy Hx]. constructor; [by apply IHk|].
  apply Forall_app. split; [done|]. by apply Forall_singleton.
Qed.

Lemma filter_filter_bool {A} (p q : A → bool) l : List.filter q (List.filter p l) = List.filter (λ x, p x && q x) l.
Proof. induction l as [|x l IH]; simpl; [done|]. destruct (p x); simpl; [destruct (q x)|]; by rewrite <-IH. Qed.
Lemma nil_length_neq {A} (l : list A) n : drop n l ≠ [] → (n < length l)%nat.
Proof. intros H. destruct (decide (n < length l)%nat); [done|]. exfalso. apply H, drop_ge. lia. Qed.

(** The newest page, in a table no second of which fills it. *)
Lemma recent_page f n tbl :
  (∀ t, zlen (List.filter (λ r, matches f r && (l_time r =? t)) tbl) ≤ n) →
  let page := queryRecent f n tbl in
  StronglySorted in_time page ∧ (∀ r, r ∈ page → r ∈ tbl ∧ matches f r = true) ∧
  (∀ r, r ∈ tbl → matches f r = true → (∀ r', r' ∈ page → l_time r' ≤ l_time r) → r ∈ page).
Proof.
  intros Hn. unfold queryRecent. set (l := merge_sort desc (List.filter (matches f) tbl)).
  assert (Hl : l ≡ₚ List.filter (matches f) tbl) by apply merge_sort_Permutation.
  pose proof (sorted_desc (List.filter (matches f) tbl)) as Hs. fold l in Hs.
  rewrite <-(take_drop (Z.to_nat n) l) in Hs. apply StronglySorted_app in Hs as (Hcross & Hs1 & _).
  cbn zeta. split; [by apply sorted_reverse|]. split.
  - intros r Hr. rewrite elem_of_reverse in Hr. apply elem_of_take in Hr as (i & Hr & _).
    apply list_elem_of_lookup_2 in Hr. rewrite Hl in Hr. by apply C2.elem_of_filter_bool in Hr as [? ?].
  - intros r Hr Hm Hmax. rewrite elem_of_reverse.
    assert (Hrl : r ∈ l) by (rewrite Hl; by apply C2.elem_of_filter_bool).
    rewrite <-(take_drop (Z.to_nat n) l) in Hrl. apply elem_of_app in Hrl as [Hrl|Hrl]; [done|exfalso].
    set (at_r := λ x : log_row, (l_time x =? l_time r)%Z).
    assert (Hall : Forall (λ x, at_r x = true) (take (Z.to_nat n) l)).
    { apply Forall_forall. intros x Hx. apply Z.eqb_eq.
      pose proof (Hcross _ _ Hx Hrl) as Hle. unfold flip, in_time in Hle.
      specialize (Hmax x). rewrite elem_of_reverse in Hmax. specialize (Hmax Hx). lia. }
    specialize (Hn (l_time r)). rewrite <-filter_filter_bool in Hn. fold at_r in Hn.
    assert (Hlen : (Z.to_nat n < length l)%nat).
    { apply nil_length_neq. intros Hd. rewrite Hd in Hrl. by apply not_elem_of_nil in Hrl. }
    assert (Hz : length (List.filter at_r l) = length (List.filter at_r (List.filter (matches f) tbl))).
    { apply Permutation_length. by apply filter_permutation. }
    rewrite <-(take_drop (Z.to_nat n) l), List.filter_app, length_app in Hz.
    rewrite (List.forallb_filter_id at_r (take (Z.to_nat n) l)), length_take in Hz.
    2: { apply List.forallb_forall. intros x Hx. apply list_elem_of_In in Hx. by eapply Forall_forall in Hall. }
    assert (Hone : (0 < length (List.filter at_r (drop (Z.to_nat n) l)))%nat).
    { destruct (List.filter at_r (drop (Z.to_nat n) l)) eqn:He; [|simpl; lia]. exfalso.
      apply (not_elem_of_nil r). rewrite <-He. apply C2.elem_of_filter_bool. split; [apply Z.eqb_refl|done]. }
    unfold zlen in Hn. lia.
Qed.

Lemma take_reverse_NoDup {A B} (f : A → B) n l : NoDup (f <$> l) → NoDup (f <$> reverse (take n l)).
Proof.
  intros H. rewrite fmap_reverse, reverse_Permutation. rewrite <-(take_drop n l), fmap_app in H.
  by apply NoDup_app in H as (? & _).
Qed.
Lemma caught_up_prime cfg s tbl r0 :
  HasData (cursor s) = false → zlen (ring s) ≤ ring_limit cfg →
  (∀ t, zlen (List.filter (λ r, matches (filter s) r && (l_time r =? t)) tbl) ≤ BackfillPage cfg) →
  NoDup (row_key <$> List.filter (matches (filter s)) tbl) → r0 ∈ tbl → matches (filter s) r0 = true →
  caught_up (ingestForward cfg (queryRecent (filter s) (BackfillPage cfg) tbl) s).2 tbl ∧
  filter (ingestForward cfg (queryRecent (filter s) (BackfillPage cfg) tbl) s).2 = filter s.
Proof.
  intros Hd Hring Hn Hnd Hr0 Hm0. destruct (recent_page _ _ _ Hn) as (Hs & Hin & Hmax).
  assert (Hndp : NoDup (row_key <$> queryRecent (filter s) (BackfillPage cfg) tbl)).
  { apply take_reverse_NoDup. by rewrite merge_sort_Permutation. }
  destruct (queryRecent (filter s) (BackfillPage cfg) tbl) as [|r rows] eqn:Hpage.
  { exfalso. apply (not_elem_of_nil r0). apply Hmax; [done..|]. intros r' Hr'. by apply not_elem_of_nil in Hr'. }
  rewrite ingest_first by done. set (s1 := set_tail (MkCursor (l_time r) (c_seq (cursor s)) true) ∅ (fwdBoot s) s).
  apply StronglySorted_inv in Hs as Hs'. destruct Hs' as [_ Hr].
  destruct (ingestForward_spec cfg (r :: rows) s1) as (_ & _ & _ & Hf & Hd' & _ & Hall & Hk); [done|done|done| |done|].
  { constructor; [cbn; lia|]. done. }
  split; [|done]. split; [done|]. rewrite Hf. change (filter s1) with (filter s).
  assert (Hle : ∀ x, x ∈ tbl → matches (filter s) x = true → l_time x ≤ c_time (cursor (ingestForward cfg (r :: rows) s1).2)).
  { intros x Hx Hm. destruct (Z.le_gt_cases (l_time x) (c_time (cursor (ingestForward cfg (r :: rows) s1).2))) as [|Hgt]; [done|].
    apply Hall, Hmax; [done..|]. intros r' Hr'. specialize (Hall r' Hr'). lia. }
  split; [done|]. intros k. rewrite Hk. split.
  - intros [[_ He]|(x & Hx & Ht & <-)]; [by apply elem_of_empty in He|].
    destruct (Hin x Hx) as [? ?]. eauto.
  - intros (x & Hx & Hm & Ht & <-). right. exists x. split; [|done]. apply Hmax; [done..|].
    intros r' Hr'. specialize (Hall r' Hr'). lia.
Qed.

(** A prime that succeeds has caught up: with the newest page larger than
    any one second of matching rows, what it leaves holds exactly the newest
    second, so the forward polls that follow miss nothing. *)
Theorem prime_catches_up cfg collate s tbl out r0 :
  HasData (cursor s) = false → zlen (ring s) ≤ ring_limit cfg →
  (∀ t, zlen (List.filter (λ r, matches (filter s) r && (l_time r =? t)) tbl) ≤ BackfillPage cfg) →
  NoDup (row_key <$> List.filter (matches (filter s)) tbl) → r0 ∈ tbl → matches (filter s) r0 = true →
  let r := prime cfg collate (MkWorld s tbl out) [] in
  r.1.1 = Ok tt ∧ primed (store r.1.2) = true ∧ caught_up (store r.1.2) tbl ∧ filter (store r.1.2) = filter s.
Proof.
  intros Hd Hring Hn Hnd Hr0 Hm0. pose proof (caught_up_prime cfg s tbl r0 Hd Hring Hn Hnd Hr0 Hm0) as [Hcu Hf].
  unfold prime, the_store, read, query, stmt, modify, update, emit, attempt, mbind, M_bind.
  cbn [store table sent].
  destruct (ingestForward cfg (queryRecent (filter s) (BackfillPage cfg) tbl) s) as [n s'] eqn:Hi.
  by cbn [store table sent fst snd].
Qed.

(** ** A running tail *)

Definition ex_cfg : Config :=
  MkConfig "|" 3 4 4 3 100 [] [] true "-- {from} to {to} --" true "?" 5 40.
Definition ex_row (t : Z) (serial : string) (boot : Z) (off : Z) (payload : string) : log_row :=
  MkLog t serial (Some boot) None (Some off) payload "device" false false 0.
Definition ex_table : list log_row := [ex_row 10 "A" 1 0 "up|wifi|"; ex_row 11 "B" 4 0 "on"].
Definition ex_news : list log_row := [ex_row 12 "A" 2 0 "again"; ex_row 11 "B" 4 7 "more|lines"].
Definition ex_tail : logStore := (ingestForward ex_cfg (queryRecent (MkFilter [] []) 4 ex_table) (newLogStore ex_cfg)).2.

Lemma ex_caught_up : caught_up ex_tail ex_table.
Proof.
  apply (caught_up_prime ex_cfg (newLogStore ex_cfg) ex_table (ex_row 11 "B" 4 0 "on")); [done|done| | |by right; left|done].
  - intros t. etrans; [apply Thumbnail.length_filter_le|]. vm_compute. discriminate.
  - apply (bool_decide_unpack _). vm_compute. exact I.
Qed.

Lemma tail_exactly_once_witness :
  ∃ rows s', rows ≡ₚ List.filter (matches (filter ex_tail)) ex_news ∧ StronglySorted in_time rows ∧
    ring s' = trim_ring ex_cfg (ring ex_tail ++ (parse_rows ex_cfg rows (fwdBoot ex_tail)).1) ∧
    caught_up s' (ex_table ++ ex_news) ∧
    forward ex_cfg (MkWorld ex_tail (ex_table ++ ex_news) []) [] =
      (Ok tt, MkWorld s' (ex_table ++ ex_news)
         ([] ++ (if 0 <? zlen (parse_rows ex_cfg rows (fwdBoot ex_tail)).1
                 then [logRowsMsg (zlen (parse_rows ex_cfg rows (fwdBoot ex_tail)).1) (cursor s')] else [])), []).
Proof.
  apply (tail_exactly_once ex_cfg ex_tail ex_table ex_news []).
  - exact ex_caught_up.
  - vm_compute. discriminate.
  - apply (Forall_forall (λ r, matches (filter ex_tail) r = true → c_time (cursor ex_tail) ≤ l_time r)).
    repeat constructor; intros _; vm_compute; discriminate.
  - apply (bool_decide_unpack _). vm_compute. exact I.
  - vm_compute. discriminate.
Defined.

Lemma tail_stalls_witness :
  forward (MkConfig "|" 3 1 4 3 100 [] [] true "" true "?" 5 40)
    (MkWorld ex_tail (ex_table ++ [ex_row 12 "A" 2 0 "again"]) []) [] =
  (Ok tt, MkWorld ex_tail (ex_table ++ [ex_row 12 "A" 2 0 "again"]) [], []).
Proof.
  apply tail_stalls.
  - exact ex_caught_up.
  - vm_compute. discriminate.
  - vm_compute. discriminate.
  - intros r Hr. apply list_elem_of_singleton in Hr as ->. vm_compute. reflexivity.
Defined.

Definition collate (a b : string) : bool := String.leb a b.
Lemma prime_catches_up_witness :
  let r := prime ex_cfg collate (MkWorld (newLogStore ex_cfg) ex_table []) [] in
  r.1.1 = Ok tt ∧ primed (store r.1.2) = true ∧ caught_up (store r.1.2) ex_table ∧
  filter (store r.1.2) = filter (newLogStore ex_cfg).
Proof.
  apply (prime_catches_up ex_cfg collate (newLogStore ex_cfg) ex_table [] (ex_row 11 "B" 4 0 "on"));
    [done|done| | |by right; left|done].
  - intros t. etrans; [apply Thumbnail.length_filter_le|]. vm_compute. discriminate.
  - apply (bool_decide_unpack _). vm_compute. exact I.
Defined.

Lemma ring_bounded_witness : zlen (ring (store (MkWorld (newLogStore ex_cfg) ex_table []))) ≤ Z.max 1 (LiveRingLines ex_cfg).
Proof. apply (ring_bounded ex_cfg collate ex_table). apply reach_new. Defined.

Definition ex_full : logStore := set_history (Some 11) true false 0 ex_tail.
Lemma backfill_when_full_witness :
  let rows := queryBackfill (filter ex_full) 11 (BackfillPage ex_cfg) ex_table in
  let r := doBackfill ex_cfg (MkWorld ex_full ex_table []) [] in
  ring (store r.1.2) = ring ex_full ∧
  ∃ x, sent r.1.2 = [] ++ [logBackfillMsg (zlen (parse_rows ex_cfg rows newBootTracker).1) x].
Proof. by apply backfill_when_full. Defined.

Lemma backoff_doubles_witness : backoff_after ex_cfg 3 = Z.min (5 * 2 ^ 2) 40.
Proof. by apply (backoff_doubles ex_cfg 2). Defined.

(** Two devices that log the same text at the same offset in one second: the
    de-dup key does not name the device, and the second row is dropped. *)
Theorem twin_rows_lost :
  let twins := [ex_row 12 "A" 1 0 "boot"; ex_row 12 "B" 1 0 "boot"] in
  Serial <$> ring (ingestForward ex_cfg twins (newLogStore ex_cfg)).2 = ["A"%string].
Proof. reflexivity. Qed.
End OpsLogsLaws.
