(* ===== verification/OpsOta.v ===== *)
(** * The console's OTA axis ([tools/picpak-ops/internal/ota])

    The predicted resolver, the device view, the artifact scan, the two write
    backends and the pane with its forms. The database is the backend's tables
    with the two columns only the console writes (pinned, notes). *)

From S2P Require Import Prelude GoLib Crypto Db AdminGate GoText Rollout.
Import GoLib Crypto GoText.

Module OpsOta.

(** ** The snapshot (ota.go) *)

Record FirmwareVersion := MkVersion {
  v_version : string; v_sha256 : string; v_blob_path : string; v_size : Z; v_notes : string; v_created : Z }.
Record Channel := MkChannel { c_name : string; DefaultVersion : string }.
Record RolloutRow := MkRollout {
  ID : Z; Serial : string; ChannelName : string; Version : string; State : string; Pinned : bool; UpdatedAt : Z }.
Record DeviceInfo := MkInfo {
  i_serial : string; i_label : string; i_channel : string; RunningVer : string; i_last_seen : Z; HasReport : bool }.
Record ResolvedTarget := MkResolved { r_version : string; r_source : string }.
Record DeviceOTA := MkDevice { info : DeviceInfo; Resolved : ResolvedTarget; d_rollout : option RolloutRow; Behind : bool }.
Record OTAState := MkState {
  Versions : list FirmwareVersion; Channels : list Channel; Rollouts : list RolloutRow; Devices : list DeviceOTA }.

Definition sha_digit (c : Z) : bool := is_digit c || ((97 <=? c) && (c <=? 102)).
Definition ValidSHA256 (s : string) : bool :=
  let b := bytes_of_string s in (zlen b =? 64) && forallb sha_digit b.
Definition StateActive : string := "active".
Definition StatePaused : string := "paused".
Definition StateDone : string := "done".
Definition ValidState (s : string) : bool :=
  bool_decide (s = StateActive) || bool_decide (s = StatePaused) || bool_decide (s = StateDone).

(** ** The predicted resolver (resolve.go) *)

Definition DefaultPrecedence : list string := ["pinned-serial"; "serial"; "channel"; "default"]%string.
Definition qualifies (serial channel : string) (requirePinned : bool) (r : RolloutRow) : bool :=
  bool_decide (Serial r = serial) && bool_decide (ChannelName r = channel) &&
  bool_decide (State r = StateActive) && (negb requirePinned || Pinned r).
Definition findActiveRollout (rollouts : list RolloutRow) (serial channel : string) (requirePinned : bool) : option RolloutRow :=
  find_first (qualifies serial channel requirePinned) rollouts.
Definition resolveStep (step : string) (dev : DeviceInfo) (rollouts : list RolloutRow) (channels : list Channel) : option string :=
  if bool_decide (step = "pinned-serial"%string) then Version <$> findActiveRollout rollouts (i_serial dev) (i_channel dev) true
  else if bool_decide (step = "serial"%string) then Version <$> findActiveRollout rollouts (i_serial dev) (i_channel dev) false
  else if bool_decide (step = "channel"%string) then Version <$> findActiveRollout rollouts "*" (i_channel dev) false
  else if bool_decide (step = "default"%string) then
    DefaultVersion <$> find_first (λ c, bool_decide (c_name c = i_channel dev) && negb (bool_decide (DefaultVersion c = ""%string))) channels
  else None.
Fixpoint walk (precedence : list string) (dev : DeviceInfo) (rollouts : list RolloutRow) (channels : list Channel) : ResolvedTarget :=
  match precedence with
  | [] => MkResolved "" "none"
  | step :: rest =>
      match resolveStep step dev rollouts channels with
      | Some v => if bool_decide (v = ""%string) then walk rest dev rollouts channels else MkResolved v step
      | None => walk rest dev rollouts channels
      end
  end.
Definition Resolve (dev : DeviceInfo) (rollouts : list RolloutRow) (channels : list Channel) (precedence : list string) : ResolvedTarget :=
  walk (if bool_decide (precedence = []) then DefaultPrecedence else precedence) dev rollouts channels.
Definition matchRollout (rollouts : list RolloutRow) (serial channel : string) : option RolloutRow :=
  find_first (λ r, bool_decide (Serial r = serial) && bool_decide (ChannelName r = channel)) rollouts.

(** The insertion sort: [x] bubbles down the rows before it, last first. *)
Fixpoint bubble (x : DeviceOTA) (before : list DeviceOTA) : list DeviceOTA :=
  match before with
  | y :: before' => if String.ltb (i_serial (info x)) (i_serial (info y)) then y :: bubble x before' else x :: before
  | [] => [x]
  end.
Definition sortDevicesBySerial (rows : list DeviceOTA) : list DeviceOTA := reverse (foldl (λ acc x, bubble x acc) [] rows).
Definition behind (d : DeviceInfo) (t : ResolvedTarget) : bool :=
  HasReport d && negb (bool_decide (RunningVer d = ""%string)) && negb (bool_decide (r_version t = ""%string)) &&
  negb (bool_decide (RunningVer d = r_version t)).
Definition BuildDeviceOTA (devices : list DeviceInfo) (state : OTAState) (precedence : list string) : list DeviceOTA :=
  sortDevicesBySerial ((λ d,
    let t := Resolve d (Rollouts state) (Channels state) precedence in
    MkDevice d t (matchRollout (Rollouts state) (i_serial d) (i_channel d)) (behind d t)) <$> devices).

(** ** Devices of the cache and of telemetry (cmds.go, fleet/cache.go) *)

(** A cached device row: no last_seen is Go's zero time, [None] here. *)
Record CachedDevice := MkCached { k_serial : string; k_channel : string; k_label : string; k_last_seen : option Z }.
Record FleetRow := MkFleetRow { f_serial : string; f_time : Z; f_running : string; f_channel : string }.
Definition zero_time : Z := -62135596800.
Definition from_cache (d : CachedDevice) : DeviceInfo :=
  MkInfo (k_serial d) (k_label d) (k_channel d) "" (default zero_time (k_last_seen d)) (bool_decide (is_Some (k_last_seen d))).
Definition with_report (m : gmap string DeviceInfo) (r : FleetRow) : gmap string DeviceInfo :=
  let di := default (MkInfo (f_serial r) "" (f_channel r) "" zero_time false) (m !! f_serial r) in
  <[f_serial r := MkInfo (i_serial di) (i_label di)
      (if bool_decide (i_channel di = ""%string) then f_channel r else i_channel di) (f_running r)
      (if i_last_seen di <? f_time r then f_time r else i_last_seen di) true]> m.
(** The map's rows; Go visits them in no fixed order. *)
Definition mergeDeviceInfos (cached : list CachedDevice) (rows : list FleetRow) : list DeviceInfo :=
  (map_to_list (foldl with_report (foldl (λ m d, <[k_serial d := from_cache d]> m) ∅ cached) rows)).*2.

(** ** The artifact scan (artifact.go) *)

Record ScanCfg := MkScan {
  b_host : string; RepoPath : string; ArtifactDir : string; Artifacts : list (string * string);
  FWArtifactName : string; VersionFile : string }.
Record FirmwareArtifact := MkArtifact { a_version : string; a_sha256 : string; a_size : Z; a_path : string }.
Inductive ota_err :=
| ENoArtifact | EReadVersion | EEmptyVersion | EStat | EHash | EBadScan | EReadBlob
| ErrBadSHA | ErrVersionExists | ErrSHAMismatch | ErrUnknownRef | ErrBadState | ErrWritesDisabled
| EBegin | ECommit | EPlace | EPg | ENoPool | ERequest | EHttp (code : Z) (body : string).
#[global] Instance ota_err_eq_dec : EqDecision ota_err.
Proof. solve_decision. Defined.

Definition resolveUnder (base p : string) : string :=
  if bool_decide (p = ""%string) then base else if IsAbs p then p else Join base p.
Definition artifactFile (artifacts : list (string * string)) (name : string) : option string :=
  snd <$> find_first (λ a, bool_decide (a.1 = name)) artifacts.
(** [filepath.Abs] in the working directory. *)
Definition Abs (cwd p : string) : string :=
  if IsAbs p then string_of_bytes (clean (bytes_of_string p)) else Join cwd p.
Definition sha256File (content : bytes) : string := string_of_bytes (hex_encode (sha256 content)).
(** The tree as it is at each of the three reads. *)
Definition ScanArtifact (cwd : string) (cfg : ScanCfg) (read_version stat_app hash_app : string → option bytes)
    : result ota_err FirmwareArtifact :=
  let local := bool_decide (b_host cfg = ""%string) || bool_decide (b_host cfg = "local"%string) in
  let repo := if local then Abs cwd (RepoPath cfg) else RepoPath cfg in
  match artifactFile (Artifacts cfg) (FWArtifactName cfg) with
  | None => Err ENoArtifact
  | Some appFile =>
      let appPath := resolveUnder (resolveUnder repo (ArtifactDir cfg)) appFile in
      match read_version (resolveUnder repo (VersionFile cfg)) with
      | None => Err EReadVersion
      | Some raw =>
          let version := TrimSpace (string_of_bytes raw) in
          if bool_decide (version = ""%string) then Err EEmptyVersion
          else match stat_app appPath with
          | None => Err EStat
          | Some content =>
              match hash_app appPath with
              | None => Err EHash
              | Some hashed =>
                  let sum := sha256File hashed in
                  if negb (ValidSHA256 sum) then Err EBadScan
                  else Ok (MkArtifact version sum (zlen content) appPath)
              end
          end
      end
  end.

(** ** The database the direct backend writes *)

Record ota_db := MkDb {
  core : Rollout.tables; pinned_ids : gset Z; fw_notes : gmap string string; serving : gmap string bytes }.
Definition set_core c (d : ota_db) : ota_db := MkDb c (pinned_ids d) (fw_notes d) (serving d).

(** [Load]: the three reads, text ordered by the database's collation. A
    channel without default reads as the empty text. *)
Definition row_of (d : ota_db) (t : Rollout.Target) : RolloutRow :=
  MkRollout (Rollout.t_id t) (Rollout.t_serial t) (Rollout.t_channel t) (Rollout.t_version t) (Rollout.t_state t)
    (bool_decide (Rollout.t_id t ∈ pinned_ids d)) (Rollout.t_updated t).
Definition version_of (d : ota_db) (p : string * Rollout.fw_row) : FirmwareVersion :=
  MkVersion p.1 (Rollout.sha256_ p.2) (Rollout.blob_path p.2) (Rollout.size_bytes p.2)
    (default ""%string (fw_notes d !! p.1)) (Rollout.created p.2).
Definition channel_of (p : string * option string) : Channel := MkChannel p.1 (default ""%string p.2).
Section Load.
Context (collate : string → string → bool).
Definition version_order (a b : FirmwareVersion) : Prop :=
  Is_true ((v_created b <? v_created a) || ((v_created a =? v_created b) && collate (v_version a) (v_version b))).
Definition channel_order (a b : Channel) : Prop := Is_true (collate (c_name a) (c_name b)).
Definition rollout_order (a b : RolloutRow) : Prop :=
  Is_true (collate (ChannelName a) (ChannelName b) &&
           (negb (collate (ChannelName b) (ChannelName a)) || collate (Serial a) (Serial b))).
#[global] Instance version_order_dec : RelDecision version_order. Proof. intros ??. apply _. Defined.
#[global] Instance channel_order_dec : RelDecision channel_order. Proof. intros ??. apply _. Defined.
#[global] Instance rollout_order_dec : RelDecision rollout_order. Proof. intros ??. apply _. Defined.
Definition versions_of (d : ota_db) : list FirmwareVersion :=
  merge_sort version_order (version_of d <$> map_to_list (Rollout.firmware_versions (core d))).
Definition channels_of (d : ota_db) : list Channel :=
  merge_sort channel_order (channel_of <$> map_to_list (Rollout.channels (core d))).
Definition rollouts_of (d : ota_db) : list RolloutRow :=
  merge_sort rollout_order (row_of d <$> Rollout.rollout_targets (core d)).
Definition Load : M ota_db ota_err OTAState :=
  vs ← query EPg (λ d, Ok (versions_of d));
  cs ← query EPg (λ d, Ok (channels_of d));
  rs ← query EPg (λ d, Ok (rollouts_of d));
  mret (MkState vs cs rs []).
End Load.

(** ** The direct backend (writer_pgx.go) *)

Record RegisterFirmware := MkRegister {
  g_version : string; g_sha256 : string; g_size : Z; g_notes : string; g_blob : bytes; g_blob_path : string }.
Record PinRollout := MkPin { p_serial : string; p_channel : string; p_version : string; p_pinned : bool }.

Definition placeBlob (r : RegisterFirmware) : M (Tx ota_db) ota_err string :=
  let blobPath := if bool_decide (g_blob_path r = ""%string) then Join (g_version r) "firmware.bin" else g_blob_path r in
  if bool_decide (g_blob r = []) || negb (IsAbs blobPath) then mret blobPath
  else
    _ ← stmt EPlace (λ t, (Ok tt, t));
    (* the file is outside the transaction: a rollback leaves it *)
    _ ← stmt EPlace (λ t, let put d := MkDb (core d) (pinned_ids d) (fw_notes d) (<[blobPath := g_blob r]> (serving d)) in
                          (Ok tt, MkTx (put (tx_committed t)) (put (tx_work t))));
    mret blobPath.
(** CHECK, then the primary key. *)
Definition insertFirmware (now : Z) (r : RegisterFirmware) (blobPath : string) (d : ota_db) : result ota_err unit * ota_db :=
  if (31 <? Rollout.char_length (g_version r)) || negb (ValidSHA256 (g_sha256 r)) then (Err ErrSHAMismatch, d)
  else if bool_decide (is_Some (Rollout.firmware_versions (core d) !! g_version r)) then (Err ErrVersionExists, d)
  else (Ok tt, MkDb (Rollout.set_firmware (insert (g_version r) (Rollout.MkFw (g_sha256 r) blobPath (g_size r) now)) (core d))
                 (pinned_ids d)
                 (if bool_decide (g_notes r = ""%string) then delete (g_version r) (fw_notes d) else <[g_version r := g_notes r]> (fw_notes d))
                 (serving d)).
Definition registerFirmware (now : Z) (r : RegisterFirmware) : M (Tx ota_db) ota_err unit :=
  if negb (ValidSHA256 (g_sha256 r)) then throw ErrBadSHA
  else
    blobPath ← placeBlob r;
    tx_stmt EPg (insertFirmware now r blobPath).
(** [inTx]: begin, work, commit or roll back. *)
Definition inTx (fn : M (Tx ota_db) ota_err unit) : M ota_db ota_err unit :=
  with_tx EBegin (_ ← fn; commit ECommit).
Definition DirectRegister (now : Z) (r : RegisterFirmware) : M ota_db ota_err unit := inTx (registerFirmware now r).

Definition DirectSetChannelDefault (channel version : string) : M ota_db ota_err unit := inTx (
  found ← tx_stmt EPg (λ d,
    match Rollout.channels (core d) !! channel with
    | None => (Ok false, d)
    | Some _ =>
        if bool_decide (is_Some (Rollout.firmware_versions (core d) !! version))
        then (Ok true, set_core (Rollout.set_channels (insert channel (Some version)) (core d)) d)
        else (Err ErrUnknownRef, d)
    end);
  if found : bool then mret tt else throw ErrUnknownRef).

Definition upsertRollout (now : Z) (r : PinRollout) (d : ota_db) : result ota_err unit * ota_db :=
  match Rollout.upsert_target now (p_serial r) (p_channel r) (p_version r) (core d) with
  | (Ok id, c) =>
      (Ok tt, MkDb c (if p_pinned r then {[id]} ∪ pinned_ids d else pinned_ids d ∖ {[id]}) (fw_notes d) (serving d))
  | (Err _, _) => (Err ErrUnknownRef, d)
  end.
Definition DirectPin (now : Z) (r : PinRollout) : M ota_db ota_err unit := inTx (tx_stmt EPg (upsertRollout now r)).

Definition DirectSetState (now id : Z) (state : string) : M ota_db ota_err unit :=
  if negb (ValidState state) then throw ErrBadState
  else inTx (
    found ← tx_stmt EPg (λ d,
      (Ok (existsb (λ t, Rollout.t_id t =? id) (Rollout.rollout_targets (core d))),
       set_core (Rollout.set_targets ((λ t, if Rollout.t_id t =? id
                   then Rollout.MkTarget id (Rollout.t_serial t) (Rollout.t_channel t) (Rollout.t_version t) state now else t)
                 <$> Rollout.rollout_targets (core d)) (Rollout.next_id (core d)) (core d)) d));
    if found : bool then mret tt else throw ErrUnknownRef).

(** The write interface, served by the direct backend. *)
Inductive write :=
| WRegister (r : RegisterFirmware) | WSetChannelDefault (channel version : string)
| WPin (r : PinRollout) | WSetState (id : Z) (state : string).
Definition direct (now : Z) (w : write) : M ota_db ota_err unit :=
  match w with
  | WRegister r => DirectRegister now r
  | WSetChannelDefault channel version => DirectSetChannelDefault channel version
  | WPin r => DirectPin now r
  | WSetState id state => DirectSetState now id state
  end.

(** ** The HTTP backend (writer_api.go)

    [client] is the HTTP client: the status and the body, or no answer. *)

Inductive json := JText (s : string) | JBool (b : bool).
Inductive payload := Json (fields : list (string * json)) | Form (fields : list (string * string)) (blob : bytes).
Record request := MkRequest { method : string; url : string; bearer : option string; body : payload }.
Record AdminAPI := MkApi { baseURL : string; token : string }.
Definition NewAdminAPIWriter (url tok : string) : AdminAPI :=
  MkApi (string_of_bytes (trim_right (bytes_of_string url) 47)) tok.
Definition pathSeg (s : string) : string := ReplaceAll s "/" "%2F".
(** The error text of the answer's body, empty when it has none. *)
Definition mapStatus (error_of : bytes → string) (code : Z) (body : bytes) : result ota_err unit :=
  if (200 <=? code) && (code <? 300) then Ok tt
  else if code =? 409 then Err ErrVersionExists
  else if code =? 422 then Err ErrSHAMismatch
  else if code =? 404 then Err ErrUnknownRef
  else Err (EHttp code (if bool_decide (body = []) then "" else error_of (take 4096 body))).
Section Api.
Context (error_of : bytes → string) (client : request → option (Z * bytes)) (w : AdminAPI).
Definition do_request (m path : string) (b : payload) : result ota_err unit :=
  match client (MkRequest m (baseURL w ++ path)
                  (if bool_decide (token w = ""%string) then None else Some ("Bearer " ++ token w)%string) b) with
  | None => Err ERequest
  | Some (code, reply) => mapStatus error_of code reply
  end.
Definition ApiRegister (r : RegisterFirmware) : result ota_err unit :=
  if negb (ValidSHA256 (g_sha256 r)) then Err ErrBadSHA
  else do_request "POST" "/admin/firmware"
    (Form [("version", g_version r); ("sha256", g_sha256 r); ("size_bytes", format_int (g_size r)); ("notes", g_notes r)]%string (g_blob r)).
Definition ApiSetChannelDefault (channel version : string) : result ota_err unit :=
  do_request "PUT" ("/admin/channels/" ++ pathSeg channel) (Json [("default_version"%string, JText version)]).
Definition ApiPin (r : PinRollout) : result ota_err unit :=
  do_request "POST" "/admin/rollouts"
    (Json [("serial", JText (p_serial r)); ("channel", JText (p_channel r)); ("version", JText (p_version r)); ("pinned", JBool (p_pinned r))]%string).
Definition ApiSetState (id : Z) (state : string) : result ota_err unit :=
  if negb (ValidState state) then Err ErrBadState
  else do_request "PATCH" ("/admin/rollouts/" ++ format_int id) (Json [("state"%string, JText state)]).
Definition api (r : write) : result ota_err unit :=
  match r with
  | WRegister r => ApiRegister r
  | WSetChannelDefault channel version => ApiSetChannelDefault channel version
  | WPin r => ApiPin r
  | WSetState id state => ApiSetState id state
  end.
End Api.

(** ** The choice of backend (writer.go) *)

Record OtaCfg := MkOtaCfg {
  AllowDirectWrite : bool; AdminAPIURL : string; AdminAPIToken : string; DefaultChannel : string;
  ResolvePrecedence : list string; RefreshInterval : Z; BlobDir : string; BlobFilename : string; FleetMaxDevices : Z }.
Inductive Writer := Direct | Api (a : AdminAPI).
Definition IsDirect (w : Writer) : bool := match w with Direct => true | Api _ => false end.
Definition NewWriter (cfg : OtaCfg) (pool : bool) : result ota_err (option Writer) :=
  if AllowDirectWrite cfg then if pool then Ok (Some Direct) else Err ENoPool
  else if bool_decide (AdminAPIURL cfg = ""%string) then Ok None
  else Ok (Some (Api (NewAdminAPIWriter (AdminAPIURL cfg) (AdminAPIToken cfg)))).
(** [filepath.Join] of several elements. *)
Definition join_paths (l : list string) : string :=
  match List.filter (λ b, negb (bool_decide (b = []))) (bytes_of_string <$> l) with
  | [] => ""
  | bs => string_of_bytes (clean (join bs [47]))
  end.
Definition blobPathFor (blobDir blobName version : string) : string :=
  let blobName := if bool_decide (blobName = ""%string) then "firmware.bin"%string else blobName in
  if bool_decide (blobDir = ""%string) then join_paths [version; blobName] else join_paths [blobDir; version; blobName].
Definition register_request (cfg : OtaCfg) (art : FirmwareArtifact) (version notes : string) (blob : bytes) : RegisterFirmware :=
  MkRegister version (a_sha256 art) (a_size art) notes blob (blobPathFor (BlobDir cfg) (BlobFilename cfg) version).
End OpsOta.
