(* ===== verification/OpsOtaPane.v ===== *)
(** * The OTA pane ([tools/picpak-ops/internal/ota]: model.go, update.go, cmds.go)

    The pane is touched only on the message loop: one [Update] per message,
    which returns the commands to run. The text inputs are the library's, here
    any implementation of the operations the pane calls. *)

From S2P Require Import Prelude GoLib GoText OpsOta.
Import GoLib GoText OpsOta.

Module OpsOtaPane.

(** [textinput.Model]. *)
Class TextInput := {
  input : Type; newInput : string → string → input; Value : input → string; SetValue : string → input → input;
  Focus : input → input; Blur : input → input; Edit : string → input → input }.

Inductive formKind := formRegister | formPin | formChannel.
Inductive activeTable := tableVersions | tableDevices.
Record otaKeys := MkKeys {
  k_register : string; k_pin : string; k_unpin : string; k_setChannel : string; k_toggleState : string;
  k_markDone : string; k_refresh : string; k_switchTable : string }.
Definition resolveKeys (m : gmap string (list string)) : otaKeys :=
  let first action := match m !! action with Some (v :: _) => v | _ => ""%string end in
  MkKeys (first "register") (first "pin") (first "unpin") (first "set_channel") (first "toggle_state") (first "mark_done")
    (first "refresh") (first "switch_table").

Inductive cmd :=
| CTick | CLoad (precedence : list string) (cap : Z) | CScan
| CRegister (art : FirmwareArtifact) (version notes : string)
| CSetChannel (channel version : string) | CPin (r : PinRollout) | CSetState (id : Z) (state : string).
Definition is_write (c : cmd) : bool :=
  match c with CTick | CLoad _ _ | CScan => false | _ => true end.

Definition clamp (v lo hi : Z) : Z := if v <? lo then lo else if hi <? v then hi else v.
Definition max0 (v : Z) : Z := if v <? 0 then 0 else v.

Section Pane.
Context {TI : TextInput} (err_text : ota_err → string).

Record formField := MkField { label : string; f_input : input }.
Record formState := MkForm {
  kind : formKind; title : string; f_info : string; fields : list formField; focus : Z;
  art : option FirmwareArtifact; errMsg : string; scanning : bool }.
Record otaPane := MkPane {
  store : bool; writer : option Writer; cfg : OtaCfg; fleetCap : Z; precedence : list string; keys : otaKeys;
  state : OTAState; verCur : Z; devCur : Z; active : activeTable; lastLoad : option Z; loadErr : option ota_err;
  form : option formState; inFlight : bool; forceLoad : bool; lastLoadAt : option Z;
  pendingWrite : bool; dirty : bool; status : string; focused : bool }.

Inductive msg :=
| tickMsg | otaStateMsg (s : OTAState) (at_ : Z) | otaErrMsg (e : ota_err)
| fwArtifactScannedMsg (r : result ota_err FirmwareArtifact)
| writeResultMsg (what : string) (r : option ota_err)
| SpawnArgsMsg (serial : string) | ConfigChangedMsg (c : option (OtaCfg * gmap string (list string)))
| KeyPressMsg (k : string).

Definition upd (p : otaPane) (st : OTAState) (cur : Z * Z) (tbl : activeTable) (ll : option Z) (le : option ota_err)
    (fl : bool * bool * option Z) : otaPane :=
  MkPane (store p) (writer p) (cfg p) (fleetCap p) (precedence p) (keys p) st cur.1 cur.2 tbl ll le (form p)
    fl.1.1 fl.1.2 fl.2 (pendingWrite p) (dirty p) (status p) (focused p).
Definition set_form f (p : otaPane) : otaPane :=
  MkPane (store p) (writer p) (cfg p) (fleetCap p) (precedence p) (keys p) (state p) (verCur p) (devCur p) (active p)
    (lastLoad p) (loadErr p) f (inFlight p) (forceLoad p) (lastLoadAt p) (pendingWrite p) (dirty p) (status p) (focused p).
Definition set_status s (p : otaPane) : otaPane :=
  MkPane (store p) (writer p) (cfg p) (fleetCap p) (precedence p) (keys p) (state p) (verCur p) (devCur p) (active p)
    (lastLoad p) (loadErr p) (form p) (inFlight p) (forceLoad p) (lastLoadAt p) (pendingWrite p) (dirty p) s (focused p).
Definition set_badges w d (p : otaPane) : otaPane :=
  MkPane (store p) (writer p) (cfg p) (fleetCap p) (precedence p) (keys p) (state p) (verCur p) (devCur p) (active p)
    (lastLoad p) (loadErr p) (form p) (inFlight p) (forceLoad p) (lastLoadAt p) w d (status p) (focused p).
Definition set_inFlight b (p : otaPane) : otaPane :=
  upd p (state p) (verCur p, devCur p) (active p) (lastLoad p) (loadErr p) (b, forceLoad p, lastLoadAt p).
Definition set_cursor v d t (p : otaPane) : otaPane :=
  upd p (state p) (v, d) t (lastLoad p) (loadErr p) (inFlight p, forceLoad p, lastLoadAt p).
Definition set_focus b f (p : otaPane) : otaPane :=
  MkPane (store p) (writer p) (cfg p) (fleetCap p) (precedence p) (keys p) (state p) (verCur p) (devCur p) (active p)
    (lastLoad p) (loadErr p) (form p) (inFlight p) f (lastLoadAt p) (pendingWrite p) (dirty p) (status p) b.
Definition markDirty (p : otaPane) : otaPane := if focused p then p else set_badges (pendingWrite p) true p.

(** ** Cursors and selection *)

Definition clampCursors (p : otaPane) : otaPane :=
  set_cursor (clamp (verCur p) 0 (max0 (zlen (Versions (state p)) - 1)))
    (clamp (devCur p) 0 (max0 (zlen (Devices (state p)) - 1))) (active p) p.
Definition moveCursor (delta : Z) (p : otaPane) : otaPane :=
  match active p with
  | tableVersions => set_cursor (clamp (verCur p + delta) 0 (max0 (zlen (Versions (state p)) - 1))) (devCur p) (active p) p
  | tableDevices => set_cursor (verCur p) (clamp (devCur p + delta) 0 (max0 (zlen (Devices (state p)) - 1))) (active p) p
  end.
Definition toggleTable (p : otaPane) : otaPane :=
  set_cursor (verCur p) (devCur p) (match active p with tableVersions => tableDevices | tableDevices => tableVersions end) p.
Definition selectedDevice (p : otaPane) : option DeviceOTA :=
  if (devCur p <? 0) || (zlen (Devices (state p)) <=? devCur p) then None else Devices (state p) !! Z.to_nat (devCur p).
Fixpoint index_of_serial (serial : string) (i : Z) (l : list DeviceOTA) : option Z :=
  match l with
  | [] => None
  | d :: l => if bool_decide (i_serial (info d) = serial) then Some i else index_of_serial serial (i + 1) l
  end.
Definition selectDeviceBySerial (serial : string) (p : otaPane) : otaPane :=
  match index_of_serial serial 0 (Devices (state p)) with
  | Some i => set_cursor (verCur p) i tableDevices p
  | None => p
  end.

(** ** Loading *)

Definition issueLoad (now : Z) (p : otaPane) : otaPane * list cmd :=
  (upd p (state p) (verCur p, devCur p) (active p) (lastLoad p) (loadErr p) (true, false, Some now),
   [CLoad (precedence p) (fleetCap p)]).
Definition currentInterval (p : otaPane) : Z :=
  if 0 <? RefreshInterval (cfg p) then RefreshInterval (cfg p) else 30 * 1000000000.
Definition Init (now : Z) (p : otaPane) : otaPane * list cmd :=
  if store p then let '(p, cs) := issueLoad now p in (p, cs ++ [CTick]) else (p, []).
Definition onTick (now : Z) (p : otaPane) : otaPane * list cmd :=
  if negb (store p) then (p, [])
  else
    let due := forceLoad p || match lastLoadAt p with None => true | Some t => currentInterval p <=? now - t end in
    if due && negb (inFlight p) then let '(p, cs) := issueLoad now p in (p, CTick :: cs) else (p, [CTick]).

(** ** Forms *)

Definition value (f : formState) (l : string) : string :=
  match find_first (λ x, bool_decide (label x = l)) (fields f) with Some x => Value (f_input x) | None => "" end.
Definition set_fields fs fo (f : formState) : formState :=
  MkForm (kind f) (title f) (f_info f) fs fo (art f) (errMsg f) (scanning f).
Definition set_error e (f : formState) : formState :=
  MkForm (kind f) (title f) (f_info f) (fields f) (focus f) (art f) e (scanning f).
Definition on_input (g : input → input) (x : formField) : formField := MkField (label x) (g (f_input x)).
Definition in_fields (f : formState) : bool := (0 <=? focus f) && (focus f <? zlen (fields f)).
Definition focusFormField (p : otaPane) : otaPane :=
  match form p with
  | Some f =>
      if negb (focused p) then p
      else let fs := on_input Blur <$> fields f in
           set_form (Some (set_fields (if in_fields f then alter (on_input Focus) (Z.to_nat (focus f)) fs else fs) (focus f) f)) p
  | None => p
  end.
Definition blurFormField (p : otaPane) : otaPane :=
  match form p with
  | Some f => set_form (Some (set_fields (on_input Blur <$> fields f) (focus f) f)) p
  | None => p
  end.
(** Indexing past the fields would panic; the focus never leaves them. *)
Definition formFocusDelta (d : Z) (p : otaPane) : otaPane :=
  match form p with
  | Some f =>
      if bool_decide (fields f = []) then p
      else
        let fs := alter (on_input Blur) (Z.to_nat (focus f)) (fields f) in
        let n := Z.rem (focus f + d + zlen (fields f)) (zlen (fields f)) in
        set_form (Some (set_fields (alter (on_input Focus) (Z.to_nat n) fs) n f)) p
  | None => p
  end.
Fixpoint set_first (l v : string) (fs : list formField) : list formField :=
  match fs with
  | [] => []
  | x :: fs => if bool_decide (label x = l) then on_input (SetValue v) x :: fs else x :: set_first l v fs
  end.

Definition disabled_text : string := "writes disabled — set ota.admin_api_url, or ota.allow_direct_write=true (needs read_only=false)".
Definition writeReady (p : otaPane) : bool := bool_decide (is_Some (IsDirect <$> writer p)).
Definition if_ready (p : otaPane) (k : otaPane → otaPane * list cmd) : otaPane * list cmd :=
  if writeReady p then k p else (set_status disabled_text p, []).
Definition field (l placeholder v : string) : formField := MkField l (newInput placeholder v).
Definition openRegister (p : otaPane) : otaPane * list cmd := if_ready p (λ p,
  (focusFormField (set_form (Some (MkForm formRegister "Register firmware" ""
     [field "version" "scanning…" ""; field "notes" "optional notes" ""] 0 None "" true)) p), [CScan])).
Definition openChannel (p : otaPane) : otaPane * list cmd := if_ready p (λ p,
  (focusFormField (set_form (Some (MkForm formChannel "Set channel default" ""
     [field "channel" "channel" (OpsOta.DefaultChannel (cfg p)); field "version" "version" ""] 0 None "" false)) p), [])).
Definition openPin (p : otaPane) : otaPane * list cmd := if_ready p (λ p,
  let '(serial, channel) :=
    match selectedDevice p with
    | Some d => (i_serial (info d), if bool_decide (i_channel (info d) = ""%string) then OpsOta.DefaultChannel (cfg p) else i_channel (info d))
    | None => (""%string, OpsOta.DefaultChannel (cfg p))
    end in
  (focusFormField (set_form (Some (MkForm formPin "Pin device to version" "serial '*' targets the whole channel fleet"
     [field "serial" "serial or *" serial; field "channel" "channel" channel; field "version" "version" ""] 0 None "" false)) p), [])).
Definition onArtifactScanned (r : result ota_err FirmwareArtifact) (p : otaPane) : otaPane :=
  match form p with
  | Some f =>
      match kind f with
      | formRegister =>
          match r with
          | Err e => set_form (Some (MkForm (kind f) (title f) (f_info f) (fields f) (focus f) (art f) (err_text e) false)) p
          | Ok a =>
              set_form (Some (MkForm (kind f) (title f)
                ("sha256 " ++ a_sha256 a ++ " · " ++ format_int (a_size a) ++ " bytes")
                (set_first "version" (a_version a) (fields f)) (focus f) (Some a) (errMsg f) false)) p
          end
      | _ => p
      end
  | None => p
  end.

Definition none (s : string) : bool := bool_decide (s = ""%string).
Definition submit (p : otaPane) (c : cmd) : otaPane * list cmd := (set_inFlight true (set_form None p), [c]).
Definition refuse (f : formState) (e : string) (p : otaPane) : otaPane * list cmd := (set_form (Some (set_error e f)) p, []).
Definition formSubmit (f : formState) (p : otaPane) : otaPane * list cmd :=
  let get l := TrimSpace (value f l) in
  match kind f with
  | formRegister =>
      match art f with
      | None => refuse f "no artifact scanned (build the firmware first)" p
      | Some a =>
          if none (get "version"%string) then refuse f "version is required" p
          else submit p (CRegister a (get "version"%string) (get "notes"%string))
      end
  | formChannel =>
      if none (get "channel"%string) || none (get "version"%string) then refuse f "channel and version are required" p
      else submit p (CSetChannel (get "channel"%string) (get "version"%string))
  | formPin =>
      if none (get "serial"%string) || none (get "channel"%string) || none (get "version"%string)
      then refuse f "serial, channel and version are required" p
      else submit p (CPin (MkPin (get "serial"%string) (get "channel"%string) (get "version"%string) true))
  end.

(** ** Actions on the selected device *)

Definition act (p : otaPane) (c : cmd) : otaPane * list cmd := (set_inFlight true p, [c]).
Definition unpinSelected (p : otaPane) : otaPane * list cmd := if_ready p (λ p,
  match selectedDevice p ≫= d_rollout with
  | Some r => if bool_decide (Serial r = "*"%string) then (set_status "no per-serial pin on the selected device" p, [])
              else act p (CPin (MkPin (Serial r) (ChannelName r) (Version r) false))
  | None => (set_status "no per-serial pin on the selected device" p, [])
  end).
Definition toggleSelectedState (p : otaPane) : otaPane * list cmd := if_ready p (λ p,
  match selectedDevice p ≫= d_rollout with
  | Some r => act p (CSetState (ID r) (if bool_decide (State r = StatePaused) then StateActive else StatePaused))
  | None => (set_status "no rollout to pause/resume on the selected device" p, [])
  end).
Definition markSelectedDone (p : otaPane) : otaPane * list cmd := if_ready p (λ p,
  match selectedDevice p ≫= d_rollout with
  | Some r => act p (CSetState (ID r) StateDone)
  | None => (set_status "no rollout to mark done on the selected device" p, [])
  end).

Definition onWriteResult (now : Z) (what : string) (r : option ota_err) (p : otaPane) : otaPane * list cmd :=
  let p := set_inFlight false p in
  match r with
  | Some e => (markDirty (set_status (what ++ " failed: " ++ err_text e) p), [])
  | None =>
      let p := set_status (what ++ " ok") p in
      let p := if focused p then p else set_badges true (dirty p) p in
      let p := markDirty p in
      if store p then issueLoad now p else (p, [])
  end.

(** ** Keys *)

Definition onFormKey (k : string) (f : formState) (p : otaPane) : otaPane * list cmd :=
  if bool_decide (k = "esc"%string) then (set_form None p, [])
  else if bool_decide (k = "enter"%string) then formSubmit f p
  else if bool_decide (k = "up"%string) then (formFocusDelta (-1) p, [])
  else if bool_decide (k = "down"%string) then (formFocusDelta 1 p, [])
  else if in_fields f then
    (set_form (Some (set_fields (alter (on_input (Edit k)) (Z.to_nat (focus f)) (fields f)) (focus f) f)) p, [])
  else (p, []).
Definition onTableKey (now : Z) (k : string) (p : otaPane) : otaPane * list cmd :=
  let pressed s := bool_decide (k = s) in
  if pressed "up"%string then (moveCursor (-1) p, [])
  else if pressed "down"%string then (moveCursor 1 p, [])
  else if pressed "left"%string || pressed "right"%string then (toggleTable p, [])
  else if pressed (k_switchTable (keys p)) then (toggleTable p, [])
  else if pressed (k_refresh (keys p)) then if store p && negb (inFlight p) then issueLoad now p else (p, [])
  else if pressed (k_register (keys p)) then openRegister p
  else if pressed (k_setChannel (keys p)) then openChannel p
  else if pressed (k_pin (keys p)) then openPin p
  else if pressed (k_unpin (keys p)) then unpinSelected p
  else if pressed (k_toggleState (keys p)) then toggleSelectedState p
  else if pressed (k_markDone (keys p)) then markSelectedDone p
  else (p, []).
Definition onKey (now : Z) (k : string) (p : otaPane) : otaPane * list cmd :=
  match form p with Some f => onFormKey k f p | None => onTableKey now k p end.

(** ** Configuration, focus, messages *)

Definition fallbackFleetCap : Z := 1000.
Definition fleetCapFrom (c : OtaCfg) : Z := if 0 <? FleetMaxDevices c then FleetMaxDevices c else fallbackFleetCap.
(** The comment promises a rebuilt writer; the code keeps the old one. *)
Definition applyConfig (c : OtaCfg) (ks : gmap string (list string)) (p : otaPane) : otaPane :=
  MkPane (store p) (writer p) c (fleetCapFrom c) (ResolvePrecedence c) (resolveKeys ks) (state p) (verCur p) (devCur p) (active p)
    (lastLoad p) (loadErr p) (form p) (inFlight p) (forceLoad p) (lastLoadAt p) (pendingWrite p) (dirty p) (status p) (focused p).
Definition New (pool : bool) (c : OtaCfg) (ks : gmap string (list string)) : otaPane :=
  let w := NewWriter c pool in
  MkPane pool (match w with Ok w => w | Err _ => None end) c (fleetCapFrom c) (ResolvePrecedence c) (resolveKeys ks)
    (MkState [] [] [] []) 0 0 tableDevices None None None false false None false false
    (match w with Ok _ => "" | Err e => err_text e end) false.
Definition SetFocused (b : bool) (p : otaPane) : otaPane :=
  if b then focusFormField (set_badges false false (set_focus true (if focused p then forceLoad p else true) p))
  else blurFormField (set_focus false (forceLoad p) p).
Definition Close (p : otaPane) : otaPane := set_inFlight false p.

Definition Update (now : Z) (m : msg) (p : otaPane) : otaPane * list cmd :=
  match m with
  | tickMsg => onTick now p
  | otaStateMsg s at_ =>
      (markDirty (clampCursors (upd p s (verCur p, devCur p) (active p) (Some at_) None (false, forceLoad p, lastLoadAt p))), [])
  | otaErrMsg e =>
      (markDirty (upd p (state p) (verCur p, devCur p) (active p) (lastLoad p) (Some e) (false, forceLoad p, lastLoadAt p)), [])
  | fwArtifactScannedMsg r => (onArtifactScanned r p, [])
  | writeResultMsg what r => onWriteResult now what r p
  | SpawnArgsMsg serial => (if bool_decide (serial = ""%string) then p else selectDeviceBySerial serial p, [])
  | ConfigChangedMsg c => (match c with Some (c, ks) => applyConfig c ks p | None => p end, [])
  | KeyPressMsg k => onKey now k p
  end.

(** What happens to the pane: messages and focus changes; the commands issued. *)
Inductive event := Message (now : Z) (m : msg) | Focused (b : bool).
Definition react (e : event) (p : otaPane) : otaPane * list cmd :=
  match e with Message now m => Update now m p | Focused b => (SetFocused b p, []) end.
Fixpoint session (es : list event) (p : otaPane) : otaPane * list cmd :=
  match es with
  | [] => (p, [])
  | e :: es => let '(p, cs) := react e p in let '(p, ds) := session es p in (p, cs ++ ds)
  end.
End Pane.
End OpsOtaPane.
