(* ===== verification/OpsOtaLaws.v ===== *)
(** * What the console's OTA axis promises

    The prediction is the backend's answer; the direct backend keeps the
    tables; a digest is a digest; no form writes an incomplete request. *)

From S2P Require Import Prelude GoLib Crypto Db AdminGate GoText Rollout OpsOta OpsOtaPane.
Import GoLib Crypto GoText OpsOta.

Module OpsOtaLaws.

(** ** The prediction *)

Lemma rows_elem collate d r : r ∈ rollouts_of collate d ↔ ∃ t, t ∈ Rollout.rollout_targets (core d) ∧ r = row_of d t.
Proof.
  unfold rollouts_of. rewrite merge_sort_Permutation, list_elem_of_fmap. split; intros (t & ? & ?); eauto.
Qed.
Lemma qualifies_iff s ch p r :
  qualifies s ch p r = true ↔ Serial r = s ∧ ChannelName r = ch ∧ State r = StateActive ∧ (p = true → Pinned r = true).
Proof.
  unfold qualifies. rewrite !andb_true_iff, !bool_decide_eq_true, orb_true_iff, negb_true_iff.
  destruct p; intuition congruence.
Qed.
Lemma find_active collate d s ch p :
  match findActiveRollout (rollouts_of collate d) s ch p with
  | Some r => Rollout.active (core d) s ch (Version r)
  | None => p = false → ∀ v, ¬ Rollout.active (core d) s ch v
  end.
Proof.
  unfold findActiveRollout. destruct (find_first _ _) as [r|] eqn:Hf.
  - apply find_first_Some in Hf as [Hr Hq]. apply rows_elem in Hr as (t & Ht & ->).
    apply qualifies_iff in Hq as (Hs & Hc & Hst & _). exists t. done.
  - intros -> v (t & Ht & Hs & Hc & Hst & Hv). rewrite find_first_None in Hf.
    assert (Hq : qualifies s ch false (row_of d t) = true) by (apply qualifies_iff; split_and!; done).
    rewrite Hf in Hq; [done|]. apply rows_elem. eauto.
Qed.
Lemma channels_elem collate d c :
  c ∈ channels_of collate d ↔ ∃ v, Rollout.channels (core d) !! c_name c = Some v ∧ DefaultVersion c = default ""%string v.
Proof.
  unfold channels_of. rewrite merge_sort_Permutation, list_elem_of_fmap. split.
  - intros ([n v] & -> & Hp%elem_of_map_to_list). eauto.
  - intros (v & Hv & Hd). exists (c_name c, v). split; [destruct c; unfold channel_of; simpl in *; congruence|].
    by apply elem_of_map_to_list.
Qed.
Lemma find_default collate d ch :
  match find_first (λ c, bool_decide (c_name c = ch) && negb (bool_decide (DefaultVersion c = ""%string))) (channels_of collate d) with
  | Some c => DefaultVersion c ≠ ""%string ∧ Rollout.channels (core d) !! ch = Some (Some (DefaultVersion c))
  | None => ∀ v, Rollout.channels (core d) !! ch = Some (Some v) → v = ""%string
  end.
Proof.
  destruct (find_first _ _) as [c|] eqn:Hf.
  - apply find_first_Some in Hf as [Hc [Hn%bool_decide_eq_true Hd%negb_true_iff%bool_decide_eq_false]%andb_true_iff].
    apply channels_elem in Hc as (v & Hv & He). rewrite Hn in Hv. split; [done|].
    rewrite Hv, He. destruct v; [done|]. by rewrite He in Hd.
  - intros v Hv. rewrite find_first_None in Hf. destruct (decide (v = ""%string)) as [|Hne]; [done|exfalso].
    assert (Hin : MkChannel ch v ∈ channels_of collate d) by (apply channels_elem; by exists (Some v)).
    apply Hf in Hin. cbn [c_name DefaultVersion] in Hin. by rewrite (bool_decide_true (ch = ch)), bool_decide_false in Hin.
Qed.

Lemma walk_step step rest dev rs cs :
  walk (step :: rest) dev rs cs =
  match resolveStep step dev rs cs with
  | Some v => if bool_decide (v = ""%string) then walk rest dev rs cs else MkResolved v step
  | None => walk rest dev rs cs
  end.
Proof. done. Qed.
Lemma hit v (t u : ResolvedTarget) : v ≠ ""%string → (if bool_decide (v = ""%string) then t else u) = u.
Proof. intros. by rewrite bool_decide_false. Qed.

(** C5. The prediction is what the backend serves: with the default precedence,
    the console's resolver over the rows it reads names the version the
    backend's own resolver gives the device, for every device on record with
    its channel, whatever the order the rows are read in. *)
Theorem predicted_is_served collate d dev dv :
  Rollout.targets_wf (core d) →
  (∀ t, t ∈ Rollout.rollout_targets (core d) → Rollout.t_version t ≠ ""%string) →
  Rollout.devices (core d) !! i_serial dev = Some dv → Rollout.channel dv = i_channel dev → i_serial dev ≠ "*"%string →
  ∃ r, Rollout.ResolveTarget (i_serial dev) (core d) [] = (Ok r, core d, []) ∧
    r_version (Resolve dev (rollouts_of collate d) (channels_of collate d) []) = Rollout.Version r.
Proof.
  intros Hwf Hver Hdev Hch Hne.
  destruct (Rollout.ResolveTarget_precedence (i_serial dev) (core d) Hwf Hne) as (r & Hr & Hspec).
  exists r. split; [done|]. rewrite Hdev in Hspec. cbv zeta in Hspec. rewrite Hch in Hspec.
  destruct Hspec as [Hserial Hrest].
  assert (Hoffer : ∀ s v, Rollout.active (core d) s (i_channel dev) v → v ≠ ""%string).
  { intros s v (t & Ht & _ & _ & _ & <-). by apply Hver. }
  pose proof (find_active collate d (i_serial dev) (i_channel dev) true) as Hpin.
  pose proof (find_active collate d (i_serial dev) (i_channel dev) false) as Hown.
  pose proof (find_active collate d "*" (i_channel dev) false) as Hall.
  pose proof (find_default collate d (i_channel dev)) as Hdef.
  unfold Resolve. rewrite bool_decide_true by done. unfold DefaultPrecedence. rewrite walk_step.
  change (resolveStep "pinned-serial" dev ?r ?c) with (Version <$> findActiveRollout r (i_serial dev) (i_channel dev) true).
  destruct (findActiveRollout _ (i_serial dev) _ true) as [x|]; cbn [fmap option_fmap option_map].
  { rewrite hit by eauto. by rewrite (Hserial _ Hpin). }
  rewrite walk_step.
  change (resolveStep "serial" dev ?r ?c) with (Version <$> findActiveRollout r (i_serial dev) (i_channel dev) false).
  destruct (findActiveRollout _ (i_serial dev) _ false) as [x|]; cbn [fmap option_fmap option_map].
  { rewrite hit by eauto. by rewrite (Hserial _ Hown). }
  destruct (Hrest (Hown eq_refl)) as [Hfleet Hnone]. rewrite walk_step.
  change (resolveStep "channel" dev ?r ?c) with (Version <$> findActiveRollout r "*" (i_channel dev) false).
  destruct (findActiveRollout _ "*" _ false) as [x|]; cbn [fmap option_fmap option_map].
  { rewrite hit by eauto. by rewrite (Hfleet _ Hall). }
  rewrite (Hnone (Hall eq_refl)), walk_step.
  change (resolveStep "default" dev (rollouts_of collate d) (channels_of collate d)) with
    (DefaultVersion <$> find_first (λ c, bool_decide (c_name c = i_channel dev) && negb (bool_decide (DefaultVersion c = ""%string)))
                          (channels_of collate d)).
  destruct (find_first _ (channels_of collate d)) as [c|]; cbn [fmap option_fmap option_map].
  - destruct Hdef as [Hd ->]. rewrite hit by done. by rewrite bool_decide_false.
  - destruct (Rollout.channels (core d) !! i_channel dev) as [[v|]|] eqn:Hv; [|done..].
    by rewrite (Hdef v eq_refl).
Qed.

(** ** The direct backend *)

(** What a successful write does to the tables. *)
Inductive written (now : Z) (d d' : ota_db) : write → Prop :=
| written_register r path :
    ValidSHA256 (g_sha256 r) = true → Rollout.firmware_versions (core d) !! g_version r = None →
    core d' = Rollout.set_firmware (insert (g_version r) (Rollout.MkFw (g_sha256 r) path (g_size r) now)) (core d) →
    written now d d' (WRegister r)
| written_default ch v :
    Rollout.SetChannelDefault ch v (core d) [] = (Ok true, core d', []) → written now d d' (WSetChannelDefault ch v)
| written_pin r id :
    Rollout.UpsertRollout now (p_serial r) (p_channel r) (p_version r) (core d) [] = (Ok id, core d', []) →
    (id ∈ pinned_ids d' ↔ p_pinned r = true) → written now d d' (WPin r)
| written_state id st :
    ValidState st = true → Rollout.SetRolloutState now id st (core d) [] = (Ok true, core d', []) →
    written now d d' (WSetState id st).

(** Transactions of one statement: a failure leaves the database as it was. *)
Lemma inTx_run (fn : M (Tx ota_db) ota_err unit) (P : ota_db → ota_db → Prop) d fs :
  (∀ fs r t fs', fn (MkTx d d) fs = (r, t, fs') →
     core (tx_committed t) = core d ∧ pinned_ids (tx_committed t) = pinned_ids d ∧ fw_notes (tx_committed t) = fw_notes d ∧
     match r with Ok _ => P d (tx_work t) | Err _ => True end) →
  let r := inTx fn d fs in
  match r.1.1 with
  | Ok _ => P d r.1.2
  | Err _ => core r.1.2 = core d ∧ pinned_ids r.1.2 = pinned_ids d ∧ fw_notes r.1.2 = fw_notes d
  end.
Proof.
  intros Hfn. unfold inTx, with_tx, commit, stmt, mbind, M_bind. destruct fs as [|[] fs]; simpl; [|done|].
  - specialize (Hfn []). destruct (fn (MkTx d d) []) as [[[u|e] t] fs'] eqn:He;
      destruct (Hfn _ _ _ eq_refl) as (? & ? & ? & ?); simpl; [|done].
    by destruct fs' as [|[] fs']; simpl.
  - specialize (Hfn fs). destruct (fn (MkTx d d) fs) as [[[u|e] t] fs'] eqn:He;
      destruct (Hfn _ _ _ eq_refl) as (? & ? & ? & ?); simpl; [|done].
    by destruct fs' as [|[] fs']; simpl.
Qed.
Lemma tx_stmt_run {A} (e : ota_err) (f : ota_db → result ota_err A * ota_db) t fs r t' fs' :
  tx_stmt e f t fs = (r, t', fs') →
  tx_committed t' = tx_committed t ∧ match r with Ok a => f (tx_work t) = (Ok a, tx_work t') | Err _ => True end.
Proof.
  unfold tx_stmt, stmt. destruct fs as [|[] fs].
  - destruct (f (tx_work t)) as [[a|x] w]; intros [= <- <- <-]; done.
  - by intros [= <- <- <-].
  - destruct (f (tx_work t)) as [[a|x] w]; intros [= <- <- <-]; done.
Qed.
Lemma found_run (e : ota_err) (f : ota_db → result ota_err bool * ota_db) t fs r t' fs' :
  (found ← tx_stmt e f; if found : bool then mret tt else throw ErrUnknownRef) t fs = (r, t', fs') →
  tx_committed t' = tx_committed t ∧ match r with Ok _ => f (tx_work t) = (Ok true, tx_work t') | Err _ => True end.
Proof.
  unfold mbind at 1, M_bind at 1. destruct (tx_stmt e f t fs) as [[[a|x] t1] fs1] eqn:H; apply tx_stmt_run in H as [Hc Hr].
  - destruct a; unfold mret, M_ret, throw; by intros [= <- <- <-].
  - by intros [= <- <- <-].
Qed.
Lemma placeBlob_run r t fs p t' fs' :
  placeBlob r t fs = (p, t', fs') →
  core (tx_committed t') = core (tx_committed t) ∧ pinned_ids (tx_committed t') = pinned_ids (tx_committed t) ∧
  fw_notes (tx_committed t') = fw_notes (tx_committed t) ∧ core (tx_work t') = core (tx_work t).
Proof.
  unfold placeBlob. case_match; [by intros [= _ <- _]|]. unfold stmt, mbind, M_bind, mret, M_ret.
  destruct fs as [|[] [|[] fs]]; simpl; intros Hx; injection Hx as _ <- _; by simpl.
Qed.
Lemma insertFirmware_ok now r p d u d' :
  insertFirmware now r p d = (Ok u, d') →
  Rollout.firmware_versions (core d) !! g_version r = None ∧
  core d' = Rollout.set_firmware (insert (g_version r) (Rollout.MkFw (g_sha256 r) p (g_size r) now)) (core d).
Proof.
  unfold insertFirmware. case_match; [done|]. case_bool_decide as Hv; [done|].
  intros [= _ <-]. split; [|done]. by destruct (Rollout.firmware_versions (core d) !! g_version r) eqn:He; [destruct Hv; eexists|].
Qed.

(** The direct backend writes what the backend would, or nothing: whatever
    statement fails, an error leaves the tables as they were, and a success is
    the backend's own operation on them (a new version under a valid digest
    and an unused name, the channel default, the upsert with its pin, the
    state change). *)
Theorem direct_write_atomic now w d fs :
  let r := direct now w d fs in
  match r.1.1 with
  | Ok _ => written now d r.1.2 w
  | Err _ => core r.1.2 = core d ∧ pinned_ids r.1.2 = pinned_ids d ∧ fw_notes r.1.2 = fw_notes d
  end.
Proof.
  destruct w as [r|ch v|r|id st]; unfold direct.
  - apply (inTx_run _ (λ d d', written now d d' (WRegister r))). clear fs. intros fs x t fs' Hx.
    unfold registerFirmware in Hx. destruct (ValidSHA256 (g_sha256 r)) eqn:Hsha; simpl in Hx.
    2: { injection Hx as <- <- <-. done. }
    unfold mbind, M_bind in Hx. destruct (placeBlob r (MkTx d d) fs) as [[p t1] fs1] eqn:Hp.
    apply placeBlob_run in Hp as (Hc & Hpin & Hn & Hw). destruct p as [p|e].
    2: { injection Hx as <- <- <-. done. }
    apply tx_stmt_run in Hx as [Ht Hr]. rewrite Ht. split_and!; [done..|]. destruct x as [u|]; [|done].
    apply insertFirmware_ok in Hr as [Hv Hcore]. simpl in *. rewrite Hw in *.
    by eapply written_register.
  - apply (inTx_run _ (λ d d', written now d d' (WSetChannelDefault ch v))). clear fs. intros fs x t fs' Hx.
    apply found_run in Hx as [-> Hr]. split_and!; [done..|]. destruct x as [u|]; [|done]. simpl in Hr.
    apply written_default. unfold Rollout.SetChannelDefault, stmt.
    destruct (Rollout.channels (core d) !! ch); [|done]. case_bool_decide; [|done]. injection Hr as <-. done.
  - apply (inTx_run _ (λ d d', written now d d' (WPin r))). clear fs. intros fs x t fs' Hx.
    apply tx_stmt_run in Hx as [-> Hr]. split_and!; [done..|]. destruct x as [u|]; [|done]. simpl in Hr.
    unfold upsertRollout in Hr.
    destruct (Rollout.upsert_target now (p_serial r) (p_channel r) (p_version r) (core d)) as [[id|e] c] eqn:Hu; [|done].
    injection Hr as _ <-. apply (written_pin _ _ _ _ id).
    + unfold Rollout.UpsertRollout, stmt. by rewrite Hu.
    + simpl. destruct (p_pinned r); set_solver.
  - unfold DirectSetState. destruct (ValidState st) eqn:Hst; simpl; [|done].
    apply (inTx_run _ (λ d d', written now d d' (WSetState id st))). clear fs. intros fs x t fs' Hx.
    apply found_run in Hx as [-> Hr]. split_and!; [done..|]. destruct x as [u|]; [|done]. simpl in Hr.
    apply written_state; [done|]. unfold Rollout.SetRolloutState, stmt. injection Hr as -> <-. done.
Qed.

(** ** Digests *)

Lemma sha_digit_value c : sha_digit c = true → ∃ v, 0 ≤ v < 16 ∧ hex_digit v = c.
Proof.
  unfold sha_digit, is_digit. rewrite orb_true_iff, !andb_true_iff, !Z.leb_le. intros [[? ?]|[? ?]].
  - exists (c - 48). split; [lia|]. unfold hex_digit. zcase; lia.
  - exists (c - 87). split; [lia|]. unfold hex_digit. zcase; lia.
Qed.
Lemma sha_digit_hex v : 0 ≤ v < 16 → sha_digit (hex_digit v) = true.
Proof. unfold sha_digit, is_digit, hex_digit. intros. destruct (Z.ltb_spec v 10); zcase; first [done|exfalso; lia]. Qed.
Lemma sha_text n (l : bytes) :
  length l = (2 * n)%nat → forallb sha_digit l = true → ∃ b, bytes_ok b ∧ length b = n ∧ hex_encode b = l.
Proof.
  revert l. induction n as [|n IH]; intros l Hl Hd; [exists []; by destruct l|].
  destruct l as [|c1 [|c2 l]]; [done|simpl in Hl; lia|]. simpl in Hd.
  apply andb_true_iff in Hd as [H1 Hd]. apply andb_true_iff in Hd as [H2 Hd].
  destruct (sha_digit_value c1 H1) as (v1 & Hv1 & <-), (sha_digit_value c2 H2) as (v2 & Hv2 & <-).
  destruct (IH l) as (b & Hb & Hn & <-); [simpl in Hl; lia|done|].
  exists (16 * v1 + v2 :: b). split; [constructor; [unfold byte_ok; lia|done]|]. split; [simpl; lia|].
  simpl. replace ((16 * v1 + v2) / 16) with v1 by dlia. by replace ((16 * v1 + v2) mod 16) with v2 by dlia.
Qed.

(** The digest gate passes exactly the digests: the texts that encode 32
    bytes in lower-case hexadecimal. *)
Theorem ValidSHA256_iff s :
  ValidSHA256 s = true ↔ ∃ b, bytes_ok b ∧ length b = 32%nat ∧ s = string_of_bytes (hex_encode b).
Proof.
  unfold ValidSHA256. rewrite andb_true_iff, Z.eqb_eq. split.
  - intros [Hl Hd]. destruct (sha_text 32 (bytes_of_string s)) as (b & Hb & Hn & He); [unfold zlen in Hl; lia|done|].
    exists b. split_and!; [done..|]. by rewrite He, string_of_bytes_of_string.
  - intros (b & Hb & Hn & ->). rewrite bytes_of_string_of_bytes by by apply hex_encode_bytes.
    clear -Hb Hn. revert b Hb Hn.
    assert (H : ∀ b, bytes_ok b → zlen (hex_encode b) = 2 * zlen b ∧ forallb sha_digit (hex_encode b) = true).
    { induction 1 as [|x b Hx Hb [IHl IHd]]; [done|]. split.
      - simpl hex_encode. rewrite !zlen_cons, IHl. lia.
      - simpl. unfold byte_ok in Hx. rewrite !sha_digit_hex by dlia. done. }
    intros b Hb Hn. destruct (H b Hb) as [Hl Hd]. split; [|done]. rewrite Hl. unfold zlen. lia.
Qed.

(** ** The pane *)

Import OpsOtaPane.
Section PaneLaws.
Context {TI : TextInput} (err_text : ota_err → string).

Definition in_range (c n : Z) : Prop := 0 ≤ c ≤ max0 (n - 1).
Definition pane_ok (p : otaPane) : Prop :=
  in_range (verCur p) (zlen (Versions (state p))) ∧ in_range (devCur p) (zlen (Devices (state p))) ∧
  ∀ f, form p = Some f → in_fields f = true ∧ writeReady p = true.
(** A request no field of which is missing. *)
Definition complete (c : cmd) : Prop :=
  match c with
  | CTick | CLoad _ _ | CScan => True
  | CRegister _ v _ => v ≠ ""%string
  | CSetChannel ch v => ch ≠ ""%string ∧ v ≠ ""%string
  | CPin r => if p_pinned r then p_serial r ≠ ""%string ∧ p_channel r ≠ ""%string ∧ p_version r ≠ ""%string
              else p_serial r ≠ "*"%string
  | CSetState _ st => ValidState st = true
  end.
Definition allowed (p : otaPane) (c : cmd) : Prop := (is_write c = true → writeReady p = true) ∧ complete c.
Definition good (p : otaPane) (r : otaPane * list cmd) : Prop :=
  pane_ok r.1 ∧ writer r.1 = writer p ∧ Forall (allowed p) r.2.

Lemma clamp_in_range v n : 0 ≤ n → in_range (clamp v 0 (max0 (n - 1))) n.
Proof. unfold in_range, clamp, max0. intros. zcase; lia. Qed.
Hint Resolve clamp_in_range zlen_nonneg : core.

(** The pane with another form, badges or flags. *)
Lemma good_same p p' :
  pane_ok p → state p' = state p → verCur p' = verCur p → devCur p' = devCur p → writer p' = writer p →
  (∀ f, form p' = Some f → in_fields f = true ∧ writeReady p = true) → good p (p', []).
Proof.
  intros (Hv & Hd & Hf) Hst Hvc Hdc Hw Hform. split; [|done]. unfold pane_ok. simpl. rewrite Hst, Hvc, Hdc.
  split_and!; [done..|]. intros f Hf'. unfold writeReady. rewrite Hw. by apply Hform.
Qed.
Lemma good_cmd p p' c : good p (p', []) → allowed p c → good p (p', [c]).
Proof. intros (? & ? & _) ?. split_and!; [done..|]. by constructor. Qed.
Lemma good_if_ready p k : (writeReady p = true → good p (k p)) → pane_ok p → good p (if_ready p k).
Proof.
  intros Hk Hp. unfold if_ready. destruct (writeReady p); [by apply Hk|].
  apply good_same; [done..|]. apply Hp.
Qed.
Lemma focusFormField_form p f :
  form (focusFormField p) = Some f → ∃ g, form p = Some g ∧ focus f = focus g ∧ length (fields f) = length (fields g).
Proof.
  unfold focusFormField. destruct (form p) as [g|] eqn:Hg; [|by rewrite Hg].
  destruct (focused p); simpl; [|rewrite Hg; intros [= ->]; eauto].
  intros [= <-]. exists g. simpl. split_and!; [done..|].
  destruct (in_fields g); rewrite ?length_alter, length_fmap; done.
Qed.
Lemma in_fields_same f g :
  focus f = focus g → length (fields f) = length (fields g) → in_fields g = true → in_fields f = true.
Proof. unfold in_fields, zlen. by intros -> ->. Qed.
Lemma focusFormField_same p :
  state (focusFormField p) = state p ∧ verCur (focusFormField p) = verCur p ∧ devCur (focusFormField p) = devCur p ∧
  writer (focusFormField p) = writer p.
Proof. unfold focusFormField. by destruct (form p), (focused p). Qed.
Lemma good_open p f : pane_ok p → writeReady p = true → in_fields f = true → good p (focusFormField (set_form (Some f) p), []).
Proof.
  intros Hp Hw Hf. destruct (focusFormField_same (set_form (Some f) p)) as (? & ? & ? & ?).
  apply good_same; [done..|]. intros g Hg. split; [|done].
  apply focusFormField_form in Hg as (h & Hh & Hfo & Hlen). injection Hh as <-. by eapply in_fields_same.
Qed.
Lemma good_load now p : pane_ok p → good p (issueLoad now p).
Proof.
  intros Hp. apply good_cmd; [|done]. apply good_same; [done..|]. apply Hp.
Qed.
Lemma good_formSubmit f p : pane_ok p → form p = Some f → good p (formSubmit f p).
Proof.
  intros Hp Hf. pose proof (proj2 (proj2 Hp) f Hf) as [Hin Hw].
  assert (Hrefuse : ∀ e, good p (refuse f e p)).
  { intros e. apply good_same; [done..|]. intros g [= <-]. done. }
  assert (Hsubmit : ∀ c, complete c → good p (submit p c)).
  { intros c Hc. apply good_cmd; [|by split]. apply good_same; done. }
  unfold formSubmit, none. destruct (kind f); [destruct (art f); [|done]| |]; repeat case_bool_decide; simpl; auto;
    apply Hsubmit; done.
Qed.
Lemma good_move d p : pane_ok p → good p (moveCursor d p, []).
Proof.
  intros (Hv & Hd & Hf). unfold moveCursor.
  destruct (active p); (split; [|done]); split_and!; simpl; auto.
Qed.
Lemma rem_in x n : 0 <= x < n → ∀ d, d = 1 ∨ d = -1 → 0 ≤ Z.rem (x + d + n) n < n.
Proof. intros Hx d Hd. rewrite Z.rem_mod_nonneg by lia. apply Z.mod_pos_bound. lia. Qed.
Lemma good_delta d p : d = 1 ∨ d = -1 → pane_ok p → good p (formFocusDelta d p, []).
Proof.
  intros Hd Hp. unfold formFocusDelta. destruct (form p) as [f|] eqn:Hf; [|by apply good_same; [..|apply Hp]].
  case_bool_decide as He; [by apply good_same; [..|apply Hp]|].
  pose proof (proj2 (proj2 Hp) f Hf) as [Hin Hw]. apply good_same; [done..|]. intros g [= <-]. split; [|done].
  unfold in_fields in *. apply andb_true_iff in Hin as [Ha%Z.leb_le Hb%Z.ltb_lt]. cbn [focus fields set_fields].
  replace (zlen (alter _ _ (alter _ _ (fields f)))) with (zlen (fields f)) by (unfold zlen; by rewrite !length_alter).
  destruct (rem_in (focus f) (zlen (fields f)) (conj Ha Hb) d Hd) as [H1 H2]. by rewrite (proj2 (Z.leb_le _ _) H1), (proj2 (Z.ltb_lt _ _) H2).
Qed.
Lemma good_keep p : pane_ok p → good p (p, []).
Proof. intros Hp. by apply good_same; [..|apply Hp]. Qed.
Lemma length_set_first l v fs : length (set_first l v fs) = length fs.
Proof. induction fs as [|x fs IH]; simpl; [done|]. case_bool_decide; simpl; congruence. Qed.
Lemma good_scan r p : pane_ok p → good p (onArtifactScanned err_text r p, []).
Proof.
  intros Hp. unfold onArtifactScanned. destruct (form p) as [f|] eqn:Hf; [|by apply good_keep].
  pose proof (proj2 (proj2 Hp) f Hf) as [Hin Hw].
  destruct (kind f); [|by apply good_keep..].
  destruct r; (apply good_same; [done..|]; intros g [= <-]; split; [|done]);
    (apply (in_fields_same _ f); [done| |done]; simpl; by rewrite ?length_set_first).
Qed.
Lemma good_badges p p' : pane_ok p → state p' = state p → verCur p' = verCur p → devCur p' = devCur p → writer p' = writer p →
  form p' = form p → good p (markDirty p', []).
Proof.
  intros Hp Hst Hv Hd Hw Hf. unfold markDirty.
  destruct (focused p'); (apply good_same; simpl; [done..|rewrite Hf; apply Hp]).
Qed.
Lemma good_form_key k f p : pane_ok p → form p = Some f → good p (onFormKey k f p).
Proof.
  intros Hp Hf. pose proof (proj2 (proj2 Hp) f Hf) as [Hin Hw]. unfold onFormKey. repeat case_bool_decide.
  - by apply good_same.
  - by apply good_formSubmit.
  - apply good_delta; auto.
  - apply good_delta; auto.
  - rewrite Hin. apply good_same; [done..|]. intros g [= <-]. split; [|done].
    apply (in_fields_same _ f); [done| |done]. simpl. by rewrite length_alter.
Qed.
Lemma good_act p c : pane_ok p → allowed p c → good p (act p c).
Proof. intros Hp Hc. apply good_cmd; [|done]. by apply good_same; [..|apply Hp]. Qed.
Lemma good_status s0 p : pane_ok p → good p (set_status s0 p, []).
Proof. intros Hp. by apply good_same; [..|apply Hp]. Qed.
Lemma valid_states : ValidState StateActive = true ∧ ValidState StatePaused = true ∧ ValidState StateDone = true.
Proof. done. Qed.
Lemma good_table_key now k p : pane_ok p → good p (onTableKey now k p).
Proof.
  intros Hp. unfold onTableKey. repeat case_bool_decide; simpl;
    try (destruct (_ && negb _); [by apply good_load|by apply good_keep]); try (by apply good_move); try (by apply good_keep);
    try (by apply good_same; [..|apply Hp]).
  - apply good_if_ready; [|done]. intros Hw. apply good_cmd; [by apply good_open|done].
  - apply good_if_ready; [|done]. intros Hw. by apply good_open.
  - apply good_if_ready; [|done]. intros Hw. destruct (selectedDevice p); by apply good_open.
  - apply good_if_ready; [|done]. intros Hw. destruct (_ ≫= _); [|by apply good_status].
    case_bool_decide; [by apply good_status|]. by apply good_act.
  - apply good_if_ready; [|done]. intros Hw. destruct (_ ≫= _); [|by apply good_status].
    apply good_act; [done|]. split; [done|]. simpl. by case_bool_decide; apply valid_states.
  - apply good_if_ready; [|done]. intros Hw. destruct (_ ≫= _); [|by apply good_status]. by apply good_act.
Qed.
Lemma index_of_serial_range serial i l n : index_of_serial serial i l = Some n → i ≤ n < i + zlen l.
Proof.
  revert i. induction l as [|d l IH]; intros i; simpl; [done|]. rewrite zlen_cons. pose proof (zlen_nonneg l).
  case_bool_decide; [intros [= <-]; lia|]. intros Hi%IH. lia.
Qed.
Lemma good_update now m p : pane_ok p → good p (Update err_text now m p).
Proof.
  intros Hp. destruct m as [|st at_|e|r|what r|serial|c|k]; unfold Update.
  - unfold onTick. destruct (store p); simpl; [|by apply good_keep].
    destruct (_ && negb _); [|by apply good_cmd; [apply good_keep|]].
    pose proof (good_load now p Hp) as (H1 & H2 & H3). by split_and!; [..|constructor].
  - unfold clampCursors, markDirty.
    match goal with |- context [if focused ?q then _ else _] => destruct (focused q) end;
      (split; [split_and!; simpl; [auto|auto|apply Hp]|by split; [|constructor]]).
  - by apply good_badges.
  - by apply good_scan.
  - unfold onWriteResult. destruct r as [e|].
    + by apply good_badges.
    + assert (Hg : good p (markDirty (if focused (set_status (what ++ " ok") (set_inFlight false p)) then
         set_status (what ++ " ok") (set_inFlight false p)
         else set_badges true (dirty (set_status (what ++ " ok") (set_inFlight false p))) (set_status (what ++ " ok") (set_inFlight false p))), [])).
      { simpl. destruct (focused p); by apply good_badges. }
      cbv zeta. match goal with |- context [if store ?q then _ else _] => destruct (store q); [|done] end.
      destruct Hg as (H1 & H2 & _). match goal with |- context [issueLoad now ?q] => destruct (good_load now q H1) as (H3 & H4 & H5) end.
      split_and!; [done|exact (eq_trans H4 H2)|]. by constructor.
  - case_bool_decide; [by apply good_keep|]. unfold selectDeviceBySerial.
    destruct (index_of_serial _ _ _) as [i|] eqn:Hi; [|by apply good_keep].
    apply index_of_serial_range in Hi. destruct Hp as (Hv & Hd & Hf).
    split; [|by split; [|constructor]]. split; [done|]. split; [|done]. simpl.
    unfold in_range, max0. zcase; lia.
  - destruct c as [[c ks]|]; [|by apply good_keep]. by apply good_same; [..|apply Hp].
  - unfold onKey. destruct (form p) eqn:Hf; [by apply good_form_key|by apply good_table_key].
Qed.
Lemma good_focused b p : pane_ok p → good p (SetFocused b p, []).
Proof.
  intros Hp. destruct b; unfold SetFocused.
  - match goal with |- context [focusFormField ?q] => destruct (focusFormField_same q) as (? & ? & ? & ?) end.
    apply good_same; [done..|]. intros g Hg. apply focusFormField_form in Hg as (h & Hh & Hfo & Hlen).
    pose proof (proj2 (proj2 Hp) h Hh) as [Hin Hw]. split; [by eapply in_fields_same|done].
  - unfold blurFormField. simpl. destruct (form p) as [f|] eqn:Hf; apply good_same; try done; simpl.
    + intros g [= <-]. pose proof (proj2 (proj2 Hp) f Hf) as [Hin Hw]. split; [|done].
      apply (in_fields_same _ f); [done| |done]. simpl. by rewrite length_fmap.
    + by rewrite Hf.
Qed.

(** Nothing incomplete is written: whatever messages, keys, focus changes
    and configuration reloads arrive, and whatever the text inputs do, the
    pane's cursors stay on their tables and the form's focus on its fields (so
    no index panics), a write is issued only when there is a write backend,
    and every write names all its fields. *)
Theorem session_safe es p :
  pane_ok p →
  let r := session err_text es p in
  pane_ok r.1 ∧ writer r.1 = writer p ∧
  Forall (λ c, (is_write c = true → writeReady p = true) ∧ complete c) r.2.
Proof.
  revert p. induction es as [|e es IH]; intros p Hp; [by split_and!|]. simpl.
  assert (Hg : good p (react err_text e p)).
  { destruct e; [by apply good_update|by apply good_focused]. }
  destruct (react err_text e p) as [p1 cs]. destruct Hg as (H1 & H2 & H3). simpl in *.
  specialize (IH p1 H1). destruct (session err_text es p1) as [p2 ds]. simpl in *. destruct IH as (H4 & H5 & H6).
  split_and!; [done|congruence|]. apply Forall_app. split; [done|].
  eapply Forall_impl; [exact H6|]. unfold writeReady. by rewrite H2.
Qed.
End PaneLaws.

(** ** The device view *)

Definition serial_of (r : DeviceOTA) : string := i_serial (info r).
Definition after (a b : DeviceOTA) : Prop := String.leb (serial_of b) (serial_of a) = true.
Lemma ltb_leb a b : String.ltb a b = false → String.leb b a = true.
Proof.
  unfold String.ltb, String.leb. rewrite (String.compare_antisym a b). by destruct (String.compare b a).
Qed.
Lemma ltb_leb_true a b : String.ltb a b = true → String.leb a b = true.
Proof. unfold String.ltb, String.leb. by destruct (String.compare a b). Qed.
#[global] Instance after_trans : Transitive after.
Proof.
  intros a b c. unfold after. intros H1 H2. apply Is_true_true.
  apply (transitivity (R := String.le) (y := serial_of b)); by apply Is_true_true.
Qed.
Lemma bubble_perm x l : bubble x l ≡ₚ x :: l.
Proof.
  induction l as [|y l IH]; simpl; [done|]. destruct (String.ltb _ _); [|done]. rewrite IH. apply perm_swap.
Qed.
Lemma bubble_sorted x l : StronglySorted after l → StronglySorted after (bubble x l).
Proof.
  induction l as [|y l IH]; intros Hs; simpl; [repeat constructor|].
  apply StronglySorted_inv in Hs as Hs'. destruct Hs' as [Hl Hy].
  destruct (String.ltb _ _) eqn:Hc.
  - constructor; [by apply IH|]. rewrite bubble_perm. constructor; [by apply ltb_leb_true|done].
  - constructor; [done|]. assert (Hxy : after x y) by by apply ltb_leb.
    constructor; [done|]. eapply Forall_impl; [exact Hy|]. intros z Hz. by transitivity y.
Qed.
Lemma after_reverse l :
  StronglySorted after l → StronglySorted (λ a b, String.leb (serial_of a) (serial_of b) = true) (reverse l).
Proof.
  induction 1 as [|x k Hk IH Hx]; [constructor|]. rewrite reverse_cons. apply StronglySorted_app.
  split_and!; [|done|repeat constructor].
  intros a b Ha ->%list_elem_of_singleton. rewrite elem_of_reverse in Ha. by eapply Forall_forall in Hx.
Qed.
(** The device view has one row per device, in serial order: its target is
    the resolver's, and a device is shown behind exactly if it reported a
    version, a target is offered and the two differ. *)
Theorem device_view devices st precedence :
  let rows := BuildDeviceOTA devices st precedence in
  info <$> rows ≡ₚ devices ∧ StronglySorted (λ a b, String.leb (serial_of a) (serial_of b) = true) rows ∧
  Forall (λ r, Resolved r = Resolve (info r) (Rollouts st) (Channels st) precedence ∧
    (Behind r = true ↔ HasReport (info r) = true ∧ RunningVer (info r) ≠ ""%string ∧
       r_version (Resolved r) ≠ ""%string ∧ RunningVer (info r) ≠ r_version (Resolved r))) rows.
Proof.
  cbv zeta. unfold BuildDeviceOTA, sortDevicesBySerial.
  set (mk := λ d, MkDevice d _ _ _). set (l := mk <$> devices).
  assert (Hfold : ∀ k acc, foldl (λ acc x, bubble x acc) acc k ≡ₚ k ++ acc).
  { induction k as [|x k IH]; intros acc; simpl; [done|]. rewrite IH, bubble_perm. symmetry. apply Permutation_middle. }
  assert (Hsort : ∀ k acc, StronglySorted after acc → StronglySorted after (foldl (λ acc x, bubble x acc) acc k)).
  { induction k as [|x k IH]; intros acc Hacc; simpl; [done|]. by apply IH, bubble_sorted. }
  assert (Hperm : reverse (foldl (λ acc x, bubble x acc) [] l) ≡ₚ l) by (rewrite reverse_Permutation, Hfold; by rewrite app_nil_r).
  split_and!.
  - rewrite Hperm. unfold l. rewrite <-list_fmap_compose. by rewrite list_fmap_id.
  - apply after_reverse, Hsort. constructor.
  - rewrite Hperm. unfold l. apply Forall_fmap, Forall_true. intros d. simpl. split; [done|].
    unfold behind. rewrite !andb_true_iff, !negb_true_iff, !bool_decide_eq_false. tauto.
Qed.

(** ** What the modelling showed *)

(** A reload does not rebuild the writer, although [applyConfig] says so: a
    pane opened with direct writes goes on writing after they are turned off. *)
Theorem reload_keeps_writer {TI : TextInput} err_text now c ks (p : otaPane) :
  writer (Update err_text now (ConfigChangedMsg (Some (c, ks))) p).1 = writer p.
Proof. done. Qed.

(** The in-flight guard is one flag for loads and writes: a load that ends
    while a write runs clears it, and the next tick reads beside the write. *)
Theorem busy_guard_lost {TI : TextInput} err_text (p : otaPane) s now :
  inFlight p = true → store p = true → lastLoadAt p = Some 0 → currentInterval p ≤ now →
  (session err_text [Message now (otaStateMsg s now); Message now tickMsg] p).2 = [CTick; CLoad (precedence p) (fleetCap p)].
Proof.
  intros Hf Hs Hl Hn. simpl. unfold clampCursors, markDirty. cbn [focused set_cursor upd].
  assert (Hi : (currentInterval p <=? now - 0) = true) by (apply Z.leb_le; lia).
  destruct (focused p); simpl; unfold onTick; simpl; rewrite Hs, Hl; cbn -[currentInterval];
    (replace (currentInterval _) with (currentInterval p) by done); rewrite Hi; by destruct (forceLoad p).
Qed.

(** The backend opens a download under the base name of blob_path, and the
    direct backend records <version>/firmware.bin: every version it registers
    has the same file, and none the file named by its digest. *)
Theorem direct_blobs_share_a_name :
  (λ v, string_of_bytes (path_base (bytes_of_string (blobPathFor "" "" v)))) <$> ["1.0"; "1.1"; "2.0-rc1"]%string =
  ["firmware.bin"; "firmware.bin"; "firmware.bin"]%string.
Proof. reflexivity. Qed.

(** ** Examples *)

#[local] Opaque sha256.
Definition ex_db : ota_db := MkDb Rollout.ex_tables {[2]} ∅ ∅.
Definition ex_dev : DeviceInfo := MkInfo "p1" "desk" "stable" "1.0" 5 true.
Lemma predicted_is_served_witness :
  ∃ r, Rollout.ResolveTarget "p1" Rollout.ex_tables [] = (Ok r, Rollout.ex_tables, []) ∧
    r_version (Resolve ex_dev (rollouts_of String.leb ex_db) (channels_of String.leb ex_db) []) = Rollout.Version r.
Proof.
  apply (predicted_is_served String.leb ex_db ex_dev (Rollout.MkDevice "stable" None None)).
  - exact (proj1 Rollout.ex_tables_wf).
  - apply Forall_forall. repeat constructor; done.
  - vm_compute. reflexivity.
  - done.
  - done.
Defined.

Definition plain : TextInput := {| input := string; newInput := λ _ v, v; Value := λ v, v; SetValue := λ v _, v;
  Focus := λ v, v; Blur := λ v, v; Edit := λ k v, (v ++ k)%string |}.
Definition ex_ota_cfg : OtaCfg := MkOtaCfg true "" "" "stable" [] 0 "" "" 0.
Definition ex_keys : gmap string (list string) := {["pin"%string := ["p"%string]]}.
Definition ex_pane : @otaPane plain := @New plain (λ _, ""%string) true ex_ota_cfg ex_keys.
Definition ex_keys_pressed : list (@event) :=
  (λ k, Message 0 (KeyPressMsg k)) <$> ["p"; "*"; "down"; "down"; "1"; "enter"; "enter"]%string.
Lemma ex_pane_ok : @pane_ok plain ex_pane.
Proof. split_and!; [vm_compute; by split|vm_compute; by split|]. intros f. vm_compute. discriminate. Qed.
Lemma session_safe_witness :
  let r := @session plain (λ _, ""%string) ex_keys_pressed ex_pane in
  pane_ok r.1 ∧ writer r.1 = writer ex_pane ∧
  Forall (λ c, (is_write c = true → writeReady ex_pane = true) ∧ complete c) r.2.
Proof. exact (@session_safe plain (λ _, ""%string) ex_keys_pressed ex_pane ex_pane_ok). Defined.
Example ex_session : (@session plain (λ _, ""%string) ex_keys_pressed ex_pane).2 = [CPin (MkPin "*" "stable" "1" true)].
Proof. vm_compute. reflexivity. Qed.
End OpsOtaLaws.
