(* ===== verification/OpsKeys.v ===== *)
(** * The console's key bindings ([tools/picpak-ops/internal/config/keymap.go],
    [internal/keys])

    Parsing the configured keyspecs into single keys and two-key chords, the
    check that no keyspec of a scope has two owners, and the chord machine that
    turns key presses into chrome actions or passes them to the pane. *)

From S2P Require Import Prelude GoLib GoText.
Import GoLib GoText.

Module OpsKeys.

(** ** Parsing (config/keymap.go) *)

Record ChordSpec := MkChord { Prefix : string; Key : string }.
#[global] Instance ChordSpec_eq_dec : EqDecision ChordSpec.
Proof. solve_decision. Defined.

(** The spawn table is in the order the range over the map visits it. *)
Record Keys := MkKeys {
  Quit : list string; Help : list string; NextTab : list string; PrevTab : list string;
  FocusN : string; Spawn : list (string * list string); ClosePane : list string; Split : list string }.

Record Binding := MkBinding { b_keys : list string; b_help : string; b_desc : string }.
Record Keymap := MkKeymap { Bindings : gmap string Binding; Chords : gmap string (list ChordSpec) }.
Definition noKeys : Keymap := MkKeymap ∅ ∅.

Inductive keyErr :=
| EmptyBinding (action : string)
| BadChord (spec : string)
| DoubleBind (spec first second scope : string).
#[global] Instance keyErr_eq_dec : EqDecision keyErr.
Proof. solve_decision. Defined.

Definition Fields (s : string) : list string := string_of_bytes <$> fields (bytes_of_string s).
Fixpoint Join (l : list string) (sep : string) : string :=
  match l with [] => "" | [s] => s | s :: l => s ++ sep ++ Join l sep end%string.

Definition parseChord (spec : string) : result keyErr (option ChordSpec) :=
  if negb (Contains spec " ") then Ok None
  else match Fields spec with
       | [p; k] => Ok (Some (MkChord p k))
       | _ => Err (BadChord spec)
       end.

Definition add_chord (action : string) (cs : ChordSpec) (km : Keymap) : Keymap :=
  MkKeymap (Bindings km) (<[action := default [] (Chords km !! action) ++ [cs]]> (Chords km)).
Fixpoint add_specs (action : string) (specs singles : list string) (km : Keymap)
    : result keyErr (list string * Keymap) :=
  match specs with
  | [] => Ok (singles, km)
  | raw :: specs =>
      let spec := TrimSpace raw in
      if bool_decide (spec = ""%string) then Err (EmptyBinding action)
      else match parseChord spec with
           | Err e => Err e
           | Ok (Some cs) => add_specs action specs singles (add_chord action cs km)
           | Ok None => add_specs action specs (singles ++ [spec]) km
           end
  end.
Definition addAction (action : string) (specs : list string) (km : Keymap) : result keyErr Keymap :=
  match add_specs action specs [] km with
  | Err e => Err e
  | Ok ([], km) => Ok km
  | Ok (singles, km) =>
      Ok (MkKeymap (<[action := MkBinding singles (Join singles "/") action]> (Bindings km)) (Chords km))
  end.

Definition spawn_action (kind : string) : string := ("spawn." ++ kind)%string.
(** The actions and their specs, in the order BuildKeymap adds them. *)
Definition actions (k : Keys) : list (string * list string) :=
  [("quit", Quit k); ("help", Help k); ("next_tab", NextTab k); ("prev_tab", PrevTab k);
   ("close_pane", ClosePane k); ("split", Split k)]%string ++ (prod_map spawn_action id <$> Spawn k).
Fixpoint add_all (l : list (string * list string)) (km : Keymap) : result keyErr Keymap :=
  match l with
  | [] => Ok km
  | (action, specs) :: l =>
      match addAction action specs km with Ok km => add_all l km | Err e => Err e end
  end.
Definition BuildKeymap (k : Keys) : result keyErr Keymap := add_all (actions k) noKeys.

(** ** One owner for a keyspec *)

Definition scopedKeyspec (spec : string) : string := Join (Fields spec) " ".

Definition sorted_names {A} (m : gmap string A) : list string := merge_sort String.le (map_to_list m).*1.

Fixpoint claim (scope action : string) (specs : list string) (owner : gmap string string)
    : result keyErr (gmap string string) :=
  match specs with
  | [] => Ok owner
  | raw :: specs =>
      let spec := scopedKeyspec raw in
      if bool_decide (spec = ""%string) then claim scope action specs owner
      else match owner !! spec with
           | Some prev =>
               if bool_decide (prev ≠ action) then Err (DoubleBind spec prev action scope)
               else claim scope action specs (<[spec := action]> owner)
           | None => claim scope action specs (<[spec := action]> owner)
           end
  end.
Fixpoint claim_all (scope : string) (m : gmap string (list string)) (names : list string)
    (owner : gmap string string) : result keyErr (gmap string string) :=
  match names with
  | [] => Ok owner
  | a :: names =>
      match claim scope a (default [] (m !! a)) owner with
      | Ok owner => claim_all scope m names owner
      | Err e => Err e
      end
  end.
Definition ValidateKeyScope (scope : string) (m : gmap string (list string)) : option keyErr :=
  match claim_all scope m (sorted_names m) ∅ with Ok _ => None | Err e => Some e end.

Definition global_scope (k : Keys) : gmap string (list string) := list_to_map (reverse (actions k)).
Definition pane_scope (scope : string) (m : gmap string (list string)) : list keyErr :=
  if bool_decide (m = ∅) then [] else option_list (ValidateKeyScope scope m).
(** The messages rule 7 adds; the three maps are the pane keymaps. *)
Definition validateKeymap (k : Keys) (ota telemetry logs : gmap string (list string)) : list keyErr :=
  match BuildKeymap k with Ok _ => [] | Err e => [e] end ++
  option_list (ValidateKeyScope "global" (global_scope k)) ++
  pane_scope "ota" ota ++ pane_scope "telemetry" telemetry ++ pane_scope "logs" logs.

(** ** The chord machine (keys/keymap.go) *)

(** [key.Matches] of the widget library: the key's name against the keys of a
    binding. *)
Class KeyLib := Matches : string → list string → bool.

Inductive Verdict := PassToPane | GlobalAction (action : string) | Swallowed.
#[global] Instance Verdict_eq_dec : EqDecision Verdict.
Proof. solve_decision. Defined.

Record Map := MkMap { km : option Keymap; chordPrefixes : gset string; pendingPrefix : string }.

Definition prefixes (k : Keymap) : gset string :=
  list_to_set (Prefix <$> mjoin ((map_to_list (Chords k)).*2)).
Definition New (k : option Keymap) : Map :=
  MkMap k (match k with None => ∅ | Some k => prefixes k end) "".
Definition PendingPrefix (m : Map) : string := pendingPrefix m.
Definition set_pending (p : string) (m : Map) : Map := MkMap (km m) (chordPrefixes m) p.
Definition Reset (m : Map) : Map := set_pending "" m.

Definition chord_is (p k : string) (cs : ChordSpec) : bool :=
  bool_decide (Prefix cs = p) && bool_decide (OpsKeys.Key cs = k).
Definition matchChord (k : Keymap) (prefix ks : string) : option string :=
  find (λ action, existsb (chord_is prefix ks) (default [] (Chords k !! action))) (sorted_names (Chords k)).

Section Machine.
Context {KL : KeyLib}.

Definition matchSingle (k : Keymap) (ks : string) : option string :=
  find (λ action, match Bindings k !! action with Some b => Matches ks (b_keys b) | None => false end)
    (sorted_names (Bindings k)).

Definition fresh_key (k : Keymap) (m : Map) (ks : string) : Verdict * Map :=
  if bool_decide (ks ∈ chordPrefixes m) then (Swallowed, set_pending ks m)
  else match matchSingle k ks with
       | Some action => (GlobalAction action, m)
       | None => (PassToPane, m)
       end.
Definition Resolve (m : Map) (ks : string) : Verdict * Map :=
  match km m with
  | None => (PassToPane, m)
  | Some k =>
      if bool_decide (pendingPrefix m ≠ ""%string) then
        let m' := set_pending "" m in
        match matchChord k (pendingPrefix m) ks with
        | Some action => (GlobalAction action, m')
        | None => fresh_key k m' ks
        end
      else fresh_key k m ks
  end.
Fixpoint presses (m : Map) (kss : list string) : list Verdict * Map :=
  match kss with
  | [] => ([], m)
  | ks :: kss => let '(v, m) := Resolve m ks in let '(vs, m) := presses m kss in (v :: vs, m)
  end.

End Machine.

Definition HelpBindings (m : Map) : list Binding :=
  match km m with None => [] | Some k => omap (λ a, Bindings k !! a) (sorted_names (Bindings k)) end.

End OpsKeys.

(** * Laws of the key bindings

    What a parsed keymap holds, one owner for a keyspec, and the chord machine
    against a reference that reads the key presses with one key of lookahead. *)

From S2P Require Import Prelude GoLib AdminGate GoText.
Import GoLib GoText OpsKeys.

Module OpsKeysLaws.

(** The documented behaviour of [key.Matches]. *)
Class KeyLaws `{KeyLib} := Matches_spec ks l : Matches ks l = true ↔ ks ∈ l.
Definition match_any : KeyLib := λ ks l, bool_decide (ks ∈ l).
Lemma match_any_laws : @KeyLaws match_any.
Proof. intros ks l. unfold Matches, match_any. by rewrite bool_decide_eq_true. Qed.

(** ** Fields *)

Lemma fields_go_nonempty k cur s w : w ∈ fields_go k cur s → w ≠ [].
Proof.
  revert k cur. induction s as [|c s IH]; intros k cur.
  - destruct cur; simpl; [set_solver|]. intros ->%list_elem_of_singleton. intros E.
    apply (f_equal reverse) in E. by rewrite reverse_involutive in E.
  - assert (Hflush : ∀ cur : bytes, w ∈ match cur with [] => [] | _ => [reverse cur] end → w ≠ []).
    { intros [|x l]; [set_solver|]. intros ->%list_elem_of_singleton E.
      apply (f_equal reverse) in E. by rewrite reverse_involutive in E. }
    cbn [fields_go]. destruct k as [|k]; [|eauto].
    destruct (space_width (c :: s)); [eauto|].
    intros [Hw|Hw]%elem_of_app; eauto.
Qed.

Lemma fields_go_cur k (cur s : bytes) : cur ≠ [] → fields_go k cur s ≠ [].
Proof.
  revert k cur. induction s as [|c s IH]; intros k cur Hc.
  - by destruct cur.
  - cbn [fields_go]. destruct k as [|k]; [|by apply IH].
    destruct (space_width (c :: s)); [by apply IH|]. by destruct cur.
Qed.

Lemma fields_go_nil k s : fields_go k [] s = [] → AdminGate.skip_all_space k s = [].
Proof.
  revert k. induction s as [|c s IH]; intros k; [done|].
  cbn [fields_go AdminGate.skip_all_space]. destruct k as [|k]; [|eauto].
  destruct (space_width (c :: s)); [intros E; by apply fields_go_cur in E|]. simpl. eauto.
Qed.

Lemma string_of_bytes_nil b : string_of_bytes b = ""%string → b = [].
Proof. by destruct b. Qed.
Lemma Fields_nonempty s w : w ∈ Fields s → w ≠ ""%string.
Proof.
  unfold Fields. rewrite list_elem_of_fmap. intros (b & -> & Hb) E%string_of_bytes_nil.
  by apply fields_go_nonempty in Hb.
Qed.
Lemma Fields_nil s : Fields s = [] → TrimSpace s = ""%string.
Proof.
  unfold Fields, TrimSpace. intros E%fmap_nil_inv%fields_go_nil.
  unfold AdminGate.TrimSpace. by rewrite E.
Qed.
Lemma Join_nil l sep : (∀ w, w ∈ l → w ≠ ""%string) → Join l sep = ""%string → l = [].
Proof.
  destruct l as [|a [|b l]]; intros Hl; [done| |]; assert (a ≠ ""%string) by (apply Hl; set_solver);
    by destruct a.
Qed.
Lemma scoped_nil raw : scopedKeyspec raw = ""%string → TrimSpace raw = ""%string.
Proof. intros E%Join_nil; [by apply Fields_nil|]. apply Fields_nonempty. Qed.

(** ** What a parsed keymap holds *)

Definition chords_of (k : Keymap) (a : string) : list ChordSpec := default [] (Chords k !! a).
Definition keys_of (k : Keymap) (a : string) : list string := from_option b_keys [] (Bindings k !! a).
Definition reads (raw : string) (r : option ChordSpec) : Prop :=
  TrimSpace raw ≠ ""%string ∧ parseChord (TrimSpace raw) = Ok r.

Lemma chords_of_add a a' cs k : chords_of (add_chord a cs k) a' = chords_of k a' ++ (if bool_decide (a' = a) then [cs] else []).
Proof.
  unfold chords_of, add_chord. simpl. case_bool_decide as E.
  - subst. by rewrite lookup_insert_eq.
  - rewrite lookup_insert_ne by done. by rewrite app_nil_r.
Qed.

Lemma ex_cons {A} (P : A → Prop) x (l : list A) : (∃ y, y ∈ x :: l ∧ P y) ↔ P x ∨ ∃ y, y ∈ l ∧ P y.
Proof.
  split.
  - intros (y & [->|Hy]%elem_of_cons & HP); [by left|right; eauto].
  - intros [HP|(y & Hy & HP)]; [exists x|exists y]; rewrite elem_of_cons; eauto.
Qed.

Lemma add_specs_spec a specs singles k singles' k' : add_specs a specs singles k = Ok (singles', k') →
  Bindings k' = Bindings k ∧
  (∀ s, s ∈ singles' ↔ s ∈ singles ∨ ∃ raw, raw ∈ specs ∧ reads raw None ∧ s = TrimSpace raw) ∧
  (∀ a' cs, cs ∈ chords_of k' a' ↔ cs ∈ chords_of k a' ∨ a' = a ∧ ∃ raw, raw ∈ specs ∧ reads raw (Some cs)) ∧
  (∀ raw, raw ∈ specs → ∃ r, reads raw r).
Proof.
  revert singles k. induction specs as [|raw specs IH]; intros singles k; cbn [add_specs].
  { intros [= <- <-]. split_and!; [done|set_solver..]. }
  case_bool_decide as Hne; [done|]. destruct (parseChord (TrimSpace raw)) as [[cs|]|e] eqn:Hp; [..|done];
    intros (HB & HS & HC & HR)%IH; (split_and!; [by rewrite HB| | |]).
  - intros s. rewrite HS, ex_cons.
    assert (¬ (reads raw None ∧ s = TrimSpace raw)) by (intros [[_ ?] _]; congruence). tauto.
  - intros a' cs'. rewrite HC, ex_cons, chords_of_add, elem_of_app.
    assert (reads raw (Some cs') ↔ cs' = cs) as -> by (unfold reads; rewrite Hp; naive_solver).
    case_bool_decide; rewrite ?list_elem_of_singleton, ?elem_of_nil; tauto.
  - intros raw' [->|?]%elem_of_cons; [by exists (Some cs)|eauto].
  - intros s. rewrite HS, ex_cons, elem_of_app, list_elem_of_singleton.
    assert (reads raw None ∧ s = TrimSpace raw ↔ s = TrimSpace raw) as -> by (unfold reads; tauto). tauto.
  - intros a' cs'. rewrite HC, ex_cons.
    assert (¬ reads raw (Some cs')) by (intros [_ ?]; congruence). tauto.
  - intros raw' [->|?]%elem_of_cons; [by exists None|eauto].
Qed.

Lemma addAction_spec a specs k k' : addAction a specs k = Ok k' → Bindings k !! a = None →
  (∀ a' s, s ∈ keys_of k' a' ↔ s ∈ keys_of k a' ∨ a' = a ∧ ∃ raw, raw ∈ specs ∧ reads raw None ∧ s = TrimSpace raw) ∧
  (∀ a' cs, cs ∈ chords_of k' a' ↔ cs ∈ chords_of k a' ∨ a' = a ∧ ∃ raw, raw ∈ specs ∧ reads raw (Some cs)) ∧
  (∀ raw, raw ∈ specs → ∃ r, reads raw r) ∧
  (∀ a', a' ≠ a → Bindings k' !! a' = Bindings k !! a').
Proof.
  unfold addAction. intros H Ha. destruct (add_specs a specs [] k) as [[singles k1]|e] eqn:Hs; [|done].
  apply add_specs_spec in Hs as (HB & HS & HC & HR). setoid_rewrite elem_of_nil in HS.
  assert (Hk : keys_of k a = []) by (unfold keys_of; by rewrite Ha).
  assert (Hb : ∀ a', Bindings k' !! a' = if bool_decide (a' = a ∧ singles ≠ []) then
    Some (MkBinding singles (Join singles "/") a) else Bindings k !! a').
  { intros a'. destruct singles; injection H as <-; simpl.
    - rewrite bool_decide_false by naive_solver. by rewrite HB.
    - destruct (decide (a' = a)) as [->|].
      + rewrite bool_decide_true by done. by rewrite lookup_insert_eq.
      + rewrite bool_decide_false by naive_solver. by rewrite lookup_insert_ne, HB. }
  assert (HC' : ∀ a', chords_of k' a' = chords_of k1 a') by (intros a'; by destruct singles; injection H as <-).
  split_and!; [| |done|].
  - intros a' s. unfold keys_of at 1. rewrite Hb. case_bool_decide as E; simpl.
    + destruct E as [-> _]. rewrite Hk, elem_of_nil, HS. tauto.
    + fold (keys_of k a'). destruct (decide (a' = a)) as [->|]; [|tauto].
      assert (singles = []) as -> by (destruct (decide (singles = [])); tauto).
      specialize (HS s). rewrite elem_of_nil in HS. tauto.
  - intros a' cs. by rewrite HC', HC.
  - intros a' Hn. rewrite Hb, bool_decide_false; [done|tauto].
Qed.

Lemma add_all_spec l k k' : add_all l k = Ok k' → NoDup l.*1 → (∀ a, a ∈ l.*1 → Bindings k !! a = None) →
  (∀ a s, s ∈ keys_of k' a ↔
     s ∈ keys_of k a ∨ ∃ specs, (a, specs) ∈ l ∧ ∃ raw, raw ∈ specs ∧ reads raw None ∧ s = TrimSpace raw) ∧
  (∀ a cs, cs ∈ chords_of k' a ↔
     cs ∈ chords_of k a ∨ ∃ specs, (a, specs) ∈ l ∧ ∃ raw, raw ∈ specs ∧ reads raw (Some cs)) ∧
  (∀ a specs raw, (a, specs) ∈ l → raw ∈ specs → ∃ r, reads raw r).
Proof.
  revert k. induction l as [|[a specs] l IH]; intros k; cbn [add_all].
  { intros [= <-] _ _. split_and!; [set_solver..|]. intros a specs raw []%elem_of_nil. }
  destruct (addAction a specs k) as [k1|e] eqn:H1; [|done].
  intros H [Hn Hd]%NoDup_cons Hf.
  apply addAction_spec in H1 as (HK & HC & HR & HO); [|apply Hf; set_solver].
  apply IH in H as (HK' & HC' & HR'); [|done|].
  2: { intros a' Ha'. rewrite HO by (intros ->; done). apply Hf. set_solver. }
  assert (Hcons : ∀ a' (Q : list string → Prop),
    (∃ sp, (a', sp) ∈ (a, specs) :: l ∧ Q sp) ↔ (a' = a ∧ Q specs) ∨ ∃ sp, (a', sp) ∈ l ∧ Q sp).
  { intros a' Q. split.
    - intros (sp & [[= -> ->]|Hin]%elem_of_cons & HQ); [by left|right; eauto].
    - intros [[-> HQ]|(sp & Hin & HQ)]; eexists; rewrite elem_of_cons; eauto. }
  split_and!.
  - intros a' s. rewrite HK', HK, Hcons. tauto.
  - intros a' cs. rewrite HC', HC, Hcons. tauto.
  - intros a' sp raw [[= -> ->]|?]%elem_of_cons ?; eauto.
Qed.

Lemma actions_NoDup k : NoDup (Spawn k).*1 → NoDup (actions k).*1.
Proof.
  intros Hd. unfold actions. rewrite fmap_app, <-list_fmap_compose.
  replace (fst ∘ prod_map spawn_action id <$> Spawn k) with (spawn_action <$> (Spawn k).*1)
    by (rewrite <-list_fmap_compose; apply list_fmap_ext; by intros ? [? ?] ?).
  apply NoDup_app. split_and!.
  - by apply (bool_decide_unpack _); vm_compute.
  - intros x Hx (kind & -> & _)%list_elem_of_fmap. revert Hx. cbn. unfold spawn_action.
    rewrite !elem_of_cons, elem_of_nil. intros Hx. decompose [or] Hx; try done.
  - apply NoDup_fmap_2; [|done]. intros x y. apply (inj (String.append "spawn.")).
Qed.

Lemma BuildKeymap_spec k m : BuildKeymap k = Ok m → NoDup (Spawn k).*1 →
  (∀ a s, s ∈ keys_of m a ↔ ∃ specs, (a, specs) ∈ actions k ∧ ∃ raw, raw ∈ specs ∧ reads raw None ∧ s = TrimSpace raw) ∧
  (∀ a cs, cs ∈ chords_of m a ↔ ∃ specs, (a, specs) ∈ actions k ∧ ∃ raw, raw ∈ specs ∧ reads raw (Some cs)) ∧
  (∀ a specs raw, (a, specs) ∈ actions k → raw ∈ specs → ∃ r, reads raw r).
Proof.
  intros H Hd%actions_NoDup. apply add_all_spec in H as (HK & HC & HR); [|done|done].
  split_and!; [| |done]; intros a s; rewrite ?HK, ?HC.
  - assert (keys_of noKeys a = []) as -> by done. rewrite elem_of_nil. tauto.
  - assert (chords_of noKeys a = []) as -> by done. rewrite elem_of_nil. tauto.
Qed.

Lemma parseChord_fields spec cs : parseChord spec = Ok (Some cs) → Fields spec = [Prefix cs; OpsKeys.Key cs].
Proof.
  unfold parseChord. destruct (negb _); [done|]. destruct (Fields spec) as [|p [|c [|]]]; try done. by intros [= <-].
Qed.
Lemma prefix_nonempty raw cs : reads raw (Some cs) → Prefix cs ≠ ""%string.
Proof. intros [_ H%parseChord_fields]. apply (Fields_nonempty (TrimSpace raw)). rewrite H. set_solver. Qed.

Lemma elem_of_prefixes m p : p ∈ prefixes m ↔ ∃ a cs, cs ∈ chords_of m a ∧ Prefix cs = p.
Proof.
  unfold prefixes. rewrite elem_of_list_to_set, list_elem_of_fmap. setoid_rewrite list_elem_of_join.
  setoid_rewrite list_elem_of_fmap. split.
  - intros (cs & -> & l & Hcs & [a l'] & -> & Ha%elem_of_map_to_list). exists a, cs. unfold chords_of. by rewrite Ha.
  - intros (a & cs & Hcs & <-). unfold chords_of in Hcs. destruct (Chords m !! a) as [l|] eqn:E; [|set_solver].
    exists cs. split; [done|]. exists l. split; [done|]. exists (a, l). by rewrite elem_of_map_to_list.
Qed.

(** ** One owner *)

Lemma claim_spec scope a specs owner owner' : claim scope a specs owner = Ok owner' →
  owner ⊆ owner' ∧ ∀ raw, raw ∈ specs → scopedKeyspec raw ≠ ""%string → owner' !! scopedKeyspec raw = Some a.
Proof.
  revert owner. induction specs as [|raw specs IH]; intros owner; cbn [claim].
  { intros [= ->]. split; [done|]. set_solver. }
  case_bool_decide as Hne.
  { intros (Hs & Hr)%IH. split; [done|]. intros raw' [->|?]%elem_of_cons ?; [done|eauto]. }
  assert (Hstep : ∀ o : gmap string string, (∀ v, o !! scopedKeyspec raw = Some v → v = a) →
    claim scope a specs (<[scopedKeyspec raw := a]> o) = Ok owner' →
    o ⊆ owner' ∧ ∀ raw', raw' ∈ raw :: specs → scopedKeyspec raw' ≠ ""%string → owner' !! scopedKeyspec raw' = Some a).
  { intros o Ho (Hs & Hr)%IH. split.
    - etrans; [|done]. apply map_subseteq_spec. intros s v Hv. destruct (decide (s = scopedKeyspec raw)) as [->|].
      + rewrite lookup_insert_eq. by rewrite (Ho v Hv).
      + by rewrite lookup_insert_ne.
    - intros raw' [->|?]%elem_of_cons ?; [|eauto].
      eapply lookup_weaken; [|done]. by rewrite lookup_insert_eq. }
  destruct (owner !! scopedKeyspec raw) as [prev|] eqn:E.
  - case_bool_decide as Hp; [done|]. apply Hstep. intros v. rewrite E. intros [= <-]. by destruct (decide (prev = a)).
  - apply Hstep. by rewrite E.
Qed.

Lemma claim_all_spec scope m names owner owner' : claim_all scope m names owner = Ok owner' →
  owner ⊆ owner' ∧ ∀ a raw, a ∈ names → raw ∈ default [] (m !! a) → scopedKeyspec raw ≠ ""%string →
  owner' !! scopedKeyspec raw = Some a.
Proof.
  revert owner. induction names as [|a names IH]; intros owner; cbn [claim_all].
  { intros [= ->]. split; [done|]. set_solver. }
  destruct (claim scope a _ owner) as [o|e] eqn:Hc; [|done]. apply claim_spec in Hc as [Hs1 Hr1].
  intros (Hs & Hr)%IH. split; [by etrans|].
  intros a' raw [->|?]%elem_of_cons Hraw Hne; [|eauto]. eapply lookup_weaken; [|done]. eauto.
Qed.

Lemma elem_of_sorted {A} (m : gmap string A) a : a ∈ sorted_names m ↔ is_Some (m !! a).
Proof.
  unfold sorted_names. rewrite merge_sort_Permutation, list_elem_of_fmap. split.
  - intros ([a' x] & -> & H%elem_of_map_to_list). eauto.
  - intros [x Hx]. exists (a, x). by rewrite elem_of_map_to_list.
Qed.

Lemma one_owner scope m a1 a2 raw1 raw2 : ValidateKeyScope scope m = None →
  raw1 ∈ default [] (m !! a1) → raw2 ∈ default [] (m !! a2) →
  scopedKeyspec raw1 = scopedKeyspec raw2 → scopedKeyspec raw1 ≠ ""%string → a1 = a2.
Proof.
  unfold ValidateKeyScope. destruct (claim_all _ _ _ _) as [o|e] eqn:H; [|done]. intros _ H1 H2 He Hne.
  apply claim_all_spec in H as [_ Hr].
  assert (Hin : ∀ a raw, raw ∈ default [] (m !! a) → a ∈ sorted_names m).
  { intros a raw Ha. apply elem_of_sorted. destruct (m !! a); [done|set_solver]. }
  pose proof (Hr a1 raw1 (Hin _ _ H1) H1 Hne) as E1. rewrite He in Hne. pose proof (Hr a2 raw2 (Hin _ _ H2) H2 Hne) as E2.
  congruence.
Qed.

Lemma global_scope_lookup k a specs : NoDup (Spawn k).*1 → (a, specs) ∈ actions k → global_scope k !! a = Some specs.
Proof.
  intros Hd%actions_NoDup Hin. unfold global_scope. apply elem_of_list_to_map_1.
  - rewrite fmap_reverse. by rewrite reverse_Permutation.
  - by rewrite elem_of_reverse.
Qed.

(** ** First matching action *)

Lemma find_unique {A} (f : A → bool) (l : list A) x : x ∈ l → f x = true → (∀ y, y ∈ l → f y = true → y = x) →
  find f l = Some x.
Proof.
  induction l as [|y l IH]; [by intros ?%elem_of_nil|]. intros Hx Hf Hu. simpl. destruct (f y) eqn:E.
  - f_equal. apply Hu; [set_solver|done].
  - apply elem_of_cons in Hx as [->|Hx]; [congruence|]. apply IH; [done..|]. intros z Hz. apply Hu. set_solver.
Qed.

Lemma chord_is_iff p c cs : chord_is p c cs = true ↔ cs = MkChord p c.
Proof.
  unfold chord_is. rewrite andb_true_iff, !bool_decide_eq_true. destruct cs; simpl. naive_solver.
Qed.
Lemma existsb_elem {A} (f : A → bool) (l : list A) : existsb f l = true ↔ ∃ x, x ∈ l ∧ f x = true.
Proof. rewrite existsb_exists. setoid_rewrite list_elem_of_In. done. Qed.
Lemma existsb_chord p c l : existsb (chord_is p c) l = true ↔ MkChord p c ∈ l.
Proof. rewrite existsb_elem. setoid_rewrite chord_is_iff. naive_solver. Qed.

Section WithLib.
Context `{KL : KeyLib} {KLW : KeyLaws}.

Lemma matchChord_unique m a p c : MkChord p c ∈ chords_of m a → (∀ a', MkChord p c ∈ chords_of m a' → a' = a) →
  matchChord m p c = Some a.
Proof.
  intros Ha Hu. unfold matchChord. apply find_unique.
  - apply elem_of_sorted. unfold chords_of in Ha. destruct (Chords m !! a); [done|set_solver].
  - by apply existsb_chord.
  - intros a' _ Ha'%existsb_chord. by apply Hu.
Qed.
Lemma matchSingle_unique m a s : s ∈ keys_of m a → (∀ a', s ∈ keys_of m a' → a' = a) → matchSingle m s = Some a.
Proof.
  intros Ha Hu. unfold matchSingle, keys_of in *. apply find_unique.
  - apply elem_of_sorted. destruct (Bindings m !! a); [done|set_solver].
  - destruct (Bindings m !! a); simpl in *; [|set_solver]. by apply Matches_spec.
  - intros a' _ Ha'. apply Hu. destruct (Bindings m !! a'); simpl; [|done]. by apply Matches_spec.
Qed.

(** ** A validated keymap does what the configuration says *)

(** When the configured bindings pass validation (and are written without
    surrounding space), each of them does what it says: its chord, pressed from
    idle, is swallowed and then fires exactly its action; its single key fires its
    action at once, whatever order the maps are read in, unless a chord begins with
    that key. *)
Theorem validated_bindings_fire k ota tele logs :
  validateKeymap k ota tele logs = [] → NoDup (Spawn k).*1 →
  (∀ a specs raw, (a, specs) ∈ actions k → raw ∈ specs → TrimSpace raw = raw) →
  ∃ m, BuildKeymap k = Ok m ∧
    ∀ a specs raw, (a, specs) ∈ actions k → raw ∈ specs →
      match parseChord raw with
      | Ok (Some (MkChord p c)) =>
          presses (New (Some m)) [p; c] = ([Swallowed; GlobalAction a], New (Some m))
      | Ok None => raw ∉ prefixes m → Resolve (New (Some m)) raw = (GlobalAction a, New (Some m))
      | Err _ => False
      end.
Proof.
  unfold validateKeymap. intros Hv Hd Ht. destruct (BuildKeymap k) as [m|e] eqn:Hb; [|done].
  exists m. split; [done|]. simpl in Hv.
  destruct (ValidateKeyScope "global" (global_scope k)) eqn:Hg; [done|]. clear Hv.
  apply BuildKeymap_spec in Hb as (HK & HC & HR); [|done].
  assert (Hown : ∀ a1 s1 raw1 a2 s2 raw2, (a1, s1) ∈ actions k → raw1 ∈ s1 → (a2, s2) ∈ actions k → raw2 ∈ s2 →
    Fields raw1 = Fields raw2 → a1 = a2).
  { intros a1 s1 raw1 a2 s2 raw2 H1 R1 H2 R2 He. eapply (one_owner _ _ a1 a2 raw1 raw2 Hg).
    - by rewrite (global_scope_lookup _ _ _ Hd H1).
    - by rewrite (global_scope_lookup _ _ _ Hd H2).
    - unfold scopedKeyspec. by rewrite He.
    - intros E%scoped_nil. destruct (HR a1 s1 raw1 H1 R1) as [r [Hne _]]. done. }
  intros a specs raw Ha Hraw. destruct (HR a specs raw Ha Hraw) as [r Hr]. pose proof Hr as [Hne Hp].
  rewrite (Ht _ _ _ Ha Hraw) in Hp. rewrite Hp. destruct r as [[p c]|].
  - assert (Hin : MkChord p c ∈ chords_of m a) by (apply HC; eauto).
    assert (Hpre : p ∈ prefixes m) by (apply elem_of_prefixes; by exists a, (MkChord p c)).
    assert (Hpe : p ≠ ""%string) by (by apply (prefix_nonempty raw (MkChord p c))).
    unfold presses, Resolve, fresh_key. simpl. rewrite bool_decide_true by done. simpl.
    rewrite bool_decide_true by done.
    rewrite (matchChord_unique m a p c); [done..|].
    intros a' (s' & Ha' & raw' & Hraw' & Hr')%HC. eapply (Hown a' s' raw' a specs raw); [done..|].
    destruct Hr' as [_ Hp']. rewrite (Ht _ _ _ Ha' Hraw') in Hp'.
    apply parseChord_fields in Hp, Hp'. congruence.
  - intros Hnp. assert (Hin : raw ∈ keys_of m a).
    { apply HK. exists specs. split; [done|]. exists raw. split_and!; [done..|]. symmetry. eauto. }
    unfold Resolve, fresh_key. simpl. rewrite bool_decide_false by done.
    rewrite (matchSingle_unique m a raw); [done..|].
    intros a' (s' & Ha' & raw' & Hraw' & Hr' & E)%HK. rewrite (Ht _ _ _ Ha' Hraw') in E. subst raw'.
    by eapply (Hown a' s' raw a specs raw).
Qed.

(** ** The chord machine reads with one key of lookahead *)

Definition single_verdict (m : Keymap) (k : string) : Verdict :=
  match matchSingle m k with Some a => GlobalAction a | None => PassToPane end.
Fixpoint decode (m : Keymap) (kss : list string) : list Verdict :=
  match kss with
  | [] => []
  | k :: kss =>
      if bool_decide (k ∈ prefixes m) then
        Swallowed ::
        match kss with
        | k' :: kss' => match matchChord m k k' with
                        | Some a => GlobalAction a :: decode m kss'
                        | None => decode m kss
                        end
        | [] => []
        end
      else single_verdict m k :: decode m kss
  end.

Lemma presses_idle m kss (Hne : ""%string ∉ prefixes m) :
  (presses (New (Some m)) kss).1 = decode m kss ∧
  ∀ p, p ∈ prefixes m → (presses (set_pending p (New (Some m))) kss).1 =
    match kss with
    | k :: kss' => match matchChord m p k with Some a => GlobalAction a :: decode m kss' | None => decode m kss end
    | [] => []
    end.
Proof.
  induction kss as [|k kss [IH1 IH2]]; [done|].
  assert (Hfresh : (let '(v, m') := fresh_key m (New (Some m)) k in let '(vs, m'') := presses m' kss in (v :: vs, m'')).1
    = decode m (k :: kss)).
  { unfold fresh_key. cbn [decode New km chordPrefixes].
    case_bool_decide as Hk.
    - specialize (IH2 k Hk). destruct (presses (set_pending k _) kss) as [vs m'']. simpl in *. by rewrite IH2.
    - unfold single_verdict. destruct (matchSingle m k); destruct (presses (New (Some m)) kss); simpl in *; by rewrite IH1. }
  split.
  - cbn [presses]. unfold Resolve. cbn [New km pendingPrefix]. rewrite bool_decide_false by (intros E; by apply E).
    exact Hfresh.
  - intros p Hp. cbn [presses]. unfold Resolve. cbn [New km pendingPrefix set_pending].
    rewrite bool_decide_true by (by intros ->).
    change (set_pending "" (set_pending p (New (Some m)))) with (New (Some m)).
    destruct (matchChord m p k) as [a|]; [|exact Hfresh].
    destruct (presses (New (Some m)) kss). simpl in *. by rewrite IH1.
Qed.

(** On any run of key presses the chord machine gives the verdicts of a reader
    with one key of lookahead: a key that begins a chord is swallowed, the next
    key completes the chord or is read afresh (a missed chord never eats it), and
    any other key is its binding or goes to the pane. *)
Theorem chords_decode k m kss : BuildKeymap k = Ok m → NoDup (Spawn k).*1 →
  (presses (New (Some m)) kss).1 = decode m kss.
Proof.
  intros Hb Hd. apply presses_idle. intros (a & cs & Hcs & He)%elem_of_prefixes.
  apply BuildKeymap_spec in Hb as (_ & HC & _); [|done].
  apply HC in Hcs as (specs & _ & raw & _ & Hr). by apply prefix_nonempty in Hr.
Qed.

(** A key that begins a chord never fires its own binding: the validation lets
    both stand, since it compares whole keyspecs. *)
Theorem prefix_shadows_key m p : p ∈ prefixes m → (Resolve (New (Some m)) p).1 = Swallowed.
Proof. intros Hp. unfold Resolve, fresh_key. simpl. by rewrite bool_decide_true. Qed.

End WithLib.

#[local] Existing Instance match_any.
#[local] Existing Instance match_any_laws.

Definition demo_keys : Keys := MkKeys ["q"; "ctrl+c"] ["?"] ["tab"] ["shift+tab"] "alt+" [("build", ["ctrl+b z"; "b"])] [] [].

Lemma validated_bindings_fire_witness :
  presses (New (Some (match BuildKeymap demo_keys with Ok m => m | Err _ => noKeys end))) ["ctrl+b"; "z"]%string =
  ([Swallowed; GlobalAction "spawn.build"], New (Some (match BuildKeymap demo_keys with Ok m => m | Err _ => noKeys end))).
Proof.
  destruct (validated_bindings_fire demo_keys ∅ ∅ ∅) as (m & Hm & Hf); [by vm_compute|apply (bool_decide_unpack _); by vm_compute| |].
  - intros a specs raw Ha Hr.
    assert (Hall : Forall (λ e : string * list string, Forall (λ raw, TrimSpace raw = raw) e.2) (actions demo_keys))
      by (apply (bool_decide_unpack _); by vm_compute).
    rewrite Forall_forall in Hall. specialize (Hall _ Ha). simpl in Hall. rewrite Forall_forall in Hall. by apply Hall.
  - rewrite Hm. apply (Hf "spawn.build"%string ["ctrl+b z"; "b"]%string "ctrl+b z"%string);
      apply (bool_decide_unpack _); by vm_compute.
Defined.

Lemma chords_decode_witness :
  (presses (New (Some (match BuildKeymap demo_keys with Ok m => m | Err _ => noKeys end))) ["ctrl+b"; "q"; "x"]%string).1 =
  [Swallowed; GlobalAction "quit"; PassToPane].
Proof.
  destruct (BuildKeymap demo_keys) as [m|] eqn:Hm; [|by vm_compute in Hm].
  rewrite (chords_decode demo_keys m _ Hm); [|apply (bool_decide_unpack _); by vm_compute].
  vm_compute in Hm. injection Hm as <-. by vm_compute.
Defined.

(** A configuration with a single key and a chord that begins with it is valid,
    and the single key never fires. *)
Definition shadowed : Keys := MkKeys ["ctrl+b"] [] [] [] "" [("build", ["ctrl+b z"])] [] [].
Theorem shadowed_is_valid : validateKeymap shadowed ∅ ∅ ∅ = [] ∧
  (Resolve (New (match BuildKeymap shadowed with Ok m => Some m | Err _ => None end)) "ctrl+b").1 = Swallowed.
Proof. by vm_compute. Qed.

End OpsKeysLaws.
