(* ===== verification/OpsShell.v ===== *)
(** * The console's shell ([tools/picpak-ops/internal/pane], [internal/layout],
    [internal/app])

    The pane contract as an interface with its laws, the scrollback ring, the
    tabs and the chrome with its hit test, and the root model: registry, router,
    dispatch, reload, quit guard and teardown. The root is one message loop, so
    a run is a sequence of messages; a pane is any implementation of the
    interface. *)

From S2P Require Import Prelude GoLib OpsKeys.
Import GoLib.

Module OpsShell.

Definition PaneID := string.
Definition PaneKind := string.

(** ** The scrollback ring (pane/scrollback.go) *)

Module Scrollback.
Record ring := Mk { buf : list string; cap : Z; start : Z; count : Z }.

Definition NewScrollback (capacity : Z) : ring :=
  let capacity := if capacity <? 1 then 1 else capacity in
  Mk (replicate (Z.to_nat capacity) ""%string) capacity 0 0.
Definition Append (line : string) (s : ring) : ring :=
  if count s <? cap s then
    Mk (<[Z.to_nat (Z.rem (start s + count s) (cap s)) := line]> (buf s)) (cap s) (start s) (count s + 1)
  else
    Mk (<[Z.to_nat (start s) := line]> (buf s)) (cap s) (Z.rem (start s + 1) (cap s)) (count s).
Definition AppendBatch (lines : list string) (s : ring) : ring := foldl (flip Append) s lines.
Definition Lines (s : ring) : list string :=
  (λ i, default ""%string (buf s !! Z.to_nat (Z.rem (start s + Z.of_nat i) (cap s)))) <$> seq 0 (Z.to_nat (count s)).
Definition RingLen (s : ring) : Z := count s.
Definition Clear (s : ring) : ring := Mk (buf s) (cap s) 0 0.
End Scrollback.

(** ** Panes (pane/pane.go, pane/base.go) *)

Inductive PaneStatus := StatusIdle | StatusActive | StatusWorking | StatusQuiet | StatusError.
#[global] Instance PaneStatus_eq_dec : EqDecision PaneStatus.
Proof. solve_decision. Defined.
Record PaneMeta := MkMeta { m_id : PaneID; m_kind : PaneKind; Title : string; Status : PaneStatus; Dirty : bool }.

Record BasePane := MkBase { id : PaneID; kind : PaneKind; width : Z; height : Z; focused : bool }.
Definition NewBase (id : PaneID) (kind : PaneKind) : BasePane := MkBase id kind 0 0 false.
Definition SetSize (w h : Z) (b : BasePane) : BasePane := MkBase (id b) (kind b) w h (focused b).
Definition SetFocused (f : bool) (b : BasePane) : BasePane := MkBase (id b) (kind b) (width b) (height b) f.
Definition base_meta (b : BasePane) : PaneMeta := MkMeta (id b) (kind b) "" StatusIdle false.

Record PaneSpec := MkSpec { s_kind : PaneKind; s_args : gmap string string; s_focus : bool }.

(** ** The configuration the shell reads *)

Record UI := MkUI {
  Mouse : string; ReportFocus : bool; Altscreen : bool; TeardownDeadline : Z; TabBar : string;
  StatusBar : bool; StartupPanes : list PaneSpec }.
Record Config := MkConfig {
  ui : UI; keys_of : OpsKeys.Keys; Theme : gmap string string; Watch : bool; Debounce : Z }.

(** ** Messages (app/msgs.go); [X] are the panes' own *)

Inductive Op := OpNextTab | OpPrevTab | OpSplit.
Inductive MouseKind := MouseClick | MouseWheel | MouseMotion.
Inductive Msg (X : Type) :=
| WindowSizeMsg (w h : Z)
| KeyPressMsg (key : string)
| FocusMsg | BlurMsg
| PaneMsg (to : PaneID) (payload : Msg X)
| ReloadMsg (c : option Config) (err : option string)
| SpawnPaneMsg (kind : PaneKind) (args : gmap string string) (focus : bool)
| ClosePaneMsg (id : PaneID)
| FocusPaneMsg (id : PaneID)
| LayoutMsg (op : Op)
| StatusMsg (text : string)
| FatalMsg (id : PaneID) (err : string)
| QuitMsg
| ReleaseDevicePortMsg (port : string)
| MouseMsg (k : MouseKind) (x y : Z)
| ConfigChangedMsg (c : Config)
| SpawnArgsMsg (args : gmap string string)
| Other (x : X).
#[global] Arguments WindowSizeMsg {X}.
#[global] Arguments KeyPressMsg {X}.
#[global] Arguments FocusMsg {X}.
#[global] Arguments BlurMsg {X}.
#[global] Arguments PaneMsg {X}.
#[global] Arguments ReloadMsg {X}.
#[global] Arguments SpawnPaneMsg {X}.
#[global] Arguments ClosePaneMsg {X}.
#[global] Arguments FocusPaneMsg {X}.
#[global] Arguments LayoutMsg {X}.
#[global] Arguments StatusMsg {X}.
#[global] Arguments FatalMsg {X}.
#[global] Arguments QuitMsg {X}.
#[global] Arguments ReleaseDevicePortMsg {X}.
#[global] Arguments MouseMsg {X}.
#[global] Arguments ConfigChangedMsg {X}.
#[global] Arguments SpawnArgsMsg {X}.
#[global] Arguments Other {X}.

(** The pane contract. [p_update] gives the returned pane (nil or not) and the
    receiver as the call leaves it; [C] are the commands panes return. *)
Class Pane (P C X : Type) := {
  p_base : P → BasePane;
  p_init : P → P * option C;
  p_update : Msg X → P → option P * P * option C;
  p_view : P → string;
  p_set_focused : bool → P → P;
  p_set_size : Z → Z → P → P;
  p_meta : P → PaneMeta;
  p_close : P → option string }.
(** What a pane promises to the shell: its focus flag and size are the shell's. *)
Class PaneLaws (P C X : Type) `{Pane P C X} := {
  focused_set f p : focused (p_base (p_set_focused f p)) = f;
  focused_size w h p : focused (p_base (p_set_size w h p)) = focused (p_base p);
  focused_init p : focused (p_base (p_init p).1) = focused (p_base p);
  focused_update m p : focused (p_base (default (p_update m p).1.2 (p_update m p).1.1)) = focused (p_base p);
  size_set w h p : width (p_base (p_set_size w h p)) = w ∧ height (p_base (p_set_size w h p)) = h }.

(** ** Tabs (layout/tabs.go) *)

Module Tabs.
Record t := Mk { order : list PaneID; focus : Z }.

Definition NewTabs : t := Mk [] (-1).
Definition Len (ts : t) : Z := zlen (order ts).
Fixpoint index_from (i : Z) (id : PaneID) (l : list PaneID) : Z :=
  match l with [] => -1 | p :: l => if bool_decide (p = id) then i else index_from (i + 1) id l end.
Definition indexOf (ts : t) (id : PaneID) : Z := index_from 0 id (order ts).
Definition Add (id : PaneID) (f : bool) (ts : t) : t :=
  let order' := order ts ++ [id] in
  Mk order' (if f || (focus ts <? 0) then zlen order' - 1 else focus ts).
Definition Remove (id : PaneID) (ts : t) : t :=
  let idx := indexOf ts id in
  if idx <? 0 then ts
  else
    let order' := take (Z.to_nat idx) (order ts) ++ drop (Z.to_nat (idx + 1)) (order ts) in
    Mk order'
      (if zlen order' =? 0 then -1
       else if idx <? focus ts then focus ts - 1
       else if (focus ts =? idx) && (zlen order' <=? focus ts) then zlen order' - 1
       else focus ts).
Definition Focused (ts : t) : option PaneID :=
  if (focus ts <? 0) || (zlen (order ts) <=? focus ts) then None else order ts !! Z.to_nat (focus ts).
Definition Focus (id : PaneID) (ts : t) : bool * t :=
  let idx := indexOf ts id in if idx <? 0 then (false, ts) else (true, Mk (order ts) idx).
Definition FocusIndex (idx : Z) (ts : t) : bool * t :=
  if (idx <? 0) || (zlen (order ts) <=? idx) then (false, ts) else (true, Mk (order ts) idx).
Definition Next (ts : t) : t :=
  if zlen (order ts) =? 0 then ts else Mk (order ts) (Z.rem (focus ts + 1) (zlen (order ts))).
Definition Prev (ts : t) : t :=
  if zlen (order ts) =? 0 then ts else Mk (order ts) (Z.rem (focus ts - 1 + zlen (order ts)) (zlen (order ts))).
End Tabs.

(** ** The chrome (layout/layout.go) *)

(** The styling library: a text in a colour, its width on screen, a bordered box
    of a size, a line of a width. *)
Class Lipgloss := {
  paint : string → bool → string → string;
  plain : string → string;
  cells : string → Z;
  box : string → Z → Z → string → string;
  padded : string → Z → string → string }.

Record theme := MkTheme {
  Border : string; FocusBorder : string; TabActive : string; TabInactive : string; StatusActiveC : string;
  StatusWork : string; StatusQuietC : string; StatusErrorC : string; DirtyC : string;
  GlyphActive : string; GlyphWorking : string; GlyphQuiet : string; GlyphIdle : string; GlyphError : string;
  DirtyMarker : string }.
Record Options := MkOptions { o_TabBar : string; o_StatusBar : bool }.
Record tabSpan := MkSpan { sp_id : PaneID; sp_start : Z; sp_end : Z }.
Record rects := MkRects {
  tabBarRow : Z; tabBarTop : bool; bodyTop : Z; bodyLeft : Z; bodyW : Z; bodyH : Z; tabSpans : list tabSpan }.
Record layout := MkLayout {
  tabs : Tabs.t; l_theme : theme; opts : Options; l_width : Z; l_height : Z; l_rects : rects }.

Definition New_layout (t : Tabs.t) (th : theme) (o : Options) : layout :=
  MkLayout t th o 0 0 (MkRects (-1) false 0 0 0 0 []).
Definition set_tabs (t : Tabs.t) (l : layout) : layout :=
  MkLayout t (l_theme l) (opts l) (l_width l) (l_height l) (l_rects l).
Definition SetTheme (th : theme) (l : layout) : layout :=
  MkLayout (tabs l) th (opts l) (l_width l) (l_height l) (l_rects l).
Definition SetOptions (o : Options) (l : layout) : layout :=
  MkLayout (tabs l) (l_theme l) o (l_width l) (l_height l) (l_rects l).
Definition set_rects (r : rects) (l : layout) : layout :=
  MkLayout (tabs l) (l_theme l) (opts l) (l_width l) (l_height l) r.

Definition floor0 (n : Z) : Z := if n <? 0 then 0 else n.
Definition has_bar (l : layout) : bool :=
  bool_decide (o_TabBar (opts l) ≠ "off"%string) && (0 <? Tabs.Len (tabs l)).
Definition status_rows (l : layout) : Z := if o_StatusBar (opts l) then 1 else 0.
Definition recompute (l : layout) : layout :=
  let tabBar := has_bar l in
  let tabRows := if tabBar then 1 else 0 in
  let bodyRows := floor0 (l_height l - tabRows - status_rows l) in
  let bottom := bool_decide (o_TabBar (opts l) = "bottom"%string) in
  set_rects
    (MkRects (if tabBar then if bottom then tabRows + bodyRows else 0 else -1)
       (tabBar && negb bottom)
       (if tabBar && negb bottom then tabRows else 0)
       0 (floor0 (l_width l - 2)) (floor0 (bodyRows - 2)) []) l.
Definition layout_size (w h : Z) (l : layout) : layout :=
  recompute (MkLayout (tabs l) (l_theme l) (opts l) w h (l_rects l)).
Definition BodySize (l : layout) : Z * Z := (bodyW (l_rects l), bodyH (l_rects l)).

Inductive Hit := ZoneNone | ZoneTab (id : PaneID) | ZoneBody (id : PaneID) (localX localY : Z).
Definition in_span (x : Z) (s : tabSpan) : bool := (sp_start s <=? x) && (x <? sp_end s).
Definition HitTest (x y : Z) (l : layout) : Hit :=
  let r := l_rects l in
  if (x <? 0) || (y <? 0) || (l_width l <=? x) || (l_height l <=? y) then ZoneNone
  else if (0 <=? tabBarRow r) && (y =? tabBarRow r) then
    match find (in_span x) (tabSpans r) with Some s => ZoneTab (sp_id s) | None => ZoneNone end
  else match Tabs.Focused (tabs l) with
       | None => ZoneNone
       | Some id =>
           let top := bodyTop r + 1 in
           let left := bodyLeft r + 1 in
           if (left <=? x) && (x <? left + bodyW r) && (top <=? y) && (y <? top + bodyH r)
           then ZoneBody id (x - left) (y - top) else ZoneNone
       end.

Section Chrome.
Context {P C X : Type} `{Pane P C X} {LG : Lipgloss}.

Definition styledGlyph (th : theme) (s : PaneStatus) : string :=
  match s with
  | StatusActive => paint (StatusActiveC th) false (GlyphActive th)
  | StatusWorking => paint (StatusWork th) false (GlyphWorking th)
  | StatusQuiet => paint (StatusQuietC th) false (GlyphQuiet th)
  | StatusError => paint (StatusErrorC th) false (GlyphError th)
  | StatusIdle => paint (TabInactive th) false (GlyphIdle th)
  end.
Definition tabLabel (th : theme) (idx : Z) (p : option P) : string :=
  let '(title, glyph, dirty) :=
    match p with
    | None => (""%string, plain (GlyphIdle th), ""%string)
    | Some p =>
        let m := p_meta p in
        (if bool_decide (Title m = ""%string) then m_kind m else Title m, styledGlyph th (Status m),
         if Dirty m then paint (DirtyC th) false (DirtyMarker th) else ""%string)
    end in
  (" " ++ format_int (idx + 1) ++ " " ++ glyph ++ " " ++ title ++ dirty ++ " ")%string.

Fixpoint labels (th : theme) (i : Z) (ids : list PaneID) (panes : gmap PaneID P) : list (PaneID * string) :=
  match ids with
  | [] => []
  | id :: ids => (id, tabLabel th i (panes !! id)) :: labels th (i + 1) ids panes
  end.
Fixpoint spans (col : Z) (ls : list (PaneID * string)) : list tabSpan :=
  match ls with
  | [] => []
  | (id, s) :: ls => MkSpan id col (col + cells s) :: spans (col + cells s) ls
  end.
Definition set_spans (s : list tabSpan) (l : layout) : layout :=
  let r := l_rects l in
  set_rects (MkRects (tabBarRow r) (tabBarTop r) (bodyTop r) (bodyLeft r) (bodyW r) (bodyH r) s) l.
Definition Refresh (panes : gmap PaneID P) (l : layout) : layout :=
  if bool_decide (o_TabBar (opts l) = "off"%string) || (Tabs.Len (tabs l) =? 0) then set_spans [] l
  else set_spans (spans 0 (labels (l_theme l) 0 (Tabs.order (tabs l)) panes)) l.

Fixpoint tab_texts (th : theme) (i focusedIdx : Z) (ls : list (PaneID * string)) : string :=
  match ls with
  | [] => ""%string
  | (_, s) :: ls =>
      String.append (if i =? focusedIdx then paint (TabActive th) true s else paint (TabInactive th) false s)
        (tab_texts th (i + 1) focusedIdx ls)
  end.
Definition renderTabBar (panes : gmap PaneID P) (l : layout) : string :=
  tab_texts (l_theme l) 0 (Tabs.focus (tabs l)) (labels (l_theme l) 0 (Tabs.order (tabs l)) panes).
Definition renderBody (panes : gmap PaneID P) (l : layout) : string :=
  let content := match Tabs.Focused (tabs l) with
                 | Some id => match panes !! id with Some p => p_view p | None => "" end
                 | None => ""
                 end%string in
  box (FocusBorder (l_theme l)) (bodyW (l_rects l)) (bodyH (l_rects l)) content.
Definition renderStatus (status : string) (l : layout) : string :=
  padded (TabInactive (l_theme l)) (l_width l) status.
Definition nonempty_part (s : string) : list string := if bool_decide (s = ""%string) then [] else [s].
(** The parts of the screen from the top. *)
Definition compose_parts (panes : gmap PaneID P) (status : string) (l : layout) : list string :=
  let bar := if has_bar l then renderTabBar panes l else ""%string in
  let top := if tabBarTop (l_rects l) then bar else ""%string in
  let bottom := if tabBarTop (l_rects l) then ""%string else bar in
  let statusLine := if o_StatusBar (opts l) then renderStatus status l else ""%string in
  nonempty_part top ++ [renderBody panes l] ++ nonempty_part bottom ++ nonempty_part statusLine.
Definition newline : string := String (Ascii.ascii_of_nat 10) EmptyString.
Definition Compose (panes : gmap PaneID P) (status : string) (l : layout) : string :=
  OpsKeys.Join (compose_parts panes status l) newline.

End Chrome.

(** ** The launcher (app/launcher.go) *)

Record launcherPane := MkLauncher { l_base : BasePane; spawnKeys : gmap string (list string) }.
Definition with_base (f : BasePane → BasePane) (p : launcherPane) : launcherPane :=
  MkLauncher (f (l_base p)) (spawnKeys p).
Definition KindLauncher : PaneKind := "launcher".
Definition launcher_line (keys : gmap string (list string)) (k : string) : string :=
  ("  " ++ OpsKeys.Join (default [] (keys !! k)) "/" ++ "  " ++ k ++ newline)%string.
Definition launcher_view (p : launcherPane) : string :=
  if bool_decide (spawnKeys p = ∅) then
    ("picpak-ops" ++ newline ++ newline ++ "No feature panes registered yet." ++ newline ++
     "Spawn bindings appear here once feature axes register their factories.")%string
  else
    ("picpak-ops" ++ newline ++ newline ++ "Spawn a pane:" ++ newline ++
     foldr String.append "" (launcher_line (spawnKeys p) <$> OpsKeys.sorted_names (spawnKeys p)))%string.
#[global] Instance launcher_pane {C X} : Pane launcherPane C X := {|
  p_base := l_base;
  p_init p := (p, None);
  p_update _ p := (Some p, p, None);
  p_view := launcher_view;
  p_set_focused f := with_base (SetFocused f);
  p_set_size w h := with_base (SetSize w h);
  p_meta p := MkMeta (id (l_base p)) (kind (l_base p)) KindLauncher StatusIdle false;
  p_close _ := None |}.
#[global] Instance launcher_laws {C X} : PaneLaws launcherPane C X.
Proof. split; done. Qed.
Definition NewLauncher (base : BasePane) (cfg : Config) : option launcherPane :=
  Some (MkLauncher base (list_to_map (OpsKeys.Spawn (keys_of cfg)))).

(** ** The root model (app/registry.go, router.go, update.go, teardown.go, view.go) *)

Inductive effect := Cancelled (id : PaneID) | Closed (id : PaneID) | RootCancelled.
#[global] Instance effect_eq_dec : EqDecision effect.
Proof. solve_decision. Defined.

Inductive Cmd (C : Type) :=
| Addressed (to : PaneID) (c : C)
| Seed (to : PaneID) (args : gmap string string)
| WatchCmd (path : string) (debounce : Z)
| Quit.
#[global] Arguments Addressed {C}.
#[global] Arguments Seed {C}.
#[global] Arguments WatchCmd {C}.
#[global] Arguments Quit {C}.

Section Root.
Context {P C X : Type} `{Pane P C X} {LG : Lipgloss} {KL : OpsKeys.KeyLib}.

Definition PaneFactory := BasePane → Config → option P.
(** [cancels] are the panes whose context has a cancel function on record. *)
Record registry := MkRegistry {
  factories : gmap PaneKind PaneFactory; panes : gmap PaneID P; cancels : gset PaneID;
  order : list PaneID; r_cfg : Config; seq : Z }.
Definition newRegistry (c : Config) : registry := MkRegistry ∅ ∅ ∅ [] c 0.
Definition register (k : PaneKind) (f : PaneFactory) (r : registry) : registry :=
  MkRegistry (<[k := f]> (factories r)) (panes r) (cancels r) (order r) (r_cfg r) (seq r).
Definition setConfig (c : Config) (r : registry) : registry :=
  MkRegistry (factories r) (panes r) (cancels r) (order r) c (seq r).
Definition set_panes (ps : gmap PaneID P) (r : registry) : registry :=
  MkRegistry (factories r) ps (cancels r) (order r) (r_cfg r) (seq r).
Definition pane_id (k : PaneKind) (n : Z) : PaneID := (k ++ ":" ++ format_int n)%string.
Definition mintID (k : PaneKind) (r : registry) : PaneID * registry :=
  let n := i64 (seq r + 1) in
  (pane_id k n, MkRegistry (factories r) (panes r) (cancels r) (order r) (r_cfg r) n).
Definition reg_spawn (k : PaneKind) (r : registry) : result string (P * PaneID) * registry :=
  match factories r !! k with
  | None => (Err ("no factory registered for pane kind " ++ k)%string, r)
  | Some f =>
      let '(i, r) := mintID k r in
      match f (NewBase i k) (r_cfg r) with
      | None => (Err ("factory for kind " ++ k ++ " returned nil")%string, r)
      | Some p =>
          (Ok (p, i), MkRegistry (factories r) (<[i := p]> (panes r)) ({[i]} ∪ cancels r) (order r ++ [i]) (r_cfg r) (seq r))
      end
  end.
Fixpoint remove_first (i : PaneID) (l : list PaneID) : list PaneID :=
  match l with [] => [] | j :: l => if bool_decide (j = i) then l else j :: remove_first i l end.
Definition reg_remove (i : PaneID) (r : registry) : list effect * registry :=
  match panes r !! i with
  | None => ([], r)
  | Some _ =>
      ((if bool_decide (i ∈ cancels r) then [Cancelled i] else []) ++ [Closed i],
       MkRegistry (factories r) (delete i (panes r)) (cancels r ∖ {[i]}) (remove_first i (order r)) (r_cfg r) (seq r))
  end.

Record Model := MkModel {
  cfg : Config; reg : registry; lay : layout; keymap : OpsKeys.Map; help : bool;
  w_width : Z; w_height : Z; status : string; fatal : option string; quitting : bool; quitArmed : bool;
  reloadPath : string; log : list effect }.

Definition set_reg (r : registry) (m : Model) : Model :=
  MkModel (cfg m) r (lay m) (keymap m) (help m) (w_width m) (w_height m) (status m) (fatal m) (quitting m)
    (quitArmed m) (reloadPath m) (log m).
Definition set_lay (l : layout) (m : Model) : Model :=
  MkModel (cfg m) (reg m) l (keymap m) (help m) (w_width m) (w_height m) (status m) (fatal m) (quitting m)
    (quitArmed m) (reloadPath m) (log m).
Definition set_keys (k : OpsKeys.Map) (m : Model) : Model :=
  MkModel (cfg m) (reg m) (lay m) k (help m) (w_width m) (w_height m) (status m) (fatal m) (quitting m)
    (quitArmed m) (reloadPath m) (log m).
Definition set_status (s : string) (m : Model) : Model :=
  MkModel (cfg m) (reg m) (lay m) (keymap m) (help m) (w_width m) (w_height m) s (fatal m) (quitting m)
    (quitArmed m) (reloadPath m) (log m).
Definition set_armed (b : bool) (m : Model) : Model :=
  MkModel (cfg m) (reg m) (lay m) (keymap m) (help m) (w_width m) (w_height m) (status m) (fatal m) (quitting m)
    b (reloadPath m) (log m).
Definition add_log (e : list effect) (m : Model) : Model :=
  MkModel (cfg m) (reg m) (lay m) (keymap m) (help m) (w_width m) (w_height m) (status m) (fatal m) (quitting m)
    (quitArmed m) (reloadPath m) (log m ++ e).
Definition on_tabs (f : Tabs.t → Tabs.t) (m : Model) : Model := set_lay (set_tabs (f (tabs (lay m))) (lay m)) m.
Definition on_panes (f : PaneID → P → P) (m : Model) : Model :=
  set_reg (set_panes (map_imap (λ i p, Some (f i p)) (panes (reg m))) (reg m)) m.

Definition mustKeymap (c : Config) : option OpsKeys.Keymap :=
  match OpsKeys.BuildKeymap (keys_of c) with Ok k => Some k | Err _ => None end.
Definition resolveTheme (c : Config) : theme :=
  let col role := default ""%string (Theme c !! role) in
  MkTheme (col "border") (col "focus_border") (col "tab_active") (col "tab_inactive") (col "status_active")
    (col "status_working") (col "status_quiet") (col "status_error") (col "dirty")
    "●" "◐" "○" "·" "✗" "*".
Definition resolveLayoutOpts (c : Config) : Options := MkOptions (TabBar (ui c)) (StatusBar (ui c)).
Definition New (c : Config) : Model :=
  MkModel c (newRegistry c) (New_layout Tabs.NewTabs (resolveTheme c) (resolveLayoutOpts c))
    (OpsKeys.New (mustKeymap c)) false 0 0 "" None false false "" [].
Definition RegisterFactory (k : PaneKind) (f : PaneFactory) (m : Model) : Model := set_reg (register k f (reg m)) m.
Definition SetReload (path : string) (m : Model) : Model :=
  MkModel (cfg m) (reg m) (lay m) (keymap m) (help m) (w_width m) (w_height m) (status m) (fatal m) (quitting m)
    (quitArmed m) path (log m).

(** *** Routing *)

(** What the message of an addressed command becomes. *)
Definition reenvelope (to : PaneID) (r : option (Msg X)) : option (Msg X) :=
  match r with
  | None => None
  | Some (PaneMsg t q) => Some (PaneMsg t q)
  | Some q => Some (PaneMsg to q)
  end.
Definition addressed (to : PaneID) (c : option C) : list (Cmd C) :=
  match c with None => [] | Some c => [Addressed to c] end.
Definition put_pane (i : PaneID) (p : P) (m : Model) : Model :=
  set_reg (set_panes (<[i := p]> (panes (reg m))) (reg m)) m.
Definition routePaneMsg (to : PaneID) (q : Msg X) (m : Model) : Model * list (Cmd C) :=
  match panes (reg m) !! to with
  | None => (m, [])
  | Some p =>
      let '((updated, self), c) := p_update q p in
      (put_pane to (default self updated) m, addressed to c)
  end.
Definition initPane (i : PaneID) (m : Model) : Model * list (Cmd C) :=
  match panes (reg m) !! i with
  | None => (m, [])
  | Some p => let '(p, c) := p_init p in (put_pane i p m, addressed i c)
  end.

(** *** Focus, spawn, close *)

Definition applyFocus (m : Model) : Model :=
  let f := Tabs.Focused (tabs (lay m)) in
  set_keys (OpsKeys.Reset (keymap m)) (on_panes (λ i p, p_set_focused (bool_decide (f = Some i)) p) m).
Definition focusPane (i : PaneID) (m : Model) : Model :=
  let '(ok, t) := Tabs.Focus i (tabs (lay m)) in
  if ok then applyFocus (set_lay (set_tabs t (lay m)) m) else m.
Definition spawn (k : PaneKind) (args : gmap string string) (focus : bool) (m : Model) : Model * list (Cmd C) :=
  match reg_spawn k (reg m) with
  | (Err e, r) => (set_status e (set_reg r m), [])
  | (Ok (p, i), r) =>
      let '(w, h) := BodySize (lay m) in
      let m := put_pane i (p_set_size w h p) (set_reg r m) in
      let m := applyFocus (on_tabs (Tabs.Add i focus) m) in
      let '(m, cs) := initPane i m in
      (m, cs ++ if bool_decide (args = ∅) then [] else [Seed i args])
  end.
Definition drop_pane (i : PaneID) (m : Model) : Model :=
  let '(e, r) := reg_remove i (reg m) in add_log e (set_reg r m).
Definition closePane (i : PaneID) (m : Model) : Model * list (Cmd C) :=
  match panes (reg m) !! i with
  | None => (m, [])
  | Some _ =>
      let m := on_tabs (Tabs.Remove i) (drop_pane i m) in
      if bool_decide (panes (reg m) = ∅) then
        let '(m, cs) := spawn KindLauncher ∅ true m in (applyFocus m, cs)
      else (applyFocus m, [])
  end.

Definition working (m : Model) : list PaneID :=
  (filter (λ e : PaneID * P, Status (p_meta e.2) = StatusWorking) (map_to_list (panes (reg m)))).*1.
Definition anyWorking (m : Model) : bool := bool_decide (working m ≠ []).
Definition quitConfirmPrompt (m : Model) : string :=
  (format_int (zlen (working m)) ++ " pane(s) busy — press quit again to quit anyway")%string.

(** *** Teardown; [cut] panes are closed before the deadline *)

Definition closeAllReverse (upto : nat) (m : Model) : Model :=
  foldl (λ m i, drop_pane i m) m (take upto (reverse (order (reg m)))).
Definition teardown (cut : nat) (m : Model) : Model :=
  if TeardownDeadline (ui (cfg m)) <=? 0 then closeAllReverse (length (order (reg m))) m
  else add_log [RootCancelled] (closeAllReverse cut m).
Definition set_quitting (m : Model) : Model :=
  MkModel (cfg m) (reg m) (lay m) (keymap m) (help m) (w_width m) (w_height m) (status m) (fatal m) true
    (quitArmed m) (reloadPath m) (log m).
Definition beginQuit (cut : nat) (m : Model) : Model * list (Cmd C) :=
  if anyWorking m && negb (quitArmed m) then (set_status (quitConfirmPrompt m) (set_armed true m), [])
  else (teardown cut (set_quitting m), [Quit]).

(** *** Dispatch *)

Definition broadcast (q : Msg X) (m : Model) : Model * list (Cmd C) :=
  foldl (λ '(m, cs) i, let '(m, cs') := routePaneMsg i q m in (m, cs ++ cs')) (m, []) (order (reg m)).
Definition onResize (w h : Z) (m : Model) : Model :=
  let l := layout_size w h (lay m) in
  let m := MkModel (cfg m) (reg m) l (keymap m) (help m) w h (status m) (fatal m) (quitting m)
             (quitArmed m) (reloadPath m) (log m) in
  on_panes (λ _ p, p_set_size (bodyW (l_rects l)) (bodyH (l_rects l)) p) m.
Definition forwardToFocused (q : Msg X) (m : Model) : Model * list (Cmd C) :=
  match Tabs.Focused (tabs (lay m)) with None => (m, []) | Some i => routePaneMsg i q m end.
Definition spawnKind (action : string) : option PaneKind :=
  if String.prefix "spawn." action && (6 <? Z.of_nat (String.length action))
  then Some (String.substring 6 (String.length action - 6) action) else None.
Definition toggle_help (m : Model) : Model :=
  MkModel (cfg m) (reg m) (lay m) (keymap m) (negb (help m)) (w_width m) (w_height m) (status m) (fatal m)
    (quitting m) (quitArmed m) (reloadPath m) (log m).
Definition runAction (cut : nat) (action : string) (m : Model) : Model * list (Cmd C) :=
  if bool_decide (action = "quit"%string) then beginQuit cut m
  else if bool_decide (action = "help"%string) then (toggle_help m, [])
  else if bool_decide (action = "next_tab"%string) then (applyFocus (on_tabs Tabs.Next m), [])
  else if bool_decide (action = "prev_tab"%string) then (applyFocus (on_tabs Tabs.Prev m), [])
  else if bool_decide (action = "close_pane"%string) then
    match Tabs.Focused (tabs (lay m)) with Some i => closePane i m | None => (m, []) end
  else if bool_decide (action = "split"%string) then (m, [])
  else match spawnKind action with Some k => spawn k ∅ true m | None => (m, []) end.
Definition onKey (cut : nat) (k : string) (m : Model) : Model * list (Cmd C) :=
  let '(v, km) := OpsKeys.Resolve (keymap m) k in
  let m := set_keys km m in
  match v with
  | OpsKeys.Swallowed => (m, [])
  | OpsKeys.GlobalAction a =>
      runAction cut a (if bool_decide (a ≠ "quit"%string) then set_armed false m else m)
  | OpsKeys.PassToPane => forwardToFocused (KeyPressMsg k) (set_armed false m)
  end.
Definition onMouse (q : Msg X) (x y : Z) (m : Model) : Model * list (Cmd C) :=
  let m := set_lay (Refresh (panes (reg m)) (lay m)) m in
  match HitTest x y (lay m) with
  | ZoneTab i => (focusPane i m, [])
  | ZoneBody i _ _ => routePaneMsg i q (focusPane i m)
  | ZoneNone => (m, [])
  end.
Definition onLayoutOp (op : Op) (m : Model) : Model :=
  match op with
  | OpNextTab => applyFocus (on_tabs Tabs.Next m)
  | OpPrevTab => applyFocus (on_tabs Tabs.Prev m)
  | OpSplit => m
  end.
Definition swap_config (c : Config) (m : Model) : Model :=
  MkModel c (setConfig c (reg m))
    (layout_size (w_width m) (w_height m) (SetOptions (resolveLayoutOpts c) (SetTheme (resolveTheme c) (lay m))))
    (OpsKeys.New (mustKeymap c)) (help m) (w_width m) (w_height m) (status m) (fatal m) (quitting m)
    (quitArmed m) (reloadPath m) (log m).
Definition rearm (m : Model) : list (Cmd C) :=
  if bool_decide (reloadPath m ≠ ""%string) && Watch (cfg m) then [WatchCmd (reloadPath m) (Debounce (cfg m))] else [].
Definition onReload (c : option Config) (err : option string) (m : Model) : Model * list (Cmd C) :=
  let '(m, cs) :=
    match err, c with
    | None, Some c =>
        let '(m, cs) := broadcast (ConfigChangedMsg c) (swap_config c m) in (set_status "" m, cs)
    | Some e, _ => (set_status ("config reload failed (keeping last good): " ++ e) m, [])
    | None, None => (m, [])
    end in
  (m, cs ++ rearm m).
Definition set_fatal (e : string) (m : Model) : Model :=
  MkModel (cfg m) (reg m) (lay m) (keymap m) (help m) (w_width m) (w_height m) (status m) (Some e) (quitting m)
    (quitArmed m) (reloadPath m) (log m).

Definition Update (cut : nat) (q : Msg X) (m : Model) : Model * list (Cmd C) :=
  match q with
  | WindowSizeMsg w h => (onResize w h m, [])
  | KeyPressMsg k => onKey cut k m
  | PaneMsg to q => routePaneMsg to q m
  | ReloadMsg c e => onReload c e m
  | SpawnPaneMsg k args f => spawn k args f m
  | ClosePaneMsg i => closePane i m
  | FocusPaneMsg i => (focusPane i m, [])
  | LayoutMsg op => (onLayoutOp op m, [])
  | StatusMsg s => (set_status s m, [])
  | FatalMsg _ e => (set_fatal e m, [])
  | QuitMsg => beginQuit cut m
  | ReleaseDevicePortMsg _ => broadcast q m
  | MouseMsg _ x y => onMouse q x y m
  | FocusMsg | BlurMsg | ConfigChangedMsg _ | SpawnArgsMsg _ | Other _ => (m, [])
  end.
Fixpoint spawn_specs (specs : list PaneSpec) (m : Model) : Model * list (Cmd C) :=
  match specs with
  | [] => (m, [])
  | s :: specs =>
      let '(m, cs) := spawn (s_kind s) (s_args s) (s_focus s) m in
      let '(m, cs') := spawn_specs specs m in (m, cs ++ cs')
  end.
Definition Init (m : Model) : Model * list (Cmd C) :=
  let '(m, cs) := match StartupPanes (ui (cfg m)) with
                  | [] => spawn KindLauncher ∅ true m
                  | specs => spawn_specs specs m
                  end in
  (m, cs ++ rearm m).
(** The message loop: the messages in the order they arrive, and the number of
    panes a quit closes before its deadline. *)
Fixpoint run (qs : list (nat * Msg X)) (m : Model) : Model * list (Cmd C) :=
  match qs with
  | [] => (m, [])
  | (cut, q) :: qs => let '(m, cs) := Update cut q m in let '(m, cs') := run qs m in (m, cs ++ cs')
  end.

(** *** The frame (app/view.go) *)

Definition statusLine (m : Model) : string :=
  let pp := OpsKeys.PendingPrefix (keymap m) in
  if bool_decide (pp = ""%string) then status m
  else (status m ++ (if bool_decide (status m = "") then "" else "  ") ++ "[" ++ pp ++ "-]")%string.
Definition overlayHelp (m : Model) (content : string) : string :=
  match OpsKeys.HelpBindings (keymap m) with
  | [] => content
  | bs => (content ++ newline ++
           foldr String.append "" ((λ b, "  " ++ OpsKeys.b_help b ++ ": " ++ OpsKeys.b_desc b) <$> bs))%string
  end.
Inductive MouseMode := MouseModeNone | MouseModeCellMotion | MouseModeAllMotion.
Definition mouseMode (s : string) : MouseMode :=
  if bool_decide (s = "all"%string) then MouseModeAllMotion
  else if bool_decide (s = "none"%string) then MouseModeNone else MouseModeCellMotion.
Record TeaView := MkView { v_content : string; v_alt : bool; v_mouse : MouseMode; v_focus : bool }.
Definition View (m : Model) : TeaView * Model :=
  let m := set_lay (Refresh (panes (reg m)) (lay m)) m in
  let content := Compose (panes (reg m)) (statusLine m) (lay m) in
  let content := if help m then overlayHelp m content else content in
  let content := match fatal m with Some e => (content ++ newline ++ "error: " ++ e)%string | None => content end in
  (MkView content (Altscreen (ui (cfg m))) (mouseMode (Mouse (ui (cfg m)))) (ReportFocus (ui (cfg m))), m).
End Root.

End OpsShell.
