(* ===== verification/OpsChromeLaws.v ===== *)
(** * Laws of the console's chrome

    The scrollback ring against the last lines, the focus of the tabs, and the
    hit test against the geometry of the screen. *)

From S2P Require Import Prelude GoLib OpsKeys OpsShell.
Import GoLib OpsShell.

Module OpsChromeLaws.

(** ** The scrollback keeps the last lines *)

Module Ring.
Import Scrollback.

Record ok (s : ring) : Prop := Ok {
  r_cap : 1 ≤ cap s; r_buf : zlen (buf s) = cap s; r_start : 0 ≤ start s < cap s; r_count : 0 ≤ count s ≤ cap s }.

Lemma New_ok n : ok (NewScrollback n).
Proof.
  unfold NewScrollback. destruct (Z.ltb_spec n 1); split; cbn [cap buf start count]; unfold zlen; rewrite ?length_replicate; lia.
Qed.
Lemma Append_ok l s : ok s → ok (Append l s).
Proof.
  intros [Hc Hb Hs Hn]. unfold Append. destruct (Z.ltb_spec (count s) (cap s)); split; cbn [cap buf start count];
    unfold zlen in *; rewrite ?length_insert; try lia.
  apply Z.rem_bound_pos; lia.
Qed.

Lemma rem_wrap a c : 0 ≤ a → 0 < c → a < 2 * c → Z.rem a c = if c <=? a then a - c else a.
Proof.
  intros Ha Hc H2. rewrite Z.rem_mod_nonneg by lia. destruct (Z.leb_spec c a).
  - rewrite <-(Z.mod_small (a - c) c) by lia. rewrite <-(Z_mod_plus_full (a - c) 1 c). f_equal. lia.
  - apply Z.mod_small. lia.
Qed.

Lemma Lines_length s : ok s → zlen (Lines s) = count s.
Proof. intros []. unfold Lines, zlen. rewrite length_fmap, length_seq. lia. Qed.
Lemma Lines_lookup s i : Lines s !! i =
  if Z.of_nat i <? count s then Some (default ""%string (buf s !! Z.to_nat (Z.rem (start s + Z.of_nat i) (cap s)))) else None.
Proof.
  unfold Lines. rewrite list_lookup_fmap. destruct (Z.ltb_spec (Z.of_nat i) (count s)).
  - by rewrite lookup_seq_lt by lia.
  - by rewrite lookup_seq_ge by lia.
Qed.

Lemma Lines_Append l s : ok s →
  Lines (Append l s) = drop (Z.to_nat (count s + 1 - cap s)) (Lines s ++ [l]).
Proof.
  intros Hok. pose proof (Lines_length s Hok) as Hlen. destruct Hok as [Hc Hb Hs Hn].
  apply list_eq. intros i. rewrite lookup_drop, !Lines_lookup. unfold zlen in *.
  unfold Append. destruct (Z.ltb_spec (count s) (cap s)) as [Hlt|Hge]; cbn [buf cap start count].
  - replace (Z.to_nat (count s + 1 - cap s)) with 0%nat by lia. rewrite Nat.add_0_l.
    rewrite (rem_wrap (start s + count s)) by lia.
    destruct (Z.ltb_spec (Z.of_nat i) (count s + 1)) as [Hi|Hi]; [|symmetry; apply lookup_ge_None_2; rewrite length_app; simpl; lia].
    destruct (decide (Z.of_nat i = count s)) as [He|He].
    + rewrite lookup_app_r by lia. replace (i - length (Lines s))%nat with 0%nat by lia.
      rewrite rem_wrap by lia. rewrite He. rewrite list_lookup_insert_eq; [done|].
      destruct (Z.leb_spec (cap s) (start s + count s)); lia.
    + rewrite lookup_app_l by lia. rewrite Lines_lookup. destruct (Z.ltb_spec (Z.of_nat i) (count s)); [|lia].
      rewrite !rem_wrap by lia. rewrite list_lookup_insert_ne; [done|].
      destruct (Z.leb_spec (cap s) (start s + count s)), (Z.leb_spec (cap s) (start s + Z.of_nat i)); lia.
  - assert (count s = cap s) by lia.
    replace (Z.to_nat (count s + 1 - cap s)) with 1%nat by lia.
    rewrite (rem_wrap (start s + 1)) by lia.
    destruct (Z.ltb_spec (Z.of_nat i) (count s)) as [Hi|Hi]; [|symmetry; apply lookup_ge_None_2; rewrite length_app; simpl; lia].
    destruct (decide (Z.of_nat i = count s - 1)) as [He|He].
    + rewrite lookup_app_r by lia. replace (1 + i - length (Lines s))%nat with 0%nat by lia.
      rewrite rem_wrap; [|destruct (Z.leb_spec (cap s) (start s + 1)); lia..].
      match goal with |- context [<[_ := _]> _ !! ?j] => replace j with (Z.to_nat (start s)) end.
      { rewrite list_lookup_insert_eq by lia. done. }
      f_equal. destruct (Z.leb_spec (cap s) (start s + 1)); case_match eqn:E; apply Z.leb_le in E || apply Z.leb_gt in E; lia.
    + rewrite lookup_app_l by lia. rewrite Lines_lookup. destruct (Z.ltb_spec (Z.of_nat (1 + i)) (count s)); [|lia].
      rewrite rem_wrap; [|destruct (Z.leb_spec (cap s) (start s + 1)); lia..].
      rewrite (rem_wrap (start s + Z.of_nat (1 + i))) by lia.
      replace (if cap s <=? (if cap s <=? start s + 1 then start s + 1 - cap s else start s + 1) + Z.of_nat i
               then (if cap s <=? start s + 1 then start s + 1 - cap s else start s + 1) + Z.of_nat i - cap s
               else (if cap s <=? start s + 1 then start s + 1 - cap s else start s + 1) + Z.of_nat i)
        with (if cap s <=? start s + Z.of_nat (1 + i) then start s + Z.of_nat (1 + i) - cap s else start s + Z.of_nat (1 + i)).
      2: { destruct (Z.leb_spec (cap s) (start s + 1)); destruct (Z.leb_spec (cap s) (start s + Z.of_nat (1 + i)));
           case_match eqn:E; apply Z.leb_le in E || apply Z.leb_gt in E; lia. }
      rewrite list_lookup_insert_ne; [done|].
      destruct (Z.leb_spec (cap s) (start s + Z.of_nat (1 + i))); lia.
Qed.

(** The last [n] of a list. *)
Definition last_of {A} (n : Z) (l : list A) : list A := drop (Z.to_nat (zlen l - n)) l.
Lemma last_of_app {A} n (a b : list A) : 0 ≤ n → last_of n (last_of n a ++ b) = last_of n (a ++ b).
Proof.
  intros Hn. unfold last_of, zlen. set (k := Z.to_nat (Z.of_nat (length a) - n)).
  rewrite <-(drop_app_le a b k) by lia. rewrite drop_drop. f_equal.
  rewrite length_drop, !length_app. lia.
Qed.

(** The scrollback holds exactly the last lines appended to it, as many as its
    capacity (at least one), in order, whatever was appended before. *)
Theorem scrollback_is_tail n lines :
  Lines (AppendBatch lines (NewScrollback n)) = last_of (Z.max 1 n) lines ∧
  RingLen (AppendBatch lines (NewScrollback n)) = Z.min (zlen lines) (Z.max 1 n).
Proof.
  assert (Hgen : ∀ ls s, ok s → ok (AppendBatch ls s) ∧ Lines (AppendBatch ls s) = last_of (cap s) (Lines s ++ ls)).
  { induction ls as [|l ls IH]; intros s Hok; cbn [AppendBatch foldl].
    - split; [done|]. rewrite app_nil_r. unfold last_of. rewrite (Lines_length s Hok).
      destruct Hok. by replace (Z.to_nat _) with 0%nat by lia.
    - change (foldl (flip Append) (flip Append s l) ls) with (AppendBatch ls (Append l s)).
      destruct (IH (Append l s) (Append_ok l s Hok)) as [H1 H2]. split; [done|].
      rewrite H2, Lines_Append by done.
      assert (cap (Append l s) = cap s) as -> by (unfold Append; by case_match).
      replace (drop (Z.to_nat (count s + 1 - cap s)) (Lines s ++ [l])) with (last_of (cap s) (Lines s ++ [l])).
      + rewrite last_of_app by (destruct Hok; lia). by rewrite <-app_assoc.
      + unfold last_of. by rewrite zlen_app, (Lines_length s Hok). }
  destruct (Hgen lines (NewScrollback n) (New_ok n)) as [Hok Hl].
  assert (cap (NewScrollback n) = Z.max 1 n) as Hc by (unfold NewScrollback; cbn; destruct (Z.ltb_spec n 1); lia).
  rewrite Hc in Hl. assert (Hnil : Lines (NewScrollback n) = []) by done. rewrite Hnil in Hl. simpl in Hl.
  split; [done|]. unfold RingLen. rewrite <-(Lines_length _ Hok), Hl.
  unfold last_of, zlen. rewrite length_drop. lia.
Qed.
End Ring.

(** ** Tabs *)

Module TabLaws.
Import Tabs.

Record ok (ts : t) : Prop := Ok {
  t_nodup : NoDup (order ts);
  t_focus : if decide (order ts = []) then focus ts = -1 else 0 ≤ focus ts < zlen (order ts) }.

Lemma focus_range ts : ok ts → order ts ≠ [] → 0 ≤ focus ts < zlen (order ts).
Proof. intros [_ Hf] Hne. by rewrite decide_False in Hf. Qed.
Lemma ok_intro o f : NoDup o → (o = [] → f = -1) → (o ≠ [] → 0 ≤ f < zlen o) → ok (Mk o f).
Proof. intros Hn H1 H2. split; simpl; [done|]. destruct (decide (o = [])); auto. Qed.
Lemma zlen_pos {A} (l : list A) : l ≠ [] → 0 < zlen l.
Proof. destruct l; [done|]. rewrite zlen_cons. pose proof (zlen_nonneg l). lia. Qed.

Lemma index_spec i id l :
  (index_from i id l = -1 ∧ (id ∉ l)) ∨ ∃ a b, l = a ++ id :: b ∧ (id ∉ a) ∧ index_from i id l = i + zlen a.
Proof.
  revert i. induction l as [|p l IH]; intros i; simpl; [left; split; [done|set_solver]|].
  case_bool_decide as E; [subst; right; exists [], l; split_and!; [done|set_solver|unfold zlen; simpl; lia]|].
  destruct (IH (i + 1)) as [[H1 H2]|(a & b & -> & Ha & H1)].
  - left. split; [done|]. set_solver.
  - right. exists (p :: a), b. split_and!; [done|set_solver|]. rewrite zlen_cons. lia.
Qed.

Lemma Focused_elem ts i : Focused ts = Some i → i ∈ order ts.
Proof. unfold Focused. case_match; [done|]. apply list_elem_of_lookup_2. Qed.
Lemma Focused_some ts : ok ts → order ts ≠ [] → ∃ i, Focused ts = Some i.
Proof.
  intros Hok Hne. pose proof (focus_range ts Hok Hne). unfold Focused.
  destruct (Z.ltb_spec (focus ts) 0); [lia|]. destruct (Z.leb_spec (zlen (order ts)) (focus ts)); [lia|]. simpl.
  apply lookup_lt_is_Some. unfold zlen in *. lia.
Qed.

Lemma Add_ok i f ts : ok ts → i ∉ order ts → ok (Add i f ts).
Proof.
  intros Hok Hi. unfold Add. pose proof (zlen_nonneg (order ts)).
  assert (zlen (order ts ++ [i]) = zlen (order ts) + 1) as Hl by (by rewrite zlen_app).
  apply ok_intro.
  - apply NoDup_app. split_and!; [by destruct Hok|set_solver|apply NoDup_singleton].
  - by destruct (order ts).
  - intros _. rewrite Hl. destruct (Z.ltb_spec (focus ts) 0).
    + rewrite orb_true_r. lia.
    + destruct f; simpl; [lia|]. destruct Hok as [_ Hf]. destruct (decide (order ts = [])); lia.
Qed.

Lemma Remove_split a i b f : i ∉ a →
  Remove i (Mk (a ++ i :: b) f) = Mk (a ++ b)
    (if zlen (a ++ b) =? 0 then -1 else if zlen a <? f then f - 1
     else if (f =? zlen a) && (zlen (a ++ b) <=? f) then zlen (a ++ b) - 1 else f).
Proof.
  intros Ha. unfold Remove, indexOf. simpl.
  destruct (index_spec 0 i (a ++ i :: b)) as [[_ Hn]|(a' & b' & He & Ha' & ->)]; [set_solver|].
  assert (a = a' ∧ b = b') as [<- <-].
  { clear f. revert a' He Ha'. induction a as [|x a IH]; intros [|y a'] He Ha'; simpl in *.
    - by injection He.
    - injection He as <- _. set_solver.
    - injection He as <- _. set_solver.
    - injection He as <- He. destruct (IH ltac:(set_solver) a' He ltac:(set_solver)) as [<- <-]. done. }
  rewrite Z.add_0_l. pose proof (zlen_nonneg a). destruct (Z.ltb_spec (zlen a) 0); [lia|].
  replace (take (Z.to_nat (zlen a)) (a ++ i :: b)) with a.
  2: { unfold zlen. rewrite Nat2Z.id. by rewrite take_app_length. }
  replace (drop (Z.to_nat (zlen a + 1)) (a ++ i :: b)) with b; [done|].
  unfold zlen. replace (Z.to_nat _) with (length (a ++ [i]))%nat by (rewrite length_app; simpl; lia).
  replace (a ++ i :: b) with ((a ++ [i]) ++ b) by (by rewrite <-app_assoc). by rewrite drop_app_length.
Qed.

Lemma Remove_order i ts : order (Remove i ts) = remove_first i (order ts).
Proof.
  destruct ts as [o f]. destruct (index_spec 0 i o) as [[Hi Hn]|(a & b & -> & Ha & _)].
  - unfold Remove, indexOf. simpl. rewrite Hi. simpl. clear Hi. induction o as [|x o IH]; [done|]. simpl.
    rewrite bool_decide_false by set_solver. f_equal. apply IH. set_solver.
  - rewrite Remove_split by done. simpl. induction a as [|x a IH]; simpl; [by rewrite bool_decide_true|].
    rewrite bool_decide_false by set_solver. f_equal. apply IH. set_solver.
Qed.

Lemma Remove_ok i ts : ok ts → ok (Remove i ts).
Proof.
  destruct ts as [o f]. intros Hok. destruct (index_spec 0 i o) as [[Hi Hn]|(a & b & -> & Ha & _)].
  - unfold Remove, indexOf. simpl. by rewrite Hi.
  - pose proof (focus_range _ Hok) as Hf. simpl in Hf. destruct Hok as [Hnd _]. simpl in Hnd.
    assert (Hne : a ++ i :: b ≠ []) by (by destruct a). specialize (Hf Hne).
    rewrite Remove_split by done. rewrite zlen_app, zlen_cons in Hf. pose proof (zlen_nonneg a). pose proof (zlen_nonneg b).
    assert (Hlen : zlen (a ++ b) = zlen a + zlen b) by apply zlen_app.
    apply ok_intro.
    + apply NoDup_app in Hnd as (H1 & H2 & H3). apply NoDup_cons in H3 as [H3 H4]. apply NoDup_app.
      split_and!; [done| |done]. intros x Hx Hb. apply (H2 x Hx). set_solver.
    + intros ->. done.
    + intros Hab%zlen_pos. rewrite Hlen in *. destruct (Z.eqb_spec (zlen a + zlen b) 0); [lia|].
      destruct (Z.ltb_spec (zlen a) f); [lia|]. destruct (Z.eqb_spec f (zlen a)); simpl; [|lia].
      destruct (Z.leb_spec (zlen a + zlen b) f); lia.
Qed.

Lemma rotate_ok ts f : ok ts → (order ts ≠ [] → 0 ≤ f) →
  ok (if zlen (order ts) =? 0 then ts else Mk (order ts) (Z.rem f (zlen (order ts)))).
Proof.
  intros Hok Hf. destruct (Z.eqb_spec (zlen (order ts)) 0) as [|Hne]; [done|].
  apply ok_intro; [by destruct Hok|intros E; by rewrite E in Hne|]. intros Ho. apply Z.rem_bound_pos; [auto|by apply zlen_pos].
Qed.
Lemma Next_ok ts : ok ts → ok (Next ts).
Proof. intros Hok. apply rotate_ok; [done|]. intros Hne. pose proof (focus_range ts Hok Hne). lia. Qed.
Lemma Prev_ok ts : ok ts → ok (Prev ts).
Proof. intros Hok. apply rotate_ok; [done|]. intros Hne. pose proof (focus_range ts Hok Hne). lia. Qed.
Lemma Focus_ok i ts : ok ts → ok (Focus i ts).2.
Proof.
  intros Hok. unfold Focus, indexOf. destruct (index_spec 0 i (order ts)) as [[-> _]|(a & b & Ho & _ & ->)]; [done|].
  pose proof (zlen_nonneg a). destruct (Z.ltb_spec (0 + zlen a) 0); [lia|]. simpl.
  apply ok_intro; [by destruct Hok|rewrite Ho; by destruct a|].
  intros _. rewrite Ho, zlen_app, zlen_cons. pose proof (zlen_nonneg b). lia.
Qed.
Lemma Focus_order i ts : order (Focus i ts).2 = order ts.
Proof. unfold Focus. by case_match. Qed.
Lemma Next_order ts : order (Next ts) = order ts.
Proof. unfold Next. by case_match. Qed.
Lemma Prev_order ts : order (Prev ts) = order ts.
Proof. unfold Prev. by case_match. Qed.

(** Closing the focused tab leaves the focus on the tab after it, when there is one. *)
Theorem close_focuses_next a i j b : NoDup (a ++ i :: j :: b) →
  Focused (Remove i (Mk (a ++ i :: j :: b) (zlen a))) = Some j.
Proof.
  intros (_ & H2 & _)%NoDup_app. rewrite Remove_split by (intros Hi; apply (H2 i Hi); set_solver).
  pose proof (zlen_nonneg a). pose proof (zlen_nonneg b).
  assert (Hlen : zlen (a ++ j :: b) = zlen a + (1 + zlen b)) by (by rewrite zlen_app, zlen_cons).
  rewrite Hlen. destruct (Z.eqb_spec (zlen a + (1 + zlen b)) 0); [lia|].
  destruct (Z.ltb_spec (zlen a) (zlen a)); [lia|]. destruct (Z.leb_spec (zlen a + (1 + zlen b)) (zlen a)); [lia|].
  rewrite andb_false_r. unfold Focused. simpl. rewrite Hlen. destruct (Z.ltb_spec (zlen a) 0); [lia|].
  destruct (Z.leb_spec (zlen a + (1 + zlen b)) (zlen a)); [lia|]. simpl. unfold zlen. rewrite Nat2Z.id.
  by apply list_lookup_middle.
Qed.
End TabLaws.

(** ** The hit test *)

Section Hits.
Context {P C X : Type} `{Pane P C X} {LG : Lipgloss}.

(** The tab whose label covers column [x] of a bar. *)
Fixpoint covering (x : Z) (ls : list (PaneID * string)) : option PaneID :=
  match ls with
  | [] => None
  | (id, s) :: ls => if x <? cells s then Some id else covering (x - cells s) ls
  end.
Lemma find_spans x col ls : col ≤ x → sp_id <$> find (in_span x) (spans col ls) = covering (x - col) ls.
Proof.
  revert col. induction ls as [|[id s] ls IH]; intros col Hx; [done|]. simpl. unfold in_span at 1. simpl.
  destruct (Z.leb_spec col x); [|lia]. destruct (Z.ltb_spec x (col + cells s)), (Z.ltb_spec (x - col) (cells s)); try lia.
  - done.
  - simpl. rewrite IH by lia. f_equal. lia.
Qed.

Definition bar_labels (panes : gmap PaneID P) (l : layout) : list (PaneID * string) :=
  labels (l_theme l) 0 (Tabs.order (tabs l)) panes.
(** The screen of a layout with its bar at the top: the bar, the bordered body, the status line. *)
Definition screen_hit (panes : gmap PaneID P) (l : layout) (w h x y : Z) : Hit :=
  if (x <? 0) || (y <? 0) || (w <=? x) || (h <=? y) then ZoneNone
  else if y =? 0 then match covering x (bar_labels panes l) with Some id => ZoneTab id | None => ZoneNone end
  else match Tabs.Focused (tabs l) with
       | Some id => if (1 <=? x) && (x <? w - 1) && (2 <=? y) && (y <? h - status_rows l - 1)
                    then ZoneBody id (x - 1) (y - 2) else ZoneNone
       | None => ZoneNone
       end.

Lemma floor0_max n : floor0 n = Z.max n 0.
Proof. unfold floor0. zsolve. Qed.
Lemma has_bar_Refresh panes w h l : has_bar l = true →
  Refresh panes (layout_size w h l) = set_spans (spans 0 (bar_labels panes l)) (layout_size w h l).
Proof.
  unfold has_bar, Refresh. intros [Hb%bool_decide_eq_true Hl%Z.ltb_lt]%andb_prop.
  change (opts (layout_size w h l)) with (opts l). change (tabs (layout_size w h l)) with (tabs l).
  rewrite bool_decide_false by done. destruct (Z.eqb_spec (Tabs.Len (tabs l)) 0); [lia|]. done.
Qed.

(** With the tab bar at the top and spans refreshed, the hit test is exact for
    every cell: on the bar's row the tab whose label covers the column, inside the
    border of the body the focused pane with coordinates local to its interior,
    and nothing on the border, the status line or outside the screen. *)
Theorem hit_test_exact panes w h l x y :
  has_bar l = true → o_TabBar (opts l) ≠ "bottom"%string →
  HitTest x y (Refresh panes (layout_size w h l)) = screen_hit panes l w h x y.
Proof.
  intros Hbar Hb. rewrite has_bar_Refresh by done. unfold screen_hit, HitTest. cbn [set_spans set_rects l_rects l_width l_height tabs layout_size recompute].
  unfold has_bar in *. cbn [tabs opts]. rewrite Hbar. rewrite bool_decide_false by done.
  cbn [tabBarRow tabSpans bodyTop bodyLeft bodyW bodyH andb negb].
  change (status_rows _) with (status_rows l).
  destruct (Z.ltb_spec x 0); [done|]. destruct (Z.ltb_spec y 0); [done|]. destruct (Z.leb_spec w x); [done|].
  destruct (Z.leb_spec h y); [done|]. cbn [orb]. change (0 <=? 0) with true. cbn [andb].
  destruct (Z.eqb_spec y 0).
  - pose proof (find_spans x 0 (bar_labels panes l) ltac:(lia)) as Hf. rewrite Z.sub_0_r in Hf. rewrite <-Hf.
    by destruct (find _ _).
  - destruct (Tabs.Focused (tabs l)); [|done]. rewrite !floor0_max. assert (0 ≤ status_rows l ≤ 1) by (unfold status_rows; case_match; lia).
    zcase; first [done | exfalso; lia | f_equal; lia].
Qed.

(** With the tab bar at the bottom a click on a tab hits one row too low: only the
    status line's row gives tabs, and without a status line no cell does. *)
Theorem bottom_bar_misses panes w h l x y id :
  has_bar l = true → o_TabBar (opts l) = "bottom"%string →
  HitTest x y (Refresh panes (layout_size w h l)) = ZoneTab id →
  o_StatusBar (opts l) = true ∧ y = h - 1.
Proof.
  intros Hbar Hb. rewrite has_bar_Refresh by done. unfold HitTest. cbn [set_spans set_rects l_rects l_width l_height tabs layout_size recompute].
  unfold has_bar in *. cbn [tabs opts]. rewrite Hbar. rewrite bool_decide_true by done.
  cbn [tabBarRow tabSpans bodyTop bodyLeft bodyW bodyH andb negb].
  change (status_rows _) with (status_rows l). rewrite !floor0_max. unfold status_rows.
  destruct (Z.ltb_spec x 0); [done|]. destruct (Z.ltb_spec y 0); [done|]. destruct (Z.leb_spec w x); [done|].
  destruct (Z.leb_spec h y); [done|]. cbn [orb].
  destruct (_ && (y =? _)) eqn:Hy.
  - apply andb_prop in Hy as [_ Hy%Z.eqb_eq]. intros _. destruct (o_StatusBar (opts l)); zcase_in Hy; split; first [done | exfalso; lia | lia].
  - destruct (Tabs.Focused (tabs l)); [|done]. repeat case_match; done.
Qed.
End Hits.

#[local] Instance plain_screen : Lipgloss := {|
  paint _ _ s := s; plain s := s; cells s := Z.of_nat (String.length s); box _ _ _ s := s; padded _ _ s := s |}.
Definition demo_layout : layout :=
  New_layout (Tabs.Mk ["a"; "b"]%string 1) (MkTheme "" "" "" "" "" "" "" "" "" "" "" "" "" "" "") (MkOptions "top" true).
Definition demo_pane (i : string) : launcherPane := MkLauncher (NewBase i "launcher") ∅.
Definition demo_panes : gmap PaneID launcherPane := {["a"%string := demo_pane "a"; "b"%string := demo_pane "b"]}.

Lemma hit_test_exact_witness :
  HitTest 20 0 (Refresh (C:=unit) (X:=unit) demo_panes (layout_size 40 10 demo_layout)) = ZoneTab "b" ∧
  HitTest 1 2 (Refresh (C:=unit) (X:=unit) demo_panes (layout_size 40 10 demo_layout)) = ZoneBody "b" 0 0.
Proof.
  split; (rewrite (hit_test_exact (C:=unit) (X:=unit)); [by vm_compute|by vm_compute|by apply (bool_decide_unpack _)]).
Defined.

End OpsChromeLaws.
