(* ===== verification/OpsShellLaws.v ===== *)
(** * Laws of the console's shell

    The ledger of panes (order, identifiers, contexts, closes) and the coherence
    of tabs, registry and focus over every run of messages, the quit guard and the
    teardown; what reload and the mouse do otherwise than documented. *)

From S2P Require Import Prelude GoLib GoText CredentialLaws OpsKeys OpsShell OpsChromeLaws.
Import GoLib OpsShell OpsChromeLaws.

Module OpsShellLaws.

(** ** Identifiers *)

Lemma format_int_no_colon n : 58 ∉ format_int_b n.
Proof.
  assert (∀ m, 0 ≤ m → 58 ∉ format_uint_b m) as Hu.
  { intros m Hm Hin. destruct (format_uint_spec m m) as (_ & _ & H3); [lia..|].
    rewrite Forall_forall in H3. by apply H3 in Hin. }
  unfold format_int_b. destruct (Z.ltb_spec n 0); [|by apply Hu].
  intros [?|Hin]%elem_of_cons; [done|]. by apply Hu in Hin; [|lia].
Qed.
Lemma after_colon (a b c d : bytes) : 58 ∉ b → 58 ∉ d → a ++ 58 :: b = c ++ 58 :: d → b = d.
Proof.
  intros Hb Hd He. apply app_eq_inv in He as [(k & _ & He)|(k & _ & He)]; destruct k as [|x k]; simpl in He.
  - by injection He.
  - injection He as _ ->. destruct Hd. rewrite elem_of_app, elem_of_cons. auto.
  - by injection He.
  - injection He as _ ->. destruct Hb. rewrite elem_of_app, elem_of_cons. auto.
Qed.
Lemma pane_id_seq k n k' n' : in_i64 n → in_i64 n' → pane_id k n = pane_id k' n' → n = n'.
Proof.
  intros Hn Hn' E. unfold pane_id in E. apply (f_equal bytes_of_string) in E.
  rewrite !CredentialLaws.bytes_of_string_app in E. unfold format_int in E.
  rewrite !bytes_of_string_of_bytes in E by apply format_int_bytes.
  change (bytes_of_string ":") with [58] in E. simpl in E.
  apply after_colon in E; [|apply format_int_no_colon..].
  apply format_int_inj; [done..|]. unfold format_int. by rewrite E.
Qed.

Section Laws.
Context {P C X : Type} `{PL : PaneLaws P C X} {LG : Lipgloss} {KL : OpsKeys.KeyLib}.
Implicit Types (m : Model (P:=P)) (r : registry (P:=P)) (q : Msg X).

(** ** The ledger *)

Definition closed_ids (es : list effect) : list PaneID := omap (λ e, match e with Closed i => Some i | _ => None end) es.
(** A pane's context is cancelled just before the pane is closed. *)
Inductive paired : list effect → Prop :=
| paired_nil : paired []
| paired_close i es : paired es → paired (Cancelled i :: Closed i :: es)
| paired_root es : paired es → paired (RootCancelled :: es).
Lemma paired_app a b : paired a → paired b → paired (a ++ b).
Proof. induction 1; simpl; eauto using paired. Qed.

(** Identifiers in the order in which their numbers were minted, none above [n]. *)
Definition ids (ks : list (PaneKind * Z)) : list PaneID := (λ kn, pane_id kn.1 kn.2) <$> ks.
Definition minted (l : list PaneID) (n : Z) : Prop := ∃ ks,
  l = ids ks ∧ StronglySorted (λ a b, a.2 < b.2) ks ∧ Forall (λ kn, kn.2 ≤ n) ks.
Lemma minted_more l n n' : minted l n → n ≤ n' → minted l n'.
Proof. intros (ks & -> & Hs & Hb) Hn. exists ks. split_and!; [done..|]. eapply Forall_impl; [exact Hb|]. simpl. lia. Qed.
Lemma minted_snoc l n k n' : minted l n → n < n' → minted (l ++ [pane_id k n']) n'.
Proof.
  intros (ks & -> & Hs & Hb) Hn. exists (ks ++ [(k, n')]). split_and!; [by unfold ids; rewrite fmap_app|..].
  - induction Hs as [|x ks Hs IH Hx]; simpl; [by constructor; constructor|]. apply Forall_cons in Hb as [Hxn Hb].
    constructor; [by apply IH|]. apply Forall_app. split; [done|]. apply Forall_singleton. simpl. lia.
  - apply Forall_app. split; [|by apply Forall_singleton]. eapply Forall_impl; [exact Hb|]. simpl. lia.
Qed.
Lemma minted_remove i l n : minted l n → minted (remove_first i l) n.
Proof.
  intros (ks & -> & Hs & Hb).
  assert (Hex : ∃ ks', remove_first i (ids ks) = ids ks' ∧
    StronglySorted (λ a b, a.2 < b.2) ks' ∧ ∀ Q : PaneKind * Z → Prop, Forall Q ks → Forall Q ks').
  { clear Hb. induction Hs as [|x ks Hs (ks' & He & Hs' & Hsub) Hx]; [exists []; split_and!; [done|constructor|done]|]. simpl.
    case_bool_decide.
    - exists ks. split_and!; [done..|]. by intros Q [_ ?]%Forall_cons.
    - exists (x :: ks'). split_and!; [by cbn; f_equal|constructor; auto|]. intros Q [? ?]%Forall_cons. constructor; auto. }
  destruct Hex as (ks' & -> & Hs' & Hsub). exists ks'. split_and!; auto.
Qed.

Record ledger r (es : list effect) : Prop := Ledger {
  g_nodup : NoDup (order r);
  g_live : ∀ i, i ∈ order r ↔ is_Some (panes r !! i);
  g_cancel : ∀ i, i ∈ cancels r ↔ is_Some (panes r !! i);
  g_seq : 0 ≤ seq r;
  g_order : minted (order r) (seq r);
  g_minted : ∀ i, i ∈ order r ∨ i ∈ closed_ids es → ∃ k n, i = pane_id k n ∧ 1 ≤ n ≤ seq r;
  g_once : NoDup (closed_ids es);
  g_dead : ∀ i, i ∈ closed_ids es → i ∉ order r;
  g_paired : paired es }.

Lemma ledger_panes ps r es : (∀ i, is_Some (ps !! i) ↔ is_Some (panes r !! i)) → ledger r es → ledger (set_panes ps r) es.
Proof. intros Hp []. split; simpl; intros; rewrite ?Hp; auto. Qed.
Lemma ledger_put i p r es : is_Some (panes r !! i) → ledger r es → ledger (set_panes (<[i := p]> (panes r)) r) es.
Proof.
  intros Hi. apply ledger_panes. intros j. destruct (decide (j = i)) as [->|]; [by rewrite lookup_insert_eq|].
  by rewrite lookup_insert_ne.
Qed.
Lemma lookup_map_imap_some (f : PaneID → P → P) (ps : gmap PaneID P) i :
  map_imap (λ i p, Some (f i p)) ps !! i = f i <$> ps !! i.
Proof. rewrite map_lookup_imap. by destruct (ps !! i). Qed.
Lemma ledger_map f r es : ledger r es → ledger (set_panes (map_imap (λ i p, Some (f i p)) (panes r)) r) es.
Proof. apply ledger_panes. intros i. rewrite lookup_map_imap_some. by rewrite fmap_is_Some. Qed.
Lemma ledger_root r es : ledger r es → ledger r (es ++ [RootCancelled]).
Proof.
  assert (closed_ids (es ++ [RootCancelled]) = closed_ids es) as E by (unfold closed_ids; by rewrite omap_app, app_nil_r).
  intros []. split; rewrite ?E; auto using paired_app, paired.
Qed.

Lemma reg_spawn_spec k r es : ledger r es → seq r < max_i64 →
  match reg_spawn k r with
  | (Err _, r') => ledger r' es ∧ order r' = order r ∧ panes r' = panes r ∧ factories r' = factories r ∧ seq r ≤ seq r' ≤ seq r + 1
  | (Ok (p, i), r') =>
      ledger r' es ∧ order r' = order r ++ [i] ∧ panes r' = <[i := p]> (panes r) ∧ factories r' = factories r ∧
      (i ∉ order r) ∧ (panes r !! i = None) ∧ seq r ≤ seq r' ≤ seq r + 1
  end.
Proof.
  intros G Hmax. pose proof (g_seq _ _ G) as Hs. unfold reg_spawn, mintID.
  assert (Hw : i64 (seq r + 1) = seq r + 1) by (unfold i64, max_i64 in *; rewrite Z.mod_small; lia).
  destruct (factories r !! k) as [f|]; [|split_and!; auto; lia]. rewrite Hw. cbn [r_cfg].
  destruct (f _ _) as [p|].
  2: { split_and!; try done; cbn [seq]; [|lia..]. destruct G. split; auto; cbn [order panes cancels seq]; [lia|by apply (minted_more _ (seq r)); [|lia]|].
       intros i Hi. destruct (g_minted0 i Hi) as (k1 & n1 & ? & ?). exists k1, n1. split; [done|]. lia. }
  set (i := pane_id k (seq r + 1)).
  assert (Hnew : (i ∉ order r) ∧ (i ∉ closed_ids es)).
  { apply not_elem_of_app. intros Hi%elem_of_app. apply (g_minted _ _ G) in Hi as (k' & n & E & Hn).
    apply pane_id_seq in E; unfold in_i64, min_i64, max_i64 in *; lia. }
  destruct Hnew as [Hno Hnc].
  assert (Hnone : panes r !! i = None).
  { destruct (panes r !! i) eqn:E; [|done]. exfalso. apply Hno, (g_live _ _ G). eauto. }
  assert (Hlook : ∀ j, is_Some (<[i := p]> (panes r) !! j) ↔ j = i ∨ is_Some (panes r !! j)).
  { intros j. destruct (decide (j = i)) as [->|]; [rewrite lookup_insert_eq; naive_solver|].
    rewrite lookup_insert_ne by done. naive_solver. }
  cbn [panes factories order seq cancels r_cfg]. split_and!; try done; try lia.
  destruct G as [G1 G2 G3 G4 G0 G5 G6 G7 G8]. split; cbn [panes factories order seq cancels r_cfg];
    [| | |lia|by apply (minted_snoc _ (seq r)); [|lia]| |done| |done].
  - apply NoDup_app. split_and!; [done|set_solver|apply NoDup_singleton].
  - intros j. rewrite Hlook, elem_of_app, list_elem_of_singleton, <-G2. tauto.
  - intros j. rewrite Hlook, elem_of_union, elem_of_singleton, <-G3. tauto.
  - intros j Hj. destruct (decide (j = i)) as [->|].
    + exists k, (seq r + 1). split; [done|lia].
    + assert (Hj' : j ∈ order r ∨ j ∈ closed_ids es) by set_solver.
      destruct (G5 j Hj') as (k1 & n1 & ? & ?). exists k1, n1. split; [done|lia].
  - intros j Hj. specialize (G7 j Hj). set_solver.
Qed.

Lemma elem_of_remove_first i j (l : list PaneID) : NoDup l → j ∈ remove_first i l ↔ j ∈ l ∧ j ≠ i.
Proof.
  induction 1 as [|x l Hx Hl IH]; simpl; [set_solver|]. case_bool_decide; [set_solver|].
  rewrite !elem_of_cons, IH. naive_solver.
Qed.
Lemma NoDup_remove_first i (l : list PaneID) : NoDup l → NoDup (remove_first i l).
Proof.
  induction 1 as [|x l Hx Hl IH]; simpl; [constructor|]. case_bool_decide; [done|]. constructor; [|done].
  rewrite elem_of_remove_first by done. tauto.
Qed.

Lemma reg_remove_spec i r es : ledger r es →
  ledger (reg_remove i r).2 (es ++ (reg_remove i r).1) ∧ panes (reg_remove i r).2 = delete i (panes r) ∧
  order (reg_remove i r).2 = remove_first i (order r) ∧ seq (reg_remove i r).2 = seq r ∧
  factories (reg_remove i r).2 = factories r ∧
  (is_Some (panes r !! i) → (reg_remove i r).1 = [Cancelled i; Closed i]).
Proof.
  intros G. unfold reg_remove. destruct (panes r !! i) as [p|] eqn:Hi.
  2: { rewrite app_nil_r. split_and!; try done; simpl.
       - by rewrite delete_id.
       - assert (Hn : i ∉ order r) by (rewrite (g_live _ _ G), Hi; by intros []). clear -Hn.
         induction (order r) as [|x l IH]; [done|]. simpl. rewrite bool_decide_false by set_solver.
         f_equal. apply IH. set_solver. }
  destruct G as [G1 G2 G3 G4 G0 G5 G6 G7 G8].
  rewrite bool_decide_true by (apply G3; by rewrite Hi). simpl.
  assert (Hlive : i ∈ order r) by (apply G2; by rewrite Hi).
  assert (Hc : closed_ids (es ++ [Cancelled i; Closed i]) = closed_ids es ++ [i]) by (unfold closed_ids; by rewrite omap_app).
  assert (Hlook : ∀ j, is_Some (delete i (panes r) !! j) ↔ j ≠ i ∧ is_Some (panes r !! j)).
  { intros j. rewrite lookup_delete_is_Some. naive_solver. }
  split_and!; try done. split; simpl; rewrite ?Hc.
  - by apply NoDup_remove_first.
  - intros j. rewrite elem_of_remove_first, Hlook, G2 by done. tauto.
  - intros j. rewrite elem_of_difference, elem_of_singleton, Hlook, G3. tauto.
  - done.
  - by apply minted_remove.
  - intros j Hj. apply G5. rewrite elem_of_remove_first, elem_of_app, list_elem_of_singleton in Hj by done.
    destruct Hj as [[? _]|[?| ->]]; auto.
  - apply NoDup_app. split_and!; [done| |apply NoDup_singleton].
    intros j Hj ->%list_elem_of_singleton. by apply (G7 _ Hj).
  - intros j. rewrite elem_of_app, list_elem_of_singleton, elem_of_remove_first by done.
    intros [Hj| ->]; [|tauto]. intros [? _]. by apply (G7 _ Hj).
  - apply paired_app; [done|]. eauto using paired.
Qed.

(** ** Coherence *)

Definition books m : Prop := ledger (reg m) (log m).
Record shape m : Prop := Shape {
  h_books : books m; h_tabs : TabLaws.ok (tabs (lay m)); h_order : Tabs.order (tabs (lay m)) = order (reg m) }.
Definition focus_of (p : P) : bool := focused (p_base p).
Definition focus_ok m : Prop := ∀ i p, panes (reg m) !! i = Some p →
  focus_of p = bool_decide (Tabs.Focused (tabs (lay m)) = Some i).
(** Tabs, registry and focus agree. *)
Definition coherent m : Prop := shape m ∧ focus_ok m.
Definition launcher_ok m : Prop := ∃ f, factories (reg m) !! KindLauncher = Some f ∧ ∀ b c, is_Some (f b c).
Definition inhabited m : Prop := panes (reg m) ≠ ∅.

(** Two models with the same tabs, registry and focus flags. *)
Record frame m m' : Prop := Frame {
  f_tabs : tabs (lay m') = tabs (lay m); f_order : order (reg m') = order (reg m);
  f_cancels : cancels (reg m') = cancels (reg m); f_seq : seq (reg m') = seq (reg m);
  f_fact : factories (reg m') = factories (reg m); f_log : log m' = log m; f_quit : quitting m' = quitting m;
  f_panes : ∀ i, focus_of <$> panes (reg m') !! i = focus_of <$> panes (reg m) !! i }.
Lemma frame_refl m : frame m m.
Proof. by split. Qed.
Lemma frame_trans m1 m2 m3 : frame m1 m2 → frame m2 m3 → frame m1 m3.
Proof. intros [] []. split; try congruence. Qed.
Lemma frame_is_Some m m' i : frame m m' → is_Some (panes (reg m') !! i) ↔ is_Some (panes (reg m) !! i).
Proof. intros []. rewrite <-!(fmap_is_Some focus_of), f_panes0. done. Qed.
Lemma frame_books m m' : frame m m' → books m → books m'.
Proof.
  intros F G. pose proof (λ i, frame_is_Some m m' i F) as Hd. destruct F, G.
  unfold books. apply Ledger.
  - by rewrite f_order0.
  - intros i. by rewrite f_order0, Hd.
  - intros i. by rewrite f_cancels0, Hd.
  - by rewrite f_seq0.
  - by rewrite f_order0, f_seq0.
  - intros i. rewrite f_order0, f_log0, f_seq0. auto.
  - by rewrite f_log0.
  - intros i. rewrite f_log0, f_order0. auto.
  - by rewrite f_log0.
Qed.
Lemma frame_coherent m m' : frame m m' → coherent m → coherent m'.
Proof.
  intros F [[G T O] Hf]. pose proof (frame_books _ _ F G). destruct F. split; [split; [done|congruence..]|].
  intros i p Hp. specialize (f_panes0 i). rewrite Hp in f_panes0.
  destruct (panes (reg m) !! i) as [p0|] eqn:E; [|done]. injection f_panes0 as ->. rewrite (Hf _ _ E). by rewrite f_tabs0.
Qed.
Lemma frame_inhabited m m' : frame m m' → inhabited m → inhabited m'.
Proof.
  intros F Hn E. destruct Hn. apply map_eq. intros i. rewrite lookup_empty.
  destruct (panes (reg m) !! i) eqn:Ei; [|done].
  assert (is_Some (panes (reg m') !! i)) as [? Hi] by (apply (frame_is_Some m m' i F); by rewrite Ei).
  by rewrite E, lookup_empty in Hi.
Qed.

(** What one message keeps. *)
Record step_ok m m' : Prop := Step {
  s_seq : seq (reg m) ≤ seq (reg m') ≤ seq (reg m) + 1;
  s_fact : factories (reg m') = factories (reg m);
  s_books : books m';
  s_keep : quitting m' = false → quitting m = false ∧ (coherent m → coherent m') ∧
             (launcher_ok m → inhabited m → inhabited m') }.
Lemma frame_step m m' : frame m m' → books m → step_ok m m'.
Proof.
  intros F G. split; [destruct F; lia|by destruct F|by eapply frame_books|].
  intros Hq. split_and!; [destruct F; congruence|by apply frame_coherent|intros _; by apply frame_inhabited].
Qed.
Lemma frame_then m m1 m2 : frame m m1 → step_ok m1 m2 → step_ok m m2.
Proof.
  intros F []. split; [destruct F; lia|destruct F; congruence|done|]. intros Hq. destruct (s_keep0 Hq) as (? & ? & Ha).
  split_and!; [destruct F; congruence|eauto using frame_coherent|].
  intros (f & Hf & Hs) Hi. apply Ha; [exists f; destruct F; split; [congruence|done]|by eapply frame_inhabited].
Qed.
Lemma then_frame m m1 m2 : step_ok m m1 → frame m1 m2 → step_ok m m2.
Proof.
  intros [] F. split; [destruct F; lia|destruct F; congruence|by eapply frame_books|]. intros Hq.
  destruct s_keep0 as (? & ? & Ha); [destruct F; congruence|].
  split_and!; [done|eauto using frame_coherent|eauto using frame_inhabited].
Qed.

Lemma put_frame i p p0 m : panes (reg m) !! i = Some p0 → focus_of p = focus_of p0 → frame m (put_pane i p m).
Proof.
  intros Hi Hf. split; try done. intros j. simpl. destruct (decide (j = i)) as [->|].
  - rewrite lookup_insert_eq, Hi. simpl. by rewrite Hf.
  - by rewrite lookup_insert_ne.
Qed.
Lemma route_frame to q m : frame m (routePaneMsg to q m).1.
Proof.
  unfold routePaneMsg. destruct (panes (reg m) !! to) as [p|] eqn:Hp; [|apply frame_refl].
  destruct (p_update q p) as [[u self] c] eqn:Hu. apply (put_frame _ _ p); [done|].
  unfold focus_of. pose proof (focused_update q p) as Hf. by rewrite Hu in Hf.
Qed.
Lemma init_frame i m : frame m (initPane i m).1.
Proof.
  unfold initPane. destruct (panes (reg m) !! i) as [p|] eqn:Hp; [|apply frame_refl].
  destruct (p_init p) as [p' c] eqn:Hu. apply (put_frame _ _ p); [done|].
  unfold focus_of. pose proof (focused_init p) as Hf. by rewrite Hu in Hf.
Qed.
Lemma broadcast_frame q m : frame m (broadcast q m).1.
Proof.
  unfold broadcast. assert (Hg : ∀ l m0 cs, frame m m0 →
    frame m (foldl (λ '(m, cs) i, let '(m, cs') := routePaneMsg i q m in (m, cs ++ cs')) (m0, cs) l).1).
  { induction l as [|i l IH]; intros m0 cs F; simpl; [done|].
    pose proof (route_frame i q m0) as Hr. destruct (routePaneMsg i q m0) as [m1 cs1]. apply IH.
    by eapply frame_trans. }
  apply Hg, frame_refl.
Qed.
Lemma on_panes_frame f m : (∀ i p, focus_of (f i p) = focus_of p) → frame m (on_panes f m).
Proof.
  intros Hf. split; try done. intros i. simpl. rewrite lookup_map_imap_some. destruct (panes (reg m) !! i); simpl; by rewrite ?Hf.
Qed.

Lemma applyFocus_ok m : shape m → coherent (applyFocus m).
Proof.
  intros [G T O]. split; [split; [|done..]; by apply ledger_map|].
  intros i p. simpl. rewrite lookup_map_imap_some. destruct (panes (reg m) !! i) as [p0|]; [|done].
  intros [= <-]. unfold focus_of. by rewrite focused_set.
Qed.
Lemma applyFocus_books m : books m → books (applyFocus m).
Proof. by apply ledger_map. Qed.
Lemma applyFocus_inhabited m : inhabited m → inhabited (applyFocus m).
Proof.
  intros Hn E. destruct Hn. simpl in E. apply map_eq. intros i. rewrite lookup_empty.
  apply (f_equal (.!! i)) in E. rewrite lookup_map_imap_some, lookup_empty in E. by destruct (panes (reg m) !! i).
Qed.
(** A move of the focus pointer. *)
Lemma refocus_step f m : (∀ ts, TabLaws.ok ts → TabLaws.ok (f ts)) → (∀ ts, Tabs.order (f ts) = Tabs.order ts) →
  books m → step_ok m (applyFocus (on_tabs f m)).
Proof.
  intros Hok Ho G. split; simpl; [lia|done|by apply applyFocus_books|]. intros Hq. split_and!; [done| |].
  - intros [[_ T O] _]. apply applyFocus_ok. split; [done|by apply Hok|]. simpl. by rewrite Ho.
  - intros _. by apply (applyFocus_inhabited (on_tabs f m)).
Qed.
Lemma focusPane_step i m : books m → step_ok m (focusPane i m).
Proof.
  intros G. unfold focusPane. pose proof (TabLaws.Focus_ok i) as Ho. pose proof (TabLaws.Focus_order i) as Hd.
  destruct (Tabs.Focus i (tabs (lay m))) as [ok t] eqn:E. destruct ok; [|apply frame_step; [apply frame_refl|done]].
  replace (set_lay (set_tabs t (lay m)) m) with (on_tabs (λ ts, (Tabs.Focus i ts).2) m) by (unfold on_tabs; by rewrite E).
  by apply refocus_step.
Qed.

Lemma spawn_step k args f m : books m → seq (reg m) < max_i64 →
  step_ok m (spawn k args f m).1 ∧
  (launcher_ok m → k = KindLauncher → inhabited (spawn k args f m).1).
Proof.
  intros G Hmax. unfold spawn. pose proof (reg_spawn_spec k (reg m) (log m) G Hmax) as Hs.
  destruct (reg_spawn k (reg m)) as [[[p i]|e] r'] eqn:Hr.
  2: { destruct Hs as (G' & Ho & Hp & Hf & Hq). split.
       - split; simpl; [lia|done|done|]. intros Hqt. split_and!; [done| |].
         + intros [[_ T O] Hfo]. split; [split; [done|done|]; simpl; congruence|]. intros j p. simpl. rewrite Hp. apply Hfo.
         + unfold inhabited. simpl. by rewrite Hp.
       - intros (fl & Hfl & Hal) ->. unfold reg_spawn, mintID in Hr. rewrite Hfl in Hr. cbn [r_cfg] in Hr.
         destruct (Hal (NewBase (pane_id KindLauncher (i64 (seq (reg m) + 1))) KindLauncher) (r_cfg (reg m))) as [p Hpp]. by rewrite Hpp in Hr. }
  destruct Hs as (G' & Ho & Hp & Hf & Hni & Hnone & Hq). destruct (BodySize (lay m)) as [w h].
  set (m1 := on_tabs (Tabs.Add i f) (put_pane i (p_set_size w h p) (set_reg r' m))).
  pose proof (init_frame i (applyFocus m1)) as Fi. destruct (initPane i (applyFocus m1)) as [m2 cs]. cbn [fst] in *.
  assert (G1 : books m1). { unfold m1, books. simpl. apply ledger_put; [|done]. rewrite Hp. by rewrite lookup_insert_eq. }
  assert (In : inhabited m1). { unfold inhabited, m1. simpl. apply insert_non_empty. }
  split.
  - eapply then_frame; [|exact Fi]. split; simpl; [lia|done|by apply applyFocus_books|]. intros Hqt. split_and!; [done| |].
    + intros [[_ T O] _]. apply applyFocus_ok. split; [done| |].
      * apply TabLaws.Add_ok; [done|]. simpl. by rewrite O.
      * simpl. by rewrite O, Ho.
    + intros _ _. by apply (applyFocus_inhabited m1).
  - intros _ _. eapply frame_inhabited; [exact Fi|]. by apply applyFocus_inhabited.
Qed.

Lemma drop_pane_books i m : books m → books (drop_pane i m).
Proof.
  intros G. pose proof (reg_remove_spec i (reg m) (log m) G) as (G' & _). unfold drop_pane.
  by destruct (reg_remove i (reg m)) as [e r].
Qed.
Lemma drop_pane_spec i m : books m →
  panes (reg (drop_pane i m)) = delete i (panes (reg m)) ∧ order (reg (drop_pane i m)) = remove_first i (order (reg m)) ∧
  seq (reg (drop_pane i m)) = seq (reg m) ∧ factories (reg (drop_pane i m)) = factories (reg m) ∧
  quitting (drop_pane i m) = quitting m ∧ lay (drop_pane i m) = lay m ∧
  (is_Some (panes (reg m) !! i) → log (drop_pane i m) = log m ++ [Cancelled i; Closed i]).
Proof.
  intros G. destruct (reg_remove_spec i (reg m) (log m) G) as (_ & Hp & Ho & Hs & Hf & Hl). unfold drop_pane.
  destruct (reg_remove i (reg m)) as [e r]. simpl in *. split_and!; try done. intros Hi. by rewrite Hl.
Qed.

Lemma closePane_step i m : books m → seq (reg m) < max_i64 → step_ok m (closePane i m).1.
Proof.
  intros G Hmax. unfold closePane. destruct (panes (reg m) !! i) as [p|] eqn:Hi; [|apply frame_step; [apply frame_refl|done]].
  pose proof (drop_pane_books i m G) as G1. destruct (drop_pane_spec i m G) as (Hp & Ho & Hs & Hf & Hq & Hl & _).
  set (m1 := on_tabs (Tabs.Remove i) (drop_pane i m)).
  assert (Hshape : shape m → shape m1).
  { intros [_ T O]. split; [done|unfold m1; simpl; rewrite Hl; by apply TabLaws.Remove_ok|].
    unfold m1. simpl. rewrite Hl, TabLaws.Remove_order, Ho. by rewrite O. }
  case_bool_decide as He.
  - destruct (spawn_step KindLauncher ∅ true m1 G1) as [S Sl]; [unfold m1; simpl; lia|].
    destruct (spawn KindLauncher ∅ true m1) as [m2 cs]. cbn [fst] in *.
    destruct S as [S1 S2 S3 S4]. unfold m1 in S1, S2, S4. simpl in S1, S2, S4. fold m1 in S4.
    split; simpl; [lia|congruence|by apply applyFocus_books|].
    intros Hqt. destruct (S4 Hqt) as (Hq1 & _ & _). split_and!; [congruence| |].
    + intros [Sh _]. apply applyFocus_ok.
      enough (Hc : coherent m2) by apply Hc. apply (S4 Hqt). split; [by apply Hshape|].
      intros j q. by rewrite He, lookup_empty.
    + intros (f & Hfl & Hal) _. apply applyFocus_inhabited, Sl; [|done]. exists f. split; [|done]. unfold m1. simpl. congruence.
  - split; simpl; [lia|done|by apply applyFocus_books|]. intros Hqt. split_and!; [congruence| |].
    + intros [Sh _]. by apply applyFocus_ok, Hshape.
    + intros _ _. by apply (applyFocus_inhabited m1).
Qed.

Lemma closeAll_books l m : books m → books (foldl (λ m i, drop_pane i m) m l) ∧
  seq (reg (foldl (λ m i, drop_pane i m) m l)) = seq (reg m) ∧
  factories (reg (foldl (λ m i, drop_pane i m) m l)) = factories (reg m) ∧
  quitting (foldl (λ m i, drop_pane i m) m l) = quitting m.
Proof.
  revert m. induction l as [|i l IH]; intros m G; [done|]. simpl.
  destruct (IH (drop_pane i m) (drop_pane_books i m G)) as (H1 & H2 & H3 & H4).
  destruct (drop_pane_spec i m G) as (_ & _ & ? & ? & ? & _). split_and!; congruence.
Qed.
Lemma teardown_books cut m : books m → books (teardown cut m) ∧ seq (reg (teardown cut m)) = seq (reg m) ∧
  factories (reg (teardown cut m)) = factories (reg m) ∧ quitting (teardown cut m) = quitting m.
Proof.
  intros G. unfold teardown, closeAllReverse.
  assert (Ha : ∀ n, let m' := foldl (λ m i, drop_pane i m) m (take n (reverse (order (reg m)))) in
    books m' ∧ seq (reg m') = seq (reg m) ∧ factories (reg m') = factories (reg m) ∧ quitting m' = quitting m)
    by (intros n; by apply closeAll_books).
  case_match; [apply Ha|]. destruct (Ha cut) as (H1 & H2 & H3 & H4). split_and!; try done. by apply ledger_root.
Qed.
Lemma beginQuit_step cut m : books m → step_ok m (beginQuit (C:=C) (X:=X) cut m).1.
Proof.
  intros G. unfold beginQuit. case_match; [apply frame_step; [by split|done]|].
  destruct (teardown_books cut (set_quitting m) G) as (H1 & H2 & H3 & H4). split; simpl in *; [lia|done|done|congruence].
Qed.
(** ** Every message *)

Lemma runAction_step cut a m : books m → seq (reg m) < max_i64 → step_ok m (runAction (C:=C) (X:=X) cut a m).1.
Proof.
  intros G Hmax. unfold runAction.
  repeat (case_bool_decide; [first
    [ by apply beginQuit_step
    | apply frame_step; [by split|done]
    | apply refocus_step; auto using TabLaws.Next_ok, TabLaws.Prev_ok, TabLaws.Next_order, TabLaws.Prev_order
    | destruct (Tabs.Focused _); [by apply closePane_step|apply frame_step; [apply frame_refl|done]] ]|]).
  destruct (spawnKind a); [by apply spawn_step|apply frame_step; [apply frame_refl|done]].
Qed.
Lemma keys_frame k m : frame m (set_keys k m).
Proof. by split. Qed.
Lemma armed_frame b m : frame m (set_armed b m).
Proof. by split. Qed.
Lemma lay_frame l m : tabs l = tabs (lay m) → frame m (set_lay l m).
Proof. by split. Qed.
Lemma tabs_Refresh ps l : tabs (Refresh ps l) = tabs l.
Proof. unfold Refresh. by case_match. Qed.
#[local] Hint Resolve frame_refl keys_frame armed_frame route_frame broadcast_frame frame_trans : core.

Lemma forward_frame q m : frame m (forwardToFocused q m).1.
Proof. unfold forwardToFocused. case_match; [apply route_frame|apply frame_refl]. Qed.
Lemma onKey_step cut k m : books m → seq (reg m) < max_i64 → step_ok m (onKey (C:=C) (X:=X) cut k m).1.
Proof.
  intros G Hmax. unfold onKey. destruct (OpsKeys.Resolve (keymap m) k) as [[|a|] km].
  - apply frame_step; [|done]. eapply frame_trans; [|apply forward_frame]. by eapply frame_trans; [apply keys_frame|].
  - set (m1 := if bool_decide _ then _ else _).
    assert (F : frame m m1) by (unfold m1; case_bool_decide; [by eapply frame_trans; [apply keys_frame|]|apply keys_frame]).
    eapply frame_then; [exact F|]. apply runAction_step; [by eapply frame_books|]. destruct F. lia.
  - by apply frame_step; [apply keys_frame|].
Qed.
Lemma onMouse_step q x y m : books m → step_ok m (onMouse q x y m).1.
Proof.
  intros G. unfold onMouse. set (m1 := set_lay _ m).
  assert (F : frame m m1) by apply lay_frame, tabs_Refresh. pose proof (frame_books _ _ F G) as G1.
  eapply frame_then; [exact F|]. destruct (HitTest x y (lay m1)).
  - by apply frame_step.
  - by apply focusPane_step.
  - eapply then_frame; [by apply focusPane_step|apply route_frame].
Qed.
Lemma swap_frame c m : frame m (swap_config c m).
Proof. by split. Qed.
Lemma onReload_frame c e m : frame m (onReload (X:=X) (C:=C) c e m).1.
Proof.
  unfold onReload. destruct e as [e|], c as [c|]; try by split.
  pose proof (broadcast_frame (ConfigChangedMsg c) (swap_config c m)) as F.
  destruct (broadcast _ _) as [m1 cs]. simpl in *.
  eapply frame_trans; [apply (swap_frame c)|]. eapply frame_trans; [exact F|]. by split.
Qed.
Lemma onResize_frame w h m : frame m (onResize w h m).
Proof.
  unfold onResize. set (m1 := MkModel _ _ _ _ _ _ _ _ _ _ _ _ _).
  apply (frame_trans _ m1); [by split|]. apply on_panes_frame. intros i p. unfold focus_of. apply focused_size.
Qed.

Lemma Update_step cut q m : books m → seq (reg m) < max_i64 → step_ok m (Update cut q m).1.
Proof.
  intros G Hmax. destruct q; cbn [Update fst].
  - apply frame_step; [apply onResize_frame|done].
  - by apply onKey_step.
  - by apply frame_step.
  - by apply frame_step.
  - by apply frame_step; [apply route_frame|].
  - apply frame_step; [apply onReload_frame|done].
  - by apply spawn_step.
  - by apply closePane_step.
  - by apply focusPane_step.
  - destruct op; cbn [onLayoutOp]; [..|by apply frame_step];
      apply refocus_step; auto using TabLaws.Next_ok, TabLaws.Prev_ok, TabLaws.Next_order, TabLaws.Prev_order.
  - apply frame_step; [by split|done].
  - apply frame_step; [by split|done].
  - by apply beginQuit_step.
  - apply frame_step; [apply broadcast_frame|done].
  - by apply onMouse_step.
  - by apply frame_step.
  - by apply frame_step.
  - by apply frame_step.
Qed.

(** ** Runs *)

Lemma launcher_keep m m' : factories (reg m') = factories (reg m) → launcher_ok m → launcher_ok m'.
Proof. intros E (f & Hf & Hs). exists f. split; [congruence|done]. Qed.
(** What [n] messages keep. *)
Record steps_ok (n : Z) m m' : Prop := Steps {
  ss_seq : seq (reg m) ≤ seq (reg m') ≤ seq (reg m) + n;
  ss_fact : factories (reg m') = factories (reg m);
  ss_books : books m';
  ss_keep : quitting m' = false → quitting m = false ∧ (coherent m → coherent m') ∧
              (launcher_ok m → inhabited m → inhabited m') }.
Lemma steps_refl n m : 0 ≤ n → books m → steps_ok n m m.
Proof. intros Hn G. split; [lia|done..]. Qed.
Lemma steps_cons n m m1 m2 : step_ok m m1 → steps_ok n m1 m2 → steps_ok (1 + n) m m2.
Proof.
  intros [] []. split; [lia|congruence|done|]. intros Hq. destruct (ss_keep0 Hq) as (Hq1 & Hc1 & Hi1).
  destruct (s_keep0 Hq1) as (? & ? & ?). split_and!; [done|auto|]. intros HL HI. apply Hi1; [|auto].
  by eapply launcher_keep.
Qed.

Lemma spawn_specs_ok specs m : books m → seq (reg m) + zlen specs ≤ max_i64 → steps_ok (zlen specs) m (spawn_specs specs m).1.
Proof.
  revert m. induction specs as [|s specs IH]; intros m G Hmax; [by apply steps_refl|].
  rewrite zlen_cons in Hmax. pose proof (zlen_nonneg specs). cbn [spawn_specs].
  destruct (spawn_step (s_kind s) (s_args s) (s_focus s) m G) as [S _]; [lia|].
  destruct (spawn _ _ _ m) as [m1 cs]. cbn [fst] in S.
  pose proof (IH m1 (s_books _ _ S)) as IH1. destruct (spawn_specs specs m1) as [m2 cs2]. cbn [fst] in *.
  rewrite zlen_cons. eapply steps_cons; [exact S|]. apply IH1. destruct S. lia.
Qed.
Lemma msgs_ok qs m : books m → seq (reg m) + zlen qs ≤ max_i64 → steps_ok (zlen qs) m (run qs m).1.
Proof.
  revert m. induction qs as [|[cut q] qs IH]; intros m G Hmax; [by apply steps_refl|].
  rewrite zlen_cons in Hmax. pose proof (zlen_nonneg qs). cbn [run].
  pose proof (Update_step cut q m G) as S. destruct (Update cut q m) as [m1 cs]. cbn [fst] in S.
  pose proof (IH m1) as IH1. destruct (run qs m1) as [m2 cs2]. cbn [fst] in *.
  rewrite zlen_cons. assert (S1 : step_ok m m1) by (apply S; lia).
  eapply steps_cons; [exact S1|]. apply IH1; [apply S1|]. destruct S1. lia.
Qed.

(** The program before its loop: the factories registered, the reload path set. *)
Definition boot (c : Config) (fs : list (PaneKind * PaneFactory)) (path : string) : Model :=
  SetReload path (foldl (λ m kf, RegisterFactory kf.1 kf.2 m) (New c) fs).
Lemma boot_fresh c fs path : let m := boot c fs path in
  coherent m ∧ seq (reg m) = 0 ∧ quitting m = false ∧ quitArmed m = false ∧ cfg m = c.
Proof.
  assert (Hg : ∀ m : Model, coherent m ∧ seq (reg m) = 0 ∧ quitting m = false ∧ quitArmed m = false ∧ cfg m = c →
    let m' := foldl (λ m kf, RegisterFactory kf.1 kf.2 m) m fs in
    coherent m' ∧ seq (reg m') = 0 ∧ quitting m' = false ∧ quitArmed m' = false ∧ cfg m' = c).
  { induction fs as [|[k f] fs IH]; intros m Hm; [done|]. apply IH. destruct Hm as ([[G T O] Hf] & ? & ? & ? & ?).
    split_and!; try done. split; [|done]. split; [|done..]. by destruct G. }
  assert (H0 : coherent (New c)).
  { split; [split|]; [|by split; [apply NoDup_nil|]|done|by intros i p].
    assert (Hnone : ∀ i : PaneID, is_Some ((∅ : gmap PaneID P) !! i) ↔ False) by (intros i; rewrite lookup_empty; by split; [intros []|]).
    unfold books. cbn [New reg log newRegistry]. apply Ledger; cbn [order panes cancels seq newRegistry closed_ids omap];
      [by apply NoDup_nil|set_solver|set_solver|done| |set_solver|by apply NoDup_nil|set_solver|apply paired_nil].
    exists []. split_and!; [done|constructor|constructor]. }
  destruct (Hg (New c)) as ([[G T O] Hf] & ? & ? & ? & ?); [done|]. split_and!; done.
Qed.

Definition session c fs path qs : Model := (run qs (Init (boot c fs path)).1).1.
Definition spawns (c : Config) (qs : list (nat * Msg X)) : Z := zlen (StartupPanes (ui c)) + 1 + zlen qs.

Lemma Init_ok c fs path : zlen (StartupPanes (ui c)) + 1 ≤ max_i64 →
  steps_ok (zlen (StartupPanes (ui c)) + 1) (boot c fs path) (Init (C:=C) (X:=X) (boot c fs path)).1.
Proof.
  intros Hmax. destruct (boot_fresh c fs path) as ([[G _ _] _] & Hs & _ & _ & Hc). unfold Init. rewrite Hc.
  destruct (StartupPanes (ui c)) as [|sp specs].
  - destruct (spawn_step KindLauncher ∅ true (boot c fs path) G) as [S _]; [by rewrite Hs|].
    destruct (spawn _ _ _ _) as [m cs].
    apply (steps_cons 0 _ m); [done|]. by apply steps_refl; [|apply S].
  - pose proof (spawn_specs_ok (sp :: specs) (boot c fs path) G) as S. destruct (spawn_specs _ _) as [m cs]. cbn [fst] in *.
    destruct S as [S1 S2 S3 S4]; [rewrite Hs; lia|]. split; [lia|done..].
Qed.
Lemma session_ok c fs path qs : spawns c qs ≤ max_i64 →
  steps_ok (spawns c qs) (boot c fs path) (session c fs path qs) ∧
  steps_ok (zlen qs) (Init (C:=C) (X:=X) (boot c fs path)).1 (session c fs path qs).
Proof.
  unfold spawns. intros Hmax. pose proof (zlen_nonneg qs).
  pose proof (Init_ok c fs path ltac:(lia)) as I. destruct (boot_fresh c fs path) as (_ & Hs & _).
  assert (R : steps_ok (zlen qs) (Init (C:=C) (X:=X) (boot c fs path)).1 (session c fs path qs))
    by (apply msgs_ok; destruct I; [done|lia]).
  split; [|done]. destruct I as [I1 I2 I3 I4], R as [R1 R2 R3 R4]. split; [lia|congruence|done|].
  intros Hq. destruct (R4 Hq) as (Hq1 & Hc1 & Hi1). destruct (I4 Hq1) as (? & ? & ?).
  split_and!; [done|auto|]. intros HL HI. apply Hi1; [by eapply launcher_keep|auto].
Qed.

(** C27. Until the program quits, over every start and sequence of messages: the
    tabs are the live panes, without repeats, in the order in which they were
    spawned (that of the numbers their identifiers were minted with); a pane has
    the focus exactly if it is the focused tab; and once there is a pane (the
    launcher's factory being registered) there is always exactly one focused. *)
Theorem shell_coherent c fs path qs : spawns c qs ≤ max_i64 →
  let m := session c fs path qs in
  quitting m = false →
  NoDup (Tabs.order (tabs (lay m))) ∧
  (∀ i, i ∈ Tabs.order (tabs (lay m)) ↔ is_Some (panes (reg m) !! i)) ∧
  (∃ ks, Tabs.order (tabs (lay m)) = ids ks ∧ StronglySorted (λ a b, a.2 < b.2) ks) ∧
  (∀ i p, panes (reg m) !! i = Some p → focused (p_base p) = bool_decide (Tabs.Focused (tabs (lay m)) = Some i)) ∧
  (launcher_ok (Init (C:=C) (X:=X) (boot c fs path)).1 → inhabited (Init (C:=C) (X:=X) (boot c fs path)).1 →
   ∃ i p, Tabs.Focused (tabs (lay m)) = Some i ∧ panes (reg m) !! i = Some p).
Proof.
  intros Hmax m Hq. destruct (session_ok c fs path qs Hmax) as [S R]. fold m in S, R.
  destruct (ss_keep _ _ _ S Hq) as (_ & Hc & _). destruct (ss_keep _ _ _ R Hq) as (_ & _ & Hi).
  destruct (boot_fresh c fs path) as (Hb & _). destruct (Hc Hb) as [[G T O] Hf].
  split_and!; [by destruct T|by intros i; rewrite O; apply (g_live _ _ G)| |done|].
  { rewrite O. destruct (g_order _ _ G) as (ks & Hk & Hs & _). by exists ks. }
  intros HL HI. specialize (Hi HL HI).
  assert (Hne : Tabs.order (tabs (lay m)) ≠ []).
  { rewrite O. intros E. apply Hi. apply map_eq. intros i. rewrite lookup_empty. destruct (panes (reg m) !! i) eqn:Ei; [|done].
    assert (i ∈ order (reg m)) by (apply (g_live _ _ G); by rewrite Ei). rewrite E in *. set_solver. }
  destruct (TabLaws.Focused_some _ T Hne) as [i Hfi]. apply TabLaws.Focused_elem in Hfi as Hin.
  rewrite O in Hin. apply (g_live _ _ G) in Hin as [p Hp]. eauto.
Qed.

(** Whatever the messages, quits and refused deadlines included, no pane is ever
    closed twice, a closed pane is not live any more, and every close comes right
    after the cancel of that pane's context. *)
Theorem closed_once c fs path qs : spawns c qs ≤ max_i64 →
  let m := session c fs path qs in
  NoDup (closed_ids (log m)) ∧ (∀ i, i ∈ closed_ids (log m) → panes (reg m) !! i = None) ∧ paired (log m).
Proof.
  intros Hmax m. destruct (session_ok c fs path qs Hmax) as [[_ _ G _] _]. fold m in G. split_and!; [apply G| |apply G].
  intros i Hi. pose proof (g_dead _ _ G i Hi) as Hn. destruct (panes (reg m) !! i) eqn:E; [|done].
  destruct Hn. apply (g_live _ _ G). by rewrite E.
Qed.
(** ** Teardown *)

Definition closing (i : PaneID) : list effect := [Cancelled i; Closed i].
Lemma closeAll_log l m : books m → NoDup l → (∀ i, i ∈ l → is_Some (panes (reg m) !! i)) →
  log (foldl (λ m i, drop_pane i m) m l) = log m ++ mjoin (closing <$> l) ∧
  ∀ j, is_Some (panes (reg (foldl (λ m i, drop_pane i m) m l)) !! j) ↔ (j ∉ l) ∧ is_Some (panes (reg m) !! j).
Proof.
  revert m. induction l as [|i l IH]; intros m G Hnd Hl.
  { split; [by rewrite app_nil_r|]. intros j. simpl. set_solver. }
  apply NoDup_cons in Hnd as [Hi Hnd]. destruct (drop_pane_spec i m G) as (Hp & _ & _ & _ & _ & _ & Hlog).
  destruct (IH (drop_pane i m) (drop_pane_books i m G) Hnd) as [H1 H2].
  { intros j Hj. rewrite Hp, lookup_delete_is_Some. split; [by intros ->|]. apply Hl. set_solver. }
  cbn [foldl]. split.
  - rewrite H1, Hlog by (apply Hl; set_solver). by rewrite <-app_assoc.
  - intros j. rewrite H2, Hp, lookup_delete_is_Some, not_elem_of_cons. naive_solver.
Qed.

(** A quit closes the panes in reverse spawn order, each once with its context
    cancelled first: all of them when no deadline is set, and those the deadline
    leaves time for otherwise; the others stay, and the program's context is
    cancelled. *)
Theorem quit_closes_in_reverse c fs path qs cut : spawns c qs ≤ max_i64 →
  let m := session c fs path qs in
  let timed := negb (TeardownDeadline (ui (cfg m)) <=? 0) in
  let victims := take (if timed then cut else length (order (reg m))) (reverse (order (reg m))) in
  log (teardown cut m) = log m ++ mjoin (closing <$> victims) ++ (if timed then [RootCancelled] else []) ∧
  ∀ j, is_Some (panes (reg (teardown cut m)) !! j) ↔ (j ∉ victims) ∧ is_Some (panes (reg m) !! j).
Proof.
  intros Hmax m. destruct (session_ok c fs path qs Hmax) as [[_ _ G _] _]. fold m in G.
  assert (Hv : ∀ n, NoDup (take n (reverse (order (reg m)))) ∧
    ∀ i, i ∈ take n (reverse (order (reg m))) → is_Some (panes (reg m) !! i)).
  { intros n. split.
    - assert (Hr : NoDup (reverse (order (reg m)))) by (rewrite reverse_Permutation; apply G).
      rewrite <-(take_drop n (reverse _)) in Hr. by apply NoDup_app in Hr as (? & _).
    - intros i Hi. apply (g_live _ _ G). rewrite <-elem_of_reverse, <-(take_drop n (reverse _)). set_solver. }
  unfold teardown, closeAllReverse. destruct (TeardownDeadline (ui (cfg m)) <=? 0); simpl.
  - rewrite app_nil_r. apply closeAll_log; [done|apply Hv..].
  - destruct (closeAll_log (take cut (reverse (order (reg m)))) m G) as [H1 H2]; [apply Hv..|].
    split; [by rewrite H1, app_assoc|done].
Qed.

(** ** The quit guard *)

Definition asks_quit (q : Msg X) m : Prop :=
  match q with
  | QuitMsg => True
  | KeyPressMsg k => (OpsKeys.Resolve (keymap m) k).1 = OpsKeys.GlobalAction "quit"
  | _ => False
  end.
Definition disarms (q : Msg X) m : Prop :=
  match q with
  | KeyPressMsg k => match (OpsKeys.Resolve (keymap m) k).1 with
                     | OpsKeys.PassToPane => True
                     | OpsKeys.GlobalAction a => a ≠ "quit"%string
                     | OpsKeys.Swallowed => False
                     end
  | _ => False
  end.

Record quiet m m' : Prop := Quiet { q_armed : quitArmed m' = quitArmed m; q_quit : quitting m' = quitting m }.
Lemma quiet_trans m1 m2 m3 : quiet m1 m2 → quiet m2 m3 → quiet m1 m3.
Proof. intros [] []. split; congruence. Qed.
Lemma route_quiet i q m : quiet m (routePaneMsg i q m).1.
Proof. unfold routePaneMsg. case_match; [|done]. by destruct (p_update q p) as [[]]. Qed.
Lemma broadcast_quiet q m : quiet m (broadcast q m).1.
Proof.
  unfold broadcast. assert (Hg : ∀ l m0 cs, quiet m m0 →
    quiet m (foldl (λ '(m, cs) i, let '(m, cs') := routePaneMsg i q m in (m, cs ++ cs')) (m0, cs) l).1).
  { induction l as [|i l IH]; intros m0 cs F; simpl; [done|].
    pose proof (route_quiet i q m0) as Hr. destruct (routePaneMsg i q m0) as [m1 cs1]. apply IH.
    by eapply quiet_trans. }
  by apply Hg.
Qed.
Lemma init_quiet i m : quiet m (initPane i m).1.
Proof. unfold initPane. destruct (panes (reg m) !! i); [|done]. by destruct (p_init _). Qed.
Lemma spawn_quiet k args f m : quiet m (spawn k args f m).1.
Proof.
  unfold spawn. destruct (reg_spawn k (reg m)) as [[[p i]|e] r]; [|done]. destruct (BodySize (lay m)) as [w h].
  set (m1 := applyFocus _). pose proof (init_quiet i m1) as Q. destruct (initPane i m1) as [m2 cs].
  simpl in *. by eapply quiet_trans; [|exact Q].
Qed.
Lemma drop_quiet i m : quiet m (drop_pane i m).
Proof. unfold drop_pane. by destruct (reg_remove i (reg m)). Qed.
Lemma closePane_quiet i m : quiet m (closePane i m).1.
Proof.
  unfold closePane. case_match; [|done]. pose proof (drop_quiet i m) as D.
  assert (D' : quiet m (on_tabs (Tabs.Remove i) (drop_pane i m))) by (eapply quiet_trans; [exact D|done]).
  case_bool_decide; [|eapply quiet_trans; [exact D'|done]].
  pose proof (spawn_quiet KindLauncher ∅ true (on_tabs (Tabs.Remove i) (drop_pane i m))) as S.
  destruct (spawn _ _ _ _) as [m2 cs]. eapply quiet_trans; [exact D'|]. by eapply quiet_trans; [exact S|].
Qed.
Lemma focusPane_quiet i m : quiet m (focusPane i m).
Proof. unfold focusPane. destruct (Tabs.Focus _ _) as [ok t]. by case_match. Qed.
Lemma onMouse_quiet q x y m : quiet m (onMouse q x y m).1.
Proof.
  unfold onMouse. set (m1 := set_lay _ m). assert (Q : quiet m m1) by done.
  destruct (HitTest x y (lay m1)) as [|i|i lx ly]; (eapply quiet_trans; [exact Q|]).
  - done.
  - apply focusPane_quiet.
  - eapply quiet_trans; [apply focusPane_quiet|apply route_quiet].
Qed.
Lemma onReload_quiet c e m : quiet m (onReload (X:=X) (C:=C) c e m).1.
Proof.
  unfold onReload. destruct e as [e|], c as [c|]; try done.
  pose proof (broadcast_quiet (ConfigChangedMsg c) (swap_config c m)) as F.
  destruct (broadcast _ _) as [m1 cs]. simpl in *. eapply quiet_trans; [|by eapply quiet_trans; [exact F|]]. done.
Qed.
Lemma other_action_quiet cut a m : a ≠ "quit"%string → quiet m (runAction (C:=C) (X:=X) cut a m).1.
Proof.
  intros Ha. unfold runAction. rewrite bool_decide_false by done.
  repeat (case_bool_decide; [first [done|case_match; [apply closePane_quiet|done]]|]).
  case_match; [apply spawn_quiet|done].
Qed.

Lemma beginQuit_arm cut m : let m' := (beginQuit (C:=C) (X:=X) cut m).1 in
  quitting m' = true ∨ anyWorking m = true ∧ quitArmed m = false ∧ quitArmed m' = true ∧ quitting m' = quitting m.
Proof.
  unfold beginQuit. destruct (anyWorking m), (quitArmed m) eqn:E; simpl; try (right; done); left;
    (assert (Hd : ∀ l m0, quitting m0 = true → quitting (foldl (λ m i, drop_pane i m) m0 l) = true) by
      (induction l as [|i l IH]; intros m0 H0; [done|]; apply IH; by rewrite (q_quit _ _ (drop_quiet i m0))));
    unfold teardown, closeAllReverse; case_match; simpl; by apply Hd.
Qed.
Lemma Update_arm cut q m : let m' := (Update cut q m).1 in
  (asks_quit q m → quitting m' = true ∨ anyWorking m = true ∧ quitArmed m = false ∧ quitArmed m' = true ∧ quitting m' = quitting m) ∧
  (disarms q m → quitArmed m' = false) ∧
  (¬ asks_quit q m → quitting m' = quitting m) ∧
  (¬ asks_quit q m → ¬ disarms q m → quitArmed m' = quitArmed m) ∧
  (asks_quit q m → quitting m' = true → quitting m = false → anyWorking m = false ∨ quitArmed m = true).
Proof.
  assert (Hq : ∀ m', quiet m m' → (False → quitting m' = true ∨ anyWorking m = true ∧ quitArmed m = false ∧ quitArmed m' = true ∧ quitting m' = quitting m) ∧
    (False → quitArmed m' = false) ∧ (¬ False → quitting m' = quitting m) ∧ (¬ False → ¬ False → quitArmed m' = quitArmed m) ∧
    (False → quitting m' = true → quitting m = false → anyWorking m = false ∨ quitArmed m = true)).
  { intros m' []. split_and!; done. }
  assert (Hb : ∀ m0, quiet m m0 → anyWorking m0 = anyWorking m → let m' := (beginQuit (C:=C) (X:=X) cut m0).1 in
    (quitting m' = true ∨ anyWorking m = true ∧ quitArmed m = false ∧ quitArmed m' = true ∧ quitting m' = quitting m) ∧
    (quitting m' = true → quitting m = false → anyWorking m = false ∨ quitArmed m = true)).
  { intros m0 [Q1 Q2] Ew m'. split.
    - pose proof (beginQuit_arm cut m0) as B. rewrite Ew, Q1, Q2 in B. exact B.
    - unfold m', beginQuit. rewrite Ew, Q1. destruct (anyWorking m), (quitArmed m); simpl; auto. rewrite Q2. congruence. }
  destruct q; cbn [Update fst asks_quit disarms]; try (apply Hq).
  - done.
  - unfold onKey. destruct (OpsKeys.Resolve (keymap m) key) as [[|a|] km]; cbn [fst].
    + assert (Q : quiet (set_armed false (set_keys km m)) (forwardToFocused (KeyPressMsg key) (set_armed false (set_keys km m))).1)
        by (unfold forwardToFocused; case_match; [apply route_quiet|done]).
      destruct Q as [Q1 Q2]. split_and!; try done. 
    + destruct (decide (a = "quit"%string)) as [->|Ha].
      * rewrite bool_decide_false by (intros []; done). unfold runAction. rewrite bool_decide_true by done.
        destruct (Hb (set_keys km m)) as [B1 B2]; [done..|]. split_and!; try done; by intros [].
      * rewrite bool_decide_true by done.
        pose proof (other_action_quiet cut a (set_armed false (set_keys km m)) Ha) as [Q1 Q2].
        split_and!; try done; [congruence|congruence].
    + split_and!; done.
  - done.
  - done.
  - apply route_quiet.
  - apply onReload_quiet.
  - apply spawn_quiet.
  - apply closePane_quiet.
  - apply focusPane_quiet.
  - by destruct op.
  - done.
  - done.
  - destruct (Hb m) as [B1 B2]; [done..|]. split_and!; try done; by intros [].
  - apply broadcast_quiet.
  - apply onMouse_quiet.
  - done.
  - done.
  - done.
Qed.
Lemma msgs_snoc qs cut q m : (run (qs ++ [(cut, q)]) m).1 = (Update cut q (run qs m).1).1.
Proof.
  revert m. induction qs as [|[c0 q0] qs IH]; intros m; simpl.
  - by destruct (Update cut q m).
  - destruct (Update c0 q0 m) as [m1 cs]. specialize (IH m1).
    destruct (run (qs ++ _) m1), (run qs m1). exact IH.
Qed.
Lemma session_snoc c fs path qs x : session c fs path (qs ++ [x]) = (Update x.1 x.2 (session c fs path qs)).1.
Proof. destruct x. apply msgs_snoc. Qed.
Lemma Init_quiet c fs path : quitArmed (session c fs path []) = false ∧ quitting (session c fs path []) = false.
Proof.
  unfold session. simpl. destruct (boot_fresh c fs path) as (_ & _ & Hq & Ha & _).
  assert (Hs : ∀ specs m, quiet m (spawn_specs (C:=C) (X:=X) specs m).1).
  { induction specs as [|s specs IH]; intros m; simpl; [done|]. pose proof (spawn_quiet (s_kind s) (s_args s) (s_focus s) m) as S.
    destruct (spawn _ _ _ m) as [m1 cs]. specialize (IH m1). destruct (spawn_specs specs m1). by eapply quiet_trans. }
  enough (Q : quiet (boot c fs path) (Init (C:=C) (X:=X) (boot c fs path)).1) by (destruct Q; split; congruence).
  unfold Init. destruct (StartupPanes _) as [|sp l].
  - pose proof (spawn_quiet KindLauncher ∅ true (boot c fs path)) as S. by destruct (spawn _ _ _ _).
  - specialize (Hs (sp :: l) (boot c fs path)). by destruct (spawn_specs _ _).
Qed.

(** A quit request after which nothing disarmed the guard. *)
Definition armed_since (st : list (nat * Msg X) → Model (P:=P)) (a : list (nat * Msg X)) : Prop :=
  ∃ a1 x a2, a = a1 ++ x :: a2 ∧ asks_quit x.2 (st a1) ∧
    ∀ b y b', a2 = b ++ y :: b' → ¬ disarms y.2 (st (a1 ++ x :: b)).
Lemma asks_dec q m : {asks_quit q m} + {¬ asks_quit q m}.
Proof.
  destruct q; simpl; try (by left); try (right; tauto).
  destruct (OpsKeys.Resolve _ _) as [v ?]. simpl. destruct (decide (v = OpsKeys.GlobalAction "quit")); [by left|by right].
Qed.
Lemma armed_needs_quit c fs path qs : quitArmed (session c fs path qs) = true → armed_since (session c fs path) qs.
Proof.
  induction qs as [|x qs IH] using rev_ind.
  { destruct (Init_quiet c fs path) as [-> _]. done. }
  rewrite session_snoc. destruct (Update_arm x.1 x.2 (session c fs path qs)) as (_ & Hd & _ & Hk & _).
  destruct (asks_dec x.2 (session c fs path qs)) as [Ha|Ha].
  { intros _. exists qs, x, []. split_and!; [done..|]. intros b y b' E. by destruct b. }
  intros Harm. assert (Hnd : ¬ disarms x.2 (session c fs path qs)) by (intros D; rewrite (Hd D) in Harm; done).
  rewrite (Hk Ha Hnd) in Harm. destruct (IH Harm) as (a1 & y & a2 & -> & Hy & Hn).
  exists a1, y, (a2 ++ [x]). split_and!; [by rewrite <-app_assoc|done|].
  intros b z b' E. destruct b' as [|w b' _] using rev_ind.
  - apply app_inj_tail in E as [<- <-]. done.
  - rewrite app_comm_cons, app_assoc in E. apply app_inj_tail in E as [E _]. by apply (Hn b z b').
Qed.

(** C28. The program quits only on a quit request that finds no pane at work, or that
    follows an earlier quit request with no key between them that reached a pane or
    fired another action. *)
Theorem quit_guard c fs path qs : quitting (session c fs path qs) = true →
  ∃ a x b, qs = a ++ x :: b ∧ quitting (session c fs path a) = false ∧ asks_quit x.2 (session c fs path a) ∧
    (anyWorking (session c fs path a) = false ∨ armed_since (session c fs path) a).
Proof.
  induction qs as [|x qs IH] using rev_ind.
  { destruct (Init_quiet c fs path) as [_ ->]. done. }
  rewrite session_snoc. intros Hq. destruct (quitting (session c fs path qs)) eqn:E.
  - destruct (IH eq_refl) as (a & y & b & -> & Hx). exists a, y, (b ++ [x]). by rewrite <-app_assoc.
  - destruct (Update_arm x.1 x.2 (session c fs path qs)) as (_ & _ & Hn & _ & Hg).
    destruct (asks_dec x.2 (session c fs path qs)) as [Ha|Ha]; [|rewrite (Hn Ha) in Hq; congruence].
    exists qs, x, []. split_and!; [done..|]. destruct (Hg Ha Hq E); [by left|right]. by apply armed_needs_quit.
Qed.

(** A key the chord machine swallows leaves a pending quit armed. *)
Theorem swallowed_keeps_armed cut k m : (OpsKeys.Resolve (keymap m) k).1 = OpsKeys.Swallowed →
  quitArmed (Update cut (KeyPressMsg k) m).1 = quitArmed m.
Proof. cbn [Update]. unfold onKey. destruct (OpsKeys.Resolve (keymap m) k) as [v km]. by intros [= ->]. Qed.

(** The pointer passing over a tab, or the wheel, focuses it as a click does. *)
Theorem motion_switches_tab cut k x y i m :
  HitTest x y (Refresh (panes (reg m)) (lay m)) = ZoneTab i →
  (Update cut (MouseMsg k x y) m).1 = focusPane i (set_lay (Refresh (panes (reg m)) (lay m)) m).
Proof. intros Hh. cbn [Update]. unfold onMouse. simpl. by rewrite Hh. Qed.

(** A fatal message marks no pane: the id it carries is not read. *)
Theorem fatal_marks_no_pane cut i j e m : Update cut (FatalMsg i e) m = Update cut (FatalMsg j e) m ∧
  panes (reg (Update cut (FatalMsg i e) m).1) = panes (reg m).
Proof. done. Qed.

(** A message addressed to a pane reaches it, focused or hidden, and no other pane;
    addressed to a pane that is gone it changes nothing and starts nothing. *)
Theorem addressed_to_one cut to q m :
  match panes (reg m) !! to with
  | None => Update cut (PaneMsg to q) m = (m, [])
  | Some p => let '(m', cs) := Update cut (PaneMsg to q) m in
      panes (reg m') !! to = Some (default (p_update q p).1.2 (p_update q p).1.1) ∧
      (∀ i, i ≠ to → panes (reg m') !! i = panes (reg m) !! i) ∧
      lay m' = lay m ∧ order (reg m') = order (reg m) ∧ log m' = log m ∧ cs = addressed to (p_update q p).2
  end.
Proof.
  cbn [Update]. unfold routePaneMsg. destruct (panes (reg m) !! to) as [p|]; [|done].
  destruct (p_update q p) as [[u self] c]. simpl. split_and!; try done; [by rewrite lookup_insert_eq|].
  intros i Hi. by rewrite lookup_insert_ne.
Qed.
End Laws.

(** ** Witnesses, on launchers and on a pane whose status is given by its kind *)

#[local] Existing Instance OpsKeys.OpsKeysLaws.match_any.
#[local] Instance ascii_screen : Lipgloss := {|
  paint _ _ s := s; plain s := s; cells s := Z.of_nat (String.length s); box _ _ _ s := s; padded _ _ s := s |}.
(** A pane that is at work when its kind says so. *)
Record testPane := TestPane { t_base : BasePane }.
#[local] Instance test_pane : Pane testPane unit unit := {|
  p_base := t_base;
  p_init p := (p, None);
  p_update _ p := (Some p, p, Some tt);
  p_view _ := ""%string;
  p_set_focused f p := TestPane (SetFocused f (t_base p));
  p_set_size w h p := TestPane (SetSize w h (t_base p));
  p_meta p := MkMeta (id (t_base p)) (kind (t_base p)) "" (if bool_decide (kind (t_base p) = "build"%string) then StatusWorking else StatusIdle) false;
  p_close _ := None |}.
#[local] Instance test_laws : PaneLaws testPane unit unit.
Proof. split; done. Qed.
Definition test_factory : BasePane → Config → option testPane := λ b _, Some (TestPane b).

Definition demo_ui (bar : string) (deadline : Z) : UI := MkUI "cell" true true deadline bar true
  [MkSpec "logs" ∅ false; MkSpec "build" ∅ true].
Definition demo_config (bar : string) (deadline : Z) : Config :=
  MkConfig (demo_ui bar deadline) OpsKeys.OpsKeysLaws.demo_keys ∅ false 0.
Definition demo_factories : list (PaneKind * (BasePane → Config → option testPane)) :=
  [("launcher", test_factory); ("logs", test_factory); ("build", test_factory)]%string.
Abbreviation demo_session := (session (C:=unit) (X:=unit) (demo_config "top" 0) demo_factories "").
Definition demo_msgs : list (nat * Msg unit) :=
  [(0%nat, WindowSizeMsg 80 24); (0%nat, KeyPressMsg "tab"); (0%nat, ClosePaneMsg "logs:1"); (0%nat, KeyPressMsg "q")].

Lemma shell_coherent_witness :
  let m := demo_session demo_msgs in
  NoDup (Tabs.order (tabs (lay m))) ∧
  (∀ i, i ∈ Tabs.order (tabs (lay m)) ↔ is_Some (panes (reg m) !! i)) ∧
  (∃ ks, Tabs.order (tabs (lay m)) = ids ks ∧ StronglySorted (λ a b, a.2 < b.2) ks) ∧
  (∀ i p, panes (reg m) !! i = Some p → focused (p_base p) = bool_decide (Tabs.Focused (tabs (lay m)) = Some i)) ∧
  Tabs.Focused (tabs (lay m)) = Some "build:2"%string ∧ quitArmed m = true.
Proof.
  intros m. destruct (shell_coherent (C:=unit) (X:=unit) (demo_config "top" 0) demo_factories "" demo_msgs) as (H1 & H2 & H0 & H3 & _);
    [by vm_compute|by vm_compute|]. split_and!; [exact H1|exact H2|exact H0|exact H3|by vm_compute|by vm_compute].
Defined.

Lemma closed_once_witness :
  let m := demo_session (demo_msgs ++ [(0%nat, QuitMsg)]) in
  NoDup (closed_ids (log m)) ∧ closed_ids (log m) = ["logs:1"; "build:2"]%string ∧ quitting m = true.
Proof.
  intros m. destruct (closed_once (C:=unit) (X:=unit) (demo_config "top" 0) demo_factories "" (demo_msgs ++ [(0%nat, QuitMsg)])) as (H1 & _ & _);
    [by vm_compute|]. split_and!; [exact H1|by vm_compute|by vm_compute].
Defined.

Lemma quit_closes_in_reverse_witness :
  let m := demo_session [] in
  log (teardown 0 m) = [Cancelled "build:2"; Closed "build:2"; Cancelled "logs:1"; Closed "logs:1"]%string.
Proof.
  intros m. destruct (quit_closes_in_reverse (C:=unit) (X:=unit) (demo_config "top" 0) demo_factories "" [] 0) as [H _];
    [by vm_compute|]. etransitivity; [exact H|]. by vm_compute.
Defined.

Lemma quit_guard_witness :
  let qs := demo_msgs ++ [(0%nat, QuitMsg)] in
  quitting (demo_session demo_msgs) = false ∧
  ∃ a x b, qs = a ++ x :: b ∧ quitting (demo_session a) = false ∧ asks_quit x.2 (demo_session a) ∧
    (anyWorking (C:=unit) (X:=unit) (demo_session a) = false ∨ armed_since demo_session a).
Proof.
  intros qs. split; [by vm_compute|]. apply (quit_guard (C:=unit) (X:=unit) (demo_config "top" 0) demo_factories "" qs).
  by vm_compute.
Defined.

(** A reload that turns the tab bar off gives the body one more row, and leaves every
    pane at the size it had. *)
Theorem reload_keeps_sizes :
  let m := demo_session [(0%nat, WindowSizeMsg 80 24); (0%nat, ReloadMsg (Some (demo_config "off" 0)) None)] in
  BodySize (lay m) = (78, 21) ∧
  (λ p : testPane, (width (p_base p), height (p_base p))) <$> panes (reg m) !! "logs:1"%string = Some (78, 20).
Proof. by vm_compute. Qed.

End OpsShellLaws.
