(* ===== verification/OpsHosts.v ===== *)
(** * The console's hosts ([tools/picpak-ops/internal/sshhost])

    The transport (command lines, streamed runs), the discovery of devices and the
    identity gate before a port is opened, the polling worker's state machine with
    its backoff, the registry that owns them and the inventory pane. Commands run
    outside: what they print and how they end are inputs, time is a clock in
    nanoseconds, a compiled pattern is what it matches. *)

From S2P Require Import Prelude GoLib AdminGate GoText Bwry OpsShell.
From Stdlib Require Import SpecFloat.
Import GoLib GoText.

Module OpsHosts.

Definition lines (s : string) : list string := string_of_bytes <$> split (bytes_of_string s) [10].
Definition Fields (s : string) : list string := string_of_bytes <$> fields (bytes_of_string s).
Definition HasPrefix (p s : string) : bool := has_prefix (bytes_of_string p) (bytes_of_string s).
Definition nul : string := string_of_bytes [0].
(** [strings.ToLower] of a text that is ASCII, or compared with one that is. *)
Definition ToLower (s : string) : string := string_of_bytes (lower_view (bytes_of_string s)).

(** ** Configuration *)

Record Host := MkHost { h_name : string; SSHTarget : string; Local : bool; Enabled : option bool }.
Definition IsEnabled (h : Host) : bool := match Enabled h with None => true | Some b => b end.
Record Poll := MkPoll {
  Interval : Z; Parallel : Z; Command : list string; MatchRegex : string; MACRegex : string;
  VendorID : string; ProductID : string; ConfirmCommand : list string; ConfirmRequired : bool; ConfirmCacheTTL : Z }.
Record Config := MkConfig {
  Binary : string; BaseArgs : list string; ControlPath : string; CommandTimeout : Z; poll : Poll;
  RunScrollback : Z; LineMaxBytes : Z; BackoffInitial : Z; BackoffMax : Z; BackoffFactor : spec_float;
  FailThreshold : Z; Hosts : list Host }.

(** ** Devices and states (device.go) *)

Inductive ConnState := StateConnecting | StateUp | StateBackoff | StateDown | StateDisabled.
#[global] Instance ConnState_eq_dec : EqDecision ConnState.
Proof. solve_decision. Defined.
Record DiscoveredDevice := MkDevice {
  d_host : string; TTY : string; Descriptor : string; MAC : string;
  Serial : string; Label : string; Channel : string; Confirmed : bool }.
#[global] Instance DiscoveredDevice_eq_dec : EqDecision DiscoveredDevice.
Proof. solve_decision. Defined.
Definition Mapped (d : DiscoveredDevice) : bool := bool_decide (Serial d ≠ ""%string) || bool_decide (Label d ≠ ""%string).
Definition Key (d : DiscoveredDevice) : string := (d_host d ++ nul ++ TTY d)%string.
Definition enrich (d : DiscoveredDevice) (lookup : option (string → option (string * string * string))) : DiscoveredDevice :=
  match lookup with
  | None => d
  | Some f =>
      if bool_decide (MAC d = ""%string) then d
      else match f (MAC d) with
           | Some (s, l, c) => MkDevice (d_host d) (TTY d) (Descriptor d) (MAC d) s l c (Confirmed d)
           | None => d
           end
  end.

Record HostState := MkState {
  hs_host : string; State : ConnState; Devices : list DiscoveredDevice; Err : option string;
  LastOK : option Z; At : option Z; Fails : Z }.
Definition fresh_state (h : string) (s : ConnState) : HostState := MkState h s [] None None None 0.

Record inventoryStore := MkStore { order : list string; states : gmap string HostState }.
Definition newInventoryStore (hosts : list string) : inventoryStore :=
  MkStore hosts (foldl (λ m h, <[h := fresh_state h StateConnecting]> m) ∅ hosts).
Definition store_set (hs : HostState) (s : inventoryStore) : inventoryStore :=
  MkStore (order s) (<[hs_host hs := hs]> (states s)).
Definition zero_state : HostState := fresh_state "" StateConnecting.
Definition snapshot (s : inventoryStore) : list HostState := (λ h, default zero_state (states s !! h)) <$> order s.

(** ** Transport (runner.go, runner_local.go) *)

(** [filepath.Join(h, rest)] after a leading [~/]. *)
Definition expandHome (home p : string) : string :=
  match bytes_of_string p with
  | 126 :: rest =>
      if bool_decide (home = ""%string) then p
      else match rest with
           | [] => home
           | 47 :: rest => Join home (string_of_bytes rest)
           | _ => p
           end
  | _ => p
  end.
Record runConfig := MkRunConfig { sshBinary : string; baseArgs : list string; controlPath : string; runScroll : Z; lineMax : Z }.
Definition runConfigFrom (home : string) (c : Config) : runConfig :=
  MkRunConfig (Binary c) (BaseArgs c) (expandHome home (ControlPath c)) (RunScrollback c) (LineMaxBytes c).

Inductive Runner := sshRunner (rc : runConfig) (target : string) | localRunner (rc : runConfig).
Definition newRunner (rc : runConfig) (h : Host) : Runner := if Local h then localRunner rc else sshRunner rc (SSHTarget h).
Definition control_args (rc : runConfig) : list string :=
  if bool_decide (controlPath rc = ""%string) then [] else ["-o"; "ControlPath=" ++ controlPath rc]%string.
Definition Argv (r : Runner) (argv : list string) : list string :=
  match r with
  | sshRunner rc target => [sshBinary rc] ++ baseArgs rc ++ control_args rc ++ [target; "--"%string] ++ argv
  | localRunner _ => argv
  end.
(** The command line of a capture or a run; an empty local command has none. *)
Definition launch (r : Runner) (argv : list string) : option (list string) :=
  match r, argv with localRunner _, [] => None | _, _ => Some (Argv r argv) end.
Definition CloseMaster (r : Runner) : option (list string) :=
  match r with
  | sshRunner rc target => Some ([sshBinary rc] ++ baseArgs rc ++ control_args rc ++ ["-O"; "exit"; target]%string)
  | localRunner _ => None
  end.
(** Running a command line to its end: what it printed, or the error and what it
    wrote to stderr. *)
Abbreviation shell := (list string → result (string * string) string).
Definition captureError (err stderr : string) : string :=
  let s := TrimSpace stderr in if bool_decide (s = ""%string) then err else (err ++ ": " ++ s)%string.
Definition errEmptyArgv : string := "sshhost: empty argv".
Definition CaptureOutput (exec : shell) (r : Runner) (argv : list string) : result string string :=
  match launch r argv with
  | None => Prelude.Err errEmptyArgv
  | Some full => match exec full with Ok out => Ok out | Prelude.Err (e, stderr) => Prelude.Err (captureError e stderr) end
  end.
Definition host_named (hosts : list Host) (n : string) : option Host :=
  last (List.filter (λ h, bool_decide (h_name h = n) && negb (bool_decide (h_name h = ""%string))) hosts).
Definition RunnerFor (home : string) (c : Config) (n : string) : option Runner :=
  if bool_decide (n = ""%string) || bool_decide (n = "local"%string) then Some (localRunner (runConfigFrom home c))
  else newRunner (runConfigFrom home c) <$> host_named (Hosts c) n.

(** ** Streamed runs (run.go) *)

Inductive Stream := Stdout | Stderr.
(** How a wait ends: cleanly, with an exit status (-1 for a signal), or otherwise. *)
Inductive wait := WaitOk | WaitExit (code : Z) | WaitErr (e : string).
Definition exitCode (w : wait) : Z := match w with WaitOk => 0 | WaitExit c => if 0 <=? c then c else -1 | WaitErr _ => -1 end.
Definition normalizeWaitErr (w : wait) : option string := match w with WaitErr e => Some e | _ => None end.

(** [bufio.ScanLines] over a buffer that grows to [max] from 4096 bytes: a line
    is a token while it and its newline fit, and one that does not ends the scan. *)
Definition drop_cr (l : bytes) : bytes :=
  match reverse l with 13 :: r => reverse r | _ => l end.
Definition room (max : Z) : Z := Z.max 4096 max.
Fixpoint tokens (max : Z) (ls : list bytes) : list bytes :=
  match ls with
  | [] => []
  | [l] => if bool_decide (l = []) then [] else if zlen l <? room max then [drop_cr l] else []
  | l :: ls => if zlen l <? room max then drop_cr l :: tokens max ls else []
  end.
Definition scan (max : Z) (out : string) : list bytes := tokens max (split (bytes_of_string out) [10]).
Definition at_least_one (max : Z) : Z := if max <? 1 then 1 else max.
(** The lines a reader emits and appends to the ring. *)
Definition pump (lineMaxBytes : Z) (out : string) : list string :=
  let max := at_least_one lineMaxBytes in
  (λ l, string_of_bytes (take (Z.to_nat max) l)) <$> scan max out.

Inductive RunMsg := RunOutputMsg (s : Stream) (line : string) | RunExitMsg (code : Z) (err : option string).
(** The two readers' messages in any order of arrival. *)
Inductive interleave {A} : list A → list A → list A → Prop :=
| inter_nil : interleave [] [] []
| inter_l x a b c : interleave a b c → interleave (x :: a) b (x :: c)
| inter_r x a b c : interleave a b c → interleave a (x :: b) (x :: c).
(** What a run sends its pane: a failed start, or the readers and then the reaper. *)
Inductive run_msgs (lineMaxBytes : Z) : result string (string * string * wait) → list RunMsg → Prop :=
| run_failed e : run_msgs lineMaxBytes (Prelude.Err e) [RunExitMsg (-1) (Some e)]
| run_ended out err w ms :
    interleave (RunOutputMsg Stdout <$> pump lineMaxBytes out) (RunOutputMsg Stderr <$> pump lineMaxBytes err) ms →
    run_msgs lineMaxBytes (Ok (out, err, w)) (ms ++ [RunExitMsg (exitCode w) (normalizeWaitErr w)]).

(** ** Discovery (discover.go) *)

Record regexp := MkRegexp { MatchString : string → bool; FindString : string → string }.
Class Regexp := Compile : string → option regexp.

Record discoverer := MkDiscoverer { match_re : regexp; mac_re : option regexp; disc_host : string }.
Definition newDiscoverer `{Regexp} (host matchRegex macRegex : string) : option discoverer :=
  m ← Compile matchRegex;
  Some (MkDiscoverer m (if bool_decide (macRegex = ""%string) then None else Compile macRegex) host).

(** What stands before and after the first arrow. *)
Fixpoint cut_arrow (s : bytes) : option (bytes * bytes) :=
  if has_prefix [32; 45; 62; 32] s then Some ([], drop 4 s)
  else match s with
       | [] => None
       | c :: s => '(a, b) ← cut_arrow s; Some (c :: a, b)
       end.
Definition splitSymlinkLine (line : string) : option (string * string) :=
  '(before, rest) ← cut_arrow (bytes_of_string line);
  let target := TrimSpace (string_of_bytes rest) in
  descriptor ← last (Fields (string_of_bytes before));
  if bool_decide (descriptor = ""%string) || bool_decide (target = ""%string) then None else Some (descriptor, target).
Definition Clean (p : string) : string := string_of_bytes (clean (bytes_of_string p)).
Definition resolveTTY (target : string) : string :=
  if bool_decide (target = ""%string) then ""%string
  else if IsAbs target then Clean target else Clean (Join "/dev/serial/by-id" target).
Definition is_hex (c : Z) : bool :=
  ((48 <=? c) && (c <=? 57)) || ((97 <=? c) && (c <=? 102)) || ((65 <=? c) && (c <=? 70)).
Fixpoint pairs (h : bytes) : bytes :=
  match h with
  | a :: b :: ((_ :: _) as h) => a :: b :: 58 :: pairs h
  | _ => h
  end.
Definition normalizeMAC (m : string) : string :=
  let h := bytes_of_string (ToLower (string_of_bytes (List.filter is_hex (bytes_of_string m)))) in
  if negb (zlen h =? 12) then ToLower m else string_of_bytes (pairs h).
Definition parse_line (d : discoverer) (raw : string) : option DiscoveredDevice :=
  let line := TrimSpace raw in
  if bool_decide (line = ""%string) || HasPrefix "total " line then None
  else
    '(desc, target) ← splitSymlinkLine line;
    if negb (MatchString (match_re d) desc) then None
    else
      let tty := resolveTTY target in
      if bool_decide (tty = ""%string) then None
      else
        let mac := match mac_re d with
                   | None => ""%string
                   | Some re => let m := FindString re desc in
                                if bool_decide (m = ""%string) then ""%string else normalizeMAC m
                   end in
        Some (MkDevice (disc_host d) tty desc mac "" "" "" false).
Definition parse (d : discoverer) (raw : string) : list DiscoveredDevice := omap (parse_line d) (lines raw).

(** ** The gate (gate.go) *)

Record gateEntry := MkEntry { g_ok : bool; g_at : Z; g_vid : string; g_pid : string }.
Record gate := MkGate {
  expectVID : string; expectPID : string; command : list string; required : bool; cacheTTL : Z;
  cache : gmap string gateEntry }.
Definition newGate (vendor product : string) (cmd : list string) (req : bool) (ttl : Z) : gate :=
  MkGate (ToLower vendor) (ToLower product) cmd req ttl ∅.
Definition confirmKey (d : DiscoveredDevice) : string := (d_host d ++ nul ++ TTY d ++ nul ++ Descriptor d)%string.
Definition set_cache (c : gmap string gateEntry) (g : gate) : gate :=
  MkGate (expectVID g) (expectPID g) (command g) (required g) (cacheTTL g) c.
Definition substituteTTY (template : list string) (tty : string) : list string := (λ a, ReplaceAll a "%TTY%" tty) <$> template.

Definition CutPrefix (p s : string) : option string :=
  if HasPrefix p s then Some (string_of_bytes (drop (String.length p) (bytes_of_string s))) else None.
Definition udev_line (vp : string * string) (raw : string) : string * string :=
  let line := TrimSpace raw in
  match CutPrefix "ID_VENDOR_ID=" line with
  | Some v => (ToLower (TrimSpace v), vp.2)
  | None => match CutPrefix "ID_MODEL_ID=" line with
            | Some v => (vp.1, ToLower (TrimSpace v))
            | None => vp
            end
  end.
Definition parseUdevVIDPID (out : string) : string * string := foldl udev_line (""%string, ""%string) (lines out).

Inductive gateErr := ConfirmFailed (e : string) | Mismatch (vid pid : string).
Definition cached (g : gate) (now : Z) (d : DiscoveredDevice) : bool :=
  match cache g !! confirmKey d with
  | Some e => g_ok e && bool_decide (g_vid e = expectVID g) && bool_decide (g_pid e = expectPID g) &&
              ((cacheTTL g <=? 0) || (now - g_at e <? cacheTTL g))
  | None => false
  end.
(** [after] is the clock once the command has ended. *)
Definition confirm (exec : shell) (r : Runner) (now after : Z) (d : DiscoveredDevice) (g : gate)
    : result gateErr unit * gate :=
  if cached g now d then (Ok tt, g)
  else match CaptureOutput exec r (substituteTTY (command g) (TTY d)) with
       | Prelude.Err e => (if required g then Prelude.Err (ConfirmFailed e) else Ok tt, g)
       | Ok text =>
           let '(vid, pid) := parseUdevVIDPID text in
           if bool_decide (vid = expectVID g) && bool_decide (pid = expectPID g) then
             (Ok tt, set_cache (<[confirmKey d := MkEntry true after (expectVID g) (expectPID g)]> (cache g)) g)
           else (if required g then Prelude.Err (Mismatch vid pid) else Ok tt, g)
       end.
Definition invalidate (d : DiscoveredDevice) (g : gate) : gate := set_cache (delete (confirmKey d) (cache g)) g.

(** ** The worker (worker.go) *)

(** [math.Pow]. *)
Class MathLib := pow : spec_float → spec_float → spec_float.

Record backoffPolicy := MkBackoff { initial : Z; b_max : Z; factor : spec_float; failThreshold : Z }.
Definition is_inf (x : spec_float) : bool := match x with S754_infinity _ => true | _ => false end.
Definition nextDelay `{MathLib} (b : backoffPolicy) (n : Z) : Z :=
  let n := if n <? 1 then 1 else n in
  let d := Bwry.f64_mul (Bwry.f64_of_Z (initial b)) (pow (factor b) (Bwry.f64_of_Z (n - 1))) in
  if SFltb (Bwry.f64_of_Z (b_max b)) d || is_inf d then b_max b
  else if SFltb d (Bwry.f64_of_Z (initial b)) then initial b
  else Bwry.trunc_f64 d.

Inductive HostMsg :=
| HostPollMsg (host : string) (devices : list DiscoveredDevice) (err : option string) (state : ConnState) (at_ : Z)
| HostStateMsg (host : string) (state : ConnState) (err : option string) (at_ : Z).

Record HostWorker := MkWorker {
  w_host : string; runner : Runner; disc : discoverer; w_cmd : list string; pollIvl : Z; backoff : backoffPolicy;
  state : ConnState; fails : Z; lastOK : option Z }.
Definition set_worker (s : ConnState) (f : Z) (ok : option Z) (w : HostWorker) : HostWorker :=
  MkWorker (w_host w) (runner w) (disc w) (w_cmd w) (pollIvl w) (backoff w) s f ok.
(** One answered poll: the worker, what the store gets, the messages, the delay. *)
Definition poll_result (out : result string string) (now : Z) (w : HostWorker)
    : HostWorker * list DiscoveredDevice * option string :=
  match out with
  | Prelude.Err e =>
      let f := fails w + 1 in
      (set_worker (if failThreshold (backoff w) <=? f then StateDown else StateBackoff) f (lastOK w) w, [], Some e)
  | Ok text => (set_worker StateUp 0 (Some now) w, parse (disc w) text, None)
  end.
Definition pollOnce `{MathLib} (out : result string string) (now : Z) (w : HostWorker) (st : inventoryStore)
    : HostWorker * inventoryStore * list HostMsg * Z :=
  let '(w', devices, err) := poll_result out now w in
  let edge := if bool_decide (state w' = state w) then [] else [HostStateMsg (w_host w) (state w') err now] in
  (w', store_set (MkState (w_host w) (state w') devices err (lastOK w') (Some now) (fails w')) st,
   edge ++ [HostPollMsg (w_host w) devices err (state w') now],
   match err with Some _ => nextDelay (backoff w) (fails w') | None => pollIvl w end).
(** The worker's loop over the answers of its polls. *)
Fixpoint polls `{MathLib} (outs : list (result string string * Z)) (w : HostWorker) (st : inventoryStore)
    : HostWorker * inventoryStore * list HostMsg :=
  match outs with
  | [] => (w, st, [])
  | (out, now) :: outs =>
      let '(w, st, ms, _) := pollOnce out now w st in
      let '(w, st, ms') := polls outs w st in (w, st, ms ++ ms')
  end.

(** ** The registry (registry.go) *)

(** A run's context: the registry's own, or the one its caller gave. *)
Inductive context := RootContext | CallerContext (id : Z).
#[global] Instance context_eq_dec : EqDecision context.
Proof. solve_decision. Defined.
Record HostRegistry := MkRegistry {
  r_cfg : Config; store : inventoryStore; r_gate : gate; target : OpsShell.PaneID; runnersByHost : gmap string Runner;
  workers : list HostWorker; runs : gmap string context; stopped : bool; runSeq : Z; masters : list (list string) }.
Definition run_id (n : Z) : string := ("run-" ++ format_int n)%string.

Definition floor1 (n : Z) : Z := if n <? 1 then 1 else n.
Definition backoff_from (c : Config) : backoffPolicy :=
  MkBackoff (BackoffInitial c) (BackoffMax c) (BackoffFactor c) (floor1 (FailThreshold c)).
Definition gate_from (p : Poll) : gate :=
  newGate (VendorID p) (ProductID p) (ConfirmCommand p) (ConfirmRequired p) (ConfirmCacheTTL p).
(** One configured host: its runner, and its worker or the state that stands for it. *)
Definition add_host `{Regexp} (rc : runConfig) (c : Config) (now : Z)
    (acc : gmap string Runner * list HostWorker * inventoryStore) (h : Host)
    : gmap string Runner * list HostWorker * inventoryStore :=
  let '(rs, ws, st) := acc in
  let r := newRunner rc h in
  let rs := <[h_name h := r]> rs in
  if negb (IsEnabled h) then (rs, ws, store_set (fresh_state (h_name h) StateDisabled) st)
  else match newDiscoverer (h_name h) (MatchRegex (poll c)) (MACRegex (poll c)) with
       | None => (rs, ws, store_set (MkState (h_name h) StateDown [] (Some "bad match_regex"%string) None (Some now) 0) st)
       | Some d => (rs, ws ++ [MkWorker (h_name h) r d (Command (poll c)) (Interval (poll c)) (backoff_from c) StateConnecting 0 None], st)
       end.
Definition NewHostRegistry `{Regexp} (home : string) (c : Config) (now : Z) (inventoryPane : OpsShell.PaneID) : HostRegistry :=
  let '(rs, ws, st) := foldl (add_host (runConfigFrom home c) c now) (∅, [], newInventoryStore (h_name <$> Hosts c)) (Hosts c) in
  MkRegistry c st (gate_from (poll c)) inventoryPane rs ws ∅ false 0 [].

Definition set_target (t : OpsShell.PaneID) (r : HostRegistry) : HostRegistry :=
  MkRegistry (r_cfg r) (store r) (r_gate r) t (runnersByHost r) (workers r) (runs r) (stopped r) (runSeq r) (masters r).
Definition SetInventoryPane := set_target.
Definition set_runs (m : gmap string context) (n : Z) (r : HostRegistry) : HostRegistry :=
  MkRegistry (r_cfg r) (store r) (r_gate r) (target r) (runnersByHost r) (workers r) m (stopped r) n (masters r).
Definition set_gate (g : gate) (r : HostRegistry) : HostRegistry :=
  MkRegistry (r_cfg r) (store r) g (target r) (runnersByHost r) (workers r) (runs r) (stopped r) (runSeq r) (masters r).
(** Whether workers start. *)
Definition Start (r : HostRegistry) : list HostWorker := if stopped r then [] else workers r.
Definition Snapshot (r : HostRegistry) : list HostState := snapshot (store r).

Inductive runErr := UnknownHost (h : string) | EmptyArgv | StartFailed (e : string).
(** [started] is what starting the command answers. *)
Definition Run (ctx : context) (host : string) (argv : list string) (started : result string unit) (r : HostRegistry)
    : result runErr string * HostRegistry :=
  match runnersByHost r !! host with
  | None => (Prelude.Err (UnknownHost host), r)
  | Some runner =>
      match launch runner argv with
      | None => (Prelude.Err EmptyArgv, r)
      | Some _ =>
          let n := runSeq r + 1 in
          match started with
          | Ok _ => (Ok (run_id n), set_runs (<[run_id n := ctx]> (runs r)) n r)
          | Prelude.Err e => (Prelude.Err (StartFailed e), set_runs (runs r) n r)
          end
      end
  end.
(** A tracked run ended. *)
Definition reaped (id : string) (r : HostRegistry) : HostRegistry := set_runs (delete id (runs r)) (runSeq r) r.
(** Cancelling a context ends the runs bound to it. *)
Definition cancel (ctx : context) (m : gmap string context) : gmap string context := filter (λ e, e.2 ≠ ctx) m.
Definition Confirm (exec : shell) (now after : Z) (d : DiscoveredDevice) (r : HostRegistry)
    : result (string + gateErr) unit * HostRegistry :=
  match runnersByHost r !! d_host d with
  | None => (Prelude.Err (inl (d_host d)), r)
  | Some runner =>
      let '(res, g) := confirm exec runner now after d (r_gate r) in
      (match res with Ok _ => Ok tt | Prelude.Err e => Prelude.Err (inr e) end, set_gate g r)
  end.
Definition Stop (r : HostRegistry) : HostRegistry :=
  if stopped r then r
  else MkRegistry (r_cfg r) (store r) (r_gate r) (target r) (runnersByHost r) (workers r) (cancel RootContext (runs r))
         true (runSeq r) (omap CloseMaster (map_to_list (runnersByHost r)).*2).

(** ** The inventory pane (pane.go) *)

Record inventoryPane := MkPane { p_base : OpsShell.BasePane; p_order : list string; rows : gmap string HostState; dirty : bool }.
(** A pane on the shared registry: the registry's messages go to it from now on. *)
Definition SharedFactory (base : OpsShell.BasePane) (r : HostRegistry) : inventoryPane * HostRegistry :=
  (MkPane base (hs_host <$> Snapshot r) (foldl (λ m hs, <[hs_host hs := hs]> m) ∅ (Snapshot r)) false,
   SetInventoryPane (OpsShell.id base) r).
Definition ensureHost (h : string) (p : inventoryPane) : list string :=
  match rows p !! h with Some _ => p_order p | None => p_order p ++ [h] end.
Definition put_row (hs : HostState) (p : inventoryPane) : inventoryPane :=
  MkPane (p_base p) (ensureHost (hs_host hs) p) (<[hs_host hs := hs]> (rows p))
    (dirty p || negb (OpsShell.focused (p_base p))).
Definition Update (m : HostMsg) (p : inventoryPane) : inventoryPane :=
  match m with
  | HostPollMsg h devices err s t =>
      let hs := default zero_state (rows p !! h) in
      put_row (MkState h s devices err (LastOK hs) (Some t) (Fails hs)) p
  | HostStateMsg h s err t =>
      let hs := default zero_state (rows p !! h) in
      put_row (MkState h s (Devices hs) (match err with Some _ => err | None => Err hs end) (LastOK hs) (Some t) (Fails hs)) p
  end.
Definition SetFocused (f : bool) (p : inventoryPane) : inventoryPane :=
  MkPane (OpsShell.SetFocused f (p_base p)) (p_order p) (rows p) (if f then false else dirty p).
Definition Status (p : inventoryPane) : OpsShell.PaneStatus :=
  let hs := (map_to_list (rows p)).*2 in
  let up := List.filter (λ h, bool_decide (State h = StateUp)) hs in
  if existsb (λ h, negb (bool_decide (Devices h = []))) up then OpsShell.StatusActive
  else if existsb (λ h, bool_decide (State h = StateDown)) hs then OpsShell.StatusError
  else if negb (bool_decide (up = [])) then OpsShell.StatusQuiet
  else OpsShell.StatusIdle.
Definition mapLabel (d : DiscoveredDevice) : string :=
  if bool_decide (Serial d ≠ ""%string) then "mapped:" ++ Serial d
  else if bool_decide (Label d ≠ ""%string) then "mapped:" ++ Label d else "unmapped".
Definition shortDesc (desc : string) : string :=
  let b := bytes_of_string desc in
  if zlen b <=? 40 then desc else ("…" ++ string_of_bytes (drop (length b - 40) b))%string.
Definition connHint (err : string) : string :=
  let has sub := Contains (ToLower err) sub in
  if has "host key verification failed" || has "remote host identification has changed" then "(host-key: seed known_hosts)"
  else if has "connection refused" || has "could not resolve" || has "no route to host" || has "connection timed out"
       || has "operation timed out" then "(unreachable)"
  else "(poll failed)".
Definition ConnState_text (s : ConnState) : string :=
  match s with
  | StateConnecting => "connecting" | StateUp => "up" | StateBackoff => "backoff" | StateDown => "down"
  | StateDisabled => "disabled"
  end.
Definition tty_le (a b : DiscoveredDevice) : Prop := String.le (TTY a) (TTY b).
#[global] Instance tty_le_dec : RelDecision tty_le.
Proof. intros a b. unfold tty_le. apply _. Defined.
Definition device_row (d : DiscoveredDevice) : string :=
  ("    " ++ TTY d ++ "  " ++ mapLabel d ++ "  " ++ shortDesc (Descriptor d) ++ OpsShell.newline)%string.
Definition concat (l : list string) : string := foldr String.append ""%string l.
Definition host_block (hs : HostState) (host : string) : string :=
  (host ++ "  [" ++ ConnState_text (State hs) ++ "]" ++
   match Err hs with Some e => "  " ++ connHint e | None => "" end ++ OpsShell.newline ++
   (if bool_decide (State hs = StateDisabled) then "    (disabled)" ++ OpsShell.newline
    else if bool_decide (Devices hs = []) then "    no PicPak present" ++ OpsShell.newline
    else concat (device_row <$> merge_sort tty_le (Devices hs))) ++ OpsShell.newline)%string.
Definition View (p : inventoryPane) : string :=
  ("hosts — which PicPak is where" ++ OpsShell.newline ++ "(present = USB-attached, not necessarily awake)" ++
   OpsShell.newline ++ OpsShell.newline ++
   (if bool_decide (p_order p = []) then "No hosts configured." ++ OpsShell.newline
    else concat ((λ h, host_block (default zero_state (rows p !! h)) h) <$> p_order p)))%string.

End OpsHosts.

(** * Laws of the console's hosts

    What discovery admits, what stands behind a positive confirm, the worker's state
    as a function of its polls, the inventory pane against the store, and the end of
    a run. *)

From S2P Require Import Prelude GoLib AdminGate GoText Bwry OpsShell.
From Stdlib Require Import SpecFloat.
Import GoLib GoText OpsHosts.

Module OpsHostsLaws.

(** ** Discovery *)

Lemma clean_abs p : is_abs p = true → is_abs (clean p) = true.
Proof.
  unfold clean. intros ->. done.
Qed.
Lemma abs_cons b : is_abs b = true → ∃ b', b = 47 :: b'.
Proof.
  destruct b as [|c b]; [done|]. intros H. change ((47 =? c) && true = true) in H.
  rewrite andb_true_r in H. apply Z.eqb_eq in H as <-. eauto.
Qed.
Lemma abs_bytes s : IsAbs s = true → IsAbs (Clean s) = true.
Proof.
  unfold IsAbs, Clean. intros [b ->]%clean_abs%abs_cons. done.
Qed.
Lemma resolveTTY_abs t : resolveTTY t ≠ ""%string → IsAbs (resolveTTY t) = true.
Proof.
  unfold resolveTTY. case_bool_decide as E; [done|]. intros _. destruct (IsAbs t) eqn:Ht; [by apply abs_bytes|].
  apply abs_bytes. unfold IsAbs, Join. set (b := join_path _ _).
  assert (Hb : is_abs b = true).
  { unfold b. destruct (bytes_of_string t) eqn:Et; [done|]. by apply clean_abs. }
  apply abs_cons in Hb as [b' ->]. done.
Qed.

(** Whatever the listing, discovery yields only devices whose by-id descriptor
    matches the configured pattern, taken from a symlink line of the listing with
    its target as an absolute device path, for the worker's own host and never
    already confirmed. *)
Theorem parse_gated d raw dev : dev ∈ parse d raw →
  d_host dev = disc_host d ∧ MatchString (match_re d) (Descriptor dev) = true ∧ IsAbs (TTY dev) = true ∧
  Confirmed dev = false ∧
  ∃ line target, line ∈ lines raw ∧ splitSymlinkLine (TrimSpace line) = Some (Descriptor dev, target) ∧
    TTY dev = resolveTTY target.
Proof.
  unfold parse. rewrite list_elem_of_omap. intros (line & Hl & Hp). unfold parse_line in Hp.
  destruct (_ || _); [done|]. destruct (splitSymlinkLine (TrimSpace line)) as [[desc target]|] eqn:Hs; [|done]. simpl in Hp.
  destruct (MatchString (match_re d) desc) eqn:Hm; [|done]. simpl in Hp. case_bool_decide as Ht; [done|].
  injection Hp as <-. simpl. split_and!; [done|done|by apply resolveTTY_abs|done|]. by exists line, target.
Qed.

(** ** The gate *)

(** A name with no NUL in it, as the names of hosts and files are. *)
Definition nul_free (s : string) : Prop := 0 ∉ bytes_of_string s.
Definition plain (d : DiscoveredDevice) : Prop := nul_free (d_host d) ∧ nul_free (TTY d).
Lemma bytes_cat s t : bytes_of_string (s ++ t)%string = bytes_of_string s ++ bytes_of_string t.
Proof. unfold bytes_of_string. induction s as [|c s IH]; [done|]. simpl. by rewrite IH. Qed.
Lemma nul_cut (a b a' b' : bytes) : 0 ∉ a → 0 ∉ a' → a ++ 0 :: b = a' ++ 0 :: b' → a = a' ∧ b = b'.
Proof.
  revert a'. induction a as [|x a IH]; intros [|y a'] Ha Ha' E; simplify_eq/=; [done|set_solver|set_solver|].
  destruct (IH a') as [-> ->]; set_solver.
Qed.
Lemma confirmKey_inj d d' : plain d → plain d' → confirmKey d = confirmKey d' →
  d_host d = d_host d' ∧ TTY d = TTY d' ∧ Descriptor d = Descriptor d'.
Proof.
  intros [Hh Ht] [Hh' Ht'] E%(f_equal bytes_of_string). unfold confirmKey in E. rewrite !bytes_cat in E.
  apply nul_cut in E as [E1 E2]; [|done..]. apply nul_cut in E2 as [E2 E3]; [|done..].
  split_and!; by apply bytes_of_string_inj.
Qed.

(** A device asked about: the clock before and after, and what commands answer then. *)
Record attempt := Attempt { a_now : Z; a_after : Z; a_exec : shell; a_dev : DiscoveredDevice }.
Definition confirms (h : list attempt) (r : HostRegistry) : HostRegistry :=
  foldl (λ r a, (Confirm (a_exec a) (a_now a) (a_after a) (a_dev a) r).2) r h.

(** The confirm command, run for the device on its host, reported the pair. *)
Definition reports (g : gate) (rs : gmap string Runner) (exec : shell) (d : DiscoveredDevice) : Prop :=
  ∃ runner line text, rs !! d_host d = Some runner ∧ launch runner (substituteTTY (command g) (TTY d)) = Some line ∧
    exec line = Ok text ∧ parseUdevVIDPID text = (expectVID g, expectPID g).
Lemma reports_capture g rs exec runner d text : rs !! d_host d = Some runner →
  CaptureOutput exec runner (substituteTTY (command g) (TTY d)) = Ok text →
  parseUdevVIDPID text = (expectVID g, expectPID g) → reports g rs exec d.
Proof.
  intros Hr Hc Hp. unfold CaptureOutput in Hc. destruct (launch runner _) as [line|] eqn:Hl; [|done].
  destruct (exec line) as [out|[]] eqn:He; [|done]. injection Hc as <-. by exists runner, line, out.
Qed.

Definition backed (h : list attempt) (rs : gmap string Runner) (g : gate) : Prop :=
  ∀ k e, cache g !! k = Some e → ∃ a, a ∈ h ∧ confirmKey (a_dev a) = k ∧ reports g rs (a_exec a) (a_dev a) ∧ g_at e = a_after a.
Definition same_policy (g g' : gate) : Prop :=
  expectVID g' = expectVID g ∧ expectPID g' = expectPID g ∧ command g' = command g ∧ required g' = required g ∧
  cacheTTL g' = cacheTTL g.
Lemma reports_policy g g' rs exec d : same_policy g g' → reports g rs exec d ↔ reports g' rs exec d.
Proof. intros (Hv & Hp & Hc & _ & _). unfold reports. by rewrite Hv, Hp, Hc. Qed.

Lemma confirm_policy exec r now after d g : same_policy g (confirm exec r now after d g).2.
Proof.
  unfold confirm. destruct (cached g now d); [done|]. destruct (CaptureOutput _ _ _) as [text|e]; [|done].
  destruct (parseUdevVIDPID text) as [vid pid]. by destruct (_ && _).
Qed.
Lemma confirm_step a h rs runner g : rs !! d_host (a_dev a) = Some runner → backed h rs g →
  backed (h ++ [a]) rs (confirm (a_exec a) runner (a_now a) (a_after a) (a_dev a) g).2.
Proof.
  intros Hr B. assert (B' : backed (h ++ [a]) rs g).
  { intros k e He. destruct (B k e He) as (a' & Ha & Hp). exists a'. rewrite elem_of_app. auto. }
  unfold confirm. destruct (cached g (a_now a) (a_dev a)); [done|].
  destruct (CaptureOutput _ _ _) as [text|e] eqn:Ho; [|done].
  destruct (parseUdevVIDPID text) as [vid pid] eqn:Hv. destruct (_ && _) eqn:Hm; [|done].
  apply andb_prop in Hm as [H1%bool_decide_eq_true H2%bool_decide_eq_true]. subst.
  intros k e. cbn [snd set_cache cache]. destruct (decide (k = confirmKey (a_dev a))) as [->|].
  - rewrite lookup_insert_eq. intros [= <-]. exists a. split_and!; [set_solver|done| |done].
    by eapply (reports_capture g).
  - rewrite lookup_insert_ne by done. apply B'.
Qed.
Lemma confirms_backed h r : cache (r_gate r) = ∅ →
  let r' := confirms h r in
  runnersByHost r' = runnersByHost r ∧ backed h (runnersByHost r) (r_gate r') ∧ same_policy (r_gate r) (r_gate r').
Proof.
  intros H0. cbn zeta. induction h as [|a h (IHr & IHb & IHp)] using rev_ind.
  { split_and!; [done| |done..]. intros k e. simpl. by rewrite H0, lookup_empty. }
  unfold confirms in *. rewrite foldl_app. cbn [foldl]. set (r1 := foldl _ _ h) in *. unfold Confirm.
  destruct (runnersByHost r1 !! d_host (a_dev a)) as [runner|] eqn:Hr; cbn [snd].
  2: { split_and!; [done| |done..]. intros k e He. destruct (IHb k e He) as (a' & Ha & Hx). exists a'. set_solver. }
  pose proof (confirm_policy (a_exec a) runner (a_now a) (a_after a) (a_dev a) (r_gate r1)) as (? & ? & ? & ? & ?).
  rewrite IHr in Hr. pose proof (confirm_step a h _ _ _ Hr IHb) as Hs.
  set (x := confirm _ _ _ _ _ _) in *. destruct x as [res g]. cbn [set_gate r_gate runnersByHost snd] in *.
  destruct IHp as (? & ? & ? & ? & ?). split_and!; try done. split_and!; congruence.
Qed.

(** A passed gate: the pair reported now, or by the attempt behind a live entry. *)
Lemma confirm_passes exec runner now after d h rs g : rs !! d_host d = Some runner → required g = true →
  backed h rs g → (confirm exec runner now after d g).1 = Ok tt →
  reports g rs exec d ∨ ∃ a, a ∈ h ∧ confirmKey (a_dev a) = confirmKey d ∧ reports g rs (a_exec a) (a_dev a) ∧
    (cacheTTL g ≤ 0 ∨ now - a_after a < cacheTTL g).
Proof.
  intros Hr Hq B. unfold confirm. destruct (cached g now d) eqn:Hc.
  - intros _. right. unfold cached in Hc. destruct (cache g !! confirmKey d) as [e|] eqn:He; [|done].
    destruct (B _ _ He) as (a & Ha & Hk & Hx & Hat). exists a. split_and!; try done.
    apply andb_prop in Hc as [_ Hc]. rewrite Hat in Hc. apply orb_prop in Hc as [Hc|Hc]; [left|right]; zcase_in Hc; done || lia.
  - destruct (CaptureOutput _ _ _) as [text|e] eqn:Ho; [|by rewrite Hq]. destruct (parseUdevVIDPID text) as [vid pid] eqn:Hu.
    destruct (_ && _) eqn:Hm; [|by rewrite Hq]. intros _. left.
    apply andb_prop in Hm as [H1%bool_decide_eq_true H2%bool_decide_eq_true]. subst. by eapply (reports_capture g).
Qed.

(** The registry's runners are those of its hosts. *)
Lemma registry_runners `{Regexp} home c t pane n runner :
  runnersByHost (NewHostRegistry home c t pane) !! n = Some runner →
  ∃ host, host ∈ Hosts c ∧ h_name host = n ∧ runner = newRunner (runConfigFrom home c) host.
Proof.
  unfold NewHostRegistry. set (rc := runConfigFrom home c).
  assert (Hg : ∀ hs acc, (∀ h, h ∈ hs → h ∈ Hosts c) →
    (∀ n x, acc.1.1 !! n = Some x → ∃ host, host ∈ Hosts c ∧ h_name host = n ∧ x = newRunner rc host) →
    ∀ n x, (foldl (add_host rc c t) acc hs).1.1 !! n = Some x → ∃ host, host ∈ Hosts c ∧ h_name host = n ∧ x = newRunner rc host).
  { induction hs as [|h hs IH]; intros [[rs ws] st] Hin Ha m x; [apply Ha|]. cbn [foldl]. apply IH; [set_solver|].
    assert (Hx : (add_host rc c t (rs, ws, st) h).1.1 = <[h_name h := newRunner rc h]> rs).
    { unfold add_host. destruct (negb _); [done|]. by destruct (newDiscoverer _ _ _). }
    rewrite Hx. intros m' x' [[<- <-]|[_ ?]]%lookup_insert_Some; [exists h; set_solver|by apply Ha]. }
  specialize (Hg (Hosts c) (∅, [], newInventoryStore (h_name <$> Hosts c)) ltac:(done)).
  destruct (foldl _ _ _) as [[rs ws] st]. apply Hg. intros m x. cbn. by rewrite lookup_empty.
Qed.

(** The command line reaches the host and names the tty where the template says so. *)
Lemma replace_tty tty : ReplaceAll "%TTY%" "%TTY%" tty = tty.
Proof.
  unfold ReplaceAll, replace_all. change (split (bytes_of_string "%TTY%") (bytes_of_string "%TTY%")) with ([[]; []] : list bytes).
  replace (join [[]; []] (bytes_of_string tty)) with (bytes_of_string tty) by (cbn [join app]; by rewrite app_nil_r).
  apply string_of_bytes_of_string.
Qed.
Lemma launch_names rc host cmd tty line : launch (newRunner rc host) (substituteTTY cmd tty) = Some line →
  (Local host = false → SSHTarget host ∈ line) ∧ ("%TTY%"%string ∈ cmd → tty ∈ line).
Proof.
  assert (Ht : "%TTY%"%string ∈ cmd → tty ∈ substituteTTY cmd tty).
  { intros Hin. apply list_elem_of_fmap. exists "%TTY%"%string. by rewrite replace_tty. }
  unfold newRunner. destruct (Local host); simpl.
  - destruct (substituteTTY cmd tty); [done|]. intros [= <-]. by split.
  - intros [= <-]. split; intros; rewrite ?elem_of_cons, ?elem_of_app, ?elem_of_cons; auto 10.
Qed.

(** C11. With confirmation required, whatever was asked of the registry before, a
    device passes the gate only if the confirm command, launched for this very tty
    on the device's own configured host, has reported the configured vendor and
    product: now, or in an earlier question about the same host, tty and
    descriptor that is younger than the cache's lifetime (any, when none is set).
    The command line goes to the host's ssh target, and carries the tty wherever
    the template has the placeholder. Names hold no NUL. *)
Theorem confirm_backed `{Regexp} home c t pane h exec now after d :
  ConfirmRequired (poll c) = true → plain d → Forall plain (a_dev <$> h) →
  (Confirm exec now after d (confirms h (NewHostRegistry home c t pane))).1 = Ok tt →
  ∃ host line text (run : shell), host ∈ Hosts c ∧ h_name host = d_host d ∧
    launch (newRunner (runConfigFrom home c) host) (substituteTTY (ConfirmCommand (poll c)) (TTY d)) = Some line ∧
    (Local host = false → SSHTarget host ∈ line) ∧ ("%TTY%"%string ∈ ConfirmCommand (poll c) → TTY d ∈ line) ∧
    run line = Ok text ∧ parseUdevVIDPID text = (ToLower (VendorID (poll c)), ToLower (ProductID (poll c))) ∧
    (run = exec ∨ ∃ a, a ∈ h ∧ run = a_exec a ∧
      d_host (a_dev a) = d_host d ∧ TTY (a_dev a) = TTY d ∧ Descriptor (a_dev a) = Descriptor d ∧
      (ConfirmCacheTTL (poll c) ≤ 0 ∨ now - a_after a < ConfirmCacheTTL (poll c))).
Proof.
  intros Hq Hd Hh Hrun. set (r0 := NewHostRegistry home c t pane) in *.
  assert (Hg0 : r_gate r0 = gate_from (poll c)).
  { unfold r0, NewHostRegistry. by destruct (foldl _ _ _) as [[rs ws] st]. }
  destruct (confirms_backed h r0) as (Hrs & B & Pol); [by rewrite Hg0|]. pose proof Pol as (Hv & Hp & Hc & Hreq & Ht).
  rewrite Hg0 in Hv, Hp, Hc, Hreq, Ht. cbn in Hv, Hp, Hc, Hreq, Ht.
  unfold Confirm in Hrun. rewrite Hrs in Hrun. destruct (runnersByHost r0 !! d_host d) as [runner|] eqn:Hr; [|done].
  assert (Hok : (confirm exec runner now after d (r_gate (confirms h r0))).1 = Ok tt).
  { destruct (confirm _ _ _ _ _ _) as [[[]|] ?]; done. }
  pose proof (registry_runners _ _ _ _ _ _ Hr) as (host & Hin & Hn & ->).
  assert (Hdone : ∀ run dev, d_host dev = d_host d → TTY dev = TTY d →
    reports (r_gate (confirms h r0)) (runnersByHost r0) run dev → ∃ line text,
      launch (newRunner (runConfigFrom home c) host) (substituteTTY (ConfirmCommand (poll c)) (TTY d)) = Some line ∧
      run line = Ok text ∧ parseUdevVIDPID text = (ToLower (VendorID (poll c)), ToLower (ProductID (poll c)))).
  { intros run dev Eh Et (runner & line & text & H1 & H2 & H3 & H4). rewrite Eh, Hr in H1. injection H1 as <-.
    rewrite Hc, Et in H2. rewrite Hv, Hp in H4. by exists line, text. }
  destruct (confirm_passes _ _ _ _ _ h _ _ Hr (eq_trans Hreq Hq) B Hok) as [Hx|(a & Ha & Hk & Hx & Hage)].
  - destruct (Hdone exec d eq_refl eq_refl Hx) as (line & text & Hl & He & Hu).
    destruct (launch_names _ _ _ _ _ Hl). exists host, line, text, exec. split_and!; auto.
  - apply confirmKey_inj in Hk as (Eh & Et & Ed); [|rewrite Forall_fmap, Forall_forall in Hh; by apply Hh|done].
    destruct (Hdone _ _ Eh Et Hx) as (line & text & Hl & He & Hu).
    destruct (launch_names _ _ _ _ _ Hl). exists host, line, text, (a_exec a). split_and!; auto.
    right. exists a. rewrite Ht in Hage. by split_and!.
Qed.

(** A device unplugged and plugged again is not confirmed anew: nothing invalidates
    the cache, and within its lifetime the command is not even run. *)
Theorem replug_keeps_confirm exec exec' r text d now after now' after' g :
  cached g now d = false → CaptureOutput exec r (substituteTTY (command g) (TTY d)) = Ok text →
  parseUdevVIDPID text = (expectVID g, expectPID g) → (cacheTTL g ≤ 0 ∨ now' - after < cacheTTL g) →
  let g' := (confirm exec r now after d g).2 in confirm exec' r now' after' d g' = (Ok tt, g').
Proof.
  intros Hc Ho Hp Ht. unfold confirm at 1. rewrite Hc, Ho, Hp, !bool_decide_true by done. simpl.
  unfold confirm, cached. simpl. rewrite lookup_insert_eq. simpl. rewrite !bool_decide_true by done. simpl.
  destruct (Z.leb_spec (cacheTTL g) 0); [done|]. destruct (Z.ltb_spec (now' - after) (cacheTTL g)); [done|lia].
Qed.

(** ** The worker *)

Section Worker.
Context {ML : MathLib}.

(** Failures since the last success. *)
Fixpoint trailing (outs : list (result string string * Z)) (n : Z) : Z :=
  match outs with
  | [] => n
  | (Ok _, _) :: outs => trailing outs 0
  | (Prelude.Err _, _) :: outs => trailing outs (n + 1)
  end.
Fixpoint last_ok (outs : list (result string string * Z)) (t : option Z) : option Z :=
  match outs with
  | [] => t
  | (Ok _, now) :: outs => last_ok outs (Some now)
  | _ :: outs => last_ok outs t
  end.
Definition expected_state (b : backoffPolicy) (n : Z) : ConnState :=
  if n =? 0 then StateUp else if failThreshold b <=? n then StateDown else StateBackoff.
Definition last_answer (d : discoverer) (outs : list (result string string * Z)) : option (list DiscoveredDevice * option string * Z) :=
  match last outs with
  | Some (Ok text, now) => Some (parse d text, None, now)
  | Some (Prelude.Err e, now) => Some ([], Some e, now)
  | None => None
  end.
Definition same_worker (w w' : HostWorker) : Prop :=
  w_host w' = w_host w ∧ disc w' = disc w ∧ backoff w' = backoff w ∧ pollIvl w' = pollIvl w.

Lemma pollOnce_shape out now w st : let '(w', st', ms, delay) := pollOnce out now w st in
  same_worker w w' ∧ fails w' = trailing [(out, now)] (fails w) ∧ lastOK w' = last_ok [(out, now)] (lastOK w) ∧
  (0 ≤ fails w → state w' = expected_state (backoff w) (fails w')) ∧
  order st' = order st ∧
  states st' = <[w_host w := MkState (w_host w) (state w') (match out with Ok text => parse (disc w) text | _ => [] end)
                   (match out with Ok _ => None | Prelude.Err e => Some e end) (lastOK w') (Some now) (fails w')]> (states st).
Proof.
  unfold pollOnce, poll_result. destruct out as [text|e]; simpl.
  - split_and!; done.
  - split_and!; try done. intros H. unfold expected_state. destruct (Z.eqb_spec (fails w + 1) 0); [lia|done].
Qed.

Lemma polls_app outs outs' w st :
  let '(w1, st1, _) := polls outs w st in
  let '(w2, st2, _) := polls outs' w1 st1 in
  (polls (outs ++ outs') w st).1 = (w2, st2).
Proof.
  revert w st. induction outs as [|[out now] outs IH]; intros w st; simpl.
  - destruct (polls outs' w st) as [[w2 st2] ms]. done.
  - destruct (pollOnce out now w st) as [[[w1 st1] ms] dl]. specialize (IH w1 st1).
    destruct (polls outs w1 st1) as [[w2 st2] ms2], (polls outs' w2 st2) as [[w3 st3] ms3].
    destruct (polls (outs ++ outs') w1 st1) as [[w4 st4] ms4]. simpl in *. congruence.
Qed.
Lemma trailing_snoc outs x n : trailing (outs ++ [x]) n = trailing [x] (trailing outs n).
Proof. revert n. induction outs as [|[[] ?] outs IH]; intros n; simpl in *; auto. Qed.
Lemma trailing_nonneg outs n : 0 ≤ n → 0 ≤ trailing outs n.
Proof. revert n. induction outs as [|[[] ?] outs IH]; intros n Hn; simpl; auto; apply IH; lia. Qed.
Lemma last_ok_snoc outs x t : last_ok (outs ++ [x]) t = last_ok [x] (last_ok outs t).
Proof. revert t. induction outs as [|[[] ?] outs IH]; intros t; simpl in *; auto. Qed.

(** A host's state is exactly its polls: up after a success, backing off while the
    failures since are fewer than the threshold, down from the threshold on; the
    store holds the last answer (its devices or its error) with that state, the
    time of the last success and the count, and the entries of the other hosts
    are untouched. *)
Theorem worker_state_exact w st outs : fails w = 0 → outs ≠ [] →
  let '(w', st', _) := polls outs w st in
  state w' = expected_state (backoff w) (trailing outs 0) ∧
  (∀ h, h ≠ w_host w → states st' !! h = states st !! h) ∧
  match last_answer (disc w) outs with
  | Some (devices, err, now) =>
      states st' !! w_host w = Some (MkState (w_host w) (state w') devices err (last_ok outs (lastOK w)) (Some now) (trailing outs 0))
  | None => False
  end.
Proof.
  intros Hf Hne.
  assert (Hg : ∀ outs, let '(w', st', _) := polls outs w st in
    same_worker w w' ∧ fails w' = trailing outs 0 ∧ lastOK w' = last_ok outs (lastOK w) ∧
    (∀ h, h ≠ w_host w → states st' !! h = states st !! h) ∧
    (outs ≠ [] → state w' = expected_state (backoff w) (trailing outs 0) ∧
      match last_answer (disc w) outs with
      | Some (devices, err, now) =>
          states st' !! w_host w = Some (MkState (w_host w) (state w') devices err (last_ok outs (lastOK w)) (Some now) (trailing outs 0))
      | None => False
      end)).
  { intros l. induction l as [|[out now] l IH] using rev_ind; [by rewrite <-Hf|].
    pose proof (polls_app l [(out, now)] w st) as Ha. destruct (polls l w st) as [[w1 st1] ms1].
    destruct IH as ((E1 & E2 & E3 & E4) & If & Il & Ih & _). simpl in Ha.
    pose proof (pollOnce_shape out now w1 st1) as Hs. destruct (pollOnce out now w1 st1) as [[[w2 st2] ms2] dl].
    destruct (polls (l ++ [(out, now)]) w st) as [[w3 st3] ms3]. simpl in Ha. injection Ha as -> ->.
    destruct Hs as ((F1 & F2 & F3 & F4) & Hf2 & Hl2 & Hst & Ho & Hm).
    rewrite trailing_snoc, last_ok_snoc. rewrite If in Hf2. rewrite Il in Hl2.
    split_and!; [split_and!; congruence|done|done| |].
    - intros h Hh. rewrite Hm, lookup_insert_ne by congruence. auto.
    - intros _. split.
      + rewrite Hst by (rewrite If; apply trailing_nonneg; lia). by rewrite E3, Hf2.
      + unfold last_answer. rewrite last_snoc.
        destruct out; rewrite Hm, <-E1, lookup_insert_eq, Hl2, Hf2, ?E2; done. }
  specialize (Hg outs). destruct (polls outs w st) as [[w' st'] ms]. destruct Hg as (_ & _ & _ & Hh & Hs). by destruct (Hs Hne).
Qed.

(** ** The inventory pane *)

(** The pane shows what the store holds. *)
Definition shown (hs : HostState) : ConnState * list DiscoveredDevice * option string * option Z := (State hs, Devices hs, Err hs, At hs).
Definition agrees (p : inventoryPane) (st : inventoryStore) : Prop :=
  p_order p = order st ∧ ∀ h, shown <$> rows p !! h = shown <$> states st !! h.
Lemma host_block_shown hs hs' h : shown hs = shown hs' → host_block hs h = host_block hs' h.
Proof. unfold shown, host_block. by intros [= -> -> -> _]. Qed.
Lemma agrees_view p p' st : agrees p st → agrees p' st → View p = View p'.
Proof.
  intros [Ho Hr] [Ho' Hr']. unfold View. rewrite Ho, Ho'. do 4 f_equal. case_bool_decide; [done|]. apply (f_equal (String.append _)). apply (f_equal OpsHosts.concat).
  apply list_fmap_ext. intros i h _. apply host_block_shown.
  specialize (Hr h). rewrite <-Hr' in Hr. destruct (rows p !! h), (rows p' !! h); simpl in *; congruence.
Qed.

(** A hosts pane that shows what the store holds goes on doing so over every poll
    of a known host whose messages it receives, and then draws exactly what a pane
    opened at that moment would. *)
Theorem pane_tracks_store out now w st p : agrees p st → is_Some (states st !! w_host w) →
  let '(w', st', ms, _) := pollOnce out now w st in
  agrees (foldl (flip Update) p ms) st' ∧ ∀ p', agrees p' st' → View (foldl (flip Update) p ms) = View p'.
Proof.
  intros [Ho Hr] [hs Hs]. destruct (pollOnce out now w st) as [[[w' st'] ms] dl] eqn:Hp.
  enough (A : agrees (foldl (flip Update) p ms) st') by (split; [done|]; intros p' A'; by eapply agrees_view).
  unfold pollOnce in Hp. destruct (poll_result out now w) as [[w1 ds] err]. injection Hp as <- <- <- <-.
  assert (Hin : is_Some (rows p !! w_host w)).
  { specialize (Hr (w_host w)). rewrite Hs in Hr. by destruct (rows p !! w_host w). }
  destruct Hin as [r0 Hr0].
  assert (Hput : ∀ (p0 : inventoryPane) hs0, is_Some (rows p0 !! hs_host hs0) →
    p_order (put_row hs0 p0) = p_order p0 ∧ rows (put_row hs0 p0) = <[hs_host hs0 := hs0]> (rows p0)).
  { intros p0 hs0 [x Hx]. unfold put_row, ensureHost. simpl. by rewrite Hx. }
  assert (Hpoll : ∀ p0 s, p_order p0 = order st → (∀ h, h ≠ w_host w → shown <$> rows p0 !! h = shown <$> states st !! h) →
    is_Some (rows p0 !! w_host w) →
    agrees (Update (HostPollMsg (w_host w) ds err s now) p0)
      (store_set (MkState (w_host w) s ds err (lastOK w1) (Some now) (fails w1)) st)).
  { intros p0 s Ho0 Hr0' Hi0. unfold Update. set (hs0 := MkState _ _ _ _ _ _ _). destruct (Hput p0 hs0 Hi0) as [H1 H2].
    split; [by rewrite H1|]. intros h. rewrite H2. simpl. destruct (decide (h = w_host w)) as [->|].
    - by rewrite !lookup_insert_eq.
    - rewrite !lookup_insert_ne by done. auto. }
  assert (Hst : ∀ s e t, p_order (Update (HostStateMsg (w_host w) s e t) p) = p_order p ∧
    ∃ hs0, rows (Update (HostStateMsg (w_host w) s e t) p) = <[w_host w := hs0]> (rows p)).
  { intros s e t. unfold Update. set (hs0 := MkState _ _ _ _ _ _ _). destruct (Hput p hs0) as [H1 H2]; [by exists r0|]. eauto. }
  case_bool_decide; cbn [app foldl]; unfold flip.
  - apply Hpoll; [done|auto|eauto].
  - destruct (Hst (state w1) err now) as (Hso & hs0 & Hsr). apply Hpoll; [by rewrite Hso|..].
    + intros h Hh. rewrite Hsr, lookup_insert_ne by done. auto.
    + rewrite Hsr, lookup_insert_eq. eauto.
Qed.

End Worker.

(** A second hosts pane takes the registry's messages from the first, for good. *)
Theorem second_pane_takes_target b1 b2 r : target (SharedFactory b2 (SharedFactory b1 r).2).2 = OpsShell.id b2.
Proof. done. Qed.

(** ** Runs *)

Lemma interleave_forall {A} (Q : A → Prop) a b c : interleave a b c → Forall Q a → Forall Q b → Forall Q c.
Proof. induction 1; intros Ha Hb; [done| |]; decompose_Forall_hyps; constructor; auto. Qed.

(** A run ends with exactly one exit message, after all of its output, also when
    it could not be started. *)
Theorem one_exit_last max r ms : run_msgs max r ms →
  ∃ out code err, ms = out ++ [RunExitMsg code err] ∧ Forall (λ m, ∀ c e, m ≠ RunExitMsg c e) out.
Proof.
  destruct 1 as [e|out err w ms Hi]; [by exists [], (-1), (Some e)|].
  exists ms, (exitCode w), (normalizeWaitErr w). split; [done|].
  eapply interleave_forall; [exact Hi|..]; apply Forall_fmap, Forall_true; by intros ? ? ?.
Qed.

(** A line that does not fit the buffer is not truncated: it and all output after it
    are lost. *)
Theorem long_line_ends_output max l rest : split (bytes_of_string rest) [10] = l :: [[100; 111; 110; 101]] →
  room (at_least_one max) ≤ zlen l → pump max rest = [].
Proof.
  intros Hs Hl. unfold pump, scan. rewrite Hs. simpl. destruct (Z.ltb_spec (zlen l) (room (at_least_one max))); [lia|done].
Qed.
(** A run killed by a signal or its context has no error. *)
Theorem killed_run_has_no_error : exitCode (WaitExit (-1)) = -1 ∧ normalizeWaitErr (WaitExit (-1)) = None.
Proof. done. Qed.

(** Stopping the registry ends no run that a pane started under its own context, and
    does not keep a new one from starting. *)
Theorem stop_spares_runs r : (∀ id c, runs r !! id = Some c → c ≠ RootContext) → runs (Stop r) = runs r.
Proof.
  intros Hr. unfold Stop. destruct (stopped r); [done|]. simpl. unfold cancel. apply map_filter_id. intros id c Hc. by apply Hr in Hc.
Qed.
Theorem run_after_stop r ctx host runner argv : runnersByHost r !! host = Some runner → argv ≠ [] →
  (Run ctx host argv (Ok tt) (Stop r)).1 = Ok (run_id (runSeq r + 1)).
Proof.
  intros Hr Ha. unfold Run, Stop. destruct (stopped r); simpl; rewrite Hr; destruct runner, argv; done.
Qed.

(** ** Witnesses *)

#[local] Instance demo_regexp : Regexp := λ _, Some (MkRegexp (λ s, Contains s "Espressif") (λ _, ""%string)).
#[local] Instance demo_math : MathLib := λ x _, x.
Definition demo_disc : discoverer := MkDiscoverer (MkRegexp (λ s, Contains s "Espressif") (λ _, ""%string)) None "bench".
Definition demo_listing : string := "lrwxrwxrwx 1 root root 13 Jun 26 12:00 usb-Espressif_USB_JTAG -> ../../ttyUSB0".
(** No check on the tty: [poll.tty_glob] is not read. *)
Lemma parse_gated_witness : ∃ dev, dev ∈ parse demo_disc demo_listing ∧ TTY dev = "/dev/ttyUSB0"%string ∧ IsAbs (TTY dev) = true.
Proof.
  exists (MkDevice "bench" "/dev/ttyUSB0" "usb-Espressif_USB_JTAG" "" "" "" "" false).
  assert (Hin : MkDevice "bench" "/dev/ttyUSB0" "usb-Espressif_USB_JTAG" "" "" "" "" false ∈ parse demo_disc demo_listing)
    by (apply (bool_decide_unpack _); vm_compute; exact I).
  split_and!; [exact Hin|done|]. by destruct (parse_gated _ _ _ Hin) as (_ & _ & H & _).
Defined.

Definition demo_dev : DiscoveredDevice := MkDevice "bench" "/dev/ttyACM0" "usb-Espressif" "" "" "" "" false.
Definition udev_ok : string := ("ID_MODEL_ID=1001" ++ OpsShell.newline ++ "ID_VENDOR_ID=303A")%string.
Definition demo_config : Config :=
  MkConfig "ssh" ["-q"] "" 0 (MkPoll 10 1 [] "Espressif" "" "303a" "1001" ["udevadm"; "info"; "%TTY%"] true 100)
    0 4096 1 8 (Bwry.f64_of_Z 2) 2 [MkHost "bench" "pi@bench" false None]%string.
(** The bench answers this one command line. *)
Definition demo_line : list string := ["ssh"; "-q"; "pi@bench"; "--"; "udevadm"; "info"; "/dev/ttyACM0"].
Definition demo_shell : shell := λ line,
  if bool_decide (line = demo_line) then Ok udev_ok else Prelude.Err ("exit status 1", "no such device")%string.
Definition gone_shell : shell := λ _, Prelude.Err ("exit status 255", "host unreachable")%string.
Definition other_dev : DiscoveredDevice := MkDevice "bench" "/dev/ttyACM1" "usb-Espressif" "" "" "" "" false.

(** A device confirmed on its own tty passes again from the cache with the host
    gone; one on another tty of that host does not. *)
Lemma confirm_backed_witness :
  let h := [Attempt 0 5 demo_shell demo_dev] in
  let r := confirms h (NewHostRegistry "/home/op" demo_config 0 "hosts:1") in
  (Confirm gone_shell 50 51 demo_dev r).1 = Ok tt ∧ (Confirm demo_shell 50 51 other_dev r).1 ≠ Ok tt ∧
  ∃ host line text (run : shell), host ∈ Hosts demo_config ∧ SSHTarget host ∈ line ∧ TTY demo_dev ∈ line ∧
    run line = Ok text ∧ run = demo_shell.
Proof.
  intros h r. assert (H : (Confirm gone_shell 50 51 demo_dev r).1 = Ok tt) by (vm_compute; reflexivity).
  split; [exact H|]. split; [vm_compute; discriminate|].
  assert (Hd : plain demo_dev) by (split; apply (bool_decide_unpack _); vm_compute; exact I).
  destruct (confirm_backed "/home/op" demo_config 0 "hosts:1" h gone_shell 50 51 demo_dev eq_refl Hd
    (proj2 (Forall_singleton _ _) Hd) H)
    as (host & line & text & run & Hin & _ & _ & Hs & Ht & Hr & _ & Hrun). exists host, line, text, run.
  split_and!; [exact Hin| |apply Ht; vm_compute; do 3 constructor|exact Hr|].
  - apply Hs. apply list_elem_of_singleton in Hin as ->. reflexivity.
  - destruct Hrun as [->|(a & Ha & -> & _)]; [discriminate Hr|]. apply list_elem_of_singleton in Ha as ->. reflexivity.
Defined.

Definition demo_worker : HostWorker :=
  MkWorker "bench" (localRunner (MkRunConfig "" [] "" 0 0)) demo_disc [] 10 (MkBackoff 1 8 (Bwry.f64_of_Z 2) 2) StateConnecting 0 None.
Lemma worker_state_exact_witness :
  let '(w', st', _) := polls [(Ok ""%string, 1); (Prelude.Err "x"%string, 2); (Prelude.Err "y"%string, 3)] demo_worker (newInventoryStore ["bench"%string]) in
  state w' = StateDown ∧ states st' !! "bench"%string = Some (MkState "bench" StateDown [] (Some "y"%string) (Some 1) (Some 3) 2).
Proof.
  pose proof (worker_state_exact demo_worker (newInventoryStore ["bench"%string])
    [(Ok ""%string, 1); (Prelude.Err "x"%string, 2); (Prelude.Err "y"%string, 3)] eq_refl ltac:(done)) as H.
  destruct (polls _ demo_worker _) as [[w' st'] ms]. destruct H as (H1 & _ & H2).
  change (last_answer _ _) with (Some ([] : list DiscoveredDevice, Some "y"%string, 3)) in H2. simpl in H2.
  assert (E : state w' = StateDown) by (rewrite H1; vm_compute; reflexivity). split; [exact E|]. rewrite E in H2. exact H2.
Defined.

Definition demo_store : inventoryStore := newInventoryStore ["bench"%string].
Definition demo_pane : inventoryPane := MkPane (OpsShell.NewBase "hosts:1" "hosts") ["bench"%string] (states demo_store) false.
Lemma pane_tracks_store_witness :
  let '(w', st', ms, _) := pollOnce (Ok demo_listing) 7 demo_worker demo_store in
  agrees (foldl (flip Update) demo_pane ms) st'.
Proof.
  pose proof (pane_tracks_store (Ok demo_listing) 7 demo_worker demo_store demo_pane) as H.
  destruct (pollOnce (Ok demo_listing) 7 demo_worker demo_store) as [[[w' st'] ms] dl].
  apply H; [split; reflexivity|]. eexists. reflexivity.
Defined.

Lemma one_exit_last_witness : ∃ out code err,
  [RunOutputMsg Stdout "ok"; RunExitMsg 3 None] = out ++ [RunExitMsg code err] ∧ Forall (λ m, ∀ c e, m ≠ RunExitMsg c e) out.
Proof.
  apply (one_exit_last 4096 (Ok (("ok" ++ OpsShell.newline)%string, ""%string, WaitExit 3))).
  apply (run_ended 4096 ("ok" ++ OpsShell.newline)%string ""%string (WaitExit 3) [RunOutputMsg Stdout "ok"]).
  vm_compute. apply inter_l, inter_nil.
Defined.

End OpsHostsLaws.
