(* ===== verification/OpsConfig.v ===== *)
(** * The console's configuration ([tools/picpak-ops/internal/config])

    The schema and the compiled defaults, the resolution of the file, the layers of
    environment and overrides, secret indirection, validation, redaction and the
    lookup tables. The TOML decoder is a parameter; the machine's environment and
    files are a record. *)

From S2P Require Import Prelude GoLib GoText Bwry OpsKeys OpsHosts OpsShell.
From Stdlib Require Import SpecFloat.
Import GoLib GoText.

Module OpsConfig.

(** ** The schema (config.go) *)

Definition ms : Z := 1000000.
Definition sec : Z := 1000 * ms.
Definition minute : Z := 60 * sec.
Definition hour : Z := 60 * minute.

Record Reload := MkReload { rl_watch : bool; rl_debounce : Z }.
Record UI := MkUI {
  ui_mouse : string; ui_report_focus : bool; ui_altscreen : bool; ui_teardown : Z; ui_scrollback : Z;
  ui_tab_bar : string; ui_status_bar : bool; ui_startup : list OpsShell.PaneSpec; ui_theme : string }.
Record Database := MkDatabase { db_dsn : string; db_max_conns : Z; db_connect : Z; db_statement : Z; db_read_only : bool }.
Record SSH := MkSSH { ssh_binary : string; ssh_base_args : list string; ssh_control : string; ssh_connect : Z; ssh_command : Z }.
Record Run := MkRun { run_scrollback : Z; run_line_max : Z }.
Record Reconnect := MkReconnect { rc_initial : Z; rc_max : Z; rc_factor : spec_float; rc_threshold : Z }.
Record BuildStep := MkStep { st_name : string; st_cmd : list string; st_cwd : string; st_output : string; st_src : string }.
Record BuildArtifact := MkArtifact { ar_name : string; ar_file : string; ar_offset : string; ar_min : Z; ar_exact : Z }.
Record BuildKeys := MkBuildKeys { bk_start : string; bk_cancel : string; bk_rerun : string }.
Record Build := MkBuild {
  b_host : string; b_repo : string; b_firmware_dir : string; b_image : string; b_docker : string; b_target : string;
  b_cmd : list string; b_run_args : list string; b_container : string; b_python : string; b_probe : string;
  b_stat : string; b_sha : string; b_fonts : string; b_setup : list BuildStep; b_codegen : list BuildStep;
  b_components : list string; b_artifact_dir : string; b_artifacts : list BuildArtifact; b_flasher_args : string;
  b_app : string; b_slot : Z; b_tail : Z; b_pane_scrollback : Z; b_disclaimer : string; b_grace_ms : Z; b_keys : BuildKeys }.
Record FlashKeys := MkFlashKeys { fk_run : string; fk_retry : string; fk_abort : string; fk_console : string }.
Record Flash := MkFlash {
  f_esptool : list string; f_chip : string; f_before : string; f_after : string; f_mode : string; f_size : string;
  f_freq : string; f_extra : list string; f_over_ssh : bool; f_nvs : string; f_forbid_erase : bool; f_stage_mode : string;
  f_stage_dir : string; f_skip_unchanged : bool; f_concurrency : Z; f_timeout : Z; f_retry_auto : bool; f_retry_max : Z;
  f_tail : Z; f_keys : FlashKeys }.
Record ConsoleKeys := MkConsoleKeys {
  ck_submit : string; ck_prev : string; ck_next : string; ck_up : string; ck_down : string; ck_search : string;
  ck_clear : string; ck_reconnect : string; ck_disconnect : string; ck_help : string }.
Record Console := MkConsole {
  c_ssh : string; c_ssh_args : list string; c_remote : string; c_baud : Z; c_auto : bool; c_reconnect : bool;
  c_backoff_ms : Z; c_attempts : Z; c_scrollback : Z; c_endings : string; c_echo : bool; c_quiet_ms : Z;
  c_banner : string; c_confirm : bool; c_log_dir : string; c_keys : ConsoleKeys }.
Record OTA := MkOTA {
  o_url : string; o_token : string; o_timeout : Z; o_direct : bool; o_blob_dir : string; o_blob_file : string;
  o_serve : string; o_build_dir : string; o_version_file : string; o_artifact : string; o_channel : string;
  o_tries : Z; o_precedence : list string; o_behind : bool; o_refresh : Z; o_keys : gmap string (list string) }.
Record Telemetry := MkTelemetry {
  t_window : Z; t_refresh : Z; t_tail : Z; t_follow : Z; t_background : Z; t_stale : Z; t_rows : Z; t_devices : Z;
  t_low_batt : Z; t_bad_boots : Z; t_brown_reasons : list string; t_brown_codes : list Z; t_low_usb : bool;
  t_mismatch : bool; t_age : string; t_unit : string; t_spark : list string; t_keys : gmap string (list string) }.
Record Logs := MkLogs {
  l_separator : string; l_poll : Z; l_batch : Z; l_page : Z; l_ring : Z; l_history : Z; l_serials : list string;
  l_sources : list string; l_gaps : bool; l_gap_format : string; l_suspects : bool; l_suspect : string; l_follow : bool;
  l_backoff : Z; l_backoff_max : Z; l_time : string; l_zone : string; l_colorize : string; l_palette : list string;
  l_timeout : Z; l_keys : gmap string (list string) }.
Record Device := MkDevice { dv_serial : string; dv_mac : string; dv_channel : string; dv_label : string; dv_host : string }.
Record Config := MkConfig {
  Schema : Z; MetaName : string; reload : Reload; ui : UI; keys : OpsKeys.Keys; Theme : gmap string string; database : Database;
  ssh : SSH; poll : OpsHosts.Poll; tty_glob : string; run : Run; reconnect : Reconnect; hosts : list OpsHosts.Host; build : Build;
  flash : Flash; console : Console; ota : OTA; telemetry : Telemetry; logs : Logs; devices : list Device }.

(** ** The defaults (defaults.go) *)

Definition SchemaVersion : Z := 1.
Definition key_table (l : list (string * list string)) : gmap string (list string) := list_to_map l.
Definition default_build : Build := MkBuild
  "local" "." "firmware" "espressif/idf:v5.5.3" "docker" "esp32c3"
  ["bash"; "-lc"; "idf.py set-target {target} build"]
  ["run"; "--rm"; "--name"; "{name}"; "-v"; "{repo}/firmware:/project"; "-w"; "/project"]
  "picpak-ops-build-{runid}" "python3" "import PIL" "stat" "sha256sum" "screens-src/fonts"
  [MkStep "berry" ["bash"; "scripts/setup-berry.sh"] "firmware" "" "";
   MkStep "littlefs" ["bash"; "scripts/setup-littlefs.sh"] "firmware" "" "";
   MkStep "qrcodegen" ["bash"; "scripts/setup-qrcodegen.sh"] "firmware" "" ""]
  [MkStep "screens" ["python3"; "screens-src/gen_screens.py"] "firmware" "main/screens.h" "";
   MkStep "render" ["python3"; "host/gen_render.py"] "firmware" "main/render_script.h" "main/render.be";
   MkStep "font16" ["python3"; "host/gen_font16.py"] "firmware" "main/font16.h" "";
   MkStep "policy" ["python3"; "host/gen_policy.py"] "firmware" "main/policy_script.h" "main/policy.be"]
  ["berry"; "littlefs"; "qrcodegen"] "firmware/build"
  [MkArtifact "bootloader" "bootloader/bootloader.bin" "0x0" 16384 0;
   MkArtifact "partitions" "partition_table/partition-table.bin" "0x8000" 0 3072;
   MkArtifact "otadata" "ota_data_initial.bin" "0x10000" 0 8192;
   MkArtifact "app" "picpak_fw.bin" "0x20000" 1048576 0]
  "build/flasher_args.json" "build/picpak_fw.bin" 4194304 40 5000
  "BUILD GREEN — regression gate only. Not a correctness/display proof; verify on a device." 2000
  (MkBuildKeys "b" "x" "r").
Definition default_flash : Flash := MkFlash
  ["esptool"] "esp32c3" "default-reset" "hard-reset" "dio" "16MB" "80m" [] true "0x9000" true "scp" "" true 1 (5 * minute)
  false 1 40 (MkFlashKeys "f" "r" "x" "c").
Definition default_console : Console := MkConsole
  "ssh" ["-T"; "{host}"]
  "stty -F {port} {baud} raw -echo -ixon; trap 'kill $catpid 2>/dev/null' EXIT HUP INT TERM; cat {port} & catpid=$!; cat > {port}; kill $catpid 2>/dev/null"
  115200 false true 1500 5 5000 "crlf" false 2000 "=== PicPak Setup Console ===" true ""
  (MkConsoleKeys "enter" "up" "down" "pgup" "pgdown" "/" "ctrl+l" "ctrl+r" "ctrl+d" "f1").
Definition default_ota : OTA := MkOTA
  "" "" (10 * sec) false "" "firmware.bin" "" "firmware/build" "firmware/version.txt" "app" "stable" 0
  ["pinned-serial"; "serial"; "channel"; "default"] true (30 * sec)
  (key_table [("register", ["r"]); ("pin", ["p"]); ("unpin", ["u"]); ("set_channel", ["C"]); ("toggle_state", ["space"]);
              ("mark_done", ["D"]); ("refresh", ["R"]); ("switch_table", ["tab"])]%string).
Definition default_telemetry : Telemetry := MkTelemetry
  (72 * hour) (30 * sec) 500 (30 * sec) (5 * minute) (3 * hour) 500 1000 15 2 ["brownout"] [9] false true "relative" "V"
  ["batt_pct"; "uptime_ms"; "bad_boots"]
  (key_table [("refresh", ["R"]); ("select_next", ["j"]); ("select_prev", ["k"]); ("copy_serial", ["y"])]%string).
Definition default_logs : Logs := MkLogs
  "|" (3 * sec) 500 200 5000 50000 [] ["telemetry"; "ota-snapshot"] true "── boot {from} → {to} (gap) ──" true "⚠ suspect" true
  (10 * sec) (2 * minute) "15:04:05" "Local" "serial" ["39"; "208"; "120"; "213"; "227"; "117"; "210"; "156"] (5 * sec)
  (key_table [("follow", ["f"]); ("device_filter", ["d"]); ("source_cycle", ["s"]); ("clear_view", ["x"]); ("copy", ["y"]);
              ("jump_serial", ["g"]); ("reload", ["R"])]%string).
Definition default_keys : OpsKeys.Keys := OpsKeys.MkKeys
  ["ctrl+c"; "q"] ["?"] ["tab"; "ctrl+n"] ["shift+tab"; "ctrl+p"] "alt+" [] ["ctrl+w"] ["ctrl+s"].
Definition default_theme : gmap string string := list_to_map
  [("border", "240"); ("focus_border", "205"); ("tab_active", "205"); ("tab_inactive", "240"); ("status_active", "42");
   ("status_working", "214"); ("status_quiet", "244"); ("status_error", "196"); ("dirty", "214")]%string.
Definition defaults : Config := MkConfig
  SchemaVersion "" (MkReload true (500 * ms)) (MkUI "cell" true true (5 * sec) 5000 "top" true [] "default")
  default_keys default_theme (MkDatabase "" 4 (5 * sec) (15 * sec) true)
  (MkSSH "ssh" ["-o"; "BatchMode=yes"; "-o"; "ConnectTimeout=8"; "-o"; "ControlMaster=auto"; "-o"; "ControlPersist=120"]
     "~/.ssh/cm-picpak-%r@%h:%p" (8 * sec) 0)
  (OpsHosts.MkPoll (30 * sec) 4 ["ls"; "-l"; "/dev/serial/by-id/"] "usb-Espressif_USB_JTAG.*-if00"
     "([0-9A-Fa-f]{2}([:_-]?[0-9A-Fa-f]{2}){5})" "303a" "1001" ["udevadm"; "info"; "-q"; "property"; "-n"; "%TTY%"] true (5 * minute))
  "/dev/ttyACM*" (MkRun 5000 8192) (MkReconnect (1 * sec) (60 * sec) (Bwry.f64_of_Z 2) 3) []
  default_build default_flash default_console default_ota default_telemetry default_logs [].

(** ** The machine: environment and files *)

Record machine := MkMachine {
  getenv : string → string;          (* unset is empty *)
  read_file : string → option string; (* a regular file's content *)
  is_dir : string → bool;
  UserHomeDir : option string }.
(** The empty path names no file. *)
Definition fileExists (m : machine) (p : string) : bool :=
  negb (bool_decide (p = ""%string)) && bool_decide (is_Some (read_file m p)) && negb (is_dir m p).

(** [os.Expand] with the environment. *)
Definition is_special (c : Z) : bool :=
  bool_decide (c ∈ [42; 35; 36; 64; 33; 63; 45]) || ((48 <=? c) && (c <=? 57)).
Definition is_alnum (c : Z) : bool :=
  (c =? 95) || ((48 <=? c) && (c <=? 57)) || ((97 <=? c) && (c <=? 122)) || ((65 <=? c) && (c <=? 90)).
Fixpoint span (f : Z → bool) (s : bytes) : bytes := match s with c :: s => if f c then c :: span f s else [] | [] => [] end.
Fixpoint until_brace (s : bytes) : option bytes :=
  match s with [] => None | c :: s => if c =? 125 then Some [] else cons c <$> until_brace s end.
(** The name after a dollar sign and how many bytes it takes. Between braces any
    bytes are a name, so the special names need no case of their own there. *)
Definition getShellName (s : bytes) : bytes * nat :=
  match s with
  | 123 :: 125 :: _ => ([], 2%nat)
  | 123 :: s' => match until_brace s' with
                 | Some [] => ([], 2%nat)
                 | Some n => (n, S (S (length n)))
                 | None => ([], 1%nat)
                 end
  | c :: _ => if is_special c then ([c], 1%nat) else let n := span is_alnum s in (n, length n)
  | [] => ([], 0%nat)
  end.
Fixpoint expand_go (env : string → string) (skip : nat) (s : bytes) : bytes :=
  match s with
  | [] => []
  | c :: s' =>
      match skip with
      | S k => expand_go env k s'
      | O =>
          if (c =? 36) && negb (bool_decide (s' = [])) then
            let '(name, w) := getShellName s' in
            (match name, w with
             | [], O => [36]
             | [], _ => []
             | _, _ => bytes_of_string (env (string_of_bytes name))
             end) ++ expand_go env w s'
          else c :: expand_go env 0 s'
      end
  end.
Definition ExpandEnv (m : machine) (s : string) : string := string_of_bytes (expand_go (getenv m) 0 (bytes_of_string s)).

(** ** Finding the file and resolving secrets (resolve.go) *)

(** What [validate] can find wrong; indices count from 0. *)
Inductive problem :=
| BadSchema (n : Z) | NoHostName (i : Z) | DupHost (i : Z) (name : string)
| NoSerial (i : Z) | DupSerial (i : Z) (s : string) | BadSerial (i : Z) (s : string)
| BadOffset (i : Z) (name off : string) | BadNVS (off : string) | NotOneOf (field v : string)
| BadPane (i : Z) (kind : string) | AbsLogDir (dir : string) | BadKeys (e : OpsKeys.keyErr)
| EraseAllowed | InNVS (i : Z) (name off : string) | BadVID (v : string) | BadPID (v : string)
| DirectReadOnly | DirectNoDSN | UnknownHost (i : Z) (host : string).

Inductive cfgErr :=
| NoHome | NoConfig | MissingFile (path from : string) | NoName (field : string) | EmptyEnv (field name : string)
| NoPath (field : string) | Unreadable (field path : string) | EmptyFile (field path : string)
| DecodeErr (path e : string) | UnknownKeys (path : string) (l : list string) | Invalid (errs : list problem).

Definition HasPrefix (p s : string) : bool := has_prefix (bytes_of_string p) (bytes_of_string s).
Definition TrimPrefix (p s : string) : string :=
  if HasPrefix p s then string_of_bytes (drop (String.length p) (bytes_of_string s)) else s.
Definition expandPath (m : machine) (p : string) : result cfgErr string :=
  if bool_decide (p = ""%string) then Ok ""%string
  else if HasPrefix "~/" p || bool_decide (p = "~"%string) then
    match UserHomeDir m with
    | None => Err NoHome
    | Some home =>
        if bool_decide (p = "~"%string) then Ok home
        else Ok (ExpandEnv m (Join home (string_of_bytes (drop 2 (bytes_of_string p)))))
    end
  else Ok (ExpandEnv m p).

Record Opts := MkOpts {
  Path : string; RequireFile : bool; AllowCWDFile : bool; Overrides : list (option (Config → Config));
  Getenv : option (string → string) }.
Definition opt_getenv (m : machine) (o : Opts) : string → string := default (getenv m) (Getenv o).
Definition from_flag (m : machine) (p from : string) : result cfgErr string :=
  match expandPath m p with
  | Err e => Err e
  | Ok q => if fileExists m q then Ok q else Err (MissingFile p from)
  end.
Definition xdgConfigPath (m : machine) (o : Opts) : string :=
  let base := opt_getenv m o "XDG_CONFIG_HOME"%string in
  if bool_decide (base ≠ ""%string) then Join base "picpak-ops/config.toml"
  else
    let home := opt_getenv m o "HOME"%string in
    let home := if bool_decide (home = ""%string) then default ""%string (UserHomeDir m) else home in
    if bool_decide (home = ""%string) then ""%string else Join home ".config/picpak-ops/config.toml".
Definition resolvePath (m : machine) (o : Opts) : result cfgErr string :=
  if bool_decide (Path o ≠ ""%string) then from_flag m (Path o) "--config"
  else
    let env := opt_getenv m o "PICPAK_OPS_CONFIG"%string in
    if bool_decide (env ≠ ""%string) then from_flag m env "$PICPAK_OPS_CONFIG"
    else
      let xdg := xdgConfigPath m o in
      if bool_decide (xdg ≠ ""%string) && fileExists m xdg then Ok xdg
      else if AllowCWDFile o && fileExists m "picpak-ops.toml" then Ok "picpak-ops.toml"%string
      else Err NoConfig.

Definition resolveSecret (m : machine) (env : string → string) (field raw : string) : result cfgErr string :=
  if HasPrefix "$ENV:" raw then
    let name := TrimPrefix "$ENV:" raw in
    if bool_decide (name = ""%string) then Err (NoName field)
    else let v := env name in if bool_decide (v = ""%string) then Err (EmptyEnv field name) else Ok v
  else if HasPrefix "$FILE:" raw then
    let path := TrimPrefix "$FILE:" raw in
    if bool_decide (path = ""%string) then Err (NoPath field)
    else match expandPath m path with
         | Err e => Err e
         | Ok ep =>
             match (if is_dir m ep then None else read_file m ep) with
             | None => Err (Unreadable field path)
             | Some b => let v := TrimSpace b in if bool_decide (v = ""%string) then Err (EmptyFile field path) else Ok v
             end
         end
  else Ok raw.

(** ** Layers (env.go, load.go) *)

Definition set_dsn (v : string) (c : Config) : Config :=
  MkConfig (Schema c) (MetaName c) (reload c) (ui c) (keys c) (Theme c)
    (MkDatabase v (db_max_conns (database c)) (db_connect (database c)) (db_statement (database c)) (db_read_only (database c)))
    (ssh c) (poll c) (tty_glob c) (run c) (reconnect c) (hosts c) (build c) (flash c) (console c) (ota c) (telemetry c) (logs c) (devices c).
Definition set_ota (f : OTA → OTA) (c : Config) : Config :=
  MkConfig (Schema c) (MetaName c) (reload c) (ui c) (keys c) (Theme c) (database c)
    (ssh c) (poll c) (tty_glob c) (run c) (reconnect c) (hosts c) (build c) (flash c) (console c) (f (ota c)) (telemetry c) (logs c) (devices c).
Definition with_url (v : string) (o : OTA) : OTA :=
  MkOTA v (o_token o) (o_timeout o) (o_direct o) (o_blob_dir o) (o_blob_file o) (o_serve o) (o_build_dir o) (o_version_file o)
    (o_artifact o) (o_channel o) (o_tries o) (o_precedence o) (o_behind o) (o_refresh o) (o_keys o).
Definition with_token (v : string) (o : OTA) : OTA :=
  MkOTA (o_url o) v (o_timeout o) (o_direct o) (o_blob_dir o) (o_blob_file o) (o_serve o) (o_build_dir o) (o_version_file o)
    (o_artifact o) (o_channel o) (o_tries o) (o_precedence o) (o_behind o) (o_refresh o) (o_keys o).
Definition envOverrides : list (string * (string → Config → Config)) :=
  [("PICPAK_OPS_DB_DSN", set_dsn); ("PICPAK_OPS_ADMIN_URL", λ v, set_ota (with_url v));
   ("PICPAK_OPS_ADMIN_TOKEN", λ v, set_ota (with_token v))]%string.
Definition applyEnv (env : string → string) (c : Config) : Config :=
  foldl (λ c '(name, apply), if bool_decide (env name ≠ ""%string) then apply (env name) c else c) c envOverrides.
Definition resolveSecrets (m : machine) (env : string → string) (c : Config) : result cfgErr Config :=
  match resolveSecret m env "database.dsn" (db_dsn (database c)) with
  | Err e => Err e
  | Ok v =>
      let c := set_dsn v c in
      match resolveSecret m env "ota.admin_api_token" (o_token (ota c)) with
      | Err e => Err e
      | Ok v => Ok (set_ota (with_token v) c)
      end
  end.

(** ** Validation (validate.go) *)

Definition oneOf (v : string) (allowed : list string) : bool := bool_decide (v ∈ allowed).
Definition is_hex_lower (c : Z) : bool := is_digit c || ((97 <=? c) && (c <=? 102)).
Definition is_serial_char (c : Z) : bool := is_digit c || ((97 <=? c) && (c <=? 122)) || ((65 <=? c) && (c <=? 90)).
(** The two patterns: four lower hex digits, eight letters or digits. *)
Definition hex4Re (s : string) : bool := (String.length s =? 4)%nat && forallb is_hex_lower (bytes_of_string s).
Definition serialRe (s : string) : bool := (String.length s =? 8)%nat && forallb is_serial_char (bytes_of_string s).
Definition parseOffset (s : string) : option Z :=
  let s := TrimSpace s in if bool_decide (s = ""%string) then None else ParseUint0 s.
Definition knownPaneKind (k : string) : bool :=
  bool_decide (k ∈ ["launcher"; "hosts"; "build"; "console"; "flash"; "ota"; "telemetry"; "logs"]%string).

Definition add_if (b : bool) (p : problem) : list problem := if b then [p] else [].
Fixpoint host_problems (i : Z) (names : gset string) (l : list OpsHosts.Host) : list problem :=
  match l with
  | [] => []
  | h :: l =>
      let n := OpsHosts.h_name h in
      if bool_decide (n = ""%string) then NoHostName i :: host_problems (i + 1) names l
      else add_if (bool_decide (n ∈ names)) (DupHost i n) ++ host_problems (i + 1) ({[n]} ∪ names) l
  end.
Fixpoint device_problems (i : Z) (serials : gset string) (l : list Device) : list problem :=
  match l with
  | [] => []
  | d :: l =>
      let s := dv_serial d in
      if bool_decide (s = ""%string) then NoSerial i :: device_problems (i + 1) serials l
      else add_if (bool_decide (s ∈ serials)) (DupSerial i s) ++ add_if (negb (serialRe s)) (BadSerial i s) ++
           device_problems (i + 1) ({[s]} ∪ serials) l
  end.
(** A check of every element of a list, with its index. *)
Fixpoint each {A} (f : Z → A → list problem) (i : Z) (l : list A) : list problem :=
  match l with [] => [] | x :: l => f i x ++ each f (i + 1) l end.
Definition enum_fields (c : Config) : list (string * string * list string) :=
  [("ui.mouse", ui_mouse (ui c), ["none"; "cell"; "all"]); ("ui.tab_bar", ui_tab_bar (ui c), ["top"; "bottom"; "off"]);
   ("flash.stage_mode", f_stage_mode (flash c), ["scp"; "build_on_host"; "local"]);
   ("console.line_endings", c_endings (console c), ["lf"; "cr"; "crlf"]);
   ("logs.colorize_by", l_colorize (logs c), ["serial"; "source"; "none"]);
   ("telemetry.age_format", t_age (telemetry c), ["relative"; "absolute"]);
   ("telemetry.batt_unit", t_unit (telemetry c), ["V"; "mV"])]%string.
Definition validateStructural (c : Config) : list problem :=
  add_if (negb (Schema c =? 0) && negb (Schema c =? SchemaVersion)) (BadSchema (Schema c)) ++
  host_problems 0 ∅ (hosts c) ++
  device_problems 0 ∅ (devices c) ++
  each (λ i a, add_if (bool_decide (parseOffset (ar_offset a) = None)) (BadOffset i (ar_name a) (ar_offset a)))
    0 (b_artifacts (build c)) ++
  add_if (bool_decide (parseOffset (f_nvs (flash c)) = None)) (BadNVS (f_nvs (flash c))) ++
  each (λ _ '(field, v, allowed), add_if (negb (oneOf v allowed)) (NotOneOf field v)) 0 (enum_fields c) ++
  each (λ i sp, add_if (negb (knownPaneKind (OpsShell.s_kind sp))) (BadPane i (OpsShell.s_kind sp))) 0 (ui_startup (ui c)) ++
  add_if (HasPrefix "/" (c_log_dir (console c))) (AbsLogDir (c_log_dir (console c))).

Definition nvsLen : Z := 24576.
Definition nvs_problems (nvs : string) (arts : list BuildArtifact) : list problem :=
  match parseOffset nvs with
  | None => []
  | Some start =>
      let nvsEnd := u64 (start + nvsLen) in
      each (λ i a, match parseOffset (ar_offset a) with
                   | None => []
                   | Some off => add_if ((start <=? off) && (off <? nvsEnd)) (InNVS i (ar_name a) (ar_offset a))
                   end) 0 arts
  end.
Definition host_names (c : Config) : list string := filter (λ n, n ≠ ""%string) (OpsHosts.h_name <$> hosts c).
Definition validateCrossField (c : Config) : list problem :=
  add_if (negb (f_forbid_erase (flash c))) EraseAllowed ++
  nvs_problems (f_nvs (flash c)) (b_artifacts (build c)) ++
  add_if (negb (hex4Re (OpsHosts.VendorID (poll c)))) (BadVID (OpsHosts.VendorID (poll c))) ++
  add_if (negb (hex4Re (OpsHosts.ProductID (poll c)))) (BadPID (OpsHosts.ProductID (poll c))) ++
  (if o_direct (ota c) then
     add_if (db_read_only (database c)) DirectReadOnly ++
     add_if (bool_decide (TrimSpace (db_dsn (database c)) = ""%string)) DirectNoDSN
   else []) ++
  each (λ i d, add_if (negb (bool_decide (dv_host d = ""%string)) && negb (bool_decide (dv_host d ∈ host_names c)))
                 (UnknownHost i (dv_host d))) 0 (devices c).
Definition validate (c : Config) : list problem :=
  validateStructural c ++
  (BadKeys <$> OpsKeys.validateKeymap (keys c) (o_keys (ota c)) (t_keys (telemetry c)) (l_keys (logs c))) ++
  validateCrossField c.

(** ** The lookup tables (lookup.go); a pointer into a slice is its index *)

Record indexes := MkIndexes {
  hostByName : gmap string nat; deviceBySerial : gmap string nat; devicesByHost : gmap string (list nat) }.
Fixpoint index_hosts (i : nat) (l : list OpsHosts.Host) (m : gmap string nat) : gmap string nat :=
  match l with
  | [] => m
  | h :: l => index_hosts (S i) l (if bool_decide (OpsHosts.h_name h = ""%string) then m else <[OpsHosts.h_name h := i]> m)
  end.
Definition index_device (i : nat) (d : Device) (ix : indexes) : indexes :=
  MkIndexes (hostByName ix)
    (if bool_decide (dv_serial d = ""%string) then deviceBySerial ix else <[dv_serial d := i]> (deviceBySerial ix))
    (if bool_decide (dv_host d = ""%string) then devicesByHost ix
     else <[dv_host d := default [] (devicesByHost ix !! dv_host d) ++ [i]]> (devicesByHost ix)).
Fixpoint index_devices (i : nat) (l : list Device) (ix : indexes) : indexes :=
  match l with [] => ix | d :: l => index_devices (S i) l (index_device i d ix) end.
Definition buildIndexes (c : Config) : indexes :=
  index_devices 0 (devices c) (MkIndexes (index_hosts 0 (hosts c) ∅) ∅ ∅).
Definition HostByName (c : Config) (ix : indexes) (n : string) : option OpsHosts.Host := i ← hostByName ix !! n; hosts c !! i.
Definition DeviceBySerial (c : Config) (ix : indexes) (s : string) : option Device := i ← deviceBySerial ix !! s; devices c !! i.
Definition DevicesByHost (c : Config) (ix : indexes) (h : string) : list Device :=
  omap (λ i, devices c !! i) (default [] (devicesByHost ix !! h)).

(** ** Loading (load.go) *)

(** [toml.DecodeFile] over the values already there: the config and the keys it
    did not use, or its error. *)
Class Toml := Decode : string → Config → result string (Config * list string).

Record Loaded := MkLoaded { l_config : Config; l_idx : indexes; l_path : string }.
Section load.
Context `{Toml}.
Definition decodeStrict (m : machine) (path : string) (c : Config) : result cfgErr Config :=
  match read_file m path with
  | None => Err (DecodeErr path "open")
  | Some text =>
      match Decode text c with
      | Err e => Err (DecodeErr path e)
      | Ok (c, []) => Ok c
      | Ok (_, undec) => Err (UnknownKeys path (merge_sort String.le undec))
      end
  end.
Definition find_config (m : machine) (o : Opts) : result cfgErr string :=
  match resolvePath m o with
  | Err NoConfig => if RequireFile o then Err NoConfig else Ok ""%string
  | r => r
  end.
Definition apply_overrides (l : list (option (Config → Config))) (c : Config) : Config :=
  foldl (λ c ov, match ov with Some f => f c | None => c end) c l.
Definition LoadWithPath (m : machine) (o : Opts) : result cfgErr Loaded :=
  match find_config m o with
  | Err e => Err e
  | Ok path =>
      match (if bool_decide (path = ""%string) then Ok defaults else decodeStrict m path defaults) with
      | Err e => Err e
      | Ok c =>
          let c := apply_overrides (Overrides o) (applyEnv (opt_getenv m o) c) in
          match resolveSecrets m (opt_getenv m o) c with
          | Err e => Err e
          | Ok c => match validate c with
                    | [] => Ok (MkLoaded c (buildIndexes c) path)
                    | errs => Err (Invalid errs)
                    end
          end
      end
  end.
Definition Load (m : machine) (o : Opts) : result cfgErr Config :=
  match LoadWithPath m o with Ok l => Ok (l_config l) | Err e => Err e end.
End load.

(** ** Redaction (redact.go) *)

Definition fnv32a (b : bytes) : Z := foldl (λ h c, (Z.lxor h c * 16777619) mod 2 ^ 32) 2166136261 b.
Definition hex8 (n : Z) : string := string_of_bytes (hex_encode (put_u32be n)).
Definition RedactSecret (keyName : string) : string := ("«secret:" ++ keyName ++ "»")%string.
Definition RedactHost (keyName value : string) : string :=
  if bool_decide (value = ""%string) then ("«" ++ keyName ++ ":unset»")%string
  else ("«" ++ keyName ++ "#" ++ hex8 (fnv32a (bytes_of_string value)) ++ "»")%string.
Definition RedactedDSN : string := RedactSecret "database.dsn".
Definition RedactedAdminToken : string := RedactSecret "ota.admin_api_token".
Definition RedactedAdminURL (c : Config) : string := RedactHost "ota.admin_api_url" (o_url (ota c)).
Definition RedactedHost (h : OpsHosts.Host) : string := RedactHost "hosts.ssh_target" (OpsHosts.SSHTarget h).
Definition RedactedDeviceMAC (mac : string) : string := RedactHost "devices.mac" mac.
Definition bool_text (b : bool) : string := if b then "true"%string else "false"%string.
Definition summary (c : Config) : string :=
  ("config{schema:" ++ format_int (Schema c) ++ " hosts:" ++ format_int (zlen (hosts c)) ++
   " devices:" ++ format_int (zlen (devices c)) ++ " database.dsn:" ++ RedactedDSN ++
   " ota.admin_api_url:" ++ RedactedAdminURL c ++ " ota.admin_api_token:" ++ RedactedAdminToken ++
   " db.read_only:" ++ bool_text (db_read_only (database c)) ++
   " ota.allow_direct_write:" ++ bool_text (o_direct (ota c)) ++ "}")%string.

(** ** The watcher (watch.go) *)

Inductive op := OpCreate | OpWrite | OpRemove | OpRename | OpChmod.
#[global] Instance op_eq_dec : EqDecision op.
Proof. solve_decision. Defined.
(** What a watch goroutine sees: an event of the directory, an error of the
    notifier, its debounce timer; a load is done against the machine of the moment. *)
Inductive watch_event := Ev (name : string) (ops : list op) | WErr (e : string) | Fire (m : machine).
Inductive ReloadMsg := Reloaded (c : Config) | ReloadFailed (e : cfgErr) | WatchFailed (e : string).
Definition debounceOr (configured fallback : Z) : Z := if 0 <? configured then configured else fallback.
Definition relevant (target name : string) (ops : list op) : bool :=
  bool_decide (string_of_bytes (clean (bytes_of_string name)) = target) &&
  existsb (λ o, bool_decide (o ∈ [OpWrite; OpCreate; OpRename; OpRemove])) ops.
(** The options of a reload pin the file that was loaded. *)
Definition pin (path : string) (o : Opts) : Opts := MkOpts path (RequireFile o) (AllowCWDFile o) (Overrides o) (Getenv o).
Section watch.
Context `{Toml} (path : string) (o : Opts).
(** One turn of the goroutine: whether the timer runs, what is emitted. *)
Definition watch_step (armed : bool) (e : watch_event) : bool * list ReloadMsg :=
  match e with
  | Ev name ops => (armed || relevant (string_of_bytes (clean (bytes_of_string path))) name ops, [])
  | WErr e => (armed, [WatchFailed e])
  | Fire m =>
      if armed then (false, [match Load m (pin path o) with Ok c => Reloaded c | Err e => ReloadFailed e end])
      else (false, [])
  end.
Fixpoint watch (armed : bool) (l : list watch_event) : list ReloadMsg :=
  match l with
  | [] => []
  | e :: l => let '(a, out) := watch_step armed e in out ++ watch a l
  end.

(** The shell asks for a new watch with every message it takes, and the goroutine
    before stays: each has a channel of one message, and the shell reads the
    newest only. *)
Record watcher := MkWatcher { w_armed : bool; w_out : option ReloadMsg; w_blocked : option ReloadMsg }.
Definition fresh_watcher : watcher := MkWatcher false None None.
Definition watcher_step (e : watch_event) (w : watcher) : watcher :=
  match w_blocked w with
  | Some _ => w
  | None =>
      let '(a, out) := watch_step (w_armed w) e in
      match out, w_out w with
      | msg :: _, None => MkWatcher a (Some msg) None
      | msg :: _, Some old => MkWatcher a (Some old) (Some msg)
      | [], _ => MkWatcher a (w_out w) None
      end
  end.
Inductive world_event := Tell (i : nat) (e : watch_event) | Take.
Record watch_world := MkWorld { goroutines : list watcher; taken : list ReloadMsg }.
Definition take_msg (w : watch_world) : watch_world :=
  match last (goroutines w) with
  | Some (MkWatcher a (Some msg) b) =>
      let i := pred (length (goroutines w)) in
      MkWorld (<[i := MkWatcher a b None]> (goroutines w) ++ [fresh_watcher]) (taken w ++ [msg])
  | _ => w
  end.
Definition world_step (w : watch_world) (e : world_event) : watch_world :=
  match e with
  | Tell i ev => MkWorld (alter (watcher_step ev) i (goroutines w)) (taken w)
  | Take => take_msg w
  end.
Definition watching (l : list world_event) : watch_world := foldl world_step (MkWorld [fresh_watcher] []) l.
End watch.

End OpsConfig.
