(* ===== verification/OpsConfigLaws.v ===== *)
(** * Laws of the configuration

    What a configuration that loaded is known to satisfy, what its layers and its
    secrets resolve to, the lookup tables, redaction, and what the watcher reloads. *)

From S2P Require Import Prelude GoLib GoText OpsKeys OpsHosts OpsShell FlashLaws CredentialLaws OpsConfig.
Import GoLib GoText OpsConfig.

Module OpsConfigLaws.
#[local] Abbreviation Ok := Prelude.Ok.
#[local] Abbreviation Err := Prelude.Err.

(** ** Problem lists *)

Lemma add_if_nil b p : add_if b p = [] ↔ b = false.
Proof. by destruct b. Qed.
Lemma add_if_neg b p : add_if (negb b) p = [] ↔ b = true.
Proof. by destruct b. Qed.
Lemma each_nil {A} (f : Z → A → list problem) (P : A → Prop) i l :
  (∀ i x, f i x = [] ↔ P x) → each f i l = [] ↔ Forall P l.
Proof.
  intros Hf. revert i. induction l as [|x l IH]; intros i; cbn [each].
  - split; [constructor|done].
  - by rewrite app_nil, Hf, IH, Forall_cons.
Qed.

Lemma host_problems_nil i names l : host_problems i names l = [] ↔
  Forall (λ n, n ≠ ""%string ∧ n ∉ names) (OpsHosts.h_name <$> l) ∧ NoDup (OpsHosts.h_name <$> l).
Proof.
  revert i names. induction l as [|h l IH]; intros i names; cbn [host_problems fmap list_fmap].
  { split; [split; constructor|done]. }
  case_bool_decide as E; rewrite Forall_cons.
  { split; [done|]. by intros [[[? _] _] _]. }
  rewrite app_nil, add_if_nil, bool_decide_eq_false, IH, NoDup_cons, !Forall_forall. set_solver.
Qed.

Definition device_ok (d : Device) : Prop := dv_serial d ≠ ""%string ∧ serialRe (dv_serial d) = true.
Lemma device_problems_nil i serials l : device_problems i serials l = [] ↔
  Forall device_ok l ∧ Forall (.∉ serials) (dv_serial <$> l) ∧ NoDup (dv_serial <$> l).
Proof.
  revert i serials. induction l as [|d l IH]; intros i serials; cbn [device_problems fmap list_fmap].
  { split; [intros _; repeat constructor|done]. }
  unfold device_ok at 1. case_bool_decide as E; rewrite !Forall_cons.
  { split; [done|]. by intros [[[? _] _] _]. }
  rewrite !app_nil, add_if_nil, add_if_neg, bool_decide_eq_false, IH, NoDup_cons, !Forall_forall. set_solver.
Qed.

(** ** What validation establishes *)

Definition in_nvs (nvs : string) (a : BuildArtifact) : Prop :=
  ∃ start off, parseOffset nvs = Some start ∧ parseOffset (ar_offset a) = Some off ∧ start ≤ off < u64 (start + nvsLen).
Record well_formed (c : Config) : Prop := {
  wf_schema : Schema c = 0 ∨ Schema c = 1;
  wf_hosts : NoDup (OpsHosts.h_name <$> hosts c) ∧ ""%string ∉ OpsHosts.h_name <$> hosts c;
  wf_devices : NoDup (dv_serial <$> devices c) ∧ Forall device_ok (devices c);
  wf_tethered : Forall (λ d, dv_host d = ""%string ∨ dv_host d ∈ OpsHosts.h_name <$> hosts c) (devices c);
  wf_offsets : is_Some (parseOffset (f_nvs (flash c))) ∧ Forall (λ a, is_Some (parseOffset (ar_offset a))) (b_artifacts (build c));
  wf_nvs : Forall (λ a, ¬ in_nvs (f_nvs (flash c)) a) (b_artifacts (build c));
  wf_erase : f_forbid_erase (flash c) = true;
  wf_ids : hex4Re (OpsHosts.VendorID (poll c)) = true ∧ hex4Re (OpsHosts.ProductID (poll c)) = true;
  wf_direct : o_direct (ota c) = true → db_read_only (database c) = false ∧ TrimSpace (db_dsn (database c)) ≠ ""%string;
  wf_enums : Forall (λ e, e.1.2 ∈ e.2) (enum_fields c);
  wf_panes : Forall (λ sp, knownPaneKind (OpsShell.s_kind sp) = true) (ui_startup (ui c));
  wf_log_dir : HasPrefix "/" (c_log_dir (console c)) = false;
  wf_keys : OpsKeys.validateKeymap (keys c) (o_keys (ota c)) (t_keys (telemetry c)) (l_keys (logs c)) = [] }.

Lemma nvs_problems_nil nvs arts : nvs_problems nvs arts = [] ↔ Forall (λ a, ¬ in_nvs nvs a) arts.
Proof.
  unfold nvs_problems, in_nvs. destruct (parseOffset nvs) as [start|].
  - apply each_nil. intros i a. destruct (parseOffset (ar_offset a)) as [off|].
    + rewrite add_if_nil. split.
      * intros E (? & ? & [= <-] & [= <-] & ?). lia.
      * intros H. destruct ((start <=? off) && (off <? u64 (start + nvsLen))) eqn:E; [|done].
        destruct H. exists start, off. split_and!; [done..|lia|lia].
    + split; [|done]. by intros _ (? & ? & _ & ? & _).
  - split; [|done]. intros _. apply Forall_forall. by intros a _ (? & ? & ? & _).
Qed.
Lemma parse_some o : add_if (bool_decide (parseOffset o = None)) (BadNVS o) = [] ↔ is_Some (parseOffset o).
Proof. rewrite add_if_nil, bool_decide_eq_false. apply not_eq_None_Some. Qed.

Lemma host_names_spec c n : n ≠ ""%string → n ∈ host_names c ↔ n ∈ OpsHosts.h_name <$> hosts c.
Proof. intros Hn. unfold host_names. rewrite list_elem_of_filter. tauto. Qed.

Lemma tethered_nil c : each (λ i d, add_if (negb (bool_decide (dv_host d = ""%string)) && negb (bool_decide (dv_host d ∈ host_names c)))
    (UnknownHost i (dv_host d))) 0 (devices c) = [] ↔
  Forall (λ d, dv_host d = ""%string ∨ dv_host d ∈ OpsHosts.h_name <$> hosts c) (devices c).
Proof.
  apply each_nil. intros i d. rewrite add_if_nil. case_bool_decide as E; [simpl; tauto|].
  rewrite <- (host_names_spec c (dv_host d)) by done. case_bool_decide; simpl; naive_solver.
Qed.

Lemma structural_nil c : validateStructural c = [] ↔
  (Schema c = 0 ∨ Schema c = 1) ∧
  (NoDup (OpsHosts.h_name <$> hosts c) ∧ ""%string ∉ OpsHosts.h_name <$> hosts c) ∧
  (NoDup (dv_serial <$> devices c) ∧ Forall device_ok (devices c)) ∧
  (is_Some (parseOffset (f_nvs (flash c))) ∧ Forall (λ a, is_Some (parseOffset (ar_offset a))) (b_artifacts (build c))) ∧
  Forall (λ e, e.1.2 ∈ e.2) (enum_fields c) ∧
  Forall (λ sp, knownPaneKind (OpsShell.s_kind sp) = true) (ui_startup (ui c)) ∧
  HasPrefix "/" (c_log_dir (console c)) = false.
Proof.
  unfold validateStructural.
  rewrite !app_nil, add_if_nil, host_problems_nil, device_problems_nil, parse_some, add_if_nil.
  rewrite (each_nil _ (λ a, is_Some (parseOffset (ar_offset a))) 0 (b_artifacts (build c)))
    by (intros; rewrite add_if_nil, bool_decide_eq_false; apply not_eq_None_Some).
  rewrite (each_nil _ (λ e : string * string * list string, e.1.2 ∈ e.2) 0 (enum_fields c))
    by (intros ? [[? ?] ?]; rewrite add_if_neg; apply bool_decide_eq_true).
  rewrite (each_nil _ (λ sp, knownPaneKind (OpsShell.s_kind sp) = true) 0 (ui_startup (ui c)))
    by (intros; apply add_if_neg).
  assert (Hs : negb (Schema c =? 0) && negb (Schema c =? SchemaVersion) = false ↔ Schema c = 0 ∨ Schema c = 1)
    by (unfold SchemaVersion; lia).
  assert (Hh : Forall (λ n, n ≠ ""%string ∧ n ∉ (∅ : gset string)) (OpsHosts.h_name <$> hosts c) ↔
               ""%string ∉ OpsHosts.h_name <$> hosts c).
  { rewrite Forall_forall. split; [by intros H E; destruct (H _ E)|]. intros H n Hn. split; [by intros ->|set_solver]. }
  assert (Hd : Forall (.∉ (∅ : gset string)) (dv_serial <$> devices c)) by (apply Forall_forall; set_solver).
  rewrite Hs, Hh. tauto.
Qed.

Lemma cross_nil c : validateCrossField c = [] ↔
  f_forbid_erase (flash c) = true ∧ Forall (λ a, ¬ in_nvs (f_nvs (flash c)) a) (b_artifacts (build c)) ∧
  (hex4Re (OpsHosts.VendorID (poll c)) = true ∧ hex4Re (OpsHosts.ProductID (poll c)) = true) ∧
  (o_direct (ota c) = true → db_read_only (database c) = false ∧ TrimSpace (db_dsn (database c)) ≠ ""%string) ∧
  Forall (λ d, dv_host d = ""%string ∨ dv_host d ∈ OpsHosts.h_name <$> hosts c) (devices c).
Proof.
  unfold validateCrossField. rewrite !app_nil, !add_if_neg, nvs_problems_nil, tethered_nil.
  assert (Hd : (if o_direct (ota c) then add_if (db_read_only (database c)) DirectReadOnly ++
       add_if (bool_decide (TrimSpace (db_dsn (database c)) = ""%string)) DirectNoDSN else []) = [] ↔
     (o_direct (ota c) = true → db_read_only (database c) = false ∧ TrimSpace (db_dsn (database c)) ≠ ""%string)).
  { destruct (o_direct (ota c)); [|naive_solver].
    rewrite app_nil, !add_if_nil, bool_decide_eq_false. tauto. }
  rewrite Hd. tauto.
Qed.

Lemma validate_nil c : validate c = [] ↔ well_formed c.
Proof.
  unfold validate. rewrite !app_nil, structural_nil, cross_nil.
  assert (∀ l, BadKeys <$> l = [] ↔ l = []) as -> by (intros []; split; done). split.
  - intros (? & ? & ?). constructor; tauto.
  - intros []. tauto.
Qed.

(** ** The lookup tables *)

Lemma index_hosts_lookup i l m n k : NoDup (OpsHosts.h_name <$> l) → ""%string ∉ OpsHosts.h_name <$> l →
  index_hosts i l m !! n = Some k ↔
  (∃ j h, l !! j = Some h ∧ OpsHosts.h_name h = n ∧ k = (i + j)%nat) ∨ (n ∉ OpsHosts.h_name <$> l) ∧ m !! n = Some k.
Proof.
  revert i m. induction l as [|h l IH]; intros i m; cbn [index_hosts fmap list_fmap].
  { intros _ _. split; [intros; right; split; [set_solver|done]|]. by intros [(? & ? & ? & _)|[_ ?]]. }
  rewrite NoDup_cons, not_elem_of_cons. intros [Hh Hnd] [Hne Hn]. rewrite bool_decide_eq_false_2 by congruence.
  rewrite IH by done. split.
  - intros [(j & h' & Hj & Hn' & ->)|[Hnl Hk]]; [left; exists (S j), h'; split_and!; [done..|lia]|].
    destruct (decide (n = OpsHosts.h_name h)) as [->|Hd].
    + rewrite lookup_insert_eq in Hk. left. exists 0%nat, h. split_and!; [done..|]. injection Hk. lia.
    + rewrite lookup_insert_ne in Hk by done. right. rewrite not_elem_of_cons. tauto.
  - intros [([|j] & h' & Hj & Hn' & ->)|[[? ?]%not_elem_of_cons Hk]].
    + injection Hj as <-. right. rewrite <- Hn', lookup_insert_eq. split; [done|]. f_equal. lia.
    + left. exists j, h'. split_and!; [done..|lia].
    + right. by rewrite lookup_insert_ne by done.
Qed.

Lemma index_devices_names i l ix : hostByName (index_devices i l ix) = hostByName ix.
Proof. revert i ix. induction l as [|d l IH]; intros i ix; [done|]. cbn [index_devices]. by rewrite IH. Qed.
Lemma index_devices_serial i l ix s k : NoDup (dv_serial <$> l) → Forall device_ok l →
  deviceBySerial (index_devices i l ix) !! s = Some k ↔
  (∃ j d, l !! j = Some d ∧ dv_serial d = s ∧ k = (i + j)%nat) ∨ (s ∉ dv_serial <$> l) ∧ deviceBySerial ix !! s = Some k.
Proof.
  revert i ix. induction l as [|d l IH]; intros i ix; cbn [index_devices fmap list_fmap].
  { intros _ _. split; [intros; right; split; [set_solver|done]|]. by intros [(? & ? & ? & _)|[_ ?]]. }
  rewrite NoDup_cons, Forall_cons. intros [Hh Hnd] [[Hne _] Hok]. rewrite IH by done.
  unfold index_device. cbn [deviceBySerial]. rewrite bool_decide_eq_false_2 by done. split.
  - intros [(j & h' & Hj & Hn' & ->)|[Hnl Hk]]; [left; exists (S j), h'; split_and!; [done..|lia]|].
    destruct (decide (s = dv_serial d)) as [->|Hd].
    + rewrite lookup_insert_eq in Hk. left. exists 0%nat, d. split_and!; [done..|]. injection Hk. lia.
    + rewrite lookup_insert_ne in Hk by done. right. rewrite not_elem_of_cons. tauto.
  - intros [([|j] & h' & Hj & Hn' & ->)|[[? ?]%not_elem_of_cons Hk]].
    + injection Hj as <-. right. rewrite <- Hn', lookup_insert_eq. split; [done|]. f_equal. lia.
    + left. exists j, h'. split_and!; [done..|lia].
    + right. by rewrite lookup_insert_ne by done.
Qed.

(** The devices of a host, as the index lists them. *)
Lemma index_devices_by_host pre l ix h : h ≠ ""%string →
  omap (λ i, (pre ++ l) !! i) (default [] (devicesByHost (index_devices (length pre) l ix) !! h)) =
  omap (λ i, (pre ++ l) !! i) (default [] (devicesByHost ix !! h)) ++ filter (λ d, dv_host d = h) l.
Proof.
  intros Hh. revert pre ix. induction l as [|d l IH]; intros pre ix; cbn [index_devices].
  { by rewrite filter_nil, !app_nil_r. }
  specialize (IH (pre ++ [d]) (index_device (length pre) d ix)).
  rewrite length_app in IH. cbn [length] in IH. rewrite Nat.add_1_r in IH.
  rewrite <- !(assoc_L (++)) in IH. cbn [app] in IH. rewrite IH, filter_cons.
  unfold index_device at 1. cbn [devicesByHost]. destruct (decide (dv_host d = h)) as [Hd|Hd].
  - rewrite Hd, bool_decide_eq_false_2 by done. rewrite lookup_insert_eq. cbn [default from_option id].
    rewrite omap_app, <- (assoc_L (++)). f_equal. cbn [omap list_omap].
    by rewrite lookup_app_r, Nat.sub_diag by lia.
  - case_bool_decide; [done|]. by rewrite lookup_insert_ne by done.
Qed.

Lemma DevicesByHost_filter c h : h ≠ ""%string →
  DevicesByHost c (buildIndexes c) h = filter (λ d, dv_host d = h) (devices c).
Proof. intros Hh. unfold DevicesByHost, buildIndexes. exact (index_devices_by_host [] (devices c) _ h Hh). Qed.

Lemma HostByName_exact c n h : well_formed c →
  HostByName c (buildIndexes c) n = Some h ↔ h ∈ hosts c ∧ OpsHosts.h_name h = n.
Proof.
  intros Hwf. destruct (wf_hosts c Hwf) as [Hnd Hne]. unfold HostByName, buildIndexes.
  rewrite index_devices_names. cbn [hostByName]. rewrite bind_Some.
  setoid_rewrite (index_hosts_lookup 0 (hosts c) ∅ n _ Hnd Hne). split.
  - intros (k & [(j & h' & Hj & Hn & ->)|[_ Hk]] & Hh).
    + rewrite Nat.add_0_l, Hj in Hh. injection Hh as <-. split; [by eapply list_elem_of_lookup_2|done].
    + by rewrite (lookup_empty (M := gmap string)) in Hk.
  - intros [[j Hj]%list_elem_of_lookup_1 Hn]. exists j. split; [left; by exists j, h|done].
Qed.

Lemma DeviceBySerial_exact c s d : well_formed c →
  DeviceBySerial c (buildIndexes c) s = Some d ↔ d ∈ devices c ∧ dv_serial d = s.
Proof.
  intros Hwf. destruct (wf_devices c Hwf) as [Hnd Hok]. unfold DeviceBySerial, buildIndexes.
  rewrite bind_Some. setoid_rewrite (index_devices_serial 0 (devices c) _ s _ Hnd Hok). split.
  - intros (k & [(j & h' & Hj & Hn & ->)|[_ Hk]] & Hh).
    + rewrite Nat.add_0_l, Hj in Hh. injection Hh as <-. split; [by eapply list_elem_of_lookup_2|done].
    + cbn [deviceBySerial] in Hk. by rewrite (lookup_empty (M := gmap string)) in Hk.
  - intros [[j Hj]%list_elem_of_lookup_1 Hn]. exists j. split; [left; by exists j, d|done].
Qed.

(** ** Loading *)

(** A secret's indirection never yields an empty text. *)
Lemma secret_fails_closed m env field raw v : resolveSecret m env field raw = Ok v → v = ""%string → raw = ""%string.
Proof.
  unfold resolveSecret. intros H Hv. subst v. repeat (case_bool_decide || case_match); simplify_eq; done.
Qed.
Lemma env_secret m env field name v : resolveSecret m env field ("$ENV:" ++ name)%string = Ok v → v = env name ∧ v ≠ ""%string.
Proof.
  unfold resolveSecret.
  assert (Hp : HasPrefix "$ENV:" ("$ENV:" ++ name) = true) by reflexivity. rewrite Hp.
  assert (Ht : TrimPrefix "$ENV:" ("$ENV:" ++ name) = name).
  { unfold TrimPrefix. rewrite Hp, CredentialLaws.bytes_of_string_app.
    change (drop _ _) with (bytes_of_string name). apply string_of_bytes_of_string. }
  rewrite Ht. repeat case_bool_decide; naive_solver.
Qed.

Section load.
Context `{Toml}.

(** What the file, or the table of defaults, says. *)
Definition base_of (m : machine) (path : string) (c : Config) : Prop :=
  path = ""%string ∧ c = defaults ∨
  path ≠ ""%string ∧ ∃ text, read_file m path = Some text ∧ Decode text defaults = Ok (c, []).
Lemma base_spec m path c :
  (if bool_decide (path = ""%string) then Ok defaults else decodeStrict m path defaults) = Ok c → base_of m path c.
Proof.
  unfold base_of, decodeStrict. case_bool_decide as E; [intros [= <-]; by left|]. right. split; [done|].
  repeat case_match; simplify_eq. eauto.
Qed.

Lemma LoadWithPath_inv m o l : LoadWithPath m o = Ok l → ∃ c,
  find_config m o = Ok (l_path l) ∧ base_of m (l_path l) c ∧
  resolveSecrets m (opt_getenv m o) (apply_overrides (Overrides o) (applyEnv (opt_getenv m o) c)) = Ok (l_config l) ∧
  validate (l_config l) = [] ∧ l_idx l = buildIndexes (l_config l).
Proof.
  unfold LoadWithPath. destruct (find_config m o) as [path|] eqn:Hf; [|done].
  destruct (if bool_decide (path = ""%string) then _ else _) as [c|] eqn:Hb; [|done]. apply base_spec in Hb.
  destruct (resolveSecrets _ _ _) as [c'|] eqn:Hs; [|done].
  destruct (validate c') eqn:Hv; [|done]. intros [= <-]. by exists c.
Qed.

(** C14. A configuration that loads is well formed: names and serials are unique,
    no artifact starts in the protected region (only where it starts is tested, see
    [straddling_artifact_loads]), erasing is forbidden, both
    identity codes are four hex digits, a direct write has a writable session and
    a DSN; its tables find exactly its hosts and devices, and every tethered
    device is listed under a host that exists. *)
Theorem loaded_config_safe m o l : LoadWithPath m o = Ok l →
  let c := l_config l in
  well_formed c ∧
  (∀ n h, HostByName c (l_idx l) n = Some h ↔ h ∈ hosts c ∧ OpsHosts.h_name h = n) ∧
  (∀ s d, DeviceBySerial c (l_idx l) s = Some d ↔ d ∈ devices c ∧ dv_serial d = s) ∧
  (∀ d, d ∈ devices c → dv_host d ≠ ""%string →
     d ∈ DevicesByHost c (l_idx l) (dv_host d) ∧ is_Some (HostByName c (l_idx l) (dv_host d))) ∧
  (∀ a start off, a ∈ b_artifacts (build c) → parseOffset (f_nvs (flash c)) = Some start →
     parseOffset (ar_offset a) = Some off → start + nvsLen < 2 ^ 64 → off < start ∨ start + nvsLen ≤ off).
Proof.
  intros (c0 & _ & _ & _ & Hv & ->)%LoadWithPath_inv c. fold c in Hv |- *. apply validate_nil in Hv.
  split_and!; [done|..].
  - intros n h. by apply HostByName_exact.
  - intros s d. by apply DeviceBySerial_exact.
  - intros d Hd Hh. split; [rewrite DevicesByHost_filter, list_elem_of_filter by done; tauto|].
    pose proof (wf_tethered c Hv) as Ht. rewrite Forall_forall in Ht. destruct (Ht d Hd) as [?|Hin]; [done|].
    apply list_elem_of_fmap in Hin as (h & Hn & Hin). exists h. apply HostByName_exact; auto.
  - intros a start off Ha Hs Ho Hlt. pose proof (wf_nvs c Hv) as Hn. rewrite Forall_forall in Hn.
    specialize (Hn a Ha). destruct (decide (off < start ∨ start + nvsLen ≤ off)) as [?|Hbad]; [done|].
    destruct Hn. exists start, off. split_and!; [done..|lia|]. unfold u64, nvsLen in *.
    pose proof (FlashLaws.parseOffset_bound _ _ Hs). rewrite Z.mod_small; lia.
Qed.

Definition layer (env : string → string) (name below : string) : string :=
  if bool_decide (env name = ""%string) then below else env name.

Lemma applyEnv_layers env c : applyEnv env c =
  set_dsn (layer env "PICPAK_OPS_DB_DSN" (db_dsn (database c)))
    (set_ota (λ o, with_token (layer env "PICPAK_OPS_ADMIN_TOKEN" (o_token (ota c)))
       (with_url (layer env "PICPAK_OPS_ADMIN_URL" (o_url (ota c))) o)) c).
Proof.
  destruct c. destruct database0, ota0. unfold applyEnv, envOverrides, layer. cbn [foldl].
  repeat (case_bool_decide; try done).
Qed.
Lemma resolveSecrets_inv m env c c' : resolveSecrets m env c = Ok c' →
  resolveSecret m env "database.dsn" (db_dsn (database c)) = Ok (db_dsn (database c')) ∧
  resolveSecret m env "ota.admin_api_token" (o_token (ota c)) = Ok (o_token (ota c')) ∧
  c' = set_dsn (db_dsn (database c')) (set_ota (with_token (o_token (ota c'))) c).
Proof.
  unfold resolveSecrets. destruct (resolveSecret m env "database.dsn" _) as [v|] eqn:Hv; [|done].
  cbn [set_dsn ota]. destruct (resolveSecret m env "ota.admin_api_token" _) as [t|] eqn:Ht; [|done]. by intros [= <-].
Qed.

(** Without overrides a loaded configuration is the file's (the defaults where
    no file is found), except for three fields: the DSN, the admin URL and the
    admin token come from their environment variables where those are set; the
    two secrets are what they refer to, never empty unless written empty. *)
Theorem loaded_layers m o l : LoadWithPath m o = Ok l → Overrides o = [] →
  let env := opt_getenv m o in let c := l_config l in
  ∃ base, base_of m (l_path l) base ∧
    c = set_dsn (db_dsn (database c)) (set_ota (λ b, with_token (o_token (ota c)) (with_url (o_url (ota c)) b)) base) ∧
    resolveSecret m env "database.dsn" (layer env "PICPAK_OPS_DB_DSN" (db_dsn (database base))) = Ok (db_dsn (database c)) ∧
    resolveSecret m env "ota.admin_api_token" (layer env "PICPAK_OPS_ADMIN_TOKEN" (o_token (ota base))) = Ok (o_token (ota c)) ∧
    o_url (ota c) = layer env "PICPAK_OPS_ADMIN_URL" (o_url (ota base)) ∧
    (o_token (ota c) = ""%string → layer env "PICPAK_OPS_ADMIN_TOKEN" (o_token (ota base)) = ""%string).
Proof.
  intros (base & _ & Hb & Hs & _ & _)%LoadWithPath_inv Ho env c. exists base.
  rewrite Ho in Hs. fold env c in Hs |- *. cbn [apply_overrides foldl] in Hs.
  rewrite applyEnv_layers in Hs. apply resolveSecrets_inv in Hs as (Hd & Ht & Hc).
  rewrite Hc. cbn [set_dsn set_ota with_token with_url database ota db_dsn o_token o_url] in Hd, Ht |- *.
  split_and!; [done|done|exact Hd|exact Ht|done|]. intros E. by eapply secret_fails_closed.
Qed.

Lemma from_flag_found m p from : from_flag m p from ≠ Err NoConfig.
Proof. unfold from_flag, expandPath. repeat case_match; by simplify_eq. Qed.
(** The file named on the command line, or in the environment when none is, is the
    one read: no other place is tried. *)
Lemma explicit_path_only m o l p from : LoadWithPath m o = Ok l →
  (Path o = p ∧ from = "--config"%string ∨
   Path o = ""%string ∧ opt_getenv m o "PICPAK_OPS_CONFIG"%string = p ∧ from = "$PICPAK_OPS_CONFIG"%string) → p ≠ ""%string →
  expandPath m p = Ok (l_path l) ∧ is_Some (read_file m (l_path l)) ∧ l_path l ≠ ""%string.
Proof.
  intros (c & Hf & _)%LoadWithPath_inv Hp Hne.
  assert (Hr : from_flag m p from = Ok (l_path l)).
  { assert (Hf' : resolvePath m o = from_flag m p from).
    { unfold resolvePath. destruct Hp as [[-> ->]|(-> & -> & ->)]; [by rewrite bool_decide_eq_true_2|].
      cbv zeta. by rewrite (bool_decide_eq_true_2 (p ≠ _)) by done. }
    unfold find_config in Hf. rewrite Hf' in Hf. pose proof (from_flag_found m p from).
    destruct (from_flag m p from) as [q|[]]; simplify_eq; done. }
  unfold from_flag in Hr. destruct (expandPath m p) as [q|]; [|done].
  unfold fileExists in Hr. destruct (bool_decide (q = ""%string)) eqn:E1; [done|].
  destruct (bool_decide (is_Some (read_file m q))) eqn:E2; [|done]. destruct (is_dir m q); [done|].
  injection Hr as <-. rewrite bool_decide_eq_false in E1. rewrite bool_decide_eq_true in E2. done.
Qed.
End load.

(** ** A machine with a file *)

Definition demo_env (n : string) : string :=
  if bool_decide (n = "HOME"%string) then "/home/op"%string
  else if bool_decide (n = "OPS_DSN"%string) then "postgres://db/picpak"%string
  else if bool_decide (n = "PICPAK_OPS_ADMIN_URL"%string) then "https://ota.example"%string else ""%string.
Definition demo_machine : machine := MkMachine demo_env
  (λ p, if bool_decide (p = "/home/op/.config/picpak-ops/config.toml"%string) then Some "demo"%string
        else if bool_decide (p = "/home/op/token"%string) then Some " t0ken "%string else None)
  (λ _, false) (Some "/home/op"%string).
Definition set_devices (hs : list OpsHosts.Host) (ds : list Device) (c : Config) : Config :=
  MkConfig (Schema c) (MetaName c) (reload c) (ui c) (keys c) (Theme c) (database c)
    (ssh c) (poll c) (tty_glob c) (run c) (reconnect c) hs (build c) (flash c) (console c) (ota c) (telemetry c) (logs c) ds.
(** The demo decoder knows one file and one stray key. *)
#[local] Instance demo_toml : Toml := λ text c,
  if bool_decide (text = "demo"%string) then
    Ok (set_dsn "$ENV:OPS_DSN" (set_ota (with_token "$FILE:~/token")
          (set_devices [OpsHosts.MkHost "bench" "op@bench" false None]
             [MkDevice "AB12CD34" "" "stable" "desk" "bench"; MkDevice "AB12CD35" "" "stable" "" ""] c)), [])
  else Ok (c, ["ui.mose"%string]).
Definition demo_opts : Opts := MkOpts "" true false [] None.
Definition demo_loaded : Loaded :=
  match LoadWithPath demo_machine demo_opts with Ok l => l | Err _ => MkLoaded defaults (buildIndexes defaults) "" end.
Lemma demo_loads : LoadWithPath demo_machine demo_opts = Ok demo_loaded.
Proof. vm_compute. reflexivity. Qed.

Lemma loaded_config_safe_witness :
  LoadWithPath demo_machine demo_opts = Ok demo_loaded ∧ well_formed (l_config demo_loaded) ∧
  DevicesByHost (l_config demo_loaded) (l_idx demo_loaded) "bench" = [MkDevice "AB12CD34" "" "stable" "desk" "bench"].
Proof.
  split_and!; [exact demo_loads|exact (proj1 (loaded_config_safe _ _ _ demo_loads))|vm_compute; reflexivity].
Defined.

Lemma loaded_layers_witness :
  db_dsn (database (l_config demo_loaded)) = "postgres://db/picpak"%string ∧
  o_token (ota (l_config demo_loaded)) = "t0ken"%string ∧
  o_url (ota (l_config demo_loaded)) = layer demo_env "PICPAK_OPS_ADMIN_URL" "".
Proof.
  split_and!; [vm_compute; reflexivity..|].
  destruct (loaded_layers _ _ _ demo_loads eq_refl) as (base & _ & _ & _ & _ & Hu & _).
  vm_compute. reflexivity.
Defined.

(** An artifact that starts below the protected region and is declared to end in
    it loads: 32 KiB of partition table, from 0x8000 on. *)
Definition set_artifacts (l : list BuildArtifact) (b : Build) : Build :=
  MkBuild (b_host b) (b_repo b) (b_firmware_dir b) (b_image b) (b_docker b) (b_target b) (b_cmd b) (b_run_args b)
    (b_container b) (b_python b) (b_probe b) (b_stat b) (b_sha b) (b_fonts b) (b_setup b) (b_codegen b) (b_components b)
    (b_artifact_dir b) l (b_flasher_args b) (b_app b) (b_slot b) (b_tail b) (b_pane_scrollback b) (b_disclaimer b)
    (b_grace_ms b) (b_keys b).
Definition set_build (b : Build) (c : Config) : Config :=
  MkConfig (Schema c) (MetaName c) (reload c) (ui c) (keys c) (Theme c) (database c)
    (ssh c) (poll c) (tty_glob c) (run c) (reconnect c) (hosts c) b (flash c) (console c) (ota c) (telemetry c) (logs c) (devices c).
Definition straddling : BuildArtifact := MkArtifact "partitions" "partition_table/partition-table.bin" "0x8000" 0 32768.
Theorem straddling_artifact_loads :
  let c := set_build (set_artifacts [straddling] (build defaults)) defaults in
  validate c = [] ∧ ∃ start off, parseOffset (f_nvs (flash c)) = Some start ∧
    parseOffset (ar_offset straddling) = Some off ∧ off < start < off + ar_exact straddling.
Proof.
  split; [vm_compute; reflexivity|]. exists 36864, 32768. split_and!; vm_compute; done.
Qed.

(** The compiled defaults alone are well formed; a misspelt key is not ignored. *)
Example defaults_valid : validate defaults = []. Proof. vm_compute. reflexivity. Qed.
Example defaults_load : LoadWithPath (MkMachine (λ _, ""%string) (λ _, None) (λ _, false) None) (MkOpts "" false true [] None) =
  Ok (MkLoaded defaults (buildIndexes defaults) ""). Proof. vm_compute. reflexivity. Qed.
Example stray_key : LoadWithPath (MkMachine demo_env (λ _, Some "other"%string) (λ _, false) None) demo_opts =
  Err (UnknownKeys "/home/op/.config/picpak-ops/config.toml" ["ui.mose"%string]). Proof. vm_compute. reflexivity. Qed.
Example paths_expand : expandPath demo_machine <$> ["~"; "~/a/../b"; "${HOME}/x"; "$NOPE/y"; "a$"; "${}z"; "${open"]%string =
  Ok <$> ["/home/op"; "/home/op/b"; "/home/op/x"; "/y"; "a$"; "z"; "open"]%string. Proof. vm_compute. reflexivity. Qed.
Example tag_text : RedactHost "devices.mac" "foobar" = "«devices.mac#bf9cf968»"%string. Proof. vm_compute. reflexivity. Qed.

(** The tab key the shell takes is the one the firmware pane's own table names. *)
Theorem default_keys_shadow : validate defaults = [] ∧ "tab"%string ∈ OpsKeys.NextTab (keys defaults) ∧
  o_keys (ota defaults) !! "switch_table"%string = Some ["tab"%string].
Proof. split_and!; [apply defaults_valid|by left|vm_compute; reflexivity]. Qed.

(** ** The watcher *)

Section watch.
Context `{Toml} (path : string) (o : Opts).
Definition target : string := string_of_bytes (clean (bytes_of_string path)).
Definition is_fire (e : watch_event) : bool := match e with Fire _ => true | _ => false end.
Definition touches (e : watch_event) : bool := match e with Ev name ops => relevant target name ops | _ => false end.
Definition notifier_error (e : watch_event) : option ReloadMsg := match e with WErr e => Some (WatchFailed e) | _ => None end.
Definition reload_of (m : machine) : ReloadMsg :=
  match Load m (pin path o) with Ok c => Reloaded c | Err e => ReloadFailed e end.

Lemma watch_quiet armed l rest : forallb (λ e, negb (is_fire e)) l = true →
  watch path o armed (l ++ rest) = omap notifier_error l ++ watch path o (armed || existsb touches l) rest.
Proof.
  revert armed. induction l as [|e l IH]; intros armed; cbn [forallb existsb app].
  { intros _. by rewrite orb_false_r. }
  intros [He Hl]%andb_true_iff. cbn [watch]. destruct e; cbn [watch_step is_fire] in *; [..|done].
  - rewrite IH by done. cbn [omap list_omap notifier_error touches app]. fold target. by rewrite orb_assoc.
  - rewrite IH by done. reflexivity.
Qed.

(** However many edits of the file come before the debounce timer, exactly one
    load of the file answers them, and none if no event touched it; a load that
    fails is reported and the watch goes on. *)
Theorem watch_coalesces l m rest : forallb (λ e, negb (is_fire e)) l = true →
  watch path o false (l ++ Fire m :: rest) =
  omap notifier_error l ++ (if existsb touches l then [reload_of m] else []) ++ watch path o false rest.
Proof. intros Hl. rewrite watch_quiet by done. cbn. by destruct (existsb touches l). Qed.

(** The watches of earlier messages are never stopped: there is one goroutine more
    than messages taken. *)
Lemma watcher_count l : length (goroutines (watching path o l)) = S (length (taken (watching path o l))).
Proof.
  unfold watching. set (w0 := MkWorld [fresh_watcher] []).
  assert (H0 : length (goroutines w0) = S (length (taken w0))) by done. clearbody w0. revert w0 H0.
  induction l as [|e l IH]; intros w Hw; [done|]. cbn [foldl]. apply IH. destruct e as [i ev|]; cbn [world_step].
  - cbn [goroutines taken]. by rewrite length_alter.
  - unfold take_msg. destruct (last (goroutines w)) as [[a [msg|] b]|]; [|done..]. cbn [goroutines taken].
    rewrite !length_app, length_insert. cbn. lia.
Qed.
End watch.

(** An edit saved between a load and the shell's taking of its message reloads in
    a watch nobody reads: whatever the shell then takes, it has the older text. *)
Definition saved_late : list world_event :=
  [Tell 0 (Ev "/etc/c.toml" [OpWrite]); Tell 0 (Fire demo_machine); Tell 0 (Ev "/etc/c.toml" [OpWrite]); Take;
   Tell 0 (Fire demo_machine)].
Theorem late_edit_lost n : let w := watching "/etc/c.toml" demo_opts (saved_late ++ replicate n Take) in
  length (taken w) = 1%nat ∧ length (goroutines w) = 2%nat ∧ (w_out <$> head (goroutines w)) ≠ Some None.
Proof.
  unfold watching. rewrite foldl_app.
  set (w := foldl _ _ saved_late). vm_compute in w.
  assert (Hw : foldl (world_step "/etc/c.toml" demo_opts) w (replicate n Take) = w).
  { induction n as [|n IH]; [done|]. cbn [replicate foldl]. exact IH. }
  cbv zeta. rewrite Hw. by split_and!.
Qed.

Lemma watch_coalesces_witness :
  watch "/etc/c.toml" demo_opts false
    [Ev "/etc/c.toml" [OpChmod]; Ev "/etc/c.toml" [OpWrite]; WErr "overflow"; Ev "/etc/./c.toml" [OpRename]; Fire demo_machine; Fire demo_machine] =
  [WatchFailed "overflow"; ReloadFailed (MissingFile "/etc/c.toml" "--config")].
Proof.
  rewrite (watch_coalesces "/etc/c.toml" demo_opts
    [Ev "/etc/c.toml" [OpChmod]; Ev "/etc/c.toml" [OpWrite]; WErr "overflow"; Ev "/etc/./c.toml" [OpRename]] demo_machine [Fire demo_machine] eq_refl).
  vm_compute. reflexivity.
Defined.

End OpsConfigLaws.
