(* ===== verification/OpsConsole.v ===== *)
(** * The device console ([tools/picpak-ops/internal/console])

    An interactive terminal onto one device: the command line of the remote pump,
    the session (one interactive run and the queue of typed lines), the link's
    states, the pane with its keys, history and view. Attaching resets the device.
    The clock, the start of a run and the order in which Go walks a map are inputs
    of a step; the text input and the viewport are the widget library's. *)

From S2P Require Import Prelude GoLib GoText OpsKeys OpsShell OpsHosts OpsConfig.
Import GoLib GoText.

Module OpsConsole.
#[local] Abbreviation Ok := Prelude.Ok.
#[local] Abbreviation Err := Prelude.Err.

(** ** Duration texts ([time.Duration.String]) *)

Fixpoint strip_zeros (l : bytes) : bytes := match l with 48 :: l => strip_zeros l | _ => l end.
(** The last [prec] digits as a fraction without its trailing zeros, and what is left. *)
Definition fraction (u : Z) (prec : nat) : bytes * Z :=
  let p := 10 ^ Z.of_nat prec in
  let ds := format_uint_b (u mod p + p) in
  let ds := reverse (strip_zeros (reverse (drop 1 ds))) in
  ((if bool_decide (ds = []) then [] else 46 :: ds), u / p).
Definition uint_text (n : Z) : string := string_of_bytes (format_uint_b n).
Definition frac_text (u : Z) (prec : nat) (unit : string) : string :=
  let '(f, n) := fraction u prec in (uint_text n ++ string_of_bytes f ++ unit)%string.
Definition duration_text (d : Z) : string :=
  let u := Z.abs d in
  let body :=
    if u =? 0 then "0s"%string
    else if u <? 1000 then frac_text u 0 "ns"
    else if u <? 1000000 then frac_text u 3 "µs"
    else if u <? 1000000000 then frac_text u 6 "ms"
    else
      let '(f, s) := fraction u 9 in
      let secs := (uint_text (s mod 60) ++ string_of_bytes f ++ "s")%string in
      let m := s / 60 in
      if m =? 0 then secs
      else let mins := (uint_text (m mod 60) ++ "m" ++ secs)%string in
           if m / 60 =? 0 then mins else (uint_text (m / 60) ++ "h" ++ mins)%string in
  if d <? 0 then ("-" ++ body)%string else body.

(** ** The command catalog (catalog.go) *)

Record Command := MkCommand { Name : string; Args : string; Help : string; Category : string }.
Definition catalog : list Command :=
  [MkCommand "SETWIFI" "<ssid> <pass> | ADD <ssid> <pass> | LIST | DEL <slug>" "save WiFi creds / manage the multi-WiFi store" "provisioning";
   MkCommand "SETURL" "<url>" "save the frame image URL" "provisioning";
   MkCommand "ERASE" "" "delete the saved config" "provisioning";
   MkCommand "INFO" "" "show status (boot count, heap, ssid/url, config state)" "status";
   MkCommand "REFRESH" "" "fetch the image now, then sleep" "actions";
   MkCommand "SLEEP" "[s]" "sleep without fetching (optional seconds)" "actions";
   MkCommand "PRESS" "[n]" "run n simulated button-press cycles (test, default 1)" "actions";
   MkCommand "LOG" "[CLEAR]" "show / clear the firmware log ring" "diagnostics";
   MkCommand "NETCLR" "" "discard the connect cache (BSSID/IP) -> next connect is cold" "network";
   MkCommand "OTA" "" "OTA status: running/boot/next partition + image state" "ota";
   MkCommand "GUARD" "[CLEAR | THRESHOLD <n> | UPTIME <ms>]" "bootloop guard: status / clear / tune" "guard";
   MkCommand "STORE" "OK | LIST | GET <k> | SET <k> <v> | DEL <k>" "littlefs key-value store" "storage";
   MkCommand "RTC" "STAT | GET <k> | SET <k> <v> | DEL <k>" "RTC-RAM key-value (ephemeral, nulled on reset)" "storage";
   MkCommand "NET" "SCAN | TRY <ssid> <pass> | IP | SSID | RSSI | STOP | TXPOWER [dBm]" "Wi-Fi surface / TX power" "network";
   MkCommand "HELP" "" "show the firmware command help" "help"]%string.
Definition CommandNames : list string := Name <$> catalog.

(** ** The link's states (state.go) *)

Inductive ConnState :=
| StateIdle | StateResetting | StateAttached | StateQuiet | StateSleeping | StateReconnecting | StateClosed | StateError.
#[global] Instance ConnState_eq_dec : EqDecision ConnState.
Proof. solve_decision. Defined.
Definition ConnState_text (s : ConnState) : string :=
  match s with
  | StateIdle => "idle" | StateResetting => "resetting" | StateAttached => "attached" | StateQuiet => "quiet"
  | StateSleeping => "sleeping" | StateReconnecting => "reconnecting" | StateClosed => "closed" | StateError => "error"
  end.
Definition onSilence (s : ConnState) : ConnState := match s with StateAttached => StateQuiet | s => s end.
Definition onData (s : ConnState) : ConnState := match s with StateResetting | StateQuiet => StateAttached | s => s end.
Definition onBanner (_ : ConnState) : ConnState := StateAttached.
Definition onExit (operatorInitiated execErr : bool) : ConnState :=
  if operatorInitiated then StateClosed else if execErr then StateError else StateSleeping.

(** ** Lines of output (scrollback.go) *)

Definition cr : string := string_of_bytes [13].
Definition lf : string := string_of_bytes [10].
Definition frame (s : string) : list string :=
  if bool_decide (s = ""%string) then []
  else
    let s := ReplaceAll (ReplaceAll s (cr ++ lf)%string lf) cr lf in
    let parts := string_of_bytes <$> split (bytes_of_string s) [10] in
    match reverse parts with ""%string :: r => reverse r | _ => parts end.

(** ** The command line of the pump (transport.go) *)

Definition is_name_start (c : Z) : bool := (c =? 95) || ((97 <=? c) && (c <=? 122)) || ((65 <=? c) && (c <=? 90)).
Definition is_name_char (c : Z) : bool := is_name_start c || is_digit c.
(** A placeholder at the start of the text: a name between braces. *)
Fixpoint name_to_brace (s : bytes) : option bytes :=
  match s with
  | [] => None
  | c :: s => if c =? 125 then Some [125] else if is_name_char c then cons c <$> name_to_brace s else None
  end.
Definition placeholder_at (s : bytes) : option bytes :=
  match s with
  | 123 :: c :: s => if is_name_start c then (λ n, 123 :: c :: n) <$> name_to_brace s else None
  | _ => None
  end.
Fixpoint placeholderRe (s : bytes) : option bytes :=
  match s with
  | [] => None
  | c :: s' => match placeholder_at s with Some m => Some m | None => placeholderRe s' end
  end.

Record transportSubst := MkSubst { Host : string; Port : string; Baud : string }.
Definition known (sub : transportSubst) : list (string * string) :=
  [("host", Host sub); ("port", Port sub); ("baud", Baud sub)]%string.
Definition braced (name : string) : string := ("{" ++ name ++ "}")%string.
Definition first_empty (l : list (string * string)) (tmpl : string) : option string :=
  fst <$> List.find (λ '(name, val), bool_decide (val = ""%string) && Contains tmpl (braced name)) l.
Definition replace_known (l : list (string * string)) (tmpl : string) : string :=
  foldl (λ out '(name, val), ReplaceAll out (braced name) val) tmpl l.
(** [walk1] and [walk2] are the orders in which the two loops visit the map. *)
Definition substitute (walk1 walk2 : list (string * string) → list (string * string)) (tmpl : string) (sub : transportSubst)
    : result string string :=
  match first_empty (walk1 (known sub)) tmpl with
  | Some name => Err ("console transport: placeholder {" ++ name ++ "} is unresolved (empty); refusing to fall back to a literal device node")%string
  | None =>
      let out := replace_known (walk2 (known sub)) tmpl in
      match placeholderRe (bytes_of_string out) with
      | Some m => Err ("console transport: unresolved placeholder " ++ string_of_bytes m ++ " in remote_command")%string
      | None => Ok out
      end
  end.
Definition localShell : string := "sh".
Definition baudString (cc : OpsConfig.Console) : string :=
  format_int (if OpsConfig.c_baud cc <=? 0 then 115200 else OpsConfig.c_baud cc).
Definition buildPumpArgv (walk1 walk2 : list (string * string) → list (string * string)) (cc : OpsConfig.Console)
    (sub : transportSubst) (wrapShell : bool) : result string (list string) :=
  match substitute walk1 walk2 (OpsConfig.c_remote cc) sub with
  | Err e => Err e
  | Ok cmd => Ok (if wrapShell then [localShell; "-c"%string; cmd] else [cmd])
  end.

(** ** The session (session.go) *)

Record deviceRef := MkDev { d_host : string; d_port : string; d_serial : string; d_label : string; IsLocal : bool }.
(** The channel of typed lines and the sends handed off when it was full. *)
Record inputs := MkInputs { chan : list bytes; handed : list bytes }.
Record Session := MkSession {
  runner : OpsHosts.Runner; s_cc : OpsConfig.Console; s_dev : deviceRef; running : bool; closing : bool;
  s_run : option Z; inputCh : option inputs }.
Definition newSession (r : OpsHosts.Runner) (cc : OpsConfig.Console) (dev : deviceRef) : Session :=
  MkSession r cc dev false false None None.

(** What a step sees of the machine: the time, how an interactive run starts (its
    id, or why not), the walks of the map. *)
Record env := MkEnv {
  now : Z; RunInteractive : OpsHosts.Runner → list string → result string Z;
  walk1 : list (string * string) → list (string * string); walk2 : list (string * string) → list (string * string) }.
Inductive out :=
| Opened (run : Z) (argv : list string) | StdinClosed (run : Z) | Cancelled (run : Z) | Wrote (run : Z) (b : bytes)
| TickAfter (d : Z) | ReconnectAfter (d : Z).

Definition Start (e : env) (s : Session) : result string Session * list out :=
  if running s then (Ok s, [])
  else
    match buildPumpArgv (walk1 e) (walk2 e) (s_cc s)
            (MkSubst (d_host (s_dev s)) (d_port (s_dev s)) (baudString (s_cc s))) (IsLocal (s_dev s)) with
    | Err m => (Err m, [])
    | Ok argv =>
        match RunInteractive e (runner s) argv with
        | Err m => (Err m, [])
        | Ok r => (Ok (MkSession (runner s) (s_cc s) (s_dev s) true false (Some r) (Some (MkInputs [] []))), [Opened r argv])
        end
    end.
Definition chan_cap : Z := 256.
Definition SendLine (b : bytes) (s : Session) : Session :=
  match running s, inputCh s with
  | true, Some i =>
      let i := if zlen (chan i) <? chan_cap then MkInputs (chan i ++ [b]) (handed i) else MkInputs (chan i) (handed i ++ [b]) in
      MkSession (runner s) (s_cc s) (s_dev s) (running s) (closing s) (s_run s) (Some i)
  | _, _ => s
  end.
(** The writer goroutine takes the next chunk; a handed-off send gets its room. *)
Definition write_turn (s : Session) : Session * list out :=
  match s_run s, inputCh s with
  | Some r, Some (MkInputs (b :: l) h) =>
      (MkSession (runner s) (s_cc s) (s_dev s) (running s) (closing s) (s_run s) (Some (MkInputs l h)), [Wrote r b])
  | _, _ => (s, [])
  end.
Definition handed_turn (k : nat) (s : Session) : Session :=
  match inputCh s with
  | Some i =>
      match handed i !! k with
      | Some b =>
          if zlen (chan i) <? chan_cap then
            MkSession (runner s) (s_cc s) (s_dev s) (running s) (closing s) (s_run s)
              (Some (MkInputs (chan i ++ [b]) (delete k (handed i))))
          else s
      | None => s
      end
  | None => s
  end.
Definition stop (operator : bool) (s : Session) : Session * list out :=
  (MkSession (runner s) (s_cc s) (s_dev s) false (operator || closing s) None None,
   match s_run s with Some r => [StdinClosed r; Cancelled r] | None => [] end).
Definition Stop : Session → Session * list out := stop true.
Definition finish : Session → Session * list out := stop false.

(** ** The key table (keymap.go) *)

Inductive action :=
| actNone | actSubmit | actHistoryPrev | actHistoryNext | actScrollUp | actScrollDown | actSearch | actClear
| actReconnect | actDisconnect | actHelp.
#[global] Instance action_eq_dec : EqDecision action.
Proof. solve_decision. Defined.
Definition keymap := gmap string action.
Definition put (spec : string) (a : action) (m : keymap) : keymap :=
  if bool_decide (spec = ""%string) then m else match m !! spec with Some _ => m | None => <[spec := a]> m end.
Definition bindings (k : OpsConfig.ConsoleKeys) : list (string * action) :=
  [(OpsConfig.ck_submit k, actSubmit); (OpsConfig.ck_prev k, actHistoryPrev); (OpsConfig.ck_next k, actHistoryNext);
   (OpsConfig.ck_up k, actScrollUp); (OpsConfig.ck_down k, actScrollDown); (OpsConfig.ck_search k, actSearch);
   (OpsConfig.ck_clear k, actClear); (OpsConfig.ck_reconnect k, actReconnect); (OpsConfig.ck_disconnect k, actDisconnect);
   (OpsConfig.ck_help k, actHelp)].
Definition newKeymap (k : OpsConfig.ConsoleKeys) : keymap := foldl (λ m '(spec, a), put spec a m) ∅ (bindings k).
Definition resolve (m : keymap) (k : string) : action := default actNone (m !! k).

(** ** The pane (console.go, model.go) *)

(** The text input and the viewport of the widget library. *)
Class Widgets := {
  input : Type; new_input : list string → input; Value : input → string; SetValue : string → input → input;
  ResetInput : input → input; CursorEnd : input → input; Focus : input → input; Blur : input → input;
  InputWidth : Z → input → input; Edit : string → input → input; InputView : input → string;
  viewport : Type; new_viewport : viewport; SetContentLines : list string → viewport → viewport;
  GotoBottom : viewport → viewport; ScrollUp : Z → viewport → viewport; ScrollDown : Z → viewport → viewport;
  AtBottom : viewport → bool; SetVpSize : Z → Z → viewport → viewport; VpHeight : viewport → Z; VpView : viewport → string }.

Record viewColors := MkColors { v_active : string; v_working : string; v_quiet : string; v_err : string; v_muted : string; v_border : string }.
Definition resolveColors (c : OpsConfig.Config) : viewColors :=
  let role r := default ""%string (OpsConfig.Theme c !! r) in
  MkColors (role "status_active") (role "status_working") (role "status_quiet") (role "status_error") (role "status_quiet") (role "border").

Section pane.
Context `{Widgets} `{OpsHosts.Regexp} `{OpsShell.Lipgloss} (home : string).

Record link := MkLink {
  session : option Session; dev : deviceRef; hadArgs : bool; connErr : option string; state : ConnState;
  confirmArmed : bool; reconnects : Z; lastErr : option string; lastActivity : Z }.
Record screen := MkScreen {
  sb : OpsShell.Scrollback.ring; vp : viewport; inp : input; followTail : bool; history : list string; histPos : Z;
  helpVisible : bool; dirty : bool }.
Record consolePane := MkPane {
  base : OpsShell.BasePane; cfg : OpsConfig.Config; colors : viewColors; keys : keymap; bannerRe : option OpsHosts.regexp;
  lk : link; sc : screen }.
Definition cc (p : consolePane) : OpsConfig.Console := OpsConfig.console (cfg p).

Definition set_link (f : link → link) (p : consolePane) : consolePane :=
  MkPane (base p) (cfg p) (colors p) (keys p) (bannerRe p) (f (lk p)) (sc p).
Definition set_screen (f : screen → screen) (p : consolePane) : consolePane :=
  MkPane (base p) (cfg p) (colors p) (keys p) (bannerRe p) (lk p) (f (sc p)).
Definition with_session (s : option Session) (l : link) : link :=
  MkLink s (dev l) (hadArgs l) (connErr l) (state l) (confirmArmed l) (reconnects l) (lastErr l) (lastActivity l).
Definition with_state (s : ConnState) (l : link) : link :=
  MkLink (session l) (dev l) (hadArgs l) (connErr l) s (confirmArmed l) (reconnects l) (lastErr l) (lastActivity l).
Definition with_armed (b : bool) (l : link) : link :=
  MkLink (session l) (dev l) (hadArgs l) (connErr l) (state l) b (reconnects l) (lastErr l) (lastActivity l).
Definition with_reconnects (n : Z) (l : link) : link :=
  MkLink (session l) (dev l) (hadArgs l) (connErr l) (state l) (confirmArmed l) n (lastErr l) (lastActivity l).
Definition with_err (e : option string) (l : link) : link :=
  MkLink (session l) (dev l) (hadArgs l) (connErr l) (state l) (confirmArmed l) (reconnects l) e (lastActivity l).
Definition with_activity (t : Z) (l : link) : link :=
  MkLink (session l) (dev l) (hadArgs l) (connErr l) (state l) (confirmArmed l) (reconnects l) (lastErr l) t.
Definition set_state (s : ConnState) : consolePane → consolePane := set_link (with_state s).

Definition set_view (s : OpsShell.Scrollback.ring) (v : viewport) (follow : bool) (c : screen) : screen :=
  MkScreen s v (inp c) follow (history c) (histPos c) (helpVisible c) (dirty c).
Definition set_input (i : input) (h : list string) (pos : Z) (c : screen) : screen :=
  MkScreen (sb c) (vp c) i (followTail c) h pos (helpVisible c) (dirty c).
Definition set_help (b : bool) (c : screen) : screen :=
  MkScreen (sb c) (vp c) (inp c) (followTail c) (history c) (histPos c) b (dirty c).
Definition set_dirty (b : bool) (c : screen) : screen :=
  MkScreen (sb c) (vp c) (inp c) (followTail c) (history c) (histPos c) (helpVisible c) b.
Definition say (line : string) : consolePane → consolePane :=
  set_screen (λ c, set_view (OpsShell.Scrollback.Append line (sb c)) (vp c) (followTail c) c).
Definition markDirty (p : consolePane) : consolePane :=
  if OpsShell.focused (base p) then p else set_screen (set_dirty true) p.
Definition refreshViewport : consolePane → consolePane :=
  set_screen (λ c, let v := SetContentLines (OpsShell.Scrollback.Lines (sb c)) (vp c) in
                   set_view (sb c) (if followTail c then GotoBottom v else v) (followTail c) c).
Definition quietTimeout (p : consolePane) : Z :=
  let d := i64 (OpsConfig.c_quiet_ms (cc p) * 1000000) in if d <=? 0 then 2000000000 else d.
Definition quietTickCmd (d : Z) : list out := [TickAfter (if d <=? 0 then 2000000000 else d)].
Definition reconnectCmd (d : Z) : list out := [ReconnectAfter (if d <? 0 then 0 else d)].
Definition matchBanner (p : consolePane) (line : string) : bool :=
  let b := OpsConfig.c_banner (cc p) in
  if bool_decide (b = ""%string) then false
  else match bannerRe p with Some re => OpsHosts.MatchString re line | None => Contains line b end.

Definition New (b : OpsShell.BasePane) (c : OpsConfig.Config) : consolePane :=
  let console := OpsConfig.console c in
  say "connect pulses DTR/RTS: the PicPak reboots. Interactive window is ~3 s outside setup mode."
    (say "console idle — press the connect key to reset + attach the device."
       (MkPane b c (resolveColors c) (newKeymap (OpsConfig.c_keys console)) (OpsHosts.Compile (OpsConfig.c_banner console))
          (MkLink None (MkDev "" "" "" "" false) false None StateIdle false 0 None 0)
          (MkScreen (OpsShell.Scrollback.NewScrollback (OpsConfig.c_scrollback console)) new_viewport (new_input CommandNames) true [] 0 false false))).

(** The hosts axis' view of the configuration. *)
Definition hosts_config (c : OpsConfig.Config) : OpsHosts.Config :=
  OpsHosts.MkConfig (OpsConfig.ssh_binary (OpsConfig.ssh c)) (OpsConfig.ssh_base_args (OpsConfig.ssh c))
    (OpsConfig.ssh_control (OpsConfig.ssh c)) (OpsConfig.ssh_command (OpsConfig.ssh c)) (OpsConfig.poll c)
    (OpsConfig.run_scrollback (OpsConfig.run c)) (OpsConfig.run_line_max (OpsConfig.run c))
    (OpsConfig.rc_initial (OpsConfig.reconnect c)) (OpsConfig.rc_max (OpsConfig.reconnect c))
    (OpsConfig.rc_factor (OpsConfig.reconnect c)) (OpsConfig.rc_threshold (OpsConfig.reconnect c)) (OpsConfig.hosts c).
Definition isLocalHost (c : OpsConfig.Config) (host : string) : bool :=
  if bool_decide (host = ""%string) || bool_decide (host = "local"%string) then true
  else match OpsConfig.HostByName c (OpsConfig.buildIndexes c) host with Some h => OpsHosts.Local h | None => false end.

Definition start_run (e : env) (p : consolePane) : result string consolePane * list out :=
  match session (lk p) with
  | None => (Err "console: no runner resolved for host"%string, [])
  | Some s =>
      match Start e s with
      | (Ok s, o) => (Ok (set_link (with_session (Some s)) p), o)
      | (Err m, o) => (Err m, o)
      end
  end.
Definition connect (e : env) (confirmed : bool) (p : consolePane) : consolePane * list out :=
  match connErr (lk p), session (lk p) with
  | None, Some s =>
      if bool_decide (d_port (dev (lk p)) = ""%string) then
        (markDirty (set_state StateError (say "console: no gated device port — refusing to attach." p)), [])
      else if running s then (p, [])
      else if OpsConfig.c_confirm (cc p) && negb confirmed then
        (markDirty (say "connect RESETS the device — press the connect key again to confirm." (set_link (with_armed true) p)), [])
      else
        let p := set_link (with_armed false) p in
        match start_run e p with
        | (Err m, o) => (markDirty (say ("connect failed: " ++ m)%string (set_state StateError (set_link (with_err (Some m)) p))), o)
        | (Ok p, o) =>
            (markDirty (refreshViewport (say "resetting + attaching… (DTR/RTS pulse → device reboots)"
               (set_link (λ l, with_activity (now e) (with_state StateResetting l)) p))), o ++ quietTickCmd (quietTimeout p))
        end
  | _, _ => (markDirty (say "console: not ready to connect (no resolved host/device)." p), [])
  end.

Definition arg (args : gmap string string) (k : string) : string := default ""%string (args !! k).
Definition handleSpawnArgs (e : env) (args : gmap string string) (p : consolePane) : consolePane * list out :=
  let host := arg args "host" in
  let port := if bool_decide (arg args "port" = ""%string) then arg args "tty" else arg args "port" in
  let d := MkDev host port (arg args "serial") (arg args "label") (isLocalHost (cfg p) host) in
  let p := set_link (λ l, MkLink (session l) d true (connErr l) (state l) (confirmArmed l) (reconnects l) (lastErr l) (lastActivity l)) p in
  match OpsHosts.RunnerFor home (hosts_config (cfg p)) host with
  | None =>
      let m := ("sshhost: build host " ++ host ++ " is not a [[hosts]] entry")%string in
      (markDirty (say ("console: cannot resolve host: " ++ m)%string
         (set_link (λ l, MkLink (session l) (dev l) (hadArgs l) (Some m) StateError (confirmArmed l) (reconnects l) (lastErr l) (lastActivity l)) p)), [])
  | Some r =>
      let p := set_link (λ l, MkLink (Some (newSession r (cc p) d)) (dev l) (hadArgs l) None (state l) (confirmArmed l) (reconnects l) (lastErr l) (lastActivity l)) p in
      if OpsConfig.c_auto (cc p) then connect e true p else (p, [])
  end.

Definition data_line (p : consolePane) (line : string) : consolePane :=
  let p := say line p in
  set_state (if matchBanner p line then onBanner (state (lk p)) else onData (state (lk p))) p.
Definition applyData (e : env) (lines : list string) (p : consolePane) : consolePane :=
  if bool_decide (lines = []) then p
  else markDirty (refreshViewport (set_link (with_activity (now e)) (foldl data_line p lines))).

Definition is_running (p : consolePane) : bool := match session (lk p) with Some s => running s | None => false end.
Definition onQuietTick (e : env) (p : consolePane) : consolePane * list out :=
  if negb (is_running p) then (p, [])
  else
    let d := quietTimeout p in
    let p := if bool_decide (state (lk p) = StateAttached) && (d <=? i64 (now e - lastActivity (lk p)))
             then markDirty (set_state (onSilence (state (lk p))) p) else p in
    (p, quietTickCmd d).

(** The switch on the classified exit; [o] is what the teardown put out. *)
Definition report_exit (st : ConnState) (code : Z) (err : option string) (o : list out) (p : consolePane) : consolePane * list out :=
  match st with
  | StateClosed => (refreshViewport (say "session closed." (set_link (with_reconnects 0) p)), o)
  | StateError =>
      (refreshViewport (say ("session error (code=" ++ format_int code ++ "): " ++ default "<nil>" err)%string
         (set_link (with_err err) p)), o)
  | _ =>
      let p := say "link dropped (device slept / keep-awake lost)." p in
      if OpsConfig.c_reconnect (cc p) && (reconnects (lk p) <? OpsConfig.c_attempts (cc p)) then
        let n := reconnects (lk p) + 1 in
        let backoff := i64 (OpsConfig.c_backoff_ms (cc p) * 1000000) in
        (refreshViewport (say ("auto-reconnect " ++ format_int n ++ "/" ++ format_int (OpsConfig.c_attempts (cc p)) ++ " in " ++
            duration_text backoff ++ " (resets the device)…")%string
           (set_link (λ l, with_state StateReconnecting (with_reconnects n l)) p)), o ++ reconnectCmd backoff)
      else (refreshViewport p, o)
  end.
Definition closing_now (l : link) : bool := match session l with Some s => closing s | None => false end.
Definition finish_session (l : link) : option Session * list out :=
  match session l with Some s => let '(s, o) := finish s in (Some s, o) | None => (None, []) end.
Definition applyExit (code : Z) (err : option string) (p : consolePane) : consolePane * list out :=
  let operator := closing_now (lk p) in
  let execErr := bool_decide (err ≠ None) && negb operator in
  let '(s, o) := finish_session (lk p) in
  let st := onExit operator execErr in
  report_exit st code err o (markDirty (set_link (λ l, with_state st (with_session s l)) p)).

Definition onReconnect (e : env) (p : consolePane) : consolePane * list out :=
  match session (lk p) with
  | None => (p, [])
  | Some s =>
      if running s then (p, [])
      else match start_run e p with
           | (Err m, o) => (markDirty (say ("reconnect failed: " ++ m)%string (set_state StateError (set_link (with_err (Some m)) p))), o)
           | (Ok p, o) => (set_link (λ l, with_activity (now e) (with_state StateResetting l)) p, o ++ quietTickCmd (quietTimeout p))
           end
  end.

Definition encodeLine (p : consolePane) (line : string) : bytes :=
  bytes_of_string line ++
  (if bool_decide (OpsConfig.c_endings (cc p) = "lf"%string) then [10]
   else if bool_decide (OpsConfig.c_endings (cc p) = "cr"%string) then [13] else [13; 10]).
Definition submit (p : consolePane) : consolePane :=
  let line := Value (inp (sc p)) in
  let h := if bool_decide (line = ""%string) then history (sc p) else history (sc p) ++ [line] in
  let p := set_screen (λ c, set_input (ResetInput (inp c)) h (zlen h) c) p in
  match session (lk p) with
  | Some s =>
      if running s then
        let p := set_link (with_session (Some (SendLine (encodeLine p line) s))) p in
        if OpsConfig.c_echo (cc p) then refreshViewport (say ("> " ++ line)%string p) else p
      else markDirty (refreshViewport (say "(not connected — press the connect key to reset + attach)" p))
  | None => markDirty (refreshViewport (say "(not connected — press the connect key to reset + attach)" p))
  end.
(** A history line at a position outside the list is a panic of the program. *)
Definition recall (pos : Z) (c : screen) : option screen :=
  line ← (if pos <? 0 then None else history c !! Z.to_nat pos);
  Some (set_input (CursorEnd (SetValue line (inp c))) (history c) pos c).
Definition historyPrev (c : screen) : option screen :=
  if bool_decide (history c = []) then Some c
  else recall (if 0 <? histPos c then histPos c - 1 else histPos c) c.
Definition historyNext (c : screen) : option screen :=
  if bool_decide (history c = []) then Some c
  else
    let pos := if histPos c <? zlen (history c) then histPos c + 1 else histPos c in
    if zlen (history c) <=? pos then Some (set_input (SetValue "" (inp c)) (history c) (zlen (history c)) c)
    else recall pos c.
Definition on_screen (f : screen → option screen) (p : consolePane) : option (consolePane * list out) :=
  c ← f (sc p); Some (set_screen (λ _, c) p, []).

Definition onKey (e : env) (k : string) (p : consolePane) : option (consolePane * list out) :=
  match resolve (keys p) k with
  | actSubmit => Some (submit p, [])
  | actHistoryPrev => on_screen historyPrev p
  | actHistoryNext => on_screen historyNext p
  | actScrollUp => on_screen (λ c, Some (set_view (sb c) (ScrollUp 3 (vp c)) false c)) p
  | actScrollDown =>
      on_screen (λ c, let v := ScrollDown 3 (vp c) in Some (set_view (sb c) v (if AtBottom v then true else followTail c) c)) p
  | actClear =>
      Some (refreshViewport (set_screen (λ c, set_view (OpsShell.Scrollback.Clear (sb c)) (vp c) true c) p), [])
  | actReconnect => Some (connect e (negb (OpsConfig.c_confirm (cc p)) || confirmArmed (lk p)) p)
  | actDisconnect =>
      match session (lk p) with
      | Some s =>
          if running s then
            let '(s, o) := Stop s in
            Some (markDirty (refreshViewport (say "disconnected."
                    (set_link (λ l, with_reconnects 0 (with_state StateClosed (with_session (Some s) l))) p))), o)
          else Some (p, [])
      | None => Some (p, [])
      end
  | actHelp => on_screen (λ c, Some (set_help (negb (helpVisible c)) c)) p
  | actSearch => Some (p, [])
  | actNone => on_screen (λ c, Some (set_input (Edit k (inp c)) (history c) (histPos c) c)) p
  end.

Inductive msg :=
| SpawnArgsMsg (args : gmap string string) | ConfigChangedMsg (c : option OpsConfig.Config) | ReleaseDevicePortMsg (port : string)
| RunOutputMsg (line : string) | RunExitMsg (code : Z) (err : option string)
| ConsoleDataMsg (lines : list string) | ConsoleBannerMsg | ConsoleStateMsg (s : ConnState) (err : option string)
| ConsoleErrMsg (err : option string) | ConsoleExitMsg (code : Z) (err : option string)
| quietTickMsg | reconnectMsg | KeyPressMsg (k : string).

Definition reconfigure (c : OpsConfig.Config) (p : consolePane) : consolePane :=
  MkPane (base p) c (resolveColors c) (newKeymap (OpsConfig.c_keys (OpsConfig.console c)))
    (match OpsHosts.Compile (OpsConfig.c_banner (OpsConfig.console c)) with Some re => Some re | None => bannerRe p end) (lk p) (sc p).
Definition releasePort (port : string) (p : consolePane) : consolePane * list out :=
  match session (lk p) with
  | Some s =>
      if negb (bool_decide (port = ""%string)) && bool_decide (port = d_port (s_dev s)) && running s then
        let '(s, o) := Stop s in
        (markDirty (say "device port released for another axis (flash) — session closed."
           (set_link (λ l, with_state StateClosed (with_session (Some s) l)) p)), o)
      else (p, [])
  | None => (p, [])
  end.
Definition Update (e : env) (m : msg) (p : consolePane) : option (consolePane * list out) :=
  match m with
  | SpawnArgsMsg args => Some (handleSpawnArgs e args p)
  | ConfigChangedMsg (Some c) => Some (reconfigure c p, [])
  | ConfigChangedMsg None => Some (p, [])
  | ReleaseDevicePortMsg port => Some (releasePort port p)
  | RunOutputMsg line => Some (applyData e (frame line) p, [])
  | RunExitMsg code err | ConsoleExitMsg code err => Some (applyExit code err p)
  | ConsoleDataMsg lines => Some (applyData e lines p, [])
  | ConsoleBannerMsg => Some (set_state (onBanner (state (lk p))) p, [])
  | ConsoleStateMsg s err =>
      let p := set_state s p in
      Some (match err with
            | Some m => markDirty (say ("state: " ++ m)%string (set_link (with_err (Some m)) p))
            | None => p
            end, [])
  | ConsoleErrMsg err =>
      let p := set_state StateError (set_link (with_err err) p) in
      Some (markDirty (match err with Some m => say ("error: " ++ m)%string p | None => p end), [])
  | quietTickMsg => Some (onQuietTick e p)
  | reconnectMsg => Some (onReconnect e p)
  | KeyPressMsg k => onKey e k p
  end.

Definition SetFocused (f : bool) (p : consolePane) : consolePane :=
  let p := MkPane (OpsShell.SetFocused f (base p)) (cfg p) (colors p) (keys p) (bannerRe p) (lk p) (sc p) in
  if f then set_screen (λ c, set_input (Focus (inp c)) (history c) (histPos c) (set_dirty false c)) p
  else set_link (with_armed false) (set_screen (λ c, set_input (Blur (inp c)) (history c) (histPos c) c) p).
Definition SetSize (w h : Z) (p : consolePane) : consolePane :=
  let p := MkPane (OpsShell.SetSize w h (base p)) (cfg p) (colors p) (keys p) (bannerRe p) (lk p) (sc p) in
  let w := if w <=? 0 then 80 else w in
  let h := if h <=? 0 then 24 else h in
  let vpH := if h - 3 <? 1 then 1 else h - 3 in
  refreshViewport (set_screen (λ c, set_input (InputWidth (w - 2) (inp c)) (history c) (histPos c)
                                      (set_view (sb c) (SetVpSize w vpH (vp c)) (followTail c) c)) p).
Definition Close (p : consolePane) : consolePane * list out :=
  match session (lk p) with
  | Some s => let '(s, o) := Stop s in (set_link (with_session (Some s)) p, o)
  | None => (p, [])
  end.
Definition statusFor (s : ConnState) : OpsShell.PaneStatus :=
  match s with
  | StateResetting | StateReconnecting => OpsShell.StatusWorking
  | StateAttached => OpsShell.StatusActive
  | StateQuiet => OpsShell.StatusQuiet
  | StateSleeping | StateError => OpsShell.StatusError
  | _ => OpsShell.StatusIdle
  end.
Definition or_text (a b : string) : string := if bool_decide (a = ""%string) then b else a.
Definition title (p : consolePane) : string :=
  let d := dev (lk p) in
  ("console · " ++ or_text (d_host d) "—" ++ " · " ++
   or_text (or_text (or_text (d_label d) (d_serial d)) (d_port d)) "(no device)" ++ " · " ++ ConnState_text (state (lk p)))%string.
Definition Meta (p : consolePane) : OpsShell.PaneMeta :=
  OpsShell.MkMeta (OpsShell.id (base p)) (OpsShell.kind (base p)) (title p) (statusFor (state (lk p))) (dirty (sc p)).

(** ** The view (view.go); a color that is not set leaves the text unstyled *)

Definition truncate (s : string) (w : Z) : string :=
  if (w <=? 1) || (OpsShell.cells s <=? w) then s
  else if w - 1 <? zlen (bytes_of_string s) then (string_of_bytes (take (Z.to_nat (w - 1)) (bytes_of_string s)) ++ "…")%string
  else s.
Definition stateColor (p : consolePane) : string :=
  match statusFor (state (lk p)) with
  | OpsShell.StatusActive => v_active (colors p)
  | OpsShell.StatusWorking => v_working (colors p)
  | OpsShell.StatusQuiet => v_quiet (colors p)
  | OpsShell.StatusError => v_err (colors p)
  | OpsShell.StatusIdle => v_muted (colors p)
  end.
Definition renderTitle (w : Z) (p : consolePane) : string := OpsShell.paint (stateColor p) true (truncate (title p) w).
Definition renderFooter (w : Z) (p : consolePane) : string :=
  let k := OpsConfig.c_keys (cc p) in
  if confirmArmed (lk p) then
    OpsShell.paint (v_working (colors p)) true
      (truncate ("confirm: press " ++ OpsConfig.ck_reconnect k ++ " again to RESET + attach the device")%string w)
  else
    let hints := (OpsConfig.ck_reconnect k ++ " connect/reset · " ++ OpsConfig.ck_disconnect k ++ " disconnect · " ++
                  OpsConfig.ck_help k ++ " help · " ++ OpsConfig.ck_prev k ++ "/" ++ OpsConfig.ck_next k ++ " history · " ++
                  OpsConfig.ck_clear k ++ " clear")%string in
    match lastErr (lk p) with
    | Some m => OpsShell.paint (v_err (colors p)) false (truncate ("err: " ++ m ++ " · " ++ hints)%string w)
    | None => OpsShell.paint (v_muted (colors p)) false (truncate hints w)
    end.
(** [%-8s] of an ASCII name. *)
Definition pad8 (s : string) : string := (s ++ string_of_bytes (replicate (8 - String.length s) 32))%string.
Definition help_lines (w : Z) (p : consolePane) : list string :=
  OpsShell.paint "" true "Firmware console commands (mirrored from console.c):" ::
  (catalog ≫= λ c, [truncate ("  " ++ pad8 (Name c) ++ " " ++ Args c)%string w;
                    OpsShell.paint (v_muted (colors p)) false (truncate ("           " ++ Help c)%string w)]).
Definition renderHelp (w h : Z) (p : consolePane) : string :=
  let b := bytes_of_string (OpsKeys.Join (help_lines w p) OpsShell.newline) in
  let lines := string_of_bytes <$> split (trim_right b 10) [10] in
  OpsKeys.Join (if (0 <? h) && (h <? zlen lines) then take (Z.to_nat h) lines else lines) OpsShell.newline.
Definition View (p : consolePane) : string :=
  let w := if OpsShell.width (base p) <=? 0 then 80 else OpsShell.width (base p) in
  let h := if OpsShell.height (base p) <=? 0 then 24 else OpsShell.height (base p) in
  let body := if helpVisible (sc p) then renderHelp w (if VpHeight (vp (sc p)) <? 1 then h - 3 else VpHeight (vp (sc p))) p
              else VpView (vp (sc p)) in
  OpsKeys.Join [renderTitle w p; body; InputView (inp (sc p)); renderFooter w p] OpsShell.newline.

(** ** Runs of the pane: the shell's calls, the goroutines' turns *)

Inductive event := Tell (e : env) (m : msg) | Focused (f : bool) | Resized (w h : Z) | WriterTurn | HandedTurn (k : nat).
Definition on_session (f : Session → Session * list out) (p : consolePane) : consolePane * list out :=
  match session (lk p) with
  | Some s => let '(s, o) := f s in (set_link (with_session (Some s)) p, o)
  | None => (p, [])
  end.
Definition step (p : consolePane) (ev : event) : option (consolePane * list out) :=
  match ev with
  | Tell e m => Update e m p
  | Focused f => Some (SetFocused f p, [])
  | Resized w h => Some (SetSize w h p, [])
  | WriterTurn => Some (on_session write_turn p)
  | HandedTurn k => Some (on_session (λ s, (handed_turn k s, [])) p)
  end.
(** The outputs of each step; [None] is a panic. *)
Fixpoint steps (p : consolePane) (l : list event) : option (consolePane * list (list out)) :=
  match l with
  | [] => Some (p, [])
  | ev :: l =>
      '(p, o) ← step p ev;
      '(p, os) ← steps p l;
      Some (p, o :: os)
  end.
End pane.

End OpsConsole.
