(* ===== verification/OpsConsoleLaws.v ===== *)
(** * Laws of the device console

    Whoever attaches (and so resets) a device: the operator, a configured opt-in or a
    bounded retry; the command line has no open placeholder; the pane never indexes
    outside its history; typed lines arrive in order. And where the pane's states and
    its session part ways. *)

From S2P Require Import Prelude GoLib GoText OpsShell OpsHosts OpsConfig OpsConfigLaws OpsConsole.
Import GoLib GoText OpsConsole.

Module OpsConsoleLaws.
#[local] Abbreviation Ok := Prelude.Ok.
#[local] Abbreviation Err := Prelude.Err.

(** ** The command line *)

Lemma placeholder_none s : placeholderRe s = None → ∀ pre post, s = pre ++ post → placeholder_at post = None.
Proof.
  intros Hn pre. revert s Hn. induction pre as [|c pre IH]; intros s Hn post ->.
  - destruct post as [|c post]; [done|]. cbn [app placeholderRe] in Hn. by destruct (placeholder_at (c :: post)).
  - cbn [app placeholderRe] in Hn. eapply IH; [|done]. by destruct (placeholder_at _).
Qed.

(** No braces with a name between them are left anywhere in the text. *)
Definition resolved (cmd : string) : Prop := ∀ pre post, bytes_of_string cmd = pre ++ post → placeholder_at post = None.

Section walks.
Context (w1 w2 : list (string * string) → list (string * string)) (Hw1 : ∀ l, w1 l ≡ₚ l).

Lemma first_empty_none l tmpl : first_empty l tmpl = None →
  ∀ name val, (name, val) ∈ l → Contains tmpl (braced name) = true → val ≠ ""%string.
Proof.
  unfold first_empty. intros Hf name val Hin Hc ->. apply list_elem_of_In in Hin.
  destruct (List.find _ l) eqn:E; [done|]. pose proof (List.find_none _ _ E _ Hin) as Hno. cbn in Hno. by rewrite Hc in Hno.
Qed.
Lemma substitute_ok tmpl sub cmd : substitute w1 w2 tmpl sub = Ok cmd →
  resolved cmd ∧ cmd = replace_known (w2 (known sub)) tmpl ∧
  ∀ name val, (name, val) ∈ known sub → Contains tmpl (braced name) = true → val ≠ ""%string.
Proof.
  unfold substitute. destruct (first_empty _ _) eqn:Hf; [done|].
  destruct (placeholderRe _) eqn:Hp; [done|]. intros [= <-]. split_and!; [exact (placeholder_none _ Hp)|done|].
  intros name val Hin. apply (first_empty_none _ _ Hf). by rewrite Hw1.
Qed.
End walks.

(** ** What the pane's small steps keep *)

Section attach.
Context `{Widgets} `{OpsHosts.Regexp} `{OpsShell.Lipgloss} (home : string).

(** The parts of the pane that decide about attaching. *)
Definition conn (p : consolePane) : OpsConfig.Config * keymap * link := (cfg p, keys p, lk p).
Lemma conn_markDirty p : conn (markDirty p) = conn p.
Proof. unfold markDirty. by destruct (OpsShell.focused (base p)). Qed.
Lemma conn_say s p : conn (say s p) = conn p. Proof. done. Qed.
Lemma conn_refresh p : conn (refreshViewport p) = conn p. Proof. done. Qed.
Lemma conn_screen f p : conn (set_screen f p) = conn p. Proof. done. Qed.
Lemma conn_link f p : conn (set_link f p) = (cfg p, keys p, f (lk p)). Proof. done. Qed.
Lemma conn_state s p : conn (set_state s p) = (cfg p, keys p, with_state s (lk p)). Proof. done. Qed.
Lemma conn_data ls p : ∃ st, conn (foldl data_line p ls) = (cfg p, keys p, with_state st (lk p)).
Proof.
  revert p. induction ls as [|l ls IH]; intros p; cbn [foldl].
  - exists (state (lk p)). unfold conn. by destruct (lk p).
  - destruct (IH (data_line p l)) as [st Hst]. exists st. by rewrite Hst.
Qed.

(** ** Opening the transport *)

Definition opens (o : list out) (argv : list string) : Prop := ∃ r, Opened r argv ∈ o.
Definition built (e : env) (s : Session) (argv : list string) : Prop :=
  buildPumpArgv (walk1 e) (walk2 e) (s_cc s) (MkSubst (d_host (s_dev s)) (d_port (s_dev s)) (baudString (s_cc s))) (IsLocal (s_dev s)) = Ok argv.
Definition live (s : Session) (r : Z) : Session := MkSession (runner s) (s_cc s) (s_dev s) true false (Some r) (Some (MkInputs [] [])).

Lemma start_run_spec e p s : session (lk p) = Some s → running s = false →
  match start_run e p with
  | (Ok p', o) => ∃ r argv, o = [Opened r argv] ∧ built e s argv ∧ p' = set_link (with_session (Some (live s r))) p
  | (Err _, o) => o = []
  end.
Proof.
  intros Hs Hr. unfold start_run, Start, built. rewrite Hs, Hr.
  destruct (buildPumpArgv _ _ _ _ _) as [argv|]; [|done]. destruct (RunInteractive _ _ _) as [r|]; [|done]. by exists r, argv.
Qed.

(** The ways [connect] ends: nothing opened, or one run. *)
Definition refused (c : bool) (p : consolePane) (l : link) : Prop :=
  l = lk p ∨ l = with_state StateError (lk p) ∨
  (OpsConfig.c_confirm (cc p) = true ∧ c = false ∧ l = with_armed true (lk p)) ∨
  (∃ m, l = with_state StateError (with_err (Some m) (with_armed false (lk p)))).
Definition attached (e : env) (c : bool) (p : consolePane) (l : link) (o : list out) : Prop :=
  ∃ s r argv d, session (lk p) = Some s ∧ running s = false ∧ d_port (dev (lk p)) ≠ ""%string ∧
    (OpsConfig.c_confirm (cc p) = true → c = true) ∧ built e s argv ∧ o = [Opened r argv; TickAfter d] ∧
    l = with_activity (now e) (with_state StateResetting (with_session (Some (live s r)) (with_armed false (lk p)))).
Lemma connect_cases e c p : let '(p', o) := connect e c p in
  ∃ l, conn p' = (cfg p, keys p, l) ∧ (o = [] ∧ refused c p l ∨ attached e c p l o).
Proof.
  unfold connect, refused, attached.
  destruct (connErr (lk p)); [exists (lk p); rewrite conn_markDirty; split; [done|]; left; split; [done|]; by left|].
  destruct (session (lk p)) as [s|] eqn:Hs; [|exists (lk p); rewrite conn_markDirty; split; [done|]; left; split; [done|]; by left].
  case_bool_decide as Hport.
  { eexists. rewrite conn_markDirty. split; [done|]. left. split; [done|]. by right; left. }
  destruct (running s) eqn:Hr; [exists (lk p); split; [done|]; left; split; [done|]; by left|].
  destruct (OpsConfig.c_confirm (cc p) && negb c) eqn:Hc.
  { apply andb_true_iff in Hc as [Hc ?%negb_true_iff]. eexists. rewrite conn_markDirty. split; [done|].
    left. split; [done|]. right; right; by left. }
  pose proof (start_run_spec e (set_link (with_armed false) p) s Hs Hr) as Hst.
  destruct (start_run e (set_link (with_armed false) p)) as [[p'|m] o].
  - destruct Hst as (r & argv & -> & Hb & ->). eexists. rewrite conn_markDirty. split; [done|]. right.
    exists s, r, argv. eexists. split_and!; try done. by destruct (OpsConfig.c_confirm (cc p)), c.
  - subst o. eexists. rewrite conn_markDirty. split; [done|]. left. split; [done|]. right; right; right. by exists m.
Qed.

Lemma onReconnect_cases e p : let '(p', o) := onReconnect e p in
  ∃ l, conn p' = (cfg p, keys p, l) ∧
    (o = [] ∧ (l = lk p ∨ ∃ m, l = with_state StateError (with_err (Some m) (lk p))) ∨
     ∃ s r argv d, session (lk p) = Some s ∧ running s = false ∧ built e s argv ∧ o = [Opened r argv; TickAfter d] ∧
       l = with_activity (now e) (with_state StateResetting (with_session (Some (live s r)) (lk p)))).
Proof.
  unfold onReconnect. destruct (session (lk p)) as [s|] eqn:Hs; [|exists (lk p); split; [done|]; left; split; [done|]; by left].
  destruct (running s) eqn:Hr; [exists (lk p); split; [done|]; left; split; [done|]; by left|].
  pose proof (start_run_spec e p s Hs Hr) as Hst. destruct (start_run e p) as [[p'|m] o].
  - destruct Hst as (r & argv & -> & Hb & ->). eexists. split; [done|]. right. exists s, r, argv. eexists. by split_and!.
  - subst o. eexists. rewrite conn_markDirty. split; [done|]. left. split; [done|]. right. by exists m.
Qed.

Lemma lk_markDirty p : lk (markDirty p) = lk p.
Proof. unfold markDirty. by destruct (OpsShell.focused (base p)). Qed.
Lemma cfg_markDirty p : cfg (markDirty p) = cfg p.
Proof. unfold markDirty. by destruct (OpsShell.focused (base p)). Qed.

Definition retries (o : list out) : Z := zlen (List.filter (λ x, match x with ReconnectAfter _ => true | _ => false end) o).
(** A step that opens nothing and leaves the confirmation as it was. *)
Definition inert (p p' : consolePane) (o : list out) : Prop :=
  (∀ argv, ¬ opens o argv) ∧ confirmArmed (lk p') = confirmArmed (lk p).

Lemma finish_out s argv : ¬ opens (finish s).2 argv ∧ retries (finish s).2 = 0.
Proof. unfold finish, stop, opens. cbn [snd]. destruct (s_run s); split; try done; intros [r Hr]; set_solver. Qed.
Lemma Stop_out s argv : ¬ opens (Stop s).2 argv ∧ retries (Stop s).2 = 0.
Proof. unfold Stop, stop, opens. cbn [snd]. destruct (s_run s); split; try done; intros [r Hr]; set_solver. Qed.
Lemma retries_app o o' : retries (o ++ o') = retries o + retries o'.
Proof. unfold retries. by rewrite List.filter_app, zlen_app. Qed.
Lemma opens_app o o' argv : opens (o ++ o') argv ↔ opens o argv ∨ opens o' argv.
Proof.
  unfold opens. setoid_rewrite elem_of_app. split; [intros [r [?|?]]; eauto|]. intros [[r ?]|[r ?]]; exists r; tauto.
Qed.

Lemma report_exit_spec st code err o p : let '(p', o') := report_exit st code err o p in
  cfg p' = cfg p ∧ confirmArmed (lk p') = confirmArmed (lk p) ∧ session (lk p') = session (lk p) ∧
  (∀ argv, opens o' argv → opens o argv) ∧
  (st ≠ StateClosed → retries o' + Z.max 0 (OpsConfig.c_attempts (cc p) - reconnects (lk p')) ≤
     retries o + Z.max 0 (OpsConfig.c_attempts (cc p) - reconnects (lk p))).
Proof.
  assert (Hr : let p1 := say "link dropped (device slept / keep-awake lost)." p in
    ∀ st', st' = st → st ≠ StateClosed → st ≠ StateError → let '(p', o') := report_exit st code err o p in
    cfg p' = cfg p ∧ confirmArmed (lk p') = confirmArmed (lk p) ∧ session (lk p') = session (lk p) ∧
    (∀ argv, opens o' argv → opens o argv) ∧
    retries o' + Z.max 0 (OpsConfig.c_attempts (cc p) - reconnects (lk p')) ≤
     retries o + Z.max 0 (OpsConfig.c_attempts (cc p) - reconnects (lk p))).
  { intros p1 st' _ H2 H3. destruct st; try done; cbn [report_exit]; change (cc (say _ p)) with (cc p);
      change (lk (say _ p)) with (lk p);
      (destruct (OpsConfig.c_reconnect (cc p) && _) eqn:E; (split_and!; [done..| |]);
       [intros argv; rewrite opens_app; intros [?|[r Hr%list_elem_of_singleton]]; done
       |rewrite retries_app; apply andb_true_iff in E as [_ E%Z.ltb_lt];
        change (reconnects (lk (refreshViewport _))) with (reconnects (lk p) + 1);
        unfold reconnectCmd; change (retries [_]) with 1; lia
       |done|change (lk (refreshViewport _)) with (lk p); lia]). }
  destruct (decide (st = StateClosed)) as [->|H2]; [cbn [report_exit]; by split_and!|].
  destruct (decide (st = StateError)) as [->|H3].
  { cbn [report_exit]. split_and!; done. }
  specialize (Hr _ eq_refl H2 H3). destruct (report_exit st code err o p) as [p' o'].
  destruct Hr as (Hr1 & Hr2 & Hr3 & Hr4 & Hr5). split_and!; [exact Hr1|exact Hr2|exact Hr3|exact Hr4|intros _; exact Hr5].
Qed.

Lemma finish_session_spec l : let '(s, o) := finish_session l in
  (∀ argv, ¬ opens o argv) ∧ retries o = 0 ∧ closing_now (with_session s l) = closing_now l.
Proof.
  unfold finish_session, closing_now. destruct (session l) as [s|].
  - pose proof (finish_out s) as Hf. unfold finish in *. destruct (stop false s) as [s' o] eqn:E.
    injection E as <- <-. split_and!; [apply Hf|by apply (Hf [])|done].
  - split_and!; [intros ? [? []%elem_of_nil]|done..].
Qed.

(** The exit of a run opens nothing; the retry it may ask for uses up one attempt. *)
Definition attempts_left (p : consolePane) : Z := Z.max 0 (OpsConfig.c_attempts (cc p) - reconnects (lk p)).
Lemma applyExit_spec code err p : let '(p', o) := applyExit code err p in
  cfg p' = cfg p ∧ confirmArmed (lk p') = confirmArmed (lk p) ∧ (∀ argv, ¬ opens o argv) ∧
  (closing_now (lk p) = false → closing_now (lk p') = false ∧ retries o + attempts_left p' ≤ attempts_left p).
Proof.
  unfold applyExit. pose proof (finish_session_spec (lk p)) as Hf. destruct (finish_session (lk p)) as [s o].
  destruct Hf as (Hno & Hret & Hcl). set (st := onExit _ _). set (q := markDirty _).
  assert (Hq : lk q = with_state st (with_session s (lk p))) by (unfold q; apply lk_markDirty).
  assert (Hc : cfg q = cfg p) by (unfold q; by rewrite cfg_markDirty). clearbody q.
  pose proof (report_exit_spec st code err o q) as Hr. destruct (report_exit st code err o q) as [p' o'].
  destruct Hr as (Hc' & Ha & Hs & Ho & Hb). split_and!; [congruence|by rewrite Ha, Hq|intros argv Hx; exact (Hno _ (Ho _ Hx))|].
  intros Hcn. assert (Hst : st ≠ StateClosed).
  { unfold st. rewrite Hcn. unfold onExit. by destruct (bool_decide _). }
  specialize (Hb Hst). split.
  2:{ unfold attempts_left, cc in *. rewrite Hq, Hc in Hb. rewrite Hc', Hc. cbn [with_state with_session reconnects] in Hb. lia. }
  unfold closing_now. rewrite Hs, Hq. cbn [with_state session]. etransitivity; [exact Hcl|exact Hcn].
Qed.

(** ** One step *)

(** What a step that opens the transport has been told. *)
Definition attach_by (p : consolePane) (ev : event) (argv : list string) : Prop :=
  match ev with
  | Tell e (KeyPressMsg k) =>
      resolve (keys p) k = actReconnect ∧ is_running p = false ∧ (OpsConfig.c_confirm (cc p) = true → confirmArmed (lk p) = true)
  | Tell e (SpawnArgsMsg args) => OpsConfig.c_auto (cc p) = true
  | Tell e reconnectMsg => is_running p = false
  | _ => False
  end ∧ ∃ e s, built e s argv.
Definition arms (p : consolePane) (ev : event) : Prop :=
  match ev with Tell _ (KeyPressMsg k) => resolve (keys p) k = actReconnect | _ => False end.

Lemma nothing argv : ¬ opens [] argv.
Proof. by intros [r ?%elem_of_nil]. Qed.
Lemma armed_attached e c p l o : attached e c p l o → confirmArmed l = false.
Proof. by intros (s & r & argv & d & _ & _ & _ & _ & _ & _ & ->). Qed.
Lemma conn_lk p c k l : conn p = (c, k, l) → lk p = l.
Proof. by intros [= _ _ ->]. Qed.

Lemma running_no s p : session (lk p) = Some s → running s = false → is_running p = false.
Proof. unfold is_running. by intros -> . Qed.
Lemma opened_is r argv d x : opens [Opened r argv; TickAfter d] x → x = argv.
Proof. intros [r' [[= _ ->]|[?|[]%elem_of_nil]%elem_of_cons]%elem_of_cons]; done. Qed.

Lemma submit_armed p : confirmArmed (lk (submit p)) = confirmArmed (lk p).
Proof.
  unfold submit. cbv zeta. set (q := set_screen _ p). change (lk q) with (lk p). change (cc (set_link _ q)) with (cc q).
  destruct (session (lk p)) as [s|]; [|by rewrite lk_markDirty].
  destruct (running s); [|by rewrite lk_markDirty]. by destruct (OpsConfig.c_echo _).
Qed.
Lemma data_armed e ls p : confirmArmed (lk (applyData e ls p)) = confirmArmed (lk p).
Proof.
  unfold applyData. case_bool_decide; [done|]. rewrite lk_markDirty. destruct (conn_data ls p) as [st Hst%conn_lk].
  change (confirmArmed (lk (refreshViewport _))) with (confirmArmed (lk (foldl data_line p ls))). by rewrite Hst.
Qed.

Lemma key_step e k p p' o : onKey e k p = Some (p', o) →
  (∀ argv, opens o argv → attach_by p (Tell e (KeyPressMsg k)) argv) ∧
  (confirmArmed (lk p') = true → confirmArmed (lk p) = true ∨ arms p (Tell e (KeyPressMsg k))).
Proof.
  assert (Hscr : ∀ f, on_screen f p = Some (p', o) → o = [] ∧ lk p' = lk p).
  { intros f. unfold on_screen. destruct (f (sc p)); [|done]. by intros [= <- <-]. }
  assert (Hin : o = [] ∧ lk p' = lk p → (∀ argv, opens o argv → attach_by p (Tell e (KeyPressMsg k)) argv) ∧
     (confirmArmed (lk p') = true → confirmArmed (lk p) = true ∨ arms p (Tell e (KeyPressMsg k)))).
  { intros [-> ->]. split; [intros ? []%nothing|by left]. }
  unfold onKey. destruct (resolve (keys p) k) eqn:Hk; intros Hx; try (apply Hin, (Hscr _ Hx)).
  - injection Hx as <- <-. split; [intros ? []%nothing|]. rewrite submit_armed. by left.
  - injection Hx as <- <-. by apply Hin.
  - injection Hx as <- <-. by apply Hin.
  - injection Hx as Hx. pose proof (connect_cases e (negb (OpsConfig.c_confirm (cc p)) || confirmArmed (lk p)) p) as Hc.
    rewrite Hx in Hc. destruct Hc as (l & Hl%conn_lk & [[-> Hr]|Ha]).
    + split; [intros ? []%nothing|]. intros _. by right.
    + rewrite Hl, (armed_attached _ _ _ _ _ Ha). split; [|done].
      destruct Ha as (s & r & argv & d & Hs & Hrun & Hp & Hconf & Hb & -> & _). intros x ->%opened_is.
      split; [|by exists e, s]. split_and!; [done|by eapply running_no|]. intros Hcc. specialize (Hconf Hcc). by rewrite Hcc in Hconf.
  - destruct (session (lk p)) as [s|]; [|injection Hx as <- <-; by apply Hin].
    destruct (running s); [|injection Hx as <- <-; by apply Hin].
    pose proof (Stop_out s) as Ho. destruct (Stop s) as [s' o']. injection Hx as <- <-.
    split; [intros argv Hop; by destruct (proj1 (Ho argv) Hop)|]. rewrite lk_markDirty. by left.
Qed.

Lemma spawn_args_step e args p : let '(p', o) := handleSpawnArgs home e args p in
  (∀ argv, opens o argv → attach_by p (Tell e (SpawnArgsMsg args)) argv) ∧
  (confirmArmed (lk p') = true → confirmArmed (lk p) = true).
Proof.
  unfold handleSpawnArgs. set (p1 := set_link _ p).
  change (cfg p1) with (cfg p). destruct (OpsHosts.RunnerFor home _ _) as [r|].
  - set (p2 := set_link _ p1). change (cc p2) with (cc p). destruct (OpsConfig.c_auto (cc p)) eqn:Hauto.
    + pose proof (connect_cases e true p2) as Hc. destruct (connect e true p2) as [p' o].
      destruct Hc as (l & Hl%conn_lk & [[-> Hr]|Ha]).
      * split; [intros ? []%nothing|]. rewrite Hl. destruct Hr as [->|[->|[(_ & ? & _)|[m ->]]]]; done.
      * rewrite Hl, (armed_attached _ _ _ _ _ Ha). split; [|done].
        destruct Ha as (s & r' & argv & d & Hs & Hrun & Hp & Hconf & Hb & -> & _). intros x ->%opened_is. split; [done|by exists e, s].
    + split; [intros ? []%nothing|done].
  - split; [intros ? []%nothing|]. by rewrite lk_markDirty.
Qed.

Lemma step_spec p ev p' o : step home p ev = Some (p', o) →
  (∀ argv, opens o argv → attach_by p ev argv) ∧
  (confirmArmed (lk p') = true → ev ≠ Focused false ∧ (confirmArmed (lk p) = true ∨ arms p ev)).
Proof.
  assert (Hno : ev ≠ Focused false → (∀ argv, ¬ opens o argv) → confirmArmed (lk p') = confirmArmed (lk p) →
    (∀ argv, opens o argv → attach_by p ev argv) ∧
    (confirmArmed (lk p') = true → ev ≠ Focused false ∧ (confirmArmed (lk p) = true ∨ arms p ev))).
  { intros Hev Ho ->. split; [intros argv []%Ho|tauto]. }
  destruct ev as [e m|f|w h| |k]; cbn [step].
  - destruct m; cbn [Update].
    + intros [= Hx]. pose proof (spawn_args_step e args p) as Hs. rewrite Hx in Hs. destruct Hs as [Hs Ha]. split; [done|]. intros Hc. split; [done|]. left; auto.
    + destruct c; intros [= <- <-]; by apply Hno; [|intros ? []%nothing|].
    + intros [= Hx]. unfold releasePort in Hx. destruct (session (lk p)) as [s|]; [|injection Hx as <- <-; by apply Hno; [|intros ? []%nothing|]].
      destruct (_ && running s); [|injection Hx as <- <-; by apply Hno; [|intros ? []%nothing|]].
      pose proof (Stop_out s) as Ho. destruct (Stop s) as [s' o']. injection Hx as <- <-. apply Hno; [done|apply Ho|by rewrite lk_markDirty].
    + intros [= <- <-]. by apply Hno; [|intros ? []%nothing|apply data_armed].
    + intros [= Hx]. pose proof (applyExit_spec code err p) as Hs. rewrite Hx in Hs. destruct Hs as (_ & Ha & Ho & _). by apply Hno.
    + intros [= <- <-]. by apply Hno; [|intros ? []%nothing|apply data_armed].
    + intros [= <- <-]. by apply Hno; [|intros ? []%nothing|].
    + intros [= <- <-]. apply Hno; [done|intros ? []%nothing|]. destruct err; [by rewrite lk_markDirty|done].
    + intros [= <- <-]. apply Hno; [done|intros ? []%nothing|]. rewrite lk_markDirty. by destruct err.
    + intros [= Hx]. pose proof (applyExit_spec code err p) as Hs. rewrite Hx in Hs. destruct Hs as (_ & Ha & Ho & _). by apply Hno.
    + intros [= Hx]. unfold onQuietTick in Hx. destruct (negb (is_running p)); injection Hx as <- <-; [by apply Hno; [|intros ? []%nothing|]|].
      apply Hno; [done|by intros argv [r Hr%list_elem_of_singleton]|]. by destruct (_ && _); rewrite ?lk_markDirty.
    + intros [= Hx]. pose proof (onReconnect_cases e p) as Hs. rewrite Hx in Hs. destruct Hs as (l & Hl%conn_lk & [[-> Hr]|Ha]).
      * apply Hno; [done|apply nothing|]. rewrite Hl. by destruct Hr as [->|[m ->]].
      * destruct Ha as (s & r & argv & d & Hs & Hrun & Hb & -> & Hl'). split.
        -- intros x ->%opened_is. split; [by eapply running_no|by exists e, s].
        -- rewrite Hl, Hl'. intros Ha. split; [done|by left].
    + intros [Hk Ha]%key_step. split; [done|]. intros Hc. split; [done|auto].
  - intros [= <- <-]. destruct f; [by apply Hno; [|intros ? []%nothing|]|]. by split; [intros ? []%nothing|].
  - intros [= <- <-]. by apply Hno; [|intros ? []%nothing|].
  - unfold on_session. destruct (session (lk p)) as [s|]; [|intros [= <- <-]; by apply Hno; [|intros ? []%nothing|]].
    destruct (write_turn s) as [s' o'] eqn:Hw. intros [= <- <-]. apply Hno; [done| |done].
    unfold write_turn in Hw. repeat case_match; simplify_eq; try apply nothing. by intros argv [? ?%list_elem_of_singleton].
  - unfold on_session. destruct (session (lk p)) as [s|]; intros [= <- <-]; by apply Hno; [|intros ? []%nothing|].
Qed.

(** ** Runs *)

Lemma steps_snoc p l ev : steps home p (l ++ [ev]) =
  '(p1, os) ← steps home p l; '(p2, o) ← step home p1 ev; Some (p2, os ++ [o]).
Proof.
  revert p. induction l as [|e l IH]; intros p; cbn [app steps].
  - cbn. destruct (step home p ev) as [[p2 o]|]; reflexivity.
  - destruct (step home p e) as [[p1 o]|]; [|done]. cbn. rewrite IH.
    destruct (steps home p1 l) as [[p2 os]|]; [|done]. cbn. destruct (step home p2 ev) as [[]|]; reflexivity.
Qed.

(** The confirmation was given by an earlier press of the connect key, and the pane
    kept the focus since. *)
Definition confirmed_before (p0 : consolePane) (l : list event) : Prop :=
  ∃ l1 e k l2 p1 os1, l = l1 ++ Tell e (KeyPressMsg k) :: l2 ∧ steps home p0 l1 = Some (p1, os1) ∧
    resolve (keys p1) k = actReconnect ∧ Focused false ∉ l2.
Lemma armed_history b c l p os : steps home (New b c) l = Some (p, os) → confirmArmed (lk p) = true →
  confirmed_before (New b c) l.
Proof.
  revert p os. induction l as [|ev l IH] using rev_ind; intros p os; [by intros [= <- <-]|].
  rewrite steps_snoc. destruct (steps home (New b c) l) as [[p1 os1]|] eqn:Hl; [|done]. cbn.
  destruct (step home p1 ev) as [[p2 o]|] eqn:Hs; [|done]. intros [= <- <-] Ha.
  destruct (step_spec _ _ _ _ Hs) as [_ Harm]. destruct (Harm Ha) as [Hev [Hold|Hnew]].
  - destruct (IH _ _ eq_refl Hold) as (l1 & e & k & l2 & p0 & os0 & -> & Ha1 & Ha2 & Ha3).
    exists l1, e, k, (l2 ++ [ev]), p0, os0. split_and!; [by rewrite <- (assoc_L (++))|done..|]. set_solver.
  - destruct ev as [e [| | | | | | | | | | | |k]| | | |]; try done.
    exists l, e, k, [], p1, os1. split_and!; [done..|apply not_elem_of_nil].
Qed.

(** C16. Attaching resets the device. It happens on the connect key while no run is
    live, and where a confirmation is asked for only after an earlier press of that
    key with the focus kept since; on the arguments of a pane whose configuration
    opts in; or on the timer of a retry, with no run live. The command sent has no
    placeholder left in it, and each value it took the place of is not empty. *)
Theorem attach_authorised b c l p os ev p' o r argv :
  steps home (New b c) l = Some (p, os) → step home p ev = Some (p', o) → Opened r argv ∈ o →
  match ev with
  | Tell e (KeyPressMsg k) => resolve (keys p) k = actReconnect ∧ is_running p = false ∧
      (OpsConfig.c_confirm (cc p) = true → confirmed_before (New b c) l)
  | Tell e (SpawnArgsMsg args) => OpsConfig.c_auto (cc p) = true
  | Tell e reconnectMsg => is_running p = false
  | _ => False
  end ∧
  ∃ e tmpl sub cmd, substitute (walk1 e) (walk2 e) tmpl sub = Ok cmd ∧ resolved cmd ∧
    (argv = [cmd] ∨ argv = [localShell; "-c"%string; cmd]).
Proof.
  intros Hl Hs Ho. destruct (step_spec _ _ _ _ Hs) as [Hop _].
  destruct (Hop argv) as [Hev (e & s & Hb)]; [by exists r|]. split.
  - destruct ev as [e' [| | | | | | | | | | | |k]| | | |]; try done. destruct Hev as (Hk & Hr & Hc).
    split_and!; [done..|]. intros Hconf. eapply armed_history; eauto.
  - unfold built, buildPumpArgv in Hb. destruct (substitute _ _ _ _) as [cmd|] eqn:Hsub; [|done].
    eexists e, _, _, cmd. split_and!; [exact Hsub| |].
    + unfold substitute in Hsub. destruct (first_empty _ _); [done|]. destruct (placeholderRe _) eqn:Hp; [done|].
      injection Hsub as <-. exact (placeholder_none _ Hp).
    + destruct (IsLocal (s_dev s)); injection Hb as <-; auto.
Qed.

(** ** The history is never left *)

Definition hist_ok (p : consolePane) : Prop := 0 ≤ histPos (sc p) ≤ zlen (history (sc p)).
Definition same_history (p p' : consolePane) : Prop := histPos (sc p') = histPos (sc p) ∧ history (sc p') = history (sc p).
Lemma history_ok p p' : same_history p p' → hist_ok p → hist_ok p'.
Proof. unfold hist_ok. by intros [-> ->]. Qed.
Lemma history_markDirty p q : same_history p q → same_history p (markDirty q).
Proof. unfold same_history, markDirty. by destruct (OpsShell.focused (base q)). Qed.
Lemma history_data ls p : same_history p (foldl data_line p ls).
Proof. revert p. induction ls as [|l ls IH]; intros p; [done|]. cbn [foldl]. exact (IH (data_line p l)). Qed.
Lemma history_start e p : match start_run e p with (Ok p', _) => same_history p p' | _ => True end.
Proof. unfold start_run. destruct (session (lk p)) as [s|]; [|done]. by destruct (Start e s) as [[|] o]. Qed.
Lemma history_connect e c p : same_history p (connect e c p).1.
Proof.
  unfold connect. destruct (connErr (lk p)); [by apply history_markDirty|].
  destruct (session (lk p)) as [s|]; [|by apply history_markDirty].
  case_bool_decide; [by apply history_markDirty|]. destruct (running s); [done|].
  destruct (_ && negb c); [by apply history_markDirty|].
  pose proof (history_start e (set_link (with_armed false) p)) as Hs.
  destruct (start_run e (set_link (with_armed false) p)) as [[p'|] o]; by apply history_markDirty.
Qed.
Lemma history_report st code err o p : same_history p (report_exit st code err o p).1.
Proof. unfold report_exit. destruct st; try done; by destruct (OpsConfig.c_reconnect _ && _). Qed.
Lemma history_exit code err p : same_history p (applyExit code err p).1.
Proof.
  unfold applyExit. destruct (finish_session (lk p)) as [s o]. set (st := onExit _ _). set (q := markDirty _).
  assert (Hq : same_history p q) by (by apply history_markDirty). destruct Hq as [E1 E2].
  destruct (history_report st code err o q) as [E3 E4]. split; congruence.
Qed.

Lemma recall_some pos c : 0 ≤ pos < zlen (history c) → ∃ c', recall pos c = Some c' ∧ histPos c' = pos ∧ history c' = history c.
Proof.
  intros Hp. unfold recall. rewrite (proj2 (Z.ltb_ge pos 0)) by lia.
  destruct (lookup_lt_is_Some_2 (history c) (Z.to_nat pos)) as [line ->]; [unfold zlen in Hp; lia|]. eexists. split; [done|]. done.
Qed.
Lemma nonempty_len {A} (l : list A) : l ≠ [] → 0 < zlen l.
Proof. destruct l; [done|]. unfold zlen. cbn. lia. Qed.

Definition moves (f : screen → option screen) : Prop := ∀ c, 0 ≤ histPos c ≤ zlen (history c) →
  ∃ c', f c = Some c' ∧ 0 ≤ histPos c' ≤ zlen (history c').
Lemma prev_moves : moves historyPrev.
Proof.
  intros c Hc. unfold historyPrev. case_bool_decide as E; [by exists c|]. apply nonempty_len in E.
  destruct (recall_some (if 0 <? histPos c then histPos c - 1 else histPos c) c) as (c' & -> & E1 & E2); [destruct (Z.ltb_spec 0 (histPos c)); lia|].
  exists c'. split; [done|]. rewrite E1, E2. destruct (Z.ltb_spec 0 (histPos c)); lia.
Qed.
Lemma next_moves : moves historyNext.
Proof.
  intros c Hc. unfold historyNext. case_bool_decide as E; [by exists c|]. cbv zeta.
  set (pos := if histPos c <? zlen (history c) then histPos c + 1 else histPos c).
  destruct (Z.leb_spec (zlen (history c)) pos) as [Hle|Hlt].
  - eexists. split; [done|]. cbn. unfold zlen. lia.
  - assert (0 ≤ pos) by (unfold pos; destruct (_ <? _); lia).
    destruct (recall_some pos c) as (c' & -> & E1 & E2); [lia|]. exists c'. split; [done|]. rewrite E1, E2. lia.
Qed.
Lemma screen_step f p : moves f → hist_ok p → ∃ p' o, on_screen f p = Some (p', o) ∧ hist_ok p'.
Proof. intros Hf Hp. destruct (Hf (sc p) Hp) as (c' & Hc & Hok). unfold on_screen. rewrite Hc. eexists _, _. by split. Qed.

Lemma submit_hist p : hist_ok (submit p).
Proof.
  unfold hist_ok, submit. cbv zeta. set (h := if bool_decide _ then _ else _). set (q := set_screen _ p).
  assert (Hq : ∀ p', same_history q p' → 0 ≤ histPos (sc p') ≤ zlen (history (sc p'))).
  { intros p' [-> ->]. unfold q. cbn. unfold zlen. lia. }
  change (lk q) with (lk p). destruct (session (lk p)) as [s|]; apply Hq; [|by apply history_markDirty].
  destruct (running s); [|by apply history_markDirty]. by destruct (OpsConfig.c_echo _).
Qed.

Lemma step_total p ev : hist_ok p → ∃ p' o, step home p ev = Some (p', o) ∧ hist_ok p'.
Proof.
  intros Hp.
  assert (Hd : ∀ p' (o : list out), same_history p p' → ∃ q o', Some (p', o) = Some (q, o') ∧ hist_ok q).
  { intros p' o Hs. exists p', o. split; [done|]. by eapply history_ok. }
  assert (Hpair : ∀ x : consolePane * list out, same_history p x.1 → ∃ q o', Some x = Some (q, o') ∧ hist_ok q).
  { intros [p' o] Hs. by apply Hd. }
  destruct ev as [e m|f|w h| |k]; cbn [step].
  - destruct m; cbn [Update].
    + apply Hpair. unfold handleSpawnArgs. destruct (OpsHosts.RunnerFor home _ _); [|by apply history_markDirty].
      destruct (OpsConfig.c_auto _); [|done].
      match goal with |- same_history p (connect e true ?q).1 => exact (history_connect e true q) end.
    + destruct c; by apply Hd.
    + apply Hpair. unfold releasePort. destruct (session (lk p)) as [s|]; [|done]. destruct (_ && running s); [|done].
      destruct (Stop s). by apply history_markDirty.
    + apply Hd. unfold applyData. case_bool_decide; [done|]. apply history_markDirty. apply (history_data (frame line) p).
    + apply Hpair, history_exit.
    + apply Hd. unfold applyData. case_bool_decide; [done|]. apply history_markDirty. apply (history_data lines p).
    + by apply Hd.
    + apply Hd. destruct err; [by apply history_markDirty|done].
    + apply Hd. apply history_markDirty. by destruct err.
    + apply Hpair, history_exit.
    + apply Hpair. unfold onQuietTick. destruct (negb _); [done|]. cbn [fst]. destruct (_ && _); [by apply history_markDirty|done].
    + apply Hpair. unfold onReconnect. destruct (session (lk p)) as [s|]; [|done]. destruct (running s); [done|].
      pose proof (history_start e p) as Hs. destruct (start_run e p) as [[p'|] o]; [done|by apply history_markDirty].
    + unfold onKey. destruct (resolve (keys p) k); try (apply screen_step; [|done]; intros c Hc; eexists; by split);
        [|apply screen_step; [apply prev_moves|done]|apply screen_step; [apply next_moves|done]|by apply Hd| |apply Hpair, history_connect|].
      * eexists _, _. split; [done|]. apply submit_hist.
      * by apply Hd.
      * destruct (session (lk p)) as [s|]; [|by apply Hd]. destruct (running s); [|by apply Hd].
        destruct (Stop s). apply Hd. by apply history_markDirty.
  - apply Hd. by destruct f.
  - by apply Hd.
  - apply Hpair. unfold on_session. destruct (session (lk p)) as [s|]; [|done]. by destruct (write_turn s).
  - apply Hpair. unfold on_session. by destruct (session (lk p)).
Qed.

(** No sequence of messages, keys, resizes and goroutine turns makes the console
    pane panic: the position in its history stays within it. *)
Theorem console_total b c l : ∃ p os, steps home (New b c) l = Some (p, os) ∧ 0 ≤ histPos (sc p) ≤ zlen (history (sc p)).
Proof.
  assert (Hnew : hist_ok (New b c)) by done. revert Hnew. generalize (New b c). induction l as [|ev l IH]; intros p Hp.
  - by exists p, [].
  - cbn [steps]. destruct (step_total p ev Hp) as (p1 & o & -> & Hp1). destruct (IH p1 Hp1) as (p2 & os & Hs & Hok).
    cbn. rewrite Hs. cbn. by exists p2, (o :: os).
Qed.

(** ** Retries *)

(** What happens while nobody acts: the link's own messages, the shell's chrome. *)
Definition unattended (ev : event) : Prop :=
  match ev with
  | Tell _ (RunOutputMsg _ | RunExitMsg _ _ | ConsoleDataMsg _ | ConsoleExitMsg _ _ | quietTickMsg | reconnectMsg)
  | Focused _ | Resized _ _ | WriterTurn | HandedTurn _ => True
  | _ => False
  end.
Lemma attempts_conn p p' l : conn p' = (cfg p, keys p, l) → attempts_left p' = Z.max 0 (OpsConfig.c_attempts (cc p) - reconnects l).
Proof. intros E. injection E as E1 _ E2. unfold attempts_left, cc. by rewrite E1, E2. Qed.
Lemma conn_refl p : conn p = (cfg p, keys p, lk p). Proof. done. Qed.
Lemma closing_conn p p' l : conn p' = (cfg p, keys p, l) → closing_now (lk p') = closing_now l.
Proof. by intros [= _ _ ->]. Qed.
Lemma on_session_left f p : (∀ s, closing (f s).1 = closing s ∧ retries (f s).2 = 0) →
  let '(p', o) := on_session f p in closing_now (lk p) = false → closing_now (lk p') = false ∧ retries o + attempts_left p' ≤ attempts_left p.
Proof.
  intros Hf. unfold on_session, closing_now. destruct (session (lk p)) as [s|] eqn:Hs; [|rewrite Hs; intros _; split; [done|change (retries []) with 0; lia]].
  specialize (Hf s). destruct (f s) as [s' o]. destruct Hf as [Hc Hr]. cbn in *. intros <-. split; [done|].
  rewrite Hr. change (attempts_left (set_link (with_session (Some s')) p)) with (attempts_left p). lia.
Qed.
Lemma unattended_step p ev p' o : step home p ev = Some (p', o) → unattended ev → closing_now (lk p) = false →
  closing_now (lk p') = false ∧ retries o + attempts_left p' ≤ attempts_left p.
Proof.
  assert (Hdata : ∀ e ls, conn (applyData e ls p) = (cfg p, keys p, lk p) ∨
      ∃ st, conn (applyData e ls p) = (cfg p, keys p, with_activity (now e) (with_state st (lk p)))).
  { intros e ls. unfold applyData. case_bool_decide; [by left|right]. destruct (conn_data ls p) as [st Hst]. exists st.
    rewrite conn_markDirty, conn_refresh, conn_link. injection Hst as -> -> ->. done. }
  assert (Hsame : ∀ l, conn p' = (cfg p, keys p, l) → closing_now l = closing_now (lk p) → reconnects l = reconnects (lk p) → retries o = 0 →
    closing_now (lk p) = false → closing_now (lk p') = false ∧ retries o + attempts_left p' ≤ attempts_left p).
  { intros l Hc Hcl Hre -> Hn. rewrite (closing_conn _ _ _ Hc), Hcl. split; [done|].
    rewrite (attempts_conn _ _ _ Hc), Hre. unfold attempts_left. lia. }
  assert (Hdata' : ∀ e ls, Some (applyData e ls p, []) = Some (p', o) → closing_now (lk p) = false →
      closing_now (lk p') = false ∧ retries o + attempts_left p' ≤ attempts_left p).
  { intros e ls [= <- <-]. destruct (Hdata e ls) as [E|[st E]]; by apply (Hsame _ E). }
  destruct ev as [e m|f|w h| |k]; cbn [step].
  - destruct m; cbn [Update]; try done; try (intros Hx _; by eapply Hdata').
    + intros [= Hx] _. pose proof (applyExit_spec code err p) as Hs. rewrite Hx in Hs. apply Hs.
    + intros [= Hx] _. pose proof (applyExit_spec code err p) as Hs. rewrite Hx in Hs. apply Hs.
    + intros [= Hx] _. unfold onQuietTick in Hx. destruct (negb (is_running p)); injection Hx as <- <-; [by eapply Hsame|].
      destruct (_ && _); [|by eapply Hsame]. eapply Hsame; [rewrite conn_markDirty; apply conn_state|done..].
    + intros [= Hx] _. pose proof (onReconnect_cases e p) as Hs. rewrite Hx in Hs.
      destruct Hs as (l & Hl & [[-> Hr]|(s & r & argv & d & Hs & Hrun & Hb & -> & Hl')]).
      * destruct Hr as [->|[m ->]]; by eapply Hsame.
      * subst l. intros Hcl. rewrite (closing_conn _ _ _ Hl), (attempts_conn _ _ _ Hl). split; [done|].
        change (retries _) with 0. unfold attempts_left. cbn. lia.
  - intros [= <- <-] _. destruct f; by eapply Hsame.
  - intros [= <- <-] _. by eapply Hsame.
  - intros [= Hx] _. pose proof (on_session_left write_turn p) as Hs. rewrite Hx in Hs. apply Hs.
    intros s. unfold write_turn. by repeat case_match.
  - intros [= Hx] _. pose proof (on_session_left (λ s, (handed_turn k s, [])) p) as Hs. rewrite Hx in Hs. apply Hs.
    intros s. unfold handed_turn. by repeat case_match.
Qed.

(** Left alone, a pane asks for at most as many retries, each of which resets the
    device, as the configuration has left, whatever the link does. *)
Theorem retries_bounded p l p' os : steps home p l = Some (p', os) → Forall unattended l → closing_now (lk p) = false →
  retries (concat os) ≤ attempts_left p.
Proof.
  intros Hs Hl Hc. assert (retries (concat os) + attempts_left p' ≤ attempts_left p).
  { revert p os Hs Hc. induction Hl as [|ev l Hev Hl IH]; intros p os; cbn [steps].
    - intros [= <- <-] _. change (retries (concat [])) with 0. lia.
    - destruct (step home p ev) as [[p1 o]|] eqn:Hs; [|done]. cbn. destruct (steps home p1 l) as [[p2 os']|] eqn:Hs'; [|done].
      intros [= <- <-] Hc. destruct (unattended_step _ _ _ _ Hs Hev Hc) as [Hc1 Hb]. specialize (IH _ _ Hs' Hc1).
      cbn. rewrite retries_app. lia. }
  assert (0 ≤ attempts_left p') by (unfold attempts_left; lia). lia.
Qed.
End attach.

(** ** Typed lines *)

Inductive turn := Typed (b : bytes) | Written.
Definition turn_step (x : Session * list bytes) (t : turn) : Session * list bytes :=
  match t with
  | Typed b => (SendLine b x.1, x.2)
  | Written => let '(s, o) := write_turn x.1 in
               (s, x.2 ++ omap (λ y, match y with Wrote _ b => Some b | _ => None end) o)
  end.
Definition typed (l : list turn) : list bytes := omap (λ t, match t with Typed b => Some b | Written => None end) l.
Definition queued (s : Session) : list bytes := match inputCh s with Some i => chan i | None => [] end.

Lemma typed_in_order_go s sent wrote l r ch : running s = true → s_run s = Some r → inputCh s = Some (MkInputs ch []) →
  sent = wrote ++ ch → zlen ch + zlen (typed l) ≤ chan_cap →
  let '(s', w) := foldl turn_step (s, wrote) l in w ++ queued s' = sent ++ typed l.
Proof.
  revert s sent wrote ch. induction l as [|t l IH]; intros s sent wrote ch Hr Hrun Hch -> Hlen; cbn [foldl].
  - unfold queued. rewrite Hch. cbn. by rewrite app_nil_r.
  - destruct t as [b|]; cbn [turn_step fst snd].
    + cbn [typed omap list_omap] in *. fold (typed l) in *. rewrite zlen_cons in Hlen.
      assert (Hs : SendLine b s = MkSession (runner s) (s_cc s) (s_dev s) true (closing s) (Some r) (Some (MkInputs (ch ++ [b]) []))).
      { unfold SendLine. rewrite Hr, Hch. cbn [chan handed]. rewrite (proj2 (Z.ltb_lt _ _)) by (unfold zlen in *; lia). by rewrite Hrun. }
      rewrite Hs. replace ((wrote ++ ch) ++ b :: typed l) with ((wrote ++ (ch ++ [b])) ++ typed l) by (by rewrite <- !(assoc_L (++))).
      eapply (IH _ _ wrote (ch ++ [b])); try done. rewrite zlen_app. unfold zlen in *. cbn [length]. lia.
    + cbn [typed omap list_omap] in *. fold (typed l) in *. unfold write_turn. rewrite Hrun, Hch. destruct ch as [|b ch].
      * cbn [omap list_omap]. rewrite !app_nil_r. eapply IH; try done. by rewrite app_nil_r.
      * cbn [omap list_omap]. eapply (IH _ _ (wrote ++ [b]) ch); try done; [by rewrite <- (assoc_L (++))|].
        rewrite zlen_cons in Hlen. lia.
Qed.
(** While no more than the channel holds is waiting, the child reads the typed lines in
    the order they were typed. *)
Lemma typed_in_order s r l : running s = true → s_run s = Some r → inputCh s = Some (MkInputs [] []) →
  zlen (typed l) ≤ chan_cap → let '(s', w) := foldl turn_step (s, []) l in w ++ queued s' = typed l.
Proof. intros Hr Hrun Hch Hlen. by apply (typed_in_order_go s [] [] l r []). Qed.

(** ** Concrete runs *)

#[local] Instance demo_widgets : Widgets := {|
  input := string; new_input := λ _, ""%string; Value := id; SetValue := λ s _, s; ResetInput := λ _, ""%string; CursorEnd := id;
  Focus := id; Blur := id; InputWidth := λ _, id; Edit := λ k s, (s ++ k)%string; InputView := id;
  viewport := unit; new_viewport := tt; SetContentLines := λ _, id; GotoBottom := id; ScrollUp := λ _, id; ScrollDown := λ _, id;
  AtBottom := λ _, true; SetVpSize := λ _ _, id; VpHeight := λ _, 20; VpView := λ _, ""%string |}.
#[local] Instance demo_regexp : OpsHosts.Regexp := λ pat, Some (OpsHosts.MkRegexp (λ s, Contains s pat) (λ _, ""%string)).
#[local] Instance demo_lipgloss : OpsShell.Lipgloss :=
  {| OpsShell.paint := λ _ _ s, s; OpsShell.plain := λ s, s; OpsShell.cells := λ s, Z.of_nat (String.length s);
     OpsShell.box := λ _ _ _ s, s; OpsShell.padded := λ _ _ s, s |}.
(** The defaults with a short scrollback. *)
Definition demo_console : OpsConfig.Console :=
  let c := OpsConfig.default_console in
  OpsConfig.MkConsole (OpsConfig.c_ssh c) (OpsConfig.c_ssh_args c) (OpsConfig.c_remote c) (OpsConfig.c_baud c) (OpsConfig.c_auto c)
    (OpsConfig.c_reconnect c) (OpsConfig.c_backoff_ms c) (OpsConfig.c_attempts c) 4 (OpsConfig.c_endings c) (OpsConfig.c_echo c)
    (OpsConfig.c_quiet_ms c) (OpsConfig.c_banner c) (OpsConfig.c_confirm c) (OpsConfig.c_log_dir c) (OpsConfig.c_keys c).
Definition demo_config : OpsConfig.Config :=
  let c := OpsConfig.defaults in
  OpsConfig.MkConfig (OpsConfig.Schema c) (OpsConfig.MetaName c) (OpsConfig.reload c) (OpsConfig.ui c) (OpsConfig.keys c) (OpsConfig.Theme c)
    (OpsConfig.database c) (OpsConfig.ssh c) (OpsConfig.poll c) (OpsConfig.tty_glob c) (OpsConfig.run c) (OpsConfig.reconnect c) (OpsConfig.hosts c)
    (OpsConfig.build c) (OpsConfig.flash c) demo_console (OpsConfig.ota c) (OpsConfig.telemetry c) (OpsConfig.logs c) (OpsConfig.devices c).
Definition demo_pane : consolePane := New (OpsShell.SetFocused true (OpsShell.NewBase "console-7" "console")) demo_config.
Definition at_ (run t : Z) : env := MkEnv t (λ _ _, Ok run) id id.
Definition demo_args : gmap string string := list_to_map [("host", "local"); ("port", "/dev/ttyACM0")]%string.
Definition key (run : Z) (k : string) : event := Tell (at_ run 0) (KeyPressMsg k).
Definition say_ (m : msg) : event := Tell (at_ 9 0) m.
Definition ran (l : list event) : option (ConnState * list out) :=
  '(p, os) ← steps "/home/op" demo_pane l; Some (state (lk p), concat os).
Definition pump : string :=
  "stty -F /dev/ttyACM0 115200 raw -echo -ixon; trap 'kill $catpid 2>/dev/null' EXIT HUP INT TERM; cat /dev/ttyACM0 & catpid=$!; cat > /dev/ttyACM0; kill $catpid 2>/dev/null".
Definition attach_1 : list event := [say_ (SpawnArgsMsg demo_args); key 1 "ctrl+r"; key 1 "ctrl+r"].

Example attaches : ran attach_1 = Some (StateResetting, [Opened 1 ["sh"; "-c"; pump]; TickAfter 2000000000]).
Proof. vm_compute. reflexivity. Qed.
Example blur_disarms : ran [say_ (SpawnArgsMsg demo_args); key 1 "ctrl+r"; Focused false; Focused true; key 1 "ctrl+r"] = Some (StateIdle, []).
Proof. vm_compute. reflexivity. Qed.
Example line_sent : ran (attach_1 ++ [say_ (RunOutputMsg "=== PicPak Setup Console ==="); key 1 "INFO"; key 1 "enter"; WriterTurn]) =
  Some (StateAttached, [Opened 1 ["sh"; "-c"; pump]; TickAfter 2000000000; Wrote 1 (bytes_of_string "INFO" ++ [13; 10])]).
Proof. vm_compute. reflexivity. Qed.
Example duration_texts : duration_text <$> [0; 1500000000; 90000000000; 3600000000000; 1500; 250000000; -2000000000] =
  ["0s"; "1.5s"; "1m30s"; "1h0m0s"; "1.5µs"; "250ms"; "-2s"]%string.
Proof. vm_compute. reflexivity. Qed.
Example frames : frame <$> [("a" ++ cr ++ lf ++ "b" ++ cr ++ "c" ++ lf)%string; ("> ")%string; (lf ++ lf)%string] = [["a"; "b"; "c"]; ["> "]; [""; ""]]%string.
Proof. vm_compute. reflexivity. Qed.

Definition is_some_b {A} (x : option A) : bool := match x with Some _ => true | None => false end.
Definition or_start {A} (x : option (consolePane * list A)) : consolePane * list A := default (demo_pane, []) x.
Definition run_ (p : consolePane) (l : list event) : consolePane * list (list out) := or_start (steps "/home/op" p l).
Definition runs_ (p : consolePane) (l : list event) : bool := match steps "/home/op" p l with Some _ => true | None => false end.
Lemma runs_to p l : runs_ p l = true → steps "/home/op" p l = Some (run_ p l).
Proof. unfold runs_, run_, or_start. by destruct (steps _ _ _). Qed.
Lemma run_pair p l : runs_ p l = true → steps "/home/op" p l = Some ((run_ p l).1, (run_ p l).2).
Proof. intros Hr. rewrite (runs_to p l Hr). by destruct (run_ p l). Qed.

Definition armed_events : list event := [say_ (SpawnArgsMsg demo_args); key 1 "ctrl+r"].
Definition demo_armed : consolePane := (run_ demo_pane armed_events).1.
Definition demo_attach : consolePane * list out := or_start (step "/home/op" demo_armed (key 1 "ctrl+r")).
Lemma demo_attach_step : step "/home/op" demo_armed (key 1 "ctrl+r") = Some (demo_attach.1, demo_attach.2).
Proof.
  assert (Hs : is_some_b (step "/home/op" demo_armed (key 1 "ctrl+r")) = true) by (vm_compute; reflexivity).
  unfold demo_attach. by destruct (step "/home/op" demo_armed (key 1 "ctrl+r")) as [[]|].
Qed.
Lemma demo_opened : demo_attach.2 = [Opened 1 ["sh"; "-c"; pump]; TickAfter 2000000000]%string.
Proof. vm_compute. reflexivity. Qed.
Lemma attach_authorised_witness :
  Opened 1 ["sh"%string; "-c"%string; pump] ∈ demo_attach.2 ∧ resolve (keys demo_armed) "ctrl+r" = actReconnect ∧
  confirmed_before "/home/op" demo_pane armed_events.
Proof.
  assert (Ho : Opened 1 ["sh"%string; "-c"%string; pump] ∈ demo_attach.2) by (rewrite demo_opened; left).
  destruct (attach_authorised "/home/op" _ _ _ _ _ _ _ _ _ _ (run_pair demo_pane armed_events eq_refl) demo_attach_step Ho)
    as [(Hk & Hr & Hc) _].
  split; [exact Ho|]. split; [exact Hk|]. apply Hc. vm_compute. reflexivity.
Defined.

Definition attached_pane : consolePane := (run_ demo_pane attach_1).1.
Definition drops : list event := concat (replicate 9 [say_ (RunExitMsg 0 None); say_ reconnectMsg]).
Lemma retries_bounded_witness :
  retries (concat (run_ attached_pane drops).2) = 5 ∧ retries (concat (run_ attached_pane drops).2) ≤ attempts_left attached_pane.
Proof.
  split; [vm_compute; reflexivity|].
  apply (retries_bounded "/home/op" attached_pane drops _ _ (run_pair attached_pane drops eq_refl)); [|vm_compute; reflexivity].
  repeat constructor.
Defined.

(** ** Where the states and the session part ways *)

(** The exit of a run that was disconnected reaches the session attached after it, and
    ends that one: the device is reset again by the retry. *)
Example stale_exit_ends_new_run :
  ran (attach_1 ++ [key 2 "ctrl+d"; key 2 "ctrl+r"; key 2 "ctrl+r"; say_ (RunExitMsg (-1) None)]) =
  Some (StateReconnecting,
    [Opened 1 ["sh"; "-c"; pump]; TickAfter 2000000000; StdinClosed 1; Cancelled 1; Opened 2 ["sh"; "-c"; pump]; TickAfter 2000000000;
     StdinClosed 2; Cancelled 2; ReconnectAfter 1500000000]).
Proof. vm_compute. reflexivity. Qed.

(** Between a drop and its retry neither the disconnect key nor the release of the
    port for flashing calls the retry off: it opens the port all the same. *)
Example retry_ignores_release :
  ran (attach_1 ++ [say_ (RunExitMsg 0 None); say_ (ReleaseDevicePortMsg "/dev/ttyACM0"); key 2 "ctrl+d"; say_ reconnectMsg]) =
  Some (StateResetting,
    [Opened 1 ["sh"; "-c"; pump]; TickAfter 2000000000; StdinClosed 1; Cancelled 1; ReconnectAfter 1500000000;
     Opened 9 ["sh"; "-c"; pump]; TickAfter 2000000000]).
Proof. vm_compute. reflexivity. Qed.

(** New arguments replace the session and leave its run alive, even past [Close]. *)
Example respawn_leaves_run :
  (x ← steps "/home/op" demo_pane (attach_1 ++ [say_ (SpawnArgsMsg demo_args)]); Some (is_running x.1, (Close x.1).2)) = Some (false, []).
Proof. vm_compute. reflexivity. Qed.

(** A blank line of the device is dropped. *)
Example blank_line_dropped e p : applyData e (frame "") p = p.
Proof. done. Qed.

(** Once 256 lines wait, a later line can overtake an earlier one. *)
Definition full_session : Session :=
  MkSession (OpsHosts.localRunner (OpsHosts.MkRunConfig "" [] "" 0 0)) OpsConfig.default_console (MkDev "" "" "" "" true) true false (Some 1)
    (Some (MkInputs (replicate 256 []) [])).
Example overflow_reorders :
  let s := SendLine [66] (write_turn (SendLine [65] full_session)).1 in
  queued (handed_turn 0 (write_turn s).1) = replicate 254 [] ++ [[66]; [65]].
Proof. vm_compute. reflexivity. Qed.

(** The attempts of drops that were followed by a full attachment count as well. *)
Example attached_retries_add_up :
  ran (attach_1 ++ concat (replicate 5 [say_ (RunExitMsg 0 None); say_ reconnectMsg; say_ (RunOutputMsg "=== PicPak Setup Console ===")]) ++
       [say_ (RunExitMsg 0 None)]) ≫= (λ x, Some x.1) = Some StateSleeping.
Proof. vm_compute. reflexivity. Qed.

End OpsConsoleLaws.
