(* ===== verification/OpsBuild.v ===== *)
(** * The firmware build ([tools/picpak-ops/internal/build], [buildpane])

    The resolved configuration, the preflight, the generators, the container's
    command line, the verification of the artifacts, the pipeline that strings them
    together and the pane that shows it. Commands run outside: the machine of each
    stage is a record that answers them; the parser of the flasher arguments and the
    walk of a map are parameters. *)

From S2P Require Import Prelude GoLib GoText Crypto OpsKeys OpsShell OpsHosts OpsConfig OpsConsole.
Import GoLib GoText.

Module OpsBuild.
#[local] Abbreviation Ok := Prelude.Ok.
#[local] Abbreviation Err := Prelude.Err.

(** ** Texts *)

Definition hex2 (c : Z) : bytes := [92; 120; hex_digit (c / 16); hex_digit (c mod 16)].
(** [%q]: a byte of an escape, a printable character as it is. *)
Definition quote_byte (c : Z) : bytes :=
  if c =? 34 then [92; 34] else if c =? 92 then [92; 92] else if c =? 7 then [92; 97] else if c =? 8 then [92; 98]
  else if c =? 12 then [92; 102] else if c =? 10 then [92; 110] else if c =? 13 then [92; 114] else if c =? 9 then [92; 116]
  else if c =? 11 then [92; 118] else if (c <? 32) || (c =? 127) then hex2 c else [c].
Definition q (s : string) : string := string_of_bytes ([34] ++ (bytes_of_string s ≫= quote_byte) ++ [34]).
Definition TrimPrefix : string → string → string := OpsConfig.TrimPrefix.

(** ** The resolved configuration (config.go) *)

Record SetupStep := MkSetup { su_name : string; su_argv : list string }.
Record CodegenSpec := MkSpec { cg_name : string; cg_argv : list string; cg_output : string; cg_src : string; SrcAbs : string }.
Record ArtifactSpec := MkArtifactSpec { as_name : string; as_file : string; PathAbs : string; as_offset : string; MinSize : Z; ExactSize : Z }.
Record Config := MkConfig {
  Host : string; Local : bool; RepoAbs : string; FirmwareDir : string; ArtifactDir : string; DockerCmd : string; DockerImage : string;
  Target : string; BuildCmd : list string; DockerRunArgs : list string; ContainerNameTmpl : string; PythonBin : string;
  PythonImportProbe : string; StatBin : string; Sha256Bin : string; FontsDir : string; Setup : list SetupStep;
  Codegen : list CodegenSpec; RequiredComponents : list string; Artifacts : list ArtifactSpec; FlasherArgsPath : string;
  AppPath : string; OTASlotSize : Z; ErrorTailLines : Z; PaneScrollback : Z; GateDisclaimer : string; CancelKillGrace : Z;
  CancelKey : string; RerunKey : string }.
Definition resolveUnder (base p : string) : string :=
  if bool_decide (p = ""%string) then base else if IsAbs p then p else Join base p.
Definition resolveScriptArgv (firmwareDir : string) (cmd : list string) : list string :=
  match cmd with
  | a :: b :: rest => a :: resolveUnder firmwareDir b :: rest
  | _ => cmd
  end.
(** [filepath.Abs] in the directory [cwd]. *)
Definition Abs (cwd p : string) : string := if IsAbs p then string_of_bytes (clean (bytes_of_string p)) else Join cwd p.
Definition or_text (a b : string) : string := if bool_decide (a = ""%string) then b else a.
Definition NewConfig (cwd : string) (c : OpsConfig.Config) (repoOverride : string) : Config :=
  let b := OpsConfig.build c in
  let repoPath := or_text repoOverride (OpsConfig.b_repo b) in
  let loc := bool_decide (OpsConfig.b_host b = ""%string) || bool_decide (OpsConfig.b_host b = "local"%string) in
  let repoBase := if loc then Abs cwd repoPath else repoPath in
  let firmwareDir := resolveUnder repoBase (OpsConfig.b_firmware_dir b) in
  let artifactDir := resolveUnder repoBase (OpsConfig.b_artifact_dir b) in
  MkConfig (OpsConfig.b_host b) loc repoBase firmwareDir artifactDir (OpsConfig.b_docker b) (OpsConfig.b_image b) (OpsConfig.b_target b)
    (OpsConfig.b_cmd b) (OpsConfig.b_run_args b) (OpsConfig.b_container b) (OpsConfig.b_python b) (OpsConfig.b_probe b)
    (OpsConfig.b_stat b) (OpsConfig.b_sha b) (resolveUnder firmwareDir (OpsConfig.b_fonts b))
    ((λ s, MkSetup (OpsConfig.st_name s) (resolveScriptArgv firmwareDir (OpsConfig.st_cmd s))) <$> OpsConfig.b_setup b)
    ((λ s, MkSpec (OpsConfig.st_name s) (resolveScriptArgv firmwareDir (OpsConfig.st_cmd s)) (OpsConfig.st_output s) (OpsConfig.st_src s)
             (if bool_decide (OpsConfig.st_src s = ""%string) then ""%string else resolveUnder firmwareDir (OpsConfig.st_src s))) <$> OpsConfig.b_codegen b)
    (OpsConfig.b_components b)
    ((λ a, MkArtifactSpec (OpsConfig.ar_name a) (OpsConfig.ar_file a) (resolveUnder artifactDir (OpsConfig.ar_file a))
             (OpsConfig.ar_offset a) (OpsConfig.ar_min a) (OpsConfig.ar_exact a)) <$> OpsConfig.b_artifacts b)
    (resolveUnder firmwareDir (OpsConfig.b_flasher_args b)) (resolveUnder firmwareDir (OpsConfig.b_app b)) (OpsConfig.b_slot b)
    (OpsConfig.b_tail b) (OpsConfig.b_pane_scrollback b) (OpsConfig.b_disclaimer b) (i64 (OpsConfig.b_grace_ms b * 1000000))
    (OpsConfig.bk_cancel (OpsConfig.b_keys b)) (OpsConfig.bk_rerun (OpsConfig.b_keys b)).

(** ** Results (result.go, artifacts.go) *)

Inductive Stage := StageIdle | StagePreflight | StageCodegen | StageDockerBuild | StageVerify | StageDone | StageFailed | StageCanceled.
#[global] Instance Stage_eq_dec : EqDecision Stage.
Proof. solve_decision. Defined.
Definition Stage_text (s : Stage) : string :=
  match s with
  | StageIdle => "idle" | StagePreflight => "preflight" | StageCodegen => "codegen" | StageDockerBuild => "docker-build"
  | StageVerify => "verify" | StageDone => "done" | StageFailed => "failed" | StageCanceled => "canceled"
  end.
Definition Terminal (s : Stage) : bool := bool_decide (s ∈ [StageDone; StageFailed; StageCanceled]).
Inductive Severity := SeverityWarn | SeverityBlock.
#[global] Instance Severity_eq_dec : EqDecision Severity.
Proof. solve_decision. Defined.
Record Finding := MkFinding { f_stage : Stage; f_severity : Severity; Text : string; Fix : string }.
Inductive Stream := Stdout | Stderr.
#[global] Instance Stream_eq_dec : EqDecision Stream.
Proof. solve_decision. Defined.
Record Line := MkLine { l_text : string; l_stream : Stream }.
Record StageTiming := MkTiming { t_stage : Stage; t_rc : Z; t_duration : Z }.
Record Artifact := MkArtifact { a_name : string; a_file : string; a_path : string; a_offset : string; a_size : Z }.
Definition no_artifact : Artifact := MkArtifact "" "" "" "" 0.
Record ArtifactSet := MkSet { s_artifacts : list Artifact; App : Artifact; AppSHA256 : string; Version : string }.
Definition app_named (l : list Artifact) : option Artifact := List.find (λ a, bool_decide (a_name a = "app"%string)) l.
Definition AppArtifact (s : ArtifactSet) : Artifact := default (default no_artifact (last (s_artifacts s))) (app_named (s_artifacts s)).
Record BuildResult := MkResult {
  RC : Z; r_stage : Stage; Stages : list StageTiming; r_artifacts : option ArtifactSet; Findings : list Finding;
  ErrTail : list string; r_err : option string; Canceled : bool }.
Definition Green (r : BuildResult) : bool :=
  (RC r =? 0) && bool_decide (r_stage r = StageDone) && bool_decide (is_Some (r_artifacts r)).
Inductive msg :=
| StageEnteredMsg (s : Stage) (at_ : Z) | OutputLinesMsg (s : Stage) (l : list Line) | StageDoneMsg (s : Stage) (rc : Z) (d : Z)
| FindingMsg (f : Finding) | BuildDoneMsg (r : BuildResult).

(** ** The host of a stage *)

(** How a captured command ends; what it printed comes back in any case. *)
Inductive capture := Captured (out : string) | Exited (code : Z) (out err : string) | NotRun (out err : string).
Definition out_of (c : capture) : string := match c with Captured o | Exited _ o _ | NotRun o _ => o end.
Definition err_of (c : capture) : option string := match c with Captured _ => None | Exited _ _ e | NotRun _ e => Some e end.
Record world := MkWorld {
  CaptureOutput : list string → capture; Stat : string → option Z; ReadFile : string → option bytes }.
Definition classifyCapture (c : capture) : Z * option string * string :=
  match c with
  | Captured _ => (0, None, ""%string)
  | Exited code _ e => (if code <? 0 then -1 else code, None, TrimSpace e)
  | NotRun _ e => (-1, Some e, TrimSpace e)
  end.
Definition splitLines (out : string) : list string :=
  let out := trim_right (bytes_of_string (ReplaceAll out (OpsConsole.cr ++ OpsConsole.lf)%string OpsConsole.lf)) 10 in
  if bool_decide (out = []) then [] else string_of_bytes <$> split out [10].

(** The probe of the host: its files, or commands that ask for them. *)
Record fileProbe := MkProbe { size : string → option Z; sha256hex : string → option string; readFile : string → option bytes }.
Definition localFileProbe (w : world) : fileProbe :=
  MkProbe (Stat w) (λ p, (λ b, string_of_bytes (hex_encode (Crypto.sha256 b))) <$> ReadFile w p) (ReadFile w).
Definition captured (c : capture) : option string := match c with Captured o => Some o | _ => None end.
Definition remoteFileProbe (cfg : Config) (w : world) : fileProbe :=
  MkProbe
    (λ p, out ← captured (CaptureOutput w [StatBin cfg; "-c"; "%s"; p]%string);
          match parse_int (TrimSpace out) 64 with (n, None) => Some n | _ => None end)
    (λ p, out ← captured (CaptureOutput w [Sha256Bin cfg; p]);
          match OpsKeys.Fields out with [] => None | f :: _ => Some (OpsHosts.ToLower f) end)
    (λ p, bytes_of_string <$> captured (CaptureOutput w ["cat"%string; p])).
Definition newFileProbe (cfg : Config) (w : world) : fileProbe := if Local cfg then localFileProbe w else remoteFileProbe cfg w.

(** ** Preflight and setup (preflight.go) *)

Definition blockFinding (stage : Stage) (fix_ text : string) : Finding := MkFinding stage SeverityBlock text fix_.
Definition warnFinding (stage : Stage) (text : string) : Finding := MkFinding stage SeverityWarn text "".
Definition failed (c : capture) : bool := bool_decide (err_of c ≠ None).
Definition absent {A} (o : option A) : bool := match o with Some _ => false | None => true end.
Definition runPreflight (cfg : Config) (w : world) : list Finding :=
  let probe := newFileProbe cfg w in
  match (if Local cfg then None else err_of (CaptureOutput w ["true"%string])) with
  | Some e => [blockFinding StagePreflight "" ("build host " ++ q (Host cfg) ++ " is unreachable: " ++ e)%string]
  | None =>
      (if failed (CaptureOutput w [DockerCmd cfg; "image"; "inspect"; DockerImage cfg]%string) then
         [warnFinding StagePreflight ("docker image " ++ q (DockerImage cfg) ++ " not present on the build host; the build will pull it (slow on first run)")%string]
       else []) ++
      (if failed (CaptureOutput w [PythonBin cfg; "-c"%string; PythonImportProbe cfg]) then
         [blockFinding StagePreflight "" ("Pillow missing on the build host (" ++ PythonBin cfg ++ " -c " ++ q (PythonImportProbe cfg) ++ " failed); install it (codegen needs PIL)")%string]
       else []) ++
      (let missing := List.filter (λ c, absent (size probe (resolveUnder (FirmwareDir cfg) (Join "components" c)))) (RequiredComponents cfg) in
       if bool_decide (missing = []) then []
       else [blockFinding StagePreflight "setup" ("missing firmware components: " ++ OpsKeys.Join missing ", " ++ " — run the one-time setup scripts (network) on confirm")%string]) ++
      omap (λ s, if bool_decide (SrcAbs s = ""%string) then None
                 else if absent (size probe (SrcAbs s)) then
                   Some (blockFinding StagePreflight "" ("codegen source " ++ cg_src s ++ " for generator " ++ q (cg_name s) ++ " is missing")%string)
                 else None) (Codegen cfg) ++
      (if absent (size probe (FontsDir cfg)) then
         [blockFinding StagePreflight "" ("fonts dir " ++ FontsDir cfg ++ " is missing (gen_screens/gen_font16 need it)")%string]
       else [])
  end.
Definition out_line (t : string) : Line := MkLine t Stdout.
Fixpoint runSetup (w : world) (l : list SetupStep) : list Line * Z :=
  match l with
  | [] => ([], 0)
  | s :: l =>
      let c := CaptureOutput w (su_argv s) in
      let '(code, _, tail) := classifyCapture c in
      let head := out_line ("setup: " ++ su_name s ++ " …")%string :: (out_line <$> splitLines (out_of c)) in
      if negb (code =? 0) then
        (head ++ [MkLine ("setup: " ++ su_name s ++ " FAILED (rc=" ++ format_int code ++ "): " ++ tail)%string Stderr], code)
      else let '(lines, rc) := runSetup w l in (head ++ [out_line ("setup: " ++ su_name s ++ " ok")%string] ++ lines, rc)
  end.

(** ** Generators (codegen.go): independent, so their order does not matter *)

Record codegenResult := MkCodegen { g_spec : CodegenSpec; g_rc : Z; g_lines : list Line; g_err : option string }.
Definition generate (w : world) (s : CodegenSpec) : codegenResult :=
  let c := CaptureOutput w (cg_argv s) in
  let '(rc, transportErr, tail) := classifyCapture c in
  MkCodegen s rc
    ((out_line <$> splitLines (out_of c)) ++
     [if rc =? 0 then out_line ("codegen: " ++ cg_name s ++ " → " ++ cg_output s ++ " ok")%string
      else MkLine ("codegen: " ++ cg_name s ++ " (" ++ cg_output s ++ ") FAILED (rc=" ++ format_int rc ++ "): " ++ tail)%string Stderr])
    transportErr.
Definition first_rc (l : list codegenResult) : Z := default 0 (List.find (λ rc, negb (rc =? 0)) (g_rc <$> l)).
Definition runCodegen (cfg : Config) (w : world) : list codegenResult * list Line * Z :=
  let results := generate w <$> Codegen cfg in
  (results, results ≫= g_lines, first_rc results).

(** ** The container (dockerbuild.go); [walk] is the order of a map's loop *)

Definition expandTmpl (walk : list (string * string) → list (string * string)) (s : string) (repl : list (string * string)) : string :=
  if Contains s "{" then foldl (λ s '(k, v), ReplaceAll s (OpsConsole.braced k) v) s (walk repl) else s.
Definition dockerArgv (walk : list (string * string) → list (string * string)) (cfg : Config) (runid : string) : list string * string :=
  let name := expandTmpl walk (ContainerNameTmpl cfg) [("runid"%string, runid)] in
  let repl := [("repo", RepoAbs cfg); ("name", name); ("image", DockerImage cfg); ("target", Target cfg)]%string in
  ([DockerCmd cfg] ++ ((λ a, expandTmpl walk a repl) <$> DockerRunArgs cfg) ++ [DockerImage cfg] ++
     ((λ a, expandTmpl walk a repl) <$> BuildCmd cfg), name).
Definition dockerKillArgv (cfg : Config) (name : string) : list string := [DockerCmd cfg; "kill"%string; name].

(** ** Verification (verify.go) *)

Definition lowerHex64 (s : string) : bool := (String.length s =? 64)%nat && forallb OpsConfig.is_hex_lower (bytes_of_string s).
Definition normalizeBuildPath (p : string) : string :=
  TrimPrefix "build/" (string_of_bytes (clean (bytes_of_string (ReplaceAll p "\" "/")))).
Record flasherArgs := MkFlasher { FlashFiles : gmap string string; Chip : string }.
Class FlasherJson := ParseFlasher : bytes → result string flasherArgs.

Definition block (t : string) : Finding := MkFinding StageVerify SeverityBlock t "".
Definition offset_of (s : string) : option Z := ParseUint0 (TrimSpace s).
Definition stat_artifact (probe : fileProbe) (a : ArtifactSpec) : list Finding * option Artifact :=
  match size probe (PathAbs a) with
  | None => ([block ("missing artifact " ++ q (as_name a) ++ " at " ++ PathAbs a)%string], None)
  | Some sz =>
      ((if (0 <? ExactSize a) && negb (sz =? ExactSize a) then
          [block ("artifact " ++ q (as_name a) ++ " size " ++ format_int sz ++ " B != expected " ++ format_int (ExactSize a) ++ " B")%string] else []) ++
       (if (0 <? MinSize a) && (sz <? MinSize a) then
          [block ("artifact " ++ q (as_name a) ++ " size " ++ format_int sz ++ " B is below the " ++ format_int (MinSize a) ++ " B lower bound")%string] else []),
       Some (MkArtifact (as_name a) (as_file a) (PathAbs a) (as_offset a) sz))
  end.
Definition byOffset (walk : list (string * string) → list (string * string)) (files : gmap string string) : gmap Z string :=
  foldl (λ m '(off, file), match offset_of off with Some n => <[n := file]> m | None => m end) ∅ (walk (map_to_list files)).
Definition check_offset (by_off : gmap Z string) (a : ArtifactSpec) : list Finding :=
  match offset_of (as_offset a) with
  | None => [block ("artifact " ++ q (as_name a) ++ " has an unparseable offset " ++ q (as_offset a))%string]
  | Some want =>
      match by_off !! want with
      | None => [block ("flasher_args.json has no entry for offset " ++ as_offset a ++ " (artifact " ++ q (as_name a) ++ ")")%string]
      | Some got =>
          if bool_decide (normalizeBuildPath got = normalizeBuildPath (as_file a)) then []
          else [block ("offset " ++ as_offset a ++ " maps to " ++ q got ++ " in flasher_args.json but config expects " ++ q (as_file a) ++ " (artifact " ++ q (as_name a) ++ ")")%string]
      end
  end.
Definition check_flasher `{FlasherJson} (walk : list (string * string) → list (string * string)) (cfg : Config) (probe : fileProbe) : list Finding :=
  match readFile probe (FlasherArgsPath cfg) with
  | None => [block ("cannot read flasher_args.json at " ++ FlasherArgsPath cfg)%string]
  | Some raw =>
      match ParseFlasher raw with
      | Err e => [block ("flasher_args.json is not valid JSON: " ++ e)%string]
      | Ok fa =>
          (Artifacts cfg ≫= check_offset (byOffset walk (FlashFiles fa))) ++
          (if negb (bool_decide (Target cfg = ""%string)) && negb (bool_decide (Chip fa = ""%string)) && negb (bool_decide (Chip fa = Target cfg)) then
             [warnFinding StageVerify ("flasher_args.json chip " ++ q (Chip fa) ++ " != configured target " ++ q (Target cfg))%string] else [])
      end
  end.
(** The app: what is wrong with it, its digest, its entry. *)
Definition check_app (cfg : Config) (probe : fileProbe) (arts : list Artifact) : list Finding * string * Artifact :=
  match size probe (AppPath cfg) with
  | None => ([block ("missing app artifact at " ++ AppPath cfg)%string], ""%string, no_artifact)
  | Some sz =>
      let fit := if (0 <? OTASlotSize cfg) && (OTASlotSize cfg <=? sz) then
                   [block ("app size " ++ format_int sz ++ " B does not fit the ota_0 slot (" ++ format_int (OTASlotSize cfg) ++ " B)")%string] else [] in
      let '(bad, sum) :=
        match sha256hex probe (AppPath cfg) with
        | None => ([block ("cannot hash the app artifact at " ++ AppPath cfg)%string], ""%string)
        | Some sum => if lowerHex64 sum then ([], sum)
                      else ([block ("app sha256 " ++ q sum ++ " is not 64 lowercase hex digits (OTA compares via strcmp)")%string], ""%string)
        end in
      (fit ++ bad, sum, default (MkArtifact "app" "" (AppPath cfg) "" sz) (app_named arts))
  end.
Definition hasBlocking (fs : list Finding) : bool := existsb (λ f, bool_decide (f_severity f = SeverityBlock)) fs.
Definition Verify `{FlasherJson} (walk : list (string * string) → list (string * string)) (cfg : Config) (probe : fileProbe) : option ArtifactSet * list Finding :=
  let stats := stat_artifact probe <$> Artifacts cfg in
  let arts := omap snd stats in
  let '(app_findings, sum, app) := check_app cfg probe arts in
  let findings := (stats ≫= fst) ++ check_flasher walk cfg probe ++ app_findings in
  let version := from_option (λ b, TrimSpace (string_of_bytes b)) ""%string (readFile probe (resolveUnder (FirmwareDir cfg) "version.txt")) in
  (if hasBlocking findings then None else Some (MkSet arts app sum version), findings).

(** ** The pipeline (pipeline.go) *)

(** How the container ended; [NotStarted] has no run. *)
Inductive docker_end := NotStarted (err : string) | Ended (rc : Z) (err : option string).
(** The machine over a run: each stage's host, the container, the context at each of
    the points where it is looked at, the clock. *)
Record env := MkEnv {
  setup_world : world; preflight_world : world; codegen_world : world; verify_world : world; docker : list string → docker_end;
  ctx_err : nat → option string; entered_at : nat → Z; took : nat → Z; runid : string;
  walk : list (string * string) → list (string * string) }.
Record st := MkSt { timings : list StageTiming; finds : list Finding; errTail : list string; sent : list msg; commands : list (list string) }.
Definition ended : Type := list msg * list (list string).
Definition emit (m : msg) (s : st) : st := MkSt (timings s) (finds s) (errTail s) (sent s ++ [m]) (commands s).
Definition ran (argvs : list (list string)) (s : st) : st := MkSt (timings s) (finds s) (errTail s) (sent s) (commands s ++ argvs).
Definition finish (cfg : Config) (stage : Stage) (rc : Z) (err : option string) (arts : option ArtifactSet) (s : st) : ended :=
  let t := if (ErrorTailLines cfg <? zlen (errTail s)) && (0 <? ErrorTailLines cfg) then
             drop (Z.to_nat (zlen (errTail s) - ErrorTailLines cfg)) (errTail s) else errTail s in
  (sent s ++ [BuildDoneMsg (MkResult rc stage (timings s) arts (finds s) t err (bool_decide (stage = StageCanceled)))], commands s).
Definition stageDone (stage : Stage) (rc : Z) (d : Z) (s : st) : st :=
  emit (StageDoneMsg stage rc d) (MkSt (timings s ++ [MkTiming stage rc d]) (finds s) (errTail s) (sent s) (commands s)).
Definition emitLines (stage : Stage) (lines : list Line) (s : st) : st :=
  if bool_decide (lines = []) then s
  else emit (OutputLinesMsg stage lines)
         (MkSt (timings s) (finds s) (errTail s ++ (l_text <$> List.filter (λ l, bool_decide (l_stream l = Stderr)) lines)) (sent s) (commands s)).
Definition emitFinding (s : st) (f : Finding) : st :=
  emit (FindingMsg f)
    (MkSt (timings s) (finds s ++ [f]) (if bool_decide (f_severity f = SeverityBlock) then errTail s ++ [Text f] else errTail s) (sent s) (commands s)).
Definition emitFindings (fs : list Finding) (s : st) : st := foldl emitFinding s fs.

Definition nonZero (rc : Z) : Z := if rc =? 0 then 1 else rc.
Definition docker_rc (d : docker_end) : Z := match d with NotStarted _ => -1 | Ended rc _ => rc end.
Definition docker_err (d : docker_end) : option string := match d with NotStarted e => Some e | Ended _ e => e end.

Section run.
Context `{FlasherJson} (cfg : Config) (e : env).
(** A phase hands its state on, or ends the run. *)
Definition phase := st → st + ended.
Definition andThen (f g : phase) : phase := λ s, match f s with inl s => g s | inr r => inr r end.
Definition alive (k : nat) : phase := λ s,
  match ctx_err e k with None => inl s | Some m => inr (finish cfg StageCanceled (-1) (Some m) None s) end.
Definition enter (k : nat) (stage : Stage) : phase := λ s, inl (emit (StageEnteredMsg stage (entered_at e k)) s).
Definition stop_if (b : bool) (rc : Z) (err : option string) : phase := λ s, if b then inr (finish cfg StageFailed rc err None s) else inl s.

(** The setup commands that run: up to the first that fails. *)
Fixpoint setup_commands (w : world) (l : list SetupStep) : list (list string) :=
  match l with
  | [] => []
  | s :: l => su_argv s :: (if (classifyCapture (CaptureOutput w (su_argv s))).1.1 =? 0 then setup_commands w l else [])
  end.
Definition setup_phase (on : bool) : phase :=
  if on then
    let '(lines, rc) := runSetup (setup_world e) (Setup cfg) in
    andThen (enter 0 StagePreflight)
      (andThen (λ s, inl (stageDone StagePreflight rc (took e 0)
                            (emitLines StagePreflight lines (ran (setup_commands (setup_world e) (Setup cfg)) s))))
         (andThen (alive 1) (stop_if (negb (rc =? 0)) rc None)))
  else inl.
Definition preflight_phase : phase :=
  let findings := runPreflight cfg (preflight_world e) in
  let rc := if hasBlocking findings then 1 else 0 in
  andThen (enter 1 StagePreflight)
    (andThen (alive 2)
       (andThen (λ s, inl (stageDone StagePreflight rc (took e 1) (emitFindings findings s)))
          (stop_if (hasBlocking findings) 1 None))).
Definition codegen_phase : phase :=
  let '(_, lines, rc) := runCodegen cfg (codegen_world e) in
  andThen (enter 2 StageCodegen)
    (andThen (λ s, inl (ran (cg_argv <$> Codegen cfg) s))
       (andThen (alive 3)
          (andThen (λ s, inl (stageDone StageCodegen rc (took e 2) (emitLines StageCodegen lines s)))
             (stop_if (negb (rc =? 0)) rc None)))).
(** The container is killed by name when the context ends while it runs. *)
Definition docker_phase : phase :=
  let '(argv, name) := dockerArgv (walk e) cfg (runid e) in
  let d := docker e argv in
  let killed := match d, ctx_err e 4 with Ended _ _, Some _ => [dockerKillArgv cfg name] | _, _ => [] end in
  andThen (enter 3 StageDockerBuild)
    (andThen (λ s, inl (ran (argv :: killed) s))
       (andThen (alive 4)
          (andThen (λ s, inl (stageDone StageDockerBuild (docker_rc d) (took e 3) s))
             (stop_if (negb (docker_rc d =? 0) || bool_decide (docker_err d ≠ None)) (nonZero (docker_rc d)) (docker_err d))))).
Definition verify_phase (s : st) : ended :=
  let '(set_, findings) := Verify (walk e) cfg (newFileProbe cfg (verify_world e)) in
  match andThen (enter 4 StageVerify) (andThen (alive 5) (λ s, inl (emitFindings findings s))) s with
  | inr r => r
  | inl s =>
      match set_ with
      | None => finish cfg StageFailed 1 None None (stageDone StageVerify 1 (took e 4) s)
      | Some a => finish cfg StageDone 0 None (Some a) (stageDone StageVerify 0 (took e 4) s)
      end
  end.
Definition Run (withSetup : bool) : ended :=
  match andThen (alive 0) (andThen (setup_phase withSetup) (andThen preflight_phase (andThen codegen_phase docker_phase)))
          (MkSt [] [] [] [] []) with
  | inr r => r
  | inl s => verify_phase s
  end.
End run.

End OpsBuild.

(** ** The pane (buildpane/pane.go, view.go) *)

Module OpsBuildPane.
Import OpsBuild.

Record viewColors := MkColors { v_working : string; v_ok : string; v_err : string; v_muted : string; v_border : string }.
Definition resolveColors (c : OpsConfig.Config) : viewColors :=
  let role r := default ""%string (OpsConfig.Theme c !! r) in
  MkColors (role "status_working") (role "status_active") (role "status_error") (role "status_quiet") (role "border").

Record buildPane := MkPane {
  base : OpsShell.BasePane; cfg : Config; runnerErr : option string; ring : OpsShell.Scrollback.ring; colors : viewColors;
  live : bool; state : Stage; stages : list StageTiming; findings : list Finding; result : option BuildResult;
  errTail : list string; offerSetup : bool; buildStart : Z; dirty : bool; canCancel : bool }.
(** What a step asks for: a run of the pipeline, its end, the next tick. *)
Inductive out := StartRun (withSetup : bool) | CancelRun | Tick.

Definition New (home cwd : string) (b : OpsShell.BasePane) (c : OpsConfig.Config) : buildPane :=
  let bc := NewConfig cwd c "" in
  let err := match OpsHosts.RunnerFor home (OpsConsole.hosts_config c) (Host bc) with
             | Some _ => None
             | None => Some ("sshhost: build host " ++ Host bc ++ " is not a [[hosts]] entry")%string
             end in
  MkPane b bc err (OpsShell.Scrollback.NewScrollback (PaneScrollback bc)) (resolveColors c) false StageIdle [] [] None [] false 0 false false.

Definition set_ring (r : OpsShell.Scrollback.ring) (p : buildPane) : buildPane :=
  MkPane (base p) (cfg p) (runnerErr p) r (colors p) (live p) (state p) (stages p) (findings p) (result p) (errTail p) (offerSetup p) (buildStart p) (dirty p) (canCancel p).
Definition say (line : string) (p : buildPane) : buildPane := set_ring (OpsShell.Scrollback.Append line (ring p)) p.
Definition set_stage (s : Stage) (p : buildPane) : buildPane :=
  MkPane (base p) (cfg p) (runnerErr p) (ring p) (colors p) (live p) s (stages p) (findings p) (result p) (errTail p) (offerSetup p) (buildStart p) (dirty p) (canCancel p).
Definition set_lists (t : list StageTiming) (f : list Finding) (tail : list string) (offer : bool) (p : buildPane) : buildPane :=
  MkPane (base p) (cfg p) (runnerErr p) (ring p) (colors p) (live p) (state p) t f (result p) tail offer (buildStart p) (dirty p) (canCancel p).
Definition set_end (l : bool) (r : option BuildResult) (p : buildPane) : buildPane :=
  MkPane (base p) (cfg p) (runnerErr p) (ring p) (colors p) l (state p) (stages p) (findings p) r (errTail p) (offerSetup p) (buildStart p) (dirty p) (canCancel p).
Definition set_base (b : OpsShell.BasePane) (d : bool) (p : buildPane) : buildPane :=
  MkPane b (cfg p) (runnerErr p) (ring p) (colors p) (live p) (state p) (stages p) (findings p) (result p) (errTail p) (offerSetup p) (buildStart p) d (canCancel p).
Definition markDirty (p : buildPane) : buildPane := if OpsShell.focused (base p) then p else set_base (base p) true p.
Definition pushErrTail (line : string) (p : buildPane) : buildPane :=
  let max := if ErrorTailLines (cfg p) <? 1 then 40 else ErrorTailLines (cfg p) in
  let t := errTail p ++ [line] in
  set_lists (stages p) (findings p) (if max <? zlen t then drop (Z.to_nat (zlen t - max)) t else t) (offerSetup p) p.

Definition start (now : Z) (withSetup : bool) (p : buildPane) : buildPane * list out :=
  if bool_decide (runnerErr p ≠ None) || live p then (p, [])
  else (MkPane (base p) (cfg p) (runnerErr p) (OpsShell.Scrollback.Clear (ring p)) (colors p) true StageIdle [] [] None [] false now (dirty p) true,
        [StartRun withSetup]).
Definition Init (now : Z) (p : buildPane) : buildPane * list out :=
  match runnerErr p with
  | Some m => (say ("build host error: " ++ m)%string p, [])
  | None => let '(p, o) := start now false p in (p, o ++ [Tick])
  end.

Inductive pmsg := tickMsg | Build (m : msg) | RunOutputMsg (s : Stream) (line : string) | RunExitMsg | KeyPressMsg (k : string).
Definition onLine (p : buildPane) (l : Line) : buildPane :=
  let p := say (l_text l) p in if bool_decide (l_stream l = Stderr) then pushErrTail (l_text l) p else p.
Definition onBuild (m : msg) (p : buildPane) : buildPane :=
  match m with
  | StageEnteredMsg s _ => markDirty (say ("── " ++ Stage_text s ++ " ──")%string (set_stage s p))
  | OutputLinesMsg _ ls => markDirty (foldl onLine p ls)
  | StageDoneMsg s rc d => markDirty (set_lists (stages p ++ [MkTiming s rc d]) (findings p) (errTail p) (offerSetup p) p)
  | FindingMsg f =>
      let blocks := bool_decide (f_severity f = SeverityBlock) in
      let p := set_lists (stages p) (findings p ++ [f]) (errTail p) (offerSetup p || bool_decide (Fix f = "setup"%string)) p in
      let p := if blocks then pushErrTail (Text f) p else p in
      markDirty (say ((if blocks then "BLOCK" else "warn") ++ ": " ++ Text f)%string p)
  | BuildDoneMsg r =>
      let p := set_stage (r_stage r) (set_end false (Some r) p) in
      markDirty (set_lists (stages p) (findings p) (errTail p) (offerSetup p || existsb (λ f, bool_decide (Fix f = "setup"%string)) (Findings r)) p)
  end.
Definition onKey (now : Z) (k : string) (p : buildPane) : buildPane * list out :=
  if bool_decide (k = CancelKey (cfg p)) then (p, if live p && canCancel p then [CancelRun] else [])
  else if bool_decide (k = RerunKey (cfg p)) then
    if live p then (p, []) else let '(p, o) := start now (offerSetup p) p in (p, o ++ [Tick])
  else (p, []).
Definition Update (now : Z) (m : pmsg) (p : buildPane) : buildPane * list out :=
  match m with
  | tickMsg => (p, if live p then [Tick] else [])
  | Build m => (onBuild m p, [])
  | RunOutputMsg s line => (markDirty (onLine p (MkLine line s)), [])
  | RunExitMsg => (p, [])
  | KeyPressMsg k => onKey now k p
  end.
Definition SetFocused (f : bool) (p : buildPane) : buildPane := set_base (OpsShell.SetFocused f (base p)) (if f then false else dirty p) p.
Definition Close (p : buildPane) : buildPane * list out :=
  (MkPane (base p) (cfg p) (runnerErr p) (ring p) (colors p) false (state p) (stages p) (findings p) (result p) (errTail p) (offerSetup p) (buildStart p) (dirty p) false,
   if canCancel p then [CancelRun] else []).

(** [time.Duration.Round], half away from zero. *)
Definition round_to (d m : Z) : Z := Z.sgn d * ((Z.abs d + m / 2) / m * m).
Definition pad2 (n : Z) : string := String.append (if n <? 10 then "0" else "") (format_int n).
Definition elapsed (d : Z) : string :=
  let s := Z.quot (round_to d 1000000000) 1000000000 in
  let h := Z.quot s 3600 in let m := Z.quot (Z.rem s 3600) 60 in let s := Z.rem s 60 in
  if 0 <? h then (format_int h ++ "h" ++ pad2 m ++ "m" ++ pad2 s ++ "s")%string else (format_int m ++ "m" ++ pad2 s ++ "s")%string.
Definition title (now : Z) (p : buildPane) : string :=
  let host := or_text (Host (cfg p)) "local" in
  if live p then ("build · " ++ host ++ " · " ++ Stage_text (state p) ++ " " ++ elapsed (now - buildStart p))%string
  else match result p with
       | Some r => ("build · " ++ host ++ " · " ++ Stage_text (r_stage r))%string
       | None => ("build · " ++ host)%string
       end.
Definition status (p : buildPane) : OpsShell.PaneStatus :=
  if live p then OpsShell.StatusWorking
  else if bool_decide (runnerErr p ≠ None) then OpsShell.StatusError
  else match result p with Some r => if Green r then OpsShell.StatusIdle else OpsShell.StatusError | None => OpsShell.StatusIdle end.
Definition Meta (now : Z) (p : buildPane) : OpsShell.PaneMeta :=
  OpsShell.MkMeta (OpsShell.id (base p)) (OpsShell.kind (base p)) (title now p) (status p) (dirty p).

(** The bordered box of the widget library. *)
Class ErrorBox := error_box : string → Z → string → string.
Definition displayStages : list Stage := [StagePreflight; StageCodegen; StageDockerBuild; StageVerify].
Section view.
Context `{OpsShell.Lipgloss} `{ErrorBox}.
Definition renderBanner (w : Z) (p : buildPane) : string :=
  let t := OpsConsole.truncate (GateDisclaimer (cfg p)) w in
  match result p with
  | Some r => if Green r then OpsShell.paint (v_ok (colors p)) true t else OpsShell.paint (v_muted (colors p)) false t
  | None => OpsShell.paint (v_muted (colors p)) false t
  end.
Definition stage_label (p : buildPane) (s : Stage) : string :=
  let label := Stage_text s in
  if live p && bool_decide (state p = s) then OpsShell.paint (v_working (colors p)) true ("▶ " ++ label)
  else match last (List.filter (λ t, bool_decide (t_stage t = s)) (stages p)) with
       | Some t =>
           let d := OpsConsole.duration_text (round_to (t_duration t) 100000000) in
           if t_rc t =? 0 then OpsShell.paint (v_ok (colors p)) false ("✓ " ++ label ++ " (" ++ d ++ ")")
           else OpsShell.paint (v_err (colors p)) false ("✗ " ++ label ++ " (" ++ d ++ ")")
       | None => OpsShell.paint (v_muted (colors p)) false ("· " ++ label)
       end.
Definition renderStageBar (p : buildPane) : string := OpsKeys.Join (stage_label p <$> displayStages) "   ".
Definition failing_stage (r : BuildResult) : string :=
  match List.find (λ t, negb (t_rc t =? 0)) (Stages r) with Some t => Stage_text (t_stage t) | None => Stage_text (r_stage r) end.
Definition renderErrorBox (w : Z) (r : BuildResult) (p : buildPane) : string :=
  let heading := (failing_stage r ++ " failed (rc=" ++ format_int (RC r) ++ ")")%string in
  let tail := if bool_decide (errTail p = []) then ErrTail r else errTail p in
  let body := OpsKeys.Join tail OpsShell.newline in
  let body := if bool_decide (TrimSpace body = ""%string) then "(no error output captured)"%string else body in
  error_box (v_err (colors p)) (if w - 2 <? 10 then 10 else w - 2) (OpsShell.paint "" true heading ++ OpsShell.newline ++ body).
Definition renderTail (n : Z) (p : buildPane) : string :=
  let lines := OpsShell.Scrollback.Lines (ring p) in
  let lines := if n <? zlen lines then drop (Z.to_nat (zlen lines - n)) lines else lines in
  let w := if OpsShell.width (base p) <=? 0 then 80 else OpsShell.width (base p) in
  OpsKeys.Join ((λ l, OpsConsole.truncate l w) <$> lines) OpsShell.newline.
Definition opt_block (b : bool) (s : string) : list string := if b then [s] else [].
Definition blocks (w : Z) (p : buildPane) : list string :=
  match runnerErr p with Some m => [OpsShell.paint (v_err (colors p)) false ("build host error: " ++ m)] | None => [] end ++
  [renderBanner w p; renderStageBar p] ++
  match result p with
  | Some r =>
      opt_block (negb (Green r) && negb (Canceled r)) (renderErrorBox w r p) ++
      opt_block (Canceled r) (OpsShell.paint (v_muted (colors p)) false "build canceled.")
  | None => []
  end ++
  opt_block (offerSetup p && negb (live p))
    (OpsShell.paint (v_working (colors p)) false ("components missing — press " ++ q (RerunKey (cfg p)) ++ " to run the setup scripts and rebuild")).
Definition View (p : buildPane) : string :=
  let w := if OpsShell.width (base p) <=? 0 then 80 else OpsShell.width (base p) in
  let h := if OpsShell.height (base p) <=? 0 then 24 else OpsShell.height (base p) in
  let header := OpsKeys.Join (blocks w p) OpsShell.newline in
  let headerLines := zlen (List.filter (Z.eqb 10) (bytes_of_string header)) + 1 in
  let tailHeight := if h - headerLines - 1 <? 1 then 1 else h - headerLines - 1 in
  (header ++ OpsShell.newline ++ renderTail tailHeight p)%string.
End view.

End OpsBuildPane.

(** * Laws of the firmware build

    A build is green exactly when every stage of it passed; what a verified artifact
    set then satisfies; one terminal message per run; what the pane shows of it. *)

From S2P Require Import Prelude GoLib GoText Crypto OpsShell OpsHosts OpsConfig OpsConsole.
Import GoLib GoText OpsBuild.

Module OpsBuildLaws.
#[local] Abbreviation Ok := Prelude.Ok.
#[local] Abbreviation Err := Prelude.Err.

(** ** Verification *)

Lemma hasBlocking_app f g : hasBlocking (f ++ g) = hasBlocking f || hasBlocking g.
Proof. apply existsb_app. Qed.
Lemma hasBlocking_bind {A} (f : A → list Finding) l : hasBlocking (l ≫= f) = false → ∀ x, x ∈ l → hasBlocking (f x) = false.
Proof.
  induction l as [|y l IH]; intros Hl x; [by intros ?%elem_of_nil|].
  change (hasBlocking (f y ++ (l ≫= f)) = false) in Hl. rewrite hasBlocking_app in Hl. apply orb_false_iff in Hl as [Hy Hl].
  intros [->|Hx]%elem_of_cons; auto.
Qed.

(** The artifact as verified: there, and of the size asked for. *)
Definition sized (probe : fileProbe) (a : ArtifactSpec) (art : Artifact) : Prop :=
  size probe (PathAbs a) = Some (a_size art) ∧ art = MkArtifact (as_name a) (as_file a) (PathAbs a) (as_offset a) (a_size art) ∧
  (0 < ExactSize a → a_size art = ExactSize a) ∧ (0 < MinSize a → MinSize a ≤ a_size art).
Lemma stat_artifact_ok probe a : hasBlocking (stat_artifact probe a).1 = false →
  ∃ art, (stat_artifact probe a).2 = Some art ∧ sized probe a art.
Proof.
  unfold stat_artifact, sized. destruct (size probe (PathAbs a)) as [sz|] eqn:Hs; [|done]. cbn [fst snd].
  rewrite hasBlocking_app. intros [He Hm]%orb_false_iff. eexists. split; [done|]. cbn [a_size]. split_and!; [done..| |]; intros Hpos.
  - destruct (sz =? ExactSize a) eqn:E; [lia|]. rewrite (proj2 (Z.ltb_lt _ _) Hpos) in He. done.
  - destruct (Z.ltb_spec sz (MinSize a)); [|done]. rewrite (proj2 (Z.ltb_lt _ _) Hpos) in Hm. done.
Qed.
Lemma stats_ok probe l : hasBlocking ((stat_artifact probe <$> l) ≫= fst) = false →
  Forall2 (sized probe) l (omap snd (stat_artifact probe <$> l)).
Proof.
  induction l as [|a l IH]; [constructor|]. intros Hl.
  change (hasBlocking ((stat_artifact probe a).1 ++ ((stat_artifact probe <$> l) ≫= fst)) = false) in Hl.
  rewrite hasBlocking_app in Hl. apply orb_false_iff in Hl as [Ha Hl].
  destruct (stat_artifact_ok probe a Ha) as (art & Hart & Hok). cbn [fmap list_fmap omap list_omap]. rewrite Hart.
  constructor; auto.
Qed.

(** The flasher's own table agrees about the artifact. *)
Definition agreed (fa : flasherArgs) (a : ArtifactSpec) : Prop :=
  ∃ n key file, offset_of (as_offset a) = Some n ∧ FlashFiles fa !! key = Some file ∧ offset_of key = Some n ∧
    normalizeBuildPath file = normalizeBuildPath (as_file a).
Lemma byOffset_lookup l m n file :
  foldl (λ (m : gmap Z string) '(off, file), match offset_of off with Some n => <[n := file]> m | None => m end) m l !! n = Some file →
  m !! n = Some file ∨ ∃ key, (key, file) ∈ l ∧ offset_of key = Some n.
Proof.
  revert m. induction l as [|[off f] l IH]; intros m; cbn [foldl]; [by left|]. intros [Hm|(key & Hk & Ho)]%IH.
  - destruct (offset_of off) as [n'|] eqn:Ho; [|by left]. destruct (decide (n = n')) as [->|Hne].
    + rewrite lookup_insert_eq in Hm. injection Hm as ->. right. exists off. split; [by left|done].
    + rewrite lookup_insert_ne in Hm by done. by left.
  - right. exists key. split; [by right|done].
Qed.
Lemma check_offset_ok w fa a : (∀ l : list (string * string), w l ≡ₚ l) → hasBlocking (check_offset (byOffset w (FlashFiles fa)) a) = false → agreed fa a.
Proof.
  intros Hw. unfold check_offset, agreed. destruct (offset_of (as_offset a)) as [n|] eqn:Hn; [|done].
  destruct (byOffset w (FlashFiles fa) !! n) as [file|] eqn:Hb; [|done].
  apply byOffset_lookup in Hb as [Hb|(key & Hk & Ho)]; [by rewrite (lookup_empty (M := gmap Z)) in Hb|].
  case_bool_decide as Hp; [|done]. intros _. rewrite Hw in Hk. apply elem_of_map_to_list in Hk. by exists n, key, file.
Qed.

Record verified `{FlasherJson} (cfg : Config) (probe : fileProbe) (set_ : ArtifactSet) : Prop := {
  v_artifacts : Forall2 (sized probe) (Artifacts cfg) (s_artifacts set_);
  v_flasher : ∃ raw fa, readFile probe (FlasherArgsPath cfg) = Some raw ∧ ParseFlasher raw = Ok fa ∧ Forall (agreed fa) (Artifacts cfg);
  v_fits : ∃ sz, size probe (AppPath cfg) = Some sz ∧ (0 < OTASlotSize cfg → sz < OTASlotSize cfg);
  v_digest : sha256hex probe (AppPath cfg) = Some (AppSHA256 set_) ∧ lowerHex64 (AppSHA256 set_) = true }.
Lemma Verify_sound `{FlasherJson} w cfg probe set_ fs : (∀ l : list (string * string), w l ≡ₚ l) →
  Verify w cfg probe = (Some set_, fs) → verified cfg probe set_.
Proof.
  intros Hw. unfold Verify. destruct (check_app _ _ _) as [[app_findings sum] app] eqn:Happ.
  destruct (hasBlocking _) eqn:Hb; [done|]. intros [= <- _].
  rewrite !hasBlocking_app in Hb. apply orb_false_iff in Hb as [Hst [Hfl Hap]%orb_false_iff].
  assert (Hflash : ∃ raw fa, readFile probe (FlasherArgsPath cfg) = Some raw ∧ ParseFlasher raw = Ok fa ∧ Forall (agreed fa) (Artifacts cfg)).
  { unfold check_flasher in Hfl. destruct (readFile probe (FlasherArgsPath cfg)) as [raw|]; [|done].
    destruct (ParseFlasher raw) as [fa|] eqn:Hp; [|done]. rewrite hasBlocking_app in Hfl. apply orb_false_iff in Hfl as [Hfl _].
    exists raw, fa. split_and!; [done..|]. apply Forall_forall. intros a Ha. eapply check_offset_ok; [done|]. by apply (hasBlocking_bind _ _ Hfl). }
  unfold check_app in Happ. destruct (size probe (AppPath cfg)) as [sz|] eqn:Hsz; [|by injection Happ as <- _ _].
  destruct (sha256hex probe (AppPath cfg)) as [d|] eqn:Hd.
  2:{ injection Happ as <- _ _. rewrite hasBlocking_app in Hap. by apply orb_false_iff in Hap as [_ ?]. }
  destruct (lowerHex64 d) eqn:Hl.
  2:{ injection Happ as <- _ _. rewrite hasBlocking_app in Hap. by apply orb_false_iff in Hap as [_ ?]. }
  injection Happ as <- <- <-. rewrite hasBlocking_app in Hap. apply orb_false_iff in Hap as [Hfit _].
  constructor; [by apply stats_ok|done| |done]. exists sz. split; [done|]. intros Hpos.
  destruct (Z.leb_spec (OTASlotSize cfg) sz); [|done]. by rewrite (proj2 (Z.ltb_lt _ _) Hpos) in Hfit.
Qed.

(** ** Phases: each goes on under its condition, and ends the run red otherwise *)

Definition is_end (m : msg) : Prop := match m with BuildDoneMsg _ => True | _ => False end.
Definition open (l : list msg) : Prop := Forall (λ m, ¬ is_end m) l.
Definition ends_with (out : list msg) (r : BuildResult) : Prop := ∃ l, out = l ++ [BuildDoneMsg r] ∧ open l.
Lemma open_emit m s : open (sent s) → ¬ is_end m → open (sent (emit m s)).
Proof. intros Hs Hm. apply Forall_app. split; [done|by constructor]. Qed.
Lemma open_findings fs s : open (sent s) → open (sent (emitFindings fs s)).
Proof. revert s. induction fs as [|f fs IH]; intros s Hs; [done|]. apply IH. apply open_emit; [exact Hs|by intros []]. Qed.
Lemma open_lines stage ls s : open (sent s) → open (sent (emitLines stage ls s)).
Proof. intros Hs. unfold emitLines. case_bool_decide; [done|]. apply open_emit; [exact Hs|by intros []]. Qed.

Section run.
Context `{FlasherJson} (cfg : Config) (e : env).
Definition passes (f : phase) (C : Prop) : Prop := ∀ s, open (sent s) →
  C ∧ (∃ s', f s = inl s' ∧ open (sent s')) ∨ ¬ C ∧ ∃ r o, f s = inr o ∧ ends_with o.1 r ∧ Green r = false.
Lemma passes_then f g C D : passes f C → passes g D → passes (andThen f g) (C ∧ D).
Proof.
  intros Hf Hg s Hs. unfold andThen. destruct (Hf s Hs) as [[HC (s' & -> & Hs')]|[HC (r & o & -> & Hr)]].
  - destruct (Hg s' Hs') as [[HD (s2 & -> & Hs2)]|[HD (r & o & -> & Hr)]]; [left|right]; [split; [done|eauto]|]. split; [tauto|eauto].
  - right. split; [tauto|eauto].
Qed.
Lemma passes_iff f C D : passes f C → (C ↔ D) → passes f D.
Proof. intros Hf HCD s Hs. destruct (Hf s Hs) as [[? ?]|[? ?]]; [left|right]; (split; [tauto|done]). Qed.
Lemma passes_put (f : st → st) : (∀ s, open (sent s) → open (sent (f s))) → passes (λ s, inl (f s)) True.
Proof. intros Hf s Hs. left. split; [done|]. eauto. Qed.
Lemma finish_ends stage rc err arts s : open (sent s) → ∃ r, ends_with (finish cfg stage rc err arts s).1 r ∧ RC r = rc ∧ r_stage r = stage ∧ r_artifacts r = arts.
Proof. intros Hs. eexists. split; [eexists; split; [reflexivity|done]|done]. Qed.
Lemma passes_alive k : passes (alive cfg e k) (ctx_err e k = None).
Proof.
  intros s Hs. unfold alive. destruct (ctx_err e k) as [m|]; [right|left; eauto]. split; [done|].
  destruct (finish_ends StageCanceled (-1) (Some m) None s Hs) as (r & Hr & Hrc & _). exists r. eexists. split_and!; [done|done|].
  unfold Green. by rewrite Hrc.
Qed.
Lemma passes_stop b rc err : passes (stop_if cfg b rc err) (b = false).
Proof.
  intros s Hs. unfold stop_if. destruct b; [right|left; eauto]. split; [done|].
  destruct (finish_ends StageFailed rc err None s Hs) as (r & Hr & _ & Hst & _). exists r. eexists. split_and!; [done|done|].
  unfold Green. rewrite Hst, andb_false_r. done.
Qed.
Lemma passes_enter k stage : passes (enter e k stage) True.
Proof. apply passes_put. intros s Hs. apply open_emit; [exact Hs|by intros []]. Qed.
Lemma open_done stage rc d s : open (sent s) → open (sent (stageDone stage rc d s)).
Proof. intros Hs. apply open_emit; [exact Hs|by intros []]. Qed.

(** The generators all passed. *)
Lemma first_rc_zero l : first_rc l = 0 ↔ Forall (λ r, g_rc r = 0) l.
Proof.
  unfold first_rc. induction l as [|r l IH]; [split; [constructor|done]|]. cbn. rewrite Forall_cons. destruct (Z.eqb_spec (g_rc r) 0) as [E|E]; cbn.
  - rewrite IH. tauto.
  - tauto.
Qed.
Definition generated (w : world) : Prop := Forall (λ s, ∃ out, CaptureOutput w (cg_argv s) = Captured out ∨ ∃ m, CaptureOutput w (cg_argv s) = Exited 0 out m) (Codegen cfg).
Lemma classify_zero c : (classifyCapture c).1.1 = 0 ↔ ∃ out, c = Captured out ∨ ∃ m, c = Exited 0 out m.
Proof.
  destruct c as [o|code o m|o m]; cbn.
  - split; [eauto|done].
  - destruct (Z.ltb_spec code 0); (split; [intros; exists o; right; exists m; f_equal; lia|intros (out & [?|[? [= -> _ _]]]); [done|lia]]).
  - split; [done|]. by intros (out & [?|[? ?]]).
Qed.
Lemma generated_rc w : (runCodegen cfg w).2 = 0 ↔ generated w.
Proof.
  unfold runCodegen, generated. cbn [snd]. rewrite first_rc_zero, Forall_fmap. apply Forall_iff. intros s. cbn.
  rewrite <- classify_zero. unfold generate. by destruct (classifyCapture _) as [[rc m] t].
Qed.

Definition setup_ok (on : bool) : Prop := on = true → (runSetup (setup_world e) (Setup cfg)).2 = 0 ∧ ctx_err e 1 = None.
Lemma passes_setup on : passes (setup_phase cfg e on) (setup_ok on).
Proof.
  unfold setup_phase, setup_ok. destruct on; [|intros s Hs; left; split; [done|eauto]].
  destruct (runSetup (setup_world e) (Setup cfg)) as [lines rc]. eapply passes_iff.
  - apply passes_then; [apply passes_enter|]. apply passes_then; [apply passes_put; intros s Hs; by apply open_done, open_lines|].
    apply passes_then; [apply passes_alive|apply passes_stop].
  - cbn. rewrite negb_false_iff, Z.eqb_eq. naive_solver.
Qed.
Lemma passes_preflight : passes (preflight_phase cfg e) (ctx_err e 2 = None ∧ hasBlocking (runPreflight cfg (preflight_world e)) = false).
Proof.
  eapply passes_iff.
  - apply passes_then; [apply passes_enter|]. apply passes_then; [apply passes_alive|].
    apply passes_then; [apply passes_put; intros s Hs; by apply open_done, open_findings|apply passes_stop].
  - tauto.
Qed.
Lemma passes_codegen : passes (codegen_phase cfg e) (ctx_err e 3 = None ∧ generated (codegen_world e)).
Proof.
  apply (passes_iff _ (ctx_err e 3 = None ∧ (runCodegen cfg (codegen_world e)).2 = 0)); [|by rewrite generated_rc].
  unfold codegen_phase. destruct (runCodegen cfg (codegen_world e)) as [[results lines] rc]. cbn [snd].
  eapply passes_iff.
  - apply passes_then; [apply passes_enter|]. apply passes_then; [by apply passes_put|]. apply passes_then; [apply passes_alive|].
    apply passes_then; [apply passes_put; intros s Hs; by apply open_done, open_lines|apply passes_stop].
  - rewrite negb_false_iff, Z.eqb_eq. tauto.
Qed.
Definition container : docker_end := docker e (dockerArgv (walk e) cfg (runid e)).1.
Lemma passes_docker : passes (docker_phase cfg e) (ctx_err e 4 = None ∧ container = Ended 0 None).
Proof.
  unfold docker_phase, container. destruct (dockerArgv _ _ _) as [argv name]. cbn [fst]. set (d := docker e argv). eapply passes_iff.
  - apply passes_then; [apply passes_enter|]. apply passes_then; [by apply passes_put|]. apply passes_then; [apply passes_alive|].
    apply passes_then; [apply passes_put; intros s Hs; by apply open_done|apply passes_stop].
  - rewrite orb_false_iff, negb_false_iff, Z.eqb_eq, bool_decide_eq_false.
    destruct d as [m|rc [m|]]; cbn [docker_rc docker_err]; [naive_solver lia..|].
    split; [intros (_ & _ & ? & _ & -> & _); done|]. intros [? [= ->]]. split_and!; try done. auto.
Qed.

(** What a green build went through. *)
Definition all_passed (withSetup : bool) : Prop :=
  ctx_err e 0 = None ∧ setup_ok withSetup ∧
  (ctx_err e 2 = None ∧ hasBlocking (runPreflight cfg (preflight_world e)) = false) ∧
  (ctx_err e 3 = None ∧ generated (codegen_world e)) ∧ (ctx_err e 4 = None ∧ container = Ended 0 None) ∧ ctx_err e 5 = None.

Lemma Run_spec withSetup : ∃ r, ends_with (Run cfg e withSetup).1 r ∧
  (Green r = true ↔ all_passed withSetup ∧ is_Some (Verify (walk e) cfg (newFileProbe cfg (verify_world e))).1) ∧
  (Green r = true → r_artifacts r = (Verify (walk e) cfg (newFileProbe cfg (verify_world e))).1).
Proof.
  unfold Run, all_passed.
  assert (Hp := passes_then _ _ _ _ (passes_alive 0) (passes_then _ _ _ _ (passes_setup withSetup)
    (passes_then _ _ _ _ passes_preflight (passes_then _ _ _ _ passes_codegen passes_docker)))).
  destruct (Hp (MkSt [] [] [] [] []) (Forall_nil_2 _)) as [[HC (s & -> & Hs)]|[HC (r & o & -> & Hr & Hg)]].
  2:{ exists r. rewrite Hg. split_and!; [done| |done]. split; [done|tauto]. }
  unfold verify_phase. destruct (Verify _ _ _) as [set_ fs]. cbn [fst].
  assert (Hq := passes_then _ _ _ _ (passes_enter 4 StageVerify) (passes_then _ _ _ _ (passes_alive 5)
    (passes_put (emitFindings fs) (open_findings fs)))).
  destruct (Hq s Hs) as [[HC' (s' & -> & Hs')]|[HC' (r & o & -> & Hr & Hg)]].
  2:{ exists r. rewrite Hg. split_and!; [done| |done]. split; [done|tauto]. }
  destruct set_ as [a|].
  - destruct (finish_ends StageDone 0 None (Some a) (stageDone StageVerify 0 (took e 4) s')) as (r & Hr & H1 & H2 & H3); [by apply open_done|].
    exists r. split; [done|]. unfold Green. rewrite H1, H2, H3. split; [|done]. split; [|done]. intros _. split; [tauto|by eexists].
  - destruct (finish_ends StageFailed 1 None None (stageDone StageVerify 1 (took e 4) s')) as (r & Hr & H1 & H2 & H3); [by apply open_done|].
    exists r. split; [done|]. unfold Green. rewrite H1. split; [|done]. split; [done|]. by intros [_ [? ?]].
Qed.

(** C17. A run ends with exactly one terminal message, its last. It is green exactly when
    nothing cancelled it, no precondition blocked, every generator and the container
    ended with code 0 and the artifacts verified; and its artifact set then is: every
    artifact there with the size asked for and at the offset the flasher's own table
    has for that file, an app that fits its slot and whose digest is 64 lowercase hex
    digits. *)
Theorem green_build_verified withSetup : (∀ l, walk e l ≡ₚ l) → ∃ l r, (Run cfg e withSetup).1 = l ++ [BuildDoneMsg r] ∧ open l ∧
  (Green r = true ↔ all_passed withSetup ∧ is_Some (Verify (walk e) cfg (newFileProbe cfg (verify_world e))).1) ∧
  (Green r = true → ∃ set_, r_artifacts r = Some set_ ∧ verified cfg (newFileProbe cfg (verify_world e)) set_).
Proof.
  intros Hw. destruct (Run_spec withSetup) as (r & (l & Hl & Ho) & Hg & Ha). exists l, r. split_and!; [done..|].
  intros Hgr. specialize (Ha Hgr). apply Hg in Hgr as [_ [set_ Hs]]. exists set_. split; [congruence|].
  destruct (Verify (walk e) cfg _) as [o fs] eqn:Hv. cbn in Hs. subst o. by eapply Verify_sound.
Qed.
End run.

(** On the local host the digest is that of the app's bytes. *)
Lemma local_digest `{FlasherJson} cfg w set_ : Local cfg = true → verified cfg (newFileProbe cfg w) set_ →
  ∃ b, ReadFile w (AppPath cfg) = Some b ∧ AppSHA256 set_ = string_of_bytes (hex_encode (Crypto.sha256 b)).
Proof.
  intros Hl Hv. destruct (v_digest _ _ _ Hv) as [Hd _]. unfold newFileProbe in Hd. rewrite Hl in Hd. cbn in Hd.
  destruct (ReadFile w (AppPath cfg)) as [b|]; [|done]. exists b. split; [done|]. by injection Hd.
Qed.

(** ** The pane *)

Section pane.
Import OpsBuildPane.

Lemma live_markDirty p : live (markDirty p) = live p ∧ result (markDirty p) = result p ∧ runnerErr (markDirty p) = runnerErr p.
Proof. unfold markDirty. by destruct (OpsShell.focused (base p)). Qed.
Lemma live_line p l : live (onLine p l) = live p ∧ result (onLine p l) = result p ∧ runnerErr (onLine p l) = runnerErr p.
Proof. unfold onLine. by destruct (bool_decide _). Qed.
Lemma live_lines ls p : live (foldl onLine p ls) = live p ∧ result (foldl onLine p ls) = result p ∧ runnerErr (foldl onLine p ls) = runnerErr p.
Proof.
  revert p. induction ls as [|l ls IH]; intros p; [done|]. cbn [foldl]. destruct (IH (onLine p l)) as (-> & -> & ->). apply live_line.
Qed.
Lemma live_open m p : ¬ is_end m → live (onBuild m p) = live p ∧ result (onBuild m p) = result p ∧ runnerErr (onBuild m p) = runnerErr p.
Proof.
  intros Hm. destruct m as [s t|s ls|s rc d|f|r]; cbn [onBuild]; [| | | |by destruct Hm].
  - match goal with |- live (markDirty ?x) = _ ∧ _ => destruct (live_markDirty x) as (-> & -> & ->) end. done.
  - destruct (live_markDirty (foldl onLine p ls)) as (-> & -> & ->). apply live_lines.
  - match goal with |- live (markDirty ?x) = _ ∧ _ => destruct (live_markDirty x) as (-> & -> & ->) end. done.
  - match goal with |- live (markDirty ?x) = _ ∧ _ => destruct (live_markDirty x) as (-> & -> & ->) end. by destruct (bool_decide _).
Qed.
Lemma live_opens l p : open l → let q := foldl (λ p m, onBuild m p) p l in live q = live p ∧ result q = result p ∧ runnerErr q = runnerErr p.
Proof.
  intros Hl. revert p. induction Hl as [|m l Hm Hl IH]; intros p; [done|]. cbn [foldl].
  destruct (IH (onBuild m p)) as (-> & -> & ->). by apply live_open.
Qed.

(** A pane whose host was found, fed the messages of a run, works until the last of
    them and then shows the run's outcome: an error exactly when it is not green. *)
Theorem pane_shows_outcome `{FlasherJson} c e withSetup p : live p = true → runnerErr p = None →
  ∃ l r, (Run c e withSetup).1 = l ++ [BuildDoneMsg r] ∧
    (∀ k, status (foldl (λ p m, onBuild m p) p (take k l)) = OpsShell.StatusWorking) ∧
    let q := foldl (λ p m, onBuild m p) p (Run c e withSetup).1 in
    live q = false ∧ result q = Some r ∧ status q = (if Green r then OpsShell.StatusIdle else OpsShell.StatusError).
Proof.
  intros Hlive Herr. destruct (Run_spec c e withSetup) as (r & (l & Hl & Ho) & _). exists l, r. split; [done|]. split.
  - intros k. unfold status. assert (Hk : open (take k l)) by (by apply Forall_take).
    destruct (live_opens _ p Hk) as (-> & _). by rewrite Hlive.
  - cbv zeta. rewrite Hl, foldl_app. cbn [foldl]. set (q := foldl _ p l).
    assert (Hq : runnerErr q = None) by (rewrite <- Herr; apply (live_opens l p Ho)). clearbody q. cbn [onBuild].
    match goal with |- context [markDirty ?x] => destruct (live_markDirty x) as (E1 & E2 & E3) end.
    unfold status. rewrite E1, E2, E3. cbn. by rewrite Hq.
Qed.

(** Runs never overlap: the pane starts one only when the one before has ended. *)
Definition count {A} (f : A → bool) (l : list A) : nat := length (List.filter f l).
Definition is_start (o : out) : bool := match o with StartRun _ => true | _ => false end.
Definition is_done (m : Z * pmsg) : bool := match m.2 with Build (BuildDoneMsg _) => true | _ => false end.
Fixpoint updates (p : buildPane) (ms : list (Z * pmsg)) : buildPane * list out :=
  match ms with
  | [] => (p, [])
  | (now, m) :: ms => let '(p, o) := Update now m p in let '(p, os) := updates p ms in (p, o ++ os)
  end.
Lemma count_app {A} (f : A → bool) l l' : count f (l ++ l') = (count f l + count f l')%nat.
Proof. unfold count. by rewrite List.filter_app, length_app. Qed.
Lemma start_counts now b p : let '(p', o) := start now b p in
  (count is_start o + Nat.b2n (live p) ≤ Nat.b2n (live p'))%nat.
Proof. unfold start. destruct (bool_decide (runnerErr p ≠ None)), (live p) eqn:E; cbn; rewrite ?E; cbn; lia. Qed.
Lemma update_counts now m p : let '(p', o) := Update now m p in
  (count is_start o + Nat.b2n (live p) ≤ count is_done [(now, m)] + Nat.b2n (live p'))%nat.
Proof.
  destruct m as [|m|s line| |k]; cbn [Update].
  - destruct (live p) eqn:E; cbn; lia.
  - destruct m as [s t|s ls|s rc d|f|r]; [..|cbn; destruct (live p); cbn; lia];
      (match goal with |- context [onBuild ?m p] => destruct (live_open m p) as (-> & _); [by intros []|] end; cbn; lia).
  - destruct (live_markDirty (onLine p (MkLine line s))) as (-> & _). destruct (live_line p (MkLine line s)) as (-> & _). cbn. lia.
  - cbn. lia.
  - unfold onKey. case_bool_decide; [destruct (live p && canCancel p); cbn; lia|]. case_bool_decide; [|cbn; lia].
    destruct (live p) eqn:E; [cbn; rewrite E; cbn; lia|]. pose proof (start_counts now (offerSetup p) p) as Hs. rewrite E in Hs.
    destruct (start now (offerSetup p) p) as [p' o]. rewrite count_app. cbn in *. lia.
Qed.
Lemma one_run_at_a_time p ms : let '(p', os) := updates p ms in
  (count is_start os + Nat.b2n (live p) ≤ count is_done ms + Nat.b2n (live p'))%nat.
Proof.
  revert p. induction ms as [|[now m] ms IH]; intros p; [cbn; lia|]. cbn [updates]. pose proof (update_counts now m p) as Hu.
  destruct (Update now m p) as [p1 o]. specialize (IH p1). destruct (updates p1 ms) as [p2 os]. rewrite count_app.
  change (count is_done ((now, m) :: ms)) with (count is_done ([(now, m)] ++ ms)). rewrite count_app. lia.
Qed.
End pane.

(** ** A local build *)

Definition demo_stat (p : string) : option Z :=
  Some (if bool_decide (p = "/repo/firmware/build/bootloader/bootloader.bin"%string) then 20480
        else if bool_decide (p = "/repo/firmware/build/partition_table/partition-table.bin"%string) then 3072
        else if bool_decide (p = "/repo/firmware/build/ota_data_initial.bin"%string) then 8192
        else if bool_decide (p = "/repo/firmware/build/picpak_fw.bin"%string) then 1200000 else 4096).
Definition demo_read (p : string) : option bytes :=
  if bool_decide (p = "/repo/firmware/build/flasher_args.json"%string) then Some [123; 125]
  else if bool_decide (p = "/repo/firmware/build/picpak_fw.bin"%string) then Some [97; 98; 99]
  else if bool_decide (p = "/repo/firmware/version.txt"%string) then Some [49; 46; 50; 10] else None.
Definition demo_world : world := MkWorld (λ _, Captured "") demo_stat demo_read.
#[local] Instance demo_flasher : FlasherJson := λ _, Ok (MkFlasher (list_to_map
  [("0x0", "bootloader/bootloader.bin"); ("0x8000", "partition_table/partition-table.bin"); ("0x10000", "ota_data_initial.bin");
   ("0x20000", "build/picpak_fw.bin")]%string) "esp32c3").
Definition demo_config : Config := NewConfig "/repo" OpsConfig.defaults "".
Definition demo_env : env := MkEnv demo_world demo_world demo_world demo_world (λ _, Ended 0 None) (λ _, None) Z.of_nat (λ _, 1000000000) "1-0" id.
Definition demo_result : option BuildResult :=
  match last (Run demo_config demo_env false).1 with Some (BuildDoneMsg r) => Some r | _ => None end.

Example demo_green : Green <$> demo_result = Some true. Proof. vm_compute. reflexivity. Qed.
Example demo_docker : (dockerArgv id demo_config "1-0").1 =
  ["docker"; "run"; "--rm"; "--name"; "picpak-ops-build-1-0"; "-v"; "/repo/firmware:/project"; "-w"; "/project";
   "espressif/idf:v5.5.3"; "bash"; "-lc"; "idf.py set-target esp32c3 build"]%string.
Proof. vm_compute. reflexivity. Qed.
Lemma green_build_verified_witness : ∃ r set_, demo_result = Some r ∧ r_artifacts r = Some set_ ∧
  verified demo_config (newFileProbe demo_config demo_world) set_.
Proof.
  destruct (green_build_verified demo_config demo_env false (λ l, reflexivity l)) as (l & r & Hl & Ho & Hg & Hv).
  assert (Hd : demo_result = Some r) by (unfold demo_result; rewrite Hl, last_snoc; reflexivity).
  assert (Hr : Green r = true).
  { pose proof demo_green as Hdg. rewrite Hd in Hdg. injection Hdg as Hdg. exact Hdg. }
  destruct (Hv Hr) as (set_ & Ha & Hver). exists r, set_. split; [exact Hd|]. split; [exact Ha|exact Hver].
Defined.

(** ** What a green build leaves open *)

(** The digest is of the file [app_artifact] names; the artifact called app may be
    another one. *)
Definition split_config : Config :=
  let c := demo_config in
  MkConfig (Host c) (Local c) (RepoAbs c) (FirmwareDir c) (ArtifactDir c) (DockerCmd c) (DockerImage c) (Target c) (BuildCmd c) (DockerRunArgs c)
    (ContainerNameTmpl c) (PythonBin c) (PythonImportProbe c) (StatBin c) (Sha256Bin c) (FontsDir c) (Setup c) (Codegen c)
    (RequiredComponents c) (Artifacts c) (FlasherArgsPath c) "/repo/firmware/version.txt" (OTASlotSize c) (ErrorTailLines c)
    (PaneScrollback c) (GateDisclaimer c) (CancelKillGrace c) (CancelKey c) (RerunKey c).
Example digest_of_another_file :
  (λ s, (a_path (App s), AppSHA256 s)) <$> (Verify id split_config (newFileProbe split_config demo_world)).1 =
  Some ("/repo/firmware/build/picpak_fw.bin"%string, string_of_bytes (hex_encode (Crypto.sha256 [49; 46; 50; 10]))).
Proof. vm_compute. reflexivity. Qed.

(** The stderr of the container is in no result: it goes to the pane alone. *)
Example docker_errors_not_in_result :
  match last (Run demo_config (MkEnv demo_world demo_world demo_world demo_world (λ _, Ended 2 None) (λ _, None) Z.of_nat (λ _, 0) "1-0" id) false).1 with
  | Some (BuildDoneMsg r) => Some (RC r, r_stage r, ErrTail r)
  | _ => None
  end = Some (2, StageFailed, []).
Proof. vm_compute. reflexivity. Qed.

(** A run started again before the last tick of the one before keeps both clocks. *)
Example ticks_add_up : let p0 := OpsBuildPane.New "/home/op" "/repo" (OpsShell.NewBase "build-1" "build") OpsConfig.defaults in
  let '(p1, o1) := OpsBuildPane.Init 0 p0 in
  let '(p2, o2) := updates p1 [(1, OpsBuildPane.Build (BuildDoneMsg (MkResult 1 StageFailed [] None [] [] None false)));
                               (2, OpsBuildPane.KeyPressMsg "r"); (3, OpsBuildPane.tickMsg); (4, OpsBuildPane.tickMsg)] in
  (o1, o2) = ([OpsBuildPane.StartRun false; OpsBuildPane.Tick], [OpsBuildPane.StartRun false; OpsBuildPane.Tick; OpsBuildPane.Tick; OpsBuildPane.Tick]).
Proof. vm_compute. reflexivity. Qed.

End OpsBuildLaws.
