(* ===== verification/OpsTele.v ===== *)
(** * The console's telemetry axis ([tools/picpak-ops/internal/telemetry],
    [internal/fleet])

    The cache of the devices table, the sentinels and texts, the verdict over one
    sample, the three reads over the rows the ingest writes, the pane with its
    polls and the view with its sparklines. Instants are nanoseconds since Go's
    zero time (0 is the zero time), durations nanoseconds; the steps of the pane
    take the clock. Parameters: the collation, the decoding of the extra JSON,
    [strings.EqualFold], the styling library. *)

From S2P Require Import Prelude GoLib Db Bwry LogIngest Telemetry OpsKeys OpsShell OpsConfig OpsConsole OpsBuild OpsLogs FlashLaws.
Import GoLib Bwry.

Module OpsFleetCache.
Record Device := MkDevice { Serial : string; Channel : string; MAC : string; Label : string; LastSeen : Z }.
Definition HasLastSeen (d : Device) : bool := negb (LastSeen d =? 0).
(** One row of [SELECT serial, channel, mac, label, last_seen FROM devices]. *)
Record row := MkRow { serial : string; channel : string; mac : option string; label : option string; last_seen : option Z }.
Definition device_of (r : row) : Device :=
  MkDevice (serial r) (channel r) (default ""%string (mac r)) (default ""%string (label r)) (default 0 (last_seen r)).
Definition Cache := gmap string Device.
Definition New : Cache := ∅.
(** The rows of the query, or the error of the query, of a scan or of the cursor. *)
Definition Load (answer : result string (list row)) (c : Cache) : option string * Cache :=
  match answer with
  | Err e => (Some e, c)
  | Ok rows => (None, foldl (λ next r, <[serial r := device_of r]> next) ∅ rows)
  end.
Definition BySerial (c : Cache) (s : string) : option Device := c !! s.
Definition serial_le (a b : Device) : Prop := String.leb (Serial a) (Serial b) = true.
#[global] Instance serial_le_dec a b : Decision (serial_le a b).
Proof. unfold serial_le. apply _. Defined.
Definition List (c : Cache) : list Device := merge_sort serial_le ((map_to_list c).*2).
Definition Len (c : Cache) : Z := zlen (map_to_list c).
End OpsFleetCache.

Module OpsTele.
#[local] Abbreviation Ok := Prelude.Ok.
#[local] Abbreviation Err := Prelude.Err.

(** ** Values (types.go) *)

Definition second : Z := 1000000000.
Definition minute : Z := 60 * second.
Definition hour : Z := 60 * minute.
(** [Time.Sub] saturates. *)
Definition Sub (a b : Z) : Z := Z.max min_i64 (Z.min max_i64 (a - b)).

Inductive Health := HealthOK | HealthLowBatt | HealthBadBoots | HealthBrownout | HealthOffline.
#[global] Instance Health_eq_dec : EqDecision Health.
Proof. solve_decision. Defined.
Definition severity (h : Health) : Z :=
  match h with HealthOK => 0 | HealthLowBatt => 1 | HealthBadBoots => 2 | HealthBrownout => 3 | HealthOffline => 4 end.
Definition Health_String (h : Health) : string :=
  match h with
  | HealthOK => "OK" | HealthLowBatt => "LOW_BATT" | HealthBadBoots => "BAD_BOOTS" | HealthBrownout => "BROWNOUT"
  | HealthOffline => "OFFLINE_STALE"
  end.

(** A [Null] is an option. *)
Record Sample := MkSample {
  s_time : Z; s_reset : option string; s_otarr : option Z; s_bad : option Z; s_pct : option Z; s_usb : option bool;
  s_uptime : option Z }.
Record FleetRow := MkFleetRow {
  fr_serial : string; fr_time : Z; fr_mv : option Z; fr_pct : option Z; fr_bad : option Z; fr_boots : option Z;
  fr_reset : option string; fr_usb : option bool; fr_uptime : option Z; fr_ver : string; fr_channel : string; fr_otarr : option Z }.
Definition FleetRow_Sample (r : FleetRow) : Sample :=
  MkSample (fr_time r) (fr_reset r) (fr_otarr r) (fr_bad r) (fr_pct r) (fr_usb r) (fr_uptime r).
Record Extra := MkExtra { RSSI : option Z; Heap : option Z; Temp : option Z; TX : option Z; Present : bool }.
Definition no_extra : Extra := MkExtra None None None None false.
Record DeviceTelemetry := MkDevice {
  d_serial : string; d_time : Z; d_mv : option Z; d_pct : option Z; d_bad : option Z; d_boots : option Z; d_reset : option string;
  d_usb : option bool; d_uptime : option Z; d_ver : string; d_channel : string; DiagRunPart : option string;
  DiagRunstate : option Z; DiagO0 : option Z; DiagO1 : option Z; DiagInv : option string; DiagBoots : option Z;
  DiagRR : option Z; DiagOTARR : option Z; DiagMV : option Z; DiagMVErr : option Z; DiagStage : option string; d_extra : Extra }.
Definition Device_Sample (d : DeviceTelemetry) : Sample :=
  MkSample (d_time d) (d_reset d) (DiagOTARR d) (d_bad d) (d_pct d) (d_usb d) (d_uptime d).
Record HistoryPoint := MkPoint {
  h_time : Z; h_mv : option Z; h_pct : option Z; h_bad : option Z; h_boots : option Z; h_reset : option string; h_uptime : option Z }.
Definition Point_Sample (h : HistoryPoint) : Sample := MkSample (h_time h) (h_reset h) None (h_bad h) None None (h_uptime h).

(** ** Sentinels (sentinel.go) *)

Definition SentinelGeneric : Z := -1.
Definition SentinelRSSI : Z := -127.
Definition SentinelTemp : Z := -32768.
Definition nullI32 (p : option Z) (applyGeneric : bool) : option Z :=
  match p with Some v => if applyGeneric && (v =? SentinelGeneric) then None else Some v | None => None end.
Definition nullI16 (p : option Z) (applyGeneric : bool) : option Z :=
  match p with Some v => if applyGeneric && (v =? SentinelGeneric) then None else Some v | None => None end.
Definition nullI64 (p : option Z) (applyGeneric : bool) : option Z :=
  match p with Some v => if applyGeneric && (v =? SentinelGeneric) then None else Some v | None => None end.
Definition derefStr (p : option string) : string := default ""%string p.

(** [json.Unmarshal] into a map of raw members, and of a member into a float64. *)
Class ExtraJson := { unmarshal_map : bytes → option (gmap string bytes); unmarshal_float : bytes → option SpecFloat.spec_float }.
Section Extra.
Context `{ExtraJson}.
Definition extraInt (m : gmap string bytes) (key : string) (sentinel : Z) (applySentinel : bool) : option Z :=
  match m !! key with
  | None => None
  | Some raw =>
      match unmarshal_float raw with
      | None => None
      | Some f => let v := trunc_f64 f in if applySentinel && (v =? sentinel) then None else Some v
      end
  end.
Definition DecodeExtra (raw : bytes) : Extra :=
  if zlen raw =? 0 then no_extra
  else match unmarshal_map raw with
       | None => no_extra
       | Some m => MkExtra (extraInt m "rssi" SentinelRSSI true) (extraInt m "heap" 0 false)
                     (extraInt m "temp" SentinelTemp true) (extraInt m "tx" 0 false) true
       end.
End Extra.

(** ** Texts (format.go) *)

Definition naLabel : string := "n/a".
(** [%.2f] of a float64: its exact value in hundredths, halves to even. *)
Definition hundredths (m e : Z) : Z :=
  if 0 <=? e then Z.shiftl (m * 100) e
  else let den := Z.shiftl 1 (- e) in
       let q := m * 100 / den in let r := m * 100 mod den in
       if (den <? 2 * r) || ((den =? 2 * r) && Z.odd q) then q + 1 else q.
Definition two_digits (n : Z) : string := String.append (if n <? 10 then "0" else "") (format_int n).
Definition fixed2 (f : SpecFloat.spec_float) : string :=
  match f with
  | SpecFloat.S754_zero s => String.append (if s then "-" else "") "0.00"
  | SpecFloat.S754_infinity s => if s then "-Inf" else "+Inf"
  | SpecFloat.S754_nan => "NaN"
  | SpecFloat.S754_finite s m e =>
      let h := hundredths (Z.pos m) e in
      String.append (if s then "-" else "") (format_int (h / 100) ++ "." ++ two_digits (h mod 100))
  end.
Definition BattString (mv : option Z) (unit : string) : string :=
  match mv with
  | None => naLabel
  | Some v => if bool_decide (unit = "mV"%string) then (format_int v ++ " mV")%string
              else (fixed2 (f64_div (f64_of_Z v) (f64_of_Z 1000)) ++ " V")%string
  end.
Definition PctString (pct : option Z) : string := match pct with None => naLabel | Some v => (format_int v ++ "%")%string end.
Definition IntString (n : option Z) : string := match n with None => naLabel | Some v => format_int v end.
Definition Int64String (n : option Z) : string := match n with None => naLabel | Some v => format_int v end.
Definition BoolString (b : option bool) : string := match b with None => naLabel | Some true => "yes" | Some false => "no" end.
(** [Duration.Round], halves away from zero; out of range it is the extreme. *)
Definition Round (d m : Z) : Z :=
  let r := Z.rem (Z.abs d) m in
  let down := r + r <? m in
  if d <? 0 then (if down then d + r else Z.max min_i64 (d + r - m)) else (if down then d - r else Z.min max_i64 (d - r + m)).
Definition UptimeString (ms : option Z) : string :=
  match ms with None => naLabel | Some v => OpsConsole.duration_text (Round (i64 (v * 1000000)) second) end.
(** [Duration.Minutes] and [Duration.Hours] *)
Definition in_units (d unit : Z) : SpecFloat.spec_float :=
  f64_add (f64_of_Z (Z.quot d unit)) (f64_div (f64_of_Z (Z.rem d unit)) (f64_of_Z unit)).
Definition Age (t now : Z) : string :=
  if t =? 0 then "never"%string
  else let d := Sub now t in
       let d := if d <? 0 then 0 else d in
       if d <? minute then "just now"%string
       else if d <? hour then (format_int (trunc_f64 (in_units d minute)) ++ "m ago")%string
       else if d <? 24 * hour then (format_int (trunc_f64 (in_units d hour)) ++ "h ago")%string
       else (format_int (Z.quot (trunc_f64 (in_units d hour)) 24) ++ "d ago")%string.
Definition resetReasonNames : gmap string string := list_to_map
  [("poweron", "power-on"); ("sw", "software reset"); ("panic", "panic"); ("int_wdt", "interrupt WDT"); ("task_wdt", "task WDT");
   ("wdt", "watchdog"); ("deepsleep", "deep-sleep wake"); ("usb", "USB reset"); ("brownout", "brownout"); ("other", "other")]%string.
Definition ResetReasonString (rr : option string) : string :=
  match rr with None => naLabel | Some v => default v (resetReasonNames !! v) end.
Definition ChannelMismatch (claimed assigned : string) (warn : bool) : string :=
  if negb warn || bool_decide (claimed = ""%string) || bool_decide (assigned = ""%string) || bool_decide (claimed = assigned)
  then ""%string
  else ("device reports " ++ OpsBuild.q claimed ++ ", assigned " ++ OpsBuild.q assigned)%string.

(** ** The verdict (health.go) *)

Record VerdictCfg := MkCfg {
  StaleAfter : Z; BrownoutResetReasons : list string; BrownoutOTARRCodes : list Z; BadBootsWarn : Z; LowBattPct : Z;
  LowBattIncludesUSB : bool }.
Definition VerdictCfgFrom (t : OpsConfig.Telemetry) : VerdictCfg :=
  MkCfg (OpsConfig.t_stale t) (OpsConfig.t_brown_reasons t) (OpsConfig.t_brown_codes t) (OpsConfig.t_bad_boots t)
    (OpsConfig.t_low_batt t) (OpsConfig.t_low_usb t).
Definition roundAge (d : Z) : Z :=
  if 24 * hour <=? d then Round d hour else if hour <=? d then Round d minute else Round d second.
Definition containsInt (set : list Z) (v : Z) : bool := existsb (λ s, s =? v) set.
Definition UptimeRollback (s : Sample) (prev : option Sample) : bool :=
  match prev with
  | None => false
  | Some p => match s_uptime s, s_uptime p with Some cur, Some old => cur <? old | _, _ => false end
  end.

(** [strings.EqualFold] *)
Class Folding := EqualFold : string → string → bool.
Section Verdict.
Context `{Folding}.
Definition containsFold (set : list string) (v : string) : bool := existsb (λ s, EqualFold s v) set.
Definition reasonIsBrownout (s : Sample) (cfg : VerdictCfg) : bool :=
  match s_reset s with Some rr => containsFold (BrownoutResetReasons cfg) rr | None => false end.
Definition bump (to : Health) (reason : string) (v : Health * list string) : Health * list string :=
  ((if severity v.1 <? severity to then to else v.1), v.2 ++ [reason]).
Definition Verdict (s : Sample) (prev : option Sample) (cfg : VerdictCfg) (now : Z) : Health * list string :=
  let v := (HealthOK, []) in
  let v := if (0 <? StaleAfter cfg) && negb (s_time s =? 0) then
             let age := Sub now (s_time s) in
             if StaleAfter cfg <? age
             then bump HealthOffline ("no report for " ++ OpsConsole.duration_text (roundAge age) ++ " (> stale_after " ++
                                      OpsConsole.duration_text (StaleAfter cfg) ++ ")")%string v
             else v
           else v in
  let v := match s_reset s with
           | Some rr => if containsFold (BrownoutResetReasons cfg) rr then bump HealthBrownout ("reset_reason=" ++ rr)%string v else v
           | None => v
           end in
  let v := match s_otarr s with
           | Some code => if containsInt (BrownoutOTARRCodes cfg) code
                          then bump HealthBrownout ("diag_ota_rr=" ++ format_int code ++ " (brownout-during-OTA)")%string v else v
           | None => v
           end in
  let v := if UptimeRollback s prev && reasonIsBrownout s cfg then bump HealthBrownout "uptime rollback + brownout reset"%string v else v in
  let v := if 0 <? BadBootsWarn cfg then
             match s_bad s with
             | Some bb => if BadBootsWarn cfg <=? bb
                          then bump HealthBadBoots ("bad_boots=" ++ format_int bb ++ " (>= " ++ format_int (BadBootsWarn cfg) ++ ")")%string v else v
             | None => v
             end
           else v in
  match s_pct s with
  | Some pct =>
      if pct <=? LowBattPct cfg then
        if LowBattIncludesUSB cfg || negb (default false (s_usb s))
        then bump HealthLowBatt ("batt_pct=" ++ format_int pct ++ " (<= " ++ format_int (LowBattPct cfg) ++ ")")%string v else v
      else v
  | None => v
  end.
End Verdict.

(** ** The reads (repo.go, query.sql.go), over the rows the ingest writes *)

(** The instant of a row's [time], which is in seconds of the epoch. *)
Definition instant (t : Z) : Z := (t + 62135596800) * second.
Definition table := list LogIngest.telemetry_row.
Definition M := Db.M table string.

Definition fleet_row (t : LogIngest.telemetry_row) : FleetRow :=
  MkFleetRow (LogIngest.tm_serial t) (instant (LogIngest.tm_time t)) (nullI32 (LogIngest.batt_mv t) true)
    (nullI16 (LogIngest.batt_pct t) true) (nullI32 (LogIngest.bad_boots t) false) (nullI64 (LogIngest.boot_count t) false)
    (LogIngest.reset_reason t) (LogIngest.usb t) (nullI64 (LogIngest.uptime_ms t) true) (derefStr (LogIngest.running_ver t))
    (derefStr (LogIngest.tm_channel t)) (nullI16 (LogIngest.diag_ota_rr t) false).
(** The ingest writes no extra column: it is NULL. *)
Definition device_row `{ExtraJson} (t : LogIngest.telemetry_row) : DeviceTelemetry :=
  MkDevice (LogIngest.tm_serial t) (instant (LogIngest.tm_time t)) (nullI32 (LogIngest.batt_mv t) true)
    (nullI16 (LogIngest.batt_pct t) true) (nullI32 (LogIngest.bad_boots t) false) (nullI64 (LogIngest.boot_count t) false)
    (LogIngest.reset_reason t) (LogIngest.usb t) (nullI64 (LogIngest.uptime_ms t) true) (derefStr (LogIngest.running_ver t))
    (derefStr (LogIngest.tm_channel t)) (Some (LogIngest.diag_run t)) (nullI16 (LogIngest.diag_runstate t) false)
    (nullI16 (LogIngest.diag_o0 t) false) (nullI16 (LogIngest.diag_o1 t) false) (LogIngest.diag_inv t)
    (nullI64 (LogIngest.diag_boots t) false) (nullI16 (LogIngest.diag_rr t) false) (nullI16 (LogIngest.diag_ota_rr t) false)
    (nullI64 (LogIngest.diag_mv t) false) (nullI16 (LogIngest.diag_mv_err t) false) (LogIngest.diag_stage t) (DecodeExtra []).
Definition point_row (t : LogIngest.telemetry_row) : HistoryPoint :=
  MkPoint (instant (LogIngest.tm_time t)) (nullI32 (LogIngest.batt_mv t) true) (nullI16 (LogIngest.batt_pct t) true)
    (nullI32 (LogIngest.bad_boots t) false) (nullI64 (LogIngest.boot_count t) false) (LogIngest.reset_reason t)
    (nullI64 (LogIngest.uptime_ms t) true).

(** How the database orders serials. *)
Class Collation := text_le : string → string → bool.
Section Repo.
Context `{Collation} `{ExtraJson} (dberr : string).
Definition collated (a b : string) : Prop := text_le a b = true.
#[global] Instance collated_dec a b : Decision (collated a b).
Proof. unfold collated. apply _. Defined.
Definition serials_of (tbl : table) : list string := merge_sort collated (remove_dups (LogIngest.tm_serial <$> tbl)).
(** [SELECT DISTINCT ON (serial) ... ORDER BY serial, time DESC LIMIT]. *)
Definition fleetSQL (limit : Z) (tbl : table) : list LogIngest.telemetry_row :=
  take (Z.to_nat limit) (omap (λ s, Telemetry.newest s tbl) (serials_of tbl)).
Definition LatestFleet (maxDevices : Z) : M (list FleetRow) :=
  let maxDevices := if maxDevices <? 1 then 1 else maxDevices in
  Db.query dberr (λ tbl, Ok (fleet_row <$> fleetSQL maxDevices tbl)).
Definition LatestDevice (serial : string) : M (option DeviceTelemetry) :=
  Db.query dberr (λ tbl, Ok (device_row <$> Telemetry.newest serial tbl)).
Definition deviceHistorySQL (serial : string) (since limit : Z) (tbl : table) : list LogIngest.telemetry_row :=
  take (Z.to_nat limit) (merge_sort Telemetry.newer
    (List.filter (λ t, bool_decide (LogIngest.tm_serial t = serial) && (since <=? instant (LogIngest.tm_time t))) (reverse tbl))).
Definition DeviceHistory (now : Z) (serial : string) (window maxRows : Z) : M (list HistoryPoint) :=
  let maxRows := if maxRows <? 1 then 1 else maxRows in
  let since := if window <=? 0 then instant 0 else now - window in
  Db.query dberr (λ tbl, Ok (point_row <$> deviceHistorySQL serial since maxRows tbl)).
End Repo.

End OpsTele.

Module OpsTelePane.
Import OpsTele.
#[local] Abbreviation Ok := Prelude.Ok.
#[local] Abbreviation Err := Prelude.Err.

(** ** The pane (pane.go) *)

Record viewColors := MkColors { v_ok : string; v_warning : string; v_err : string; v_muted : string; v_sel : string; v_border : string }.
Definition resolveColors (c : OpsConfig.Config) : viewColors :=
  let role r := default ""%string (OpsConfig.Theme c !! r) in
  MkColors (role "status_active") (role "status_working") (role "status_error") (role "status_quiet") (role "focus_border") (role "border").
Record telemetryKeys := MkKeys { k_refresh : string; k_next : string; k_prev : string; k_copy : string }.
Definition resolveKeys (m : gmap string (list string)) : telemetryKeys :=
  let first action := match m !! action with Some (c :: _) => c | _ => ""%string end in
  MkKeys (first "refresh") (first "select_next") (first "select_prev") (first "copy_serial").

(** [repo]: the statement timeout, [None] without a database. *)
Record telemetryPane := MkPane {
  base : OpsShell.BasePane; repo : option Z; cfg : OpsConfig.Telemetry; stmtTimeout : Z; verdictCfg : VerdictCfg;
  colors : viewColors; keys : telemetryKeys;
  fleetRows : list FleetRow; cursor : Z; selected : string; detail : option DeviceTelemetry; history : list HistoryPoint;
  detailSerial : string; lastPoll : Z; devSeen : Z; pollErr : option string;
  polling : bool; forcePoll : bool; lastPollAt : Z; lastDevicePollAt : Z; dirty : bool }.
Definition New (pool : bool) (b : OpsShell.BasePane) (c : OpsConfig.Config) : telemetryPane :=
  let t := OpsConfig.db_statement (OpsConfig.database c) in
  MkPane b (if pool then Some t else None) (OpsConfig.telemetry c) t (VerdictCfgFrom (OpsConfig.telemetry c)) (resolveColors c)
    (resolveKeys (OpsConfig.t_keys (OpsConfig.telemetry c))) [] 0 "" None [] "" 0 0 None false false 0 0 false.

(** What a step asks for: the next tick, a poll with what it captured, the
    clipboard and the status line of a copy. *)
Inductive poll := PollFleet (max : Z) | PollDevice (serial : string) (window max : Z).
Inductive out := Tick | Poll (q : poll) | Copy (text : string) | Say (text : string).
Inductive msg :=
| tickMsg
| fleetMsg (rows : list FleetRow) (at_ : Z)
| deviceMsg (serial : string) (latest : option DeviceTelemetry) (history : list HistoryPoint) (at_ : Z)
| pollErrMsg (err : string) (at_ : Z)
| SpawnArgsMsg (args : gmap string string)
| ConfigChangedMsg (c : option OpsConfig.Config)
| KeyPressMsg (key : string).

Definition set_base (b : OpsShell.BasePane) (d : bool) (force : bool) (p : telemetryPane) : telemetryPane :=
  MkPane b (repo p) (cfg p) (stmtTimeout p) (verdictCfg p) (colors p) (keys p) (fleetRows p) (cursor p) (selected p) (detail p)
    (history p) (detailSerial p) (lastPoll p) (devSeen p) (pollErr p) (polling p) force (lastPollAt p) (lastDevicePollAt p) d.
Definition set_guard (poll_ force : bool) (fleetAt deviceAt : Z) (p : telemetryPane) : telemetryPane :=
  MkPane (base p) (repo p) (cfg p) (stmtTimeout p) (verdictCfg p) (colors p) (keys p) (fleetRows p) (cursor p) (selected p) (detail p)
    (history p) (detailSerial p) (lastPoll p) (devSeen p) (pollErr p) poll_ force fleetAt deviceAt (dirty p).
Definition set_cursor (c : Z) (s : string) (p : telemetryPane) : telemetryPane :=
  MkPane (base p) (repo p) (cfg p) (stmtTimeout p) (verdictCfg p) (colors p) (keys p) (fleetRows p) c s (detail p)
    (history p) (detailSerial p) (lastPoll p) (devSeen p) (pollErr p) (polling p) (forcePoll p) (lastPollAt p) (lastDevicePollAt p) (dirty p).
Definition set_fleet (rows : list FleetRow) (at_ seen : Z) (p : telemetryPane) : telemetryPane :=
  MkPane (base p) (repo p) (cfg p) (stmtTimeout p) (verdictCfg p) (colors p) (keys p) rows (cursor p) (selected p) (detail p)
    (history p) (detailSerial p) at_ seen None false (forcePoll p) (lastPollAt p) (lastDevicePollAt p) (dirty p).
Definition set_detail (d : option DeviceTelemetry) (h : list HistoryPoint) (s : string) (p : telemetryPane) : telemetryPane :=
  MkPane (base p) (repo p) (cfg p) (stmtTimeout p) (verdictCfg p) (colors p) (keys p) (fleetRows p) (cursor p) (selected p) d
    h s (lastPoll p) (devSeen p) (pollErr p) (polling p) (forcePoll p) (lastPollAt p) (lastDevicePollAt p) (dirty p).
Definition set_err (e : option string) (p : telemetryPane) : telemetryPane :=
  MkPane (base p) (repo p) (cfg p) (stmtTimeout p) (verdictCfg p) (colors p) (keys p) (fleetRows p) (cursor p) (selected p) (detail p)
    (history p) (detailSerial p) (lastPoll p) (devSeen p) e false (forcePoll p) (lastPollAt p) (lastDevicePollAt p) (dirty p).
Definition markDirty (p : telemetryPane) : telemetryPane :=
  if OpsShell.focused (base p) then p else set_base (base p) true (forcePoll p) p.

Definition currentInterval (p : telemetryPane) : Z :=
  if OpsShell.focused (base p) && (0 <? OpsConfig.t_refresh (cfg p)) then OpsConfig.t_refresh (cfg p)
  else if 0 <? OpsConfig.t_background (cfg p) then OpsConfig.t_background (cfg p) else minute.
Definition issueFleetPoll (now : Z) (p : telemetryPane) : telemetryPane * list out :=
  (set_guard true false now (lastDevicePollAt p) p, [Poll (PollFleet (OpsConfig.t_devices (cfg p)))]).
Definition due (now : Z) (p : telemetryPane) : bool :=
  forcePoll p || (lastPollAt p =? 0) || (currentInterval p <=? Sub now (lastPollAt p)).
Definition onTick (now : Z) (p : telemetryPane) : telemetryPane * list out :=
  if bool_decide (repo p = None) then (p, [])
  else if due now p && negb (polling p) then let '(p, o) := issueFleetPoll now p in (p, Tick :: o) else (p, [Tick]).
Definition Init (now : Z) (p : telemetryPane) : telemetryPane * list out :=
  if bool_decide (repo p = None) then (p, []) else let '(p, o) := issueFleetPoll now p in (p, o ++ [Tick]).
Definition maybePollDevice (now : Z) (p : telemetryPane) : telemetryPane * list out :=
  if bool_decide (repo p = None) || polling p || bool_decide (selected p = ""%string) then (p, [])
  else
    let needNew := negb (bool_decide (detailSerial p = selected p)) in
    let stale := negb (lastDevicePollAt p =? 0) && (currentInterval p <=? Sub now (lastDevicePollAt p)) in
    if negb needNew && negb stale then (p, [])
    else (set_guard true (forcePoll p) (lastPollAt p) now p,
          [Poll (PollDevice (selected p) (OpsConfig.t_window (cfg p)) (OpsConfig.t_rows (cfg p)))]).
Definition clamp (v lo hi : Z) : Z := if v <? lo then lo else if hi <? v then hi else v.
Definition serial_at (i : Z) (rows : list FleetRow) : string := default ""%string (fr_serial <$> rows !! Z.to_nat i).
Definition moveCursor (now : Z) (delta : Z) (p : telemetryPane) : telemetryPane * list out :=
  if bool_decide (fleetRows p = []) then (p, [])
  else let c := clamp (cursor p + delta) 0 (zlen (fleetRows p) - 1) in
       maybePollDevice now (set_cursor c (serial_at c (fleetRows p)) p).
Definition copySelectedSerial (p : telemetryPane) : list out :=
  if bool_decide (selected p = ""%string) then [] else [Copy (selected p); Say ("copied serial " ++ selected p)%string].
Fixpoint row_index (i : Z) (s : string) (rows : list FleetRow) : option Z :=
  match rows with
  | [] => None
  | r :: rows => if bool_decide (fr_serial r = s) then Some i else row_index (i + 1) s rows
  end.
Definition syncSelected (p : telemetryPane) : telemetryPane :=
  if bool_decide (fleetRows p = []) then p
  else match (if bool_decide (selected p = ""%string) then None else row_index 0 (selected p) (fleetRows p)) with
       | Some i => set_cursor i (selected p) p
       | None => let c := clamp (cursor p) 0 (zlen (fleetRows p) - 1) in set_cursor c (serial_at c (fleetRows p)) p
       end.
Definition newestReport (rows : list FleetRow) : Z := foldl (λ newest r, if newest <? fr_time r then fr_time r else newest) 0 rows.
Definition onKey (now : Z) (k : string) (p : telemetryPane) : telemetryPane * list out :=
  if bool_decide (k = k_next (keys p)) || bool_decide (k = "down"%string) then moveCursor now 1 p
  else if bool_decide (k = k_prev (keys p)) || bool_decide (k = "up"%string) then moveCursor now (-1) p
  else if bool_decide (k = k_refresh (keys p)) then
    if bool_decide (repo p ≠ None) && negb (polling p) then issueFleetPoll now p else (p, [])
  else if bool_decide (k = k_copy (keys p)) then (p, copySelectedSerial p)
  else (p, []).
Definition applyConfig (c : OpsConfig.Config) (p : telemetryPane) : telemetryPane :=
  let t := OpsConfig.db_statement (OpsConfig.database c) in
  MkPane (base p) ((λ _, t) <$> repo p) (OpsConfig.telemetry c) t (VerdictCfgFrom (OpsConfig.telemetry c)) (resolveColors c)
    (resolveKeys (OpsConfig.t_keys (OpsConfig.telemetry c))) (fleetRows p) (cursor p) (selected p) (detail p) (history p)
    (detailSerial p) (lastPoll p) (devSeen p) (pollErr p) (polling p) (forcePoll p) (lastPollAt p) (lastDevicePollAt p) (dirty p).
Definition Update (now : Z) (m : msg) (p : telemetryPane) : telemetryPane * list out :=
  match m with
  | tickMsg => onTick now p
  | fleetMsg rows at_ => maybePollDevice now (markDirty (syncSelected (set_fleet rows at_ (newestReport rows) p)))
  | deviceMsg serial latest hist _ =>
      let p := if bool_decide (serial = selected p) then set_detail latest hist serial p else p in
      maybePollDevice now (markDirty (set_err None p))
  | pollErrMsg e _ => (markDirty (set_err (Some e) p), [])
  | SpawnArgsMsg args =>
      let s := default ""%string (args !! "serial"%string) in
      (if bool_decide (s = ""%string) then p else set_cursor (cursor p) s p, [])
  | ConfigChangedMsg c => (match c with Some c => applyConfig c p | None => p end, [])
  | KeyPressMsg k => onKey now k p
  end.
Definition SetFocused (f : bool) (p : telemetryPane) : telemetryPane :=
  let was := OpsShell.focused (base p) in
  set_base (OpsShell.SetFocused f (base p)) (if f then false else dirty p) (if f && negb was then true else forcePoll p) p.
Definition Close (p : telemetryPane) : telemetryPane := set_guard false (forcePoll p) (lastPollAt p) (lastDevicePollAt p) p.
Definition title (p : telemetryPane) : string :=
  if bool_decide (repo p = None) then "telemetry · no db"%string
  else ("telemetry · " ++ format_int (zlen (fleetRows p)) ++ " device(s)")%string.
Definition status (p : telemetryPane) : OpsShell.PaneStatus :=
  if polling p then OpsShell.StatusWorking
  else if bool_decide (pollErr p = None) then OpsShell.StatusIdle else OpsShell.StatusError.
Definition Meta (p : telemetryPane) : OpsShell.PaneMeta :=
  OpsShell.MkMeta (OpsShell.id (base p)) (OpsShell.kind (base p)) (title p) (status p) (dirty p).

(** ** The polls, run outside the loop *)

Section Polls.
Context `{Collation} `{ExtraJson} (dberr : string).
Definition answer {A} (now : Z) (m : M A) (k : A → msg) (tbl : table) (fs : list bool) : msg * list bool :=
  match m tbl fs with
  | (Ok a, _, fs) => (k a, fs)
  | (Err e, _, fs) => (pollErrMsg e now, fs)
  end.
Definition run_poll (now : Z) (q : poll) (tbl : table) (fs : list bool) : msg * list bool :=
  match q with
  | PollFleet max => answer now (LatestFleet dberr max) (λ rows, fleetMsg rows now) tbl fs
  | PollDevice serial window max =>
      answer now (latest ← LatestDevice dberr serial; hist ← DeviceHistory dberr now serial window max; mret (latest, hist))
        (λ a, deviceMsg serial a.1 a.2 now) tbl fs
  end.
End Polls.

(** ** The view (render.go); [None] is a panic *)

Definition sparklineBars : list string := ["▁"; "▂"; "▃"; "▄"; "▅"; "▆"; "▇"; "█"]%string.
Definition extremes (series : list (option Z)) : option (Z * Z) :=
  foldl (λ acc n, match n, acc with
                  | None, _ => acc
                  | Some v, None => Some (v, v)
                  | Some v, Some (lo, hi) => Some (if v <? lo then v else lo, if hi <? v then v else hi)
                  end) None series.
Definition bar (lo span v : Z) : option string :=
  let idx := if 0 <? span then i64 (Z.quot (i64 (i64 (v - lo) * 7)) span) else 0 in
  if (0 <=? idx) && (idx <? zlen sparklineBars) then sparklineBars !! Z.to_nat idx else None.
Fixpoint bars (lo span : Z) (series : list (option Z)) : option string :=
  match series with
  | [] => Some ""%string
  | n :: series =>
      b ← match n with None => Some " "%string | Some v => bar lo span v end;
      rest ← bars lo span series;
      Some (b ++ rest)%string
  end.
Definition sparkline (series : list (option Z)) : option string :=
  match extremes series with
  | None => Some naLabel
  | Some (lo, hi) => bars lo (i64 (hi - lo)) series
  end.
Definition metric_of (metric : string) : option (HistoryPoint → option Z) :=
  if bool_decide (metric = "batt_pct"%string) then Some h_pct
  else if bool_decide (metric = "batt_mv"%string) then Some h_mv
  else if bool_decide (metric = "bad_boots"%string) then Some h_bad
  else if bool_decide (metric = "uptime_ms"%string) then Some h_uptime
  else if bool_decide (metric = "boot_count"%string) then Some h_boots
  else None.
Definition seriesFor (metric : string) (p : telemetryPane) : list (option Z) :=
  match metric_of metric with Some f => f <$> reverse (history p) | None => [] end.
Definition orUnknown (s : string) : string := if bool_decide (s = ""%string) then "unknown"%string else s.
(** [%-ns] of an ASCII text. *)
Definition pad_right (n : Z) (s : string) : string :=
  (s ++ string_of_bytes (replicate (Z.to_nat (n - zlen (bytes_of_string s))) 32))%string.
Definition selectedFleetRow (p : telemetryPane) : option FleetRow :=
  if (cursor p <? 0) || (zlen (fleetRows p) <=? cursor p) then None else fleetRows p !! Z.to_nat (cursor p).
Definition previousSample (p : telemetryPane) : option Sample :=
  if negb (bool_decide (detailSerial p = selected p)) then None
  else match history p with _ :: h :: _ => Some (Point_Sample h) | _ => None end.

(** [lipgloss.JoinHorizontal] at the top. *)
Class Joining := join_top : list string → string.
Section View.
Context `{OpsShell.Lipgloss} `{Joining} `{Folding} (cache : OpsFleetCache.Cache).
#[local] Abbreviation nl := OpsShell.newline.
Definition truncate (s : string) (w : Z) : string :=
  if (w <=? 1) || (OpsShell.cells s <=? w) then s
  else if w - 1 <? zlen (bytes_of_string s) then (string_of_bytes (take (Z.to_nat (w - 1)) (bytes_of_string s)) ++ "…")%string
  else s.
Definition healthGlyph (h : Health) (p : telemetryPane) : string * string :=
  match h with
  | HealthOK => ("●"%string, v_ok (colors p))
  | HealthLowBatt | HealthBadBoots => ("▲"%string, v_warning (colors p))
  | HealthBrownout => ("▼"%string, v_err (colors p))
  | HealthOffline => ("○"%string, v_muted (colors p))
  end.
Definition muted (p : telemetryPane) (s : string) : string := OpsShell.paint (v_muted (colors p)) false s.
Definition bold (s : string) : string := OpsShell.paint "" true s.
Definition renderErrBadge (w : Z) (p : telemetryPane) : string :=
  OpsShell.paint (v_err (colors p)) false (truncate ("DB error: " ++ default ""%string (pollErr p)) w).
Definition renderNoDB (w : Z) (p : telemetryPane) : string :=
  OpsKeys.Join [bold "telemetry — no database configured";
                muted p (truncate "Set [database].dsn to read the telemetry hypertable." w);
                muted p (truncate "The bench cockpit (build / hosts / flash / console) runs without a DB." w)] nl.
Definition renderEmpty (w : Z) (p : telemetryPane) : string :=
  OpsKeys.Join ([bold "telemetry — no telemetry yet";
                 muted p (truncate "Devices report only when they fetch a frame (sparse by design):" w);
                 muted p (truncate "a row appears here after the next device wake/fetch." w)] ++
                (if bool_decide (pollErr p = None) then [] else [renderErrBadge w p])) nl.
Definition row_name (s : string) : string :=
  match OpsFleetCache.BySerial cache s with
  | Some dev => if bool_decide (OpsFleetCache.Label dev = ""%string) then s else (s ++ " · " ++ OpsFleetCache.Label dev)%string
  | None => s
  end.
Definition list_line (now w i : Z) (r : FleetRow) (p : telemetryPane) : string :=
  let '(glyph, col) := healthGlyph (Verdict (FleetRow_Sample r) None (verdictCfg p) now).1 p in
  let mark := if i =? cursor p then "▸ "%string else "  "%string in
  let line := (mark ++ OpsShell.paint col false glyph ++ " " ++ row_name (fr_serial r) ++ "  " ++
               Age (fr_time r) now)%string in
  if i =? cursor p then OpsShell.paint (v_sel (colors p)) true (truncate line w) else truncate line w.
Fixpoint list_rows (now w maxRows total i : Z) (rows : list FleetRow) (p : telemetryPane) : string :=
  match rows with
  | [] => ""%string
  | r :: rows =>
      if maxRows <=? i then muted p ("… " ++ format_int (total - maxRows) ++ " more")
      else (list_line now w i r p ++ nl ++ list_rows now w maxRows total (i + 1) rows p)%string
  end.
Definition renderList (now w h : Z) (p : telemetryPane) : string :=
  let maxRows := if h - 1 <? 1 then 1 else h - 1 in
  (bold (truncate "Devices" w) ++ nl ++ list_rows now w maxRows (zlen (fleetRows p)) 0 (fleetRows p) p)%string.
Definition field (w : Z) (label value : string) : string :=
  (truncate (pad_right 11 (label ++ ":") ++ " " ++ value) w ++ nl)%string.
Fixpoint trend (w : Z) (metrics : list string) (p : telemetryPane) : option string :=
  match metrics with
  | [] => Some ""%string
  | m :: metrics =>
      let series := seriesFor m p in
      line ← (if bool_decide (series = []) then Some ""%string
              else s ← sparkline series; Some (truncate ("  " ++ pad_right 10 m ++ " " ++ s) w ++ nl)%string);
      rest ← trend w metrics p;
      Some (line ++ rest)%string
  end.
Definition of_detail (p : telemetryPane) (r : FleetRow) : option DeviceTelemetry :=
  if bool_decide (detailSerial p = fr_serial r) then detail p else None.
Definition renderDetail (now w : Z) (p : telemetryPane) : option string :=
  match selectedFleetRow p with
  | None => Some (muted p "(no device selected)")
  | Some row =>
      let assigned := match OpsFleetCache.BySerial cache (fr_serial row) with Some d => OpsFleetCache.Channel d | None => ""%string end in
      let sample := match of_detail p row with Some d => Device_Sample d | None => FleetRow_Sample row end in
      let '(health, reasons) := Verdict sample (previousSample p) (verdictCfg p) now in
      let '(glyph, hcol) := healthGlyph health p in
      let chanLine := if bool_decide (assigned = ""%string) then (orUnknown (fr_channel row) ++ " (device-reported)")%string
                      else (orUnknown (fr_channel row) ++ " / " ++ assigned ++ " (assigned)")%string in
      let badge := ChannelMismatch (fr_channel row) assigned (OpsConfig.t_mismatch (cfg p)) in
      let head :=
        (bold (truncate (row_name (fr_serial row)) w) ++ nl ++
         OpsShell.paint hcol true (glyph ++ " " ++ Health_String health) ++ nl ++
         foldr (λ rsn s, (muted p (truncate ("  · " ++ rsn) w) ++ nl ++ s)%string) ""%string reasons ++
         field w "last report" (Age (fr_time row) now) ++
         field w "battery" (BattString (fr_mv row) (OpsConfig.t_unit (cfg p)) ++ "  " ++ PctString (fr_pct row)) ++
         field w "usb" (BoolString (fr_usb row)) ++
         field w "uptime" (UptimeString (fr_uptime row)) ++
         field w "boot_count" (Int64String (fr_boots row)) ++
         field w "bad_boots" (IntString (fr_bad row)) ++
         field w "reset" (ResetReasonString (fr_reset row)) ++
         field w "firmware" (orUnknown (fr_ver row)) ++
         field w "channel" chanLine ++
         (if bool_decide (badge = ""%string) then ""
          else OpsShell.paint (v_warning (colors p)) false (truncate ("  ⚠ " ++ badge) w) ++ nl) ++
         match of_detail p row with
         | Some d => field w "rssi" (IntString (RSSI (d_extra d))) ++ field w "temp" (IntString (Temp (d_extra d)))
         | None => ""
         end)%string in
      if bool_decide (detailSerial p = fr_serial row) then
        if bool_decide (history p = []) then Some head
        else t ← trend w (OpsConfig.t_spark (cfg p)) p;
             Some (head ++ nl ++ bold "trend (oldest → newest)" ++ nl ++ t)%string
      else Some (head ++ muted p "  loading history…" ++ nl)%string
  end.
Definition renderFooter (now w : Z) (p : telemetryPane) : string :=
  let foot := OpsKeys.Join [("DB polled " ++ Age (lastPoll p) now)%string; ("newest device report " ++ Age (devSeen p) now)%string] " · " in
  if bool_decide (pollErr p = None) then muted p (truncate foot w)
  else (renderErrBadge w p ++ nl ++ muted p (truncate foot w))%string.
Definition View (now : Z) (p : telemetryPane) : option string :=
  let w := if OpsShell.width (base p) <=? 0 then 80 else OpsShell.width (base p) in
  let h := if OpsShell.height (base p) <=? 0 then 24 else OpsShell.height (base p) in
  if bool_decide (repo p = None) then Some (renderNoDB w p)
  else
    let footer := renderFooter now w p in
    let bodyH := if h - 2 <? 1 then 1 else h - 2 in
    if bool_decide (fleetRows p = []) then Some (renderEmpty w p ++ nl ++ nl ++ footer)%string
    else
      let listW := if Z.quot w 3 <? 24 then Z.min 24 w else Z.quot w 3 in
      let detailW := if w - listW - 1 <? 1 then 1 else w - listW - 1 in
      d ← renderDetail now detailW p;
      Some (join_top [renderList now listW bodyH p; " "; d] ++ nl ++ footer)%string.
End View.
End OpsTelePane.

(** * What the telemetry axis promises

    The verdict is the backend's; the fleet snapshot is the newest row of each
    device; the pane has one poll in flight and one tick pending; a sparkline
    has a bar per point, as long as the values are not astronomic. *)

Module OpsTeleLaws.
Import OpsTele OpsTelePane.
#[local] Abbreviation Ok := Prelude.Ok.
#[local] Abbreviation Err := Prelude.Err.

(** ** The verdict *)

Section Verdict.
Context `{Folding}.

Definition offline (s : Sample) (cfg : VerdictCfg) (now : Z) : bool :=
  (0 <? StaleAfter cfg) && negb (s_time s =? 0) && (StaleAfter cfg <? Sub now (s_time s)).
Definition browned_ota (s : Sample) (cfg : VerdictCfg) : bool :=
  match s_otarr s with Some c => containsInt (BrownoutOTARRCodes cfg) c | None => false end.
Definition looping (s : Sample) (cfg : VerdictCfg) : bool :=
  (0 <? BadBootsWarn cfg) && match s_bad s with Some bb => BadBootsWarn cfg <=? bb | None => false end.
Definition drained (s : Sample) (cfg : VerdictCfg) : bool :=
  match s_pct s with Some pct => (pct <=? LowBattPct cfg) && (LowBattIncludesUSB cfg || negb (default false (s_usb s))) | None => false end.
Definition count (b : bool) : nat := if b then 1 else 0.

Definition when (b : bool) (h : Health) (reason : string) (v : Health * list string) : Health * list string :=
  if b then bump h reason v else v.
Ltac stage b v tac :=
  match goal with |- context [when b ?h ?r ?x] =>
    let E := fresh in assert (E : when b h r x = v) by tac; rewrite E; clear E; clearbody v
  end.
Lemma Verdict_stages s prev cfg now : ∃ r1 r2 r3 r4 r5 r6, Verdict s prev cfg now =
  when (drained s cfg) HealthLowBatt r6 (when (looping s cfg) HealthBadBoots r5
    (when (UptimeRollback s prev && reasonIsBrownout s cfg) HealthBrownout r4 (when (browned_ota s cfg) HealthBrownout r3
      (when (reasonIsBrownout s cfg) HealthBrownout r2 (when (offline s cfg now) HealthOffline r1 (HealthOK, [])))))).
Proof.
  unfold Verdict.
  exists ("no report for " ++ OpsConsole.duration_text (roundAge (Sub now (s_time s))) ++ " (> stale_after " ++
          OpsConsole.duration_text (StaleAfter cfg) ++ ")")%string, ("reset_reason=" ++ default "" (s_reset s))%string,
    ("diag_ota_rr=" ++ format_int (default 0%Z (s_otarr s)) ++ " (brownout-during-OTA)")%string, "uptime rollback + brownout reset"%string,
    ("bad_boots=" ++ format_int (default 0%Z (s_bad s)) ++ " (>= " ++ format_int (BadBootsWarn cfg) ++ ")")%string,
    ("batt_pct=" ++ format_int (default 0%Z (s_pct s)) ++ " (<= " ++ format_int (LowBattPct cfg) ++ ")")%string.
  set (v1 := if (0 <? StaleAfter cfg) && _ then _ else _).
  stage (offline s cfg now) v1 ltac:(unfold when, offline, v1; destruct ((0 <? StaleAfter cfg) && _); [|done]; cbn [andb]; by destruct (_ <? _)).
  set (v2 := match s_reset s with Some _ => _ | None => v1 end).
  stage (reasonIsBrownout s cfg) v2 ltac:(unfold when, reasonIsBrownout, v2; by destruct (s_reset s)).
  set (v3 := match s_otarr s with Some _ => _ | None => v2 end).
  stage (browned_ota s cfg) v3 ltac:(unfold when, browned_ota, v3; by destruct (s_otarr s)).
  set (v4 := if UptimeRollback s prev && _ then _ else v3).
  stage (UptimeRollback s prev && reasonIsBrownout s cfg) v4 ltac:(reflexivity).
  set (v5 := if 0 <? BadBootsWarn cfg then _ else v4).
  stage (looping s cfg) v5 ltac:(unfold when, looping, v5; by destruct (0 <? _), (s_bad s)).
  unfold when, drained. destruct (s_pct s); [|done]. cbn. by destruct (_ <=? _), (_ || _).
Qed.

(** The verdict is the first of the conditions, by severity; a reason for each. *)
Lemma Verdict_spec s prev cfg now :
  let v := Verdict s prev cfg now in
  v.1 = (if offline s cfg now then HealthOffline
         else if reasonIsBrownout s cfg || browned_ota s cfg then HealthBrownout
         else if looping s cfg then HealthBadBoots else if drained s cfg then HealthLowBatt else HealthOK) ∧
  length v.2 = (count (offline s cfg now) + count (reasonIsBrownout s cfg) + count (browned_ota s cfg) +
                count (UptimeRollback s prev && reasonIsBrownout s cfg) + count (looping s cfg) + count (drained s cfg))%nat.
Proof.
  cbv zeta. destruct (Verdict_stages s prev cfg now) as (r1 & r2 & r3 & r4 & r5 & r6 & ->).
  destruct (offline s cfg now), (reasonIsBrownout s cfg), (browned_ota s cfg), (UptimeRollback s prev),
    (looping s cfg), (drained s cfg); split; reflexivity.
Qed.

(** The same sample and thresholds, as the backend's dashboard has them. *)
Definition backend_sample (t : Z) (s : Sample) : Telemetry.Sample :=
  Telemetry.MkSample true (Some t) (s_reset s) (s_otarr s) (s_bad s) (s_pct s) (s_usb s) (s_uptime s) None.
Definition backend_cfg (c : VerdictCfg) : Telemetry.VerdictCfg :=
  Telemetry.MkCfg (StaleAfter c) (BrownoutResetReasons c) (BrownoutOTARRCodes c) (BadBootsWarn c) (LowBattPct c) (LowBattIncludesUSB c).
Definition guarded (b : bool) (h : Telemetry.Health) (o : option (Telemetry.Health * string)) : Prop :=
  ∃ r, o = if b then Some (h, r) else None.
Lemma Sub_instant now t : Sub (instant now) (instant t) = Telemetry.Sub now t.
Proof.
  unfold Sub, instant, Telemetry.Sub, Telemetry.second, second, min_i64, max_i64. cbv zeta.
  replace ((now + 62135596800) * 1000000000 - (t + 62135596800) * 1000000000) with ((now - t) * 1000000000) by lia.
  zcase; lia.
Qed.
Lemma backend_conditions s t cfg now : s_time s = instant t → - 62135596800 < t →
  let b := backend_sample t s in let c := backend_cfg cfg in
  guarded (offline s cfg (instant now)) Telemetry.HealthOffline (Telemetry.offline b c now) ∧
  guarded (reasonIsBrownout s cfg) Telemetry.HealthBrownout (Telemetry.brownout_reset EqualFold b c) ∧
  guarded (browned_ota s cfg) Telemetry.HealthBrownout (Telemetry.brownout_ota b c) ∧
  guarded (looping s cfg) Telemetry.HealthBadBoots (Telemetry.bad_boots_warn b c) ∧
  guarded (drained s cfg) Telemetry.HealthLowBatt (Telemetry.low_batt b c).
Proof.
  intros Ht Hpos. cbv zeta. split_and!; unfold guarded.
  - unfold Telemetry.offline, offline. cbn. rewrite Ht, Sub_instant.
    replace (instant t =? 0) with false by (symmetry; apply Z.eqb_neq; unfold instant, second; lia).
    cbn [negb]. rewrite andb_true_r. destruct (_ && _); [by eexists|by exists ""%string].
  - unfold Telemetry.brownout_reset, reasonIsBrownout. cbn. destruct (s_reset s); [|by exists ""%string].
    unfold Telemetry.containsFold, containsFold. destruct (existsb _ _); [by eexists|by exists ""%string].
  - unfold Telemetry.brownout_ota, browned_ota. cbn. destruct (s_otarr s); [|by exists ""%string].
    unfold Telemetry.containsInt, containsInt. destruct (existsb _ _); [by eexists|by exists ""%string].
  - unfold Telemetry.bad_boots_warn, looping. cbn. destruct (s_bad s); [|rewrite andb_false_r; by exists ""%string].
    destruct (_ && _); [by eexists|by exists ""%string].
  - unfold Telemetry.low_batt, drained. cbn. destruct (s_pct s); [|by exists ""%string]. destruct (_ && _); [by eexists|by exists ""%string].
Qed.

(** The console and the backend's dashboard judge alike. On the same row and
    thresholds the two verdicts have the same name: the first that applies of
    silent beyond the limit, brownout, looping boots and a low battery. The
    console's row before, which is there for the uptime rollback, never changes
    the verdict: it adds at most one reason; without it there are as many
    reasons as the backend's, and none exactly when the verdict is OK. *)
Theorem verdicts_agree s t prev cfg now : s_time s = instant t → - 62135596800 < t →
  let here := Verdict s prev cfg (instant now) in
  let there := Telemetry.Verdict EqualFold (backend_sample t s) (backend_cfg cfg) now in
  Health_String here.1 = Telemetry.Health_String there.1 ∧
  here.1 = (Verdict s None cfg (instant now)).1 ∧
  length here.2 = (length there.2 + count (UptimeRollback s prev && reasonIsBrownout s cfg))%nat ∧
  (here.2 = [] ↔ here.1 = HealthOK).
Proof.
  intros Ht Hpos. cbv zeta. destruct (Verdict_spec s prev cfg (instant now)) as [-> Hl].
  destruct (Verdict_spec s None cfg (instant now)) as [-> _].
  destruct (backend_conditions s t cfg now Ht Hpos) as ((r1 & H1) & (r2 & H2) & (r3 & H3) & (r4 & H4) & (r5 & H5)).
  rewrite <- length_zero_iff_nil, Hl. clear Hl.
  unfold Telemetry.Verdict, Telemetry.conditions. cbn [negb Telemetry.HasData backend_sample]. rewrite H1, H2, H3, H4, H5.
  clear. destruct (offline s cfg (instant now)), (reasonIsBrownout s cfg), (browned_ota s cfg), (looping s cfg), (drained s cfg);
    destruct (UptimeRollback s prev); cbn; (split_and!; [done|done|done|split; (done || intros; lia)]).
Qed.
End Verdict.

(** ** The fleet cache *)

Section Cache.
Import OpsFleetCache.
Lemma load_lookup rows s : foldl (λ (next : gmap string Device) r, <[serial r := device_of r]> next) ∅ rows !! s =
  device_of <$> last (List.filter (λ r, bool_decide (serial r = s)) rows).
Proof.
  induction rows as [|r rows IH] using rev_ind; [apply lookup_empty|]. rewrite foldl_app, List.filter_app. cbn [foldl List.filter].
  case_bool_decide as Hs.
  - subst s. by rewrite lookup_insert, decide_True, last_snoc.
  - by rewrite lookup_insert_ne, app_nil_r.
Qed.
(** A load that fails keeps the last snapshot; one that succeeds has exactly the
    table's devices, and the list has them once each, by serial. *)
Theorem cache_snapshot rows c e : NoDup (serial <$> rows) →
  Load (Err e) c = (Some e, c) ∧
  let c' := (Load (Ok rows) c).2 in
  (∀ r, r ∈ rows → BySerial c' (serial r) = Some (device_of r)) ∧
  (∀ s d, BySerial c' s = Some d → ∃ r, r ∈ rows ∧ serial r = s ∧ d = device_of r) ∧
  OpsFleetCache.List c' ≡ₚ device_of <$> rows ∧ Sorted serial_le (OpsFleetCache.List c') ∧ Len c' = zlen rows.
Proof.
  intros Hnd. split; [done|]. cbn [Load snd]. set (m := foldl _ ∅ rows).
  assert (Hm : m = (list_to_map ((λ r, (serial r, device_of r)) <$> rows) : gmap string Device)).
  { apply map_eq. intros s. subst m. rewrite load_lookup. induction rows as [|r rows IH]; [done|].
    apply NoDup_cons in Hnd as [Hni Hnd]. rewrite fmap_cons. cbv beta. rewrite list_to_map_cons. cbn [List.filter]. case_bool_decide as Hs.
    - subst s. rewrite lookup_insert, decide_True by done.
      rewrite (FlashLaws.filter_none _ rows); [done|]. intros x Hx. apply bool_decide_eq_false. intros E. apply Hni. rewrite <- E.
      by apply list_elem_of_fmap_2.
    - rewrite lookup_insert_ne by done. by apply IH. }
  assert (Hfst : ((λ r, (serial r, device_of r)) <$> rows).*1 = serial <$> rows) by (by rewrite <- list_fmap_compose).
  assert (Hp : map_to_list m ≡ₚ (λ r, (serial r, device_of r)) <$> rows) by (rewrite Hm; apply map_to_list_to_map; by rewrite Hfst).
  split_and!.
  - intros r Hr. unfold BySerial. rewrite Hm. apply elem_of_list_to_map; [by rewrite Hfst|]. by apply (list_elem_of_fmap_2 (λ r, (serial r, device_of r))).
  - intros s d. unfold BySerial. rewrite Hm. intros Hd%elem_of_list_to_map_2. apply list_elem_of_fmap in Hd as (r & [= -> ->] & Hr). by exists r.
  - unfold OpsFleetCache.List. rewrite merge_sort_Permutation, Hp, <- list_fmap_compose. done.
  - unfold OpsFleetCache.List. apply Sorted_merge_sort. intros a b. unfold serial_le.
    destruct (String.leb_total (Serial a) (Serial b)); auto.
  - unfold Len, zlen. by rewrite Hp, length_fmap.
Qed.
End Cache.

(** ** The reads *)

Section Reads.
Context `{Cc : Collation} `{Cj : ExtraJson} `{Cl : OpsShell.Lipgloss} `{Cf : Folding} (dberr : string).

Lemma serials_of_spec tbl : NoDup (serials_of tbl) ∧ ∀ s, s ∈ serials_of tbl ↔ s ∈ LogIngest.tm_serial <$> tbl.
Proof.
  unfold serials_of. split.
  - rewrite merge_sort_Permutation. apply NoDup_remove_dups.
  - intros s. rewrite (elem_of_Permutation_proper _ _ _ (merge_sort_Permutation _ _)). apply elem_of_remove_dups.
Qed.
Lemma newest_some s tbl : s ∈ LogIngest.tm_serial <$> tbl → ∃ t, Telemetry.newest s tbl = Some t ∧ LogIngest.tm_serial t = s.
Proof.
  intros (t & -> & Hin)%list_elem_of_fmap. pose proof (TelemetryLaws.newest_spec (LogIngest.tm_serial t) tbl) as Hn.
  destruct (Telemetry.newest _ _) as [r|]; [exists r; naive_solver|by destruct (Hn t Hin)].
Qed.
Lemma newest_serials (l : list string) tbl : (∀ s, s ∈ l → s ∈ LogIngest.tm_serial <$> tbl) →
  LogIngest.tm_serial <$> omap (λ s, Telemetry.newest s tbl) l = l.
Proof.
  induction l as [|s l IH]; intros Hall; [done|]. cbn [omap list_omap].
  destruct (newest_some s tbl (Hall s ltac:(left))) as (t & -> & Ht). cbn [fmap list_fmap]. rewrite Ht. f_equal.
  apply IH. intros s' Hs'. apply Hall. by right.
Qed.
(** One row of each device, its newest; all of them if there is room. *)
Lemma fleetSQL_spec limit tbl :
  LogIngest.tm_serial <$> fleetSQL limit tbl = take (Z.to_nat limit) (serials_of tbl) ∧
  ∀ t, t ∈ fleetSQL limit tbl → Telemetry.newest (LogIngest.tm_serial t) tbl = Some t.
Proof.
  unfold fleetSQL. split.
  - rewrite fmap_take, newest_serials; [done|]. apply serials_of_spec.
  - intros t Ht. apply elem_of_take in Ht as (i & Ht & _). apply list_elem_of_lookup_2 in Ht.
    apply list_elem_of_omap in Ht as (s & Hs & Hn).
    pose proof (TelemetryLaws.newest_spec s tbl) as Hsp. rewrite Hn in Hsp. by destruct Hsp as (_ & -> & _).
Qed.
Lemma fleet_serials limit tbl : fr_serial <$> (fleet_row <$> fleetSQL limit tbl) = take (Z.to_nat limit) (serials_of tbl).
Proof. rewrite <- list_fmap_compose. apply fleetSQL_spec. Qed.

(** ** The loop *)

(** [seen]: the tables the answered polls read, kept to say what is shown. *)
Record world := MkWorld { pane : telemetryPane; ticks : nat; flight : list poll; seen : list table }.
Definition polls (o : list out) : list poll := omap (λ x, match x with Poll q => Some q | _ => None end) o.
Definition nticks (o : list out) : nat := length (List.filter (λ x, match x with Tick => true | _ => false end) o).
Definition after (r : telemetryPane * list out) (n : nat) (fl : list poll) (T : list table) : world :=
  MkWorld r.1 (n + nticks r.2) (fl ++ polls r.2) T.
(** A step of the program: the tick fires, a poll is answered from the tables and
    faults of its moment, or the operator or the shell acts. *)
Inductive input : msg → Prop :=
| input_key k : input (KeyPressMsg k)
| input_args a : input (SpawnArgsMsg a)
| input_config c : input (ConfigChangedMsg c).
Inductive step : world → world → Prop :=
| step_tick now p n fl T : step (MkWorld p (S n) fl T) (after (Update now tickMsg p) n fl T)
| step_answer now q tbl fs p n fl1 fl2 T :
    step (MkWorld p n (fl1 ++ q :: fl2) T) (after (Update now (run_poll dberr now q tbl fs).1 p) n (fl1 ++ fl2) (tbl :: T))
| step_input now m p n fl T : input m → step (MkWorld p n fl T) (after (Update now m p) n fl T)
| step_focus f p n fl T : step (MkWorld p n fl T) (MkWorld (SetFocused f p) n fl T).
Inductive reachable (pool : bool) (b : OpsShell.BasePane) (c : OpsConfig.Config) : world → Prop :=
| reachable_init now : reachable pool b c (after (Init now (New pool b c)) 0 [] [])
| reachable_step w w' : reachable pool b c w → step w w' → reachable pool b c w'.

(** What is shown was read: a row of the list is its device's newest in a table some
    poll read; detail and history are what one poll read of [detailSerial]. *)
Record truthful (T : list table) (p : telemetryPane) : Prop := {
  tr_rows r : r ∈ fleetRows p → ∃ tbl t, tbl ∈ T ∧ Telemetry.newest (fr_serial r) tbl = Some t ∧ r = fleet_row t;
  tr_card : (detail p = None ∧ history p = []) ∨ ∃ tbl since max, tbl ∈ T ∧
    detail p = device_row <$> Telemetry.newest (detailSerial p) tbl ∧
    history p = point_row <$> deviceHistorySQL (detailSerial p) since max tbl }.
(** The cursor is on a row and the rows are of distinct devices. *)
Record good (T : list table) (p : telemetryPane) : Prop := {
  good_cursor : fleetRows p ≠ [] → 0 ≤ cursor p < zlen (fleetRows p);
  good_rows : NoDup (fr_serial <$> fleetRows p);
  good_true : truthful T p }.
(** The selection is the row under the cursor. *)
Definition aligned (p : telemetryPane) : Prop := ∀ row, selectedFleetRow p = Some row → selected p = fr_serial row.

Section Keeps.
Context (T : list table).
#[local] Abbreviation good := (good T).
Record keeps (p : telemetryPane) (r : telemetryPane * list out) : Prop := {
  keeps_good : good r.1;
  keeps_poll : (polls r.2 = [] ∧ polling r.1 = polling p) ∨ (polling p = false ∧ polling r.1 = true ∧ ∃ q, polls r.2 = [q]);
  keeps_repo : repo r.1 = None ↔ repo p = None;
  keeps_none : repo p = None → polls r.2 = [];
  keeps_ticks : nticks r.2 = 0%nat }.

Lemma good_fields p p' : good p → fleetRows p' = fleetRows p → cursor p' = cursor p → detail p' = detail p →
  history p' = history p → detailSerial p' = detailSerial p → good p'.
Proof. intros [H1 H2 [H3 H4]] E1 E2 E3 E4 E5. by split; [..|split]; rewrite ?E1, ?E2, ?E3, ?E4, ?E5. Qed.
Lemma keeps_refl p : good p → keeps p (p, []).
Proof. by split; [|left| | |]. Qed.
Lemma clamp_row p : fleetRows p ≠ [] → ∀ i, 0 ≤ clamp i 0 (zlen (fleetRows p) - 1) < zlen (fleetRows p).
Proof.
  intros Hne i. assert (Hl : 0 < zlen (fleetRows p)).
  { pose proof (zlen_nonneg (fleetRows p)). assert (zlen (fleetRows p) ≠ 0) by (intros ?%zlen_nil_inv; done). lia. }
  unfold clamp. zcase; lia.
Qed.
Lemma maybePollDevice_keeps now p : good p → keeps p (maybePollDevice now p).
Proof.
  intros Hg. unfold maybePollDevice. case_bool_decide as Hr; [by apply keeps_refl|]. destruct (polling p) eqn:Hp; [by apply keeps_refl|].
  cbn [orb]. destruct (bool_decide (selected p = _)); [by apply keeps_refl|]. destruct (_ && _); [by apply keeps_refl|].
  split; cbn; [by apply (good_fields p)|right; eauto|done|done|done].
Qed.
Lemma moveCursor_keeps now d p : good p → keeps p (moveCursor now d p).
Proof.
  intros Hg. unfold moveCursor. case_bool_decide as Hn; [by apply keeps_refl|]. set (p' := set_cursor _ _ p).
  assert (Hg' : good p') by (destruct Hg as [? ? [? ?]]; split; [intros _; exact (clamp_row p Hn _)|done|by split]).
  destruct (maybePollDevice_keeps now p' Hg') as [H1 H2 H3 H4 H5]. by split.
Qed.
Lemma issueFleetPoll_keeps now p : good p → repo p ≠ None → polling p = false → keeps p (issueFleetPoll now p).
Proof. intros Hg Hr Hp. split; cbn; [by apply (good_fields p)|right; eauto|done|done|done]. Qed.
Lemma onKey_keeps now k p : good p → keeps p (onKey now k p).
Proof.
  intros Hg. unfold onKey. destruct (_ || _); [by apply moveCursor_keeps|]. destruct (_ || _); [by apply moveCursor_keeps|].
  destruct (bool_decide (k = k_refresh _)).
  - case_bool_decide; [|by apply keeps_refl]. destruct (polling p) eqn:Hp; cbn [negb andb]; [by apply keeps_refl|].
    by apply issueFleetPoll_keeps.
  - destruct (bool_decide _); [|by apply keeps_refl]. unfold copySelectedSerial.
    destruct (bool_decide _); (split; cbn; [done|by left|done|done|done]).
Qed.
Lemma input_keeps now m p : input m → good p → keeps p (Update now m p).
Proof.
  intros [k|a|[c|]] Hg; cbn -[onKey]; [by apply onKey_keeps| |split; cbn|by apply keeps_refl].
  - destruct (bool_decide _); [by apply keeps_refl|]. split; cbn; [by apply (good_fields p)|by left|done|done|done].
  - by apply (good_fields p).
  - by left.
  - by destruct (repo p).
  - done.
  - done.
Qed.

Lemma row_index_range s rows i j : row_index i s rows = Some j → i ≤ j < i + zlen rows.
Proof.
  revert i. induction rows as [|r rows IH]; intros i; [done|]. cbn [row_index]. rewrite zlen_cons.
  pose proof (zlen_nonneg rows). case_bool_decide; [intros [= <-]; lia|]. intros Hj%IH. lia.
Qed.
Lemma syncSelected_good p : NoDup (fr_serial <$> fleetRows p) → truthful T p → good (syncSelected p).
Proof.
  intros H1' [H2' H3']. unfold syncSelected. case_bool_decide as Hn; [by split|]. destruct (bool_decide (selected p = _)).
  - split; [intros _; exact (clamp_row p Hn _)|done|by split].
  - destruct (row_index _ _ _) as [i|] eqn:Hi; (split; [intros _|done|by split]); [|exact (clamp_row p Hn _)].
    apply row_index_range in Hi. cbn. lia.
Qed.
Lemma markDirty_keeps p : good p → good (markDirty p) ∧ polling (markDirty p) = polling p ∧ repo (markDirty p) = repo p.
Proof. intros Hg. unfold markDirty. destruct (OpsShell.focused _); [done|]. split; [by apply (good_fields p)|done]. Qed.
Lemma syncSelected_same p : polling (syncSelected p) = polling p ∧ repo (syncSelected p) = repo p.
Proof. unfold syncSelected. destruct (bool_decide _); [done|]. destruct (if bool_decide _ then _ else _); done. Qed.

End Keeps.
Lemma run_poll_spec now q tbl fs :
  match (run_poll dberr now q tbl fs).1 with
  | fleetMsg rows _ => NoDup (fr_serial <$> rows) ∧
      ∀ r, r ∈ rows → ∃ t, Telemetry.newest (fr_serial r) tbl = Some t ∧ r = fleet_row t
  | deviceMsg s d h _ => ∃ since max, d = device_row <$> Telemetry.newest s tbl ∧ h = point_row <$> deviceHistorySQL s since max tbl
  | pollErrMsg _ _ => True
  | _ => False
  end.
Proof.
  destruct q as [max|s window max]; cbn [run_poll]; unfold answer.
  - unfold LatestFleet, Db.query, Db.stmt. set (cap := if max <? 1 then 1 else max).
    assert (Hnd : NoDup (fr_serial <$> (fleet_row <$> fleetSQL cap tbl)) ∧
      ∀ r, r ∈ fleet_row <$> fleetSQL cap tbl → ∃ t, Telemetry.newest (fr_serial r) tbl = Some t ∧ r = fleet_row t).
    { split; [rewrite fleet_serials; eapply sublist_NoDup; [apply serials_of_spec|apply sublist_take]|].
      intros r (t & -> & Ht)%list_elem_of_fmap. exists t. split; [by apply (fleetSQL_spec cap)|done]. }
    destruct fs as [|[] fs]; cbn [fst]; done.
  - unfold LatestDevice, DeviceHistory, mbind, Db.M_bind, Db.query, Db.stmt, mret, Db.M_ret.
    destruct fs as [|[] [|[] fs]]; cbn [fst]; try done; by eexists _, _.
Qed.

(** Nothing is in flight, or one poll, and the guard says which. *)
Definition guarded_flight (p : telemetryPane) (fl : list poll) : Prop :=
  (fl = [] ∧ polling p = false) ∨ (∃ q, fl = [q] ∧ polling p = true).
Record Inv (pool : bool) (w : world) : Prop := {
  inv_good : good (seen w) (pane w);
  inv_repo : repo (pane w) = None ↔ pool = false;
  inv_flight : guarded_flight (pane w) (flight w);
  inv_none : pool = false → flight w = [];
  inv_ticks : ticks w = if pool then 1%nat else 0%nat }.

Lemma good_more T T' p : good T p → (∀ t, t ∈ T → t ∈ T') → good T' p.
Proof.
  intros [H1' H2' [H3' H4']] Hsub. split; [done|done|split].
  - intros r Hr. destruct (H3' r Hr) as (tbl & t & Ht & ?). exists tbl, t. auto.
  - destruct H4' as [?|(tbl & since & max & Ht & ?)]; [by left|]. right. exists tbl, since, max. auto.
Qed.
Lemma keeps_inv T pool p r n fl : Inv pool (MkWorld p n fl T) → keeps T p r → Inv pool (after r n fl T).
Proof.
  intros [Hg Hr Hf Hn Ht] [K1 K2 K3 K4 K5]. cbn in *. split; cbn.
  - done.
  - by rewrite K3.
  - destruct K2 as [[-> K2]|(E1 & E2 & q & ->)]; [rewrite app_nil_r; unfold guarded_flight; by rewrite K2|].
    destruct Hf as [[-> _]|(x & _ & E)]; [|congruence]. right. by exists q.
  - intros ->. rewrite K4 by (by apply Hr). by rewrite Hn.
  - rewrite K5, Nat.add_0_r. done.
Qed.
Lemma tick_inv T pool p n fl now : Inv pool (MkWorld p (S n) fl T) → Inv pool (after (Update now tickMsg p) n fl T).
Proof.
  intros HI. assert (Hpool : pool = true ∧ n = 0%nat) by (destruct HI as [_ _ _ _ Ht]; cbn in Ht; destruct pool; [by injection Ht|done]).
  destruct Hpool as [-> ->]. assert (Hr : repo p ≠ None) by (intros Hr; by apply (inv_repo _ _ HI) in Hr).
  assert (Hk : keeps T p ((onTick now p).1, tail (onTick now p).2) ∧ ∃ o, (onTick now p).2 = Tick :: o).
  { unfold onTick. rewrite bool_decide_eq_false_2 by done. destruct (due now p); cbn [andb].
    - destruct (polling p) eqn:Hp; cbn [negb].
      + split; [apply keeps_refl, HI|by eexists].
      + split; [exact (issueFleetPoll_keeps T now p (inv_good _ _ HI) Hr Hp)|by eexists].
    - split; [apply keeps_refl, HI|by eexists]. }
  cbn [Update]. destruct (onTick now p) as [p' o]. destruct Hk as [Hk (o' & Ho)]. cbn [fst snd] in *. subst o. cbn [tail] in Hk.
  assert (HI' : Inv true (MkWorld p 1 fl T)) by (destruct HI; by split).
  destruct (keeps_inv T true p _ 1 fl HI' Hk) as [G1 G2 G3 G4 G5]. destruct Hk as [_ _ _ _ K5]. cbn in *.
  split; cbn; [done|done|done|done|]. unfold nticks in *. cbn. lia.
Qed.
Lemma answer_inv T pool p n fl1 q fl2 now tbl fs : Inv pool (MkWorld p n (fl1 ++ q :: fl2) T) →
  Inv pool (after (Update now (run_poll dberr now q tbl fs).1 p) n (fl1 ++ fl2) (tbl :: T)).
Proof.
  intros [Hg Hr Hf Hn Ht]. cbn in *. apply (good_more T (tbl :: T)) in Hg; [|by right].
  assert (E : fl1 = [] ∧ fl2 = []).
  { destruct Hf as [[E _]|(q' & E & _)]; [by destruct fl1|]. destruct fl1 as [|? fl1]; [by injection E|]. injection E as _ E. by destruct fl1. }
  destruct E as [-> ->]. cbn in *. assert (pool = true) as -> by (destruct pool; [done|by discriminate Hn]).
  pose proof (run_poll_spec now q tbl fs) as Hm. set (T' := tbl :: T) in *.
  assert (Hk : ∀ p0 r, repo p0 = repo p → polling p0 = false → good T' p0 → keeps T' p0 r → Inv true (after r n [] T')).
  { intros p0 r E1 E2 Hg0. apply keeps_inv. split; cbn; [done|by rewrite E1|by left|done|done]. }
  destruct (run_poll _ _ _ _ _).1 as [|rows at_|s d h at_|e at_|a|c|k]; try done; cbn [Update].
  - destruct Hm as [Hm1 Hm2]. set (p1 := syncSelected _).
    assert (Hg1 : good T' p1).
    { apply syncSelected_good; [done|]. split; [|apply Hg]. intros r Hin. destruct (Hm2 r Hin) as (t & ? & ?). exists tbl, t. split; [by left|done]. }
    destruct (markDirty_keeps T' p1 Hg1) as (M1 & M2 & M3). destruct (syncSelected_same (set_fleet rows at_ (newestReport rows) p)) as [S1 S2].
    apply (Hk (markDirty p1)); [by rewrite M3; subst p1; rewrite S2|by rewrite M2; subst p1; rewrite S1|done|by apply maybePollDevice_keeps].
  - set (p1 := if bool_decide _ then _ else p).
    assert (Hg1 : good T' p1 ∧ repo p1 = repo p).
    { subst p1. destruct (bool_decide (s = selected p)); [|done]. split; [|done]. destruct Hg as [? ? [? ?]]. split; [done|done|split; [done|]].
      destruct Hm as (since & max & -> & ->). right. exists tbl, since, max. split; [by left|done]. }
    destruct Hg1 as [Hg1 Hr1]. assert (Hg2 : good T' (set_err None p1)) by (by apply (good_fields T' p1)).
    destruct (markDirty_keeps T' _ Hg2) as (M1 & M2 & M3).
    apply (Hk (markDirty (set_err None p1))); [by rewrite M3|by rewrite M2|done|by apply maybePollDevice_keeps].
  - assert (Hg2 : good T' (set_err (Some e) p)) by (by apply (good_fields T' p)). destruct (markDirty_keeps T' _ Hg2) as (M1 & M2 & M3).
    apply (Hk (markDirty (set_err (Some e) p))); [by rewrite M3|by rewrite M2|done|by apply keeps_refl].
Qed.
Lemma reachable_inv pool b c w : reachable pool b c w → Inv pool w.
Proof.
  induction 1 as [now|w w' _ IH Hs].
  - assert (Hg : good [] (New pool b c)).
    { split; [done|constructor|split; [|by left]]. by intros r ?%not_elem_of_nil. }
    unfold Init. destruct pool; cbn; (split; cbn; [|done| |done|done]); [by apply (good_fields [] (New true b c))|right; by eexists|done|by left].
  - destruct Hs as [now p n fl T|now q tbl fs p n fl1 fl2 T|now m p n fl T Hm|f p n fl T].
    + by apply tick_inv.
    + by apply answer_inv.
    + apply (keeps_inv _ _ p); [done|]. apply input_keeps; [done|apply IH].
    + destruct IH as [Hg Hr Hf Hn Ht]. cbn in *. split; cbn; try done. by apply (good_fields T p).
Qed.

(** *** The card and the selection *)

Lemma row_index_lookup s rows i j : row_index i s rows = Some j → ∃ r, rows !! Z.to_nat (j - i) = Some r ∧ fr_serial r = s.
Proof.
  revert i. induction rows as [|r rows IH]; intros i; [done|]. cbn [row_index].
  case_bool_decide as Hs; [intros [= <-]; rewrite Z.sub_diag; by exists r|]. intros Hj.
  pose proof (row_index_range _ _ _ _ Hj). destruct (IH _ Hj) as (r' & Hl & E). exists r'. split; [|done].
  replace (Z.to_nat (j - i)) with (S (Z.to_nat (j - (i + 1)))) by lia. exact Hl.
Qed.
Lemma aligned_same p p' : fleetRows p' = fleetRows p → cursor p' = cursor p → selected p' = selected p → aligned p → aligned p'.
Proof. intros E1 E2 E3 Ha row. unfold selectedFleetRow. rewrite E1, E2, E3. apply Ha. Qed.
Lemma aligned_at p c : aligned (set_cursor c (serial_at c (fleetRows p)) p).
Proof.
  intros row. unfold selectedFleetRow. cbn. destruct (_ || _); [done|]. unfold serial_at. by intros ->.
Qed.
Lemma aligned_sync p : aligned (syncSelected p).
Proof.
  unfold syncSelected. case_bool_decide as Hn.
  { intros row. unfold selectedFleetRow. rewrite Hn. by destruct (_ || _). }
  destruct (bool_decide (selected p = _)); [apply aligned_at|]. destruct (row_index 0 _ _) as [i|] eqn:Hi; [|apply aligned_at].
  apply row_index_lookup in Hi as (r & Hl & E). rewrite Z.sub_0_r in Hl. intros row. unfold selectedFleetRow. cbn.
  destruct (_ || _); [done|]. rewrite Hl. intros [= <-]. done.
Qed.
Lemma aligned_poll now p : aligned p → aligned (maybePollDevice now p).1.
Proof. unfold maybePollDevice. destruct (_ || _); [done|]. destruct (_ && _); [done|]. by apply aligned_same. Qed.
Lemma aligned_dirty p : aligned p → aligned (markDirty p).
Proof. unfold markDirty. destruct (OpsShell.focused _); [done|]. by apply aligned_same. Qed.
(** A preselection apart, every message keeps the selection on the cursor's row, and
    a fleet answer puts it there. *)
Lemma aligned_update now m p : (∀ a, m ≠ SpawnArgsMsg a) → aligned p → aligned (Update now m p).1.
Proof.
  intros Hm Ha. destruct m as [|rows at_|s d h at_|e at_|a|c|k]; cbn [Update fst].
  - unfold onTick. destruct (bool_decide _); [done|]. destruct (_ && _); [|done]. by apply (aligned_same p).
  - apply aligned_poll, aligned_dirty, aligned_sync.
  - apply aligned_poll, aligned_dirty. destruct (bool_decide (s = _)); by apply (aligned_same p).
  - apply aligned_dirty. by apply (aligned_same p).
  - by destruct (Hm a).
  - destruct c; [by apply (aligned_same p)|done].
  - assert (Hmove : ∀ d, aligned (moveCursor now d p).1).
    { intros d. unfold moveCursor. case_bool_decide; [done|]. apply aligned_poll, aligned_at. }
    unfold onKey. destruct (_ || _); [done|]. destruct (_ || _); [done|]. destruct (bool_decide (k = k_refresh _)).
    + destruct (_ && _); [|done]. by apply (aligned_same p).
    + by destruct (bool_decide _).
Qed.

(** Without the detail and the history. *)
Definition forget (p : telemetryPane) : telemetryPane := set_detail None [] (detailSerial p) p.
Lemma card_own cache now width p row : selectedFleetRow p = Some row → selected p = fr_serial row → detailSerial p ≠ fr_serial row →
  renderDetail cache now width p = renderDetail cache now width (forget p).
Proof.
  intros Hrow Hsel Hne. unfold renderDetail. change (selectedFleetRow (forget p)) with (selectedFleetRow p). rewrite Hrow.
  unfold of_detail. change (detailSerial (forget p)) with (detailSerial p). rewrite (bool_decide_eq_false_2 (detailSerial p = fr_serial row)) by done.
  assert (Hp : previousSample p = None) by (unfold previousSample; by rewrite Hsel, bool_decide_eq_false_2).
  assert (Hp' : previousSample (forget p) = None).
  { unfold previousSample. change (detailSerial (forget p)) with (detailSerial p). change (selected (forget p)) with (selected p).
    by rewrite Hsel, bool_decide_eq_false_2. }
  by rewrite Hp, Hp'.
Qed.

(** C38. The telemetry pane polls with discipline and shows what it read. Whatever the
    operator, the clock and the database do: exactly one tick is pending with a
    database and none without; at most one poll is in flight and the guard says so;
    a tick that finds the interval elapsed and nothing in flight polls the fleet and
    re-arms. The rows shown are of distinct devices, each its device's newest in a
    table a poll read, with the cursor on one of them. Detail and history are together
    what one poll read of one device, and the card of another shows nothing of them
    while the selection is the cursor's row: which a fleet answer brings about and
    every message keeps but a preselection by another pane ([rollback_of_another]
    is what the card shows in between). *)
Theorem poll_discipline pool b c w : reachable pool b c w →
  ticks w = (if pool then 1 else 0)%nat ∧
  (length (flight w) ≤ 1)%nat ∧ (polling (pane w) = true ↔ flight w ≠ []) ∧ (pool = false → flight w = []) ∧
  (∀ now, pool = true → flight w = [] → due now (pane w) = true →
     (Update now tickMsg (pane w)).2 = [Tick; Poll (PollFleet (OpsConfig.t_devices (cfg (pane w))))]) ∧
  NoDup (fr_serial <$> fleetRows (pane w)) ∧ (fleetRows (pane w) ≠ [] → is_Some (selectedFleetRow (pane w))) ∧
  truthful (seen w) (pane w) ∧
  (∀ row d, of_detail (pane w) row = Some d → d_serial d = fr_serial row) ∧
  (∀ cache now width row, selectedFleetRow (pane w) = Some row → aligned (pane w) → detailSerial (pane w) ≠ fr_serial row →
     renderDetail cache now width (pane w) = renderDetail cache now width (forget (pane w))) ∧
  (∀ now rows at_, aligned (Update now (fleetMsg rows at_) (pane w)).1) ∧
  (∀ now m, (∀ a, m ≠ SpawnArgsMsg a) → aligned (pane w) → aligned (Update now m (pane w)).1).
Proof.
  intros [[Hc Hr Hd] Hrepo Hf Hn Ht]%reachable_inv. split_and!; try done.
  - destruct Hf as [[-> _]|(q & -> & _)]; cbn; lia.
  - destruct Hf as [[-> ->]|(q & -> & ->)]; done.
  - intros now -> Hfl Hdue. destruct Hf as [[_ Hp]|(q & Hq & _)]; [|congruence]. cbn [Update]. unfold onTick.
    rewrite bool_decide_eq_false_2 by (intros Hx; by apply Hrepo in Hx). by rewrite Hdue, Hp.
  - intros Hne. specialize (Hc Hne). unfold selectedFleetRow.
    destruct (Z.ltb_spec (cursor (pane w)) 0); [lia|]. destruct (Z.leb_spec (zlen (fleetRows (pane w))) (cursor (pane w))); [lia|].
    cbn [orb]. apply lookup_lt_is_Some. unfold zlen in *. lia.
  - intros row d. unfold of_detail. case_bool_decide as Hs; [|done]. intros Hdet.
    destruct Hd as [_ [[Hx _]|(tbl & since & max & _ & Hx & _)]]; [congruence|]. rewrite Hdet in Hx.
    pose proof (TelemetryLaws.newest_spec (detailSerial (pane w)) tbl) as Hnew. destruct (Telemetry.newest _ tbl) as [t|]; [|done].
    injection Hx as ->. destruct Hnew as (_ & E & _). cbn. congruence.
  - intros cache now width row Hrow Ha. apply card_own; [done|by apply Ha].
  - intros now rows at_. cbn [Update]. apply aligned_poll, aligned_dirty, aligned_sync.
  - intros now m. apply aligned_update.
Qed.

(** The fleet snapshot: the newest row of each device, each once, in the order of
    the database's collation and up to the cap; every device that ever reported
    is there if the cap allows. *)
Theorem fleet_snapshot max tbl : ∃ ts, let cap := Z.max 1 max in
  LatestFleet dberr max tbl [] = (Ok (fleet_row <$> ts), tbl, []) ∧
  LogIngest.tm_serial <$> ts = take (Z.to_nat cap) (serials_of tbl) ∧ NoDup (LogIngest.tm_serial <$> ts) ∧
  (∀ t, t ∈ ts → t ∈ tbl ∧ ∀ t', t' ∈ tbl → LogIngest.tm_serial t' = LogIngest.tm_serial t → LogIngest.tm_time t' ≤ LogIngest.tm_time t) ∧
  (zlen (serials_of tbl) ≤ cap → ∀ t, t ∈ tbl → LogIngest.tm_serial t ∈ LogIngest.tm_serial <$> ts).
Proof.
  assert (Hcap : (if max <? 1 then 1 else max) = Z.max 1 max) by (zcase; lia).
  exists (fleetSQL (Z.max 1 max) tbl). cbv zeta. destruct (fleetSQL_spec (Z.max 1 max) tbl) as [H1 H2]. split_and!.
  - unfold LatestFleet. by rewrite Hcap.
  - done.
  - rewrite H1. eapply sublist_NoDup; [apply serials_of_spec|apply sublist_take].
  - intros t Ht. specialize (H2 t Ht). pose proof (TelemetryLaws.newest_spec (LogIngest.tm_serial t) tbl) as Hn. rewrite H2 in Hn.
    by destruct Hn as (? & _ & ?).
  - intros Hroom t Ht. rewrite H1, take_ge by (unfold zlen in Hroom; lia). apply serials_of_spec. by apply list_elem_of_fmap_2.
Qed.
End Reads.


(** ** The sparkline *)

Lemma extremes_app l n : extremes (l ++ [n]) = match n, extremes l with
  | None, a => a
  | Some v, None => Some (v, v)
  | Some v, Some (lo, hi) => Some (if v <? lo then v else lo, if hi <? v then v else hi)
  end.
Proof. unfold extremes. by rewrite foldl_app. Qed.
Lemma extremes_spec l : match extremes l with
  | None => ∀ v, Some v ∉ l
  | Some (lo, hi) => Some lo ∈ l ∧ Some hi ∈ l ∧ ∀ v, Some v ∈ l → lo ≤ v ≤ hi
  end.
Proof.
  induction l as [|n l IH] using rev_ind; [intros v; apply not_elem_of_nil|]. rewrite extremes_app.
  assert (Hin : ∀ x, x ∈ l ++ [n] ↔ x ∈ l ∨ x = n) by (intros; by rewrite elem_of_app, list_elem_of_singleton).
  destruct n as [v|], (extremes l) as [[lo hi]|].
  - destruct IH as (Hlo & Hhi & Hall). pose proof (Hall lo Hlo). pose proof (Hall hi Hhi).
    split_and!; [destruct (Z.ltb_spec v lo); apply Hin; auto|destruct (Z.ltb_spec hi v); apply Hin; auto|].
    intros x [Hx|[= ->]]%Hin; [specialize (Hall x Hx)|]; zcase; lia.
  - split_and!; [apply Hin; auto..|]. intros x [Hx|[= ->]]%Hin; [by destruct (IH x)|lia].
  - destruct IH as (Hlo & Hhi & Hall). split_and!; [apply Hin; auto..|]. intros x [Hx|?]%Hin; [auto|done].
  - intros v [Hx|?]%Hin; [by destruct (IH v)|done].
Qed.

(** The height of a point: its share of the range, in sevenths, rounded down. *)
Definition level (lo hi v : Z) : Z := if lo <? hi then (v - lo) * 7 / (hi - lo) else 0.
Lemma level_bound lo hi v : lo ≤ v ≤ hi → 0 ≤ level lo hi v ≤ 7.
Proof. intros Hv. unfold level. destruct (Z.ltb_spec lo hi); [|lia]. split; [apply Z.div_pos; lia|apply Z.div_le_upper_bound; lia]. Qed.
Lemma bar_level lo hi v : lo ≤ v ≤ hi → hi - lo ≤ max_i64 / 7 → bar lo (i64 (hi - lo)) v = sparklineBars !! Z.to_nat (level lo hi v).
Proof.
  intros Hv Hs. unfold max_i64 in Hs. assert (hi - lo <= 1317624576693539401) by (etransitivity; [exact Hs|by vm_compute]).
  pose proof (level_bound lo hi v Hv) as Hl. unfold bar.
  rewrite (i64_small (hi - lo)), (i64_small (v - lo)), (i64_small ((v - lo) * 7)) by (unfold in_i64, min_i64, max_i64; lia).
  replace (if 0 <? hi - lo then _ else 0) with (level lo hi v).
  - destruct (Z.leb_spec 0 (level lo hi v)); [|lia]. change (zlen sparklineBars) with 8. destruct (Z.ltb_spec (level lo hi v) 8); [done|lia].
  - unfold level in *. destruct (Z.ltb_spec lo hi), (Z.ltb_spec 0 (hi - lo)); try lia.
    rewrite Z.quot_div_nonneg by lia. rewrite i64_small; [done|]. unfold in_i64, min_i64, max_i64. lia.
Qed.
Definition point (lo hi : Z) (n : option Z) : string :=
  match n with None => " "%string | Some v => default ""%string (sparklineBars !! Z.to_nat (level lo hi v)) end.
Definition drawn (lo hi : Z) (l : list (option Z)) : string := foldr String.append ""%string (point lo hi <$> l).
Lemma bars_points lo hi l : (∀ v, Some v ∈ l → lo ≤ v ≤ hi) → hi - lo ≤ max_i64 / 7 →
  bars lo (i64 (hi - lo)) l = Some (drawn lo hi l).
Proof.
  intros Hv Hs. induction l as [|n l IH]; [done|]. cbn [bars].
  rewrite IH by (intros v Hin; apply Hv; by right).
  assert (Hn : match n with None => Some " "%string | Some v => bar lo (i64 (hi - lo)) v end = Some (point lo hi n)).
  { destruct n as [v|]; [|done]. specialize (Hv v ltac:(left)). rewrite (bar_level lo hi v Hv Hs). unfold point.
    pose proof (level_bound lo hi v Hv). destruct (sparklineBars !! Z.to_nat (level lo hi v)) eqn:Hl; [done|].
    apply lookup_ge_None in Hl. change (length sparklineBars) with 8%nat in Hl. lia. }
  by rewrite Hn.
Qed.

(** A sparkline shows the series. With values no more than 2^60 apart it never
    panics: a gap for each point that was not measured, else a bar whose height is
    the value's share of the range; the least value has the lowest bar, the
    greatest the highest, and a greater value never a lower one; without any value
    it says so. *)
Theorem sparkline_draws l : (∀ a b, Some a ∈ l → Some b ∈ l → b - a ≤ 2 ^ 60) →
  match extremes l with
  | None => (∀ v, Some v ∉ l) ∧ sparkline l = Some naLabel
  | Some (lo, hi) =>
      Some lo ∈ l ∧ Some hi ∈ l ∧ sparkline l = Some (drawn lo hi l) ∧ (lo < hi → level lo hi lo = 0 ∧ level lo hi hi = 7) ∧
      ∀ v, Some v ∈ l → lo ≤ v ≤ hi ∧ 0 ≤ level lo hi v ≤ 7 ∧ ∀ v', Some v' ∈ l → v ≤ v' → level lo hi v ≤ level lo hi v'
  end.
Proof.
  intros Hd. pose proof (extremes_spec l) as He. unfold sparkline. destruct (extremes l) as [[lo hi]|]; [|done].
  destruct He as (Hlo & Hhi & Hall). specialize (Hd lo hi Hlo Hhi). split_and!; [done|done| | |].
  - apply bars_points; [done|]. etransitivity; [exact Hd|by vm_compute].
  - intros Hlt. unfold level. destruct (Z.ltb_spec lo hi); [|lia]. split; [by rewrite Z.sub_diag|]. rewrite Z.mul_comm, Z.div_mul; lia.
  - intros v Hv. specialize (Hall v Hv). split_and!; [lia|lia|apply level_bound; lia..|]. intros v' Hv' Hle. unfold level.
    destruct (Z.ltb_spec lo hi); [|lia]. apply Z.div_le_mono; lia.
Qed.
Lemma sparkline_draws_witness :
  (∀ a b, Some a ∈ [Some 80; None; Some 40; Some 60] → Some b ∈ [Some 80; None; Some 40; Some 60] → b - a ≤ 2 ^ 60) ∧
  sparkline [Some 80; None; Some 40; Some 60] = Some "█ ▁▄"%string.
Proof.
  assert (H : ∀ a b, Some a ∈ [Some 80; None; Some 40; Some 60] → Some b ∈ [Some 80; None; Some 40; Some 60] → b - a ≤ 2 ^ 60).
  { assert (Hin : ∀ a, Some a ∈ [Some 80; None; Some 40; Some 60] → 40 ≤ a ≤ 80).
    { intros a Ha. repeat (apply elem_of_cons in Ha as [Ha|Ha]; [first [discriminate Ha|injection Ha as ->; lia]|]). by apply not_elem_of_nil in Ha. }
    intros a b Ha%Hin Hb%Hin. lia. }
  split; [exact H|]. destruct (sparkline_draws _ H) as (_ & _ & E & _). exact E.
Defined.

(** Beyond that the index overflows: two rows of one device, with boot counts 0 and
    2^62, make the card panic. *)
Definition booted (t n : Z) : LogIngest.telemetry_row :=
  LogIngest.MkTelemetry t "p1" None None None (Some n) None None None None None "" None None None None None None None None None None None.
Theorem sparkline_panics : sparkline (h_boots <$> [point_row (booted 10 0); point_row (booted 20 (2 ^ 62))]) = None.
Proof. vm_compute. reflexivity. Qed.

(** ** Samples *)

#[local] Instance ex_collation : Collation := String.leb.
#[local] Instance ex_json : ExtraJson := {| unmarshal_map := λ _, None; unmarshal_float := λ _, None |}.
#[local] Instance ex_fold : Folding := String.eqb.
Definition ex_base : OpsShell.BasePane := OpsShell.NewBase "telemetry:1" "telemetry".
Definition ex_tbl : table := [TelemetryLaws.row_at 100 "p1"; TelemetryLaws.row_at 160 "p2"; TelemetryLaws.row_at 170 "p1"].
Definition ex_open : world := after (Init (instant 178) (New true ex_base OpsConfig.defaults)) 0 [] [].
Definition answered (now : Z) (q : poll) (tbl : table) (w : world) : world :=
  after (Update now (run_poll "" now q tbl []).1 (pane w)) 1 ([] ++ []) (tbl :: seen w).
Lemma answered_reachable now q tbl w : reachable "" true ex_base OpsConfig.defaults w → ticks w = 1%nat → flight w = [q] →
  reachable "" true ex_base OpsConfig.defaults (answered now q tbl w).
Proof.
  intros Hr Ht Hf. apply (reachable_step _ _ _ _ w _ Hr). destruct w as [p n fl T]. cbn in *. subst.
  exact (step_answer "" now q tbl [] p 1 [] [] T).
Qed.
Definition ex_shown : world := answered (instant 179) (PollFleet 1000) ex_tbl ex_open.
Lemma ex_reachable : reachable "" true ex_base OpsConfig.defaults ex_shown.
Proof. apply answered_reachable; [apply (reachable_init _ _ _ _ (instant 178))|vm_compute; reflexivity|vm_compute; reflexivity]. Qed.
#[local] Instance ex_ascii : OpsShell.Lipgloss := {|
  OpsShell.paint _ _ t := t; OpsShell.plain t := t; OpsShell.cells t := zlen (bytes_of_string t); OpsShell.box _ _ _ t := t;
  OpsShell.padded t _ _ := t |}.
(** The list is read, then the card of "p1"; "j" moves to "p2", whose card is still
    to come. *)
Definition ex_card : poll := PollDevice "p1" (72 * hour) 500.
Definition ex_loaded : world := answered (instant 180) ex_card ex_tbl ex_shown.
Definition given (now : Z) (m : msg) (w : world) : world := after (Update now m (pane w)) (ticks w) (flight w) (seen w).
Definition ex_moved : world := given (instant 181) (KeyPressMsg "j") ex_loaded.
Lemma loaded_reachable : reachable "" true ex_base OpsConfig.defaults ex_loaded.
Proof. apply answered_reachable; [exact ex_reachable|vm_compute; reflexivity|vm_compute; reflexivity]. Qed.
Lemma given_reachable now m w : input m → reachable "" true ex_base OpsConfig.defaults w →
  reachable "" true ex_base OpsConfig.defaults (given now m w).
Proof. intros Hm Hr. apply (reachable_step _ _ _ _ w _ Hr). destruct w as [p n fl T]. by apply step_input. Qed.
Lemma moved_reachable : reachable "" true ex_base OpsConfig.defaults ex_moved.
Proof. apply given_reachable; [apply input_key|exact loaded_reachable]. Qed.
Lemma poll_discipline_witness :
  reachable "" true ex_base OpsConfig.defaults ex_moved ∧ ticks ex_moved = 1%nat ∧ (length (flight ex_moved) ≤ 1)%nat ∧
  fr_serial <$> fleetRows (pane ex_moved) = ["p1"; "p2"]%string ∧
  fr_serial <$> selectedFleetRow (pane ex_moved) = Some "p2"%string ∧ detailSerial (pane ex_moved) = "p1"%string ∧
  zlen (history (pane ex_moved)) = 2 ∧
  renderDetail ∅ (instant 181) 60 (pane ex_moved) = renderDetail ∅ (instant 181) 60 (forget (pane ex_moved)) ∧
  truthful (seen ex_moved) (pane ex_moved).
Proof.
  pose proof moved_reachable as Hr.
  destruct (poll_discipline "" true ex_base OpsConfig.defaults ex_moved Hr) as (H1 & H2 & _ & _ & _ & _ & _ & H3 & _ & H4 & _).
  assert (Hrow : ∃ row, selectedFleetRow (pane ex_moved) = Some row ∧ fr_serial row = "p2"%string) by (eexists; split; vm_compute; reflexivity).
  assert (Hsel : selected (pane ex_moved) = "p2"%string) by (vm_compute; reflexivity).
  assert (Hdet : detailSerial (pane ex_moved) = "p1"%string) by (vm_compute; reflexivity).
  destruct Hrow as (row & Hrow & Hs).
  split; [exact Hr|]. split; [exact H1|]. split; [exact H2|]. split; [vm_compute; reflexivity|].
  split; [rewrite Hrow; cbn; by rewrite Hs|]. split; [exact Hdet|]. split; [vm_compute; reflexivity|]. split; [|exact H3].
  apply (H4 ∅ (instant 181) 60 row Hrow); [|rewrite Hdet, Hs; discriminate].
  intros row' Hrow'. rewrite Hrow in Hrow'. injection Hrow' as <-. by rewrite Hsel, Hs.
Defined.

(** Another pane preselects "p2" while the cursor is on "p1": the card of "p1", which
    has one row and so no row before it, tells of a rollback of its uptime, found in
    the history of "p2". *)
Definition up_row (t : Z) (s : string) (up : Z) : LogIngest.telemetry_row :=
  LogIngest.MkTelemetry t s None None None None (Some "brownout"%string) None (Some up) None None "" None None None None None None None None None None None.
Definition ex_mixed_tbl : table := [up_row 100 "p1" 5; up_row 110 "p2" 900; up_row 120 "p2" 950].
Definition ex_listed : world := answered (instant 130) (PollFleet 1000) ex_mixed_tbl ex_open.
Definition ex_preselected : world := given (instant 131) (SpawnArgsMsg {["serial"%string := "p2"%string]}) ex_listed.
Definition ex_dropped : world := answered (instant 132) ex_card ex_mixed_tbl ex_preselected.
Definition ex_mixed : world := answered (instant 133) (PollDevice "p2" (72 * hour) 500) ex_mixed_tbl ex_dropped.
Lemma mixed_reachable : reachable "" true ex_base OpsConfig.defaults ex_mixed.
Proof.
  assert (Hl : reachable "" true ex_base OpsConfig.defaults ex_listed)
    by (apply answered_reachable; [apply (reachable_init _ _ _ _ (instant 178))|vm_compute; reflexivity|vm_compute; reflexivity]).
  assert (Hp : reachable "" true ex_base OpsConfig.defaults ex_preselected) by (apply given_reachable; [apply input_args|exact Hl]).
  assert (Hd : reachable "" true ex_base OpsConfig.defaults ex_dropped)
    by (apply answered_reachable; [exact Hp|vm_compute; reflexivity|vm_compute; reflexivity]).
  apply answered_reachable; [exact Hd|vm_compute; reflexivity|vm_compute; reflexivity].
Qed.
Theorem rollback_of_another :
  reachable "" true ex_base OpsConfig.defaults ex_mixed ∧
  Forall (λ tbl, length (List.filter (λ t, bool_decide (LogIngest.tm_serial t = "p1"%string)) tbl) = 1%nat) (seen ex_mixed) ∧
  (∃ row, selectedFleetRow (pane ex_mixed) = Some row ∧ fr_serial row = "p1"%string ∧
    let told prev := (Verdict (FleetRow_Sample row) prev (verdictCfg (pane ex_mixed)) (instant 134)).2 in
    told (previousSample (pane ex_mixed)) = ["reset_reason=brownout"; "uptime rollback + brownout reset"]%string ∧
    told None = ["reset_reason=brownout"]%string) ∧
  detailSerial (pane ex_mixed) = "p2"%string ∧
  renderDetail ∅ (instant 134) 60 (pane ex_mixed) ≠ renderDetail ∅ (instant 134) 60 (forget (pane ex_mixed)).
Proof.
  split; [exact mixed_reachable|]. split; [vm_compute; repeat constructor|].
  split; [eexists; split; [vm_compute; reflexivity|]; split; [reflexivity|vm_compute; split; reflexivity]|].
  split; [vm_compute; reflexivity|vm_compute; discriminate].
Qed.
Definition ex_sample : Sample := MkSample (instant 100) (Some "brownout"%string) None (Some 3) (Some 9) None (Some 5).
Lemma verdicts_agree_witness :
  let cfg := VerdictCfgFrom OpsConfig.default_telemetry in
  s_time ex_sample = instant 100 ∧ (Verdict ex_sample None cfg (instant 160)).1 = HealthBrownout ∧
  Health_String (Verdict ex_sample (Some ex_sample) cfg (instant 160)).1 =
    Telemetry.Health_String (Telemetry.Verdict EqualFold (backend_sample 100 ex_sample) (backend_cfg cfg) 160).1.
Proof.
  cbv zeta. split_and!; [reflexivity|vm_compute; reflexivity|].
  destruct (verdicts_agree ex_sample 100 (Some ex_sample) (VerdictCfgFrom OpsConfig.default_telemetry) 160) as (H & _); [reflexivity|lia|exact H].
Defined.
End OpsTeleLaws.
