(* ===== verification/OpsLogPane.v ===== *)
(** * The console's logs pane ([tools/picpak-ops/internal/logs], logs.go, model.go,
    view.go)

    The pane over the tail store of [OpsLogs]: its messages and keys, the filter
    overlay, scrolling and scrollback, the view with its colors; and the two
    together: the store's goroutine step by step, the queue of requests of 16 and the
    messages on their way to the pane. Parameters: the viewport and the styles of the
    widget library, the zones and layouts of [time]. *)

From S2P Require Import Prelude GoLib Db LogIngest OpsKeys OpsShell OpsConfig OpsLogs OpsTele.
Import GoLib.
Import LogIngest(log_row, l_serial, l_time, source).

(** * The store's goroutine, step by step (store.go)

    The operations of [OpsLogs] again, now as the steps another goroutine can come
    between: a section under the mutex, a query, a message sent. *)

Module OpsLogTail.
Import OpsLogs.

(** What is left to do. [Locked g k] holds the mutex: [g] is what it does to the
    store, and [k] goes on from the store it found. A query gives the table as it is
    then, or fails. *)
Inductive prog (A : Type) : Type :=
| Ret (r : result db_err A)
| Locked (g : logStore → logStore) (k : logStore → prog A)
| Query (k : option (list log_row) → prog A)
| Emit (m : msg) (k : prog A).
Arguments Ret {A} r.
Arguments Locked {A} g k.
Arguments Query {A} k.
Arguments Emit {A} m k.
#[local] Instance prog_ret : MRet prog := λ A a, Ret (Ok a).
Fixpoint bind {A B} (f : A → prog B) (p : prog A) : prog B :=
  match p with
  | Ret (Ok a) => f a
  | Ret (Err e) => Ret (Err e)
  | Locked g k => Locked g (λ s, bind f (k s))
  | Query k => Query (λ t, bind f (k t))
  | Emit m k => Emit m (bind f k)
  end.
#[local] Instance prog_bind : MBind prog := @bind.
Fixpoint attempt {A} (p : prog A) : prog (result db_err A) :=
  match p with
  | Ret r => Ret (Ok r)
  | Locked g k => Locked g (λ s, attempt (k s))
  | Query k => Query (λ t, attempt (k t))
  | Emit m k => Emit m (attempt k)
  end.
(** A section under the mutex that reads, and one that updates. *)
Definition locked {A} (f : logStore → A) : prog A := Locked id (λ s, mret (f s)).
Definition update {A} (f : logStore → A * logStore) : prog A := Locked (λ s, (f s).2) (λ s, mret (f s).1).
Definition emit (m : msg) : prog unit := Emit m (mret tt).
Definition read {A} (q : list log_row → A) : prog A :=
  Query (λ t, match t with Some t => mret (q t) | None => Ret (Err EDb) end).
Definition or_report (p : prog unit) : prog unit :=
  r ← attempt p;
  match r with Ok _ => mret tt | Err e => emit (logErrMsg e) end.

Section Store.
Context (cfg : Config) (collate : string → string → bool).

Definition prime : prog unit :=
  f ← locked filter;
  rows ← read (queryRecent f (BackfillPage cfg));
  added ← update (ingestForward cfg rows);
  cur ← update (λ s,
    (cursor s, set_history (head_time rows (oldest s)) true (zlen rows <? BackfillPage cfg) (backfilledRows s) s));
  serials ← attempt (read (queryDistinctSerials collate));
  _ ← match serials with Ok ss => emit (logSerialsMsg ss) | Err _ => mret tt end;
  emit (logRowsMsg added cur).
Definition forward : prog unit :=
  since ← locked (λ s, c_time (cursor s));
  f ← locked filter;
  rows ← read (queryForward f since (PollBatch cfg));
  added ← update (ingestForward cfg rows);
  if 0 <? added then cur ← locked cursor; emit (logRowsMsg added cur) else mret tt.
Definition doBackfill : prog unit :=
  start ← locked (λ s,
    before ← oldest s; if backfillExhausted s || (HistoryMaxRows cfg <=? backfilledRows s) then None else Some before);
  match start with
  | None => emit (logBackfillMsg 0 true)
  | Some before =>
      f ← locked filter;
      rows ← read (queryBackfill f before (BackfillPage cfg));
      added ← update (ingestBackfill cfg rows);
      exhausted ← update (λ s,
        let n := backfilledRows s + zlen rows in
        let x := (zlen rows <? BackfillPage cfg) || (HistoryMaxRows cfg <=? n) in
        (x, set_history (head_time rows (oldest s)) (primed s) x n s));
      emit (logBackfillMsg added exhausted)
  end.
Definition handleReq (r : storeReq) : prog unit :=
  match r with
  | reqBackfill => or_report doBackfill
  | reqSetFilter f => _ ← update (λ s, (tt, resetForReprime (Some f) s)); or_report prime
  | reqReload => _ ← update (λ s, (tt, resetForReprime None s)); or_report prime
  | reqClear => cur ← update (λ s, (cursor s, set_ring [] s)); emit (logRowsMsg 0 cur)
  end.
(** The backoff is the goroutine's own: its section holds no mutex. *)
Definition tick : prog Z :=
  p ← locked primed;
  r ← attempt (if (p : bool) then forward else prime);
  match r with
  | Err e =>
      _ ← emit (logErrMsg e);
      update (λ s, let b := nextBackoff (curBackoff s) (ErrorBackoff cfg) (ErrorBackoffMax cfg) in (b, set_backoff b s))
  | Ok _ => _ ← update (λ s, (tt, set_backoff 0 s)); mret (pollInterval cfg)
  end.
Definition handle (e : event) : prog unit :=
  match e with Timer => _ ← tick; mret tt | Request r => handleReq r end.

(** Left alone, the steps come to what [OpsLogs] says in one. *)
Fixpoint run {A} (p : prog A) (w : world) (fs : list bool) : result db_err A * world * list bool :=
  match p with
  | Ret r => (r, w, fs)
  | Locked g k => run (k (store w)) (MkWorld (g (store w)) (table w) (sent w)) fs
  | Query k =>
      match fs with
      | true :: fs => run (k None) w fs
      | false :: fs => run (k (Some (table w))) w fs
      | [] => run (k (Some (table w))) w []
      end
  | Emit m k => run k (MkWorld (store w) (table w) (sent w ++ [m])) fs
  end.
End Store.
End OpsLogTail.

Module OpsLogPane.
Import OpsLogs.

(** The viewport of the widget library, with what the pane relies on: the lines set
    are the lines it holds, one that holds a newline in its parts, and a single line
    of no width as none. *)
Class Viewport := {
  viewport : Type; new_viewport : viewport; SetContentLines : list string → viewport → viewport;
  GotoBottom : viewport → viewport; GotoTop : viewport → viewport; ScrollUp : Z → viewport → viewport;
  ScrollDown : Z → viewport → viewport; AtBottom : viewport → bool; AtTop : viewport → bool; VpHeight : viewport → Z;
  SetVpSize : Z → Z → viewport → viewport; VpView : viewport → string; content : viewport → list string }.
Definition split_lines (t : string) : list string :=
  string_of_bytes <$> split (bytes_of_string t) (bytes_of_string OpsShell.newline).
Definition laid_out `{OpsShell.Lipgloss} (l : list string) : list string :=
  match l with
  | [t] => if OpsShell.cells t =? 0 then [] else split_lines t
  | _ => l ≫= split_lines
  end.
Class ViewportLaws `{Viewport} `{OpsShell.Lipgloss} := {
  content_new : content new_viewport = [];
  content_set l v : content (SetContentLines l v) = laid_out l;
  content_bottom v : content (GotoBottom v) = content v;
  content_top v : content (GotoTop v) = content v;
  content_up n v : content (ScrollUp n v) = content v;
  content_down n v : content (ScrollDown n v) = content v;
  content_size w h v : content (SetVpSize w h v) = content v }.
(** [time.Location] and [Time.Format]; styled text that is not bold or plain. *)
Class Zones := { zone : Type; Local : zone; LoadLocation : string → option zone; format_in : zone → string → Z → string }.
Class Italics := italic : string → string → string.

(** ** Configuration (logs.go) *)

Record Config := MkConfig {
  tail : OpsLogs.Config; FollowDefault : bool; TimestampFormat : string; Timezone : string; ColorizeBy : string;
  Palette : list string; QueryTimeout : Z }.
Definition configFrom (c : OpsConfig.Config) : Config :=
  let l := OpsConfig.logs c in
  MkConfig
    (OpsLogs.MkConfig (OpsConfig.l_separator l) (OpsConfig.l_poll l) (OpsConfig.l_batch l) (OpsConfig.l_page l) (OpsConfig.l_ring l)
       (OpsConfig.l_history l) (OpsConfig.l_serials l) (OpsConfig.l_sources l) (OpsConfig.l_gaps l) (OpsConfig.l_gap_format l)
       (OpsConfig.l_suspects l) (OpsConfig.l_suspect l) (OpsConfig.l_backoff l) (OpsConfig.l_backoff_max l))
    (OpsConfig.l_follow l) (OpsConfig.l_time l) (OpsConfig.l_zone l) (OpsConfig.l_colorize l) (OpsConfig.l_palette l)
    (OpsConfig.l_timeout l).
Record logsKeys := MkKeys {
  k_follow : string; k_device : string; k_source : string; k_clear : string; k_copy : string; k_jump : string; k_reload : string }.
Definition resolveKeys (m : gmap string (list string)) : logsKeys :=
  let first action := match m !! action with Some (c :: _) => c | _ => ""%string end in
  MkKeys (first "follow") (first "device_filter") (first "source_cycle") (first "clear_view") (first "copy") (first "jump_serial")
    (first "reload").
Record viewColors := MkColors { v_gap : string; v_suspect : string; v_muted : string; v_sel : string; v_border : string }.
Definition resolveColors (c : OpsConfig.Config) : viewColors :=
  let role r := default ""%string (OpsConfig.Theme c !! r) in
  MkColors (role "status_working") (role "status_error") (role "status_quiet") (role "focus_border") (role "border").

Section pane.
Context `{Viewport} `{Zones} `{Italics} `{OpsShell.Lipgloss}.

Definition resolveLocation (tz : string) : zone :=
  if bool_decide (tz = ""%string) || bool_decide (tz = "Local"%string) then Local else default Local (LoadLocation tz).

(** ** The pane (model.go); [store]: is a database configured *)

Record logsPane := MkPane {
  base : OpsShell.BasePane; store : bool; cache : option OpsFleetCache.Cache; cfg : Config; keys : logsKeys; colors : viewColors;
  loc : zone; vp : viewport; follow : bool; filt : filterOverlay; knownSerials : list string; cur : Cursor; backfillDone : bool;
  err : option db_err; dirty : bool }.
Definition no_overlay : filterOverlay := MkOverlay false [] ∅ 0.
Definition New (pool : bool) (fleet : option OpsFleetCache.Cache) (b : OpsShell.BasePane) (c : OpsConfig.Config) : logsPane :=
  let lc := configFrom c in
  MkPane b pool fleet lc (resolveKeys (OpsConfig.l_keys (OpsConfig.logs c))) (resolveColors c) (resolveLocation (Timezone lc))
    new_viewport (FollowDefault lc) no_overlay [] no_cursor false None false.

Definition set_view (v : viewport) (f : bool) (p : logsPane) : logsPane :=
  MkPane (base p) (store p) (cache p) (cfg p) (keys p) (colors p) (loc p) v f (filt p) (knownSerials p) (cur p) (backfillDone p) (err p) (dirty p).
Definition set_base (b : OpsShell.BasePane) (d : bool) (p : logsPane) : logsPane :=
  MkPane b (store p) (cache p) (cfg p) (keys p) (colors p) (loc p) (vp p) (follow p) (filt p) (knownSerials p) (cur p) (backfillDone p) (err p) d.
Definition set_filter (f : filterOverlay) (p : logsPane) : logsPane :=
  MkPane (base p) (store p) (cache p) (cfg p) (keys p) (colors p) (loc p) (vp p) (follow p) f (knownSerials p) (cur p) (backfillDone p) (err p) (dirty p).
Definition set_tail (c : Cursor) (bd : bool) (e : option db_err) (ks : list string) (p : logsPane) : logsPane :=
  MkPane (base p) (store p) (cache p) (cfg p) (keys p) (colors p) (loc p) (vp p) (follow p) (filt p) ks c bd e (dirty p).
Definition markDirty (p : logsPane) : logsPane := if OpsShell.focused (base p) then p else set_base (base p) true p.

(** *** Lines (view.go) *)

Definition truncate (s : string) (w : Z) : string :=
  if (w <=? 1) || (OpsShell.cells s <=? w) then s
  else if w - 1 <? zlen (bytes_of_string s) then (string_of_bytes (take (Z.to_nat (w - 1)) (bytes_of_string s)) ++ "…")%string
  else s.
Definition label_of (p : logsPane) (serial : string) : option string :=
  c ← cache p; d ← OpsFleetCache.BySerial c serial;
  if bool_decide (OpsFleetCache.Label d = ""%string) then None else Some (OpsFleetCache.Label d).
Definition serialLabel (p : logsPane) (serial : string) : string :=
  match label_of p serial with Some l => (serial ++ "·" ++ l)%string | None => serial end.
Definition timestamp (p : logsPane) (t : Z) : string :=
  if (t =? zero_time) || bool_decide (TimestampFormat (cfg p) = ""%string) then ""%string
  else format_in (loc p) (TimestampFormat (cfg p)) t.
Definition lineText (p : logsPane) (ln : Line) : string :=
  let ts := timestamp p (Time ln) in
  let parts := (if bool_decide (ts = ""%string) then [] else [ts]) ++ [serialLabel p (Serial ln)] in
  if negb (bool_decide (Synthetic ln = SynthNone)) then OpsKeys.Join (parts ++ [Text ln]) " "
  else let parts := if bool_decide (Source ln = ""%string) then parts else parts ++ [("[" ++ Source ln ++ "]")%string] in
       OpsKeys.Join (parts ++ [Text ln]) " ".
(** [fnv.New32a] *)
Definition fnv32a (b : bytes) : Z := foldl (λ h c, u32 (Z.lxor h c * 16777619)) 2166136261 b.
Definition colorFor (p : logsPane) (ln : Line) : option string :=
  let pal := Palette (cfg p) in
  if bool_decide (pal = []) then None
  else
    key ← (if bool_decide (ColorizeBy (cfg p) = "serial"%string) then Some (Serial ln)
           else if bool_decide (ColorizeBy (cfg p) = "source"%string) then Some (Source ln) else None);
    if bool_decide (key = ""%string) then None else pal !! Z.to_nat (fnv32a (bytes_of_string key) mod u32 (zlen pal)).
Definition renderLine (p : logsPane) (ln : Line) : string :=
  let text := lineText p ln in
  match Synthetic ln with
  | SynthGap => italic (v_gap (colors p)) text
  | SynthSuspect => OpsShell.paint (v_suspect (colors p)) true text
  | SynthNone => match colorFor p ln with Some col => OpsShell.paint col false text | None => text end
  end.

(** *** Steps; [s] is the store as the step finds it, also one that reads it twice *)

Inductive out := Start | Request (r : storeReq) | Copy (text : string) | Say (text : string).
Definition refresh (s : logStore) (p : logsPane) : logsPane :=
  if store p then
    let v := SetContentLines (renderLine p <$> ring s) (vp p) in
    set_view (if follow p then GotoBottom v else v) (follow p) p
  else p.
Definition Init (p : logsPane) : list out := if store p then [Start] else [].
Definition candidateSerials (p : logsPane) : list string :=
  dedupe_go ∅ (knownSerials p ++ match cache p with Some c => OpsFleetCache.Serial <$> OpsFleetCache.List c | None => [] end).
Definition ask (r : storeReq) (p : logsPane) : list out := if store p then [Request r] else [].
Definition maybeBackfill (p : logsPane) : list out :=
  if store p && negb (backfillDone p) && AtTop (vp p) then [Request reqBackfill] else [].
Definition toggleFollow (p : logsPane) : logsPane :=
  if follow p then set_view (vp p) false p else set_view (GotoBottom (vp p)) true p.
Definition openFilter (s : logStore) (p : logsPane) : logsPane :=
  set_filter (openWith (candidateSerials p) (if store p then Serials (filter s) else []) (filt p)) p.
Definition close (f : filterOverlay) : filterOverlay := MkOverlay false (f_serials f) (selected f) (f_cursor f).
Definition applyFilter (s : logStore) (p : logsPane) : logsPane * list out :=
  (set_filter (close (filt p)) p, ask (reqSetFilter (MkFilter (chosen (filt p)) (Sources (filter s)))) p).
Definition cycleSource (s : logStore) (p : logsPane) : list out :=
  ask (reqSetFilter (MkFilter (Serials (filter s)) (cycleSingle (DefaultSources (tail (cfg p))) (Sources (filter s))))) p.
Definition jumpSerial (s : logStore) (p : logsPane) : list out :=
  ask (reqSetFilter (MkFilter (cycleSingle (sort_strings (candidateSerials p)) (Serials (filter s))) (Sources (filter s)))) p.
Definition copyVisible (s : logStore) (p : logsPane) : list out :=
  if store p then
    [Copy (foldr (λ ln t, (lineText p ln ++ OpsShell.newline ++ t)%string) ""%string (ring s));
     Say ("copied " ++ format_int (zlen (ring s)) ++ " log line(s)")%string]
  else [].
Definition onFilterKey (s : logStore) (k : string) (p : logsPane) : logsPane * list out :=
  if bool_decide (k ∈ ["up"; "k"]%string) then (set_filter (move (-1) (filt p)) p, [])
  else if bool_decide (k ∈ ["down"; "j"]%string) then (set_filter (move 1 (filt p)) p, [])
  else if bool_decide (k ∈ [" "; "space"]%string) then (set_filter (toggle (filt p)) p, [])
  else if bool_decide (k = "enter"%string) then applyFilter s p
  else if bool_decide (k = "esc"%string) then (set_filter (close (filt p)) p, [])
  else (p, []).
Definition scrolled_up (v : viewport) (p : logsPane) : logsPane * list out :=
  let p := set_view v false p in (p, maybeBackfill p).
Definition scrolled_down (v : viewport) (p : logsPane) : logsPane * list out := (set_view v (AtBottom v || follow p) p, []).
Definition onScrollKey (k : string) (p : logsPane) : logsPane * list out :=
  if bool_decide (k ∈ ["up"; "k"]%string) then scrolled_up (ScrollUp 1 (vp p)) p
  else if bool_decide (k ∈ ["down"; "j"]%string) then scrolled_down (ScrollDown 1 (vp p)) p
  else if bool_decide (k = "pgup"%string) then scrolled_up (ScrollUp (VpHeight (vp p)) (vp p)) p
  else if bool_decide (k = "pgdown"%string) then scrolled_down (ScrollDown (VpHeight (vp p)) (vp p)) p
  else if bool_decide (k = "home"%string) then scrolled_up (GotoTop (vp p)) p
  else if bool_decide (k = "end"%string) then (set_view (GotoBottom (vp p)) true p, [])
  else (p, []).
Definition onKey (s : logStore) (k : string) (p : logsPane) : logsPane * list out :=
  if f_open (filt p) then onFilterKey s k p
  else if bool_decide (k = k_follow (keys p)) then (toggleFollow p, [])
  else if bool_decide (k = k_device (keys p)) then (openFilter s p, [])
  else if bool_decide (k = k_source (keys p)) then (p, cycleSource s p)
  else if bool_decide (k = k_clear (keys p)) then (p, ask reqClear p)
  else if bool_decide (k = k_copy (keys p)) then (p, copyVisible s p)
  else if bool_decide (k = k_jump (keys p)) then (p, jumpSerial s p)
  else if bool_decide (k = k_reload (keys p)) then (p, ask reqReload p)
  else onScrollKey k p.
Definition applyConfig (c : OpsConfig.Config) (s : logStore) (p : logsPane) : logsPane :=
  let lc := configFrom c in
  refresh s (MkPane (base p) (store p) (cache p) lc (resolveKeys (OpsConfig.l_keys (OpsConfig.logs c))) (resolveColors c)
    (resolveLocation (Timezone lc)) (vp p) (follow p) (filt p) (knownSerials p) (cur p) (backfillDone p) (err p) (dirty p)).

Inductive pmsg :=
| FromStore (m : msg)
| SpawnArgsMsg (args : gmap string string)
| ConfigChangedMsg (c : option OpsConfig.Config)
| KeyPressMsg (k : string).
Definition onStore (m : msg) (s : logStore) (p : logsPane) : logsPane :=
  match m with
  | logRowsMsg _ c => markDirty (refresh s (set_tail c (backfillDone p) None (knownSerials p) p))
  | logBackfillMsg _ d => refresh s (set_tail (cur p) d (err p) (knownSerials p) p)
  | logSerialsMsg ss => set_tail (cur p) (backfillDone p) (err p) ss p
  | logErrMsg e => markDirty (set_tail (cur p) (backfillDone p) (Some e) (knownSerials p) p)
  end.
Definition Update (s : logStore) (m : pmsg) (p : logsPane) : logsPane * list out :=
  match m with
  | FromStore m => (onStore m s p, [])
  | SpawnArgsMsg args =>
      let serial := default ""%string (args !! "serial"%string) in
      (p, if bool_decide (serial = ""%string) then [] else ask (reqSetFilter (MkFilter [serial] (Sources (filter s)))) p)
  | ConfigChangedMsg c => (match c with Some c => applyConfig c s p | None => p end, [])
  | KeyPressMsg k => onKey s k p
  end.
Definition SetFocused (f : bool) (s : logStore) (p : logsPane) : logsPane :=
  let p := set_base (OpsShell.SetFocused f (base p)) (if f then false else dirty p) p in if f then refresh s p else p.
Definition SetSize (width height : Z) (s : logStore) (p : logsPane) : logsPane :=
  let w := if width <=? 0 then 80 else width in
  let h := if height <=? 0 then 24 else height in
  let vpH := if h - 2 <? 1 then 1 else h - 2 in
  let p := set_base (OpsShell.SetSize width height (base p)) (dirty p) p in
  refresh s (set_view (SetVpSize w vpH (vp p)) (follow p) p).
Definition status (p : logsPane) : OpsShell.PaneStatus :=
  if negb (store p) then OpsShell.StatusIdle
  else match err p with
       | Some _ => OpsShell.StatusError
       | None => if follow p then OpsShell.StatusActive else OpsShell.StatusQuiet
       end.
Definition title (s : logStore) (p : logsPane) : string :=
  if negb (store p) then "logs · no db"%string
  else
    let scope := match Serials (filter s) with
                 | [] => "all devices"%string | [_] => "1 device"%string | l => (format_int (zlen l) ++ " devices")%string end in
    ("logs · " ++ scope ++ " · " ++ format_int (zlen (ring s)) ++ " line(s)")%string.
Definition Meta (s : logStore) (p : logsPane) : OpsShell.PaneMeta :=
  OpsShell.MkMeta (OpsShell.id (base p)) (OpsShell.kind (base p)) (title s p) (status p) (dirty p).

(** *** The view (view.go) *)

#[local] Abbreviation nl := OpsShell.newline.
Definition muted (p : logsPane) (s : string) : string := OpsShell.paint (v_muted (colors p)) false s.
Definition bold (s : string) : string := OpsShell.paint "" true s.
Definition renderNoDB (w : Z) (p : logsPane) : string :=
  OpsKeys.Join [bold "logs — no database configured"; muted p (truncate "Set [database].dsn to read the logs hypertable." w);
                muted p (truncate "The bench cockpit (build / hosts / flash / console) runs without a DB." w)] nl.
Definition overlay_line (w i : Z) (s : string) (p : logsPane) : string :=
  let check := if default false (selected (filt p) !! s) then "[x]"%string else "[ ]"%string in
  let mark := if i =? f_cursor (filt p) then "▸ "%string else "  "%string in
  let name := match label_of p s with Some l => (s ++ " · " ++ l)%string | None => s end in
  let line := (mark ++ check ++ " " ++ name)%string in
  if i =? f_cursor (filt p) then OpsShell.paint (v_sel (colors p)) true (truncate line w) else truncate line w.
Fixpoint overlay_rows (w maxRows total i : Z) (l : list string) (p : logsPane) : string :=
  match l with
  | [] => ""%string
  | s :: l =>
      if maxRows <=? i then muted p ("… " ++ format_int (total - maxRows) ++ " more")
      else (overlay_line w i s p ++ nl ++ overlay_rows w maxRows total (i + 1) l p)%string
  end.
Definition renderFilterOverlay (w h : Z) (p : logsPane) : string :=
  let head := (bold (truncate "Filter devices — ↑/↓ move · space toggle · enter apply · esc cancel" w) ++ nl)%string in
  let l := f_serials (filt p) in
  if bool_decide (l = []) then (head ++ muted p "(no device serials known yet)")%string
  else
    let maxRows := if h - 2 <? 1 then 1 else h - 2 in
    string_of_bytes (trim_right (bytes_of_string (head ++ overlay_rows w maxRows (zlen l) 0 l p)) 10).
Definition renderFooter (dberr : db_err → string) (w : Z) (s : logStore) (p : logsPane) : string :=
  match err p with
  | Some e => OpsShell.paint (v_suspect (colors p)) false (truncate ("DB error (reconnecting): " ++ dberr e) w)
  | None =>
      let mode := if follow p then "following"%string else "paused"%string in
      let scope := match Serials (filter s) with
                   | [] => "all devices"%string | [x] => x | l => (format_int (zlen l) ++ " devices")%string end in
      let srcScope := match Sources (filter s) with [] => "all sources"%string | l => OpsKeys.Join l "," end in
      let status := OpsKeys.Join [mode; scope; srcScope; (format_int (zlen (ring s)) ++ " lines")%string] " · " in
      let hints := (k_follow (keys p) ++ " follow · " ++ k_device (keys p) ++ " filter · " ++ k_source (keys p) ++ " source · " ++
                    k_reload (keys p) ++ " reload")%string in
      muted p (truncate (status ++ "  |  " ++ hints) w)
  end.
Definition View (dberr : db_err → string) (s : logStore) (p : logsPane) : string :=
  let w := if OpsShell.width (base p) <=? 0 then 80 else OpsShell.width (base p) in
  let h := if OpsShell.height (base p) <=? 0 then 24 else OpsShell.height (base p) in
  if negb (store p) then renderNoDB w p
  else if f_open (filt p) then renderFilterOverlay w h p
  else (VpView (vp p) ++ nl ++ renderFooter dberr w s p)%string.

(** ** Pane and store together *)

(** [make(chan storeReq, 16)]: a full channel drops the request. *)
Definition request (q : list storeReq) (r : storeReq) : list storeReq := if zlen q <? 16 then q ++ [r] else q.
Definition requests (o : list out) : list storeReq := omap (λ x, match x with Request r => Some r | _ => None end) o.
(** [busy]: what the goroutine has left to do before it waits again. *)
Record axis := MkAxis {
  pane : logsPane; tl : logStore; rows : list log_row; queue : list storeReq; inbox : list msg; busy : OpsLogTail.prog unit }.
Definition idle (a : axis) : Prop := match busy a with OpsLogTail.Ret _ => True | _ => False end.
Definition after (r : logsPane * list out) (a : axis) : axis :=
  MkAxis r.1 (tl a) (rows a) (foldl request (queue a) (requests r.2)) (inbox a) (busy a).
Definition deliver (m : msg) (l : list msg) (a : axis) : axis :=
  MkAxis (onStore m (tl a) (pane a)) (tl a) (rows a) (queue a) l (busy a).
Inductive input : pmsg → Prop :=
| input_args x : input (SpawnArgsMsg x)
| input_config c : input (ConfigChangedMsg c)
| input_key k : input (KeyPressMsg k).
Section Together.
Context (scfg : OpsLogs.Config) (collate : string → string → bool).
(** The goroutine waits for its timer or a request and goes on one step at a time;
    between any two the pane takes its messages, in order, and the operator's and
    the shell's, and the backend appends rows. *)
Definition begin (e : event) (q : list storeReq) (a : axis) : axis :=
  MkAxis (pane a) (tl a) (rows a) q (inbox a) (OpsLogTail.handle scfg collate e).
Definition go (fails : bool) (a : axis) : axis :=
  match busy a with
  | OpsLogTail.Ret _ => a
  | OpsLogTail.Locked g k => MkAxis (pane a) (g (tl a)) (rows a) (queue a) (inbox a) (k (tl a))
  | OpsLogTail.Query k => MkAxis (pane a) (tl a) (rows a) (queue a) (inbox a) (k (if fails then None else Some (rows a)))
  | OpsLogTail.Emit m k => MkAxis (pane a) (tl a) (rows a) (queue a) (inbox a ++ [m]) k
  end.
Inductive step : axis → axis → Prop :=
| step_timer a : idle a → step a (begin Timer (queue a) a)
| step_request r q a : idle a → queue a = r :: q → step a (begin (OpsLogs.Request r) q a)
| step_go fails a : step a (go fails a)
| step_deliver m l a : inbox a = m :: l → step a (deliver m l a)
| step_input m a : input m → step a (after (Update (tl a) m (pane a)) a)
| step_focus f a : step a (after (SetFocused f (tl a) (pane a), []) a)
| step_size w h a : step a (after (SetSize w h (tl a) (pane a), []) a)
| step_ingest l a : step a (MkAxis (pane a) (tl a) (rows a ++ l) (queue a) (inbox a) (busy a)).
End Together.
Definition open (fleet : option OpsFleetCache.Cache) (b : OpsShell.BasePane) (c : OpsConfig.Config) (t0 : list log_row) : axis :=
  MkAxis (New true fleet b c) (newLogStore (tail (configFrom c))) t0 [] [] (OpsLogTail.Ret (Ok tt)).
Inductive reachable (fleet : option OpsFleetCache.Cache) (b : OpsShell.BasePane) (c : OpsConfig.Config) (collate : string → string → bool)
    (t0 : list log_row) : axis → Prop :=
| reachable_open : reachable fleet b c collate t0 (open fleet b c t0)
| reachable_step a a' : reachable fleet b c collate t0 a → step (tail (configFrom c)) collate a a' → reachable fleet b c collate t0 a'.
End pane.
End OpsLogPane.

(** * What the logs pane promises

    The lines on the screen are the store's ring, or word of the difference is on
    its way or will be sent; the filter the operator applies is the filter the store reads with;
    and how a reload leaves the scrollback off for good. *)

Module OpsLogPaneLaws.
Import OpsLogs OpsLogPane.

(** ** The store tells *)

Definition announces (m : msg) : Prop := match m with logSerialsMsg _ => False | _ => True end.
Lemma ingest_row_added cfg r s :
  0 ≤ (ingest_row cfg r s).1 ∧ ((ingest_row cfg r s).1 = 0 → ring (ingest_row cfg r s).2 = ring s).
Proof.
  unfold ingest_row. destruct (repeated s r); [done|]. destruct (advance s r) as [c k]. destruct (parseRow cfg r (fwdBoot s)) as [lines bt].
  cbn. split; [apply zlen_nonneg|]. intros ->%zlen_nil_inv. done.
Qed.
Lemma ingestForward_added cfg l s :
  0 ≤ (ingestForward cfg l s).1 ∧ ((ingestForward cfg l s).1 = 0 → ring (ingestForward cfg l s).2 = ring s).
Proof.
  revert s. induction l as [|r l IH]; intros s; [done|]. cbn [ingestForward]. pose proof (ingest_row_added cfg r s) as [H1 H2].
  destruct (ingest_row cfg r s) as [n s1]. specialize (IH s1). destruct (ingestForward cfg l s1) as [m s2]. cbn in *. destruct IH as [H3 H4].
  split; [lia|]. intros Hz. rewrite H4, H2 by lia. done.
Qed.

(** Runs an operation of the store statement by statement. *)
Ltac run := cbn -[ingestForward ingestBackfill queryRecent queryForward queryBackfill queryDistinctSerials].
Ltac expose := unfold the_store, read, update, modify, emit, attempt, query, stmt, mbind, M_bind, mret, M_ret, update.

(** Left alone, the goroutine's steps are what [OpsLogs] does in one. *)
Theorem goroutine_is_handle cfg collate e w fs : OpsLogTail.run (OpsLogTail.handle cfg collate e) w fs = handle cfg collate e w fs.
Proof.
  destruct e as [|[|f| |]]; cbn [OpsLogTail.handle OpsLogTail.handleReq handle handleReq]; unfold or_report, tick, prime, forward, doBackfill; expose.
  - unfold OpsLogTail.tick, OpsLogTail.forward, OpsLogTail.prime. run. destruct (primed (OpsLogs.store w)); run; destruct fs as [|[] fs]; run; try done.
    all: destruct (ingestForward _ _ _) as [n s]; run; try done.
    all: first [destruct (0 <? n); run; done|destruct fs as [|[] fs]; run; done].
  - unfold OpsLogTail.or_report, OpsLogTail.doBackfill. run. destruct (oldest (OpsLogs.store w)); run; [|done]. destruct (_ || _); run; [done|].
    destruct fs as [|[] fs]; run; try done; by destruct (ingestBackfill _ _ _).
  - unfold OpsLogTail.or_report, OpsLogTail.prime. run. destruct fs as [|[] fs]; run; try done; destruct (ingestForward _ _ _) as [n s]; run; try done.
    by destruct fs as [|[] fs].
  - unfold OpsLogTail.or_report, OpsLogTail.prime. run. destruct fs as [|[] fs]; run; try done; destruct (ingestForward _ _ _) as [n s]; run; try done.
    by destruct fs as [|[] fs].
  - done.
Qed.

(** Whatever its queries give, the goroutine goes on to send word. *)
Fixpoint owes {A} (p : OpsLogTail.prog A) : Prop :=
  match p with
  | OpsLogTail.Ret _ => False
  | OpsLogTail.Locked _ k => ∀ s, owes (k s)
  | OpsLogTail.Query k => ∀ t, owes (k t)
  | OpsLogTail.Emit m k => announces m ∨ owes k
  end.
(** After every change of the ring it does. *)
Fixpoint tells {A} (p : OpsLogTail.prog A) : Prop :=
  match p with
  | OpsLogTail.Ret _ => True
  | OpsLogTail.Locked g k => ∀ s, (ring (g s) = ring s ∨ owes (k s)) ∧ tells (k s)
  | OpsLogTail.Query k => ∀ t, tells (k t)
  | OpsLogTail.Emit _ k => tells k
  end.

Section Announced.
Context (cfg : OpsLogs.Config) (collate : string → string → bool).

Lemma ingestForward_told l s : ring (ingestForward cfg l s).2 = ring s ∨ (0 <? (ingestForward cfg l s).1) = true.
Proof.
  destruct (ingestForward_added cfg l s) as [Hn Hr]. destruct (Z.ltb_spec 0 (ingestForward cfg l s).1); [by right|left; apply Hr; lia].
Qed.
(** Goes through the steps of an operation. *)
Ltac tell c l x := first
  [ match goal with |- context [0 <? (ingestForward c l x).1] => destruct (ingestForward_told l x) as [E|E]; [left; exact E|right; rewrite E] end
  | right ].
Ltac walk := repeat (run; match goal with
  | |- _ ∧ _ => split
  | |- True => exact I
  | |- ring (ingestForward ?c ?l ?x).2 = _ ∨ owes _ => tell c l x
  | |- _ = _ ∨ _ => first [left; reflexivity|right]
  | |- True ∨ _ => left
  | |- False ∨ _ => right
  | |- ∀ _, _ => intros ?
  | |- context [match ?x with Some _ => _ | None => _ end] => destruct x
  | |- context [if ?x then _ else _] => destruct x
  end).
Lemma handle_tells e : tells (OpsLogTail.handle cfg collate e).
Proof.
  destruct e as [|[|f| |]].
  - cbn [OpsLogTail.handle]. unfold OpsLogTail.tick. run. intros s. split; [by left|]. destruct (primed s).
    + unfold OpsLogTail.forward. walk.
    + unfold OpsLogTail.prime. walk.
  - cbn [OpsLogTail.handle OpsLogTail.handleReq]. unfold OpsLogTail.or_report, OpsLogTail.doBackfill. walk.
  - cbn [OpsLogTail.handle OpsLogTail.handleReq]. unfold OpsLogTail.or_report, OpsLogTail.prime. walk.
  - cbn [OpsLogTail.handle OpsLogTail.handleReq]. unfold OpsLogTail.or_report, OpsLogTail.prime. walk.
  - walk.
Qed.
End Announced.

(** ** The screen *)

Section Screen.
Context `{VL : ViewportLaws} `{Zones} `{Italics}.

Definition fresh (p : logsPane) (s : logStore) : Prop := content (vp p) = laid_out (renderLine p <$> ring s).
Lemma refresh_fresh s p : store p = true → fresh (refresh s p) s.
Proof.
  intros Hs. unfold refresh, fresh. rewrite Hs. destruct (follow p); cbn; by rewrite ?content_bottom, content_set.
Qed.
Lemma refresh_same s p : store (refresh s p) = store p ∧ err (refresh s p) = err p ∧ backfillDone (refresh s p) = backfillDone p.
Proof. unfold refresh. destruct (store p) eqn:E; cbn; auto. Qed.
Lemma markDirty_same p : store (markDirty p) = store p ∧ err (markDirty p) = err p ∧ backfillDone (markDirty p) = backfillDone p ∧
  vp (markDirty p) = vp p ∧ renderLine (markDirty p) = renderLine p.
Proof. unfold markDirty. by destruct (OpsShell.focused _). Qed.
Lemma fresh_dirty p s : fresh p s → fresh (markDirty p) s.
Proof. unfold fresh. unfold markDirty. by destruct (OpsShell.focused _). Qed.

(** What an input leaves: the error, the database, the end of the scrollback, and
    a screen that was the ring still is. *)
Record leaves (s : logStore) (p p' : logsPane) : Prop := {
  leaves_store : store p' = store p; leaves_err : err p' = err p; leaves_done : backfillDone p' = backfillDone p;
  leaves_fresh : store p = true → fresh p s → fresh p' s }.
Lemma leaves_refl s p : leaves s p p.
Proof. by split. Qed.
Lemma leaves_view s p v f : content v = content (vp p) → leaves s p (set_view v f p).
Proof.
  intros Hv. split; try done. unfold fresh. intros _ Hf. change (renderLine (set_view v f p)) with (renderLine p).
  change (vp (set_view v f p)) with v. by rewrite Hv.
Qed.
Lemma leaves_filter s p f : leaves s p (set_filter f p).
Proof. by split. Qed.
Lemma onScrollKey_leaves s k p : leaves s p (onScrollKey k p).1.
Proof.
  unfold onScrollKey, scrolled_up, scrolled_down. repeat case_bool_decide; cbn [fst];
    first [apply leaves_refl|apply leaves_view; by rewrite ?content_up, ?content_down, ?content_top, ?content_bottom].
Qed.
Lemma onFilterKey_leaves s k p : leaves s p (onFilterKey s k p).1.
Proof. unfold onFilterKey, applyFilter. repeat case_bool_decide; cbn [fst]; first [apply leaves_refl|apply leaves_filter]. Qed.
Lemma onKey_leaves s k p : leaves s p (onKey s k p).1.
Proof.
  unfold onKey. destruct (f_open _); [apply onFilterKey_leaves|]. repeat case_bool_decide; cbn [fst]; try apply leaves_refl.
  - unfold toggleFollow. destruct (follow p); apply leaves_view; by rewrite ?content_bottom.
  - apply leaves_filter.
  - apply onScrollKey_leaves.
Qed.
Lemma refresh_leaves s p p' : store p' = store p → err p' = err p → backfillDone p' = backfillDone p → leaves s p (refresh s p').
Proof.
  intros H1' H2' H3'. destruct (refresh_same s p') as (R1 & R2 & R3). split; [congruence..|]. intros Hs _. apply refresh_fresh. congruence.
Qed.
Lemma input_leaves s m p : input m → leaves s p (Update s m p).1.
Proof.
  intros [x|[c|]|k]; cbn [Update fst]; [apply leaves_refl|by apply refresh_leaves|apply leaves_refl|apply onKey_leaves].
Qed.
Lemma SetFocused_leaves f s p : leaves s p (SetFocused f s p).
Proof. unfold SetFocused. destruct f; [by apply refresh_leaves|by split]. Qed.
Lemma SetSize_leaves w h s p : leaves s p (SetSize w h s p).
Proof. unfold SetSize. by apply refresh_leaves. Qed.

(** The screen is the ring, or word of the difference was an error, is on its way or
    will be sent; and whatever the goroutine changes yet it tells. *)
Record warm (a : axis) : Prop := {
  w_store : store (pane a) = true; w_tells : tells (busy a);
  w_screen : fresh (pane a) (tl a) ∨ err (pane a) ≠ None ∨ Exists announces (inbox a) ∨ owes (busy a) }.
Lemma after_warm a p o : leaves (tl a) (pane a) p → warm a → warm (after (p, o) a).
Proof.
  intros [L1 L2 L3 L4] [Hs Ht Hw]. split; cbn; [by rewrite L1|done|].
  destruct Hw as [Hf|[He|Hi]]; [by left; apply L4|right; left; by rewrite L2|by auto].
Qed.
Lemma begin_warm cfg collate e q a : idle a → warm a → warm (begin cfg collate e q a).
Proof.
  intros Hidle [Hs Ht Hw]. unfold idle in Hidle. split; cbn; [done|apply handle_tells|].
  destruct (busy a) as [r| | |]; try done. destruct Hw as [?|[?|[?|[]]]]; auto.
Qed.
Lemma go_warm fails a : warm a → warm (go fails a).
Proof.
  intros [Hs Ht Hw]. unfold go. destruct (busy a) as [r|g k|k|m k] eqn:Hb; [split; [done|by rewrite Hb|by rewrite Hb]|..]; cbn in Ht, Hw.
  - destruct (Ht (tl a)) as [Hr Hk]. split; cbn; [done|done|].
    destruct Hr as [Hr|Ho]; [|by auto]. destruct Hw as [Hf|[?|[?|Ho]]]; [left; unfold fresh in *; by rewrite Hr|by auto..].
  - split; cbn; [done|apply Ht|]. destruct Hw as [?|[?|[?|Ho]]]; auto.
  - split; cbn; [done|done|]. destruct Hw as [?|[?|[?|[Ho|Ho]]]]; auto; right; right; left; apply Exists_app; [by left|right; by constructor].
Qed.
Lemma deliver_warm m l a : inbox a = m :: l → warm a → warm (deliver m l a).
Proof.
  intros Hi [Hs Ht Hw]. unfold deliver. destruct m as [n c|n d|ss|e]; cbn [onStore].
  - set (p1 := OpsLogPane.set_tail _ _ _ _ _). destruct (markDirty_same (refresh (tl a) p1)) as (M1 & _). destruct (refresh_same (tl a) p1) as (R1 & _).
    split; cbn; [by rewrite M1, R1|done|]. left. apply fresh_dirty, refresh_fresh. done.
  - set (p1 := OpsLogPane.set_tail _ _ _ _ _). destruct (refresh_same (tl a) p1) as (R1 & _). split; cbn; [by rewrite R1|done|]. left. by apply refresh_fresh.
  - split; cbn; [done|done|]. destruct Hw as [Hf|[He|[Hx|Ho]]]; [by left|by auto| |by auto].
    rewrite Hi in Hx. apply Exists_cons in Hx as [Hx|Hx]; [done|by auto].
  - set (p1 := OpsLogPane.set_tail _ _ _ _ _). destruct (markDirty_same p1) as (M1 & M2 & _). split; cbn; [by rewrite M1|done|]. right. left. by rewrite M2.
Qed.
Lemma reachable_warm fleet b c collate t0 a : reachable fleet b c collate t0 a → warm a.
Proof.
  induction 1 as [|a a' _ IH Hs]; [split; [done|exact I|]; left; apply content_new|].
  destruct Hs as [a Hi|r q a Hi Hq|fs a|m l a Hi|m a Hm|f a|w h a|l a].
  - by apply begin_warm.
  - by apply begin_warm.
  - by apply go_warm.
  - by apply deliver_warm.
  - destruct (Update (tl a) m (pane a)) as [p o] eqn:Hu. apply after_warm; [|done]. pose proof (input_leaves (tl a) m (pane a) Hm) as Hl. by rewrite Hu in Hl.
  - apply after_warm; [apply SetFocused_leaves|done].
  - apply after_warm; [apply SetSize_leaves|done].
  - destruct IH as [? ? ?]. by split.
Qed.

(** The goroutine goes on until it waits, no query failing; the pane takes what was
    sent. *)
Fixpoint finish (p : OpsLogTail.prog unit) (a : axis) : axis :=
  match p with
  | OpsLogTail.Ret _ => a
  | OpsLogTail.Locked g k => finish (k (tl a)) (go false a)
  | OpsLogTail.Query k => finish (k (Some (rows a))) (go false a)
  | OpsLogTail.Emit m k => finish k (go false a)
  end.
Definition deliver_all (a : axis) : axis := foldl (λ a m, deliver m (List.tl (inbox a)) a) a (inbox a).
Lemma finish_steps cfg collate p a : busy a = p → rtc (OpsLogPane.step cfg collate) a (finish p a) ∧ idle (finish p a).
Proof.
  revert a. induction p as [r|g k IH|k IH|m k IH]; intros a Hb; cbn [finish].
  { split; [done|]. unfold idle. by rewrite Hb. }
  all: first [destruct (IH (tl a) (go false a)) as [Hr Hi]|destruct (IH (Some (rows a)) (go false a)) as [Hr Hi]|destruct (IH (go false a)) as [Hr Hi]].
  all: try (unfold go; by rewrite Hb).
  all: split; [|exact Hi]; (eapply rtc_l; [apply (step_go _ _ false)|exact Hr]).
Qed.
Lemma finish_rows p a : rows (finish p a) = rows a.
Proof.
  revert a. induction p as [r|g k IH|k IH|m k IH]; intros a; cbn [finish]; [done|..].
  all: rewrite IH; unfold go; by destruct (busy a).
Qed.
Lemma deliver_steps cfg collate l a : inbox a = l →
  let a' := foldl (λ a m, deliver m (List.tl (inbox a)) a) a l in
  rtc (OpsLogPane.step cfg collate) a a' ∧ inbox a' = [] ∧ busy a' = busy a ∧ tl a' = tl a ∧ rows a' = rows a.
Proof.
  revert a. induction l as [|m l IH]; intros a Hi; cbn; [by split_and!|]. rewrite Hi. cbn.
  destruct (IH (deliver m l a)) as (Hr & H1' & H2' & H3' & H4'); [done|]. split_and!; try done.
  eapply rtc_l; [by apply step_deliver|exact Hr].
Qed.

(** C36. The screen is the store's ring. The goroutine runs between the pane's
    messages one step at a time, locks, queries and sends apart, whatever the
    database, the operator and the shell do, in the foreground or not. While the pane
    has taken every message of the store but lists of serials, and the last word was
    no error, the viewport holds exactly the ring's lines, each rendered with the
    present configuration (one that holds a newline in its parts), unless the
    goroutine is in the middle of a request and about to send word, whatever its
    queries give; so they are equal whenever it waits. And from any state it comes to
    wait, with everything taken. *)
Theorem screen_is_ring fleet b c collate t0 a : reachable fleet b c collate t0 a →
  (¬ Exists announces (inbox a) → err (pane a) = None →
    (content (vp (pane a)) = laid_out (renderLine (pane a) <$> ring (tl a)) ∨ owes (busy a)) ∧
    (idle a → content (vp (pane a)) = laid_out (renderLine (pane a) <$> ring (tl a)))) ∧
  ∃ a', rtc (OpsLogPane.step (tail (configFrom c)) collate) a a' ∧ idle a' ∧ inbox a' = [] ∧ rows a' = rows a.
Proof.
  intros Hr. split.
  - intros Hi He. destruct (reachable_warm _ _ _ _ _ _ Hr) as [_ _ [Hf|[Hx|[Hx|Hx]]]]; [by auto|done|done|].
    split; [by right|]. unfold idle. by destruct (busy a).
  - set (a1 := finish (busy a) a).
    destruct (finish_steps (tail (configFrom c)) collate (busy a) a eq_refl) as [Hr1 Hi1].
    destruct (deliver_steps (tail (configFrom c)) collate (inbox a1) a1 eq_refl) as (Hr2 & Hn & Hb & _ & Hrows).
    exists (deliver_all a1). split; [by etransitivity|]. split; [unfold idle, deliver_all; by rewrite Hb|]. split; [done|].
    unfold deliver_all. rewrite Hrows. apply finish_rows.
Qed.
End Screen.

(** ** The scrollback *)

Definition other (m : msg) : Prop := match m with logBackfillMsg _ _ => False | _ => True end.
(** Whatever its queries give, the goroutine sends no answer to a request for older
    lines. *)
Fixpoint quiet {A} (p : OpsLogTail.prog A) : Prop :=
  match p with
  | OpsLogTail.Ret _ => True
  | OpsLogTail.Locked _ k => ∀ s, quiet (k s)
  | OpsLogTail.Query k => ∀ t, quiet (k t)
  | OpsLogTail.Emit m k => other m ∧ quiet k
  end.
Ltac hush := repeat (run; match goal with
  | |- _ ∧ _ => split
  | |- True => exact I
  | |- ∀ _, _ => intros ?
  | |- context [match ?x with Some _ => _ | None => _ end] => destruct x
  | |- context [if ?x then _ else _] => destruct x
  end).
Lemma handle_quiet cfg collate e : e ≠ OpsLogs.Request reqBackfill → quiet (OpsLogTail.handle cfg collate e).
Proof.
  intros He. destruct e as [|[|f| |]]; [|done|..]; cbn [OpsLogTail.handle OpsLogTail.handleReq].
  - unfold OpsLogTail.tick. run. intros s. destruct (primed s); [unfold OpsLogTail.forward|unfold OpsLogTail.prime]; hush.
  - unfold OpsLogTail.or_report, OpsLogTail.prime. hush.
  - unfold OpsLogTail.or_report, OpsLogTail.prime. hush.
  - hush.
Qed.

Section Scrollback.
Context `{VL : ViewportLaws} `{Zones} `{Italics}.

Lemma requests_off s m p : input m → backfillDone p = true → reqBackfill ∉ requests (Update s m p).2.
Proof.
  assert (Hask : ∀ r, r ≠ reqBackfill → reqBackfill ∉ requests (ask r p)).
  { intros r Hr. unfold ask. destruct (store p); cbn; [|apply not_elem_of_nil]. intros Hx%list_elem_of_singleton. by subst. }
  intros [x|[c|]|k] Hd; cbn [Update snd]; try apply not_elem_of_nil.
  - case_bool_decide; [apply not_elem_of_nil|by apply Hask].
  - unfold onKey. destruct (f_open _).
    + unfold onFilterKey, applyFilter. repeat case_bool_decide; cbn [snd]; try apply not_elem_of_nil. by apply Hask.
    + repeat case_bool_decide; cbn [snd]; try apply not_elem_of_nil; try (by apply Hask).
      * unfold copyVisible. destruct (store p); cbn; apply not_elem_of_nil.
      * assert (Hup : ∀ v, reqBackfill ∉ requests (maybeBackfill (set_view v false p))).
        { intros v. unfold maybeBackfill. cbn. rewrite Hd. destruct (store p); apply not_elem_of_nil. }
        unfold onScrollKey, scrolled_up, scrolled_down. repeat case_bool_decide; cbn [snd]; try apply not_elem_of_nil; apply Hup.
Qed.
Lemma request_off q l : (reqBackfill ∉ q) → (reqBackfill ∉ l) → reqBackfill ∉ foldl request q l.
Proof.
  revert q. induction l as [|r l IH]; intros q Hq Hl; [done|]. cbn. apply not_elem_of_cons in Hl as [Hr Hl]. apply IH; [|done].
  unfold request. destruct (_ <? _); [|done]. rewrite not_elem_of_app, list_elem_of_singleton. by split.
Qed.

(** Nothing about scrollback is under way, and the pane believes it is exhausted. *)
Record off (a : axis) : Prop := {
  off_done : backfillDone (pane a) = true; off_queue : reqBackfill ∉ queue a; off_inbox : Forall other (inbox a);
  off_busy : quiet (busy a) }.
Lemma begin_off cfg collate e q a : e ≠ OpsLogs.Request reqBackfill → (reqBackfill ∉ q) → off a → off (begin cfg collate e q a).
Proof. intros He Hq' [Hd Hq Hi Hb]. split; [done|done|done|by apply handle_quiet]. Qed.
Lemma go_off fails a : off a → off (go fails a).
Proof.
  intros [Hd Hq Hi Hb]. unfold go. destruct (busy a) as [r|g k|k|m k] eqn:E; cbn in Hb; [split; [done|done|done|by rewrite E]|split; [done|done|done|apply Hb]..|].
  destruct Hb as [Hm Hk]. split; [done|done| |done]. cbn. apply Forall_app. split; [done|by constructor].
Qed.
Lemma after_off p o a : backfillDone p = true → reqBackfill ∉ requests o → off a → off (after (p, o) a).
Proof. intros Hp Ho [Hd Hq Hi Hb]. split; [done|by apply request_off|done|done]. Qed.
Lemma deliver_off m l a : inbox a = m :: l → off a → off (deliver m l a).
Proof.
  intros Hi [Hd Hrq Hin Hb]. rewrite Hi in Hin. apply Forall_cons in Hin as [Hm Hin]. split; [|done|done|done]. cbn.
  destruct m as [n c|n d|ss|e]; [|done|done|]; cbn [onStore].
  - set (p1 := OpsLogPane.set_tail _ _ _ _ _). destruct (markDirty_same (refresh (tl a) p1)) as (_ & _ & -> & _).
    by destruct (refresh_same (tl a) p1) as (_ & _ & ->).
  - set (p1 := OpsLogPane.set_tail _ _ _ _ _). by destruct (markDirty_same p1) as (_ & _ & -> & _).
Qed.
Lemma step_off cfg collate a a' : OpsLogPane.step cfg collate a a' → off a → off a'.
Proof.
  intros Hs Ho. pose proof Ho as [Hd Hrq Hin Hb]. destruct Hs as [a Hi|r q a Hi Hq|fs a|m l a Hi|m a Hm|f a|w h a|l a].
  - by apply begin_off.
  - rewrite Hq in Hrq. apply not_elem_of_cons in Hrq as [Hr Hrq]. apply begin_off; [congruence|done|done].
  - by apply go_off.
  - by apply deliver_off.
  - pose proof (requests_off (tl a) m (pane a) Hm Hd) as Hno. pose proof (leaves_done _ _ _ (input_leaves (tl a) m (pane a) Hm)) as Hdn.
    destruct (Update (tl a) m (pane a)) as [p o]. apply after_off; [cbn in Hdn; congruence|done|done].
  - apply after_off; [by rewrite (leaves_done _ _ _ (SetFocused_leaves f (tl a) (pane a)))|apply not_elem_of_nil|done].
  - apply after_off; [by rewrite (leaves_done _ _ _ (SetSize_leaves w h (tl a) (pane a)))|apply not_elem_of_nil|done].
  - by split.
Qed.
(** Once the end of the history was reached the pane never asks for an older page
    again, whatever is filtered or reloaded: only the store forgets the end. *)
Theorem scrollback_stays_off cfg collate a a' : off a → rtc (OpsLogPane.step cfg collate) a a' → off a'.
Proof. intros Ho Hs. induction Hs as [|a a1 a' Hs _ IH]; [done|]. by apply IH, (step_off _ _ _ _ Hs). Qed.

Lemma parse_serial cfg r bt ln : ln ∈ (parseRow cfg r bt).1 → Serial ln = l_serial r.
Proof.
  unfold parseRow. destruct (boot_step _ _ bt) as [[changed from] bt']. cbn [fst]. rewrite !elem_of_app. intros [Hl|[Hl|Hl]].
  - destruct (_ && _); [by apply list_elem_of_singleton in Hl as ->|by apply not_elem_of_nil in Hl].
  - destruct (_ && _); [by apply list_elem_of_singleton in Hl as ->|by apply not_elem_of_nil in Hl].
  - by apply list_elem_of_fmap in Hl as (t & -> & _).
Qed.
Lemma ingest_row_ring cfg r s : filter (ingest_row cfg r s).2 = filter s ∧
  ∀ ln, ln ∈ ring (ingest_row cfg r s).2 → ln ∈ ring s ∨ Serial ln = l_serial r.
Proof.
  unfold ingest_row. destruct (repeated s r); [by auto|]. destruct (advance s r) as [c k].
  pose proof (parse_serial cfg r (fwdBoot s)) as Hp. destruct (parseRow cfg r (fwdBoot s)) as [lines bt]. cbn in *.
  unfold appendLinesLocked. case_bool_decide; [by auto|]. split; [done|]. cbn. unfold trim_ring. intros ln Hln.
  assert (Hin : ln ∈ ring s ++ lines).
  { destruct (_ <? _); [|done]. eapply elem_of_sublist; [exact Hln|apply sublist_drop]. }
  apply elem_of_app in Hin as [?|?]; auto.
Qed.
Lemma ingestForward_ring cfg l s : filter (ingestForward cfg l s).2 = filter s ∧
  ∀ ln, ln ∈ ring (ingestForward cfg l s).2 → ln ∈ ring s ∨ ∃ r, r ∈ l ∧ Serial ln = l_serial r.
Proof.
  revert s. induction l as [|r l IH]; intros s; [by auto|]. cbn [ingestForward]. pose proof (ingest_row_ring cfg r s) as [F1 R1].
  destruct (ingest_row cfg r s) as [n s1]. specialize (IH s1) as [F2 R2]. destruct (ingestForward cfg l s1) as [m s2]. cbn in *.
  split; [congruence|]. intros ln Hln. destruct (R2 ln Hln) as [Hl|(r' & Hr & E)].
  - destruct (R1 ln Hl) as [?|?]; [by left|]. right. exists r. split; [left|done].
  - right. exists r'. split; [by right|done].
Qed.
Lemma queryRecent_rows f n tbl r : r ∈ queryRecent f n tbl → r ∈ tbl ∧ matches f r = true.
Proof.
  unfold queryRecent. rewrite elem_of_reverse. intros Hr. apply elem_of_take in Hr as (i & Hr & _). apply list_elem_of_lookup_2 in Hr.
  rewrite (elem_of_Permutation_proper _ _ _ (merge_sort_Permutation _ _)) in Hr.
  apply list_elem_of_In, List.filter_In in Hr as [Hr Hm]. split; [by apply list_elem_of_In|done].
Qed.
Lemma reprimed cfg collate f w fs :
  let w' := (handle cfg collate (OpsLogs.Request (reqSetFilter f)) w fs).1.2 in
  filter (OpsLogs.store w') = f ∧
  ∀ ln, ln ∈ ring (OpsLogs.store w') → ∃ r, r ∈ table w ∧ matches f r = true ∧ Serial ln = l_serial r.
Proof.
  cbv zeta. cbn [handle handleReq]. set (s1 := resetForReprime (Some f) (OpsLogs.store w)).
  set (w1 := MkWorld s1 (table w) (sent w)).
  change ((modify (resetForReprime (Some f)) ≫= λ _, or_report (prime cfg collate)) w fs) with (or_report (prime cfg collate) w1 fs).
  assert (Hpost : ∀ s', (s' = s1 ∨ ∃ o x n, s' = set_history o true x n (ingestForward cfg (queryRecent f (BackfillPage cfg) (table w)) s1).2) →
    filter s' = f ∧ ∀ ln, ln ∈ ring s' → ∃ r, r ∈ table w ∧ matches f r = true ∧ Serial ln = l_serial r).
  { intros s' [->|(o & x & n & ->)]; [split; [done|]; cbn; by intros ? ?%not_elem_of_nil|].
    destruct (ingestForward_ring cfg (queryRecent f (BackfillPage cfg) (table w)) s1) as [F R].
    split; [exact F|]. intros ln Hln. destruct (R ln Hln) as [Hx|(r & Hr & E)]; [by apply not_elem_of_nil in Hx|].
    apply queryRecent_rows in Hr as [? ?]. by exists r. }
  apply Hpost. unfold or_report, prime. expose.
  destruct fs as [|[] fs]; run; [|by left|]; change (filter s1) with f;
    destruct (ingestForward cfg (queryRecent f (BackfillPage cfg) (table w)) s1) as [n s]; run; right.
  - by eexists _, _, _.
  - destruct fs as [|[] fs]; run; by eexists _, _, _.
Qed.
(** The filter the operator applies is the filter the store reads. Enter in the
    overlay closes it and queues one request, with exactly the checked serials, in
    order, and the sources as they are; when the goroutine comes to it, whatever
    fails, the store's filter is that one and the lines of another are gone. *)
Theorem filter_applied cfg collate a fs : store (pane a) = true → f_open (filt (pane a)) = true → zlen (queue a) < 16 →
  let a' := after (Update (tl a) (KeyPressMsg "enter") (pane a)) a in
  let f := MkFilter (chosen (filt (pane a))) (Sources (filter (tl a))) in
  f_open (filt (pane a')) = false ∧ queue a' = queue a ++ [reqSetFilter f] ∧
  (∀ s, s ∈ chosen (filt (pane a)) ↔ selected (filt (pane a)) !! s = Some true) ∧ Sorted bytes_le (chosen (filt (pane a))) ∧
  ∀ w, let w' := (OpsLogTail.run (OpsLogTail.handle cfg collate (OpsLogs.Request (reqSetFilter f))) w fs).1.2 in
    filter (OpsLogs.store w') = f ∧ ∀ ln, ln ∈ ring (OpsLogs.store w') → ∃ r, r ∈ table w ∧ matches f r = true ∧ Serial ln = l_serial r.
Proof.
  intros Hs Ho Hq. cbv zeta. cbn [Update]. unfold onKey. rewrite Ho.
  change (onFilterKey (tl a) "enter" (pane a)) with (applyFilter (tl a) (pane a)). split_and!.
  - done.
  - cbn. unfold ask. rewrite Hs. cbn. unfold request. destruct (Z.ltb_spec (zlen (queue a)) 16); [done|lia].
  - intros s. unfold chosen, sort_strings. rewrite (elem_of_Permutation_proper _ _ _ (merge_sort_Permutation _ _)).
    rewrite list_elem_of_In, List.filter_In, <- list_elem_of_In, list_elem_of_fmap. split.
    + intros [((k & v) & -> & Hin) Hv]. apply elem_of_map_to_list in Hin. cbn in *. rewrite Hin in *. cbn in Hv. by subst.
    + intros Hsel. split; [|by rewrite Hsel]. exists (s, true). split; [done|]. by apply elem_of_map_to_list.
  - unfold chosen, sort_strings. apply Sorted_merge_sort. intros x y. unfold bytes_le. destruct (String.leb_total x y); auto.
  - intros w. cbv zeta. rewrite goroutine_is_handle. apply (reprimed cfg collate).
Qed.
End Scrollback.

(** ** Samples *)

(** A viewport that shows everything: it is always at both ends. *)
#[local] Instance ascii : OpsShell.Lipgloss := {|
  OpsShell.paint _ _ t := t; OpsShell.plain t := t; OpsShell.cells t := zlen (bytes_of_string t); OpsShell.box _ _ _ t := t;
  OpsShell.padded t _ _ := t |}.
#[local] Instance whole : Viewport := {|
  viewport := list string; new_viewport := []; SetContentLines l _ := laid_out l; GotoBottom v := v; GotoTop v := v; ScrollUp _ v := v;
  ScrollDown _ v := v; AtBottom _ := true; AtTop _ := true; VpHeight v := zlen v; SetVpSize _ _ v := v; VpView v := OpsKeys.Join v " ";
  content v := v |}.
#[local] Instance whole_laws : ViewportLaws.
Proof. by split. Qed.
#[local] Instance utc : Zones := {| zone := unit; Local := tt; LoadLocation _ := None; format_in _ _ _ := "12:00"%string |}.
#[local] Instance upright : Italics := λ _ t, t.
Definition paged : OpsConfig.Config :=
  let d := OpsConfig.defaults in let l := OpsConfig.logs d in
  OpsConfig.MkConfig (OpsConfig.Schema d) (OpsConfig.MetaName d) (OpsConfig.reload d) (OpsConfig.ui d) (OpsConfig.keys d) (OpsConfig.Theme d)
    (OpsConfig.database d) (OpsConfig.ssh d) (OpsConfig.poll d) (OpsConfig.tty_glob d) (OpsConfig.run d) (OpsConfig.reconnect d)
    (OpsConfig.hosts d) (OpsConfig.build d) (OpsConfig.flash d) (OpsConfig.console d) (OpsConfig.ota d) (OpsConfig.telemetry d)
    (OpsConfig.MkLogs "|" 1 10 1 100 100 [] ["device"%string] true "gap"%string true "suspect"%string true 1 2 ""%string "Local"%string "none"%string []
       1 (OpsConfig.l_keys l)) (OpsConfig.devices d).
Definition ex_base : OpsShell.BasePane := OpsShell.NewBase "logs:1" "logs".
Definition ex_rows : list log_row := [OpsLogsLaws.ex_row 10 "A" 1 0 "up|wifi|"; OpsLogsLaws.ex_row 11 "B" 4 0 "on"].
Definition byte_order (a b : string) : bool := String.leb a b.
Abbreviation ex_step := (OpsLogPane.step (tail (configFrom paged)) byte_order).
(** What the operator and the goroutine do next, at a state. *)
Inductive act := Key (k : string) | Serve (e : event) | Deliver.
Definition perform (x : act) (a : axis) : axis :=
  let cfg := tail (configFrom paged) in
  let start e q a := let a := begin cfg byte_order e q a in finish (busy a) a in
  match x with
  | Key k => after (Update (tl a) (KeyPressMsg k) (pane a)) a
  | Deliver => match inbox a with m :: l => deliver m l a | [] => a end
  | Serve e =>
      match busy a with
      | OpsLogTail.Ret _ =>
          match e, queue a with
          | Timer, q => start Timer q a
          | OpsLogs.Request _, r :: q => start (OpsLogs.Request r) q a
          | OpsLogs.Request _, [] => a
          end
      | _ => a
      end
  end.
Lemma perform_steps l a : rtc ex_step a (foldl (flip perform) a l).
Proof.
  revert a. induction l as [|x l IH]; intros a; [done|]. cbn. etransitivity; [|apply IH]. unfold flip.
  assert (Hstart : ∀ e q, ex_step a (begin (tail (configFrom paged)) byte_order e q a) →
    rtc ex_step a (finish (busy (begin (tail (configFrom paged)) byte_order e q a)) (begin (tail (configFrom paged)) byte_order e q a))).
  { intros e q Hs. eapply rtc_l; [exact Hs|]. by apply finish_steps. }
  destruct x as [k|e|]; cbn [perform].
  - apply rtc_once, (step_input _ _ (KeyPressMsg k)). constructor.
  - destruct (busy a) as [r| | |] eqn:Hb; try apply rtc_refl. assert (Hi : idle a) by (unfold idle; by rewrite Hb).
    destruct e as [|r0]; [by apply Hstart, step_timer|]. destruct (queue a) as [|r' q] eqn:Hq; [apply rtc_refl|]. by apply Hstart, step_request.
  - destruct (inbox a) as [|m l'] eqn:Hi; [apply rtc_refl|]. by apply rtc_once, step_deliver.
Qed.
Lemma performed l : reachable None ex_base paged byte_order ex_rows (foldl (flip perform) (open None ex_base paged ex_rows) l).
Proof.
  assert (Hall : ∀ a, reachable None ex_base paged byte_order ex_rows a → ∀ a', rtc ex_step a a' → reachable None ex_base paged byte_order ex_rows a').
  { intros a Ha a' Hr. induction Hr as [|a a1 a' Hs _ IH]; [done|]. apply IH. by apply (reachable_step _ _ _ _ _ a). }
  apply (Hall _ (reachable_open _ _ _ _ _)), perform_steps.
Qed.

Definition primed_acts : list act := [Serve Timer; Deliver; Deliver].
Definition ex_shown : axis := foldl (flip perform) (open None ex_base paged ex_rows) primed_acts.
(** In the middle of a reload: the ring is empty, the screen still the old one, and
    word will be sent. *)
Definition ex_pressed : axis := foldl (flip perform) (open None ex_base paged ex_rows) (primed_acts ++ [Key "R"%string]).
Definition taken (r : storeReq) (a : axis) : axis := go false (begin (tail (configFrom paged)) byte_order (OpsLogs.Request r) [] a).
Definition ex_reloading : axis := taken reqReload ex_pressed.
Lemma taken_reachable r a : reachable None ex_base paged byte_order ex_rows a → idle a → queue a = [r] →
  reachable None ex_base paged byte_order ex_rows (taken r a).
Proof.
  intros Ha Hi Hq. eapply reachable_step; [|apply (step_go _ _ false)]. eapply reachable_step; [exact Ha|]. by apply step_request.
Qed.
Lemma ex_reloading_reachable : reachable None ex_base paged byte_order ex_rows ex_reloading.
Proof. apply (taken_reachable _ _ (performed _)); [vm_compute; exact I|vm_compute; reflexivity]. Qed.
Lemma screen_is_ring_witness :
  reachable None ex_base paged byte_order ex_rows ex_shown ∧ ¬ Exists announces (inbox ex_shown) ∧ err (pane ex_shown) = None ∧
  idle ex_shown ∧ content (vp (pane ex_shown)) = ["B [device] on"]%string ∧
  reachable None ex_base paged byte_order ex_rows ex_reloading ∧
  content (vp (pane ex_reloading)) ≠ laid_out (renderLine (pane ex_reloading) <$> ring (tl ex_reloading)) ∧ owes (busy ex_reloading).
Proof.
  assert (Hi : inbox ex_shown = []) by (vm_compute; reflexivity). assert (He : err (pane ex_shown) = None) by (vm_compute; reflexivity).
  assert (Hn : ¬ Exists announces (inbox ex_shown)) by (rewrite Hi; by intros ?%Exists_nil).
  assert (Hw : idle ex_shown) by (vm_compute; exact I).
  assert (Hi' : inbox ex_reloading = []) by (vm_compute; reflexivity). assert (He' : err (pane ex_reloading) = None) by (vm_compute; reflexivity).
  assert (Hn' : ¬ Exists announces (inbox ex_reloading)) by (rewrite Hi'; by intros ?%Exists_nil).
  assert (Hne : content (vp (pane ex_reloading)) ≠ laid_out (renderLine (pane ex_reloading) <$> ring (tl ex_reloading)))
    by (vm_compute; discriminate).
  destruct (screen_is_ring None ex_base paged byte_order ex_rows ex_shown (performed primed_acts)) as [Hs _].
  destruct (screen_is_ring None ex_base paged byte_order ex_rows ex_reloading ex_reloading_reachable) as [Hr _].
  split_and!; [exact (performed primed_acts)|exact Hn|exact He|exact Hw| |exact ex_reloading_reachable|exact Hne|].
  - destruct (Hs Hn He) as [_ ->]; [vm_compute; reflexivity|exact Hw].
  - destruct (Hr Hn' He') as [[E|E] _]; [by destruct Hne|exact E].
Defined.
Definition ex_overlay : axis := foldl (flip perform) ex_shown [Key "d"; Key "space"]%string.
Lemma filter_applied_witness :
  store (pane ex_overlay) = true ∧ f_open (filt (pane ex_overlay)) = true ∧ zlen (queue ex_overlay) < 16 ∧
  queue (after (Update (tl ex_overlay) (KeyPressMsg "enter") (pane ex_overlay)) ex_overlay) =
    [reqSetFilter (MkFilter ["A"] ["device"])]%string.
Proof.
  assert (Hs : store (pane ex_overlay) = true) by (vm_compute; reflexivity).
  assert (Ho : f_open (filt (pane ex_overlay)) = true) by (vm_compute; reflexivity).
  assert (Hq : zlen (queue ex_overlay) < 16) by (vm_compute; reflexivity).
  split_and!; [exact Hs|exact Ho|exact Hq|].
  destruct (filter_applied (tail (configFrom paged)) byte_order ex_overlay [] Hs Ho Hq) as (_ & H & _). rewrite H. vm_compute. reflexivity.
Defined.

(** The end of the history, then a reload. *)
Definition exhausted_acts : list act :=
  primed_acts ++ [Key "home"; Serve (OpsLogs.Request reqBackfill); Deliver; Key "home"; Serve (OpsLogs.Request reqBackfill); Deliver;
                  Key "R"; Serve (OpsLogs.Request reqReload); Deliver; Deliver]%string.
Definition ex_off : axis := foldl (flip perform) (open None ex_base paged ex_rows) exhausted_acts.
(** The scrollback is lost: after the end was reached once and the log reloaded, the
    store has an older page to give, the pane shows only the newest and never asks
    again. *)
Theorem scrollback_lost :
  reachable None ex_base paged byte_order ex_rows ex_off ∧
  backfillExhausted (tl ex_off) = false ∧ oldest (tl ex_off) = Some 11 ∧ content (vp (pane ex_off)) = ["B [device] on"]%string ∧
  (∃ r, r ∈ rows ex_off ∧ l_time r < 11) ∧ off ex_off ∧ ∀ a', rtc ex_step ex_off a' → off a'.
Proof.
  assert (Hq : queue ex_off = []) by (vm_compute; reflexivity). assert (Hi : inbox ex_off = []) by (vm_compute; reflexivity).
  assert (Hrows : rows ex_off = ex_rows) by (vm_compute; reflexivity).
  assert (Hoff : off ex_off).
  { split; [vm_compute; reflexivity|rewrite Hq; apply not_elem_of_nil|rewrite Hi; constructor|vm_compute; exact I]. }
  split; [exact (performed exhausted_acts)|]. split; [vm_compute; reflexivity|]. split; [vm_compute; reflexivity|].
  split; [vm_compute; reflexivity|]. split; [|split; [exact Hoff|]].
  - rewrite Hrows. exists (OpsLogsLaws.ex_row 10 "A" 1 0 "up|wifi|"). split; [left|done].
  - intros a' Ha. exact (scrollback_stays_off _ _ _ _ Hoff Ha).
Qed.
End OpsLogPaneLaws.
