(* ===== verification/OpsFlashPane.v ===== *)
(** * The console's flash pane ([tools/picpak-ops/internal/flashpane],
    [internal/flash/controller.go])

    The controller's life around the sequence of [Flash]: start, the contexts of the
    devices in flight, cancel; and the pane: the picker over the inventory, the
    matrix with a row per device, its keys, its status and its view. The controller's
    goroutines reach the pane by messages only. Parameters: the styles and the
    bordered box of the widget library. *)

From S2P Require Import Prelude GoLib GoText OpsKeys OpsShell OpsHosts OpsConfig OpsConsole OpsBuild Flash FlashLaws.
Import GoLib.

Module OpsFlashPane.
Import Flash(Phase, PhasePending, PhaseValidating, PhaseStaging, PhaseConfirming, PhaseFlashing, PhaseDone, PhaseFailed, Terminal,
  FailClass, FailNone, FailValidate, FailStage, FailGate, FailPortBusy, FailSync, FailHash, FailReset, FailTimeout, FailExit).

(** ** Targets and rows (flash/types.go) *)

Definition TargetID := string.
Record Target := MkTarget { ID : TargetID; Host : string; Device : OpsHosts.DiscoveredDevice }.
Definition Port (t : Target) : string := OpsHosts.TTY (Device t).
Definition NewTarget (d : OpsHosts.DiscoveredDevice) : Target :=
  MkTarget (OpsHosts.d_host d ++ ":" ++ OpsHosts.TTY d)%string (OpsHosts.d_host d) d.
(** What the controller's sequence looks at. *)
Definition core (t : Target) : Flash.Target :=
  Flash.MkTarget (ID t) (Host t) (Flash.MkDevice (OpsHosts.d_host (Device t)) (OpsHosts.TTY (Device t)) (OpsHosts.Descriptor (Device t))).
Definition Phase_text (p : Phase) : string :=
  match p with
  | PhasePending => "pending" | PhaseValidating => "validating" | PhaseStaging => "staging" | PhaseConfirming => "confirming"
  | PhaseFlashing => "flashing" | PhaseDone => "done" | PhaseFailed => "failed"
  end.
Definition FailClass_text (c : FailClass) : string :=
  match c with
  | FailNone => "ok" | FailValidate => "validate" | FailStage => "stage" | FailGate => "gate" | FailPortBusy => "port-busy"
  | FailSync => "sync-fail" | FailHash => "hash-fail" | FailReset => "reset-fail" | FailTimeout => "timeout" | FailExit => "exit"
  end.
Record DeviceResult := MkResult {
  r_target : Target; r_phase : Phase; Pct : Z; Verified : Z; NumFiles : Z; OK : bool; Class : FailClass; Hint : string; Tail : list string }.
Definition pending_row (t : Target) (files : Z) : DeviceResult := MkResult t PhasePending 0 0 files false FailNone "" [].

(** ** The controller (flash/controller.go) *)

(** [cancels]: the contexts of the devices in flight, and whether each is cancelled;
    [gone]: the pane's own context is over; [batches]: what each [runAll] started. *)
Record controller := MkCtl { running : bool; gone : bool; cancels : gmap TargetID bool; batches : list Flash.batch }.
Definition NewController : controller := MkCtl false false ∅ [].
Definition set_batches (b : list Flash.batch) (c : controller) : controller := MkCtl (running c) (gone c) (cancels c) b.
Definition set_cancels (m : gmap TargetID bool) (c : controller) : controller := MkCtl (running c) (gone c) m (batches c).
Definition Start (ts : list Target) (c : controller) : controller :=
  MkCtl true (gone c) (cancels c) (batches c ++ [Flash.start (core <$> ts)]).
Definition Cancel (id : TargetID) (c : controller) : controller :=
  match cancels c !! id with Some _ => set_cancels (<[id := true]> (cancels c)) c | None => c end.
Definition CancelAll (c : controller) : controller := set_cancels ((λ _, true) <$> cancels c) c.
Definition CtlClose : controller → controller := CancelAll.
Definition Running (c : controller) : bool := running c.
(** A new context, under the pane's. *)
Definition deviceCtx (id : TargetID) (c : controller) : controller := set_cancels (<[id := gone c]> (cancels c)) c.
Definition clearCancel (id : TargetID) (c : controller) : controller := set_cancels (delete id (cancels c)) c.
(** The pane's context ends. *)
Definition base_over (c : controller) : controller := MkCtl (running c) true ((λ _, true) <$> cancels c) (batches c).
Definition batch_over (b : list Flash.batch) (c : controller) : controller := MkCtl false (gone c) (cancels c) b.
(** The devices of every batch, with [n] slots in all: a device gets its context with
    its slot and gives it up at the end of its sequence; a batch whose devices are
    finished is over. *)
Inductive ctl_step (n : nat) : controller → controller → Prop :=
| CLock c pb pre t post qb : batches c = pb ++ (pre ++ (t, Flash.Queued) :: post) :: qb →
    (∀ x, x ∈ concat pb ++ pre ++ post ++ concat qb → Flash.Host x.1 = Flash.Host t → Flash.holds_lock x.2 = false) →
    ctl_step n c (set_batches (pb ++ (pre ++ (t, Flash.Locked) :: post) :: qb) c)
| CSlot c pb pre t post qb : batches c = pb ++ (pre ++ (t, Flash.Locked) :: post) :: qb → (Flash.slots (concat (batches c)) < n)%nat →
    ctl_step n c (deviceCtx (Flash.ID t) (set_batches (pb ++ (pre ++ (t, Flash.Slotted) :: post) :: qb) c))
| CRun c pb pre t post qb ok : batches c = pb ++ (pre ++ (t, Flash.Slotted) :: post) :: qb →
    ctl_step n c (clearCancel (Flash.ID t) (set_batches (pb ++ (pre ++ (t, Flash.Unslotted ok) :: post) :: qb) c))
| CUnlock c pb pre t post qb ok : batches c = pb ++ (pre ++ (t, Flash.Unslotted ok) :: post) :: qb →
    ctl_step n c (set_batches (pb ++ (pre ++ (t, Flash.Finished ok) :: post) :: qb) c)
| CEnd c pb b qb : batches c = pb ++ b :: qb → (∀ x, x ∈ b → ∃ ok, x.2 = Flash.Finished ok) → ctl_step n c (batch_over (pb ++ qb) c).
(** With what the pane does to it. *)
Inductive ctl_reachable (n : nat) : controller → Prop :=
| RNew : ctl_reachable n NewController
| RStep c c' : ctl_reachable n c → ctl_step n c c' → ctl_reachable n c'
| RStart c ts : ctl_reachable n c → ctl_reachable n (Start ts c)
| RCancel c id : ctl_reachable n c → ctl_reachable n (Cancel id c)
| RCancelAll c : ctl_reachable n c → ctl_reachable n (CancelAll c)
| RGone c : ctl_reachable n c → ctl_reachable n (base_over c).

(** ** The pane (pane.go) *)

Inductive mode := modePick | modeMatrix.
#[global] Instance mode_eq_dec : EqDecision mode.
Proof. solve_decision. Defined.
Record viewColors := MkColors { v_working : string; v_ok : string; v_err : string; v_muted : string; v_sel : string }.
Definition resolveColors (c : OpsConfig.Config) : viewColors :=
  let role r := default ""%string (OpsConfig.Theme c !! r) in
  MkColors (role "status_working") (role "status_active") (role "status_error") (role "status_quiet") (role "focus_border").

(** [ctrl]: the configuration the controller was built with, once. *)
Record flashPane := MkPane {
  base : OpsShell.BasePane; cfg : OpsConfig.Config; ctrl : option OpsConfig.Config; colors : viewColors; p_mode : mode;
  picks : list Target; cursor : Z; selected : gset TargetID;
  order : list TargetID; results : gmap TargetID DeviceResult; prog : gmap TargetID Flash.Progress;
  runToTarget : gmap string TargetID; batchDone : bool; dirty : bool }.
Definition New (b : OpsShell.BasePane) (c : OpsConfig.Config) : flashPane :=
  MkPane b c None (resolveColors c) modePick [] 0 ∅ [] ∅ ∅ ∅ false false.
Definition fkeys (p : flashPane) : OpsConfig.FlashKeys := OpsConfig.f_keys (OpsConfig.flash (cfg p)).

Inductive msg :=
| tickMsg
| ConfigChangedMsg (c : option OpsConfig.Config)
| FlashStartedMsg (ts : list Target)
| FlashPhaseMsg (id : TargetID) (ph : Phase)
| FlashRunStartedMsg (id : TargetID) (run : string) (numFiles : Z)
| RunOutputMsg (run line : string)
| RunExitMsg
| FlashDeviceDoneMsg (id : TargetID) (ok : bool) (c : FailClass) (hint : string) (tail : list string)
| FlashBatchDoneMsg (summary : gmap TargetID bool)
| KeyPressMsg (k : string).
(** What a step asks for. *)
Inductive out := Tick | StartBatch (ts : list Target) | CancelOne (id : TargetID) | CancelEvery | SpawnConsole (args : gmap string string).

Definition set_base (b : OpsShell.BasePane) (d : bool) (p : flashPane) : flashPane :=
  MkPane b (cfg p) (ctrl p) (colors p) (p_mode p) (picks p) (cursor p) (selected p) (order p) (results p) (prog p) (runToTarget p) (batchDone p) d.
Definition set_pick (l : list Target) (c : Z) (s : gset TargetID) (p : flashPane) : flashPane :=
  MkPane (base p) (cfg p) (ctrl p) (colors p) (p_mode p) l c s (order p) (results p) (prog p) (runToTarget p) (batchDone p) (dirty p).
Definition set_matrix (o : list TargetID) (r : gmap TargetID DeviceResult) (g : gmap TargetID Flash.Progress) (m : gmap string TargetID)
    (p : flashPane) : flashPane :=
  MkPane (base p) (cfg p) (ctrl p) (colors p) (p_mode p) (picks p) (cursor p) (selected p) o r g m (batchDone p) (dirty p).
Definition set_mode (md : mode) (b : bool) (p : flashPane) : flashPane :=
  MkPane (base p) (cfg p) (ctrl p) (colors p) md (picks p) (cursor p) (selected p) (order p) (results p) (prog p) (runToTarget p) b (dirty p).
Definition set_row (id : TargetID) (f : DeviceResult → DeviceResult) (p : flashPane) : flashPane :=
  set_matrix (order p) (alter f id (results p)) (prog p) (runToTarget p) p.
Definition markDirty (p : flashPane) : flashPane := if OpsShell.focused (base p) then p else set_base (base p) true p.
Definition ensureController (p : flashPane) : flashPane :=
  MkPane (base p) (cfg p) (match ctrl p with Some c => Some c | None => Some (cfg p) end) (colors p) (p_mode p) (picks p) (cursor p)
    (selected p) (order p) (results p) (prog p) (runToTarget p) (batchDone p) (dirty p).

Definition refreshPicks (snap : list OpsHosts.HostState) (p : flashPane) : flashPane :=
  let l := snap ≫= (λ hs, NewTarget <$> OpsHosts.Devices hs) in
  set_pick l (if zlen l <=? cursor p then Z.max 0 (zlen l - 1) else cursor p) (selected p) p.
Definition Init (snap : list OpsHosts.HostState) (p : flashPane) : flashPane * list out := (refreshPicks snap p, [Tick]).
Definition add_row (files : Z) (acc : list TargetID * gmap TargetID DeviceResult) (t : Target) : list TargetID * gmap TargetID DeviceResult :=
  match acc.2 !! ID t with
  | Some _ => acc
  | None => (acc.1 ++ [ID t], <[ID t := pending_row t files]> acc.2)
  end.
Definition onStarted (ts : list Target) (p : flashPane) : flashPane :=
  let '(o, r) := foldl (add_row (zlen (OpsConfig.b_artifacts (OpsConfig.build (cfg p))))) (order p, results p) ts in
  markDirty (set_mode modeMatrix false (set_matrix o r (prog p) (runToTarget p) p)).
Definition with_phase (ph : Phase) (r : DeviceResult) : DeviceResult :=
  MkResult (r_target r) ph (Pct r) (Verified r) (NumFiles r) (OK r) (Class r) (Hint r) (Tail r).
Definition with_counts (pct verified files : Z) (r : DeviceResult) : DeviceResult :=
  MkResult (r_target r) (r_phase r) pct verified files (OK r) (Class r) (Hint r) (Tail r).
Definition with_end (ok : bool) (c : FailClass) (hint : string) (tail : list string) (r : DeviceResult) : DeviceResult :=
  MkResult (r_target r) (if ok then PhaseDone else PhaseFailed) (Pct r) (Verified r) (NumFiles r) ok c hint tail.
Definition onRunStarted (id : TargetID) (run : string) (n : Z) (p : flashPane) : flashPane :=
  set_matrix (order p) (alter (with_counts 0 0 n) id (results p)) (<[id := Flash.NewProgress n]> (prog p)) (<[run := id]> (runToTarget p)) p.
Definition onOutput (run line : string) (p : flashPane) : flashPane :=
  match runToTarget p !! run with
  | None => p
  | Some id =>
      markDirty
        match prog p !! id with
        | None => p
        | Some g =>
            let g := Flash.Ingest g line in
            set_matrix (order p) (alter (λ r, with_counts (Flash.CurrentPct g) (Flash.Verified g) (NumFiles r) r) id (results p))
              (<[id := g]> (prog p)) (runToTarget p) p
        end
  end.

Definition clamp (v lo hi : Z) : Z := if v <? lo then lo else if hi <? v then hi else v.
Definition rowCount (p : flashPane) : Z := match p_mode p with modePick => zlen (picks p) | modeMatrix => zlen (order p) end.
Definition moveCursor (d : Z) (p : flashPane) : flashPane :=
  if rowCount p =? 0 then p else set_pick (picks p) (clamp (cursor p + d) 0 (rowCount p - 1)) (selected p) p.
Definition at_cursor {A} (l : list A) (p : flashPane) : option A :=
  if (cursor p <? 0) || (zlen l <=? cursor p) then None else l !! Z.to_nat (cursor p).
Definition toggleSelect (p : flashPane) : flashPane :=
  match at_cursor (picks p) p with
  | None => p
  | Some t => set_pick (picks p) (cursor p)
                (if decide (ID t ∈ selected p) then selected p ∖ {[ID t]} else {[ID t]} ∪ selected p) p
  end.
Definition selectedTargets (p : flashPane) : list Target :=
  match List.filter (λ t, bool_decide (ID t ∈ selected p)) (picks p) with
  | [] => match at_cursor (picks p) p with Some t => [t] | None => [] end
  | l => l
  end.
Definition startFlash (p : flashPane) : flashPane * list out :=
  match selectedTargets p with
  | [] => (p, [])
  | ts => let p := set_pick (picks p) 0 (selected p) (set_mode modeMatrix false (set_matrix [] ∅ ∅ ∅ (ensureController p))) in
          (p, [StartBatch ts])
  end.
Definition row_at (p : flashPane) : option DeviceResult := id ← at_cursor (order p) p; results p !! id.
Definition again (r : DeviceResult) : DeviceResult := MkResult (r_target r) PhasePending 0 0 (NumFiles r) false FailNone "" (Tail r).
Definition retryCursor (p : flashPane) : flashPane * list out :=
  match p_mode p, at_cursor (order p) p with
  | modeMatrix, Some id =>
      match results p !! id with
      | Some r =>
          match r_phase r with
          | PhaseFailed => (set_matrix (order p) (<[id := again r]> (results p)) (delete id (prog p)) (runToTarget p) (ensureController p),
                            [StartBatch [r_target r]])
          | _ => (p, [])
          end
      | None => (p, [])
      end
  | _, _ => (p, [])
  end.
Definition abort (p : flashPane) : list out :=
  match ctrl p with
  | None => []
  | Some _ =>
      match p_mode p, at_cursor (order p) p with
      | modeMatrix, Some id =>
          match results p !! id with
          | Some r => if Terminal (r_phase r) then [CancelEvery] else [CancelOne id]
          | None => [CancelEvery]
          end
      | _, _ => [CancelEvery]
      end
  end.
Definition console_args (t : Target) : gmap string string :=
  list_to_map [("host", Host t); ("port", Port t); ("serial", OpsHosts.Serial (Device t)); ("label", OpsHosts.Label (Device t))]%string.
Definition openConsole (p : flashPane) : list out :=
  match (match p_mode p with modePick => at_cursor (picks p) p | modeMatrix => r_target <$> row_at p end) with
  | Some t => if bool_decide (Host t = ""%string) || bool_decide (Port t = ""%string) then [] else [SpawnConsole (console_args t)]
  | None => []
  end.
Definition onKey (k : string) (p : flashPane) : flashPane * list out :=
  if bool_decide (k ∈ ["up"; "k"]%string) then (moveCursor (-1) p, [])
  else if bool_decide (k ∈ ["down"; "j"]%string) then (moveCursor 1 p, [])
  else if bool_decide (k ∈ ["space"; " "]%string) then (match p_mode p with modePick => toggleSelect p | modeMatrix => p end, [])
  else if bool_decide (k = OpsConfig.fk_run (fkeys p)) || bool_decide (k = "enter"%string) then
    match p_mode p with modePick => startFlash p | modeMatrix => (p, []) end
  else if bool_decide (k = OpsConfig.fk_abort (fkeys p)) then (p, abort p)
  else if bool_decide (k = OpsConfig.fk_retry (fkeys p)) then retryCursor p
  else if bool_decide (k = OpsConfig.fk_console (fkeys p)) then (p, openConsole p)
  else (p, []).
Definition Update (snap : list OpsHosts.HostState) (m : msg) (p : flashPane) : flashPane * list out :=
  match m with
  | tickMsg => (match p_mode p with modePick => refreshPicks snap p | modeMatrix => p end, [Tick])
  | ConfigChangedMsg (Some c) =>
      (MkPane (base p) c (ctrl p) (resolveColors c) (p_mode p) (picks p) (cursor p) (selected p) (order p) (results p) (prog p)
         (runToTarget p) (batchDone p) (dirty p), [])
  | ConfigChangedMsg None => (p, [])
  | FlashStartedMsg ts => (onStarted ts p, [])
  | FlashPhaseMsg id ph => (markDirty (set_row id (with_phase ph) p), [])
  | FlashRunStartedMsg id run n => (onRunStarted id run n p, [])
  | RunOutputMsg run line => (onOutput run line p, [])
  | RunExitMsg => (p, [])
  | FlashDeviceDoneMsg id ok c hint tail => (markDirty (set_row id (with_end ok c hint tail) p), [])
  | FlashBatchDoneMsg _ => (markDirty (set_mode (p_mode p) true p), [])
  | KeyPressMsg k => onKey k p
  end.
Definition SetFocused (f : bool) (p : flashPane) : flashPane := set_base (OpsShell.SetFocused f (base p)) (if f then false else dirty p) p.
Definition Close (p : flashPane) : list out := match ctrl p with Some _ => [CancelEvery] | None => [] end.
Definition phases (p : flashPane) : list Phase := omap (λ id, r_phase <$> results p !! id) (order p).
Definition is_failed (ph : Phase) : bool := match ph with PhaseFailed => true | _ => false end.
Definition status (p : flashPane) : OpsShell.PaneStatus :=
  match p_mode p with
  | modePick => OpsShell.StatusIdle
  | modeMatrix =>
      if existsb (λ ph, negb (Terminal ph)) (phases p) then OpsShell.StatusWorking
      else if existsb is_failed (phases p) then OpsShell.StatusError else OpsShell.StatusIdle
  end.
Definition done_count (p : flashPane) : Z := zlen (List.filter Terminal (phases p)).
Definition title (p : flashPane) : string :=
  match p_mode p with
  | modeMatrix => ("flash · " ++ format_int (done_count p) ++ "/" ++ format_int (zlen (order p)))%string
  | modePick => ("flash · " ++ format_int (zlen (picks p)) ++ " device(s)")%string
  end.
Definition Meta (p : flashPane) : OpsShell.PaneMeta :=
  OpsShell.MkMeta (OpsShell.id (base p)) (OpsShell.kind (base p)) (title p) (status p) (dirty p).

(** ** The view (view.go) *)

Section View.
Context `{OpsShell.Lipgloss} `{OpsBuildPane.ErrorBox}.
#[local] Abbreviation nl := OpsShell.newline.
Definition truncate (s : string) (w : Z) : string :=
  if (w <=? 1) || (OpsShell.cells s <=? w) then s
  else if w - 1 <? zlen (bytes_of_string s) then (string_of_bytes (take (Z.to_nat (w - 1)) (bytes_of_string s)) ++ "…")%string
  else s.
Definition keyHint (k : string) : string := if bool_decide (k = ""%string) then "—"%string else k.
Definition mapLabel (t : Target) : string :=
  if negb (bool_decide (OpsHosts.Serial (Device t) = ""%string)) then ("mapped:" ++ OpsHosts.Serial (Device t))%string
  else if negb (bool_decide (OpsHosts.Label (Device t) = ""%string)) then ("mapped:" ++ OpsHosts.Label (Device t))%string
  else "unmapped"%string.
Definition glyphFor (p : flashPane) (r : DeviceResult) : string * string :=
  match r_phase r with
  | PhaseDone => ("✓"%string, v_ok (colors p)) | PhaseFailed => ("✗"%string, v_err (colors p)) | _ => ("◐"%string, v_working (colors p))
  end.
Definition mark_at (i : Z) (p : flashPane) : string := if i =? cursor p then "▸ "%string else "  "%string.
Definition pick_line (i : Z) (t : Target) (p : flashPane) : string :=
  let mark := if decide (ID t ∈ selected p) then "[x]"%string else "[ ]"%string in
  let line := (mark_at i p ++ mark ++ " " ++ Host t ++ " · " ++ Port t ++ " " ++ mapLabel t)%string in
  if i =? cursor p then OpsShell.paint (v_sel (colors p)) false line else line.
Fixpoint pick_rows (w i : Z) (l : list Target) (p : flashPane) : string :=
  match l with [] => ""%string | t :: l => (truncate (pick_line i t p) w ++ nl ++ pick_rows w (i + 1) l p)%string end.
Definition renderPicker (w : Z) (p : flashPane) : string :=
  let head := ("flash — select target PicPak(s) to write" ++ nl ++ "(present = USB-attached; NVS @ preserve offset is never erased)" ++ nl ++ nl)%string in
  if bool_decide (picks p = []) then (head ++ "No VID-gated PicPak present on any host." ++ nl)%string
  else (head ++ pick_rows w 0 (picks p) p ++ nl ++
        OpsShell.paint (v_muted (colors p)) false
          (keyHint (OpsConfig.fk_run (fkeys p)) ++ " flash selected · space select · " ++ keyHint (OpsConfig.fk_console (fkeys p)) ++ " console"))%string.
Definition matrix_line (i : Z) (r : DeviceResult) (p : flashPane) : string :=
  let '(glyph, col) := glyphFor p r in
  let pct := match r_phase r with PhaseFlashing => (" " ++ format_int (Pct r) ++ "%")%string | _ => ""%string end in
  let st := match r_phase r with PhaseFailed => ("failed:" ++ FailClass_text (Class r))%string | ph => Phase_text ph end in
  (mark_at i p ++ OpsShell.paint col false glyph ++ " " ++ Host (r_target r) ++ " · " ++ Port (r_target r) ++ " · " ++ st ++ " · " ++
   format_int (Verified r) ++ "/" ++ format_int (NumFiles r) ++ pct)%string.
Fixpoint matrix_rows (w i : Z) (l : list TargetID) (p : flashPane) : string :=
  match l with
  | [] => ""%string
  | id :: l =>
      match results p !! id with
      | None => matrix_rows w (i + 1) l p
      | Some r => (truncate (matrix_line i r p) w ++ nl ++ matrix_rows w (i + 1) l p)%string
      end
  end.
Definition renderFailureBox (r : DeviceResult) (w : Z) (p : flashPane) : string :=
  let body := if bool_decide (Tail r = []) then Hint r else (Hint r ++ nl ++ OpsKeys.Join (Tail r) nl)%string in
  let body := if bool_decide (GoText.TrimSpace body = ""%string) then "(no output captured)"%string else body in
  OpsBuildPane.error_box (v_err (colors p)) (if w - 2 <? 10 then 10 else w - 2)
    (OpsShell.paint "" true (Port (r_target r) ++ " failed (" ++ FailClass_text (Class r) ++ ")") ++ nl ++ body).
Definition renderMatrix (w : Z) (p : flashPane) : string :=
  ("flash — per-device result (" ++ format_int (done_count p) ++ "/" ++ format_int (zlen (order p)) ++ " done)" ++ nl ++ nl ++
   matrix_rows w 0 (order p) p ++
   match row_at p with
   | Some r => if is_failed (r_phase r) then nl ++ renderFailureBox r w p else ""
   | None => ""
   end ++ nl ++
   OpsShell.paint (v_muted (colors p)) false
     (keyHint (OpsConfig.fk_retry (fkeys p)) ++ " retry · " ++ keyHint (OpsConfig.fk_abort (fkeys p)) ++ " abort · " ++
      keyHint (OpsConfig.fk_console (fkeys p)) ++ " console"))%string.
Definition View (p : flashPane) : string :=
  let w := if OpsShell.width (base p) <=? 0 then 80 else OpsShell.width (base p) in
  match p_mode p with modePick => renderPicker w p | modeMatrix => renderMatrix w p end.
End View.
End OpsFlashPane.

Module OpsFlashPaneLaws.
Import OpsFlashPane.
Import Flash(PhasePending, PhaseDone, PhaseFailed, Terminal, FailNone).

(** ** What a sequence sends *)

(** The messages of a device on its way. *)
Definition underway (id : TargetID) (m : Flash.msg) : Prop :=
  match m with
  | Flash.FlashPhaseMsg i ph => i = id ∧ Terminal ph = false
  | Flash.FlashRunStartedMsg i _ => i = id
  | Flash.FlashDeviceDoneMsg _ _ _ _ _ => False
  end.
Definition sent (e : Flash.effect) : list Flash.msg := match e with Flash.ESend m => [m] | _ => [] end.
Definition sends (tr : list Flash.effect) : list Flash.msg := tr ≫= sent.
Definition quiet (id : TargetID) (e : Flash.effect) : Prop := Forall (underway id) (sent e).

Lemma quiet_sends id l : Forall (quiet id) l → Forall (underway id) (sends l).
Proof. induction 1 as [|e l He _ IH]; [constructor|]. unfold sends. cbn. by apply Forall_app. Qed.
Lemma quiet_shell t sl : Forall (FlashLaws.shell_of (Flash.Host t)) sl → Forall (quiet (Flash.ID t)) sl.
Proof. intros Hs. eapply Forall_impl; [exact Hs|]. intros [] He; try done; constructor. Qed.
Lemma quiet_released t : Forall (quiet (Flash.ID t)) (FlashLaws.released t).
Proof. unfold FlashLaws.released. case_bool_decide; repeat constructor. Qed.
Lemma quiet_body w n t argv nf tr ok body : FlashLaws.attempt_body w n t argv nf tr ok body → Forall (quiet (Flash.ID t)) body.
Proof. intros [Hk _ _]. eapply Forall_impl; [exact Hk|]. intros e [-> |[-> | ->]]; repeat constructor. Qed.

Section Sequence.
Context (w : Flash.world) (fc : Flash.FlashCfg) (artDir : string) (artifacts : list Flash.BuildArtifact)
  (stagerFor : Flash.Target → result string Flash.Stager).
(** Phases and starts of runs, none of them final, and then the one result. *)
Lemma flashOne_sends t : ∃ ok tr body c hint tail, Flash.flashOne w fc artDir artifacts stagerFor t [] = (ok, tr) ∧
  sends tr = body ++ [Flash.FlashDeviceDoneMsg (Flash.ID t) ok c hint tail] ∧ Forall (underway (Flash.ID t)) body.
Proof.
  destruct (FlashLaws.flashOne_sequence w fc artDir artifacts stagerFor t) as (ok & tr & Hrun & Hs).
  assert (He : ∃ pre c hint tail, tr = pre ++ [Flash.ESend (Flash.FlashDeviceDoneMsg (Flash.ID t) ok c hint tail)] ∧ Forall (quiet (Flash.ID t)) pre).
  { clear Hrun. destruct Hs as [c hint|ws st sl e Hv Hsl|ws st sl e Hv Hsl|ws st sl ok l Hv Hsl Hg (body & c & hint & tail & -> & Hb)].
    - exists [FlashLaws.validating t], c, hint, []. split; [done|repeat constructor].
    - exists (FlashLaws.validating t :: FlashLaws.staging t :: sl), Flash.FailStage, e, []. split; [done|].
      do 2 (constructor; [repeat constructor|]). by apply quiet_shell.
    - exists (FlashLaws.validating t :: FlashLaws.staging t :: sl ++ [FlashLaws.confirming t; Flash.EConfirm (Flash.Device t)]), Flash.FailGate, e, [].
      split; [cbn; by rewrite <- app_assoc|]. do 2 (constructor; [repeat constructor|]).
      apply Forall_app. split; [by apply quiet_shell|repeat constructor].
    - exists (FlashLaws.validating t :: FlashLaws.staging t :: sl ++ [FlashLaws.confirming t; Flash.EConfirm (Flash.Device t)] ++ FlashLaws.released t ++ body), c, hint, tail.
      split; [by cbn; repeat (rewrite <- app_assoc; cbn)|]. do 2 (constructor; [repeat constructor|]).
      apply Forall_app. split; [by apply quiet_shell|]. do 2 (constructor; [repeat constructor|]).
      apply Forall_app. split; [apply quiet_released|by eapply quiet_body]. }
  destruct He as (pre & c & hint & tail & -> & Hp). exists ok, (pre ++ [Flash.ESend (Flash.FlashDeviceDoneMsg (Flash.ID t) ok c hint tail)]), (sends pre), c, hint, tail.
  split; [done|]. split; [unfold sends; by rewrite bind_app|by apply quiet_sends].
Qed.
End Sequence.

(** ** The row of a device *)

(** A message of the controller as the pane gets it: a run has some id there. *)
Definition carries (m : msg) (fm : Flash.msg) : Prop :=
  match fm with
  | Flash.FlashPhaseMsg i ph => m = FlashPhaseMsg i ph
  | Flash.FlashRunStartedMsg i n => ∃ run, m = FlashRunStartedMsg i run n
  | Flash.FlashDeviceDoneMsg i ok c hint tail => m = FlashDeviceDoneMsg i ok c hint tail
  end.
(** The messages about a device; every other message is anybody's. *)
Definition about (id : TargetID) (m : msg) : bool :=
  match m with
  | FlashPhaseMsg i _ | FlashRunStartedMsg i _ _ | FlashDeviceDoneMsg i _ _ _ _ => bool_decide (i = id)
  | _ => false
  end.
Abbreviation event := (list OpsHosts.HostState * msg)%type.
Definition step (p : flashPane) (e : event) : flashPane := (Update e.1 e.2 p).1.
Definition run (l : list event) (p : flashPane) : flashPane := foldl step p l.
Definition told (id : TargetID) (l : list event) : list msg := List.filter (about id) (l.*2).

(** The row of [id] is of device [t] and its device is not at its end. *)
Record working (id : TargetID) (t : Target) (p : flashPane) : Prop := {
  wk_mode : p_mode p = modeMatrix; wk_order : id ∈ order p;
  wk_row : ∃ r, results p !! id = Some r ∧ r_target r = t ∧ Terminal (r_phase r) = false }.

Lemma working_status id t p : working id t p → status p = OpsShell.StatusWorking.
Proof.
  intros [Hm Ho (r & Hr & _ & Ht)]. unfold status. rewrite Hm.
  assert (Hx : existsb (λ ph, negb (Terminal ph)) (phases p) = true); [|by rewrite Hx].
  apply existsb_exists. exists (r_phase r). rewrite Ht. split; [|done]. apply list_elem_of_In, list_elem_of_omap.
  exists id. by rewrite Hr.
Qed.
(** Only the mode, the order and the row matter. *)
Lemma working_ext id t p q : working id t p → p_mode q = p_mode p → (id ∈ order p → id ∈ order q) → results q !! id = results p !! id → working id t q.
Proof. intros [Hm Ho Hr] Hmq Hoq Hrq. split; [by rewrite Hmq|auto|by rewrite Hrq]. Qed.
Lemma markDirty_fields p : p_mode (markDirty p) = p_mode p ∧ order (markDirty p) = order p ∧ results (markDirty p) = results p.
Proof. unfold markDirty. by destruct (OpsShell.focused (base p)). Qed.
Lemma working_dirty id t p : working id t p → working id t (markDirty p).
Proof. intros Hp. destruct (markDirty_fields p) as (Hm & Ho & Hr). apply (working_ext id t p); [done|done|by rewrite Ho|by rewrite Hr]. Qed.

(** A change of rows that leaves the device's target and end alone. *)
Lemma working_row id t i f g m p : (∀ r, r_target (f r) = r_target r) → (id = i → ∀ r, Terminal (r_phase r) = false → Terminal (r_phase (f r)) = false) →
  working id t p → working id t (set_matrix (order p) (alter f i (results p)) g m p).
Proof.
  intros Hf Hp [Hm Ho (r & Hr & Ht & Hn)]. split; [done|done|]. cbn. destruct (decide (id = i)) as [<-|Hne].
  - exists (f r). rewrite lookup_alter_eq, Hr. cbn. rewrite Hf. auto.
  - exists r. by rewrite lookup_alter_ne.
Qed.
Lemma add_rows n ts o r : let '(o', r') := foldl (add_row n) (o, r) ts in
  (∀ id, id ∈ o → id ∈ o') ∧ (∀ id, is_Some (r !! id) → r' !! id = r !! id) ∧
  (∀ t, t ∈ ts → r !! ID t = None → ID t ∈ o' ∧ ∃ t', t' ∈ ts ∧ ID t' = ID t ∧ r' !! ID t = Some (pending_row t' n)).
Proof.
  revert o r. induction ts as [|t ts IH]; intros o r.
  { split_and!; [done|done|]. intros t Ht. by apply not_elem_of_nil in Ht. }
  cbn [foldl]. specialize (IH (add_row n (o, r) t).1 (add_row n (o, r) t).2). rewrite <- surjective_pairing in IH.
  destruct (foldl (add_row n) (add_row n (o, r) t) ts) as [o' r']. destruct IH as (I1 & I2 & I3). unfold add_row in I1, I2, I3. cbn in I1, I2, I3.
  destruct (r !! ID t) as [x|] eqn:Hx; cbn in I1, I2, I3.
  - split_and!; [done|done|]. intros u [-> |Hu]%elem_of_cons Hn; [congruence|].
    destruct (I3 u Hu Hn) as (? & t' & ? & ? & ?). split; [done|]. exists t'. split; [by right|done].
  - split_and!.
    + intros i Hi. apply I1. apply elem_of_app. by left.
    + intros i [y Hy]. assert (i ≠ ID t) by congruence. rewrite I2, lookup_insert_ne by (rewrite ?lookup_insert_ne; eauto). done.
    + intros u Hu Hn. destruct (decide (ID u = ID t)) as [He|Hne].
      * rewrite He. split; [apply I1, elem_of_app; right; by left|]. exists t. split; [by left|]. split; [done|].
        rewrite I2 by (rewrite lookup_insert_eq; eauto). by rewrite lookup_insert_eq.
      * apply elem_of_cons in Hu as [-> |Hu]; [done|]. destruct (I3 u Hu) as (? & t' & ? & ? & ?); [by rewrite lookup_insert_ne|].
        split; [done|]. exists t'. split; [by right|done].
Qed.
Lemma onStarted_fields ts p : let '(o, r) := foldl (add_row (zlen (OpsConfig.b_artifacts (OpsConfig.build (cfg p))))) (order p, results p) ts in
  p_mode (onStarted ts p) = modeMatrix ∧ order (onStarted ts p) = o ∧ results (onStarted ts p) = r.
Proof.
  unfold onStarted. destruct (foldl _ _ _) as [o r].
  destruct (markDirty_fields (set_mode modeMatrix false (set_matrix o r (prog p) (runToTarget p) p))) as (-> & -> & ->). done.
Qed.
Lemma working_started id t ts p : working id t p → working id t (onStarted ts p).
Proof.
  intros Hp. pose proof (onStarted_fields ts p) as Hf. pose proof (add_rows (zlen (OpsConfig.b_artifacts (OpsConfig.build (cfg p)))) ts (order p) (results p)) as Ha.
  destruct (foldl _ _ _) as [o r]. destruct Hf as (Hm & Ho & Hr), Ha as (H1 & H2 & _). destruct Hp as [Wm Wo (row & Hw & Hrest)].
  split; [done|rewrite Ho; auto|]. exists row. rewrite Hr, H2; [done|eauto].
Qed.
Lemma working_moved id t d p : working id t p → working id t (moveCursor d p).
Proof. intros Hp. unfold moveCursor. destruct (_ =? _); [done|]. by apply (working_ext id t p). Qed.
(** A device on its way is not retried. *)
Lemma working_retried id t p : working id t p → working id t (retryCursor p).1.
Proof.
  intros Hp. unfold retryCursor. destruct (p_mode p) eqn:Hm; [done|]. destruct (at_cursor (order p) p) as [i|]; [|done].
  destruct (results p !! i) as [r|] eqn:Hi; [|done]. destruct (r_phase r) eqn:Hph; try done. cbn.
  destruct Hp as [_ Ho (row & Hw & Ht & Hn)]. split; [done|done|]. exists row. cbn. rewrite lookup_insert_ne; [done|].
  intros ->. rewrite Hw in Hi. injection Hi as ->. by rewrite Hph in Hn.
Qed.
Lemma working_key id t k p : working id t p → working id t (onKey k p).1.
Proof.
  intros Hp. unfold onKey. rewrite (wk_mode _ _ _ Hp).
  repeat (case_match; [by first [apply working_moved|apply working_retried|apply Hp]|]). done.
Qed.
Lemma working_output id t r l p : working id t p → working id t (onOutput r l p).
Proof.
  intros Hp. unfold onOutput. destruct (runToTarget p !! r) as [i|]; [|done]. apply working_dirty. destruct (prog p !! i) as [g|]; [|done].
  by apply working_row.
Qed.

(** Everybody's messages, and the device's own before its end, leave it working. *)
Lemma working_step id t p snap m : working id t p → about id m = false ∨ (∃ fm, carries m fm ∧ underway id fm) → working id t (step p (snap, m)).
Proof.
  intros Hp Hm. unfold step. cbn [fst snd]. destruct m; cbn [Update fst].
  - by rewrite (wk_mode _ _ _ Hp).
  - destruct c; [by apply (working_ext id t p)|done].
  - by apply working_started.
  - apply working_dirty, working_row; [done| |done]. intros <- r _. destruct Hm as [Hm|(fm & Hc & Hu)].
    + cbn in Hm. by rewrite bool_decide_true in Hm.
    + destruct fm as [i q|i n|i o c h l]; [|by destruct Hc|done]. injection Hc as -> ->. apply Hu.
  - by apply working_row.
  - by apply working_output.
  - done.
  - apply working_dirty, working_row; [done| |done]. intros <- r _. destruct Hm as [Hm|(fm & Hc & Hu)].
    + cbn in Hm. by rewrite bool_decide_true in Hm.
    + destruct fm; [done|by destruct Hc|done].
  - apply working_dirty. apply (working_ext id t p); try done.
  - by apply working_key.
Qed.

(** ** What the matrix tells *)

Definition ordinary (id : TargetID) (e : event) : Prop := about id e.2 = false ∨ ∃ fm, carries e.2 fm ∧ underway id fm.
Lemma working_run id t l p : working id t p → Forall (ordinary id) l → working id t (run l p).
Proof.
  intros Hp Hl. revert p Hp. induction Hl as [|[sn m] l Hm _ IH]; intros p Hp; [done|]. cbn. by apply IH, working_step.
Qed.
(** The last message told, and those before it. *)
Lemma told_split id d body l : Forall2 carries (told id l) (body ++ [d]) → Forall (underway id) body →
  ∃ pre e post, l = pre ++ e :: post ∧ carries e.2 d ∧ Forall (ordinary id) pre.
Proof.
  revert body. induction l as [|e l IH]; intros body Hl Hb.
  { inversion Hl as [Hx|]. by destruct body. }
  unfold told in Hl. cbn in Hl. destruct (about id e.2) eqn:Ha.
  - destruct body as [|fm body]; cbn in Hl; apply Forall2_cons in Hl as [Hc Hl].
    + by exists [], e, l.
    + apply Forall_cons in Hb as [Hu Hb]. destruct (IH body Hl Hb) as (pre & e' & post & -> & He & Hpre).
      exists (e :: pre), e', post. split; [done|]. split; [done|]. constructor; [right; by exists fm|done].
  - destruct (IH body Hl Hb) as (pre & e' & post & -> & He & Hpre). exists (e :: pre), e', post.
    split; [done|]. split; [done|]. constructor; [by left|done].
Qed.
Lemma row_ended id t sn ok c hint tail p : working id t p →
  ∃ r, results (step p (sn, FlashDeviceDoneMsg id ok c hint tail)) !! id = Some r ∧ r_target r = t ∧
    r_phase r = (if ok then PhaseDone else PhaseFailed) ∧ OK r = ok ∧ Class r = c ∧ Hint r = hint ∧ Tail r = tail.
Proof.
  intros [_ _ (r & Hr & Ht & _)]. exists (with_end ok c hint tail r). split; [|by split_and!].
  unfold step. cbn [fst snd Update]. destruct (markDirty_fields (set_row id (with_end ok c hint tail) p)) as (_ & _ & ->).
  cbn. by rewrite lookup_alter_eq, Hr.
Qed.

(** C33. The matrix tells what the controller found. While a device's sequence runs, a
    pane that hears the controller's messages about the device, in order, among any
    messages of other devices, output, ticks, reloads and keys of the operator,
    reports itself as working until the device's result arrives, and then the
    device's row holds exactly the verdict, fail class, hint and output tail the
    controller returned, for the very target it flashed. *)
Theorem matrix_tells w fc artDir artifacts stagerFor (t : Target) p l : working (ID t) t p →
  let '(ok, tr) := Flash.flashOne w fc artDir artifacts stagerFor (core t) [] in
  Forall2 carries (told (ID t) l) (sends tr) →
  ∃ pre sn c hint tail post, l = pre ++ (sn, FlashDeviceDoneMsg (ID t) ok c hint tail) :: post ∧
    last (sends tr) = Some (Flash.FlashDeviceDoneMsg (ID t) ok c hint tail) ∧
    (∀ a b, pre = a ++ b → status (run a p) = OpsShell.StatusWorking) ∧
    ∃ r, results (run (pre ++ [(sn, FlashDeviceDoneMsg (ID t) ok c hint tail)]) p) !! ID t = Some r ∧ r_target r = t ∧
      r_phase r = (if ok then PhaseDone else PhaseFailed) ∧ OK r = ok ∧ Class r = c ∧ Hint r = hint ∧ Tail r = tail.
Proof.
  intros Hp. destruct (flashOne_sends w fc artDir artifacts stagerFor (core t)) as (ok & tr & body & c & hint & tail & -> & Hs & Hb).
  rewrite Hs. intros Hl. destruct (told_split _ _ _ _ Hl Hb) as (pre & [sn m] & post & -> & Hm & Hpre). cbn in Hm. subst m.
  exists pre, sn, c, hint, tail, post. split; [done|]. split; [by rewrite last_snoc|]. split.
  - intros a b ->. apply Forall_app in Hpre as [Ha _]. by eapply working_status, working_run.
  - unfold run. rewrite foldl_app. by apply row_ended, working_run.
Qed.

(** A batch's devices have such rows once the controller's first message is there. *)
Theorem batch_rows p q ts t : startFlash p = (q, [StartBatch ts]) → t ∈ ts →
  ∃ t', t' ∈ ts ∧ ID t' = ID t ∧ working (ID t) t' (onStarted ts q).
Proof.
  intros Hq Ht. unfold startFlash in Hq. destruct (selectedTargets p) as [|u us] eqn:Hsel; [done|]. injection Hq as <- <-.
  set (q := set_pick _ _ _ _). pose proof (onStarted_fields (u :: us) q) as Hf.
  pose proof (add_rows (zlen (OpsConfig.b_artifacts (OpsConfig.build (cfg q)))) (u :: us) (order q) (results q)) as Ha.
  destruct (foldl _ _ _) as [o r]. destruct Hf as (Hm & Ho & Hr), Ha as (_ & _ & H3).
  destruct (H3 t Ht) as (Hi & t' & Ht' & He & Hrow); [done|]. exists t'. split; [done|]. split; [done|].
  split; [done|by rewrite Ho|]. rewrite Hr, Hrow. eexists. split; [reflexivity|]. done.
Qed.
(** And a failed device has one as soon as it is retried. *)
Theorem retry_row p q t r : retryCursor p = (q, [StartBatch [t]]) → row_at p = Some r → r_target r = t ∧ ∃ id, id ∈ order p ∧ working id t q.
Proof.
  unfold retryCursor, row_at. destruct (p_mode p) eqn:Hm; [done|]. destruct (at_cursor (order p) p) as [id|] eqn:Hc; [|done]. cbn.
  destruct (results p !! id) as [r'|] eqn:Hr; [|done]. intros Hq [= ->]. destruct (r_phase r); try done. injection Hq as <- <-.
  assert (Ho : id ∈ order p). { unfold at_cursor in Hc. destruct (_ || _); [done|]. by eapply list_elem_of_lookup_2. }
  split; [done|]. exists id. split; [done|]. split; [done|done|]. cbn. rewrite lookup_insert_eq. eexists. split; [reflexivity|]. done.
Qed.

(** ** What is left open *)

(** Between the key that starts a batch and the controller's first message the pane
    reports itself idle, although the controller has the devices already. *)
Theorem start_looks_idle p q ts : startFlash p = (q, [StartBatch ts]) → status q = OpsShell.StatusIdle ∧ p_mode q = modeMatrix.
Proof. unfold startFlash. destruct (selectedTargets p); [done|]. by intros [= <- _]. Qed.

(** Nothing brings the picker back: a pane that has started a batch starts no other
    one, only its own failed devices again. *)
Lemma dirty_mode p : p_mode (markDirty p) = p_mode p.
Proof. by destruct (markDirty_fields p). Qed.
Lemma retry_asks p ts : StartBatch ts ∈ (retryCursor p).2 → ∃ r, row_at p = Some r ∧ r_phase r = PhaseFailed ∧ ts = [r_target r].
Proof.
  unfold retryCursor, row_at. destruct (p_mode p); [intros Hx; by apply not_elem_of_nil in Hx|].
  destruct (at_cursor (order p) p) as [id|]; [|intros Hx; by apply not_elem_of_nil in Hx]. cbn.
  destruct (results p !! id) as [r|]; [|intros Hx; by apply not_elem_of_nil in Hx].
  destruct (r_phase r) eqn:Hr; intros Hx; try by apply not_elem_of_nil in Hx.
  apply list_elem_of_singleton in Hx as [= ->]. by exists r.
Qed.
Lemma abort_asks p ts : StartBatch ts ∉ abort p.
Proof. unfold abort. repeat case_match; rewrite ?elem_of_cons, ?elem_of_nil; naive_solver. Qed.
Lemma console_asks p ts : StartBatch ts ∉ openConsole p.
Proof. unfold openConsole. repeat case_match; rewrite ?elem_of_cons, ?elem_of_nil; naive_solver. Qed.
Lemma key_in_matrix p k : p_mode p = modeMatrix → p_mode (onKey k p).1 = modeMatrix ∧
  ∀ ts, StartBatch ts ∈ (onKey k p).2 → ∃ r, row_at p = Some r ∧ r_phase r = PhaseFailed ∧ ts = [r_target r].
Proof.
  intros Hm. unfold onKey. rewrite Hm.
  assert (Hmove : ∀ d, p_mode (moveCursor d p) = modeMatrix). { intros d. unfold moveCursor. by destruct (_ =? _). }
  assert (Hretry : p_mode (retryCursor p).1 = modeMatrix). { unfold retryCursor. repeat case_match; done. }
  pose proof (abort_asks p) as Ha. pose proof (console_asks p) as Hc. pose proof (retry_asks p) as Hr.
  repeat case_match; cbn; (split; [by auto|]); intros ts Hts; first [by apply not_elem_of_nil in Hts|by apply Ha in Hts|by apply Hc in Hts|by apply Hr].
Qed.
Theorem matrix_is_final p sn m : p_mode p = modeMatrix → p_mode (step p (sn, m)) = modeMatrix ∧
  ∀ ts, StartBatch ts ∈ (Update sn m p).2 → ∃ r, row_at p = Some r ∧ r_phase r = PhaseFailed ∧ ts = [r_target r].
Proof.
  intros Hm. unfold step. cbn [fst snd]. destruct m; cbn [Update fst snd]; try by apply key_in_matrix.
  all: split; [|intros ? Hts; repeat case_match; rewrite ?elem_of_cons, ?elem_of_nil in Hts; naive_solver].
  - by rewrite Hm.
  - by destruct c.
  - pose proof (onStarted_fields ts p) as Hf. destruct (foldl _ _ _). apply Hf.
  - by rewrite dirty_mode.
  - done.
  - unfold onOutput. repeat case_match; rewrite ?dirty_mode; done.
  - done.
  - by rewrite dirty_mode.
  - by rewrite dirty_mode.
Qed.

(** ** Cancelling *)

(** Only a device with a slot has a context to cancel. *)
Lemma in_flight n c id : ctl_reachable n c → is_Some (cancels c !! id) → ∃ t, (t, Flash.Slotted) ∈ concat (batches c) ∧ Flash.ID t = id.
Proof.
  induction 1 as [|c c' _ IH Hs|c ts _ IH|c i _ IH|c _ IH|c _ IH].
  - by intros [? ?].
  - intros Hid. destruct Hs as [c pb pre t post qb Hb _|c pb pre t post qb Hb _|c pb pre t post qb ok Hb|c pb pre t post qb ok Hb|c pb b qb Hb Hf]; cbn in *.
    + destruct (IH Hid) as (u & Hu & Hi). exists u. split; [|done]. rewrite Hb in Hu. rewrite ?concat_app in *. cbn in *. set_solver.
    + destruct (decide (id = Flash.ID t)) as [-> |Hne].
      * exists t. split; [|done]. rewrite concat_app. cbn. set_solver.
      * rewrite lookup_insert_ne in Hid by done. destruct (IH Hid) as (u & Hu & Hi). exists u. split; [|done].
        rewrite Hb in Hu. rewrite ?concat_app in *. cbn in *. set_solver.
    + destruct (decide (id = Flash.ID t)) as [-> |Hne]; [rewrite lookup_delete_eq in Hid; by destruct Hid|].
      rewrite lookup_delete_ne in Hid by done. destruct (IH Hid) as (u & Hu & Hi). exists u. split; [|done].
      rewrite Hb in Hu. rewrite ?concat_app in *. cbn in *.
      assert ((u, Flash.Slotted) ≠ (t, Flash.Slotted)) by congruence. set_solver.
    + destruct (IH Hid) as (u & Hu & Hi). exists u. split; [|done]. rewrite Hb in Hu. rewrite ?concat_app in *. cbn in *. set_solver.
    + destruct (IH Hid) as (u & Hu & Hi). exists u. split; [|done]. rewrite Hb, !concat_app in Hu. rewrite concat_app. cbn in Hu.
      apply elem_of_app in Hu as [Hu|[Hu|Hu]%elem_of_app]; [set_solver| |set_solver]. destruct (Hf _ Hu) as [? Hx]. done.
  - intros Hid. destruct (IH Hid) as (u & Hu & Hi). exists u. split; [|done]. cbn. rewrite concat_app. set_solver.
  - unfold Cancel. destruct (cancels c !! i) eqn:Hc; [|done]. cbn. intros Hid. apply IH.
    destruct (decide (id = i)) as [-> |]; [eauto|by rewrite lookup_insert_ne in Hid].
  - cbn. rewrite lookup_fmap, fmap_is_Some. done.
  - cbn. rewrite lookup_fmap, fmap_is_Some. done.
Qed.

Lemma Cancel_none id c : cancels c !! id = None → Cancel id c = c.
Proof. intros Hc. unfold Cancel. by rewrite Hc. Qed.
(** A device that still waits, for its host or for a slot, is not cancelled: neither
    abort changes anything for it, and the context it gets with its slot is a new one,
    over only when the pane itself is. *)
Theorem abort_misses_queued n c pb pre t post qb : ctl_reachable n c →
  batches c = pb ++ (pre ++ (t, Flash.Locked) :: post) :: qb → (Flash.slots (concat (batches c)) < n)%nat →
  (∀ u, (u, Flash.Slotted) ∈ concat (batches c) → Flash.ID u ≠ Flash.ID t) →
  Cancel (Flash.ID t) c = c ∧
  ∀ d, d = Cancel (Flash.ID t) c ∨ d = CancelAll c → ∃ d', ctl_step n d d' ∧
    (t, Flash.Slotted) ∈ concat (batches d') ∧ cancels d' !! Flash.ID t = Some (gone c).
Proof.
  intros Hr Hb Hn Hu. assert (Hc : cancels c !! Flash.ID t = None).
  { destruct (cancels c !! Flash.ID t) eqn:Hx; [|done]. destruct (in_flight n c (Flash.ID t) Hr) as (u & Hi & He); [eauto|]. by destruct (Hu u Hi). }
  assert (Hone : Cancel (Flash.ID t) c = c) by (by apply Cancel_none). split; [done|]. rewrite Hone.
  intros d Hd. eexists. split.
  - apply (CSlot n d pb pre t post qb); by destruct Hd as [-> | ->].
  - cbn. rewrite lookup_insert_eq, concat_app. split; [cbn; set_solver|by destruct Hd as [-> | ->]].
Qed.

(** ** Samples *)

Definition ex_target : Target := NewTarget (OpsHosts.MkDevice "bench" "/dev/ttyACM0" "usb-Espressif" "" "S1" "shelf" "" true).
Definition ex_host : OpsHosts.HostState := OpsHosts.MkState "bench" OpsHosts.StateUp [Device ex_target] None None None 0.
Definition ex_pane : flashPane :=
  (Update [ex_host] (FlashStartedMsg [ex_target])
    (Update [ex_host] (KeyPressMsg "enter") (Init [ex_host] (New (OpsShell.NewBase "flash-1" "flash") OpsConfig.defaults)).1).1).1.
Definition deliver (fm : Flash.msg) : event :=
  ([ex_host], match fm with
   | Flash.FlashPhaseMsg i ph => FlashPhaseMsg i ph
   | Flash.FlashRunStartedMsg i n => FlashRunStartedMsg i "run-1" n
   | Flash.FlashDeviceDoneMsg i ok c hint tail => FlashDeviceDoneMsg i ok c hint tail
   end).
Definition ex_events : list event :=
  let l := deliver <$> sends (Flash.flashOne FlashLaws.ex_world (FlashLaws.ex_cfg []) "/repo/build" FlashLaws.ex_artifacts FlashLaws.ex_stager (core ex_target) []).2 in
  take 4 l ++ [([ex_host], KeyPressMsg "r"); ([ex_host], tickMsg); ([ex_host], RunOutputMsg "run-1" "Hash of data verified.")] ++ drop 4 l.

Lemma deliver_carries l : Forall2 carries ((λ fm, (deliver fm).2) <$> l) l.
Proof. apply Forall2_fmap_l, Forall_Forall2_diag, Forall_true. intros []; cbn; eauto. Qed.
Lemma matrix_tells_witness : ∃ pre e post r, ex_events = pre ++ e :: post ∧ status (run pre ex_pane) = OpsShell.StatusWorking ∧
  results (run (pre ++ [e]) ex_pane) !! ID ex_target = Some r ∧ r_phase r = PhaseDone ∧ OK r = true.
Proof.
  assert (Hw : working (ID ex_target) ex_target ex_pane).
  { split; [by vm_compute|by vm_compute; left|]. eexists. split; [vm_compute; reflexivity|]. split; reflexivity. }
  pose proof (matrix_tells FlashLaws.ex_world (FlashLaws.ex_cfg []) "/repo/build" FlashLaws.ex_artifacts FlashLaws.ex_stager ex_target ex_pane ex_events Hw) as Ht.
  let f := constr:(Flash.flashOne FlashLaws.ex_world (FlashLaws.ex_cfg []) "/repo/build" FlashLaws.ex_artifacts FlashLaws.ex_stager (core ex_target) []) in
  let v := eval vm_compute in f in assert (He : f = v) by (vm_compute; reflexivity).
  assert (Htold : (λ fm, (deliver fm).2) <$> sends (Flash.flashOne FlashLaws.ex_world (FlashLaws.ex_cfg []) "/repo/build" FlashLaws.ex_artifacts FlashLaws.ex_stager (core ex_target) []).2 =
    told (ID ex_target) ex_events) by (vm_compute; reflexivity).
  rewrite He in Ht, Htold. destruct Ht as (pre & sn & c & hint & tail & post & Hl & _ & Hst & r & Hr & _ & Hph & Hok & _).
  { rewrite <- Htold. apply deliver_carries. }
  exists pre, (sn, FlashDeviceDoneMsg (ID ex_target) true c hint tail), post, r. split; [exact Hl|]. split; [apply (Hst pre []); by rewrite app_nil_r|]. split; [exact Hr|]. split; [exact Hph|exact Hok].
Defined.
End OpsFlashPaneLaws.
