(* ===== verification/Backend.v ===== *)
(** * The backend process ([cmd/backend/backend.go], [web/web.go], onboardfw.go,
    onboarddefaults.go)

    One process, one mux: the route table of [runServer] with the gate of every
    route, the standard library's request multiplexer, the rate limit in front of it,
    the catch-all that parts the devices' paths from the operator panel, the listeners
    and their origins; the handler of the embedded panel; and the playlist warmer
    ([internal/faascore/warm.go]). The handlers behind the routes are parameters: each
    is a component of its own. *)

From S2P Require Import Prelude GoLib Db Crypto Credentials CredentialLaws RateLimit AdminGate AdminAuth GoText Net FaasProto RenderDb PlaylistStore Supervisor Worker PlaylistFrame C2 FrameArm.
Import GoLib.

(** ** The multiplexer ([net/http.ServeMux]) *)

Module Mux.
(** A pattern's path: literal and wildcard segments, and whether it ends in a slash. *)
Inductive seg := Lit (s : string) | Wild (name : string).
Record pattern := MkPattern { p_method : string; p_segs : list seg; p_multi : bool }.
Definition slash : string := "/".
Definition parse_seg (s : bytes) : seg :=
  match s with 123 :: s' => Wild (string_of_bytes (removelast s')) | _ => Lit (string_of_bytes s) end.
(** [GET /api/x/{id}], or a path alone for every method. *)
Definition parse_path (m : string) (path : bytes) : pattern :=
  let l := split (drop 1 path) [47] in
  match last l with
  | Some [] => MkPattern m (parse_seg <$> removelast l) true
  | _ => MkPattern m (parse_seg <$> l) false
  end.
Definition parsePattern (s : string) : pattern :=
  match cut (bytes_of_string s) 32 with
  | Some (m, path) => parse_path (string_of_bytes m) path
  | None => parse_path "" (bytes_of_string s)
  end.

(** A request's path as it was written, and decoded. *)
Record url := MkURL { EscapedPath : string; Path : string }.
Fixpoint unescape (s : bytes) : option bytes :=
  match s with
  | [] => Some []
  | c :: s1 =>
      if c =? 37 then
        match s1 with
        | h :: l :: s' => a ← hex_value h; b ← hex_value l; r ← unescape s'; Some (a * 16 + b :: r)
        | _ => None
        end
      else cons c <$> unescape s1
  end.
Definition pathUnescape (s : bytes) : bytes := default s (unescape s).
(** The segments of a path, a final slash being one. *)
Definition segments (path : bytes) : list string :=
  if bool_decide (path = []) then []
  else
    let l := split (drop 1 path) [47] in
    match last l with
    | Some [] => (string_of_bytes ∘ pathUnescape <$> removelast l) ++ [slash]
    | _ => string_of_bytes ∘ pathUnescape <$> l
    end.
Definition cleanPath (p : bytes) : bytes :=
  if bool_decide (p = []) then [47]
  else
    let p := if has_prefix [47] p then p else 47 :: p in
    let np := GoText.clean p in
    if bool_decide (last p = Some 47) && negb (bool_decide (np = [47])) then np ++ [47] else np.

Section Tree.
Context {R : Type}.
(** The routing tree: the patterns that are left below a node. *)
Abbreviation node := (list (list seg * bool * R)).
Definition lit_child (s : string) (n : node) : node :=
  omap (λ x, match x.1.1 with Lit t :: l => if bool_decide (t = s) then Some (l, x.1.2, x.2) else None | _ => None end) n.
Definition wild_child (n : node) : node :=
  omap (λ x, match x.1.1 with Wild _ :: l => Some (l, x.1.2, x.2) | _ => None end) n.
Definition leaf (multi : bool) (n : node) : option R :=
  head (omap (λ x, match x.1.1 with [] => if Bool.eqb x.1.2 multi then Some x.2 else None | _ => None end) n).
Fixpoint matchPath (path : list string) (matches : list string) (n : node) : option (R * list string) :=
  match path with
  | [] => (λ r, (r, matches)) <$> leaf false n
  | s :: rest =>
      match matchPath rest matches (lit_child s n) with
      | Some x => Some x
      | None =>
          match (if bool_decide (s = slash) then None else matchPath rest (matches ++ [s]) (wild_child n)) with
          | Some x => Some x
          | None => (λ r, (r, matches)) <$> leaf true n
          end
      end
  end.
End Tree.

Section Mux.
Context {R : Type} (pat : R → string) (routes : list R).
Definition of_method (m : string) : list (list seg * bool * R) :=
  omap (λ r, let p := parsePattern (pat r) in if bool_decide (p_method p = m) then Some (p_segs p, p_multi p, r) else None) routes.
Definition matchMethod (m : string) (path : bytes) : option (R * list string) :=
  match matchPath (segments path) [] (of_method m) with
  | Some x => Some x
  | None =>
      match (if bool_decide (m = "HEAD"%string) then matchPath (segments path) [] (of_method "GET") else None) with
      | Some x => Some x
      | None => matchPath (segments path) [] (of_method "")
      end
  end.
Definition slashes (path : bytes) : nat := length (List.filter (Z.eqb 47) path).
Definition exactMatch (n : option (R * list string)) (path : bytes) : bool :=
  match n with
  | None => false
  | Some (r, _) =>
      let p := parsePattern (pat r) in
      if negb (p_multi p) then true
      else if negb (bool_decide (last path = Some 47)) then false
      else bool_decide (S (length (p_segs p)) = slashes path)
  end.
(** Whether the path is to be asked for again with a slash at its end. *)
Definition slash_redirect (m : string) (path : bytes) : bool :=
  negb (exactMatch (matchMethod m path) path) && negb (bool_decide (last path = Some 47)) &&
  exactMatch (matchMethod m (path ++ [47])) (path ++ [47]).
Inductive answer := Redirect (to : string) | Route (r : R) (matches : list string) | NoRoute.
(** [NoRoute]: 404, or 405 where another method has a pattern. *)
Definition findHandler (m : string) (u : url) : answer :=
  let escaped := bytes_of_string (EscapedPath u) in
  let connect := bool_decide (m = "CONNECT"%string) in
  let path := if connect then escaped else cleanPath escaped in
  if slash_redirect m path then Redirect (string_of_bytes (cleanPath (bytes_of_string (Path u)) ++ [47]))
  else if negb connect && negb (bool_decide (path = escaped)) then Redirect (string_of_bytes path)
  else match matchMethod m path with Some (r, ms) => Route r ms | None => NoRoute end.
End Mux.
Arguments Redirect {R}.
Arguments Route {R}.
Arguments NoRoute {R}.
End Mux.

(** ** The embedded panel ([web/web.go]) *)

Module Web.
Import Mux.
(** The files of dist: [Some None] is a directory. *)
Abbreviation fsys := (string → option (option bytes)).
Record request := MkReq { r_method : string; r_path : string; Accept : string; AcceptEncoding : string }.
(** What [http.ServeContent] is handed goes out as it is; ranges, conditions and the
    empty body of HEAD are its part. *)
Record response := MkResp { status : Z; headers : list (string * string); body : bytes }.
Definition csp : string :=
  "default-src 'self'; script-src 'self' 'wasm-unsafe-eval'; worker-src 'self'; style-src 'self' 'unsafe-inline'; img-src 'self' data:; font-src 'self' data:; connect-src 'self'; frame-ancestors 'none'; base-uri 'none'; form-action 'self'; object-src 'none'".
Definition placeholderBody : bytes := bytes_of_string ("open-picpak admin UI not built — use the Docker image or run bun build" ++ string_of_bytes [10])%string.
Definition encodings : list (string * string) := [("br", ".br"); ("gzip", ".gz")]%string.

(** [utf8.ValidString] *)
Definition cont (c : Z) : bool := (128 <=? c) && (c <=? 191).
Fixpoint valid_utf8 (s : bytes) : bool :=
  match s with
  | [] => true
  | c :: s1 =>
      if c <=? 127 then valid_utf8 s1
      else match s1 with
      | [] => false
      | d :: s2 =>
          if (194 <=? c) && (c <=? 223) then cont d && valid_utf8 s2
          else match s2 with
          | [] => false
          | e :: s3 =>
              if (224 <=? c) && (c <=? 239) then
                cont d && cont e && (negb (c =? 224) || (160 <=? d)) && (negb (c =? 237) || (d <=? 159)) && valid_utf8 s3
              else match s3 with
              | [] => false
              | f :: s4 =>
                  (240 <=? c) && (c <=? 244) && cont d && cont e && cont f &&
                  (negb (c =? 240) || (144 <=? d)) && (negb (c =? 244) || (d <=? 143)) && valid_utf8 s4
              end
          end
      end
  end.
(** [fs.ValidPath] *)
Definition valid_elem (e : bytes) : bool := negb (bool_decide (e = []) || bool_decide (e = [46]) || bool_decide (e = [46; 46])).
Definition ValidPath (p : string) : bool :=
  let b := bytes_of_string p in
  valid_utf8 b && (bool_decide (b = [46]) || forallb valid_elem (split b [47])).

Section Panel.
(** [mime.TypeByExtension] of the host's tables. *)
Context (mime : string → string) (f : fsys).
Definition regularFileExists (p : string) : bool := ValidPath p && match f p with Some (Some _) => true | _ => false end.
Definition acceptsHTML (r : request) : bool := GoText.Contains (Accept r) "text/html".
(** [path.Ext] *)
Fixpoint ext_go (acc s : bytes) : bytes :=
  match s with
  | [] => []
  | c :: s' => if c =? 47 then [] else if c =? 46 then 46 :: acc else ext_go (c :: acc) s'
  end.
Definition Ext (p : string) : string := string_of_bytes (ext_go [] (reverse (bytes_of_string p))).
Definition contentType (p : string) : string :=
  let ct := mime (Ext p) in if bool_decide (ct = ""%string) then "application/octet-stream"%string else ct.
Definition hasCompressedSibling (p : string) : bool := existsb (λ e, regularFileExists (p +:+ e.2)) encodings.
Definition negotiateEncoding (ae p : string) : option (string * string) :=
  match List.filter (λ e, GoText.Contains ae e.1 && regularFileExists (p +:+ e.2)) encodings with
  | e :: _ => Some (e.1, (p +:+ e.2)%string)
  | [] => None
  end.
Definition NotFound : response :=
  MkResp 404 [("Content-Type", "text/plain; charset=utf-8"); ("X-Content-Type-Options", "nosniff")]%string
    (bytes_of_string ("404 page not found" ++ string_of_bytes [10])%string).
Definition serveContent (hdrs : list (string * string)) (p : string) : response :=
  match f p with
  | Some (Some data) => MkResp 200 hdrs data
  | _ => NotFound
  end.
Definition serveFile (hdrs : list (string * string)) (r : request) (p : string) : response :=
  let '(enc, serve) :=
    if hasCompressedSibling p then
      let vary := [("Vary", "Accept-Encoding")]%string in
      match negotiateEncoding (AcceptEncoding r) p with
      | Some (e, cp) => (vary ++ [("Content-Encoding"%string, e)], cp)
      | None => (vary, p)
      end
    else ([], p) in
  serveContent (hdrs ++ enc ++ [("Content-Type"%string, contentType p)]) serve.
Definition no_cache : string * string := ("Cache-Control", "no-cache")%string.
Definition csp_header : string * string := ("Content-Security-Policy"%string, csp).
Definition serveIndex (r : request) : response :=
  if negb (regularFileExists "index.html") then
    MkResp 503 [no_cache; ("Content-Type", "text/plain; charset=utf-8")%string]
      (if bool_decide (r_method r = "HEAD"%string) then [] else placeholderBody)
  else serveFile [no_cache; csp_header] r "index.html".
(** The path below dist. *)
Definition target (r : request) : string :=
  let p := GoText.clean (bytes_of_string (r_path r)) in
  let p := if has_prefix [47] p then drop 1 p else p in
  if bool_decide (p = []) || bool_decide (p = [46]) then "index.html"%string else string_of_bytes p.
Definition has_suffix (sfx s : string) : bool := has_prefix (reverse (bytes_of_string sfx)) (reverse (bytes_of_string s)).
Definition hashed (p : string) : bool := has_prefix (bytes_of_string "assets/") (bytes_of_string p).
Definition handlerFor (r : request) : response :=
  if negb (bool_decide (r_method r = "GET"%string)) && negb (bool_decide (r_method r = "HEAD"%string)) then NotFound
  else
    let p := target r in
    if negb (regularFileExists p) then (if acceptsHTML r then serveIndex r else NotFound)
    else
      let cache := if hashed p then ("Cache-Control", "public, max-age=31536000, immutable")%string else no_cache in
      serveFile (cache :: (if has_suffix ".html" p then [csp_header] else [])) r p.
End Panel.
End Web.

(** ** The playlist warmer ([internal/faascore/warm.go]) *)

Module Warm.
Import PlaylistStore(PlaylistItem, MkItem, ImageID, Fit, Dither, RotationItems).
Import Supervisor(world, MW, on_db).

Definition playlistPushEnabled (v : string) : bool := bool_decide (v = "true"%string).
Definition variant : Type := Z * string * string.
Definition variant_of (it : PlaylistItem) : variant := (ImageID it, Fit it, Dither it).
Definition add_variant (acc : list variant) (v : variant) : list variant := if decide (v ∈ acc) then acc else acc ++ [v].
Definition todo (items : list PlaylistItem) : list variant := foldl add_variant [] (variant_of <$> items).
Definition limit (warmLimit : Z) : nat := Z.to_nat (if warmLimit <? 1 then 1 else warmLimit).

Section Warm.
Context (box_open : string → bytes → bytes → option bytes) (marshal_request : Supervisor.Request → option bytes)
  (unmarshal_meta : bytes → option FaasProto.ResponseMeta) (text : Worker.failure → string) (rfc3339 : Z → string).
(** One goroutine: the image's row, and the production path of a live frame. *)
Definition warm_variant (s : Supervisor.Supervisor) (v : variant) : MW unit :=
  img ← attempt (on_db (PlaylistFrame.GetImage v.1.1));
  match img with
  | Err _ => mret ()
  | Ok img =>
      _ ← attempt (PlaylistFrame.packedVariant box_open marshal_request unmarshal_meta text rfc3339 s img (MkItem 0 0 v.1.1 0 v.1.2 v.2));
      mret ()
  end.

(** A batch: the variants that wait for a slot, those that have one, and those through. *)
Record warming := MkWarming { waiting : list variant; running : list variant; through : list variant }.
Definition fresh (items : list PlaylistItem) : warming := MkWarming (todo items) [] [].
Inductive event := Started (playlistID : Z) (items : list PlaylistItem) | Skipped (playlistID : Z) | Warmed (v : variant) | Woken (playlistID : Z).
Inductive phase := Listening | Warming (playlistID : Z) (b : warming) | Waking (playlistID : Z).
Record warmer := MkWarmer { w_phase : phase; w_world : world; w_c2 : C2.db; w_faults : list bool; w_log : list event }.
Definition initial (w : world) (d : C2.db) (fs : list bool) : warmer := MkWarmer Listening w d fs [].

(** The LISTEN loop: a notification, [warmPlaylist], and then the wake. The database of
    the frames and the command queue are two views of the one pool. *)
Inductive warmer_step (s : Supervisor.Supervisor) (n : nat) : warmer → warmer → Prop :=
| NBad w payload e k : w_phase w = Listening → parse_int payload 64 = (k, Some e) → warmer_step s n w w
| NItems w payload id items world' fs' : w_phase w = Listening → parse_int payload 64 = (id, None) →
    on_db (RotationItems id) (w_world w) (w_faults w) = (Ok items, world', fs') →
    warmer_step s n w (MkWarmer (Warming id (fresh items)) world' (w_c2 w) fs' (w_log w ++ [Started id items]))
| NNoItems w payload id e world' fs' : w_phase w = Listening → parse_int payload 64 = (id, None) →
    on_db (RotationItems id) (w_world w) (w_faults w) = (Err e, world', fs') →
    warmer_step s n w (MkWarmer (Waking id) world' (w_c2 w) fs' (w_log w ++ [Skipped id]))
| NSpawn w id v rest run thr : w_phase w = Warming id (MkWarming (v :: rest) run thr) → (length run < n)%nat →
    warmer_step s n w (MkWarmer (Warming id (MkWarming rest (run ++ [v]) thr)) (w_world w) (w_c2 w) (w_faults w) (w_log w))
| NWork w id wait pre v post thr a world' fs' : w_phase w = Warming id (MkWarming wait (pre ++ v :: post) thr) →
    warm_variant s v (w_world w) (w_faults w) = (a, world', fs') →
    warmer_step s n w (MkWarmer (Warming id (MkWarming wait (pre ++ post) (thr ++ [v]))) world' (w_c2 w) fs' (w_log w ++ [Warmed v]))
| NWarm w id thr : w_phase w = Warming id (MkWarming [] [] thr) →
    warmer_step s n w (MkWarmer (Waking id) (w_world w) (w_c2 w) (w_faults w) (w_log w))
| NWake w id now a c2' fs' : w_phase w = Waking id → C2.EnqueuePlaylistRefresh now id None (w_c2 w) (w_faults w) = (a, c2', fs') →
    warmer_step s n w (MkWarmer Listening (w_world w) c2' fs' (w_log w ++ [Woken id])).
Inductive warmer_reachable (s : Supervisor.Supervisor) (n : nat) (w0 : warmer) : warmer → Prop :=
| WInit : warmer_reachable s n w0 w0
| WStep w w' : warmer_reachable s n w0 w → warmer_step s n w w' → warmer_reachable s n w0 w'.
End Warm.
End Warm.

(** ** The process ([cmd/backend/backend.go]) *)

Module Backend.
Import AdminGate Mux.

(** *** Routes *)

Inductive Gate := Public | Authed | Admin | Scoped (scope : string).
#[global] Instance Gate_eq_dec : EqDecision Gate.
Proof. solve_decision. Defined.
Record route := MkRoute { pat : string; gate : Gate }.
Definition whoami_routes : list route := [MkRoute "GET /healthz" Public; MkRoute "GET /api/whoami" Authed].
Definition device_routes : list route :=
  [MkRoute "GET /api/devices" Authed; MkRoute "GET /api/devices/{serial}" Authed; MkRoute "POST /api/devices" Admin;
   MkRoute "PATCH /api/devices/{serial}" Admin; MkRoute "DELETE /api/devices/{serial}" Admin;
   MkRoute "POST /api/command" Admin; MkRoute "POST /api/devices/{serial}/command" Admin].
Definition secret_routes : list route :=
  [MkRoute "PUT /api/secrets/{name}" Admin; MkRoute "GET /api/secrets" Admin; MkRoute "GET /api/secrets/{name}" Admin;
   MkRoute "DELETE /api/secrets/{name}" Admin].
Definition registerOTARoutes : list route :=
  [MkRoute "POST /api/firmware" Admin; MkRoute "GET /api/firmware" Authed; MkRoute "GET /api/channels" Authed;
   MkRoute "PUT /api/channels/{name}" Admin; MkRoute "POST /api/rollouts" Admin; MkRoute "PATCH /api/rollouts/{id}" Admin;
   MkRoute "DELETE /api/rollouts/{id}" Admin; MkRoute "GET /api/rollouts" Authed; MkRoute "GET /api/resolve/{serial}" Authed].
Definition registerLogRoutes : list route :=
  [MkRoute "GET /api/logs" Authed; MkRoute "GET /api/logs/serials" Authed; MkRoute "GET /api/logs/{serial}/reconstruct" Authed].
Definition registerAuthRoutes : list route := [MkRoute "POST /api/session" Public; MkRoute "DELETE /api/session" Authed].
Definition registerTokenRoutes : list route :=
  [MkRoute "POST /api/tokens" Admin; MkRoute "GET /api/tokens" Admin; MkRoute "DELETE /api/tokens/{id}" Admin].
Definition registerPanelRoutes : list route := [MkRoute "PUT /api/devices/{serial}/image" Admin].
Definition registerImageRoutes : list route :=
  [MkRoute "POST /api/images" (Scoped ScopeImageWrite); MkRoute "GET /api/images" (Scoped ScopeImageRead);
   MkRoute "GET /api/images/{id}" (Scoped ScopeImageRead); MkRoute "GET /api/images/{id}/thumbnail" (Scoped ScopeImageRead);
   MkRoute "DELETE /api/images/{id}" (Scoped ScopeImageWrite)] ++ registerPanelRoutes.
Definition registerPlaylistRoutes : list route :=
  let write := Scoped ScopeImageWrite in let read := Scoped ScopeImageRead in
  [MkRoute "POST /api/playlists" write; MkRoute "GET /api/playlists" read; MkRoute "GET /api/playlists/{id}" read;
   MkRoute "PATCH /api/playlists/{id}" write; MkRoute "DELETE /api/playlists/{id}" write;
   MkRoute "POST /api/playlists/{id}/reshuffle" write; MkRoute "POST /api/playlists/{id}/items" write;
   MkRoute "PATCH /api/playlists/{id}/items" write; MkRoute "DELETE /api/playlists/{id}/items/{itemId}" write;
   MkRoute "PUT /api/devices/{serial}/playlist" Admin; MkRoute "DELETE /api/devices/{serial}/playlist" Admin].
Definition registerTelemetryRoutes : list route :=
  [MkRoute "GET /api/fleet" Authed; MkRoute "GET /api/devices/{serial}/telemetry" Authed; MkRoute "GET /api/config" Authed].
Definition registerBerryRoutes : list route :=
  [MkRoute "GET /api/berry/capabilities" Authed; MkRoute "GET /api/berry/commands/recent" Authed].
Definition registerFaasRoutes : list route :=
  [MkRoute "GET /api/functions" Authed; MkRoute "GET /api/functions/{id}" Authed; MkRoute "POST /api/functions" Admin;
   MkRoute "PUT /api/functions/{id}" Admin; MkRoute "PATCH /api/functions/{id}" Admin; MkRoute "DELETE /api/functions/{id}" Admin;
   MkRoute "PUT /api/devices/{serial}/render" Admin].
Definition registerTemplateRoutes : list route :=
  [MkRoute "GET /api/templates" Authed; MkRoute "GET /api/templates/{id}" Authed; MkRoute "POST /api/templates" Admin;
   MkRoute "PUT /api/templates/{id}" Admin; MkRoute "DELETE /api/templates/{id}" Admin; MkRoute "POST /api/templates/{id}/apply" Admin].
Definition registerTemplatePreviewRoutes : list route := [MkRoute "GET /api/templates/{id}/preview" Authed].
Definition registerFaasUIRoutes : list route :=
  [MkRoute "GET /api/devices/{serial}/render" Authed; MkRoute "GET /api/functions/{id}/devices" Authed;
   MkRoute "DELETE /api/devices/{serial}/render" Admin; MkRoute "POST /api/functions/test-run" Admin].
Definition registerOnboardFWRoutes : list route := [MkRoute "GET /onboard-fw/" Authed].
Definition registerOnboardDefaultsRoutes : list route := [MkRoute "GET /api/onboard/defaults" Admin].
Definition event_routes : list route := [MkRoute "GET /api/events" Authed].
Definition root_route : route := MkRoute "/" Public.
(** In the order of [runServer]. *)
Definition routes : list route :=
  whoami_routes ++ device_routes ++ secret_routes ++ registerOTARoutes ++ registerLogRoutes ++ registerAuthRoutes ++
  registerTokenRoutes ++ registerImageRoutes ++ registerPlaylistRoutes ++ registerTelemetryRoutes ++ registerBerryRoutes ++
  registerFaasRoutes ++ registerTemplateRoutes ++ registerTemplatePreviewRoutes ++ registerFaasUIRoutes ++
  registerOnboardFWRoutes ++ registerOnboardDefaultsRoutes ++ event_routes ++ [root_route].

(** *** The handler of the listeners *)

Section Server.
Context (IDKey : bytes → bytes → Z → Z → Z → Z → bytes) (slots : Z).
(** The handler behind a pattern, given the request's path and the wildcards. *)
Context (behind : string → url → list string → handler).
Definition wrap (g : Gate) (h : handler) : handler :=
  match g with
  | Public => h
  | Authed => Auth IDKey slots h
  | Admin => Auth IDKey slots (RequireAdmin h)
  | Scoped s => Auth IDKey slots (RequireScope s h)
  end.
Definition serveMux (u : url) : handler := λ r c,
  match findHandler pat routes (Method r) u with
  | Redirect to => mret (Reply 301 [("Location"%string, to)] JNull)
  | Route ρ ms => wrap (gate ρ) (behind (pat ρ) u ms) r c
  | NoRoute => mret (Reply 404 [] JNull)
  end.
Definition with_id (rid : string) (r : request) : request :=
  MkRequest (Method r) (Authorization r) (Cookie r) (XRequestedWith r) (XRealIP r) (RemoteAddr r) (Origin r) rid (Now r).
(** [rid]: the id drawn for the request. *)
Definition WithRequestID (rid : string) (next : handler) : handler := λ r c, next (with_id rid r) c.
Definition backend (rid : string) (u : url) : handler := WithRequestID rid (IPRateLimit (serveMux u)).
End Server.

(** The catch-all: the devices' paths, and the panel. *)
Definition root (srv : FrameArm.Server) (ingest : FrameArm.endpoint → handler) (spa : url → handler) (u : url) : handler := λ r c,
  if FrameArm.OwnsPath srv (Path u) then ingest (FrameArm.Handle srv (Method r) (Path u)) r c else spa u r c.

(** *** Small handlers *)

Definition whoamiFields (pr : Principal) : list (string * json) :=
  [("kind"%string, JStr (kind_string (Kind pr))); ("is_admin"%string, JBool (IsAdmin pr)); ("label"%string, JStr (prLabel pr));
   ("scopes"%string, JList (JStr <$> prScopes pr))].
Definition no_principal_fields : list (string * json) :=
  [("kind"%string, JStr ""); ("is_admin"%string, JBool false); ("label"%string, JStr ""); ("scopes"%string, JNull)].
Definition whoami : handler := λ r c,
  mret (WriteOK r [] (match c_principal c with Some pr => whoamiFields pr | None => no_principal_fields end)).

Definition onboardDefaultC2PeriodSeconds : Z := 1800.
Definition device_url (origin token leaf : string) : string := (origin +:+ "/" +:+ token +:+ leaf)%string.
(** [token]: INGEST_TOKEN; [origin]: the query's; [https]: TLS, or the proxy says so. *)
Definition onboard_origin (origin : string) (https : bool) (host : string) : string :=
  let o := string_of_bytes (trim_right (bytes_of_string origin) 47) in
  if bool_decide (o = ""%string) then ((if https then "https" else "http") +:+ "://" +:+ host)%string else o.
Definition onboardDefaults (token origin : string) (https : bool) (host : string) : handler := λ r c,
  let url leaf := if bool_decide (token = ""%string) then ""%string else device_url (onboard_origin origin https host) token leaf in
  mret (WriteOK r [] [("frame_url"%string, JStr (url "/frame"%string)); ("c2_url"%string, JStr (url "/c2"%string));
                      ("c2_period_s"%string, JNum onboardDefaultC2PeriodSeconds)]).

(** [serve] of onboardfw.go: the file handed to [ServeContent]. *)
Inductive artifact := Unconfigured | Missing | Artifact (name : string) (data : bytes).
Definition onboardFWPrefix : string := "/onboard-fw/".
Definition onboardFW (dir path : string) (file : string → option (option bytes)) : artifact :=
  if bool_decide (dir = ""%string) then Unconfigured
  else
    let p := bytes_of_string path in
    let name := string_of_bytes (if has_prefix (bytes_of_string onboardFWPrefix) p then drop (length (bytes_of_string onboardFWPrefix)) p else p) in
    if bool_decide (name = ""%string) || negb (Web.ValidPath name) then Missing
    else match file (dir +:+ "/" +:+ name)%string with
    | Some (Some data) => Artifact name data
    | _ => Missing
    end.

(** *** Start *)

Definition env (v def : string) : string := if bool_decide (v = ""%string) then def else v.
Definition maxConns (v : string) (cpus : Z) : Z :=
  let def := if 16 <? 4 * cpus then 4 * cpus else 16 in
  if bool_decide (v = ""%string) then def
  else match atoi v with (n, None) => if 0 <? n then n else def | _ => def end.
(** The answers of the database, one per try. *)
Fixpoint pingWithRetry (tries : nat) (ping : nat → option string) (n : nat) (err : option string) : option string :=
  match tries with
  | O => Some ("ping failed: " +:+ default "%!w(<nil>)"%string err)%string
  | S tries => match ping n with None => None | Some e => pingWithRetry tries ping (S n) (Some e) end
  end.
Definition originForAddr (addr : string) : ListenerOrigin :=
  let host := match Net.SplitHostPort addr with Some (h, _) => h | None => addr end in
  if bool_decide (host = "localhost"%string) then OriginLoopback
  else match Net.ParseIP host with
  | Some ip => if Net.IsLoopback ip then OriginLoopback else OriginPublic
  | None => OriginPublic
  end.
Record listenerSpec := MkSpec { l_addr : string; l_origin : ListenerOrigin }.
Definition adminListeners (addr loopbackAddr : string) : list listenerSpec :=
  let primary := MkSpec addr (originForAddr addr) in
  if bool_decide (l_origin primary = OriginLoopback) || bool_decide (loopbackAddr = ""%string) || bool_decide (loopbackAddr = addr)
  then [primary] else [primary; MkSpec loopbackAddr OriginLoopback].
(** A request on a listener carries the listener's origin. *)
Definition on_listener (s : listenerSpec) (r : request) : request :=
  MkRequest (Method r) (Authorization r) (Cookie r) (XRequestedWith r) (XRealIP r) (RemoteAddr r) (Some (l_origin s)) (RequestID r) (Now r).
(** How the start goes: the master key, the database, and only then the listeners. *)
Inductive boot := NoKey (e : string) | NoDatabase (e : string) | Listening (l : list listenerSpec).
Definition runServer (key : option string) (db : option string) (addr loopback : string) : boot :=
  match key with
  | Some e => NoKey e
  | None => match db with
            | Some e => NoDatabase e
            | None => Listening (adminListeners (env addr ":8080") (env loopback "127.0.0.1:8081"))
            end
  end.
End Backend.

Module BackendLaws.
Import Credentials CredentialLaws RateLimit AdminGate AdminAuth Mux Backend.

(** ** The multiplexer *)

Definition seg_match (g : seg) (s : string) : Prop := match g with Lit t => t = s | Wild _ => s ≠ slash end.
(** A pattern matches a path: all of it, or its beginning where it ends in a slash. *)
Definition path_match (l : list seg) (multi : bool) (path : list string) : Prop :=
  ∃ pre post, path = pre ++ post ∧ Forall2 seg_match l pre ∧ if multi then post ≠ [] else post = [].

Section Tree.
Context {R : Type}.
Implicit Types n : list (list seg * bool * R).
Lemma lit_child_elem s n l b r : (l, b, r) ∈ lit_child s n ↔ (Lit s :: l, b, r) ∈ n.
Proof.
  unfold lit_child. rewrite list_elem_of_omap. split.
  - intros ([[[|[t|t] l'] b'] r'] & Hin & Hx); cbn in Hx; try done. case_bool_decide; [|done]. by simplify_eq.
  - intros Hin. eexists. split; [exact Hin|]. cbn. by rewrite bool_decide_true.
Qed.
Lemma wild_child_elem n l b r : (l, b, r) ∈ wild_child n ↔ ∃ x, (Wild x :: l, b, r) ∈ n.
Proof.
  unfold wild_child. rewrite list_elem_of_omap. split.
  - intros ([[[|[t|t] l'] b'] r'] & Hin & Hx); cbn in Hx; try done. simplify_eq. eauto.
  - intros [x Hin]. eexists. split; [exact Hin|]. done.
Qed.
Lemma leaf_sound multi n r : leaf multi n = Some r → ([], multi, r) ∈ n.
Proof.
  unfold leaf. intros Hh. apply head_Some_elem_of in Hh. apply list_elem_of_omap in Hh as ([[[|[t|t] l'] b'] r'] & Hin & Hx); try done.
  cbn in Hx. destruct (Bool.eqb b' multi) eqn:He; [|done]. apply Bool.eqb_prop in He. by simplify_eq.
Qed.
Lemma leaf_complete multi n r : ([], multi, r) ∈ n → is_Some (leaf multi n).
Proof.
  intros Hin. unfold leaf. destruct (omap _ n) as [|x l] eqn:Ho; [|by eexists].
  assert (Hr : r ∈ ([] : list R)); [|by apply not_elem_of_nil in Hr].
  rewrite <- Ho. apply list_elem_of_omap. eexists. split; [exact Hin|]. cbn. by rewrite Bool.eqb_reflx.
Qed.

Lemma matchPath_sound path ms n r ms' : matchPath path ms n = Some (r, ms') →
  ∃ l b, (l, b, r) ∈ n ∧ path_match l b path.
Proof.
  revert ms n. induction path as [|s rest IH]; intros ms n; cbn.
  - destruct (leaf false n) as [x|] eqn:Hl; [|done]. intros [= -> _]. apply leaf_sound in Hl.
    exists [], false. split; [done|]. exists [], []. split_and!; [done|constructor|done].
  - destruct (matchPath rest ms (lit_child s n)) as [[x y]|] eqn:H1.
    { intros [= -> ->]. apply IH in H1 as (l & b & Hin%lit_child_elem & pre & post & -> & Hf & Hb).
      eexists _, _. split; [exact Hin|]. exists (s :: pre), post. split_and!; [done|by constructor|done]. }
    case_bool_decide as Hs; [|destruct (matchPath rest (ms ++ [s]) (wild_child n)) as [[x y]|] eqn:H2].
    2: { intros [= -> ->]. apply IH in H2 as (l & b & [w Hin]%wild_child_elem & pre & post & -> & Hf & Hb).
      eexists _, _. split; [exact Hin|]. exists (s :: pre), post. split_and!; [done|by constructor|done]. }
    all: destruct (leaf true n) as [x|] eqn:Hl; [|done]; intros [= -> _]; apply leaf_sound in Hl;
      exists [], true; (split; [done|]); exists [], (s :: rest); split_and!; [done|constructor|done].
Qed.
(** Whatever matches is found, or something more specific is. *)
Lemma matchPath_complete path ms n l b r : (l, b, r) ∈ n → path_match l b path → is_Some (matchPath path ms n).
Proof.
  intros Hin (pre & post & -> & Hf & Hb). revert ms n Hin. induction Hf as [|g s l pre Hg _ IH]; intros ms n Hin.
  - destruct b.
    + destruct post as [|s rest]; [done|]. cbn. destruct (matchPath rest ms _); [by eexists|].
      destruct (leaf_complete true n r Hin) as [x Hx]. case_bool_decide; [|destruct (matchPath rest (ms ++ [s]) _); [by eexists|]]; rewrite Hx; by eexists.
    + subst post. cbn. destruct (leaf_complete false n r Hin) as [x ->]. by eexists.
  - cbn. destruct (matchPath (pre ++ post) ms (lit_child s n)) eqn:H1; [by eexists|]. destruct g as [t|w]; cbn in Hg.
    + subst t. destruct (IH ms (lit_child s n)) as [? Hx]; [by apply lit_child_elem|]. congruence.
    + rewrite bool_decide_false by done. destruct (IH (ms ++ [s]) (wild_child n)) as [? Hx]; [apply wild_child_elem; eauto|].
      rewrite Hx. by eexists.
Qed.
End Tree.

Section Mux.
Context {R : Type} (pt : R → string) (rs : list R).
(** The methods a pattern answers. *)
Definition serves (m : string) (r : R) : Prop :=
  let p := p_method (parsePattern (pt r)) in p = m ∨ (m = "HEAD"%string ∧ p = "GET"%string) ∨ p = ""%string.
Lemma of_method_elem m l b r : (l, b, r) ∈ of_method pt rs m ↔
  r ∈ rs ∧ p_method (parsePattern (pt r)) = m ∧ p_segs (parsePattern (pt r)) = l ∧ p_multi (parsePattern (pt r)) = b.
Proof.
  unfold of_method. rewrite list_elem_of_omap. split.
  - intros (x & Hx & He). cbn in He. case_bool_decide; [|done]. by simplify_eq.
  - intros (Hr & Hm & <- & <-). exists r. split; [done|]. cbn. by rewrite bool_decide_true.
Qed.
(** What is routed has a pattern of the table, for the method and the path. *)
Lemma matchMethod_sound m path r ms : matchMethod pt rs m path = Some (r, ms) →
  r ∈ rs ∧ serves m r ∧ path_match (p_segs (parsePattern (pt r))) (p_multi (parsePattern (pt r))) (segments path).
Proof.
  unfold matchMethod, serves. intros Hm.
  destruct (matchPath _ _ (of_method pt rs m)) as [[x y]|] eqn:H1.
  { simplify_eq. apply matchPath_sound in H1 as (l & b & (Hr & Hp & <- & <-)%of_method_elem & Hmatch). split_and!; [done|tauto|done]. }
  destruct (if bool_decide _ then _ else None) as [[x y]|] eqn:H2.
  { simplify_eq. case_bool_decide as Hh; [|done]. apply matchPath_sound in H2 as (l & b & (Hr & Hp & <- & <-)%of_method_elem & Hmatch). split_and!; [done|tauto|done]. }
  apply matchPath_sound in Hm as (l & b & (Hr & Hp & <- & <-)%of_method_elem & Hmatch). split_and!; [done|tauto|done].
Qed.
Lemma findHandler_route m u r ms : findHandler pt rs m u = Route r ms → r ∈ rs ∧ serves m r.
Proof.
  unfold findHandler. set (path := if bool_decide (m = "CONNECT"%string) then _ else _). destruct (slash_redirect pt rs m path); [done|].
  destruct (_ && _); [done|]. destruct (matchMethod pt rs m path) as [[x y]|] eqn:Hm; [|done]. intros [= -> ->].
  by apply matchMethod_sound in Hm as (? & ? & _).
Qed.
End Mux.

(** ** The route table *)

(** The routes open to everybody. *)
Definition open_routes : list string := ["GET /healthz"; "POST /api/session"; "/"]%string.
(** The requests that change something and are not behind a privilege: login and
    logout, and what the catch-all hands to the devices' side. *)
Definition unprivileged : list string := ["POST /api/session"; "DELETE /api/session"; "/"]%string.
Definition privileged (g : Gate) : bool := bool_decide (g = Admin) || bool_decide (g = Scoped ScopeImageWrite).
Lemma routes_gated ρ : ρ ∈ routes →
  (gate ρ = Public → pat ρ ∈ open_routes) ∧
  (p_method (parsePattern (pat ρ)) = "GET"%string ∨ privileged (gate ρ) = true ∨ pat ρ ∈ unprivileged).
Proof.
  assert (Hall : forallb (λ ρ, (negb (bool_decide (gate ρ = Public)) || bool_decide (pat ρ ∈ open_routes)) &&
    (bool_decide (p_method (parsePattern (pat ρ)) = "GET"%string) || privileged (gate ρ) || bool_decide (pat ρ ∈ unprivileged))) routes = true)
    by (vm_compute; reflexivity).
  rewrite forallb_forall in Hall. intros Hin%list_elem_of_In. apply Hall, andb_prop in Hin as [H1 H2]. split.
  - intros Hg. apply orb_true_iff in H1 as [Hx|Hx%bool_decide_eq_true]; [|done]. by rewrite bool_decide_true in Hx.
  - apply orb_true_iff in H2 as [[Hx%bool_decide_eq_true|Hx]%orb_true_iff|Hx%bool_decide_eq_true]; auto.
Qed.
(** No two patterns have the same method and shape, so that registering them does not
    panic and the order of the table does not matter. *)
Definition shape (ρ : route) : string * list (option string) * bool :=
  let p := parsePattern (pat ρ) in (p_method p, (λ g, match g with Lit s => Some s | Wild _ => None end) <$> p_segs p, p_multi p).
Lemma shapes_distinct : NoDup (shape <$> routes).
Proof. apply (bool_decide_unpack _). vm_compute. exact I. Qed.

(** ** Every request *)

Section Server.
Context (IDKey : bytes → bytes → Z → Z → Z → Z → bytes) (slots : Z) (V : verified).
Implicit Types next : handler.

(** What the rate limit adds after a handler. *)
Definition after (y x : AdminAuth.run) : Prop :=
  match y with
  | (Ok rep, p2, fs2) => ∃ p', x = (Ok rep, p', fs2) ∧ aside p2 p'
  | (Err e, p2, fs2) => x = (Err e, p2, fs2)
  end.
(** Answered without a handler. *)
Definition answered (r : request) (p : proc) (x : AdminAuth.run) : Prop := ∃ rep p' fs',
  x = (Ok rep, p', fs') ∧ rStatus rep ∈ [301; 401; 403; 404; 429; 500] ∧ beside IDKey V r p p'.
(** What a gate asks of the request's context. *)
Definition allowed (ttl : Z) (r : request) (d : db) (c : ctx) (g : Gate) : Prop :=
  match g with
  | Public => c = no_ctx
  | Authed => ∃ pr, genuine IDKey V ttl r d c pr
  | Admin => ∃ pr, genuine IDKey V ttl r d c pr ∧ IsAdmin pr = true ∧ Kind pr ≠ KindBearer
  | Scoped s => ∃ pr, genuine IDKey V ttl r d c pr ∧ HasScope pr s = true
  end.

Lemma on_ip_aside {A B} (f : rateLimiter → A * rateLimiter) (k : A → MP B) p fs :
  ∃ a p', (on_ip f ≫= k) p fs = k a p' fs ∧ aside p p'.
Proof. unfold on_ip, act, mbind, M_bind. destruct (f _) as [a rl]. by eexists _, _. Qed.
Lemma aside_trans p1 p2 p3 : aside p1 p2 → aside p2 p3 → aside p1 p3.
Proof. intros (H1 & H2 & H3) (K1 & K2 & K3). split_and!; congruence. Qed.

Lemma IPRateLimit_runs next r c p fs :
  (∃ rep p', IPRateLimit next r c p fs = (Ok rep, p', fs) ∧ rStatus rep = 429 ∧ aside p p') ∨
  (∃ p1, aside p p1 ∧ after (next r c p1 fs) (IPRateLimit next r c p fs)).
Proof.
  unfold IPRateLimit. match goal with |- context [(on_ip ?f ≫= ?k) ?p ?fs] => destruct (on_ip_aside f k p fs) as (ok & p1 & -> & H1) end.
  destruct ok; cbn [negb].
  - right. exists p1. split; [done|]. unfold mbind at 1, M_bind at 1. destruct (next r c p1 fs) as [[[rep|e] p2] fs2] eqn:Hn; [|done].
    cbn [after]. destruct (rStatus rep =? 401).
    + match goal with |- context [(on_ip ?f ≫= ?k) ?p ?fs] => destruct (on_ip_aside f k p fs) as (x & p3 & -> & H3) end. by exists p3.
    + by exists p2.
  - match goal with |- context [(on_ip ?f ≫= ?k) ?p ?fs] => destruct (on_ip_aside f k p1 fs) as (n & p2 & -> & H2) end.
    left. eexists _, p2. split; [reflexivity|]. split; [done|]. by eapply aside_trans.
Qed.

Lemma refused_answered r p x : refused IDKey V r p x → answered r p x.
Proof. intros (rep & p' & fs' & -> & Hs & Hb). exists rep, p', fs'. split; [done|]. split; [set_solver|done]. Qed.

(** A wrapped handler: answered at the gate, or run as the gate asks. *)
Lemma wrap_runs g h r p fs : cache_ok V (p_cache p) →
  answered r p (wrap IDKey slots g h r no_ctx p fs) ∨
  ∃ c p1 fs1, wrap IDKey slots g h r no_ctx p fs = h r c p1 fs1 ∧ allowed (bc_ttl (p_cache p)) r (p_db p) c g ∧
    beside IDKey V r p p1 ∧ p_db p1 = p_db p.
Proof.
  intros Hc.
  assert (Hforbid : ∀ s m p1 fs1, beside IDKey V r p p1 → answered r p (Ok (WriteErr r [] 403 s m), p1, fs1)).
  { intros s m p1 fs1 Hb. eexists _, p1, fs1. split; [reflexivity|]. split; [cbn; set_solver|done]. }
  destruct g as [| | |s]; cbn [wrap].
  - right. exists no_ctx, p, fs. split; [done|]. split; [done|]. split; [by apply beside_refl|done].
  - destruct (Auth_gated IDKey slots V h r p fs Hc) as [Hr|(c & pr & p1 & fs1 & -> & Hg & Hb & Hd)]; [left; by apply refused_answered|].
    right. exists c, p1, fs1. split_and!; try done. by exists pr.
  - destruct (Auth_gated IDKey slots V (RequireAdmin h) r p fs Hc) as [Hr|(c & pr & p1 & fs1 & -> & Hg & Hb & Hd)]; [left; by apply refused_answered|].
    unfold RequireAdmin. rewrite (proj1 Hg). destruct (IsAdmin pr) eqn:Ha; [|left; by apply Hforbid].
    right. exists c, p1, fs1. split_and!; try done. exists pr. split_and!; [done|done|]. intros Hk. destruct Hg as [_ Hg]. rewrite Hk in Hg.
    destruct Hg as (raw & tok & _ & _ & -> & _). done.
  - destruct (Auth_gated IDKey slots V (RequireScope s h) r p fs Hc) as [Hr|(c & pr & p1 & fs1 & -> & Hg & Hb & Hd)]; [left; by apply refused_answered|].
    unfold RequireScope. rewrite (proj1 Hg). destruct (HasScope pr s) eqn:Ha; [|left; by apply Hforbid].
    right. exists c, p1, fs1. split_and!; try done. by exists pr.
Qed.

Context (behind : string → url → list string → handler).
Lemma serveMux_runs u r p fs : cache_ok V (p_cache p) → let x := serveMux IDKey slots behind u r no_ctx p fs in
  answered r p x ∨ ∃ ρ ms c p1 fs1, findHandler pat routes (Method r) u = Route ρ ms ∧ x = behind (pat ρ) u ms r c p1 fs1 ∧
    allowed (bc_ttl (p_cache p)) r (p_db p) c (gate ρ) ∧ beside IDKey V r p p1 ∧ p_db p1 = p_db p.
Proof.
  intros Hc. unfold serveMux. cbn zeta. destruct (findHandler pat routes (Method r) u) as [to|ρ ms|] eqn:Hf.
  - left. eexists _, p, fs. split; [reflexivity|]. split; [cbn; set_solver|by apply beside_refl].
  - destruct (wrap_runs (gate ρ) (behind (pat ρ) u ms) r p fs Hc) as [Ha|(c & p1 & fs1 & -> & Hall & Hb & Hd)]; [by left|].
    right. by exists ρ, ms, c, p1, fs1.
  - left. eexists _, p, fs. split; [reflexivity|]. split; [cbn; set_solver|by apply beside_refl].
Qed.

Lemma beside_from r p p1 p2 : aside p p1 → beside IDKey V r p1 p2 → beside IDKey V r p p2.
Proof. intros (H1 & H2 & H3) [Ht Hc Hl Hs]. split; by rewrite <- ?H1, <- ?H2, <- ?H3. Qed.

(** C6. The whole server, for any request of any method and path, any handlers behind
    the routes and any faults. Either the request is answered before any handler runs,
    with a redirect, 401, 403, 404, 429 or 500 and the credential tables untouched; or
    exactly the handler of the matched route runs, once, with a context its gate
    justifies against the tables of that moment: nothing at all on the three open
    routes, a genuine principal everywhere else, an administrator, never a machine
    token, on the fleet routes, and a holder of the scope on the media routes. And
    whatever is neither GET nor HEAD runs as an administrator or a holder of
    image:write, except login, logout and what the catch-all gets. *)
Theorem server_gated rid u r p fs : cache_ok V (p_cache p) →
  let x := backend IDKey slots behind rid u r no_ctx p fs in let r := with_id rid r in
  answered r p x ∨ ∃ ρ ms c p1 fs1, ρ ∈ routes ∧ findHandler pat routes (Method r) u = Route ρ ms ∧
    after (behind (pat ρ) u ms r c p1 fs1) x ∧ allowed (bc_ttl (p_cache p)) r (p_db p) c (gate ρ) ∧
    beside IDKey V r p p1 ∧ p_db p1 = p_db p ∧ (gate ρ = Public → pat ρ ∈ open_routes) ∧
    (Method r ≠ "GET"%string → Method r ≠ "HEAD"%string → privileged (gate ρ) = true ∨ pat ρ ∈ unprivileged).
Proof.
  intros Hc. cbn zeta. unfold backend, WithRequestID. set (r' := with_id rid r).
  destruct (IPRateLimit_runs (serveMux IDKey slots behind u) r' no_ctx p fs) as [(rep & p' & -> & Hs & Ha)|(p1 & Hp1 & Haft)].
  { left. exists rep, p', fs. split; [done|]. split; [rewrite Hs; set_solver|]. eapply beside_aside; [by apply beside_refl|done]. }
  destruct Hp1 as (Hdb & Hca & Har) eqn:Hp. clear Hp.
  destruct (serveMux_runs u r' p1 fs) as [(rep & p2 & fs2 & Hx & Hs & Hb)|(ρ & ms & c & p2 & fs2 & Hf & Hx & Hall & Hb & Hd)];
    [by rewrite Hca| |]; rewrite Hx in Haft.
  - destruct Haft as (p3 & -> & H3). left. exists rep, p3, fs2. split; [done|]. split; [done|].
    eapply beside_aside; [|done]. by eapply beside_from.
  - right. pose proof (findHandler_route _ _ _ _ _ _ Hf) as [Hin Hserves]. destruct (routes_gated ρ Hin) as [Hopen Hpriv].
    exists ρ, ms, c, p2, fs2. rewrite Hca, Hdb in Hall. split_and!; try done; [by eapply beside_from|by rewrite Hd|].
    intros Hg Hh. destruct Hpriv as [Hget|[?|?]]; [|by left|by right]. unfold serves in Hserves. rewrite Hget in Hserves.
    destruct Hserves as [He|[[He _]|He]]; [by rewrite <- He in Hg|done|done].
Qed.
End Server.

(** ** The devices' paths *)

(** A path segment that reads the same in every form. *)
Definition plain (s : string) : Prop :=
  let b := bytes_of_string s in (47 ∉ b) ∧ (37 ∉ b) ∧ b ≠ [] ∧ b ≠ [46] ∧ b ≠ [46; 46].
Definition path_bytes (l : list string) : bytes := 47 :: join (bytes_of_string <$> l) [47].
Definition path_of (l : list string) : string := string_of_bytes (path_bytes l).
(** The first segments of the API's routes. *)
Definition reserved : list string := ["api"; "healthz"; "onboard-fw"]%string.

Lemma join_cons c (x y : bytes) l : join (x :: y :: l) [c] = x ++ c :: join (y :: l) [c].
Proof. done. Qed.
Lemma join_ok c l : byte_ok c → Forall bytes_ok l → bytes_ok (join l [c]).
Proof.
  intros Hc. induction 1 as [|x l Hx Hl IH]; [constructor|]. destruct l as [|y l]; [done|].
  rewrite join_cons. apply Forall_app. split; [done|]. by constructor.
Qed.
Lemma path_of_bytes l : bytes_of_string (path_of l) = path_bytes l.
Proof.
  apply bytes_of_string_of_bytes. constructor; [unfold byte_ok; lia|]. apply join_ok; [unfold byte_ok; lia|].
  apply Forall_fmap, Forall_true. intros x. apply bytes_of_string_ok.
Qed.
Lemma split_path (L : list bytes) : L ≠ [] → Forall (λ f, 47 ∉ f) L → split (47 :: join L [47]) [47] = [] :: L.
Proof.
  intros Hn Hf. destruct L as [|x l]; [done|]. apply (split_join 47 ([] :: x :: l)); [done|].
  constructor; [apply not_elem_of_nil|done].
Qed.
Lemma join_trail (L : list bytes) : L ≠ [] → join (L ++ [[]]) [47] = join L [47] ++ [47].
Proof.
  induction L as [|x L IH]; [done|]. intros _. destruct L as [|y L]; [done|].
  cbn [app]. rewrite !join_cons. change (y :: L ++ [[]]) with ((y :: L) ++ [[]]). rewrite IH by done. by rewrite <- app_assoc.
Qed.
(** Neither end of the joined segments is a slash. *)
Lemma join_ends (L : list bytes) : L ≠ [] → Forall (λ f, (47 ∉ f) ∧ f ≠ []) L →
  head (join L [47]) ≠ Some 47 ∧ last (join L [47]) ≠ Some 47 ∧ join L [47] ≠ [].
Proof.
  intros Hn Hf. revert Hn. induction Hf as [|x l [Hx Hne] Hl IH]; [done|]. intros _.
  assert (Hh : head x ≠ Some 47) by (destruct x as [|c x]; [done|]; intros [= ->]; apply Hx; by left).
  destruct l as [|y l].
  - cbn. split_and!; [done| |done]. intros Hlast%last_Some_elem_of. done.
  - rewrite join_cons. destruct IH as (_ & H2 & H3); [done|]. split_and!; [by destruct x| |by destruct x].
    rewrite last_app, last_cons. destruct (last (join (y :: l) [47])) as [z|] eqn:Hz; [done|]. by apply last_None in Hz.
Qed.
Lemma plain_split l : Forall plain l → Forall (λ f, 47 ∉ f) (bytes_of_string <$> l) ∧ Forall (λ f, (47 ∉ f) ∧ f ≠ []) (bytes_of_string <$> l).
Proof. intros Hf. rewrite !Forall_fmap. split; (eapply Forall_impl; [exact Hf|]); intros s (H1 & _ & H2 & _); done. Qed.

Lemma clean_plain L kept rooted : Forall (λ c : bytes, c ≠ [] ∧ c ≠ [46] ∧ c ≠ [46; 46]) L → GoText.clean_go rooted kept L = reverse L ++ kept.
Proof.
  intros Hf. revert kept. induction Hf as [|c l (H1 & H2 & H3) _ IH]; intros kept; [done|]. cbn [GoText.clean_go].
  rewrite !bool_decide_false by done. cbn [orb]. rewrite IH, reverse_cons. by rewrite <- app_assoc.
Qed.
Lemma clean_path l : l ≠ [] → Forall plain l → cleanPath (path_bytes l) = path_bytes l.
Proof.
  intros Hn Hf. destruct (plain_split l Hf) as [Hs He]. assert (Hl : bytes_of_string <$> l ≠ []) by by destruct l.
  destruct (join_ends _ Hl He) as (_ & Hlast & Hne).
  assert (Hclean : GoText.clean (path_bytes l) = path_bytes l).
  { unfold GoText.clean, path_bytes. change (GoText.is_abs (47 :: _)) with true. rewrite split_path by done.
    change (GoText.clean_go true [] ([] :: (bytes_of_string <$> l))) with (GoText.clean_go true [] (bytes_of_string <$> l)). rewrite clean_plain, app_nil_r, reverse_involutive; [cbn zeta; by rewrite bool_decide_false|].
    apply Forall_fmap. eapply Forall_impl; [exact Hf|]. by intros s (_ & _ & ? & ? & ?). }
  unfold cleanPath. rewrite bool_decide_false by done. change (has_prefix [47] (path_bytes l)) with true. cbn zeta iota. rewrite Hclean.
  rewrite bool_decide_false; [done|]. unfold path_bytes. rewrite last_cons. destruct (last (join _ _)) eqn:Hx; [done|]. by apply last_None in Hx.
Qed.

Lemma unescape_plain s : 37 ∉ s → pathUnescape s = s.
Proof.
  intros Hs. assert (Hu : unescape s = Some s); [|unfold pathUnescape; by rewrite Hu]. induction s as [|c s IH]; [done|].
  cbn. destruct (Z.eqb_spec c 37) as [->|]; [exfalso; apply Hs; by left|]. rewrite IH; [done|]. intros Hx. apply Hs. by right.
Qed.
Lemma unescape_all l : Forall plain l → (string_of_bytes ∘ pathUnescape <$> (bytes_of_string <$> l)) = l.
Proof.
  intros Hf. rewrite <- list_fmap_compose. rewrite <- (list_fmap_id l) at 2. apply list_fmap_ext. intros i s Hi.
  cbn. rewrite Forall_lookup in Hf. destruct (Hf i s Hi) as (_ & Hp & _). rewrite unescape_plain by done. apply string_of_bytes_of_string.
Qed.
Lemma segments_path l : l ≠ [] → Forall plain l → segments (path_bytes l) = l ∧ segments (path_bytes l ++ [47]) = l ++ [slash].
Proof.
  intros Hn Hf. destruct (plain_split l Hf) as [Hs He]. assert (Hl : bytes_of_string <$> l ≠ []) by by destruct l.
  unfold segments, path_bytes. rewrite !bool_decide_false by by destruct (join _ _). cbn zeta.
  assert (H1 : drop 1 (47 :: join (bytes_of_string <$> l) [47]) = join (bytes_of_string <$> l) [47]) by done.
  assert (H2 : drop 1 ((47 :: join (bytes_of_string <$> l) [47]) ++ [47]) = join ((bytes_of_string <$> l) ++ [[]]) [47]) by by rewrite join_trail.
  rewrite H1, H2. split.
  - rewrite split_join by done. destruct (last (bytes_of_string <$> l)) as [[|c x]|] eqn:Hx.
    + apply last_Some_elem_of in Hx. rewrite Forall_forall in He. by destruct (He _ Hx).
    + by apply unescape_all.
    + by apply last_None in Hx.
  - rewrite split_join; [|by destruct (bytes_of_string <$> l)|apply Forall_app; split; [done|]; constructor; [apply not_elem_of_nil|done]].
    rewrite last_snoc. rewrite (List.removelast_last (bytes_of_string <$> l) []). by rewrite unescape_all.
Qed.

(** What the table's patterns begin with. *)
Lemma table_heads ρ : ρ ∈ routes → match p_segs (parsePattern (pat ρ)) with
  | Lit s :: _ => s ∈ reserved | Wild _ :: _ => False | [] => ρ = root_route end.
Proof.
  assert (Hall : forallb (λ ρ, match p_segs (parsePattern (pat ρ)) with
    | Lit s :: _ => bool_decide (s ∈ reserved) | Wild _ :: _ => false
    | [] => bool_decide (pat ρ = pat root_route) && bool_decide (gate ρ = gate root_route) end) routes = true) by (vm_compute; reflexivity).
  rewrite forallb_forall in Hall. intros Hin%list_elem_of_In. specialize (Hall ρ Hin). revert Hall. cbv beta. clear Hin.
  destruct (p_segs (parsePattern (pat ρ))) as [|[s|s] l]; [|by intros Hall%bool_decide_eq_true|discriminate]. intros Hall.
  apply andb_prop in Hall as [H1%bool_decide_eq_true H2%bool_decide_eq_true]. destruct ρ. by f_equal.
Qed.
Lemma matchPath_none {R} path ms : matchPath (R := R) path ms [] = None.
Proof. revert ms. induction path as [|s path IH]; intros ms; [done|]. cbn. rewrite !IH. by destruct (bool_decide _). Qed.
Lemma empty_list {A} (l : list A) : (∀ x, x ∉ l) → l = [].
Proof. destruct l as [|x l]; [done|]. intros Hx. exfalso. apply (Hx x). by left. Qed.
(** Below a first segment that is not reserved there is the catch-all only. *)
Lemma unreserved_below m t rest ms : t ∉ reserved →
  matchPath (t :: rest) ms (of_method pat routes m) = (λ r, (r, ms)) <$> leaf true (of_method pat routes m).
Proof.
  intros Ht. cbn [matchPath].
  assert (Hl : lit_child t (of_method pat routes m) = []).
  { apply empty_list. intros [[l b] r] (Hr & _ & Hs & _)%lit_child_elem%of_method_elem. apply table_heads in Hr. by rewrite Hs in Hr. }
  assert (Hw : wild_child (of_method pat routes m) = []).
  { apply empty_list. intros [[l b] r] [x (Hr & _ & Hs & _)%of_method_elem]%wild_child_elem. apply table_heads in Hr. by rewrite Hs in Hr. }
  rewrite Hl, Hw, !matchPath_none. by destruct (bool_decide _).
Qed.
Lemma root_in_table : root_route ∈ routes.
Proof. unfold routes. rewrite !elem_of_app. do 18 right. by left. Qed.
Lemma root_leaf m : leaf true (of_method pat routes m) = if bool_decide (m = ""%string) then Some root_route else None.
Proof.
  destruct (leaf true _) as [r|] eqn:Hl.
  - apply leaf_sound, of_method_elem in Hl as (Hr & Hm & Hs & _). apply table_heads in Hr. rewrite Hs in Hr. subst r. by subst m.
  - case_bool_decide as Hm; [|done]. subst m. destruct (leaf_complete true (of_method pat routes "") root_route) as [x Hx]; [|congruence].
    apply of_method_elem. split; [apply root_in_table|by vm_compute].
Qed.
Lemma unreserved_root m path t rest : segments path = t :: rest → t ∉ reserved → matchMethod pat routes m path = Some (root_route, []).
Proof.
  intros Hs Ht. unfold matchMethod. rewrite Hs, !unreserved_below, !root_leaf by done.
  rewrite (bool_decide_true (""%string = ""%string)) by done. rewrite (bool_decide_false ("GET"%string = ""%string)) by done.
  destruct (bool_decide (m = ""%string)); [done|]. by destruct (bool_decide (m = "HEAD"%string)).
Qed.

Lemma trim_left_head c s : head s ≠ Some c → trim_left s c = s.
Proof. destruct s as [|x s]; [done|]. cbn. destruct (Z.eqb_spec x c) as [->|]; done. Qed.
Lemma parts_path l : l ≠ [] → Forall plain l → FrameArm.parts (path_of l) = l.
Proof.
  intros Hn Hf. destruct (plain_split l Hf) as [Hs He]. assert (Hl : bytes_of_string <$> l ≠ []) by by destruct l.
  destruct (join_ends _ Hl He) as (Hh & Hlast & _). unfold FrameArm.parts. rewrite path_of_bytes.
  assert (Ht : trim (path_bytes l) 47 = join (bytes_of_string <$> l) [47]).
  { unfold trim, trim_right, path_bytes. cbn [trim_left]. rewrite Z.eqb_refl, (trim_left_head 47 (join _ _)) by done.
    rewrite trim_left_head by (by rewrite head_reverse). by rewrite reverse_involutive. }
  rewrite Ht, split_join by done. rewrite <- list_fmap_compose. rewrite <- (list_fmap_id l) at 2. apply list_fmap_ext.
  intros i s _. apply string_of_bytes_of_string.
Qed.

(** C31. A device's path reaches the devices' side. For a token that is one segment and
    none of the API's own first segments, a request of any method for any path under
    the token passes the multiplexer to the catch-all, neither redirected nor caught by
    a route of the panel, and there to exactly the endpoint that the ingest server's
    dispatch names; every other path outside the reserved segments goes to the panel. *)
Theorem device_paths srv ingest spa l r c : l ≠ [] → Forall plain l → head l ∉ Some <$> reserved →
  let u := MkURL (path_of l) (path_of l) in
  findHandler pat routes (Method r) u = Route root_route [] ∧
  root srv ingest spa u r c =
    if bool_decide (FrameArm.token srv ≠ ""%string ∧ head l = Some (FrameArm.token srv))
    then ingest (FrameArm.Handle srv (Method r) (path_of l)) r c else spa u r c.
Proof.
  intros Hn Hf Hh. destruct (segments_path l Hn Hf) as [Hs1 Hs2]. destruct l as [|t l]; [done|].
  assert (Ht : t ∉ reserved). { intros Hin. apply Hh. apply list_elem_of_fmap. by exists t. }
  destruct (plain_split _ Hf) as [_ He]. destruct (join_ends (bytes_of_string <$> t :: l)) as (_ & Hlast & Hne); [done|exact He|].
  assert (Hend : last (path_bytes (t :: l)) ≠ Some 47).
  { unfold path_bytes. rewrite last_cons. destruct (last (join _ _)) eqn:Hx; [done|]. by apply last_None in Hx. }
  split.
  - unfold findHandler. cbn [EscapedPath Path]. rewrite path_of_bytes, clean_path by done.
    replace (if bool_decide (Method r = "CONNECT"%string) then path_bytes (t :: l) else path_bytes (t :: l)) with (path_bytes (t :: l)) by by destruct (bool_decide _).
    unfold slash_redirect. rewrite (unreserved_root _ _ _ _ Hs1 Ht). cbn [app] in Hs2. rewrite (unreserved_root _ _ _ _ Hs2 Ht).
    assert (Hex : exactMatch pat (Some (root_route, [] : list string)) (path_bytes (t :: l) ++ [47]) = false).
    { unfold exactMatch. cbn [negb]. change (p_multi (parsePattern (pat root_route))) with true. cbn [negb]. rewrite last_snoc, bool_decide_true by done. cbn [negb].
      apply bool_decide_false. change (S (length (p_segs (parsePattern (pat root_route))))) with 1%nat. unfold slashes, path_bytes.
      cbn [app List.filter]. rewrite Z.eqb_refl, List.filter_app. cbn. rewrite length_app. cbn. lia. }
    rewrite Hex, andb_false_r, (bool_decide_true (path_bytes (t :: l) = path_bytes (t :: l))), andb_false_r by done. done.
  - unfold root, FrameArm.OwnsPath. cbn [Path]. rewrite parts_path by done. unfold FrameArm.part. cbn [nth head].
    destruct (decide (FrameArm.token srv = ""%string)) as [He0|He0].
    + rewrite bool_decide_true by done. cbn. by rewrite bool_decide_false by naive_solver.
    + rewrite (bool_decide_false (FrameArm.token srv = ""%string)) by done. cbn [negb andb].
      destruct (decide (t = FrameArm.token srv)) as [->|Hx]; [by rewrite !bool_decide_true|by rewrite !bool_decide_false by naive_solver].
Qed.

(** ** The panel *)

Section Panel.
Context (mime : string → string) (f : Web.fsys).
Abbreviation exts := [""; ".br"; ".gz"]%string.
(** A file of dist, as it is or in a form the client's header names. *)
Record sent (r : Web.request) (hdrs : list (string * string)) (p : string) (resp : Web.response) : Prop := {
  sn_file : ∃ e, e ∈ exts ∧ f (p +:+ e) = Some (Some (Web.body resp)) ∧
    (e ≠ ""%string → ∃ enc, (enc, e) ∈ Web.encodings ∧ GoText.Contains (Web.AcceptEncoding r) enc = true ∧
       ("Content-Encoding"%string, enc) ∈ Web.headers resp);
  sn_type : ("Content-Type"%string, Web.contentType mime p) ∈ Web.headers resp;
  sn_headers h : h ∈ Web.headers resp → h ∈ hdrs ∨ h.1 ∈ ["Vary"; "Content-Encoding"; "Content-Type"]%string;
  sn_given h : h ∈ hdrs → h ∈ Web.headers resp }.

Lemma negotiate_spec ae p enc cp : Web.negotiateEncoding f ae p = Some (enc, cp) →
  ∃ e, (enc, e) ∈ Web.encodings ∧ cp = (p +:+ e)%string ∧ GoText.Contains ae enc = true ∧ Web.regularFileExists f cp = true.
Proof.
  unfold Web.negotiateEncoding. destruct (List.filter _ _) as [|[x y] l] eqn:Hf; [done|]. intros [= <- <-].
  assert (Hin : (x, y) ∈ List.filter (λ e, GoText.Contains ae e.1 && Web.regularFileExists f (p +:+ e.2)) Web.encodings) by (rewrite Hf; left).
  apply list_elem_of_In, List.filter_In in Hin as [Hin [H1 H2]%andb_prop]. exists y. split; [by apply list_elem_of_In|done].
Qed.
Lemma append_empty (s : string) : (s +:+ "")%string = s.
Proof. induction s as [|c s IH]; [done|]. change (String c (s +:+ "") = String c s)%string. by rewrite IH. Qed.
Lemma regular_data p : Web.regularFileExists f p = true → Web.ValidPath p = true ∧ ∃ data, f p = Some (Some data).
Proof. unfold Web.regularFileExists. intros [H1 H2]%andb_prop. split; [done|]. destruct (f p) as [[data|]|]; try done. by exists data. Qed.

Ltac added_headers := let h := fresh "h" in let Hin := fresh "Hin" in intros h [?|Hin]%elem_of_app; [by left|right; cbn in Hin];
  repeat (apply elem_of_cons in Hin as [->|Hin]; [cbn; set_solver|]); by apply not_elem_of_nil in Hin.
Lemma serveFile_sent hdrs r p : Web.regularFileExists f p = true →
  Web.status (Web.serveFile mime f hdrs r p) = 200 ∧ sent r hdrs p (Web.serveFile mime f hdrs r p).
Proof.
  intros [_ [data Hd]]%regular_data. unfold Web.serveFile.
  destruct (Web.hasCompressedSibling f p); [destruct (Web.negotiateEncoding f _ p) as [[enc cp]|] eqn:Hn|].
  - apply negotiate_spec in Hn as (e & He & -> & Hc & [_ [z Hz]]%regular_data). unfold Web.serveContent. rewrite Hz.
    split; [done|]. split; cbn.
    + exists e. split; [|split; [done|intros _; exists enc; split; [done|]; split; [done|set_solver]]].
      unfold Web.encodings in He. apply elem_of_cons in He as [[= -> ->]|[= -> ->]%list_elem_of_singleton]; set_solver.
    + set_solver.
    + added_headers.
    + set_solver.
  - unfold Web.serveContent. rewrite Hd. split; [done|]. split; cbn.
    + exists ""%string. split; [set_solver|]. split; [by rewrite append_empty|done].
    + set_solver.
    + added_headers.
    + set_solver.
  - unfold Web.serveContent. rewrite Hd. split; [done|]. split; cbn.
    + exists ""%string. split; [set_solver|]. split; [by rewrite append_empty|done].
    + set_solver.
    + added_headers.
    + set_solver.
Qed.

Definition immutable : string * string := ("Cache-Control", "public, max-age=31536000, immutable")%string.
(** The panel's handler serves files of dist and nothing else. A 200 goes to GET and
    HEAD only and carries the bytes of a regular file under a valid path, which has no
    parent step: the file the cleaned path names, or, for a browser's navigation to
    anything that is no file, index.html; as it is or in a compressed form the client's
    header names, declared as such, always under the type of the original. The content
    security policy is on exactly the HTML, and only what is under assets/ is marked
    immutable. Everything else is a 404, or a 503 without a build. *)
Theorem panel_serves_dist r : let resp := Web.handlerFor mime f r in
  (Web.status resp = 404 ∨ Web.status resp = 503 ∧ Web.regularFileExists f "index.html" = false) ∨
  Web.status resp = 200 ∧ Web.r_method r ∈ ["GET"; "HEAD"]%string ∧ ∃ p hdrs, sent r hdrs p resp ∧ Web.ValidPath p = true ∧
    (p = Web.target r ∨ p = "index.html"%string ∧ Web.acceptsHTML r = true ∧ Web.regularFileExists f (Web.target r) = false) ∧
    (Web.csp_header ∈ Web.headers resp ↔ Web.has_suffix ".html" p = true) ∧
    (immutable ∈ Web.headers resp → Web.hashed p = true).
Proof.
  cbn zeta. unfold Web.handlerFor. destruct (_ && _) eqn:Hm; [left; by left|].
  assert (Hmeth : Web.r_method r ∈ ["GET"; "HEAD"]%string).
  { apply andb_false_iff in Hm as [Hm|Hm]; apply negb_false_iff, bool_decide_eq_true in Hm; rewrite Hm; set_solver. }
  destruct (Web.regularFileExists f (Web.target r)) eqn:Hr; cbn [negb].
  - right. set (hdrs := _ :: _). destruct (serveFile_sent hdrs r (Web.target r) Hr) as [Hs Hsent].
    split; [done|]. split; [done|]. exists (Web.target r), hdrs. split; [done|]. split; [by apply regular_data in Hr as [? _]|].
    split; [by left|]. split.
    + split.
      * intros [Hin|Hin]%(sn_headers _ _ _ _ Hsent); [|set_solver]. subst hdrs.
        destruct (Web.has_suffix ".html" (Web.target r)); [done|]. apply list_elem_of_singleton in Hin.
        by destruct (Web.hashed (Web.target r)).
      * intros He. apply (sn_given _ _ _ _ Hsent). subst hdrs. rewrite He. right. by left.
    + intros [Hin|Hin]%(sn_headers _ _ _ _ Hsent); [|set_solver]. subst hdrs. destruct (Web.hashed (Web.target r)); [done|].
      exfalso. apply elem_of_cons in Hin as [Hin|Hin]; [done|]. destruct (Web.has_suffix _ _); [|by apply not_elem_of_nil in Hin].
      by apply list_elem_of_singleton in Hin.
  - destruct (Web.acceptsHTML r) eqn:Ha; [|left; by left]. unfold Web.serveIndex.
    destruct (Web.regularFileExists f "index.html") eqn:Hi; cbn [negb]; [|left; by right].
    right. destruct (serveFile_sent [Web.no_cache; Web.csp_header] r "index.html" Hi) as [Hs Hsent].
    split; [done|]. split; [done|]. exists "index.html"%string, [Web.no_cache; Web.csp_header]. split; [done|]. split; [done|]. split; [by right|].
    split; [split; [done|intros _; apply (sn_given _ _ _ _ Hsent); right; by left]|].
    intros [Hin|Hin]%(sn_headers _ _ _ _ Hsent); [|set_solver]. exfalso.
    apply elem_of_cons in Hin as [Hin|Hin%list_elem_of_singleton]; done.
Qed.
End Panel.

(** Found as written: a refusal by weight still counts as acceptance. *)
Theorem refused_encoding_served mime : let f p := match p with "app.js"%string => Some (Some [1]) | "app.js.br"%string => Some (Some [2]) | _ => None end in
  let resp := Web.handlerFor mime f (Web.MkReq "GET" "/app.js" "*/*" "identity, br;q=0") in
  Web.body resp = [2] ∧ ("Content-Encoding", "br")%string ∈ Web.headers resp.
Proof. cbn zeta. split; [by vm_compute|]. vm_compute. right. right. by left. Qed.

(** ** Listeners *)

(** The listeners that open the break-glass key: the address of the configuration if it
    is a loopback address, or else the second one, whatever its address is. *)
Theorem loopback_listeners addr lb s : s ∈ adminListeners addr lb → l_origin s = OriginLoopback →
  originForAddr (l_addr s) = OriginLoopback ∧ adminListeners addr lb = [s] ∨ l_addr s = lb ∧ originForAddr addr = OriginPublic.
Proof.
  unfold adminListeners. cbn [l_origin]. destruct (originForAddr addr) eqn:Ho.
  - rewrite bool_decide_true by done. cbn [orb]. intros ->%list_elem_of_singleton _. left. split; [exact Ho|done].
  - rewrite bool_decide_false by done. cbn [orb]. destruct (_ || _).
    + by intros ->%list_elem_of_singleton.
    + intros [-> | ->%list_elem_of_singleton]%elem_of_cons; [done|]. by right.
Qed.
(** With the default second address the break-glass key works on loopback addresses only. *)
Theorem default_loopback addr s : s ∈ adminListeners addr (env "" "127.0.0.1:8081") → l_origin s = OriginLoopback →
  originForAddr (l_addr s) = OriginLoopback.
Proof.
  intros Hs Ho. destruct (loopback_listeners _ _ s Hs Ho) as [[? _]|[-> _]]; [done|]. vm_compute. reflexivity.
Qed.
(** Found as written: the second address is not looked at. *)
Theorem loopback_unchecked : adminListeners ":8080" "0.0.0.0:8081" =
  [MkSpec ":8080" OriginPublic; MkSpec "0.0.0.0:8081" OriginLoopback] ∧ originForAddr "0.0.0.0:8081" = OriginPublic.
Proof. split; vm_compute; reflexivity. Qed.

(** Found as written: a wrong method on a known path of the API is the panel's, which
    answers a browser's GET with its index page. *)
Theorem wrong_method_served : findHandler pat routes "GET" (MkURL "/api/command" "/api/command") = Route root_route [] ∧
  ∀ mime data, Web.status (Web.handlerFor mime (λ p, if bool_decide (p = "index.html"%string) then Some (Some data) else None)
    (Web.MkReq "GET" "/api/command" "text/html" "")) = 200.
Proof. split; [vm_compute; reflexivity|]. intros mime data. reflexivity. Qed.

(** ** The start *)

(** A database that answers within the tries starts the server, and only then. *)
Lemma ping_spec tries ping n err : pingWithRetry tries ping n err = None ↔ ∃ k, (n ≤ k < n + tries)%nat ∧ ping k = None.
Proof.
  revert n err. induction tries as [|tries IH]; intros n err; cbn; [split; [done|intros (k & ? & _); lia]|].
  destruct (ping n) as [e|] eqn:Hp.
  - rewrite IH. split; intros (k & Hk & Hn); exists k; (split; [|done]); [lia|]. destruct (decide (k = n)) as [->|]; [congruence|lia].
  - split; [intros _; exists n; split; [lia|done]|done].
Qed.
Theorem pool_ceiling v cpus : 0 ≤ cpus → 1 ≤ maxConns v cpus ∧ (v = ""%string → maxConns v cpus = Z.max 16 (4 * cpus)).
Proof.
  intros Hc. unfold maxConns. split.
  - destruct (bool_decide _); [zcase; lia|]. destruct (atoi v) as [n [e|]]; repeat zcase; lia.
  - intros ->. rewrite bool_decide_true by done. zcase; lia.
Qed.

(** ** The firmware files of the onboarding page *)

(** What is served is a regular file below the configured directory: no step of its
    name leads up. *)
Theorem onboard_contained dir path file name data : onboardFW dir path file = Artifact name data →
  dir ≠ ""%string ∧ file (dir +:+ "/" +:+ name)%string = Some (Some data) ∧ [46; 46] ∉ split (bytes_of_string name) [47].
Proof.
  unfold onboardFW. case_bool_decide as Hd; [done|]. cbn zeta. set (nm := string_of_bytes _). clearbody nm.
  destruct (bool_decide (nm = ""%string) || negb (Web.ValidPath nm)) eqn:Hv; [done|]. destruct (file _) as [[d|]|] eqn:Hf; try done. intros [= <- <-].
  split; [done|]. split; [done|]. apply orb_false_iff in Hv as [_ Hv%negb_false_iff]. unfold Web.ValidPath in Hv.
  apply andb_prop in Hv as [_ [Hx%bool_decide_eq_true|Hx]%orb_prop].
  - rewrite Hx. vm_compute. intros Hin%list_elem_of_singleton. done.
  - rewrite forallb_forall in Hx. intros Hin%list_elem_of_In%Hx. done.
Qed.

(** ** Samples *)

Definition ex_behind (pt : string) (u : url) (ms : list string) : handler := ex_handler.
Definition ex_url : url := MkURL "/api/tokens" "/api/tokens".
(** The break-glass key mints a token over the loopback listener. *)
Lemma server_gated_witness : ∃ c pr, genuine ex_derive nobody 60000000000 (with_id "7f" (ex_request ex_bearer (Some OriginLoopback))) ex_tables c pr ∧
  IsAdmin pr = true ∧ (λ x, match x with Ok rep => rStatus rep | Err _ => 0 end)
    (backend ex_derive 3 ex_behind "7f" ex_url (ex_request ex_bearer (Some OriginLoopback)) no_ctx (ex_proc ex_tables) []).1.1 = 200.
Proof.
  assert (Hrun : (λ x, match x with Ok rep => rStatus rep | Err _ => 0 end)
    (backend ex_derive 3 ex_behind "7f" ex_url (ex_request ex_bearer (Some OriginLoopback)) no_ctx (ex_proc ex_tables) []).1.1 = 200)
    by (vm_compute; reflexivity).
  assert (Hroute : findHandler pat routes "POST" ex_url = Route (MkRoute "POST /api/tokens" Admin) []) by (vm_compute; reflexivity).
  destruct (server_gated ex_derive 3 nobody ex_behind "7f" ex_url (ex_request ex_bearer (Some OriginLoopback)) (ex_proc ex_tables) [] (ex_cache_ok nobody))
    as [(rep & p' & fs' & H & Hs & _)|(ρ & ms & c & p1 & fs1 & _ & Hf & _ & Hall & _)].
  - rewrite H in Hrun. cbn in Hrun. rewrite Hrun in Hs. exfalso. revert Hs. clear. set_solver.
  - change (Method (with_id "7f" (ex_request ex_bearer (Some OriginLoopback)))) with "POST"%string in Hf. rewrite Hroute in Hf. injection Hf as <- _.
    destruct Hall as (pr & Hg & Ha & _). exists c, pr. split; [exact Hg|]. split; [exact Ha|exact Hrun].
Defined.

Lemma ex_plain : Forall plain ["tok"; "c2"; "challenge"]%string.
Proof. repeat constructor; (apply (bool_decide_unpack _); vm_compute; exact I). Qed.
Definition ex_get : request := MkRequest "GET" "" None "" "" "10.0.0.1:4711" (Some OriginPublic) "1" 0.
Definition ex_ingest (e : FrameArm.endpoint) : handler := λ r c,
  mret (Reply (if decide (e = FrameArm.EChallenge) then 200 else 404) [] JNull).
Lemma device_paths_witness :
  findHandler pat routes "GET" (MkURL "/tok/c2/challenge" "/tok/c2/challenge") = Route root_route [] ∧
  (λ x, match x with Ok rep => rStatus rep | Err _ => 0 end)
    (root FrameArm.ex_server ex_ingest (λ _, ex_handler) (MkURL "/tok/c2/challenge" "/tok/c2/challenge") ex_get no_ctx (ex_proc ex_tables) []).1.1 = 200.
Proof.
  destruct (device_paths FrameArm.ex_server ex_ingest (λ _, ex_handler) ["tok"; "c2"; "challenge"]%string ex_get no_ctx) as [H1 H2];
    [discriminate|exact ex_plain|apply (bool_decide_unpack _); vm_compute; exact I|].
  assert (Hp : path_of ["tok"; "c2"; "challenge"]%string = "/tok/c2/challenge"%string) by (vm_compute; reflexivity).
  rewrite Hp in H1, H2. split; [exact H1|]. rewrite H2. vm_compute. reflexivity.
Defined.
End BackendLaws.

Module WarmLaws.
Import PlaylistStore(PlaylistItem) Warm.

Lemma todo_go items acc : NoDup acc → NoDup (foldl add_variant acc items) ∧ ∀ v, v ∈ foldl add_variant acc items ↔ v ∈ acc ∨ v ∈ items.
Proof.
  revert acc. induction items as [|x items IH]; intros acc Hn; cbn [foldl].
  - split; [done|]. intros v. split; [by left|]. intros [?|Hv]; [done|by apply not_elem_of_nil in Hv].
  - assert (Hx : NoDup (add_variant acc x) ∧ ∀ v, v ∈ add_variant acc x ↔ v ∈ acc ∨ v = x).
    { unfold add_variant. case_decide; [split; [done|naive_solver]|]. split; [|intros v; by rewrite elem_of_app, list_elem_of_singleton].
      apply NoDup_app. split; [done|]. split; [|apply NoDup_singleton]. intros v Hv ->%list_elem_of_singleton. done. }
    destruct Hx as [Hx1 Hx2]. destruct (IH _ Hx1) as [H1 H2]. split; [done|]. intros v. rewrite H2, Hx2, elem_of_cons. tauto.
Qed.
(** Each variant of the playlist once, however many items show it. *)
Lemma todo_spec items : NoDup (todo items) ∧ ∀ v, v ∈ todo items ↔ ∃ it, it ∈ items ∧ variant_of it = v.
Proof.
  destruct (todo_go (variant_of <$> items) [] (NoDup_nil_2)) as [H1 H2]. split; [done|]. intros v. unfold todo. rewrite H2, list_elem_of_fmap.
  split; [intros [Hx|(it & -> & Hi)]; [by apply not_elem_of_nil in Hx|by exists it]|]. intros (it & Hi & <-). right. by exists it.
Qed.

Section Warm.
Context (box_open : string → bytes → bytes → option bytes) (marshal_request : Supervisor.Request → option bytes)
  (unmarshal_meta : bytes → option FaasProto.ResponseMeta) (text : Worker.failure → string) (rfc3339 : Z → string)
  (s : Supervisor.Supervisor) (n : nat).
Abbreviation step := (warmer_step box_open marshal_request unmarshal_meta text rfc3339 s n).
Abbreviation reachable := (warmer_reachable box_open marshal_request unmarshal_meta text rfc3339 s n).

(** The log of a notification that is through. *)
Inductive batch : list event → Prop :=
| BWarm id items ws : ws ≡ₚ todo items → batch (Started id items :: (Warmed <$> ws) ++ [Woken id])
| BSkip id : batch [Skipped id; Woken id].
(** The notification at hand. *)
Definition at_hand (ph : phase) (l : list event) : Prop :=
  match ph with
  | Listening => l = []
  | Warming id b => ∃ items, l = Started id items :: (Warmed <$> through b) ∧ waiting b ++ running b ++ through b ≡ₚ todo items ∧
      (length (running b) ≤ n)%nat
  | Waking id => (∃ items ws, l = Started id items :: (Warmed <$> ws) ∧ ws ≡ₚ todo items) ∨ l = [Skipped id]
  end.

(** Warm, then wake. However the warming of a playlist goes and whatever fails: its
    distinct variants are each driven once, at most the limit at a time, and only when
    all of them are through are the playlist's devices told to refresh; one
    notification after the other. *)
Theorem warm_then_wake w0 d fs w : reachable (initial w0 d fs) w →
  ∃ l open, w_log w = concat l ++ open ∧ Forall batch l ∧ at_hand (w_phase w) open.
Proof.
  induction 1 as [|w w' _ IH Hs]; [by exists [], []|]. destruct IH as (l & open & Hl & Hb & Ho).
  destruct Hs as [w ? ? ? Hp _|w ? id items ? ? Hp _ _|w ? id ? ? ? Hp _ _|w id v rest rn thr Hp Hn|w id wt pre v post thr ? ? ? Hp _|w id thr Hp|w id ? ? ? ? Hp _];
    rewrite Hp in Ho; cbn in Ho |- *.
  - exists l, open. rewrite Hp. done.
  - subst open. exists l, [Started id items]. rewrite Hl, app_nil_r. split; [done|]. split; [done|]. exists items. split; [done|].
    split; [by rewrite !app_nil_r|cbn; lia].
  - subst open. exists l, [Skipped id]. rewrite Hl, app_nil_r. split; [done|]. split; [done|]. by right.
  - exists l, open. split; [done|]. split; [done|]. destruct Ho as (items & -> & Hperm & Hle). exists items. cbn in *. split; [done|].
    split; [|rewrite length_app; cbn; lia]. rewrite <- Hperm, (Permutation_app_comm rn [v]). cbn. by rewrite <- Permutation_middle.
  - destruct Ho as (items & -> & Hperm & Hle). eexists l, _. split; [rewrite Hl, <- app_assoc; reflexivity|]. split; [done|]. exists items. cbn in *.
    split; [by rewrite fmap_app|]. rewrite !length_app in *. cbn in *. split; [|lia]. rewrite <- Hperm, (Permutation_app_comm thr [v]), <- !app_assoc. cbn. by rewrite <- (Permutation_middle post thr v).
  - exists l, open. split; [done|]. split; [done|]. destruct Ho as (items & -> & Hperm & _). left. by exists items, thr.
  - destruct Ho as [(items & ws & -> & Hperm)| ->].
    + exists (l ++ [Started id items :: (Warmed <$> ws) ++ [Woken id]]), []. rewrite app_nil_r, concat_app, Hl. cbn. rewrite app_nil_r, <- app_assoc.
      split; [done|]. split; [|done]. apply Forall_app. split; [done|]. constructor; [by constructor|done].
    + exists (l ++ [[Skipped id; Woken id]]), []. rewrite app_nil_r, concat_app, Hl. cbn. rewrite <- app_assoc.
      split; [done|]. split; [|done]. apply Forall_app. split; [done|]. constructor; [constructor|done].
Qed.

Definition left_over (b : warming) : nat := (2 * length (waiting b) + length (running b))%nat.
(** A batch never gets stuck, and every step of it is one towards its end. *)
Theorem warming_ends w id b : (1 ≤ n)%nat → w_phase w = Warming id b → (∃ w', step w w') ∧
  ∀ w', step w w' → w_phase w' = Waking id ∨ ∃ b', w_phase w' = Warming id b' ∧ (left_over b' < left_over b)%nat.
Proof.
  intros Hn Hw. destruct b as [wt rn thr]. split.
  - destruct rn as [|v rn].
    + destruct wt as [|v wt]; eexists; [by eapply NWarm|]. eapply NSpawn; [exact Hw|cbn; lia].
    + destruct (warm_variant box_open marshal_request unmarshal_meta text rfc3339 s v (w_world w) (w_faults w)) as [[a world'] fs'] eqn:Hv.
      eexists. eapply (NWork _ _ _ _ _ s n w id wt [] v rn); [exact Hw|exact Hv].
  - intros w' Hs. destruct Hs; simplify_eq; try (rewrite Hw in *; simplify_eq); cbn.
    all: try (right; eexists; split; [reflexivity|]; unfold left_over; cbn; rewrite ?length_app; cbn; lia). by left.
Qed.
End Warm.
End WarmLaws.
