(* ===== verification/OpsOtaView.v ===== *)
(** * The view of the console's OTA pane ([tools/picpak-ops/internal/ota/view.go])

    The two tables, the form, the footer and the status line, over the state of
    [OpsOtaPane]. Parameters: the styles and text widths of the widget library, and the
    drawn form of a text input. An instant of the pane is in nanoseconds, a device's
    last report in whole seconds, as its column. *)

From Stdlib Require Import SpecFloat.
From S2P Require Import Prelude GoLib GoText Bwry OpsOta OpsOtaPane OpsKeys OpsShell OpsConfig.
Import GoLib OpsOta OpsOtaPane.

Module OpsOtaView.

Record viewColors := MkColors { v_ok : string; v_warning : string; v_err : string; v_muted : string; v_sel : string; v_border : string }.
Definition resolveColors (c : OpsConfig.Config) : viewColors :=
  let role r := default ""%string (OpsConfig.Theme c !! r) in
  MkColors (role "status_active") (role "status_working") (role "status_error") (role "status_quiet") (role "focus_border") (role "border").

(** [time.Time.Sub], and the hours, minutes and seconds of a duration. *)
Definition sub (t u : Z) : Z := Z.max (- 2 ^ 63) (Z.min (2 ^ 63 - 1) (t - u)).
Definition ns_second : Z := 1000000000.
Definition in_unit (unit d : Z) : spec_float :=
  Bwry.f64_add (Bwry.f64_of_Z (Z.quot d unit)) (Bwry.f64_div (Bwry.f64_of_Z (Z.rem d unit)) (Bwry.f64_of_Z unit)).
Definition ageString (t : option Z) (now : Z) : string :=
  match t with
  | None => "never"%string
  | Some t =>
      let d := sub now t in
      let s := Bwry.trunc_f64 (in_unit ns_second d) in
      let m := Bwry.trunc_f64 (in_unit (60 * ns_second) d) in
      let h := Bwry.trunc_f64 (in_unit (3600 * ns_second) d) in
      let days := Bwry.trunc_f64 (Bwry.f64_div (in_unit (3600 * ns_second) d) (Bwry.f64_of_Z 24)) in
      if d <? 60 * ns_second then (format_int s ++ "s ago")%string
      else if d <? 3600 * ns_second then (format_int m ++ "m ago")%string
      else if d <? 24 * 3600 * ns_second then (format_int h ++ "h ago")%string
      else (format_int days ++ "d ago")%string
  end.
(** [%-12s]: padded by characters, a byte that continues one not counted. *)
Definition runes (s : string) : nat := length (List.filter (λ c, negb ((128 <=? c) && (c <=? 191))) (bytes_of_string s)).
Definition left_pad (n : nat) (s : string) : string := (s ++ string_of_bytes (replicate (n - runes s) 32))%string.

Section View.
Context {TI : TextInput} `{OpsShell.Lipgloss} (err_text : ota_err → string) (draw : input → string).
#[local] Abbreviation nl := OpsShell.newline.
Definition truncate (s : string) (w : Z) : string :=
  if (w <=? 1) || (OpsShell.cells s <=? w) then s
  else if w - 1 <? zlen (bytes_of_string s) then (string_of_bytes (take (Z.to_nat (w - 1)) (bytes_of_string s)) ++ "…")%string
  else s.
Definition quiet (k : viewColors) (s : string) : string := OpsShell.paint (v_muted k) false s.
Definition bold (s : string) : string := OpsShell.paint "" true s.
Definition selected (k : viewColors) (s : string) : string := OpsShell.paint (v_sel k) true s.

Definition renderNoDB (k : viewColors) (w : Z) : string :=
  OpsKeys.Join [bold "ota — no database configured";
    quiet k (truncate "Set [database].dsn to read firmware versions, channels and rollouts." w);
    quiet k (truncate "The bench cockpit (build / hosts / flash / console) runs without a DB." w)] nl.
Definition renderDirectBanner (k : viewColors) (w : Z) : string :=
  OpsShell.paint (v_err k) true (truncate "⚠ DIRECT-WRITE MODE — bypassing backend authority (interim direct-pgx writes)" w).
Definition is_active (t u : activeTable) : bool :=
  match t, u with tableVersions, tableVersions | tableDevices, tableDevices => true | _, _ => false end.
Definition tableHeading (lbl : string) (t : activeTable) (p : otaPane) : string :=
  bold ((if is_active (active p) t then "▼ " else "  ") ++ lbl).
Definition cursor_mark (here : bool) : string := if here then "▸ "%string else "  "%string.
(** The lines of a table under its heading; an empty one says so. *)
Definition table {A} (k : viewColors) (heading none : string) (line : Z → A → string) (l : list A) : string :=
  match l with
  | [] => (heading ++ nl ++ quiet k none)%string
  | _ => string_of_bytes (trim_right (bytes_of_string (heading ++ nl ++ foldr String.append "" (imap (λ i x, line (Z.of_nat i) x ++ nl) l))%string) 10)
  end.
Definition version_line (k : viewColors) (w : Z) (p : otaPane) (i : Z) (v : FirmwareVersion) : string :=
  let here := is_active (active p) tableVersions && (i =? verCur p) in
  let short := string_of_bytes (take 12 (bytes_of_string (v_sha256 v))) in
  let line := (cursor_mark here ++ left_pad 12 (v_version v) ++ " " ++ short ++ "  " ++ format_int (v_size v) ++ " B")%string in
  if here then selected k (truncate line w) else truncate line w.
Definition renderVersions (k : viewColors) (w : Z) (p : otaPane) : string :=
  table k (tableHeading "Firmware versions" tableVersions p) "  (none registered)" (version_line k w p) (Versions (state p)).
Definition or_dash (s : string) : string := if bool_decide (s = ""%string) then "—"%string else s.
Definition last_report (d : DeviceInfo) : option Z :=
  if HasReport d && negb (bool_decide (i_last_seen d = zero_time)) then Some (i_last_seen d * ns_second) else None.
Definition deviceVerdict (d : DeviceOTA) (now : Z) : string :=
  let age := ageString (last_report (info d)) now in
  if Behind d then ("behind (seen " ++ age ++ ")")%string else ("seen " ++ age)%string.
Definition device_text (here : bool) (d : DeviceOTA) (now : Z) : string :=
  let i := info d in
  let name := if bool_decide (i_label i = ""%string) then i_serial i else (i_serial i ++ "·" ++ i_label i)%string in
  let run := if bool_decide (RunningVer i = ""%string) then "?"%string else RunningVer i in
  let st := match d_rollout d with Some r => State r | None => "—"%string end in
  (cursor_mark here ++ left_pad 16 name ++ " " ++ left_pad 7 (i_channel i) ++ " " ++ run ++ "→" ++ or_dash (r_version (Resolved d)) ++
   " [" ++ r_source (Resolved d) ++ "] " ++ st ++ " " ++ deviceVerdict d now)%string.
Definition device_line (k : viewColors) (w now : Z) (p : otaPane) (i : Z) (d : DeviceOTA) : string :=
  let here := is_active (active p) tableDevices && (i =? devCur p) in
  let line := truncate (device_text here d now) w in
  if here then selected k line else if Behind d then OpsShell.paint (v_warning k) false line else line.
Definition renderDevices (k : viewColors) (w now : Z) (p : otaPane) : string :=
  table k (tableHeading "Devices (target vs running)" tableDevices p) "  (no devices reported / configured)" (device_line k w now p) (Devices (state p)).
Definition field_line (w foc i : Z) (f : formField) : string :=
  (truncate (cursor_mark (Z.eqb i foc) ++ left_pad 9 (label f ++ ":") ++ " " ++ draw (f_input f)) w ++ nl)%string.
Definition renderForm (k : viewColors) (w : Z) (f : formState) : string :=
  (bold (truncate (title f) w) ++ nl ++
   (if scanning f then quiet k "  scanning build artifact…" ++ nl else "") ++
   foldr String.append "" (imap (λ i x, field_line w (focus f) (Z.of_nat i) x) (fields f)) ++
   (if bool_decide (f_info f = "") then "" else quiet k (truncate ("  " ++ f_info f) w) ++ nl) ++
   (if bool_decide (errMsg f = "") then "" else OpsShell.paint (v_err k) false (truncate ("  " ++ errMsg f) w) ++ nl) ++
   quiet k "  enter submit · esc cancel · up/down field")%string.
Definition direct_write (p : otaPane) : bool := match writer p with Some x => IsDirect x | None => false end.
Definition authority (p : otaPane) : string :=
  match writer p with None => "read-only"%string | Some x => if IsDirect x then "direct-write"%string else "admin-api"%string end.
Definition renderFooter (k : viewColors) (w now : Z) (p : otaPane) : string :=
  let chans := OpsKeys.Join ((λ c, c_name c ++ "=" ++ or_dash (DefaultVersion c))%string <$> Channels (state p)) " " in
  quiet k (truncate ("channels: " ++ chans ++ " · loaded " ++ ageString (lastLoad p) now ++ " · " ++ authority p) w).
Definition renderStatus (k : viewColors) (w : Z) (p : otaPane) : string :=
  match loadErr p with
  | Some e => OpsShell.paint (v_err k) false (truncate ("DB error: " ++ err_text e) w)
  | None => if bool_decide (status p = ""%string) then ""%string else quiet k (truncate (status p) w)
  end.
Definition View (k : viewColors) (size now : Z) (p : otaPane) : string :=
  let w := if size <=? 0 then 80 else size in
  if negb (store p) then renderNoDB k w
  else
    let banner := if direct_write p then (renderDirectBanner k w ++ nl)%string else ""%string in
    match form p with
    | Some f => (banner ++ renderForm k w f ++ nl ++ renderStatus k w p)%string
    | None => (banner ++ renderVersions k w p ++ nl ++ renderDevices k w now p ++ nl ++ renderFooter k w now p ++ nl ++ renderStatus k w p)%string
    end.
End View.
End OpsOtaView.

Module OpsOtaViewLaws.
Import OpsOtaView.

Section View.
Context {TI : TextInput} `{OpsShell.Lipgloss} (err_text : ota_err → string) (draw : input → string).

(** Writes past the backend are never silent: with the direct writer the warning is the
    first line of every view over a database, the forms included; and without it there
    is none. *)
Theorem direct_banner k size now p : store p = true →
  let w := if size <=? 0 then 80 else size in ∃ rest,
  View err_text draw k size now p = ((if direct_write p then renderDirectBanner k w ++ OpsShell.newline else "") ++ rest)%string ∧
  match form p with
  | Some f => rest = (renderForm draw k w f ++ OpsShell.newline ++ renderStatus err_text k w p)%string
  | None => ∃ more, rest = (renderVersions k w p ++ more)%string
  end.
Proof.
  intros Hs. cbn zeta. unfold View. rewrite Hs. cbn [negb]. destruct (form p) as [f|].
  - eexists. split; [|reflexivity]. by destruct (direct_write p).
  - eexists. split; [|by eexists]. by destruct (direct_write p).
Qed.

(** A device that is not known to differ is never called behind, and one that does is. *)
Theorem verdict_honest d now : (∃ s, deviceVerdict d now = ("behind (seen " ++ s)%string) ↔ Behind d = true.
Proof.
  unfold deviceVerdict. destruct (Behind d); split; [done|by eexists|intros [s Hs]; done|done].
Qed.

(** Found as written: the cut counts bytes, so that it can end within a character. *)
Theorem truncate_splits : OpsShell.cells "ab·cd" = 5 → bytes_of_string (truncate "ab·cd" 4) = [97; 98; 194; 226; 128; 166].
Proof. intros Hc. unfold truncate. rewrite Hc. reflexivity. Qed.
End View.

(** Found as written: a report ahead of the console's clock has a negative age. *)
Example age_samples : ageString None 0 = "never"%string ∧ ageString (Some 0) (59 * ns_second + 999999999) = "59s ago"%string ∧
  ageString (Some 0) (60 * ns_second) = "1m ago"%string ∧ ageString (Some 0) (50 * 3600 * ns_second) = "2d ago"%string ∧
  ageString (Some (5 * ns_second)) 0 = "-5s ago"%string.
Proof. vm_compute. by split_and!. Qed.
End OpsOtaViewLaws.
