(* ===== verification/OpsMain.v ===== *)
(** * The console's database pool and its start ([tools/picpak-ops/internal/db/pool.go],
    [cmd/picpak-ops/main.go])

    The one pool with its read-only sessions and its host-free errors, and the order in
    which the program is put together. What PostgreSQL and pgx answer is an input of
    each step. *)

From S2P Require Import Prelude GoLib OpsShell OpsConfig OpsTele.
Import GoLib.

Module OpsDb.
#[local] Abbreviation Ok := Prelude.Ok.
#[local] Abbreviation Err := Prelude.Err.

(** An error of the server, with its SQLSTATE, or of the network, whose text has the
    host in it. *)
Inductive conn_err := Server (msg code : string) | Network (text : string).
Definition readOnlySessionSQL : string := "SET SESSION default_transaction_read_only = on".
Definition connError (stage : string) (e : conn_err) : string :=
  match e with
  | Server msg code => ("db: " ++ stage ++ ": " ++ msg ++ " (SQLSTATE " ++ code ++ ")")%string
  | Network _ => ("db: " ++ stage ++ " failed; check database.dsn host/port/credentials and that the backend is reachable")%string
  end.
Definition int32 (v : Z) : Z := (v + 2 ^ 31) mod 2 ^ 32 - 2 ^ 31.
Definition ms : Z := 1000000.
(** [pgxpool.Config] as the function leaves it; [None] is what the DSN says. *)
Record pool_config := MkConf { MaxConns : option Z; DialTimeout : option Z; statement_timeout : option string; AfterConnect : option string }.
Definition configure (d : OpsConfig.Database) : pool_config :=
  MkConf (if 0 <? OpsConfig.db_max_conns d then Some (int32 (OpsConfig.db_max_conns d)) else None)
    (if 0 <? OpsConfig.db_connect d then Some (OpsConfig.db_connect d) else None)
    (if 0 <? OpsConfig.db_statement d then Some (format_int (Z.quot (OpsConfig.db_statement d) ms)) else None)
    (if OpsConfig.db_read_only d then Some readOnlySessionSQL else None).
(** A connection of the pool: the statements its session ran before it is handed out. *)
Record session := MkSession { setup : list string }.
(** A new connection: the dial, and the hook's statement. *)
Definition connect (c : pool_config) (dial hook : option conn_err) : result conn_err session :=
  match dial with
  | Some e => Err e
  | None => match AfterConnect c with
            | None => Ok (MkSession [])
            | Some sql => match hook with Some e => Err e | None => Ok (MkSession [sql]) end
            end
  end.
(** What the outside answers: pgx on the DSN and on the pool, a dial, the hook, the ping. *)
Record answers := MkAnswers { a_parses : bool; a_create : option conn_err; a_dial : option conn_err; a_hook : option conn_err; a_ping : option conn_err }.
Definition NewPool (d : OpsConfig.Database) (a : answers) : result string pool_config :=
  if bool_decide (OpsConfig.db_dsn d = ""%string) then Err "db: database.dsn is empty; set it in the [database] section"%string
  else if negb (a_parses a) then Err "db: parsing database.dsn failed; check the [database] section"%string
  else
    let c := configure d in
    match a_create a with
    | Some e => Err (connError "creating pool" e)
    | None =>
        match connect c (a_dial a) (a_hook a) with
        | Err e => Err (connError "initial ping" e)
        | Ok _ => match a_ping a with Some e => Err (connError "initial ping" e) | None => Ok c end
        end
    end.
Definition Ping (pool : option pool_config) (ping : option conn_err) : option string :=
  match pool with
  | None => Some "db: Ping called with a nil pool"%string
  | Some _ => connError "ping" <$> ping
  end.
End OpsDb.

Module OpsMain.
Import OpsDb.
#[local] Abbreviation Ok := Prelude.Ok.
#[local] Abbreviation Err := Prelude.Err.

(** What a factory is bound to: the shared transport, the pool and the cache. *)
Inductive shared := Alone | WithHosts | WithDb (pool cache : bool) | WithRepo (pool repo cache : bool).
Record built := MkBuilt { b_config : OpsConfig.Config; b_pool : option pool_config; b_cache : option OpsFleetCache.Cache; b_factories : gmap string shared }.
Definition registerFactories (pool : option pool_config) (cache : option OpsFleetCache.Cache) : gmap string shared :=
  let db := WithDb (bool_decide (is_Some pool)) (bool_decide (is_Some cache)) in
  list_to_map [("launcher", Alone); ("hosts", WithHosts); ("build", Alone); ("console", Alone); ("flash", WithHosts);
    ("telemetry", db); ("logs", db); ("ota", WithRepo (bool_decide (is_Some pool)) (bool_decide (is_Some pool)) (bool_decide (is_Some cache)))]%string.
(** The cache's first load, under a context of the connect timeout: one of no length is
    over before the query starts. *)
Definition first_load (d : OpsConfig.Database) (rows : result string (list OpsFleetCache.row)) : OpsFleetCache.Cache :=
  (OpsFleetCache.Load (if OpsConfig.db_connect d <=? 0 then Err "context deadline exceeded"%string else rows) OpsFleetCache.New).2.
Definition build (loaded : result string OpsConfig.Config) (a : answers) (rows : result string (list OpsFleetCache.row)) : result string built :=
  match loaded with
  | Err e => Err e
  | Ok cfg =>
      let d := OpsConfig.database cfg in
      let pool := if bool_decide (OpsConfig.db_dsn d = ""%string) then None else match NewPool d a with Ok c => Some c | Err _ => None end in
      let cache := match pool with Some _ => Some (first_load d rows) | None => None end in
      Ok (MkBuilt cfg pool cache (registerFactories pool cache))
  end.
(** [run]: the exit code. *)
Definition run (loaded : result string OpsConfig.Config) (a : answers) (rows : result string (list OpsFleetCache.row)) (loop : option string) : Z :=
  match build loaded a rows with
  | Err _ => 1
  | Ok _ => match loop with Some _ => 1 | None => 0 end
  end.
(** What the teardown does, in its order. *)
Inductive teardown := StopHosts | ClosePool | CancelRoot.
Definition cancel (b : built) : list teardown := [StopHosts] ++ (match b_pool b with Some _ => [ClosePool] | None => [] end) ++ [CancelRoot].
End OpsMain.

Module OpsMainLaws.
Import OpsDb OpsMain.
#[local] Abbreviation Ok := Prelude.Ok.
#[local] Abbreviation Err := Prelude.Err.

(** Under read_only every connection that a pool hands out, the first as well as any
    later one, ran the read-only statement; one whose hook failed is not handed out. *)
Theorem sessions_read_only d a c dial hook s : OpsConfig.db_read_only d = true → NewPool d a = Ok c →
  connect c dial hook = Ok s → setup s = [readOnlySessionSQL].
Proof.
  unfold NewPool. intros Hro. case_bool_decide; [done|]. destruct (negb _); [done|]. destruct (a_create a); [done|].
  destruct (connect (configure d) _ _) as [|]; [|done]. destruct (a_ping a); [done|]. intros [= <-].
  unfold connect. cbn [AfterConnect configure]. rewrite Hro. destruct dial; [done|]. destruct hook; [done|]. by intros [= <-].
Qed.
(** The host of the database never shows: two failures of the network read the same. *)
Theorem errors_host_free stage t1 t2 : connError stage (Network t1) = connError stage (Network t2).
Proof. done. Qed.
(** Once the configuration loads the program starts, with every pane registered,
    whatever the database does; and the teardown closes the pool exactly if there is one. *)
Theorem starts_without_db cfg a rows : ∃ b, build (Ok cfg) a rows = Ok b ∧ b_config b = cfg ∧
  dom (b_factories b) = {["launcher"; "hosts"; "build"; "console"; "flash"; "telemetry"; "logs"; "ota"]}%string ∧
  (is_Some (b_pool b) ↔ is_Some (b_cache b)) ∧ ((ClosePool ∈ cancel b) ↔ is_Some (b_pool b)).
Proof.
  eexists. split; [reflexivity|]. split; [done|]. split; [cbn [b_factories]; unfold registerFactories; rewrite dom_list_to_map_L; set_solver|].
  cbn [b_pool b_cache]. destruct (if bool_decide _ then _ else _) as [c|].
  - split; [split; intros _; by eexists|]. split; [intros _; by eexists|intros _]. apply elem_of_app. right. left.
  - split; [split; by intros [? ?]|]. split; [|by intros [? ?]]. unfold cancel. cbn [b_pool app]. rewrite !elem_of_cons, elem_of_nil. naive_solver.
Qed.
(** Found as written: a connect timeout of zero is no limit for the pool, and one of no
    length at all for the first load of the cache, which then stays empty. *)
Theorem zero_timeout_empty_cache d rows : OpsConfig.db_connect d = 0 → first_load d rows = ∅ ∧ DialTimeout (configure d) = None.
Proof. intros Hd. unfold first_load, configure. rewrite Hd. done. Qed.
(** Found as written: a statement timeout below a millisecond is sent as zero, which
    turns the limit off. *)
Theorem short_timeout_off d : 0 < OpsConfig.db_statement d < ms → statement_timeout (configure d) = Some "0"%string.
Proof.
  intros Hs. unfold configure. cbn [statement_timeout]. assert (Hlt : (0 <? OpsConfig.db_statement d) = true) by (apply Z.ltb_lt; lia). rewrite Hlt.
  rewrite Z.quot_small by lia. reflexivity.
Qed.
End OpsMainLaws.
